(* ===== verification/_CoqProject ===== *)
-Q . S2P
Prelude.v
Domain.v
Text.v
Packet.v
FrameHash.v
Observation.v
Rate.v
Baseline.v
Fingerprint.v
Ebpf.v
Preflight.v
Ownership.v
Attach.v
OwnershipJournal.v
Tc.v
TcNetlink.v
Xdp.v
Maps.v
Service.v
FingerprintWindow.v
DetectionSignals.v
Detection.v
Evidence.v
Snapshot.v
Incident.v
EvidenceStore.v
EvidenceTree.v
EvidenceStoreFacts.v
Output.v
EvidenceDisk.v
Shared.v
Alert.v
Sampling.v
SamplingFacts.v
Reader.v
Control.v
Transport.v
Daemon.v
Socket.v
Deployment.v
Gate.v
Installation.v
InstallJournal.v
InstallPlan.v
Installer.v
