(* ===== verification/Prelude.v ===== *)
(** * Verification of network-loop

    network-loop detects layer-2 loops and broadcast storms on Linux interfaces.
    eBPF programs on XDP ingress and TC egress count and fingerprint frames; a
    daemon attaches them to one interface, samples their maps every second, derives
    rates, an adaptive baseline and fingerprint correlations, runs a detection state
    machine on them, and turns its transitions into incident revisions that a worker
    persists and raises as alerts.  This library translates the logic of that
    pipeline from [src/crates/l2-loop-common], [l2-loop-core], [l2-loop-agent] and
    [src/ebpf/l2-loop-ebpf], and proves what makes each stage and their composition
    correct.

    ** Parts, in the order data flows

    - [Prelude]: results, machine integers, bounded queues, vectors, tactics.
    - [Domain]: ABI constants and numeric enumerations, errors, interface names and
      lifecycle, policing and probe requests (common [constants.rs]; core
      [value.rs], [error.rs], [interface.rs], [policy.rs], [probe.rs]).
    - [Text]: hexadecimal and separator-based text forms.
    - [Packet], [FrameHash]: frame parser, FNV-1a fingerprint and metadata parser
      (common [abi.rs], [packet.rs], [fingerprint.rs]).
    - [Ebpf]: the four packet programs over per-CPU maps (ebpf [programs.rs],
      [maps.rs]).
    - [Observation], [Snapshot]: counters read from the maps, and the snapshot a
      request returns (core [observation.rs], [command.rs]).
    - [Rate]: bounded sample history and rate windows (core [rate.rs]).
    - [Baseline]: sixteen learning series, thresholds, reports, summary (core
      [baseline.rs]).
    - [Fingerprint], [FingerprintWindow]: one scan grouped into relations, and the
      difference of two scans (core [fingerprint.rs], [fingerprint_window.rs]).
    - [DetectionSignals], [Detection]: signals, and the hysteresis state machine
      with its bounded history (core [detection.rs]).
    - [Preflight], [Ownership], [Attach]: inspection report, ownership records, and
      the transaction that attaches, rolls back and detaches the hooks over the
      ports (core [preflight.rs]; agent [ownership.rs], [attach.rs], [ports.rs]).
    - [Evidence], [Incident]: the evidence contract, and the recorder that consumes
      detection transitions and emits incident revisions (core [evidence.rs]; agent
      [incident.rs]).
    - [Output]: the worker that persists revisions and raises alerts (agent
      [incident_output.rs]).
    - [Shared], [Alert]: mutexes and the store that output and daemon share; alerts,
      their journal entries, the sink and the backend of the worker (agent
      [evidence_store.rs], [alert.rs], [incident_output.rs]).
    - [Sampling], [SamplingFacts]: the service that joins rates, baseline,
      fingerprints, detection and incidents in one tick, and its requests (agent
      [observation.rs]).
    - [Control]: the isolated control's attach, detach, tick, observe, status and shutdown
      over all of the above (agent [daemon.rs], [TransactionIsolatedControl]).
    - [OwnershipJournal]: the journal of a run's ownership record over the calls of
      the file system (agent [ownership.rs]).
    - [Tc], [TcNetlink], [Xdp]: the traffic-control and XDP adapters, their inventories,
      rollbacks and netlink messages (agent [linux/tc.rs], [linux/xdp.rs]).
    - [Maps], [Reader]: the publisher of the eBPF maps, the kernel's maps under the
      traffic of the packet programs, and the reader of observations over the pinned
      maps (agent [linux/maps.rs], [linux/observation.rs]).
    - [EvidenceStore], [EvidenceStoreFacts], [EvidenceDisk], [EvidenceTree]: the
      bounded store of revisions over the file-system trait, what it guarantees, what
      a crash leaves of it, and a file system in memory (agent [evidence_store.rs];
      core [evidence.rs]).
    - [Transport]: commands, requests, responses, frames and the reading of a frame
      (core [command.rs]; agent [protocol.rs], [transport.rs]).
    - [Daemon]: the dispatcher, a connection, the bounded server, the sampling loop
      and their coordination at the end (agent [daemon.rs], [preflight.rs]).
    - [Socket]: the control socket, from the check of its directory to its removal
      (agent [daemon.rs]).
    - [Service]: the driver of two hooks and a policy (agent [service.rs]).
    - [Deployment]: authorizations, performance evidence and gate reports of a canary
      (core [deployment.rs]).
    - [Gate]: the checks of a staged, an installed and an inspected deployment and
      their command (agent [deployment.rs], [deployment_cli.rs]).
    - [Installation], [InstallJournal], [InstallPlan], [Installer]: installation
      reports, the journal of an installation, its planner and service, and the loops
      that apply it and roll it back over the file-system adapter (core
      [installation.rs], [install_journal.rs]; agent [installation.rs],
      [installation_runtime.rs]).

    ** How the code is represented

    An unsigned integer of width w is a [Z] kept within [0 .. 2^w - 1]; checked,
    saturating and wrapping operations are written out with the bound as an argument
    ([checked_add U64_MAX], ...).  [Result] is [result], whose error comes second.
    A function on [&mut self] returns the new state with its result.  A panic
    (index out of range, [expect], arithmetic overflow in a debug build) is [None]
    of an option; that it cannot happen is part of the theorems.  Fixed arrays are
    stdpp vectors, [VecDeque] is a list with its capacity, [BTreeMap] is an
    association list in key order where the order matters.  Code outside the
    repository or with outside effects (eBPF loader, netlink, clock, map reader,
    ownership journal, evidence backend, event identifier source) is a class of
    operations on an abstract world that is threaded through; what the program
    relies on of it, documented there or assumed here, is a second class ([AttachPortsSpec], [ObservationPortsTyped],
    [ControlEnvironmentSpec], [IncidentOutputBackendSpec]) with a concrete instance
    in an example module ([Scripted], [SamplingExample], [ControlExample],
    [OutputExample]), on which the hypotheses are shown to hold.  Enum names that
    clash carry a prefix; free functions that clash carry their type's.

    ** What the theorems show

    - Kernel side: the verifier-friendly fixed-offset parsers equal the reference
      ones, but for IPv4 headers that reach past the prefix; a program always lets the packet pass, counts it in exactly one class
      and conserves every other counter; what it records satisfies the evidence
      contract that userspace enforces, but for the reserved VLAN 4095.
    - Engines: each history keeps an invariant under every sequence of operations,
      its reports satisfy their own validators, and its results equal a
      specification by order statistics, counts or window arithmetic.  Detection
      refines a small machine (three ticks to assert, ten to clear, a cooldown of
      thirty seconds of the clock, which time without evidence is part of); a storm never poisons the baseline it is measured against.
    - Attachment: an attempt ends with exactly the session's resources held or with
      what its cleanup evidence admits to; detach inverts attach.
    - Incidents: revisions form a log of separated incidents; each transition is
      consumed once; the sixteen-revision limit wedges a recorder.
    - Sampling: no sequence of ticks and requests panics, all engines stay about the
      same interface generation, rejected evidence fails closed, the analysis keeps
      its ten-second grid, and a request reports what the engines hold.
    - Output: under every interleaving every job is accounted for, a shutdown that
      does not time out drains the queue, an alert claims stored evidence only for
      stored evidence.
    - Control: end to end no revision is lost; two failure paths of attach and
      detach strand their hooks.
    - Evidence: a committed revision is read back after a crash of the process at any
      call, and after a loss of power (which may leave any of the trees that the
      file-system laws of [EvidenceDisk] allow before a synchronisation) if nothing was
      pending for its event before; neither leaves half of one; retention removes exactly the closed events it may,
      oldest first, and only what it must; the accounts of the store are never below
      what it holds, and recovery counts what is there; a failure in the middle of a
      deletion wedges the store.
    - Daemon: a request arrives as it was sent; every connection is answered and only
      requests reach the handler; listing by commands is complete; the daemon reports
      success only after its session was released, but an abandoned request may still
      run then.
    - Alerts: a journal entry is the fields of its revision and claims stored evidence
      only when the store gives it back; nobody else's socket is removed.
    - Installation: a journal is valid after any prefix of operations, an
      installation interrupted after any call ends with a journal from which it can be
      recovered, or with one of the residues that are shown; rollback restores the
      layout; a performance verdict follows from its trials; the planner's plans are
      characterised, and the service reports success exactly when its writer did
      every step in order.
    - Deployment gate: success is reported for a canary only if everything the report
      stands for was read and checked, and every command ends with a valid report.
    - Adapters: an attachment asks only for changes that its queries and changes
      before justify, succeeds only on a query that shows its filter, and when it
      fails, its recorded changes are undone or it says which are not; a slot is chosen only if the dump shows it unused; the XDP detach does not bind the
      program it names.
    - Ownership journal: whichever call fails, the journal holds the old record or the
      new one; a load gives back the record that was saved, and only the record the
      caller holds is removed.
    - Observation end to end: from the creation of the counters to the numbers of a
      reading, with packets arriving at any moment on any CPU, every counter shows
      exactly the packets the programs counted under its key; a reading is of its own
      session's hooks and maps; and how the publisher fails under traffic or when a
      removal fails.

    ** Bounds and fuel

    Recursion is structural, or on fuel where the code loops on a condition: the
    installer takes one step per entry of a journal ([INSTALLER_FUEL]), the manifest
    settles its own length ([MANIFEST_FUEL]), a bounded read ends with its buffer;
    theorems show that the fuel given is enough ([interrupted_install_is_recoverable],
    [put_correct], [read_frame_spec]).  Queues are bounded as in the code: 64 rate
    samples, 300 samples per series, 8192 fingerprints, 16 detection transitions, 32
    incident jobs, 32 queued jobs, 1000 events of evidence, 16 handlers.  The theorems
    over whole sessions ask that the number of commands times a small constant fits
    in 64 bits, because transition sequences are counted there; at one tick a second
    that outlasts any run.

    ** Not modelled

    The other Linux adapters behind the ports ([linux/] but for the traffic-control, XDP,
    map and observation adapters, and [host_acceptance.rs]) are
    sequences of system calls, netlink and bpf(2) requests whose results are the
    parameters of the model; [installation_layout.rs] walks directory descriptors of
    such an adapter.  Serde encodings, the client's command line with its rendering,
    [main] functions and the build tooling are input and output around the modelled
    contracts. *)
From stdpp Require Export base numbers list strings option vector finite gmap sorting.
From Stdlib Require Export Lia ZArith ZifyBool.

#[global] Open Scope Z_scope.

(** ** Results *)

(** Rust's [Result<A, E>]. *)
Inductive result (E A : Type) : Type :=
| Ok (a : A)
| Err (e : E).
Arguments Ok {E A} a.
Arguments Err {E A} e.

#[export] Instance result_ret {E} : MRet (result E) := λ A a, Ok a.
#[export] Instance result_bind {E} : MBind (result E) := λ A B f m,
  match m with Ok a => f a | Err e => Err e end.
#[export] Instance result_fmap {E} : FMap (result E) := λ A B f m,
  match m with Ok a => Ok (f a) | Err e => Err e end.

#[export] Instance result_eq_dec {E A} `{EqDecision E, EqDecision A} :
  EqDecision (result E A).
Proof. solve_decision. Defined.

(** [Result::map_err]. *)
Definition map_err {E F A} (f : E → F) (m : result E A) : result F A :=
  match m with Ok a => Ok a | Err e => Err (f e) end.

(** [Option::ok_or]. *)
Definition ok_or {E A} (o : option A) (e : E) : result E A :=
  match o with Some a => Ok a | None => Err e end.

Definition is_ok {E A} (m : result E A) : bool :=
  match m with Ok _ => true | Err _ => false end.

(** [Option::is_some_and]. *)
Definition is_some_and {A} (o : option A) (f : A → bool) : bool :=
  match o with Some a => f a | None => false end.

(** [Option::is_none_or]. *)
Definition is_none_or {A} (o : option A) (f : A → bool) : bool :=
  match o with Some a => f a | None => true end.

Definition is_some {A} (o : option A) : bool :=
  match o with Some _ => true | None => false end.

Definition is_none {A} (o : option A) : bool :=
  match o with Some _ => false | None => true end.

Lemma bind_Ok {E A B} (f : A → result E B) (m : result E A) b :
  m ≫= f = Ok b ↔ ∃ a, m = Ok a ∧ f a = Ok b.
Proof. destruct m; cbn; naive_solver. Qed.

Lemma bind_Err {E A B} (f : A → result E B) (m : result E A) e :
  m ≫= f = Err e ↔ m = Err e ∨ ∃ a, m = Ok a ∧ f a = Err e.
Proof. destruct m; cbn; naive_solver. Qed.

Lemma ok_or_Ok {E A} (o : option A) (e : E) a : ok_or o e = Ok a ↔ o = Some a.
Proof. destruct o; cbn; naive_solver. Qed.

Lemma map_err_Ok {E F A} (f : E → F) (m : result E A) a :
  map_err f m = Ok a ↔ m = Ok a.
Proof. destruct m; cbn; naive_solver. Qed.

Lemma is_ok_true {E A} (m : result E A) : is_ok m = true ↔ ∃ a, m = Ok a.
Proof. destruct m; cbn; naive_solver. Qed.

(** ** Loops that may return early *)

(** A [for] loop whose body updates an accumulator and may leave the enclosing
    function with [return Err(..)] or [?]. *)
Fixpoint try_fold {E A B} (f : B → A → result E B) (acc : B) (l : list A) : result E B :=
  match l with
  | [] => Ok acc
  | x :: l => acc' ← f acc x; try_fold f acc' l
  end.

(** A [for] loop that only checks. *)
Definition try_for_each {E A} (f : A → result E unit) (l : list A) : result E unit :=
  try_fold (λ _ x, f x) tt l.

Section try_fold.
Context {E A B : Type} (f : B → A → result E B).

Lemma try_fold_app acc l1 l2 :
  try_fold f acc (l1 ++ l2) = (acc' ← try_fold f acc l1; try_fold f acc' l2).
Proof.
  revert acc; induction l1 as [|x l1 IH]; intros acc; [done|].
  simpl. destruct (f acc x); [apply IH|done].
Qed.

(** The loop rule: [I done acc] relates the elements already handled to the
    accumulator. *)
Lemma try_fold_ind (I : list A → B → Prop) acc l acc' :
  I [] acc →
  (∀ don x b b', don ++ [x] `prefix_of` l → I don b → f b x = Ok b' → I (don ++ [x]) b') →
  try_fold f acc l = Ok acc' → I l acc'.
Proof.
  intros H0 Hstep.
  assert (∀ don todo acc, don ++ todo = l → I don acc →
    try_fold f acc todo = Ok acc' → I l acc') as Hgen.
  { intros don todo; revert don; induction todo as [|x todo IH]; intros don b Hl Hb Hf.
    - simpl in Hf. rewrite app_nil_r in Hl. naive_solver.
    - apply bind_Ok in Hf as (b' & Hx & Hf).
      apply (IH (don ++ [x]) b'); [by rewrite <-app_assoc| |done].
      eapply Hstep; eauto. exists todo. by rewrite <-app_assoc. }
  intros Hf. by eapply (Hgen [] l).
Qed.

(** Progress: a loop whose body succeeds from every invariant state succeeds. *)
Lemma try_fold_total (I : list A → B → Prop) acc l :
  I [] acc →
  (∀ don x b, don ++ [x] `prefix_of` l → I don b →
    ∃ b', f b x = Ok b' ∧ I (don ++ [x]) b') →
  ∃ acc', try_fold f acc l = Ok acc' ∧ I l acc'.
Proof.
  intros H0 Hstep.
  assert (∀ don todo acc, don ++ todo = l → I don acc →
    ∃ acc', try_fold f acc todo = Ok acc' ∧ I l acc') as Hgen.
  { intros don todo; revert don; induction todo as [|x todo IH]; intros don b Hl Hb.
    - rewrite app_nil_r in Hl. subst. by exists b.
    - destruct (Hstep don x b) as (b' & Hx & Hb'); [|done|].
      { exists todo. by rewrite <-app_assoc. }
      simpl. rewrite Hx. simpl.
      apply (IH (don ++ [x]) b'); [by rewrite <-app_assoc|done]. }
  by apply (Hgen [] l).
Qed.
End try_fold.

Lemma try_for_each_Ok {E A} (f : A → result E unit) l :
  try_for_each f l = Ok tt ↔ Forall (λ x, f x = Ok tt) l.
Proof.
  unfold try_for_each. induction l as [|x l IH]; simpl.
  - split; auto.
  - rewrite Forall_cons, <-IH. destruct (f x) as [[]|]; naive_solver.
Qed.

(** ** Machine integers

    An unsigned integer of the source is a [Z]; [uN_MAX] is its largest value
    and the checked, saturating and wrapping operations are those of the Rust
    standard library. *)
Definition U8_MAX : Z := 255.
Definition U16_MAX : Z := 65535.
Definition U32_MAX : Z := 4294967295.
Definition U64_MAX : Z := 18446744073709551615.
Definition U128_MAX : Z := 340282366920938463463374607431768211455.

Definition is_u8 (z : Z) : Prop := 0 ≤ z ≤ U8_MAX.
Definition is_u16 (z : Z) : Prop := 0 ≤ z ≤ U16_MAX.
Definition is_u32 (z : Z) : Prop := 0 ≤ z ≤ U32_MAX.
Definition is_u64 (z : Z) : Prop := 0 ≤ z ≤ U64_MAX.
Definition is_u128 (z : Z) : Prop := 0 ≤ z ≤ U128_MAX.

Definition checked_add (max a b : Z) : option Z :=
  if a + b <=? max then Some (a + b) else None.
Definition checked_sub (a b : Z) : option Z :=
  if b <=? a then Some (a - b) else None.
Definition checked_mul (max a b : Z) : option Z :=
  if a * b <=? max then Some (a * b) else None.
Definition checked_div (a b : Z) : option Z :=
  if b =? 0 then None else Some (a / b).
Definition saturating_add (max a b : Z) : Z := Z.min max (a + b).
Definition saturating_mul (max a b : Z) : Z := Z.min max (a * b).
Definition saturating_sub (a b : Z) : Z := Z.max 0 (a - b).
Definition abs_diff (a b : Z) : Z := Z.abs (a - b).
(** [uN::try_from] of a wider unsigned integer. *)
Definition try_from_wide (max a : Z) : option Z :=
  if a <=? max then Some a else None.
(** [as uN]: keep the low bits. *)
Definition as_u8 (a : Z) : Z := Z.land a U8_MAX.
Definition as_u16 (a : Z) : Z := Z.land a U16_MAX.
Definition wrapping_add_u64 (a b : Z) : Z := (a + b) `mod` (U64_MAX + 1).
Definition wrapping_mul_u64 (a b : Z) : Z := (a * b) `mod` (U64_MAX + 1).
(** [u16::from_be_bytes]. *)
Definition u16_from_be (hi lo : Z) : Z := Z.lor (Z.shiftl hi 8) lo.

Create HintDb machine discriminated.
#[export] Hint Unfold is_u8 is_u16 is_u32 is_u64 is_u128
  U8_MAX U16_MAX U32_MAX U64_MAX U128_MAX
  checked_add checked_sub checked_mul checked_div
  saturating_add saturating_mul saturating_sub abs_diff try_from_wide : machine.

(** Arithmetic over machine integers: expose the bounds and call [lia]. *)
Ltac ulia := repeat autounfold with machine in *; lia.

Lemma checked_add_Some max a b c :
  checked_add max a b = Some c ↔ c = a + b ∧ a + b ≤ max.
Proof. unfold checked_add. destruct (Z.leb_spec (a + b) max); naive_solver lia. Qed.

Lemma checked_sub_Some a b c : checked_sub a b = Some c ↔ c = a - b ∧ b ≤ a.
Proof. unfold checked_sub. destruct (Z.leb_spec b a); naive_solver lia. Qed.

Lemma checked_mul_Some max a b c :
  checked_mul max a b = Some c ↔ c = a * b ∧ a * b ≤ max.
Proof. unfold checked_mul. destruct (Z.leb_spec (a * b) max); naive_solver lia. Qed.

Lemma try_from_wide_Some max a b :
  try_from_wide max a = Some b ↔ b = a ∧ a ≤ max.
Proof. unfold try_from_wide. destruct (Z.leb_spec a max); naive_solver lia. Qed.

Lemma checked_add_ok max a b : a + b ≤ max → checked_add max a b = Some (a + b).
Proof. intros. by apply checked_add_Some. Qed.

Lemma checked_sub_ok a b : b ≤ a → checked_sub a b = Some (a - b).
Proof. intros. by apply checked_sub_Some. Qed.

Lemma checked_mul_ok max a b : a * b ≤ max → checked_mul max a b = Some (a * b).
Proof. intros. by apply checked_mul_Some. Qed.

Lemma checked_div_ok a b : b ≠ 0 → checked_div a b = Some (a / b).
Proof. intros. unfold checked_div. by destruct (Z.eqb_spec b 0). Qed.

Lemma try_from_wide_ok max a : a ≤ max → try_from_wide max a = Some a.
Proof. intros. by apply try_from_wide_Some. Qed.

Lemma as_u8_small a : is_u8 a → as_u8 a = a.
Proof.
  intros H. unfold as_u8. change U8_MAX with (Z.ones 8).
  rewrite Z.land_ones by lia. apply Z.mod_small. ulia.
Qed.

Lemma as_u16_small a : is_u16 a → as_u16 a = a.
Proof.
  intros H. unfold as_u16. change U16_MAX with (Z.ones 16).
  rewrite Z.land_ones by lia. apply Z.mod_small. ulia.
Qed.

(** Packing disjoint bit fields is addition. *)
Lemma lor_shiftl_add a b n :
  0 ≤ n → 0 ≤ a < 2 ^ n → Z.lor a (Z.shiftl b n) = a + b * 2 ^ n.
Proof.
  intros Hn Ha. rewrite Z.shiftl_mul_pow2 by done.
  symmetry. apply Z.add_nocarry_lor, Z.bits_inj'. intros i Hi.
  rewrite Z.land_spec, Z.bits_0, <-Z.shiftl_mul_pow2, Z.shiftl_spec by done.
  destruct (Z.lt_ge_cases i n) as [Hlt|Hge].
  - rewrite (Z.testbit_neg_r b) by lia. apply andb_false_r.
  - rewrite <-(Z.mod_small a (2 ^ n)) by done.
    rewrite Z.mod_pow2_bits_high by lia. done.
Qed.

Lemma u16_from_be_range hi lo :
  is_u8 hi → is_u8 lo → is_u16 (u16_from_be hi lo).
Proof.
  intros Hh Hl. unfold u16_from_be. rewrite Z.lor_comm, lor_shiftl_add by ulia. ulia.
Qed.

(** ** Bounded double-ended queues

    A [VecDeque] is a list whose head is its front.  The source bounds its
    queues in two ways: drop the front of a full queue and push, or push and
    drop the front when the capacity is exceeded.  Both keep the last [cap]
    elements. *)
Definition pop_front {A} (q : list A) : list A := tail q.
Definition push_back {A} (q : list A) (x : A) : list A := q ++ [x].
Definition front {A} (q : list A) : option A := head q.
Definition back {A} (q : list A) : option A := last q.

Definition evict_then_push {A} (cap : nat) (q : list A) (x : A) : list A :=
  push_back (if (length q =? cap)%nat then pop_front q else q) x.
Definition push_then_evict {A} (cap : nat) (q : list A) (x : A) : list A :=
  let q := push_back q x in
  if (cap <? length q)%nat then pop_front q else q.

Definition keep_last {A} (cap : nat) (q : list A) : list A :=
  drop (length q - cap) q.

Section queue.
Context {A : Type}.
Implicit Types (q : list A) (x : A).

Lemma evict_then_push_keep_last cap q x :
  (0 < cap)%nat → (length q ≤ cap)%nat →
  evict_then_push cap q x = keep_last cap (q ++ [x]).
Proof.
  intros Hc Hq. unfold evict_then_push, keep_last, push_back, pop_front.
  rewrite length_app; simpl.
  destruct (Nat.eqb_spec (length q) cap) as [He|Hne].
  - replace (length q + 1 - cap)%nat with 1%nat by lia.
    destruct q; simpl in *; [lia|done].
  - replace (length q + 1 - cap)%nat with 0%nat by lia. done.
Qed.

Lemma push_then_evict_keep_last cap q x :
  (0 < cap)%nat → (length q ≤ cap)%nat →
  push_then_evict cap q x = keep_last cap (q ++ [x]).
Proof.
  intros Hc Hq. unfold push_then_evict, keep_last, push_back, pop_front.
  rewrite length_app; simpl.
  destruct (Nat.ltb_spec cap (length q + 1)) as [He|Hne].
  - replace (length q + 1 - cap)%nat with 1%nat by lia.
    destruct q; simpl in *; [lia|done].
  - replace (length q + 1 - cap)%nat with 0%nat by lia. done.
Qed.

Lemma keep_last_suffix cap q : keep_last cap q `suffix_of` q.
Proof. exists (take (length q - cap) q). unfold keep_last. by rewrite take_drop. Qed.

Lemma keep_last_length cap q : length (keep_last cap q) = Nat.min cap (length q).
Proof. unfold keep_last. rewrite length_drop. lia. Qed.

Lemma keep_last_snoc cap q x :
  (0 < cap)%nat → ∃ q', keep_last cap (q ++ [x]) = q' ++ [x] ∧ q' `suffix_of` q.
Proof.
  intros Hc. unfold keep_last. rewrite length_app; simpl.
  exists (drop (length q + 1 - cap) q). split.
  - rewrite drop_app_le by lia. done.
  - exists (take (length q + 1 - cap) q). by rewrite take_drop.
Qed.

Lemma keep_last_push cap q x :
  (0 < cap)%nat → keep_last cap (keep_last cap q ++ [x]) = keep_last cap (q ++ [x]).
Proof.
  intros Hc. unfold keep_last. rewrite !length_app, !length_drop. simpl.
  rewrite (drop_app_le q) by lia.
  destruct (Nat.le_gt_cases (length q) cap) as [Hle|Hgt].
  - replace (length q - cap)%nat with 0%nat by lia. rewrite drop_0.
    rewrite drop_app_le by lia. f_equal. f_equal. lia.
  - rewrite drop_app_le by (rewrite length_drop; lia). rewrite drop_drop. f_equal. f_equal. lia.
Qed.

Lemma keep_last_lookup cap q i :
  (length q - cap ≤ i)%nat → (i < length q)%nat →
  ∃ x, q !! i = Some x ∧ In x (keep_last cap q).
Proof.
  intros H1 H2. destruct (lookup_lt_is_Some_2 q i H2) as [x Hx]. exists x. split; [done|].
  apply list_elem_of_In, list_elem_of_lookup. exists (i - (length q - cap))%nat.
  unfold keep_last. rewrite lookup_drop. rewrite <-Hx. f_equal. lia.
Qed.

Lemma back_snoc q x : back (q ++ [x]) = Some x.
Proof. apply last_snoc. Qed.

Lemma suffix_Forall (P : A → Prop) q q' : q' `suffix_of` q → Forall P q → Forall P q'.
Proof. intros [k ->] H. by apply Forall_app in H as [_ ?]. Qed.

Lemma suffix_StronglySorted (R : A → A → Prop) q q' :
  q' `suffix_of` q → StronglySorted R q → StronglySorted R q'.
Proof.
  intros [k ->]. induction k as [|y k IH]; [done|].
  simpl. inversion 1; auto.
Qed.

Lemma StronglySorted_snoc (R : A → A → Prop) q x :
  StronglySorted R q → Forall (λ y, R y x) q → StronglySorted R (q ++ [x]).
Proof.
  induction 1 as [|y q Hs IH Hy]; intros Hx; simpl.
  - repeat constructor.
  - apply Forall_cons in Hx as [? ?]. constructor; [auto|].
    apply Forall_app; auto.
Qed.
End queue.

(** ** Pointwise checks over zipped lists and vectors *)

Lemma forallb_zip_Forall2 {A B} (f : A * B → bool) (l : list A) (k : list B) :
  length l = length k →
  forallb f (zip l k) = true ↔ Forall2 (λ x y, f (x, y) = true) l k.
Proof.
  revert k. induction l as [|x l IH]; intros [|y k] Hl; simplify_eq/=.
  - split; [constructor|done].
  - rewrite andb_true_iff, IH, Forall2_cons by done. done.
Qed.

Lemma forallb_zip_vlookup {A B n} (f : A * B → bool) (v : vec A n) (w : vec B n) :
  forallb f (zip (vec_to_list v) (vec_to_list w)) = true ↔
  ∀ i, f (v !!! i, w !!! i) = true.
Proof.
  rewrite forallb_zip_Forall2 by (by rewrite !length_vec_to_list).
  apply (Forall2_vlookup (λ x y, f (x, y) = true)).
Qed.

Lemma existsb_false_Forall {A} (f : A → bool) (l : list A) :
  existsb f l = false ↔ Forall (λ x, f x = false) l.
Proof.
  induction l as [|x l IH]; simpl; [split; [constructor|done]|].
  rewrite orb_false_iff, Forall_cons, IH. done.
Qed.

(** Every member of a sorted queue is its newest element or related to it. *)
Lemma StronglySorted_back {A} (R : A → A → Prop) (q : list A) x y :
  StronglySorted R q → back q = Some y → In x q → x = y ∨ R x y.
Proof.
  induction 1 as [|z q Hs IH Hz]; intros Hb; [done|]. intros [->|Hin].
  - destruct q as [|w q]; [left; by injection Hb|].
    right. rewrite Forall_forall in Hz. apply Hz.
    apply last_Some in Hb as [q' Hq']. destruct q' as [|? q']; [done|].
    injection Hq' as _ ->. apply elem_of_app. right. by apply list_elem_of_here.
  - apply IH; [|done]. by destruct q.
Qed.

Lemma StronglySorted_front {A} (R : A → A → Prop) (q : list A) x y :
  StronglySorted R q → front q = Some y → In x q → x = y ∨ R y x.
Proof.
  intros Hs Hf Hin. destruct Hs as [|z q Hs Hz]; [done|]. injection Hf as ->.
  destruct Hin as [->|Hin]; [by left|right]. rewrite List.Forall_forall in Hz. by apply Hz.
Qed.

Lemma back_In {A} (q : list A) y : back q = Some y → In y q.
Proof.
  intros [q' ->]%last_Some. apply in_app_iff. right. by left.
Qed.

(** ** Loops over the indices of an array *)

(** [for index in 0..n] over a state. *)
Definition for_each_index {n S} (body : fin n → S → S) (s : S) : S :=
  foldl (λ s i, body i s) s (enum (fin n)).

(** A loop whose body changes only its own index computes the pointwise map. *)
Lemma for_each_index_pointwise {n S A} (body : fin n → S → S) (view : S → fin n → A)
    (g : fin n → A → A) :
  (∀ i s, view (body i s) i = g i (view s i)) →
  (∀ i j s, i ≠ j → view (body i s) j = view s j) →
  ∀ s i, view (for_each_index body s) i = g i (view s i).
Proof.
  intros Hsame Hother s i. unfold for_each_index.
  assert (∀ l s, NoDup l →
    view (foldl (λ s i, body i s) s l) i =
      if decide (i ∈ l) then g i (view s i) else view s i) as Hgen.
  { intros l. induction l as [|j l IH]; intros s' Hnd; cbn [foldl].
    - case_decide as Hi; [by apply not_elem_of_nil in Hi|done].
    - apply NoDup_cons in Hnd as [Hj Hnd]. rewrite IH by done.
      destruct (decide (i = j)) as [->|Hne].
      + destruct (decide (j ∈ l)) as [?|_]; [done|].
        destruct (decide (j ∈ j :: l)) as [_|Hn]; [apply Hsame|].
        destruct Hn. apply list_elem_of_here.
      + rewrite Hother by done. repeat case_decide; try done; exfalso;
          rewrite elem_of_cons in *; tauto. }
  rewrite Hgen by apply NoDup_enum. by rewrite decide_True by apply elem_of_enum.
Qed.

(** A checking loop over [array.iter().enumerate()]. *)
Lemma try_for_each_enumerate {E A n} (f : nat → A → result E unit) (v : vec A n) :
  try_for_each (λ p, f p.1 p.2) (zip (seq 0 n) (vec_to_list v)) = Ok tt ↔
  ∀ i : fin n, f i (v !!! i) = Ok tt.
Proof.
  rewrite try_for_each_Ok.
  assert (∀ k, Forall (λ p, f p.1 p.2 = Ok tt) (zip (seq k n) (vec_to_list v)) ↔
    ∀ i : fin n, f (k + i)%nat (v !!! i) = Ok tt) as H; [|apply (H 0%nat)].
  induction v as [|x n v IH]; intros k; cbn [seq vec_to_list zip zip_with].
  - split; [intros _ i; inv_fin i|constructor].
  - rewrite Forall_cons, IH. cbn [fst snd]. split.
    + intros [Hx Hi] i. inv_fin i; [by rewrite Nat.add_0_r|].
      intros i. cbn. rewrite Nat.add_succ_r. apply Hi.
    + intros Hi. split; [specialize (Hi 0%fin); by rewrite Nat.add_0_r in Hi|].
      intros i. specialize (Hi (FS i)). cbn in Hi. by rewrite Nat.add_succ_r in Hi.
Qed.

(** ** Ordered maps and sets

    A [BTreeMap] is a [gmap]; iterating it visits the entries in the order of
    the key type, which for the derived orders of the source is the
    lexicographic order of the key's fields. *)
Fixpoint lex_leb (l k : list Z) : bool :=
  match l, k with
  | [], _ => true
  | _, [] => false
  | x :: l, y :: k => (x <? y) || (x =? y) && lex_leb l k
  end.

Definition btree_iter {K V} `{Countable K} (fields : K → list Z) (m : gmap K V) : list (K * V) :=
  merge_sort (λ a b, Is_true (lex_leb (fields a.1) (fields b.1))) (map_to_list m).

Definition btree_values {K V} `{Countable K} (fields : K → list Z) (m : gmap K V) : list V :=
  snd <$> btree_iter fields m.

Lemma btree_iter_Permutation {K V} `{Countable K} (fields : K → list Z) (m : gmap K V) :
  btree_iter fields m ≡ₚ map_to_list m.
Proof. apply merge_sort_Permutation. Qed.

Lemma elem_of_btree_iter {K V} `{Countable K} (fields : K → list Z) (m : gmap K V) k v :
  (k, v) ∈ btree_iter fields m ↔ m !! k = Some v.
Proof. by rewrite btree_iter_Permutation, elem_of_map_to_list. Qed.

Lemma NoDup_btree_iter_fst {K V} `{Countable K} (fields : K → list Z) (m : gmap K V) :
  NoDup (fst <$> btree_iter fields m).
Proof. rewrite btree_iter_Permutation. apply NoDup_fst_map_to_list. Qed.

(** ** Counting *)
Definition count_if {A} (p : A → bool) (l : list A) : Z :=
  Z.of_nat (length (List.filter p l)).

Lemma count_if_nil {A} (p : A → bool) : count_if p [] = 0.
Proof. done. Qed.

Lemma count_if_cons {A} (p : A → bool) x l :
  count_if p (x :: l) = (if p x then 1 else 0) + count_if p l.
Proof. unfold count_if. simpl. destruct (p x); simpl; lia. Qed.

Lemma count_if_app {A} (p : A → bool) l k : count_if p (l ++ k) = count_if p l + count_if p k.
Proof. unfold count_if. rewrite List.filter_app, length_app. lia. Qed.

Lemma count_if_snoc {A} (p : A → bool) l x :
  count_if p (l ++ [x]) = count_if p l + (if p x then 1 else 0).
Proof. rewrite count_if_app, count_if_cons, count_if_nil. lia. Qed.

Lemma count_if_range {A} (p : A → bool) l : 0 ≤ count_if p l ≤ Z.of_nat (length l).
Proof. unfold count_if. pose proof (List.filter_length_le p l). lia. Qed.

Lemma count_if_fmap {A B} (p : B → bool) (f : A → B) l :
  count_if p (f <$> l) = count_if (λ x, p (f x)) l.
Proof.
  induction l as [|x l IH]; [done|]. rewrite fmap_cons, !count_if_cons. by rewrite IH.
Qed.

Lemma count_if_Permutation {A} (p : A → bool) l k :
  Permutation l k → count_if p l = count_if p k.
Proof. induction 1; rewrite ?count_if_cons in *; lia. Qed.

(** Predicates that split a third one split its count. *)
Lemma count_if_split {A} (p q r : A → bool) l :
  (∀ x, x ∈ l → (if p x then 1 else 0) + (if q x then 1 else 0) = (if r x then 1 else 0)) →
  count_if p l + count_if q l = count_if r l.
Proof.
  induction l as [|x l IH]; intros Hs; [done|]. rewrite !count_if_cons.
  pose proof (Hs x ltac:(apply list_elem_of_here)).
  rewrite <-IH by (intros; apply Hs; by apply list_elem_of_further). lia.
Qed.

Lemma count_if_mono {A} (p q : A → bool) l :
  (∀ x, x ∈ l → p x = true → q x = true) → count_if p l ≤ count_if q l.
Proof.
  induction l as [|x l IH]; intros Hs; [done|]. rewrite !count_if_cons.
  pose proof (Hs x ltac:(apply list_elem_of_here)) as Hx.
  assert (count_if p l ≤ count_if q l) by (apply IH; intros; eapply Hs; [by apply list_elem_of_further|done]).
  destruct (p x); [rewrite Hx by done; lia|]. destruct (q x); lia.
Qed.

Lemma count_if_true {A} (l : list A) : count_if (λ _, true) l = Z.of_nat (length l).
Proof. induction l as [|x l IH]; [done|]. rewrite count_if_cons, IH. simpl length. lia. Qed.

(** ** Sums *)
Definition sum_of {A} (f : A → Z) (l : list A) : Z := foldr (λ x s, f x + s) 0 l.

Lemma sum_of_cons {A} (f : A → Z) x l : sum_of f (x :: l) = f x + sum_of f l.
Proof. done. Qed.

Lemma sum_of_app {A} (f : A → Z) l k : sum_of f (l ++ k) = sum_of f l + sum_of f k.
Proof. induction l as [|x l IH]; [done|]. simpl. rewrite IH. lia. Qed.

Lemma sum_of_snoc {A} (f : A → Z) l x : sum_of f (l ++ [x]) = sum_of f l + f x.
Proof. rewrite sum_of_app. simpl. lia. Qed.

Lemma sum_of_nonneg {A} (f : A → Z) l : (∀ x, x ∈ l → 0 ≤ f x) → 0 ≤ sum_of f l.
Proof.
  induction l as [|x l IH]; intros Hf; [done|]. simpl.
  pose proof (Hf x ltac:(apply list_elem_of_here)).
  assert (0 ≤ sum_of f l) by (apply IH; intros; apply Hf; by apply list_elem_of_further). lia.
Qed.

Lemma sum_of_Permutation {A} (f : A → Z) l k : Permutation l k → sum_of f l = sum_of f k.
Proof. induction 1; simpl; lia. Qed.

Lemma sum_of_fmap {A B} (f : B → Z) (g : A → B) l : sum_of f (g <$> l) = sum_of (λ x, f (g x)) l.
Proof. induction l as [|x l IH]; [done|]. simpl. by rewrite <-IH. Qed.

(** A prefix of a sum of non-negative terms is below the whole. *)
Lemma sum_of_prefix {A} (f : A → Z) l k :
  (∀ x, x ∈ k → 0 ≤ f x) → l `prefix_of` k → sum_of f l ≤ sum_of f k.
Proof.
  intros Hf [k' ->]. rewrite sum_of_app.
  pose proof (sum_of_nonneg f k' ltac:(intros; apply Hf, elem_of_app; by right)). lia.
Qed.

(** ** Maxima *)
Lemma foldr_max_nonneg l : 0 ≤ foldr Z.max 0 l.
Proof. induction l; simpl; lia. Qed.

Lemma foldr_max_snoc l x : foldr Z.max 0 (l ++ [x]) = Z.max (foldr Z.max 0 l) x.
Proof.
  assert (∀ l, 0 ≤ foldr Z.max 0 l) as Hpos by (intros k; induction k; simpl; lia).
  induction l as [|y l IH]; simpl; [lia|]. rewrite IH. pose proof (Hpos l). lia.
Qed.

Lemma foldr_max_le (l : list Z) m : 0 ≤ m → foldr Z.max 0 l ≤ m ↔ Forall (λ x, x ≤ m) l.
Proof.
  intros Hm. induction l as [|x l IH]; cbn; [by split|]. rewrite Forall_cons, <-IH. lia.
Qed.

(** ** Order statistics *)
Definition count_lt (m : Z) (l : list Z) : nat := length (filter (λ v, v < m) l).
Definition count_le (m : Z) (l : list Z) : nat := length (filter (λ v, v ≤ m) l).

Lemma count_le_mono m m' l : m < m' → (count_le m l ≤ count_lt m' l)%nat.
Proof.
  intros Hm. unfold count_le, count_lt. induction l as [|x l IH]; [done|].
  rewrite !filter_cons. repeat case_decide; simpl; lia.
Qed.

Lemma sorted_counts l k m :
  StronglySorted Z.le l → l !! k = Some m →
  (count_lt m l ≤ k)%nat ∧ (k < count_le m l)%nat.
Proof.
  intros Hs. revert k. induction Hs as [|x l Hs IH Hx]; intros k Hk; [done|].
  unfold count_lt, count_le in *. rewrite !filter_cons. destruct k as [|k].
  - injection Hk as ->. rewrite decide_False by lia. rewrite decide_True by lia.
    split; [|simpl; lia].
    assert (filter (λ v, v < m) l = []) as ->; [|done].
    clear -Hx. induction Hx as [|y l Hy _ IH]; [done|].
    rewrite filter_cons, decide_False by lia. done.
  - simpl in Hk. destruct (IH k Hk).
    assert (x ≤ m) by (rewrite Forall_forall in Hx; by eapply Hx, list_elem_of_lookup_2).
    rewrite (decide_True (P := x ≤ m)) by done. case_decide; simpl; lia.
Qed.

(** The element of rank [k] of the sorted list has at most [k] smaller values and
    more than [k] values not above it. *)
Lemma merge_sort_rank (l : list Z) k m :
  merge_sort Z.le l !! k = Some m → m ∈ l ∧ (count_lt m l ≤ k < count_le m l)%nat.
Proof.
  intros Hk. pose proof (merge_sort_Permutation Z.le l) as Hp.
  destruct (sorted_counts _ _ _ (StronglySorted_merge_sort Z.le l) Hk) as [H1 H2].
  unfold count_lt, count_le in *. rewrite Hp in H1, H2. split; [|lia].
  rewrite <-Hp. by eapply list_elem_of_lookup_2.
Qed.

(** ** [Iterator::find] *)
Lemma find_app {A} (f : A → bool) (l k : list A) :
  List.find f (l ++ k) = match List.find f l with Some x => Some x | None => List.find f k end.
Proof. induction l as [|x l IH]; [done|]. cbn. by destruct (f x). Qed.

Lemma find_none_forall {A} (f : A → bool) (l : list A) :
  Forall (λ x, f x = false) l → List.find f l = None.
Proof. induction 1 as [|x l Hx _ IH]; [done|]. cbn. by rewrite Hx. Qed.

(** ** The order of byte arrays *)
Fixpoint lex_cmp (l k : list Z) : comparison :=
  match l, k with
  | [], [] => Eq
  | [], _ => Lt
  | _, [] => Gt
  | x :: l, y :: k => match x ?= y with Eq => lex_cmp l k | order => order end
  end.

Lemma lex_cmp_antisym l k : lex_cmp k l = CompOpp (lex_cmp l k).
Proof.
  revert k. induction l as [|x l IH]; intros [|y k]; [done..|]. cbn. rewrite (Z.compare_antisym x y).
  destruct (x ?= y); [apply IH|done..].
Qed.

Lemma lex_cmp_Eq l k : lex_cmp l k = Eq → l = k.
Proof.
  revert k. induction l as [|x l IH]; intros [|y k]; try done. cbn.
  destruct (Z.compare_spec x y); try done. subst. intros ?%IH. congruence.
Qed.

Lemma lex_cmp_trans l k m : lex_cmp l k = Lt → lex_cmp k m = Lt → lex_cmp l m = Lt.
Proof.
  revert k m. induction l as [|x l IH]; intros [|y k] [|z m]; try done. cbn.
  destruct (Z.compare_spec x y), (Z.compare_spec y z), (Z.compare_spec x z); try done; try lia; try (subst; lia).
  subst. apply IH.
Qed.

(** ** Operations on a world *)

(** The question mark operator on a call that also changes the world. *)
Definition and_then {W E A B} (m : W * result E A) (f : W → A → W * result E B) : W * result E B :=
  match m with (w, Ok a) => f w a | (w, Err error) => (w, Err error) end.

Notation "'let*' ( w , x ) := m 'in' k" := (and_then m (λ w x, k))
  (at level 200, w name, x pattern, m at level 100, k at level 200, only parsing) : stdpp_scope.

(** The error of such a call, replaced. *)
Definition or_error {W E E' A} (m : W * result E A) (error : E') : W * result E' A :=
  (m.1, map_err (λ _, error) m.2).

Lemma and_then_Ok {W E A B} (m : W * result E A) (k : W → A → W * result E B) w' b :
  and_then m k = (w', Ok b) → ∃ w1 a, m = (w1, Ok a) ∧ k w1 a = (w', Ok b).
Proof. destruct m as [w1 [a|e]]; cbn; [intros Hk; by exists w1, a|done]. Qed.

(** ** Sorting with a comparison *)
Section sort_by.
Context {A : Type} (cmp : A → A → comparison).

(** [sort_by] is a stable sort: an element is placed before the elements that
    compare equal to it and come after it in the input. *)
Fixpoint insert_by (x : A) (l : list A) : list A :=
  match l with
  | [] => [x]
  | y :: l' => match cmp x y with Gt => y :: insert_by x l' | _ => x :: l end
  end.

Definition sort_by (l : list A) : list A := foldr insert_by [] l.

Definition cmp_le (x y : A) : Prop := cmp x y ≠ Gt.
Definition cmp_lt (x y : A) : Prop := cmp x y = Lt.

Lemma insert_by_Permutation x l : insert_by x l ≡ₚ x :: l.
Proof.
  induction l as [|y l IH]; [done|]. cbn [insert_by].
  destruct (cmp x y); [done..|]. rewrite IH. apply Permutation_swap.
Qed.

Lemma sort_by_Permutation l : sort_by l ≡ₚ l.
Proof.
  induction l as [|x l IH]; [done|]. cbn [sort_by foldr].
  rewrite insert_by_Permutation. by rewrite IH.
Qed.

(** A list that is in order already is left as it is. *)
Lemma sort_by_id l : Sorted cmp_le l → sort_by l = l.
Proof.
  induction 1 as [|x l Hs IH Hd]; [done|]. cbn [sort_by foldr].
  change (foldr insert_by [] l) with (sort_by l). rewrite IH. destruct Hd as [|y l Hxy]; [done|].
  cbn [insert_by]. unfold cmp_le in Hxy. by destruct (cmp x y).
Qed.

Lemma cmp_lt_le l : Sorted cmp_lt l → Sorted cmp_le l.
Proof.
  induction 1 as [|x l Hs IH Hd]; constructor; [done|].
  destruct Hd as [|y l Hxy]; constructor. unfold cmp_le, cmp_lt in *. congruence.
Qed.

Section sorted.
Hypothesis cmp_antisym : ∀ x y, cmp y x = CompOpp (cmp x y).

Lemma insert_by_sorted x l : Sorted cmp_le l → Sorted cmp_le (insert_by x l).
Proof.
  induction l as [|y l IH]; intros Hs; [by repeat constructor|]. cbn [insert_by].
  destruct (cmp x y) eqn:Hxy; try (constructor; [done|constructor; unfold cmp_le; congruence]).
  inversion Hs as [|? ? Hl Hd]; subst. constructor; [auto|].
  assert (cmp_le y x) as Hyx by (unfold cmp_le; by rewrite cmp_antisym, Hxy).
  destruct l as [|z l]; cbn [insert_by]; [by constructor|].
  destruct (cmp x z); constructor; try done. by inversion Hd.
Qed.

Lemma sort_by_sorted l : Sorted cmp_le (sort_by l).
Proof. induction l as [|x l IH]; [constructor|]. by apply insert_by_sorted. Qed.
End sorted.
End sort_by.

(** [sort_by_key]. *)
Definition sort_by_key {A} (key : A → Z) : list A → list A := sort_by (λ x y, key x ?= key y).

(** [Vec::dedup]: of equal neighbours one stays. *)
Fixpoint dedup {A} `{EqDecision A} (l : list A) : list A :=
  match l with
  | x :: (y :: _) as l' => if decide (x = y) then dedup l' else x :: dedup l'
  | _ => l
  end.

Section dedup.
Context {A : Type} `{EqDecision A} (cmp : A → A → comparison).
Hypothesis cmp_antisym : ∀ x y, cmp y x = CompOpp (cmp x y).
Hypothesis cmp_Eq : ∀ x y, cmp x y = Eq → x = y.

Lemma dedup_cons (x y : A) l :
  dedup (x :: y :: l) = if decide (x = y) then dedup (y :: l) else x :: dedup (y :: l).
Proof. done. Qed.

Lemma elem_of_dedup (x : A) l : x ∈ dedup l ↔ x ∈ l.
Proof.
  induction l as [|y l IH]; [done|]. destruct l as [|z l]; [done|]. rewrite dedup_cons. case_decide as Hyz; [subst z|by rewrite !(elem_of_cons _ x y), IH].
  rewrite IH, !elem_of_cons. naive_solver.
Qed.

Lemma dedup_head (x : A) l : ∃ l', dedup (x :: l) = x :: l'.
Proof.
  revert x. induction l as [|y l IH]; intros x; [by exists []|].
  rewrite dedup_cons. case_decide; subst; [apply IH|eauto].
Qed.

Lemma dedup_strict l : Sorted (cmp_le cmp) l → Sorted (cmp_lt cmp) (dedup l).
Proof.
  induction 1 as [|x l Hs IH Hd]; [done|]. destruct Hd as [|y l Hxy]; [by repeat constructor|].
  rewrite dedup_cons. case_decide as Heq; [done|]. constructor; [done|].
  destruct (dedup_head y l) as [l' ->]. constructor. unfold cmp_le, cmp_lt in *.
  destruct (cmp x y) eqn:Hc; [|done|done]. by apply cmp_Eq in Hc.
Qed.

Lemma dedup_id l : Sorted (cmp_lt cmp) l → dedup l = l.
Proof.
  induction 1 as [|x l Hs IH Hd]; [done|]. destruct Hd as [|y l Hxy]; [done|].
  rewrite dedup_cons. rewrite decide_False, IH; [done|]. intros ->.
  unfold cmp_lt in Hxy. specialize (cmp_antisym y y). rewrite Hxy in cmp_antisym. done.
Qed.

(** Sorting and removing duplicates gives the one list in strict order with the
    same members, and changes no list that is in strict order. *)
Lemma sort_dedup_strict l : Sorted (cmp_lt cmp) (dedup (sort_by cmp l)).
Proof. apply dedup_strict, sort_by_sorted, cmp_antisym. Qed.

Lemma elem_of_sort_dedup (x : A) l : x ∈ dedup (sort_by cmp l) ↔ x ∈ l.
Proof. by rewrite elem_of_dedup, sort_by_Permutation. Qed.

Lemma sort_dedup_id l : Sorted (cmp_lt cmp) l → dedup (sort_by cmp l) = l.
Proof. intros Hs. rewrite sort_by_id by by apply cmp_lt_le. by apply dedup_id. Qed.
End dedup.

(** ** Result-equation automation *)

(** Split a successful monadic computation into its steps. *)
Ltac inv_ok :=
  repeat match goal with
  | H : Ok _ = Ok _ |- _ => injection H as H; try subst
  | H : Err _ = Err _ |- _ => injection H as H; try subst
  | H : Ok _ = Err _ |- _ => discriminate H
  | H : Err _ = Ok _ |- _ => discriminate H
  | H : Some _ = Some _ |- _ => injection H as H; try subst
  | H : Some _ = None |- _ => discriminate H
  | H : None = Some _ |- _ => discriminate H
  | H : _ ≫= _ = Ok _ |- _ =>
      let a := fresh "a" in let Ha := fresh "Ha" in
      apply bind_Ok in H as (a & Ha & H)
  | H : ok_or _ _ = Ok _ |- _ => apply ok_or_Ok in H
  | H : map_err _ _ = Ok _ |- _ => apply map_err_Ok in H
  | H : checked_add _ _ _ = Some _ |- _ => apply checked_add_Some in H as [? ?]; try subst
  | H : checked_sub _ _ = Some _ |- _ => apply checked_sub_Some in H as [? ?]; try subst
  | H : checked_mul _ _ _ = Some _ |- _ => apply checked_mul_Some in H as [? ?]; try subst
  | H : try_from_wide _ _ = Some _ |- _ => apply try_from_wide_Some in H as [? ?]; try subst
  | H : (if ?b then Err _ else _) = Ok _ |- _ =>
      let E := fresh "Hguard" in destruct b eqn:E; [discriminate H|]
  | H : (if ?b then _ else Err _) = Ok _ |- _ =>
      let E := fresh "Hguard" in destruct b eqn:E; [|discriminate H]
  end.

(** Turn boolean hypotheses into propositions. *)
Ltac boolify :=
  repeat match goal with
  | H : _ || _ = false |- _ => apply orb_false_iff in H as [? ?]
  | H : _ && _ = true |- _ => apply andb_true_iff in H as [? ?]
  | H : negb _ = true |- _ => apply negb_true_iff in H
  | H : negb _ = false |- _ => apply negb_false_iff in H
  | H : bool_decide _ = true |- _ => apply bool_decide_eq_true in H
  | H : bool_decide _ = false |- _ => apply bool_decide_eq_false in H
  end.
