(* ===== verification/Domain.v ===== *)
(** Domain values of [l2-loop-common] and [l2-loop-core]: the ABI constants
    ([constants.rs]), the domain errors ([error.rs]), the numeric enumerations
    ([value.rs]), interface names, generations and the interface lifecycle
    ([interface.rs]), policing requests ([policy.rs]) and probe requests
    ([probe.rs]). *)
From S2P Require Import Prelude.

(** ** ABI constants *)
Definition ABI_VERSION : Z := 1.
Definition NO_VLAN : Z := 0xffff.

Module agent_mode.
Definition DISABLED : Z := 0.
Definition OBSERVE : Z := 1.
Definition POLICE : Z := 2.
End agent_mode.

Module direction.
Definition INGRESS : Z := 1.
Definition EGRESS : Z := 2.
End direction.

Module hook_role.
Definition EXTERNAL_XDP_INGRESS : Z := 1.
Definition PHYSICAL_TC_EGRESS : Z := 2.
Definition TEMPORARY_PATH_INGRESS : Z := 3.
Definition TEMPORARY_PATH_EGRESS : Z := 4.
End hook_role.

Module traffic_class.
Definition ALL : Z := 1.
Definition L2_BROADCAST : Z := 2.
Definition IPV4_MULTICAST : Z := 3.
Definition IPV6_MULTICAST : Z := 4.
Definition OTHER_L2_MULTICAST : Z := 5.
Definition LINK_LOCAL_CONTROL : Z := 6.
Definition UNICAST_OR_UNCLASSIFIED : Z := 7.
End traffic_class.

Module verdict.
Definition PASS : Z := 1.
Definition WOULD_DROP : Z := 2.
Definition DROP : Z := 3.
Definition ERROR_PASS : Z := 4.
End verdict.

Module observation_reason.
Definition NONE : Z := 0.
Definition MISSING_CONFIGURATION : Z := 1.
Definition PARSE_ERROR : Z := 2.
Definition FINGERPRINT_SAMPLE_SELECTED : Z := 3.
Definition PROBE_MATCHED : Z := 4.
Definition PACKET_RATE_EXCEEDED : Z := 5.
Definition BYTE_RATE_EXCEEDED : Z := 6.
Definition BOTH_RATES_EXCEEDED : Z := 7.
End observation_reason.

Module vlan_visibility.
Definition UNKNOWN : Z := 0.
Definition VERIFIED_VISIBLE : Z := 1.
Definition UNAVAILABLE : Z := 2.
End vlan_visibility.

Module probe_scope.
Definition EXTERNAL : Z := 1.
Definition INTERNAL : Z := 2.
End probe_scope.

(** ** Domain errors *)
Inductive DomainError : Type :=
| InvalidNumericValue (kind : string) (value : Z)
| InvalidInterfaceName
| InvalidGeneration
| InvalidObservation (msg : string)
| InvalidVlan (value : Z)
| InvalidTransition (from to : string)
| MissingRateLimit
| ZeroRateLimit (what : string)
| UnsupportedPolicyClass (class : Z)
| InvalidPolicyTtl (millis : Z)
| InvalidProbeTimeout (millis : Z).

#[export] Instance DomainError_eq_dec : EqDecision DomainError.
Proof. solve_decision. Defined.

(** ** Numeric enumerations

    The [numeric_enum!] macro declares an enumeration with one [u8] code per
    variant, the conversion to that code and the checked conversion back.  The
    class is the macro's output; [NumericEnumSpec] is what its clients rely on. *)
Class NumericEnum (A : Type) : Type := {
  enum_kind : string;
  enum_variants : list A;
  to_u8 : A → Z;
}.

(** The macro's [TryFrom<u8>]: the first arm whose code equals the value. *)
Definition try_from_u8 {A} `{NumericEnum A} (value : Z) : result DomainError A :=
  match List.find (λ v, to_u8 v =? value) enum_variants with
  | Some v => Ok v
  | None => Err (InvalidNumericValue enum_kind value)
  end.

Class NumericEnumSpec (A : Type) `{NumericEnum A} : Prop := {
  enum_complete (v : A) : v ∈ enum_variants;
  to_u8_inj (v w : A) : to_u8 v = to_u8 w → v = w;
  to_u8_range (v : A) : is_u8 (to_u8 v);
}.

Inductive AgentMode : Type := Disabled | Observe | Police.
#[export] Instance AgentMode_enum : NumericEnum AgentMode := {
  enum_kind := "AgentMode"; enum_variants := [Disabled; Observe; Police];
  to_u8 v := match v with
    | Disabled => agent_mode.DISABLED
    | Observe => agent_mode.OBSERVE
    | Police => agent_mode.POLICE
    end }.

Inductive Direction : Type := Ingress | Egress.
#[export] Instance Direction_enum : NumericEnum Direction := {
  enum_kind := "Direction"; enum_variants := [Ingress; Egress];
  to_u8 v := match v with
    | Ingress => direction.INGRESS
    | Egress => direction.EGRESS
    end }.

Inductive HookRole : Type :=
| ExternalXdpIngress | PhysicalTcEgress | TemporaryPathIngress | TemporaryPathEgress.
#[export] Instance HookRole_enum : NumericEnum HookRole := {
  enum_kind := "HookRole";
  enum_variants :=
    [ExternalXdpIngress; PhysicalTcEgress; TemporaryPathIngress; TemporaryPathEgress];
  to_u8 v := match v with
    | ExternalXdpIngress => hook_role.EXTERNAL_XDP_INGRESS
    | PhysicalTcEgress => hook_role.PHYSICAL_TC_EGRESS
    | TemporaryPathIngress => hook_role.TEMPORARY_PATH_INGRESS
    | TemporaryPathEgress => hook_role.TEMPORARY_PATH_EGRESS
    end }.

Inductive TrafficClass : Type :=
| All | L2Broadcast | Ipv4Multicast | Ipv6Multicast | OtherL2Multicast
| LinkLocalControl | UnicastOrUnclassified.
#[export] Instance TrafficClass_enum : NumericEnum TrafficClass := {
  enum_kind := "TrafficClass";
  enum_variants :=
    [All; L2Broadcast; Ipv4Multicast; Ipv6Multicast; OtherL2Multicast;
     LinkLocalControl; UnicastOrUnclassified];
  to_u8 v := match v with
    | All => traffic_class.ALL
    | L2Broadcast => traffic_class.L2_BROADCAST
    | Ipv4Multicast => traffic_class.IPV4_MULTICAST
    | Ipv6Multicast => traffic_class.IPV6_MULTICAST
    | OtherL2Multicast => traffic_class.OTHER_L2_MULTICAST
    | LinkLocalControl => traffic_class.LINK_LOCAL_CONTROL
    | UnicastOrUnclassified => traffic_class.UNICAST_OR_UNCLASSIFIED
    end }.

Inductive Verdict : Type := Pass | WouldDrop | Drop | ErrorPass.
#[export] Instance Verdict_enum : NumericEnum Verdict := {
  enum_kind := "Verdict"; enum_variants := [Pass; WouldDrop; Drop; ErrorPass];
  to_u8 v := match v with
    | Pass => verdict.PASS
    | WouldDrop => verdict.WOULD_DROP
    | Drop => verdict.DROP
    | ErrorPass => verdict.ERROR_PASS
    end }.

Inductive ObservationReason : Type :=
| ReasonNone | MissingConfiguration | ReasonParseError | FingerprintSampleSelected
| ProbeMatched | PacketRateExceeded | ByteRateExceeded | BothRatesExceeded.
#[export] Instance ObservationReason_enum : NumericEnum ObservationReason := {
  enum_kind := "ObservationReason";
  enum_variants :=
    [ReasonNone; MissingConfiguration; ReasonParseError; FingerprintSampleSelected;
     ProbeMatched; PacketRateExceeded; ByteRateExceeded; BothRatesExceeded];
  to_u8 v := match v with
    | ReasonNone => observation_reason.NONE
    | MissingConfiguration => observation_reason.MISSING_CONFIGURATION
    | ReasonParseError => observation_reason.PARSE_ERROR
    | FingerprintSampleSelected => observation_reason.FINGERPRINT_SAMPLE_SELECTED
    | ProbeMatched => observation_reason.PROBE_MATCHED
    | PacketRateExceeded => observation_reason.PACKET_RATE_EXCEEDED
    | ByteRateExceeded => observation_reason.BYTE_RATE_EXCEEDED
    | BothRatesExceeded => observation_reason.BOTH_RATES_EXCEEDED
    end }.

Inductive VlanVisibility : Type := VlanUnknown | VerifiedVisible | VlanUnavailable.
#[export] Instance VlanVisibility_enum : NumericEnum VlanVisibility := {
  enum_kind := "VlanVisibility";
  enum_variants := [VlanUnknown; VerifiedVisible; VlanUnavailable];
  to_u8 v := match v with
    | VlanUnknown => vlan_visibility.UNKNOWN
    | VerifiedVisible => vlan_visibility.VERIFIED_VISIBLE
    | VlanUnavailable => vlan_visibility.UNAVAILABLE
    end }.

Inductive ProbeScope : Type := External | Internal.
#[export] Instance ProbeScope_enum : NumericEnum ProbeScope := {
  enum_kind := "ProbeScope"; enum_variants := [External; Internal];
  to_u8 v := match v with
    | External => probe_scope.EXTERNAL
    | Internal => probe_scope.INTERNAL
    end }.

#[export] Instance HookRole_eq_dec : EqDecision HookRole.
Proof. solve_decision. Defined.
#[export] Instance TrafficClass_eq_dec : EqDecision TrafficClass.
Proof. solve_decision. Defined.
#[export] Instance VlanVisibility_eq_dec : EqDecision VlanVisibility.
Proof. solve_decision. Defined.
#[export] Instance ProbeScope_eq_dec : EqDecision ProbeScope.
Proof. solve_decision. Defined.

Definition supports_policing (c : TrafficClass) : bool :=
  negb (match c with All | UnicastOrUnclassified => true | _ => false end).

(** ** Interface names, generations and VLANs *)
Definition ascii_code (c : Ascii.ascii) : Z := Z.of_N (Ascii.N_of_ascii c).
Definition is_ascii_uppercase (c : Ascii.ascii) : bool :=
  (65 <=? ascii_code c) && (ascii_code c <=? 90).
Definition is_ascii_lowercase (c : Ascii.ascii) : bool :=
  (97 <=? ascii_code c) && (ascii_code c <=? 122).
Definition is_ascii_digit (c : Ascii.ascii) : bool :=
  (48 <=? ascii_code c) && (ascii_code c <=? 57).
Definition is_ascii_alphanumeric (c : Ascii.ascii) : bool :=
  is_ascii_uppercase c || is_ascii_lowercase c || is_ascii_digit c.

Definition string_bytes (s : string) : list Ascii.ascii := String.list_ascii_of_string s.

Record InterfaceName : Type := mkInterfaceName { as_str : string }.

#[export] Instance InterfaceName_eq_dec : EqDecision InterfaceName.
Proof. solve_decision. Defined.

Definition InterfaceName_new (value : string) : result DomainError InterfaceName :=
  let valid :=
    negb (bool_decide (value = ""%string)) && (String.length value <=? 15)%nat
    && forallb (λ byte, is_ascii_alphanumeric byte
         || (ascii_code byte =? 46) || (ascii_code byte =? 95)
         || (ascii_code byte =? 45) || (ascii_code byte =? 58)) (string_bytes value) in
  if valid then Ok (mkInterfaceName value) else Err InvalidInterfaceName.

Record Generation : Type := mkGeneration { generation_get : Z }.

Definition Generation_new (value : Z) : result DomainError Generation :=
  if value =? 0 then Err InvalidGeneration else Ok (mkGeneration value).

Definition validate_vlan (vlan : option Z) : result DomainError unit :=
  match vlan with
  | None => Ok tt
  | Some value =>
      if (1 <=? value) && (value <=? 4094) then Ok tt else Err (InvalidVlan value)
  end.

(** ** The interface lifecycle *)
Inductive InterfaceState : Type :=
| Detached | Attaching | Observing | Policing | IfaceError.

#[export] Instance InterfaceState_eq_dec : EqDecision InterfaceState.
Proof. solve_decision. Defined.

Definition state_name (s : InterfaceState) : string :=
  match s with
  | Detached => "detached"
  | Attaching => "attaching"
  | Observing => "observing"
  | Policing => "policing"
  | IfaceError => "error"
  end.

Definition transition (self target : InterfaceState) : result DomainError InterfaceState :=
  let valid :=
    bool_decide (self = target) ||
    match self, target with
    | Detached, Attaching
    | Attaching, Observing
    | Observing, Policing
    | Policing, Observing
    | (Attaching | Observing | Policing), IfaceError
    | IfaceError, Detached => true
    | _, _ => false
    end in
  if valid then Ok target else Err (InvalidTransition (state_name self) (state_name target)).

(** ** Policing and probe requests

    A [Duration] is its length in nanoseconds. *)
Definition duration_from_secs (s : Z) : Z := s * 1000000000.
Definition duration_from_millis (ms : Z) : Z := ms * 1000000.
Definition as_millis (d : Z) : Z := d / 1000000.

Definition MIN_POLICY_TTL : Z := duration_from_secs 1.
Definition MAX_POLICY_TTL : Z := duration_from_secs (24 * 60 * 60).
Definition MIN_PROBE_TIMEOUT : Z := duration_from_millis 100.
Definition MAX_PROBE_TIMEOUT : Z := duration_from_secs 30.

Record PolicyRequest : Type := mkPolicyRequest {
  policy_interface : InterfaceName;
  policy_vlan : option Z;
  policy_class : TrafficClass;
  policy_pps : option Z;
  policy_bps : option Z;
  policy_ttl : Z;
}.

Definition PolicyRequest_new (interface : string) (vlan : option Z) (class : TrafficClass)
    (pps bps : option Z) (ttl : Z) : result DomainError PolicyRequest :=
  interface ← InterfaceName_new interface;
  _ ← validate_vlan vlan;
  if negb (supports_policing class) then Err (UnsupportedPolicyClass (to_u8 class))
  else if is_none pps && is_none bps then Err MissingRateLimit
  else if bool_decide (pps = Some 0) then Err (ZeroRateLimit "packet")
  else if bool_decide (bps = Some 0) then Err (ZeroRateLimit "byte")
  else if negb ((MIN_POLICY_TTL <=? ttl) && (ttl <=? MAX_POLICY_TTL))
  then Err (InvalidPolicyTtl (as_millis ttl))
  else Ok (mkPolicyRequest interface vlan class pps bps ttl).

Record ProbeRequest : Type := mkProbeRequest {
  probe_interface : InterfaceName;
  probe_request_scope : ProbeScope;
  probe_vlan : option Z;
  probe_timeout : Z;
}.

Definition ProbeRequest_new (interface : string) (scope : ProbeScope) (vlan : option Z)
    (timeout : Z) : result DomainError ProbeRequest :=
  interface ← InterfaceName_new interface;
  _ ← validate_vlan vlan;
  if negb ((MIN_PROBE_TIMEOUT <=? timeout) && (timeout <=? MAX_PROBE_TIMEOUT))
  then Err (InvalidProbeTimeout (as_millis timeout))
  else Ok (mkProbeRequest interface scope vlan timeout).

(** ** Lemmas and properties *)

(** Instances of the enumeration interface, by cases on the variants. *)
Ltac solve_enum_spec :=
  split;
  [ intros []; repeat (first [apply list_elem_of_here | apply list_elem_of_further])
  | intros [] []; vm_compute; congruence
  | intros []; vm_compute; split; discriminate ].

#[export] Instance AgentMode_spec : NumericEnumSpec AgentMode.
Proof. solve_enum_spec. Qed.
#[export] Instance Direction_spec : NumericEnumSpec Direction.
Proof. solve_enum_spec. Qed.
#[export] Instance HookRole_spec : NumericEnumSpec HookRole.
Proof. solve_enum_spec. Qed.
#[export] Instance TrafficClass_spec : NumericEnumSpec TrafficClass.
Proof. solve_enum_spec. Qed.
#[export] Instance Verdict_spec : NumericEnumSpec Verdict.
Proof. solve_enum_spec. Qed.
#[export] Instance ObservationReason_spec : NumericEnumSpec ObservationReason.
Proof. solve_enum_spec. Qed.
#[export] Instance VlanVisibility_spec : NumericEnumSpec VlanVisibility.
Proof. solve_enum_spec. Qed.
#[export] Instance ProbeScope_spec : NumericEnumSpec ProbeScope.
Proof. solve_enum_spec. Qed.

Lemma find_enum_code {A} `{NumericEnum A} (l : list A) n v :
  List.find (λ w, to_u8 w =? n) l = Some v → to_u8 v = n.
Proof. intros [_ Hv]%List.find_some. by apply Z.eqb_eq. Qed.

(** The checked conversion of every enumeration declared by the
    [numeric_enum!] macro is the exact partial inverse of its [u8] code: a code
    is accepted exactly when some variant has it, and then as that variant. *)
Theorem numeric_enum_roundtrip {A} `{NumericEnumSpec A} (n : Z) (v : A) :
  try_from_u8 n = Ok v ↔ to_u8 v = n.
Proof.
  unfold try_from_u8. split.
  - destruct (List.find _ _) eqn:Hf; [|done]. intros ?; inv_ok.
    by eapply find_enum_code.
  - intros Hv. destruct (List.find _ _) as [w|] eqn:Hf.
    + apply find_enum_code in Hf. f_equal. apply to_u8_inj. congruence.
    + exfalso. pose proof (List.find_none _ _ Hf v) as Hneq.
      apply Z.eqb_neq in Hneq; [done|].
      apply list_elem_of_In, enum_complete.
Qed.

Lemma numeric_enum_roundtrip_witness :
  try_from_u8 4 = Ok Ipv6Multicast ∧ to_u8 Ipv6Multicast = 4.
Proof.
  split; [apply (numeric_enum_roundtrip 4 Ipv6Multicast); reflexivity|reflexivity].
Defined.

(** A lifecycle run: the successive targets requested from a state. *)
Definition lifecycle (s : InterfaceState) (targets : list InterfaceState)
    : result DomainError InterfaceState :=
  try_fold transition s targets.

(** The states a lifecycle run from [Detached] must have requested, in order,
    to be in a given state. *)
Definition lifecycle_history (s : InterfaceState) : list InterfaceState :=
  match s with
  | Detached => []
  | Attaching | IfaceError => [Attaching]
  | Observing => [Attaching; Observing]
  | Policing => [Attaching; Observing; Policing]
  end.

Lemma transition_Ok s t u : transition s t = Ok u → u = t.
Proof. unfold transition. by intros ?; inv_ok. Qed.

Lemma transition_history don s t u :
  lifecycle_history s `sublist_of` don → transition s t = Ok u →
  lifecycle_history u `sublist_of` don ++ [t].
Proof.
  intros Hs Ht. pose proof (transition_Ok _ _ _ Ht) as ->.
  assert (lifecycle_history t `sublist_of` lifecycle_history s
    ∨ lifecycle_history t = lifecycle_history s ++ [t]
    ∨ lifecycle_history t = [Attaching] ∧ [Attaching] `sublist_of` lifecycle_history s)
    as [Hsub|[->|[-> Hsub]]].
  { destruct s, t; try discriminate Ht; cbn;
      first [ right; left; reflexivity
            | left; repeat constructor; done
            | right; right; split; [done|repeat constructor; done] ]. }
  - etrans; [exact Hsub|]. etrans; [exact Hs|]. by apply sublist_inserts_r.
  - by apply sublist_app.
  - etrans; [exact Hsub|]. etrans; [exact Hs|]. by apply sublist_inserts_r.
Qed.

(** An interface that starts [Detached] polices traffic only after it has
    been asked to attach and then to observe, in that order, and it is in the
    error state only after it has been asked to attach. *)
Theorem lifecycle_observes_before_policing targets s :
  lifecycle Detached targets = Ok s →
  (s = Policing → [Attaching; Observing; Policing] `sublist_of` targets) ∧
  (s = IfaceError → [Attaching] `sublist_of` targets).
Proof.
  intros Hrun.
  assert (lifecycle_history s `sublist_of` targets) as Hh.
  { apply (try_fold_ind transition
      (λ don s, lifecycle_history s `sublist_of` don) Detached targets s);
      [constructor| |exact Hrun].
    intros. by eapply transition_history. }
  split; intros ->; exact Hh.
Qed.

Lemma lifecycle_observes_before_policing_witness :
  lifecycle Detached [Attaching; Attaching; Observing; Policing] = Ok Policing ∧
  [Attaching; Observing; Policing] `sublist_of` [Attaching; Attaching; Observing; Policing].
Proof.
  split; [reflexivity|].
  apply (lifecycle_observes_before_policing _ Policing); reflexivity.
Defined.

(** The specification of an admissible policing request. *)
Definition policy_request_ok (interface : string) (vlan : option Z) (class : TrafficClass)
    (pps bps : option Z) (ttl : Z) : Prop :=
  is_ok (InterfaceName_new interface) = true ∧
  (∀ v, vlan = Some v → 1 ≤ v ≤ 4094) ∧
  class ≠ All ∧ class ≠ UnicastOrUnclassified ∧
  (is_Some pps ∨ is_Some bps) ∧ pps ≠ Some 0 ∧ bps ≠ Some 0 ∧
  10^9 ≤ ttl ≤ 86400 * 10^9.

Lemma validate_vlan_Ok vlan :
  validate_vlan vlan = Ok tt ↔ ∀ v, vlan = Some v → 1 ≤ v ≤ 4094.
Proof.
  destruct vlan as [v|]; simpl; [|naive_solver].
  destruct (_ && _) eqn:E; split; intros H.
  - intros ? [= <-]. lia.
  - done.
  - done.
  - specialize (H _ eq_refl). lia.
Qed.

Lemma supports_policing_iff c :
  supports_policing c = true ↔ c ≠ All ∧ c ≠ UnicastOrUnclassified.
Proof. destruct c; cbn; naive_solver. Qed.

Lemma no_limit_iff (pps bps : option Z) :
  is_none pps && is_none bps = false ↔ is_Some pps ∨ is_Some bps.
Proof.
  destruct pps, bps; cbn; split; intros H; try done; eauto.
  destruct H as [[? ?]|[? ?]]; done.
Qed.

(** [PolicyRequest::new] accepts a request exactly when it meets the
    specification, and the request it returns carries the arguments
    unchanged. *)
Theorem PolicyRequest_new_correct interface vlan class pps bps ttl r :
  PolicyRequest_new interface vlan class pps bps ttl = Ok r ↔
  policy_request_ok interface vlan class pps bps ttl ∧
  r = mkPolicyRequest (mkInterfaceName interface) vlan class pps bps ttl.
Proof.
  unfold PolicyRequest_new, policy_request_ok.
  assert (∀ n, InterfaceName_new interface = Ok n → n = mkInterfaceName interface) as Hname.
  { unfold InterfaceName_new. intros n ?. by inv_ok. }
  change (MIN_POLICY_TTL) with (10^9). change MAX_POLICY_TTL with (86400 * 10^9).
  rewrite <-validate_vlan_Ok, is_ok_true, <-no_limit_iff.
  assert (class ≠ All ∧ class ≠ UnicastOrUnclassified ↔ supports_policing class = true)
    as Hclass by (symmetry; apply supports_policing_iff).
  split.
  - intros H. inv_ok. pose proof (Hname _ Ha) as ->. destruct a0. boolify.
    split_and!; eauto; try (apply Hclass; done); lia.
  - intros [([n Hn] & Hv & Hc1 & Hc2 & Hl & Hp & Hb & Ht) ->].
    pose proof (Hname _ Hn) as ->. rewrite Hn. simpl. rewrite Hv. simpl.
    rewrite (proj1 Hclass (conj Hc1 Hc2)), Hl. simpl.
    rewrite !bool_decide_eq_false_2 by done.
    replace ((10 ^ 9 <=? ttl) && (ttl <=? 86400 * 10 ^ 9)) with true; [done|].
    symmetry. apply andb_true_iff. lia.
Qed.
