(* ===== verification/Text.v ===== *)
(** Text encodings shared by the contracts of [l2-loop-core] and
    [l2-loop-agent]: splitting on a separator, and lowercase hexadecimal of
    bytes and of fixed-width integers, with their round trips. *)
From S2P Require Import Prelude Domain.

(** ** Splitting *)

(** [str::split] on one character: a text has one more field than separators. *)
Fixpoint split_on (sep : Ascii.ascii) (s : string) : list string :=
  match s with
  | EmptyString => [""%string]
  | String c rest =>
      if decide (c = sep) then ""%string :: split_on sep rest
      else match split_on sep rest with
           | field :: fields => String c field :: fields
           | [] => [String c ""]
           end
  end.

Fixpoint intercalate (sep : Ascii.ascii) (fields : list string) : string :=
  match fields with
  | [] => ""
  | [field] => field
  | field :: fields => (field ++ String sep (intercalate sep fields))%string
  end.

Definition free_of (sep : Ascii.ascii) (s : string) : Prop := sep ∉ string_bytes s.

Lemma string_bytes_app a b : string_bytes (a ++ b)%string = string_bytes a ++ string_bytes b.
Proof. unfold string_bytes. induction a as [|c a IH]; [done|]. exact (f_equal (cons c) IH). Qed.

Lemma string_bytes_length s : length (string_bytes s) = String.length s.
Proof. induction s as [|c s IH]; [done|]. cbn. by rewrite <-IH. Qed.

Lemma string_of_bytes s : String.string_of_list_ascii (string_bytes s) = s.
Proof. apply String.string_of_list_ascii_of_string. Qed.

Lemma bytes_of_string l : string_bytes (String.string_of_list_ascii l) = l.
Proof. apply String.list_ascii_of_string_of_list_ascii. Qed.

Lemma length_of_string l : String.length (String.string_of_list_ascii l) = length l.
Proof. by rewrite <-string_bytes_length, bytes_of_string. Qed.

Lemma split_on_nonempty sep s : split_on sep s ≠ [].
Proof. destruct s as [|c s]; cbn; [done|]. case_decide; [done|]. by destruct (split_on sep s). Qed.

Lemma split_on_free sep s : free_of sep s → split_on sep s = [s].
Proof.
  unfold free_of, string_bytes. induction s as [|c s IH]; [done|]. cbn. intros H.
  rewrite decide_False by set_solver. by rewrite IH by set_solver.
Qed.

Lemma split_on_field sep a b :
  free_of sep a → split_on sep (a ++ String sep b)%string = a :: split_on sep b.
Proof.
  unfold free_of, string_bytes. induction a as [|c a IH]; intros H.
  - change (split_on sep (String sep b) = ""%string :: split_on sep b). cbn. by rewrite decide_True.
  - change (split_on sep (String c (a ++ String sep b)%string) = String c a :: split_on sep b).
    cbn in *. rewrite decide_False by set_solver. by rewrite IH by set_solver.
Qed.

(** Splitting is the inverse of joining: every text is its own fields. *)
Lemma intercalate_split sep s : intercalate sep (split_on sep s) = s.
Proof.
  induction s as [|c s IH]; [done|]. cbn [split_on]. pose proof (split_on_nonempty sep s).
  case_decide; subst.
  - destruct (split_on sep s) as [|f fs] eqn:Hs; [done|]. rewrite <-IH. by destruct fs.
  - destruct (split_on sep s) as [|f fs]; [done|]. rewrite <-IH. by destruct fs.
Qed.

Lemma intercalate_cons sep field fields :
  fields ≠ [] → intercalate sep (field :: fields) = (field ++ String sep (intercalate sep fields))%string.
Proof. by destruct fields. Qed.

Lemma split_intercalate sep fields :
  fields ≠ [] → Forall (free_of sep) fields → split_on sep (intercalate sep fields) = fields.
Proof.
  intros Hne Hf. induction Hf as [|f fields Hf Hfs IH]; [done|]. destruct fields as [|g fields].
  - by apply split_on_free.
  - rewrite intercalate_cons, split_on_field by done. by rewrite IH.
Qed.

(** What the bytes of joined fields are made of. *)
Lemma forallb_intercalate (p : Ascii.ascii → bool) sep fields :
  p sep = true → Forall (λ f, forallb p (string_bytes f) = true) fields →
  forallb p (string_bytes (intercalate sep fields)) = true.
Proof.
  intros Hp Hf. induction Hf as [|f fields Hf Hfs IH]; [done|]. destruct fields as [|g fields]; [done|].
  rewrite intercalate_cons, string_bytes_app, forallb_app, Hf by done.
  change (p sep && forallb p (string_bytes (intercalate sep (g :: fields))) = true). by rewrite Hp, IH.
Qed.

Lemma length_intercalate sep fields :
  String.length (intercalate sep fields) = (sum_list (String.length <$> fields) + pred (length fields))%nat.
Proof.
  induction fields as [|f fields IH]; [done|]. destruct fields as [|g fields]; [cbn; lia|].
  rewrite intercalate_cons, <-string_bytes_length, string_bytes_app, length_app by done.
  change (length (string_bytes f) + S (length (string_bytes (intercalate sep (g :: fields))))
    = sum_list (String.length <$> f :: g :: fields) + pred (length (f :: g :: fields)))%nat.
  rewrite !string_bytes_length, IH. cbn. lia.
Qed.

(** ** Hexadecimal digits *)
Definition is_lower_hex (byte : Ascii.ascii) : bool :=
  is_ascii_digit byte || ((97 <=? ascii_code byte) && (ascii_code byte <=? 102)).

Definition HEX : list Ascii.ascii := string_bytes "0123456789abcdef".

(** Indexing [HEX]; a nibble is always in range. *)
Definition hex_digit (d : Z) : Ascii.ascii := default Ascii.zero (HEX !! Z.to_nat d).

(** The value of a hexadecimal digit. *)
Definition digit_value (c : Ascii.ascii) : Z :=
  if is_ascii_digit c then ascii_code c - 48 else ascii_code c - 97 + 10.

Lemma hex_digit_spec d :
  0 ≤ d < 16 → is_lower_hex (hex_digit d) = true ∧ digit_value (hex_digit d) = d.
Proof.
  intros Hd. assert (d ∈ seqZ 0 16) as Hin by (apply elem_of_seqZ; lia). clear Hd.
  revert Hin. generalize d. apply Forall_forall. vm_compute. repeat constructor.
Qed.

Lemma digit_value_spec c :
  is_lower_hex c = true → 0 ≤ digit_value c < 16 ∧ hex_digit (digit_value c) = c.
Proof.
  destruct c as [[] [] [] [] [] [] [] []]; intros H; vm_compute in H; try discriminate H;
    (split; [vm_compute; split; congruence|reflexivity]).
Qed.

(** ** Fixed-width integers *)

(** [{:0nx}] of an integer that fits in [n] digits. *)
Fixpoint hex_fixed (n : nat) (v : Z) : list Ascii.ascii :=
  match n with
  | O => []
  | S n => hex_fixed n (Z.shiftr v 4) ++ [hex_digit (Z.land v 15)]
  end.

(** [from_str_radix(.., 16)] of hexadecimal digits. *)
Definition from_hex (digits : list Ascii.ascii) : Z :=
  foldl (λ acc c, acc * 16 + digit_value c) 0 digits.

Lemma hex_fixed_length n v : length (hex_fixed n v) = n.
Proof. revert v; induction n as [|n IH]; intros v; [done|]. cbn. rewrite length_app, IH. cbn. lia. Qed.

Lemma nibble_range v : 0 ≤ Z.land v 15 < 16.
Proof. change 15 with (Z.ones 4). rewrite Z.land_ones by lia. by apply Z.mod_pos_bound. Qed.

Lemma hex_fixed_lower n v : forallb is_lower_hex (hex_fixed n v) = true.
Proof.
  revert v; induction n as [|n IH]; intros v; [done|]. cbn [hex_fixed].
  rewrite forallb_app, IH. cbn [forallb]. destruct (hex_digit_spec _ (nibble_range v)) as [-> _]. done.
Qed.

Lemma from_hex_snoc l c : from_hex (l ++ [c]) = from_hex l * 16 + digit_value c.
Proof. unfold from_hex. by rewrite foldl_app. Qed.

Lemma from_hex_fixed n v : 0 ≤ v < 16 ^ Z.of_nat n → from_hex (hex_fixed n v) = v.
Proof.
  revert v; induction n as [|n IH]; intros v Hv.
  - cbn in *. lia.
  - cbn [hex_fixed]. destruct (hex_digit_spec _ (nibble_range v)) as [_ Hd].
    rewrite from_hex_snoc, Hd. rewrite Nat2Z.inj_succ, Z.pow_succ_r in Hv by lia.
    change 15 with (Z.ones 4). rewrite Z.land_ones, Z.shiftr_div_pow2 by lia. change (2 ^ 4) with 16.
    rewrite IH; [pose proof (Z.div_mod v 16); lia|].
    split; [apply Z.div_pos; lia|apply Z.div_lt_upper_bound; lia].
Qed.

Lemma from_hex_range l :
  forallb is_lower_hex l = true → 0 ≤ from_hex l < 16 ^ Z.of_nat (length l).
Proof.
  induction l as [|c l IH] using rev_ind; intros H; [done|].
  rewrite forallb_app in H. cbn [forallb] in H. apply andb_true_iff in H as [Hl Hc].
  rewrite andb_true_r in Hc. apply digit_value_spec in Hc as [Hc _]. specialize (IH Hl).
  rewrite from_hex_snoc, length_app, Nat2Z.inj_add. cbn [length]. rewrite Z.pow_add_r by lia. lia.
Qed.

Lemma hex_fixed_from l : forallb is_lower_hex l = true → hex_fixed (length l) (from_hex l) = l.
Proof.
  induction l as [|c l IH] using rev_ind; intros H; [done|].
  rewrite forallb_app in H. cbn [forallb] in H. apply andb_true_iff in H as [Hl Hc].
  rewrite andb_true_r in Hc. apply digit_value_spec in Hc as [Hr Hc]. specialize (IH Hl).
  rewrite from_hex_snoc, length_app, Nat.add_comm. cbn [length Nat.add hex_fixed].
  change 15 with (Z.ones 4). rewrite Z.land_ones, Z.shiftr_div_pow2 by lia. change (2 ^ 4) with 16.
  rewrite Z.div_add_l, Z.div_small, Z.add_0_r, IH by lia.
  rewrite Z.add_comm, Z.mod_add, Z.mod_small by lia. by rewrite Hc.
Qed.

(** ** Decimal digits *)

(** How many decimal digits an unsigned 64-bit integer has. *)
Definition decimal_length (n : Z) : nat :=
  S (length (List.filter (λ i, 10 ^ Z.of_nat i <=? n) (seq 1 19))).

Lemma decimal_length_mono n m : n ≤ m → (decimal_length n ≤ decimal_length m)%nat.
Proof.
  intros Hnm. unfold decimal_length. apply le_n_S. generalize (seq 1 19) as l.
  induction l as [|i l IH]; [done|]. cbn. destruct (Z.leb_spec (10 ^ Z.of_nat i) n), (Z.leb_spec (10 ^ Z.of_nat i) m); cbn; lia.
Qed.

Lemma decimal_length_bound n : (1 ≤ decimal_length n ≤ 20)%nat.
Proof.
  unfold decimal_length. pose proof (filter_length_le (λ i, 10 ^ Z.of_nat i <=? n) (seq 1 19)) as Hl.
  rewrite length_seq in Hl. lia.
Qed.
