(* ===== verification/Packet.v ===== *)
(** Ethernet frame parsing of [l2-loop-common]: the ABI records of [abi.rs]
    and the bounded L2 parser of [packet.rs], which packs its result in one
    [u64] for the eBPF programs and unpacks it for userspace.

    A frame is a list of bytes.  Indexing a slice out of range panics: the
    functions that index return an option whose [None] is the panic. *)
From S2P Require Import Prelude Domain.

Notation panics A := (option A) (only parsing).
Notation mac := (vec Z 6).

(** ** ABI records *)
Record InterfaceConfig : Type := mkInterfaceConfig {
  ic_interface_generation : Z;
  ic_policy_generation : Z;
  ic_logical_ifindex : Z;
  ic_flags : Z;
  ic_mode : Z;
  ic_role : Z;
  ic_vlan_visibility : Z;
  ic_sample_shift : Z;
  ic_reserved : vec Z 4;
}.

Definition InterfaceConfig_new (interface_generation policy_generation logical_ifindex
    mode role vlan_visibility sample_shift : Z) : InterfaceConfig :=
  mkInterfaceConfig interface_generation policy_generation logical_ifindex 0
    mode role vlan_visibility sample_shift (vreplicate 4 0).

Record StatsKey : Type := mkStatsKey {
  sk_interface_generation : Z;
  sk_ifindex : Z;
  sk_hook_role : Z;
  sk_traffic_class : Z;
  sk_verdict : Z;
  sk_reason : Z;
}.

Definition StatsKey_total (interface_generation ifindex hook_role : Z) : StatsKey :=
  mkStatsKey interface_generation ifindex hook_role
    traffic_class.ALL verdict.PASS observation_reason.NONE.

Definition StatsKey_classified (interface_generation ifindex hook_role class : Z) : StatsKey :=
  mkStatsKey interface_generation ifindex hook_role
    class verdict.PASS observation_reason.NONE.

Definition StatsKey_parse_error (interface_generation ifindex hook_role : Z) : StatsKey :=
  mkStatsKey interface_generation ifindex hook_role
    traffic_class.UNICAST_OR_UNCLASSIFIED verdict.ERROR_PASS observation_reason.PARSE_ERROR.

Definition observation_keys (interface_generation ifindex hook_role : Z) : vec StatsKey 8 :=
  [# StatsKey_total interface_generation ifindex hook_role;
     StatsKey_classified interface_generation ifindex hook_role traffic_class.L2_BROADCAST;
     StatsKey_classified interface_generation ifindex hook_role traffic_class.IPV4_MULTICAST;
     StatsKey_classified interface_generation ifindex hook_role traffic_class.IPV6_MULTICAST;
     StatsKey_classified interface_generation ifindex hook_role traffic_class.OTHER_L2_MULTICAST;
     StatsKey_classified interface_generation ifindex hook_role traffic_class.LINK_LOCAL_CONTROL;
     StatsKey_classified interface_generation ifindex hook_role
       traffic_class.UNICAST_OR_UNCLASSIFIED;
     StatsKey_parse_error interface_generation ifindex hook_role].

Record CounterValue : Type := mkCounterValue {
  cv_packets : Z;
  cv_bytes : Z;
}.

Record FingerprintKey : Type := mkFingerprintKey {
  fk_interface_generation : Z;
  fk_fingerprint : Z;
  fk_ifindex : Z;
  fk_outer_vlan_id : Z;
  fk_ether_type : Z;
  fk_frame_len : Z;
  fk_direction : Z;
  fk_vlan_depth : Z;
  fk_protocol : Z;
  fk_subtype : Z;
  fk_reserved : vec Z 2;
}.

Record FingerprintValue : Type := mkFingerprintValue {
  fv_first_seen_ns : Z;
  fv_last_seen_ns : Z;
  fv_packets : Z;
  fv_bytes : Z;
  fv_source_mac : mac;
  fv_destination_mac : mac;
  fv_reserved : vec Z 4;
}.

#[export] Instance StatsKey_eq_dec : EqDecision StatsKey.
Proof. solve_decision. Defined.
#[export] Instance StatsKey_countable : Countable StatsKey.
Proof.
  refine (inj_countable
    (λ k, [sk_interface_generation k; sk_ifindex k; sk_hook_role k; sk_traffic_class k;
           sk_verdict k; sk_reason k])
    (λ l, match l with
          | [a; b; c; d; e; f] => Some (mkStatsKey a b c d e f)
          | _ => None
          end) _).
  by intros [].
Defined.

#[export] Instance FingerprintKey_eq_dec : EqDecision FingerprintKey.
Proof. solve_decision. Defined.
#[export] Instance FingerprintKey_countable : Countable FingerprintKey.
Proof.
  refine (inj_countable
    (λ k, [fk_interface_generation k; fk_fingerprint k; fk_ifindex k; fk_outer_vlan_id k;
           fk_ether_type k; fk_frame_len k; fk_direction k; fk_vlan_depth k; fk_protocol k;
           fk_subtype k; fk_reserved k !!! 0%fin; fk_reserved k !!! 1%fin])
    (λ l, match l with
          | [a; b; c; d; e; f; g; h; i; j; x; y] =>
              Some (mkFingerprintKey a b c d e f g h i j [# x; y])
          | _ => None
          end) _).
  intros [? ? ? ? ? ? ? ? ? ? r]. cbn. do 2 f_equal. by inv_vec r.
Defined.

(** ** The packed parse result *)
Definition ETHERNET_HEADER_LEN : nat := 14.
Definition SINGLE_VLAN_HEADER_LEN : nat := 18.
Definition ETH_P_8021Q : Z := 0x8100.
Definition ETH_P_8021AD : Z := 0x88a8.
Definition ETH_P_IPV4 : Z := 0x0800.
Definition ETH_P_IPV6 : Z := 0x86dd.

Record ParsedL2 : Type := mkParsedL2 {
  pl_traffic_class : Z;
  pl_outer_vlan_id : option Z;
  pl_nested_vlan : bool;
}.

Module ParsedL2Word.
Definition t : Type := Z.
Definition VLAN_SHIFT : Z := 8.
Definition NESTED_SHIFT : Z := 24.
Definition ERROR_SHIFT : Z := 25.
Definition ERROR_MASK : Z := 0x03.
Definition TRUNCATED_ETHERNET : Z := 1.
Definition TRUNCATED_VLAN : Z := 2.

Definition success (traffic_class outer_vlan_id : Z) (nested_vlan : bool) : t :=
  Z.lor (Z.lor traffic_class (Z.shiftl outer_vlan_id VLAN_SHIFT))
    (Z.shiftl (Z.b2z nested_vlan) NESTED_SHIFT).
Definition failure (error : Z) : t := Z.shiftl error ERROR_SHIFT.
Definition truncated_ethernet : t := failure TRUNCATED_ETHERNET.
Definition truncated_vlan : t := failure TRUNCATED_VLAN.

Definition traffic_class (w : t) : Z := as_u8 w.
Definition outer_vlan_id (w : t) : Z := as_u16 (Z.shiftr w VLAN_SHIFT).
Definition has_outer_vlan (w : t) : bool := negb (outer_vlan_id w =? NO_VLAN).
Definition nested_vlan (w : t) : bool := negb (Z.land (Z.shiftr w NESTED_SHIFT) 1 =? 0).
Definition error_code (w : t) : Z := Z.land (Z.shiftr w ERROR_SHIFT) ERROR_MASK.
Definition is_error (w : t) : bool := negb (error_code w =? 0).
End ParsedL2Word.

Inductive ParseError : Type := TruncatedEthernet | TruncatedVlan.

(** ** Classification *)
Definition is_vlan_tpid (ether_type : Z) : bool :=
  (ether_type =? ETH_P_8021Q) || (ether_type =? ETH_P_8021AD).

Definition is_link_local_control (d : mac) : bool :=
  (d !!! 0%fin =? 0x01) && (d !!! 1%fin =? 0x80) && (d !!! 2%fin =? 0xc2)
  && (d !!! 3%fin =? 0) && (d !!! 4%fin =? 0) && (d !!! 5%fin <=? 0x0f).

Definition is_ipv4_multicast (d : mac) : bool :=
  (d !!! 0%fin =? 0x01) && (d !!! 1%fin =? 0) && (d !!! 2%fin =? 0x5e)
  && (Z.land (d !!! 3%fin) 0x80 =? 0).

Definition is_ipv6_multicast (d : mac) : bool :=
  (d !!! 0%fin =? 0x33) && (d !!! 1%fin =? 0x33).

Definition multicast_or_unclassified (d : mac) : Z :=
  if Z.land (d !!! 0%fin) 1 =? 1
  then traffic_class.OTHER_L2_MULTICAST
  else traffic_class.UNICAST_OR_UNCLASSIFIED.

Definition classify (d : mac) (ether_type : Z) (nested_vlan : bool) : Z :=
  if bool_decide (d = vreplicate 6 0xff) then traffic_class.L2_BROADCAST
  else if is_link_local_control d then traffic_class.LINK_LOCAL_CONTROL
  else if nested_vlan then multicast_or_unclassified d
  else if (ether_type =? ETH_P_IPV4) && is_ipv4_multicast d
  then traffic_class.IPV4_MULTICAST
  else if (ether_type =? ETH_P_IPV6) && is_ipv6_multicast d
  then traffic_class.IPV6_MULTICAST
  else multicast_or_unclassified d.

(** ** The parser *)
Definition parse_l2_word (frame : list Z) : panics ParsedL2Word.t :=
  if (length frame <? ETHERNET_HEADER_LEN)%nat then Some ParsedL2Word.truncated_ethernet
  else
    d0 ← frame !! 0%nat; d1 ← frame !! 1%nat; d2 ← frame !! 2%nat;
    d3 ← frame !! 3%nat; d4 ← frame !! 4%nat; d5 ← frame !! 5%nat;
    let destination : mac := [# d0; d1; d2; d3; d4; d5] in
    e0 ← frame !! 12%nat; e1 ← frame !! 13%nat;
    let outer_ether_type := u16_from_be e0 e1 in
    if is_vlan_tpid outer_ether_type then
      if (length frame <? SINGLE_VLAN_HEADER_LEN)%nat then Some ParsedL2Word.truncated_vlan
      else
        t0 ← frame !! 14%nat; t1 ← frame !! 15%nat;
        let tci := u16_from_be t0 t1 in
        i0 ← frame !! 16%nat; i1 ← frame !! 17%nat;
        let inner_ether_type := u16_from_be i0 i1 in
        let nested_vlan := is_vlan_tpid inner_ether_type in
        Some (ParsedL2Word.success (classify destination inner_ether_type nested_vlan)
          (Z.land tci 0x0fff) nested_vlan)
    else
      Some (ParsedL2Word.success (classify destination outer_ether_type false) NO_VLAN false).

Definition parse_l2 (frame : list Z) : panics (result ParseError ParsedL2) :=
  parsed ← parse_l2_word frame;
  if ParsedL2Word.error_code parsed =? ParsedL2Word.TRUNCATED_ETHERNET
  then Some (Err TruncatedEthernet)
  else if ParsedL2Word.error_code parsed =? ParsedL2Word.TRUNCATED_VLAN
  then Some (Err TruncatedVlan)
  else Some (Ok (mkParsedL2 (ParsedL2Word.traffic_class parsed)
    (if ParsedL2Word.has_outer_vlan parsed
     then Some (ParsedL2Word.outer_vlan_id parsed) else None)
    (ParsedL2Word.nested_vlan parsed))).

(** ** Lemmas *)

(** The packed word is the positional encoding of its fields. *)
Lemma success_eq tc vlan nested :
  is_u8 tc → is_u16 vlan →
  ParsedL2Word.success tc vlan nested = tc + vlan * 2 ^ 8 + Z.b2z nested * 2 ^ 24.
Proof.
  intros Ht Hv. unfold ParsedL2Word.success, ParsedL2Word.VLAN_SHIFT, ParsedL2Word.NESTED_SHIFT.
  rewrite (lor_shiftl_add tc) by ulia. rewrite lor_shiftl_add; [done|lia|].
  change (2 ^ 24) with 16777216. change (2 ^ 8) with 256. ulia.
Qed.

(** Reading back a packed word gives its fields and no error. *)
Lemma success_fields tc vlan nested :
  is_u8 tc → is_u16 vlan →
  let w := ParsedL2Word.success tc vlan nested in
  ParsedL2Word.traffic_class w = tc ∧ ParsedL2Word.outer_vlan_id w = vlan ∧
  ParsedL2Word.nested_vlan w = nested ∧ ParsedL2Word.error_code w = 0.
Proof.
  intros Ht Hv w. subst w. rewrite success_eq by done.
  unfold ParsedL2Word.traffic_class, ParsedL2Word.outer_vlan_id, ParsedL2Word.nested_vlan,
    ParsedL2Word.error_code, ParsedL2Word.VLAN_SHIFT, ParsedL2Word.NESTED_SHIFT,
    ParsedL2Word.ERROR_SHIFT, as_u8, as_u16.
  change U8_MAX with (Z.ones 8). change U16_MAX with (Z.ones 16).
  change ParsedL2Word.ERROR_MASK with (Z.ones 2).
  match goal with |- context [Z.land ?x 1] => change (Z.land x 1) with (Z.land x (Z.ones 1)) end.
  rewrite !Z.shiftr_div_pow2, !Z.land_ones by lia.
  change (2 ^ 8) with 256. change (2 ^ 16) with 65536. change (2 ^ 24) with 16777216.
  change (2 ^ 25) with 33554432. change (2 ^ 1) with 2. change (2 ^ 2) with 4.
  repeat autounfold with machine in *.
  split_and!; [..|destruct nested; simpl Z.b2z|destruct nested; simpl Z.b2z];
    try (symmetry; apply negb_true_iff || apply negb_false_iff);
    Z.div_mod_to_equations; lia.
Qed.

Lemma classify_range d et nested : 2 ≤ classify d et nested ≤ 7.
Proof.
  unfold classify, multicast_or_unclassified.
  repeat case_match; vm_compute; split; discriminate.
Qed.

Lemma classify_u8 d et nested : is_u8 (classify d et nested).
Proof. pose proof (classify_range d et nested). ulia. Qed.

(** A reference parser: the frame is matched directly and nothing is packed. *)
Definition parse_l2_spec (frame : list Z) : result ParseError ParsedL2 :=
  match frame with
  | d0 :: d1 :: d2 :: d3 :: d4 :: d5 :: _ :: _ :: _ :: _ :: _ :: _ :: e0 :: e1 :: rest =>
      let d : mac := [# d0; d1; d2; d3; d4; d5] in
      let outer := 256 * e0 + e1 in
      if is_vlan_tpid outer then
        match rest with
        | t0 :: t1 :: i0 :: i1 :: _ =>
            let inner := 256 * i0 + i1 in
            Ok (mkParsedL2 (classify d inner (is_vlan_tpid inner))
              (Some ((256 * t0 + t1) `mod` 4096)) (is_vlan_tpid inner))
        | _ => Err TruncatedVlan
        end
      else Ok (mkParsedL2 (classify d outer false) None false)
  | _ => Err TruncatedEthernet
  end.

Lemma u16_from_be_eq hi lo : is_u8 lo → u16_from_be hi lo = 256 * hi + lo.
Proof. intros. unfold u16_from_be. rewrite Z.lor_comm, lor_shiftl_add by ulia. lia. Qed.

Lemma land_0fff x : Z.land x 0x0fff = x `mod` 4096.
Proof. change 0x0fff with (Z.ones 12). by rewrite Z.land_ones. Qed.

(** What [parse_l2] returns for a packed success. *)
Lemma unpack_success tc vlan nested :
  is_u8 tc → is_u16 vlan →
  (parsed ← Some (ParsedL2Word.success tc vlan nested);
   if ParsedL2Word.error_code parsed =? ParsedL2Word.TRUNCATED_ETHERNET
   then Some (Err TruncatedEthernet)
   else if ParsedL2Word.error_code parsed =? ParsedL2Word.TRUNCATED_VLAN
   then Some (Err TruncatedVlan)
   else Some (Ok (mkParsedL2 (ParsedL2Word.traffic_class parsed)
     (if ParsedL2Word.has_outer_vlan parsed
      then Some (ParsedL2Word.outer_vlan_id parsed) else None)
     (ParsedL2Word.nested_vlan parsed)))) =
  Some (Ok (mkParsedL2 tc (if vlan =? NO_VLAN then None else Some vlan) nested)).
Proof.
  intros Ht Hv. destruct (success_fields tc vlan nested) as (H1 & H2 & H3 & H4); [done..|].
  cbn [mbind option_bind]. unfold ParsedL2Word.has_outer_vlan.
  rewrite H1, H2, H3, H4. simpl. by destruct (vlan =? NO_VLAN).
Qed.

(** C40: on every byte sequence the packed parser never indexes out of range
    and returns exactly what the reference parser returns: packing the class,
    the VLAN identifier, the nesting flag and the error in one [u64] loses
    nothing, and no VLAN identifier is confused with [NO_VLAN]. *)
Theorem parse_l2_correct (frame : list Z) :
  Forall is_u8 frame → parse_l2 frame = Some (parse_l2_spec frame).
Proof.
  intros Hb.
  do 14 (destruct frame as [|? frame]; [reflexivity|apply Forall_cons in Hb as [? Hb]]).
  unfold parse_l2, parse_l2_word, parse_l2_spec.
  cbn [length Nat.ltb Nat.leb ETHERNET_HEADER_LEN lookup list_lookup mbind option_bind].
  rewrite u16_from_be_eq by done. case_match eqn:Hv.
  2:{ apply (unpack_success _ NO_VLAN); [apply classify_u8|vm_compute; split; discriminate]. }
  do 4 (destruct frame as [|? frame]; [reflexivity|apply Forall_cons in Hb as [? Hb]]).
  cbn [length Nat.ltb Nat.leb SINGLE_VLAN_HEADER_LEN lookup list_lookup mbind option_bind].
  rewrite !u16_from_be_eq, land_0fff by done.
  match goal with |- context [Z.modulo ?x 4096] =>
    pose proof (Z.mod_pos_bound x 4096) as Hm; set (vid := x `mod` 4096) in * end.
  etrans; [apply unpack_success; [apply classify_u8|ulia]|].
  replace (vid =? NO_VLAN) with false; [done|].
  symmetry. apply Z.eqb_neq. unfold NO_VLAN. lia.
Qed.

Lemma parse_l2_correct_witness :
  parse_l2 [1; 0; 94; 0; 0; 1; 2; 2; 2; 2; 2; 2; 0x81; 0; 0x30; 5; 8; 0; 69] =
  Some (Ok (mkParsedL2 traffic_class.IPV4_MULTICAST (Some 5) false)).
Proof.
  apply (parse_l2_correct
    [1; 0; 94; 0; 0; 1; 2; 2; 2; 2; 2; 2; 0x81; 0; 0x30; 5; 8; 0; 69]).
  repeat (apply Forall_cons; split; [vm_compute; split; discriminate|]). apply Forall_nil. exact I.
Defined.

(** The classification rules, each stated on its own. *)
Inductive class_rule (d : mac) (et : Z) (nested : bool) : Z → Prop :=
| rule_broadcast :
    vec_to_list d = replicate 6 0xff → class_rule d et nested traffic_class.L2_BROADCAST
| rule_control x :
    vec_to_list d = [0x01; 0x80; 0xc2; 0; 0; x] → x < 16 →
    class_rule d et nested traffic_class.LINK_LOCAL_CONTROL
| rule_ipv4 x y z :
    nested = false → et = 0x0800 → vec_to_list d = [0x01; 0; 0x5e; x; y; z] → x < 128 →
    class_rule d et nested traffic_class.IPV4_MULTICAST
| rule_ipv6 w x y z :
    nested = false → et = 0x86dd → vec_to_list d = [0x33; 0x33; w; x; y; z] →
    class_rule d et nested traffic_class.IPV6_MULTICAST
| rule_other :
    Z.Odd (d !!! 0%fin) → vec_to_list d ≠ replicate 6 0xff →
    (∀ x, vec_to_list d = [0x01; 0x80; 0xc2; 0; 0; x] → 16 ≤ x) →
    (nested = false → et = 0x0800 →
      ∀ x y z, vec_to_list d = [0x01; 0; 0x5e; x; y; z] → 128 ≤ x) →
    (nested = false → et = 0x86dd →
      ∀ w x y z, vec_to_list d ≠ [0x33; 0x33; w; x; y; z]) →
    class_rule d et nested traffic_class.OTHER_L2_MULTICAST
| rule_unicast :
    Z.Even (d !!! 0%fin) → class_rule d et nested traffic_class.UNICAST_OR_UNCLASSIFIED.

Lemma land_0x80 x : is_u8 x → (Z.land x 0x80 =? 0) = (x <? 128).
Proof.
  intros Hx. apply eq_bool_prop_intro. rewrite !Is_true_true, Z.eqb_eq, Z.ltb_lt.
  assert (x = x `mod` 128 + (x / 128) * 2 ^ 7) as He by (pose proof (Z.div_mod x 128); lia).
  assert (x / 128 = 0 ∨ x / 128 = 1) as [Hq|Hq] by (Z.div_mod_to_equations; ulia).
  - assert (x < 128) by (Z.div_mod_to_equations; lia).
    split; [done|]. intros _. apply Z.bits_inj'. intros i Hi.
    rewrite Z.land_spec, Z.bits_0. change 128 with (2 ^ 7). rewrite Z.pow2_bits_eqb by lia.
    destruct (Z.eqb_spec 7 i) as [<-|]; [|apply andb_false_r].
    rewrite <-(Z.mod_small x (2 ^ 7)), Z.mod_pow2_bits_high by ulia. done.
  - assert (128 ≤ x) by (Z.div_mod_to_equations; lia).
    split; [|lia]. intros H0. exfalso.
    assert (Z.testbit (Z.land x 128) 7 = false) as Ht by (rewrite H0; apply Z.bits_0).
    rewrite Z.land_spec in Ht. change (Z.testbit 128 7) with true in Ht.
    rewrite andb_true_r, Z.testbit_odd, Z.shiftr_div_pow2 in Ht by lia.
    change (2 ^ 7) with 128 in Ht. by rewrite Hq in Ht.
Qed.

Lemma land_1 x : (Z.land x 1 =? 1) = Z.odd x.
Proof.
  change 1 with (Z.ones 1) at 1. rewrite Z.land_ones by lia. rewrite Zmod_odd.
  by destruct (Z.odd x).
Qed.

Lemma multicast_or_unclassified_eq (d : mac) :
  multicast_or_unclassified d =
    if Z.odd (d !!! 0%fin) then traffic_class.OTHER_L2_MULTICAST
    else traffic_class.UNICAST_OR_UNCLASSIFIED.
Proof. unfold multicast_or_unclassified. by rewrite land_1. Qed.

Lemma is_link_local_control_true (d : mac) :
  is_link_local_control d = true ↔ ∃ x, vec_to_list d = [0x01; 0x80; 0xc2; 0; 0; x] ∧ x < 16.
Proof.
  inv_vec d; intros d0 d1 d2 d3 d4 d5. unfold is_link_local_control. simpl. split.
  - intros H. boolify. exists d5. split; [repeat f_equal; lia|lia].
  - intros (x & [= -> -> -> -> -> ->] & Hx). simpl. lia.
Qed.

Lemma is_ipv4_multicast_true (d : mac) :
  Forall is_u8 (vec_to_list d) →
  is_ipv4_multicast d = true ↔
  ∃ x y z, vec_to_list d = [0x01; 0; 0x5e; x; y; z] ∧ x < 128.
Proof.
  inv_vec d; intros d0 d1 d2 d3 d4 d5 Hb.
  assert (is_u8 d3) as H3 by (by repeat (apply Forall_cons in Hb as [? Hb])).
  unfold is_ipv4_multicast. simpl.
  rewrite land_0x80 by done. split.
  - intros H. boolify. exists d3, d4, d5. split; [simpl; repeat f_equal; lia|lia].
  - intros (x & y & z & [= -> -> -> -> -> ->] & Hx). simpl. lia.
Qed.

Lemma is_ipv6_multicast_true (d : mac) :
  is_ipv6_multicast d = true ↔ ∃ w x y z, vec_to_list d = [0x33; 0x33; w; x; y; z].
Proof.
  inv_vec d; intros d0 d1 d2 d3 d4 d5. unfold is_ipv6_multicast. simpl. split.
  - intros H. boolify. exists d2, d3, d4, d5. repeat f_equal; lia.
  - by intros (w & x & y & z & [= -> -> -> -> -> ->]).
Qed.

Lemma is_broadcast_true (d : mac) :
  bool_decide (d = vreplicate 6 0xff) = true ↔ vec_to_list d = replicate 6 0xff.
Proof.
  rewrite bool_decide_eq_true, <-vec_to_list_replicate. split; [by intros ->|].
  apply vec_to_list_inj2.
Qed.

Lemma vec_of_list6 (d : mac) u v w x y z :
  vec_to_list d = [u; v; w; x; y; z] → d = [# u; v; w; x; y; z].
Proof. intros H. by apply vec_to_list_inj2. Qed.

(** In a unicast address the group bit is clear, so no group rule applies. *)
Lemma even_head_no_group (d : mac) :
  Forall is_u8 (vec_to_list d) → Z.Even (d !!! 0%fin) →
  bool_decide (d = vreplicate 6 0xff) = false ∧ is_link_local_control d = false ∧
  is_ipv4_multicast d = false ∧ is_ipv6_multicast d = false.
Proof.
  intros Hb He.
  assert (∀ x l, vec_to_list d = x :: l → Z.even x = true) as Hx.
  { intros x l Hd. apply Z.even_spec. revert He Hd.
    clear. inv_vec d; intros d0 d1 d2 d3 d4 d5. by intros ? [= <- _]. }
  split_and!; apply not_true_is_false.
  - rewrite is_broadcast_true. by intros ?%Hx.
  - rewrite is_link_local_control_true. by intros (? & ?%Hx & ?).
  - rewrite is_ipv4_multicast_true by done. by intros (? & ? & ? & ?%Hx & ?).
  - rewrite is_ipv6_multicast_true. by intros (? & ? & ? & ? & ?%Hx).
Qed.

Lemma not_broadcast_vec x (l : vec Z 5) :
  x ≠ 0xff → bool_decide (x ::: l = vreplicate 6 0xff) = false.
Proof.
  intros Hx. apply not_true_is_false. rewrite is_broadcast_true. simpl. congruence.
Qed.

(** Every rule fixes the answer of [classify]. *)
Lemma class_rule_sound d et nested c :
  Forall is_u8 (vec_to_list d) → class_rule d et nested c → classify d et nested = c.
Proof.
  intros Hb [Hd|x Hd Hx|x y z -> -> Hd Hx|w x y z -> -> Hd|Ho Hnb Hnc Hn4 Hn6|He].
  - apply vec_of_list6 in Hd as ->. reflexivity.
  - apply vec_of_list6 in Hd as ->. unfold classify.
    rewrite not_broadcast_vec by done.
    unfold is_link_local_control. simpl.
    by replace (x <=? 15) with true by (symmetry; apply Z.leb_le; lia).
  - assert (is_u8 x) by (rewrite Hd in Hb; by repeat (apply Forall_cons in Hb as [? Hb])).
    apply vec_of_list6 in Hd as ->. unfold classify.
    rewrite not_broadcast_vec by done. simpl.
    unfold is_ipv4_multicast. simpl. rewrite land_0x80 by done.
    by replace (x <? 128) with true by (symmetry; apply Z.ltb_lt; lia).
  - apply vec_of_list6 in Hd as ->. unfold classify.
    by rewrite not_broadcast_vec by done.
  - unfold classify. rewrite multicast_or_unclassified_eq.
    apply Z.odd_spec in Ho. rewrite Ho.
    rewrite (not_true_is_false (bool_decide _)) by (by rewrite is_broadcast_true).
    rewrite (not_true_is_false (is_link_local_control d)).
    2:{ rewrite is_link_local_control_true. intros (x & Hd & ?). specialize (Hnc x Hd). lia. }
    destruct nested; [done|].
    rewrite (not_true_is_false ((et =? ETH_P_IPV4) && is_ipv4_multicast d)).
    2:{ rewrite andb_true_iff, Z.eqb_eq, is_ipv4_multicast_true by done.
        intros (Het & x & y & z & Hd & ?). specialize (Hn4 eq_refl Het x y z Hd). lia. }
    rewrite (not_true_is_false ((et =? ETH_P_IPV6) && is_ipv6_multicast d)); [done|].
    rewrite andb_true_iff, Z.eqb_eq, is_ipv6_multicast_true.
    intros (Het & w & x & y & z & Hd). by apply (Hn6 eq_refl Het w x y z).
  - destruct (even_head_no_group d Hb He) as (B1 & B2 & B3 & B4).
    unfold classify. rewrite B1, B2, B3, B4, !andb_false_r, multicast_or_unclassified_eq.
    apply Z.even_spec in He. rewrite <-Z.negb_even, He. simpl. by destruct nested.
Qed.

(** Some rule applies to every address. *)
Lemma class_rule_complete d et nested :
  Forall is_u8 (vec_to_list d) → class_rule d et nested (classify d et nested).
Proof.
  intros Hb. destruct (Z.Even_or_Odd (d !!! 0%fin)) as [He|Ho].
  { rewrite (class_rule_sound d et nested _ Hb (rule_unicast _ _ _ He)). by constructor. }
  destruct (bool_decide (d = vreplicate 6 0xff)) eqn:B.
  { apply is_broadcast_true in B.
    rewrite (class_rule_sound _ _ _ _ Hb (rule_broadcast d et nested B)). by constructor. }
  destruct (is_link_local_control d) eqn:C.
  { apply is_link_local_control_true in C as (x & Hd & Hx).
    rewrite (class_rule_sound _ _ _ _ Hb (rule_control d et nested x Hd Hx)). by econstructor. }
  destruct (negb nested && (et =? ETH_P_IPV4) && is_ipv4_multicast d) eqn:M4.
  { boolify. apply is_ipv4_multicast_true in H0 as (x & y & z & Hd & Hx); [|done].
    apply Z.eqb_eq in H1.
    rewrite (class_rule_sound _ _ _ _ Hb (rule_ipv4 d et nested x y z H H1 Hd Hx)).
    by eapply rule_ipv4. }
  destruct (negb nested && (et =? ETH_P_IPV6) && is_ipv6_multicast d) eqn:M6.
  { boolify. apply is_ipv6_multicast_true in H0 as (w & x & y & z & Hd).
    apply Z.eqb_eq in H1.
    rewrite (class_rule_sound _ _ _ _ Hb (rule_ipv6 d et nested w x y z H H1 Hd)).
    by eapply rule_ipv6. }
  assert (class_rule d et nested traffic_class.OTHER_L2_MULTICAST) as Hr.
  { constructor; [done|..].
    - rewrite <-is_broadcast_true. congruence.
    - intros x Hd. destruct (Z.le_gt_cases 16 x); [done|].
      assert (is_link_local_control d = true) by (apply is_link_local_control_true; eauto with lia).
      congruence.
    - intros -> -> x y z Hd. destruct (Z.le_gt_cases 128 x); [done|].
      assert (is_ipv4_multicast d = true) as Hm by (apply is_ipv4_multicast_true; naive_solver lia).
      by rewrite Hm in M4.
    - intros -> -> w x y z Hd.
      assert (is_ipv6_multicast d = true) as Hm by (apply is_ipv6_multicast_true; eauto).
      by rewrite Hm in M6. }
  by rewrite (class_rule_sound _ _ _ _ Hb Hr).
Qed.

(** The six traffic classes are exhaustive and mutually exclusive: for
    every destination address, EtherType and nesting flag, a class satisfies
    its rule exactly when [classify] returns it. *)
Theorem classify_exclusive_exhaustive d et nested c :
  Forall is_u8 (vec_to_list d) →
  class_rule d et nested c ↔ classify d et nested = c.
Proof.
  intros Hb. split; [by apply class_rule_sound|].
  intros <-. by apply class_rule_complete.
Qed.

Lemma classify_exclusive_exhaustive_witness :
  class_rule [# 0x33; 0x33; 0; 0; 0; 1] 0x86dd true traffic_class.OTHER_L2_MULTICAST.
Proof.
  apply classify_exclusive_exhaustive; [|reflexivity].
  repeat (apply Forall_cons; split; [vm_compute; split; discriminate|]). apply Forall_nil. exact I.
Defined.
