(* ===== verification/FrameHash.v ===== *)
(** Frame fingerprints of [l2-loop-common] ([fingerprint.rs]): the 64-bit
    FNV-1a hash over the frame length and a 60-byte prefix, the deterministic
    sampling decision, and the metadata parser that accompanies a sampled
    frame. *)
From S2P Require Import Prelude Domain Packet.

Definition FINGERPRINT_PREFIX_LEN : nat := 60.
Definition FINGERPRINT_SAMPLE_SHIFT : Z := 4.
Definition FNV_OFFSET_BASIS : Z := 0xcbf29ce484222325.
Definition FNV_PRIME : Z := 0x00000100000001b3.
Definition ETH_P_ARP : Z := 0x0806.
Definition IPPROTO_ICMP : Z := 1.
Definition IPPROTO_ICMPV6 : Z := 58.

(** ** The hash *)
Definition fingerprint_hash_step (hash byte : Z) : Z :=
  wrapping_mul_u64 (Z.lxor hash byte) FNV_PRIME.

(** [u16::to_be_bytes]. *)
Definition u16_to_be (n : Z) : Z * Z := (Z.shiftr n 8, as_u8 n).

Definition fingerprint_hash_init (frame_len : Z) : Z :=
  let bytes := u16_to_be frame_len in
  fingerprint_hash_step (fingerprint_hash_step FNV_OFFSET_BASIS bytes.1) bytes.2.

Definition fingerprint_hash_with_length (frame_len : Z) (prefix : list Z) : option Z :=
  let expected_prefix_len := Nat.min (Z.to_nat frame_len) FINGERPRINT_PREFIX_LEN in
  if negb (length prefix =? expected_prefix_len)%nat then None
  else Some (foldl fingerprint_hash_step (fingerprint_hash_init frame_len) prefix).

Definition fingerprint_hash (frame : list Z) : option Z :=
  frame_len ← try_from_wide U16_MAX (Z.of_nat (length frame));
  let prefix_len := Nat.min (length frame) FINGERPRINT_PREFIX_LEN in
  fingerprint_hash_with_length frame_len (take prefix_len frame).

Definition fingerprint_selected (fingerprint : Z) : bool :=
  Z.land fingerprint (Z.shiftl 1 FINGERPRINT_SAMPLE_SHIFT - 1) =? 0.

(** ** Metadata *)
Record FingerprintMetadata : Type := mkFingerprintMetadata {
  fm_source_mac : mac;
  fm_destination_mac : mac;
  fm_outer_vlan_id : Z;
  fm_ether_type : Z;
  fm_vlan_depth : Z;
  fm_protocol : Z;
  fm_subtype : Z;
}.

Definition copy_mac (frame : list Z) (offset : nat) : option mac :=
  a ← frame !! offset;
  b ← frame !! (offset + 1)%nat;
  c ← frame !! (offset + 2)%nat;
  d ← frame !! (offset + 3)%nat;
  e ← frame !! (offset + 4)%nat;
  f ← frame !! (offset + 5)%nat;
  Some [# a; b; c; d; e; f].

Definition read_u16 (frame : list Z) (offset : nat) : option Z :=
  hi ← frame !! offset;
  lo ← frame !! (offset + 1)%nat;
  Some (u16_from_be hi lo).

Definition ipv4_protocol_and_subtype (frame : list Z) (offset : nat) : Z * Z :=
  match frame !! offset with
  | None => (0, 0)
  | Some first =>
      let header_len := (Z.to_nat (Z.land first 0x0f) * 4)%nat in
      if negb (Z.shiftr first 4 =? 4) || (header_len <? 20)%nat
         || (length frame <? offset + header_len)%nat
      then (0, 0)
      else
        match frame !! (offset + 9)%nat with
        | None => (0, 0)
        | Some protocol =>
            (protocol,
             if protocol =? IPPROTO_ICMP
             then default 0 (frame !! (offset + header_len)%nat) else 0)
        end
  end.

(** The only direct indexing of the metadata parser: [None] is its panic. *)
Definition ipv6_protocol_and_subtype (frame : list Z) (offset : nat) : panics (Z * Z) :=
  if negb (Z.shiftr (default 0 (frame !! offset)) 4 =? 6)
     || (length frame <? offset + 40)%nat
  then Some (0, 0)
  else
    protocol ← frame !! (offset + 6)%nat;
    Some (protocol,
          if protocol =? IPPROTO_ICMPV6
          then default 0 (frame !! (offset + 40)%nat) else 0).

Definition protocol_and_subtype (frame : list Z) (offset : nat) (ether_type : Z)
    : panics (Z * Z) :=
  if ether_type =? ETH_P_IPV4 then Some (ipv4_protocol_and_subtype frame offset)
  else if ether_type =? ETH_P_IPV6 then ipv6_protocol_and_subtype frame offset
  else if ether_type =? ETH_P_ARP then
    let opcode :=
      match read_u16 frame (offset + 6) with
      | Some opcode => if opcode <=? U8_MAX then opcode else 0
      | None => 0
      end in
    Some (0, as_u8 opcode)
  else Some (0, 0).

(** The [Option] of the source is the inner one. *)
Definition parse_fingerprint_metadata (frame : list Z) : panics (option FingerprintMetadata) :=
  if (length frame <? 14)%nat then Some None
  else
    match copy_mac frame 0, copy_mac frame 6, read_u16 frame 12 with
    | Some destination_mac, Some source_mac, Some outer_ether_type =>
        let header :=
          if is_vlan_tpid outer_ether_type then
            if (length frame <? 18)%nat then None
            else
              inner_ether_type ← read_u16 frame 16;
              tci ← read_u16 frame 14;
              Some (inner_ether_type, Z.land tci 0x0fff,
                    (if is_vlan_tpid inner_ether_type then 2 else 1), 18%nat)
          else Some (outer_ether_type, NO_VLAN, 0, 14%nat) in
        match header with
        | None => Some None
        | Some (ether_type, outer_vlan_id, vlan_depth, network_offset) =>
            ps ← (if vlan_depth =? 2 then Some (0, 0)
                  else protocol_and_subtype frame network_offset ether_type);
            Some (Some (mkFingerprintMetadata source_mac destination_mac outer_vlan_id
              ether_type vlan_depth ps.1 ps.2))
        end
    | _, _, _ => Some None
    end.

(** ** Properties of the hash *)

(** The source's own test vectors. *)
Example hash_vector_short :
  fingerprint_hash (seqZ 0 14) = Some 0xd0d70fe308765f64.
Proof. reflexivity. Qed.

Example hash_vector_long :
  fingerprint_hash ((λ i, (i * 3 + 7) `mod` 256) <$> seqZ 0 80) = Some 0x8480dad8815a62f9.
Proof. reflexivity. Qed.

(** FNV-1a over a byte string, without length or prefix rules. *)
Definition fnv1a (bytes : list Z) : Z := foldl fingerprint_hash_step FNV_OFFSET_BASIS bytes.

(** The fingerprint of a frame is the FNV-1a hash of its two-byte
    big-endian length followed by its first 60 bytes, and exists exactly when
    the length fits in 16 bits; the slice taken for the prefix never makes the
    length check of [fingerprint_hash_with_length] fail. *)
Theorem fingerprint_hash_is_fnv1a (frame : list Z) :
  fingerprint_hash frame =
    if Z.of_nat (length frame) <=? 65535
    then Some (fnv1a ([Z.of_nat (length frame) / 256; Z.of_nat (length frame) `mod` 256]
                      ++ take 60 frame))
    else None.
Proof.
  unfold fingerprint_hash, try_from_wide, U16_MAX.
  destruct (Z.leb_spec (Z.of_nat (length frame)) 65535) as [Hle|Hgt]; [|done].
  cbn [mbind option_bind]. unfold fingerprint_hash_with_length.
  rewrite Nat2Z.id, length_take. unfold FINGERPRINT_PREFIX_LEN.
  rewrite (proj2 (Nat.eqb_eq _ _)) by lia. simpl negb.
  unfold fnv1a, fingerprint_hash_init, u16_to_be, as_u8.
  rewrite Z.shiftr_div_pow2 by lia. change U8_MAX with (Z.ones 8).
  rewrite Z.land_ones by lia. cbn [app foldl fst snd]. f_equal. f_equal.
  destruct (Nat.le_gt_cases (length frame) 60).
  - rewrite Nat.min_l by lia. by rewrite !take_ge by lia.
  - by rewrite Nat.min_r by lia.
Qed.

Lemma lxor_u64 a b : is_u64 a → is_u64 b → is_u64 (Z.lxor a b).
Proof.
  intros Ha Hb. assert (Z.lxor a b = Z.lxor a b `mod` 2 ^ 64) as ->.
  { apply Z.bits_inj'. intros i Hi. destruct (Z.lt_ge_cases i 64).
    - by rewrite Z.mod_pow2_bits_low.
    - rewrite Z.mod_pow2_bits_high by lia. rewrite Z.lxor_spec.
      rewrite <-(Z.mod_small a (2 ^ 64)), <-(Z.mod_small b (2 ^ 64)) by ulia.
      by rewrite !Z.mod_pow2_bits_high by lia. }
  pose proof (Z.mod_pos_bound (Z.lxor a b) (2 ^ 64)). ulia.
Qed.

(** The inverse of [FNV_PRIME] modulo 2^64. *)
Definition fnv_prime_inverse : Z := 0xce965057aff6957b.

Lemma wrapping_mul_prime_inv a :
  is_u64 a → wrapping_mul_u64 (wrapping_mul_u64 a FNV_PRIME) fnv_prime_inverse = a.
Proof.
  intros Ha. unfold wrapping_mul_u64. rewrite Zmult_mod_idemp_l, <-Z.mul_assoc.
  rewrite <-Zmult_mod_idemp_r.
  change ((FNV_PRIME * fnv_prime_inverse) `mod` (U64_MAX + 1)) with 1.
  rewrite Z.mul_1_r. apply Z.mod_small. ulia.
Qed.

Lemma step_u64 h b : is_u64 (fingerprint_hash_step h b).
Proof.
  unfold fingerprint_hash_step, wrapping_mul_u64.
  pose proof (Z.mod_pos_bound (Z.lxor h b * FNV_PRIME) (U64_MAX + 1)). ulia.
Qed.

Lemma step_inj h1 b1 h2 b2 :
  is_u64 h1 → is_u64 b1 → is_u64 h2 → is_u64 b2 →
  fingerprint_hash_step h1 b1 = fingerprint_hash_step h2 b2 →
  Z.lxor h1 b1 = Z.lxor h2 b2.
Proof.
  intros ? ? ? ? He.
  rewrite <-(wrapping_mul_prime_inv (Z.lxor h1 b1)) by (by apply lxor_u64).
  rewrite <-(wrapping_mul_prime_inv (Z.lxor h2 b2)) by (by apply lxor_u64).
  f_equal. exact He.
Qed.

Lemma lxor_cancel_l a b c : Z.lxor a b = Z.lxor a c → b = c.
Proof.
  intros H. apply (f_equal (Z.lxor a)) in H.
  by rewrite <-!Z.lxor_assoc, !Z.lxor_nilpotent, !Z.lxor_0_l in H.
Qed.

Lemma u8_u64 a : is_u8 a → is_u64 a.
Proof. ulia. Qed.

Lemma foldl_step_u64 l h : is_u64 h → is_u64 (foldl fingerprint_hash_step h l).
Proof. revert h. induction l; intros h Hh; simpl; [done|]. apply IHl, step_u64. Qed.

(** Hashing the same suffix from different states gives different hashes. *)
Lemma foldl_step_inj l h1 h2 :
  Forall is_u8 l → is_u64 h1 → is_u64 h2 →
  foldl fingerprint_hash_step h1 l = foldl fingerprint_hash_step h2 l → h1 = h2.
Proof.
  revert h1 h2. induction l as [|b l IH]; intros h1 h2 Hl H1 H2 He; [done|].
  apply Forall_cons in Hl as [Hb Hl]. simpl in He.
  apply IH in He; [|done|apply step_u64..].
  apply step_inj in He; [|done|by apply u8_u64|done|by apply u8_u64].
  rewrite (Z.lxor_comm h1), (Z.lxor_comm h2) in He. by eapply lxor_cancel_l.
Qed.

Lemma fnv1a_single_byte l1 x y l2 :
  Forall is_u8 (l1 ++ x :: l2) → is_u8 y →
  fnv1a (l1 ++ x :: l2) = fnv1a (l1 ++ y :: l2) → x = y.
Proof.
  intros Hl Hy He. apply Forall_app in Hl as [_ [Hx Hl2]%Forall_cons].
  unfold fnv1a in He. rewrite !foldl_app in He. simpl in He.
  set (h := foldl fingerprint_hash_step FNV_OFFSET_BASIS l1) in *.
  assert (is_u64 h) by (apply foldl_step_u64; vm_compute; split; discriminate).
  apply foldl_step_inj in He; [|done|apply step_u64..].
  apply step_inj in He; [|done|by apply u8_u64|done|by apply u8_u64].
  by eapply lxor_cancel_l.
Qed.

(** Fingerprints have no single-byte collisions: two frames of the same
    length that differ in exactly one of their first 60 bytes have different
    fingerprints (and both have one). *)
Theorem fingerprint_hash_single_byte (pre : list Z) (x y : Z) (post : list Z) :
  Forall is_u8 (pre ++ x :: post) → is_u8 y → x ≠ y →
  (length pre < 60)%nat → Z.of_nat (length pre + S (length post)) ≤ 65535 →
  ∃ h h', fingerprint_hash (pre ++ x :: post) = Some h ∧
          fingerprint_hash (pre ++ y :: post) = Some h' ∧ h ≠ h'.
Proof.
  intros Hb Hy Hxy Hpre Hlen. rewrite !fingerprint_hash_is_fnv1a, !length_app.
  cbn [length].
  assert ((Z.of_nat (length pre + S (length post)) <=? 65535) = true) as Hle by lia.
  rewrite Hle. eexists _, _; split; [done|]. split; [done|]. intros He.
  rewrite !take_app_ge in He by lia.
  replace (60 - length pre)%nat with (S (59 - length pre)) in He by lia.
  cbn [take] in He. rewrite !app_assoc in He.
  apply Hxy. eapply fnv1a_single_byte; [|exact Hy|exact He].
  apply Forall_app in Hb as [Hb1 [Hx Hb2]%Forall_cons].
  assert (∀ n, 0 ≤ n ≤ 65535 → Forall is_u8 [n / 256; n `mod` 256]) as Hbe.
  { intros n Hn. repeat (apply Forall_cons; split); [..|constructor];
      repeat autounfold with machine; Z.div_mod_to_equations; lia. }
  apply Forall_app; split; [apply Forall_app; split; [apply Hbe; lia|done]|].
  apply Forall_cons; auto using Forall_take.
Qed.

Lemma fingerprint_hash_single_byte_witness :
  ∃ h h', fingerprint_hash (replicate 59 0 ++ 1 :: replicate 5 9) = Some h ∧
          fingerprint_hash (replicate 59 0 ++ 2 :: replicate 5 9) = Some h' ∧ h ≠ h'.
Proof.
  apply fingerprint_hash_single_byte; [|split; discriminate|discriminate|simpl; lia..].
  apply (bool_decide_unpack _). exact I.
Defined.

(** ** Properties of the metadata parser *)

Lemma ipv6_no_panic frame offset :
  ∃ ps, ipv6_protocol_and_subtype frame offset = Some ps.
Proof.
  unfold ipv6_protocol_and_subtype. case_match eqn:E; [by eexists|]. boolify.
  destruct (lookup_lt_is_Some_2 frame (offset + 6)) as [p ->]; [lia|]. by eexists.
Qed.

Lemma protocol_no_panic frame offset ether_type :
  ∃ ps, protocol_and_subtype frame offset ether_type = Some ps.
Proof.
  unfold protocol_and_subtype. repeat case_match; try by eexists. apply ipv6_no_panic.
Qed.

(** The two parsers read the same header. *)
Definition same_header (l : ParsedL2) (m : FingerprintMetadata) : Prop :=
  fm_outer_vlan_id m = default NO_VLAN (pl_outer_vlan_id l) ∧
  (fm_vlan_depth m = 0 ↔ pl_outer_vlan_id l = None) ∧
  (fm_vlan_depth m = 2 ↔ pl_nested_vlan l = true) ∧
  pl_traffic_class l = classify (fm_destination_mac m) (fm_ether_type m) (pl_nested_vlan l).

(** On every byte sequence the metadata parser never panics, it yields no
    metadata exactly when the counter parser reports an error, and otherwise
    the two agree on the VLAN identifier, the VLAN depth and the traffic
    class. *)
Theorem metadata_agrees_with_parse_l2 (frame : list Z) :
  Forall is_u8 frame →
  ∃ p r, parse_l2 frame = Some p ∧ parse_fingerprint_metadata frame = Some r ∧
    match p, r with
    | Err _, None => True
    | Ok l, Some m => same_header l m
    | _, _ => False
    end.
Proof.
  intros Hb. exists (parse_l2_spec frame). rewrite parse_l2_correct by done. revert Hb.
  do 14 (destruct frame as [|? frame];
    [intros _; exists None; split; [done|]; split; [done|]; exact I|]).
  intros Hb. do 14 apply Forall_cons in Hb as [? Hb].
  unfold parse_fingerprint_metadata, parse_l2_spec, copy_mac, read_u16.
  cbn [length Nat.ltb Nat.leb lookup list_lookup mbind option_bind Nat.add].
  rewrite u16_from_be_eq by done. case_match eqn:Hv.
  2:{ destruct (protocol_no_panic
        (z :: z0 :: z1 :: z2 :: z3 :: z4 :: z5 :: z6 :: z7 :: z8 :: z9 :: z10 :: z11 :: z12 :: frame)
        14 (256 * z11 + z12)) as [ps Hps]. simpl Z.eqb. cbn iota. rewrite Hps.
      eexists; split; [done|]; split; [done|]. split_and!; cbn; naive_solver. }
  do 4 (destruct frame as [|? frame];
    [exists None; split; [done|]; split; [done|]; exact I|apply Forall_cons in Hb as [? Hb]]).
  cbn [length Nat.ltb Nat.leb lookup list_lookup mbind option_bind Nat.add].
  rewrite !u16_from_be_eq, land_0fff by done.
  set (n := is_vlan_tpid (256 * z15 + z16)).
  destruct (protocol_no_panic
    (z :: z0 :: z1 :: z2 :: z3 :: z4 :: z5 :: z6 :: z7 :: z8 :: z9 :: z10 :: z11 :: z12
       :: z13 :: z14 :: z15 :: z16 :: frame) 18 (256 * z15 + z16)) as [ps Hps].
  destruct n eqn:En; simpl Z.eqb; cbn iota; rewrite ?Hps;
    (eexists; split; [done|]; split; [done|]; split_and!; cbn; naive_solver).
Qed.

Lemma metadata_agrees_with_parse_l2_witness :
  ∃ p r, parse_l2 (replicate 40 7) = Some p ∧
    parse_fingerprint_metadata (replicate 40 7) = Some r ∧
    match p, r with
    | Err _, None => True
    | Ok l, Some m => same_header l m
    | _, _ => False
    end.
Proof.
  apply metadata_agrees_with_parse_l2. apply (bool_decide_unpack _). exact I.
Defined.
