(* ===== verification/Observation.v ===== *)
(** Cumulative observation counters of [l2-loop-core] ([observation.rs]): the
    per-hook counters read from the eBPF maps, their checked addition, and the
    fixed hook and class order every consumer relies on. *)
From S2P Require Import Prelude Domain.

Definition OBSERVATION_SCHEMA_VERSION : Z := 5.
Definition OBSERVED_HOOK_COUNT : nat := 2.
Definition OBSERVED_CLASS_COUNT : nat := 6.

Definition CLASS_ORDER : vec TrafficClass OBSERVED_CLASS_COUNT :=
  [# L2Broadcast; Ipv4Multicast; Ipv6Multicast; OtherL2Multicast;
     LinkLocalControl; UnicastOrUnclassified].

Record ObservationCounters : Type := mkObservationCounters {
  oc_packets : Z;
  oc_bytes : Z;
}.

Definition ObservationCounters_checked_add (self other : ObservationCounters)
    : result DomainError ObservationCounters :=
  packets ← ok_or (checked_add U64_MAX (oc_packets self) (oc_packets other))
    (InvalidObservation "packet counter overflow");
  bytes ← ok_or (checked_add U64_MAX (oc_bytes self) (oc_bytes other))
    (InvalidObservation "byte counter overflow");
  Ok (mkObservationCounters packets bytes).

Record ClassObservation : Type := mkClassObservation {
  co_traffic_class : TrafficClass;
  co_counters : ObservationCounters;
}.

Record HookObservation : Type := mkHookObservation {
  ho_role : HookRole;
  ho_total : ObservationCounters;
  ho_classes : vec ClassObservation OBSERVED_CLASS_COUNT;
  ho_parse_errors : ObservationCounters;
}.

Notation HookObservations := (vec HookObservation OBSERVED_HOOK_COUNT).

Inductive ObservationHealth : Type := Healthy | Degraded.

(** The two order checks the constructors share: XDP ingress before TC egress,
    and the classes of every hook in [CLASS_ORDER]. *)
Definition hook_roles_ordered {A} (role : A → HookRole) (hooks : vec A OBSERVED_HOOK_COUNT)
    : bool :=
  negb (negb (bool_decide (role (hooks !!! 0%fin) = ExternalXdpIngress))
        || negb (bool_decide (role (hooks !!! 1%fin) = PhysicalTcEgress))).

Definition classes_ordered {A} (class : A → TrafficClass)
    (classes : vec A OBSERVED_CLASS_COUNT) : bool :=
  negb (existsb (λ p, negb (bool_decide (class p.1 = p.2)))
    (zip (vec_to_list classes) (vec_to_list CLASS_ORDER))).

(** Type invariants: the counters are [u64]. *)
Definition counters_u64 (c : ObservationCounters) : Prop :=
  is_u64 (oc_packets c) ∧ is_u64 (oc_bytes c).

Definition hook_u64 (h : HookObservation) : Prop :=
  counters_u64 (ho_total h) ∧ counters_u64 (ho_parse_errors h) ∧
  Forall (λ c, counters_u64 (co_counters c)) (ho_classes h).

Lemma hook_roles_ordered_true {A} (role : A → HookRole) (hooks : vec A OBSERVED_HOOK_COUNT) :
  hook_roles_ordered role hooks = true ↔
  role <$> vec_to_list hooks = [ExternalXdpIngress; PhysicalTcEgress].
Proof.
  inv_vec hooks; intros h0 h1. unfold hook_roles_ordered. simpl.
  rewrite negb_true_iff, orb_false_iff, !negb_false_iff, !bool_decide_eq_true.
  split; [intros H; destruct_and!; congruence|intros [=]; split_and!; done].
Qed.

Lemma classes_ordered_true {A} (class : A → TrafficClass)
    (classes : vec A OBSERVED_CLASS_COUNT) :
  classes_ordered class classes = true ↔
  class <$> vec_to_list classes = vec_to_list CLASS_ORDER.
Proof.
  inv_vec classes; intros c0 c1 c2 c3 c4 c5.
  unfold classes_ordered. simpl.
  rewrite negb_true_iff, !orb_false_iff, !negb_false_iff, !bool_decide_eq_true.
  split; [intros H; destruct_and!; congruence|intros [=]; split_and!; done].
Qed.

(** Adding two counter pairs either is exact in both components or fails,
    and it fails exactly when a component does not fit in 64 bits. *)
Lemma counters_checked_add_exact a b :
  (∀ c, ObservationCounters_checked_add a b = Ok c ↔
    c = mkObservationCounters (oc_packets a + oc_packets b) (oc_bytes a + oc_bytes b) ∧
    oc_packets a + oc_packets b ≤ U64_MAX ∧ oc_bytes a + oc_bytes b ≤ U64_MAX).
Proof.
  intros c. unfold ObservationCounters_checked_add. split.
  - intros H. inv_ok. done.
  - intros (-> & Hp & Hb). by rewrite !checked_add_ok by done.
Qed.
