(* ===== verification/Rate.v ===== *)
(** Rate history of [l2-loop-core] ([rate.rs]): a bounded history of
    cumulative counter samples of one interface generation, and the fixed
    1 s / 10 s / 60 s rate windows computed from it. *)
From S2P Require Import Prelude Domain Observation.

Definition RATE_WINDOW_COUNT : nat := 3.
Definition RATE_WINDOW_MS : vec Z RATE_WINDOW_COUNT := [# 1000; 10000; 60000].
Definition RATE_HISTORY_CAPACITY : nat := 64.
Definition RATE_SAMPLE_PERIOD_NS : Z := 1000000000.
Definition RATE_STALE_AFTER_NS : Z := 3000000000.

(** ** Identity and samples *)
Record RateIdentity : Type := mkRateIdentity {
  ri_ifindex : Z;
  ri_generation : Z;
}.

#[export] Instance RateIdentity_eq_dec : EqDecision RateIdentity.
Proof. solve_decision. Defined.

Definition RateIdentity_new (ifindex generation : Z) : result DomainError RateIdentity :=
  if ifindex =? 0 then Err (InvalidObservation "ifindex must be non-zero")
  else if generation =? 0
  then Err (InvalidObservation "interface generation must be non-zero")
  else Ok (mkRateIdentity ifindex generation).

Definition RateIdentity_validate (self : RateIdentity) : result DomainError unit :=
  (λ _, tt) <$> RateIdentity_new (ri_ifindex self) (ri_generation self).

Record RateSample : Type := mkRateSample {
  rs_identity : RateIdentity;
  rs_captured_at_monotonic_ns : Z;
  rs_captured_at_unix_ms : Z;
  rs_vlan_visibility : VlanVisibility;
  rs_hooks : HookObservations;
}.

Definition validate_observation_hooks (hooks : HookObservations) : result DomainError unit :=
  if negb (hook_roles_ordered ho_role hooks)
  then Err (InvalidObservation "rate samples must be ordered XDP ingress then TC egress")
  else if existsb (λ hook, negb (classes_ordered co_traffic_class (ho_classes hook)))
            (vec_to_list hooks)
  then Err (InvalidObservation "rate sample classes do not match the fixed class order")
  else Ok tt.

Definition RateSample_new (identity : RateIdentity) (monotonic_ns unix_ms : Z)
    (visibility : VlanVisibility) (hooks : HookObservations) : result DomainError RateSample :=
  _ ← RateIdentity_validate identity;
  _ ← validate_observation_hooks hooks;
  Ok (mkRateSample identity monotonic_ns unix_ms visibility hooks).

Inductive RateHistoryError : Type :=
| IdentityMismatch | RateClockRegression | RateCounterRegression | RateCalculationFailed.

#[export] Instance RateHistoryError_eq_dec : EqDecision RateHistoryError.
Proof. solve_decision. Defined.

(** ** Rate evidence *)
Inductive RateWindowState : Type := RateWarmingUp | RateReady | RateStale.

#[export] Instance RateWindowState_eq_dec : EqDecision RateWindowState.
Proof. solve_decision. Defined.

Record RateCounters : Type := mkRateCounters {
  rc_packet_delta : Z;
  rc_byte_delta : Z;
  rc_packets_per_second : Z;
  rc_bytes_per_second : Z;
}.

Record SamplingStatus : Type := mkSamplingStatus {
  ss_latest_success_at_unix_ms : option Z;
  ss_last_error_code : option string;
  ss_consecutive_failures : Z;
  ss_sampling_paused : bool;
}.

Record ClassRate : Type := mkClassRate {
  cr_traffic_class : TrafficClass;
  cr_counters : RateCounters;
}.

Record HookRate : Type := mkHookRate {
  hr_role : HookRole;
  hr_total : RateCounters;
  hr_classes : vec ClassRate OBSERVED_CLASS_COUNT;
  hr_parse_errors : RateCounters;
}.

Notation HookRates := (vec HookRate OBSERVED_HOOK_COUNT).

Record DetailedRateWindow : Type := mkDetailedRateWindow {
  dw_window_ms : Z;
  dw_state : RateWindowState;
  dw_coverage_ms : Z;
  dw_elapsed_ns : option Z;
  dw_start_unix_ms : option Z;
  dw_end_unix_ms : option Z;
  dw_hooks : option HookRates;
}.

Record StatusRateWindow : Type := mkStatusRateWindow {
  sw_window_ms : Z;
  sw_state : RateWindowState;
  sw_coverage_ms : Z;
  sw_elapsed_ns : option Z;
  sw_start_unix_ms : option Z;
  sw_end_unix_ms : option Z;
  sw_xdp_ingress : option RateCounters;
  sw_tc_egress : option RateCounters;
}.

Notation DetailedRateWindows := (vec DetailedRateWindow RATE_WINDOW_COUNT).
Notation StatusRateWindows := (vec StatusRateWindow RATE_WINDOW_COUNT).

Definition fixed_duration (window_ms : Z) : bool :=
  existsb (λ ms, ms =? window_ms) (vec_to_list RATE_WINDOW_MS).

Definition warming_window (window_ms : Z) : DetailedRateWindow :=
  mkDetailedRateWindow window_ms RateWarmingUp 0 None None None None.

Definition DetailedRateWindow_warming (window_ms : Z) : result DomainError DetailedRateWindow :=
  if negb (fixed_duration window_ms)
  then Err (InvalidObservation "rate window is not one of the fixed durations")
  else Ok (warming_window window_ms).

Definition warming_status_window (window_ms : Z) : StatusRateWindow :=
  mkStatusRateWindow window_ms RateWarmingUp 0 None None None None None.

Definition StatusRateWindow_warming (window_ms : Z) : result DomainError StatusRateWindow :=
  if negb (fixed_duration window_ms)
  then Err (InvalidObservation "rate window is not one of the fixed durations")
  else Ok (warming_status_window window_ms).

Definition warming_detailed_rate_windows : DetailedRateWindows :=
  vmap warming_window RATE_WINDOW_MS.
Definition warming_status_rate_windows : StatusRateWindows :=
  vmap warming_status_window RATE_WINDOW_MS.

Definition validate_evidence_shape (window_ms : Z) (state : RateWindowState) (coverage_ms : Z)
    (elapsed_ns start_unix_ms end_unix_ms : option Z) (has_rates : bool)
    : result DomainError unit :=
  if negb (fixed_duration window_ms)
  then Err (InvalidObservation "rate window is not one of the fixed durations")
  else
    let evidence_is_complete :=
      is_some elapsed_ns && is_some start_unix_ms && is_some end_unix_ms && has_rates in
    let evidence_is_absent :=
      is_none elapsed_ns && is_none start_unix_ms && is_none end_unix_ms && negb has_rates in
    match state with
    | RateReady =>
        if negb evidence_is_complete
        then Err (InvalidObservation "ready rate window requires complete rate evidence")
        else if bool_decide (elapsed_ns = Some 0)
             || (default 0 elapsed_ns <? saturating_mul U64_MAX window_ms 1000000)
             || (coverage_ms <? window_ms)
        then Err (InvalidObservation "ready rate window does not cover its fixed duration")
        else Ok tt
    | RateWarmingUp | RateStale =>
        if negb evidence_is_absent
        then Err (InvalidObservation "non-ready rate window must not contain rate evidence")
        else Ok tt
    end.

Definition validate_hook_rates (hooks : HookRates) : result DomainError unit :=
  if negb (hook_roles_ordered hr_role hooks)
  then Err (InvalidObservation "rate hooks must be ordered XDP ingress then TC egress")
  else if existsb (λ hook, negb (classes_ordered cr_traffic_class (hr_classes hook)))
            (vec_to_list hooks)
  then Err (InvalidObservation "rate classes do not match the fixed class order")
  else Ok tt.

Definition DetailedRateWindow_validate (self : DetailedRateWindow) : result DomainError unit :=
  _ ← validate_evidence_shape (dw_window_ms self) (dw_state self) (dw_coverage_ms self)
        (dw_elapsed_ns self) (dw_start_unix_ms self) (dw_end_unix_ms self)
        (is_some (dw_hooks self));
  match dw_hooks self with
  | Some hooks => validate_hook_rates hooks
  | None => Ok tt
  end.

Definition StatusRateWindow_validate (self : StatusRateWindow) : result DomainError unit :=
  let has_both_rates := is_some (sw_xdp_ingress self) && is_some (sw_tc_egress self) in
  let has_any_rate := is_some (sw_xdp_ingress self) || is_some (sw_tc_egress self) in
  if has_any_rate && negb has_both_rates
  then Err (InvalidObservation "status rate window must contain both hook rates or neither")
  else validate_evidence_shape (sw_window_ms self) (sw_state self) (sw_coverage_ms self)
         (sw_elapsed_ns self) (sw_start_unix_ms self) (sw_end_unix_ms self) has_both_rates.

Definition validate_detailed_rate_windows (windows : DetailedRateWindows)
    : result DomainError unit :=
  try_for_each (λ p,
    if negb (dw_window_ms p.1 =? p.2)
    then Err (InvalidObservation "rate windows do not match the fixed duration order")
    else DetailedRateWindow_validate p.1)
    (zip (vec_to_list windows) (vec_to_list RATE_WINDOW_MS)).

Definition validate_status_rate_windows (windows : StatusRateWindows)
    : result DomainError unit :=
  try_for_each (λ p,
    if negb (sw_window_ms p.1 =? p.2)
    then Err (InvalidObservation "status rate windows do not match the fixed duration order")
    else StatusRateWindow_validate p.1)
    (zip (vec_to_list windows) (vec_to_list RATE_WINDOW_MS)).

(** ** Rate arithmetic *)
Definition counters_are_monotonic (previous current : ObservationCounters) : bool :=
  (oc_packets previous <=? oc_packets current) && (oc_bytes previous <=? oc_bytes current).

Definition hook_is_monotonic (before after : HookObservation) : bool :=
  counters_are_monotonic (ho_total before) (ho_total after)
  && counters_are_monotonic (ho_parse_errors before) (ho_parse_errors after)
  && forallb (λ p,
       bool_decide (co_traffic_class p.1 = co_traffic_class p.2)
       && counters_are_monotonic (co_counters p.1) (co_counters p.2))
     (zip (vec_to_list (ho_classes before)) (vec_to_list (ho_classes after))).

Definition hooks_are_monotonic (previous current : HookObservations) : bool :=
  forallb (λ p, hook_is_monotonic p.1 p.2) (zip (vec_to_list previous) (vec_to_list current)).

Definition calculate_rate (delta elapsed_ns : Z) : result RateHistoryError Z :=
  numerator ← ok_or (checked_mul U128_MAX delta RATE_SAMPLE_PERIOD_NS) RateCalculationFailed;
  rate ← ok_or (checked_div numerator elapsed_ns) RateCalculationFailed;
  ok_or (try_from_wide U64_MAX rate) RateCalculationFailed.

Definition calculate_rate_counters (start end_ : ObservationCounters) (elapsed_ns : Z)
    : result RateHistoryError RateCounters :=
  if elapsed_ns =? 0 then Err RateCalculationFailed
  else
    packet_delta ← ok_or (checked_sub (oc_packets end_) (oc_packets start)) RateCounterRegression;
    byte_delta ← ok_or (checked_sub (oc_bytes end_) (oc_bytes start)) RateCounterRegression;
    packets_per_second ← calculate_rate packet_delta elapsed_ns;
    bytes_per_second ← calculate_rate byte_delta elapsed_ns;
    Ok (mkRateCounters packet_delta byte_delta packets_per_second bytes_per_second).

Definition calculate_class_rate (start end_ : ClassObservation) (elapsed_ns : Z)
    : result RateHistoryError ClassRate :=
  if negb (bool_decide (co_traffic_class start = co_traffic_class end_))
  then Err RateCalculationFailed
  else
    counters ← calculate_rate_counters (co_counters start) (co_counters end_) elapsed_ns;
    Ok (mkClassRate (co_traffic_class end_) counters).

Definition calculate_class_rates (start end_ : vec ClassObservation OBSERVED_CLASS_COUNT)
    (elapsed_ns : Z) : result RateHistoryError (vec ClassRate OBSERVED_CLASS_COUNT) :=
  c0 ← calculate_class_rate (start !!! 0%fin) (end_ !!! 0%fin) elapsed_ns;
  c1 ← calculate_class_rate (start !!! 1%fin) (end_ !!! 1%fin) elapsed_ns;
  c2 ← calculate_class_rate (start !!! 2%fin) (end_ !!! 2%fin) elapsed_ns;
  c3 ← calculate_class_rate (start !!! 3%fin) (end_ !!! 3%fin) elapsed_ns;
  c4 ← calculate_class_rate (start !!! 4%fin) (end_ !!! 4%fin) elapsed_ns;
  c5 ← calculate_class_rate (start !!! 5%fin) (end_ !!! 5%fin) elapsed_ns;
  Ok [# c0; c1; c2; c3; c4; c5].

Definition calculate_hook_rate (start end_ : HookObservation) (elapsed_ns : Z)
    : result RateHistoryError HookRate :=
  if negb (bool_decide (ho_role start = ho_role end_)) then Err RateCalculationFailed
  else
    total ← calculate_rate_counters (ho_total start) (ho_total end_) elapsed_ns;
    classes ← calculate_class_rates (ho_classes start) (ho_classes end_) elapsed_ns;
    parse_errors ← calculate_rate_counters (ho_parse_errors start) (ho_parse_errors end_) elapsed_ns;
    Ok (mkHookRate (ho_role end_) total classes parse_errors).

Definition calculate_hook_rates (start end_ : HookObservations) (elapsed_ns : Z)
    : result RateHistoryError HookRates :=
  h0 ← calculate_hook_rate (start !!! 0%fin) (end_ !!! 0%fin) elapsed_ns;
  h1 ← calculate_hook_rate (start !!! 1%fin) (end_ !!! 1%fin) elapsed_ns;
  Ok [# h0; h1].

(** ** The history *)
Record RateHistory : Type := mkRateHistory {
  rh_identity : RateIdentity;
  rh_epoch_started_at_monotonic_ns : Z;
  rh_latest_success_at_unix_ms : option Z;
  rh_last_error_code : option string;
  rh_consecutive_failures : Z;
  rh_sampling_paused : bool;
  rh_samples : list RateSample;
}.

Definition RateHistory_new (identity : RateIdentity) (epoch : Z)
    : result DomainError RateHistory :=
  _ ← RateIdentity_validate identity;
  Ok (mkRateHistory identity epoch None None 0 false []).

Definition clear_at (self : RateHistory) (epoch : Z) : RateHistory :=
  mkRateHistory (rh_identity self) epoch (rh_latest_success_at_unix_ms self)
    (rh_last_error_code self) (rh_consecutive_failures self) (rh_sampling_paused self) [].

Definition insert_sample (self : RateHistory) (sample : RateSample)
    : RateHistory * result RateHistoryError unit :=
  let sample_time := rs_captured_at_monotonic_ns sample in
  let sample_unix_ms := rs_captured_at_unix_ms sample in
  if negb (bool_decide (rs_identity sample = rh_identity self))
  then (clear_at self sample_time, Err IdentityMismatch)
  else if (sample_time <? rh_epoch_started_at_monotonic_ns self)
       || is_some_and (back (rh_samples self))
            (λ latest, sample_time <=? rs_captured_at_monotonic_ns latest)
  then (clear_at self sample_time, Err RateClockRegression)
  else if is_some_and (back (rh_samples self))
            (λ latest, negb (hooks_are_monotonic (rs_hooks latest) (rs_hooks sample)))
  then (clear_at self sample_time, Err RateCounterRegression)
  else
    let samples := push_then_evict RATE_HISTORY_CAPACITY (rh_samples self) sample in
    (mkRateHistory (rh_identity self) (rh_epoch_started_at_monotonic_ns self)
       (Some sample_unix_ms) None 0 (rh_sampling_paused self) samples, Ok tt).

Definition record_success (self : RateHistory) (sample : RateSample)
    : RateHistory * result RateHistoryError unit := insert_sample self sample.

Definition record_failure (self : RateHistory) (error_code : string) : RateHistory :=
  mkRateHistory (rh_identity self) (rh_epoch_started_at_monotonic_ns self)
    (rh_latest_success_at_unix_ms self) (Some error_code)
    (saturating_add U32_MAX (rh_consecutive_failures self) 1)
    (rh_sampling_paused self) (rh_samples self).

Definition record_transient_failure (self : RateHistory) (error_code : string) : RateHistory :=
  record_failure self error_code.

Definition record_identity_failure (self : RateHistory) (now : Z) (error_code : string)
    : RateHistory := record_failure (clear_at self now) error_code.

Definition record_rate_failure (self : RateHistory) (now : Z) (error_code : string)
    : RateHistory := record_failure (clear_at self now) error_code.

Definition rate_pause (self : RateHistory) (now : Z) (error_code : string) : RateHistory :=
  let self := clear_at self now in
  mkRateHistory (rh_identity self) (rh_epoch_started_at_monotonic_ns self)
    (rh_latest_success_at_unix_ms self) (Some error_code) (rh_consecutive_failures self)
    true (rh_samples self).

Definition sampling_status (self : RateHistory) : SamplingStatus :=
  mkSamplingStatus (rh_latest_success_at_unix_ms self) (rh_last_error_code self)
    (rh_consecutive_failures self) (rh_sampling_paused self).

Definition validate_current (self : RateHistory) (current : RateSample)
    : RateHistory * result RateHistoryError unit :=
  let current_time := rs_captured_at_monotonic_ns current in
  if negb (bool_decide (rs_identity current = rh_identity self))
  then (clear_at self current_time, Err IdentityMismatch)
  else if (current_time <? rh_epoch_started_at_monotonic_ns self)
       || is_some_and (back (rh_samples self))
            (λ latest, current_time <? rs_captured_at_monotonic_ns latest)
  then (clear_at self current_time, Err RateClockRegression)
  else if is_some_and (back (rh_samples self))
            (λ latest, negb (hooks_are_monotonic (rs_hooks latest) (rs_hooks current)))
  then (clear_at self current_time, Err RateCounterRegression)
  else (self, Ok tt).

(** ** Rate windows *)
Inductive CalculatedRateWindow : Type :=
| CalcWarming (window_ms coverage_ms : Z)
| CalcStale (window_ms coverage_ms : Z)
| CalcReady (window_ms coverage_ms elapsed_ns start_unix_ms end_unix_ms : Z) (hooks : HookRates).

Definition into_detailed (self : CalculatedRateWindow) : DetailedRateWindow :=
  match self with
  | CalcWarming window_ms coverage_ms =>
      mkDetailedRateWindow window_ms RateWarmingUp coverage_ms None None None None
  | CalcStale window_ms coverage_ms =>
      mkDetailedRateWindow window_ms RateStale coverage_ms None None None None
  | CalcReady window_ms coverage_ms elapsed_ns start_unix_ms end_unix_ms hooks =>
      mkDetailedRateWindow window_ms RateReady coverage_ms (Some elapsed_ns)
        (Some start_unix_ms) (Some end_unix_ms) (Some hooks)
  end.

Definition into_status (self : CalculatedRateWindow) : StatusRateWindow :=
  match self with
  | CalcWarming window_ms coverage_ms =>
      mkStatusRateWindow window_ms RateWarmingUp coverage_ms None None None None None
  | CalcStale window_ms coverage_ms =>
      mkStatusRateWindow window_ms RateStale coverage_ms None None None None None
  | CalcReady window_ms coverage_ms elapsed_ns start_unix_ms end_unix_ms hooks =>
      mkStatusRateWindow window_ms RateReady coverage_ms (Some elapsed_ns)
        (Some start_unix_ms) (Some end_unix_ms)
        (Some (hr_total (hooks !!! 0%fin))) (Some (hr_total (hooks !!! 1%fin)))
  end.

Definition coverage_ms (self : RateHistory) : result RateHistoryError Z :=
  match front (rh_samples self), back (rh_samples self) with
  | Some first, Some latest =>
      ok_or ((λ coverage_ns, coverage_ns / 1000000) <$>
        checked_sub (rs_captured_at_monotonic_ns latest) (rs_captured_at_monotonic_ns first))
        RateCalculationFailed
  | _, _ => Ok 0
  end.

Definition freshness_reference (self : RateHistory) : Z :=
  match back (rh_samples self) with
  | Some latest => rs_captured_at_monotonic_ns latest
  | None => rh_epoch_started_at_monotonic_ns self
  end.

Definition is_stale (self : RateHistory) (now : Z) : result RateHistoryError bool :=
  if rh_sampling_paused self then Ok true
  else
    age_ns ← ok_or (checked_sub now (freshness_reference self)) RateClockRegression;
    Ok (RATE_STALE_AFTER_NS <? age_ns).

Definition calculate_window (self : RateHistory) (window_ms coverage_ms : Z)
    : result RateHistoryError CalculatedRateWindow :=
  match back (rh_samples self) with
  | None => Ok (CalcWarming window_ms coverage_ms)
  | Some latest =>
      window_ns ← ok_or (checked_mul U64_MAX window_ms 1000000) RateCalculationFailed;
      match checked_sub (rs_captured_at_monotonic_ns latest) window_ns with
      | None => Ok (CalcWarming window_ms coverage_ms)
      | Some target_ns =>
          match List.find (λ sample, rs_captured_at_monotonic_ns sample <=? target_ns)
                  (rev (rh_samples self)) with
          | None => Ok (CalcWarming window_ms coverage_ms)
          | Some start =>
              elapsed_ns ← ok_or (checked_sub (rs_captured_at_monotonic_ns latest)
                  (rs_captured_at_monotonic_ns start)) RateCalculationFailed;
              if (elapsed_ns <? window_ns) || (elapsed_ns =? 0)
              then Ok (CalcWarming window_ms coverage_ms)
              else
                hooks ← calculate_hook_rates (rs_hooks start) (rs_hooks latest) elapsed_ns;
                Ok (CalcReady window_ms coverage_ms elapsed_ns
                  (rs_captured_at_unix_ms start) (rs_captured_at_unix_ms latest) hooks)
          end
      end
  end.

Definition calculate_windows (self : RateHistory) (now : Z)
    : result RateHistoryError (vec CalculatedRateWindow RATE_WINDOW_COUNT) :=
  coverage ← coverage_ms self;
  stale ← is_stale self now;
  if (stale : bool)
  then Ok (vmap (λ window_ms, CalcStale window_ms coverage) RATE_WINDOW_MS)
  else
    first ← calculate_window self (RATE_WINDOW_MS !!! 0%fin) coverage;
    second ← calculate_window self (RATE_WINDOW_MS !!! 1%fin) coverage;
    third ← calculate_window self (RATE_WINDOW_MS !!! 2%fin) coverage;
    Ok [# first; second; third].

Definition detailed_windows (self : RateHistory) (now : Z)
    : result RateHistoryError DetailedRateWindows :=
  vmap into_detailed <$> calculate_windows self now.

Definition status_windows (self : RateHistory) (now : Z)
    : result RateHistoryError StatusRateWindows :=
  vmap into_status <$> calculate_windows self now.

Definition sample_count (self : RateHistory) : nat := length (rh_samples self).

(** ** Monotonic counters *)
Definition counters_le (a b : ObservationCounters) : Prop :=
  oc_packets a ≤ oc_packets b ∧ oc_bytes a ≤ oc_bytes b.

Definition hook_le (a b : HookObservation) : Prop :=
  counters_le (ho_total a) (ho_total b) ∧ counters_le (ho_parse_errors a) (ho_parse_errors b) ∧
  ∀ i, co_traffic_class (ho_classes a !!! i) = co_traffic_class (ho_classes b !!! i) ∧
       counters_le (co_counters (ho_classes a !!! i)) (co_counters (ho_classes b !!! i)).

Definition hooks_le (a b : HookObservations) : Prop := ∀ i, hook_le (a !!! i) (b !!! i).

#[export] Instance counters_le_preorder : PreOrder counters_le.
Proof. unfold counters_le. split; [intros a|intros a b c]; lia. Qed.

#[export] Instance hook_le_preorder : PreOrder hook_le.
Proof.
  split.
  - intros a. split_and!; [reflexivity..|done].
  - intros a b c (H1 & H2 & H3) (K1 & K2 & K3). split_and!; [by etrans..|].
    intros i. destruct (H3 i) as [-> ?], (K3 i) as [-> ?]. split; [done|by etrans].
Qed.

#[export] Instance hooks_le_preorder : PreOrder hooks_le.
Proof. split; [intros a i; reflexivity|intros a b c H K i; etrans; [apply H|apply K]]. Qed.

Lemma counters_are_monotonic_true a b :
  counters_are_monotonic a b = true ↔ counters_le a b.
Proof. unfold counters_are_monotonic, counters_le. lia. Qed.

Lemma hook_is_monotonic_true a b : hook_is_monotonic a b = true ↔ hook_le a b.
Proof.
  unfold hook_is_monotonic, hook_le.
  rewrite !andb_true_iff, !counters_are_monotonic_true, forallb_zip_vlookup.
  setoid_rewrite andb_true_iff. setoid_rewrite bool_decide_eq_true.
  setoid_rewrite counters_are_monotonic_true. simpl. tauto.
Qed.

Lemma hooks_are_monotonic_true a b : hooks_are_monotonic a b = true ↔ hooks_le a b.
Proof.
  unfold hooks_are_monotonic, hooks_le. rewrite forallb_zip_vlookup.
  setoid_rewrite hook_is_monotonic_true. done.
Qed.

(** ** Exact rates *)

(** The specification of a rate: the exact deltas, and their truncated
    per-second value over the elapsed nanoseconds. *)
Definition rate_exact (start end_ : ObservationCounters) (elapsed_ns : Z) (r : RateCounters)
    : Prop :=
  rc_packet_delta r = oc_packets end_ - oc_packets start ∧
  rc_byte_delta r = oc_bytes end_ - oc_bytes start ∧
  rc_packets_per_second r = rc_packet_delta r * 10^9 / elapsed_ns ∧
  rc_bytes_per_second r = rc_byte_delta r * 10^9 / elapsed_ns ∧
  0 ≤ rc_packets_per_second r ≤ rc_packet_delta r ∧
  0 ≤ rc_bytes_per_second r ≤ rc_byte_delta r.

Definition hook_rate_exact (start end_ : HookObservation) (elapsed_ns : Z) (r : HookRate)
    : Prop :=
  hr_role r = ho_role end_ ∧
  rate_exact (ho_total start) (ho_total end_) elapsed_ns (hr_total r) ∧
  rate_exact (ho_parse_errors start) (ho_parse_errors end_) elapsed_ns (hr_parse_errors r) ∧
  ∀ i, cr_traffic_class (hr_classes r !!! i) = co_traffic_class (ho_classes end_ !!! i) ∧
       rate_exact (co_counters (ho_classes start !!! i)) (co_counters (ho_classes end_ !!! i))
         elapsed_ns (cr_counters (hr_classes r !!! i)).

Definition hook_rates_exact (start end_ : HookObservations) (elapsed_ns : Z) (r : HookRates)
    : Prop := ∀ i, hook_rate_exact (start !!! i) (end_ !!! i) elapsed_ns (r !!! i).

Lemma calculate_rate_ok delta elapsed_ns :
  is_u64 delta → 10^9 ≤ elapsed_ns →
  calculate_rate delta elapsed_ns = Ok (delta * 10^9 / elapsed_ns) ∧
  0 ≤ delta * 10^9 / elapsed_ns ≤ delta.
Proof.
  intros Hd He.
  assert (0 ≤ delta * 10^9 / elapsed_ns ≤ delta) as Hb.
  { split; [apply Z.div_pos; ulia|]. apply Z.div_le_upper_bound; [lia|].
    rewrite (Z.mul_comm elapsed_ns). apply Z.mul_le_mono_nonneg_l; ulia. }
  split; [|done]. unfold calculate_rate, RATE_SAMPLE_PERIOD_NS.
  change 1000000000 with (10^9).
  rewrite checked_mul_ok by ulia. cbn [ok_or mbind result_bind].
  rewrite checked_div_ok by lia. cbn [ok_or mbind result_bind].
  by rewrite try_from_wide_ok by ulia.
Qed.

Lemma calculate_rate_counters_ok start end_ elapsed_ns :
  counters_u64 start → counters_u64 end_ → counters_le start end_ → 10^9 ≤ elapsed_ns →
  ∃ r, calculate_rate_counters start end_ elapsed_ns = Ok r ∧
       rate_exact start end_ elapsed_ns r.
Proof.
  intros [] [] [] He. unfold calculate_rate_counters.
  rewrite (proj2 (Z.eqb_neq _ _)) by lia. rewrite !checked_sub_ok by done.
  cbn [ok_or mbind result_bind].
  destruct (calculate_rate_ok (oc_packets end_ - oc_packets start) elapsed_ns) as [-> ?]; [ulia..|].
  destruct (calculate_rate_ok (oc_bytes end_ - oc_bytes start) elapsed_ns) as [-> ?]; [ulia..|].
  cbn [mbind result_bind]. eexists; split; [done|]. unfold rate_exact.
  cbn [rc_packet_delta rc_byte_delta rc_packets_per_second rc_bytes_per_second].
  split_and!; (done || lia).
Qed.

Lemma calculate_class_rate_ok start end_ elapsed_ns :
  counters_u64 (co_counters start) → counters_u64 (co_counters end_) →
  co_traffic_class start = co_traffic_class end_ →
  counters_le (co_counters start) (co_counters end_) → 10^9 ≤ elapsed_ns →
  ∃ r, calculate_class_rate start end_ elapsed_ns = Ok r ∧
       cr_traffic_class r = co_traffic_class end_ ∧
       rate_exact (co_counters start) (co_counters end_) elapsed_ns (cr_counters r).
Proof.
  intros ? ? Hc ? ?. unfold calculate_class_rate. rewrite bool_decide_eq_true_2 by done.
  destruct (calculate_rate_counters_ok (co_counters start) (co_counters end_) elapsed_ns)
    as (r & Hr & ?); [done..|]. simpl. rewrite Hr. by eexists.
Qed.

Lemma calculate_class_rates_ok (start end_ : vec ClassObservation OBSERVED_CLASS_COUNT)
    elapsed_ns :
  10^9 ≤ elapsed_ns →
  (∀ i, counters_u64 (co_counters (start !!! i)) ∧ counters_u64 (co_counters (end_ !!! i)) ∧
    co_traffic_class (start !!! i) = co_traffic_class (end_ !!! i) ∧
    counters_le (co_counters (start !!! i)) (co_counters (end_ !!! i))) →
  ∃ r, calculate_class_rates start end_ elapsed_ns = Ok r ∧
    ∀ i, cr_traffic_class (r !!! i) = co_traffic_class (end_ !!! i) ∧
      rate_exact (co_counters (start !!! i)) (co_counters (end_ !!! i)) elapsed_ns
        (cr_counters (r !!! i)).
Proof.
  intros He H. unfold calculate_class_rates. unfold OBSERVED_CLASS_COUNT in *.
  assert (∀ i, ∃ r, calculate_class_rate (start !!! i) (end_ !!! i) elapsed_ns = Ok r ∧
    cr_traffic_class r = co_traffic_class (end_ !!! i) ∧
    rate_exact (co_counters (start !!! i)) (co_counters (end_ !!! i)) elapsed_ns
      (cr_counters r)) as Hi.
  { intros i. destruct (H i) as (? & ? & ? & ?). by apply calculate_class_rate_ok. }
  destruct (Hi 0%fin) as (r0 & -> & H0), (Hi 1%fin) as (r1 & -> & H1),
    (Hi 2%fin) as (r2 & -> & H2), (Hi 3%fin) as (r3 & -> & H3),
    (Hi 4%fin) as (r4 & -> & H4), (Hi 5%fin) as (r5 & -> & H5).
  cbn [mbind result_bind]. eexists; split; [done|]. intros i.
  do 6 (inv_fin i; [assumption|intros i]). inv_fin i.
Qed.

Lemma calculate_hook_rate_ok start end_ elapsed_ns :
  hook_u64 start → hook_u64 end_ → ho_role start = ho_role end_ → hook_le start end_ →
  10^9 ≤ elapsed_ns →
  ∃ r, calculate_hook_rate start end_ elapsed_ns = Ok r ∧
       hook_rate_exact start end_ elapsed_ns r.
Proof.
  intros (? & ? & Hc1) (? & ? & Hc2) Hr (? & ? & Hc) He. unfold calculate_hook_rate.
  rewrite bool_decide_eq_true_2 by done. simpl negb. cbn iota.
  rewrite Forall_vlookup in Hc1, Hc2.
  destruct (calculate_rate_counters_ok (ho_total start) (ho_total end_) elapsed_ns)
    as (t & -> & ?); [done..|].
  destruct (calculate_class_rates_ok (ho_classes start) (ho_classes end_) elapsed_ns)
    as (c & -> & ?); [done|intros i; destruct (Hc i); auto|].
  destruct (calculate_rate_counters_ok (ho_parse_errors start) (ho_parse_errors end_) elapsed_ns)
    as (p & -> & ?); [done..|].
  cbn [mbind result_bind]. eexists; split; [done|]. by split_and!.
Qed.

(** The rates between two samples with the same roles and monotonic counters
    always exist and are exact. *)
Lemma calculate_hook_rates_ok (start end_ : HookObservations) elapsed_ns :
  (∀ i, hook_u64 (start !!! i) ∧ hook_u64 (end_ !!! i) ∧
        ho_role (start !!! i) = ho_role (end_ !!! i)) →
  hooks_le start end_ → 10^9 ≤ elapsed_ns →
  ∃ r, calculate_hook_rates start end_ elapsed_ns = Ok r ∧
       hook_rates_exact start end_ elapsed_ns r.
Proof.
  intros Hu Hle He. unfold calculate_hook_rates, hooks_le, hook_rates_exact in *.
  unfold OBSERVED_HOOK_COUNT in *.
  assert (∀ i, ∃ r, calculate_hook_rate (start !!! i) (end_ !!! i) elapsed_ns = Ok r ∧
    hook_rate_exact (start !!! i) (end_ !!! i) elapsed_ns r) as Hi.
  { intros i. destruct (Hu i) as (? & ? & ?). by apply calculate_hook_rate_ok. }
  destruct (Hi 0%fin) as (r0 & -> & H0), (Hi 1%fin) as (r1 & -> & H1).
  cbn [mbind result_bind]. eexists; split; [done|]. intros i.
  do 2 (inv_fin i; [assumption|intros i]). inv_fin i.
Qed.

(** ** The history invariant *)

(** What [RateSample::new] and the types guarantee of a sample. *)
Definition sample_ok (s : RateSample) : Prop :=
  validate_observation_hooks (rs_hooks s) = Ok tt ∧
  is_u64 (rs_captured_at_monotonic_ns s) ∧ ∀ i, hook_u64 (rs_hooks s !!! i).

(** Consecutive samples: the clock advanced and no counter regressed. *)
Definition sample_lt (a b : RateSample) : Prop :=
  rs_captured_at_monotonic_ns a < rs_captured_at_monotonic_ns b ∧
  hooks_le (rs_hooks a) (rs_hooks b).

Record rate_wf (h : RateHistory) : Prop := {
  rate_wf_epoch : is_u64 (rh_epoch_started_at_monotonic_ns h);
  rate_wf_capacity : (length (rh_samples h) ≤ RATE_HISTORY_CAPACITY)%nat;
  rate_wf_samples : Forall sample_ok (rh_samples h);
  rate_wf_identity : Forall (λ s, rs_identity s = rh_identity h) (rh_samples h);
  rate_wf_after_epoch :
    Forall (λ s, rh_epoch_started_at_monotonic_ns h ≤ rs_captured_at_monotonic_ns s)
      (rh_samples h);
  rate_wf_sorted : StronglySorted sample_lt (rh_samples h);
}.

Lemma sample_ok_roles s :
  sample_ok s → ho_role <$> vec_to_list (rs_hooks s) = [ExternalXdpIngress; PhysicalTcEgress].
Proof.
  intros [Hv _]. unfold validate_observation_hooks in Hv. inv_ok. boolify.
  by apply hook_roles_ordered_true.
Qed.

Lemma sample_ok_classes s i :
  sample_ok s → classes_ordered co_traffic_class (ho_classes (rs_hooks s !!! i)) = true.
Proof.
  intros [Hv _]. unfold validate_observation_hooks in Hv. inv_ok.
  apply existsb_false_Forall in Hguard0.
  apply (Forall_vlookup_1 _ _ i) in Hguard0. by apply negb_false_iff.
Qed.

Lemma same_roles s t i :
  sample_ok s → sample_ok t → ho_role (rs_hooks s !!! i) = ho_role (rs_hooks t !!! i).
Proof.
  intros Hs%sample_ok_roles Ht%sample_ok_roles.
  rewrite <-(vlookup_map ho_role (rs_hooks s)), <-(vlookup_map ho_role (rs_hooks t)).
  f_equal. apply vec_to_list_inj2. by rewrite !vec_to_list_map, Hs, Ht.
Qed.

Lemma rate_wf_cleared h epoch : is_u64 epoch → rate_wf (clear_at h epoch).
Proof. intros. split; simpl; (done || lia || constructor). Qed.

Lemma rate_wf_new identity epoch h :
  is_u64 epoch → RateHistory_new identity epoch = Ok h → rate_wf h.
Proof.
  intros ? H. unfold RateHistory_new in H. inv_ok. split; simpl; (done || lia || constructor).
Qed.

(** The guards of [insert_sample], as a proposition. *)
Definition insert_admissible (h : RateHistory) (s : RateSample) : Prop :=
  rs_identity s = rh_identity h ∧
  rh_epoch_started_at_monotonic_ns h ≤ rs_captured_at_monotonic_ns s ∧
  ∀ latest, back (rh_samples h) = Some latest → sample_lt latest s.

Lemma insert_sample_ok h s :
  insert_admissible h s →
  insert_sample h s =
    (mkRateHistory (rh_identity h) (rh_epoch_started_at_monotonic_ns h)
       (Some (rs_captured_at_unix_ms s)) None 0 (rh_sampling_paused h)
       (push_then_evict RATE_HISTORY_CAPACITY (rh_samples h) s), Ok tt).
Proof.
  intros (Hid & Hep & Hlast). unfold insert_sample.
  rewrite bool_decide_eq_true_2 by done. simpl negb. cbn iota.
  destruct (back (rh_samples h)) as [latest|] eqn:Hb; simpl.
  - destruct (Hlast _ eq_refl) as [Ht Hh%hooks_are_monotonic_true].
    rewrite (proj2 (Z.ltb_ge _ _)), (proj2 (Z.leb_gt _ _)), Hh by lia. done.
  - by rewrite (proj2 (Z.ltb_ge _ _)) by lia.
Qed.

(** Which error a rejected sample gives, in the order of the guards. *)
Definition insert_error (h : RateHistory) (s : RateSample) : RateHistoryError :=
  if negb (bool_decide (rs_identity s = rh_identity h)) then IdentityMismatch
  else if (rs_captured_at_monotonic_ns s <? rh_epoch_started_at_monotonic_ns h)
       || is_some_and (back (rh_samples h))
            (λ latest, rs_captured_at_monotonic_ns s <=? rs_captured_at_monotonic_ns latest)
  then RateClockRegression
  else RateCounterRegression.

Lemma insert_sample_cases h s :
  insert_admissible h s ∨
  insert_sample h s =
    (clear_at h (rs_captured_at_monotonic_ns s), Err (insert_error h s)).
Proof.
  unfold insert_sample, insert_error, insert_admissible.
  case_bool_decide as Hid; [|by right]. simpl.
  destruct (_ <? _) eqn:Hep; [by right|].
  destruct (back (rh_samples h)) as [latest|] eqn:Hb; simpl.
  - destruct (_ <=? _) eqn:Ht; [by right|].
    destruct (hooks_are_monotonic _ _) eqn:Hh; [|by right].
    apply hooks_are_monotonic_true in Hh.
    left. split_and!; [done|lia|]. intros ? [= <-]. split; [lia|done].
  - left. split_and!; [done|lia|done].
Qed.

Lemma rate_wf_insert h s :
  rate_wf h → sample_ok s → rate_wf (insert_sample h s).1.
Proof.
  intros Hwf Hs. destruct (insert_sample_cases h s) as [Ha| ->].
  2:{ apply rate_wf_cleared. apply Hs. }
  rewrite insert_sample_ok by done. simpl. destruct Ha as (Hid & Hep & Hlast).
  rewrite push_then_evict_keep_last by (apply Hwf || (unfold RATE_HISTORY_CAPACITY; lia)).
  split; simpl.
  - apply Hwf.
  - rewrite keep_last_length. lia.
  - eapply suffix_Forall; [apply keep_last_suffix|].
    apply Forall_app; split; [apply Hwf|by apply Forall_singleton].
  - eapply suffix_Forall; [apply keep_last_suffix|].
    apply Forall_app; split; [apply Hwf|by apply Forall_singleton].
  - eapply suffix_Forall; [apply keep_last_suffix|].
    apply Forall_app; split; [apply Hwf|by apply Forall_singleton].
  - eapply suffix_StronglySorted; [apply keep_last_suffix|].
    apply StronglySorted_snoc; [apply Hwf|].
    apply List.Forall_forall. intros x Hx.
    destruct (back (rh_samples h)) as [latest|] eqn:Hb.
    2:{ apply last_None in Hb. by rewrite Hb in Hx. }
    destruct (StronglySorted_back _ _ _ _ (rate_wf_sorted h Hwf) Hb Hx) as [->|[? ?]].
    + by apply Hlast.
    + destruct (Hlast _ eq_refl). split; [lia|by etrans].
Qed.

(** ** Operations as steps *)
Inductive rate_op : Type :=
| OpRecordSuccess (s : RateSample)
| OpTransientFailure (code : string)
| OpIdentityFailure (now : Z) (code : string)
| OpRateFailure (now : Z) (code : string)
| OpPause (now : Z) (code : string)
| OpValidateCurrent (s : RateSample)
| OpClearAt (epoch : Z).

Definition run_rate_op (h : RateHistory) (op : rate_op) : RateHistory :=
  match op with
  | OpRecordSuccess s => (record_success h s).1
  | OpTransientFailure code => record_transient_failure h code
  | OpIdentityFailure now code => record_identity_failure h now code
  | OpRateFailure now code => record_rate_failure h now code
  | OpPause now code => rate_pause h now code
  | OpValidateCurrent s => (validate_current h s).1
  | OpClearAt epoch => clear_at h epoch
  end.

(** The arguments of an operation have the types of the source. *)
Definition rate_op_ok (op : rate_op) : Prop :=
  match op with
  | OpRecordSuccess s | OpValidateCurrent s => sample_ok s
  | OpTransientFailure _ => True
  | OpIdentityFailure now _ | OpRateFailure now _ | OpPause now _ | OpClearAt now => is_u64 now
  end.

Lemma rate_wf_record_failure h code : rate_wf h → rate_wf (record_failure h code).
Proof. intros []. by split. Qed.

Lemma rate_wf_step h op : rate_wf h → rate_op_ok op → rate_wf (run_rate_op h op).
Proof.
  intros Hwf Hop. destruct op; simpl in *.
  - by apply rate_wf_insert.
  - by apply rate_wf_record_failure.
  - by apply rate_wf_record_failure, rate_wf_cleared.
  - by apply rate_wf_record_failure, rate_wf_cleared.
  - pose proof (rate_wf_cleared h now Hop) as []. by split.
  - unfold validate_current. repeat case_match; simpl; try done;
      apply rate_wf_cleared; apply Hop.
  - by apply rate_wf_cleared.
Qed.

(** Whatever sequence of recordings, failures, pauses, validations and
    clears a history goes through, it stays well formed: at most 64 samples,
    all of the history's identity and not older than its epoch, with strictly
    increasing capture times and no counter ever regressing between them. *)
Lemma rate_history_invariant identity epoch h ops :
  is_u64 epoch → RateHistory_new identity epoch = Ok h → Forall rate_op_ok ops →
  rate_wf (foldl run_rate_op h ops).
Proof.
  intros He Hn Hops. assert (rate_wf h) as Hwf by (by eapply rate_wf_new).
  clear Hn. revert h Hwf. induction Hops as [|op ops Hop _ IH]; intros h Hwf; [done|].
  simpl. apply IH. by apply rate_wf_step.
Qed.

(** ** What the windows report *)

Definition window_target (latest : RateSample) (window_ms : Z) : Z :=
  rs_captured_at_monotonic_ns latest - window_ms * 10^6.

(** A window over a history: warming up while no sample is a full window older
    than the latest one; otherwise the exact rates between the newest such
    sample and the latest one. *)
Inductive window_spec (h : RateHistory) (window_ms cov : Z) : CalculatedRateWindow → Prop :=
| window_warming :
    (∀ latest s, back (rh_samples h) = Some latest → In s (rh_samples h) →
      window_target latest window_ms < rs_captured_at_monotonic_ns s) →
    window_spec h window_ms cov (CalcWarming window_ms cov)
| window_ready pre start post latest elapsed_ns hooks :
    rh_samples h = pre ++ start :: post →
    back (rh_samples h) = Some latest →
    rs_captured_at_monotonic_ns start ≤ window_target latest window_ms →
    Forall (λ s, window_target latest window_ms < rs_captured_at_monotonic_ns s) post →
    elapsed_ns = rs_captured_at_monotonic_ns latest - rs_captured_at_monotonic_ns start →
    hook_rates_exact (rs_hooks start) (rs_hooks latest) elapsed_ns hooks →
    window_ms ≤ cov → is_u64 elapsed_ns →
    window_spec h window_ms cov
      (CalcReady window_ms cov elapsed_ns (rs_captured_at_unix_ms start)
         (rs_captured_at_unix_ms latest) hooks).

Lemma find_rev_Some {A} (f : A → bool) (l : list A) x :
  List.find f (rev l) = Some x →
  ∃ pre post, l = pre ++ x :: post ∧ f x = true ∧ Forall (λ y, f y = false) post.
Proof.
  induction l as [|y l IH] using rev_ind; [done|].
  rewrite rev_app_distr. simpl. destruct (f y) eqn:E.
  - intros [= ->]. exists l, []. by split_and!; [..|constructor].
  - intros (pre & post & -> & ? & ?)%IH. exists pre, (post ++ [y]).
    split_and!; [by rewrite <-app_assoc|done|]. apply Forall_app; split; [done|by constructor].
Qed.

Lemma find_rev_None {A} (f : A → bool) (l : list A) x :
  List.find f (rev l) = None → In x l → f x = false.
Proof. intros H Hin. apply (List.find_none _ _ H). by apply in_rev in Hin. Qed.

Lemma coverage_ok h :
  rate_wf h →
  coverage_ms h = Ok match front (rh_samples h), back (rh_samples h) with
    | Some first, Some latest =>
        (rs_captured_at_monotonic_ns latest - rs_captured_at_monotonic_ns first) / 10^6
    | _, _ => 0
    end.
Proof.
  intros Hwf. unfold coverage_ms.
  destruct (front (rh_samples h)) as [first|] eqn:Hf; [|done].
  destruct (back (rh_samples h)) as [latest|] eqn:Hl; [|done].
  destruct (StronglySorted_front _ _ latest first (rate_wf_sorted h Hwf) Hf
    (back_In _ _ Hl)) as [->|[? _]]; by rewrite checked_sub_ok by lia.
Qed.

Lemma fixed_duration_cases w :
  fixed_duration w = true ↔ w = 1000 ∨ w = 10000 ∨ w = 60000.
Proof.
  unfold fixed_duration, RATE_WINDOW_MS. cbn [existsb vec_to_list].
  rewrite !orb_true_iff, !Z.eqb_eq. split; [intros [?|[?|[?|[=]]]]; auto|intros [?|[?|?]]; auto].
Qed.

Lemma rate_wf_member h s :
  rate_wf h → In s (rh_samples h) → sample_ok s.
Proof. intros Hwf Hin. pose proof (rate_wf_samples h Hwf) as H.
  rewrite List.Forall_forall in H. by apply H. Qed.

Lemma calculate_window_ok h window_ms cov :
  rate_wf h → fixed_duration window_ms = true → coverage_ms h = Ok cov →
  ∃ w, calculate_window h window_ms cov = Ok w ∧ window_spec h window_ms cov w.
Proof.
  intros Hwf Hw Hcov. unfold calculate_window.
  apply fixed_duration_cases in Hw as Hw'.
  destruct (back (rh_samples h)) as [latest|] eqn:Hl.
  2:{ eexists; split; [done|]. constructor. congruence. }
  pose proof (rate_wf_member h latest Hwf (back_In _ _ Hl)) as (? & Hlt & Hlu).
  rewrite checked_mul_ok by ulia. cbn [ok_or mbind result_bind].
  destruct (checked_sub _ _) as [target|] eqn:Ht.
  2:{ eexists; split; [done|]. constructor. intros l s Hb Hs. rewrite Hl in Hb. injection Hb as <-.
      pose proof (rate_wf_member h s Hwf Hs) as (_ & ? & _).
      unfold checked_sub in Ht. case_match; [done|].
      unfold window_target. change (10^6) with 1000000. ulia. }
  apply checked_sub_Some in Ht as [-> Htl].
  destruct (List.find _ _) as [start|] eqn:Hfind.
  2:{ eexists; split; [done|]. constructor. intros l s Hb Hs. rewrite Hl in Hb. injection Hb as <-.
      pose proof (find_rev_None _ _ _ Hfind Hs) as Hf. simpl in Hf.
      unfold window_target. change (10^6) with 1000000. lia. }
  apply find_rev_Some in Hfind as (pre & post & Hsplit & Hstart & Hpost).
  assert (In start (rh_samples h)) as Hin by (rewrite Hsplit; apply in_app_iff; right; by left).
  pose proof (rate_wf_member h start Hwf Hin) as (? & Hst & Hsu).
  apply Z.leb_le in Hstart.
  rewrite checked_sub_ok by lia. cbn [ok_or mbind result_bind].
  destruct (_ || _) eqn:Hg; [exfalso; lia|].
  assert (hooks_le (rs_hooks start) (rs_hooks latest)) as Hle.
  { destruct (StronglySorted_back _ _ start latest (rate_wf_sorted h Hwf) Hl Hin) as [->|[_ ?]];
      [reflexivity|done]. }
  destruct (calculate_hook_rates_ok (rs_hooks start) (rs_hooks latest)
    (rs_captured_at_monotonic_ns latest - rs_captured_at_monotonic_ns start))
    as (hooks & -> & Hexact); [|done|lia|].
  { intros i. split_and!; [apply Hsu|apply Hlu|]. by apply same_roles. }
  cbn [mbind result_bind]. eexists; split; [done|].
  assert (window_ms ≤ cov) as Hc.
  { rewrite coverage_ok in Hcov by done. rewrite Hl in Hcov.
    destruct (front (rh_samples h)) as [first|] eqn:Hf.
    2:{ apply head_None in Hf. by rewrite Hf in Hin. }
    injection Hcov as <-. apply Z.div_le_lower_bound; [lia|].
    destruct (StronglySorted_front _ _ start first (rate_wf_sorted h Hwf) Hf Hin) as [->|[? _]];
      lia. }
  apply (window_ready h window_ms cov pre start post latest); try done.
  - eapply Forall_impl; [exact Hpost|]. intros s Hs. cbn in Hs.
    unfold window_target. change (10^6) with 1000000. lia.
  - ulia.
Qed.

Lemma Ready_window_valid w cov elapsed_ns start_ms end_ms s latest hooks :
  sample_ok latest → fixed_duration w = true → w ≤ cov → w * 10^6 ≤ elapsed_ns →
  hook_rates_exact (rs_hooks s) (rs_hooks latest) elapsed_ns hooks →
  DetailedRateWindow_validate
    (into_detailed (CalcReady w cov elapsed_ns start_ms end_ms hooks)) = Ok tt.
Proof.
  intros Hl Hw Hcov Hel Hx. unfold DetailedRateWindow_validate, validate_evidence_shape. simpl.
  rewrite Hw. apply fixed_duration_cases in Hw. simpl.
  rewrite bool_decide_eq_false_2 by (intros [= ->]; lia).
  rewrite (proj2 (Z.ltb_ge _ _)), (proj2 (Z.ltb_ge _ _)) by (repeat autounfold with machine; lia).
  simpl. unfold validate_hook_rates.
  assert (hook_roles_ordered hr_role hooks = true) as ->.
  { apply hook_roles_ordered_true. rewrite <-(sample_ok_roles latest Hl), <-!vec_to_list_map.
    f_equal. apply vec_eq. intros i. rewrite !vlookup_map. apply (Hx i). }
  simpl. rewrite (proj2 (existsb_false_Forall _ _)); [done|].
  apply Forall_vlookup. intros i. apply negb_false_iff.
  pose proof (sample_ok_classes latest i Hl) as Hc. apply classes_ordered_true in Hc.
  apply classes_ordered_true. rewrite <-Hc, <-!vec_to_list_map.
  f_equal. apply vec_eq. intros j. rewrite !vlookup_map. apply (Hx i).
Qed.

Lemma window_spec_valid h w cov c :
  rate_wf h → fixed_duration w = true → window_spec h w cov c →
  dw_window_ms (into_detailed c) = w ∧ DetailedRateWindow_validate (into_detailed c) = Ok tt.
Proof.
  intros Hwf Hw Hs. destruct Hs as [|pre start post latest el hooks Hsplit Hl Hst _ -> Hx Hc _].
  - split; [done|]. unfold DetailedRateWindow_validate, validate_evidence_shape. simpl.
    by rewrite Hw.
  - split; [done|]. eapply Ready_window_valid; eauto.
    + apply (rate_wf_member h); [done|by apply back_In].
    + unfold window_target in Hst. lia.
Qed.

Lemma stale_window_valid w cov :
  fixed_duration w = true → DetailedRateWindow_validate (into_detailed (CalcStale w cov)) = Ok tt.
Proof.
  intros Hw. unfold DetailedRateWindow_validate, validate_evidence_shape. simpl. by rewrite Hw.
Qed.

Lemma validate_detailed_windows_ok (ws : DetailedRateWindows) :
  validate_detailed_rate_windows ws = Ok tt ↔
  ∀ i, dw_window_ms (ws !!! i) = RATE_WINDOW_MS !!! i ∧
       DetailedRateWindow_validate (ws !!! i) = Ok tt.
Proof.
  unfold validate_detailed_rate_windows. rewrite try_for_each_Ok. inv_vec ws; intros a b c.
  unfold RATE_WINDOW_MS. cbn [vec_to_list zip zip_with]. rewrite !Forall_cons, Forall_nil.
  cbn [fst snd].
  assert (∀ (x : Z) y (m : result DomainError unit) e,
    (if negb (x =? y) then Err e else m) = Ok tt ↔ x = y ∧ m = Ok tt) as Hif.
  { intros x y m e. destruct (Z.eqb_spec x y); simpl; naive_solver. }
  rewrite !Hif. split.
  - intros (Ha & Hb & Hc & _) i. do 3 (inv_fin i; [assumption|intros i]). inv_fin i.
  - intros H. pose proof (H 0%fin) as H0. pose proof (H 1%fin) as H1. pose proof (H 2%fin) as H2.
    by split_and!; [apply H0|apply H0|apply H1|apply H1|apply H2|apply H2|].
Qed.

Lemma RATE_WINDOW_MS_fixed i : fixed_duration (RATE_WINDOW_MS !!! i) = true.
Proof. do 3 (inv_fin i; [done|intros i]). inv_fin i. Qed.

(** What [detailed_windows] reports at a time that does not precede the newest
    evidence: all windows stale when sampling is paused or silent for more than
    three seconds, and otherwise each fixed window by its specification. *)
Definition windows_spec (h : RateHistory) (now : Z) (ws : DetailedRateWindows) : Prop :=
  ∃ cov, coverage_ms h = Ok cov ∧
    if rh_sampling_paused h || (RATE_STALE_AFTER_NS <? now - freshness_reference h)
    then ∀ i, ws !!! i = into_detailed (CalcStale (RATE_WINDOW_MS !!! i) cov)
    else ∀ i, ∃ c, ws !!! i = into_detailed c ∧ window_spec h (RATE_WINDOW_MS !!! i) cov c.

(** C34: on a well-formed history the window computation fails only when the
    caller's clock precedes the newest evidence of an unpaused history (and
    then with a clock regression); otherwise it returns exactly the specified
    windows, and they pass the validation every consumer applies. In
    particular the checked subtractions, the 128-bit product and the 64-bit
    conversion of the rate calculation never fail. *)
Theorem detailed_windows_correct h now :
  rate_wf h →
  if negb (rh_sampling_paused h) && (now <? freshness_reference h)
  then detailed_windows h now = Err RateClockRegression
  else ∃ ws, detailed_windows h now = Ok ws ∧ windows_spec h now ws ∧
             validate_detailed_rate_windows ws = Ok tt.
Proof.
  intros Hwf. unfold detailed_windows, calculate_windows, is_stale, windows_spec.
  pose proof (coverage_ok h Hwf) as Hcov. rewrite Hcov.
  set (cov := match front (rh_samples h) with Some _ => _ | None => _ end) in *.
  cbn [mbind result_bind].
  destruct (rh_sampling_paused h); cbn [negb andb orb mbind result_bind fmap result_fmap].
  { eexists; split; [done|]. split.
    - exists cov. split; [done|]. intros i. by rewrite !vlookup_map.
    - apply validate_detailed_windows_ok. intros i. rewrite !vlookup_map.
      split; [done|]. apply stale_window_valid, RATE_WINDOW_MS_fixed. }
  destruct (Z.ltb_spec now (freshness_reference h)).
  { unfold checked_sub. by rewrite (proj2 (Z.leb_gt _ _)) by lia. }
  rewrite checked_sub_ok by done. cbn [ok_or mbind result_bind fmap result_fmap].
  destruct (_ <? _); cbn [fmap result_fmap].
  { eexists; split; [done|]. split.
    - exists cov. split; [done|]. intros i. by rewrite !vlookup_map.
    - apply validate_detailed_windows_ok. intros i. rewrite !vlookup_map.
      split; [done|]. apply stale_window_valid, RATE_WINDOW_MS_fixed. }
  destruct (calculate_window_ok h 1000 cov Hwf eq_refl Hcov) as (c0 & E0 & S0).
  destruct (calculate_window_ok h 10000 cov Hwf eq_refl Hcov) as (c1 & E1 & S1).
  destruct (calculate_window_ok h 60000 cov Hwf eq_refl Hcov) as (c2 & E2 & S2).
  simpl. rewrite E0. simpl. rewrite E1. simpl. rewrite E2. simpl.
  set (ws := [# into_detailed c0; into_detailed c1; into_detailed c2] : DetailedRateWindows).
  assert (∀ i, ∃ c, ws !!! i = into_detailed c ∧
    window_spec h (RATE_WINDOW_MS !!! i) cov c) as Hall.
  { intros i. inv_fin i; [by exists c0|intros i]. inv_fin i; [by exists c1|intros i].
    inv_fin i; [by exists c2|intros i]. inv_fin i. }
  exists ws. split; [done|]. split; [by exists cov|].
  apply validate_detailed_windows_ok. intros i. destruct (Hall i) as (c & Hc & Hs).
  rewrite Hc. apply (window_spec_valid h _ cov); [done|apply RATE_WINDOW_MS_fixed|done].
Qed.

(** ** Readiness under the daemon's one-second ticks *)

(** A run of samples captured exactly one period apart from [t0], all of one
    identity and with monotonic counters. *)
Record regular_run (identity : RateIdentity) (t0 : Z) (samples : list RateSample) : Prop := {
  run_ok : Forall sample_ok samples;
  run_identity : Forall (λ s, rs_identity s = identity) samples;
  run_period i s : samples !! i = Some s →
    rs_captured_at_monotonic_ns s = t0 + Z.of_nat i * RATE_SAMPLE_PERIOD_NS;
  run_monotonic i s s' : samples !! i = Some s → samples !! S i = Some s' →
    hooks_le (rs_hooks s) (rs_hooks s');
}.

Lemma regular_run_snoc identity t0 l s :
  regular_run identity t0 (l ++ [s]) → regular_run identity t0 l ∧
  sample_ok s ∧ rs_identity s = identity ∧
  rs_captured_at_monotonic_ns s = t0 + Z.of_nat (length l) * RATE_SAMPLE_PERIOD_NS ∧
  ∀ latest, back l = Some latest → sample_lt latest s.
Proof.
  intros [H1 H2 H3 H4].
  assert (∀ i x, l !! i = Some x → (l ++ [s]) !! i = Some x) as Hl.
  { intros i x Hx. by apply lookup_app_l_Some. }
  assert ((l ++ [s]) !! length l = Some s) as Hs by (by rewrite list_lookup_middle).
  apply Forall_app in H1 as [H1 H1']. apply Forall_app in H2 as [H2 H2'].
  rewrite Forall_singleton in H1', H2'.
  split; [by split; eauto|]. split; [done|]. split; [done|]. split; [by apply H3|].
  intros latest Hb. destruct (proj1 (last_Some _ _) Hb) as [l' ->].
  assert ((l' ++ [latest]) !! length l' = Some latest) as Hlt by (by rewrite list_lookup_middle).
  rewrite length_app in Hs. simpl in Hs. rewrite Nat.add_1_r in Hs.
  split; [|by eapply H4; eauto].
  rewrite (H3 _ _ (Hl _ _ Hlt)), (H3 _ _ Hs). unfold RATE_SAMPLE_PERIOD_NS. lia.
Qed.

Definition record_all (h : RateHistory) (samples : list RateSample) : RateHistory :=
  foldl (λ h s, (record_success h s).1) h samples.

Lemma record_all_regular identity t0 h samples :
  rate_wf h → rh_identity h = identity → rh_samples h = [] →
  rh_epoch_started_at_monotonic_ns h ≤ t0 → regular_run identity t0 samples →
  let h' := record_all h samples in
  rate_wf h' ∧ rh_identity h' = identity ∧ rh_sampling_paused h' = rh_sampling_paused h ∧
  rh_epoch_started_at_monotonic_ns h' = rh_epoch_started_at_monotonic_ns h ∧
  rh_samples h' = keep_last RATE_HISTORY_CAPACITY samples.
Proof.
  intros Hwf Hid Hnil Hep. unfold record_all.
  induction samples as [|s l IH] using rev_ind; intros Hrun.
  { by split_and!. }
  apply regular_run_snoc in Hrun as (Hrun & Hs & His & Hts & Hlast).
  destruct (IH Hrun) as (Hwf' & Hid' & Hp' & Hep' & Hsm').
  rewrite foldl_app. simpl. set (h' := foldl _ h l) in *.
  assert (insert_admissible h' s) as Ha.
  { split_and!; [congruence|unfold RATE_SAMPLE_PERIOD_NS in Hts; lia|].
    intros latest Hb. apply Hlast. rewrite Hsm' in Hb.
    destruct (proj1 (last_Some _ _) Hb) as [l' Hl'].
    destruct (keep_last_suffix RATE_HISTORY_CAPACITY l) as [k Hk]. rewrite Hl' in Hk.
    rewrite Hk, app_assoc. apply back_snoc. }
  pose proof (rate_wf_insert h' s Hwf' Hs) as Hwf''.
  unfold record_success. rewrite insert_sample_ok in * by done. simpl in *.
  split_and!; try done.
  rewrite push_then_evict_keep_last by (apply Hwf' || (unfold RATE_HISTORY_CAPACITY; lia)).
  rewrite Hsm'. apply keep_last_push. unfold RATE_HISTORY_CAPACITY. lia.
Qed.

(** In a sorted history with a sample exactly at a window's target, the window
    is ready over exactly its nominal duration. *)
Lemma window_spec_exact h w cov c latest s :
  rate_wf h → back (rh_samples h) = Some latest → In s (rh_samples h) →
  rs_captured_at_monotonic_ns s = window_target latest w →
  window_spec h w cov c →
  dw_state (into_detailed c) = RateReady ∧
  dw_elapsed_ns (into_detailed c) = Some (w * 10^6).
Proof.
  intros Hwf Hl Hin Ht Hs.
  destruct Hs as [Hwarm|pre start post latest' el hooks Hsplit Hl' Hst Hpost -> _ _ _].
  { specialize (Hwarm _ _ Hl Hin). lia. }
  assert (latest' = latest) as -> by congruence.
  split; [done|]. simpl. f_equal.
  pose proof (rate_wf_sorted h Hwf) as Hsorted. rewrite Hsplit in Hsorted, Hin.
  apply in_app_iff in Hin as [Hin|[->|Hin]].
  - assert (rs_captured_at_monotonic_ns s < rs_captured_at_monotonic_ns start) as Hlt.
    { clear -Hsorted Hin. induction pre as [|x pre IH]; [done|].
      simpl in Hsorted. inversion Hsorted as [|? ? Hss Hx]; subst.
      destruct Hin as [->|Hin]; [|by apply IH].
      rewrite List.Forall_forall in Hx. apply Hx, in_app_iff. right. by left. }
    unfold window_target in *. lia.
  - unfold window_target in Ht. lia.
  - rewrite List.Forall_forall in Hpost. specialize (Hpost s Hin). simpl in Hpost. lia.
Qed.

(** Readiness. When samples arrive one per second, as the daemon's sampler
    produces them, then from the 61st sample on, and as long as the caller
    looks within three seconds of the newest sample, all three windows are
    ready over exactly 1, 10 and 60 seconds: the 64-sample capacity never
    evicts the sample the 60-second window needs. *)
Lemma regular_ticks_make_windows_ready identity epoch h t0 samples latest now :
  is_u64 epoch → RateHistory_new identity epoch = Ok h → epoch ≤ t0 →
  regular_run identity t0 samples → (61 ≤ length samples)%nat →
  last samples = Some latest →
  rs_captured_at_monotonic_ns latest ≤ now ≤ rs_captured_at_monotonic_ns latest + 3 * 10^9 →
  ∃ ws, detailed_windows (record_all h samples) now = Ok ws ∧
    ∀ i, dw_state (ws !!! i) = RateReady ∧
         dw_elapsed_ns (ws !!! i) = Some (RATE_WINDOW_MS !!! i * 10^6).
Proof.
  intros He Hn Hep Hrun Hlen Hlast Hnow.
  pose proof (rate_wf_new _ _ _ He Hn) as Hwf0.
  unfold RateHistory_new in Hn. inv_ok.
  destruct (record_all_regular identity t0 _ samples Hwf0 eq_refl eq_refl Hep Hrun)
    as (Hwf & Hid & Hp & Hep' & Hsm). simpl in Hp.
  set (h' := record_all _ samples) in *.
  destruct (proj1 (last_Some _ _) Hlast) as [l Hl].
  assert (back (rh_samples h') = Some latest) as Hb.
  { rewrite Hsm, Hl. destruct (keep_last_snoc RATE_HISTORY_CAPACITY l latest) as (q & -> & _);
      [unfold RATE_HISTORY_CAPACITY; lia|apply back_snoc]. }
  assert (freshness_reference h' = rs_captured_at_monotonic_ns latest) as Hf
    by (unfold freshness_reference; by rewrite Hb).
  pose proof (detailed_windows_correct h' now Hwf) as Hc.
  rewrite Hp, Hf in Hc. simpl in Hc. rewrite (proj2 (Z.ltb_ge _ _)) in Hc by lia.
  destruct Hc as (ws & Hws & (cov & Hcov & Hspec) & _). exists ws. split; [done|].
  rewrite Hp, Hf in Hspec. simpl orb in Hspec. unfold RATE_STALE_AFTER_NS in Hspec.
  rewrite (proj2 (Z.ltb_ge _ _)) in Hspec by lia.
  intros i. destruct (Hspec i) as (c & -> & Hs).
  assert (∃ k, (k ≤ 60)%nat ∧ RATE_WINDOW_MS !!! i = Z.of_nat k * 1000) as (k & Hk & Hw).
  { clear. inv_fin i; [by exists 1%nat; split; [lia|]|intros i].
    inv_fin i; [by exists 10%nat; split; [lia|]|intros i].
    inv_fin i; [by exists 60%nat; split; [lia|]|intros i]. inv_fin i. }
  assert (length samples = S (length l)) as Hll by (rewrite Hl, length_app; simpl; lia).
  destruct (keep_last_lookup RATE_HISTORY_CAPACITY samples (length l - k)) as (s & Hsi & Hin);
    [unfold RATE_HISTORY_CAPACITY; lia..|].
  assert (samples !! length l = Some latest) as Hli by (rewrite Hl; by apply list_lookup_middle).
  rewrite <-Hsm in Hin.
  eapply (window_spec_exact h' _ cov c latest s); try done.
  rewrite (run_period _ _ _ Hrun _ _ Hsi). unfold window_target.
  rewrite (run_period _ _ _ Hrun _ _ Hli), Hw. unfold RATE_SAMPLE_PERIOD_NS. lia.
Qed.

(** ** Concrete histories for the witnesses *)
Module RateExample.
Definition identity : RateIdentity := mkRateIdentity 7 42.
Definition counters (n : Z) : ObservationCounters := mkObservationCounters n (64 * n).
Definition hook (role : HookRole) (n : Z) : HookObservation :=
  mkHookObservation role (counters (6 * n))
    (vmap (λ c, mkClassObservation c (counters n)) CLASS_ORDER) (counters 0).
Definition sample (i : Z) : RateSample :=
  mkRateSample identity (i * 1000000000) (i * 1000) VlanUnknown
    [# hook ExternalXdpIngress (100 * i); hook PhysicalTcEgress (10 * i)].
Definition empty : RateHistory := mkRateHistory identity 0 None None 0 false [].

Lemma counters_ok n : 0 ≤ n ≤ 1000000 → counters_u64 (counters n).
Proof. intros. split; simpl; ulia. Qed.

Lemma hook_ok role n : 0 ≤ n ≤ 100000 → hook_u64 (hook role n).
Proof.
  intros. split_and!; [apply counters_ok; lia..|].
  apply Forall_vlookup. intros i. unfold hook; cbn [ho_classes]. rewrite vlookup_map.
  apply counters_ok. lia.
Qed.

Lemma sample_is_ok i : 0 ≤ i ≤ 1000 → sample_ok (sample i).
Proof.
  intros. split; [done|]. split; [simpl; ulia|]. intros j.
  inv_fin j; [apply hook_ok; lia|intros j]. inv_fin j; [apply hook_ok; lia|intros j].
  inv_fin j.
Qed.

Lemma hook_mono role m n : m ≤ n → hook_le (hook role m) (hook role n).
Proof.
  intros. split_and!; [unfold counters_le; simpl; lia..|].
  intros i. unfold hook; cbn [ho_classes]. rewrite !vlookup_map.
  split; [done|unfold counters_le; simpl; lia].
Qed.

Lemma sample_mono i j : i ≤ j → hooks_le (rs_hooks (sample i)) (rs_hooks (sample j)).
Proof.
  intros Hij k. inv_fin k; [apply hook_mono; lia|intros k].
  inv_fin k; [apply hook_mono; lia|intros k]. inv_fin k.
Qed.

Lemma run n : 0 ≤ n ≤ 1000 → regular_run identity 0 (sample <$> seqZ 0 n).
Proof.
  intros Hn. split.
  - apply Forall_fmap, Forall_forall. intros i Hi%elem_of_seqZ. apply sample_is_ok. lia.
  - apply Forall_fmap, Forall_forall. done.
  - intros i s. rewrite list_lookup_fmap_Some. intros (j & -> & [-> ?]%lookup_seqZ).
    simpl. unfold RATE_SAMPLE_PERIOD_NS. lia.
  - intros i s s'. rewrite !list_lookup_fmap_Some.
    intros (j & -> & [-> ?]%lookup_seqZ) (j' & -> & [-> ?]%lookup_seqZ).
    apply sample_mono. lia.
Qed.
End RateExample.

Lemma rate_history_invariant_witness :
  rate_wf (foldl run_rate_op RateExample.empty
    [OpRecordSuccess (RateExample.sample 1); OpTransientFailure "OBS_UNAVAILABLE";
     OpRecordSuccess (RateExample.sample 2); OpPause 3000000000 "SAMPLER_PAUSED";
     OpRecordSuccess (RateExample.sample 4); OpClearAt 5000000000]).
Proof.
  apply (rate_history_invariant RateExample.identity 0); [split; discriminate|reflexivity|].
  repeat (apply Forall_cons; split);
    first [apply RateExample.sample_is_ok; lia | split; discriminate | exact I | apply Forall_nil; exact I].
Defined.

Lemma detailed_windows_correct_witness :
  ∃ ws, detailed_windows (record_all RateExample.empty [RateExample.sample 1; RateExample.sample 2])
      2500000000 = Ok ws ∧
    windows_spec (record_all RateExample.empty [RateExample.sample 1; RateExample.sample 2])
      2500000000 ws ∧
    validate_detailed_rate_windows ws = Ok tt.
Proof.
  apply (detailed_windows_correct
    (record_all RateExample.empty [RateExample.sample 1; RateExample.sample 2]) 2500000000).
  apply rate_wf_insert; [|by apply RateExample.sample_is_ok].
  apply rate_wf_insert; [|by apply RateExample.sample_is_ok].
  apply (rate_wf_new RateExample.identity 0); [split; discriminate|reflexivity].
Defined.

Lemma regular_ticks_witness :
  ∃ ws, detailed_windows (record_all RateExample.empty (RateExample.sample <$> seqZ 0 65))
      66000000000 = Ok ws ∧
    ∀ i, dw_state (ws !!! i) = RateReady ∧
         dw_elapsed_ns (ws !!! i) = Some (RATE_WINDOW_MS !!! i * 10^6).
Proof.
  apply (regular_ticks_make_windows_ready RateExample.identity 0 _ 0 _ (RateExample.sample 64));
    [split; discriminate|reflexivity|lia|by apply RateExample.run
    |rewrite length_fmap, length_seqZ; lia|reflexivity|simpl; lia].
Defined.
