(* ===== verification/Baseline.v ===== *)
(** Dynamic baselines of [l2-loop-core] ([baseline.rs]): sixteen bounded
    series (two hooks, eight subjects) learning the ready ten-second window,
    the upper-median / MAD thresholds, and the report and summary contracts. *)
From S2P Require Import Prelude Domain Observation Rate.

Definition BASELINE_SOURCE_WINDOW_MS : Z := 10000.
Definition BASELINE_CAPACITY : nat := 300.
Definition BASELINE_MINIMUM_SAMPLES : nat := 60.
Definition BASELINE_PACKET_NOISE_FLOOR_PPS : Z := 10.
Definition BASELINE_BYTE_NOISE_FLOOR_BPS : Z := 16384.
Definition BASELINE_SUBJECTS_PER_HOOK : nat := 8.
Definition BASELINE_SUBJECT_COUNT : nat := 16.
Definition BASELINE_METRIC_COUNT : nat := 32.

Inductive BaselineState : Type :=
| BaselineLearning | WithinBaseline | BaselineElevated | BaselineUnavailable.

#[export] Instance BaselineState_eq_dec : EqDecision BaselineState.
Proof. solve_decision. Defined.

Inductive BaselineMetric : Type := MetricPackets | MetricBytes.

Inductive BaselineSubject : Type :=
| SubjectTotal
| SubjectTrafficClass (traffic_class : TrafficClass)
| SubjectParseErrors.

#[export] Instance BaselineSubject_eq_dec : EqDecision BaselineSubject.
Proof. solve_decision. Defined.

Record BaselineMetricReport : Type := mkBaselineMetricReport {
  bm_current : option Z;
  bm_median : option Z;
  bm_mad : option Z;
  bm_threshold : option Z;
  bm_ratio_milli : option Z;
  bm_elevated : option bool;
}.

Definition metric_absent : BaselineMetricReport :=
  mkBaselineMetricReport None None None None None None.
Definition metric_learning (current : Z) : BaselineMetricReport :=
  mkBaselineMetricReport (Some current) None None None None None.

Definition metric_validate_for (self : BaselineMetricReport) (state : BaselineState)
    : result DomainError unit :=
  let all_absent :=
    is_none (bm_current self) && is_none (bm_median self) && is_none (bm_mad self)
    && is_none (bm_threshold self) && is_none (bm_ratio_milli self)
    && is_none (bm_elevated self) in
  let complete_evaluation :=
    is_some (bm_current self) && is_some (bm_median self) && is_some (bm_mad self)
    && is_some (bm_threshold self) && is_some (bm_elevated self) in
  match state with
  | BaselineLearning =>
      let learning_shape :=
        is_none (bm_median self) && is_none (bm_mad self) && is_none (bm_threshold self)
        && is_none (bm_ratio_milli self) && is_none (bm_elevated self) in
      if learning_shape then Ok tt
      else Err (InvalidObservation "learning baseline metric contains evaluated evidence")
  | WithinBaseline | BaselineElevated =>
      if complete_evaluation then Ok tt
      else Err (InvalidObservation "evaluated baseline metric requires complete evidence")
  | BaselineUnavailable =>
      if all_absent then Ok tt
      else Err (InvalidObservation "unavailable baseline metric must not contain evidence")
  end.

Record BaselineSeriesEvaluation : Type := mkBaselineSeriesEvaluation {
  be_state : BaselineState;
  be_packets : BaselineMetricReport;
  be_bytes : BaselineMetricReport;
}.

Record BaselineSamplePair : Type := mkBaselineSamplePair {
  bp_packets_per_second : Z;
  bp_bytes_per_second : Z;
  bp_accepted_at_unix_ms : Z;
}.

(** ** Robust statistics *)
Definition upper_median (values : list Z) : option Z :=
  match values with
  | [] => None
  | _ =>
      let sorted := merge_sort Z.le values in
      sorted !! (length sorted / 2)%nat
  end.

Definition median_absolute_deviation (values : list Z) : option Z :=
  median ← upper_median values;
  let deviations := (λ value, abs_diff value median) <$> values in
  upper_median deviations.

Definition as_u64 (a : Z) : Z := Z.land a U64_MAX.

Definition evaluate_metric (current median mad noise_floor : Z) : BaselineMetricReport :=
  let threshold :=
    as_u64 (Z.min (Z.max (Z.max (median + 6 * mad) (4 * median)) noise_floor) U64_MAX) in
  let ratio_milli :=
    if median =? 0 then None
    else Some (as_u64 (Z.min ((current * 1000) / median) U64_MAX)) in
  mkBaselineMetricReport (Some current) (Some median) (Some mad) (Some threshold)
    ratio_milli (Some (threshold <? current)).

(** ** Series *)
Definition BaselineSeries : Type := list BaselineSamplePair.
Definition BaselineSeries_new : BaselineSeries := [].

Definition series_sample_count (self : BaselineSeries) : nat := length self.
Definition series_latest_accepted_at_unix_ms (self : BaselineSeries) : option Z :=
  bp_accepted_at_unix_ms <$> back self.

Definition series_accept (self : BaselineSeries) (packets bytes accepted_at : Z)
    : BaselineSeries :=
  evict_then_push BASELINE_CAPACITY self (mkBaselineSamplePair packets bytes accepted_at).

Definition is_elevated (m : BaselineMetricReport) : bool :=
  bool_decide (bm_elevated m = Some true).

Definition series_evaluate (self : BaselineSeries) (packets_per_second bytes_per_second : Z)
    : BaselineSeriesEvaluation :=
  if (length self <? BASELINE_MINIMUM_SAMPLES)%nat
  then mkBaselineSeriesEvaluation BaselineLearning
         (metric_learning packets_per_second) (metric_learning bytes_per_second)
  else
    let packet_samples := bp_packets_per_second <$> self in
    let byte_samples := bp_bytes_per_second <$> self in
    let packet_median := default 0 (upper_median packet_samples) in
    let byte_median := default 0 (upper_median byte_samples) in
    let packets := evaluate_metric packets_per_second packet_median
      (default 0 (median_absolute_deviation packet_samples)) BASELINE_PACKET_NOISE_FLOOR_PPS in
    let bytes := evaluate_metric bytes_per_second byte_median
      (default 0 (median_absolute_deviation byte_samples)) BASELINE_BYTE_NOISE_FLOOR_BPS in
    let state :=
      if is_elevated packets || is_elevated bytes then BaselineElevated else WithinBaseline in
    mkBaselineSeriesEvaluation state packets bytes.

(** ** Reports *)
Record BaselineSubjectReport : Type := mkBaselineSubjectReport {
  bs_hook : HookRole;
  bs_subject : BaselineSubject;
  bs_state : BaselineState;
  bs_sample_count : Z;
  bs_latest_accepted_at_unix_ms : option Z;
  bs_packets : BaselineMetricReport;
  bs_bytes : BaselineMetricReport;
}.

Notation subject_index := (fin BASELINE_SUBJECT_COUNT).
Notation per_subject A := (vec A BASELINE_SUBJECT_COUNT).

Record BaselineReport : Type := mkBaselineReport {
  br_source_window_ms : Z;
  br_capacity : Z;
  br_minimum_samples : Z;
  br_packet_noise_floor_pps : Z;
  br_byte_noise_floor_bps : Z;
  br_state : BaselineState;
  br_evaluated_at_unix_ms : option Z;
  br_source_end_unix_ms : option Z;
  br_last_successful_evaluation_at_unix_ms : option Z;
  br_last_error_code : option string;
  br_learning_subject_count : Z;
  br_elevated_metric_count : Z;
  br_subjects : per_subject BaselineSubjectReport;
}.

Definition hook_for_index (index : nat) : HookRole :=
  if (index <? BASELINE_SUBJECTS_PER_HOOK)%nat then ExternalXdpIngress else PhysicalTcEgress.

(** [index % 8]: the total, one class of [CLASS_ORDER], or the parse errors. *)
Definition subject_for_index (index : nat) : BaselineSubject :=
  match (index `mod` BASELINE_SUBJECTS_PER_HOOK)%nat with
  | O => SubjectTotal
  | S k =>
      match vec_to_list CLASS_ORDER !! k with
      | Some traffic_class => SubjectTrafficClass traffic_class
      | None => SubjectParseErrors
      end
  end.

Definition baseline_subject_index (hook : HookRole) (subject : BaselineSubject) : option nat :=
  List.find (λ index, bool_decide (hook_for_index index = hook)
                      && bool_decide (subject_for_index index = subject))
    (seq 0 BASELINE_SUBJECT_COUNT).

Definition subject_rates (hooks : HookRates) (index : nat) : Z * Z :=
  let hook := hooks !!! (if (index / BASELINE_SUBJECTS_PER_HOOK =? 0)%nat then 0%fin else 1%fin) in
  let counters :=
    match (index `mod` BASELINE_SUBJECTS_PER_HOOK)%nat with
    | O => hr_total hook
    | S k =>
        match vec_to_list (hr_classes hook) !! k with
        | Some class => cr_counters class
        | None => hr_parse_errors hook
        end
    end in
  (rc_packets_per_second counters, rc_bytes_per_second counters).

Definition aggregate_baseline_state (subjects : per_subject BaselineSubjectReport)
    : BaselineState :=
  let any state := existsb (λ value, bool_decide (bs_state value = state)) (vec_to_list subjects) in
  if any BaselineUnavailable then BaselineUnavailable
  else if any BaselineElevated then BaselineElevated
  else if any BaselineLearning then BaselineLearning
  else WithinBaseline.

Definition count_learning (subjects : per_subject BaselineSubjectReport) : Z :=
  Z.of_nat (length (List.filter (λ s, bool_decide (bs_state s = BaselineLearning))
    (vec_to_list subjects))).

Definition count_elevated (subjects : per_subject BaselineSubjectReport) : Z :=
  Z.of_nat (length (List.filter is_elevated
    (flat_map (λ s, [bs_packets s; bs_bytes s]) (vec_to_list subjects)))).

Definition BaselineReport_learning (evaluated_at_unix_ms : Z) : BaselineReport :=
  let subjects := fun_to_vec (λ index : subject_index,
    mkBaselineSubjectReport (hook_for_index index) (subject_for_index index)
      BaselineLearning 0 None metric_absent metric_absent) in
  mkBaselineReport BASELINE_SOURCE_WINDOW_MS (as_u16 (Z.of_nat BASELINE_CAPACITY))
    (as_u16 (Z.of_nat BASELINE_MINIMUM_SAMPLES)) BASELINE_PACKET_NOISE_FLOOR_PPS
    BASELINE_BYTE_NOISE_FLOOR_BPS BaselineLearning (Some evaluated_at_unix_ms) None None None
    (as_u16 (Z.of_nat BASELINE_SUBJECT_COUNT)) 0 subjects.

Definition subject_report_validate (index : nat) (subject : BaselineSubjectReport)
    : result DomainError unit :=
  if negb (bool_decide (bs_hook subject = hook_for_index index))
     || negb (bool_decide (bs_subject subject = subject_for_index index))
  then Err (InvalidObservation "baseline subjects do not match fixed order")
  else if Z.of_nat BASELINE_CAPACITY <? bs_sample_count subject
  then Err (InvalidObservation "baseline subject exceeds fixed capacity")
  else
    _ ← metric_validate_for (bs_packets subject) (bs_state subject);
    metric_validate_for (bs_bytes subject) (bs_state subject).

Definition BaselineReport_validate (self : BaselineReport) : result DomainError unit :=
  if negb (br_source_window_ms self =? BASELINE_SOURCE_WINDOW_MS)
     || negb (br_capacity self =? Z.of_nat BASELINE_CAPACITY)
     || negb (br_minimum_samples self =? Z.of_nat BASELINE_MINIMUM_SAMPLES)
     || negb (br_packet_noise_floor_pps self =? BASELINE_PACKET_NOISE_FLOOR_PPS)
     || negb (br_byte_noise_floor_bps self =? BASELINE_BYTE_NOISE_FLOOR_BPS)
  then Err (InvalidObservation "baseline report configuration is not fixed")
  else
    _ ← try_for_each (λ p, subject_report_validate p.1 p.2)
          (zip (seq 0 BASELINE_SUBJECT_COUNT) (vec_to_list (br_subjects self)));
    if negb (bool_decide (br_state self = aggregate_baseline_state (br_subjects self)))
    then Err (InvalidObservation "baseline aggregate state does not match subjects")
    else if negb (br_learning_subject_count self =? count_learning (br_subjects self))
    then Err (InvalidObservation "baseline learning subject count is inconsistent")
    else if negb (br_elevated_metric_count self =? count_elevated (br_subjects self))
    then Err (InvalidObservation "baseline elevated metric count is inconsistent")
    else Ok tt.

(** ** The engine *)
Inductive BaselineError : Type := InvalidSourceWindow | SourceEndpointNotAdvancing.

Record BaselineEngine : Type := mkBaselineEngine {
  bg_identity : RateIdentity;
  bg_series : per_subject BaselineSeries;
  bg_cached : BaselineReport;
  bg_last_source_end_unix_ms : option Z;
  bg_last_successful_evaluation_at_unix_ms : option Z;
}.

Definition empty_series : per_subject BaselineSeries :=
  fun_to_vec (λ _ : subject_index, BaselineSeries_new).

Definition BaselineEngine_new (identity : RateIdentity) (started_at_unix_ms : Z)
    : BaselineEngine :=
  mkBaselineEngine identity empty_series (BaselineReport_learning started_at_unix_ms) None None.

Definition unavailable_report (self : BaselineEngine) (evaluated_at_unix_ms : Z) (code : string)
    : BaselineReport :=
  let subjects := fun_to_vec (λ index : subject_index,
    mkBaselineSubjectReport (hook_for_index index) (subject_for_index index)
      BaselineUnavailable
      (as_u16 (Z.of_nat (series_sample_count (bg_series self !!! index))))
      (series_latest_accepted_at_unix_ms (bg_series self !!! index))
      metric_absent metric_absent) in
  mkBaselineReport BASELINE_SOURCE_WINDOW_MS (as_u16 (Z.of_nat BASELINE_CAPACITY))
    (as_u16 (Z.of_nat BASELINE_MINIMUM_SAMPLES)) BASELINE_PACKET_NOISE_FLOOR_PPS
    BASELINE_BYTE_NOISE_FLOOR_BPS BaselineUnavailable (Some evaluated_at_unix_ms) None
    (bg_last_successful_evaluation_at_unix_ms self) (Some code) 0 0 subjects.

Definition with_cached (self : BaselineEngine) (report : BaselineReport) : BaselineEngine :=
  mkBaselineEngine (bg_identity self) (bg_series self) report
    (bg_last_source_end_unix_ms self) (bg_last_successful_evaluation_at_unix_ms self).

Definition baseline_unavailable (self : BaselineEngine) (evaluated_at_unix_ms : Z)
    (code : string) : BaselineEngine * BaselineReport :=
  let report := unavailable_report self evaluated_at_unix_ms code in
  (with_cached self report, report).

Definition clear_integrity (self : BaselineEngine) (identity : RateIdentity)
    (evaluated_at_unix_ms : Z) (code : string) : BaselineEngine * BaselineReport :=
  let self := mkBaselineEngine identity empty_series (bg_cached self) None None in
  let report := unavailable_report self evaluated_at_unix_ms code in
  (with_cached self report, report).

(** The body of the acceptance loop of [evaluate_ready_window]. *)
Definition accept_step (values : per_subject (Z * Z)) (source_end_unix_ms : Z)
    (index : subject_index)
    (st : per_subject BaselineSeries * per_subject BaselineSeriesEvaluation)
    : per_subject BaselineSeries * per_subject BaselineSeriesEvaluation :=
  let series := st.1 in
  let evaluations := st.2 in
  let evaluation := evaluations !!! index in
  if negb (bool_decide (be_state evaluation = BaselineElevated)) then
    let packets := (values !!! index).1 in
    let bytes := (values !!! index).2 in
    let series := vinsert index
      (series_accept (series !!! index) packets bytes source_end_unix_ms) series in
    let evaluations :=
      if bool_decide (be_state evaluation = BaselineLearning)
         && (BASELINE_MINIMUM_SAMPLES <=? series_sample_count (series !!! index))%nat
      then vinsert index (series_evaluate (series !!! index) packets bytes) evaluations
      else evaluations in
    (series, evaluations)
  else (series, evaluations).

Definition evaluate_ready_window (self : BaselineEngine) (window : DetailedRateWindow)
    (evaluated_at_unix_ms : Z) : BaselineEngine * result BaselineError BaselineReport :=
  let invalid :=
    ((clear_integrity self (bg_identity self) evaluated_at_unix_ms
       "baseline_invalid_source_window").1, Err InvalidSourceWindow) in
  if negb (dw_window_ms window =? BASELINE_SOURCE_WINDOW_MS)
     || negb (bool_decide (dw_state window = RateReady))
     || negb (is_ok (DetailedRateWindow_validate window))
  then invalid
  else
    match dw_end_unix_ms window with
    | None => invalid
    | Some source_end_unix_ms =>
        if is_some_and (bg_last_source_end_unix_ms self)
             (λ last, source_end_unix_ms <=? last)
        then ((clear_integrity self (bg_identity self) evaluated_at_unix_ms
                "baseline_source_endpoint_not_advancing").1, Err SourceEndpointNotAdvancing)
        else
          match dw_hooks window with
          | None => invalid
          | Some hooks =>
              let values := fun_to_vec (λ index : subject_index, subject_rates hooks index) in
              let evaluations := fun_to_vec (λ index : subject_index,
                series_evaluate (bg_series self !!! index)
                  (values !!! index).1 (values !!! index).2) in
              let st := for_each_index (accept_step values source_end_unix_ms)
                          (bg_series self, evaluations) in
              let series := st.1 in
              let evaluations := st.2 in
              let subjects := fun_to_vec (λ index : subject_index,
                mkBaselineSubjectReport (hook_for_index index) (subject_for_index index)
                  (be_state (evaluations !!! index))
                  (as_u16 (Z.of_nat (series_sample_count (series !!! index))))
                  (series_latest_accepted_at_unix_ms (series !!! index))
                  (be_packets (evaluations !!! index)) (be_bytes (evaluations !!! index))) in
              let report := mkBaselineReport BASELINE_SOURCE_WINDOW_MS
                (as_u16 (Z.of_nat BASELINE_CAPACITY)) (as_u16 (Z.of_nat BASELINE_MINIMUM_SAMPLES))
                BASELINE_PACKET_NOISE_FLOOR_PPS BASELINE_BYTE_NOISE_FLOOR_BPS
                (aggregate_baseline_state subjects) (Some evaluated_at_unix_ms)
                (Some source_end_unix_ms) (Some evaluated_at_unix_ms) None
                (as_u16 (count_learning subjects)) (as_u16 (count_elevated subjects)) subjects in
              (mkBaselineEngine (bg_identity self) series report
                 (Some source_end_unix_ms) (Some evaluated_at_unix_ms), Ok report)
          end
    end.

(** ** The summary *)
Record BaselineElevatedIdentifier : Type := mkBaselineElevatedIdentifier {
  el_hook : HookRole;
  el_subject : BaselineSubject;
  el_metric : BaselineMetric;
}.

Record BaselineSubjectSampleCount : Type := mkBaselineSubjectSampleCount {
  sc_hook : HookRole;
  sc_subject : BaselineSubject;
  sc_sample_count : Z;
  sc_latest_accepted_at_unix_ms : option Z;
}.

Record BaselineSummary : Type := mkBaselineSummary {
  bu_state : BaselineState;
  bu_evaluated_at_unix_ms : option Z;
  bu_source_end_unix_ms : option Z;
  bu_last_successful_evaluation_at_unix_ms : option Z;
  bu_last_error_code : option string;
  bu_learning_subject_count : Z;
  bu_elevated_metric_count : Z;
  bu_subject_sample_counts : per_subject BaselineSubjectSampleCount;
  bu_elevated : list BaselineElevatedIdentifier;
}.

(** The elevated identifiers of one subject, packets first. *)
Definition elevated_identifiers (s : BaselineSubjectReport) : list BaselineElevatedIdentifier :=
  (if is_elevated (bs_packets s)
   then [mkBaselineElevatedIdentifier (bs_hook s) (bs_subject s) MetricPackets] else [])
  ++ (if is_elevated (bs_bytes s)
      then [mkBaselineElevatedIdentifier (bs_hook s) (bs_subject s) MetricBytes] else []).

Definition BaselineSummary_from_report (report : BaselineReport) : BaselineSummary :=
  let elevated := foldl (λ elevated subject, elevated ++ elevated_identifiers subject)
    [] (vec_to_list (br_subjects report)) in
  mkBaselineSummary (br_state report) (br_evaluated_at_unix_ms report)
    (br_source_end_unix_ms report) (br_last_successful_evaluation_at_unix_ms report)
    (br_last_error_code report) (br_learning_subject_count report)
    (br_elevated_metric_count report)
    (fun_to_vec (λ index : subject_index,
      let subject := br_subjects report !!! index in
      mkBaselineSubjectSampleCount (bs_hook subject) (bs_subject subject)
        (bs_sample_count subject) (bs_latest_accepted_at_unix_ms subject)))
    elevated.

Definition elevated_order (e : BaselineElevatedIdentifier) : option nat :=
  subject_index ← baseline_subject_index (el_hook e) (el_subject e);
  Some (subject_index * 2 + match el_metric e with MetricPackets => 0 | MetricBytes => 1 end)%nat.

(** The bodies of the two loops of the summary's validation. *)
Definition sample_count_check (index : nat) (subject : BaselineSubjectSampleCount)
    : result DomainError unit :=
  if negb (bool_decide (sc_hook subject = hook_for_index index))
     || negb (bool_decide (sc_subject subject = subject_for_index index))
     || (Z.of_nat BASELINE_CAPACITY <? sc_sample_count subject)
  then Err (InvalidObservation "baseline summary subjects do not match fixed contract")
  else Ok tt.

Definition elevated_check (previous_order : option nat) (elevated : BaselineElevatedIdentifier)
    : result DomainError (option nat) :=
  match elevated_order elevated with
  | None => Err (InvalidObservation
      "baseline summary elevated identifier is outside the fixed contract")
  | Some order =>
      if is_some_and previous_order (λ previous, (order <=? previous)%nat)
      then Err (InvalidObservation
        "baseline summary elevated identifiers are not in fixed order")
      else Ok (Some order)
  end.

Definition BaselineSummary_validate (self : BaselineSummary) : result DomainError unit :=
  if (BASELINE_METRIC_COUNT <? length (bu_elevated self))%nat
  then Err (InvalidObservation "baseline summary exceeds fixed elevated identifier bound")
  else if negb (Z.of_nat (length (bu_elevated self)) =? bu_elevated_metric_count self)
  then Err (InvalidObservation "baseline summary elevated count is inconsistent")
  else
    _ ← try_for_each (λ p, sample_count_check p.1 p.2)
        (zip (seq 0 BASELINE_SUBJECT_COUNT) (vec_to_list (bu_subject_sample_counts self)));
    _ ← try_fold elevated_check None (bu_elevated self);
    Ok tt.

(** ** The upper median is an order statistic *)
Lemma upper_median_sorted values :
  values ≠ [] → ∃ m, upper_median values = Some m ∧
    merge_sort Z.le values !! (length values / 2)%nat = Some m.
Proof.
  intros Hne. pose proof (merge_sort_Permutation Z.le values) as Hp.
  assert (length (merge_sort Z.le values) = length values) as Hl by (by rewrite Hp).
  destruct (lookup_lt_is_Some_2 (merge_sort Z.le values) (length values / 2)) as [m Hm].
  { rewrite Hl. apply Nat.div_lt; [|lia]. destruct values; [done|simpl; lia]. }
  exists m. split; [|done]. unfold upper_median. destruct values as [|v vs]; [done|].
  by rewrite Hl.
Qed.

(** The upper median is the order statistic of rank [n / 2] (zero-based):
    it is the one member of a non-empty sample that has at most [n / 2] smaller
    values and more than [n / 2] values not above it; it exists exactly for
    non-empty samples. *)
Theorem upper_median_order_statistic (values : list Z) (m : Z) :
  upper_median values = Some m ↔
  m ∈ values ∧ (count_lt m values ≤ length values / 2 < count_le m values)%nat.
Proof.
  assert (∀ m', upper_median values = Some m' → m' ∈ values ∧
    (count_lt m' values ≤ length values / 2 < count_le m' values)%nat) as Hfwd.
  { intros m' Hm. destruct (decide (values = [])) as [->|Hne]; [done|].
    destruct (upper_median_sorted values Hne) as (m'' & Hm'' & Hk).
    assert (m'' = m') as -> by congruence. by apply merge_sort_rank. }
  split; [apply Hfwd|]. intros (Hin & Hlt & Hle).
  destruct (upper_median_sorted values) as (m' & Hm & _); [intros ->; by apply not_elem_of_nil in Hin|].
  rewrite Hm. f_equal. destruct (Hfwd _ Hm) as (_ & Hlt' & Hle').
  destruct (Z.lt_trichotomy m m') as [Hc|[Hc|Hc]]; [|done|];
    pose proof (count_le_mono _ _ values Hc); lia.
Qed.

(** ** The threshold decision *)

Lemma as_u64_small a : is_u64 a → as_u64 a = a.
Proof.
  intros H. unfold as_u64. change U64_MAX with (Z.ones 64).
  rewrite Z.land_ones by lia. apply Z.mod_small. ulia.
Qed.

(** For 64-bit inputs the 128-bit intermediate values of the threshold
    computation do not overflow, the published threshold is the saturated
    maximum, and saturation never changes the verdict: a value is elevated
    exactly when it is strictly greater than [median + 6 * mad], than
    [4 * median] and than the noise floor. *)
Theorem evaluate_metric_decision current median mad noise_floor :
  is_u64 current → is_u64 median → is_u64 mad → is_u64 noise_floor →
  let m := evaluate_metric current median mad noise_floor in
  is_u128 (median + 6 * mad) ∧ is_u128 (4 * median) ∧ is_u128 (current * 1000) ∧
  bm_threshold m =
    Some (Z.min U64_MAX (Z.max (median + 6 * mad) (Z.max (4 * median) noise_floor))) ∧
  (bm_elevated m = Some true ↔
    median + 6 * mad < current ∧ 4 * median < current ∧ noise_floor < current).
Proof.
  intros Hc Hm Hd Hn m. split_and!; [ulia..| |].
  - simpl. f_equal. rewrite as_u64_small by ulia. lia.
  - simpl. rewrite as_u64_small by ulia. split.
    + intros [= H]. ulia.
    + intros H. f_equal. ulia.
Qed.

Lemma evaluate_metric_decision_witness :
  is_u64 5000 ∧
  bm_elevated (evaluate_metric 5000 100 20 BASELINE_PACKET_NOISE_FLOOR_PPS) = Some true.
Proof.
  split; [ulia|].
  apply (evaluate_metric_decision 5000 100 20 10); [ulia..|lia].
Defined.

(** ** The engine invariant *)
Definition evaluation_wf (e : BaselineSeriesEvaluation) : Prop :=
  metric_validate_for (be_packets e) (be_state e) = Ok tt ∧
  metric_validate_for (be_bytes e) (be_state e) = Ok tt.

Lemma series_evaluate_wf s packets bytes : evaluation_wf (series_evaluate s packets bytes).
Proof.
  unfold series_evaluate. case_match; [done|]. unfold evaluation_wf.
  cbn [be_state be_packets be_bytes]. by destruct (_ || _).
Qed.

Lemma series_evaluate_state s packets bytes :
  be_state (series_evaluate s packets bytes) = BaselineLearning ↔
  (length s < BASELINE_MINIMUM_SAMPLES)%nat.
Proof.
  unfold series_evaluate. destruct (Nat.ltb_spec (length s) BASELINE_MINIMUM_SAMPLES); [done|].
  cbn [be_state]. destruct (_ || _); split; (done || lia).
Qed.

Definition accepted_lt (a b : BaselineSamplePair) : Prop :=
  bp_accepted_at_unix_ms a < bp_accepted_at_unix_ms b.

(** A series holds at most 300 pairs, each learned from a later source window
    than the one before, and none from a window the engine has not seen. *)
Definition series_wf (last : option Z) (s : BaselineSeries) : Prop :=
  (length s ≤ BASELINE_CAPACITY)%nat ∧ StronglySorted accepted_lt s ∧
  match last with
  | None => s = []
  | Some e => Forall (λ p, bp_accepted_at_unix_ms p ≤ e) s
  end.

Definition baseline_wf (g : BaselineEngine) : Prop :=
  (∀ i, series_wf (bg_last_source_end_unix_ms g) (bg_series g !!! i)) ∧
  BaselineReport_validate (bg_cached g) = Ok tt.

Lemma series_wf_accept last e s packets bytes :
  series_wf last s → (∀ l, last = Some l → l < e) →
  series_wf (Some e) (series_accept s packets bytes e).
Proof.
  intros (Hlen & Hsort & Hlast) He. unfold series_accept, series_wf.
  rewrite evict_then_push_keep_last by (unfold BASELINE_CAPACITY in *; lia).
  assert (Forall (λ p, bp_accepted_at_unix_ms p < e) s) as Hlt.
  { destruct last as [l|]; [|by subst]. specialize (He _ eq_refl).
    eapply Forall_impl; [exact Hlast|]. intros p ?. simpl in *. lia. }
  split_and!.
  - rewrite keep_last_length. lia.
  - eapply suffix_StronglySorted; [apply keep_last_suffix|].
    by apply StronglySorted_snoc.
  - eapply suffix_Forall; [apply keep_last_suffix|]. apply Forall_app; split.
    + eapply Forall_impl; [exact Hlt|]. intros p ?. simpl in *. lia.
    + constructor; [simpl; lia|constructor].
Qed.

Lemma series_wf_keep last e s :
  series_wf last s → (∀ l, last = Some l → l < e) → series_wf (Some e) s.
Proof.
  intros (Hlen & Hsort & Hlast) He. split_and!; [done..|].
  destruct last as [l|]; [|by subst]. specialize (He _ eq_refl).
  eapply Forall_impl; [exact Hlast|]. intros p ?. simpl in *. lia.
Qed.

(** One subject of [evaluate_ready_window]: its new series and evaluation. *)
Definition learn_subject (e packets bytes : Z) (s : BaselineSeries)
    : BaselineSeries * BaselineSeriesEvaluation :=
  let evaluation := series_evaluate s packets bytes in
  if bool_decide (be_state evaluation = BaselineElevated) then (s, evaluation)
  else
    let s' := series_accept s packets bytes e in
    (s', if bool_decide (be_state evaluation = BaselineLearning)
            && (BASELINE_MINIMUM_SAMPLES <=? length s')%nat
         then series_evaluate s' packets bytes else evaluation).

Lemma accept_loop_pointwise values e series i :
  let st := for_each_index (accept_step values e)
    (series, fun_to_vec (λ i, series_evaluate (series !!! i) (values !!! i).1 (values !!! i).2)) in
  (st.1 !!! i, st.2 !!! i) = learn_subject e (values !!! i).1 (values !!! i).2 (series !!! i).
Proof.
  set (step := λ (i : subject_index) (p : BaselineSeries * BaselineSeriesEvaluation),
    if bool_decide (be_state p.2 = BaselineElevated) then p
    else
      let s' := series_accept p.1 (values !!! i).1 (values !!! i).2 e in
      (s', if bool_decide (be_state p.2 = BaselineLearning)
              && (BASELINE_MINIMUM_SAMPLES <=? length s')%nat
           then series_evaluate s' (values !!! i).1 (values !!! i).2 else p.2)).
  cbv zeta.
  rewrite (for_each_index_pointwise (accept_step values e)
    (λ st i, (st.1 !!! i, st.2 !!! i)) step).
  - unfold step, learn_subject. cbn [fst snd]. by rewrite lookup_fun_to_vec.
  - intros j [s ev]. unfold accept_step, step. cbn [fst snd].
    destruct (bool_decide (be_state (ev !!! j) = BaselineElevated)); cbn [negb fst snd]; [done|].
    rewrite !vlookup_insert. unfold series_sample_count.
    by destruct (_ && _); rewrite ?vlookup_insert.
  - intros j k [s ev] Hjk. unfold accept_step. cbn [fst snd].
    destruct (bool_decide _); cbn [negb fst snd]; [done|].
    rewrite !vlookup_insert. rewrite vlookup_insert_ne by done.
    by destruct (_ && _); rewrite ?vlookup_insert_ne by done.
Qed.

Lemma filter_length_bound {A} (f : A → bool) (l : list A) :
  (length (List.filter f l) ≤ length l)%nat.
Proof. apply List.filter_length_le. Qed.

Lemma filter_none_nil {A} (f : A → bool) (l : list A) :
  Forall (λ x, f x = false) l → List.filter f l = [].
Proof. induction 1 as [|x l Hx _ IH]; cbn; [done|]. by rewrite Hx. Qed.

Lemma Forall_flat_map {A B} (P : B → Prop) (f : A → list B) (l : list A) :
  Forall (λ x, Forall P (f x)) l → Forall P (flat_map f l).
Proof. induction 1; cbn; [constructor|]. by apply Forall_app. Qed.

Lemma count_learning_range subjects : 0 ≤ count_learning subjects ≤ 16.
Proof.
  unfold count_learning.
  pose proof (filter_length_bound (λ s, bool_decide (bs_state s = BaselineLearning))
    (vec_to_list subjects)) as H.
  rewrite length_vec_to_list in H. split; [lia|].
  apply (Nat2Z.inj_le _ BASELINE_SUBJECT_COUNT). exact H.
Qed.

Lemma count_elevated_range subjects : 0 ≤ count_elevated subjects ≤ 32.
Proof.
  unfold count_elevated.
  pose proof (filter_length_bound is_elevated
    (flat_map (λ s, [bs_packets s; bs_bytes s]) (vec_to_list subjects))) as H.
  assert (∀ l : list BaselineSubjectReport,
    length (flat_map (λ s, [bs_packets s; bs_bytes s]) l) = (2 * length l)%nat) as Hl.
  { induction l as [|x l IH]; simpl; [done|]. rewrite IH. lia. }
  rewrite Hl, length_vec_to_list in H. split; [lia|].
  apply (Nat2Z.inj_le _ (2 * BASELINE_SUBJECT_COUNT)). exact H.
Qed.

Lemma as_u16_learning subjects : as_u16 (count_learning subjects) = count_learning subjects.
Proof. apply as_u16_small. pose proof (count_learning_range subjects). ulia. Qed.

Lemma as_u16_elevated subjects : as_u16 (count_elevated subjects) = count_elevated subjects.
Proof. apply as_u16_small. pose proof (count_elevated_range subjects). ulia. Qed.

(** A report assembled from per-index subjects with well-shaped metrics and
    consistent counts passes its own validation. *)
Lemma assembled_report_valid (subjects : per_subject BaselineSubjectReport) state ev se ls ec lc el :
  (∀ i : subject_index, bs_hook (subjects !!! i) = hook_for_index i ∧
        bs_subject (subjects !!! i) = subject_for_index i ∧
        bs_sample_count (subjects !!! i) ≤ 300 ∧
        metric_validate_for (bs_packets (subjects !!! i)) (bs_state (subjects !!! i)) = Ok tt ∧
        metric_validate_for (bs_bytes (subjects !!! i)) (bs_state (subjects !!! i)) = Ok tt) →
  state = aggregate_baseline_state subjects →
  lc = count_learning subjects → el = count_elevated subjects →
  BaselineReport_validate
    (mkBaselineReport BASELINE_SOURCE_WINDOW_MS (as_u16 (Z.of_nat BASELINE_CAPACITY))
      (as_u16 (Z.of_nat BASELINE_MINIMUM_SAMPLES)) BASELINE_PACKET_NOISE_FLOOR_PPS
      BASELINE_BYTE_NOISE_FLOOR_BPS state ev se ls ec lc el subjects) = Ok tt.
Proof.
  intros Hs -> -> ->. unfold BaselineReport_validate.
  cbn [br_source_window_ms br_capacity br_minimum_samples br_packet_noise_floor_pps
    br_byte_noise_floor_bps br_state br_learning_subject_count br_elevated_metric_count
    br_subjects].
  change (as_u16 (Z.of_nat BASELINE_CAPACITY)) with (Z.of_nat BASELINE_CAPACITY).
  change (as_u16 (Z.of_nat BASELINE_MINIMUM_SAMPLES)) with (Z.of_nat BASELINE_MINIMUM_SAMPLES).
  rewrite !Z.eqb_refl. cbn [negb orb].
  rewrite (proj2 (try_for_each_enumerate subject_report_validate subjects)).
  - simpl. by rewrite bool_decide_eq_true_2.
  - intros i. destruct (Hs i) as (Hh & Hsu & Hc & Hp & Hb).
    unfold subject_report_validate. rewrite !bool_decide_eq_true_2 by done. simpl orb. cbn iota.
    rewrite (proj2 (Z.ltb_ge _ _)) by (unfold BASELINE_CAPACITY; lia).
    by rewrite Hp, Hb.
Qed.

Lemma aggregate_uniform (subjects : per_subject BaselineSubjectReport) state :
  state = BaselineLearning ∨ state = BaselineUnavailable →
  (∀ i : subject_index, bs_state (subjects !!! i) = state) → aggregate_baseline_state subjects = state.
Proof.
  intros Hst Hs. unfold aggregate_baseline_state.
  assert (∀ st, existsb (λ value, bool_decide (bs_state value = st)) (vec_to_list subjects) =
    bool_decide (state = st)) as Hex.
  2:{ rewrite !Hex. by destruct Hst as [-> | ->]. }
  intros st. apply (Forall_vlookup (λ s, bs_state s = state)) in Hs. case_bool_decide as Heq.
  - subst st. apply existsb_exists. pose proof (length_vec_to_list subjects) as Hl.
    destruct (vec_to_list subjects) as [|x l]; [done|]. apply Forall_cons in Hs as [Hx _].
    exists x. split; [by left|]. by apply bool_decide_eq_true.
  - apply existsb_false_Forall. eapply Forall_impl; [exact Hs|]. intros x Hx. cbn in Hx.
    apply bool_decide_eq_false. congruence.
Qed.

(** The values one index of the engine reads from a ready window. *)
Definition window_values (hooks : HookRates) (i : subject_index) : Z * Z :=
  subject_rates hooks i.

(** A window the engine learns from: a valid ready ten-second window that ends
    after the last one it learned from. *)
Definition learnable (g : BaselineEngine) (w : DetailedRateWindow) (hooks : HookRates) (e : Z)
    : Prop :=
  dw_window_ms w = BASELINE_SOURCE_WINDOW_MS ∧ dw_state w = RateReady ∧
  DetailedRateWindow_validate w = Ok tt ∧
  dw_hooks w = Some hooks ∧ dw_end_unix_ms w = Some e ∧
  ∀ last, bg_last_source_end_unix_ms g = Some last → last < e.

(** What a successful evaluation leaves behind. *)
Definition learned (g : BaselineEngine) (hooks : HookRates) (e now : Z)
    (g' : BaselineEngine) (report : BaselineReport) : Prop :=
  bg_identity g' = bg_identity g ∧
  bg_cached g' = report ∧
  bg_last_source_end_unix_ms g' = Some e ∧
  bg_last_successful_evaluation_at_unix_ms g' = Some now ∧
  BaselineReport_validate report = Ok tt ∧
  ∀ i : subject_index,
    let l := learn_subject e (window_values hooks i).1 (window_values hooks i).2
               (bg_series g !!! i) in
    bg_series g' !!! i = l.1 ∧
    bs_state (br_subjects report !!! i) = be_state l.2 ∧
    bs_packets (br_subjects report !!! i) = be_packets l.2 ∧
    bs_bytes (br_subjects report !!! i) = be_bytes l.2.

Lemma series_accept_length s packets bytes e :
  (length s ≤ BASELINE_CAPACITY)%nat →
  (length (series_accept s packets bytes e) ≤ BASELINE_CAPACITY)%nat.
Proof.
  intros Hs. unfold series_accept.
  rewrite evict_then_push_keep_last by (unfold BASELINE_CAPACITY in *; lia).
  rewrite keep_last_length. lia.
Qed.

Lemma learn_subject_length e p b s :
  (length s ≤ BASELINE_CAPACITY)%nat →
  (length (learn_subject e p b s).1 ≤ BASELINE_CAPACITY)%nat.
Proof.
  intros Hs. unfold learn_subject. case_bool_decide; [done|]. by apply series_accept_length.
Qed.

Lemma learn_subject_evaluation_wf e p b s : evaluation_wf (learn_subject e p b s).2.
Proof.
  unfold learn_subject. case_bool_decide; [apply series_evaluate_wf|].
  cbn [snd]. case_match; apply series_evaluate_wf.
Qed.

Lemma as_u16_length (s : BaselineSeries) :
  (length s ≤ BASELINE_CAPACITY)%nat →
  as_u16 (Z.of_nat (series_sample_count s)) = Z.of_nat (length s) ∧
  Z.of_nat (length s) ≤ 300.
Proof.
  intros Hs. unfold BASELINE_CAPACITY, series_sample_count in *.
  split; [|lia]. apply as_u16_small. ulia.
Qed.

Lemma evaluate_ready_window_learns g w now hooks e :
  (∀ i : subject_index, (series_sample_count (bg_series g !!! i) ≤ BASELINE_CAPACITY)%nat) →
  learnable g w hooks e →
  ∃ g' report, evaluate_ready_window g w now = (g', Ok report) ∧ learned g hooks e now g' report.
Proof.
  intros Hcap (Hms & Hst & Hv & Hh & He & Hlast). unfold evaluate_ready_window.
  rewrite Hms, Hst, Hv, Hh, He. cbn [is_ok].
  rewrite Z.eqb_refl, bool_decide_eq_true_2 by done. cbn [negb orb].
  assert (is_some_and (bg_last_source_end_unix_ms g) (λ last, e <=? last) = false) as ->.
  { destruct (bg_last_source_end_unix_ms g) as [l|]; [|done]. cbn.
    specialize (Hlast _ eq_refl). lia. }
  do 2 eexists. split; [reflexivity|].
  pose proof (accept_loop_pointwise (fun_to_vec (window_values hooks)) e (bg_series g)) as Hpt.
  cbv zeta in Hpt. change (λ i : subject_index, subject_rates hooks i) with (window_values hooks).
  destruct (for_each_index (accept_step (fun_to_vec (window_values hooks)) e) _)
    as [series evals].
  cbn [fst snd] in *.
  assert (∀ i : subject_index, (series_sample_count (series !!! i) ≤ BASELINE_CAPACITY)%nat) as Hcap'.
  { intros i. specialize (Hpt i). apply (f_equal fst) in Hpt. cbn [fst] in Hpt.
    rewrite Hpt. by apply learn_subject_length. }
  unfold learned. cbn [bg_identity bg_cached bg_last_source_end_unix_ms bg_series
    bg_last_successful_evaluation_at_unix_ms br_subjects]. split_and!; try done.
  - apply assembled_report_valid; [|done|apply as_u16_learning|apply as_u16_elevated].
    intros i. rewrite lookup_fun_to_vec. cbn [bs_hook bs_subject bs_sample_count bs_state
      bs_packets bs_bytes].
    pose proof (as_u16_length _ (Hcap' i)) as [-> ?].
    pose proof (learn_subject_evaluation_wf e (window_values hooks i).1
      (window_values hooks i).2 (bg_series g !!! i)) as [? ?].
    specialize (Hpt i). rewrite lookup_fun_to_vec in Hpt.
    apply (f_equal snd) in Hpt. cbn [snd] in Hpt. by rewrite Hpt.
  - intros i. specialize (Hpt i). rewrite !lookup_fun_to_vec in *. rewrite <-Hpt. done.
Qed.

(** Split an equation of pairs without looking inside the states. *)
Lemma pair_eq_snd {A B} (p : A * B) a b : p = (a, b) → p.1 = a ∧ p.2 = b.
Proof. by intros ->. Qed.

(** Everything an evaluation does when it does not learn. *)
Lemma evaluate_ready_window_rejects g w now g' err :
  evaluate_ready_window g w now = (g', Err err) →
  ∃ code, g' = (clear_integrity g (bg_identity g) now code).1.
Proof.
  unfold evaluate_ready_window. intros [H1 H2]%pair_eq_snd. revert H1 H2.
  destruct (_ || negb (is_ok _)); cbn [fst snd].
  { intros <- _. by eexists. }
  destruct (dw_end_unix_ms w) as [e|]; cbn [fst snd].
  2:{ intros <- _. by eexists. }
  destruct (is_some_and _ _); cbn [fst snd].
  { intros <- _. by eexists. }
  destruct (dw_hooks w); cbn [fst snd].
  - intros _ H. discriminate H.
  - intros <- _. by eexists.
Qed.

Lemma evaluate_ready_window_accepts g w now g' report :
  evaluate_ready_window g w now = (g', Ok report) → ∃ hooks e, learnable g w hooks e.
Proof.
  unfold evaluate_ready_window. intros [_ H]%pair_eq_snd. revert H.
  destruct (_ || negb (is_ok _)) eqn:Hg; cbn [snd]; [intros H; discriminate H|].
  destruct (dw_end_unix_ms w) as [e|] eqn:He; cbn [snd]; [|intros H; discriminate H].
  destruct (is_some_and _ _) eqn:Hl; cbn [snd]; [intros H; discriminate H|].
  destruct (dw_hooks w) as [hooks|] eqn:Hh; cbn [snd]; [|intros H; discriminate H].
  intros _. boolify. exists hooks, e. unfold learnable. split_and!; try done; [lia| |].
  - by apply is_ok_true in H0 as [[] ?].
  - intros last Hlast. rewrite Hlast in Hl. cbn in Hl. lia.
Qed.

(** ** Reachable engines *)
Inductive baseline_op : Type :=
| OpEvaluate (window : DetailedRateWindow) (evaluated_at_unix_ms : Z)
| OpUnavailable (evaluated_at_unix_ms : Z) (code : string)
| OpClearIntegrity (identity : RateIdentity) (evaluated_at_unix_ms : Z) (code : string).

Definition baseline_step (g : BaselineEngine) (op : baseline_op) : BaselineEngine :=
  match op with
  | OpEvaluate window now => (evaluate_ready_window g window now).1
  | OpUnavailable now code => (baseline_unavailable g now code).1
  | OpClearIntegrity identity now code => (clear_integrity g identity now code).1
  end.

Lemma unavailable_report_valid g now code :
  (∀ i : subject_index, (series_sample_count (bg_series g !!! i) ≤ BASELINE_CAPACITY)%nat) →
  BaselineReport_validate (unavailable_report g now code) = Ok tt.
Proof.
  intros Hcap. unfold unavailable_report.
  match goal with |- context [fun_to_vec ?f] => set (subjects := fun_to_vec f) end.
  assert (∀ i : subject_index, bs_state (subjects !!! i) = BaselineUnavailable ∧
    is_elevated (bs_packets (subjects !!! i)) = false ∧
    is_elevated (bs_bytes (subjects !!! i)) = false) as Hs.
  { intros i. unfold subjects. by rewrite lookup_fun_to_vec. }
  apply assembled_report_valid.
  - intros i. unfold subjects. rewrite lookup_fun_to_vec. cbn [bs_hook bs_subject
      bs_sample_count bs_state bs_packets bs_bytes].
    by pose proof (as_u16_length _ (Hcap i)) as [-> ?].
  - symmetry. apply aggregate_uniform; [by right|apply Hs].
  - unfold count_learning. rewrite filter_none_nil; [done|].
    apply (Forall_vlookup (λ s, bool_decide (bs_state s = BaselineLearning) = false)).
    intros i. destruct (Hs i) as [-> _]. done.
  - unfold count_elevated. rewrite filter_none_nil; [done|].
    apply Forall_flat_map.
    apply (Forall_vlookup (λ s, Forall (λ m, is_elevated m = false) [bs_packets s; bs_bytes s])).
    intros i. destruct (Hs i) as (_ & ? & ?). by repeat constructor.
Qed.

Lemma baseline_wf_capacity g (i : subject_index) :
  baseline_wf g → (series_sample_count (bg_series g !!! i) ≤ BASELINE_CAPACITY)%nat.
Proof. intros [Hs _]. apply (Hs i). Qed.

Lemma baseline_wf_learned g hooks e now w g' report :
  baseline_wf g → learnable g w hooks e → learned g hooks e now g' report → baseline_wf g'.
Proof.
  intros Hwf (_ & _ & _ & _ & _ & Hlast) (_ & Hc & He & _ & Hv & Hl). split; [|by rewrite Hc].
  intros i. destruct (Hl i) as [-> _]. rewrite He. destruct Hwf as [Hs _]. specialize (Hs i).
  unfold learn_subject. case_bool_decide; [by eapply series_wf_keep|by eapply series_wf_accept].
Qed.

Lemma series_wf_empty : series_wf None [].
Proof. split_and!; [simpl; lia|constructor|done]. Qed.

Lemma baseline_wf_clear g identity now code : baseline_wf (clear_integrity g identity now code).1.
Proof.
  split; cbn [clear_integrity with_cached fst bg_series bg_last_source_end_unix_ms bg_cached].
  - intros i. unfold empty_series. rewrite lookup_fun_to_vec. apply series_wf_empty.
  - apply unavailable_report_valid. intros i. cbn [bg_series]. unfold empty_series.
    rewrite lookup_fun_to_vec. cbn. lia.
Qed.

Lemma baseline_wf_new identity t0 : baseline_wf (BaselineEngine_new identity t0).
Proof.
  split.
  - intros i. cbn [BaselineEngine_new bg_series bg_last_source_end_unix_ms]. unfold empty_series.
    rewrite lookup_fun_to_vec. apply series_wf_empty.
  - by vm_compute.
Qed.

Lemma baseline_step_wf g op : baseline_wf g → baseline_wf (baseline_step g op).
Proof.
  intros Hwf. destruct op as [w now|now code|idn now code].
  - cbn [baseline_step]. destruct (evaluate_ready_window g w now) as [g' [report|err]] eqn:He.
    + destruct (evaluate_ready_window_accepts _ _ _ _ _ He) as (hooks & e & Hl).
      destruct (evaluate_ready_window_learns g w now hooks e) as (g2 & r2 & Heq & Hle).
      { intros i. by apply baseline_wf_capacity. } { done. }
      rewrite He in Heq. apply (f_equal fst) in Heq. cbn [fst] in *. subst g2.
      by eapply baseline_wf_learned.
    + apply evaluate_ready_window_rejects in He as [code ->]. apply baseline_wf_clear.
  - cbn [baseline_step baseline_unavailable with_cached fst]. split; [apply Hwf|].
    cbn [bg_cached]. apply unavailable_report_valid. intros i. by apply baseline_wf_capacity.
  - apply baseline_wf_clear.
Qed.

Lemma baseline_engine_reachable identity t0 ops :
  baseline_wf (foldl baseline_step (BaselineEngine_new identity t0) ops).
Proof.
  pose proof (baseline_wf_new identity t0) as Hwf. revert Hwf.
  generalize (BaselineEngine_new identity t0). induction ops as [|op ops IH]; [done|].
  intros g Hwf. cbn [foldl]. apply IH. by apply baseline_step_wf.
Qed.

(** From a fresh engine, after any sequence of evaluations (of valid or
    invalid windows), unavailability reports and integrity resets, each of the
    sixteen series holds at most 300 samples learned from windows with strictly
    increasing ends, none later than the last window the engine accepted, and
    the cached report satisfies the report contract. *)
Lemma baseline_engine_invariant identity t0 (ops : list baseline_op) :
  baseline_wf (foldl baseline_step (BaselineEngine_new identity t0) ops).
Proof.
  apply baseline_engine_reachable.
Qed.

(** C33: evaluating a window on a well-formed engine either learns or forgets.
    It succeeds exactly when the window is a valid ready ten-second window that
    ends after the last accepted one; then every subject is judged against its
    own series and, unless it is elevated, its sample is appended to it
    (evicting the oldest of 300).  Otherwise all series are emptied and the
    cached report is unavailable. *)
Theorem evaluate_ready_window_correct g w now :
  baseline_wf g →
  match evaluate_ready_window g w now with
  | (g', Ok report) => ∃ hooks e, learnable g w hooks e ∧ learned g hooks e now g' report
  | (g', Err _) =>
      (¬ ∃ hooks e, learnable g w hooks e) ∧
      (∀ i : subject_index, bg_series g' !!! i = []) ∧
      bg_last_source_end_unix_ms g' = None ∧
      br_state (bg_cached g') = BaselineUnavailable
  end.
Proof.
  intros Hwf. destruct (evaluate_ready_window g w now) as [g' [report|err]] eqn:He.
  - destruct (evaluate_ready_window_accepts _ _ _ _ _ He) as (hooks & e & Hl).
    destruct (evaluate_ready_window_learns g w now hooks e) as (g2 & r2 & Heq & Hle).
    { intros i. by apply baseline_wf_capacity. } { done. }
    rewrite He in Heq. apply pair_eq_snd in Heq as [H1 H2]. cbn [fst snd] in *.
    injection H2 as ->. subst g2. by exists hooks, e.
  - split_and!.
    + intros (hooks & e & Hl).
      destruct (evaluate_ready_window_learns g w now hooks e) as (g2 & r2 & Heq & _).
      { intros i. by apply baseline_wf_capacity. } { done. }
      rewrite He in Heq. apply pair_eq_snd in Heq as [_ H2]. discriminate H2.
    + apply evaluate_ready_window_rejects in He as [code ->]. intros i.
      cbn [clear_integrity with_cached fst bg_series]. unfold empty_series.
      by rewrite lookup_fun_to_vec.
    + by apply evaluate_ready_window_rejects in He as [code ->].
    + by apply evaluate_ready_window_rejects in He as [code ->].
Qed.

(** Concrete windows for the witnesses. *)
Module BaselineExample.
Definition identity : RateIdentity := mkRateIdentity 7 42.
Definition rate (n : Z) : RateCounters := mkRateCounters (10 * n) (640 * n) n (64 * n).
Definition hook (role : HookRole) (n : Z) : HookRate :=
  mkHookRate role (rate (6 * n)) (vmap (λ c, mkClassRate c (rate n)) CLASS_ORDER) (rate 0).
(** A ready window ending at second [i] with [n] frames per second and class. *)
Definition window (i n : Z) : DetailedRateWindow :=
  mkDetailedRateWindow 10000 RateReady 10000 (Some 10000000000)
    (Some (i * 1000 - 10000)) (Some (i * 1000))
    (Some [# hook ExternalXdpIngress n; hook PhysicalTcEgress n]).
Definition engine : BaselineEngine := BaselineEngine_new identity 0.
(** An engine that learned sixty quiet windows. *)
Definition trained : BaselineEngine :=
  foldl baseline_step engine ((λ i, OpEvaluate (window i 100) (i * 1000)) <$> seqZ 20 60).
End BaselineExample.

Lemma evaluate_ready_window_correct_witness :
  match evaluate_ready_window BaselineExample.trained (BaselineExample.window 90 100) 90000 with
  | (g', Ok report) => ∃ hooks e, learnable BaselineExample.trained (BaselineExample.window 90 100) hooks e ∧
      learned BaselineExample.trained hooks e 90000 g' report
  | (_, Err _) => False
  end.
Proof.
  pose proof (evaluate_ready_window_correct BaselineExample.trained
    (BaselineExample.window 90 100) 90000) as H.
  assert (is_ok (evaluate_ready_window BaselineExample.trained
    (BaselineExample.window 90 100) 90000).2 = true) as Hok by (vm_compute; reflexivity).
  destruct (evaluate_ready_window _ _ _) as [g' [report|err]]; [|discriminate Hok].
  apply H. apply baseline_engine_reachable.
Defined.

(** ** Poisoning resistance *)

(** Evaluate a run of windows, all of which must be accepted. *)
Fixpoint evaluate_all (g : BaselineEngine) (ws : list (DetailedRateWindow * Z))
    : option (BaselineEngine * list BaselineReport) :=
  match ws with
  | [] => Some (g, [])
  | (w, now) :: ws =>
      match evaluate_ready_window g w now with
      | (g', Ok report) => r ← evaluate_all g' ws; Some (r.1, report :: r.2)
      | (_, Err _) => None
      end
  end.

(** Subject [i] of window [w] exceeds the packet thresholds of series [s]. *)
Definition storms (s : BaselineSeries) (i : subject_index) (w : DetailedRateWindow) : Prop :=
  ∃ hooks m d, dw_hooks w = Some hooks ∧
    upper_median (bp_packets_per_second <$> s) = Some m ∧
    median_absolute_deviation (bp_packets_per_second <$> s) = Some d ∧
    let packets := (window_values hooks i).1 in
    is_u64 packets ∧ is_u64 m ∧ is_u64 d ∧
    m + 6 * d < packets ∧ 4 * m < packets ∧ BASELINE_PACKET_NOISE_FLOOR_PPS < packets.

Lemma storms_elevated s i w :
  (BASELINE_MINIMUM_SAMPLES ≤ length s)%nat → storms s i w →
  ∀ hooks, dw_hooks w = Some hooks →
  be_state (series_evaluate s (window_values hooks i).1 (window_values hooks i).2) =
    BaselineElevated.
Proof.
  intros Hlen (hooks & m & d & Hh & Hm & Hd & Hp & Hum & Hud & H1 & H2 & H3) hooks' Hh'.
  assert (hooks' = hooks) as -> by congruence. unfold series_evaluate.
  destruct (Nat.ltb_spec (length s) BASELINE_MINIMUM_SAMPLES); [lia|].
  cbn [be_state]. rewrite Hm, Hd. cbn [from_option]. unfold id.
  assert (is_elevated (evaluate_metric (window_values hooks i).1 m d
    BASELINE_PACKET_NOISE_FLOOR_PPS) = true) as ->; [|done].
  unfold is_elevated, evaluate_metric. cbn [bm_elevated].
  apply bool_decide_eq_true_2. f_equal. apply Z.ltb_lt.
  unfold BASELINE_PACKET_NOISE_FLOOR_PPS in *. rewrite as_u64_small by ulia. ulia.
Qed.

(** A storm cannot poison its own baseline.  Once a subject has its sixty
    samples, any run of accepted windows in which its packet rate exceeds the
    three thresholds of its series, however long, leaves the series exactly as
    it was, and every report of the run shows the subject elevated. *)
Lemma storm_does_not_poison_baseline g ws g' reports (i : subject_index) :
  baseline_wf g →
  (BASELINE_MINIMUM_SAMPLES ≤ series_sample_count (bg_series g !!! i))%nat →
  Forall (λ w, storms (bg_series g !!! i) i w.1) ws →
  evaluate_all g ws = Some (g', reports) →
  bg_series g' !!! i = bg_series g !!! i ∧
  length reports = length ws ∧
  Forall (λ r, bs_state (br_subjects r !!! i) = BaselineElevated) reports.
Proof.
  revert g reports. induction ws as [|[w now] ws IH]; intros g reports Hwf Hn Hst Hrun.
  { by injection Hrun as -> <-. }
  apply Forall_cons in Hst as [Hw Hst]. cbn [evaluate_all] in Hrun.
  pose proof (evaluate_ready_window_accepts g w now) as Hacc.
  pose proof (baseline_step_wf g (OpEvaluate w now) Hwf) as Hwf'. cbn [baseline_step] in Hwf'.
  destruct (evaluate_ready_window g w now) as [g1 [r1|err]] eqn:He; [|done].
  cbn [fst] in Hwf'. apply bind_Some in Hrun as ([g2 rs] & Hrun & Hr).
  cbn [fst snd] in Hr. injection Hr as -> <-.
  destruct (Hacc _ _ eq_refl) as (hooks & e & Hl).
  destruct (evaluate_ready_window_learns g w now hooks e) as (g3 & r3 & Heq & Hle);
    [intros j; by apply baseline_wf_capacity|done|].
  rewrite He in Heq. apply pair_eq_snd in Heq as [H1 H2]. cbn [fst snd] in *.
  injection H2 as ->. subst g3. destruct Hle as (_ & _ & _ & _ & _ & Hi).
  specialize (Hi i). cbv zeta in Hi. unfold learn_subject in Hi.
  cbn [fst] in Hw. rewrite (storms_elevated _ _ _ Hn Hw hooks) in Hi by apply Hl.
  rewrite bool_decide_eq_true_2 in Hi by done. cbn [fst snd] in Hi.
  destruct Hi as (Hs & Hbs & _).
  destruct (IH g1 rs) as (IH1 & IH2 & IH3); [done|by rewrite Hs|by rewrite Hs|done|].
  split_and!; [congruence|cbn; congruence|]. constructor; [|done].
  rewrite Hbs. by apply (storms_elevated _ _ _ Hn Hw hooks), Hl.
Qed.

Lemma storm_does_not_poison_baseline_witness :
  match evaluate_all BaselineExample.trained
          [(BaselineExample.window 91 5000, 91000); (BaselineExample.window 92 6000, 92000)] with
  | Some (g', reports) =>
      bg_series g' !!! (0%fin : subject_index) = bg_series BaselineExample.trained !!! 0%fin ∧
      length reports = 2%nat ∧
      Forall (λ r, bs_state (br_subjects r !!! (0%fin : subject_index)) = BaselineElevated) reports
  | None => False
  end.
Proof.
  assert (is_some (evaluate_all BaselineExample.trained
    [(BaselineExample.window 91 5000, 91000); (BaselineExample.window 92 6000, 92000)]) = true)
    as Hok by (vm_compute; reflexivity).
  destruct (evaluate_all _ _) as [[g' reports]|] eqn:He; [|discriminate Hok].
  apply (storm_does_not_poison_baseline BaselineExample.trained
    [(BaselineExample.window 91 5000, 91000); (BaselineExample.window 92 6000, 92000)]
    g' reports 0%fin); [| | |exact He].
  - apply baseline_engine_reachable.
  - apply Nat.leb_le. vm_compute. reflexivity.
  - repeat constructor; eexists _, _, _;
      (split; [reflexivity|split; [vm_compute; reflexivity|split; [vm_compute; reflexivity|]]]);
      vm_compute; intuition discriminate.
Defined.

(** ** The summary of a valid report *)

Lemma baseline_subject_index_fixed :
  Forall (λ k, baseline_subject_index (hook_for_index k) (subject_for_index k) = Some k) (seq 0 16).
Proof. by vm_compute; repeat constructor. Qed.

Definition ordered_from (k : nat) (l : list BaselineSubjectReport) : Prop :=
  ∀ j s, l !! j = Some s →
    bs_hook s = hook_for_index (k + j) ∧ bs_subject s = subject_for_index (k + j).

Lemma elevated_order_fixed k m :
  (k < 16)%nat →
  elevated_order (mkBaselineElevatedIdentifier (hook_for_index k) (subject_for_index k) m) =
    Some (k * 2 + match m with MetricPackets => 0 | MetricBytes => 1 end)%nat.
Proof.
  intros Hk. unfold elevated_order. cbn [el_hook el_subject el_metric].
  pose proof baseline_subject_index_fixed as H. rewrite Forall_forall in H.
  rewrite (H k); [done|]. apply elem_of_seq. lia.
Qed.

Definition below (bound : nat) (previous : option nat) : Prop :=
  match previous with None => True | Some p => (p < bound)%nat end.

Lemma elevated_check_one k m previous :
  (k < 16)%nat → below (k * 2 + match m with MetricPackets => 0 | MetricBytes => 1 end) previous →
  elevated_check previous
    (mkBaselineElevatedIdentifier (hook_for_index k) (subject_for_index k) m) =
  Ok (Some (k * 2 + match m with MetricPackets => 0 | MetricBytes => 1 end)%nat).
Proof.
  intros Hk Hb. unfold elevated_check. rewrite elevated_order_fixed by done.
  destruct previous as [p|]; cbn in *; [|done].
  destruct (Nat.leb_spec (k * 2 + match m with MetricPackets => 0 | MetricBytes => 1 end) p);
    [lia|done].
Qed.

Lemma elevated_identifiers_check k s previous :
  (k < 16)%nat → bs_hook s = hook_for_index k → bs_subject s = subject_for_index k →
  below (k * 2) previous →
  ∃ p, try_fold elevated_check previous (elevated_identifiers s) = Ok p ∧ below (k * 2 + 2) p.
Proof.
  intros Hk Hh Hs Hb. unfold elevated_identifiers. rewrite Hh, Hs.
  destruct (is_elevated (bs_packets s)), (is_elevated (bs_bytes s)); cbn [app try_fold];
    repeat (rewrite elevated_check_one by
      (try lia; destruct previous; cbn in *; lia); cbn [mbind result_bind]);
    eexists; split; try reflexivity; cbn; try lia.
  destruct previous; cbn in *; [lia|done].
Qed.

Lemma elevated_fold_check l k previous :
  (k + length l ≤ 16)%nat → ordered_from k l → below (k * 2) previous →
  ∃ p, try_fold elevated_check previous (flat_map elevated_identifiers l) = Ok p.
Proof.
  revert k previous. induction l as [|s l IH]; intros k previous Hlen Hord Hb; [by eexists|].
  cbn [flat_map]. rewrite try_fold_app. cbn [length] in Hlen.
  destruct (Hord 0%nat s eq_refl) as [Hh Hs]. rewrite Nat.add_0_r in Hh, Hs.
  destruct (elevated_identifiers_check k s previous) as (p & -> & Hp); [lia|done..|].
  cbn [mbind result_bind]. apply (IH (S k)); [lia| |].
  - intros j s' Hj. destruct (Hord (S j) s' Hj). by rewrite Nat.add_succ_r in *.
  - by replace (S k * 2)%nat with (k * 2 + 2)%nat by lia.
Qed.

Lemma elevated_foldl acc l :
  foldl (λ elevated subject, elevated ++ elevated_identifiers subject) acc l =
  acc ++ flat_map elevated_identifiers l.
Proof.
  revert acc. induction l as [|s l IH]; intros acc; cbn; [by rewrite app_nil_r|].
  by rewrite IH, app_assoc.
Qed.

Lemma elevated_identifiers_length l :
  length (flat_map elevated_identifiers l) =
  length (List.filter is_elevated (flat_map (λ s, [bs_packets s; bs_bytes s]) l)).
Proof.
  induction l as [|s l IH]; [done|]. cbn [flat_map app List.filter].
  rewrite length_app, IH. unfold elevated_identifiers.
  by destruct (is_elevated (bs_packets s)), (is_elevated (bs_bytes s)).
Qed.

Lemma report_validate_subjects r :
  BaselineReport_validate r = Ok tt →
  br_elevated_metric_count r = count_elevated (br_subjects r) ∧
  ∀ i : subject_index,
    bs_hook (br_subjects r !!! i) = hook_for_index i ∧
    bs_subject (br_subjects r !!! i) = subject_for_index i ∧
    bs_sample_count (br_subjects r !!! i) ≤ 300.
Proof.
  unfold BaselineReport_validate. intros H. inv_ok. destruct a.
  apply negb_false_iff, Z.eqb_eq in Hguard2. split; [done|]. intros i.
  pose proof (proj1 (try_for_each_enumerate subject_report_validate (br_subjects r)) Ha i) as Hi.
  unfold subject_report_validate in Hi. inv_ok. boolify. split_and!; try done.
  unfold BASELINE_CAPACITY in *. lia.
Qed.

(** The summary of a report that satisfies the report contract satisfies
    the summary contract: the elevated identifiers number exactly the elevated
    metrics, at most 32, all name fixed subjects, and follow the fixed order
    strictly. *)
Theorem summary_of_valid_report r :
  BaselineReport_validate r = Ok tt →
  BaselineSummary_validate (BaselineSummary_from_report r) = Ok tt.
Proof.
  intros Hv. destruct (report_validate_subjects r Hv) as [Hel Hs].
  pose proof (count_elevated_range (br_subjects r)) as Hrange.
  unfold BaselineSummary_validate, BaselineSummary_from_report.
  cbn [bu_elevated bu_elevated_metric_count bu_subject_sample_counts].
  rewrite elevated_foldl. cbn [app]. rewrite elevated_identifiers_length, Hel.
  unfold count_elevated in Hrange |- *. rewrite Z.eqb_refl. cbn [negb].
  destruct (Nat.ltb_spec BASELINE_METRIC_COUNT
    (length (List.filter is_elevated (flat_map (λ s, [bs_packets s; bs_bytes s])
      (vec_to_list (br_subjects r)))))); [unfold BASELINE_METRIC_COUNT in *; lia|].
  rewrite (proj2 (try_for_each_enumerate sample_count_check _)).
  - cbn [mbind result_bind].
    destruct (elevated_fold_check (vec_to_list (br_subjects r)) 0 None) as [p Hp].
    + rewrite length_vec_to_list. unfold BASELINE_SUBJECT_COUNT. lia.
    + intros j s Hj. apply vlookup_lookup' in Hj as [Hlt <-].
      destruct (Hs (nat_to_fin Hlt)) as (? & ? & _). rewrite fin_to_nat_to_fin in *. done.
    + done.
    + by rewrite Hp.
  - intros i. rewrite lookup_fun_to_vec. unfold sample_count_check. cbn [sc_hook sc_subject sc_sample_count].
    destruct (Hs i) as (-> & -> & Hc). rewrite !bool_decide_eq_true_2 by done. cbn [negb orb].
    destruct (Z.ltb_spec (Z.of_nat BASELINE_CAPACITY) (bs_sample_count (br_subjects r !!! i)));
      [unfold BASELINE_CAPACITY in *; lia|done].
Qed.

Lemma summary_of_valid_report_witness :
  BaselineSummary_validate (BaselineSummary_from_report (bg_cached
    (baseline_step BaselineExample.trained
      (OpEvaluate (BaselineExample.window 91 5000) 91000)))) = Ok tt.
Proof.
  apply (summary_of_valid_report (bg_cached
    (baseline_step BaselineExample.trained
      (OpEvaluate (BaselineExample.window 91 5000) 91000)))).
  vm_compute. reflexivity.
Defined.
