(* ===== verification/Fingerprint.v ===== *)
(** Fingerprint reports of [l2-loop-core] ([fingerprint.rs]): the aggregation
    of one scan of the fingerprint map into relations (the same frame content
    seen on ingress, on egress or on both), their counts and ratios. *)
From S2P Require Import Prelude Domain Packet FrameHash.

Definition FINGERPRINT_CAPACITY : Z := 8192.

Record FingerprintEvidence : Type := mkFingerprintEvidence {
  fe_key : FingerprintKey;
  fe_value : FingerprintValue;
}.

Inductive FingerprintState : Type := FingerprintEmpty | FingerprintObserved | FingerprintUnavailable.

#[export] Instance FingerprintState_eq_dec : EqDecision FingerprintState.
Proof. solve_decision. Defined.

Record FingerprintCounters : Type := mkFingerprintCounters {
  fc_packets : Z;
  fc_bytes : Z;
}.

#[export] Instance FingerprintCounters_eq_dec : EqDecision FingerprintCounters.
Proof. solve_decision. Defined.

Definition FingerprintCounters_default : FingerprintCounters := mkFingerprintCounters 0 0.

Definition FingerprintCounters_checked_add (self : FingerprintCounters) (packets bytes : Z)
    : result DomainError FingerprintCounters :=
  packets ← ok_or (checked_add U64_MAX (fc_packets self) packets)
    (InvalidObservation "fingerprint packet aggregate overflow");
  bytes ← ok_or (checked_add U64_MAX (fc_bytes self) bytes)
    (InvalidObservation "fingerprint byte aggregate overflow");
  Ok (mkFingerprintCounters packets bytes).

Record FingerprintReport : Type := mkFingerprintReport {
  fr_state : FingerprintState;
  fr_capacity : Z;
  fr_sample_shift : Z;
  fr_captured_entry_count : Z;
  fr_relation_count : Z;
  fr_ingress_only_relation_count : Z;
  fr_egress_only_relation_count : Z;
  fr_correlated_relation_count : Z;
  fr_ingress_first_relation_count : Z;
  fr_egress_first_relation_count : Z;
  fr_simultaneous_relation_count : Z;
  fr_repeated_relation_count : Z;
  fr_ingress : FingerprintCounters;
  fr_egress : FingerprintCounters;
  fr_maximum_packet_ratio_milli : option Z;
  fr_maximum_byte_ratio_milli : option Z;
  fr_last_error_code : option string;
}.

Definition FingerprintReport_empty : FingerprintReport :=
  mkFingerprintReport FingerprintEmpty (as_u16 FINGERPRINT_CAPACITY) FINGERPRINT_SAMPLE_SHIFT
    0 0 0 0 0 0 0 0 0 (mkFingerprintCounters 0 0) (mkFingerprintCounters 0 0) None None None.

(** The stable error codes: 1 to 64 upper-case letters, digits or underscores. *)
Definition error_code_ok (code : string) : bool :=
  negb (bool_decide (code = ""%string) || (64 <? String.length code)%nat
        || negb (forallb (λ byte, is_ascii_uppercase byte || is_ascii_digit byte
                                  || (ascii_code byte =? 95)) (string_bytes code))).

Definition FingerprintReport_unavailable (code : string) : result DomainError FingerprintReport :=
  if negb (error_code_ok code)
  then Err (InvalidObservation "fingerprint error code is invalid")
  else
    let e := FingerprintReport_empty in
    Ok (mkFingerprintReport FingerprintUnavailable (fr_capacity e) (fr_sample_shift e)
      (fr_captured_entry_count e) (fr_relation_count e) (fr_ingress_only_relation_count e)
      (fr_egress_only_relation_count e) (fr_correlated_relation_count e)
      (fr_ingress_first_relation_count e) (fr_egress_first_relation_count e)
      (fr_simultaneous_relation_count e) (fr_repeated_relation_count e)
      (fr_ingress e) (fr_egress e) (fr_maximum_packet_ratio_milli e)
      (fr_maximum_byte_ratio_milli e) (Some code)).

(** ** Keys and relations *)
Record RelationKey : Type := mkRelationKey {
  rk_interface_generation : Z;
  rk_fingerprint : Z;
  rk_ifindex : Z;
  rk_outer_vlan_id : Z;
  rk_ether_type : Z;
  rk_frame_len : Z;
  rk_vlan_depth : Z;
  rk_protocol : Z;
  rk_subtype : Z;
}.

#[export] Instance RelationKey_eq_dec : EqDecision RelationKey.
Proof. solve_decision. Defined.

(** The fields in declaration order, which is the order of the derived [Ord]. *)
Definition relation_fields (k : RelationKey) : list Z :=
  [rk_interface_generation k; rk_fingerprint k; rk_ifindex k; rk_outer_vlan_id k;
   rk_ether_type k; rk_frame_len k; rk_vlan_depth k; rk_protocol k; rk_subtype k].

#[export] Instance RelationKey_countable : Countable RelationKey.
Proof.
  refine (inj_countable relation_fields
    (λ l, match l with
          | [a; b; c; d; e; f; g; h; i] => Some (mkRelationKey a b c d e f g h i)
          | _ => None
          end) _).
  by intros [].
Defined.

Definition RelationKey_from (key : FingerprintKey) : RelationKey :=
  mkRelationKey (fk_interface_generation key) (fk_fingerprint key) (fk_ifindex key)
    (fk_outer_vlan_id key) (fk_ether_type key) (fk_frame_len key) (fk_vlan_depth key)
    (fk_protocol key) (fk_subtype key).

Record ExactKey : Type := mkExactKey {
  ek_relation : RelationKey;
  ek_direction : Z;
}.

#[export] Instance ExactKey_eq_dec : EqDecision ExactKey.
Proof. solve_decision. Defined.

Definition exact_fields (k : ExactKey) : list Z :=
  relation_fields (ek_relation k) ++ [ek_direction k].

#[export] Instance ExactKey_countable : Countable ExactKey.
Proof.
  refine (inj_countable' (λ k, (ek_relation k, ek_direction k)) (λ p, mkExactKey p.1 p.2) _).
  by intros [].
Defined.

Definition ExactKey_from (key : FingerprintKey) : ExactKey :=
  mkExactKey (RelationKey_from key) (fk_direction key).

Record Side : Type := mkSide {
  sd_first_seen_ns : Z;
  sd_counters : FingerprintCounters;
}.

Record Relation : Type := mkRelation {
  rl_ingress : option Side;
  rl_egress : option Side;
}.

Definition Relation_default : Relation := mkRelation None None.

(** ** Evidence *)
Definition validate_evidence (evidence : FingerprintEvidence) (ifindex generation : Z)
    : result DomainError unit :=
  let key := fe_key evidence in
  let value := fe_value evidence in
  let valid_vlan := (fk_outer_vlan_id key =? NO_VLAN) || (fk_outer_vlan_id key <=? 4094) in
  if negb (fk_interface_generation key =? generation)
     || negb (fk_ifindex key =? ifindex)
     || negb ((fk_direction key =? direction.INGRESS) || (fk_direction key =? direction.EGRESS))
     || negb valid_vlan
     || (2 <? fk_vlan_depth key)
     || negb (bool_decide (fk_reserved key = [# 0; 0]))
     || negb (bool_decide (fv_reserved value = [# 0; 0; 0; 0]))
     || (fv_packets value =? 0)
     || (fv_bytes value <? fv_packets value)
     || (fv_last_seen_ns value <? fv_first_seen_ns value)
  then Err (InvalidObservation "fingerprint evidence shape is invalid")
  else Ok tt.

Definition count (value : nat) : result DomainError Z :=
  ok_or (try_from_wide U16_MAX (Z.of_nat value))
    (InvalidObservation "fingerprint evidence count is not representable").

Definition increment (value : Z) : result DomainError Z :=
  ok_or (checked_add U16_MAX value 1) (InvalidObservation "fingerprint relation count overflow").

(** [u64::try_from((larger * 1000) / smaller).unwrap_or(u64::MAX)], or
    [u64::MAX] for a zero denominator. *)
Definition saturated_ratio_milli (numerator denominator : Z) : Z :=
  if denominator =? 0 then U64_MAX
  else default U64_MAX (try_from_wide U64_MAX ((numerator * 1000) / denominator)).

Definition maximize_ratio (maximum : option Z) (left right : Z) : option Z :=
  let larger := Z.max left right in
  let smaller := Z.min left right in
  let ratio := saturated_ratio_milli larger smaller in
  Some (Z.max (default 0 maximum) ratio).

(** ** Building a report *)
Definition with_counts (self : FingerprintReport)
    (ingress_only egress_only correlated ingress_first egress_first simultaneous repeated : Z)
    (packet_ratio byte_ratio : option Z) : FingerprintReport :=
  mkFingerprintReport (fr_state self) (fr_capacity self) (fr_sample_shift self)
    (fr_captured_entry_count self) (fr_relation_count self)
    ingress_only egress_only correlated ingress_first egress_first simultaneous repeated
    (fr_ingress self) (fr_egress self) packet_ratio byte_ratio (fr_last_error_code self).

Definition side_repeats (side : option Side) : bool :=
  is_some_and side (λ side, 1 <? fc_packets (sd_counters side)).

Definition accumulate_relation (self : FingerprintReport) (relation : Relation)
    : result DomainError FingerprintReport :=
  repeated ←
    (if side_repeats (rl_ingress relation) || side_repeats (rl_egress relation)
     then increment (fr_repeated_relation_count self)
     else Ok (fr_repeated_relation_count self));
  match rl_ingress relation, rl_egress relation with
  | Some _, None =>
      n ← increment (fr_ingress_only_relation_count self);
      Ok (with_counts self n (fr_egress_only_relation_count self)
        (fr_correlated_relation_count self) (fr_ingress_first_relation_count self)
        (fr_egress_first_relation_count self) (fr_simultaneous_relation_count self) repeated
        (fr_maximum_packet_ratio_milli self) (fr_maximum_byte_ratio_milli self))
  | None, Some _ =>
      n ← increment (fr_egress_only_relation_count self);
      Ok (with_counts self (fr_ingress_only_relation_count self) n
        (fr_correlated_relation_count self) (fr_ingress_first_relation_count self)
        (fr_egress_first_relation_count self) (fr_simultaneous_relation_count self) repeated
        (fr_maximum_packet_ratio_milli self) (fr_maximum_byte_ratio_milli self))
  | Some ingress, Some egress =>
      correlated ← increment (fr_correlated_relation_count self);
      firsts ←
        match sd_first_seen_ns ingress ?= sd_first_seen_ns egress with
        | Lt =>
            n ← increment (fr_ingress_first_relation_count self);
            Ok (n, fr_egress_first_relation_count self, fr_simultaneous_relation_count self)
        | Gt =>
            n ← increment (fr_egress_first_relation_count self);
            Ok (fr_ingress_first_relation_count self, n, fr_simultaneous_relation_count self)
        | Eq =>
            n ← increment (fr_simultaneous_relation_count self);
            Ok (fr_ingress_first_relation_count self, fr_egress_first_relation_count self, n)
        end;
      Ok (with_counts self (fr_ingress_only_relation_count self)
        (fr_egress_only_relation_count self) correlated firsts.1.1 firsts.1.2 firsts.2 repeated
        (maximize_ratio (fr_maximum_packet_ratio_milli self)
          (fc_packets (sd_counters ingress)) (fc_packets (sd_counters egress)))
        (maximize_ratio (fr_maximum_byte_ratio_milli self)
          (fc_bytes (sd_counters ingress)) (fc_bytes (sd_counters egress))))
  | None, None => Err (InvalidObservation "fingerprint relation has no evidence")
  end.

(** The variables of the ingestion loop of [build]. *)
Record BuildState : Type := mkBuildState {
  bd_ingress : FingerprintCounters;
  bd_egress : FingerprintCounters;
  bd_groups : gmap RelationKey Relation;
  bd_exact : gset ExactKey;
}.

Definition BuildState_new : BuildState :=
  mkBuildState FingerprintCounters_default FingerprintCounters_default ∅ ∅.

(** [groups.entry(key).or_default()]. *)
Definition entry_or_default (groups : gmap RelationKey Relation) (k : RelationKey) : Relation :=
  default Relation_default (groups !! k).

(** The message of the [unreachable!] arm; [ingest_never_unreachable] shows
    that it is never returned. *)
Definition UNREACHABLE_DIRECTION : string := "unreachable: direction was validated".

(** One iteration of the ingestion loop of [build]. *)
Definition ingest (ifindex generation : Z) (st : BuildState) (item : FingerprintEvidence)
    : result DomainError BuildState :=
  _ ← validate_evidence item ifindex generation;
  let key := fe_key item in
  let value := fe_value item in
  let relation_key := RelationKey_from key in
  let exact_key := mkExactKey relation_key (fk_direction key) in
  if bool_decide (exact_key ∈ bd_exact st)
  then Err (InvalidObservation "duplicate fingerprint evidence key")
  else
    let exact := {[ exact_key ]} ∪ bd_exact st in
    let counters := mkFingerprintCounters (fv_packets value) (fv_bytes value) in
    let side := mkSide (fv_first_seen_ns value) counters in
    let relation := entry_or_default (bd_groups st) relation_key in
    if fk_direction key =? direction.INGRESS then
      ingress ← FingerprintCounters_checked_add (bd_ingress st) (fv_packets value) (fv_bytes value);
      Ok (mkBuildState ingress (bd_egress st)
        (<[relation_key := mkRelation (Some side) (rl_egress relation)]> (bd_groups st)) exact)
    else if fk_direction key =? direction.EGRESS then
      egress ← FingerprintCounters_checked_add (bd_egress st) (fv_packets value) (fv_bytes value);
      Ok (mkBuildState (bd_ingress st) egress
        (<[relation_key := mkRelation (rl_ingress relation) (Some side)]> (bd_groups st)) exact)
    else Err (InvalidObservation UNREACHABLE_DIRECTION).

Definition FingerprintReport_build (ifindex generation : Z) (evidence : list FingerprintEvidence)
    : result DomainError FingerprintReport :=
  if (ifindex =? 0) || (generation =? 0)
  then Err (InvalidObservation "fingerprint identity must be non-zero")
  else if FINGERPRINT_CAPACITY <? Z.of_nat (length evidence)
  then Err (InvalidObservation "fingerprint evidence exceeds fixed capacity")
  else
    captured_entry_count ← count (length evidence);
    st ← try_fold (ingest ifindex generation) BuildState_new evidence;
    relation_count ← count (size (bd_groups st));
    let e := FingerprintReport_empty in
    let report := mkFingerprintReport (fr_state e) (fr_capacity e) (fr_sample_shift e)
      captured_entry_count relation_count (fr_ingress_only_relation_count e)
      (fr_egress_only_relation_count e) (fr_correlated_relation_count e)
      (fr_ingress_first_relation_count e) (fr_egress_first_relation_count e)
      (fr_simultaneous_relation_count e) (fr_repeated_relation_count e)
      (bd_ingress st) (bd_egress st) (fr_maximum_packet_ratio_milli e)
      (fr_maximum_byte_ratio_milli e) (fr_last_error_code e) in
    report ← try_fold accumulate_relation report (btree_values relation_fields (bd_groups st));
    Ok (mkFingerprintReport
      (if negb (fr_captured_entry_count report =? 0) then FingerprintObserved else fr_state report)
      (fr_capacity report) (fr_sample_shift report) (fr_captured_entry_count report)
      (fr_relation_count report) (fr_ingress_only_relation_count report)
      (fr_egress_only_relation_count report) (fr_correlated_relation_count report)
      (fr_ingress_first_relation_count report) (fr_egress_first_relation_count report)
      (fr_simultaneous_relation_count report) (fr_repeated_relation_count report)
      (fr_ingress report) (fr_egress report) (fr_maximum_packet_ratio_milli report)
      (fr_maximum_byte_ratio_milli report) (fr_last_error_code report)).

(** ** The summary *)
Record FingerprintSummary : Type := mkFingerprintSummary {
  fs_state : FingerprintState;
  fs_captured_entry_count : Z;
  fs_relation_count : Z;
  fs_ingress_only_relation_count : Z;
  fs_egress_only_relation_count : Z;
  fs_correlated_relation_count : Z;
  fs_ingress_first_relation_count : Z;
  fs_egress_first_relation_count : Z;
  fs_simultaneous_relation_count : Z;
  fs_repeated_relation_count : Z;
  fs_ingress : FingerprintCounters;
  fs_egress : FingerprintCounters;
  fs_maximum_packet_ratio_milli : option Z;
  fs_maximum_byte_ratio_milli : option Z;
  fs_last_error_code : option string;
}.

Definition FingerprintSummary_from (report : FingerprintReport) : FingerprintSummary :=
  mkFingerprintSummary (fr_state report) (fr_captured_entry_count report)
    (fr_relation_count report) (fr_ingress_only_relation_count report)
    (fr_egress_only_relation_count report) (fr_correlated_relation_count report)
    (fr_ingress_first_relation_count report) (fr_egress_first_relation_count report)
    (fr_simultaneous_relation_count report) (fr_repeated_relation_count report)
    (fr_ingress report) (fr_egress report) (fr_maximum_packet_ratio_milli report)
    (fr_maximum_byte_ratio_milli report) (fr_last_error_code report).

(** ** Specification: what a report says about a scan

    A relation is a set of records that agree on everything but the direction.
    The specification looks each side up in the scan itself. *)
Definition is_ingress (e : FingerprintEvidence) : bool :=
  fk_direction (fe_key e) =? direction.INGRESS.
Definition is_egress (e : FingerprintEvidence) : bool :=
  fk_direction (fe_key e) =? direction.EGRESS.
Definition relation_key_of (e : FingerprintEvidence) : RelationKey := RelationKey_from (fe_key e).
Definition exact_of (e : FingerprintEvidence) : ExactKey := ExactKey_from (fe_key e).
Definition side_of (e : FingerprintEvidence) : Side :=
  mkSide (fv_first_seen_ns (fe_value e))
    (mkFingerprintCounters (fv_packets (fe_value e)) (fv_bytes (fe_value e))).

Definition find_side (dir : FingerprintEvidence → bool) (ev : list FingerprintEvidence)
    (k : RelationKey) : option Side :=
  side_of <$> List.find (λ e, dir e && bool_decide (relation_key_of e = k)) ev.

Definition relation_of (ev : list FingerprintEvidence) (k : RelationKey) : Relation :=
  mkRelation (find_side is_ingress ev k) (find_side is_egress ev k).

Definition relation_keys (ev : list FingerprintEvidence) : list RelationKey :=
  remove_dups (relation_key_of <$> ev).
Definition relations_of (ev : list FingerprintEvidence) : list Relation :=
  relation_of ev <$> relation_keys ev.

Definition traffic (dir : FingerprintEvidence → bool) (ev : list FingerprintEvidence)
    : FingerprintCounters :=
  mkFingerprintCounters
    (sum_of (λ e, if dir e then fv_packets (fe_value e) else 0) ev)
    (sum_of (λ e, if dir e then fv_bytes (fe_value e) else 0) ev).

Definition ingress_only (r : Relation) : bool := is_some (rl_ingress r) && is_none (rl_egress r).
Definition egress_only (r : Relation) : bool := is_none (rl_ingress r) && is_some (rl_egress r).
Definition correlated (r : Relation) : bool := is_some (rl_ingress r) && is_some (rl_egress r).
Definition first_seen_is (c : comparison) (r : Relation) : bool :=
  match rl_ingress r, rl_egress r with
  | Some i, Some e => bool_decide ((sd_first_seen_ns i ?= sd_first_seen_ns e) = c)
  | _, _ => false
  end.
Definition repeats (r : Relation) : bool :=
  side_repeats (rl_ingress r) || side_repeats (rl_egress r).

(** The imbalance of the two sides of a relation, in thousandths. *)
Definition relation_ratio (field : FingerprintCounters → Z) (r : Relation) : option Z :=
  match rl_ingress r, rl_egress r with
  | Some i, Some e =>
      let a := field (sd_counters i) in
      let b := field (sd_counters e) in
      Some (saturated_ratio_milli (Z.max a b) (Z.min a b))
  | _, _ => None
  end.

Definition max_option (l : list Z) : option Z :=
  match l with [] => None | _ => Some (foldr Z.max 0 l) end.

Definition max_ratio (field : FingerprintCounters → Z) (rs : list Relation) : option Z :=
  max_option (omap (relation_ratio field) rs).

Definition counted (base : FingerprintReport) (rs : list Relation) : FingerprintReport :=
  with_counts base (count_if ingress_only rs) (count_if egress_only rs) (count_if correlated rs)
    (count_if (first_seen_is Lt) rs) (count_if (first_seen_is Gt) rs)
    (count_if (first_seen_is Eq) rs) (count_if repeats rs)
    (max_ratio fc_packets rs) (max_ratio fc_bytes rs).

Definition report_base (ev : list FingerprintEvidence) (state : FingerprintState)
    : FingerprintReport :=
  mkFingerprintReport state FINGERPRINT_CAPACITY FINGERPRINT_SAMPLE_SHIFT
    (Z.of_nat (length ev)) (Z.of_nat (length (relation_keys ev))) 0 0 0 0 0 0 0
    (traffic is_ingress ev) (traffic is_egress ev) None None None.

Definition report_spec (ev : list FingerprintEvidence) : FingerprintReport :=
  counted (report_base ev (if (length ev =? 0)%nat then FingerprintEmpty else FingerprintObserved))
    (relations_of ev).

Definition evidence_u64 (e : FingerprintEvidence) : Prop :=
  is_u64 (fv_packets (fe_value e)) ∧ is_u64 (fv_bytes (fe_value e)).

Definition counters_fit (c : FingerprintCounters) : Prop :=
  fc_packets c ≤ U64_MAX ∧ fc_bytes c ≤ U64_MAX.

Definition scan_ok (ifindex generation : Z) (ev : list FingerprintEvidence) : Prop :=
  ifindex ≠ 0 ∧ generation ≠ 0 ∧ Z.of_nat (length ev) ≤ FINGERPRINT_CAPACITY ∧
  Forall (λ e, validate_evidence e ifindex generation = Ok tt) ev ∧
  NoDup (exact_of <$> ev) ∧
  counters_fit (traffic is_ingress ev) ∧ counters_fit (traffic is_egress ev).

(** ** Ingestion computes the specified relations *)
Lemma validate_evidence_direction e ifindex generation :
  validate_evidence e ifindex generation = Ok tt →
  (is_ingress e = true ∧ is_egress e = false) ∨ (is_ingress e = false ∧ is_egress e = true).
Proof.
  unfold validate_evidence, is_ingress, is_egress, direction.INGRESS, direction.EGRESS.
  intros H. inv_ok. boolify. lia.
Qed.

Lemma same_exact e e' :
  relation_key_of e = relation_key_of e' → fk_direction (fe_key e) = fk_direction (fe_key e') →
  exact_of e = exact_of e'.
Proof. unfold exact_of, ExactKey_from, relation_key_of. congruence. Qed.

Lemma find_side_snoc_other dir ev x k :
  dir x = false ∨ relation_key_of x ≠ k → find_side dir (ev ++ [x]) k = find_side dir ev k.
Proof.
  intros Hx. unfold find_side. rewrite find_app. destruct (List.find _ ev); [done|].
  simpl. destruct (dir x); [|done]. rewrite bool_decide_eq_false_2; [done|naive_solver].
Qed.

Lemma find_side_snoc_new dir d ev x :
  (∀ e, dir e = (fk_direction (fe_key e) =? d)) →
  dir x = true → exact_of x ∉ exact_of <$> ev →
  find_side dir (ev ++ [x]) (relation_key_of x) = Some (side_of x).
Proof.
  intros Hdir Hx Hnew. unfold find_side. rewrite find_app.
  destruct (List.find _ ev) as [e|] eqn:Hf.
  - exfalso. apply find_some in Hf as [Hin He]. apply andb_true_iff in He as [He Hk].
    apply bool_decide_eq_true in Hk. apply Hnew. rewrite Hdir in He, Hx.
    apply list_elem_of_fmap. exists e. split; [|by apply list_elem_of_In].
    apply same_exact; [done|lia].
  - simpl. by rewrite Hx, bool_decide_eq_true_2.
Qed.

Lemma traffic_snoc dir ev x :
  traffic dir (ev ++ [x]) =
    mkFingerprintCounters
      (fc_packets (traffic dir ev) + if dir x then fv_packets (fe_value x) else 0)
      (fc_bytes (traffic dir ev) + if dir x then fv_bytes (fe_value x) else 0).
Proof. unfold traffic. by rewrite !sum_of_snoc. Qed.

Lemma traffic_snoc_other dir ev x : dir x = false → traffic dir (ev ++ [x]) = traffic dir ev.
Proof. intros Hx. rewrite traffic_snoc, Hx, !Z.add_0_r. by destruct (traffic dir ev). Qed.

Lemma FingerprintCounters_checked_add_Ok c p b c' :
  FingerprintCounters_checked_add c p b = Ok c' ↔
  c' = mkFingerprintCounters (fc_packets c + p) (fc_bytes c + b) ∧ counters_fit c'.
Proof.
  unfold FingerprintCounters_checked_add, counters_fit. split.
  - intros H. inv_ok. done.
  - intros [-> [H1 H2]]. cbn [fc_packets fc_bytes] in *.
    by rewrite !checked_add_ok by done.
Qed.

Lemma FingerprintCounters_checked_add_fits c p b :
  counters_fit (mkFingerprintCounters (fc_packets c + p) (fc_bytes c + b)) →
  FingerprintCounters_checked_add c p b =
    Ok (mkFingerprintCounters (fc_packets c + p) (fc_bytes c + b)).
Proof. intros. by apply FingerprintCounters_checked_add_Ok. Qed.

(** A map that holds, for every relation key of the records handled so far, the
    (image of the) relation those records form. *)
Definition grouped {R} (f : Relation → R) (don : list FingerprintEvidence)
    (groups : gmap RelationKey R) : Prop :=
  ∀ k, groups !! k =
    if decide (k ∈ relation_key_of <$> don) then Some (f (relation_of don k)) else None.

Lemma find_side_nil dir don k :
  k ∉ relation_key_of <$> don → find_side dir don k = None.
Proof.
  intros Hk. unfold find_side. destruct (List.find _ don) as [e|] eqn:Hf; [|done].
  exfalso. apply find_some in Hf as [Hin He]. apply andb_true_iff in He as [_ He].
  apply bool_decide_eq_true in He. apply Hk, list_elem_of_fmap. exists e.
  split; [done|by apply list_elem_of_In].
Qed.

Lemma grouped_empty {R} (f : Relation → R) : grouped f [] ∅.
Proof.
  intros k. rewrite decide_False; [apply lookup_empty|]. cbn. apply not_elem_of_nil.
Qed.

Lemma grouped_entry {R} (f : Relation → R) d don groups k :
  d = f Relation_default → grouped f don groups →
  default d (groups !! k) = f (relation_of don k).
Proof.
  intros -> Hg. rewrite Hg. case_decide; [done|]. cbn. unfold relation_of.
  by rewrite !find_side_nil by done.
Qed.

Lemma grouped_snoc {R} (f : Relation → R) don groups x r :
  grouped f don groups → f (relation_of (don ++ [x]) (relation_key_of x)) = r →
  grouped f (don ++ [x]) (<[relation_key_of x := r]> groups).
Proof.
  intros Hg Hr k. rewrite fmap_app. cbn [fmap list_fmap].
  destruct (decide (k = relation_key_of x)) as [->|Hne].
  - rewrite lookup_insert_eq, decide_True; [by rewrite Hr|].
    apply elem_of_app. right. apply list_elem_of_here.
  - rewrite lookup_insert_ne by done. rewrite Hg.
    unfold relation_of. rewrite !find_side_snoc_other by (right; congruence).
    repeat case_decide; try done; exfalso; rewrite elem_of_app, list_elem_of_singleton in *; tauto.
Qed.

(** The relation of a new record: its own side is the record, the other side
    is unchanged. *)
Lemma relation_of_snoc_ingress don x :
  is_ingress x = true → is_egress x = false → exact_of x ∉ exact_of <$> don →
  relation_of (don ++ [x]) (relation_key_of x) =
    mkRelation (Some (side_of x)) (rl_egress (relation_of don (relation_key_of x))).
Proof.
  intros Hi He Hx. unfold relation_of at 1. rewrite (find_side_snoc_new _ direction.INGRESS) by done.
  by rewrite find_side_snoc_other by (by left).
Qed.

Lemma relation_of_snoc_egress don x :
  is_ingress x = false → is_egress x = true → exact_of x ∉ exact_of <$> don →
  relation_of (don ++ [x]) (relation_key_of x) =
    mkRelation (rl_ingress (relation_of don (relation_key_of x))) (Some (side_of x)).
Proof.
  intros Hi He Hx. unfold relation_of at 1.
  rewrite (find_side_snoc_new is_egress direction.EGRESS) by done.
  by rewrite find_side_snoc_other by (by left).
Qed.

(** The values of such a map, in the order of the map, are the relations. *)
Lemma grouped_values {R} (f : Relation → R) ev groups :
  grouped f ev groups → btree_values relation_fields groups ≡ₚ f <$> relations_of ev.
Proof.
  intros Hg. unfold btree_values, relations_of. rewrite btree_iter_Permutation.
  assert (map_to_list groups = (λ k, (k, f (relation_of ev k))) <$> (map_to_list groups).*1) as ->.
  { rewrite <-list_fmap_compose. rewrite <-(list_fmap_id (map_to_list groups)) at 1.
    apply list_fmap_ext. intros i [k r] Hi. cbn. f_equal.
    apply list_elem_of_lookup_2, elem_of_map_to_list in Hi. rewrite Hg in Hi.
    case_decide; naive_solver. }
  rewrite <-!(list_fmap_compose _ _ (_.*1)), <-(list_fmap_compose _ _ (relation_keys ev)).
  apply (Permutation_map (λ k, f (relation_of ev k))).
  unfold relation_keys. apply NoDup_Permutation.
  - apply NoDup_fst_map_to_list.
  - apply NoDup_remove_dups.
  - intros k. rewrite elem_of_remove_dups, list_elem_of_fmap. split.
    + intros ([k' r] & -> & Hk%elem_of_map_to_list). rewrite Hg in Hk. by case_decide.
    + intros Hk. exists (k, f (relation_of ev k)). split; [done|]. apply elem_of_map_to_list.
      by rewrite Hg, decide_True.
Qed.

(** The loop invariant of the ingestion. *)
Definition ingested (don : list FingerprintEvidence) (st : BuildState) : Prop :=
  bd_ingress st = traffic is_ingress don ∧ bd_egress st = traffic is_egress don ∧
  counters_fit (bd_ingress st) ∧ counters_fit (bd_egress st) ∧
  bd_exact st = list_to_set (exact_of <$> don) ∧ NoDup (exact_of <$> don) ∧
  grouped id don (bd_groups st).

Lemma ingested_entry don st k : ingested don st → entry_or_default (bd_groups st) k = relation_of don k.
Proof. intros (_ & _ & _ & _ & _ & _ & Hg). by apply (grouped_entry id). Qed.

(** One iteration: it preserves the invariant, and it succeeds exactly when
    the record is valid, new and does not overflow the totals. *)
Lemma ingest_step ifindex generation don st x st' :
  ingested don st → ingest ifindex generation st x = Ok st' →
  ingested (don ++ [x]) st' ∧ validate_evidence x ifindex generation = Ok tt.
Proof.
  intros HI H. unfold ingest in H. inv_ok. destruct a. split; [|done].
  pose proof HI as (Hi & He & Hfi & Hfe & Hex & Hnd & Hg).
  apply bool_decide_eq_false in Hguard. rewrite Hex in Hguard.
  change (mkExactKey _ _) with (exact_of x) in *.
  rewrite elem_of_list_to_set in Hguard.
  assert (NoDup (exact_of <$> don ++ [x])) as Hnd'.
  { rewrite fmap_app. apply NoDup_app. split_and!; [done| |apply NoDup_singleton].
    intros k Hk ->%list_elem_of_singleton. done. }
  assert ({[exact_of x]} ∪ bd_exact st =@{gset ExactKey} list_to_set (exact_of <$> don ++ [x])) as Hex'.
  { rewrite Hex, fmap_app, list_to_set_app_L. cbn. set_solver. }
  pose proof (ingested_entry don st (relation_key_of x) HI) as Hent.
  destruct (validate_evidence_direction _ _ _ Ha) as [[Hd1 Hd2]|[Hd1 Hd2]];
    unfold is_ingress, is_egress in Hd1, Hd2; rewrite ?Hd1, ?Hd2 in H; inv_ok;
    match goal with H : FingerprintCounters_checked_add _ _ _ = Ok _ |- _ =>
      apply FingerprintCounters_checked_add_Ok in H as [Hc Hfit] end;
    unfold ingested; cbn [bd_ingress bd_egress bd_exact bd_groups].
  - split_and!; try done.
    + by rewrite Hc, Hi, traffic_snoc; unfold is_ingress; rewrite Hd1.
    + by rewrite He, traffic_snoc_other.
    + apply (grouped_snoc id don); [done|].
      change (RelationKey_from _) with (relation_key_of x). unfold id.
      by rewrite relation_of_snoc_ingress, Hent.
  - split_and!; try done.
    + by rewrite Hi, traffic_snoc_other.
    + by rewrite Hc, He, traffic_snoc; unfold is_egress; rewrite Hd2.
    + apply (grouped_snoc id don); [done|].
      change (RelationKey_from _) with (relation_key_of x). unfold id.
      by rewrite relation_of_snoc_egress, Hent.
Qed.

Lemma ingest_progress ifindex generation don st x :
  ingested don st → validate_evidence x ifindex generation = Ok tt →
  exact_of x ∉ exact_of <$> don →
  counters_fit (traffic is_ingress (don ++ [x])) → counters_fit (traffic is_egress (don ++ [x])) →
  ∃ st', ingest ifindex generation st x = Ok st'.
Proof.
  intros (Hi & He & _ & _ & Hex & _) Hv Hnew Hfi Hfe. unfold ingest. rewrite Hv.
  cbn [mbind result_bind]. change (mkExactKey _ _) with (exact_of x).
  rewrite bool_decide_eq_false_2 by (by rewrite Hex, elem_of_list_to_set).
  destruct (validate_evidence_direction _ _ _ Hv) as [[Hd1 Hd2]|[Hd1 Hd2]];
    pose proof Hd1 as Hd1'; pose proof Hd2 as Hd2';
    unfold is_ingress, is_egress in Hd1, Hd2; rewrite ?Hd1, ?Hd2.
  - rewrite traffic_snoc, Hd1' in Hfi.
    rewrite FingerprintCounters_checked_add_fits by (by rewrite Hi). by eexists.
  - rewrite traffic_snoc, Hd2' in Hfe.
    rewrite FingerprintCounters_checked_add_fits by (by rewrite He). by eexists.
Qed.

Lemma ingested_new : ingested [] BuildState_new.
Proof.
  split_and!; try done; try (cbn; ulia); try constructor.
Qed.

Lemma ingest_all ifindex generation ev st :
  try_fold (ingest ifindex generation) BuildState_new ev = Ok st →
  ingested ev st ∧ Forall (λ e, validate_evidence e ifindex generation = Ok tt) ev.
Proof.
  apply (try_fold_ind _ (λ don st, ingested don st ∧
    Forall (λ e, validate_evidence e ifindex generation = Ok tt) don)).
  - split; [apply ingested_new|constructor].
  - intros don x b b' _ [HI Hv] Hs. apply (ingest_step _ _ don) in Hs as [? ?]; [|done].
    split; [done|]. apply Forall_app; split; [done|]. by repeat constructor.
Qed.

Lemma traffic_prefix dir ev don :
  Forall evidence_u64 ev → don `prefix_of` ev → counters_fit (traffic dir ev) →
  counters_fit (traffic dir don).
Proof.
  intros Hu Hp [H1 H2]. rewrite Forall_forall in Hu.
  split; cbn [traffic fc_packets fc_bytes] in *; etrans; try apply sum_of_prefix; try done;
    intros e He; destruct (Hu e He); destruct (dir e); ulia.
Qed.

Lemma ingest_all_total ifindex generation ev :
  Forall evidence_u64 ev → scan_ok ifindex generation ev →
  ∃ st, try_fold (ingest ifindex generation) BuildState_new ev = Ok st.
Proof.
  intros Hu (_ & _ & _ & Hv & Hnd & Hfi & Hfe).
  destruct (try_fold_total (ingest ifindex generation) ingested BuildState_new ev)
    as (st & ? & _); [apply ingested_new| |by exists st].
  intros don x b Hp HI. destruct (ingest_progress ifindex generation don b x) as [b' Hb'].
  - done.
  - rewrite Forall_forall in Hv. apply Hv. destruct Hp as [k ->].
    apply elem_of_app. left. apply elem_of_app. right. apply list_elem_of_here.
  - destruct Hp as [k ->]. rewrite !fmap_app in Hnd. apply NoDup_app in Hnd as (Hnd & _ & _).
    apply NoDup_app in Hnd as (_ & Hnd & _). intros Hin. eapply Hnd; [done|]. apply list_elem_of_here.
  - by eapply traffic_prefix.
  - by eapply traffic_prefix.
  - exists b'. split; [done|]. by eapply ingest_step.
Qed.

(** The groups, in the order of the map, are the specified relations. *)
Lemma ingested_relations ev st :
  ingested ev st → btree_values relation_fields (bd_groups st) ≡ₚ relations_of ev.
Proof.
  intros (_ & _ & _ & _ & _ & _ & Hg). apply grouped_values in Hg. by rewrite list_fmap_id in Hg.
Qed.

(** ** Accumulation counts the relations *)
Lemma max_option_snoc l x : max_option (l ++ [x]) = Some (Z.max (default 0 (max_option l)) x).
Proof.
  destruct l as [|y l]; [cbn; f_equal; lia|]. cbn [max_option from_option]. unfold id.
  rewrite <-foldr_max_snoc. done.
Qed.

Lemma max_option_Permutation l k : Permutation l k → max_option l = max_option k.
Proof.
  intros Hp. assert (foldr Z.max 0 l = foldr Z.max 0 k) as Hf.
  { induction Hp; simpl; lia. }
  destruct l, k; simpl in *; try done.
  - by apply Permutation_nil_l in Hp.
  - by apply Permutation_nil_r in Hp.
  - by rewrite Hf.
Qed.

Lemma max_ratio_snoc field rs r :
  max_ratio field (rs ++ [r]) =
  match relation_ratio field r with
  | Some q => Some (Z.max (default 0 (max_ratio field rs)) q)
  | None => max_ratio field rs
  end.
Proof.
  unfold max_ratio. rewrite omap_app. cbn [omap list_omap].
  destruct (relation_ratio field r); [apply max_option_snoc|by rewrite app_nil_r].
Qed.

Definition has_side (r : Relation) : Prop := is_some (rl_ingress r) || is_some (rl_egress r) = true.

Lemma increment_ok n : n < 65535 → increment n = Ok (n + 1).
Proof. intros. unfold increment. by rewrite checked_add_ok by ulia. Qed.

Lemma accumulate_step base don r :
  Z.of_nat (length don) < 65535 → has_side r →
  accumulate_relation (counted base don) r = Ok (counted base (don ++ [r])).
Proof.
  intros Hlen Hr. unfold counted. rewrite !count_if_snoc, !max_ratio_snoc.
  assert (∀ p : Relation → bool, count_if p don < 65535) as Hc.
  { intros p. pose proof (count_if_range p don). lia. }
  unfold accumulate_relation, has_side in *. unfold relation_ratio, ingress_only, egress_only,
    correlated, first_seen_is, repeats.
  destruct r as [[i|] [e|]]; cbn [rl_ingress rl_egress is_some is_none andb orb] in *; try done.
  - cbn [with_counts fr_repeated_relation_count fr_correlated_relation_count
      fr_ingress_first_relation_count fr_egress_first_relation_count
      fr_simultaneous_relation_count fr_maximum_packet_ratio_milli fr_maximum_byte_ratio_milli
      fr_ingress_only_relation_count fr_egress_only_relation_count].
    destruct (side_repeats _ || side_repeats _), (sd_first_seen_ns i ?= sd_first_seen_ns e);
      rewrite ?increment_ok by apply Hc; cbn [mbind result_bind];
      rewrite ?increment_ok by apply Hc; cbn [mbind result_bind];
      rewrite ?increment_ok by apply Hc; cbn; rewrite ?Z.add_0_r; reflexivity.
  - cbn [with_counts fr_repeated_relation_count fr_ingress_only_relation_count].
    destruct (side_repeats _ || side_repeats _);
      rewrite ?increment_ok by apply Hc; cbn [mbind result_bind];
      rewrite ?increment_ok by apply Hc; cbn; rewrite ?Z.add_0_r; reflexivity.
  - cbn [with_counts fr_repeated_relation_count fr_egress_only_relation_count].
    destruct (side_repeats _ || side_repeats _);
      rewrite ?increment_ok by apply Hc; cbn [mbind result_bind];
      rewrite ?increment_ok by apply Hc; cbn; rewrite ?Z.add_0_r; reflexivity.
Qed.

Lemma accumulate_all base rs :
  Z.of_nat (length rs) ≤ 65535 → Forall has_side rs → counted base [] = base →
  try_fold accumulate_relation base rs = Ok (counted base rs).
Proof.
  intros Hlen Hs Hbase.
  destruct (try_fold_total accumulate_relation (λ don r, r = counted base don) base rs)
    as (r & Hr & ->); [done| |done].
  intros don x b Hp ->. exists (counted base (don ++ [x])). split; [|done].
  apply accumulate_step.
  - apply prefix_length in Hp. rewrite length_app in Hp. simpl in Hp. lia.
  - rewrite Forall_forall in Hs. apply Hs. destruct Hp as [k ->].
    apply elem_of_app. left. apply elem_of_app. right. apply list_elem_of_here.
Qed.

Lemma counted_Permutation base rs rs' : Permutation rs rs' → counted base rs = counted base rs'.
Proof.
  intros Hp. unfold counted, max_ratio.
  rewrite !(count_if_Permutation _ _ _ Hp).
  assert (∀ f : FingerprintCounters → Z,
    max_option (omap (relation_ratio f) rs) = max_option (omap (relation_ratio f) rs')) as Hm.
  { intros f. apply max_option_Permutation. by rewrite Hp. }
  by rewrite !Hm.
Qed.

Lemma remove_dups_length {A} `{EqDecision A} (l : list A) : (length (remove_dups l) ≤ length l)%nat.
Proof.
  apply submseteq_length, NoDup_submseteq; [apply NoDup_remove_dups|].
  intros x. by rewrite elem_of_remove_dups.
Qed.

Lemma relations_of_length ev : (length (relations_of ev) ≤ length ev)%nat.
Proof.
  unfold relations_of, relation_keys. rewrite length_fmap. etrans; [apply remove_dups_length|].
  by rewrite length_fmap.
Qed.

Lemma find_side_found dir e ev :
  e ∈ ev → dir e = true → is_some (find_side dir ev (relation_key_of e)) = true.
Proof.
  intros Hin Hd. unfold find_side.
  destruct (List.find _ ev) as [x|] eqn:Hf; [done|].
  apply list_elem_of_In in Hin. eapply find_none in Hf; [|exact Hin]. cbn in Hf.
  by rewrite Hd, bool_decide_eq_true_2 in Hf.
Qed.

Lemma relations_of_sided ifindex generation ev :
  Forall (λ e, validate_evidence e ifindex generation = Ok tt) ev → Forall has_side (relations_of ev).
Proof.
  intros Hv. rewrite Forall_forall in Hv. unfold relations_of, relation_keys.
  apply Forall_fmap, Forall_forall. intros k Hk. rewrite elem_of_remove_dups in Hk.
  apply list_elem_of_fmap in Hk as (e & -> & Hin). unfold compose, has_side, relation_of.
  cbn [rl_ingress rl_egress].
  destruct (validate_evidence_direction e _ _ (Hv e Hin)) as [[? ?]|[? ?]].
  - by rewrite (find_side_found is_ingress e ev).
  - rewrite (find_side_found is_egress e ev) by done. apply orb_true_r.
Qed.

Lemma build_after_ingest ifindex generation ev st :
  ifindex ≠ 0 → generation ≠ 0 → Z.of_nat (length ev) ≤ FINGERPRINT_CAPACITY →
  try_fold (ingest ifindex generation) BuildState_new ev = Ok st →
  FingerprintReport_build ifindex generation ev = Ok (report_spec ev).
Proof.
  intros Hi Hg Hl Hst. unfold FingerprintReport_build.
  rewrite (proj2 (Z.eqb_neq ifindex 0)), (proj2 (Z.eqb_neq generation 0)) by done. cbn [orb].
  rewrite (proj2 (Z.ltb_ge _ _)) by done. unfold FINGERPRINT_CAPACITY in Hl.
  unfold count. rewrite try_from_wide_ok by ulia. cbn [ok_or mbind result_bind].
  rewrite Hst. cbn [mbind result_bind].
  apply ingest_all in Hst as [HI Hv]. pose proof (ingested_relations ev st HI) as Hp.
  assert (size (bd_groups st) = length (relation_keys ev)) as ->.
  { apply Permutation_length in Hp. unfold relations_of, btree_values in Hp.
    rewrite !length_fmap, btree_iter_Permutation, length_map_to_list in Hp. done. }
  pose proof (relations_of_length ev) as Hrl.
  assert (length (relations_of ev) = length (relation_keys ev)) as Hrk by apply length_fmap.
  rewrite try_from_wide_ok by ulia. cbn [ok_or mbind result_bind].
  destruct HI as (Hin & Heg & _). rewrite Hin, Heg.
  rewrite (accumulate_all _ (btree_values relation_fields (bd_groups st))).
  - rewrite (counted_Permutation _ _ _ Hp). cbn [mbind result_bind]. unfold report_spec.
    f_equal. unfold counted, with_counts, report_base. cbn. f_equal. by destruct ev.
  - rewrite Hp. lia.
  - rewrite Hp. by eapply relations_of_sided.
  - reflexivity.
Qed.

Lemma fingerprint_build_iff ifindex generation ev r :
  Forall evidence_u64 ev →
  FingerprintReport_build ifindex generation ev = Ok r ↔
  scan_ok ifindex generation ev ∧ r = report_spec ev.
Proof.
  intros Hu. split.
  - intros H. pose proof H as Hb. unfold FingerprintReport_build in H. inv_ok.
    apply orb_false_iff in Hguard as [Hi0%Z.eqb_neq Hg0%Z.eqb_neq].
    pose proof (ingest_all _ _ _ _ Ha0) as [HI Hv]. apply Z.ltb_ge in Hguard0.
    rewrite (build_after_ingest ifindex generation ev a0) in Hb by done.
    split; [|congruence]. destruct HI as (Hi & He & Hfi & Hfe & _ & Hnd & _).
    rewrite Hi in Hfi. rewrite He in Hfe. by split_and!.
  - intros [Hok ->]. destruct (ingest_all_total ifindex generation ev Hu Hok) as [st Hst].
    destruct Hok as (? & ? & ? & _). by eapply build_after_ingest.
Qed.

(** C35: a scan is accepted exactly when the interface identity is non-zero, the
    scan holds at most 8192 records, all of the expected shape and with
    pairwise distinct keys, and no total overflows 64 bits; the report is then
    exactly the one the specification computes from the scan alone. *)
Theorem fingerprint_build_correct ifindex generation ev r :
  Forall evidence_u64 ev →
  FingerprintReport_build ifindex generation ev = Ok r ↔
  scan_ok ifindex generation ev ∧ r = report_spec ev.
Proof. apply fingerprint_build_iff. Qed.

(** ** The counts of a report *)
Lemma side_keys_NoDup (dir : FingerprintEvidence → bool) d ev :
  (∀ e, dir e = (fk_direction (fe_key e) =? d)) → NoDup (exact_of <$> ev) →
  NoDup (relation_key_of <$> List.filter dir ev).
Proof.
  intros Hdir. induction ev as [|x ev IH]; intros Hnd; [constructor|].
  rewrite fmap_cons in Hnd. apply NoDup_cons in Hnd as [Hx Hnd]. cbn [List.filter].
  destruct (dir x) eqn:Hd; [|by apply IH]. rewrite fmap_cons. apply NoDup_cons.
  split; [|by apply IH]. intros (e & Hk & Hin)%list_elem_of_fmap.
  apply list_elem_of_In, filter_In in Hin as [Hin He]. rewrite Hdir in He, Hd.
  apply Hx, list_elem_of_fmap. exists e. split; [|by apply list_elem_of_In].
  apply same_exact; [done|lia].
Qed.

Lemma find_side_Some (dir : FingerprintEvidence → bool) d ev k s :
  (∀ e, dir e = (fk_direction (fe_key e) =? d)) → NoDup (exact_of <$> ev) →
  find_side dir ev k = Some s ↔
  ∃ e, e ∈ ev ∧ dir e = true ∧ relation_key_of e = k ∧ side_of e = s.
Proof.
  intros Hdir Hnd. unfold find_side. rewrite fmap_Some. split.
  - intros (e & Hf & ->). apply find_some in Hf as [Hin He].
    apply andb_true_iff in He as [He Hk]. apply bool_decide_eq_true in Hk.
    exists e. by rewrite list_elem_of_In.
  - intros (e & Hin & He & Hk & <-).
    destruct (List.find _ ev) as [x|] eqn:Hf.
    + exists x. split; [done|]. apply find_some in Hf as [Hinx Hx].
      apply andb_true_iff in Hx as [Hx Hkx]. apply bool_decide_eq_true in Hkx.
      apply list_elem_of_In in Hinx. f_equal.
      assert (exact_of e = exact_of x) as Heq.
      { apply same_exact; [congruence|]. rewrite Hdir in He, Hx. lia. }
      apply list_elem_of_lookup in Hin as [i Hi]. apply list_elem_of_lookup in Hinx as [j Hj].
      assert (i = j) as ->; [|congruence].
      eapply (NoDup_lookup _ _ _ (exact_of e) Hnd); rewrite list_lookup_fmap.
      * by rewrite Hi.
      * by rewrite Hj, Heq.
    + apply list_elem_of_In in Hin. eapply find_none in Hf; [|exact Hin]. cbn in Hf.
      by rewrite He, bool_decide_eq_true_2 in Hf.
Qed.

(** The sides of one direction, taken relation by relation, are the records of
    that direction. *)
Lemma sides_Permutation (dir : FingerprintEvidence → bool) d ev :
  (∀ e, dir e = (fk_direction (fe_key e) =? d)) → NoDup (exact_of <$> ev) →
  omap (find_side dir ev) (relation_keys ev) ≡ₚ side_of <$> List.filter dir ev.
Proof.
  intros Hdir Hnd.
  assert (∀ ks, omap (find_side dir ev) (List.filter (λ k, is_some (find_side dir ev k)) ks) =
    omap (find_side dir ev) ks) as Hom.
  { induction ks as [|k ks IH]; [done|]. cbn. destruct (find_side dir ev k) eqn:Hk; cbn; [|done].
    rewrite Hk. f_equal. exact IH. }
  assert (List.filter (λ k, is_some (find_side dir ev k)) (relation_keys ev) ≡ₚ
    relation_key_of <$> List.filter dir ev) as Hp.
  { apply NoDup_Permutation.
    - apply NoDup_ListNoDup, List.NoDup_filter, NoDup_ListNoDup, NoDup_remove_dups.
    - by eapply side_keys_NoDup.
    - intros k. rewrite list_elem_of_In, filter_In, <-list_elem_of_In.
      unfold relation_keys. rewrite elem_of_remove_dups, !list_elem_of_fmap. split.
      + intros [_ Hs]. destruct (find_side dir ev k) as [s|] eqn:Hf; [|done].
        apply (find_side_Some dir d) in Hf as (e & Hin & He & <- & _); [|done..].
        exists e. split; [done|]. by rewrite list_elem_of_In, filter_In, <-list_elem_of_In.
      + intros (e & -> & Hin). rewrite list_elem_of_In, filter_In, <-list_elem_of_In in Hin.
        destruct Hin as [Hin He]. split; [by exists e|]. by apply find_side_found. }
  rewrite <-Hom, Hp. apply reflexive_eq.
  assert (∀ l : list FingerprintEvidence, (∀ e, e ∈ l → e ∈ ev ∧ dir e = true) →
    omap (find_side dir ev) (relation_key_of <$> l) = side_of <$> l) as Hl.
  { induction l as [|e l IH]; intros He; [done|]. cbn.
    destruct (He e ltac:(apply list_elem_of_here)) as [Hin Hd].
    rewrite (proj2 (find_side_Some dir d ev (relation_key_of e) (side_of e) Hdir Hnd))
      by (by exists e).
    f_equal. apply IH. intros e' He'. apply He. by apply list_elem_of_further. }
  apply Hl. intros e. by rewrite !list_elem_of_In, filter_In.
Qed.

Lemma count_sides (dir : FingerprintEvidence → bool) d ev :
  (∀ e, dir e = (fk_direction (fe_key e) =? d)) → NoDup (exact_of <$> ev) →
  count_if (λ k, is_some (find_side dir ev k)) (relation_keys ev) = count_if dir ev.
Proof.
  intros Hdir Hnd. pose proof (Permutation_length (sides_Permutation dir d ev Hdir Hnd)) as Hl.
  rewrite length_fmap in Hl. unfold count_if at 2. rewrite <-Hl. clear Hl.
  induction (relation_keys ev) as [|k ks IH]; [done|]. rewrite count_if_cons, IH. cbn.
  destruct (find_side dir ev k); cbn; unfold omap; lia.
Qed.

(** The relations do not depend on the order of the records. *)
Lemma relations_of_Permutation ev ev' :
  NoDup (exact_of <$> ev) → ev ≡ₚ ev' → relations_of ev ≡ₚ relations_of ev'.
Proof.
  intros Hnd Hp. assert (NoDup (exact_of <$> ev')) as Hnd' by (by rewrite <-Hp).
  assert (∀ k, relation_of ev k = relation_of ev' k) as Heq.
  { intros k. unfold relation_of. f_equal; apply option_eq; intros s.
    - rewrite !(find_side_Some is_ingress direction.INGRESS) by done. by setoid_rewrite Hp.
    - rewrite !(find_side_Some is_egress direction.EGRESS) by done. by setoid_rewrite Hp. }
  unfold relations_of. rewrite (list_fmap_ext _ (relation_of ev')) by (intros; apply Heq).
  apply Permutation_map. unfold relation_keys. apply NoDup_Permutation; try apply NoDup_remove_dups.
  intros k. by rewrite !elem_of_remove_dups, Hp.
Qed.

(** The relations partition by their sides, and the correlated ones by which
    side was seen first. *)
Lemma sides_partition rs :
  count_if ingress_only rs + count_if correlated rs = count_if (λ r, is_some (rl_ingress r)) rs ∧
  count_if egress_only rs + count_if correlated rs = count_if (λ r, is_some (rl_egress r)) rs.
Proof. split; apply count_if_split; intros [[i|] [e|]] _; done. Qed.

Lemma sided_partition rs :
  Forall has_side rs →
  count_if (λ r, is_some (rl_ingress r)) rs + count_if egress_only rs = Z.of_nat (length rs).
Proof.
  intros Hs. rewrite Forall_forall in Hs. rewrite <-count_if_true. apply count_if_split.
  intros r Hr%Hs. by destruct r as [[i|] [e|]].
Qed.

Lemma sides_are_records ifindex generation ev :
  Forall (λ e, validate_evidence e ifindex generation = Ok tt) ev → NoDup (exact_of <$> ev) →
  count_if (λ r, is_some (rl_ingress r)) (relations_of ev)
    + count_if (λ r, is_some (rl_egress r)) (relations_of ev) = Z.of_nat (length ev).
Proof.
  intros Hv Hnd. unfold relations_of. rewrite !count_if_fmap. cbn [relation_of rl_ingress rl_egress].
  rewrite (count_sides is_ingress direction.INGRESS), (count_sides is_egress direction.EGRESS) by done.
  rewrite <-count_if_true. apply count_if_split. intros e He. rewrite Forall_forall in Hv.
  by destruct (validate_evidence_direction e _ _ (Hv e He)) as [[-> ->]|[-> ->]].
Qed.

Lemma first_seen_partition rs :
  count_if (first_seen_is Lt) rs + count_if (first_seen_is Gt) rs + count_if (first_seen_is Eq) rs
  = count_if correlated rs.
Proof.
  rewrite (count_if_split _ _ (λ r, first_seen_is Lt r || first_seen_is Gt r)), (count_if_split _ _ correlated).
  - done.
  - intros [[i|] [e|]] _; try done. unfold first_seen_is; cbn. by destruct (_ ?= _).
  - intros [[i|] [e|]] _; try done. unfold first_seen_is; cbn. by destruct (_ ?= _).
Qed.

Lemma max_ratio_is_some f rs :
  is_some (max_ratio f rs) = negb (count_if correlated rs =? 0).
Proof.
  unfold max_ratio. induction rs as [|[[i|] [e|]] rs IH]; [done|..];
    rewrite count_if_cons; cbn; [|exact IH..].
  pose proof (count_if_range correlated rs). symmetry. apply negb_true_iff. lia.
Qed.

(** In every report of a scan the relations split into ingress-only,
    egress-only and correlated ones; the correlated ones split by which side
    was seen first; every record is one side of one relation; a relation is
    counted as repeated at most once; and the ratios exist exactly when a
    relation is correlated. *)
Theorem fingerprint_counts_partition ifindex generation ev r :
  Forall evidence_u64 ev →
  FingerprintReport_build ifindex generation ev = Ok r →
  fr_ingress_only_relation_count r + fr_egress_only_relation_count r
    + fr_correlated_relation_count r = fr_relation_count r ∧
  fr_ingress_first_relation_count r + fr_egress_first_relation_count r
    + fr_simultaneous_relation_count r = fr_correlated_relation_count r ∧
  fr_ingress_only_relation_count r + fr_egress_only_relation_count r
    + 2 * fr_correlated_relation_count r = fr_captured_entry_count r ∧
  0 ≤ fr_repeated_relation_count r ≤ fr_relation_count r ∧
  fr_captured_entry_count r ≤ FINGERPRINT_CAPACITY ∧
  (fr_state r = FingerprintEmpty ↔ fr_captured_entry_count r = 0) ∧
  (is_some (fr_maximum_packet_ratio_milli r) = negb (fr_correlated_relation_count r =? 0)) ∧
  (is_some (fr_maximum_byte_ratio_milli r) = negb (fr_correlated_relation_count r =? 0)).
Proof.
  intros Hu [Hok ->]%fingerprint_build_iff; [|done].
  destruct Hok as (_ & _ & Hcap & Hv & Hnd & _).
  pose proof (relations_of_sided _ _ _ Hv) as Hsided.
  assert (length (relation_keys ev) = length (relations_of ev)) as Hlen
    by (symmetry; apply length_fmap).
  unfold report_spec, counted, with_counts, report_base.
  cbn [fr_ingress_only_relation_count fr_egress_only_relation_count fr_correlated_relation_count
    fr_relation_count fr_ingress_first_relation_count fr_egress_first_relation_count
    fr_simultaneous_relation_count fr_captured_entry_count fr_repeated_relation_count fr_state
    fr_maximum_packet_ratio_milli fr_maximum_byte_ratio_milli].
  set (rs := relations_of ev) in *.
  destruct (sides_partition rs) as [Hin Heg]. pose proof (sided_partition rs Hsided) as Hall.
  pose proof (first_seen_partition rs) as Hfirst.
  pose proof (sides_are_records _ _ _ Hv Hnd) as Hrec. fold rs in Hrec.
  pose proof (count_if_range repeats rs).
  split_and!; try lia; try apply max_ratio_is_some.
  destruct ev; cbn; split; naive_solver lia.
Qed.

(** The [unreachable!] arm of the ingestion is dead. *)
Lemma ingest_never_unreachable ifindex generation st x :
  ingest ifindex generation st x ≠ Err (InvalidObservation UNREACHABLE_DIRECTION).
Proof.
  unfold ingest. destruct (validate_evidence x ifindex generation) as [[]|e] eqn:Hv.
  - cbn [mbind result_bind]. case_bool_decide; [discriminate|].
    destruct (validate_evidence_direction _ _ _ Hv) as [[Hd1 Hd2]|[Hd1 Hd2]];
      unfold is_ingress, is_egress in Hd1, Hd2; rewrite ?Hd1, ?Hd2;
      unfold FingerprintCounters_checked_add;
      repeat (case_match || destruct (checked_add _ _ _)); cbn; discriminate.
  - cbn [mbind result_bind]. unfold validate_evidence in Hv.
    destruct (_ || (fv_last_seen_ns _ <? _)); [|discriminate].
    injection Hv as <-. discriminate.
Qed.

(** A VLAN identifier of 4095 is parsed from a tagged frame as it stands,
    but one record that carries it makes the whole scan invalid. *)
Theorem vlan_4095_rejects_scan :
  (∃ frame m, parse_fingerprint_metadata frame = Some (Some m) ∧ fm_outer_vlan_id m = 4095) ∧
  ∀ ifindex generation ev e,
    e ∈ ev → fk_outer_vlan_id (fe_key e) = 4095 →
    is_ok (FingerprintReport_build ifindex generation ev) = false.
Proof.
  split.
  - eexists ([255; 255; 255; 255; 255; 255; 2; 0; 0; 0; 0; 1; 0x81; 0; 0x0f; 0xff; 8; 6]
      ++ repeat 0 42), _. split; vm_compute; reflexivity.
  - intros ifindex generation ev e Hin Hvlan.
    destruct (FingerprintReport_build ifindex generation ev) as [r|] eqn:Hb; [|done].
    exfalso. unfold FingerprintReport_build in Hb. inv_ok.
    apply ingest_all in Ha0 as [_ Hv]. rewrite Forall_forall in Hv. specialize (Hv e Hin).
    unfold validate_evidence, NO_VLAN in Hv. rewrite Hvlan in Hv. inv_ok. boolify. lia.
Qed.

(** Concrete scans for the witnesses: one relation seen on both sides, one only
    on ingress. *)
Module FingerprintExample.
Definition key (fingerprint dir : Z) : FingerprintKey :=
  mkFingerprintKey 42 fingerprint 7 NO_VLAN 0x0800 60 dir 0 1 8 [# 0; 0].
Definition value (first last packets : Z) : FingerprintValue :=
  mkFingerprintValue first last packets (60 * packets)
    [# 2; 0; 0; 0; 0; 1] [# 255; 255; 255; 255; 255; 255] [# 0; 0; 0; 0].
Definition item (fingerprint dir first last packets : Z) : FingerprintEvidence :=
  mkFingerprintEvidence (key fingerprint dir) (value first last packets).
Definition scan : list FingerprintEvidence :=
  [item 16 direction.EGRESS 100 900 4; item 16 direction.INGRESS 200 950 40;
   item 32 direction.INGRESS 300 300 1].

Lemma scan_u64 : Forall evidence_u64 scan.
Proof. repeat constructor; vm_compute; discriminate. Qed.
End FingerprintExample.

Lemma fingerprint_build_correct_witness :
  Forall evidence_u64 FingerprintExample.scan ∧ scan_ok 7 42 FingerprintExample.scan.
Proof.
  split; [apply FingerprintExample.scan_u64|].
  apply (fingerprint_build_correct 7 42 FingerprintExample.scan (report_spec FingerprintExample.scan)).
  - apply FingerprintExample.scan_u64.
  - vm_compute. reflexivity.
Defined.

Lemma fingerprint_counts_partition_witness :
  ∃ r, FingerprintReport_build 7 42 FingerprintExample.scan = Ok r ∧
    fr_ingress_only_relation_count r + fr_egress_only_relation_count r
      + 2 * fr_correlated_relation_count r = 3.
Proof.
  destruct (FingerprintReport_build 7 42 FingerprintExample.scan) as [r|e] eqn:Hb.
  - exists r. split; [reflexivity|].
    pose proof (fingerprint_counts_partition 7 42 FingerprintExample.scan r
      FingerprintExample.scan_u64 Hb) as (_ & _ & H & _).
    rewrite H. vm_compute in Hb. injection Hb as <-. reflexivity.
  - vm_compute in Hb. discriminate Hb.
Defined.
