(* ===== verification/Ebpf.v ===== *)
(** The packet programs of [l2-loop-ebpf] ([programs.rs], [maps.rs]): the
    bounds-checked packet prefixes, the fixed-offset hash and metadata parser,
    and the accounting of one packet in the eBPF maps.

    Packet memory is a function from addresses to bytes.  A program run is a
    function from the maps to the maps; the maps are the ones a program sees on
    its CPU.  [None] is a panic, which the programs compile to undefined
    behaviour. *)
From S2P Require Import Prelude Domain Packet FrameHash Fingerprint.

Definition BPF_NOEXIST : Z := 1.
(** [xdp_action::XDP_PASS] and [TC_ACT_OK], the kernel's pass verdicts. *)
Definition XDP_PASS : Z := 2.
Definition TC_ACT_OK : Z := 0.

(** ** Maps *)
Record BpfMaps : Type := mkBpfMaps {
  bm_iface_config : gmap Z InterfaceConfig;
  bm_hook_stats : gmap StatsKey CounterValue;
  bm_fingerprints : gmap FingerprintKey FingerprintValue;
}.

Definition increment_counter (counter : CounterValue) (bytes : Z) : CounterValue :=
  mkCounterValue (wrapping_add_u64 (cv_packets counter) 1)
    (wrapping_add_u64 (cv_bytes counter) bytes).

Definition increment_existing (m : BpfMaps) (key : StatsKey) (bytes : Z) : BpfMaps :=
  match bm_hook_stats m !! key with
  | Some counter =>
      mkBpfMaps (bm_iface_config m)
        (<[key := increment_counter counter bytes]> (bm_hook_stats m)) (bm_fingerprints m)
  | None => m
  end.

(** ** Fixed-offset parsing of the first 60 bytes

    The offsets are constants below the array length, so indexing is total. *)
Definition fixed_fingerprint_hash (frame_len : Z) (frame : list Z) : Z :=
  foldl (λ hash offset, fingerprint_hash_step hash (frame !!! offset))
    (fingerprint_hash_init frame_len) (seq 0 FINGERPRINT_PREFIX_LEN).

Definition fixed_ipv4_subtype_untagged (frame : list Z) : Z :=
  match Z.land (frame !!! 14%nat) 0x0f with
  | 5 => frame !!! 34%nat
  | 6 => frame !!! 38%nat
  | 7 => frame !!! 42%nat
  | 8 => frame !!! 46%nat
  | 9 => frame !!! 50%nat
  | 10 => frame !!! 54%nat
  | 11 => frame !!! 58%nat
  | _ => 0
  end.

Definition fixed_ipv4_subtype_tagged (frame : list Z) : Z :=
  match Z.land (frame !!! 18%nat) 0x0f with
  | 5 => frame !!! 38%nat
  | 6 => frame !!! 42%nat
  | 7 => frame !!! 46%nat
  | 8 => frame !!! 50%nat
  | 9 => frame !!! 54%nat
  | 10 => frame !!! 58%nat
  | _ => 0
  end.

Definition fixed_protocol_subtype_untagged (frame : list Z) (ether_type : Z) : Z * Z :=
  if ether_type =? 0x0800 then
    let first := frame !!! 14%nat in
    let protocol := frame !!! 23%nat in
    if negb (Z.shiftr first 4 =? 4) || (Z.land first 0x0f <? 5) then (0, 0)
    else (protocol, if protocol =? 1 then fixed_ipv4_subtype_untagged frame else 0)
  else if ether_type =? 0x86dd then
    let protocol := frame !!! 20%nat in
    if negb (Z.shiftr (frame !!! 14%nat) 4 =? 6) then (0, 0)
    else (protocol, if protocol =? 58 then frame !!! 54%nat else 0)
  else if ether_type =? 0x0806 then
    let opcode := u16_from_be (frame !!! 20%nat) (frame !!! 21%nat) in
    (0, if opcode <=? U8_MAX then as_u8 opcode else 0)
  else (0, 0).

Definition fixed_protocol_subtype_tagged (frame : list Z) (ether_type : Z) : Z * Z :=
  if ether_type =? 0x0800 then
    let first := frame !!! 18%nat in
    let protocol := frame !!! 27%nat in
    if negb (Z.shiftr first 4 =? 4) || (Z.land first 0x0f <? 5) then (0, 0)
    else (protocol, if protocol =? 1 then fixed_ipv4_subtype_tagged frame else 0)
  else if ether_type =? 0x86dd then
    let protocol := frame !!! 24%nat in
    if negb (Z.shiftr (frame !!! 18%nat) 4 =? 6) then (0, 0)
    else (protocol, if protocol =? 58 then frame !!! 58%nat else 0)
  else if ether_type =? 0x0806 then
    let opcode := u16_from_be (frame !!! 24%nat) (frame !!! 25%nat) in
    (0, if opcode <=? U8_MAX then as_u8 opcode else 0)
  else (0, 0).

Definition fixed_fingerprint_metadata (frame : list Z) : FingerprintMetadata :=
  let destination_mac : mac :=
    [# frame !!! 0%nat; frame !!! 1%nat; frame !!! 2%nat; frame !!! 3%nat; frame !!! 4%nat;
       frame !!! 5%nat] in
  let source_mac : mac :=
    [# frame !!! 6%nat; frame !!! 7%nat; frame !!! 8%nat; frame !!! 9%nat; frame !!! 10%nat;
       frame !!! 11%nat] in
  let outer_ether_type := u16_from_be (frame !!! 12%nat) (frame !!! 13%nat) in
  let '(ether_type, outer_vlan_id, vlan_depth) :=
    if (outer_ether_type =? 0x8100) || (outer_ether_type =? 0x88a8) then
      let inner := u16_from_be (frame !!! 16%nat) (frame !!! 17%nat) in
      (inner, Z.land (u16_from_be (frame !!! 14%nat) (frame !!! 15%nat)) 0x0fff,
       if (inner =? 0x8100) || (inner =? 0x88a8) then 2 else 1)
    else (outer_ether_type, NO_VLAN, 0) in
  let '(protocol, subtype) :=
    if vlan_depth =? 2 then (0, 0)
    else if vlan_depth =? 1 then fixed_protocol_subtype_tagged frame ether_type
    else fixed_protocol_subtype_untagged frame ether_type in
  mkFingerprintMetadata source_mac destination_mac outer_vlan_id ether_type vlan_depth
    protocol subtype.

(** ** The programs

    [mem] is packet memory; [lru_insert] is the kernel's insertion into the LRU
    fingerprint map under [BPF_NOEXIST]. *)
Section programs.
Context (mem : Z → Z).
Context (lru_insert : gmap FingerprintKey FingerprintValue → FingerprintKey → FingerprintValue
                      → gmap FingerprintKey FingerprintValue).

Definition read_bytes (data : Z) (n : nat) : list Z := (λ i, mem (data + i)) <$> seqZ 0 (Z.of_nat n).

(** [packet_prefix]: the first [n] bytes, when they lie before [data_end]. *)
Definition packet_prefix (n : nat) (data data_end : Z) : option (list Z) :=
  if data_end <? data + Z.of_nat n then None else Some (read_bytes data n).

Definition parse_packet (data data_end : Z) : panics ParsedL2Word.t :=
  match packet_prefix 14 data data_end with
  | None => Some ParsedL2Word.truncated_ethernet
  | Some ethernet =>
      let outer_ether_type := u16_from_be (ethernet !!! 12%nat) (ethernet !!! 13%nat) in
      if (outer_ether_type =? 0x8100) || (outer_ether_type =? 0x88a8) then
        match packet_prefix 18 data data_end with
        | None => Some ParsedL2Word.truncated_vlan
        | Some tagged => parse_l2_word tagged
        end
      else parse_l2_word ethernet
  end.

(** The record [account_fingerprint] writes for a packet it sees first. *)
Definition fingerprint_value_new (now_ns bytes : Z) (metadata : FingerprintMetadata)
    : FingerprintValue :=
  mkFingerprintValue now_ns now_ns 1 bytes (fm_source_mac metadata) (fm_destination_mac metadata)
    (vreplicate 4 0).

Definition fingerprint_value_seen (now_ns bytes : Z) (value : FingerprintValue)
    : FingerprintValue :=
  mkFingerprintValue (fv_first_seen_ns value) now_ns
    (saturating_add U64_MAX (fv_packets value) 1) (saturating_add U64_MAX (fv_bytes value) bytes)
    (fv_source_mac value) (fv_destination_mac value) (fv_reserved value).

Definition fingerprint_key (interface_generation fingerprint ifindex frame_len direction : Z)
    (metadata : FingerprintMetadata) : FingerprintKey :=
  mkFingerprintKey interface_generation fingerprint ifindex (fm_outer_vlan_id metadata)
    (fm_ether_type metadata) frame_len direction (fm_vlan_depth metadata)
    (fm_protocol metadata) (fm_subtype metadata) (vreplicate 2 0).

Definition account_fingerprint (m : BpfMaps) (now_ns interface_generation ifindex direction bytes
    data data_end : Z) : BpfMaps :=
  match try_from_wide U16_MAX bytes with
  | None => m
  | Some frame_len =>
      match packet_prefix FINGERPRINT_PREFIX_LEN data data_end with
      | None => m
      | Some frame =>
          let fingerprint := fixed_fingerprint_hash frame_len frame in
          if negb (fingerprint_selected fingerprint) then m
          else
            let metadata := fixed_fingerprint_metadata frame in
            let key := fingerprint_key interface_generation fingerprint ifindex frame_len
                         direction metadata in
            mkBpfMaps (bm_iface_config m) (bm_hook_stats m)
              (match bm_fingerprints m !! key with
               | Some value => <[key := fingerprint_value_seen now_ns bytes value]> (bm_fingerprints m)
               | None => lru_insert (bm_fingerprints m) key
                           (fingerprint_value_new now_ns bytes metadata)
               end)
      end
  end.

Definition set_vlan_visible (config : InterfaceConfig) : InterfaceConfig :=
  mkInterfaceConfig (ic_interface_generation config) (ic_policy_generation config)
    (ic_logical_ifindex config) (ic_flags config) (ic_mode config) (ic_role config)
    vlan_visibility.VERIFIED_VISIBLE (ic_sample_shift config) (ic_reserved config).

(** The second lookup of the configuration, with its own guards. *)
Definition mark_vlan_visible (m : BpfMaps) (ifindex interface_generation : Z) : BpfMaps :=
  match bm_iface_config m !! ifindex with
  | Some config =>
      if (ic_interface_generation config =? interface_generation)
         && (ic_vlan_visibility config =? vlan_visibility.UNKNOWN)
      then mkBpfMaps (<[ifindex := set_vlan_visible config]> (bm_iface_config m))
             (bm_hook_stats m) (bm_fingerprints m)
      else m
  | None => m
  end.

Definition account_layer (with_fingerprints : bool) (m : BpfMaps)
    (now_ns ifindex role bytes data data_end : Z) : panics BpfMaps :=
  match bm_iface_config m !! ifindex with
  | None => Some m
  | Some config =>
      let interface_generation := ic_interface_generation config in
      let current_vlan_visibility := ic_vlan_visibility config in
      let sample_shift := ic_sample_shift config in
      let m := increment_existing m (StatsKey_total interface_generation ifindex role) bytes in
      parsed ← parse_packet data data_end;
      if ParsedL2Word.is_error parsed then
        Some (increment_existing m (StatsKey_parse_error interface_generation ifindex role) bytes)
      else
        let m := increment_existing m (StatsKey_classified interface_generation ifindex role
                   (ParsedL2Word.traffic_class parsed)) bytes in
        let m :=
          if ParsedL2Word.has_outer_vlan parsed
             && (current_vlan_visibility =? vlan_visibility.UNKNOWN)
          then mark_vlan_visible m ifindex interface_generation else m in
        if with_fingerprints && (sample_shift =? FINGERPRINT_SAMPLE_SHIFT) then
          if role =? hook_role.EXTERNAL_XDP_INGRESS then
            Some (account_fingerprint m now_ns interface_generation ifindex direction.INGRESS
                    bytes data data_end)
          else if role =? hook_role.PHYSICAL_TC_EGRESS then
            Some (account_fingerprint m now_ns interface_generation ifindex direction.EGRESS
                    bytes data data_end)
          else Some m
        else Some m
  end.

(** The contexts the kernel passes to the programs. *)
Record XdpContext : Type := mkXdpContext {
  xc_data : Z;
  xc_data_end : Z;
  xc_ingress_ifindex : Z;
}.

Record TcContext : Type := mkTcContext {
  tc_data : Z;
  tc_data_end : Z;
  tc_len : Z;
  tc_ifindex : Z;
}.

Definition account_xdp_layer (with_fingerprints : bool) (m : BpfMaps) (now_ns : Z)
    (ctx : XdpContext) (role : Z) : panics BpfMaps :=
  match checked_sub (xc_data_end ctx) (xc_data ctx) with
  | None => Some m
  | Some bytes =>
      account_layer with_fingerprints m now_ns (xc_ingress_ifindex ctx) role bytes
        (xc_data ctx) (xc_data_end ctx)
  end.

Definition account_tc_layer (with_fingerprints : bool) (m : BpfMaps) (now_ns : Z)
    (ctx : TcContext) (role : Z) : panics BpfMaps :=
  account_layer with_fingerprints m now_ns (tc_ifindex ctx) role (tc_len ctx)
    (tc_data ctx) (tc_data_end ctx).

Definition account_xdp (m : BpfMaps) (now_ns : Z) (ctx : XdpContext) (role : Z) : panics BpfMaps :=
  account_xdp_layer true m now_ns ctx role.

Definition account_tc (m : BpfMaps) (now_ns : Z) (ctx : TcContext) (role : Z) : panics BpfMaps :=
  account_tc_layer true m now_ns ctx role.

(** The four programs, with the verdict they return to the kernel. *)
Definition l2_loop_xdp_ingress (m : BpfMaps) (now_ns : Z) (ctx : XdpContext)
    : panics (BpfMaps * Z) :=
  m ← account_xdp m now_ns ctx hook_role.EXTERNAL_XDP_INGRESS; Some (m, XDP_PASS).

Definition l2_loop_tc_egress (m : BpfMaps) (now_ns : Z) (ctx : TcContext)
    : panics (BpfMaps * Z) :=
  m ← account_tc m now_ns ctx hook_role.PHYSICAL_TC_EGRESS; Some (m, TC_ACT_OK).

Definition l2_loop_tc_path_ingress (m : BpfMaps) (now_ns : Z) (ctx : TcContext)
    : panics (BpfMaps * Z) :=
  m ← account_tc m now_ns ctx hook_role.TEMPORARY_PATH_INGRESS; Some (m, TC_ACT_OK).

Definition l2_loop_tc_path_egress (m : BpfMaps) (now_ns : Z) (ctx : TcContext)
    : panics (BpfMaps * Z) :=
  m ← account_tc m now_ns ctx hook_role.TEMPORARY_PATH_EGRESS; Some (m, TC_ACT_OK).
End programs.

(** ** Packets *)

(** The linear bytes of a packet. *)
Definition packet (mem : Z → Z) (data data_end : Z) : list Z :=
  read_bytes mem data (Z.to_nat (data_end - data)).

Lemma read_bytes_length mem data n : length (read_bytes mem data n) = n.
Proof. unfold read_bytes. rewrite length_fmap, length_seqZ. lia. Qed.

Lemma read_bytes_u8 mem data n : (∀ a, is_u8 (mem a)) → Forall is_u8 (read_bytes mem data n).
Proof. intros Hm. unfold read_bytes. apply Forall_fmap, Forall_true. intros. apply Hm. Qed.

Lemma read_bytes_take mem data n k :
  (n ≤ k)%nat → take n (read_bytes mem data k) = read_bytes mem data n.
Proof.
  intros Hn. unfold read_bytes. rewrite <-fmap_take. f_equal.
  replace (Z.of_nat k) with (Z.of_nat n + Z.of_nat (k - n)) by lia.
  rewrite seqZ_app by lia. rewrite take_app_length' by (rewrite length_seqZ; lia). done.
Qed.

(** A prefix is read exactly when the packet is long enough. *)
Lemma packet_prefix_take mem n data data_end :
  (0 < n)%nat →
  packet_prefix mem n data data_end =
    if (length (packet mem data data_end) <? n)%nat then None
    else Some (take n (packet mem data data_end)).
Proof.
  intros Hn. unfold packet_prefix, packet. rewrite read_bytes_length.
  destruct (Z.ltb_spec data_end (data + Z.of_nat n)), (Nat.ltb_spec (Z.to_nat (data_end - data)) n);
    try lia; [done|]. by rewrite read_bytes_take by lia.
Qed.

(** The program's parser reads the packet as the userspace parser does. *)
Lemma parse_word_take_14 frame :
  (14 ≤ length frame)%nat → is_vlan_tpid (u16_from_be (frame !!! 12%nat) (frame !!! 13%nat)) = false →
  parse_l2_word (take 14 frame) = parse_l2_word frame.
Proof.
  intros Hl Hv. do 14 (destruct frame as [|? frame]; [exfalso; cbn in Hl; clear -Hl; lia|]). clear Hl.
  cbn [list_lookup_total lookup_total] in Hv. unfold parse_l2_word.
  cbn [take length Nat.ltb Nat.leb lookup list_lookup mbind option_bind ETHERNET_HEADER_LEN].
  by rewrite Hv.
Qed.

Lemma parse_word_take_18 frame :
  (18 ≤ length frame)%nat → parse_l2_word (take 18 frame) = parse_l2_word frame.
Proof.
  intros Hl. do 18 (destruct frame as [|? frame]; [exfalso; cbn in Hl; clear -Hl; lia|]). reflexivity.
Qed.

Lemma parse_word_short_vlan frame :
  (14 ≤ length frame < 18)%nat → is_vlan_tpid (u16_from_be (frame !!! 12%nat) (frame !!! 13%nat)) = true →
  parse_l2_word frame = Some ParsedL2Word.truncated_vlan.
Proof.
  intros Hl Hv. do 14 (destruct frame as [|? frame]; [exfalso; cbn in Hl; clear -Hl; lia|]).
  cbn [list_lookup_total lookup_total] in Hv. unfold parse_l2_word.
  cbn [lookup list_lookup mbind option_bind]. rewrite Hv.
  unfold ETHERNET_HEADER_LEN, SINGLE_VLAN_HEADER_LEN.
  by rewrite (proj2 (Nat.ltb_ge _ 14)), (proj2 (Nat.ltb_lt _ 18)) by apply Hl.
Qed.

Lemma tpid_literals et : (et =? 0x8100) || (et =? 0x88a8) = is_vlan_tpid et.
Proof. reflexivity. Qed.

Lemma parse_packet_reads_packet mem data data_end :
  parse_packet mem data data_end = parse_l2_word (packet mem data data_end).
Proof.
  unfold parse_packet. rewrite !packet_prefix_take by lia. set (frame := packet mem data data_end).
  destruct (Nat.ltb_spec (length frame) 14) as [H14|H14].
  { unfold parse_l2_word, ETHERNET_HEADER_LEN. by rewrite (proj2 (Nat.ltb_lt _ _)). }
  rewrite !lookup_total_take_lt by lia.
  rewrite tpid_literals. destruct (is_vlan_tpid (u16_from_be _ _)) eqn:Hv; [|by apply parse_word_take_14].
  destruct (Nat.ltb_spec (length frame) 18) as [H18|H18].
  - by rewrite parse_word_short_vlan.
  - by apply parse_word_take_18.
Qed.

(** ** The fixed parser against the reference parser *)

(** The two copies of the network-header parser are one function of the header's
    offset. *)
Definition fixed_subtype_at (offset : nat) (frame : list Z) : Z :=
  let header_len := (Z.to_nat (Z.land (frame !!! offset) 0x0f) * 4)%nat in
  if (20 <=? header_len)%nat && (offset + header_len <? FINGERPRINT_PREFIX_LEN)%nat
  then frame !!! (offset + header_len)%nat else 0.

Definition fixed_protocol_subtype_at (offset : nat) (frame : list Z) (ether_type : Z) : Z * Z :=
  if ether_type =? 0x0800 then
    let first := frame !!! offset in
    let protocol := frame !!! (offset + 9)%nat in
    if negb (Z.shiftr first 4 =? 4) || (Z.land first 0x0f <? 5) then (0, 0)
    else (protocol, if protocol =? 1 then fixed_subtype_at offset frame else 0)
  else if ether_type =? 0x86dd then
    let protocol := frame !!! (offset + 6)%nat in
    if negb (Z.shiftr (frame !!! offset) 4 =? 6) then (0, 0)
    else (protocol, if protocol =? 58 then frame !!! (offset + 40)%nat else 0)
  else if ether_type =? 0x0806 then
    let opcode := u16_from_be (frame !!! (offset + 6)%nat) (frame !!! (offset + 7)%nat) in
    (0, if opcode <=? U8_MAX then as_u8 opcode else 0)
  else (0, 0).

Lemma land_0f_range x : 0 ≤ Z.land x 0x0f ≤ 15.
Proof.
  assert (Z.land x 15 = x `mod` 16) as -> by (by apply (Z.land_ones x 4)).
  pose proof (Z.mod_pos_bound x 16 eq_refl). lia.
Qed.

(** Case analysis on the sixteen header lengths. *)
Lemma ihl_cases (P : Z → Prop) x :
  Forall P (seqZ 0 16) → P (Z.land x 0x0f).
Proof.
  intros H. rewrite Forall_forall in H. apply H, elem_of_seqZ.
  pose proof (land_0f_range x). lia.
Qed.

Lemma fixed_subtype_untagged frame :
  fixed_ipv4_subtype_untagged frame = fixed_subtype_at 14 frame.
Proof.
  unfold fixed_ipv4_subtype_untagged, fixed_subtype_at.
  apply (ihl_cases (λ n, match n with
    | 5 => frame !!! 34%nat | 6 => frame !!! 38%nat | 7 => frame !!! 42%nat
    | 8 => frame !!! 46%nat | 9 => frame !!! 50%nat | 10 => frame !!! 54%nat
    | 11 => frame !!! 58%nat | _ => 0 end = let header_len := (Z.to_nat n * 4)%nat in
      if (20 <=? header_len)%nat && (14 + header_len <? FINGERPRINT_PREFIX_LEN)%nat
      then frame !!! (14 + header_len)%nat else 0)).
  repeat constructor.
Qed.

Lemma fixed_subtype_tagged frame :
  fixed_ipv4_subtype_tagged frame = fixed_subtype_at 18 frame.
Proof.
  unfold fixed_ipv4_subtype_tagged, fixed_subtype_at.
  apply (ihl_cases (λ n, match n with
    | 5 => frame !!! 38%nat | 6 => frame !!! 42%nat | 7 => frame !!! 46%nat
    | 8 => frame !!! 50%nat | 9 => frame !!! 54%nat | 10 => frame !!! 58%nat
    | _ => 0 end = let header_len := (Z.to_nat n * 4)%nat in
      if (20 <=? header_len)%nat && (18 + header_len <? FINGERPRINT_PREFIX_LEN)%nat
      then frame !!! (18 + header_len)%nat else 0)).
  repeat constructor.
Qed.

Lemma fixed_untagged_at frame et :
  fixed_protocol_subtype_untagged frame et = fixed_protocol_subtype_at 14 frame et.
Proof. unfold fixed_protocol_subtype_untagged. by rewrite fixed_subtype_untagged. Qed.

Lemma fixed_tagged_at frame et :
  fixed_protocol_subtype_tagged frame et = fixed_protocol_subtype_at 18 frame et.
Proof. unfold fixed_protocol_subtype_tagged. by rewrite fixed_subtype_tagged. Qed.

(** The end of the IPv4 header a frame carries at an offset, by its own length
    field; 0 when what stands there is no version 4 header. *)
Definition ipv4_reach_at (offset : nat) (frame : list Z) (ether_type : Z) : nat :=
  if (ether_type =? ETH_P_IPV4) && (Z.shiftr (frame !!! offset) 4 =? 4)
  then (offset + Z.to_nat (Z.land (frame !!! offset) 0x0f) * 4)%nat else 0%nat.

(** What the fixed parser and the reference parser say of the protocol and the
    subtype, for a header that ends at [reach] in a frame of [len] octets: the
    same, unless the header reaches past the prefix; then the fixed parser says
    its protocol and no subtype, and the reference parser says the protocol and
    the ICMP type behind the header, or nothing when the frame ends before its
    header does. *)
Definition same_protocol (reach len : nat) (protocol icmp_type : Z)
    (fixed reference : Z * Z) : Prop :=
  ((reach < FINGERPRINT_PREFIX_LEN)%nat → fixed = reference) ∧
  ((FINGERPRINT_PREFIX_LEN ≤ reach)%nat →
    fixed = (protocol, 0) ∧
    reference = if (len <? reach)%nat then (0, 0)
                else (protocol, if protocol =? IPPROTO_ICMP then icmp_type else 0)).

Lemma copy_mac_total frame o :
  (o + 5 < length frame)%nat →
  copy_mac frame o = Some [# frame !!! o; frame !!! (o + 1)%nat; frame !!! (o + 2)%nat;
    frame !!! (o + 3)%nat; frame !!! (o + 4)%nat; frame !!! (o + 5)%nat].
Proof.
  intros. unfold copy_mac. by rewrite !(list_lookup_lookup_total_lt frame) by lia.
Qed.

Lemma read_u16_total frame o :
  (o + 1 < length frame)%nat →
  read_u16 frame o = Some (u16_from_be (frame !!! o) (frame !!! (o + 1)%nat)).
Proof. intros. unfold read_u16. by rewrite !(list_lookup_lookup_total_lt frame) by lia. Qed.

Lemma read_u16_u16 frame o :
  Forall is_u8 frame → (o + 1 < length frame)%nat →
  is_u16 (u16_from_be (frame !!! o) (frame !!! (o + 1)%nat)).
Proof.
  intros Hb Ho. rewrite Forall_lookup in Hb.
  apply u16_from_be_range; [apply (Hb o)|apply (Hb (o + 1)%nat)];
    apply list_lookup_lookup_total_lt; lia.
Qed.

Lemma same_protocol_refl len p i ps : same_protocol 0 len p i ps ps.
Proof. split; [done|]. unfold FINGERPRINT_PREFIX_LEN. lia. Qed.

(** On an IPv4 header within the prefix both parsers agree; beyond it the fixed
    parser reports no subtype, and the reference parser, which reports nothing
    for a truncated header, may see one. *)
Lemma fixed_ipv4_reference frame offset :
  (offset = 14 ∨ offset = 18)%nat → (60 ≤ length frame)%nat →
  let reach := ipv4_reach_at offset frame ETH_P_IPV4 in
  same_protocol reach (length frame) (frame !!! (offset + 9)%nat) (default 0 (frame !! reach))
    (fixed_protocol_subtype_at offset (take 60 frame) ETH_P_IPV4)
    (ipv4_protocol_and_subtype frame offset).
Proof.
  intros Ho Hl. unfold fixed_protocol_subtype_at, ipv4_reach_at, fixed_subtype_at,
    ipv4_protocol_and_subtype, same_protocol, FINGERPRINT_PREFIX_LEN, IPPROTO_ICMP.
  change (ETH_P_IPV4 =? 0x0800) with true. change (ETH_P_IPV4 =? ETH_P_IPV4) with true.
  rewrite !(list_lookup_lookup_total_lt frame offset), !(list_lookup_lookup_total_lt frame (offset + 9)) by lia.
  rewrite !(lookup_total_take_lt frame 60 offset), !(lookup_total_take_lt frame 60 (offset + 9)) by lia.
  set (first := frame !!! offset). pose proof (land_0f_range first) as Hr. cbn [andb].
  destruct (Z.shiftr first 4 =? 4); cbn [orb negb]; [|split; [done|lia]].
  set (n := Z.land first 15) in *.
  destruct (Z.ltb_spec n 5) as [H5|H5].
  { rewrite (proj2 (Nat.ltb_lt (Z.to_nat n * 4) 20)) by lia. cbn [orb]. split; [done|lia]. }
  rewrite (proj2 (Nat.ltb_ge (Z.to_nat n * 4) 20)) by lia.
  rewrite (proj2 (Nat.leb_le 20 (Z.to_nat n * 4))) by lia. cbn [andb orb].
  split; intros Hreach.
  - rewrite (proj2 (Nat.ltb_lt (offset + Z.to_nat n * 4) 60)) by lia.
    rewrite (proj2 (Nat.ltb_ge (length frame) (offset + Z.to_nat n * 4))) by lia.
    rewrite lookup_total_take_lt by lia.
    by rewrite (list_lookup_lookup_total_lt frame (offset + Z.to_nat n * 4)) by lia.
  - rewrite (proj2 (Nat.ltb_ge (offset + Z.to_nat n * 4) 60)) by lia.
    split; [by destruct (_ =? 1)|done].
Qed.

Lemma fixed_protocol_reference frame offset et :
  Forall is_u8 frame → (offset = 14 ∨ offset = 18)%nat → (60 ≤ length frame)%nat →
  ∃ ps, protocol_and_subtype frame offset et = Some ps ∧
    let reach := ipv4_reach_at offset frame et in
    same_protocol reach (length frame) (frame !!! (offset + 9)%nat) (default 0 (frame !! reach))
      (fixed_protocol_subtype_at offset (take 60 frame) et) ps.
Proof.
  intros Hb Ho Hl. destruct (decide (et = ETH_P_IPV4)) as [->|H4].
  { exists (ipv4_protocol_and_subtype frame offset). split; [done|]. by apply fixed_ipv4_reference. }
  unfold protocol_and_subtype, fixed_protocol_subtype_at, ipv4_reach_at.
  rewrite (proj2 (Z.eqb_neq et ETH_P_IPV4)), (proj2 (Z.eqb_neq et 0x0800)) by done.
  change ETH_P_IPV6 with 0x86dd. change ETH_P_ARP with 0x0806. cbn [andb].
  destruct (et =? 0x86dd); [|destruct (et =? 0x0806);
    [|eexists; split; [done|apply same_protocol_refl]]].
  - unfold ipv6_protocol_and_subtype, IPPROTO_ICMPV6.
    rewrite !(list_lookup_lookup_total_lt frame) by lia. cbn [default from_option].
    rewrite (proj2 (Nat.ltb_ge (length frame) (offset + 40))), orb_false_r by lia. unfold id.
    rewrite !lookup_total_take_lt by lia.
    destruct (negb _); eexists; (split; [reflexivity|]); apply same_protocol_refl.
  - rewrite read_u16_total by lia. eexists; split; [reflexivity|].
    replace (offset + 6 + 1)%nat with (offset + 7)%nat by lia.
    rewrite !lookup_total_take_lt by lia.
    destruct (_ <=? U8_MAX); apply same_protocol_refl.
Qed.

(** Where the frame's own network header stands, after at most one VLAN tag,
    and the Ethernet type that announces it. *)
Definition network_offset (frame : list Z) : nat :=
  if is_vlan_tpid (u16_from_be (frame !!! 12%nat) (frame !!! 13%nat)) then 18%nat else 14%nat.
Definition network_type (frame : list Z) : Z :=
  u16_from_be (frame !!! (network_offset frame - 2)%nat) (frame !!! (network_offset frame - 1)%nat).
Definition ipv4_reach (frame : list Z) : nat :=
  ipv4_reach_at (network_offset frame) frame (network_type frame).

(** The two metadata records agree on the addresses, the tag and the Ethernet
    type, and on the protocol and subtype as [same_protocol] says. *)
Definition same_metadata (frame : list Z) (fixed reference : FingerprintMetadata) : Prop :=
  fm_source_mac fixed = fm_source_mac reference ∧
  fm_destination_mac fixed = fm_destination_mac reference ∧
  fm_outer_vlan_id fixed = fm_outer_vlan_id reference ∧
  fm_ether_type fixed = fm_ether_type reference ∧
  fm_vlan_depth fixed = fm_vlan_depth reference ∧
  same_protocol (ipv4_reach frame) (length frame) (frame !!! (network_offset frame + 9)%nat)
    (default 0 (frame !! ipv4_reach frame))
    (fm_protocol fixed, fm_subtype fixed) (fm_protocol reference, fm_subtype reference).

Lemma foldl_seq_lookup {A B} `{!Inhabited B} (f : A → B → A) a (l : list B) n :
  (n ≤ length l)%nat → foldl (λ a i, f a (l !!! i)) a (seq 0 n) = foldl f a (take n l).
Proof.
  induction n as [|n IH]; intros Hn; [done|].
  rewrite seq_S, foldl_app, IH by lia. cbn [foldl Nat.add].
  rewrite (take_S_r l n (l !!! n)) by (apply list_lookup_lookup_total_lt; lia).
  by rewrite foldl_app.
Qed.

Lemma fixed_hash_reference (frame : list Z) :
  (60 ≤ length frame)%nat → Z.of_nat (length frame) ≤ U16_MAX →
  fingerprint_hash frame =
    Some (fixed_fingerprint_hash (Z.of_nat (length frame)) (take 60 frame)).
Proof.
  intros Hl Hm. unfold fingerprint_hash, fixed_fingerprint_hash, fingerprint_hash_with_length,
    FINGERPRINT_PREFIX_LEN.
  rewrite try_from_wide_ok by done. cbn [mbind option_bind]. rewrite Nat2Z.id.
  replace (length frame `min` 60)%nat with 60%nat by lia.
  rewrite length_take_le by lia. cbn [Nat.eqb negb].
  rewrite (foldl_seq_lookup fingerprint_hash_step _ (take 60 frame) 60)
    by (rewrite length_take_le; lia).
  by rewrite take_take.
Qed.

Lemma fixed_metadata_reference (frame : list Z) :
  Forall is_u8 frame → (60 ≤ length frame)%nat →
  ∃ m, parse_fingerprint_metadata frame = Some (Some m) ∧
    same_metadata frame (fixed_fingerprint_metadata (take 60 frame)) m.
Proof.
  intros Hb Hl. unfold same_metadata, ipv4_reach, network_type, network_offset,
    parse_fingerprint_metadata, fixed_fingerprint_metadata.
  rewrite (proj2 (Nat.ltb_ge _ 14)), !copy_mac_total, !read_u16_total by lia.
  rewrite !lookup_total_take_lt by lia. cbn [Nat.add]. rewrite !tpid_literals.
  set (outer := u16_from_be (frame !!! 12%nat) (frame !!! 13%nat)).
  destruct (is_vlan_tpid outer); cbn [Nat.sub].
  - rewrite (proj2 (Nat.ltb_ge _ 18)) by lia. cbn [mbind option_bind].
    set (inner := u16_from_be (frame !!! 16%nat) (frame !!! 17%nat)).
    destruct (is_vlan_tpid inner) eqn:Hn.
    + eexists. split; [reflexivity|]. cbn [Z.eqb Pos.eqb]. split_and!; try done.
      unfold ipv4_reach_at. destruct (Z.eqb_spec inner ETH_P_IPV4) as [E|_]; [by rewrite E in Hn|].
      apply same_protocol_refl.
    + cbn [Z.eqb Pos.eqb]. rewrite fixed_tagged_at.
      destruct (fixed_protocol_reference frame 18 inner Hb) as ([p q] & -> & Hs); [lia|done|].
      eexists. split; [reflexivity|].
      by destruct (fixed_protocol_subtype_at 18 (take 60 frame) inner).
  - cbn [Z.eqb]. rewrite fixed_untagged_at.
    destruct (fixed_protocol_reference frame 14 outer Hb) as ([p q] & Hps & Hs); [lia|done|].
    rewrite Hps. eexists. split; [reflexivity|].
    by destruct (fixed_protocol_subtype_at 14 (take 60 frame) outer).
Qed.

(** C38: what the packet programs compute at fixed offsets in the 60-byte
    prefix is what the reference functions compute on the whole frame: the
    fingerprint is the same, and so are the metadata, except for an IPv4 header
    whose options reach the end of the prefix or beyond: for it the programs
    record the protocol octet and no ICMP type, while the reference parser
    gives the protocol and the ICMP type when the frame holds the whole header,
    and neither when it does not. *)
Theorem fixed_parsers_match_reference (frame : list Z) :
  Forall is_u8 frame → (60 ≤ length frame)%nat → Z.of_nat (length frame) ≤ U16_MAX →
  fingerprint_hash frame =
    Some (fixed_fingerprint_hash (Z.of_nat (length frame)) (take 60 frame)) ∧
  ∃ m, parse_fingerprint_metadata frame = Some (Some m) ∧
    same_metadata frame (fixed_fingerprint_metadata (take 60 frame)) m.
Proof.
  intros Hb Hl Hm. split; [by apply fixed_hash_reference|by apply fixed_metadata_reference].
Qed.

(** ** Accounting *)

(** The counter key of a packet, read off the reference parser. *)
Definition packet_key (generation ifindex role : Z) (frame : list Z) : StatsKey :=
  match parse_l2_spec frame with
  | Ok l => StatsKey_classified generation ifindex role (pl_traffic_class l)
  | Err _ => StatsKey_parse_error generation ifindex role
  end.

Definition bump (bytes : Z) (key : StatsKey) (stats : gmap StatsKey CounterValue)
    : gmap StatsKey CounterValue := alter (λ counter, increment_counter counter bytes) key stats.

(** Whether a packet proves that VLAN tags are visible on an interface. *)
Definition proves_visibility (config : InterfaceConfig) (frame : list Z) : bool :=
  (ic_vlan_visibility config =? vlan_visibility.UNKNOWN) &&
  match parse_l2_spec frame with Ok l => is_some (pl_outer_vlan_id l) | Err _ => false end.

Lemma increment_existing_bump m key bytes :
  increment_existing m key bytes =
  mkBpfMaps (bm_iface_config m) (bump bytes key (bm_hook_stats m)) (bm_fingerprints m).
Proof.
  destruct m as [cfg stats fps]. unfold increment_existing, bump. cbn.
  destruct (stats !! key) as [c|] eqn:Hk; f_equal; apply map_eq; intros k.
  - destruct (decide (k = key)) as [->|Hne].
    + by rewrite lookup_insert_eq, lookup_alter_eq, Hk.
    + by rewrite lookup_insert_ne, lookup_alter_ne by done.
  - destruct (decide (k = key)) as [->|Hne].
    + by rewrite lookup_alter_eq, Hk.
    + by rewrite lookup_alter_ne by done.
Qed.

Lemma parse_word_cases frame w :
  parse_l2_word frame = Some w →
  w = ParsedL2Word.truncated_ethernet ∨ w = ParsedL2Word.truncated_vlan ∨
  ParsedL2Word.error_code w = 0.
Proof.
  unfold parse_l2_word. destruct (_ <? _)%nat; [intros [= <-]; by left|].
  intros H. repeat (apply bind_Some in H as (? & _ & H)).
  destruct (is_vlan_tpid _); [destruct (_ <? _)%nat; [injection H as <-; right; by left|]|].
  - repeat (apply bind_Some in H as (? & _ & H)). injection H as <-. do 2 right.
    rewrite land_0fff. apply success_fields; [apply classify_u8|].
    match goal with |- is_u16 (?x `mod` _) => pose proof (Z.mod_pos_bound x 4096 eq_refl) end. ulia.
  - injection H as <-. do 2 right. apply success_fields; [apply classify_u8|].
    unfold NO_VLAN. ulia.
Qed.

(** What the packed word says, in terms of the reference parser. *)
Lemma parse_word_fields frame :
  Forall is_u8 frame →
  ∃ w, parse_l2_word frame = Some w ∧
    match parse_l2_spec frame with
    | Err _ => ParsedL2Word.is_error w = true
    | Ok l => ParsedL2Word.is_error w = false ∧
              ParsedL2Word.traffic_class w = pl_traffic_class l ∧
              ParsedL2Word.has_outer_vlan w = is_some (pl_outer_vlan_id l)
    end.
Proof.
  intros Hb. pose proof (parse_l2_correct frame Hb) as H. unfold parse_l2 in H.
  destruct (parse_l2_word frame) as [w|] eqn:Hw; [|done]. exists w. split; [done|].
  cbn [mbind option_bind] in H. unfold ParsedL2Word.is_error.
  destruct (parse_word_cases frame w Hw) as [->|[->|He]]; [injection H as <-; done..|].
  rewrite He in H |- *. injection H as <-. cbn.
  by destruct (ParsedL2Word.has_outer_vlan w).
Qed.

(** The part of the accounting that does not depend on sampling. *)
Lemma mark_vlan_visible_spec m ifindex config :
  bm_iface_config m !! ifindex = Some config →
  ic_vlan_visibility config = vlan_visibility.UNKNOWN →
  mark_vlan_visible m ifindex (ic_interface_generation config) =
  mkBpfMaps (<[ifindex := set_vlan_visible config]> (bm_iface_config m)) (bm_hook_stats m)
    (bm_fingerprints m).
Proof. intros Hc Hv. unfold mark_vlan_visible. by rewrite Hc, Hv, !Z.eqb_refl. Qed.

Section accounting.
Context (mem : Z → Z) (mem_bytes : ∀ a, is_u8 (mem a)).
Context (lru_insert : gmap FingerprintKey FingerprintValue → FingerprintKey → FingerprintValue
                      → gmap FingerprintKey FingerprintValue).

(** The direction of the records of a hook; none for the temporary hooks. *)
Definition sampled_direction (role : Z) : option Z :=
  if role =? hook_role.EXTERNAL_XDP_INGRESS then Some direction.INGRESS
  else if role =? hook_role.PHYSICAL_TC_EGRESS then Some direction.EGRESS
  else None.

(** One packet of a configured interface. *)
Lemma account_layer_spec m now ifindex role bytes data data_end config :
  bm_iface_config m !! ifindex = Some config →
  let frame := packet mem data data_end in
  let counted :=
    mkBpfMaps
      (if proves_visibility config frame
       then <[ifindex := set_vlan_visible config]> (bm_iface_config m) else bm_iface_config m)
      (bump bytes (packet_key (ic_interface_generation config) ifindex role frame)
         (bump bytes (StatsKey_total (ic_interface_generation config) ifindex role)
            (bm_hook_stats m)))
      (bm_fingerprints m) in
  account_layer mem lru_insert true m now ifindex role bytes data data_end =
    Some (match parse_l2_spec frame, sampled_direction role with
          | Ok _, Some dir =>
              if ic_sample_shift config =? FINGERPRINT_SAMPLE_SHIFT
              then account_fingerprint mem lru_insert counted now (ic_interface_generation config)
                     ifindex dir bytes data data_end
              else counted
          | _, _ => counted
          end).
Proof.
  intros Hc frame counted. unfold account_layer. rewrite Hc.
  rewrite !increment_existing_bump, parse_packet_reads_packet. fold frame. cbn [bm_iface_config bm_hook_stats bm_fingerprints].
  destruct (parse_word_fields frame) as (w & -> & Hw); [by apply read_bytes_u8|].
  cbn [mbind option_bind]. unfold packet_key, proves_visibility in counted.
  destruct (parse_l2_spec frame) as [l|e]; [destruct Hw as (-> & -> & ->)|rewrite Hw].
  2:{ unfold counted. by rewrite andb_false_r. }
  rewrite increment_existing_bump. cbn [bm_iface_config bm_hook_stats bm_fingerprints].
  assert ((if is_some (pl_outer_vlan_id l) && (ic_vlan_visibility config =? vlan_visibility.UNKNOWN)
    then mark_vlan_visible (mkBpfMaps (bm_iface_config m) (bm_hook_stats counted) (bm_fingerprints m))
           ifindex (ic_interface_generation config)
    else mkBpfMaps (bm_iface_config m) (bm_hook_stats counted) (bm_fingerprints m)) = counted) as Hm.
  { unfold counted. cbn [bm_hook_stats]. rewrite andb_comm.
    destruct (Z.eqb_spec (ic_vlan_visibility config) vlan_visibility.UNKNOWN) as [Hv|Hv]; [|done].
    destruct (is_some (pl_outer_vlan_id l)); [|done]. by rewrite mark_vlan_visible_spec. }
  unfold counted in Hm at 1 2. cbn [bm_hook_stats] in Hm. rewrite Hm. cbn [andb].
  unfold sampled_direction. by repeat case_match.
Qed.
End accounting.

(** ** Program runs

    A run is one packet handed to one of the four programs, with the memory it
    lies in and the time the kernel clock shows. *)
Inductive Program : Type :=
| XdpIngress (ctx : XdpContext)
| TcEgress (ctx : TcContext)
| TcPathIngress (ctx : TcContext)
| TcPathEgress (ctx : TcContext).

Record ProgramRun : Type := mkProgramRun {
  pr_mem : Z → Z;
  pr_now_ns : Z;
  pr_program : Program;
}.

Definition run_program lru_insert (m : BpfMaps) (run : ProgramRun) : panics (BpfMaps * Z) :=
  match pr_program run with
  | XdpIngress ctx => l2_loop_xdp_ingress (pr_mem run) lru_insert m (pr_now_ns run) ctx
  | TcEgress ctx => l2_loop_tc_egress (pr_mem run) lru_insert m (pr_now_ns run) ctx
  | TcPathIngress ctx => l2_loop_tc_path_ingress (pr_mem run) lru_insert m (pr_now_ns run) ctx
  | TcPathEgress ctx => l2_loop_tc_path_egress (pr_mem run) lru_insert m (pr_now_ns run) ctx
  end.

(** Runs in sequence, with the verdicts they return. *)
Fixpoint run_programs lru_insert (m : BpfMaps) (runs : list ProgramRun)
    : panics (BpfMaps * list Z) :=
  match runs with
  | [] => Some (m, [])
  | run :: runs =>
      first ← run_program lru_insert m run;
      rest ← run_programs lru_insert first.1 runs;
      Some (rest.1, first.2 :: rest.2)
  end.

Definition run_role (run : ProgramRun) : Z :=
  match pr_program run with
  | XdpIngress _ => hook_role.EXTERNAL_XDP_INGRESS
  | TcEgress _ => hook_role.PHYSICAL_TC_EGRESS
  | TcPathIngress _ => hook_role.TEMPORARY_PATH_INGRESS
  | TcPathEgress _ => hook_role.TEMPORARY_PATH_EGRESS
  end.

Definition run_ifindex (run : ProgramRun) : Z :=
  match pr_program run with
  | XdpIngress ctx => xc_ingress_ifindex ctx
  | TcEgress ctx | TcPathIngress ctx | TcPathEgress ctx => tc_ifindex ctx
  end.

Definition run_span (run : ProgramRun) : Z * Z :=
  match pr_program run with
  | XdpIngress ctx => (xc_data ctx, xc_data_end ctx)
  | TcEgress ctx | TcPathIngress ctx | TcPathEgress ctx => (tc_data ctx, tc_data_end ctx)
  end.

Definition run_bytes (run : ProgramRun) : Z :=
  match pr_program run with
  | XdpIngress ctx => xc_data_end ctx - xc_data ctx
  | TcEgress ctx | TcPathIngress ctx | TcPathEgress ctx => tc_len ctx
  end.

Definition run_frame (run : ProgramRun) : list Z :=
  packet (pr_mem run) (run_span run).1 (run_span run).2.

Definition run_verdict (run : ProgramRun) : Z :=
  match pr_program run with XdpIngress _ => XDP_PASS | _ => TC_ACT_OK end.

(** Memory holds bytes, and the linear part of a packet is an interval no longer
    than the packet. *)
Definition run_ok (run : ProgramRun) : Prop :=
  (∀ a, is_u8 (pr_mem run a)) ∧ (run_span run).1 ≤ (run_span run).2 ∧
  (run_span run).2 - (run_span run).1 ≤ run_bytes run.

Section runs.
Context (lru_insert : gmap FingerprintKey FingerprintValue → FingerprintKey → FingerprintValue
                      → gmap FingerprintKey FingerprintValue).

Lemma run_program_layer m run :
  run_ok run →
  run_program lru_insert m run =
    (λ m, (m, run_verdict run)) <$>
      account_layer (pr_mem run) lru_insert true m (pr_now_ns run) (run_ifindex run) (run_role run)
        (run_bytes run) (run_span run).1 (run_span run).2.
Proof.
  intros (_ & Hle & _). destruct run as [mem now p].
  unfold run_program, run_ok, run_verdict, run_ifindex, run_role, run_bytes, run_span in *.
  cbn [pr_program pr_mem pr_now_ns] in *. destruct p as [ctx|ctx|ctx|ctx]; cbn [fst snd] in *.
  - unfold l2_loop_xdp_ingress, account_xdp, account_xdp_layer.
    rewrite checked_sub_ok by done. by destruct (account_layer _ _ _ _ _ _ _ _ _ _).
  - unfold l2_loop_tc_egress, account_tc, account_tc_layer.
    by destruct (account_layer _ _ _ _ _ _ _ _ _ _).
  - unfold l2_loop_tc_path_ingress, account_tc, account_tc_layer.
    by destruct (account_layer _ _ _ _ _ _ _ _ _ _).
  - unfold l2_loop_tc_path_egress, account_tc, account_tc_layer.
    by destruct (account_layer _ _ _ _ _ _ _ _ _ _).
Qed.

(** The counters after one run. *)
Definition counted_stats (m : BpfMaps) (run : ProgramRun) : gmap StatsKey CounterValue :=
  match bm_iface_config m !! run_ifindex run with
  | None => bm_hook_stats m
  | Some config =>
      let generation := ic_interface_generation config in
      bump (run_bytes run) (packet_key generation (run_ifindex run) (run_role run) (run_frame run))
        (bump (run_bytes run) (StatsKey_total generation (run_ifindex run) (run_role run))
           (bm_hook_stats m))
  end.

Lemma account_fingerprint_stats mem m now g i dir bytes data data_end :
  bm_hook_stats (account_fingerprint mem lru_insert m now g i dir bytes data data_end) = bm_hook_stats m ∧
  bm_iface_config (account_fingerprint mem lru_insert m now g i dir bytes data data_end) = bm_iface_config m.
Proof. unfold account_fingerprint. repeat case_match; done. Qed.

(** A run never panics, passes the packet and counts it. *)
Lemma run_program_stats m run :
  run_ok run →
  ∃ m', run_program lru_insert m run = Some (m', run_verdict run) ∧
        bm_hook_stats m' = counted_stats m run.
Proof.
  intros Hr. rewrite run_program_layer by done. unfold counted_stats.
  destruct (bm_iface_config m !! run_ifindex run) as [config|] eqn:Hc.
  - erewrite account_layer_spec by (done || apply Hr). eexists. split; [reflexivity|].
    fold (run_frame run).
    repeat case_match; try done; by rewrite (proj1 (account_fingerprint_stats _ _ _ _ _ _ _ _ _)).
  - exists m. split; [|done]. unfold account_layer. by rewrite Hc.
Qed.
End runs.

(** ** Conservation of the counters *)
Definition counter (stats : gmap StatsKey CounterValue) (key : StatsKey) : CounterValue :=
  default (mkCounterValue 0 0) (stats !! key).

(** On every hook whose eight counters exist, the total is the sum of the six
    classes and the parse errors, in packets and in bytes, modulo 2^64. *)
Definition balanced (field : CounterValue → Z) (stats : gmap StatsKey CounterValue)
    (keys : list StatsKey) : Prop :=
  match keys with
  | total :: parts =>
      field (counter stats total) = sum_of (λ k, field (counter stats k)) parts `mod` (U64_MAX + 1)
  | [] => True
  end.

Definition conserved (stats : gmap StatsKey CounterValue) : Prop :=
  ∀ generation ifindex role,
    let keys := vec_to_list (observation_keys generation ifindex role) in
    Forall (λ k, is_Some (stats !! k)) keys →
    balanced cv_packets stats keys ∧ balanced cv_bytes stats keys.

(** A field that every increment adds [n] to, modulo 2^64. *)
Definition adds (field : CounterValue → Z) (bytes n : Z) : Prop :=
  ∀ c, field (increment_counter c bytes) = (field c + n) `mod` (U64_MAX + 1).

Lemma adds_packets bytes : adds cv_packets bytes 1.
Proof. done. Qed.

Lemma adds_bytes bytes : adds cv_bytes bytes bytes.
Proof. done. Qed.

Lemma counter_bump_ne bytes key stats k :
  k ≠ key → counter (bump bytes key stats) k = counter stats k.
Proof. intros. unfold counter, bump. by rewrite lookup_alter_ne. Qed.

Lemma counter_bump_eq field bytes n key stats :
  adds field bytes n → is_Some (stats !! key) →
  field (counter (bump bytes key stats) key) = (field (counter stats key) + n) `mod` (U64_MAX + 1).
Proof.
  intros Ha [c Hc]. unfold counter, bump. rewrite lookup_alter_eq, Hc. cbn. apply Ha.
Qed.

Lemma bump_is_Some bytes key stats k :
  is_Some (bump bytes key stats !! k) ↔ is_Some (stats !! k).
Proof. unfold bump. rewrite lookup_alter_is_Some. done. Qed.

Lemma sum_bump_other field bytes key stats (l : list StatsKey) :
  key ∉ l → sum_of (λ k, field (counter (bump bytes key stats) k)) l
            = sum_of (λ k, field (counter stats k)) l.
Proof.
  induction l as [|k l IH]; intros Hk; [done|]. rewrite !sum_of_cons.
  apply not_elem_of_cons in Hk as [Hne Hk]. rewrite IH, counter_bump_ne by done. done.
Qed.

Lemma sum_bump field bytes n key stats (l : list StatsKey) :
  adds field bytes n → NoDup l → key ∈ l → is_Some (stats !! key) →
  sum_of (λ k, field (counter (bump bytes key stats) k)) l `mod` (U64_MAX + 1) =
  (sum_of (λ k, field (counter stats k)) l + n) `mod` (U64_MAX + 1).
Proof.
  intros Ha Hnd Hin Hs. induction Hnd as [|k l Hk Hnd IH]; [by apply elem_of_nil in Hin|].
  rewrite !sum_of_cons. apply elem_of_cons in Hin as [->|Hin].
  - rewrite sum_bump_other, (counter_bump_eq field bytes n) by done.
    rewrite Zplus_mod_idemp_l. f_equal. lia.
  - rewrite counter_bump_ne by (by intros ->).
    rewrite Zplus_mod, IH, <-Zplus_mod by done. f_equal. lia.
Qed.

(** A packet is one of its hook's seven parts, and counts for no other hook. *)
Lemma parse_spec_class frame l : parse_l2_spec frame = Ok l → 2 ≤ pl_traffic_class l ≤ 7.
Proof.
  unfold parse_l2_spec. intros H. repeat (case_match; try done); injection H as <-;
    apply classify_range.
Qed.

Lemma packet_key_part g i r frame :
  packet_key g i r frame ∈ tail (vec_to_list (observation_keys g i r)).
Proof.
  unfold packet_key. destruct (parse_l2_spec frame) as [l|e] eqn:Hl; [|set_solver].
  apply parse_spec_class in Hl. revert Hl. generalize (pl_traffic_class l). intros c Hc.
  assert (c = 2 ∨ c = 3 ∨ c = 4 ∨ c = 5 ∨ c = 6 ∨ c = 7) as Hcs by lia.
  destruct_or! Hcs; subst c; set_solver.
Qed.

Lemma observation_keys_hook g i r k :
  k ∈ vec_to_list (observation_keys g i r) →
  sk_interface_generation k = g ∧ sk_ifindex k = i ∧ sk_hook_role k = r.
Proof. intros Hk. cbn in Hk. set_unfold in Hk. destruct_or! Hk; by subst k. Qed.

Lemma observation_keys_NoDup g i r : NoDup (vec_to_list (observation_keys g i r)).
Proof.
  apply (NoDup_fmap_1 (λ k, (sk_traffic_class k, sk_verdict k))).
  apply (bool_decide_unpack _). vm_compute. exact I.
Qed.

Lemma balanced_bump field bytes n stats total parts key :
  adds field bytes n → NoDup (total :: parts) → key ∈ parts →
  is_Some (stats !! total) → is_Some (stats !! key) →
  balanced field stats (total :: parts) →
  balanced field (bump bytes key (bump bytes total stats)) (total :: parts).
Proof.
  intros Ha Hnd Hin Ht Hk Hb. apply NoDup_cons in Hnd as [Hnt Hnd]. cbn [balanced] in *.
  rewrite counter_bump_ne by (by intros ->). rewrite (counter_bump_eq field bytes n) by done.
  rewrite (sum_bump field bytes n) by (done || by apply bump_is_Some).
  rewrite sum_bump_other by done. rewrite Hb. by rewrite Zplus_mod_idemp_l.
Qed.

Lemma balanced_bump_other field bytes stats keys key :
  key ∉ keys → balanced field stats keys → balanced field (bump bytes key stats) keys.
Proof.
  destruct keys as [|total parts]; [done|]. intros [Hne Hn]%not_elem_of_cons. cbn [balanced].
  rewrite counter_bump_ne by done. by rewrite sum_bump_other.
Qed.

Lemma counted_conserved m run : conserved (bm_hook_stats m) → conserved (counted_stats m run).
Proof.
  intros Hc. unfold counted_stats. destruct (bm_iface_config m !! run_ifindex run) as [config|]; [|done].
  set (g := ic_interface_generation config). set (i := run_ifindex run). set (r := run_role run).
  intros g' i' r' keys Hs.
  assert (Forall (λ k, is_Some (bm_hook_stats m !! k)) keys) as Hs'.
  { eapply Forall_impl; [exact Hs|]. intros k Hk. by apply bump_is_Some, bump_is_Some in Hk. }
  destruct (Hc g' i' r' Hs') as [Hp Hb]. fold keys in Hp, Hb.
  pose proof (packet_key_part g i r (run_frame run)) as Hpart.
  assert (StatsKey_total g i r ∈ vec_to_list (observation_keys g i r)) as Htot by set_solver.
  pose proof (observation_keys_NoDup g i r) as Hnd.
  assert (packet_key g i r (run_frame run) ∈ vec_to_list (observation_keys g i r)) as Hpart'.
  { by apply list_elem_of_further. }
  destruct (decide (g' = g ∧ i' = i ∧ r' = r)) as [(-> & -> & ->)|Hne].
  - unfold keys in *. rewrite Forall_forall in Hs'.
    split; eapply balanced_bump; eauto using adds_packets, adds_bytes.
  - assert (∀ k, k ∈ vec_to_list (observation_keys g i r) → k ∉ keys) as Hout.
    { intros k Hk Hk'. apply observation_keys_hook in Hk as (<- & <- & <-).
      apply observation_keys_hook in Hk' as (<- & <- & <-). by apply Hne. }
    split; apply balanced_bump_other, balanced_bump_other; auto.
Qed.

(** ** Recorded evidence *)

(** A record of the fingerprint map at time [now]. *)
Record record_ok (now : Z) (k : FingerprintKey) (v : FingerprintValue) : Prop := {
  ro_selected : fingerprint_selected (fk_fingerprint k) = true;
  ro_direction : fk_direction k = direction.INGRESS ∨ fk_direction k = direction.EGRESS;
  ro_vlan : fk_outer_vlan_id k = NO_VLAN ∨ 0 ≤ fk_outer_vlan_id k ≤ 4095;
  ro_depth : 0 ≤ fk_vlan_depth k ≤ 2;
  ro_reserved : fk_reserved k = [# 0; 0] ∧ fv_reserved v = [# 0; 0; 0; 0];
  ro_packets : 1 ≤ fv_packets v ≤ fv_bytes v;
  ro_bytes : fv_bytes v ≤ U64_MAX;
  ro_seen : fv_first_seen_ns v ≤ fv_last_seen_ns v ≤ now;
}.

Definition records_ok (now : Z) (fingerprints : gmap FingerprintKey FingerprintValue) : Prop :=
  map_Forall (record_ok now) fingerprints.

(** A record is valid evidence exactly when its VLAN identifier is not the
    reserved 4095. *)
Lemma record_ok_evidence now k v :
  record_ok now k v →
  validate_evidence (mkFingerprintEvidence k v) (fk_ifindex k) (fk_interface_generation k) = Ok tt ↔
  fk_outer_vlan_id k ≠ 4095.
Proof.
  intros [_ Hd Hv Hk [Hr1 Hr2] Hp _ Hs]. unfold validate_evidence. cbn [fe_key fe_value].
  rewrite !Z.eqb_refl, !bool_decide_eq_true_2 by done. unfold NO_VLAN in *.
  rewrite !(proj2 (Z.ltb_ge _ _)), (proj2 (Z.eqb_neq (fv_packets v) 0)) by lia.
  cbn [negb orb].
  assert (negb ((fk_direction k =? direction.INGRESS) || (fk_direction k =? direction.EGRESS)) = false)
    as -> by (by destruct Hd as [-> | ->]).
  destruct (Z.eqb_spec (fk_outer_vlan_id k) 65535), (Z.leb_spec (fk_outer_vlan_id k) 4094); cbn;
    split; (done || lia || intros; done).
Qed.

Lemma fixed_metadata_vlan frame :
  let m := fixed_fingerprint_metadata frame in
  (fm_outer_vlan_id m = NO_VLAN ∨ 0 ≤ fm_outer_vlan_id m ≤ 4095) ∧ 0 ≤ fm_vlan_depth m ≤ 2.
Proof.
  unfold fixed_fingerprint_metadata. rewrite land_0fff.
  pose proof (Z.mod_pos_bound (u16_from_be (frame !!! 14%nat) (frame !!! 15%nat)) 4096 eq_refl).
  destruct (_ || _); [destruct (_ || _)|]; cbn [Z.eqb Pos.eqb];
    repeat match goal with |- context [let '(_, _) := ?x in _] => destruct x end;
    cbn; split; lia || by left || (right; lia).
Qed.

Section evidence.
Context (lru_insert : gmap FingerprintKey FingerprintValue → FingerprintKey → FingerprintValue
                      → gmap FingerprintKey FingerprintValue).
Context (lru_insert_sub : ∀ m k v, m !! k = None → lru_insert m k v ⊆ <[k := v]> m).

Lemma account_fingerprint_records mem m then_ now g i dir bytes data data_end :
  dir = direction.INGRESS ∨ dir = direction.EGRESS → then_ ≤ now → data_end - data ≤ bytes →
  records_ok then_ (bm_fingerprints m) →
  records_ok now (bm_fingerprints
    (account_fingerprint mem lru_insert m now g i dir bytes data data_end)).
Proof.
  intros Hdir Hnow Hb Hok.
  assert (records_ok now (bm_fingerprints m)) as Hok'.
  { eapply map_Forall_impl; [exact Hok|]. intros k v []. split; try done. lia. }
  unfold account_fingerprint, packet_prefix. destruct (try_from_wide U16_MAX bytes) as [n|] eqn:Hn; [|done].
  apply try_from_wide_Some in Hn as [-> Hmax].
  destruct (Z.ltb_spec data_end (data + Z.of_nat FINGERPRINT_PREFIX_LEN)) as [|Hlen]; [done|].
  set (frame := read_bytes _ _ _). destruct (fingerprint_selected _) eqn:Hsel; [|done]. cbn [negb].
  unfold FINGERPRINT_PREFIX_LEN in Hlen.
  destruct (fixed_metadata_vlan frame) as [Hvlan Hdepth]. set (k := fingerprint_key _ _ _ _ _ _).
  cbn [bm_fingerprints]. destruct (bm_fingerprints m !! k) as [v|] eqn:Hk.
  - apply map_Forall_insert_2; [|done]. pose proof (map_Forall_lookup_1 _ _ _ _ Hok' Hk) as [].
    pose proof (map_Forall_lookup_1 _ _ _ _ Hok Hk) as [].
    constructor; [exact Hsel|exact Hdir|exact Hvlan|exact Hdepth|done| | |];
      cbn [fingerprint_value_seen fv_packets fv_bytes fv_first_seen_ns fv_last_seen_ns]; ulia.
  - intros k' v' Hk'. pose proof (lookup_weaken _ _ _ _ Hk' (lru_insert_sub _ _ _ Hk)) as Hin.
    revert k' v' Hk' Hin. cut (records_ok now (<[k := fingerprint_value_new now bytes (fixed_fingerprint_metadata frame)]> (bm_fingerprints m)));
      [by intros Hall k' v' _ Hin; apply Hall|].
    apply map_Forall_insert_2; [|done].
    constructor; [exact Hsel|exact Hdir|exact Hvlan|exact Hdepth|by split| | |];
      cbn [fingerprint_value_new fv_packets fv_bytes fv_first_seen_ns fv_last_seen_ns]; ulia.
Qed.

Lemma run_program_records m run then_ m' verdict :
  run_ok run → then_ ≤ pr_now_ns run → records_ok then_ (bm_fingerprints m) →
  run_program lru_insert m run = Some (m', verdict) → records_ok (pr_now_ns run) (bm_fingerprints m').
Proof.
  intros Hr Hnow Hok H. rewrite run_program_layer in H by done.
  assert (records_ok (pr_now_ns run) (bm_fingerprints m)) as Hok'.
  { eapply map_Forall_impl; [exact Hok|]. intros k v []. split; try done. lia. }
  destruct (bm_iface_config m !! run_ifindex run) as [config|] eqn:Hc.
  - erewrite account_layer_spec in H by (done || apply Hr). cbn [fmap option_fmap option_map] in H.
    injection H as <- <-. destruct (parse_l2_spec _); [|done].
    destruct (sampled_direction (run_role run)) as [dir|] eqn:Hdir; [|done].
    destruct (_ =? FINGERPRINT_SAMPLE_SHIFT); [|done].
    eapply account_fingerprint_records; [|exact Hnow|apply Hr|done].
    unfold sampled_direction in Hdir. repeat case_match; naive_solver.
  - unfold account_layer in H. rewrite Hc in H. injection H as <- <-. done.
Qed.

Lemma run_programs_records runs : ∀ m then_ m' verdicts,
  Forall run_ok runs → Sorted Z.le (then_ :: (pr_now_ns <$> runs)) →
  records_ok then_ (bm_fingerprints m) →
  run_programs lru_insert m runs = Some (m', verdicts) →
  ∃ now, records_ok now (bm_fingerprints m').
Proof.
  induction runs as [|run runs IH]; intros m then_ m' verdicts Hr Ht Hok H.
  - injection H as <- <-. by exists then_.
  - apply Forall_cons in Hr as [Hr Hrs]. cbn [run_programs] in H.
    apply bind_Some in H as ([m1 v] & H1 & H). apply bind_Some in H as ([m2 vs] & H2 & H).
    injection H as <- <-. cbn [fst] in *. inversion Ht as [|? ? Ht' Hh]; subst. inversion Hh; subst.
    eapply IH; [done|exact Ht'| |exact H2]. by eapply run_program_records.
Qed.
End evidence.

(** ** Properties *)

(** C37: a program never panics, whatever bytes a packet holds and however
    short it is; it always returns the pass verdict; and on a configured
    interface it adds the packet to exactly two of the preallocated counters,
    the total of its hook and the one counter of the class, or parse error,
    that the reference parser assigns to the frame.  On any other interface it
    changes no counter. *)
Theorem program_passes_and_counts lru_insert m run :
  run_ok run →
  ∃ m', run_program lru_insert m run = Some (m', run_verdict run) ∧
        bm_hook_stats m' = counted_stats m run.
Proof. apply run_program_stats. Qed.

(** Conservation.  Over any sequence of packets on any interfaces and
    hooks, no program panics, and on every hook whose eight counters exist the
    total keeps equal to the sum of the six classes and the parse errors, in
    packets and in bytes, modulo 2^64. *)
Lemma counters_conserved lru_insert runs m :
  Forall run_ok runs → conserved (bm_hook_stats m) →
  ∃ m', run_programs lru_insert m runs = Some (m', run_verdict <$> runs) ∧
        conserved (bm_hook_stats m').
Proof.
  intros Hr. revert m. induction Hr as [|run runs Hrun _ IH]; intros m Hc; [by exists m|].
  destruct (run_program_stats lru_insert m run Hrun) as (m1 & H1 & Hs).
  destruct (IH m1) as (m2 & H2 & Hc2); [rewrite Hs; by apply counted_conserved|].
  exists m2. cbn [run_programs]. rewrite H1. cbn [mbind option_bind fst snd]. by rewrite H2.
Qed.

(** C36: every record the programs write is evidence userspace accepts, unless
    its VLAN identifier is 4095.  Starting from an empty fingerprint map, after
    any sequence of packets at non-decreasing clock times, and whatever records
    the kernel's LRU map evicts or refuses, each record of the map passes
    [validate_evidence] for its own interface and generation exactly when its
    VLAN identifier is not 4095. *)
Theorem recorded_evidence_valid lru_insert runs m m' verdicts :
  (∀ m k v, m !! k = None → lru_insert m k v ⊆ <[k := v]> m) →
  Forall run_ok runs → Sorted Z.le (pr_now_ns <$> runs) → bm_fingerprints m = ∅ →
  run_programs lru_insert m runs = Some (m', verdicts) →
  ∀ k v, bm_fingerprints m' !! k = Some v →
    (validate_evidence (mkFingerprintEvidence k v) (fk_ifindex k) (fk_interface_generation k) = Ok tt
      ↔ fk_outer_vlan_id k ≠ 4095).
Proof.
  intros Hlru Hr Ht Hm H k v Hk.
  assert (∃ t, Sorted Z.le (t :: (pr_now_ns <$> runs))) as [t Ht'].
  { exists (default 0 (head (pr_now_ns <$> runs))). constructor; [done|].
    destruct runs; constructor; cbn; lia. }
  destruct (run_programs_records lru_insert Hlru runs m t m' verdicts Hr Ht') as [now Hok];
    [rewrite Hm; apply map_Forall_empty|done|].
  by eapply record_ok_evidence, (map_Forall_lookup_1 _ _ _ _ Hok Hk).
Qed.

(** ** Examples *)
Module EbpfExample.
Definition lru_insert (m : gmap FingerprintKey FingerprintValue) k v := <[k := v]> m.
(** A frame of 64 zero bytes at address 4096, but for the sixth byte, which makes
    the sampling select it. *)
Definition mem (a : Z) : Z := if a =? 4096 + 5 then 7 else 0.
Definition config : InterfaceConfig := InterfaceConfig_new 42 0 7 1 1 0 4.
Definition stats : gmap StatsKey CounterValue :=
  list_to_map ((λ k, (k, mkCounterValue 0 0)) <$>
    vec_to_list (observation_keys 42 7 hook_role.EXTERNAL_XDP_INGRESS)).
Definition maps : BpfMaps := mkBpfMaps {[ 7 := config ]} stats ∅.
Definition run (len : Z) : ProgramRun :=
  mkProgramRun mem 100 (XdpIngress (mkXdpContext 4096 (4096 + len) 7)).
Definition prefix : list Z := packet mem 4096 (4096 + 60).
Definition key : FingerprintKey :=
  fingerprint_key 42 (fixed_fingerprint_hash 64 prefix) 7 64 direction.INGRESS
    (fixed_fingerprint_metadata prefix).
Definition value : FingerprintValue :=
  fingerprint_value_new 100 64 (fixed_fingerprint_metadata prefix).

(** An IPv4 frame with fifteen header words: its options leave the prefix. *)
Definition long_header : list Z :=
  replicate 12 2 ++ [8; 0] ++ [0x4f] ++ replicate 8 0 ++ [1] ++ replicate 60 5.

Lemma mem_bytes a : is_u8 (mem a).
Proof. unfold mem. destruct (_ =? _); ulia. Qed.

Lemma run_is_ok len : 0 ≤ len → run_ok (run len).
Proof. intros. split; [apply mem_bytes|]. cbn. lia. Qed.
End EbpfExample.

(** The parsers differ on these two headers: the whole one, whose ICMP type the
    fixed parser does not see, and one the frame cuts off, whose protocol only
    the fixed parser reports. *)
Lemma fixed_parsers_differ :
  (fixed_fingerprint_metadata (take 60 EbpfExample.long_header)).(fm_subtype) = 0 ∧
  (∃ m, parse_fingerprint_metadata EbpfExample.long_header = Some (Some m) ∧
    fm_protocol m = 1 ∧ fm_subtype m = 5) ∧
  let cut := take 64 EbpfExample.long_header in
  (fixed_fingerprint_metadata (take 60 cut)).(fm_protocol) = 1 ∧
  (∃ m, parse_fingerprint_metadata cut = Some (Some m) ∧ fm_protocol m = 0 ∧ fm_subtype m = 0).
Proof. vm_compute. split_and!; try done; by eexists. Qed.

Lemma fixed_parsers_match_reference_witness :
  fingerprint_hash EbpfExample.long_header =
    Some (fixed_fingerprint_hash 84 (take 60 EbpfExample.long_header)) ∧
  ∃ m, parse_fingerprint_metadata EbpfExample.long_header = Some (Some m) ∧
    same_metadata EbpfExample.long_header
      (fixed_fingerprint_metadata (take 60 EbpfExample.long_header)) m.
Proof.
  apply (fixed_parsers_match_reference EbpfExample.long_header).
  - apply (bool_decide_unpack _). vm_compute. exact I.
  - apply Nat.leb_le. reflexivity.
  - apply Z.leb_le. reflexivity.
Defined.

Lemma program_passes_and_counts_witness :
  ∃ m', run_program EbpfExample.lru_insert EbpfExample.maps (EbpfExample.run 64) =
          Some (m', XDP_PASS) ∧
        bm_hook_stats m' = counted_stats EbpfExample.maps (EbpfExample.run 64).
Proof.
  apply (program_passes_and_counts EbpfExample.lru_insert EbpfExample.maps (EbpfExample.run 64)).
  apply EbpfExample.run_is_ok. lia.
Defined.

Lemma stats_conserved : conserved EbpfExample.stats.
Proof.
  intros g i r keys H. assert (StatsKey_total g i r ∈ keys) as Hin by set_solver.
  assert (∀ k, counter EbpfExample.stats k = mkCounterValue 0 0) as Hz.
  { intros k. unfold counter. destruct (EbpfExample.stats !! k) as [c|] eqn:Hk; [|done].
    apply elem_of_list_to_map_2, list_elem_of_fmap in Hk as (? & [= -> ->] & _). done. }
  unfold keys, balanced. cbn [vec_to_list observation_keys]. unfold sum_of. cbn [foldr].
  by rewrite !Hz.
Qed.

Lemma counters_conserved_witness :
  ∃ m', run_programs EbpfExample.lru_insert EbpfExample.maps
          [EbpfExample.run 64; EbpfExample.run 10] = Some (m', [XDP_PASS; XDP_PASS]) ∧
        conserved (bm_hook_stats m').
Proof.
  apply (counters_conserved EbpfExample.lru_insert [EbpfExample.run 64; EbpfExample.run 10]
    EbpfExample.maps).
  - repeat constructor; apply EbpfExample.run_is_ok; lia.
  - apply stats_conserved.
Defined.

(** The sampled frame is recorded, and its record is valid evidence. *)
Lemma recorded_evidence_valid_witness :
  ∃ m' verdicts,
    run_programs EbpfExample.lru_insert EbpfExample.maps [EbpfExample.run 64] = Some (m', verdicts) ∧
    (validate_evidence (mkFingerprintEvidence EbpfExample.key EbpfExample.value) 7 42 = Ok tt
      ↔ fk_outer_vlan_id EbpfExample.key ≠ 4095).
Proof.
  eexists _, _. split; [vm_compute; reflexivity|].
  eapply (recorded_evidence_valid EbpfExample.lru_insert [EbpfExample.run 64] EbpfExample.maps).
  - intros m k v _. reflexivity.
  - repeat constructor; apply EbpfExample.run_is_ok; lia.
  - repeat constructor.
  - reflexivity.
  - vm_compute. reflexivity.
  - vm_compute. reflexivity.
Defined.
