(* ===== verification/Preflight.v ===== *)
(** Preflight reports of [l2-loop-core] ([preflight.rs]): what the inspectors
    found out about an interface, the kernel and the eBPF objects on it, and the
    decision the report derives from its findings. *)
From S2P Require Import Prelude Domain.

Definition PF_MEMLOCK_TOO_LOW : string := "PF_MEMLOCK_TOO_LOW".
Definition PF_LIVE_INTERFACE : string := "PF_LIVE_INTERFACE".
Definition PF_OWNERSHIP_MISMATCH : string := "PF_OWNERSHIP_MISMATCH".

Inductive PreflightDecision : Type := PreflightReady | ReadyWithWarnings | Blocked.

(** In declaration order, which is the derived order. *)
Inductive FindingSeverity : Type := Blocker | Warning | Information.

#[export] Instance PreflightDecision_eq_dec : EqDecision PreflightDecision.
Proof. solve_decision. Defined.
#[export] Instance FindingSeverity_eq_dec : EqDecision FindingSeverity.
Proof. solve_decision. Defined.

Record PreflightFinding : Type := mkPreflightFinding {
  pf_code : string;
  pf_severity : FindingSeverity;
  pf_message : string;
}.

Inductive InterfaceKind : Type :=
| Physical | Bond | Veth | Bridge | OvsInternal | Tap | UnsupportedKind.

#[export] Instance InterfaceKind_eq_dec : EqDecision InterfaceKind.
Proof. solve_decision. Defined.

Inductive BondMode : Type := ActiveBackup | UnsupportedMode.

Record InterfaceRef : Type := mkInterfaceRef {
  ir_name : InterfaceName;
  ir_ifindex : Z;
}.

Record BondInspection : Type := mkBondInspection {
  bi_mode : BondMode;
  bi_slaves : list InterfaceRef;
  bi_active_slave : option InterfaceRef;
}.

Record AttachmentTarget : Type := mkAttachmentTarget {
  at_interface : InterfaceRef;
  at_role : HookRole;
}.

Record InterfaceInspection : Type := mkInterfaceInspection {
  ii_requested : InterfaceRef;
  ii_kind : InterfaceKind;
  ii_admin_up : bool;
  ii_oper_up : bool;
  ii_master : option InterfaceRef;
  ii_bond : option BondInspection;
  ii_proposed_targets : list AttachmentTarget;
  ii_isolated : bool;
  ii_live_shared : bool;
}.

Inductive AttachmentState : Type :=
| AttachmentEmpty
| AttachmentOwned (program_id : Z)
| AttachmentOccupied (program_id : Z)
| AttachmentUnknown.

Inductive PinRootState : Type := PinRootAbsent | PinRootEmpty | PinRootOwned | PinRootForeign.

Record TcAttachment : Type := mkTcAttachment {
  ta_direction : Direction;
  ta_priority : Z;
  ta_handle : Z;
  ta_program_id : Z;
}.

Record MemlockInspection : Type := mkMemlockInspection {
  mi_soft_bytes : option Z;
  mi_hard_bytes : option Z;
  mi_required_bytes : Z;
  mi_can_raise : bool;
}.

Record KernelInspection : Type := mkKernelInspection {
  ki_architecture : string;
  ki_release : string;
  ki_bpf_syscall : bool;
  ki_bpf_jit : bool;
  ki_btf_readable : bool;
  ki_tc_clsact : bool;
}.

Record BpfInspection : Type := mkBpfInspection {
  bp_bpffs_mounted : bool;
  bp_relevant_objects_enumerable : bool;
  bp_pin_root : PinRootState;
  bp_xdp_native : AttachmentState;
  bp_xdp_generic : AttachmentState;
  bp_tc_ingress : list TcAttachment;
  bp_tc_egress : list TcAttachment;
  bp_memlock : MemlockInspection;
}.

Record PreflightReport : Type := mkPreflightReport {
  pr_decision : PreflightDecision;
  pr_interface : InterfaceInspection;
  pr_kernel : KernelInspection;
  pr_bpf : BpfInspection;
  pr_findings : list PreflightFinding;
}.

(** ** Building a report *)
Definition severity_index (s : FindingSeverity) : Z :=
  match s with Blocker => 0 | Warning => 1 | Information => 2 end.

(** [left.severity.cmp(&right.severity).then_with(|| left.code.cmp(&right.code))]. *)
Definition finding_cmp (left right : PreflightFinding) : comparison :=
  match severity_index (pf_severity left) ?= severity_index (pf_severity right) with
  | Eq => String.compare (pf_code left) (pf_code right)
  | order => order
  end.

Definition PreflightReport_new (interface : InterfaceInspection) (kernel : KernelInspection)
    (bpf : BpfInspection) (findings : list PreflightFinding) : PreflightReport :=
  let findings := sort_by finding_cmp findings in
  let decision :=
    if existsb (λ finding, bool_decide (pf_severity finding = Blocker)) findings then Blocked
    else if existsb (λ finding, bool_decide (pf_severity finding = Warning)) findings
    then ReadyWithWarnings
    else PreflightReady in
  mkPreflightReport decision interface kernel bpf findings.

(** ** The order of the findings *)
Lemma finding_cmp_antisym x y : finding_cmp y x = CompOpp (finding_cmp x y).
Proof.
  unfold finding_cmp. rewrite (Z.compare_antisym (severity_index (pf_severity x))).
  destruct (_ ?= _); cbn; [apply String.compare_antisym|done..].
Qed.

(** A report keeps exactly the findings it is given, ordered by severity
    and code, and its decision is blocked exactly when a finding is a blocker,
    and ready exactly when every finding is informational. *)
Theorem preflight_report_correct interface kernel bpf findings :
  let r := PreflightReport_new interface kernel bpf findings in
  pr_findings r ≡ₚ findings ∧ Sorted (cmp_le finding_cmp) (pr_findings r) ∧
  (pr_decision r = Blocked ↔ ∃ f, f ∈ findings ∧ pf_severity f = Blocker) ∧
  (pr_decision r = PreflightReady ↔ Forall (λ f, pf_severity f = Information) findings).
Proof.
  intros r. assert (∀ s, existsb (λ f, bool_decide (pf_severity f = s)) (sort_by finding_cmp findings) = true
    ↔ ∃ f, f ∈ findings ∧ pf_severity f = s) as Hex.
  { intros s. rewrite existsb_exists. setoid_rewrite <-list_elem_of_In.
    setoid_rewrite bool_decide_eq_true. by setoid_rewrite sort_by_Permutation. }
  split; [apply sort_by_Permutation|]. split; [apply sort_by_sorted, finding_cmp_antisym|].
  unfold r, PreflightReport_new. cbn [pr_decision].
  rewrite Forall_forall. pose proof (Hex Blocker) as Hb. pose proof (Hex Warning) as Hw.
  destruct (existsb (λ f, bool_decide (pf_severity f = Blocker)) _);
    [|destruct (existsb (λ f, bool_decide (pf_severity f = Warning)) _)].
  - destruct Hb as [Hb _]. specialize (Hb eq_refl). split; [done|]. split; [done|].
    intros Hi. destruct Hb as (f & Hf & Hs). rewrite (Hi f Hf) in Hs. done.
  - destruct Hw as [Hw _]. specialize (Hw eq_refl). split; [split; [done|intros H; by apply Hb in H]|].
    split; [done|]. intros Hi. destruct Hw as (f & Hf & Hs). rewrite (Hi f Hf) in Hs. done.
  - split; [split; [done|intros H; by apply Hb in H]|]. split; [|done]. intros _ f Hf.
    destruct (pf_severity f) eqn:Hs; [|..|done].
    + assert (false = true) by (apply Hb; eauto). done.
    + assert (false = true) by (apply Hw; eauto). done.
Qed.
