(* ===== verification/Ownership.v ===== *)
(** Ownership records of [l2-loop-agent] ([ownership.rs]): run identifiers, the
    pin directory of a run, the identities of the hooks and map pins a run owns,
    and the record that is journalled before observation is activated.

    A path is the string it is written as; its components are those of the
    standard library's [Path] on Unix. *)
From stdpp Require Import pretty.
From S2P Require Import Prelude Domain Text Packet.

Definition OWNERSHIP_SCHEMA_VERSION : Z := 2.
Definition TEST_JOURNAL_ROOT : string := "/run/l2-loop/tests".
Definition TEST_PIN_BASE : string := "/sys/fs/bpf/l2-loop/test".
Definition OWNED_MAP_NAMES : list string :=
  ["IFACE_CONFIG"; "HOOK_STATS"; "FINGERPRINTS"; "PROBE_REGISTRY"; "PROBE_STATS"; "RATE_POLICY"]%string.

(** An [io::Error]: whether its kind is [NotFound], and its text. *)
Record IoFailure : Type := mkIoFailure { io_not_found : bool; io_text : string }.

Inductive OwnershipError : Type :=
| InvalidRunId | InvalidJournalPath | InvalidPinPath | PinRootTarget
| OwnershipSymlink (path : string)
| OwnershipSchemaMismatch (expected actual : Z)
| OwnershipAbiMismatch (expected actual : Z)
| OwnershipIdentityMismatch (evidence : string)
| OwnershipJsonError (error : string)
| OwnershipIo (path : string) (source : IoFailure).

Definition ownership_error_to_string (error : OwnershipError) : string :=
  match error with
  | InvalidRunId => "run ID must be 32 lowercase hexadecimal characters"
  | InvalidJournalPath =>
      "journal path is outside the isolated journal root or is not a private file"
  | InvalidPinPath => "pin path is outside the active isolated run"
  | PinRootTarget => "the isolated pin root itself is not a cleanup target"
  | OwnershipSymlink path => "symlink is forbidden in owned path: " ++ path
  | OwnershipSchemaMismatch expected actual =>
      "ownership schema mismatch: expected " ++ pretty expected ++ ", found " ++ pretty actual
  | OwnershipAbiMismatch expected actual =>
      "ownership ABI mismatch: expected " ++ pretty expected ++ ", found " ++ pretty actual
  | OwnershipIdentityMismatch evidence => "ownership identity mismatch: " ++ evidence
  | OwnershipJsonError error => "ownership JSON is malformed: " ++ error
  | OwnershipIo path source => "ownership filesystem error at " ++ path ++ ": " ++ io_text source
  end.

(** ** Paths *)
Inductive Component : Type := RootDir | CurDir | ParentDir | Normal (name : string).

#[export] Instance Component_eq_dec : EqDecision Component.
Proof. solve_decision. Defined.

Definition is_slash (c : Ascii.ascii) : bool := ascii_code c =? 47.

(** The segments of a path, between slashes. *)
Definition segments (path : string) : list string := split_on (Ascii.ascii_of_nat 47) path.

Definition is_absolute (path : string) : bool :=
  match path with String c _ => is_slash c | EmptyString => false end.

(** Empty segments vanish, and so does [.] unless it starts a relative path. *)
Definition segment_component (s : string) : option Component :=
  if bool_decide (s = "") || bool_decide (s = ".") then None
  else if bool_decide (s = "..") then Some ParentDir else Some (Normal s).

Definition components (path : string) : list Component :=
  let normal := omap segment_component (segments path) in
  if is_absolute path then RootDir :: normal
  else if bool_decide (head (segments path) = Some "."%string) then CurDir :: normal
  else normal.

Definition file_name (path : string) : option string :=
  match last (components path) with Some (Normal name) => Some name | _ => None end.

(** [Path::join] of a relative component. *)
Definition join (base name : string) : string := (base ++ "/" ++ name)%string.

Fixpoint strip_prefix (prefix path : list Component) : option (list Component) :=
  match prefix, path with
  | [], rest => Some rest
  | c :: prefix, d :: path => if bool_decide (c = d) then strip_prefix prefix path else None
  | _ :: _, [] => None
  end.

Definition dotted (c : Component) : bool :=
  match c with ParentDir | CurDir => true | _ => false end.

Definition is_normal (c : Component) : bool := match c with Normal _ => true | _ => false end.

Definition validate_absolute_root (root : string) (error : OwnershipError)
    : result OwnershipError unit :=
  if negb (is_absolute root) || existsb dotted (components root) then Err error else Ok tt.

(** ** Run identifiers and pin directories *)
Record RunId : Type := mkRunId { run_id_str : string }.

Definition RunId_parse (value : string) : result OwnershipError RunId :=
  if (String.length value =? 32)%nat && forallb is_lower_hex (string_bytes value)
  then Ok (mkRunId value) else Err InvalidRunId.

Record TestPinRoot : Type := mkTestPinRoot { pin_root_path : string }.

Definition TestPinRoot_for_root (root : string) (run_id : RunId) : result OwnershipError TestPinRoot :=
  _ ← validate_absolute_root root InvalidPinPath;
  Ok (mkTestPinRoot (join root (run_id_str run_id))).

Definition TestPinRoot_new (run_id : RunId) : result OwnershipError TestPinRoot :=
  TestPinRoot_for_root TEST_PIN_BASE run_id.

(** A cleanup target lies strictly below the run's directory, with no [..]. *)
Definition validate_lexical (self : TestPinRoot) (target : string) : result OwnershipError unit :=
  if negb (is_absolute target) then Err InvalidPinPath
  else
    suffix ← ok_or (strip_prefix (components (pin_root_path self)) (components target)) InvalidPinPath;
    match suffix with
    | [] => Err PinRootTarget
    | first :: rest =>
        if negb (is_normal first) || existsb (λ c, negb (is_normal c)) rest
        then Err InvalidPinPath else Ok tt
    end.

(** ** Hook identities *)
Inductive XdpAttachMode : Type := XdpNative | XdpGeneric.

#[export] Instance XdpAttachMode_eq_dec : EqDecision XdpAttachMode.
Proof. solve_decision. Defined.

Record OwnedXdp : Type := mkOwnedXdp {
  ox_ifindex : Z;
  ox_mode : XdpAttachMode;
  ox_program_id : Z;
  ox_program_tag : vec Z 8;
  ox_link_id : option Z;
}.

Inductive TcHook : Type := TcIngress | TcEgressHook.

#[export] Instance TcHook_eq_dec : EqDecision TcHook.
Proof. solve_decision. Defined.

Record OwnedTc : Type := mkOwnedTc {
  ot_ifindex : Z;
  ot_hook : TcHook;
  ot_priority : Z;
  ot_handle : Z;
  ot_program_id : Z;
  ot_created_clsact : bool;
}.

(** ** Map pins *)
Record OwnedMapPin : Type := mkOwnedMapPin {
  mp_name : string;
  mp_path : string;
  mp_map_id : Z;
}.

Definition pin_validate (self : OwnedMapPin) : result OwnershipError unit :=
  if (mp_map_id self =? 0)
     || negb (existsb (λ name, bool_decide (name = mp_name self)) OWNED_MAP_NAMES)
     || negb (is_absolute (mp_path self))
     || existsb dotted (components (mp_path self))
     || negb (bool_decide (file_name (mp_path self) = Some (mp_name self)))
  then Err (OwnershipIdentityMismatch "invalid owned map identity")
  else Ok tt.

Definition OwnedMapPin_new (name path : string) (map_id : Z) : result OwnershipError OwnedMapPin :=
  let owned := mkOwnedMapPin name path map_id in
  _ ← pin_validate owned;
  Ok owned.

Record OwnershipRecord : Type := mkOwnershipRecord {
  or_schema_version : Z;
  or_abi_version : Z;
  or_generation : Z;
  or_ifindex : Z;
  or_xdp : option OwnedXdp;
  or_tc : list OwnedTc;
  or_map_pins : list OwnedMapPin;
  or_created_at_unix_seconds : Z;
}.

#[export] Instance OwnedXdp_eq_dec : EqDecision OwnedXdp.
Proof. solve_decision. Defined.
#[export] Instance OwnedTc_eq_dec : EqDecision OwnedTc.
Proof. solve_decision. Defined.
#[export] Instance OwnedMapPin_eq_dec : EqDecision OwnedMapPin.
Proof. solve_decision. Defined.
#[export] Instance OwnershipRecord_eq_dec : EqDecision OwnershipRecord.
Proof. solve_decision. Defined.

(** Two pins clash when they share a name, a path or a map. *)
Definition pins_clash (previous pin : OwnedMapPin) : bool :=
  bool_decide (mp_name previous = mp_name pin)
  || bool_decide (components (mp_path previous) = components (mp_path pin))
  || (mp_map_id previous =? mp_map_id pin).

(** The loop over the pins; [seen] are the pins before the current one. *)
Fixpoint check_pins (seen pins : list OwnedMapPin) : result OwnershipError unit :=
  match pins with
  | [] => Ok tt
  | pin :: rest =>
      _ ← pin_validate pin;
      if existsb (λ previous, pins_clash previous pin) seen
      then Err (OwnershipIdentityMismatch "owned map identities are not unique")
      else check_pins (seen ++ [pin]) rest
  end.

Definition validate_owned_maps (self : OwnershipRecord) : result OwnershipError unit :=
  if negb (length (or_map_pins self) =? length OWNED_MAP_NAMES)%nat
  then Err (OwnershipIdentityMismatch "owned map set is incomplete")
  else
    _ ← check_pins [] (or_map_pins self);
    if existsb (λ required, negb (existsb (λ pin, bool_decide (mp_name pin = required))
                                    (or_map_pins self))) OWNED_MAP_NAMES
    then Err (OwnershipIdentityMismatch "owned map set does not match the public ABI")
    else Ok tt.

(** ** What the record guarantees *)

(** A valid pin names one of the six maps and ends in that name. *)
Definition pin_ok (pin : OwnedMapPin) : Prop :=
  mp_map_id pin ≠ 0 ∧ mp_name pin ∈ OWNED_MAP_NAMES ∧ is_absolute (mp_path pin) = true ∧
  Forall (λ c, dotted c = false) (components (mp_path pin)) ∧
  file_name (mp_path pin) = Some (mp_name pin).

Lemma pin_validate_Ok pin : pin_validate pin = Ok tt ↔ pin_ok pin.
Proof.
  unfold pin_validate, pin_ok. destruct (Z.eqb_spec (mp_map_id pin) 0) as [|Hid]; [naive_solver|].
  assert (existsb (λ name, bool_decide (name = mp_name pin)) OWNED_MAP_NAMES = true ↔
    mp_name pin ∈ OWNED_MAP_NAMES) as Hn.
  { rewrite existsb_exists. setoid_rewrite <-list_elem_of_In. setoid_rewrite bool_decide_eq_true.
    naive_solver. }
  rewrite <-existsb_false_Forall.
  destruct (existsb (λ name, bool_decide (name = mp_name pin)) OWNED_MAP_NAMES), (is_absolute (mp_path pin)),
    (existsb dotted (components (mp_path pin))), (bool_decide_reflect (file_name (mp_path pin) = Some (mp_name pin)));
    cbn; naive_solver.
Qed.

Definition no_clash (p q : OwnedMapPin) : Prop :=
  mp_name p ≠ mp_name q ∧ components (mp_path p) ≠ components (mp_path q) ∧ mp_map_id p ≠ mp_map_id q.

Lemma pins_clash_false p q : pins_clash p q = false ↔ no_clash p q.
Proof.
  unfold pins_clash, no_clash. rewrite !orb_false_iff, !bool_decide_eq_false, Z.eqb_neq. naive_solver.
Qed.

Lemma check_pins_Ok seen pins :
  check_pins seen pins = Ok tt ↔
  Forall pin_ok pins ∧ Forall (λ q, Forall (λ p, no_clash p q) seen) pins ∧
  StronglySorted no_clash pins.
Proof.
  revert seen. induction pins as [|pin pins IH]; intros seen; cbn [check_pins].
  { split; [repeat constructor|done]. }
  rewrite !Forall_cons, StronglySorted_cons. rewrite bind_Ok.
  destruct (existsb (λ previous, pins_clash previous pin) seen) eqn:Hx.
  - split; [by intros (? & _ & ?)|]. intros (_ & [Hs _] & _).
    apply not_false_iff_true in Hx as []. apply existsb_false_Forall.
    eapply Forall_impl; [exact Hs|]. intros p. apply pins_clash_false.
  - rewrite existsb_false_Forall in Hx.
    assert (Forall (λ p, no_clash p pin) seen) as Hs
      by (eapply Forall_impl; [exact Hx|]; intros p; apply pins_clash_false).
    split.
    + intros ([] & Hv%pin_validate_Ok & (Hok & Hsq & Hss)%IH). split_and!; try done.
      * eapply Forall_impl; [exact Hsq|]. by intros q [? _]%Forall_app.
      * eapply Forall_impl; [exact Hsq|]. intros q [_ Hq]%Forall_app. exact (proj1 (Forall_singleton _ _) Hq).
    + intros ([Hv Hok] & [_ Hsq] & [Hp Hss]). exists tt. split; [by apply pin_validate_Ok|]. apply IH. split_and!; try done.
      rewrite Forall_forall in Hsq, Hp |- *. intros q Hq. apply Forall_app. split; [by apply Hsq|].
      apply Forall_singleton. by apply Hp.
Qed.

(** A valid record owns exactly the six maps of the public ABI, each once. *)
Definition owned_maps_ok (r : OwnershipRecord) : Prop :=
  mp_name <$> or_map_pins r ≡ₚ OWNED_MAP_NAMES ∧ Forall pin_ok (or_map_pins r) ∧
  NoDup (mp_map_id <$> or_map_pins r) ∧ NoDup ((λ p, components (mp_path p)) <$> or_map_pins r).

Lemma StronglySorted_distinct {A B} (f : A → B) (R : A → A → Prop) l :
  (∀ x y, R x y → f x ≠ f y) → StronglySorted R l → NoDup (f <$> l).
Proof.
  intros Hf Hs. induction Hs as [|x l _ IH Hx]; [constructor|]. constructor; [|done].
  intros (y & He & Hy)%list_elem_of_fmap. rewrite Forall_forall in Hx. by apply (Hf x y (Hx y Hy)).
Qed.

Lemma distinct_StronglySorted pins :
  NoDup (mp_name <$> pins) → NoDup (mp_map_id <$> pins) →
  NoDup ((λ p, components (mp_path p)) <$> pins) → StronglySorted no_clash pins.
Proof.
  induction pins as [|p pins IH]; intros Hn Hi Hp; [constructor|].
  apply NoDup_cons in Hn as [Hn ?], Hi as [Hi ?], Hp as [Hp ?]. constructor; [auto|].
  apply Forall_forall. intros q Hq. split_and!; intros He.
  - apply Hn. rewrite He. by apply list_elem_of_fmap_2.
  - apply Hp. cbn. rewrite He. by apply (list_elem_of_fmap_2 (λ p, components (mp_path p))).
  - apply Hi. rewrite He. by apply list_elem_of_fmap_2.
Qed.

(** The ownership record is accepted exactly when its pins are the six maps
    of the public ABI, each exactly once and under its own name, with distinct
    non-zero map identifiers and distinct absolute paths free of [..]. *)
Theorem validate_owned_maps_correct (r : OwnershipRecord) :
  validate_owned_maps r = Ok tt ↔ owned_maps_ok r.
Proof.
  unfold validate_owned_maps, owned_maps_ok. set (pins := or_map_pins r).
  destruct (Nat.eqb_spec (length pins) (length OWNED_MAP_NAMES)) as [Hl|Hl]; cbn [negb].
  2:{ split; [done|]. intros (Hp & _). apply Permutation_length in Hp. rewrite length_fmap in Hp. done. }
  rewrite bind_Ok. split.
  - intros ([] & (Hok & _ & Hs)%check_pins_Ok & _).
    assert (NoDup (mp_name <$> pins)) as Hnd
      by (eapply StronglySorted_distinct; [|exact Hs]; by intros x y (? & _)).
    split_and!; [|done|..].
    + apply submseteq_length_Permutation; [|rewrite length_fmap; lia].
      apply NoDup_submseteq; [done|]. intros n (p & -> & Hp)%list_elem_of_fmap.
      rewrite Forall_forall in Hok. by apply (Hok p Hp).
    + eapply StronglySorted_distinct; [|exact Hs]. by intros x y (_ & _ & ?).
    + eapply StronglySorted_distinct; [|exact Hs]. by intros x y (_ & ? & _).
  - intros (Hp & Hok & Hi & Hc). exists tt. split.
    + apply check_pins_Ok. split_and!; [done|by apply Forall_true|]. apply distinct_StronglySorted; [|done..].
      rewrite Hp. apply (bool_decide_unpack _). vm_compute. exact I.
    + assert (existsb (λ required, negb (existsb (λ pin, bool_decide (mp_name pin = required)) pins))
        OWNED_MAP_NAMES = false) as ->; [|done].
      apply existsb_false_Forall, Forall_forall. intros n Hn. apply negb_false_iff, existsb_exists.
      rewrite <-Hp in Hn. apply list_elem_of_fmap in Hn as (p & -> & Hin).
      exists p. split; [by apply list_elem_of_In|by apply bool_decide_eq_true].
Qed.
