(* ===== verification/Attach.v ===== *)
(** The attachment transaction of [l2-loop-agent] ([attach.rs]) over its ports
    ([ports.rs]): load the eBPF object, attach and verify the two hooks,
    initialise the maps, journal the ownership record, and activate observation
    last; on any failure roll back what was acquired.

    The ports are a class of operations on an abstract world; their documented
    contracts are a second class, stated with the resources the world holds for
    the agent. *)
From S2P Require Import Prelude Domain Packet Preflight Ownership.

(** ** Ports *)
Inductive PortError : Type :=
| Adapter (message : string)
| CodedAdapter (code evidence : string)
| InvalidReport (message : string).

Definition port_error_to_string (error : PortError) : string :=
  match error with
  | Adapter message => "adapter error: " ++ message
  | CodedAdapter code evidence => "adapter error: " ++ code ++ ": " ++ evidence
  | InvalidReport message => "invalid preflight report: " ++ message
  end.

Definition port_stable_code (error : PortError) : option string :=
  match error with CodedAdapter code _ => Some code | Adapter _ | InvalidReport _ => None end.

Record LoadedXdp : Type := mkLoadedXdp {
  lx_program_fd : Z;
  lx_program_id : Z;
  lx_program_tag : vec Z 8;
}.

Record LoadedTc : Type := mkLoadedTc {
  lt_program_fd : Z;
  lt_program_id : Z;
}.

Record LoadedBpfObject : Type := mkLoadedBpfObject {
  lo_xdp : LoadedXdp;
  lo_tc_egress : LoadedTc;
  lo_map_pins : list OwnedMapPin;
}.

(** The seven port traits, as operations on one world. *)
Class AttachPorts (W : Type) : Type := {
  inspect : W → InterfaceName → W * result PortError PreflightReport;
  raise_memlock_to_infinity : W → W * result PortError unit;
  load_and_validate_abi : W → TestPinRoot → W * result PortError LoadedBpfObject;
  unload_exact : W → LoadedBpfObject → W * result PortError unit;
  attach_no_replace : W → Z → XdpAttachMode → LoadedXdp → W * result PortError OwnedXdp;
  xdp_verify_exact : W → OwnedXdp → W * result PortError unit;
  xdp_detach_exact : W → OwnedXdp → W * result PortError unit;
  attach_explicit : W → Z → TcHook → LoadedTc → W * result PortError OwnedTc;
  tc_verify_exact : W → OwnedTc → W * result PortError unit;
  tc_detach_exact : W → OwnedTc → W * result PortError unit;
  initialize_dependent : W → LoadedBpfObject → Z → Z → W * result PortError unit;
  publish_iface_config : W → LoadedBpfObject → Z → Z → W * result PortError unit;
  rollback_initialized_exact : W → LoadedBpfObject → Z → Z → W * result PortError unit;
  ownership_save : W → OwnershipRecord → W * result PortError unit;
  ownership_remove_exact : W → OwnershipRecord → W * result PortError unit;
}.

(** ** Sessions and errors *)
Definition ATTACH_PREFLIGHT_FAILED : string := "ATTACH_PREFLIGHT_FAILED".
Definition PREFLIGHT_BLOCKED : string := "PREFLIGHT_BLOCKED".
Definition BPF_LOAD_FAILED : string := "BPF_LOAD_FAILED".
Definition XDP_ATTACH_FAILED : string := "XDP_ATTACH_FAILED".
Definition XDP_VERIFY_FAILED : string := "XDP_VERIFY_FAILED".
Definition TC_ATTACH_FAILED : string := "TC_ATTACH_FAILED".
Definition TC_VERIFY_FAILED : string := "TC_VERIFY_FAILED".
Definition MAP_INITIALIZE_FAILED : string := "MAP_INITIALIZE_FAILED".
Definition OWNERSHIP_JOURNAL_FAILED : string := "OWNERSHIP_JOURNAL_FAILED".
Definition IFACE_CONFIG_PUBLISH_FAILED : string := "IFACE_CONFIG_PUBLISH_FAILED".
Definition OWNED_CLEANUP_INCOMPLETE : string := "OWNED_CLEANUP_INCOMPLETE".

Record AttachmentSession : Type := mkAttachmentSession {
  as_state : InterfaceState;
  as_generation : Z;
  as_ownership : OwnershipRecord;
  as_loaded : LoadedBpfObject;
}.

Record AttachmentError : Type := mkAttachmentError {
  ae_code : string;
  ae_evidence : string;
  ae_cleanup_evidence : list string;
}.

Definition without_cleanup (code error : string) : AttachmentError := mkAttachmentError code error [].

Record RollbackState : Type := mkRollbackState {
  rb_loaded : option LoadedBpfObject;
  rb_xdp : option OwnedXdp;
  rb_tc : option OwnedTc;
  rb_maps_initialized : bool;
  rb_journal : option OwnershipRecord;
}.

Record AttachmentTransaction (W : Type) : Type := mkAttachmentTransaction {
  at_ports : W;
  at_generation : Z;
}.
Arguments mkAttachmentTransaction {W} _ _.
Arguments at_ports {W} _.
Arguments at_generation {W} _.

Definition AttachmentTransaction_new {W} (ports : W) : AttachmentTransaction W :=
  mkAttachmentTransaction ports 0.

Definition validate_isolated_target (requested : InterfaceName) (report : PreflightReport)
    : result AttachmentError unit :=
  let interface := pr_interface report in
  if negb (bool_decide (as_str (ir_name (ii_requested interface)) = as_str requested))
     || (ir_ifindex (ii_requested interface) =? 0)
     || negb (bool_decide (ii_kind interface = Veth))
     || negb (ii_isolated interface)
     || ii_live_shared interface
  then Err (without_cleanup PF_LIVE_INTERFACE
              "attachment is restricted to the exact isolated veth target")
  else if bool_decide (pr_decision report = Blocked) then
    let code := match List.find (λ finding, bool_decide (pf_severity finding = Blocker))
                       (pr_findings report) with
                | Some finding => pf_code finding
                | None => PREFLIGHT_BLOCKED
                end in
    Err (without_cleanup code "preflight blocked isolated attachment")
  else Ok tt.

Definition collect_cleanup (evidence : list string) (resource : string)
    (res : result PortError unit) : list string :=
  match res with
  | Err error => evidence ++ [(resource ++ ": " ++ port_error_to_string error)%string]
  | Ok _ => evidence
  end.

Definition cleanup_result (cleanup_evidence : list string) : result AttachmentError unit :=
  match cleanup_evidence with
  | [] => Ok tt
  | _ => Err (mkAttachmentError OWNED_CLEANUP_INCOMPLETE
           "one or more exact owned cleanup steps were retained" cleanup_evidence)
  end.

(** What an acceptance permit fixes about the run it authorises. *)
Record AcceptancePassThroughPermit : Type := mkAcceptancePassThroughPermit {
  pm_run_id : RunId;
  pm_interface : InterfaceName;
  pm_ifindex : Z;
}.

(** ** The transaction *)
Section transaction.
Context {W : Type} `{AttachPorts W}.

(** One cleanup call, its outcome added to the evidence. *)
Definition cleanup_step (st : W * list string) (resource : string)
    (call : W → W * result PortError unit) : W * list string :=
  let '(w, res) := call st.1 in (w, collect_cleanup st.2 resource res).

(** A cleanup call for a resource that may not have been acquired. *)
Definition cleanup_option {A} (st : W * list string) (resource : string) (owned : option A)
    (call : W → A → W * result PortError unit) : W * list string :=
  match owned with Some owned => cleanup_step st resource (λ w, call w owned) | None => st end.

Definition initialized (rollback : RollbackState) : option LoadedBpfObject :=
  if rb_maps_initialized rollback then rb_loaded rollback else None.

(** [rollback]: the [expect] cannot fail, since maps are initialised only from a
    loaded object. *)
Definition rollback (w : W) (code : string) (error : PortError) (rollback : RollbackState)
    (ifindex generation : Z) : W * AttachmentError :=
  let st := (w, []) in
  let st := cleanup_option st "ephemeral ownership journal" (rb_journal rollback)
              ownership_remove_exact in
  let st := cleanup_option st "initialized maps" (initialized rollback)
              (λ w loaded, rollback_initialized_exact w loaded ifindex generation) in
  let st := cleanup_option st "TC egress filter" (rb_tc rollback) tc_detach_exact in
  let st := cleanup_option st "XDP link" (rb_xdp rollback) xdp_detach_exact in
  let st := cleanup_option st "loaded eBPF object" (rb_loaded rollback) unload_exact in
  (st.1, mkAttachmentError code (port_error_to_string error) st.2).

Definition rollback_pass_through (w : W) (code : string) (error : PortError)
    (rollback : RollbackState) (ifindex generation : Z) : W * AttachmentError :=
  let st := (w, []) in
  let st := cleanup_option st "ephemeral ownership journal" (rb_journal rollback)
              ownership_remove_exact in
  let st := cleanup_option st "TC egress filter" (rb_tc rollback) tc_detach_exact in
  let st := cleanup_option st "XDP link" (rb_xdp rollback) xdp_detach_exact in
  let st := cleanup_option st "initialized maps" (initialized rollback)
              (λ w loaded, rollback_initialized_exact w loaded ifindex generation) in
  let st := cleanup_option st "loaded eBPF object" (rb_loaded rollback) unload_exact in
  (st.1, mkAttachmentError code (port_error_to_string error) st.2).

Definition detach_exact (self : AttachmentTransaction W) (session : AttachmentSession)
    : AttachmentTransaction W * result AttachmentError unit :=
  let ownership := as_ownership session in
  let st := (at_ports self, []) in
  let st := cleanup_step st "ephemeral ownership journal"
              (λ w, ownership_remove_exact w ownership) in
  let st := cleanup_step st "initialized maps"
              (λ w, rollback_initialized_exact w (as_loaded session) (or_ifindex ownership)
                      (as_generation session)) in
  let st := foldl (λ st owned, cleanup_step st "TC egress filter" (λ w, tc_detach_exact w owned))
              st (reverse (or_tc ownership)) in
  let st := cleanup_option st "XDP link" (or_xdp ownership) xdp_detach_exact in
  let st := cleanup_step st "loaded eBPF object" (λ w, unload_exact w (as_loaded session)) in
  (mkAttachmentTransaction st.1 (at_generation self), cleanup_result st.2).

Definition next_generation (self : AttachmentTransaction W) : Z :=
  Z.max (saturating_add U64_MAX (at_generation self) 1) 1.

Definition ownership_record (generation ifindex : Z) (xdp : OwnedXdp) (tc : OwnedTc)
    (loaded : LoadedBpfObject) (created_at_unix_seconds : Z) : OwnershipRecord :=
  mkOwnershipRecord OWNERSHIP_SCHEMA_VERSION ABI_VERSION generation ifindex (Some xdp) [tc]
    (lo_map_pins loaded) created_at_unix_seconds.

Definition code_or (error : PortError) (code : string) : string := default code (port_stable_code error).

(** The stages of [execute] after the object is loaded.  Every stage ends the
    transaction with a rollback of the stages before it when its port fails. *)
Definition fail (self : AttachmentTransaction W) (st : W * AttachmentError)
    : AttachmentTransaction W * result AttachmentError AttachmentSession :=
  (mkAttachmentTransaction st.1 (at_generation self), Err st.2).

Definition execute_journal (self : AttachmentTransaction W) (w : W) (loaded : LoadedBpfObject)
    (ifindex generation : Z) (xdp : OwnedXdp) (tc : OwnedTc) (created_at_unix_seconds : Z)
    : AttachmentTransaction W * result AttachmentError AttachmentSession :=
  let rb := mkRollbackState (Some loaded) (Some xdp) (Some tc) true None in
  let record := ownership_record generation ifindex xdp tc loaded created_at_unix_seconds in
  match ownership_save w record with
  | (w, Err error) => fail self (rollback w OWNERSHIP_JOURNAL_FAILED error rb ifindex generation)
  | (w, Ok _) =>
      let rb := mkRollbackState (Some loaded) (Some xdp) (Some tc) true (Some record) in
      match publish_iface_config w loaded ifindex generation with
      | (w, Err error) =>
          fail self (rollback w IFACE_CONFIG_PUBLISH_FAILED error rb ifindex generation)
      | (w, Ok _) =>
          (mkAttachmentTransaction w generation,
           Ok (mkAttachmentSession Observing generation record loaded))
      end
  end.

Definition execute_tc (self : AttachmentTransaction W) (w : W) (loaded : LoadedBpfObject)
    (ifindex : Z) (xdp : OwnedXdp) (created_at_unix_seconds : Z)
    : AttachmentTransaction W * result AttachmentError AttachmentSession :=
  let rb := mkRollbackState (Some loaded) (Some xdp) None false None in
  match attach_explicit w ifindex TcEgressHook (lo_tc_egress loaded) with
  | (w, Err error) => fail self (rollback w (code_or error TC_ATTACH_FAILED) error rb ifindex 0)
  | (w, Ok tc) =>
      let rb := mkRollbackState (Some loaded) (Some xdp) (Some tc) false None in
      match tc_verify_exact w tc with
      | (w, Err error) => fail self (rollback w (code_or error TC_VERIFY_FAILED) error rb ifindex 0)
      | (w, Ok _) =>
          let generation := next_generation self in
          match initialize_dependent w loaded ifindex generation with
          | (w, Err error) =>
              fail self (rollback w MAP_INITIALIZE_FAILED error rb ifindex generation)
          | (w, Ok _) =>
              execute_journal self w loaded ifindex generation xdp tc created_at_unix_seconds
          end
      end
  end.

Definition execute_hooks (self : AttachmentTransaction W) (w : W) (loaded : LoadedBpfObject)
    (ifindex created_at_unix_seconds : Z)
    : AttachmentTransaction W * result AttachmentError AttachmentSession :=
  let rb := mkRollbackState (Some loaded) None None false None in
  match attach_no_replace w ifindex XdpGeneric (lo_xdp loaded) with
  | (w, Err error) => fail self (rollback w (code_or error XDP_ATTACH_FAILED) error rb ifindex 0)
  | (w, Ok xdp) =>
      let rb := mkRollbackState (Some loaded) (Some xdp) None false None in
      match xdp_verify_exact w xdp with
      | (w, Err error) => fail self (rollback w (code_or error XDP_VERIFY_FAILED) error rb ifindex 0)
      | (w, Ok _) => execute_tc self w loaded ifindex xdp created_at_unix_seconds
      end
  end.

Definition execute (self : AttachmentTransaction W) (interface : InterfaceName) (run_id : RunId)
    (created_at_unix_seconds : Z)
    : AttachmentTransaction W * result AttachmentError AttachmentSession :=
  match inspect (at_ports self) interface with
  | (w, Err error) =>
      fail self (w, without_cleanup ATTACH_PREFLIGHT_FAILED (port_error_to_string error))
  | (w, Ok report) =>
      match validate_isolated_target interface report with
      | Err error => fail self (w, error)
      | Ok _ =>
          match raise_memlock_to_infinity w with
          | (w, Err error) =>
              fail self (w, without_cleanup PF_MEMLOCK_TOO_LOW (port_error_to_string error))
          | (w, Ok _) =>
              match TestPinRoot_new run_id with
              | Err error => fail self (w, without_cleanup BPF_LOAD_FAILED
                                             (ownership_error_to_string error))
              | Ok pins =>
                  match load_and_validate_abi w pins with
                  | (w, Err error) =>
                      fail self (w, without_cleanup BPF_LOAD_FAILED (port_error_to_string error))
                  | (w, Ok loaded) =>
                      execute_hooks self w loaded
                        (ir_ifindex (ii_requested (pr_interface report))) created_at_unix_seconds
                  end
              end
          end
      end
  end.
(** The acceptance pass-through mode: the hooks are attached with their maps
    initialised but observation is never activated.  The permit fixes the run
    and the interface it covers; its directories are not used here. *)
Definition authorizes (permit : AcceptancePassThroughPermit) (interface : InterfaceName)
    (report : PreflightReport) : bool :=
  bool_decide (as_str interface = as_str (pm_interface permit))
  && bool_decide (as_str (ir_name (ii_requested (pr_interface report))) = as_str (pm_interface permit))
  && (ir_ifindex (ii_requested (pr_interface report)) =? pm_ifindex permit).

Definition matches_attachment (permit : AcceptancePassThroughPermit)
    (attachment : AttachmentSession) : bool :=
  let pin_root := join TEST_PIN_BASE (run_id_str (pm_run_id permit)) in
  let record := as_ownership attachment in
  (or_ifindex record =? pm_ifindex permit)
  && (as_generation attachment =? or_generation record)
  && (length (or_map_pins record) =? length OWNED_MAP_NAMES)%nat
  && forallb (λ pin,
       existsb (λ name, bool_decide (name = mp_name pin)) OWNED_MAP_NAMES
       && bool_decide (components (mp_path pin) = components (join pin_root (mp_name pin))))
     (or_map_pins record).

Definition pass_through_tc (self : AttachmentTransaction W) (w : W) (loaded : LoadedBpfObject)
    (ifindex generation : Z) (xdp : OwnedXdp) (created_at_unix_seconds : Z)
    : AttachmentTransaction W * result AttachmentError AttachmentSession :=
  let rb := mkRollbackState (Some loaded) (Some xdp) None true None in
  match attach_explicit w ifindex TcEgressHook (lo_tc_egress loaded) with
  | (w, Err error) =>
      fail self (rollback_pass_through w (code_or error TC_ATTACH_FAILED) error rb ifindex generation)
  | (w, Ok tc) =>
      let rb := mkRollbackState (Some loaded) (Some xdp) (Some tc) true None in
      match tc_verify_exact w tc with
      | (w, Err error) =>
          fail self (rollback_pass_through w (code_or error TC_VERIFY_FAILED) error rb ifindex generation)
      | (w, Ok _) =>
          let record := ownership_record generation ifindex xdp tc loaded created_at_unix_seconds in
          match ownership_save w record with
          | (w, Err error) =>
              fail self (rollback_pass_through w OWNERSHIP_JOURNAL_FAILED error rb ifindex generation)
          | (w, Ok _) =>
              (mkAttachmentTransaction w generation,
               Ok (mkAttachmentSession Attaching generation record loaded))
          end
      end
  end.

Definition pass_through_hooks (self : AttachmentTransaction W) (w : W) (loaded : LoadedBpfObject)
    (ifindex created_at_unix_seconds : Z)
    : AttachmentTransaction W * result AttachmentError AttachmentSession :=
  let generation := next_generation self in
  let rb := mkRollbackState (Some loaded) None None false None in
  match initialize_dependent w loaded ifindex generation with
  | (w, Err error) =>
      fail self (rollback_pass_through w MAP_INITIALIZE_FAILED error rb ifindex generation)
  | (w, Ok _) =>
      let rb := mkRollbackState (Some loaded) None None true None in
      match attach_no_replace w ifindex XdpGeneric (lo_xdp loaded) with
      | (w, Err error) =>
          fail self (rollback_pass_through w (code_or error XDP_ATTACH_FAILED) error rb ifindex generation)
      | (w, Ok xdp) =>
          let rb := mkRollbackState (Some loaded) (Some xdp) None true None in
          match xdp_verify_exact w xdp with
          | (w, Err error) =>
              fail self
                (rollback_pass_through w (code_or error XDP_VERIFY_FAILED) error rb ifindex generation)
          | (w, Ok _) =>
              pass_through_tc self w loaded ifindex generation xdp created_at_unix_seconds
          end
      end
  end.

Definition execute_acceptance_pass_through (self : AttachmentTransaction W)
    (permit : AcceptancePassThroughPermit) (created_at_unix_seconds : Z)
    : AttachmentTransaction W * result AttachmentError AttachmentSession :=
  let interface := pm_interface permit in
  match inspect (at_ports self) interface with
  | (w, Err error) =>
      fail self (w, without_cleanup ATTACH_PREFLIGHT_FAILED (port_error_to_string error))
  | (w, Ok report) =>
      match validate_isolated_target interface report with
      | Err error => fail self (w, error)
      | Ok _ =>
          if negb (authorizes permit interface report) then
            fail self (w, without_cleanup PF_OWNERSHIP_MISMATCH
                            "acceptance pass-through permit identity changed")
          else
          match raise_memlock_to_infinity w with
          | (w, Err error) =>
              fail self (w, without_cleanup PF_MEMLOCK_TOO_LOW (port_error_to_string error))
          | (w, Ok _) =>
              match TestPinRoot_new (pm_run_id permit) with
              | Err error => fail self (w, without_cleanup BPF_LOAD_FAILED
                                             (ownership_error_to_string error))
              | Ok pins =>
                  match load_and_validate_abi w pins with
                  | (w, Err error) =>
                      fail self (w, without_cleanup BPF_LOAD_FAILED (port_error_to_string error))
                  | (w, Ok loaded) =>
                      pass_through_hooks self w loaded
                        (ir_ifindex (ii_requested (pr_interface report))) created_at_unix_seconds
                  end
              end
          end
      end
  end.

Definition detach_acceptance_pass_through_exact (self : AttachmentTransaction W)
    (permit : AcceptancePassThroughPermit) (attachment : AttachmentSession)
    : AttachmentTransaction W * result AttachmentError unit :=
  if negb (matches_attachment permit attachment) then
    (self, Err (without_cleanup PF_OWNERSHIP_MISMATCH
                  "acceptance pass-through cleanup identity changed"))
  else
    let ownership := as_ownership attachment in
    let st := (at_ports self, []) in
    let st := cleanup_step st "ephemeral ownership journal"
                (λ w, ownership_remove_exact w ownership) in
    let st := foldl (λ st owned, cleanup_step st "TC egress filter" (λ w, tc_detach_exact w owned))
                st (reverse (or_tc ownership)) in
    let st := cleanup_option st "XDP link" (or_xdp ownership) xdp_detach_exact in
    let st := cleanup_step st "initialized maps"
                (λ w, rollback_initialized_exact w (as_loaded attachment) (or_ifindex ownership)
                        (as_generation attachment)) in
    let st := cleanup_step st "loaded eBPF object" (λ w, unload_exact w (as_loaded attachment)) in
    (mkAttachmentTransaction st.1 (at_generation self), cleanup_result st.2).
End transaction.


(** ** The contracts of the ports *)

(** What the world may hold for the agent. *)
Inductive Resource : Type :=
| ResLoaded (loaded : LoadedBpfObject)
| ResXdp (owned : OwnedXdp)
| ResTc (owned : OwnedTc)
| ResMaps (loaded : LoadedBpfObject) (ifindex generation : Z)
| ResJournal (record : OwnershipRecord).

Section contracts.
Context {W : Type} (held : W → list Resource).

(** A call that acquires a resource when it succeeds and nothing when it fails. *)
Definition acquires {A} (w : W) (call : W * result PortError A) (resource : A → Resource) : Prop :=
  match call with
  | (w', Ok a) => held w' ≡ₚ resource a :: held w
  | (w', Err _) => held w' ≡ₚ held w
  end.

(** A call that releases exactly one held resource, or retains it and fails. *)
Definition releases (w : W) (call : W * result PortError unit) (resource : Resource) : Prop :=
  resource ∈ held w →
  match call with
  | (w', Ok _) => held w ≡ₚ resource :: held w'
  | (w', Err _) => held w' ≡ₚ held w
  end.

Definition keeps {A} (w : W) (call : W * result PortError A) : Prop := held call.1 ≡ₚ held w.
End contracts.

(** What the transaction relies on of its ports, and what is assumed of them here:
    [ports.rs] states no contracts, and two adapters break these, the ownership
    journal when a failed save leaves it in place and the traffic-control adapter when
    a filter that could not be verified stays ([failed_sync_leaves_journal] of
    OwnershipJournal, [unverified_filter_unreported] of Tc). *)
Class AttachPortsSpec (W : Type) `{AttachPorts W} : Type := {
  held : W → list Resource;
  inspect_keeps w name : keeps held w (inspect w name);
  raise_memlock_keeps w : keeps held w (raise_memlock_to_infinity w);
  load_acquires w pins : acquires held w (load_and_validate_abi w pins) ResLoaded;
  unload_releases w loaded : releases held w (unload_exact w loaded) (ResLoaded loaded);
  xdp_acquires w ifindex mode loaded : acquires held w (attach_no_replace w ifindex mode loaded) ResXdp;
  xdp_verify_keeps w owned : keeps held w (xdp_verify_exact w owned);
  xdp_releases w owned : releases held w (xdp_detach_exact w owned) (ResXdp owned);
  tc_acquires w ifindex hook loaded : acquires held w (attach_explicit w ifindex hook loaded) ResTc;
  tc_verify_keeps w owned : keeps held w (tc_verify_exact w owned);
  tc_releases w owned : releases held w (tc_detach_exact w owned) (ResTc owned);
  maps_acquires w loaded ifindex generation :
    acquires held w (initialize_dependent w loaded ifindex generation)
      (λ _, ResMaps loaded ifindex generation);
  publish_keeps w loaded ifindex generation :
    keeps held w (publish_iface_config w loaded ifindex generation);
  maps_releases w loaded ifindex generation :
    releases held w (rollback_initialized_exact w loaded ifindex generation)
      (ResMaps loaded ifindex generation);
  journal_acquires w record : acquires held w (ownership_save w record) (λ _, ResJournal record);
  journal_releases w record : releases held w (ownership_remove_exact w record) (ResJournal record);
}.

(** What a session owns, in the order it is released. *)
Definition session_resources (session : AttachmentSession) : list Resource :=
  let record := as_ownership session in
  ResJournal record :: ResMaps (as_loaded session) (or_ifindex record) (as_generation session)
  :: (ResTc <$> reverse (or_tc record)) ++ option_list (ResXdp <$> or_xdp record)
  ++ [ResLoaded (as_loaded session)].

(** What a rollback state stands for. *)
Definition rollback_resources (rb : RollbackState) (ifindex generation : Z) : list Resource :=
  option_list (ResJournal <$> rb_journal rb)
  ++ option_list ((λ loaded, ResMaps loaded ifindex generation) <$> initialized rb)
  ++ option_list (ResTc <$> rb_tc rb) ++ option_list (ResXdp <$> rb_xdp rb)
  ++ option_list (ResLoaded <$> rb_loaded rb).

Section outcomes.
Context {W : Type} `{AttachPortsSpec W}.

(** What a failed transaction leaves behind: what the world held before, and one
    retained resource per piece of cleanup evidence. *)
Definition restored (base : list Resource) (w : W) (evidence : list string) : Prop :=
  ∃ leaked, held w ≡ₚ leaked ++ base ∧ length leaked = length evidence.

(** A failed attachment restores; a successful one holds exactly the session's
    resources on top, under the next generation. *)
Definition attached (base : list Resource) (state : InterfaceState) (self : AttachmentTransaction W)
    (out : AttachmentTransaction W * result AttachmentError AttachmentSession) : Prop :=
  match out with
  | (self', Ok session) =>
      held (at_ports self') ≡ₚ session_resources session ++ base ∧
      at_generation self' = next_generation self ∧ as_generation session = next_generation self ∧
      as_state session = state ∧ or_generation (as_ownership session) = next_generation self
  | (self', Err error) =>
      restored base (at_ports self') (ae_cleanup_evidence error) ∧
      at_generation self' = at_generation self
  end.

(** Observation was activated last: the interface configuration was published in
    a world that already held every resource of the session. *)
Definition activated_last (base : list Resource)
    (out : AttachmentTransaction W * result AttachmentError AttachmentSession) : Prop :=
  match out with
  | (self', Ok session) =>
      ∃ w, held w ≡ₚ session_resources session ++ base ∧
           publish_iface_config w (as_loaded session) (or_ifindex (as_ownership session))
             (as_generation session) = (at_ports self', Ok tt)
  | (_, Err _) => True
  end.
End outcomes.

Section proofs.
Context {W : Type} `{AttachPortsSpec W}.

(** During a cleanup the world holds what was there before, what is still to be
    released, and one retained resource for each piece of evidence. *)
Definition cleaning (all base pending : list Resource) (st : W * list string) : Prop :=
  ∃ leaked, held st.1 ≡ₚ leaked ++ pending ++ base ∧ length leaked = length st.2 ∧ leaked ++ pending ⊆+ all.

Lemma cleaning_start base pending w : held w ≡ₚ pending ++ base → cleaning pending base pending (w, []).
Proof. intros Hw. by exists []. Qed.

Lemma cleaning_step all base pending r st name call :
  (∀ w, releases held w (call w) r) →
  cleaning all base (r :: pending) st → cleaning all base pending (cleanup_step st name call).
Proof.
  intros Hr (leaked & Hw & Hl & Hall). destruct st as [w ev]. cbn [fst snd] in *. unfold cleanup_step.
  assert (r ∈ held w) as Hin by (rewrite Hw; set_solver). specialize (Hr w Hin).
  cbn [fst snd]. destruct (call w) as [w' [u|e]]; cbn [fst snd collect_cleanup].
  - exists leaked. cbn [fst snd]. split_and!; [|done|].
    + apply (Permutation_cons_inv (a := r)). by rewrite <-Hr, Hw, Permutation_middle.
    + etrans; [|exact Hall]. rewrite <-Permutation_middle. by apply submseteq_cons.
  - exists (leaked ++ [r]). cbn [fst snd]. rewrite Hr, Hw, !length_app, Hl, <-!app_assoc. by split_and!.
Qed.

Lemma cleaning_option {A} all base pending (resource : A → Resource) owned st name call :
  (∀ w a, releases held w (call w a) (resource a)) →
  cleaning all base (option_list (resource <$> owned) ++ pending) st →
  cleaning all base pending (cleanup_option st name owned call).
Proof. intros Hr Hc. destruct owned as [a|]; [|done]. by eapply cleaning_step; [intros w; apply Hr|]. Qed.

Lemma cleaning_foldl {A} all base pending (resource : A → Resource) owned st name call :
  (∀ w a, releases held w (call w a) (resource a)) →
  cleaning all base ((resource <$> owned) ++ pending) st →
  cleaning all base pending (foldl (λ st a, cleanup_step st name (λ w, call w a)) st owned).
Proof.
  intros Hr. revert st. induction owned as [|a owned IH]; intros st Hc; [done|].
  apply IH. by eapply cleaning_step; [intros w; apply Hr|].
Qed.

Lemma cleaning_maps all base pending st owned ifindex generation :
  cleaning all base (option_list ((λ loaded, ResMaps loaded ifindex generation) <$> owned) ++ pending) st →
  cleaning all base pending
    (cleanup_option st "initialized maps" owned
       (λ w loaded, rollback_initialized_exact w loaded ifindex generation)).
Proof. apply cleaning_option. intros; apply maps_releases. Qed.

Lemma cleaning_done all base st : cleaning all base [] st → restored base st.1 st.2.
Proof. intros (l & Hw & Hl & _). by exists l. Qed.

Lemma rollback_restores base w code error rb ifindex generation :
  held w ≡ₚ rollback_resources rb ifindex generation ++ base →
  let out := rollback w code error rb ifindex generation in
  restored base out.1 (ae_cleanup_evidence out.2).
Proof.
  intros Hw. eapply cleaning_done. eapply cleaning_option; [apply unload_releases|].
  eapply cleaning_option; [apply xdp_releases|]. eapply cleaning_option; [apply tc_releases|].
  apply cleaning_maps. eapply cleaning_option; [apply journal_releases|].
  rewrite app_nil_r. by apply cleaning_start.
Qed.

Lemma rollback_pass_through_restores base w code error rb ifindex generation :
  held w ≡ₚ rollback_resources rb ifindex generation ++ base →
  let out := rollback_pass_through w code error rb ifindex generation in
  restored base out.1 (ae_cleanup_evidence out.2).
Proof.
  intros Hw. eapply cleaning_done. eapply cleaning_option; [apply unload_releases|].
  apply cleaning_maps. eapply cleaning_option; [apply xdp_releases|].
  eapply cleaning_option; [apply tc_releases|]. eapply cleaning_option; [apply journal_releases|].
  rewrite app_nil_r. apply cleaning_start. rewrite Hw. unfold rollback_resources. solve_Permutation.
Qed.
End proofs.

Section attachment.
Context {W : Type} `{AttachPortsSpec W}.

(** What the two kinds of port calls do to the resources held. *)
Lemma acquires_cases {A} held base (w : W) (call : W * result PortError A) own resource :
  acquires held w call resource → held w ≡ₚ own ++ base →
  match call with
  | (w', Ok a) => held w' ≡ₚ (resource a :: own) ++ base
  | (w', Err _) => held w' ≡ₚ own ++ base
  end.
Proof. unfold acquires. destruct call as [w' []]; intros -> ->; done. Qed.

Lemma keeps_cases {A} held base (w : W) (call : W * result PortError A) own :
  keeps held w call → held w ≡ₚ own ++ base →
  match call with
  | (w', Ok _) => held w' ≡ₚ own ++ base
  | (w', Err _) => held w' ≡ₚ own ++ base
  end.
Proof. unfold keeps. destruct call as [w' []]; cbn; by intros ->. Qed.

Lemma fail_attached base state self st :
  restored base st.1 (ae_cleanup_evidence st.2) → attached base state self (fail self st).
Proof. done. Qed.

Lemma fail_unchanged base state self w code message :
  held w ≡ₚ base → attached base state self (fail self (w, without_cleanup code message)).
Proof. intros Hw. apply fail_attached. by exists []. Qed.

Lemma fail_rollback base state self w code error rb ifindex generation own :
  held w ≡ₚ own ++ base → own ≡ₚ rollback_resources rb ifindex generation →
  attached base state self (fail self (rollback w code error rb ifindex generation)).
Proof. intros Hw Ho. apply fail_attached, rollback_restores. by rewrite <-Ho. Qed.

Lemma fail_pass_through base state self w code error rb ifindex generation own :
  held w ≡ₚ own ++ base → own ≡ₚ rollback_resources rb ifindex generation →
  attached base state self (fail self (rollback_pass_through w code error rb ifindex generation)).
Proof. intros Hw Ho. apply fail_attached, rollback_pass_through_restores. by rewrite <-Ho. Qed.
End attachment.

(** Runs one acquiring (or neutral) port call of a stage, leaving the success
    case; the failure is a rollback of what is owned so far. *)
Ltac own_perm := cbn [rollback_resources session_resources initialized rb_loaded rb_xdp rb_tc
    rb_maps_initialized rb_journal as_ownership as_loaded as_generation ownership_record or_tc or_xdp
    or_ifindex fmap option_fmap option_map option_list list_fmap app reverse rev_append]; try solve_Permutation.
Ltac by_rollback :=
  lazymatch goal with
  | |- context [rollback_pass_through] => eapply fail_pass_through; [eassumption|own_perm]
  | |- _ => eapply fail_rollback; [eassumption|own_perm]
  end.
Tactic Notation "port" hyp(Hw) "with" uconstr(cases) "as" ident(w') ident(a) :=
  let Hc := fresh "Hc" in
  pose proof (cases Hw) as Hc; clear Hw; rename Hc into Hw;
  match type of Hw with match ?call with _ => _ end => destruct call as [w' [a|?]] eqn:? end;
  [|lazymatch goal with |- _ ∧ _ => split; [by_rollback|exact I] | |- _ => by_rollback end].
Tactic Notation "acquire" hyp(Hw) "by" constr(law) "as" ident(w') ident(a) :=
  port Hw with (acquires_cases _ _ _ _ _ _ law) as w' a.
Tactic Notation "neutral" hyp(Hw) "by" constr(law) "as" ident(w') ident(a) :=
  port Hw with (keeps_cases _ _ _ _ _ law) as w' a.

#[local] Opaque next_generation rollback rollback_pass_through.

Section stages.
Context {W : Type} `{AttachPortsSpec W}.
Implicit Types (w : W) (loaded : LoadedBpfObject) (xdp : OwnedXdp) (tc : OwnedTc).

Lemma execute_journal_outcome base self w loaded ifindex xdp tc now :
  held w ≡ₚ [ResMaps loaded ifindex (next_generation self); ResTc tc; ResXdp xdp; ResLoaded loaded] ++ base →
  let out := execute_journal self w loaded ifindex (next_generation self) xdp tc now in
  attached base Observing self out ∧ activated_last base out.
Proof.
  intros Hw out. unfold out, execute_journal.
  acquire Hw by (journal_acquires w (ownership_record (next_generation self) ifindex xdp tc loaded now))
    as w1 saved.
  pose proof Hw as Hw1. neutral Hw by (publish_keeps w1 loaded ifindex (next_generation self)) as w2 done.
  destruct done. split; [by split_and!|]. by exists w1.
Qed.

Lemma execute_tc_outcome base self w loaded ifindex xdp now :
  held w ≡ₚ [ResXdp xdp; ResLoaded loaded] ++ base →
  let out := execute_tc self w loaded ifindex xdp now in
  attached base Observing self out ∧ activated_last base out.
Proof.
  intros Hw out. unfold out, execute_tc.
  acquire Hw by (tc_acquires w ifindex TcEgressHook (lo_tc_egress loaded)) as w1 tc.
  neutral Hw by (tc_verify_keeps w1 tc) as w2 verified.
  acquire Hw by (maps_acquires w2 loaded ifindex (next_generation self)) as w3 initialised.
  by apply execute_journal_outcome.
Qed.

Lemma execute_hooks_outcome base self w loaded ifindex now :
  held w ≡ₚ [ResLoaded loaded] ++ base →
  let out := execute_hooks self w loaded ifindex now in
  attached base Observing self out ∧ activated_last base out.
Proof.
  intros Hw out. unfold out, execute_hooks.
  acquire Hw by (xdp_acquires w ifindex XdpGeneric (lo_xdp loaded)) as w1 xdp.
  neutral Hw by (xdp_verify_keeps w1 xdp) as w2 verified.
  by apply execute_tc_outcome.
Qed.

Lemma pass_through_tc_outcome base self w loaded ifindex xdp now :
  held w ≡ₚ [ResXdp xdp; ResMaps loaded ifindex (next_generation self); ResLoaded loaded] ++ base →
  attached base Attaching self
    (pass_through_tc self w loaded ifindex (next_generation self) xdp now).
Proof.
  intros Hw. unfold pass_through_tc.
  acquire Hw by (tc_acquires w ifindex TcEgressHook (lo_tc_egress loaded)) as w1 tc.
  neutral Hw by (tc_verify_keeps w1 tc) as w2 verified.
  acquire Hw by (journal_acquires w2 (ownership_record (next_generation self) ifindex xdp tc loaded now))
    as w3 saved.
  split_and!; [|done..]. cbn [fst snd at_ports]. rewrite Hw. own_perm.
Qed.

Lemma pass_through_hooks_outcome base self w loaded ifindex now :
  held w ≡ₚ [ResLoaded loaded] ++ base →
  attached base Attaching self (pass_through_hooks self w loaded ifindex now).
Proof.
  intros Hw. unfold pass_through_hooks.
  acquire Hw by (maps_acquires w loaded ifindex (next_generation self)) as w1 initialised.
  acquire Hw by (xdp_acquires w1 ifindex XdpGeneric (lo_xdp loaded)) as w2 xdp.
  neutral Hw by (xdp_verify_keeps w2 xdp) as w3 verified.
  by apply pass_through_tc_outcome.
Qed.
End stages.

Section transactions.
Context {W : Type} `{AttachPortsSpec W}.
Implicit Types (self : AttachmentTransaction W) (session : AttachmentSession).

Lemma held_unchanged {A} (w w' : W) (res : result PortError A) (call : W * result PortError A) :
  keeps held w call → call = (w', res) → held w' ≡ₚ held w.
Proof. by intros Hk ->. Qed.

Lemma validate_error interface report error :
  validate_isolated_target interface report = Err error →
  ∃ code message, error = without_cleanup code message.
Proof. unfold validate_isolated_target. repeat case_match; intros; simplify_eq; eauto. Qed.

Lemma execute_outcome self interface run_id now :
  let out := execute self interface run_id now in
  attached (held (at_ports self)) Observing self out ∧ activated_last (held (at_ports self)) out.
Proof.
  unfold execute. destruct (inspect _ _) as [w1 [report|e]] eqn:H1;
    apply (held_unchanged _ _ _ _ (inspect_keeps _ _)) in H1;
    [|split; [by apply fail_unchanged|done]].
  destruct (validate_isolated_target _ _) as [u|error] eqn:Hv.
  2: { apply validate_error in Hv as (code & message & ->). split; [by apply fail_unchanged|done]. }
  destruct (raise_memlock_to_infinity w1) as [w2 [u2|e]] eqn:H2;
    apply (held_unchanged _ _ _ _ (raise_memlock_keeps _)) in H2; rewrite H1 in H2;
    [|split; [by apply fail_unchanged|done]].
  destruct (TestPinRoot_new run_id) as [pins|e]; [|split; [by apply fail_unchanged|done]].
  pose proof (load_acquires w2 pins) as Hl. destruct (load_and_validate_abi w2 pins) as [w3 [loaded|e]];
    cbn in Hl; rewrite H2 in Hl; [by apply execute_hooks_outcome|split; [by apply fail_unchanged|done]].
Qed.

Lemma cleanup_outcome all base st :
  cleaning all base [] st →
  match cleanup_result st.2 with
  | Ok _ => held st.1 ≡ₚ base
  | Err error =>
      ae_code error = OWNED_CLEANUP_INCOMPLETE ∧ ae_cleanup_evidence error ≠ [] ∧
      restored base st.1 (ae_cleanup_evidence error)
  end.
Proof.
  intros Hc%cleaning_done. destruct st as [w [|ev evs]]; [|done].
  destruct Hc as ([] & Hw & Hl); [exact Hw|done].
Qed.

(** A detached session is released, or each resource retained is reported. *)
Definition released (base : list Resource) self
    (out : AttachmentTransaction W * result AttachmentError unit) : Prop :=
  at_generation out.1 = at_generation self ∧
  match out.2 with
  | Ok _ => held (at_ports out.1) ≡ₚ base
  | Err error =>
      ae_code error = OWNED_CLEANUP_INCOMPLETE ∧ ae_cleanup_evidence error ≠ [] ∧
      restored base (at_ports out.1) (ae_cleanup_evidence error)
  end.

Lemma detach_exact_outcome self session base :
  held (at_ports self) ≡ₚ session_resources session ++ base →
  released base self (detach_exact self session).
Proof.
  intros Hw. split; [done|]. cbn [detach_exact fst snd at_ports]. eapply cleanup_outcome.
  eapply cleaning_step; [intros w; apply unload_releases|].
  eapply cleaning_option; [apply xdp_releases|]. eapply cleaning_foldl; [apply tc_releases|].
  eapply cleaning_step; [intros w; apply maps_releases|].
  eapply cleaning_step; [intros w; apply journal_releases|].
  apply cleaning_start. rewrite Hw. unfold session_resources. solve_Permutation.
Qed.

(** A detach whose journal was removed leaves no journal, whatever else fails. *)
Lemma detach_drops_journal self session base :
  held (at_ports self) ≡ₚ session_resources session ++ base →
  ResJournal (as_ownership session) ∉ base →
  (ownership_remove_exact (at_ports self) (as_ownership session)).2 = Ok tt →
  ResJournal (as_ownership session) ∉ held (at_ports (detach_exact self session).1).
Proof.
  intros Hw Hbase Hrm. pose proof (journal_releases (at_ports self) (as_ownership session)) as Hrel.
  unfold detach_exact. destruct (ownership_remove_exact _ _) as [w1 res] eqn:Hcall. cbn [snd] in Hrm. subst res.
  assert (held w1 ≡ₚ tail (session_resources session) ++ base) as Hw1.
  { apply (Permutation_cons_inv (a := ResJournal (as_ownership session))).
    rewrite <-Hrel by (rewrite Hw; set_solver). done. }
  set (st := cleanup_step _ "ephemeral ownership journal" _).
  assert (st = (w1, [])) as -> by (unfold st, cleanup_step; cbn; by rewrite Hcall).
  match goal with |- _ ∉ held (at_ports (mkAttachmentTransaction ?w _, _).1) =>
    assert (∃ ev, cleaning (tail (session_resources session)) base [] (w, ev)) as [ev (leaked & Hl & _ & Hall)] end.
  { cbv zeta. eexists. rewrite <-surjective_pairing.
    eapply cleaning_step; [intros w; apply unload_releases|].
    eapply cleaning_option; [apply xdp_releases|]. eapply cleaning_foldl; [apply tc_releases|].
    eapply cleaning_step; [intros w; apply maps_releases|].
    by apply cleaning_start. }
  cbn [fst at_ports]. rewrite Hl, app_nil_l, elem_of_app. intros [Hin|Hin]; [|done].
  rewrite app_nil_r in Hall. apply (elem_of_submseteq _ _ _ Hin) in Hall. revert Hall. cbn [session_resources tail].
  rewrite elem_of_cons, !elem_of_app, list_elem_of_fmap.
  intros [?|[(? & ? & _)|[?|?]]]; [done|done| |set_solver].
  destruct (or_xdp (as_ownership session)); set_solver.
Qed.

Lemma detach_pass_through_outcome self permit session base :
  held (at_ports self) ≡ₚ session_resources session ++ base →
  let out := detach_acceptance_pass_through_exact self permit session in
  if matches_attachment permit session then released base self out
  else out = (self, Err (without_cleanup PF_OWNERSHIP_MISMATCH
                           "acceptance pass-through cleanup identity changed")).
Proof.
  intros Hw. cbv zeta. unfold detach_acceptance_pass_through_exact.
  destruct (matches_attachment permit session); [|done]. cbn [negb].
  split; [done|]. cbn [fst snd at_ports]. eapply cleanup_outcome.
  eapply cleaning_step; [intros w; apply unload_releases|].
  eapply cleaning_step; [intros w; apply maps_releases|].
  eapply cleaning_option; [apply xdp_releases|]. eapply cleaning_foldl; [apply tc_releases|].
  eapply cleaning_step; [intros w; apply journal_releases|].
  apply cleaning_start. rewrite Hw. unfold session_resources. solve_Permutation.
Qed.

Lemma execute_pass_through_outcome self permit now :
  attached (held (at_ports self)) Attaching self (execute_acceptance_pass_through self permit now).
Proof.
  unfold execute_acceptance_pass_through. destruct (inspect _ _) as [w1 [report|e]] eqn:H1;
    apply (held_unchanged _ _ _ _ (inspect_keeps _ _)) in H1; [|by apply fail_unchanged].
  destruct (validate_isolated_target _ _) as [u|error] eqn:Hv.
  2: { apply validate_error in Hv as (code & message & ->). by apply fail_unchanged. }
  destruct (authorizes _ _ _); cbn [negb]; [|by apply fail_unchanged].
  destruct (raise_memlock_to_infinity w1) as [w2 [u2|e]] eqn:H2;
    apply (held_unchanged _ _ _ _ (raise_memlock_keeps _)) in H2; rewrite H1 in H2;
    [|by apply fail_unchanged].
  destruct (TestPinRoot_new _) as [pins|e]; [|by apply fail_unchanged].
  pose proof (load_acquires w2 pins) as Hl. destruct (load_and_validate_abi w2 pins) as [w3 [loaded|e]];
    cbn in Hl; rewrite H2 in Hl; [by apply pass_through_hooks_outcome|by apply fail_unchanged].
Qed.
End transactions.

(** ** A concrete world

    Ports that follow a script of successes and failures, to evaluate the
    transaction on. *)
Module Scripted.
#[export] Instance LoadedXdp_eq_dec : EqDecision LoadedXdp.
Proof. solve_decision. Defined.
#[export] Instance LoadedTc_eq_dec : EqDecision LoadedTc.
Proof. solve_decision. Defined.
#[export] Instance LoadedBpfObject_eq_dec : EqDecision LoadedBpfObject.
Proof. solve_decision. Defined.
#[export] Instance Resource_eq_dec : EqDecision Resource.
Proof. solve_decision. Defined.

Record World : Type := mkWorld {
  sw_report : PreflightReport;
  sw_loaded : LoadedBpfObject;
  sw_held : list Resource;
  sw_script : list bool;
}.

Definition refused {A} : result PortError A := Err (Adapter "scripted failure").

(** Each call consumes one entry of the script; an exhausted script succeeds. *)
Definition answer {A} (w : World) (success : list Resource) (value : A) : World * result PortError A :=
  let continue held := mkWorld (sw_report w) (sw_loaded w) held (tail (sw_script w)) in
  if default true (head (sw_script w)) then (continue success, Ok value)
  else (continue (sw_held w), refused).

Definition acquire {A} (w : World) (value : A) (resource : Resource) : World * result PortError A :=
  answer w (resource :: sw_held w) value.

Fixpoint remove_one (resource : Resource) (held : list Resource) : option (list Resource) :=
  match held with
  | [] => None
  | r :: held => if decide (r = resource) then Some held
                 else (λ rest, r :: rest) <$> remove_one resource held
  end.

Definition release (w : World) (resource : Resource) : World * result PortError unit :=
  match remove_one resource (sw_held w) with
  | Some rest => answer w rest tt
  | None => (w, refused)
  end.

Definition no_op (w : World) : World * result PortError unit := answer w (sw_held w) tt.

Lemma answer_keeps {A} w (value : A) : keeps sw_held w (answer w (sw_held w) value).
Proof. unfold keeps, answer. by destruct (default true _). Qed.

Lemma acquire_acquires {A} w (value : A) resource :
  acquires sw_held w (acquire w value (resource value)) resource.
Proof. unfold acquires, acquire, answer, refused. by destruct (default true _). Qed.

Lemma remove_one_Permutation resource held rest :
  remove_one resource held = Some rest → held ≡ₚ resource :: rest.
Proof.
  revert rest. induction held as [|r held IH]; intros rest; cbn; [done|].
  case_decide; [by intros; simplify_eq|]. destruct (remove_one resource held); intros; simplify_eq/=.
  rewrite (IH _ eq_refl). apply Permutation_swap.
Qed.

Lemma release_releases w resource : releases sw_held w (release w resource) resource.
Proof.
  intros Hin. unfold release. destruct (remove_one resource (sw_held w)) eqn:Hr; [|unfold refused; done].
  apply remove_one_Permutation in Hr. unfold answer, refused. by destruct (default true _).
Qed.

#[global] Instance ports : AttachPorts World := {|
  inspect w _ := answer w (sw_held w) (sw_report w);
  raise_memlock_to_infinity w := no_op w;
  load_and_validate_abi w _ := acquire w (sw_loaded w) (ResLoaded (sw_loaded w));
  unload_exact w loaded := release w (ResLoaded loaded);
  attach_no_replace w ifindex mode loaded :=
    let owned := mkOwnedXdp ifindex mode (lx_program_id loaded) (lx_program_tag loaded) (Some 5) in
    acquire w owned (ResXdp owned);
  xdp_verify_exact w _ := no_op w;
  xdp_detach_exact w owned := release w (ResXdp owned);
  attach_explicit w ifindex hook loaded :=
    let owned := mkOwnedTc ifindex hook 1 1 (lt_program_id loaded) true in
    acquire w owned (ResTc owned);
  tc_verify_exact w _ := no_op w;
  tc_detach_exact w owned := release w (ResTc owned);
  initialize_dependent w loaded ifindex generation := acquire w tt (ResMaps loaded ifindex generation);
  publish_iface_config w _ _ _ := no_op w;
  rollback_initialized_exact w loaded ifindex generation := release w (ResMaps loaded ifindex generation);
  ownership_save w record := acquire w tt (ResJournal record);
  ownership_remove_exact w record := release w (ResJournal record);
|}.

#[global] Instance ports_spec : AttachPortsSpec World.
Proof.
  refine {| held := sw_held |}; intros; cbn.
  all: first [apply answer_keeps | apply release_releases | idtac].
  - exact (acquire_acquires w (sw_loaded w) ResLoaded).
  - exact (acquire_acquires w _ ResXdp).
  - exact (acquire_acquires w _ ResTc).
  - exact (acquire_acquires w tt (λ _, ResMaps loaded ifindex generation)).
  - exact (acquire_acquires w tt (λ _, ResJournal record)).
Defined.

Definition name : InterfaceName := mkInterfaceName "veth0".
Definition run_id : RunId := mkRunId "0123456789abcdef0123456789abcdef".
Definition interface : InterfaceInspection :=
  mkInterfaceInspection (mkInterfaceRef name 7) Veth true true None None [] true false.
Definition report : PreflightReport :=
  mkPreflightReport PreflightReady interface (mkKernelInspection "x86_64" "6.8" true true true true)
    (mkBpfInspection true true PinRootAbsent AttachmentEmpty AttachmentEmpty [] []
       (mkMemlockInspection None None 0 true)) [].
Definition pins : list OwnedMapPin :=
  imap (λ i name, mkOwnedMapPin name
          (join (join TEST_PIN_BASE (run_id_str run_id)) name) (100 + Z.of_nat i)) OWNED_MAP_NAMES.
Definition object : LoadedBpfObject :=
  mkLoadedBpfObject (mkLoadedXdp 3 11 (vreplicate 8 0)) (mkLoadedTc 4 12) pins.

(** A fresh transaction over a world with the given script. *)
Definition transaction (script : list bool) : AttachmentTransaction World :=
  AttachmentTransaction_new (mkWorld report object [] script).
Definition permit : AcceptancePassThroughPermit := mkAcceptancePassThroughPermit run_id name 7.
End Scripted.

(** ** Properties *)

(** C23: [AttachmentTransaction::execute] attaches exactly, activates last and
    restores on failure: for any ports that honour their contracts, when it
    returns a session the world holds precisely the session's journal, maps, TC
    filter, XDP link and loaded object on top of what it held before, the session
    is observing under the next generation, and the interface configuration was
    published only in a world that already held all of these; when it fails, the
    generation is unchanged and the world holds what it held before plus exactly
    one retained resource per entry of the cleanup evidence, so an error without
    cleanup evidence means that nothing was left behind. *)
Theorem attach_outcome {W : Type} `{AttachPortsSpec W} (self : AttachmentTransaction W)
    (interface : InterfaceName) (run_id : RunId) (created_at_unix_seconds : Z) :
  let out := execute self interface run_id created_at_unix_seconds in
  attached (held (at_ports self)) Observing self out ∧
  activated_last (held (at_ports self)) out.
Proof. apply execute_outcome. Qed.

(** The journal cannot be saved and the XDP link cannot be detached. *)
Lemma attach_outcome_witness :
  let script := [true; true; true; true; true; true; true; true; false; true; true; false] in
  let self := Scripted.transaction script in
  let out := execute self Scripted.name Scripted.run_id 1 in
  (∃ error, out.2 = Err error ∧ length (ae_cleanup_evidence error) = 1%nat) ∧
  attached (held (at_ports self)) Observing self out ∧
  activated_last (held (at_ports self)) out.
Proof.
  split; [eexists; split; vm_compute; reflexivity|].
  apply (attach_outcome (Scripted.transaction _) Scripted.name Scripted.run_id 1).
Defined.

(** Detaching undoes attaching: a session returned by [execute] and detached
    by [detach_exact] leaves the world holding exactly what it held before the
    attachment, or the detach fails with [OWNED_CLEANUP_INCOMPLETE] and lists one
    piece of evidence per resource it retained; the generation that the
    attachment consumed is not given back. *)
Lemma attach_detach_roundtrip {W : Type} `{AttachPortsSpec W} (self self' : AttachmentTransaction W)
    (interface : InterfaceName) (run_id : RunId) (now : Z) (session : AttachmentSession)
    (Hexecute : execute self interface run_id now = (self', Ok session)) :
  released (held (at_ports self)) self' (detach_exact self' session) ∧
  at_generation self' = next_generation self.
Proof.
  pose proof (execute_outcome self interface run_id now) as [Ha _]. rewrite Hexecute in Ha.
  destruct Ha as (Hw & Hg & _). split; [|done]. by apply detach_exact_outcome.
Qed.

Lemma attach_detach_roundtrip_witness :
  let self := Scripted.transaction [] in
  ∃ self' session,
    execute self Scripted.name Scripted.run_id 1 = (self', Ok session) ∧
    held (at_ports self') ≠ [] ∧
    released (held (at_ports self)) self' (detach_exact self' session) ∧
    at_generation self' = next_generation self.
Proof.
  eexists _, _. split; [vm_compute; reflexivity|]. split; [done|].
  apply (attach_detach_roundtrip (Scripted.transaction []) _ Scripted.name Scripted.run_id 1).
  vm_compute. reflexivity.
Defined.

(** The acceptance pass-through mode acquires and releases the same
    resources without ever activating observation: its session is left in state
    [Attaching], a failure restores, and its detach either refuses a session that
    does not match the permit, leaving the world untouched, or releases the
    session's resources as [detach_exact] does. *)
Theorem pass_through_outcome {W : Type} `{AttachPortsSpec W} (self : AttachmentTransaction W)
    (permit : AcceptancePassThroughPermit) (now : Z) :
  let out := execute_acceptance_pass_through self permit now in
  attached (held (at_ports self)) Attaching self out ∧
  match out with
  | (self', Ok session) =>
      let detached := detach_acceptance_pass_through_exact self' permit session in
      if matches_attachment permit session then released (held (at_ports self)) self' detached
      else detached = (self', Err (without_cleanup PF_OWNERSHIP_MISMATCH
                                     "acceptance pass-through cleanup identity changed"))
  | (_, Err _) => True
  end.
Proof.
  intros out. pose proof (execute_pass_through_outcome self permit now) as Ha.
  fold out in Ha. split; [done|]. destruct out as [self' [session|]]; [|done].
  destruct Ha as (Hw & _). by apply detach_pass_through_outcome.
Qed.

Lemma pass_through_outcome_witness :
  let self := Scripted.transaction [] in
  let out := execute_acceptance_pass_through self Scripted.permit 1 in
  (∃ session, out.2 = Ok session ∧ matches_attachment Scripted.permit session = true) ∧
  attached (held (at_ports self)) Attaching self out.
Proof.
  split; [eexists; split; vm_compute; reflexivity|].
  apply (pass_through_outcome (Scripted.transaction []) Scripted.permit 1).
Defined.
