(* ===== verification/OwnershipJournal.v ===== *)
(** The ownership journal of [l2-loop-agent] ([ownership.rs]): the record of a session
    is written under a temporary name and renamed to its path, read back with all its
    checks, and removed only while it is the record the session holds. *)
From S2P Require Import Prelude Domain Text Packet Ownership Attach.

(** ** Paths *)
Record JournalPath : Type := mkJournalPath { jp_root : string; jp_path : string }.

Definition JournalPath_for_root (root : string) (run_id : RunId) : result OwnershipError JournalPath :=
  _ ← validate_absolute_root root InvalidJournalPath;
  Ok (mkJournalPath root (join root (run_id_str run_id ++ ".json"))).

Definition JournalPath_new (run_id : RunId) : result OwnershipError JournalPath :=
  JournalPath_for_root TEST_JOURNAL_ROOT run_id.

(** A path that is written without superfluous slashes ends in its file name; what is
    before it, with its slash. *)
Definition directory_part (path name : string) : string :=
  String.substring 0 (String.length path - String.length name) path.

(** [Path::parent], of such a path below the root. *)
Definition parent_path (path : string) : option string :=
  match file_name path with
  | Some name =>
      let directory := directory_part path name in
      Some (if bool_decide (directory = "/") then directory
            else String.substring 0 (String.length directory - 1) directory)
  | None => None
  end.

(** [Path::file_stem]: the name before its last dot, unless nothing is before it. *)
Definition file_stem (name : string) : string :=
  match split_on (Ascii.ascii_of_nat 46) name with
  | [_] => name
  | parts =>
      let before := String.concat "." (removelast parts) in
      if bool_decide (before = "") then name else before
  end.

(** [Path::with_extension]. *)
Definition with_extension (path extension : string) : string :=
  match file_name path with
  | Some name => directory_part path name ++ file_stem name ++ "." ++ extension
  | None => path
  end.

Definition temporary_path (self : JournalPath) : string := with_extension (jp_path self) "json.tmp".

(** ** The file system *)
Inductive OwnershipFileType : Type := OwnershipFile | OwnershipDirectory | OwnershipLink | OwnershipOther.

#[export] Instance OwnershipFileType_eq_dec : EqDecision OwnershipFileType.
Proof. solve_decision. Defined.

Record OwnershipMetadata : Type := mkOwnershipMetadata { om_file_type : OwnershipFileType; om_mode : Z }.

Class OwnershipFileSystem (W : Type) : Type := {
  metadata : W → string → W * result IoFailure OwnershipMetadata;
  read : W → string → W * result IoFailure (list Z);
  write_new_sync : W → string → list Z → Z → W * result IoFailure unit;
  rename_replace : W → string → string → W * result IoFailure unit;
  sync_directory : W → string → W * result IoFailure unit;
}.

(** The standard library.  A file that was created is named by its path; [sync_all]
    opens a directory and synchronises it. *)
Record FileStatus : Type := mkFileStatus {
  fst_is_symlink : bool;
  fst_is_file : bool;
  fst_is_dir : bool;
  fst_permissions : Z;
}.

Class StdFs (W : Type) : Type := {
  symlink_metadata : W → string → W * result IoFailure FileStatus;
  fs_read : W → string → W * result IoFailure (list Z);
  create_dir_all : W → string → W * result IoFailure unit;
  create_new : W → string → Z → W * result IoFailure unit;
  set_permissions : W → string → Z → W * result IoFailure unit;
  write_all : W → string → list Z → W * result IoFailure unit;
  sync_all : W → string → W * result IoFailure unit;
  fs_rename : W → string → string → W * result IoFailure unit;
  remove_file : W → string → W * result IoFailure unit;
}.

(** [0o777] and [0o600]. *)
Definition PERMISSION_BITS : Z := 511.
Definition JOURNAL_MODE : Z := 384.

Definition invalid_input (text : string) : IoFailure := mkIoFailure false text.

Section std_filesystem.
Context {W : Type} `{StdFs W}.
Implicit Types (w : W).

Definition std_metadata w (path : string) : W * result IoFailure OwnershipMetadata :=
  let* (w, status) := symlink_metadata w path in
  let file_type :=
    if fst_is_symlink status then OwnershipLink
    else if fst_is_file status then OwnershipFile
    else if fst_is_dir status then OwnershipDirectory
    else OwnershipOther in
  (w, Ok (mkOwnershipMetadata file_type (Z.land (fst_permissions status) PERMISSION_BITS))).

Definition std_write_new_sync w (path : string) (contents : list Z) (mode : Z) : W * result IoFailure unit :=
  let* (w, parent) := (w, ok_or (parent_path path) (invalid_input "missing parent")) in
  let* (w, _) := create_dir_all w parent in
  let* (w, status) := symlink_metadata w parent in
  if fst_is_symlink status || negb (fst_is_dir status)
  then (w, Err (invalid_input "journal parent is not a directory"))
  else
    let* (w, _) := create_new w path mode in
    let* (w, _) := set_permissions w path mode in
    let* (w, _) := write_all w path contents in
    sync_all w path.

Definition StdOwnershipFileSystem : OwnershipFileSystem W := {|
  metadata := std_metadata;
  read := fs_read;
  write_new_sync := std_write_new_sync;
  rename_replace := fs_rename;
  sync_directory := sync_all;
|}.
End std_filesystem.

(** ** The store *)
Class OwnershipJson : Type := {
  to_vec_pretty : OwnershipRecord → result string (list Z);
  from_slice : list Z → result string OwnershipRecord;
}.

Record OwnershipStore : Type := mkOwnershipStore { os_journal : JournalPath; os_pins : TestPinRoot }.

Section store.
Context {W : Type} `{OwnershipFileSystem W} `{OwnershipJson}.
Implicit Types (w : W) (self : OwnershipStore).

(** The question mark operator on a call of the file system. *)
Definition or_io {A} (m : W * result IoFailure A) (path : string) : W * result OwnershipError A :=
  (m.1, map_err (OwnershipIo path) m.2).

Definition reject_symlink w (path : string) : W * result OwnershipError unit :=
  let* (w, m) := or_io (metadata w path) path in
  (w, if bool_decide (om_file_type m = OwnershipLink) then Err (OwnershipSymlink path) else Ok tt).

(** The directories on the way to a pin, below [current]. *)
Fixpoint reject_symlinks w (current : string) (suffix : list Component) : W * result OwnershipError unit :=
  match suffix with
  | [] => (w, Ok tt)
  | Normal name :: suffix =>
      let current := join current name in
      let* (w, _) := reject_symlink w current in
      reject_symlinks w current suffix
  | _ :: _ => (w, Err InvalidPinPath)
  end.

Definition validate_existing w (self : TestPinRoot) (target : string) : W * result OwnershipError unit :=
  let* (w, _) := (w, validate_lexical self target) in
  let* (w, _) := reject_symlink w (pin_root_path self) in
  let* (w, suffix) := (w, ok_or (strip_prefix (components (pin_root_path self)) (components target)) InvalidPinPath) in
  reject_symlinks w (pin_root_path self) suffix.

Fixpoint validate_existing_pins w (self : TestPinRoot) (pins : list OwnedMapPin) : W * result OwnershipError unit :=
  match pins with
  | [] => (w, Ok tt)
  | pin :: pins =>
      let* (w, _) := validate_existing w self (mp_path pin) in
      validate_existing_pins w self pins
  end.

Definition validate_record w self (record : OwnershipRecord)
    (expected_abi_version expected_ifindex expected_generation : Z) : W * result OwnershipError unit :=
  if negb (or_schema_version record =? OWNERSHIP_SCHEMA_VERSION)
  then (w, Err (OwnershipSchemaMismatch OWNERSHIP_SCHEMA_VERSION (or_schema_version record)))
  else if negb (or_abi_version record =? expected_abi_version) || negb (or_abi_version record =? ABI_VERSION)
  then (w, Err (OwnershipAbiMismatch expected_abi_version (or_abi_version record)))
  else if (or_ifindex record =? 0) || (or_generation record =? 0)
          || negb (or_ifindex record =? expected_ifindex) || negb (or_generation record =? expected_generation)
  then (w, Err (OwnershipIdentityMismatch "journal generation or ifindex does not match"))
  else if match or_xdp record with Some xdp => negb (ox_ifindex xdp =? or_ifindex record) | None => false end
          || existsb (λ tc, negb (ot_ifindex tc =? or_ifindex record)) (or_tc record)
  then (w, Err (OwnershipIdentityMismatch "owned hook ifindex does not match journal"))
  else
    let* (w, _) := (w, validate_owned_maps record) in
    validate_existing_pins w (os_pins self) (or_map_pins record).

Definition os_save w self (record : OwnershipRecord) : W * result OwnershipError unit :=
  let journal := os_journal self in
  let* (w, _) := validate_record w self record (or_abi_version record) (or_ifindex record) (or_generation record) in
  let* (w, _) :=
    match metadata w (jp_path journal) with
    | (w, Ok m) => (w, if bool_decide (om_file_type m = OwnershipFile) then Ok tt else Err InvalidJournalPath)
    | (w, Err error) => (w, if io_not_found error then Ok tt else Err (OwnershipIo (jp_path journal) error))
    end in
  let* (w, contents) := (w, map_err OwnershipJsonError (to_vec_pretty record)) in
  let temporary := temporary_path journal in
  let* (w, _) := or_io (write_new_sync w temporary contents JOURNAL_MODE) temporary in
  let* (w, _) := or_io (rename_replace w temporary (jp_path journal)) (jp_path journal) in
  or_io (sync_directory w (jp_root journal)) (jp_root journal).

Definition load_current w self : W * result OwnershipError OwnershipRecord :=
  let path := jp_path (os_journal self) in
  let* (w, m) := or_io (metadata w path) path in
  if bool_decide (om_file_type m = OwnershipLink) then (w, Err (OwnershipSymlink path))
  else if negb (bool_decide (om_file_type m = OwnershipFile)) || negb (om_mode m =? JOURNAL_MODE)
  then (w, Err InvalidJournalPath)
  else
    let* (w, contents) := or_io (read w path) path in
    let* (w, record) := (w, map_err OwnershipJsonError (from_slice contents)) in
    let* (w, _) := validate_record w self record ABI_VERSION (or_ifindex record) (or_generation record) in
    (w, Ok record).

Definition load_validated w self (expected_abi_version expected_ifindex expected_generation : Z)
    : W * result OwnershipError OwnershipRecord :=
  let* (w, record) := load_current w self in
  let* (w, _) := validate_record w self record expected_abi_version expected_ifindex expected_generation in
  (w, Ok record).
End store.

(** ** The repository of a run *)
Section repository.
Context {W : Type} `{StdFs W} `{OwnershipJson}.
Implicit Types (w : W).

#[local] Existing Instance StdOwnershipFileSystem.

Definition ownership_port_error (error : OwnershipError) : PortError := Adapter (ownership_error_to_string error).

Definition port_result {A} (m : result OwnershipError A) : result PortError A := map_err ownership_port_error m.

Definition FileOwnershipRepository_load w (run_id : RunId) : W * result PortError OwnershipRecord :=
  let* (w, journal) := (w, port_result (JournalPath_new run_id)) in
  let* (w, pins) := (w, port_result (TestPinRoot_new run_id)) in
  let '(w, r) := load_current w (mkOwnershipStore journal pins) in
  (w, port_result r).

Definition paths_for_record (record : OwnershipRecord) : result PortError OwnershipStore :=
  first ← ok_or (head (or_map_pins record)) (Adapter "ownership record has no pin identity");
  parent ← ok_or (parent_path (mp_path first)) (Adapter "owned pin has no run root");
  value ← ok_or (file_name parent) (Adapter "owned pin run ID is invalid");
  run_id ← port_result (RunId_parse value);
  journal ← port_result (JournalPath_new run_id);
  pins ← port_result (TestPinRoot_new run_id);
  if negb (bool_decide (components parent = components (pin_root_path pins)))
     || existsb (λ pin, negb (is_ok (validate_lexical pins (mp_path pin)))) (or_map_pins record)
  then Err (Adapter "ownership record contains a pin outside its isolated run")
  else Ok (mkOwnershipStore journal pins).

Definition repository_save w (record : OwnershipRecord) : W * result PortError unit :=
  let* (w, store) := (w, paths_for_record record) in
  let '(w, r) := os_save w store record in
  (w, port_result r).

(** Paths are equal when their components are. *)
Definition pin_key (pin : OwnedMapPin) : string * list Component * Z :=
  (mp_name pin, components (mp_path pin), mp_map_id pin).

Definition same_record (a b : OwnershipRecord) : bool :=
  bool_decide (
    or_schema_version a = or_schema_version b ∧ or_abi_version a = or_abi_version b ∧
    or_generation a = or_generation b ∧ or_ifindex a = or_ifindex b ∧ or_xdp a = or_xdp b ∧
    or_tc a = or_tc b ∧ map pin_key (or_map_pins a) = map pin_key (or_map_pins b) ∧
    or_created_at_unix_seconds a = or_created_at_unix_seconds b).

Definition repository_remove_exact w (record : OwnershipRecord) : W * result PortError unit :=
  let* (w, store) := (w, paths_for_record record) in
  let '(w, current) := load_validated w store (or_abi_version record) (or_ifindex record) (or_generation record) in
  let* (w, current) := (w, port_result current) in
  if negb (same_record current record)
  then (w, Err (Adapter "ownership journal changed identity and was retained"))
  else
    let journal := os_journal store in
    let '(w, removed) := or_io (remove_file w (jp_path journal)) (jp_path journal) in
    let* (w, _) := (w, port_result removed) in
    let '(w, synced) := or_io (sync_all w (jp_root journal)) (jp_root journal) in
    (w, port_result synced).
End repository.

(** ** The paths of a run *)
Definition slash : Ascii.ascii := Ascii.ascii_of_nat 47.
Definition dot : Ascii.ascii := Ascii.ascii_of_nat 46.

Lemma substring_prefix a b : String.substring 0 (String.length a) (a ++ b) = a.
Proof. 
  induction a as [|c a IH]; [by destruct b|].
  change (String.substring 0 (S (String.length a)) (String c (a ++ b)) = String c a). cbn [String.substring]. by rewrite IH.
 Qed.

Lemma string_length_app a b : String.length (a ++ b) = (String.length a + String.length b)%nat.
Proof. 
  induction a as [|c a IH]; [done|]. change (S (String.length (a ++ b)) = (S (String.length a) + String.length b)%nat).
  by rewrite IH.
Qed.

Lemma directory_part_app directory name : directory_part (directory ++ name) name = directory.
Proof.
  unfold directory_part. rewrite string_length_app, Nat.add_sub. apply substring_prefix.
Qed.

Lemma run_id_lower_hex value run_id :
  RunId_parse value = Ok run_id → run_id_str run_id = value ∧ String.length value = 32%nat ∧
  forallb is_lower_hex (string_bytes value) = true.
Proof.
  unfold RunId_parse. destruct (_ && _) eqn:Hv; [|done]. intros [= <-]. apply andb_true_iff in Hv as [Hl Hv].
  apply Nat.eqb_eq in Hl. done.
Qed.

Lemma lower_hex_free_of sep value :
  is_lower_hex sep = false → forallb is_lower_hex (string_bytes value) = true → free_of sep value.
Proof.
  intros Hsep Hall Hin. rewrite forallb_forall in Hall. apply list_elem_of_In in Hin. specialize (Hall _ Hin). congruence.
Qed.

(** The three names of a run's journal: its path, the temporary path, and the
    directory of both. *)
Definition journal_file (run : string) : string := "/run/l2-loop/tests/" ++ run ++ ".json".
Definition journal_temporary (run : string) : string := "/run/l2-loop/tests/" ++ run ++ ".json.tmp".

Lemma journal_segments name :
  free_of slash name → segments ("/run/l2-loop/tests/" ++ name) = [""; "run"; "l2-loop"; "tests"; name]%string.
Proof.
  intros Hname. unfold segments.
  change ("/run/l2-loop/tests/" ++ name)%string with (intercalate slash [""; "run"; "l2-loop"; "tests"; name]%string).
  apply split_intercalate; [done|]. repeat (apply Forall_cons; split; [unfold free_of; apply (bool_decide_unpack _); vm_compute; exact I|]).
  apply Forall_cons. split; [exact Hname|]. by apply Forall_nil.
Qed.

Lemma segment_component_normal name :
  (2 < String.length name)%nat → segment_component name = Some (Normal name).
Proof.
  intros Hlen. unfold segment_component.
  rewrite !bool_decide_eq_false_2; [done|..]; intros ->; cbn in Hlen; lia.
Qed.

Lemma journal_file_name name :
  free_of slash name → (2 < String.length name)%nat → file_name ("/run/l2-loop/tests/" ++ name) = Some name.
Proof.
  intros Hname Hlen. unfold file_name, components.
  replace (is_absolute ("/run/l2-loop/tests/" ++ name)) with true by done.
  rewrite journal_segments by done. cbn [omap list_omap]. by rewrite (segment_component_normal name Hlen).
Qed.

Lemma free_of_append sep a b : free_of sep a → free_of sep b → free_of sep (a ++ b).
Proof. unfold free_of. rewrite string_bytes_app. set_solver. Qed.

Lemma run_file_stem run : run ≠ "" → free_of dot run → file_stem (run ++ ".json") = run.
Proof.
  intros Hrun Hfree. unfold file_stem. change (run ++ ".json")%string with (run ++ String dot "json")%string.
  rewrite split_on_field by done. change (split_on dot "json") with ["json"]%string. cbn [removelast String.concat].
  by rewrite bool_decide_eq_false_2.
Qed.

(** The names of the journal of a run. *)
Lemma run_paths value run_id :
  RunId_parse value = Ok run_id →
  JournalPath_new run_id = Ok (mkJournalPath TEST_JOURNAL_ROOT (journal_file value)) ∧
  temporary_path (mkJournalPath TEST_JOURNAL_ROOT (journal_file value)) = journal_temporary value ∧
  parent_path (journal_temporary value) = Some TEST_JOURNAL_ROOT ∧
  journal_file value ≠ journal_temporary value ∧
  (String.length TEST_JOURNAL_ROOT < String.length (journal_file value))%nat.
Proof.
  intros (Hv & Hlen & Hhex)%run_id_lower_hex.
  assert (free_of slash value) as Hslash by (by eapply lower_hex_free_of).
  assert (free_of dot value) as Hdot by (by eapply lower_hex_free_of).
  assert (free_of slash (value ++ ".json") ∧ free_of slash (value ++ ".json.tmp")) as [Hjson Htmp].
  { split; apply free_of_append; try done; unfold free_of; apply (bool_decide_unpack _); vm_compute; exact I. }
  assert (∀ suffix, (2 < String.length (value ++ suffix))%nat) as Hlong by (intros; rewrite string_length_app; lia).
  split_and!.
  - unfold JournalPath_new, JournalPath_for_root. by rewrite Hv.
  - unfold temporary_path, with_extension, journal_file. cbn [jp_path].
    rewrite journal_file_name by done. rewrite directory_part_app.
    rewrite run_file_stem; [done|by intros ->|done].
  - unfold parent_path, journal_temporary. rewrite journal_file_name by done. by rewrite directory_part_app.
  - intros Heq%(f_equal String.length). revert Heq. unfold journal_file, journal_temporary.
    rewrite !string_length_app. cbn. lia.
  - unfold journal_file. rewrite !string_length_app. cbn. lia.
Qed.

(** ** What the calls do

    Nobody else changes the journal's directory.  A call may fail for any reason, and
    none has an effect after the process has died. *)
Inductive FsNode : Type := NodeFile (mode : Z) (contents : list Z) | NodeDirectory (mode : Z) | NodeLink | NodeOther.

Definition is_directory (node : FsNode) : bool := match node with NodeDirectory _ => true | _ => false end.

Definition status_of (node : FsNode) : FileStatus :=
  match node with
  | NodeFile mode _ => mkFileStatus false true false mode
  | NodeDirectory mode => mkFileStatus false false true mode
  | NodeLink => mkFileStatus true false false PERMISSION_BITS
  | NodeOther => mkFileStatus false false false 0
  end.

Notation fs_disk := (gmap string FsNode).

Class StdFsSpec (W : Type) `{StdFs W} : Type := {
  disk : W → fs_disk;
  symlink_metadata_sees w path :
    disk (symlink_metadata w path).1 = disk w ∧
    match (symlink_metadata w path).2 with
    | Ok status => status_of <$> disk w !! path = Some status
    | Err error => io_not_found error = true → disk w !! path = None
    end;
  fs_read_sees w path :
    disk (fs_read w path).1 = disk w ∧
    ∀ mode contents bytes, disk w !! path = Some (NodeFile mode contents) → (fs_read w path).2 = Ok bytes →
      bytes = contents;
  create_dir_all_adds w path p :
    disk (create_dir_all w path).1 !! p = disk w !! p ∨
    disk w !! p = None ∧ is_directory <$> disk (create_dir_all w path).1 !! p = Some true ∧
    (String.length p ≤ String.length path)%nat;
  create_new_adds w path mode :
    match create_new w path mode with
    | (w', Ok _) => disk w !! path = None ∧ ∃ given, disk w' = <[path := NodeFile given []]> (disk w)
    | (w', Err _) => disk w' = disk w
    end;
  set_permissions_sets w path mode before contents :
    disk w !! path = Some (NodeFile before contents) →
    match set_permissions w path mode with
    | (w', Ok _) => disk w' = <[path := NodeFile mode contents]> (disk w)
    | (w', Err _) => disk w' = disk w
    end;
  write_all_writes w path mode contents :
    disk w !! path = Some (NodeFile mode []) →
    match write_all w path contents with
    | (w', Ok _) => disk w' = <[path := NodeFile mode contents]> (disk w)
    | (w', Err _) => ∃ part, disk w' = <[path := NodeFile mode part]> (disk w)
    end;
  sync_all_keeps w path : disk (sync_all w path).1 = disk w;
  fs_rename_moves w from to :
    match fs_rename w from to with
    | (w', Ok _) => ∃ node, disk w !! from = Some node ∧ disk w' = <[to := node]> (delete from (disk w))
    | (w', Err _) => disk w' = disk w
    end;
  remove_file_removes w path :
    match remove_file w path with
    | (w', Ok _) => disk w' = delete path (disk w)
    | (w', Err _) => disk w' = disk w
    end;
}.

Class OwnershipJsonSpec `{OwnershipJson} : Prop := {
  json_roundtrip record contents : to_vec_pretty record = Ok contents → from_slice contents = Ok record;
}.

Section laws.
Context {W : Type} `{StdFsSpec W}.
Implicit Types (w : W).
#[local] Existing Instance StdOwnershipFileSystem.

Definition same_disk {A} w (m : W * A) : Prop := disk m.1 = disk w.

Lemma same_disk_then {E A B} w (m : W * result E A) (k : W → A → W * result E B) :
  same_disk w m → (∀ w1 a, disk w1 = disk w → same_disk w (k w1 a)) → same_disk w (and_then m k).
Proof. unfold same_disk. destruct m as [w1 [a|e]]; cbn; auto. Qed.

Lemma std_metadata_sees w path :
  same_disk w (std_metadata w path) ∧
  match (std_metadata w path).2 with
  | Ok m => match disk w !! path with
            | Some (NodeFile mode _) => m = mkOwnershipMetadata OwnershipFile (Z.land mode PERMISSION_BITS)
            | Some (NodeDirectory _) => om_file_type m = OwnershipDirectory
            | Some NodeLink => om_file_type m = OwnershipLink
            | Some NodeOther => om_file_type m = OwnershipOther
            | None => False
            end
  | Err error => io_not_found error = true → disk w !! path = None
  end.
Proof.
  unfold std_metadata, same_disk. destruct (symlink_metadata_sees w path) as [Hd Hr].
  destruct (symlink_metadata w path) as [w1 [status|error]]; cbn in *; [|done]. split; [done|].
  destruct (disk w !! path) as [[mode contents|mode| |]|]; cbn in Hr; [injection Hr as <-; done..|done].
Qed.

Lemma reject_symlink_same w path : same_disk w (reject_symlink w path).
Proof.
  unfold reject_symlink. apply same_disk_then; [apply std_metadata_sees|]. by intros w1 m Hd.
Qed.

Lemma same_disk_trans {A} w w1 (m : W * A) : disk w1 = disk w → same_disk w1 m → same_disk w m.
Proof. unfold same_disk. congruence. Qed.

Lemma reject_symlinks_same w current suffix : same_disk w (reject_symlinks w current suffix).
Proof.
  revert w current. induction suffix as [|c suffix IH]; intros w current; [done|]. destruct c; [done..|]. cbn.
  apply same_disk_then; [apply reject_symlink_same|]. intros w1 [] Hd. by eapply same_disk_trans.
Qed.

Lemma validate_existing_same w pins target : same_disk w (validate_existing w pins target).
Proof.
  unfold validate_existing. apply same_disk_then; [done|]. intros w1 [] Hd1.
  apply same_disk_then; [eapply same_disk_trans; [exact Hd1|apply reject_symlink_same]|]. intros w2 [] Hd2.
  apply same_disk_then; [done|]. intros w3 suffix Hd3. eapply same_disk_trans; [exact Hd3|apply reject_symlinks_same].
Qed.

Lemma validate_existing_pins_same w root pins : same_disk w (validate_existing_pins w root pins).
Proof.
  revert w. induction pins as [|pin pins IH]; intros w; [done|]. cbn.
  apply same_disk_then; [apply validate_existing_same|]. intros w1 [] Hd. by eapply same_disk_trans.
Qed.

Lemma validate_record_same w store record abi ifindex generation :
  same_disk w (validate_record w store record abi ifindex generation).
Proof.
  unfold validate_record. repeat (destruct (_ || _); [done|]). destruct (negb _); [done|].
  repeat (destruct (_ || _); [done|]). apply same_disk_then; [done|]. intros w1 [] Hd.
  eapply same_disk_trans; [exact Hd|apply validate_existing_pins_same].
Qed.

(** A file is created as a whole, or whatever is left of it is at its own path; other
    paths at most become directories on the way. *)
Lemma write_new_sync_outcome w path contents mode parent :
  parent_path path = Some parent → (String.length parent < String.length path)%nat →
  let '(w', r) := std_write_new_sync w path contents mode in
  (∀ p, p ≠ path → disk w' !! p = disk w !! p ∨
     disk w !! p = None ∧ is_directory <$> disk w' !! p = Some true ∧ (String.length p ≤ String.length parent)%nat) ∧
  (r = Ok tt → disk w !! path = None ∧ disk w' !! path = Some (NodeFile mode contents)).
Proof.
  intros Hparent Hlen. unfold std_write_new_sync. rewrite Hparent. cbn [ok_or and_then].
  pose proof (create_dir_all_adds w parent) as Hdirs.
  assert (disk (create_dir_all w parent).1 !! path = disk w !! path) as Hpath.
  { destruct (Hdirs path) as [|(_ & _ & ?)]; [done|lia]. }
  destruct (create_dir_all w parent) as [w1 [[]|error]]; cbn [fst snd and_then] in *; [|by split].
  destruct (symlink_metadata_sees w1 parent) as [Hd2 _].
  destruct (symlink_metadata w1 parent) as [w2 [status|error]]; cbn [fst snd and_then] in *; rewrite <-Hd2 in *; [|by split].
  destruct (_ || _); [by split|].
  pose proof (create_new_adds w2 path mode) as Hnew.
  destruct (create_new w2 path mode) as [w3 [[]|error]]; cbn [and_then]; [|by rewrite Hnew].
  destruct Hnew as (Hnone & given & Hd3).
  pose proof (set_permissions_sets w3 path mode given []) as Hset.
  specialize (Hset ltac:(rewrite Hd3; apply lookup_insert_eq)).
  assert (∀ node (d : fs_disk), (∀ p, p ≠ path → d !! p = disk w3 !! p) → ∀ p, p ≠ path → <[path := node]> d !! p = disk w2 !! p)
    as Hother.
  { intros node d Hd p Hp. rewrite lookup_insert_ne by done. rewrite Hd by done. by rewrite Hd3, lookup_insert_ne. }
  assert (∀ d : fs_disk, (∀ p, p ≠ path → d !! p = disk w2 !! p) → ∀ p, p ≠ path → d !! p = disk w !! p ∨
     disk w !! p = None ∧ is_directory <$> d !! p = Some true ∧ (String.length p ≤ String.length parent)%nat) as Hdirs'.
  { intros d Hd p Hp. rewrite Hd by done. apply Hdirs. }
  destruct (set_permissions w3 path mode) as [w4 [[]|error]]; cbn [and_then].
  2: { split; [|done]. apply Hdirs'. rewrite Hset, Hd3. intros p Hp. by rewrite lookup_insert_ne. }
  pose proof (write_all_writes w4 path mode contents) as Hwrite.
  specialize (Hwrite ltac:(rewrite Hset; apply lookup_insert_eq)).
  destruct (write_all w4 path contents) as [w5 [[]|error]]; cbn [and_then].
  2: { destruct Hwrite as [part Hwrite]. split; [|done]. apply Hdirs'. rewrite Hwrite. apply Hother. rewrite Hset.
       intros p Hp. by rewrite lookup_insert_ne. }
  pose proof (sync_all_keeps w5 path) as Hsync. destruct (sync_all w5 path) as [w6 r]. cbn [fst] in Hsync. split.
  - rewrite Hsync. apply Hdirs'. rewrite Hwrite. apply Hother. rewrite Hset. intros p Hp. by rewrite lookup_insert_ne.
  - intros _. rewrite Hsync, Hwrite. split; [|apply lookup_insert_eq]. congruence.
Qed.
End laws.

(** ** Saving, loading and removing *)
Section outcomes.
Context {W : Type} `{StdFsSpec W} `{OwnershipJsonSpec}.
Implicit Types (w : W).
#[local] Existing Instance StdOwnershipFileSystem.

(** The store of a run. *)
Definition store_of_run (store : OwnershipStore) (value : string) : Prop :=
  os_journal store = mkJournalPath TEST_JOURNAL_ROOT (journal_file value) ∧
  temporary_path (os_journal store) = journal_temporary value ∧
  parent_path (journal_temporary value) = Some TEST_JOURNAL_ROOT ∧
  journal_file value ≠ journal_temporary value ∧
  (String.length TEST_JOURNAL_ROOT < String.length (journal_file value))%nat ∧
  (String.length TEST_JOURNAL_ROOT < String.length (journal_temporary value))%nat.

Lemma run_store value run_id store :
  RunId_parse value = Ok run_id → JournalPath_new run_id = Ok (os_journal store) → store_of_run store value.
Proof.
  intros Hrun Hjournal. destruct (run_paths _ _ Hrun) as (Hpath & Htemporary & Hparent & Hne & Hlen).
  rewrite Hjournal in Hpath. injection Hpath as Hpath. unfold store_of_run. rewrite Hpath. split_and!; try done.
  unfold journal_temporary, journal_file in *. rewrite !string_length_app in *. cbn in *. lia.
Qed.

Lemma paths_for_record_run record store :
  paths_for_record record = Ok store →
  ∃ value run_id, RunId_parse value = Ok run_id ∧ JournalPath_new run_id = Ok (os_journal store).
Proof.
  unfold paths_for_record, port_result. intros (first & _ & Hr)%bind_Ok. apply bind_Ok in Hr as (parent & _ & Hr).
  apply bind_Ok in Hr as (value & _ & Hr). apply bind_Ok in Hr as (run_id & Hrun%map_err_Ok & Hr).
  apply bind_Ok in Hr as (journal & Hjournal%map_err_Ok & Hr). apply bind_Ok in Hr as (pins & _ & Hr).
  destruct (_ || _); [done|]. injection Hr as <-. by exists value, run_id.
Qed.

(** The file of a record. *)
Definition journalled (record : OwnershipRecord) (node : option FsNode) : Prop :=
  ∃ contents, to_vec_pretty record = Ok contents ∧ node = Some (NodeFile JOURNAL_MODE contents).

(** What a call that fails leaves. *)
Ltac journal_kept := split; [left; congruence|discriminate].

(** Whatever fails, the journal is as it was or the whole new record. *)
Lemma os_save_outcome w store value record :
  store_of_run store value →
  let '(w', r) := os_save w store record in
  (disk w' !! journal_file value = disk w !! journal_file value ∨ journalled record (disk w' !! journal_file value)) ∧
  (r = Ok tt → journalled record (disk w' !! journal_file value)).
Proof.
  intros (Hjournal & Htemporary & Hparent & Hne & Hlj & Hlt). unfold os_save. rewrite Htemporary, Hjournal. cbn [jp_path jp_root].
  pose proof (validate_record_same w store record (or_abi_version record) (or_ifindex record) (or_generation record)) as Hv.
  unfold same_disk in Hv.
  destruct (validate_record w store record _ _ _) as [w1 [[]|error]]; cbn [fst and_then] in *; [|journal_kept].
  destruct (std_metadata_sees w1 (journal_file value)) as [Hm _]. unfold same_disk in Hm. cbn [metadata StdOwnershipFileSystem].
  assert (∀ w2 (r : result OwnershipError unit), disk w2 = disk w →
    let '(w', r) := and_then (w2, r) (λ w _,
       let* (w, contents) := (w, map_err OwnershipJsonError (to_vec_pretty record)) in
       let* (w, _) := or_io (std_write_new_sync w (journal_temporary value) contents JOURNAL_MODE) (journal_temporary value) in
       let* (w, _) := or_io (fs_rename w (journal_temporary value) (journal_file value)) (journal_file value) in
       or_io (sync_all w TEST_JOURNAL_ROOT) TEST_JOURNAL_ROOT) in
    (disk w' !! journal_file value = disk w !! journal_file value ∨ journalled record (disk w' !! journal_file value)) ∧
    (r = Ok tt → journalled record (disk w' !! journal_file value))) as Hrest.
  { intros w2 r Hd2. destruct r as [[]|error]; cbn [and_then]; [|journal_kept].
    destruct (to_vec_pretty record) as [contents|error] eqn:Hjson; cbn [map_err and_then]; [|journal_kept].
    pose proof (write_new_sync_outcome w2 (journal_temporary value) contents JOURNAL_MODE TEST_JOURNAL_ROOT Hparent Hlt) as Hw.
    destruct (std_write_new_sync w2 _ _ _) as [w3 r3]. destruct Hw as [Hothers Hok].
    assert (disk w3 !! journal_file value = disk w !! journal_file value) as Hkept.
    { rewrite <-Hd2. destruct (Hothers (journal_file value) Hne) as [|(_ & _ & ?)]; [done|lia]. }
    unfold or_io. cbn [fst snd]. destruct r3 as [[]|error]; cbn [map_err and_then]; [|journal_kept].
    destruct (Hok eq_refl) as [_ Hwritten].
    pose proof (fs_rename_moves w3 (journal_temporary value) (journal_file value)) as Hr.
    destruct (fs_rename w3 _ _) as [w4 [[]|error]]; cbn [fst snd map_err and_then]; [|journal_kept].
    destruct Hr as (node & Hnode & Hd4). rewrite Hwritten in Hnode. injection Hnode as <-.
    pose proof (sync_all_keeps w4 TEST_JOURNAL_ROOT) as Hs.
    assert (journalled record (disk (sync_all w4 TEST_JOURNAL_ROOT).1 !! journal_file value)) as Hdone.
    { exists contents. split; [done|]. by rewrite Hs, Hd4, lookup_insert_eq. }
    by auto. }
  destruct (std_metadata w1 (journal_file value)) as [w2 [m|error]]; cbn [fst] in Hm; apply Hrest; congruence.
Qed.


Lemma or_io_same {A} w (m : W * result IoFailure A) path : same_disk w m → same_disk w (or_io m path).
Proof. done. Qed.

Lemma load_current_same w store : same_disk w (load_current w store).
Proof.
  unfold load_current. apply same_disk_then; [apply or_io_same, std_metadata_sees|]. intros w1 m Hd1.
  destruct (bool_decide _); [done|]. destruct (negb _ || _); [done|].
  apply same_disk_then; [eapply same_disk_trans; [exact Hd1|]; apply or_io_same, fs_read_sees|]. intros w2 bytes Hd2.
  apply same_disk_then; [done|]. intros w3 record Hd3.
  apply same_disk_then; [eapply same_disk_trans; [exact Hd3|]; apply validate_record_same|]. by intros w4 [] Hd4.
Qed.

Lemma load_validated_same w store abi ifindex generation : same_disk w (load_validated w store abi ifindex generation).
Proof.
  unfold load_validated. apply same_disk_then; [apply load_current_same|]. intros w1 record Hd1.
  apply same_disk_then; [eapply same_disk_trans; [exact Hd1|]; apply validate_record_same|]. by intros w2 [] Hd2.
Qed.

(** What is loaded is what the file says. *)
Lemma os_load_outcome w store value w' record :
  store_of_run store value → load_current w store = (w', Ok record) →
  ∃ mode contents, disk w !! journal_file value = Some (NodeFile mode contents) ∧ from_slice contents = Ok record.
Proof.
  intros (Hjournal & _). unfold load_current. rewrite Hjournal. cbn [jp_path metadata read StdOwnershipFileSystem].
  intros (w1 & m & Hm & Hr)%and_then_Ok. unfold or_io in Hm. injection Hm as Hw1 Hm%map_err_Ok.
  destruct (std_metadata_sees w (journal_file value)) as [Hd1 Hsee]. unfold same_disk in Hd1. rewrite Hm in Hsee.
  rewrite Hw1 in Hd1. case_bool_decide as Hlink; [done|]. destruct (negb _ || _) eqn:Hfile; [done|].
  apply orb_false_iff in Hfile as [Hfile%negb_false_iff%bool_decide_eq_true _].
  apply and_then_Ok in Hr as (w2 & bytes & Hread & Hr). injection Hread as _ Hread%map_err_Ok.
  apply and_then_Ok in Hr as (w3 & record' & Hjson & Hr). injection Hjson as <- Hjson%map_err_Ok.
  apply and_then_Ok in Hr as (w4 & [] & Hv & Hr). injection Hr as _ <-.
  destruct (disk w !! journal_file value) as [[mode contents|mode| |]|] eqn:Hnode; try congruence; [|done].
  exists mode, contents. split; [done|]. rewrite <-Hd1 in Hnode.
  by rewrite <-(proj2 (fs_read_sees w1 (journal_file value)) _ _ _ Hnode Hread).
Qed.

(** A removal that took place was of the record that the journal held. *)
Lemma remove_outcome w store value held :
  store_of_run store value → paths_for_record held = Ok store →
  let '(w', r) := repository_remove_exact w held in
  disk w' = disk w ∧ r ≠ Ok tt ∨
  disk w' = delete (journal_file value) (disk w) ∧
  ∃ mode contents record, disk w !! journal_file value = Some (NodeFile mode contents) ∧
    from_slice contents = Ok record ∧ same_record record held = true.
Proof.
  intros Hstore Hpaths. unfold repository_remove_exact. rewrite Hpaths. cbn [and_then].
  pose proof (load_validated_same w store (or_abi_version held) (or_ifindex held) (or_generation held)) as Hd1.
  destruct (load_validated w store _ _ _) as [w1 [current|error]] eqn:Hload; cbn [and_then port_result map_err];
    unfold same_disk in Hd1; cbn [fst] in Hd1; [|by left].
  apply and_then_Ok in Hload as (w0 & record & Hload & Hr). apply and_then_Ok in Hr as (w0' & [] & _ & [= -> ->]).
  apply (os_load_outcome _ _ _ _ _ Hstore) in Hload as (mode & contents & Hnode & Hjson).
  destruct (same_record current held) eqn:Hsame; cbn [negb]; [|by left].
  destruct Hstore as (-> & _). cbn [jp_path jp_root].
  pose proof (remove_file_removes w1 (journal_file value)) as Hremove. unfold or_io.
  destruct (remove_file w1 (journal_file value)) as [w2 [[]|error]]; cbn [fst snd map_err port_result and_then].
  2: { left. split; [congruence|done]. }
  right. pose proof (sync_all_keeps w2 TEST_JOURNAL_ROOT) as Hsync.
  destruct (sync_all w2 TEST_JOURNAL_ROOT) as [w3 r]. cbn [fst snd] in *. split; [congruence|]. by exists mode, contents, current.
Qed.
End outcomes.

(** ** A disk in memory

    The script says which of the next calls succeed. *)
Module OwnershipJournalExample.
Record World : Type := mkWorld { wo_disk : fs_disk; wo_script : list bool }.

Definition goes (w : World) : bool := default true (head (wo_script w)).
Definition step {A} (w : World) (d : fs_disk) (r : result IoFailure A) : World * result IoFailure A :=
  if goes w then (mkWorld d (tail (wo_script w)), r)
  else (mkWorld (wo_disk w) (tail (wo_script w)), Err (mkIoFailure false "scripted failure")).

Definition not_found : IoFailure := mkIoFailure true "no such file".
Definition exists_already : IoFailure := mkIoFailure false "file exists".
Definition contents_of (node : FsNode) : option (Z * list Z) :=
  match node with NodeFile mode contents => Some (mode, contents) | _ => None end.

#[global] Instance fs : StdFs World := {|
  symlink_metadata w path := step w (wo_disk w) (ok_or (option_map status_of (wo_disk w !! path)) not_found);
  fs_read w path :=
    step w (wo_disk w) (ok_or (option_map snd (node ← wo_disk w !! path; contents_of node)) not_found);
  create_dir_all w path :=
    step w (if bool_decide (is_Some (wo_disk w !! path)) then wo_disk w else <[path := NodeDirectory 493]> (wo_disk w)) (Ok tt);
  create_new w path mode :=
    if bool_decide (is_Some (wo_disk w !! path)) then step w (wo_disk w) (Err exists_already)
    else step w (<[path := NodeFile mode []]> (wo_disk w)) (Ok tt);
  set_permissions w path mode :=
    match node ← wo_disk w !! path; contents_of node with
    | Some (_, contents) => step w (<[path := NodeFile mode contents]> (wo_disk w)) (Ok tt)
    | None => step w (wo_disk w) (Err not_found)
    end;
  write_all w path bytes :=
    match node ← wo_disk w !! path; contents_of node with
    | Some (mode, contents) => step w (<[path := NodeFile mode (contents ++ bytes)]> (wo_disk w)) (Ok tt)
    | None => step w (wo_disk w) (Err not_found)
    end;
  sync_all w _ := step w (wo_disk w) (Ok tt);
  fs_rename w from to :=
    match wo_disk w !! from with
    | Some node => step w (<[to := node]> (delete from (wo_disk w))) (Ok tt)
    | None => step w (wo_disk w) (Err not_found)
    end;
  remove_file w path := step w (delete path (wo_disk w)) (Ok tt);
|}.

#[global] Instance fs_spec : StdFsSpec World.
Proof.
  refine {| disk := wo_disk |}; intros; cbn; unfold step; destruct (goes w) eqn:Hg; cbn; try done.
  - split; [done|]. destruct (wo_disk w !! path); done.
  - split; [done|]. intros mode contents bytes -> [= <-]. done.
  - case_bool_decide as Hp; [by left|]. cbn. destruct (decide (p = path)) as [->|Hne].
    + right. rewrite lookup_insert_eq. by apply eq_None_not_Some in Hp.
    + left. by rewrite lookup_insert_ne.
  - by left.
  - case_bool_decide as Hp; [done|]. apply eq_None_not_Some in Hp. split; [done|]. by exists mode.
  - by case_bool_decide.
  - by rewrite H.
  - by rewrite H.
  - by rewrite H.
  - rewrite H. cbn. exists []. symmetry. by apply insert_id.
  - destruct (wo_disk w !! from) as [node|] eqn:Hnode; [by exists node|done].
  - by destruct (wo_disk w !! from).
Defined.

Definition run : string := "0123456789abcdef0123456789abcdef".
Definition pin_root : string := TEST_PIN_BASE ++ "/" ++ run.
Definition record (created : Z) : OwnershipRecord :=
  mkOwnershipRecord OWNERSHIP_SCHEMA_VERSION ABI_VERSION 42 7 (Some (mkOwnedXdp 7 XdpGeneric 30 (vreplicate 8 0) None))
    [mkOwnedTc 7 TcEgressHook 49600 1278345218 40 true]
    (imap (λ i name, mkOwnedMapPin name (join pin_root name) (Z.of_nat i + 11)) OWNED_MAP_NAMES) created.

(** Two records, and their encodings. *)
#[global] Instance json : OwnershipJson := {|
  to_vec_pretty r :=
    if bool_decide (r = record 1) then Ok [1] else if bool_decide (r = record 2) then Ok [2] else Err "unsupported"%string;
  from_slice contents :=
    if bool_decide (contents = [1]) then Ok (record 1) else if bool_decide (contents = [2]) then Ok (record 2)
    else Err "malformed"%string;
|}.

#[global] Instance json_spec : OwnershipJsonSpec.
Proof. split. intros r contents. cbn. repeat case_bool_decide; by intros [= <-]; subst. Qed.

Definition start (script : list bool) : World :=
  mkWorld (<[pin_root := NodeDirectory 448]> (list_to_map ((λ name, (join pin_root name, NodeOther)) <$> OWNED_MAP_NAMES))) script.
Definition saved (script : list bool) (created : Z) : World * result PortError unit :=
  repository_save (start script) (record created).
Definition run_id : RunId := mkRunId run.
End OwnershipJournalExample.

(** C14: the ownership journal of a run is never torn and never mistaken.  After a save,
    whichever call of it failed or was the last one of the process, a load that
    succeeds returns exactly the record that was saved, or, if the save did not
    succeed, the record that the journal held before; and a removal deletes the
    journal only while it holds the record of the caller, reports success only when it
    did, and changes nothing else. *)
Theorem ownership_journal_roundtrip {W : Type} `{StdFsSpec W} `{OwnershipJsonSpec}
    (w w1 w2 w3 w4 : W) (record loaded held : OwnershipRecord) (store : OwnershipStore) (run_id : RunId)
    (saved removed : result PortError unit)
    (Hrecord : paths_for_record record = Ok store)
    (Hrun : JournalPath_new run_id = Ok (os_journal store))
    (Hsave : repository_save w record = (w1, saved))
    (Hkept : disk w2 !! jp_path (os_journal store) = disk w1 !! jp_path (os_journal store))
    (Hload : FileOwnershipRepository_load w2 run_id = (w3, Ok loaded))
    (Hheld : paths_for_record held = Ok store)
    (Hremove : repository_remove_exact w3 held = (w4, removed)) :
  (loaded = record ∨
   saved ≠ Ok tt ∧ ∃ mode contents, disk w !! jp_path (os_journal store) = Some (NodeFile mode contents) ∧
     from_slice contents = Ok loaded) ∧
  (disk w4 = disk w3 ∧ removed ≠ Ok tt ∨
   disk w4 = delete (jp_path (os_journal store)) (disk w3) ∧ same_record loaded held = true).
Proof.
  destruct (paths_for_record_run _ _ Hrecord) as (value & run & Hvalue & Hjournal).
  pose proof (run_store _ _ _ Hvalue Hjournal) as Hstore. pose proof Hstore as (Hpath & _). rewrite Hpath in *. cbn [jp_path] in *.
  revert Hload. unfold FileOwnershipRepository_load. rewrite Hrun. cbn [port_result map_err and_then].
  destruct (port_result (TestPinRoot_new run_id)) as [pins|error]; [|done]. intros Hload.
  set (loads := mkOwnershipStore _ pins) in Hload.
  assert (store_of_run loads value) as Hloads by exact (run_store value run loads Hvalue Hjournal).
  destruct (load_current w2 loads) as [w2' r] eqn:Hcurrent. injection Hload as -> Hr%map_err_Ok. subst r.
  pose proof (load_current_same w2 loads) as Hsame. rewrite Hcurrent in Hsame. unfold same_disk in Hsame. cbn [fst] in Hsame.
  destruct (os_load_outcome _ _ _ _ _ Hloads Hcurrent) as (mode & contents & Hnode & Hjson). split.
  - revert Hsave. unfold repository_save. rewrite Hrecord. cbn [and_then].
    pose proof (os_save_outcome w store value record Hstore) as Hout.
    destruct (os_save w store record) as [w1' r]. intros [= -> <-]. destruct Hout as [Hout Hok].
    assert (journalled record (disk w1 !! journal_file value) → loaded = record) as Hnew.
    { intros (bytes & Hbytes & Hfile). rewrite Hkept, Hfile in Hnode. injection Hnode as <- <-.
      apply json_roundtrip in Hbytes. congruence. }
    destruct r as [[]|error]; [left; by apply Hnew, Hok|].
    destruct Hout as [Hold|Hold]; [|left; by apply Hnew]. right. split; [done|]. exists mode, contents.
    split; [congruence|done].
  - pose proof (remove_outcome w3 store value held Hstore Hheld) as Hout. rewrite Hremove in Hout.
    destruct Hout as [|(Hd & mode' & contents' & record' & Hnode' & Hjson' & Heq)]; [by left|right]. split; [done|].
    rewrite Hsame, Hnode in Hnode'. injection Hnode' as <- <-. congruence.
Qed.

Lemma ownership_journal_roundtrip_witness :
  let w1 := (OwnershipJournalExample.saved [] 1).1 in
  let w2 := (FileOwnershipRepository_load w1 OwnershipJournalExample.run_id).1 in
  (OwnershipJournalExample.saved [] 1).2 = Ok tt ∧
  (repository_remove_exact w2 (OwnershipJournalExample.record 1)).2 = Ok tt ∧
  disk (repository_remove_exact w2 (OwnershipJournalExample.record 1)).1
    = delete (journal_file OwnershipJournalExample.run) (disk w2).
Proof.
  split; [vm_compute; reflexivity|]. split; [vm_compute; reflexivity|].
  destruct (ownership_journal_roundtrip (OwnershipJournalExample.start []) (OwnershipJournalExample.saved [] 1).1
    (OwnershipJournalExample.saved [] 1).1
    (FileOwnershipRepository_load (OwnershipJournalExample.saved [] 1).1 OwnershipJournalExample.run_id).1
    (repository_remove_exact
      (FileOwnershipRepository_load (OwnershipJournalExample.saved [] 1).1 OwnershipJournalExample.run_id).1
      (OwnershipJournalExample.record 1)).1
    (OwnershipJournalExample.record 1) (OwnershipJournalExample.record 1) (OwnershipJournalExample.record 1)
    (mkOwnershipStore (mkJournalPath TEST_JOURNAL_ROOT (journal_file OwnershipJournalExample.run))
       (mkTestPinRoot OwnershipJournalExample.pin_root))
    OwnershipJournalExample.run_id (Ok tt) (Ok tt))
    as [_ [[_ Hno]|[Hd _]]];
    [vm_compute; reflexivity|vm_compute; reflexivity|vm_compute; reflexivity|reflexivity|vm_compute; reflexivity
    |vm_compute; reflexivity|vm_compute; reflexivity|by destruct Hno|exact Hd].
Defined.

(** A save whose rename failed leaves its temporary file, and every later save of the
    run fails on it. *)
Lemma stale_temporary_blocks_save :
  let first := OwnershipJournalExample.saved (repeat true 19 ++ [false]) 1 in
  is_ok first.2 = false ∧ OwnershipJournalExample.wo_script first.1 = [] ∧
  (repository_save first.1 (OwnershipJournalExample.record 2)).2
    = Err (Adapter ("ownership filesystem error at /run/l2-loop/tests/" ++ OwnershipJournalExample.run
                    ++ ".json.tmp: file exists")).
Proof. vm_compute. done. Qed.

(** A save that fails at its last call reports failure and leaves the journal. *)
Lemma failed_sync_leaves_journal :
  let first := OwnershipJournalExample.saved (repeat true 20 ++ [false]) 1 in
  is_ok first.2 = false ∧
  (FileOwnershipRepository_load first.1 OwnershipJournalExample.run_id).2 = Ok (OwnershipJournalExample.record 1).
Proof. vm_compute. done. Qed.
