(* ===== verification/Tc.v ===== *)
(** The traffic-control adapter of [l2-loop-agent] ([linux/tc.rs]): the netlink
    messages it writes and reads, the inventory of an interface, and [SafeTc],
    which attaches, verifies and detaches one filter.

    Netlink is a class of operations on an abstract world, and so is the adapter's
    own interface [TcIo]; [RtnetlinkTcIo] implements the second with the first. *)
From S2P Require Import Prelude Ownership Attach.

(** ** Identities ([ownership.rs]) *)
Record TcKernelIdentity : Type := mkTcKernelIdentity {
  tk_ifindex : Z;
  tk_hook : TcHook;
  tk_priority : Z;
  tk_handle : Z;
  tk_program_id : Z;
}.

#[export] Instance TcKernelIdentity_eq_dec : EqDecision TcKernelIdentity.
Proof. solve_decision. Defined.

(** [TcKernelIdentity::from(OwnedTc)]. *)
Definition tc_identity (value : OwnedTc) : TcKernelIdentity :=
  mkTcKernelIdentity (ot_ifindex value) (ot_hook value) (ot_priority value) (ot_handle value)
    (ot_program_id value).

Definition tc_matches (self : OwnedTc) (current : TcKernelIdentity) : bool :=
  bool_decide (tc_identity self = current).

(** ** Inventory *)
Definition TC_INGRESS_HANDLE : Z := 0x4c320001.
Definition TC_EGRESS_HANDLE : Z := 0x4c320002.
Definition TC_PRIORITY_FIRST : Z := 49600.
Definition TC_PRIORITY_LAST : Z := 49699.

Inductive TcClsactState : Type := ClsactAbsent | ClsactPresent | ClsactUnknown.

#[export] Instance TcClsactState_eq_dec : EqDecision TcClsactState.
Proof. solve_decision. Defined.

Inductive TcFilterSlot : Type :=
| SlotBpf (identity : TcKernelIdentity)
| SlotOther (hook : TcHook) (priority handle : Z)
| SlotUnknown (hook : TcHook).

#[export] Instance TcFilterSlot_eq_dec : EqDecision TcFilterSlot.
Proof. solve_decision. Defined.

Definition slot_hook (self : TcFilterSlot) : TcHook :=
  match self with
  | SlotBpf identity => tk_hook identity
  | SlotOther hook _ _ | SlotUnknown hook => hook
  end.

Definition slot_priority (self : TcFilterSlot) : option Z :=
  match self with
  | SlotBpf identity => Some (tk_priority identity)
  | SlotOther _ priority _ => Some priority
  | SlotUnknown _ => None
  end.

Definition slot_handle (self : TcFilterSlot) : option Z :=
  match self with
  | SlotBpf identity => Some (tk_handle identity)
  | SlotOther _ _ handle => Some handle
  | SlotUnknown _ => None
  end.

Record TcInventory : Type := mkTcInventory { ti_clsact : TcClsactState; ti_filters : list TcFilterSlot }.

#[export] Instance TcInventory_eq_dec : EqDecision TcInventory.
Proof. solve_decision. Defined.

Definition TcInventory_empty (clsact : TcClsactState) : TcInventory := mkTcInventory clsact [].

Definition has_exact (self : TcInventory) (expected : TcKernelIdentity) : bool :=
  bool_decide (SlotBpf expected ∈ ti_filters self).

Definition is_unknown (slot : TcFilterSlot) : bool :=
  match slot with SlotUnknown _ => true | SlotBpf _ | SlotOther _ _ _ => false end.

Definition has_unknown (self : TcInventory) : bool :=
  bool_decide (ti_clsact self = ClsactUnknown) || existsb is_unknown (ti_filters self).

Inductive TcState : Type :=
| TcEmpty (priority : Z) (clsact_present : bool)
| TcOwned
| TcForeign
| TcUnknown.

#[export] Instance TcState_eq_dec : EqDecision TcState.
Proof. solve_decision. Defined.

Definition tc_handle_for (hook : TcHook) : Z :=
  match hook with TcIngress => TC_INGRESS_HANDLE | TcEgressHook => TC_EGRESS_HANDLE end.

(** A filter under the reserved handle of the hook. *)
Definition in_reserved (hook : TcHook) (slot : TcFilterSlot) : bool :=
  bool_decide (slot_hook slot = hook) && bool_decide (slot_handle slot = Some (tc_handle_for hook)).

(** A filter of the hook at a priority. *)
Definition at_priority (hook : TcHook) (candidate : Z) (slot : TcFilterSlot) : bool :=
  bool_decide (slot_hook slot = hook) && bool_decide (slot_priority slot = Some candidate).

Definition tc_priorities : list Z := seqZ TC_PRIORITY_FIRST (TC_PRIORITY_LAST - TC_PRIORITY_FIRST + 1).

Definition free_priority (filters : list TcFilterSlot) (hook : TcHook) : option Z :=
  List.find (λ candidate, negb (existsb (at_priority hook candidate) filters)) tc_priorities.

Definition tc_classify_inventory (inventory : TcInventory) (hook : TcHook) (owned : option OwnedTc)
    : TcState :=
  if has_unknown inventory
     || (bool_decide (ti_clsact inventory = ClsactAbsent) && negb (bool_decide (ti_filters inventory = [])))
  then TcUnknown
  else
    match List.filter (in_reserved hook) (ti_filters inventory) with
    | [SlotBpf identity] =>
        if match owned with Some record => tc_matches record identity | None => false end
        then TcOwned else TcForeign
    | _ :: _ => TcForeign
    | [] =>
        match free_priority (ti_filters inventory) hook with
        | Some priority => TcEmpty priority (bool_decide (ti_clsact inventory = ClsactPresent))
        | None => TcForeign
        end
    end.

(** ** The adapter's input and output *)
Inductive TcIoError : Type := TcExists | TcIdentityMismatch | TcFailed (message : string).

Class TcIo (W : Type) : Type := {
  tc_query : W → Z → W * result TcIoError TcInventory;
  ensure_clsact_exclusive : W → Z → W * result TcIoError unit;
  attach_exclusive : W → Z → TcHook → Z → Z → Z → W * result TcIoError unit;
  detach_exact_filter : W → TcKernelIdentity → W * result TcIoError unit;
  remove_clsact_if_empty_exact : W → Z → W * result TcIoError unit;
}.

Inductive TcRollback : Type :=
| TcRolledBack | TcRollbackFailed | TcRetainedIdentityMismatch | TcRetainedUnknownState.

Inductive TcDetachOutcome : Type := TcDetached | TcAlreadyAbsent | TcDetachRetained.

Record TcError : Type := mkTcError { te_code : string; te_evidence : string; te_rollback : option TcRollback }.

Definition PF_TC_STATE_UNKNOWN : string := "PF_TC_STATE_UNKNOWN".
Definition PF_TC_HANDLE_COLLISION : string := "PF_TC_HANDLE_COLLISION".
Definition TC_CLSACT_CREATE_FAILED : string := "TC_CLSACT_CREATE_FAILED".
Definition TC_FILTER_CREATE_FAILED : string := "TC_FILTER_CREATE_FAILED".
Definition TC_DETACH_FAILED : string := "TC_DETACH_FAILED".
Definition TC_CLSACT_REMOVE_FAILED : string := "TC_CLSACT_REMOVE_FAILED".

Definition TcError_new (code evidence : string) : TcError := mkTcError code evidence None.
Definition tc_verification (evidence : string) (rollback : TcRollback) : TcError :=
  mkTcError TC_VERIFY_FAILED evidence (Some rollback).
Definition tc_mutation (code evidence : string) (rollback : TcRollback) : TcError :=
  mkTcError code evidence (Some rollback).

Definition tc_occupied (evidence : string) : TcError := TcError_new PF_TC_HANDLE_COLLISION evidence.
Definition tc_unknown_state : TcError :=
  TcError_new PF_TC_STATE_UNKNOWN "TC state could not be determined safely".

Definition empty_plan (inventory : TcInventory) (hook : TcHook) : result TcError (Z * bool) :=
  match tc_classify_inventory inventory hook None with
  | TcEmpty priority clsact_present => Ok (priority, clsact_present)
  | TcOwned | TcForeign => Err (tc_occupied "TC reserved identity is occupied")
  | TcUnknown => Err tc_unknown_state
  end.

Section safe_tc.
Context {W : Type} `{TcIo W}.

Definition query_or_unknown (w : W) (ifindex : Z) : W * result TcError TcInventory :=
  let '(w, res) := tc_query w ifindex in (w, map_err (λ _, tc_unknown_state) res).

Definition remove_created_clsact (w : W) (ifindex : Z) : W * TcRollback :=
  match remove_clsact_if_empty_exact w ifindex with
  | (w, Ok _) => (w, TcRolledBack)
  | (w, Err (TcExists | TcIdentityMismatch)) => (w, TcRetainedIdentityMismatch)
  | (w, Err (TcFailed _)) => (w, TcRollbackFailed)
  end.

Definition attach_failure (w : W) (code evidence : string) (ifindex : Z) (created_clsact : bool)
    : W * TcError :=
  if created_clsact
  then let '(w, rollback) := remove_created_clsact w ifindex in (w, tc_mutation code evidence rollback)
  else (w, TcError_new code evidence).

(** The priority to use, and whether the transaction created clsact. *)
Definition ensure_clsact (w : W) (ifindex : Z) (hook : TcHook) (plan : Z * bool)
    : W * result TcError (Z * bool) :=
  let '(priority, clsact_present) := plan in
  if clsact_present then (w, Ok (priority, false))
  else
    match ensure_clsact_exclusive w ifindex with
    | (w, Ok _) => (w, Ok (priority, true))
    | (w, Err TcExists) =>
        match query_or_unknown w ifindex with
        | (w, Err error) => (w, Err error)
        | (w, Ok raced) =>
            match empty_plan raced hook with
            | Err error => (w, Err error)
            | Ok (_, false) => (w, Err (tc_occupied "clsact is occupied by a different qdisc"))
            | Ok (raced_priority, true) => (w, Ok (raced_priority, false))
            end
        end
    | (w, Err (TcIdentityMismatch | TcFailed _)) =>
        (w, Err (TcError_new TC_CLSACT_CREATE_FAILED "exclusive clsact creation failed"))
    end.

Definition verification_rollback (w : W) (after : TcInventory) (owned : OwnedTc) : W * TcRollback :=
  let expected := tc_identity owned in
  if has_exact after expected then
    match detach_exact_filter w expected with
    | (w, Ok _) => if ot_created_clsact owned then remove_created_clsact w (ot_ifindex owned)
                   else (w, TcRolledBack)
    | (w, Err _) => (w, TcRollbackFailed)
    end
  else if has_unknown after then (w, TcRetainedUnknownState)
  else (w, TcRetainedIdentityMismatch).

Definition verify_attached (w : W) (owned : OwnedTc) : W * result TcError OwnedTc :=
  match tc_query w (ot_ifindex owned) with
  | (w, Err _) => (w, Err (tc_verification "TC identity could not be verified after attach"
                             TcRetainedUnknownState))
  | (w, Ok after) =>
      if bool_decide (tc_classify_inventory after (ot_hook owned) (Some owned) = TcOwned)
      then (w, Ok owned)
      else
        let '(w, rollback) := verification_rollback w after owned in
        (w, Err (tc_verification "post-attach TC identity did not match the loaded program" rollback))
  end.

Definition attach_filter (w : W) (ifindex : Z) (hook : TcHook) (loaded : LoadedTc)
    (priority : Z) (created_clsact : bool) : W * result TcError OwnedTc :=
  match attach_exclusive w ifindex hook priority (tc_handle_for hook) (lt_program_fd loaded) with
  | (w, Ok _) =>
      verify_attached w (mkOwnedTc ifindex hook priority (tc_handle_for hook)
                           (lt_program_id loaded) created_clsact)
  | (w, Err TcExists) =>
      let '(w, error) := attach_failure w PF_TC_HANDLE_COLLISION
                           "exclusive TC filter creation found an occupied slot" ifindex created_clsact in
      (w, Err error)
  | (w, Err (TcIdentityMismatch | TcFailed _)) =>
      let '(w, error) := attach_failure w TC_FILTER_CREATE_FAILED
                           "exclusive TC filter creation failed" ifindex created_clsact in
      (w, Err error)
  end.

Definition tc_attach (w : W) (ifindex : Z) (hook : TcHook) (loaded : LoadedTc)
    : W * result TcError OwnedTc :=
  match query_or_unknown w ifindex with
  | (w, Err error) => (w, Err error)
  | (w, Ok before) =>
      match empty_plan before hook with
      | Err error => (w, Err error)
      | Ok plan =>
          match ensure_clsact w ifindex hook plan with
          | (w, Err error) => (w, Err error)
          | (w, Ok (priority, created_clsact)) =>
              attach_filter w ifindex hook loaded priority created_clsact
          end
      end
  end.

Definition is_rolled_back (rollback : TcRollback) : bool :=
  match rollback with TcRolledBack => true | _ => false end.

Definition detach_absent (w : W) (owned : OwnedTc) : W * result TcError TcDetachOutcome :=
  if ot_created_clsact owned then
    let '(w, rollback) := remove_created_clsact w (ot_ifindex owned) in
    if is_rolled_back rollback then (w, Ok TcAlreadyAbsent)
    else (w, Err (TcError_new TC_CLSACT_REMOVE_FAILED
                    "transaction-created clsact was retained after its filter disappeared"))
  else (w, Ok TcAlreadyAbsent).

Definition detach_present (w : W) (owned : OwnedTc) : W * result TcError TcDetachOutcome :=
  match detach_exact_filter w (tc_identity owned) with
  | (w, Err _) =>
      (w, Err (TcError_new TC_DETACH_FAILED "exact owned TC detach failed without broad cleanup"))
  | (w, Ok _) =>
      if ot_created_clsact owned then
        let '(w, rollback) := remove_created_clsact w (ot_ifindex owned) in
        if is_rolled_back rollback then (w, Ok TcDetached)
        else (w, Err (TcError_new TC_CLSACT_REMOVE_FAILED
                        "transaction-created clsact was retained after exact filter detach"))
      else (w, Ok TcDetached)
  end.

Definition tc_detach (w : W) (owned : OwnedTc) : W * result TcError TcDetachOutcome :=
  match query_or_unknown w (ot_ifindex owned) with
  | (w, Err error) => (w, Err error)
  | (w, Ok current) =>
      match tc_classify_inventory current (ot_hook owned) (Some owned) with
      | TcEmpty _ _ => detach_absent w owned
      | TcOwned => detach_present w owned
      | TcForeign => (w, Ok TcDetachRetained)
      | TcUnknown => (w, Err tc_unknown_state)
      end
  end.

Definition tc_verify (w : W) (owned : OwnedTc) : W * result TcError unit :=
  match query_or_unknown w (ot_ifindex owned) with
  | (w, Err error) => (w, Err error)
  | (w, Ok current) =>
      (w, match tc_classify_inventory current (ot_hook owned) (Some owned) with
          | TcOwned => Ok tt
          | TcEmpty _ _ | TcForeign =>
              Err (TcError_new TC_VERIFY_FAILED "current TC identity does not match the owned filter")
          | TcUnknown => Err tc_unknown_state
          end)
  end.

(** ** The port ([SafeTcPort] for [SafeTc]) *)
Definition tc_port_error (error : TcError) : PortError := CodedAdapter (te_code error) (te_evidence error).

Definition safe_tc_attach_explicit (w : W) (ifindex : Z) (hook : TcHook) (loaded : LoadedTc)
    : W * result PortError OwnedTc :=
  let '(w, res) := tc_attach w ifindex hook loaded in (w, map_err tc_port_error res).

Definition safe_tc_verify_exact (w : W) (owned : OwnedTc) : W * result PortError unit :=
  let '(w, res) := tc_verify w owned in (w, map_err tc_port_error res).

Definition safe_tc_detach_exact (w : W) (owned : OwnedTc) : W * result PortError unit :=
  match tc_detach w owned with
  | (w, Err error) => (w, Err (tc_port_error error))
  | (w, Ok (TcDetached | TcAlreadyAbsent)) => (w, Ok tt)
  | (w, Ok TcDetachRetained) => (w, Err (Adapter "owned TC identity changed; filter was retained"))
  end.
End safe_tc.

(** ** Classification *)
Lemma tc_handle_for_inj hook hook' : tc_handle_for hook = tc_handle_for hook' → hook = hook'.
Proof. by destruct hook, hook'. Qed.

Lemma at_priority_true hook candidate slot :
  at_priority hook candidate slot = true ↔ slot_hook slot = hook ∧ slot_priority slot = Some candidate.
Proof. unfold at_priority. rewrite andb_true_iff, !bool_decide_eq_true. done. Qed.

Lemma in_reserved_true hook slot :
  in_reserved hook slot = true ↔ slot_hook slot = hook ∧ slot_handle slot = Some (tc_handle_for hook).
Proof. unfold in_reserved. rewrite andb_true_iff, !bool_decide_eq_true. done. Qed.

(** The priority chosen is the first one free, and [None] means that all are taken. *)
Definition unoccupied (filters : list TcFilterSlot) (hook : TcHook) (priority : Z) : Prop :=
  ∀ slot, slot ∈ filters → slot_hook slot = hook → slot_priority slot ≠ Some priority.

Lemma unoccupied_spec filters hook priority :
  existsb (at_priority hook priority) filters = false ↔ unoccupied filters hook priority.
Proof.
  unfold unoccupied. rewrite <-not_true_iff_false, existsb_exists. setoid_rewrite at_priority_true.
  setoid_rewrite <-list_elem_of_In. naive_solver.
Qed.

Lemma free_priority_spec filters hook :
  match free_priority filters hook with
  | Some priority =>
      TC_PRIORITY_FIRST <= priority <= TC_PRIORITY_LAST ∧ unoccupied filters hook priority ∧
      ∀ smaller, TC_PRIORITY_FIRST <= smaller < priority → ¬ unoccupied filters hook smaller
  | None => ∀ priority, TC_PRIORITY_FIRST <= priority <= TC_PRIORITY_LAST → ¬ unoccupied filters hook priority
  end.
Proof.
  unfold free_priority, tc_priorities, TC_PRIORITY_FIRST, TC_PRIORITY_LAST. cbn [Z.sub Z.add].
  assert (∀ n first,
    match List.find (λ candidate, negb (existsb (at_priority hook candidate) filters)) (seqZ first (Z.of_nat n)) with
    | Some priority => first <= priority < first + Z.of_nat n ∧ unoccupied filters hook priority ∧
                       ∀ smaller, first <= smaller < priority → ¬ unoccupied filters hook smaller
    | None => ∀ priority, first <= priority < first + Z.of_nat n → ¬ unoccupied filters hook priority
    end) as Hall.
  { induction n as [|n IH]; intros first; [rewrite seqZ_nil by lia; cbn; intros; lia|].
    rewrite seqZ_cons, Nat2Z.inj_succ, Z.pred_succ by lia. cbn [List.find].
    destruct (existsb _ filters) eqn:Hocc; cbn [negb].
    - specialize (IH (Z.succ first)).
      assert (¬ unoccupied filters hook first) by (rewrite <-unoccupied_spec; congruence).
      assert (∀ z, first <= z → z = first ∨ Z.succ first <= z) as Hsplit by (intros; lia).
      destruct (List.find _ _) as [found|].
      + destruct IH as (? & ? & IH). repeat split; [lia..|done|].
        intros smaller [Hlo Hhi]. destruct (Hsplit smaller Hlo) as [->|]; [done|]. apply IH. lia.
      + intros found [Hlo Hhi]. destruct (Hsplit found Hlo) as [->|]; [done|]. apply IH. lia.
    - apply unoccupied_spec in Hocc. repeat split; [lia..|done|]. intros; lia. }
  specialize (Hall 100%nat 49600). cbn [Z.of_nat Pos.of_succ_nat Pos.succ] in Hall.
  destruct (List.find _ _); [|intros; apply Hall; lia].
  destruct Hall as (? & ? & ?). repeat split; [lia..|done|done].
Qed.

Lemma has_unknown_false inventory :
  has_unknown inventory = false ↔
  ti_clsact inventory ≠ ClsactUnknown ∧ Forall (λ slot, is_unknown slot = false) (ti_filters inventory).
Proof.
  unfold has_unknown. rewrite orb_false_iff, bool_decide_eq_false, Forall_forall.
  rewrite <-not_true_iff_false, existsb_exists. setoid_rewrite <-not_true_iff_false.
  setoid_rewrite list_elem_of_In. naive_solver.
Qed.

(** What the interface must look like for each verdict. *)
Definition classified (inventory : TcInventory) (hook : TcHook) (owned : option OwnedTc)
    (state : TcState) : Prop :=
  match state with
  | TcEmpty priority clsact_present =>
      has_unknown inventory = false ∧
      (clsact_present = true ↔ ti_clsact inventory = ClsactPresent) ∧
      (clsact_present = false → ti_filters inventory = []) ∧
      TC_PRIORITY_FIRST <= priority <= TC_PRIORITY_LAST ∧
      unoccupied (ti_filters inventory) hook priority ∧
      ∀ slot, slot ∈ ti_filters inventory → slot_hook slot = hook →
              slot_handle slot ≠ Some (tc_handle_for hook)
  | TcOwned =>
      ti_clsact inventory = ClsactPresent ∧
      ∃ record, owned = Some record ∧ SlotBpf (tc_identity record) ∈ ti_filters inventory ∧
                ot_hook record = hook ∧ ot_handle record = tc_handle_for hook
  | TcForeign => ti_clsact inventory = ClsactPresent ∧ ti_filters inventory ≠ []
  | TcUnknown =>
      has_unknown inventory = true ∨ (ti_clsact inventory = ClsactAbsent ∧ ti_filters inventory ≠ [])
  end.

Lemma present_of_filters inventory slot :
  has_unknown inventory = false →
  (bool_decide (ti_clsact inventory = ClsactAbsent) && negb (bool_decide (ti_filters inventory = [])))%bool = false →
  slot ∈ ti_filters inventory → ti_clsact inventory = ClsactPresent.
Proof.
  intros [Hcl _]%has_unknown_false Habs Hin. destruct (ti_clsact inventory); [|done|done].
  destruct (ti_filters inventory); [by apply not_elem_of_nil in Hin|done].
Qed.

Lemma classify_spec inventory hook owned :
  classified inventory hook owned (tc_classify_inventory inventory hook owned).
Proof.
  unfold tc_classify_inventory. destruct (has_unknown inventory) eqn:Hu; cbn [orb]; [by left|].
  destruct (bool_decide _ && _)%bool eqn:Ha.
  { apply andb_true_iff in Ha as [?%bool_decide_eq_true Hf%negb_true_iff%bool_decide_eq_false]. by right. }
  destruct (List.filter _ _) as [|slot reserved] eqn:Hres.
  - assert (∀ slot, slot ∈ ti_filters inventory → slot_hook slot = hook →
                    slot_handle slot ≠ Some (tc_handle_for hook)) as Hfree.
    { intros slot Hin Hhook Hhandle. assert (In slot []) as []. rewrite <-Hres. apply filter_In.
      rewrite <-list_elem_of_In, in_reserved_true. done. }
    pose proof (free_priority_spec (ti_filters inventory) hook) as Hfp.
    destruct (free_priority _ _) as [priority|]; cbn [classified].
    + destruct Hfp as ([? ?] & ? & _). rewrite bool_decide_eq_true, bool_decide_eq_false.
      split_and!; try done. intros Hnp. destruct (ti_filters inventory) as [|slot rest] eqn:Hfs; [done|].
      destruct Hnp. apply (present_of_filters _ slot); [done| |rewrite Hfs; set_solver].
      rewrite Hfs. done.
    + assert (ti_filters inventory ≠ []) as Hne.
      { intros Hnil. apply (Hfp TC_PRIORITY_FIRST); [unfold TC_PRIORITY_FIRST, TC_PRIORITY_LAST; lia|].
        rewrite Hnil. intros slot Hin. by apply not_elem_of_nil in Hin. }
      split; [|done]. destruct (ti_filters inventory) as [|slot rest] eqn:Hfs; [done|].
      apply (present_of_filters _ slot); [done|rewrite Hfs; done|rewrite Hfs; set_solver].
  - assert (In slot (List.filter (in_reserved hook) (ti_filters inventory))) as Hin by (rewrite Hres; by left).
    apply filter_In in Hin as [Hin%list_elem_of_In Hr%in_reserved_true].
    pose proof (present_of_filters _ slot Hu Ha Hin) as Hp.
    assert (ti_filters inventory ≠ []) by (intros Hnil; rewrite Hnil in Hin; by apply not_elem_of_nil in Hin).
    destruct slot as [identity| |]; [|done|done]. destruct reserved as [|]; [|done].
    destruct owned as [record|]; [|done]. destruct (tc_matches record identity) eqn:Hm; [|done].
    apply bool_decide_eq_true in Hm as <-. destruct Hr as [Hhook Hhandle]. cbn in Hhook, Hhandle.
    split; [done|]. exists record. by simplify_eq.
Qed.

(** ** What the adapter changes

    A contract that leaves every other actor free: the calls that were made and
    their answers, in order, and of them the changes that were reported as made.
    Nothing is assumed of what a query answers, and a change that took effect
    although the call for it failed is not among the changes. *)
Inductive TcMutation : Type :=
| ClsactAdded (ifindex : Z)
| FilterAdded (ifindex : Z) (hook : TcHook) (priority handle fd : Z)
| FilterRemoved (identity : TcKernelIdentity)
| ClsactRemoved (ifindex : Z).

#[export] Instance TcMutation_eq_dec : EqDecision TcMutation.
Proof. solve_decision. Defined.

Inductive TcEvent : Type :=
| Queried (ifindex : Z) (answer : result TcIoError TcInventory)
| Asked (change : TcMutation) (answer : result TcIoError unit).

Definition made (event : TcEvent) : option TcMutation :=
  match event with Asked change (Ok _) => Some change | _ => None end.

Definition traces {W A} (trace : W → list TcEvent) (w : W) (out : W * result TcIoError A)
    (event : result TcIoError A → TcEvent) : Prop :=
  trace out.1 = trace w ++ [event out.2].

Class TcIoSpec (W : Type) `{TcIo W} : Type := {
  tc_trace : W → list TcEvent;
  query_traced w ifindex : traces tc_trace w (tc_query w ifindex) (Queried ifindex);
  clsact_traced w ifindex : traces tc_trace w (ensure_clsact_exclusive w ifindex) (Asked (ClsactAdded ifindex));
  attach_traced w ifindex hook priority handle fd :
    traces tc_trace w (attach_exclusive w ifindex hook priority handle fd)
      (Asked (FilterAdded ifindex hook priority handle fd));
  detach_traced w identity : traces tc_trace w (detach_exact_filter w identity) (Asked (FilterRemoved identity));
  remove_traced w ifindex : traces tc_trace w (remove_clsact_if_empty_exact w ifindex) (Asked (ClsactRemoved ifindex));
}.

(** The changes that were reported as made. *)
Definition tc_log {W} `{TcIoSpec W} (w : W) : list TcMutation := omap made (tc_trace w).

Definition logs {W A} (log : W → list TcMutation) (w : W) (out : W * result TcIoError A)
    (mutation : TcMutation) : Prop :=
  log out.1 = match out.2 with Ok _ => log w ++ [mutation] | Err _ => log w end.

Section logs.
Context {W : Type} `{TcIoSpec W}.
Implicit Types (w : W).

Lemma asked_logs w (out : W * result TcIoError unit) change :
  traces tc_trace w out (Asked change) → logs tc_log w out change.
Proof.
  unfold traces, logs, tc_log. intros ->. rewrite omap_app. destruct out.2; cbn; [done|by rewrite app_nil_r].
Qed.

Lemma query_logs w ifindex : tc_log (tc_query w ifindex).1 = tc_log w.
Proof. unfold tc_log. rewrite (query_traced w ifindex), omap_app. cbn. by rewrite app_nil_r. Qed.
Lemma clsact_logs w ifindex : logs tc_log w (ensure_clsact_exclusive w ifindex) (ClsactAdded ifindex).
Proof. apply asked_logs, clsact_traced. Qed.
Lemma attach_logs w ifindex hook priority handle fd :
  logs tc_log w (attach_exclusive w ifindex hook priority handle fd) (FilterAdded ifindex hook priority handle fd).
Proof. apply asked_logs, attach_traced. Qed.
Lemma detach_logs w identity : logs tc_log w (detach_exact_filter w identity) (FilterRemoved identity).
Proof. apply asked_logs, detach_traced. Qed.
Lemma remove_logs w ifindex : logs tc_log w (remove_clsact_if_empty_exact w ifindex) (ClsactRemoved ifindex).
Proof. apply asked_logs, remove_traced. Qed.
End logs.

(** What a sequence of changes leaves behind; removing what was not added is no
    such sequence. *)
Inductive TcResidue : Type := LeftClsact (ifindex : Z) | LeftFilter (ifindex : Z) (hook : TcHook) (priority handle : Z).

#[export] Instance TcResidue_eq_dec : EqDecision TcResidue.
Proof. solve_decision. Defined.

Fixpoint drop_one `{EqDecision A} (x : A) (xs : list A) : option (list A) :=
  match xs with
  | [] => None
  | y :: ys => if decide (y = x) then Some ys else option_map (cons y) (drop_one x ys)
  end.

Definition tc_leave (left : list TcResidue) (mutation : TcMutation) : option (list TcResidue) :=
  match mutation with
  | ClsactAdded ifindex => Some (LeftClsact ifindex :: left)
  | FilterAdded ifindex hook priority handle _ => Some (LeftFilter ifindex hook priority handle :: left)
  | FilterRemoved identity =>
      drop_one (LeftFilter (tk_ifindex identity) (tk_hook identity) (tk_priority identity)
                     (tk_handle identity)) left
  | ClsactRemoved ifindex => drop_one (LeftClsact ifindex) left
  end.

Fixpoint tc_left (left : list TcResidue) (changes : list TcMutation) : option (list TcResidue) :=
  match changes with
  | [] => Some left
  | change :: changes => left ← tc_leave left change; tc_left left changes
  end.

Definition when {A} (b : bool) (xs : list A) : list A := if b then xs else [].

(** What an owned filter stands for. *)
Definition owned_left (owned : OwnedTc) : list TcResidue :=
  LeftFilter (ot_ifindex owned) (ot_hook owned) (ot_priority owned) (ot_handle owned)
  :: when (ot_created_clsact owned) [LeftClsact (ot_ifindex owned)].

Definition owned_changes (owned : OwnedTc) (fd : Z) : list TcMutation :=
  when (ot_created_clsact owned) [ClsactAdded (ot_ifindex owned)]
  ++ [FilterAdded (ot_ifindex owned) (ot_hook owned) (ot_priority owned) (ot_handle owned) fd].

(** What an inventory that was read after the changes [log] showed: there is no clsact. *)
Definition clsact_absent {W} `{TcIoSpec W} (log : list TcMutation) (ifindex : Z) : Prop :=
  ∃ w w' inventory, tc_log w = log ∧ tc_query w ifindex = (w', Ok inventory) ∧
    ti_clsact inventory = ClsactAbsent ∧ ti_filters inventory = [].

(** The changes an attachment may make that starts after the changes [log]. *)
Definition own_change {W} `{TcIoSpec W} (log : list TcMutation) (ifindex : Z) (hook : TcHook)
    (loaded : LoadedTc) (change : TcMutation) : Prop :=
  match change with
  | ClsactAdded i => i = ifindex ∧ clsact_absent log ifindex
  | ClsactRemoved i => i = ifindex
  | FilterAdded i h priority handle fd =>
      i = ifindex ∧ h = hook ∧ TC_PRIORITY_FIRST <= priority <= TC_PRIORITY_LAST ∧
      handle = tc_handle_for hook ∧ fd = lt_program_fd loaded
  | FilterRemoved identity =>
      tk_ifindex identity = ifindex ∧ tk_hook identity = hook ∧ tk_handle identity = tc_handle_for hook ∧
      tk_program_id identity = lt_program_id loaded
  end.

(** What a failure leaves behind, by the rollback it reports. *)
Definition left_by (rollback : option TcRollback) (owned : OwnedTc) (left : list TcResidue) : Prop :=
  match rollback with
  | None | Some TcRolledBack => left = []
  | Some TcRollbackFailed => left `sublist_of` owned_left owned
  | Some TcRetainedIdentityMismatch => left `sublist_of` owned_left owned
  | Some TcRetainedUnknownState => left = owned_left owned
  end.

Section attach_facts.
Context {W : Type} `{TcIoSpec W}.
Implicit Types (log : list TcMutation) (w : W) (ifindex : Z) (hook : TcHook) (loaded : LoadedTc) (owned : OwnedTc).

(** A run of the adapter from [w] to [w'] whose changes satisfy [P]. *)
Definition changed w w' (P : list TcMutation → Prop) : Prop :=
  ∃ changes, tc_log w' = tc_log w ++ changes ∧ P changes.

Lemma changed_nothing w w' (P : list TcMutation → Prop) : tc_log w' = tc_log w → P [] → changed w w' P.
Proof. intros Hlog ?. exists []. by rewrite app_nil_r. Qed.

Lemma changed_trans w1 w2 w3 (P Q : list TcMutation → Prop) :
  changed w1 w2 P → (∀ changes, P changes → changed w2 w3 (λ rest, Q (changes ++ rest))) → changed w1 w3 Q.
Proof.
  intros (changes & Hlog & HP) Hnext. destruct (Hnext _ HP) as (rest & Hlog' & HQ).
  exists (changes ++ rest). by rewrite Hlog', Hlog, <-app_assoc.
Qed.

Lemma changed_mono w w' (P Q : list TcMutation → Prop) :
  changed w w' P → (∀ changes, P changes → Q changes) → changed w w' Q.
Proof. intros (changes & ? & ?) HPQ. exists changes. auto. Qed.

Lemma query_or_unknown_changed w ifindex :
  let out := query_or_unknown w ifindex in
  tc_log out.1 = tc_log w ∧
  match out.2 with
  | Ok inventory => tc_query w ifindex = (out.1, Ok inventory)
  | Err error => error = tc_unknown_state
  end.
Proof.
  unfold query_or_unknown. pose proof (query_logs w ifindex).
  by destruct (tc_query w ifindex) as [w' [inventory|error]].
Qed.

Lemma remove_created_changed w ifindex :
  changed w (remove_created_clsact w ifindex).1
    (λ changes, changes = when (is_rolled_back (remove_created_clsact w ifindex).2) [ClsactRemoved ifindex]).
Proof.
  unfold remove_created_clsact. pose proof (remove_logs w ifindex) as Hlog. unfold logs in Hlog.
  destruct (remove_clsact_if_empty_exact w ifindex) as [w' [u|error]]; cbn in Hlog.
  - by exists [ClsactRemoved ifindex].
  - destruct error; by apply changed_nothing.
Qed.

(** Not [RetainedUnknownState]: the qdisc was asked for. *)
Lemma remove_created_rollback w ifindex :
  (remove_created_clsact w ifindex).2 ≠ TcRetainedUnknownState.
Proof.
  unfold remove_created_clsact. by destruct (remove_clsact_if_empty_exact w ifindex) as [w' [u|[]]].
Qed.

(** The changes of a call that ends with [res], for an attachment that already
    made the changes [before]. *)
Definition attach_changes log ifindex hook loaded (before : list TcMutation) (res : result TcError OwnedTc)
    (changes : list TcMutation) : Prop :=
  Forall (own_change log ifindex hook loaded) (before ++ changes) ∧
  match res with
  | Ok owned =>
      ot_ifindex owned = ifindex ∧ ot_hook owned = hook ∧ ot_handle owned = tc_handle_for hook ∧
      ot_program_id owned = lt_program_id loaded ∧
      before ++ changes = owned_changes owned (lt_program_fd loaded)
  | Err error =>
      ∃ priority created left,
        tc_left [] (before ++ changes) = Some left ∧
        left_by (te_rollback error)
          (mkOwnedTc ifindex hook priority (tc_handle_for hook) (lt_program_id loaded) created) left
  end.

(** After the filter was added: changes that end in a failure. *)
Lemma failed_changes log w w' ifindex hook loaded priority created before error (suffix : list TcMutation) left :
  let owned := mkOwnedTc ifindex hook priority (tc_handle_for hook) (lt_program_id loaded) created in
  tc_log w' = tc_log w ++ suffix →
  Forall (own_change log ifindex hook loaded) before → Forall (own_change log ifindex hook loaded) suffix →
  tc_left [] (before ++ suffix) = Some left → left_by (te_rollback error) owned left →
  changed w w' (attach_changes log ifindex hook loaded before (Err error)).
Proof.
  intros owned Hlog Hb Hs Hleft Hby. exists suffix. split; [done|]. split; [by apply Forall_app|].
  by exists priority, created, left.
Qed.

Lemma left_owned owned fd : tc_left [] (owned_changes owned fd) = Some (owned_left owned).
Proof. unfold owned_changes, owned_left. by destruct (ot_created_clsact owned). Qed.

Lemma left_app left changes rest : tc_left left (changes ++ rest) = (l ← tc_left left changes; tc_left l rest).
Proof.
  revert left. induction changes as [|change changes IH]; intros left; [done|]. cbn.
  destruct (tc_leave left change) as [left'|]; [apply IH|done].
Qed.

Lemma left_removed owned :
  tc_left (owned_left owned) [FilterRemoved (tc_identity owned)]
  = Some (when (ot_created_clsact owned) [LeftClsact (ot_ifindex owned)]).
Proof. unfold owned_left. cbn. by rewrite decide_True. Qed.

Lemma left_clsact ifindex : tc_left [LeftClsact ifindex] [ClsactRemoved ifindex] = Some [].
Proof. cbn. by rewrite decide_True. Qed.

Lemma verification_rollback_changes log w after ifindex hook loaded priority created :
  let owned := mkOwnedTc ifindex hook priority (tc_handle_for hook) (lt_program_id loaded) created in
  let before := owned_changes owned (lt_program_fd loaded) in
  Forall (own_change log ifindex hook loaded) before →
  let out := verification_rollback w after owned in
  changed w out.1 (attach_changes log ifindex hook loaded before
                     (Err (tc_verification "post-attach TC identity did not match the loaded program" out.2))).
Proof.
  intros owned before Hbefore. cbv zeta. unfold verification_rollback.
  assert (∀ w' rollback, tc_log w' = tc_log w → rollback ≠ TcRolledBack →
    changed w w' (attach_changes log ifindex hook loaded before
      (Err (tc_verification "post-attach TC identity did not match the loaded program" rollback)))) as Hkept.
  { intros w' rollback Hlog Hr. eapply (failed_changes log _ _ _ _ _ priority created _ _ [] (owned_left owned)).
    - by rewrite app_nil_r.
    - done.
    - done.
    - rewrite app_nil_r. apply left_owned.
    - destruct rollback; cbn; done || reflexivity. }
  destruct (has_exact after (tc_identity owned)).
  2: { destruct (has_unknown after); by apply Hkept. }
  pose proof (detach_logs w (tc_identity owned)) as Hlog. unfold logs in Hlog.
  destruct (detach_exact_filter w (tc_identity owned)) as [w1 [u|error]]; cbn in Hlog; [|by apply Hkept].
  assert (Forall (own_change log ifindex hook loaded) [FilterRemoved (tc_identity owned)]) as Hown
    by (by repeat constructor).
  unfold owned in *. cbn [ot_created_clsact ot_ifindex] in *. destruct created.
  2: { eapply (failed_changes log _ _ _ _ _ priority false); [exact Hlog|done..| |done].
       unfold before. rewrite left_app, left_owned. cbn [mbind option_bind]. rewrite left_removed. done. }
  destruct (remove_created_changed w1 ifindex) as (changes & Hlog' & Heq). rewrite Heq in Hlog'.
  pose proof (remove_created_rollback w1 ifindex) as Hnu.
  destruct (remove_created_clsact w1 ifindex) as [w2 rollback]. cbn [fst snd] in *.
  rewrite Hlog, <-app_assoc in Hlog'.
  eapply (failed_changes log _ _ _ _ _ priority true); [exact Hlog'|done| | |].
  - apply Forall_app. split; [done|]. destruct rollback; by repeat constructor.
  - unfold before. rewrite !left_app, left_owned. cbn [mbind option_bind]. rewrite left_app, left_removed.
    cbn [mbind option_bind when ot_created_clsact ot_ifindex].
    instantiate (1 := if is_rolled_back rollback then [] else [LeftClsact ifindex]).
    destruct rollback; [apply left_clsact|done..].
  - destruct rollback; cbn; try done; by apply sublist_cons.
Qed.

(** A filter that was added in a free slot. *)
Lemma owned_changes_own log ifindex hook loaded priority created :
  TC_PRIORITY_FIRST <= priority <= TC_PRIORITY_LAST →
  (created = true → clsact_absent log ifindex) →
  Forall (own_change log ifindex hook loaded)
    (owned_changes (mkOwnedTc ifindex hook priority (tc_handle_for hook) (lt_program_id loaded) created)
       (lt_program_fd loaded)).
Proof. intros Hp Habs. destruct created; repeat constructor; cbn; auto; lia. Qed.

Lemma verify_attached_changes log w ifindex hook loaded priority created :
  let owned := mkOwnedTc ifindex hook priority (tc_handle_for hook) (lt_program_id loaded) created in
  let before := owned_changes owned (lt_program_fd loaded) in
  Forall (own_change log ifindex hook loaded) before →
  changed w (verify_attached w owned).1 (attach_changes log ifindex hook loaded before (verify_attached w owned).2).
Proof.
  intros owned before Hbefore. unfold verify_attached. pose proof (query_logs w (ot_ifindex owned)) as Hlog.
  destruct (tc_query w (ot_ifindex owned)) as [w1 [after|error]]; cbn [fst snd] in *.
  - destruct (bool_decide _).
    + apply changed_nothing; [done|]. unfold attach_changes. rewrite app_nil_r. by split_and!.
    + pose proof (verification_rollback_changes log w1 after ifindex hook loaded priority created Hbefore) as Hrb.
      cbv zeta in Hrb. fold owned in Hrb. destruct (verification_rollback w1 after owned) as [w2 rollback].
      cbn [fst snd] in *. destruct Hrb as (changes & Hl & Hc). exists changes. by rewrite Hl, Hlog.
  - eapply (failed_changes log _ _ _ _ _ priority created _ _ [] (owned_left owned)); try done.
    + by rewrite app_nil_r.
    + rewrite app_nil_r. apply left_owned.
Qed.

(** Nothing, or the clsact qdisc that the transaction created. *)
Definition created_changes (ifindex : Z) (created : bool) : list TcMutation := when created [ClsactAdded ifindex].

Lemma attach_failure_changes log w code evidence ifindex hook loaded created :
  (created = true → clsact_absent log ifindex) →
  let out := attach_failure w code evidence ifindex created in
  changed w out.1 (attach_changes log ifindex hook loaded (created_changes ifindex created) (Err out.2)).
Proof.
  intros Habs. unfold attach_failure. destruct created.
  2: { apply changed_nothing; [done|]. split; [constructor|]. by exists 0, false, []. }
  destruct (remove_created_changed w ifindex) as (changes & Hlog & Heq). rewrite Heq in Hlog.
  pose proof (remove_created_rollback w ifindex) as Hnu.
  destruct (remove_created_clsact w ifindex) as [w1 rollback]. cbn [fst snd] in *.
  eapply (failed_changes log _ _ _ _ _ 0 true); [exact Hlog|repeat constructor; cbn; auto| | |].
  - destruct rollback; by repeat constructor.
  - rewrite left_app. cbn [created_changes when tc_left tc_leave mbind option_bind].
    instantiate (1 := if is_rolled_back rollback then [] else [LeftClsact ifindex]).
    destruct rollback; [apply left_clsact|done..].
  - destruct rollback; cbn; try done; by apply sublist_cons.
Qed.

Lemma attach_filter_changes log w ifindex hook loaded priority created :
  TC_PRIORITY_FIRST <= priority <= TC_PRIORITY_LAST →
  (created = true → clsact_absent log ifindex) →
  let out := attach_filter w ifindex hook loaded priority created in
  changed w out.1 (attach_changes log ifindex hook loaded (created_changes ifindex created) out.2).
Proof.
  intros Hp Habs. cbv zeta. unfold attach_filter.
  pose proof (attach_logs w ifindex hook priority (tc_handle_for hook) (lt_program_fd loaded)) as Hlog.
  unfold logs in Hlog. destruct (attach_exclusive _ _ _ _ _ _) as [w1 [u|error]]; cbn [fst snd] in Hlog.
  - destruct (verify_attached_changes log w1 ifindex hook loaded priority created) as (changes & Hl & Hc).
    { by apply owned_changes_own. }
    eexists. split; [rewrite Hl, Hlog, <-app_assoc; reflexivity|].
    unfold attach_changes, owned_changes in *. cbn [ot_created_clsact ot_ifindex ot_hook ot_priority ot_handle] in *.
    rewrite <-!app_assoc in Hc. exact Hc.
  - assert (∀ code evidence, changed w (attach_failure w1 code evidence ifindex created).1
      (attach_changes log ifindex hook loaded (created_changes ifindex created)
         (Err (attach_failure w1 code evidence ifindex created).2))) as Hf.
    { intros code evidence. destruct (attach_failure_changes log w1 code evidence ifindex hook loaded created Habs)
        as (changes & Hl & Hc). exists changes. by rewrite Hl, Hlog. }
    destruct error as [| |message];
      match goal with |- context [attach_failure w1 ?c ?e _ _] => specialize (Hf c e) end;
      by destruct (attach_failure _ _ _ _ _).
Qed.

Lemma empty_plan_spec inventory hook :
  match empty_plan inventory hook with
  | Ok (priority, clsact_present) => classified inventory hook None (TcEmpty priority clsact_present)
  | Err error => te_rollback error = None
  end.
Proof.
  unfold empty_plan. pose proof (classify_spec inventory hook None).
  by destruct (tc_classify_inventory inventory hook None).
Qed.

Lemma classified_free log w w' ifindex inventory hook priority present :
  tc_log w = log → tc_query w ifindex = (w', Ok inventory) →
  classified inventory hook None (TcEmpty priority present) →
  TC_PRIORITY_FIRST <= priority <= TC_PRIORITY_LAST ∧
  (negb present = true → clsact_absent log ifindex).
Proof.
  intros Hlog Hq (Hu & Hp & Hnil & ? & ? & ?). split; [done|].
  intros Hnp%negb_true_iff. exists w, w', inventory. split_and!; [done..| |auto].
  apply has_unknown_false in Hu as [Hcl _]. destruct (ti_clsact inventory); [done| |done].
  destruct Hp as [_ Hp]. by rewrite Hp in Hnp.
Qed.

Lemma changed_failure log w w' ifindex hook loaded error :
  tc_log w' = tc_log w → te_rollback error = None →
  changed w w' (attach_changes log ifindex hook loaded [] (Err error)).
Proof.
  intros Hlog Hr. apply changed_nothing; [done|]. split; [constructor|]. exists 0, false, []. by rewrite Hr.
Qed.

Lemma ensure_clsact_changes log w w0 w1 ifindex hook loaded before plan :
  tc_log w0 = log → tc_log w = log → tc_query w0 ifindex = (w1, Ok before) → empty_plan before hook = Ok plan →
  match ensure_clsact w ifindex hook plan with
  | (w', Ok (priority, created)) =>
      TC_PRIORITY_FIRST <= priority <= TC_PRIORITY_LAST ∧
      (created = true → clsact_absent log ifindex) ∧
      tc_log w' = tc_log w ++ created_changes ifindex created
  | (w', Err error) => changed w w' (attach_changes log ifindex hook loaded [] (Err error))
  end.
Proof.
  intros Hlog0 Hlogw Hq Hplan. pose proof (empty_plan_spec before hook) as Hspec. rewrite Hplan in Hspec.
  destruct plan as [priority []]; destruct (classified_free _ _ _ _ _ _ _ _ Hlog0 Hq Hspec) as (Hp & Habs); cbn.
  { by rewrite app_nil_r. }
  pose proof (clsact_logs w ifindex) as Hlog. unfold logs in Hlog.
  destruct (ensure_clsact_exclusive w ifindex) as [w2 [u|[| |message]]]; cbn [fst snd] in Hlog; [done| |by apply changed_failure..].
  destruct (query_or_unknown_changed w2 ifindex) as [Hlog' Hraced].
  destruct (query_or_unknown w2 ifindex) as [w3 [raced|error]]; cbn [fst snd] in *;
    [|subst; apply changed_failure; [congruence|done]].
  pose proof (empty_plan_spec raced hook) as Hspec'.
  destruct (empty_plan raced hook) as [[raced_priority []]|error];
    [|apply changed_failure; cbn; congruence..].
  destruct (classified_free log _ _ _ _ _ _ _ (eq_trans Hlog Hlogw) Hraced Hspec') as (? & ?).
  cbn. rewrite app_nil_r. split_and!; try tauto; try done; congruence.
Qed.

Lemma tc_attach_changes w ifindex hook loaded :
  let out := tc_attach w ifindex hook loaded in
  changed w out.1 (attach_changes (tc_log w) ifindex hook loaded [] out.2).
Proof.
  cbv zeta. unfold tc_attach. destruct (query_or_unknown_changed w ifindex) as [Hlog Hq].
  destruct (query_or_unknown w ifindex) as [w1 [before|error]]; cbn [fst snd] in *;
    [|subst; by apply changed_failure].
  destruct (empty_plan before hook) as [plan|error] eqn:Hplan.
  2: { apply changed_failure; [done|]. pose proof (empty_plan_spec before hook) as Hs. by rewrite Hplan in Hs. }
  pose proof (ensure_clsact_changes (tc_log w) w1 _ _ _ _ loaded _ _ eq_refl Hlog Hq Hplan) as He.
  destruct (ensure_clsact w1 ifindex hook plan) as [w2 [[priority created]|error]].
  2: { destruct He as (changes & Hl & Hc). exists changes. cbn. by rewrite Hl, Hlog. }
  destruct He as (Hp & Habs & Hl).
  destruct (attach_filter_changes (tc_log w) w2 ifindex hook loaded priority created Hp Habs) as (changes & Hl' & Hc).
  exists (created_changes ifindex created ++ changes). by rewrite Hl', Hl, Hlog, <-!app_assoc.
Qed.

(** *** Detach *)
Lemma tc_detach_changes w owned :
  let out := tc_detach w owned in
  changed w out.1 (λ changes,
    match out.2 with
    | Ok TcDetached => changes = FilterRemoved (tc_identity owned)
                                 :: when (ot_created_clsact owned) [ClsactRemoved (ot_ifindex owned)]
    | Ok TcAlreadyAbsent => changes = when (ot_created_clsact owned) [ClsactRemoved (ot_ifindex owned)]
    | Ok TcDetachRetained => changes = []
    | Err error => changes = [] ∨ ot_created_clsact owned = true ∧ changes = [FilterRemoved (tc_identity owned)] ∧
                                  te_code error = TC_CLSACT_REMOVE_FAILED
    end).
Proof.
  cbv zeta. unfold tc_detach. destruct (query_or_unknown_changed w (ot_ifindex owned)) as [Hlog _].
  destruct (query_or_unknown w (ot_ifindex owned)) as [w1 [current|error]]; cbn [fst snd] in *.
  2: { apply changed_nothing; auto. }
  assert (∀ w' P, changed w1 w' P → changed w w' P) as Hfrom.
  { intros w' P (changes & Hl & HP). exists changes. by rewrite Hl, Hlog. }
  destruct (tc_classify_inventory _ _ _) as [priority present| | |]; cbn [fst snd];
    [| |apply changed_nothing; auto..]; apply Hfrom.
  - unfold detach_absent. destruct (ot_created_clsact owned); [|by apply changed_nothing].
    pose proof (remove_created_changed w1 (ot_ifindex owned)) as Hc.
    destruct (remove_created_clsact w1 (ot_ifindex owned)) as [w2 []]; cbn in *; [done| |auto..].
    all: eapply changed_mono; [exact Hc|auto].
  - unfold detach_present. pose proof (detach_logs w1 (tc_identity owned)) as Hd. unfold logs in Hd.
    destruct (detach_exact_filter w1 (tc_identity owned)) as [w2 [u|error]]; cbn [fst snd] in Hd |- *.
    2: { apply changed_nothing; auto. }
    destruct (ot_created_clsact owned).
    2: { by exists [FilterRemoved (tc_identity owned)]. }
    destruct (remove_created_changed w2 (ot_ifindex owned)) as (changes & Hl & Hc). rewrite Hc in Hl.
    destruct (remove_created_clsact w2 (ot_ifindex owned)) as [w3 rollback]; cbn [fst snd] in *.
    exists (FilterRemoved (tc_identity owned) :: when (is_rolled_back rollback) [ClsactRemoved (ot_ifindex owned)]).
    destruct rollback; cbn [is_rolled_back when fst snd] in *; rewrite Hl, Hd, <-app_assoc; split; auto.
Qed.
End attach_facts.

(** ** An undisturbed interface

    When nobody else changes the interface, a query answers what the changes so far
    made of what there was. *)
Definition same_inventory (a b : TcInventory) : Prop :=
  ti_clsact a = ti_clsact b ∧ ti_filters a ≡ₚ ti_filters b.

Definition replay_change (program : Z → Z) (ifindex : Z) (inventory : TcInventory) (change : TcMutation)
    : TcInventory :=
  match change with
  | ClsactAdded i => if decide (i = ifindex) then mkTcInventory ClsactPresent (ti_filters inventory) else inventory
  | ClsactRemoved i => if decide (i = ifindex) then mkTcInventory ClsactAbsent (ti_filters inventory) else inventory
  | FilterAdded i hook priority handle fd =>
      if decide (i = ifindex)
      then mkTcInventory (ti_clsact inventory)
             (SlotBpf (mkTcKernelIdentity i hook priority handle (program fd)) :: ti_filters inventory)
      else inventory
  | FilterRemoved identity =>
      if decide (tk_ifindex identity = ifindex)
      then mkTcInventory (ti_clsact inventory)
             (default (ti_filters inventory) (drop_one (SlotBpf identity) (ti_filters inventory)))
      else inventory
  end.

Definition replay (program : Z → Z) (initial : Z → TcInventory) (log : list TcMutation) (ifindex : Z) : TcInventory :=
  foldl (replay_change program ifindex) (initial ifindex) log.

Class TcIoQuiet (W : Type) `{TcIoSpec W} : Type := {
  tc_initial : Z → TcInventory;
  tc_program : Z → Z;
  query_replays w ifindex w' inventory :
    tc_query w ifindex = (w', Ok inventory) →
    same_inventory inventory (replay tc_program tc_initial (tc_log w) ifindex);
}.

Section quiet.
Context {W : Type} `{TcIoQuiet W}.
Implicit Types (w : W).

Definition tc_now w (ifindex : Z) : TcInventory := replay tc_program tc_initial (tc_log w) ifindex.

Lemma tc_now_changes w w' changes ifindex :
  tc_log w' = tc_log w ++ changes →
  tc_now w' ifindex = foldl (replay_change tc_program ifindex) (tc_now w ifindex) changes.
Proof. intros Hlog. unfold tc_now, replay. by rewrite Hlog, foldl_app. Qed.

Lemma same_has_unknown a b : same_inventory a b → has_unknown a = has_unknown b.
Proof.
  intros [Hc Hf]. apply eq_bool_prop_intro. rewrite !Is_true_true. unfold has_unknown.
  rewrite Hc, !orb_true_iff, !existsb_exists. setoid_rewrite <-list_elem_of_In. by setoid_rewrite Hf.
Qed.

Lemma filter_singleton_Permutation {A} (P : A → bool) xs ys x :
  xs ≡ₚ ys → List.filter P ys = [x] → List.filter P xs = [x].
Proof.
  intros Hp Hy. apply Permutation_singleton_r. rewrite <-Hy. clear Hy.
  induction Hp; cbn; [done| |repeat case_match; try done; apply Permutation_swap|by etrans].
  case_match; [by constructor|done].
Qed.

#[local] Instance filter_Permutation {A} (P : A → bool) : Proper ((≡ₚ) ==> (≡ₚ)) (List.filter P).
Proof.
  intros xs ys. induction 1 as [|x xs ys _ IH|x y xs|xs ys zs _ IH1 _ IH2]; cbn.
  - done.
  - destruct (P x); [by constructor|done].
  - destruct (P x), (P y); try done. apply perm_swap.
  - by rewrite IH1.
Qed.

(** The verdict [Owned] depends on the set of filters only. *)
Lemma classify_owned inventory hook owned :
  tc_classify_inventory inventory hook (Some owned) = TcOwned ↔
  has_unknown inventory = false ∧ ti_clsact inventory = ClsactPresent ∧
  List.filter (in_reserved hook) (ti_filters inventory) = [SlotBpf (tc_identity owned)].
Proof.
  split.
  - intros Howned. pose proof (classify_spec inventory hook (Some owned)) as Hspec. rewrite Howned in Hspec.
    destruct Hspec as [Hp _]. revert Howned. unfold tc_classify_inventory. rewrite Hp.
    rewrite (bool_decide_eq_false_2 (ClsactPresent = ClsactAbsent)) by done. cbn [andb].
    rewrite orb_false_r. destruct (has_unknown inventory); [done|].
    destruct (List.filter _ _) as [|[identity| |] [|]]; try done; [by destruct (free_priority _ _)|].
    unfold tc_matches. by case_bool_decide; subst.
  - intros (Hu & Hp & Hf). unfold tc_classify_inventory. rewrite Hu, Hp, Hf.
    rewrite (bool_decide_eq_false_2 (ClsactPresent = ClsactAbsent)) by done. cbn [andb orb].
    unfold tc_matches. by rewrite bool_decide_eq_true_2.
Qed.

Lemma classify_owned_same a b hook owned :
  same_inventory a b → tc_classify_inventory a hook (Some owned) = TcOwned →
  tc_classify_inventory b hook (Some owned) = TcOwned.
Proof.
  intros Hs. rewrite !classify_owned. intros (Hu & Hp & Hf). rewrite <-(same_has_unknown _ _ Hs).
  destruct Hs as [Hc Hperm]. split_and!; [done|congruence|].
  apply Permutation_singleton_r. by rewrite <-Hperm, Hf.
Qed.

(** A session is returned by an attachment only when a last query showed the filter
    to be the only one under the reserved handle. *)
Lemma attach_verified w w' ifindex hook loaded owned :
  tc_attach w ifindex hook loaded = (w', Ok owned) →
  tc_classify_inventory (tc_now w' ifindex) hook (Some owned) = TcOwned.
Proof.
  intros Hattach. unfold tc_attach in Hattach.
  destruct (query_or_unknown w ifindex) as [w1 [before|error]]; [|done].
  destruct (empty_plan before hook) as [plan|error]; [|done].
  destruct (ensure_clsact w1 ifindex hook plan) as [w2 [[priority created]|error]]; [|done].
  unfold attach_filter in Hattach. destruct (attach_exclusive _ _ _ _ _ _) as [w3 [u|error]].
  2: { destruct error; by destruct (attach_failure _ _ _ _ _). }
  unfold verify_attached in Hattach. cbn [ot_ifindex ot_hook] in Hattach.
  pose proof (query_logs w3 ifindex) as Hlog. destruct (tc_query w3 ifindex) as [w4 [after|error]] eqn:Hq; [|done].
  destruct (bool_decide _) eqn:Hv; [|by destruct (verification_rollback _ _ _)].
  apply bool_decide_eq_true in Hv. simplify_eq. eapply classify_owned_same; [|exact Hv].
  apply query_replays in Hq. unfold tc_now. cbn in Hlog. by rewrite Hlog.
Qed.

Lemma clsact_absent_now w ifindex :
  clsact_absent (tc_log w) ifindex → ti_clsact (tc_now w ifindex) = ClsactAbsent.
Proof.
  intros (w0 & w1 & inventory & Hlog & Hq & Habs & _). apply query_replays in Hq as [Hc _].
  rewrite Hlog in Hc. unfold tc_now. congruence.
Qed.

Lemma detach_own w w' owned outcome :
  tc_classify_inventory (tc_now w (ot_ifindex owned)) (ot_hook owned) (Some owned) = TcOwned →
  tc_detach w owned = (w', Ok outcome) → outcome = TcDetached.
Proof.
  intros Hown. unfold tc_detach, query_or_unknown. destruct (tc_query w _) as [w1 [current|error]] eqn:Hq; [|done].
  cbn [map_err]. rewrite (classify_owned_same (tc_now w (ot_ifindex owned)) current).
  - unfold detach_present. intros. repeat case_match; by simplify_eq.
  - apply query_replays in Hq as [? ?]. by split.
  - done.
Qed.

(** Adding and removing a filter, with the clsact that was created for it. *)
Lemma replay_own owned fd inventory ifindex :
  tc_program fd = ot_program_id owned →
  (ot_created_clsact owned = true → ot_ifindex owned = ifindex → ti_clsact inventory = ClsactAbsent) →
  foldl (replay_change tc_program ifindex) inventory
    (owned_changes owned fd ++ FilterRemoved (tc_identity owned)
     :: when (ot_created_clsact owned) [ClsactRemoved (ot_ifindex owned)]) = inventory.
Proof.
  intros Hid Habs. unfold owned_changes. destruct inventory as [clsact filters].
  destruct (ot_created_clsact owned); cbn [when app foldl replay_change tk_ifindex tc_identity];
    rewrite Hid; destruct (decide (ot_ifindex owned = ifindex)) as [He|]; try done; cbn;
    rewrite decide_True by done; cbn; [|done].
  rewrite <-(Habs eq_refl He). done.
Qed.

(** A verified filter runs the program that was loaded. *)
Lemma verified_program w w' owned fd :
  tc_log w' = tc_log w ++ owned_changes owned fd → ot_handle owned = tc_handle_for (ot_hook owned) →
  tc_classify_inventory (tc_now w' (ot_ifindex owned)) (ot_hook owned) (Some owned) = TcOwned →
  tc_program fd = ot_program_id owned.
Proof.
  intros Hlog Hhandle (_ & _ & Hf)%classify_owned. rewrite (tc_now_changes _ _ _ _ Hlog) in Hf.
  unfold owned_changes in Hf. rewrite foldl_app in Hf. cbn [foldl replay_change] in Hf.
  rewrite decide_True in Hf by done. cbn [ti_filters List.filter] in Hf.
  destruct (in_reserved _ _) eqn:Hr.
  - injection Hf. by intros _ Hid.
  - apply not_true_iff_false in Hr. destruct Hr. apply in_reserved_true. cbn. by rewrite Hhandle.
Qed.
End quiet.

(** ** What the adapter asks for

    Every change that an attachment asks for, whether it is then made or not, is
    justified by the calls before it in the same run. *)
Definition queried (event : TcEvent) : option (Z * result TcIoError TcInventory) :=
  match event with Queried ifindex answer => Some (ifindex, answer) | Asked _ _ => None end.

(** The last query of a run was answered with this inventory. *)
Definition shown (ifindex : Z) (inventory : TcInventory) (events : list TcEvent) : Prop :=
  last (omap queried events) = Some (ifindex, Ok inventory).

Definition justified (ifindex : Z) (hook : TcHook) (loaded : LoadedTc) (before : list TcEvent)
    (change : TcMutation) : Prop :=
  match change with
  | ClsactAdded i =>
      i = ifindex ∧ ∃ inventory, shown ifindex inventory before ∧
        ti_clsact inventory = ClsactAbsent ∧ ti_filters inventory = []
  | FilterAdded i h priority handle fd =>
      i = ifindex ∧ h = hook ∧ TC_PRIORITY_FIRST <= priority <= TC_PRIORITY_LAST ∧
      handle = tc_handle_for hook ∧ fd = lt_program_fd loaded ∧
      ∃ inventory, shown ifindex inventory before ∧ has_unknown inventory = false ∧
        ∀ slot, slot ∈ ti_filters inventory → slot_hook slot = hook →
          slot_priority slot ≠ Some priority ∧ slot_handle slot ≠ Some handle
  | FilterRemoved identity =>
      tk_program_id identity = lt_program_id loaded ∧
      FilterAdded (tk_ifindex identity) (tk_hook identity) (tk_priority identity) (tk_handle identity)
        (lt_program_fd loaded) ∈ omap made before ∧
      ∃ inventory, shown ifindex inventory before ∧ SlotBpf identity ∈ ti_filters inventory
  | ClsactRemoved i => i = ifindex ∧ ClsactAdded i ∈ omap made before
  end.

Fixpoint justified_from (ifindex : Z) (hook : TcHook) (loaded : LoadedTc) (before events : list TcEvent) : Prop :=
  match events with
  | [] => True
  | event :: events =>
      match event with Asked change _ => justified ifindex hook loaded before change | Queried i _ => i = ifindex end ∧
      justified_from ifindex hook loaded (before ++ [event]) events
  end.

(** A run that ends with a query that shows the filter, alone under its handle. *)
Definition verified_by (owned : OwnedTc) (events : list TcEvent) : Prop :=
  ∃ after, last events = Some (Queried (ot_ifindex owned) (Ok after)) ∧
    has_unknown after = false ∧ ti_clsact after = ClsactPresent ∧
    SlotBpf (tc_identity owned) ∈ ti_filters after ∧
    ∀ slot, slot ∈ ti_filters after → slot_hook slot = ot_hook owned → slot_handle slot = Some (ot_handle owned) →
      slot = SlotBpf (tc_identity owned).

Section trace_facts.
Context {W : Type} `{TcIoSpec W} (ifindex : Z) (hook : TcHook) (loaded : LoadedTc).
Implicit Types (w : W) (before events : list TcEvent).
Local Notation justified_from := (justified_from ifindex hook loaded).

(** A run whose calls are justified, after those of [before]. *)
Definition run_justified before w w' (Q : list TcEvent → Prop) : Prop :=
  ∃ events, tc_trace w' = tc_trace w ++ events ∧ justified_from before events ∧ Q events.

Lemma justified_app before events1 events2 :
  justified_from before (events1 ++ events2) ↔
  justified_from before events1 ∧ justified_from (before ++ events1) events2.
Proof.
  revert before. induction events1 as [|e events1 IH]; intros before; cbn; [rewrite app_nil_r; tauto|].
  rewrite IH, <-app_assoc. cbn. tauto.
Qed.

Lemma shown_query before inventory : shown ifindex inventory (before ++ [Queried ifindex (Ok inventory)]).
Proof. unfold shown. rewrite omap_app. exact (last_snoc _ _). Qed.

Lemma shown_asked before inventory change answer :
  shown ifindex inventory before → shown ifindex inventory (before ++ [Asked change answer]).
Proof. unfold shown. rewrite omap_app. cbn. by rewrite app_nil_r. Qed.

Lemma run_nothing before w (Q : list TcEvent → Prop) : Q [] → run_justified before w w Q.
Proof. intros. exists []. by rewrite app_nil_r. Qed.

(** One call, and what is done after it. *)
Lemma run_call before w w1 w2 event (Q : list TcEvent → Prop) :
  tc_trace w1 = tc_trace w ++ [event] → justified_from before [event] →
  run_justified (before ++ [event]) w1 w2 (λ events, Q (event :: events)) → run_justified before w w2 Q.
Proof.
  intros Hlog [Hj _] (events & Hl & Hjs & HQ). exists (event :: events).
  rewrite Hl, Hlog, <-app_assoc. done.
Qed.

Lemma remove_created_run before w :
  ClsactAdded ifindex ∈ omap made before →
  run_justified before w (remove_created_clsact w ifindex).1 (λ _, True).
Proof.
  intros Hin. unfold remove_created_clsact. pose proof (remove_traced w ifindex) as Ht. unfold traces in Ht.
  destruct (remove_clsact_if_empty_exact w ifindex) as [w1 [u|[]]]; cbn in Ht |- *;
    (eapply run_call; [exact Ht|done|by apply run_nothing]).
Qed.

Lemma verification_rollback_run before w after priority created :
  let owned := mkOwnedTc ifindex hook priority (tc_handle_for hook) (lt_program_id loaded) created in
  FilterAdded ifindex hook priority (tc_handle_for hook) (lt_program_fd loaded) ∈ omap made before →
  (created = true → ClsactAdded ifindex ∈ omap made before) → shown ifindex after before →
  run_justified before w (verification_rollback w after owned).1 (λ _, True).
Proof.
  intros owned Hfilter Hclsact Hshown. unfold verification_rollback. destruct (has_exact after (tc_identity owned)) eqn:Hex.
  2: { destruct (has_unknown after); by apply run_nothing. }
  apply bool_decide_eq_true in Hex. pose proof (detach_traced w (tc_identity owned)) as Ht. unfold traces in Ht.
  destruct (detach_exact_filter w (tc_identity owned)) as [w1 [u|error]]; cbn [fst snd] in Ht;
    (eapply run_call; [exact Ht|split; [split_and!; [done|done|by exists after]|done]|]); [|by apply run_nothing].
  unfold owned. cbn [ot_created_clsact ot_ifindex]. destruct created; [|by apply run_nothing].
  apply remove_created_run. rewrite omap_app. apply elem_of_app. left. by apply Hclsact.
Qed.

Lemma owned_verified after owned before :
  ot_handle owned = tc_handle_for (ot_hook owned) →
  tc_classify_inventory after (ot_hook owned) (Some owned) = TcOwned →
  verified_by owned (before ++ [Queried (ot_ifindex owned) (Ok after)]).
Proof.
  intros Hh (Hu & Hp & Hf)%classify_owned. exists after. split; [by rewrite last_snoc|]. split_and!; [done..| |].
  - apply list_elem_of_In. apply (filter_In (in_reserved (ot_hook owned))). rewrite Hf. by left.
  - intros slot Hin Hhook Hhandle. assert (In slot [SlotBpf (tc_identity owned)]) as [?|[]]; [|done].
    rewrite <-Hf. apply filter_In. rewrite <-list_elem_of_In, in_reserved_true. by rewrite <-Hh.
Qed.

Lemma verify_attached_run before w priority created :
  let owned := mkOwnedTc ifindex hook priority (tc_handle_for hook) (lt_program_id loaded) created in
  FilterAdded ifindex hook priority (tc_handle_for hook) (lt_program_fd loaded) ∈ omap made before →
  (created = true → ClsactAdded ifindex ∈ omap made before) →
  run_justified before w (verify_attached w owned).1
    (λ events, ∀ owned', (verify_attached w owned).2 = Ok owned' → verified_by owned' events).
Proof.
  intros owned Hfilter Hclsact. unfold verify_attached. pose proof (query_traced w ifindex) as Ht. unfold traces in Ht.
  cbn [owned ot_ifindex ot_hook]. destruct (tc_query w ifindex) as [w1 [after|error]]; cbn [fst snd] in Ht.
  2: { eapply run_call; [exact Ht|done|by apply run_nothing]. }
  destruct (bool_decide _) eqn:Hv.
  - apply bool_decide_eq_true in Hv. eapply run_call; [exact Ht|done|]. apply run_nothing. intros owned' [= <-].
    by apply (owned_verified after owned []).
  - destruct (verification_rollback_run (before ++ [Queried ifindex (Ok after)]) w1 after priority created)
      as (events & Hl & Hj & _); [rewrite omap_app; set_solver|rewrite omap_app; set_solver|apply shown_query|].
    destruct (verification_rollback _ _ _) as [w2 rollback]. cbn [fst] in Hl.
    eapply run_call; [exact Ht|done|]. by exists events.
Qed.

Lemma attach_failure_run before w code evidence created :
  (created = true → ClsactAdded ifindex ∈ omap made before) →
  run_justified before w (attach_failure w code evidence ifindex created).1 (λ _, True).
Proof.
  intros Hc. unfold attach_failure. destruct created; [|by apply run_nothing].
  pose proof (remove_created_run before w (Hc eq_refl)) as Hr. by destruct (remove_created_clsact w ifindex).
Qed.

(** The slot that an inventory showed to be free. *)
Definition free_shown before (priority : Z) : Prop :=
  TC_PRIORITY_FIRST <= priority <= TC_PRIORITY_LAST ∧
  ∃ inventory, shown ifindex inventory before ∧ has_unknown inventory = false ∧
    ∀ slot, slot ∈ ti_filters inventory → slot_hook slot = hook →
      slot_priority slot ≠ Some priority ∧ slot_handle slot ≠ Some (tc_handle_for hook).

Lemma attach_filter_run before w priority created :
  free_shown before priority → (created = true → ClsactAdded ifindex ∈ omap made before) →
  run_justified before w (attach_filter w ifindex hook loaded priority created).1
    (λ events, ∀ owned, (attach_filter w ifindex hook loaded priority created).2 = Ok owned → verified_by owned events).
Proof.
  intros [Hrange Hfree] Hclsact. unfold attach_filter.
  pose proof (attach_traced w ifindex hook priority (tc_handle_for hook) (lt_program_fd loaded)) as Ht. unfold traces in Ht.
  destruct (attach_exclusive _ _ _ _ _ _) as [w1 answer]. cbn [fst snd] in Ht.
  set (event := Asked _ answer) in *. assert (justified_from before [event]) as Hj by (by split_and!; try lia).
  destruct answer as [[]|error].
  - destruct (verify_attached_run (before ++ [event]) w1 priority created) as (events & Hl & Hjs & Hv);
      [rewrite omap_app; set_solver|rewrite omap_app; set_solver|].
    eapply run_call; [exact Ht|done|]. exists events. split_and!; [done..|]. intros owned (after & Hlast & Hrest)%Hv.
    exists after. split; [|done]. by destruct events.
  - assert (∀ code evidence, run_justified before w (attach_failure w1 code evidence ifindex created).1 (λ _, True)) as Hf.
    { intros code evidence. eapply run_call; [exact Ht|done|]. apply attach_failure_run. rewrite omap_app. set_solver. }
    destruct error as [| |message];
      match goal with |- context [attach_failure w1 ?c ?e _ _] => specialize (Hf c e) end;
      destruct (attach_failure _ _ _ _ _), Hf as (events & ? & ? & _); by exists events.
Qed.

Lemma plan_free before inventory priority present :
  shown ifindex inventory before → empty_plan inventory hook = Ok (priority, present) →
  free_shown before priority ∧ (present = false → ti_clsact inventory = ClsactAbsent ∧ ti_filters inventory = []).
Proof.
  intros Hs Hplan. pose proof (empty_plan_spec inventory hook) as Hspec. rewrite Hplan in Hspec.
  destruct Hspec as (Hu & Hp & Hnil & Hr & Hun & Hh). split.
  - split; [done|]. exists inventory. split_and!; [done..|]. intros slot Hin Hhook. split; [by apply Hun|by apply Hh].
  - intros ->. split; [|by apply Hnil]. apply has_unknown_false in Hu as [Hcl _].
    destruct (ti_clsact inventory); [done| |done]. by destruct Hp as [_ Hp%(λ h, h eq_refl)].
Qed.

(** The qdisc, and the priority for the filter. *)
Lemma ensure_clsact_run before w inventory plan :
  shown ifindex inventory before → empty_plan inventory hook = Ok plan →
  run_justified before w (ensure_clsact w ifindex hook plan).1
    (λ events, ∀ priority created, (ensure_clsact w ifindex hook plan).2 = Ok (priority, created) →
       free_shown (before ++ events) priority ∧ (created = true → ClsactAdded ifindex ∈ omap made (before ++ events))).
Proof.
  intros Hshown Hplan. destruct plan as [planned present]. destruct (plan_free _ _ _ _ Hshown Hplan) as [Hfree Habs].
  unfold ensure_clsact. destruct present.
  { apply run_nothing. intros priority created [= <- <-]. by rewrite app_nil_r. }
  pose proof (clsact_traced w ifindex) as Ht. unfold traces in Ht.
  destruct (ensure_clsact_exclusive w ifindex) as [w1 answer]. cbn [fst snd] in Ht.
  set (event := Asked _ answer) in *.
  assert (justified_from before [event]) as Hj by (split; [split; [done|by exists inventory; destruct (Habs eq_refl)]|done]).
  destruct answer as [[]|[| |message]]; [| |by (eapply run_call; [exact Ht|done|by apply run_nothing])..].
  - eapply run_call; [exact Ht|done|]. apply run_nothing. intros priority created [= <- <-]. rewrite omap_app. split; [|set_solver].
    destruct Hfree as [Hr (inv & Hs & Hrest)]. split; [done|]. exists inv. split; [by apply shown_asked|done].
  - unfold query_or_unknown. pose proof (query_traced w1 ifindex) as Ht'. unfold traces in Ht'.
    destruct (tc_query w1 ifindex) as [w2 [raced|error]]; cbn [fst snd map_err] in *;
      (eapply run_call; [exact Ht|done|]; eapply run_call; [exact Ht'|done|]); [|by apply run_nothing].
    destruct (empty_plan raced hook) as [[raced_priority []]|error] eqn:Hraced; [|by apply run_nothing..].
    apply run_nothing. intros priority created [= <- <-]. split; [|done].
    change [event; Queried ifindex (Ok raced)] with ([event] ++ [Queried ifindex (Ok raced)]). rewrite app_assoc.
    eapply plan_free; [apply shown_query|exact Hraced].
Qed.

Lemma tc_attach_run w :
  run_justified [] w (tc_attach w ifindex hook loaded).1
    (λ events, ∀ owned, (tc_attach w ifindex hook loaded).2 = Ok owned → verified_by owned events).
Proof.
  unfold tc_attach, query_or_unknown. pose proof (query_traced w ifindex) as Ht. unfold traces in Ht.
  destruct (tc_query w ifindex) as [w1 [inventory|error]]; cbn [fst snd map_err] in *;
    (eapply run_call; [exact Ht|done|]); [|by apply run_nothing].
  destruct (empty_plan inventory hook) as [plan|error] eqn:Hplan; [|by apply run_nothing].
  destruct (ensure_clsact_run [Queried ifindex (Ok inventory)] w1 inventory plan) as (events & Hl & Hj & Hok);
    [apply (shown_query [])|done|].
  destruct (ensure_clsact w1 ifindex hook plan) as [w2 [[priority created]|error]]; cbn [fst snd] in *; [|by exists events].
  destruct (Hok _ _ eq_refl) as [Hfree Hc].
  destruct (attach_filter_run _ w2 priority created Hfree Hc) as (events' & Hl' & Hj' & Hv).
  exists (events ++ events'). rewrite Hl', Hl, <-app_assoc. split_and!; [done|by apply justified_app|].
  intros owned (after & Hlast & Hrest)%Hv. exists after. split; [|done].
  change (last ((Queried ifindex (Ok inventory) :: events) ++ events') = Some (Queried (ot_ifindex owned) (Ok after))).
  by rewrite last_app, Hlast.
Qed.
End trace_facts.

(** ** A concrete interface *)
Module TcExample.

(** The calls so far, and which of the next ones succeed. *)
Record World : Type := mkWorld {
  xw_trace : list TcEvent;
  xw_script : list bool;
}.

Definition xw_log (w : World) : list TcMutation := omap made (xw_trace w).

Definition fd_program (fd : Z) : Z := fd + 100.
Definition foreign : TcFilterSlot := SlotBpf (mkTcKernelIdentity 7 TcEgressHook 49600 5 42).

(** Interface 7 has clsact and a foreign filter; no other interface has clsact. *)
Definition initial (ifindex : Z) : TcInventory :=
  if ifindex =? 7 then mkTcInventory ClsactPresent [foreign] else TcInventory_empty ClsactAbsent.

Definition now (w : World) (ifindex : Z) : TcInventory := replay fd_program initial (xw_log w) ifindex.

Definition step {A} (w : World) (ok : bool) (event : result TcIoError A → TcEvent) (value : A) : World * result TcIoError A :=
  let answer :=
    if default true (head (xw_script w)) then if ok then Ok value else Err TcIdentityMismatch
    else Err (TcFailed "scripted failure") in
  (mkWorld (xw_trace w ++ [event answer]) (tail (xw_script w)), answer).

#[global] Instance io : TcIo World := {|
  tc_query w ifindex := step w true (Queried ifindex) (now w ifindex);
  ensure_clsact_exclusive w ifindex :=
    step w (bool_decide (ti_clsact (now w ifindex) = ClsactAbsent)) (Asked (ClsactAdded ifindex)) tt;
  attach_exclusive w ifindex hook priority handle fd :=
    step w (bool_decide (ti_clsact (now w ifindex) = ClsactPresent))
      (Asked (FilterAdded ifindex hook priority handle fd)) tt;
  detach_exact_filter w identity :=
    step w (has_exact (now w (tk_ifindex identity)) identity) (Asked (FilterRemoved identity)) tt;
  remove_clsact_if_empty_exact w ifindex :=
    step w (bool_decide (now w ifindex = mkTcInventory ClsactPresent [])) (Asked (ClsactRemoved ifindex)) tt;
|}.

#[global] Instance io_spec : TcIoSpec World.
Proof. by refine {| tc_trace := xw_trace |}; intros. Defined.

#[global] Instance io_quiet : TcIoQuiet World.
Proof.
  refine {| tc_initial := initial; tc_program := fd_program |}. intros w ifindex w' inventory.
  cbn. unfold step. intros Hstep. destruct (default true _); by simplify_eq.
Defined.

Definition loaded : LoadedTc := mkLoadedTc 4 104.
Definition world (script : list bool) : World := mkWorld [] script.

(** The scripted ports of the transaction with this adapter as their TC port. *)
Record Both : Type := mkBoth { both_rest : Scripted.World; both_tc : World }.

Definition on_rest {A} (w : Both) (out : Scripted.World * A) : Both * A := (mkBoth out.1 (both_tc w), out.2).
Definition on_tc {A} (w : Both) (out : World * A) : Both * A := (mkBoth (both_rest w) out.1, out.2).

#[global] Instance both_ports : AttachPorts Both := {|
  inspect w name := on_rest w (inspect (both_rest w) name);
  raise_memlock_to_infinity w := on_rest w (raise_memlock_to_infinity (both_rest w));
  load_and_validate_abi w pins := on_rest w (load_and_validate_abi (both_rest w) pins);
  unload_exact w loaded := on_rest w (unload_exact (both_rest w) loaded);
  attach_no_replace w ifindex mode loaded := on_rest w (attach_no_replace (both_rest w) ifindex mode loaded);
  xdp_verify_exact w owned := on_rest w (xdp_verify_exact (both_rest w) owned);
  xdp_detach_exact w owned := on_rest w (xdp_detach_exact (both_rest w) owned);
  attach_explicit w ifindex hook loaded := on_tc w (safe_tc_attach_explicit (both_tc w) ifindex hook loaded);
  tc_verify_exact w owned := on_tc w (safe_tc_verify_exact (both_tc w) owned);
  tc_detach_exact w owned := on_tc w (safe_tc_detach_exact (both_tc w) owned);
  initialize_dependent w loaded ifindex generation :=
    on_rest w (initialize_dependent (both_rest w) loaded ifindex generation);
  publish_iface_config w loaded ifindex generation :=
    on_rest w (publish_iface_config (both_rest w) loaded ifindex generation);
  rollback_initialized_exact w loaded ifindex generation :=
    on_rest w (rollback_initialized_exact (both_rest w) loaded ifindex generation);
  ownership_save w record := on_rest w (ownership_save (both_rest w) record);
  ownership_remove_exact w record := on_rest w (ownership_remove_exact (both_rest w) record);
|}.

Definition transaction (script : list bool) : AttachmentTransaction Both :=
  AttachmentTransaction_new (mkBoth (at_ports (Scripted.transaction [])) (world script)).
End TcExample.

(** ** Properties *)

(** C24: [SafeTc::attach] changes only what is its own, in whatever way the
    interface behaves and others interfere.  Every change it asks for is justified by
    the calls before it: the qdisc and the filter are added where the last query of
    the run showed none, the filter under its reserved handle at a priority of its
    range that was free there; what it removes it added in the same call, and the
    filter only when the last query showed it.  A success leaves exactly the owned
    filter and the clsact qdisc that it records as created, and the last call was a
    query that showed the filter, alone under its handle.  A failure leaves of the
    changes that were reported as made what its rollback says: nothing when it
    reports none or a completed one. *)
Theorem tc_attach_outcome {W : Type} `{TcIoSpec W} (w : W) (ifindex : Z) (hook : TcHook) (loaded : LoadedTc) :
  let '(w', res) := tc_attach w ifindex hook loaded in
  ∃ events, let changes := omap made events in
    tc_trace w' = tc_trace w ++ events ∧
    justified_from ifindex hook loaded [] events ∧
    match res with
    | Ok owned =>
        ot_ifindex owned = ifindex ∧ ot_hook owned = hook ∧ ot_program_id owned = lt_program_id loaded ∧
        changes = owned_changes owned (lt_program_fd loaded) ∧ verified_by owned events
    | Err error =>
        ∃ priority created left,
          tc_left [] changes = Some left ∧
          left_by (te_rollback error)
            (mkOwnedTc ifindex hook priority (tc_handle_for hook) (lt_program_id loaded) created) left
    end.
Proof.
  destruct (tc_attach_changes w ifindex hook loaded) as (changes & Hlog & _ & Hres).
  destruct (tc_attach_run ifindex hook loaded w) as (events & Htrace & Hj & Hv).
  unfold tc_log in Hlog. rewrite Htrace, omap_app in Hlog. apply app_inv_head in Hlog as <-.
  destruct (tc_attach w ifindex hook loaded) as [w' [owned|error]]; exists events; cbn in *.
  - destruct Hres as (? & ? & ? & ? & ?). split_and!; auto.
  - done.
Qed.

(** The filter and then the clsact qdisc created for it cannot be created and
    removed. *)
Lemma tc_attach_outcome_witness :
  let w := TcExample.world [true; true; false; false] in
  let '(w', res) := tc_attach w 8 TcEgressHook TcExample.loaded in
  res = Err (mkTcError TC_FILTER_CREATE_FAILED "exclusive TC filter creation failed" (Some TcRollbackFailed)) ∧
  ∃ events, tc_trace w' = tc_trace w ++ events ∧ justified_from 8 TcEgressHook TcExample.loaded [] events ∧
            length events = 4%nat.
Proof.
  cbv zeta. pose proof (tc_attach_outcome (TcExample.world [true; true; false; false]) 8 TcEgressHook TcExample.loaded) as Ho.
  destruct (tc_attach (TcExample.world [true; true; false; false]) 8 TcEgressHook TcExample.loaded) as [w' res] eqn:Hrun.
  vm_compute in Hrun. injection Hrun as <- <-. split; [reflexivity|]. destruct Ho as (events & Ht & Hj & _).
  exists events. split; [exact Ht|]. split; [exact Hj|]. vm_compute in Ht. by rewrite <-Ht.
Defined.

(** [SafeTc::detach] removes the exact owned filter or none, and clsact only
    when the transaction created it: it reports [Detached] only after removing both,
    and leaves any other filter alone, whatever the interface looks like. *)
Lemma tc_detach_outcome {W : Type} `{TcIoSpec W} (w : W) (owned : OwnedTc) :
  let '(w', res) := tc_detach w owned in
  ∃ changes,
    tc_log w' = tc_log w ++ changes ∧
    match res with
    | Ok TcDetached => changes = FilterRemoved (tc_identity owned)
                                 :: when (ot_created_clsact owned) [ClsactRemoved (ot_ifindex owned)]
    | Ok TcAlreadyAbsent => changes = when (ot_created_clsact owned) [ClsactRemoved (ot_ifindex owned)]
    | Ok TcDetachRetained => changes = []
    | Err error => changes = [] ∨ ot_created_clsact owned = true ∧ changes = [FilterRemoved (tc_identity owned)] ∧
                                  te_code error = TC_CLSACT_REMOVE_FAILED
    end.
Proof.
  destruct (tc_detach_changes w owned) as (changes & Hlog & Hres).
  destruct (tc_detach w owned) as [w' res]. by exists changes.
Qed.

(** C25: on an interface nobody else changes, detaching undoes attaching: the filter
    of a successful attachment is found again, and every interface is what it was
    before, clsact included. *)
Theorem tc_attach_detach_roundtrip {W : Type} `{TcIoQuiet W} (w w1 w2 : W) (ifindex : Z) (hook : TcHook)
    (loaded : LoadedTc) (owned : OwnedTc) (outcome : TcDetachOutcome)
    (Hattach : tc_attach w ifindex hook loaded = (w1, Ok owned))
    (Hdetach : tc_detach w1 owned = (w2, Ok outcome)) :
  outcome = TcDetached ∧ ∀ i, tc_now w2 i = tc_now w i.
Proof.
  destruct (tc_attach_changes w ifindex hook loaded) as (changes & Hlog & Hown & Hres).
  pose proof (attach_verified _ _ _ _ _ _ Hattach) as Hverified. rewrite Hattach in Hlog, Hres. cbn in Hlog, Hres.
  destruct Hres as (<- & <- & Hhandle & _ & Hchanges). cbn in Hown. subst changes.
  pose proof (detach_own _ _ _ _ Hverified Hdetach) as ->. split; [done|]. intros i.
  destruct (tc_detach_changes w1 owned) as (changes & Hlog' & Hres). rewrite Hdetach in Hlog', Hres.
  cbn in Hlog', Hres. subst changes. rewrite Hlog, <-app_assoc in Hlog'.
  rewrite (tc_now_changes _ _ _ _ Hlog'). apply replay_own; [by eapply verified_program|].
  intros Hcreated <-. apply clsact_absent_now. unfold owned_changes in Hown. rewrite Hcreated in Hown.
  exact (proj2 (Forall_inv Hown)).
Qed.

(** Interface 8, where clsact is created and removed again. *)
Lemma tc_attach_detach_roundtrip_witness :
  let w := TcExample.world [] in
  ∃ w1 w2 owned,
    tc_attach w 8 TcEgressHook TcExample.loaded = (w1, Ok owned) ∧ ot_created_clsact owned = true ∧
    tc_detach w1 owned = (w2, Ok TcDetached) ∧ tc_now w1 8 ≠ tc_now w 8 ∧
    TcDetached = TcDetached ∧ ∀ i, tc_now w2 i = tc_now w i.
Proof.
  cbv zeta. eexists _, _, _. split; [vm_compute; reflexivity|]. split; [reflexivity|].
  split; [vm_compute; reflexivity|]. split; [by vm_compute|].
  eapply (tc_attach_detach_roundtrip (TcExample.world []) _ _ 8 TcEgressHook TcExample.loaded);
    vm_compute; reflexivity.
Defined.

(** A filter that could not be verified stays attached, and its port error does not
    say so: it carries a code and a text. *)
Lemma unverified_filter_stays {W : Type} `{TcIoSpec W} (w w1 w2 : W) (ifindex : Z) (hook : TcHook)
    (loaded : LoadedTc) (priority : Z) (created : bool) (error : TcIoError)
    (Hadd : attach_exclusive w ifindex hook priority (tc_handle_for hook) (lt_program_fd loaded) = (w1, Ok tt))
    (Hquery : tc_query w1 ifindex = (w2, Err error)) :
  attach_filter w ifindex hook loaded priority created
    = (w2, Err (mkTcError TC_VERIFY_FAILED "TC identity could not be verified after attach"
                  (Some TcRetainedUnknownState))) ∧
  tc_log w2 = tc_log w ++ [FilterAdded ifindex hook priority (tc_handle_for hook) (lt_program_fd loaded)] ∧
  ∀ rollback, tc_port_error (mkTcError TC_VERIFY_FAILED "TC identity could not be verified after attach" rollback)
              = CodedAdapter TC_VERIFY_FAILED "TC identity could not be verified after attach".
Proof.
  pose proof (attach_logs w ifindex hook priority (tc_handle_for hook) (lt_program_fd loaded)) as Hlog.
  unfold attach_filter, verify_attached, logs in *. rewrite Hadd in *. cbn in *. rewrite Hquery.
  pose proof (query_logs w1 ifindex) as Hlog'. rewrite Hquery in Hlog'. cbn in Hlog'.
  split_and!; [done|congruence|done].
Qed.

(** An unverified filter is left behind without evidence: when the query after
    an exclusive creation fails, the attachment transaction ends with an error whose
    cleanup evidence is empty, as if everything had been undone, while the filter
    it added is still on the interface. *)
Lemma unverified_filter_unreported :
  let out := execute (TcExample.transaction [true; true; false]) Scripted.name Scripted.run_id 1 in
  (∃ error, out.2 = Err error ∧ ae_code error = TC_VERIFY_FAILED ∧ ae_cleanup_evidence error = []) ∧
  tc_left [] (tc_log (TcExample.both_tc (at_ports out.1)))
    = Some [LeftFilter 7 TcEgressHook 49601 TC_EGRESS_HANDLE].
Proof. split; [eexists; split; [vm_compute; reflexivity|by vm_compute]|by vm_compute]. Qed.
