(* ===== verification/TcNetlink.v ===== *)
(** The netlink half of the traffic-control adapter ([linux/tc.rs]): the messages it
    writes, the inventory it reads out of a dump, and [RtnetlinkTcIo], which
    implements [TcIo] over netlink requests.

    The message types and constants of the netlink crates are reduced to what the
    source uses of them; their conversions and constants are parameters. *)
From S2P Require Import Prelude Ownership Attach Tc.

(** ** Messages of the netlink crates *)
Record TcHandle : Type := mkTcHandle { th_major : Z; th_minor : Z }.

#[export] Instance TcHandle_eq_dec : EqDecision TcHandle.
Proof. solve_decision. Defined.

Inductive TcBpfOption : Type :=
| ProgFd (fd : Z) | ProgName (name : string) | DirectActionFlag | ProgId (id : Z) | OtherBpfOption.

Inductive TcOption : Type := BpfOption (o : TcBpfOption) | OtherOption.

Inductive TcAttribute : Type := Kind (kind : string) | Options (options : list TcOption) | OtherAttribute.

Record TcMessage : Type := mkTcMessage {
  tm_index : Z;
  tm_handle : TcHandle;
  tm_parent : TcHandle;
  tm_info : Z;
  tm_attributes : list TcAttribute;
}.

Class TcConstants : Type := {
  u32_of_handle : TcHandle → Z;
  handle_of_u32 : Z → TcHandle;
  CLSACT : TcHandle;
  MIN_INGRESS : Z;
  MIN_EGRESS : Z;
  NLM_F_REQUEST : Z;
  NLM_F_ACK : Z;
  NLM_F_CREATE : Z;
  NLM_F_EXCL : Z;
  EEXIST : Z;
}.

(** A handle is its major number over its minor number. *)
Class TcConstantsSpec `{TcConstants} : Type := {
  u32_of_handle_spec major minor : u32_of_handle (mkTcHandle major minor) = major * 0x10000 + minor;
  handle_of_u32_spec value : 0 <= value <= U32_MAX → u32_of_handle (handle_of_u32 value) = value;
  hooks_differ : MIN_INGRESS ≠ MIN_EGRESS;
}.

(** [as i32], [to_be] of a [u16] on a little-endian machine, and the high half of a
    [u32]. *)
Definition as_i32 (value : Z) : Z := if value <? 0x80000000 then value else value - 0x100000000.
Definition u16_to_be (value : Z) : Z := Z.lor (Z.shiftl (Z.land value 0xff) 8) (Z.shiftr value 8).
Definition high_u16 (value : Z) : Z := Z.land (Z.shiftr value 16) 0xffff.

Definition ETH_P_ALL : Z := 0x0003.

Section messages.
Context `{TcConstants}.

Definition attach_request_flags : Z :=
  Z.lor (Z.lor (Z.lor NLM_F_REQUEST NLM_F_ACK) NLM_F_CREATE) NLM_F_EXCL.

Definition parent_for (hook : TcHook) : TcHandle :=
  match hook with
  | TcIngress => mkTcHandle U16_MAX MIN_INGRESS
  | TcEgressHook => mkTcHandle U16_MAX MIN_EGRESS
  end.

Definition encode_clsact_request (ifindex : Z) : TcMessage :=
  mkTcMessage (as_i32 ifindex) (mkTcHandle U16_MAX 0) CLSACT 0 [Kind "clsact"].

Definition encode_filter_identity (ifindex : Z) (hook : TcHook) (priority handle : Z) : TcMessage :=
  mkTcMessage (as_i32 ifindex) (handle_of_u32 handle) (parent_for hook)
    (u32_of_handle (mkTcHandle priority (u16_to_be ETH_P_ALL))) [Kind "bpf"].

Definition with_options (message : TcMessage) (options : list TcOption) : TcMessage :=
  mkTcMessage (tm_index message) (tm_handle message) (tm_parent message) (tm_info message)
    (tm_attributes message ++ [Options options]).

Definition encode_attach_request (ifindex : Z) (hook : TcHook) (priority handle program_fd : Z) : TcMessage :=
  with_options (encode_filter_identity ifindex hook priority handle)
    [BpfOption (ProgFd (program_fd mod 0x100000000)); BpfOption (ProgName "l2_loop_tc"); BpfOption DirectActionFlag].

Definition encode_detach_request (identity : TcKernelIdentity) : TcMessage :=
  with_options (encode_filter_identity (tk_ifindex identity) (tk_hook identity) (tk_priority identity)
                  (tk_handle identity)) [].

(** *** Reading a dump *)
Definition is_clsact (ifindex : Z) (message : TcMessage) : bool :=
  (tm_index message =? as_i32 ifindex)
  && existsb (λ attribute, match attribute with Kind kind => bool_decide (kind = "clsact") | _ => false end)
       (tm_attributes message).

(** [ClsactAccumulator]: how many messages show clsact on the interface. *)
Definition clsact_observe (ifindex count : Z) (message : TcMessage) : Z :=
  if is_clsact ifindex message then count + 1 else count.

Definition clsact_finish (count : Z) : TcClsactState :=
  if count =? 0 then ClsactAbsent else if count =? 1 then ClsactPresent else ClsactUnknown.

Definition clsact_state (ifindex : Z) (messages : list TcMessage) : TcClsactState :=
  clsact_finish (fold_left (clsact_observe ifindex) messages 0).

Fixpoint find_kind (attributes : list TcAttribute) : option string :=
  match attributes with
  | [] => None
  | Kind kind :: _ => Some kind
  | _ :: attributes => find_kind attributes
  end.

Definition filter_kind (message : TcMessage) : option string := find_kind (tm_attributes message).

Definition has_options (message : TcMessage) : bool :=
  existsb (λ attribute, match attribute with Options _ => true | _ => false end) (tm_attributes message).

Definition backs_summary (message candidate : TcMessage) (priority : Z) (kind : string) : bool :=
  (tm_index candidate =? tm_index message)
  && bool_decide (tm_parent candidate = tm_parent message)
  && negb (u32_of_handle (tm_handle candidate) =? 0)
  && (high_u16 (tm_info candidate) =? priority)
  && bool_decide (filter_kind candidate = Some kind).

Definition is_backed_filter_summary (message : TcMessage) (messages : list TcMessage) (ifindex : Z)
    (hook : TcHook) : bool :=
  let priority := high_u16 (tm_info message) in
  match filter_kind message with
  | None => false
  | Some kind =>
      if negb (tm_index message =? as_i32 ifindex)
         || negb (bool_decide (tm_parent message = parent_for hook))
         || negb (u32_of_handle (tm_handle message) =? 0)
         || (priority =? 0)
         || has_options message
      then false
      else existsb (λ candidate, backs_summary message candidate priority kind) messages
  end.

Definition option_program_id (o : TcOption) : option Z :=
  match o with
  | BpfOption (ProgId id) => if id =? 0 then None else Some id
  | _ => None
  end.

Definition program_ids (message : TcMessage) : list Z :=
  omap option_program_id
    (flat_map (λ attribute, match attribute with Options options => options | _ => [] end) (tm_attributes message)).

Definition filter_slot (message : TcMessage) (ifindex : Z) (hook : TcHook) : TcFilterSlot :=
  if negb (tm_index message =? as_i32 ifindex) || negb (bool_decide (tm_parent message = parent_for hook))
  then SlotUnknown hook
  else
    let priority := high_u16 (tm_info message) in
    let filter_handle := u32_of_handle (tm_handle message) in
    if (priority =? 0) || (filter_handle =? 0) then SlotUnknown hook
    else
      match filter_kind message with
      | None => SlotUnknown hook
      | Some kind =>
          if negb (bool_decide (kind = "bpf")) then SlotOther hook priority filter_handle
          else
            match program_ids message with
            | [program_id] => SlotBpf (mkTcKernelIdentity ifindex hook priority filter_handle program_id)
            | _ => SlotUnknown hook
            end
      end.

Definition filter_slots_from_messages (ifindex : Z) (hook : TcHook) (messages : list TcMessage) : list TcFilterSlot :=
  map (λ message, filter_slot message ifindex hook)
    (List.filter (λ message, negb (is_backed_filter_summary message messages ifindex hook)) messages).
End messages.

(** ** Requests *)
Inductive TcRequest : Type :=
| NewQdisc (message : TcMessage) | NewFilter (message : TcMessage)
| DeleteQdisc (message : TcMessage) | DeleteFilter (message : TcMessage).

Inductive NetlinkPayload : Type := PayloadError (errno : option Z) | PayloadOther.

(** Opening a connection, the two dumps with what they yield before they end or
    fail, and a request with its responses; [None] is a request that was not
    accepted. *)
Class Netlink (W : Type) : Type := {
  nl_open : W → W * bool;
  nl_qdiscs : W → Z → W * (list TcMessage * bool);
  nl_filters : W → Z → TcHook → W * (list TcMessage * bool);
  nl_request : W → TcRequest → Z → W * option (list NetlinkPayload);
}.

Definition tc_failed (message : string) : TcIoError := TcFailed message.

Section rtnetlink.
Context `{TcConstants} {W : Type} `{Netlink W}.

Definition netlink_error (errno : option Z) : TcIoError :=
  if bool_decide (errno = Some EEXIST) then TcExists else tc_failed "TC netlink operation failed".

Fixpoint first_error (responses : list NetlinkPayload) : result TcIoError unit :=
  match responses with
  | [] => Ok tt
  | PayloadError errno :: _ => Err (netlink_error errno)
  | PayloadOther :: responses => first_error responses
  end.

Definition send_request (w : W) (request : TcRequest) (flags : Z) : W * result TcIoError unit :=
  match nl_open w with
  | (w, false) => (w, Err (tc_failed "failed to open TC netlink operation"))
  | (w, true) =>
      match nl_request w request flags with
      | (w, None) => (w, Err (tc_failed "TC netlink request failed"))
      | (w, Some responses) => (w, first_error responses)
      end
  end.

Definition query_filters (w : W) (ifindex : Z) (hook : TcHook) : W * result TcIoError (list TcFilterSlot) :=
  match nl_filters w (as_i32 ifindex) hook with
  | (w, (raw, true)) => (w, Ok (filter_slots_from_messages ifindex hook raw))
  | (w, (_, false)) => (w, Err (tc_failed "failed to query TC filter state"))
  end.

Definition query_inventory (w : W) (ifindex : Z) : W * result TcIoError TcInventory :=
  match nl_open w with
  | (w, false) => (w, Err (tc_failed "failed to open TC state query"))
  | (w, true) =>
      match nl_qdiscs w (as_i32 ifindex) with
      | (w, (_, false)) => (w, Err (tc_failed "failed to query TC qdisc state"))
      | (w, (qdiscs, true)) =>
          let clsact := clsact_state ifindex qdiscs in
          if negb (bool_decide (clsact = ClsactPresent)) then (w, Ok (TcInventory_empty clsact))
          else
            match query_filters w ifindex TcIngress with
            | (w, Err error) => (w, Err error)
            | (w, Ok filters) =>
                match query_filters w ifindex TcEgressHook with
                | (w, Err error) => (w, Err error)
                | (w, Ok egress) => (w, Ok (mkTcInventory clsact (filters ++ egress)))
                end
            end
      end
  end.

Definition rt_detach_exact (w : W) (identity : TcKernelIdentity) : W * result TcIoError unit :=
  match query_inventory w (tk_ifindex identity) with
  | (w, Err error) => (w, Err error)
  | (w, Ok current) =>
      let owned := mkOwnedTc (tk_ifindex identity) (tk_hook identity) (tk_priority identity)
                     (tk_handle identity) (tk_program_id identity) false in
      if negb (bool_decide (tc_classify_inventory current (tk_hook identity) (Some owned) = TcOwned))
      then (w, Err TcIdentityMismatch)
      else send_request w (DeleteFilter (encode_detach_request identity)) (Z.lor NLM_F_REQUEST NLM_F_ACK)
  end.

Definition rt_remove_clsact (w : W) (ifindex : Z) : W * result TcIoError unit :=
  match query_inventory w ifindex with
  | (w, Err error) => (w, Err error)
  | (w, Ok current) =>
      if negb (bool_decide (ti_clsact current = ClsactPresent)) || negb (bool_decide (ti_filters current = []))
      then (w, Err TcIdentityMismatch)
      else send_request w (DeleteQdisc (encode_clsact_request ifindex)) (Z.lor NLM_F_REQUEST NLM_F_ACK)
  end.

(** [RtnetlinkTcIo]. *)
#[global] Instance RtnetlinkTcIo : TcIo W := {|
  tc_query := query_inventory;
  ensure_clsact_exclusive w ifindex :=
    send_request w (NewQdisc (encode_clsact_request ifindex)) attach_request_flags;
  attach_exclusive w ifindex hook priority handle program_fd :=
    send_request w (NewFilter (encode_attach_request ifindex hook priority handle program_fd)) attach_request_flags;
  detach_exact_filter := rt_detach_exact;
  remove_clsact_if_empty_exact := rt_remove_clsact;
|}.
End rtnetlink.

(** ** What an inventory shows *)
Section inventory.
Context `{TcConstantsSpec}.

Lemma high_u16_info priority low : 0 <= priority <= U16_MAX → 0 <= low <= U16_MAX →
  high_u16 (priority * 0x10000 + low) = priority.
Proof.
  unfold U16_MAX, high_u16. intros. rewrite Z.shiftr_div_pow2 by lia. change 0xffff with (Z.ones 16).
  rewrite Z.land_ones by lia. change (2 ^ 16) with 65536.
  rewrite Z.div_add_l, (Z.div_small low) by lia. rewrite Z.mod_small; lia.
Qed.

Lemma parent_for_inj hook hook' : parent_for hook = parent_for hook' → hook = hook'.
Proof. pose proof hooks_differ. destruct hook, hook'; cbn; congruence. Qed.

(** A slot that is not [Unknown] shows its message. *)
Lemma filter_slot_known message ifindex hook :
  is_unknown (filter_slot message ifindex hook) = false →
  slot_hook (filter_slot message ifindex hook) = hook ∧
  slot_priority (filter_slot message ifindex hook) = Some (high_u16 (tm_info message)) ∧
  slot_handle (filter_slot message ifindex hook) = Some (u32_of_handle (tm_handle message)).
Proof.
  unfold filter_slot. repeat (case_match; cbn; try done).
Qed.

Lemma backed_summary_spec message messages ifindex hook :
  is_backed_filter_summary message messages ifindex hook = true →
  u32_of_handle (tm_handle message) = 0 ∧
  ∃ candidate, candidate ∈ messages ∧ high_u16 (tm_info candidate) = high_u16 (tm_info message) ∧
               u32_of_handle (tm_handle candidate) ≠ 0.
Proof.
  unfold is_backed_filter_summary. destruct (filter_kind message) as [kind|]; [|done].
  destruct (_ || _)%bool eqn:Hg; [done|]. rewrite !orb_false_iff in Hg.
  intros (candidate & Hin & Hb)%existsb_exists. unfold backs_summary in Hb. rewrite !andb_true_iff in Hb.
  split; [lia|]. exists candidate. split; [by apply list_elem_of_In|]. lia.
Qed.

Lemma backed_by_itself message messages ifindex hook :
  u32_of_handle (tm_handle message) ≠ 0 → is_backed_filter_summary message messages ifindex hook = false.
Proof.
  intros Hh. apply not_true_iff_false. by intros [? _]%backed_summary_spec.
Qed.

Lemma concrete_slot message messages ifindex hook :
  message ∈ messages → is_backed_filter_summary message messages ifindex hook = false →
  filter_slot message ifindex hook ∈ filter_slots_from_messages ifindex hook messages.
Proof.
  intros Hin Hb. unfold filter_slots_from_messages. apply list_elem_of_In, (in_map (λ m, filter_slot m ifindex hook)), filter_In.
  rewrite Hb. by rewrite <-list_elem_of_In.
Qed.

(** Every message of the dump has its priority, and unless it is the summary of a
    concrete filter its handle, in a slot. *)
Lemma slots_cover messages message ifindex hook :
  message ∈ messages →
  Forall (λ slot, is_unknown slot = false) (filter_slots_from_messages ifindex hook messages) →
  ∃ slot, slot ∈ filter_slots_from_messages ifindex hook messages ∧ slot_hook slot = hook ∧
    slot_priority slot = Some (high_u16 (tm_info message)) ∧
    (u32_of_handle (tm_handle message) = 0 ∨ slot_handle slot = Some (u32_of_handle (tm_handle message))).
Proof.
  intros Hin Hall. rewrite Forall_forall in Hall.
  destruct (is_backed_filter_summary message messages ifindex hook) eqn:Hb.
  - apply backed_summary_spec in Hb as (Hz & candidate & Hin' & <- & Hc).
    pose proof (concrete_slot _ _ ifindex hook Hin' (backed_by_itself _ _ _ _ Hc)) as Hs.
    destruct (filter_slot_known candidate ifindex hook (Hall _ Hs)) as (? & ? & ?). eauto 8.
  - pose proof (concrete_slot _ _ ifindex hook Hin Hb) as Hs.
    destruct (filter_slot_known message ifindex hook (Hall _ Hs)) as (? & ? & ?). eauto 8.
Qed.
End inventory.

(** ** What is asked of the kernel

    The requests that were sent and acknowledged. *)
Definition acknowledges {W} (sent : W → list TcRequest) (w : W) (request : TcRequest)
    (out : W * option (list NetlinkPayload)) : Prop :=
  sent out.1 = match out.2 with
               | Some responses => if existsb (λ r, match r with PayloadError _ => true | _ => false end) responses
                                   then sent w else sent w ++ [request]
               | None => sent w
               end.

Class NetlinkSpec (W : Type) `{Netlink W} : Type := {
  nl_sent : W → list TcRequest;
  open_sent w : nl_sent (nl_open w).1 = nl_sent w;
  qdiscs_sent w ifindex : nl_sent (nl_qdiscs w ifindex).1 = nl_sent w;
  filters_sent w ifindex hook : nl_sent (nl_filters w ifindex hook).1 = nl_sent w;
  request_sent w request flags : acknowledges nl_sent w request (nl_request w request flags);
}.

Section requests.
Context `{TcConstants} {W : Type} `{NetlinkSpec W}.
Implicit Types (w : W).

Lemma first_error_spec responses :
  match first_error responses with
  | Ok _ => existsb (λ r, match r with PayloadError _ => true | _ => false end) responses = false
  | Err _ => existsb (λ r, match r with PayloadError _ => true | _ => false end) responses = true
  end.
Proof. induction responses as [|[errno|] responses IH]; cbn; [done|done|exact IH]. Qed.

Definition sends w (out : W * result TcIoError unit) (request : TcRequest) : Prop :=
  nl_sent out.1 = match out.2 with Ok _ => nl_sent w ++ [request] | Err _ => nl_sent w end.

Lemma send_request_sends w request flags : sends w (send_request w request flags) request.
Proof.
  unfold sends, send_request. pose proof (open_sent w) as Ho.
  destruct (nl_open w) as [w1 []]; cbn in Ho |- *; [|done].
  pose proof (request_sent w1 request flags) as Hr. unfold acknowledges in Hr.
  destruct (nl_request w1 request flags) as [w2 [responses|]]; cbn in Hr |- *; [|congruence].
  pose proof (first_error_spec responses) as Hf. destruct (first_error responses); rewrite Hf in Hr; congruence.
Qed.

Lemma query_filters_sent w ifindex hook : nl_sent (query_filters w ifindex hook).1 = nl_sent w.
Proof.
  unfold query_filters. pose proof (filters_sent w (as_i32 ifindex) hook).
  by destruct (nl_filters w (as_i32 ifindex) hook) as [w1 [raw []]].
Qed.

Lemma query_inventory_sent w ifindex : nl_sent (query_inventory w ifindex).1 = nl_sent w.
Proof.
  unfold query_inventory. pose proof (open_sent w) as Ho. destruct (nl_open w) as [w1 []]; cbn in *; [|done].
  pose proof (qdiscs_sent w1 (as_i32 ifindex)) as Hq.
  destruct (nl_qdiscs w1 (as_i32 ifindex)) as [w2 [qdiscs []]]; cbn in *; [|congruence].
  destruct (bool_decide _); cbn; [|congruence].
  pose proof (query_filters_sent w2 ifindex TcIngress) as Hi.
  destruct (query_filters w2 ifindex TcIngress) as [w3 [filters|]]; cbn in *; [|congruence].
  pose proof (query_filters_sent w3 ifindex TcEgressHook) as He.
  destruct (query_filters w3 ifindex TcEgressHook) as [w4 [egress|]]; cbn in *; congruence.
Qed.
End requests.

(** ** A concrete netlink *)
Module NetlinkExample.
#[global] Instance constants : TcConstants := {|
  u32_of_handle handle := th_major handle * 0x10000 + th_minor handle;
  handle_of_u32 value := mkTcHandle (value / 0x10000) (value mod 0x10000);
  CLSACT := mkTcHandle 0xffff 0xfff1;
  MIN_INGRESS := 0xfff2;
  MIN_EGRESS := 0xfff3;
  NLM_F_REQUEST := 1;
  NLM_F_ACK := 4;
  NLM_F_CREATE := 0x400;
  NLM_F_EXCL := 0x200;
  EEXIST := 17;
|}.

#[global] Instance constants_spec : TcConstantsSpec.
Proof.
  split; cbn; [done| |done]. intros value _. pose proof (Z.div_mod value 65536). lia.
Qed.

(** A foreign filter of the egress hook with its summary. *)
Definition summary : TcMessage := encode_filter_identity 7 TcEgressHook 49600 0.
Definition foreign : TcMessage :=
  with_options (encode_filter_identity 7 TcEgressHook 49600 5) [BpfOption (ProgId 42)].

(** A kernel that lists clsact without filters on every interface and accepts every
    request. *)
#[global] Instance netlink : Netlink (list TcRequest) := {|
  nl_open w := (w, true);
  nl_qdiscs w ifindex := (w, ([mkTcMessage ifindex (mkTcHandle 0xffff 0) CLSACT 0 [Kind "clsact"]], true));
  nl_filters w ifindex hook := (w, ([], true));
  nl_request w request flags := (w ++ [request], Some [PayloadOther]);
|}.

#[global] Instance netlink_spec : NetlinkSpec (list TcRequest).
Proof. by refine {| nl_sent := λ w, w |}. Defined.
End NetlinkExample.

(** ** Properties *)

(** C26: no filter is overlooked: when the inventory that is read out of the two
    filter dumps of an interface calls a slot of a hook free, then no message of
    that hook's dump, not even one in a form that the adapter does not understand,
    has the priority that is chosen or the reserved handle. *)
Theorem planned_slot_unused `{TcConstantsSpec} (ifindex : Z) (hook : TcHook) (clsact : TcClsactState)
    (ingress egress : list TcMessage) (priority : Z) (present : bool)
    (Hplan : tc_classify_inventory
       (mkTcInventory clsact (filter_slots_from_messages ifindex TcIngress ingress
                              ++ filter_slots_from_messages ifindex TcEgressHook egress)) hook None
     = TcEmpty priority present) :
  Forall (λ message, high_u16 (tm_info message) ≠ priority ∧
                     u32_of_handle (tm_handle message) ≠ tc_handle_for hook)
    (match hook with TcIngress => ingress | TcEgressHook => egress end).
Proof.
  pose proof (classify_spec (mkTcInventory clsact (filter_slots_from_messages ifindex TcIngress ingress
      ++ filter_slots_from_messages ifindex TcEgressHook egress)) hook None) as Hspec.
  rewrite Hplan in Hspec. destruct Hspec as ([_ Hknown]%has_unknown_false & _ & _ & _ & Hfree & Hhandle).
  cbn [ti_filters] in *. apply Forall_app in Hknown as [Hki Hke]. apply Forall_forall. intros message Hin.
  assert (∃ slot, slot ∈ filter_slots_from_messages ifindex TcIngress ingress
                         ++ filter_slots_from_messages ifindex TcEgressHook egress ∧ slot_hook slot = hook ∧
    slot_priority slot = Some (high_u16 (tm_info message)) ∧
    (u32_of_handle (tm_handle message) = 0 ∨ slot_handle slot = Some (u32_of_handle (tm_handle message))))
    as (slot & Hs & Hh & Hp & Hn).
  { destruct hook.
    - destruct (slots_cover _ _ ifindex TcIngress Hin Hki) as (slot & ? & ?). exists slot. set_solver.
    - destruct (slots_cover _ _ ifindex TcEgressHook Hin Hke) as (slot & ? & ?). exists slot. set_solver. }
  split.
  - intros Heq. apply (Hfree slot Hs Hh). by rewrite Hp, Heq.
  - intros Heq. destruct Hn as [Hz|Hn]; [rewrite Hz in Heq; by destruct hook|].
    apply (Hhandle slot Hs Hh). by rewrite Hn, Heq.
Qed.

Lemma planned_slot_unused_witness :
  Forall (λ message, high_u16 (tm_info message) ≠ 49601 ∧
                     u32_of_handle (tm_handle message) ≠ tc_handle_for TcEgressHook)
    [NetlinkExample.summary; NetlinkExample.foreign].
Proof.
  apply (planned_slot_unused 7 TcEgressHook ClsactPresent []
           [NetlinkExample.summary; NetlinkExample.foreign] 49601 true).
  vm_compute. reflexivity.
Defined.

(** A filter is found again as it was created: when the kernel lists the filter
    of an attach request with the identifier of its program, the slot that is read
    is the identity that the attachment expects. *)
Lemma attach_request_roundtrip `{TcConstantsSpec} (ifindex : Z) (hook : TcHook)
    (priority handle program_id : Z) (options : list TcOption)
    (Hpriority : 0 < priority <= U16_MAX) (Hhandle : 0 < handle <= U32_MAX) (Hid : 0 < program_id)
    (Hoptions : omap option_program_id options = [program_id]) :
  filter_slot (with_options (encode_filter_identity ifindex hook priority handle) options) ifindex hook
    = SlotBpf (mkTcKernelIdentity ifindex hook priority handle program_id).
Proof.
  unfold filter_slot. cbn [with_options encode_filter_identity tm_index tm_parent tm_info tm_handle].
  rewrite Z.eqb_refl, bool_decide_eq_true_2, u32_of_handle_spec, high_u16_info, handle_of_u32_spec by
    (done || (unfold U16_MAX, U32_MAX in *; cbn; lia)).
  cbn [negb orb]. destruct (Z.eqb_spec priority 0) as [|]; [lia|]. destruct (Z.eqb_spec handle 0); [lia|]. cbn [orb].
  cbn [filter_kind find_kind tm_attributes with_options encode_filter_identity app].
  rewrite bool_decide_eq_true_2 by done. cbn [negb]. unfold program_ids.
  cbn [tm_attributes with_options encode_filter_identity app flat_map]. by rewrite app_nil_r, Hoptions.
Qed.

Lemma attach_request_roundtrip_witness :
  filter_slot NetlinkExample.foreign 7 TcEgressHook = SlotBpf (mkTcKernelIdentity 7 TcEgressHook 49600 5 42).
Proof.
  apply (attach_request_roundtrip 7 TcEgressHook 49600 5 42 [BpfOption (ProgId 42)]);
    [unfold U16_MAX; lia|unfold U32_MAX; lia|lia|reflexivity].
Defined.

(** The netlink adapter asks the kernel for what [TcIo] promises and for
    nothing else: queries send no request; a creation or removal that succeeds sent
    one exclusive request for its exact identity, one that fails changed nothing;
    and a filter is deleted only after a dump showed the whole identity to be the
    one owned, clsact only after a dump showed it to be empty. *)
Lemma rtnetlink_requests `{TcConstants} {W : Type} `{NetlinkSpec W} (w : W) (ifindex : Z) (hook : TcHook)
    (priority handle fd : Z) (identity : TcKernelIdentity) :
  nl_sent (tc_query w ifindex).1 = nl_sent w ∧
  sends w (ensure_clsact_exclusive w ifindex) (NewQdisc (encode_clsact_request ifindex)) ∧
  sends w (attach_exclusive w ifindex hook priority handle fd)
    (NewFilter (encode_attach_request ifindex hook priority handle fd)) ∧
  sends w (detach_exact_filter w identity) (DeleteFilter (encode_detach_request identity)) ∧
  (∀ w', detach_exact_filter w identity = (w', Ok tt) →
     ∃ w1 inventory, query_inventory w (tk_ifindex identity) = (w1, Ok inventory) ∧
       ti_clsact inventory = ClsactPresent ∧ SlotBpf identity ∈ ti_filters inventory) ∧
  sends w (remove_clsact_if_empty_exact w ifindex) (DeleteQdisc (encode_clsact_request ifindex)) ∧
  (∀ w', remove_clsact_if_empty_exact w ifindex = (w', Ok tt) →
     ∃ w1, query_inventory w ifindex = (w1, Ok (mkTcInventory ClsactPresent []))).
Proof.
  cbn [tc_query ensure_clsact_exclusive attach_exclusive detach_exact_filter remove_clsact_if_empty_exact RtnetlinkTcIo].
  split_and!; [apply query_inventory_sent|apply send_request_sends..| | | |].
  - unfold rt_detach_exact. pose proof (query_inventory_sent w (tk_ifindex identity)) as Hq.
    destruct (query_inventory w (tk_ifindex identity)) as [w1 [current|error]]; cbn in Hq; [|done].
    destruct (bool_decide _); [|done]. unfold sends. cbn [negb]. rewrite <-Hq. apply send_request_sends.
  - unfold rt_detach_exact. intros w'.
    destruct (query_inventory w (tk_ifindex identity)) as [w1 [current|error]]; [|done].
    destruct (bool_decide _) eqn:Hc; [|done]. intros _. apply bool_decide_eq_true in Hc.
    exists w1, current. split; [done|].
    match type of Hc with tc_classify_inventory ?i ?h ?o = _ => pose proof (classify_spec i h o) as Hs end.
    rewrite Hc in Hs. destruct Hs as (? & record & Heq & Hin & _). injection Heq as <-. by destruct identity.
  - unfold rt_remove_clsact. pose proof (query_inventory_sent w ifindex) as Hq.
    destruct (query_inventory w ifindex) as [w1 [current|error]]; cbn in Hq; [|done].
    destruct (_ || _)%bool; [done|]. unfold sends. rewrite <-Hq. apply send_request_sends.
  - unfold rt_remove_clsact. intros w'. destruct (query_inventory w ifindex) as [w1 [[clsact filters]|error]]; [|done].
    cbn [ti_clsact ti_filters]. destruct (bool_decide (clsact = _)) eqn:Hp; [|done].
    destruct (bool_decide (filters = _)) eqn:He; [|done]. apply bool_decide_eq_true in Hp, He. subst. by exists w1.
Qed.

Lemma rtnetlink_requests_witness :
  ∃ w1, query_inventory ([] : list TcRequest) 7 = (w1, Ok (mkTcInventory ClsactPresent [])).
Proof.
  destruct (rtnetlink_requests ([] : list TcRequest) 7 TcEgressHook 49600 TC_EGRESS_HANDLE 4
              (mkTcKernelIdentity 7 TcEgressHook 49600 5 42)) as (_ & _ & _ & _ & _ & _ & Hremove).
  eapply Hremove. vm_compute. reflexivity.
Defined.
