(* ===== verification/Xdp.v ===== *)
(** The XDP adapter of [l2-loop-agent] ([linux/xdp.rs]): the inventory read out of a
    link message, the requests written, and [SafeXdp], which attaches, verifies and
    detaches one program without ever replacing another. *)
From S2P Require Import Prelude Ownership Attach.

(** ** Identities ([ownership.rs]) *)
Record XdpKernelIdentity : Type := mkXdpKernelIdentity {
  xk_ifindex : Z;
  xk_mode : XdpAttachMode;
  xk_program_id : Z;
  xk_program_tag : vec Z 8;
  xk_link_id : option Z;
}.

#[export] Instance XdpKernelIdentity_eq_dec : EqDecision XdpKernelIdentity.
Proof. solve_decision. Defined.

(** [XdpKernelIdentity::from(OwnedXdp)]. *)
Definition xdp_identity (value : OwnedXdp) : XdpKernelIdentity :=
  mkXdpKernelIdentity (ox_ifindex value) (ox_mode value) (ox_program_id value) (ox_program_tag value)
    (ox_link_id value).

Definition xdp_matches (self : OwnedXdp) (current : XdpKernelIdentity) : bool :=
  bool_decide (xdp_identity self = current).

(** ** Inventory *)
Inductive XdpSlot : Type := XdpSlotEmpty | XdpSlotAttached (identity : XdpKernelIdentity) | XdpSlotUnknown.

#[export] Instance XdpSlot_eq_dec : EqDecision XdpSlot.
Proof. solve_decision. Defined.

Record XdpInventory : Type := mkXdpInventory { xi_native : XdpSlot; xi_generic : XdpSlot }.

Definition xdp_slot (self : XdpInventory) (mode : XdpAttachMode) : XdpSlot :=
  match mode with XdpNative => xi_native self | XdpGeneric => xi_generic self end.

Inductive XdpState : Type := XdpEmpty | XdpOwned | XdpForeign | XdpUnknown.

#[export] Instance XdpState_eq_dec : EqDecision XdpState.
Proof. solve_decision. Defined.

Definition slot_identity (slot : XdpSlot) : option XdpKernelIdentity :=
  match slot with XdpSlotAttached identity => Some identity | XdpSlotEmpty | XdpSlotUnknown => None end.

Definition xdp_classify_inventory (inventory : XdpInventory) (owned : option OwnedXdp) : XdpState :=
  let slots := [xi_native inventory; xi_generic inventory] in
  if bool_decide (XdpSlotUnknown ∈ slots) then XdpUnknown
  else
    match omap slot_identity slots with
    | [] => XdpEmpty
    | [first] =>
        if match owned with Some record => xdp_matches record first | None => false end
        then XdpOwned else XdpForeign
    | _ :: _ :: _ => XdpForeign
    end.

(** ** The adapter *)
Inductive XdpIoError : Type := XdpExists | XdpFailed (message : string).

Class XdpIo (W : Type) : Type := {
  xdp_query : W → Z → W * result XdpIoError XdpInventory;
  xdp_attach_no_replace : W → Z → XdpAttachMode → Z → W * result XdpIoError unit;
  xdp_detach_if_matches : W → Z → XdpAttachMode → Z → W * result XdpIoError unit;
}.

Inductive XdpRollback : Type :=
| XdpRolledBack | XdpRollbackFailed | XdpRetainedIdentityMismatch | XdpRetainedUnknownState.

Inductive XdpDetachOutcome : Type := XdpDetached | XdpAlreadyAbsent | XdpDetachRetained.

Record XdpError : Type := mkXdpError { xe_code : string; xe_evidence : string; xe_rollback : option XdpRollback }.

Definition PF_XDP_STATE_UNKNOWN : string := "PF_XDP_STATE_UNKNOWN".
Definition PF_XDP_OCCUPIED : string := "PF_XDP_OCCUPIED".
Definition XDP_DETACH_FAILED : string := "XDP_DETACH_FAILED".

Definition XdpError_new (code evidence : string) : XdpError := mkXdpError code evidence None.
Definition xdp_verification (evidence : string) (rollback : XdpRollback) : XdpError :=
  mkXdpError XDP_VERIFY_FAILED evidence (Some rollback).
Definition xdp_unknown_state : XdpError :=
  XdpError_new PF_XDP_STATE_UNKNOWN "XDP state could not be determined safely".

Section safe_xdp.
Context {W : Type} `{XdpIo W}.

Definition xdp_query_or_unknown (w : W) (ifindex : Z) : W * result XdpError XdpInventory :=
  let '(w, res) := xdp_query w ifindex in (w, map_err (λ _, xdp_unknown_state) res).

Definition xdp_rollback (w : W) (after : XdpInventory) (ifindex : Z) (mode : XdpAttachMode) (loaded : LoadedXdp)
    : W * XdpRollback :=
  match xdp_slot after mode with
  | XdpSlotAttached current =>
      if xk_program_id current =? lx_program_id loaded then
        match xdp_detach_if_matches w ifindex mode (lx_program_id loaded) with
        | (w, Ok _) => (w, XdpRolledBack)
        | (w, Err _) => (w, XdpRollbackFailed)
        end
      else (w, XdpRetainedIdentityMismatch)
  | XdpSlotUnknown => (w, XdpRetainedUnknownState)
  | XdpSlotEmpty => (w, XdpRetainedIdentityMismatch)
  end.

Definition xdp_verify_attached (w : W) (ifindex : Z) (mode : XdpAttachMode) (loaded : LoadedXdp)
    : W * result XdpError OwnedXdp :=
  match xdp_query w ifindex with
  | (w, Err _) => (w, Err (xdp_verification "XDP identity could not be verified after attach" XdpRetainedUnknownState))
  | (w, Ok after) =>
      let owned := mkOwnedXdp ifindex mode (lx_program_id loaded) (lx_program_tag loaded) None in
      if bool_decide (xdp_classify_inventory after (Some owned) = XdpOwned) then (w, Ok owned)
      else
        let '(w, rollback) := xdp_rollback w after ifindex mode loaded in
        (w, Err (xdp_verification "post-attach XDP identity did not match the loaded program" rollback))
  end.

Definition xdp_attach (w : W) (ifindex : Z) (mode : XdpAttachMode) (loaded : LoadedXdp)
    : W * result XdpError OwnedXdp :=
  match xdp_query_or_unknown w ifindex with
  | (w, Err error) => (w, Err error)
  | (w, Ok before) =>
      match xdp_classify_inventory before None with
      | XdpForeign | XdpOwned => (w, Err (XdpError_new PF_XDP_OCCUPIED "an XDP hook is already occupied"))
      | XdpUnknown => (w, Err xdp_unknown_state)
      | XdpEmpty =>
          match xdp_attach_no_replace w ifindex mode (lx_program_fd loaded) with
          | (w, Err XdpExists) =>
              (w, Err (XdpError_new PF_XDP_OCCUPIED "atomic XDP no-replace attach found an occupied hook"))
          | (w, Err (XdpFailed _)) => (w, Err (XdpError_new XDP_ATTACH_FAILED "atomic XDP no-replace attach failed"))
          | (w, Ok _) => xdp_verify_attached w ifindex mode loaded
          end
      end
  end.

Definition xdp_detach (w : W) (owned : OwnedXdp) : W * result XdpError XdpDetachOutcome :=
  match xdp_query_or_unknown w (ox_ifindex owned) with
  | (w, Err error) => (w, Err error)
  | (w, Ok current) =>
      match xdp_classify_inventory current (Some owned) with
      | XdpEmpty => (w, Ok XdpAlreadyAbsent)
      | XdpOwned =>
          match xdp_detach_if_matches w (ox_ifindex owned) (ox_mode owned) (ox_program_id owned) with
          | (w, Ok _) => (w, Ok XdpDetached)
          | (w, Err _) =>
              (w, Err (XdpError_new XDP_DETACH_FAILED "atomic owned XDP detach failed without broad cleanup"))
          end
      | XdpForeign => (w, Ok XdpDetachRetained)
      | XdpUnknown => (w, Err xdp_unknown_state)
      end
  end.

Definition xdp_verify (w : W) (owned : OwnedXdp) : W * result XdpError unit :=
  match xdp_query_or_unknown w (ox_ifindex owned) with
  | (w, Err error) => (w, Err error)
  | (w, Ok current) =>
      (w, match xdp_classify_inventory current (Some owned) with
          | XdpOwned => Ok tt
          | XdpEmpty | XdpForeign =>
              Err (XdpError_new XDP_VERIFY_FAILED "current XDP identity does not match the owned link")
          | XdpUnknown => Err xdp_unknown_state
          end)
  end.

(** ** The port ([SafeXdpPort] for [SafeXdp]) *)
Definition xdp_port_error (error : XdpError) : PortError := Adapter (xe_code error ++ ": " ++ xe_evidence error).

Definition safe_xdp_attach_no_replace (w : W) (ifindex : Z) (mode : XdpAttachMode) (loaded : LoadedXdp)
    : W * result PortError OwnedXdp :=
  let '(w, res) := xdp_attach w ifindex mode loaded in (w, map_err xdp_port_error res).

Definition safe_xdp_verify_exact (w : W) (owned : OwnedXdp) : W * result PortError unit :=
  let '(w, res) := xdp_verify w owned in (w, map_err xdp_port_error res).

Definition safe_xdp_detach_exact (w : W) (owned : OwnedXdp) : W * result PortError unit :=
  match xdp_detach w owned with
  | (w, Err error) => (w, Err (xdp_port_error error))
  | (w, Ok (XdpDetached | XdpAlreadyAbsent)) => (w, Ok tt)
  | (w, Ok XdpDetachRetained) => (w, Err (Adapter "owned XDP identity changed; link was retained"))
  end.
End safe_xdp.

(** ** Link messages

    The attributes of the netlink crate, reduced to those the source reads or
    writes. *)
Inductive XdpAttached : Type :=
| AttachedNone | AttachedDriver | AttachedSocketBuffer | AttachedHardware | AttachedMultiple | AttachedOther.

Inductive LinkXdp : Type :=
| XdpFd (fd : Z)
| XdpAttachedAs (attached : XdpAttached)
| XdpFlags (flags : Z)
| XdpProgId (id : Z)
| XdpDrvProgId (id : Z)
| XdpSkbProgId (id : Z)
| XdpHwProgId (id : Z)
| XdpExpectedFd (fd : Z).

Inductive LinkAttribute : Type := LinkXdpAttribute (values : list LinkXdp) | OtherLinkAttribute.

Record LinkMessage : Type := mkLinkMessage { lm_index : Z; lm_attributes : list LinkAttribute }.

Definition XDP_FLAGS_UPDATE_IF_NOEXIST : Z := 1.
Definition XDP_FLAGS_SKB_MODE : Z := 2.
Definition XDP_FLAGS_DRV_MODE : Z := 4.

Definition mode_flags (mode : XdpAttachMode) : Z :=
  match mode with XdpNative => XDP_FLAGS_DRV_MODE | XdpGeneric => XDP_FLAGS_SKB_MODE end.

Definition xdp_encode_request (ifindex program_fd flags : Z) (expected_fd : option Z) : LinkMessage :=
  mkLinkMessage ifindex
    [LinkXdpAttribute ([XdpFd program_fd; XdpFlags flags]
       ++ match expected_fd with Some fd => [XdpExpectedFd (fd mod 0x100000000)] | None => [] end)].

Definition xdp_encode_attach_request (ifindex : Z) (mode : XdpAttachMode) (program_fd : Z) : LinkMessage :=
  xdp_encode_request ifindex program_fd (Z.lor (mode_flags mode) XDP_FLAGS_UPDATE_IF_NOEXIST) None.

Definition xdp_encode_detach_request (ifindex : Z) (mode : XdpAttachMode) (expected_fd : Z) : LinkMessage :=
  xdp_encode_request ifindex (-1) (mode_flags mode) (Some expected_fd).

(** What a message says of the programs, the last attribute of each kind. *)
Record XdpReading : Type := mkXdpReading {
  rd_attached : option XdpAttached;
  rd_program_id : option Z;
  rd_native_id : option Z;
  rd_generic_id : option Z;
  rd_hardware_id : option Z;
}.

Definition reading_start : XdpReading := mkXdpReading None None None None None.

Definition observe_value (r : XdpReading) (value : LinkXdp) : XdpReading :=
  let nonzero id previous := if id =? 0 then previous else Some id in
  match value with
  | XdpAttachedAs attached =>
      mkXdpReading (Some attached) (rd_program_id r) (rd_native_id r) (rd_generic_id r) (rd_hardware_id r)
  | XdpProgId id =>
      mkXdpReading (rd_attached r) (nonzero id (rd_program_id r)) (rd_native_id r) (rd_generic_id r) (rd_hardware_id r)
  | XdpDrvProgId id =>
      mkXdpReading (rd_attached r) (rd_program_id r) (nonzero id (rd_native_id r)) (rd_generic_id r) (rd_hardware_id r)
  | XdpSkbProgId id =>
      mkXdpReading (rd_attached r) (rd_program_id r) (rd_native_id r) (nonzero id (rd_generic_id r)) (rd_hardware_id r)
  | XdpHwProgId id =>
      mkXdpReading (rd_attached r) (rd_program_id r) (rd_native_id r) (rd_generic_id r) (nonzero id (rd_hardware_id r))
  | XdpFd _ | XdpFlags _ | XdpExpectedFd _ => r
  end.

Definition message_values (message : LinkMessage) : list LinkXdp :=
  flat_map (λ attribute, match attribute with LinkXdpAttribute values => values | OtherLinkAttribute => [] end)
    (lm_attributes message).

Definition read_message (message : LinkMessage) : XdpReading :=
  foldl observe_value reading_start (message_values message).

(** [program_tag], a system call, is a function of the program while a message is
    read. *)
Definition slot_from_program (program_tag : Z → option (vec Z 8)) (ifindex : Z) (mode : XdpAttachMode)
    (id : option Z) : XdpSlot :=
  match id with
  | None => XdpSlotEmpty
  | Some program_id =>
      match program_tag program_id with
      | Some tag => XdpSlotAttached (mkXdpKernelIdentity ifindex mode program_id tag None)
      | None => XdpSlotUnknown
      end
  end.

Definition inventory_from_message (program_tag : Z → option (vec Z 8)) (message : LinkMessage) : XdpInventory :=
  let r := read_message message in
  let slot := slot_from_program program_tag (lm_index message) in
  let unknown := mkXdpInventory XdpSlotUnknown XdpSlotUnknown in
  if bool_decide (rd_hardware_id r ≠ None) then unknown
  else
    let native := slot XdpNative (rd_native_id r) in
    let generic := slot XdpGeneric (rd_generic_id r) in
    match rd_attached r, rd_native_id r, rd_generic_id r with
    | Some AttachedDriver, None, _ => mkXdpInventory (slot XdpNative (rd_program_id r)) generic
    | Some AttachedSocketBuffer, _, None => mkXdpInventory native (slot XdpGeneric (rd_program_id r))
    | Some AttachedMultiple, native_id, generic_id =>
        mkXdpInventory (match native_id with None => XdpSlotUnknown | Some _ => native end)
                       (match generic_id with None => XdpSlotUnknown | Some _ => generic end)
    | Some (AttachedHardware | AttachedOther), _, _ => unknown
    | None, None, None =>
        match rd_program_id r with Some _ => unknown | None => mkXdpInventory native generic end
    | _, _, _ => mkXdpInventory native generic
    end.

(** ** Netlink

    Opening a connection; the first link message of a query, with its failure; the
    acknowledgement of a request, or its error number; the descriptor of a program
    by its identifier; the tag of a program. *)
Class LinkNetlink (W : Type) : Type := {
  link_open : W → W * bool;
  link_get : W → Z → W * option (option LinkMessage);
  link_set : W → LinkMessage → W * result (option Z) unit;
  program_fd_by_id : W → Z → W * option Z;
  program_tag : W → Z → option (vec Z 8);
  LINK_EEXIST : Z;
}.

Definition xdp_failed (message : string) : XdpIoError := XdpFailed message.

Section rtnetlink.
Context {W : Type} `{LinkNetlink W}.

Definition xdp_netlink_error (errno : option Z) : XdpIoError :=
  if bool_decide (errno = Some LINK_EEXIST) then XdpExists else xdp_failed "XDP netlink operation failed".

Definition run_set (w : W) (message : LinkMessage) : W * result XdpIoError unit :=
  match link_open w with
  | (w, false) => (w, Err (xdp_failed "failed to open XDP netlink operation"))
  | (w, true) => let '(w, res) := link_set w message in (w, map_err xdp_netlink_error res)
  end.

Definition rt_xdp_query (w : W) (ifindex : Z) : W * result XdpIoError XdpInventory :=
  match link_open w with
  | (w, false) => (w, Err (xdp_failed "failed to open XDP state query"))
  | (w, true) =>
      match link_get w ifindex with
      | (w, None) => (w, Err (xdp_failed "failed to query XDP state"))
      | (w, Some None) => (w, Err (xdp_failed "XDP target interface is missing"))
      | (w, Some (Some message)) =>
          if negb (lm_index message =? ifindex)
          then (w, Err (xdp_failed "XDP query returned a different interface"))
          else (w, Ok (inventory_from_message (program_tag w) message))
      end
  end.

Definition rt_xdp_detach (w : W) (ifindex : Z) (mode : XdpAttachMode) (expected_program_id : Z)
    : W * result XdpIoError unit :=
  match program_fd_by_id w expected_program_id with
  | (w, None) => (w, Err (xdp_failed "owned XDP program identity is no longer available"))
  | (w, Some expected_fd) => run_set w (xdp_encode_detach_request ifindex mode expected_fd)
  end.

(** [RtnetlinkXdpIo]. *)
#[global] Instance RtnetlinkXdpIo : XdpIo W := {|
  xdp_query := rt_xdp_query;
  xdp_attach_no_replace w ifindex mode program_fd := run_set w (xdp_encode_attach_request ifindex mode program_fd);
  xdp_detach_if_matches := rt_xdp_detach;
|}.
End rtnetlink.

(** ** Classification *)
Definition xdp_classified (inventory : XdpInventory) (owned : option OwnedXdp) (state : XdpState) : Prop :=
  match state with
  | XdpUnknown => ∃ mode, xdp_slot inventory mode = XdpSlotUnknown
  | XdpEmpty => ∀ mode, xdp_slot inventory mode = XdpSlotEmpty
  | XdpOwned => ∃ record mode, owned = Some record ∧ xdp_slot inventory mode = XdpSlotAttached (xdp_identity record) ∧
                  ∀ other, other ≠ mode → xdp_slot inventory other = XdpSlotEmpty
  | XdpForeign => ∃ mode identity, xdp_slot inventory mode = XdpSlotAttached identity
  end.

Lemma xdp_classify_spec inventory owned :
  xdp_classified inventory owned (xdp_classify_inventory inventory owned).
Proof.
  unfold xdp_classify_inventory. destruct inventory as [native generic]. cbn [xi_native xi_generic].
  case_bool_decide as Hu.
  - rewrite !elem_of_cons in Hu. destruct Hu as [<-|[<-|Hu]]; [by exists XdpNative|by exists XdpGeneric|].
    by apply not_elem_of_nil in Hu.
  - destruct native as [|nid|], generic as [|gid|]; try (destruct Hu; set_solver); cbn.
    + by intros [].
    + destruct owned as [record|]; cbn; [|by exists XdpGeneric, gid].
      destruct (xdp_matches record gid) eqn:Hm; [|by exists XdpGeneric, gid].
      apply bool_decide_eq_true in Hm as <-. exists record, XdpGeneric. split_and!; [done..|]. by intros [].
    + destruct owned as [record|]; cbn; [|by exists XdpNative, nid].
      destruct (xdp_matches record nid) eqn:Hm; [|by exists XdpNative, nid].
      apply bool_decide_eq_true in Hm as <-. exists record, XdpNative. split_and!; [done..|]. by intros [].
    + by exists XdpNative, nid.
Qed.

(** ** What a message shows *)
(** A nonzero program identifier anywhere in a message stays in the reading. *)
Definition mentions (message : LinkMessage) (value : LinkXdp) : Prop := value ∈ message_values message.

Lemma observe_keeps values r :
  (rd_program_id r ≠ None → rd_program_id (foldl observe_value r values) ≠ None) ∧
  (rd_native_id r ≠ None → rd_native_id (foldl observe_value r values) ≠ None) ∧
  (rd_generic_id r ≠ None → rd_generic_id (foldl observe_value r values) ≠ None) ∧
  (rd_hardware_id r ≠ None → rd_hardware_id (foldl observe_value r values) ≠ None).
Proof.
  revert r. induction values as [|value values IH]; intros r; [done|]. cbn [foldl].
  destruct (IH (observe_value r value)) as (H1 & H2 & H3 & H4).
  split_and!; intros Hr; [apply H1|apply H2|apply H3|apply H4]; destruct value; cbn; try done; by case_match.
Qed.

Lemma read_mentions message id :
  id ≠ 0 →
  (mentions message (XdpProgId id) → rd_program_id (read_message message) ≠ None) ∧
  (mentions message (XdpDrvProgId id) → rd_native_id (read_message message) ≠ None) ∧
  (mentions message (XdpSkbProgId id) → rd_generic_id (read_message message) ≠ None) ∧
  (mentions message (XdpHwProgId id) → rd_hardware_id (read_message message) ≠ None).
Proof.
  intros Hid. unfold mentions, read_message.
  split_and!; intros (before & after & ->)%list_elem_of_split; rewrite foldl_app; cbn [foldl];
    apply observe_keeps; cbn; by destruct (Z.eqb_spec id 0).
Qed.

Lemma slot_from_program_empty tag ifindex mode id :
  slot_from_program tag ifindex mode id = XdpSlotEmpty ↔ id = None.
Proof. destruct id as [id|]; cbn; [|done]. by destruct (tag id). Qed.

(** ** What the adapter changes *)
Inductive XdpMutation : Type :=
| XdpAdded (ifindex : Z) (mode : XdpAttachMode) (fd : Z)
| XdpRemoved (ifindex : Z) (mode : XdpAttachMode) (program_id : Z).

Definition xdp_logs {W A} (log : W → list XdpMutation) (w : W) (out : W * result XdpIoError A)
    (mutation : XdpMutation) : Prop :=
  log out.1 = match out.2 with Ok _ => log w ++ [mutation] | Err _ => log w end.

Class XdpIoSpec (W : Type) `{XdpIo W} : Type := {
  xdp_log : W → list XdpMutation;
  xdp_query_logs w ifindex : xdp_log (xdp_query w ifindex).1 = xdp_log w;
  xdp_attach_logs w ifindex mode fd :
    xdp_logs xdp_log w (xdp_attach_no_replace w ifindex mode fd) (XdpAdded ifindex mode fd);
  xdp_detach_logs w ifindex mode program_id :
    xdp_logs xdp_log w (xdp_detach_if_matches w ifindex mode program_id) (XdpRemoved ifindex mode program_id);
}.

(** An inventory showed the interface without any program, or with the owned one
    alone. *)
Definition shown {W} `{XdpIo W} (ifindex : Z) (P : XdpInventory → Prop) : Prop :=
  ∃ w w' inventory, xdp_query w ifindex = (w', Ok inventory) ∧ P inventory.

Section xdp_facts.
Context {W : Type} `{XdpIoSpec W}.
Implicit Types (w : W).

Lemma xdp_query_or_unknown_log w ifindex :
  xdp_log (xdp_query_or_unknown w ifindex).1 = xdp_log w ∧
  match (xdp_query_or_unknown w ifindex).2 with
  | Ok inventory => xdp_query w ifindex = ((xdp_query_or_unknown w ifindex).1, Ok inventory)
  | Err error => error = xdp_unknown_state
  end.
Proof.
  unfold xdp_query_or_unknown. pose proof (xdp_query_logs w ifindex).
  by destruct (xdp_query w ifindex) as [w' [inventory|error]].
Qed.

(** How the changes of a failed verification follow from its rollback. *)
Definition xdp_left_by (ifindex : Z) (mode : XdpAttachMode) (loaded : LoadedXdp) (rollback : option XdpRollback)
    (changes : list XdpMutation) : Prop :=
  match rollback with
  | None => changes = []
  | Some XdpRolledBack =>
      changes = [XdpAdded ifindex mode (lx_program_fd loaded); XdpRemoved ifindex mode (lx_program_id loaded)]
  | Some (XdpRollbackFailed | XdpRetainedIdentityMismatch | XdpRetainedUnknownState) =>
      changes = [XdpAdded ifindex mode (lx_program_fd loaded)]
  end.

Lemma xdp_rollback_changes w after ifindex mode loaded :
  let out := xdp_rollback w after ifindex mode loaded in
  ∃ changes, xdp_log out.1 = xdp_log w ++ changes ∧
    xdp_left_by ifindex mode loaded (Some out.2) (XdpAdded ifindex mode (lx_program_fd loaded) :: changes).
Proof.
  cbv zeta. unfold xdp_rollback. pose proof (xdp_detach_logs w ifindex mode (lx_program_id loaded)) as Hd.
  unfold xdp_logs in Hd. destruct (xdp_slot after mode) as [|current|].
  - exists []. by rewrite app_nil_r.
  - destruct (_ =? _); [|exists []; by rewrite app_nil_r].
    destruct (xdp_detach_if_matches _ _ _ _) as [w1 [u|error]]; cbn in Hd.
    + by eexists.
    + exists []. by rewrite app_nil_r.
  - exists []. by rewrite app_nil_r.
Qed.
End xdp_facts.

(** ** The flags of a request

    The flag under which the kernel reads the expected descriptor of a request; the
    source does not name it. *)
Definition XDP_FLAGS_REPLACE_BIT : Z := 4.

Definition observe_flags (flags : Z) (value : LinkXdp) : Z := match value with XdpFlags f => f | _ => flags end.

Definition message_flags (message : LinkMessage) : Z := foldl observe_flags 0 (message_values message).

Definition is_expected (value : LinkXdp) : bool := match value with XdpExpectedFd _ => true | _ => false end.

Definition drop_expected (message : LinkMessage) : LinkMessage :=
  mkLinkMessage (lm_index message)
    (map (λ attribute, match attribute with
                       | LinkXdpAttribute values => LinkXdpAttribute (List.filter (negb ∘ is_expected) values)
                       | OtherLinkAttribute => OtherLinkAttribute
                       end) (lm_attributes message)).

Lemma message_values_drop message :
  message_values (drop_expected message) = List.filter (negb ∘ is_expected) (message_values message).
Proof.
  destruct message as [index attributes]. unfold message_values, drop_expected. cbn [lm_attributes].
  induction attributes as [|[values|] attributes IH]; cbn; [done| |done]. by rewrite IH, List.filter_app.
Qed.

Lemma message_flags_drop message : message_flags (drop_expected message) = message_flags message.
Proof.
  unfold message_flags. rewrite message_values_drop. generalize 0.
  induction (message_values message) as [|value values IH]; intros flags; [done|]. destruct value; cbn; apply IH.
Qed.

(** ** A concrete interface *)
Module XdpExample.

(** The native and generic slot of every interface, the changes so far, and which
    of the next calls succeed. *)
Record World : Type := mkWorld {
  xw_slots : XdpInventory;
  xw_log : list XdpMutation;
  xw_script : list bool;
}.

Definition tag : vec Z 8 := vreplicate 8 0.
Definition with_slot (slots : XdpInventory) (mode : XdpAttachMode) (slot : XdpSlot) : XdpInventory :=
  match mode with
  | XdpNative => mkXdpInventory slot (xi_generic slots)
  | XdpGeneric => mkXdpInventory (xi_native slots) slot
  end.

Definition step {A} (w : World) (slots : XdpInventory) (changes : list XdpMutation) (value : A)
    : World * result XdpIoError A :=
  if default true (head (xw_script w))
  then (mkWorld slots (xw_log w ++ changes) (tail (xw_script w)), Ok value)
  else (mkWorld (xw_slots w) (xw_log w) (tail (xw_script w)), Err (XdpFailed "scripted failure")).

(** Descriptor [fd] is of program [fd + 100]. *)
#[global] Instance io : XdpIo World := {|
  xdp_query w ifindex := step w (xw_slots w) [] (xw_slots w);
  xdp_attach_no_replace w ifindex mode fd :=
    match xdp_slot (xw_slots w) mode with
    | XdpSlotEmpty =>
        step w (with_slot (xw_slots w) mode
                  (XdpSlotAttached (mkXdpKernelIdentity ifindex mode (fd + 100) tag None)))
          [XdpAdded ifindex mode fd] tt
    | _ => (w, Err XdpExists)
    end;
  xdp_detach_if_matches w ifindex mode program_id :=
    match xdp_slot (xw_slots w) mode with
    | XdpSlotAttached identity =>
        if xk_program_id identity =? program_id
        then step w (with_slot (xw_slots w) mode XdpSlotEmpty) [XdpRemoved ifindex mode program_id] tt
        else (w, Err (XdpFailed "another program"))
    | _ => (w, Err (XdpFailed "no program"))
    end;
|}.

Lemma xdp_step_log {A} w slots changes (value : A) :
  xw_log (step w slots changes value).1
    = match (step w slots changes value).2 with Ok _ => xw_log w ++ changes | Err _ => xw_log w end.
Proof. unfold step. by destruct (default true _). Qed.

#[global] Instance io_spec : XdpIoSpec World.
Proof.
  refine {| xdp_log := xw_log |}; intros; cbn.
  - rewrite xdp_step_log, app_nil_r. by destruct (step _ _ _ _).2.
  - unfold xdp_logs. destruct (xdp_slot _ _); [apply xdp_step_log|done..].
  - unfold xdp_logs. destruct (xdp_slot _ _); [done| |done]. destruct (_ =? _); [apply xdp_step_log|done].
Defined.

Definition world (script : list bool) : World := mkWorld (mkXdpInventory XdpSlotEmpty XdpSlotEmpty) [] script.
Definition loaded : LoadedXdp := mkLoadedXdp 3 103 tag.

(** A kernel with one generic program that honours the expected descriptor only
    under [XDP_FLAGS_REPLACE]; descriptors are program identifiers. *)
Definition expects (values : list LinkXdp) (program : option Z) : bool :=
  forallb (λ value, match value with XdpExpectedFd fd => bool_decide (program = Some fd) | _ => true end) values.

Definition kernel_set (w : option Z) (message : LinkMessage) : option Z * result (option Z) unit :=
  if Z.testbit (message_flags message) XDP_FLAGS_REPLACE_BIT && negb (expects (message_values message) w)
  then (w, Err (Some 17)) else (None, Ok tt).

#[global] Instance kernel : LinkNetlink (option Z) := {|
  link_open w := (w, true);
  link_get w ifindex := (w, None);
  link_set := kernel_set;
  program_fd_by_id w id := (w, Some id);
  program_tag w id := Some tag;
  LINK_EEXIST := 17;
|}.

Lemma kernel_ignores w message :
  Z.testbit (message_flags message) XDP_FLAGS_REPLACE_BIT = false → kernel_set w message = kernel_set w (drop_expected message).
Proof. intros Hf. unfold kernel_set. by rewrite message_flags_drop, Hf. Qed.
End XdpExample.

(** ** Properties *)

(** [SafeXdp::attach] never replaces a program: it attaches at most once, and
    only after an inventory showed both modes of the interface empty; a success
    leaves exactly the owned program, and a failure leaves what its rollback says,
    nothing when it reports none or a completed one. *)
Lemma xdp_attach_outcome {W : Type} `{XdpIoSpec W} (w : W) (ifindex : Z) (mode : XdpAttachMode)
    (loaded : LoadedXdp) :
  let '(w', res) := xdp_attach w ifindex mode loaded in
  ∃ changes,
    xdp_log w' = xdp_log w ++ changes ∧
    (changes ≠ [] → shown ifindex (λ before, ∀ m, xdp_slot before m = XdpSlotEmpty)) ∧
    match res with
    | Ok owned =>
        owned = mkOwnedXdp ifindex mode (lx_program_id loaded) (lx_program_tag loaded) None ∧
        changes = [XdpAdded ifindex mode (lx_program_fd loaded)] ∧
        shown ifindex (λ after, ∃ m, xdp_slot after m = XdpSlotAttached (xdp_identity owned) ∧
                                     ∀ other, other ≠ m → xdp_slot after other = XdpSlotEmpty)
    | Err error => xdp_left_by ifindex mode loaded (xe_rollback error) changes
    end.
Proof.
  unfold xdp_attach. destruct (xdp_query_or_unknown_log w ifindex) as [Hlog Hq].
  destruct (xdp_query_or_unknown w ifindex) as [w1 [before|error]]; cbn [fst snd] in *.
  2: { exists []. rewrite app_nil_r. by subst. }
  pose proof (xdp_classify_spec before None) as Hc.
  destruct (xdp_classify_inventory before None); [|exists []; by rewrite app_nil_r..].
  assert (shown ifindex (λ before, ∀ m, xdp_slot before m = XdpSlotEmpty)) as Hempty by (by exists w, w1, before).
  pose proof (xdp_attach_logs w1 ifindex mode (lx_program_fd loaded)) as Ha. unfold xdp_logs in Ha.
  destruct (xdp_attach_no_replace _ _ _ _) as [w2 [u|error]]; cbn [fst snd] in Ha.
  2: { destruct error; exists []; rewrite app_nil_r; split_and!; congruence || done. }
  unfold xdp_verify_attached. pose proof (xdp_query_logs w2 ifindex) as Hlog'.
  destruct (xdp_query w2 ifindex) as [w3 [after|error]] eqn:Hq'; cbn [fst] in Hlog'.
  2: { eexists. split; [rewrite Hlog', Ha, Hlog; reflexivity|]. by split. }
  case_bool_decide as Hv.
  - eexists. split; [rewrite Hlog', Ha, Hlog; reflexivity|]. split_and!; [done..|].
    match type of Hv with xdp_classify_inventory ?i ?o = _ => pose proof (xdp_classify_spec i o) as Hs end.
    rewrite Hv in Hs. destruct Hs as (record & mode' & [= <-] & Hslot & Hother).
    exists w2, w3, after. split; [done|]. by exists mode'.
  - destruct (xdp_rollback_changes w3 after ifindex mode loaded) as (changes & Hl & Hby).
    destruct (xdp_rollback w3 after ifindex mode loaded) as [w4 rollback]. cbn [fst snd] in *.
    eexists. split; [rewrite Hl, Hlog', Ha, Hlog, <-app_assoc; reflexivity|]. by split.
Qed.

Lemma xdp_attach_outcome_witness :
  let w := XdpExample.world [true; true; false] in
  let '(w', res) := xdp_attach w 7 XdpGeneric XdpExample.loaded in
  ∃ changes, xdp_log w' = xdp_log w ++ changes ∧
    match res with
    | Ok _ => False
    | Err error => xe_rollback error = Some XdpRetainedUnknownState ∧
                   xdp_left_by 7 XdpGeneric XdpExample.loaded (xe_rollback error) changes
    end.
Proof.
  cbv zeta. pose proof (xdp_attach_outcome (XdpExample.world [true; true; false]) 7 XdpGeneric XdpExample.loaded) as Ho.
  assert (∃ error, (xdp_attach (XdpExample.world [true; true; false]) 7 XdpGeneric XdpExample.loaded).2 = Err error ∧
                   xe_rollback error = Some XdpRetainedUnknownState) as (error & Hres & Hr)
    by (eexists; split; [vm_compute; reflexivity|reflexivity]).
  destruct (xdp_attach (XdpExample.world [true; true; false]) 7 XdpGeneric XdpExample.loaded) as [w' res].
  cbn [snd] in Hres. subst res. destruct Ho as (changes & ? & _ & ?). by exists changes.
Defined.

(** [SafeXdp::detach] asks for the removal of the exact owned program or of
    none: only after an inventory showed it alone on the interface, and only by its
    mode and identifier. *)
Lemma xdp_detach_outcome {W : Type} `{XdpIoSpec W} (w : W) (owned : OwnedXdp) :
  let '(w', res) := xdp_detach w owned in
  ∃ changes,
    xdp_log w' = xdp_log w ++ changes ∧
    match res with
    | Ok XdpDetached =>
        changes = [XdpRemoved (ox_ifindex owned) (ox_mode owned) (ox_program_id owned)] ∧
        shown (ox_ifindex owned) (λ before, ∃ m, xdp_slot before m = XdpSlotAttached (xdp_identity owned) ∧
                                                 ∀ other, other ≠ m → xdp_slot before other = XdpSlotEmpty)
    | Ok XdpAlreadyAbsent => changes = [] ∧ shown (ox_ifindex owned) (λ before, ∀ m, xdp_slot before m = XdpSlotEmpty)
    | Ok XdpDetachRetained | Err _ => changes = []
    end.
Proof.
  unfold xdp_detach. destruct (xdp_query_or_unknown_log w (ox_ifindex owned)) as [Hlog Hq].
  destruct (xdp_query_or_unknown w (ox_ifindex owned)) as [w1 [current|error]]; cbn [fst snd] in *.
  2: { exists []. by rewrite app_nil_r. }
  pose proof (xdp_classify_spec current (Some owned)) as Hc.
  destruct (xdp_classify_inventory current (Some owned)); try (exists []; by rewrite app_nil_r).
  - exists []. rewrite app_nil_r. split_and!; [done..|]. by exists w, w1, current.
  - destruct Hc as (record & m & [= <-] & Hm & Hother).
    pose proof (xdp_detach_logs w1 (ox_ifindex owned) (ox_mode owned) (ox_program_id owned)) as Hd.
    unfold xdp_logs in Hd. destruct (xdp_detach_if_matches _ _ _ _) as [w2 [u|error]]; cbn [fst snd] in Hd.
    + eexists. split; [rewrite Hd, Hlog; reflexivity|]. split; [done|]. exists w, w1, current. split; [done|]. by exists m.
    + exists []. rewrite app_nil_r. split; [congruence|done].
Qed.

(** No program is overlooked: when the inventory read out of a link message is
    empty, the message names no driver, socket-buffer or hardware program, and names
    a program without a mode only if it says that none is attached. *)
Lemma xdp_inventory_complete (program_tag : Z → option (vec Z 8)) (message : LinkMessage) (id : Z)
    (Hid : id ≠ 0)
    (Hempty : xdp_classify_inventory (inventory_from_message program_tag message) None = XdpEmpty) :
  ¬ mentions message (XdpDrvProgId id) ∧ ¬ mentions message (XdpSkbProgId id) ∧
  ¬ mentions message (XdpHwProgId id) ∧
  (mentions message (XdpProgId id) → rd_attached (read_message message) = Some AttachedNone).
Proof.
  pose proof (xdp_classify_spec (inventory_from_message program_tag message) None) as Hs. rewrite Hempty in Hs.
  destruct (read_mentions message id Hid) as (Hp & Hn & Hg & Hh).
  pose proof (Hs XdpNative) as Hnative. pose proof (Hs XdpGeneric) as Hgeneric. clear Hs Hempty.
  unfold inventory_from_message in *. case_bool_decide as Hhw; [done|].
  assert (¬ mentions message (XdpHwProgId id)) as Hnohw by (intros Hm; exact (Hh Hm Hhw)). clear Hhw Hh.
  revert Hp Hn Hg Hnative Hgeneric.
  destruct (rd_attached (read_message message)) as [[]|], (rd_native_id (read_message message)) as [n|],
    (rd_generic_id (read_message message)) as [g|], (rd_program_id (read_message message)) as [p|];
    cbn; intros Hp Hn Hg Hnative Hgeneric; try done;
    repeat match goal with _ : context [program_tag ?x] |- _ => destruct (program_tag x); try done end;
    split_and!; try done; intros Hm; try done;
    first [by destruct (Hn Hm)|by destruct (Hg Hm)|by destruct (Hp Hm)].
Qed.

Lemma xdp_inventory_complete_witness :
  let message := mkLinkMessage 7 [OtherLinkAttribute; LinkXdpAttribute [XdpAttachedAs AttachedNone; XdpProgId 0]] in
  ¬ mentions message (XdpDrvProgId 42) ∧ ¬ mentions message (XdpSkbProgId 42) ∧
  ¬ mentions message (XdpHwProgId 42) ∧
  (mentions message (XdpProgId 42) → rd_attached (read_message message) = Some AttachedNone).
Proof.
  apply (xdp_inventory_complete (λ _, Some XdpExample.tag)); [lia|vm_compute; reflexivity].
Defined.

(** The detach request does not protect a program that came after the
    inventory: it carries an expected program, but not the flag [XDP_FLAGS_REPLACE]
    without which the kernel does not read it, so a kernel that ignores the expected
    descriptor then treats requests for any two programs alike. *)
Lemma detach_ignores_expected_program {W : Type} `{LinkNetlink W} (w w' : W) (ifindex : Z) (mode : XdpAttachMode)
    (expected other fd other_fd : Z)
    (Hkernel : ∀ w message, Z.testbit (message_flags message) XDP_FLAGS_REPLACE_BIT = false →
                 link_set w message = link_set w (drop_expected message))
    (Hexpected : program_fd_by_id w expected = (w', Some fd))
    (Hother : program_fd_by_id w other = (w', Some other_fd)) :
  xdp_detach_if_matches w ifindex mode expected = xdp_detach_if_matches w ifindex mode other.
Proof.
  cbn. unfold rt_xdp_detach, run_set. rewrite Hexpected, Hother.
  destruct (link_open w') as [w1 []]; [|done].
  rewrite (Hkernel w1 (xdp_encode_detach_request ifindex mode fd)) by (by destruct mode).
  by rewrite (Hkernel w1 (xdp_encode_detach_request ifindex mode other_fd)) by (by destruct mode).
Qed.

(** Program 55 is attached; detaching program 103 removes it. *)
Lemma detach_ignores_expected_program_witness :
  xdp_detach_if_matches (Some 55) 7 XdpGeneric 103 = (None, Ok tt) ∧
  xdp_detach_if_matches (Some 55) 7 XdpGeneric 103 = xdp_detach_if_matches (Some 55) 7 XdpGeneric 55.
Proof.
  split; [vm_compute; reflexivity|].
  apply (detach_ignores_expected_program (Some 55) (Some 55) 7 XdpGeneric 103 55 103 55);
    [exact XdpExample.kernel_ignores|reflexivity|reflexivity].
Defined.
