(* ===== verification/Maps.v ===== *)
(** The publisher of the eBPF maps ([l2-loop-agent], [linux/maps.rs]): the counters of
    a generation are created before its configuration activates them, and both are
    removed again; and what the packet programs make of those maps meanwhile. *)
From S2P Require Import Prelude Domain Text Packet FrameHash Fingerprint Ownership Attach Ebpf.

#[export] Instance LoadedXdp_eq_dec : EqDecision LoadedXdp.
Proof. solve_decision. Defined.
#[export] Instance LoadedTc_eq_dec : EqDecision LoadedTc.
Proof. solve_decision. Defined.
#[export] Instance LoadedBpfObject_eq_dec : EqDecision LoadedBpfObject.
Proof. solve_decision. Defined.
#[export] Instance InterfaceConfig_eq_dec : EqDecision InterfaceConfig.
Proof. solve_decision. Defined.

(** ** The calls of the eBPF library

    [HOOK_STATS] has a value per CPU.  [hook_stats_map] and [iface_config_map] are the
    lookup of a map by its name and its conversion to its type. *)
Inductive MapError : Type := KeyNotFound | MapFailure (error : string).

Definition map_error_to_string (error : MapError) : string :=
  match error with KeyNotFound => "key not found" | MapFailure error => error end.

Class AyaMaps (W : Type) : Type := {
  nr_cpus : W → W * result string nat;
  per_cpu_values : W → list CounterValue → result string (list CounterValue);
  hook_stats_map : W → option (result string unit);
  iface_config_map : W → option (result string unit);
  stats_insert : W → StatsKey → list CounterValue → Z → W * result MapError unit;
  stats_remove : W → StatsKey → W * result MapError unit;
  stats_get : W → StatsKey → W * result MapError (list CounterValue);
  config_insert : W → Z → InterfaceConfig → Z → W * result MapError unit;
  config_remove : W → Z → W * result MapError unit;
  config_get : W → Z → W * result MapError InterfaceConfig;
  debug_removals : list (result MapError unit) → string;
  debug_removal : result MapError unit → string;
  debug_config : result MapError InterfaceConfig → string;
}.

(** ** The runtime the loader and the publisher share ([linux/bpf_object.rs]) *)
(** The object's own handle is the world of [AyaMaps]; the pins and their directories
    are the loader's alone. *)
Record ActiveAyaObject : Type := mkActiveAyaObject {
  ao_loaded : LoadedBpfObject;
  ao_initialized : option (Z * Z);
  ao_published : option (Z * Z);
}.

(** The state behind the mutex, which a panic of its holder poisons. *)
Record AyaRuntime (W : Type) : Type := mkAyaRuntime {
  ay_world : W;
  ay_poisoned : bool;
  ay_active : option ActiveAyaObject;
}.
Arguments mkAyaRuntime {W} _ _ _.
Arguments ay_world {W} _.
Arguments ay_poisoned {W} _.
Arguments ay_active {W} _.

Definition adapter (message : string) : PortError := Adapter message.

Definition stats_keys (ifindex generation : Z) : list StatsKey :=
  vec_to_list (observation_keys generation ifindex hook_role.EXTERNAL_XDP_INGRESS)
  ++ vec_to_list (observation_keys generation ifindex hook_role.PHYSICAL_TC_EGRESS).

Definition verify_loaded (active requested : LoadedBpfObject) : result PortError unit :=
  if bool_decide (active = requested) then Ok tt else Err (adapter "loaded BPF object identity mismatch").

Section publisher.
Context {W : Type} `{AyaMaps W}.
Implicit Types (self : AyaRuntime W) (w : W).

Definition set_world self w : AyaRuntime W := mkAyaRuntime w (ay_poisoned self) (ay_active self).

(** The lock, and the active object if it is the one the caller loaded. *)
Definition with_active self (loaded : LoadedBpfObject)
    (k : ActiveAyaObject → AyaRuntime W * result PortError unit) : AyaRuntime W * result PortError unit :=
  if ay_poisoned self then (self, Err (adapter "Aya runtime lock is poisoned"))
  else
    match ay_active self with
    | None => (self, Err (adapter "no Aya object is active"))
    | Some active =>
        match verify_loaded (ao_loaded active) loaded with
        | Err error => (self, Err error)
        | Ok _ => k active
        end
    end.

(** A map that the active object has under its name and with its type. *)
Definition with_map self (name : string) (map : option (result string unit))
    (k : AyaRuntime W * result PortError unit) : AyaRuntime W * result PortError unit :=
  match map with
  | None => (self, Err (adapter ("validated " ++ name ++ " map disappeared")))
  | Some (Err error) => (self, Err (adapter ("invalid " ++ name ++ " map: " ++ error)))
  | Some (Ok _) => k
  end.

Fixpoint remove_keys w (keys : list StatsKey) : W * list (result MapError unit) :=
  match keys with
  | [] => (w, [])
  | key :: keys =>
      let '(w, removed) := stats_remove w key in
      let '(w, results) := remove_keys w keys in
      (w, removed :: results)
  end.

(** What was inserted is removed again, last first; the results are only reported. *)
Definition insertion_failed w (inserted : list StatsKey) (message : string) : W * result PortError unit :=
  let '(w, rollback) := remove_keys w (rev inserted) in
  (w, Err (adapter (message ++ "; rollback: " ++ debug_removals rollback))).

Fixpoint insert_keys w (cpu_count : nat) (inserted keys : list StatsKey) : W * result PortError unit :=
  match keys with
  | [] => (w, Ok tt)
  | key :: keys =>
      match per_cpu_values w (repeat (mkCounterValue 0 0) cpu_count) with
      | Err error => insertion_failed w inserted ("failed to allocate per-CPU counter values: " ++ error)
      | Ok values =>
          match stats_insert w key values BPF_NOEXIST with
          | (w, Err error) =>
              insertion_failed w inserted ("failed to initialize passive stats: " ++ map_error_to_string error)
          | (w, Ok _) => insert_keys w cpu_count (inserted ++ [key]) keys
          end
      end
  end.

Definition aya_initialize_dependent self (loaded : LoadedBpfObject) (ifindex generation : Z)
    : AyaRuntime W * result PortError unit :=
  if (ifindex =? 0) || (generation =? 0)
  then (self, Err (adapter "map initialization identity must be non-zero"))
  else
    with_active self loaded (λ active,
      if is_some (ao_initialized active) || is_some (ao_published active)
      then (self, Err (adapter "Aya maps are already initialized"))
      else
        let keys := stats_keys ifindex generation in
        match nr_cpus (ay_world self) with
        | (w, Err error) => (set_world self w, Err (adapter ("failed to query CPU count: " ++ error)))
        | (w, Ok cpu_count) =>
            with_map (set_world self w) "HOOK_STATS" (hook_stats_map w)
              (match insert_keys w cpu_count [] keys with
               | (w, Err error) => (set_world self w, Err error)
               | (w, Ok _) =>
                   (mkAyaRuntime w (ay_poisoned self)
                      (Some (mkActiveAyaObject (ao_loaded active) (Some (ifindex, generation))
                               (ao_published active))), Ok tt)
               end)
        end).

Definition published_config (ifindex generation : Z) : InterfaceConfig :=
  InterfaceConfig_new generation 0 ifindex agent_mode.OBSERVE hook_role.EXTERNAL_XDP_INGRESS
    vlan_visibility.UNKNOWN FINGERPRINT_SAMPLE_SHIFT.

Definition aya_publish_iface_config self (loaded : LoadedBpfObject) (ifindex generation : Z)
    : AyaRuntime W * result PortError unit :=
  with_active self loaded (λ active,
    if negb (bool_decide (ao_initialized active = Some (ifindex, generation))) || is_some (ao_published active)
    then (self, Err (adapter "dependent entries must match before IFACE_CONFIG publication"))
    else
      let config := published_config ifindex generation in
      with_map self "IFACE_CONFIG" (iface_config_map (ay_world self))
        (match config_insert (ay_world self) ifindex config BPF_NOEXIST with
         | (w, Err error) =>
             (set_world self w, Err (adapter ("failed to publish IFACE_CONFIG: " ++ map_error_to_string error)))
         | (w, Ok _) =>
             let '(w, verification) := config_get w ifindex in
             if match verification with Ok current => bool_decide (current = config) | Err _ => false end
             then (mkAyaRuntime w (ay_poisoned self)
                     (Some (mkActiveAyaObject (ao_loaded active) (ao_initialized active)
                              (Some (ifindex, generation)))), Ok tt)
             else
               let '(w, rollback) := config_remove w ifindex in
               (set_world self w,
                Err (adapter ("IFACE_CONFIG verification failed: " ++ debug_config verification
                              ++ "; rollback: " ++ debug_removal rollback)))
         end)).

(** The first key that cannot be read ends the check, the first that cannot be
    removed ends the removal. *)
Fixpoint requery_keys w (keys : list StatsKey) : W * result PortError unit :=
  match keys with
  | [] => (w, Ok tt)
  | key :: keys =>
      match stats_get w key with
      | (w, Err error) => (w, Err (adapter ("failed to requery HOOK_STATS: " ++ map_error_to_string error)))
      | (w, Ok _) => requery_keys w keys
      end
  end.

Fixpoint remove_each w (keys : list StatsKey) : W * result PortError unit :=
  match keys with
  | [] => (w, Ok tt)
  | key :: keys =>
      match stats_remove w key with
      | (w, Err error) => (w, Err (adapter ("failed to remove HOOK_STATS: " ++ map_error_to_string error)))
      | (w, Ok _) => remove_each w keys
      end
  end.

(** The removal of a published configuration. *)
Definition withdraw_config self (active : ActiveAyaObject) (ifindex generation : Z)
    : AyaRuntime W * result PortError unit :=
  with_map self "IFACE_CONFIG" (iface_config_map (ay_world self))
    (match config_get (ay_world self) ifindex with
     | (w, Err error) =>
         (set_world self w, Err (adapter ("failed to requery IFACE_CONFIG: " ++ map_error_to_string error)))
     | (w, Ok current) =>
         if negb (ic_interface_generation current =? generation) || negb (ic_logical_ifindex current =? ifindex)
         then (set_world self w, Err (adapter "fresh IFACE_CONFIG identity mismatch"))
         else
           match config_remove w ifindex with
           | (w, Err error) =>
               (set_world self w, Err (adapter ("failed to remove IFACE_CONFIG: " ++ map_error_to_string error)))
           | (w, Ok _) =>
               (mkAyaRuntime w (ay_poisoned self)
                  (Some (mkActiveAyaObject (ao_loaded active) (ao_initialized active) None)), Ok tt)
           end
     end).

(** The removal of the counters, after the configuration. *)
Definition withdraw_counters self (ifindex generation : Z)
    : AyaRuntime W * result PortError unit :=
  let keys := rev (stats_keys ifindex generation) in
  with_map self "HOOK_STATS" (hook_stats_map (ay_world self))
    (match requery_keys (ay_world self) keys with
     | (w, Err error) => (set_world self w, Err error)
     | (w, Ok _) =>
         match remove_each w keys with
         | (w, Err error) => (set_world self w, Err error)
         | (w, Ok _) =>
             (mkAyaRuntime w (ay_poisoned self)
                (option_map (λ active, mkActiveAyaObject (ao_loaded active) None (ao_published active))
                   (ay_active self)), Ok tt)
         end
     end).

Definition aya_rollback_initialized_exact self (loaded : LoadedBpfObject) (ifindex generation : Z)
    : AyaRuntime W * result PortError unit :=
  with_active self loaded (λ active,
    let identity := (ifindex, generation) in
    if negb (bool_decide (ao_initialized active = Some identity))
    then (self, Err (adapter "initialized map identity mismatch"))
    else if bool_decide (ao_published active = Some identity) then
      match withdraw_config self active ifindex generation with
      | (self, Err error) => (self, Err error)
      | (self, Ok _) => withdraw_counters self ifindex generation
      end
    else if is_some (ao_published active) then (self, Err (adapter "published map identity mismatch"))
    else withdraw_counters self ifindex generation).
End publisher.

(** ** The maps in the kernel, under traffic *)
Record KernelMaps : Type := mkKernelMaps {
  km_config : gmap Z InterfaceConfig;
  km_stats : gmap StatsKey (list CounterValue);
  km_fingerprints : gmap FingerprintKey FingerprintValue;
}.

(** What a program sees on its CPU, and what it leaves there. *)
Definition cpu_view (km : KernelMaps) (cpu : nat) : BpfMaps :=
  mkBpfMaps (km_config km) (omap (λ values, values !! cpu) (km_stats km)) (km_fingerprints km).

Definition write_back (km : KernelMaps) (cpu : nat) (m : BpfMaps) : KernelMaps :=
  mkKernelMaps (bm_iface_config m)
    (map_imap (λ key values, Some (match bm_hook_stats m !! key with
                                   | Some counter => <[cpu := counter]> values
                                   | None => values
                                   end)) (km_stats km))
    (bm_fingerprints m).

(** A world in which packets arrive at any time: [traffic] has the program runs so
    far, each with its CPU. *)
Class KernelWorld (W : Type) : Type := {
  lru_insert : gmap FingerprintKey FingerprintValue → FingerprintKey → FingerprintValue
               → gmap FingerprintKey FingerprintValue;
  cpus : nat;
  kernel_maps : W → KernelMaps;
  traffic : W → list (nat * ProgramRun);
  traffic_ok w : Forall (λ e, (e.1 < cpus)%nat ∧ run_ok e.2) (traffic w);
}.

Section kernel.
Context {W : Type} `{KernelWorld W}.
Implicit Types (w : W) (km : KernelMaps) (e : nat * ProgramRun) (runs : list (nat * ProgramRun)).

Definition run_on km e : KernelMaps :=
  match run_program lru_insert (cpu_view km e.1) e.2 with
  | Some (m, _) => write_back km e.1 m
  | None => km
  end.

Definition after km runs : KernelMaps := foldl run_on km runs.

(** A call: packets arrive, then it takes effect at once. *)
Definition calls w w' (effect : KernelMaps → KernelMaps → Prop) : Prop :=
  ∃ runs, traffic w' = traffic w ++ runs ∧ effect (after (kernel_maps w) runs) (kernel_maps w').

Definition well_formed runs : Prop := Forall (λ e, (e.1 < cpus)%nat ∧ run_ok e.2) runs.

Lemma traffic_suffix_ok w w' runs : traffic w' = traffic w ++ runs → well_formed runs.
Proof. intros Ht. pose proof (traffic_ok w') as Hok. rewrite Ht in Hok. by apply Forall_app in Hok as [_ Hok]. Qed.

Lemma after_app km runs runs' : after km (runs ++ runs') = after (after km runs) runs'.
Proof. apply foldl_app. Qed.

(** *** What one packet counts *)

(** The keys a packet is counted under, by the configuration of its interface. *)
Definition counted_under km (run : ProgramRun) (key : StatsKey) : bool :=
  match km_config km !! run_ifindex run with
  | None => false
  | Some config =>
      let generation := ic_interface_generation config in
      bool_decide (key = StatsKey_total generation (run_ifindex run) (run_role run))
      || bool_decide (key = packet_key generation (run_ifindex run) (run_role run) (run_frame run))
  end.

Definition same_generation (c c' : option InterfaceConfig) : Prop :=
  option_map ic_interface_generation c = option_map ic_interface_generation c'.

Lemma run_program_config m run m' v i :
  run_ok run → run_program lru_insert m run = Some (m', v) →
  same_generation (bm_iface_config m' !! i) (bm_iface_config m !! i).
Proof.
  intros Hok. rewrite run_program_layer by done. unfold same_generation.
  destruct (bm_iface_config m !! run_ifindex run) as [config|] eqn:Hc.
  2:{ unfold account_layer. rewrite Hc. cbn. by intros [= <- <-]. }
  erewrite account_layer_spec by (done || apply Hok). cbn. intros [= <- _].
  assert (∀ frame, option_map ic_interface_generation
    ((if proves_visibility config frame then <[run_ifindex run := set_vlan_visible config]> (bm_iface_config m)
      else bm_iface_config m) !! i) = option_map ic_interface_generation (bm_iface_config m !! i)) as Hmark.
  { intros frame. destruct (proves_visibility config frame); [|done].
    destruct (decide (i = run_ifindex run)) as [->|Hne]; [by rewrite lookup_insert_eq, Hc|by rewrite lookup_insert_ne]. }
  destruct (parse_l2_spec _) as [l|error]; [destruct (sampled_direction _) as [dir|]|]; [|apply Hmark..].
  destruct (_ =? FINGERPRINT_SAMPLE_SHIFT); [|apply Hmark].
  rewrite (proj2 (account_fingerprint_stats _ _ _ _ _ _ _ _ _ _)). apply Hmark.
Qed.

Lemma run_on_config km e i :
  run_ok e.2 → same_generation (km_config (run_on km e) !! i) (km_config km !! i).
Proof.
  intros Hok. unfold run_on. destruct (run_program _ _ _) as [[m v]|] eqn:Hr; [|done].
  by apply (run_program_config _ _ _ _ i Hok) in Hr.
Qed.

Lemma after_config km runs i :
  well_formed runs → same_generation (km_config (after km runs) !! i) (km_config km !! i).
Proof.
  intros Hok. revert km. induction Hok as [|e runs [_ Hok] _ IH]; intros km; [done|].
  cbn. unfold same_generation in *. rewrite IH. by apply run_on_config.
Qed.

Lemma packet_key_not_total g i r frame : packet_key g i r frame ≠ StatsKey_total g i r.
Proof.
  intros Heq. pose proof (packet_key_part g i r frame) as Hpart. pose proof (observation_keys_NoDup g i r) as Hnd.
  cbn [observation_keys vec_to_list tail] in *. rewrite Heq in Hpart. by apply NoDup_cons in Hnd as [Hnot _].
Qed.

Lemma list_insert_of_alter {A} (f : A → A) (l : list A) i c : l !! i = Some c → <[i := f c]> l = alter f i l.
Proof.
  revert i. induction l as [|x l IH]; intros [|i]; cbn; [done..|by intros [= ->]|]. intros Hc. f_equal. by apply IH.
Qed.

(** One packet adds itself to the values of the keys it is counted under, on its CPU. *)
Lemma run_on_stats km e key values :
  (e.1 < length values)%nat → run_ok e.2 → km_stats km !! key = Some values →
  km_stats (run_on km e) !! key =
    Some (if counted_under km e.2 key then alter (λ c, increment_counter c (run_bytes e.2)) e.1 values else values).
Proof.
  intros Hcpu Hok Hkey. unfold run_on.
  destruct (run_program_stats lru_insert (cpu_view km e.1) e.2 Hok) as (m & Hr & Hstats).
  rewrite Hr. cbn [write_back km_stats]. rewrite map_lookup_imap, Hkey. cbn [mbind option_bind]. f_equal.
  destruct (lookup_lt_is_Some_2 values e.1 Hcpu) as [c Hc].
  assert (bm_hook_stats (cpu_view km e.1) !! key = Some c) as Hview by (cbn; by rewrite lookup_omap, Hkey).
  rewrite Hstats. unfold counted_stats, counted_under. cbn [cpu_view bm_iface_config] in *.
  destruct (km_config km !! run_ifindex e.2) as [config|] eqn:Hconfig.
  2:{ cbn [cpu_view bm_hook_stats] in *. rewrite Hview. by apply list_insert_id. }
  set (g := ic_interface_generation config). unfold bump.
  set (total := StatsKey_total g (run_ifindex e.2) (run_role e.2)).
  set (part := packet_key g (run_ifindex e.2) (run_role e.2) (run_frame e.2)).
  assert (part ≠ total) as Hne by apply packet_key_not_total.
  destruct (decide (key = part)) as [->|Hpart].
  - rewrite lookup_alter_eq, lookup_alter_ne by done. cbn [cpu_view bm_hook_stats] in *. rewrite Hview. cbn.
    rewrite bool_decide_eq_false_2, bool_decide_eq_true_2 by done. cbn.
    by apply (list_insert_of_alter (λ c, increment_counter c (run_bytes e.2))).
  - rewrite lookup_alter_ne by done. rewrite (bool_decide_eq_false_2 (key = part)) by done. rewrite orb_false_r.
    destruct (decide (key = total)) as [->|Htotal].
    + rewrite lookup_alter_eq. cbn [cpu_view bm_hook_stats] in *. rewrite Hview. cbn.
      rewrite bool_decide_eq_true_2 by done. cbn. by apply (list_insert_of_alter (λ c, increment_counter c (run_bytes e.2))).
    + rewrite lookup_alter_ne, bool_decide_eq_false_2 by done. cbn [cpu_view bm_hook_stats] in *. rewrite Hview.
      by apply list_insert_id.
Qed.

(** *** What the counters add up to *)
Definition values_ok (values : list CounterValue) : Prop :=
  length values = cpus ∧ Forall (λ c, 0 ≤ cv_packets c ∧ 0 ≤ cv_bytes c) values.

Fixpoint tally (amount : ProgramRun → Z) km runs (key : StatsKey) : Z :=
  match runs with
  | [] => 0
  | e :: runs => (if counted_under km e.2 key then amount e.2 else 0) + tally amount (run_on km e) runs key
  end.

Lemma run_bytes_nonneg run : run_ok run → 0 ≤ run_bytes run.
Proof. intros (_ & ? & ?). lia. Qed.

Lemma tally_nonneg amount km runs key :
  (∀ run, run_ok run → 0 ≤ amount run) → well_formed runs → 0 ≤ tally amount km runs key.
Proof.
  intros Ha Hok. revert km. induction Hok as [|e runs [_ Hok] _ IH]; intros km; cbn; [done|].
  specialize (IH (run_on km e)). specialize (Ha _ Hok). destruct (counted_under km e.2 key); lia.
Qed.

Lemma sum_alter (field : CounterValue → Z) bytes n values cpu :
  adds field bytes n → 0 ≤ n → Forall (λ c, 0 ≤ field c) values → (cpu < length values)%nat →
  sum_of field values + n ≤ U64_MAX →
  sum_of field (alter (λ c, increment_counter c bytes) cpu values) = sum_of field values + n ∧
  Forall (λ c, 0 ≤ field c) (alter (λ c, increment_counter c bytes) cpu values).
Proof.
  intros Ha Hn. revert cpu. induction values as [|c values IH]; intros cpu Hpos Hcpu Hsum; cbn in Hcpu; [lia|].
  apply Forall_cons in Hpos as [Hc Hpos]. rewrite sum_of_cons in Hsum.
  assert (0 ≤ sum_of field values) as Hrest
    by (apply sum_of_nonneg; intros x Hx; rewrite Forall_forall in Hpos; by apply Hpos).
  destruct cpu as [|cpu]; cbn [alter list_alter]; rewrite !sum_of_cons.
  - assert (field (increment_counter c bytes) = field c + n) as -> by (rewrite Ha; apply Z.mod_small; lia).
    split; [lia|]. apply Forall_cons. split; [|done]. rewrite Ha. apply Z.mod_pos_bound. done.
  - destruct (IH cpu Hpos) as [-> ?]; [lia|lia|]. split; [lia|]. by apply Forall_cons.
Qed.

Lemma after_stats km runs key values :
  well_formed runs → km_stats km !! key = Some values → values_ok values →
  sum_of cv_packets values + tally (λ _, 1) km runs key ≤ U64_MAX →
  sum_of cv_bytes values + tally run_bytes km runs key ≤ U64_MAX →
  ∃ values', km_stats (after km runs) !! key = Some values' ∧ values_ok values' ∧
    sum_of cv_packets values' = sum_of cv_packets values + tally (λ _, 1) km runs key ∧
    sum_of cv_bytes values' = sum_of cv_bytes values + tally run_bytes km runs key.
Proof.
  intros Hok. revert km values. induction Hok as [|e runs [Hcpu Hrun] Hruns IH]; intros km values Hkey Hvalues Hp Hb.
  { exists values. cbn. split_and!; [done..|lia|lia]. }
  cbn [tally] in *. pose proof Hvalues as [Hlen Hpos].
  pose proof (run_on_stats km e key values ltac:(lia) Hrun Hkey) as Hnext.
  pose proof (run_bytes_nonneg _ Hrun) as Hbytes.
  pose proof (tally_nonneg (λ _, 1) (run_on km e) runs key ltac:(lia) Hruns) as Htp.
  pose proof (tally_nonneg run_bytes (run_on km e) runs key run_bytes_nonneg Hruns) as Htb.
  cbn [after foldl]. fold (after (run_on km e) runs). destruct (counted_under km e.2 key).
  - destruct (sum_alter cv_packets (run_bytes e.2) 1 values e.1) as [Hp' Hpp]; [apply adds_packets|lia| |lia|lia|].
    { eapply Forall_impl; [exact Hpos|]. by intros c [? _]. }
    destruct (sum_alter cv_bytes (run_bytes e.2) (run_bytes e.2) values e.1) as [Hb' Hpb]; [apply adds_bytes|done| |lia|lia|].
    { eapply Forall_impl; [exact Hpos|]. by intros c [_ ?]. }
    destruct (IH _ _ Hnext) as (values' & ? & ? & ? & ?); [|lia|lia|].
    { split; [by rewrite length_alter|]. rewrite Forall_forall in Hpp, Hpb |- *. auto. }
    exists values'. split_and!; [done..|lia|lia].
  - destruct (IH _ _ Hnext Hvalues) as (values' & ? & ? & ? & ?); [lia|lia|].
    exists values'. split_and!; [done..|lia|lia].
Qed.

(** *** While one generation is active *)
Definition generation_of km (ifindex : Z) : option Z :=
  option_map ic_interface_generation (km_config km !! ifindex).

Definition counts_as (generation : Z) (run : ProgramRun) (key : StatsKey) : bool :=
  bool_decide (key = StatsKey_total generation (run_ifindex run) (run_role run))
  || bool_decide (key = packet_key generation (run_ifindex run) (run_role run) (run_frame run)).

(** The packets of [runs], or their bytes, that count for a key of a generation. *)
Definition count_of (amount : ProgramRun → Z) (generation : Z) runs (key : StatsKey) : Z :=
  sum_of (λ e, if counts_as generation e.2 key then amount e.2 else 0) runs.

Lemma key_of_packet key g i r frame :
  key = StatsKey_total g i r ∨ key = packet_key g i r frame →
  sk_interface_generation key = g ∧ sk_ifindex key = i ∧ sk_hook_role key = r.
Proof.
  intros [->| ->]; [done|]. unfold packet_key. by destruct (parse_l2_spec frame).
Qed.

Lemma counts_as_fields generation run key :
  counts_as generation run key = true →
  sk_interface_generation key = generation ∧ sk_ifindex key = run_ifindex run ∧ sk_hook_role key = run_role run.
Proof.
  unfold counts_as. rewrite orb_true_iff, !bool_decide_eq_true. apply key_of_packet.
Qed.

Lemma counted_under_active km run key :
  generation_of km (sk_ifindex key) = Some (sk_interface_generation key) →
  counted_under km run key = counts_as (sk_interface_generation key) run key.
Proof.
  unfold generation_of, counted_under. intros Hg. apply eq_bool_prop_intro. rewrite !Is_true_true.
  destruct (km_config km !! run_ifindex run) as [config|] eqn:Hc.
  - fold (counts_as (ic_interface_generation config) run key). split; intros Hcount.
    + pose proof (counts_as_fields _ _ _ Hcount) as (-> & _ & _). done.
    + pose proof (counts_as_fields _ _ _ Hcount) as (_ & Hi & _). rewrite Hi, Hc in Hg. cbn in Hg.
      by injection Hg as ->.
  - split; [done|]. intros (_ & Hi & _)%counts_as_fields. by rewrite Hi, Hc in Hg.
Qed.

Lemma counted_under_inactive km run key :
  generation_of km (sk_ifindex key) ≠ Some (sk_interface_generation key) → counted_under km run key = false.
Proof.
  unfold generation_of, counted_under. intros Hg. apply not_true_is_false. intros Hcount.
  destruct (km_config km !! run_ifindex run) as [config|] eqn:Hc; [|done].
  fold (counts_as (ic_interface_generation config) run key) in Hcount.
  pose proof (counts_as_fields _ _ _ Hcount) as (Hgen & Hi & _). apply Hg. by rewrite Hi, Hc, Hgen.
Qed.

Lemma generation_of_run km e i : run_ok e.2 → generation_of (run_on km e) i = generation_of km i.
Proof. intros Hok. apply (run_on_config km e i Hok). Qed.

Lemma generation_of_after km runs i : well_formed runs → generation_of (after km runs) i = generation_of km i.
Proof. intros Hok. apply (after_config km runs i Hok). Qed.

Lemma tally_active amount km runs key :
  well_formed runs → generation_of km (sk_ifindex key) = Some (sk_interface_generation key) →
  tally amount km runs key = count_of amount (sk_interface_generation key) runs key.
Proof.
  intros Hok. revert km. induction Hok as [|e runs [_ Hok] _ IH]; intros km Hg; [done|].
  cbn [tally]. unfold count_of in *. rewrite sum_of_cons. rewrite (counted_under_active _ _ _ Hg).
  f_equal. apply IH. by rewrite generation_of_run.
Qed.

Lemma tally_inactive amount km runs key :
  well_formed runs → generation_of km (sk_ifindex key) ≠ Some (sk_interface_generation key) →
  tally amount km runs key = 0.
Proof.
  intros Hok. revert km. induction Hok as [|e runs [_ Hok] _ IH]; intros km Hg; [done|].
  cbn [tally]. rewrite (counted_under_inactive _ _ _ Hg). rewrite IH; [done|]. by rewrite generation_of_run.
Qed.
End kernel.

(** ** What the calls of the library do *)
Definition with_stats (km : KernelMaps) (stats : gmap StatsKey (list CounterValue)) : KernelMaps :=
  mkKernelMaps (km_config km) stats (km_fingerprints km).
Definition with_config (km : KernelMaps) (config : gmap Z InterfaceConfig) : KernelMaps :=
  mkKernelMaps config (km_stats km) (km_fingerprints km).

(** What a lookup may answer. *)
Definition looked_up {A} (found : option A) (answer : result MapError A) : Prop :=
  match answer with
  | Ok value => found = Some value
  | Err KeyNotFound => found = None
  | Err (MapFailure _) => True
  end.

Class AyaMapsSpec (W : Type) `{AyaMaps W} `{KernelWorld W} : Prop := {
  nr_cpus_calls w : calls w (nr_cpus w).1 (λ km km', km' = km);
  nr_cpus_all w n : (nr_cpus w).2 = Ok n → n = cpus;
  per_cpu_values_same w values values' : per_cpu_values w values = Ok values' → values' = values;
  stats_insert_calls w key values :
    calls w (stats_insert w key values BPF_NOEXIST).1 (λ km km',
      match (stats_insert w key values BPF_NOEXIST).2 with
      | Ok _ => km_stats km !! key = None ∧ km' = with_stats km (<[key := values]> (km_stats km))
      | Err _ => km' = km
      end);
  stats_remove_calls w key :
    calls w (stats_remove w key).1 (λ km km',
      match (stats_remove w key).2 with
      | Ok _ => is_Some (km_stats km !! key) ∧ km' = with_stats km (delete key (km_stats km))
      | Err _ => km' = km
      end);
  stats_get_calls w key :
    calls w (stats_get w key).1 (λ km km', km' = km ∧ looked_up (km_stats km !! key) (stats_get w key).2);
  config_insert_calls w ifindex config :
    calls w (config_insert w ifindex config BPF_NOEXIST).1 (λ km km',
      match (config_insert w ifindex config BPF_NOEXIST).2 with
      | Ok _ => km_config km !! ifindex = None ∧ km' = with_config km (<[ifindex := config]> (km_config km))
      | Err _ => km' = km
      end);
  config_remove_calls w ifindex :
    calls w (config_remove w ifindex).1 (λ km km',
      match (config_remove w ifindex).2 with
      | Ok _ => is_Some (km_config km !! ifindex) ∧ km' = with_config km (delete ifindex (km_config km))
      | Err _ => km' = km
      end);
  config_get_calls w ifindex :
    calls w (config_get w ifindex).1 (λ km km', km' = km ∧ looked_up (km_config km !! ifindex) (config_get w ifindex).2);
}.

(** ** The counters count every packet since the publication *)
Section counting.
Context {W : Type} `{AyaMapsSpec W}.
Implicit Types (w : W) (km : KernelMaps) (runs : list (nat * ProgramRun)).

(** Packets and bytes that fit the counters. *)
Definition light runs : Prop :=
  sum_of (λ _, 1) runs ≤ U64_MAX ∧ sum_of (λ e, run_bytes e.2) runs ≤ U64_MAX.

Lemma well_formed_app runs runs' : well_formed (runs ++ runs') ↔ well_formed runs ∧ well_formed runs'.
Proof. apply Forall_app. Qed.

Lemma amount_nonneg (amount : ProgramRun → Z) runs :
  (∀ run, run_ok run → 0 ≤ amount run) → well_formed runs → 0 ≤ sum_of (λ e, amount e.2) runs.
Proof.
  intros Ha Hok. apply sum_of_nonneg. intros e He. unfold well_formed in Hok. rewrite Forall_forall in Hok.
  by apply Ha, Hok.
Qed.

Lemma light_app runs runs' : well_formed (runs ++ runs') → light (runs ++ runs') → light runs ∧ light runs'.
Proof.
  rewrite well_formed_app. intros [Hl Hr] [Hp Hb]. rewrite sum_of_app in Hp, Hb.
  pose proof (amount_nonneg (λ _, 1) runs ltac:(lia) Hl). pose proof (amount_nonneg (λ _, 1) runs' ltac:(lia) Hr).
  pose proof (amount_nonneg run_bytes runs run_bytes_nonneg Hl).
  pose proof (amount_nonneg run_bytes runs' run_bytes_nonneg Hr). split; split; lia.
Qed.

Lemma count_of_app amount g runs runs' key :
  count_of amount g (runs ++ runs') key = count_of amount g runs key + count_of amount g runs' key.
Proof. apply sum_of_app. Qed.

Lemma count_of_le (amount : ProgramRun → Z) g runs key :
  (∀ run, run_ok run → 0 ≤ amount run) → well_formed runs →
  0 ≤ count_of amount g runs key ≤ sum_of (λ e, amount e.2) runs.
Proof.
  intros Ha Hok. unfold count_of. induction Hok as [|e runs [_ Hok] _ IH]; [done|]. rewrite !sum_of_cons.
  specialize (Ha _ Hok). destruct (counts_as g e.2 key); lia.
Qed.

(** The counters of a generation hold exactly the packets of [live], the traffic
    since its activation. *)
Record counting w (ifindex generation : Z) (live : list (nat * ProgramRun)) : Prop := {
  ct_traffic : ∃ before, traffic w = before ++ live;
  ct_active : generation_of (kernel_maps w) ifindex = Some generation;
  ct_counters key : key ∈ stats_keys ifindex generation → ∃ values,
    km_stats (kernel_maps w) !! key = Some values ∧ values_ok values ∧
    sum_of cv_packets values = count_of (λ _, 1) generation live key ∧
    sum_of cv_bytes values = count_of run_bytes generation live key;
}.

Lemma stats_keys_fields ifindex generation key :
  key ∈ stats_keys ifindex generation → sk_interface_generation key = generation ∧ sk_ifindex key = ifindex.
Proof. unfold stats_keys. rewrite elem_of_app. by intros [(? & ? & _)%observation_keys_hook|(? & ? & _)%observation_keys_hook]. Qed.

(** A call that changes no map leaves them counting. *)
Lemma counting_calls w w' ifindex generation live (effect : KernelMaps → KernelMaps → Prop) :
  counting w ifindex generation live → light (traffic w') →
  (∀ km km', effect km km' → km' = km) → calls w w' effect →
  ∃ more, traffic w' = traffic w ++ more ∧ counting w' ifindex generation (live ++ more).
Proof.
  intros [(before & Htraffic) Hactive Hcounters] Hlight Heffect (more & Hmore & Hkm%Heffect).
  exists more. split; [done|]. pose proof (traffic_ok w') as Hok. rewrite Hmore in Hok, Hlight.
  pose proof (proj1 (well_formed_app _ _) Hok) as [Hokw Hokm]. rewrite Htraffic, <-app_assoc in Hok, Hlight.
  rewrite Htraffic in Hokw. apply well_formed_app in Hokw as [_ Hokl].
  pose proof (proj2 (light_app _ _ Hok Hlight)) as [Hp Hb].
  split; [exists before; by rewrite Hmore, Htraffic, app_assoc| |].
  - rewrite Hkm. by rewrite generation_of_after.
  - intros key Hkey. destruct (Hcounters key Hkey) as (values & Hvalues & Hvok & Hsp & Hsb).
    apply stats_keys_fields in Hkey as [<- <-].
    rewrite sum_of_app in Hp, Hb.
    pose proof (count_of_le (λ _, 1) (sk_interface_generation key) live key ltac:(lia) Hokl).
    pose proof (count_of_le (λ _, 1) (sk_interface_generation key) more key ltac:(lia) Hokm).
    pose proof (count_of_le run_bytes (sk_interface_generation key) live key run_bytes_nonneg Hokl).
    pose proof (count_of_le run_bytes (sk_interface_generation key) more key run_bytes_nonneg Hokm).
    destruct (after_stats (kernel_maps w) more key values Hokm Hvalues Hvok) as (values' & Hv' & Hvok' & Hp' & Hb').
    { rewrite tally_active by done. lia. }
    { rewrite tally_active by done. lia. }
    rewrite tally_active in Hp', Hb' by done. exists values'. rewrite Hkm, !count_of_app. split_and!; try done; lia.
Qed.
End counting.

(** ** Creation and activation *)
Section publication.
Context {W : Type} `{AyaMapsSpec W}.
Implicit Types (self : AyaRuntime W) (w : W) (km : KernelMaps) (runs : list (nat * ProgramRun)).

Definition zero_values : list CounterValue := repeat (mkCounterValue 0 0) cpus.

Lemma zero_values_ok : values_ok zero_values.
Proof.
  split; [apply repeat_length|]. unfold zero_values. generalize (cpus (W := W)). intros n.
  induction n; constructor; [done|done].
Qed.

Lemma zero_values_sum (field : CounterValue → Z) :
  field (mkCounterValue 0 0) = 0 → sum_of field zero_values = 0.
Proof.
  intros Hf. unfold zero_values. generalize (cpus (W := W)). intros n. induction n as [|n IH]; [done|].
  cbn [repeat]. rewrite sum_of_cons. lia.
Qed.

Lemma after_inactive km runs key values :
  well_formed runs → generation_of km (sk_ifindex key) ≠ Some (sk_interface_generation key) →
  length values = cpus → km_stats km !! key = Some values → km_stats (after km runs) !! key = Some values.
Proof.
  intros Hok. revert km. induction Hok as [|e runs [Hcpu Hok] _ IH]; intros km Hg Hlen Hkey; [done|].
  cbn. apply IH; [by rewrite generation_of_run|done|].
  rewrite (run_on_stats km e key values) by (done || lia). by rewrite counted_under_inactive.
Qed.

(** The counters of [keys] are there and zero. *)
Definition zeroed w (keys : list StatsKey) : Prop :=
  ∀ key, key ∈ keys → km_stats (kernel_maps w) !! key = Some zero_values.

(** A call that changes no configuration, and of the counters at most adds one. *)
Lemma zeroed_calls w w' ifindex generation keys (effect : KernelMaps → KernelMaps → Prop) :
  (∀ key, key ∈ keys → sk_interface_generation key = generation ∧ sk_ifindex key = ifindex) →
  generation_of (kernel_maps w) ifindex ≠ Some generation → zeroed w keys →
  (∀ km km', effect km km' → km_config km' = km_config km ∧ (∀ key values,
     km_stats km !! key = Some values → km_stats km' !! key = Some values)) →
  calls w w' effect →
  zeroed w' keys ∧ generation_of (kernel_maps w') ifindex = generation_of (kernel_maps w) ifindex.
Proof.
  intros Hkeys Hg Hzero Heffect (runs & Hruns & [Hconfig Hstats]%Heffect).
  pose proof (traffic_suffix_ok _ _ _ Hruns) as Hok. split.
  - intros key Hkey. apply Hstats. destruct (Hkeys key Hkey) as [<- <-].
    apply after_inactive; [done|done|apply repeat_length|by apply Hzero].
  - unfold generation_of. rewrite Hconfig. fold (generation_of (after (kernel_maps w) runs) ifindex).
    by apply generation_of_after.
Qed.

Lemma calls_generation w w' ifindex (effect : KernelMaps → KernelMaps → Prop) :
  (∀ km km', effect km km' → km_config km' = km_config km) → calls w w' effect →
  generation_of (kernel_maps w') ifindex = generation_of (kernel_maps w) ifindex.
Proof.
  intros Heffect (runs & Hruns & Hconfig%Heffect). pose proof (traffic_suffix_ok _ _ _ Hruns) as Hok.
  unfold generation_of. rewrite Hconfig. fold (generation_of (after (kernel_maps w) runs) ifindex).
  by apply generation_of_after.
Qed.

Lemma stats_insert_config w key values (r : result MapError unit) km km' :
  match r with
  | Ok _ => km_stats km !! key = None ∧ km' = with_stats km (<[key := values]> (km_stats km))
  | Err _ => km' = km
  end → km_config km' = km_config km ∧
  (∀ k vs, km_stats km !! k = Some vs → km_stats km' !! k = Some vs).
Proof.
  destruct r as [[]|]; [intros [Hnone ->]|intros ->]; [|done]. split; [done|]. intros k vs Hk. cbn.
  rewrite lookup_insert_ne; [done|]. by intros ->; rewrite Hnone in Hk.
Qed.

Lemma insert_keys_zeroed ifindex generation keys : ∀ w inserted w',
  (∀ key, key ∈ inserted ++ keys → sk_interface_generation key = generation ∧ sk_ifindex key = ifindex) →
  insert_keys w cpus inserted keys = (w', Ok tt) →
  generation_of (kernel_maps w') ifindex = generation_of (kernel_maps w) ifindex ∧
  (generation_of (kernel_maps w) ifindex ≠ Some generation → zeroed w inserted → zeroed w' (inserted ++ keys)).
Proof.
  induction keys as [|key keys IH]; intros w inserted w' Hkeys; cbn [insert_keys].
  { intros [= <-]. split; [done|]. by rewrite app_nil_r. }
  destruct (per_cpu_values w _) as [values|error] eqn:Hvalues.
  2:{ unfold insertion_failed. by destruct (remove_keys _ _). }
  apply per_cpu_values_same in Hvalues as ->. fold zero_values.
  pose proof (stats_insert_calls w key zero_values) as Hinsert.
  destruct (stats_insert w key zero_values BPF_NOEXIST) as [w1 [[]|error]]; cbn [fst snd] in Hinsert.
  2:{ unfold insertion_failed. by destruct (remove_keys _ _). }
  intros Hrest. apply IH in Hrest as [Hgen Hzero]; [|by rewrite <-app_assoc].
  rewrite <-app_assoc in Hzero.
  assert (generation_of (kernel_maps w1) ifindex = generation_of (kernel_maps w) ifindex) as Hgen1.
  { eapply calls_generation; [|exact Hinsert]. by intros km km' [_ ->]. }
  split; [by rewrite Hgen|]. intros Hg Hz. apply Hzero; [by rewrite Hgen1|].
  assert (zeroed w1 inserted) as Hz1.
  { eapply zeroed_calls; [|exact Hg|exact Hz| |exact Hinsert].
    - intros k Hk. apply Hkeys, elem_of_app. by left.
    - intros km km' Heffect. exact (stats_insert_config w key zero_values (Ok tt) km km' Heffect). }
  intros k [Hk|Hk%list_elem_of_singleton]%elem_of_app; [by apply Hz1|]. subst k.
  destruct Hinsert as (runs & _ & _ & ->). cbn. by rewrite lookup_insert_eq.
Qed.

Lemma initialize_zeroed self loaded ifindex generation self' :
  aya_initialize_dependent self loaded ifindex generation = (self', Ok tt) →
  generation_of (kernel_maps (ay_world self')) ifindex = generation_of (kernel_maps (ay_world self)) ifindex ∧
  (generation_of (kernel_maps (ay_world self)) ifindex ≠ Some generation →
   zeroed (ay_world self') (stats_keys ifindex generation)) ∧
  ∃ active, ay_active self' = Some active ∧ ao_initialized active = Some (ifindex, generation) ∧
    ao_published active = None ∧ ao_loaded active = loaded.
Proof.
  unfold aya_initialize_dependent, with_active, verify_loaded, with_map. destruct (_ || _); [done|].
  destruct (ay_poisoned self); [done|]. destruct (ay_active self) as [active|]; [|done].
  case_bool_decide as Hloaded; [|done]. destruct (is_some (ao_initialized active)) eqn:Hi; [done|].
  destruct (is_some (ao_published active)) eqn:Hp; [done|]. cbn [orb].
  pose proof (nr_cpus_calls (ay_world self)) as Hcalls. pose proof (nr_cpus_all (ay_world self)) as Hcount.
  destruct (nr_cpus (ay_world self)) as [w [cpu_count|error]]; cbn [fst snd] in *; [|done].
  rewrite (Hcount cpu_count eq_refl). clear Hcount.
  destruct (hook_stats_map w) as [[[]|error]|]; [|done|done].
  destruct (insert_keys w cpus [] (stats_keys ifindex generation)) as [w' [[]|error]] eqn:Hinsert; [|done].
  intros [= <-]. cbn [ay_world ay_active].
  apply (insert_keys_zeroed ifindex generation) in Hinsert as [Hgen Hzero]; [|by intros k Hk%stats_keys_fields].
  assert (generation_of (kernel_maps w) ifindex = generation_of (kernel_maps (ay_world self)) ifindex) as Hgen0.
  { eapply calls_generation; [|exact Hcalls]. by intros km km' ->. }
  split; [by rewrite Hgen|]. split.
  - intros Hg. apply Hzero; [by rewrite Hgen0|]. by intros k ?%elem_of_nil.
  - eexists. split; [done|]. cbn. by destruct (ao_published active).
Qed.
End publication.

Section activation.
Context {W : Type} `{AyaMapsSpec W}.
Implicit Types (self : AyaRuntime W) (w : W).

(** Configurations are not touched by traffic, but for their VLAN visibility. *)
Lemma generation_of_None km ifindex : generation_of km ifindex = None ↔ km_config km !! ifindex = None.
Proof. unfold generation_of. by destruct (km_config km !! ifindex). Qed.

(** A configuration is published only where there was none. *)
Lemma publish_fresh self loaded ifindex generation self' :
  aya_publish_iface_config self loaded ifindex generation = (self', Ok tt) →
  generation_of (kernel_maps (ay_world self)) ifindex = None.
Proof.
  unfold aya_publish_iface_config, with_active, verify_loaded, with_map.
  destruct (ay_poisoned self); [done|]. destruct (ay_active self) as [active|]; [|done].
  destruct (bool_decide _); [|done]. destruct (_ || _); [done|].
  destruct (iface_config_map _) as [[[]|error]|]; [|done|done].
  set (config := published_config ifindex generation).
  pose proof (config_insert_calls (ay_world self) ifindex config) as Hinsert.
  destruct (config_insert (ay_world self) ifindex config BPF_NOEXIST) as [w1 [[]|error]]; cbn [fst snd] in Hinsert; [|done].
  intros _. destruct Hinsert as (early & Hearly & Hnone & _).
  rewrite <-(generation_of_after (kernel_maps (ay_world self)) early) by (by eapply traffic_suffix_ok).
  by apply generation_of_None.
Qed.

Lemma publish_counting self loaded ifindex generation self' :
  aya_publish_iface_config self loaded ifindex generation = (self', Ok tt) →
  zeroed (ay_world self) (stats_keys ifindex generation) → light (traffic (ay_world self')) →
  ∃ early live, traffic (ay_world self') = traffic (ay_world self) ++ early ++ live ∧
    counting (ay_world self') ifindex generation live.
Proof.
  intros Hpublish Hzero. pose proof (publish_fresh _ _ _ _ _ Hpublish) as Hgen. revert Hpublish.
  unfold aya_publish_iface_config, with_active, verify_loaded, with_map.
  destruct (ay_poisoned self); [done|]. destruct (ay_active self) as [active|]; [|done].
  destruct (bool_decide _); [|done]. destruct (_ || _); [done|].
  destruct (iface_config_map _) as [[[]|error]|]; [|done|done].
  set (config := published_config ifindex generation).
  pose proof (config_insert_calls (ay_world self) ifindex config) as Hinsert.
  destruct (config_insert (ay_world self) ifindex config BPF_NOEXIST) as [w1 [[]|error]]; cbn [fst snd] in Hinsert; [|done].
  pose proof (config_get_calls w1 ifindex) as Hget. destruct (config_get w1 ifindex) as [w2 verification].
  cbn [fst snd] in Hget. intros Hpublish.
  destruct (match verification with Ok current => bool_decide (current = config) | Err _ => false end);
    [|destruct (config_remove w2 ifindex); done].
  injection Hpublish as <-. cbn [ay_world]. intros Hlight.
  destruct Hinsert as (early & Hearly & _ & Hkm).
  assert (counting w1 ifindex generation []) as Hcounting.
  { split.
    - exists (traffic w1). by rewrite app_nil_r.
    - rewrite Hkm. unfold generation_of. cbn [with_config km_config]. by rewrite lookup_insert_eq.
    - intros key Hkey. exists zero_values. pose proof (stats_keys_fields _ _ _ Hkey) as [Hg Hi].
      split_and!; [|apply zero_values_ok|by rewrite zero_values_sum|by rewrite zero_values_sum].
      rewrite Hkm. cbn [with_config km_stats].
      apply after_inactive; [by eapply traffic_suffix_ok|by rewrite Hi, Hgen|apply repeat_length|by apply Hzero]. }
  assert (∃ more, traffic w2 = traffic w1 ++ more ∧ counting w2 ifindex generation ([] ++ more))
    as (live & Hlive & Hcounted).
  { eapply counting_calls; [exact Hcounting|exact Hlight| |exact Hget]. by intros km km' [-> _]. }
  exists early, live. by rewrite Hlive, Hearly, app_assoc.
Qed.

(** The withdrawal of the counters, and of the configuration if it was published. *)
Definition withdrawn w (ifindex generation : Z) : Prop :=
  ∀ key, key ∈ stats_keys ifindex generation → km_stats (kernel_maps w) !! key = None.

Lemma run_on_absent km e key : km_stats km !! key = None → km_stats (run_on km e) !! key = None.
Proof.
  intros Hkey. unfold run_on. destruct (run_program _ _ _) as [[m v]|]; [|done]. cbn.
  by rewrite map_lookup_imap, Hkey.
Qed.

Lemma after_absent km runs key : km_stats km !! key = None → km_stats (after km runs) !! key = None.
Proof. revert km. induction runs as [|e runs IH]; intros km Hkey; [done|]. cbn. by apply IH, run_on_absent. Qed.

Lemma absent_calls w w' key (effect : KernelMaps → KernelMaps → Prop) :
  km_stats (kernel_maps w) !! key = None →
  (∀ km km', effect km km' → km_stats km !! key = None → km_stats km' !! key = None) →
  calls w w' effect → km_stats (kernel_maps w') !! key = None.
Proof. intros Hkey Heffect (runs & _ & He). eapply Heffect; [exact He|]. by apply after_absent. Qed.

Lemma remove_each_absent keys : ∀ w w' key,
  remove_each w keys = (w', Ok tt) → key ∈ keys ∨ km_stats (kernel_maps w) !! key = None →
  km_stats (kernel_maps w') !! key = None.
Proof.
  induction keys as [|k keys IH]; intros w w' key; cbn [remove_each].
  { intros [= <-] [Hin|?]; [by apply elem_of_nil in Hin|done]. }
  pose proof (stats_remove_calls w k) as Hremove.
  destruct (stats_remove w k) as [w1 [[]|error]]; cbn [fst snd] in Hremove; [|done].
  intros Hrest Hkey. apply IH with (key := key) in Hrest; [done|].
  destruct Hkey as [[->|Hkey]%elem_of_cons|Hkey]; [right|by left|right].
  - destruct Hremove as (runs & _ & _ & ->). cbn. by rewrite lookup_delete_eq.
  - eapply absent_calls; [exact Hkey| |exact Hremove]. intros km km' [_ ->] Hnone. cbn.
    destruct (decide (k = key)) as [->|Hne]; [by rewrite lookup_delete_eq|by rewrite lookup_delete_ne].
Qed.

Lemma requery_absent keys : ∀ w w' key,
  requery_keys w keys = (w', Ok tt) → key ∈ keys → km_stats (kernel_maps w) !! key = None → False.
Proof.
  induction keys as [|k keys IH]; intros w w' key; cbn [requery_keys]; [by intros _ Hin; apply elem_of_nil in Hin|].
  pose proof (stats_get_calls w k) as Hget. destruct (stats_get w k) as [w1 [values|error]]; cbn [fst snd] in Hget; [|done].
  intros Hrest [->|Hkey]%elem_of_cons Hnone.
  - destruct Hget as (runs & _ & _ & Hlookup). cbn in Hlookup. by rewrite after_absent in Hlookup.
  - eapply IH; [exact Hrest|exact Hkey|]. eapply absent_calls; [exact Hnone| |exact Hget]. by intros km km' [-> _].
Qed.
End activation.

(** ** Withdrawal *)
Section withdrawal.
Context {W : Type} `{AyaMapsSpec W}.
Implicit Types (self : AyaRuntime W) (w : W).

(** No packet and no call on the counters brings a configuration back. *)
Lemma unconfigured_calls w w' ifindex (effect : KernelMaps → KernelMaps → Prop) :
  (∀ km km', effect km km' → km_config km' = km_config km) → calls w w' effect →
  km_config (kernel_maps w) !! ifindex = None → km_config (kernel_maps w') !! ifindex = None.
Proof.
  intros Heffect Hcalls Hnone. apply generation_of_None. rewrite (calls_generation w w' ifindex effect) by done.
  by apply generation_of_None.
Qed.

Lemma stats_remove_config w key km km' :
  match (stats_remove w key).2 with
  | Ok _ => is_Some (km_stats km !! key) ∧ km' = with_stats km (delete key (km_stats km))
  | Err _ => km' = km
  end → km_config km' = km_config km ∧ (∀ k, km_stats km !! k = None → km_stats km' !! k = None).
Proof.
  destruct (stats_remove w key).2 as [[]|]; [intros [_ ->]|intros ->]; [|done]. split; [done|]. intros k Hk. cbn.
  destruct (decide (key = k)) as [->|Hne]; [by rewrite lookup_delete_eq|by rewrite lookup_delete_ne].
Qed.

Lemma requery_keeps keys : ∀ w,
  (∀ i, km_config (kernel_maps w) !! i = None → km_config (kernel_maps (requery_keys w keys).1) !! i = None) ∧
  (∀ k, km_stats (kernel_maps w) !! k = None → km_stats (kernel_maps (requery_keys w keys).1) !! k = None).
Proof.
  induction keys as [|key keys IH]; intros w; [done|]. cbn [requery_keys].
  pose proof (stats_get_calls w key) as Hget. destruct (stats_get w key) as [w1 [values|error]]; cbn [fst snd] in *.
  - specialize (IH w1) as [Hc Hs]. split; [intros i Hi; apply Hc|intros k Hk; apply Hs].
    + eapply unconfigured_calls; [|exact Hget|exact Hi]. by intros km km' [-> _].
    + eapply absent_calls; [exact Hk| |exact Hget]. by intros km km' [-> _].
  - split; [intros i Hi|intros k Hk].
    + eapply unconfigured_calls; [|exact Hget|exact Hi]. by intros km km' [-> _].
    + eapply absent_calls; [exact Hk| |exact Hget]. by intros km km' [-> _].
Qed.

Lemma remove_each_keeps keys : ∀ w,
  (∀ i, km_config (kernel_maps w) !! i = None → km_config (kernel_maps (remove_each w keys).1) !! i = None) ∧
  (∀ k, km_stats (kernel_maps w) !! k = None → km_stats (kernel_maps (remove_each w keys).1) !! k = None).
Proof.
  induction keys as [|key keys IH]; intros w; [done|]. cbn [remove_each].
  pose proof (stats_remove_calls w key) as Hremove. pose proof (stats_remove_config w key) as Heffect.
  assert ((∀ i, km_config (kernel_maps w) !! i = None → km_config (kernel_maps (stats_remove w key).1) !! i = None) ∧
    (∀ k, km_stats (kernel_maps w) !! k = None → km_stats (kernel_maps (stats_remove w key).1) !! k = None)) as [Hc Hs].
  { split; [intros i Hi|intros k Hk].
    - eapply unconfigured_calls; [|exact Hremove|exact Hi]. intros km km' He. by apply Heffect.
    - eapply absent_calls; [exact Hk| |exact Hremove]. intros km km' He. by apply Heffect. }
  destruct (stats_remove w key) as [w1 [[]|error]]; cbn [fst] in *; [|done].
  specialize (IH w1) as [Hc' Hs']. split; auto.
Qed.

Lemma withdraw_counters_outcome self ifindex generation :
  let '(self', r) := withdraw_counters self ifindex generation in
  (∀ i, km_config (kernel_maps (ay_world self)) !! i = None → km_config (kernel_maps (ay_world self')) !! i = None) ∧
  (∀ k, km_stats (kernel_maps (ay_world self)) !! k = None → km_stats (kernel_maps (ay_world self')) !! k = None) ∧
  match r with
  | Ok _ => withdrawn (ay_world self') ifindex generation ∧
            (∀ k, k ∈ stats_keys ifindex generation → km_stats (kernel_maps (ay_world self)) !! k ≠ None) ∧
            ay_active self' = option_map (λ active, mkActiveAyaObject (ao_loaded active) None (ao_published active))
                                (ay_active self)
  | Err _ => ay_active self' = ay_active self
  end.
Proof.
  unfold withdraw_counters, with_map. destruct (hook_stats_map _) as [[[]|error]|]; [|done|done].
  set (keys := rev (stats_keys ifindex generation)).
  pose proof (requery_keeps keys (ay_world self)) as [Hc1 Hs1].
  pose proof (requery_absent keys (ay_world self)) as Hpresent.
  destruct (requery_keys (ay_world self) keys) as [w1 [[]|error]]; cbn [fst] in *; [|done].
  pose proof (remove_each_keeps keys w1) as [Hc2 Hs2]. pose proof (remove_each_absent keys w1) as Habsent.
  destruct (remove_each w1 keys) as [w2 [[]|error]]; cbn [fst ay_world set_world ay_active] in *; [|by auto].
  split; [by auto|]. split; [by auto|]. split_and!; [|intros k Hk Hnone|done].
  - intros k Hk. eapply Habsent; [done|left]. unfold keys. apply list_elem_of_In. rewrite <-in_rev. by apply list_elem_of_In.
  - eapply Hpresent; [done| |exact Hnone]. unfold keys. apply list_elem_of_In. rewrite <-in_rev. by apply list_elem_of_In.
Qed.

(** The configuration goes first. *)
Lemma withdraw_config_outcome self active ifindex generation :
  ay_active self = Some active →
  let '(self', r) := withdraw_config self active ifindex generation in
  (∀ k, km_stats (kernel_maps (ay_world self)) !! k = None → km_stats (kernel_maps (ay_world self')) !! k = None) ∧
  match r with
  | Ok _ => km_config (kernel_maps (ay_world self')) !! ifindex = None ∧
            ay_active self' = Some (mkActiveAyaObject (ao_loaded active) (ao_initialized active) None)
  | Err _ => ay_active self' = ay_active self
  end.
Proof.
  intros Hactive. unfold withdraw_config, with_map. destruct (iface_config_map _) as [[[]|error]|]; [|done|done].
  pose proof (config_get_calls (ay_world self) ifindex) as Hget.
  assert (∀ k, km_stats (kernel_maps (ay_world self)) !! k = None →
    km_stats (kernel_maps (config_get (ay_world self) ifindex).1) !! k = None) as Hkeeps.
  { intros k Hk. eapply absent_calls; [exact Hk| |exact Hget]. by intros km km' [-> _]. }
  destruct (config_get (ay_world self) ifindex) as [w1 [current|error]]; cbn [fst snd] in *; [|done].
  destruct (_ || _); [done|]. pose proof (config_remove_calls w1 ifindex) as Hremove.
  assert (∀ k, km_stats (kernel_maps w1) !! k = None → km_stats (kernel_maps (config_remove w1 ifindex).1) !! k = None)
    as Hkeeps'.
  { intros k Hk. eapply absent_calls; [exact Hk| |exact Hremove]. intros km km'.
    destruct (config_remove w1 ifindex).2; [by intros [_ ->]|by intros ->]. }
  destruct (config_remove w1 ifindex) as [w2 [[]|error]]; cbn [fst snd ay_world set_world ay_active] in *; [|by auto].
  split; [by auto|]. split; [|done]. destruct Hremove as (runs & _ & _ & ->). cbn. by rewrite lookup_delete_eq.
Qed.
End withdrawal.

Section rollback.
Context {W : Type} `{AyaMapsSpec W}.
Implicit Types (self : AyaRuntime W) (w : W).

(** A rollback that succeeds removed every counter of the generation, and its
    configuration if that was published; the object is as it was loaded. *)
Lemma rollback_withdraws self loaded ifindex generation self' :
  aya_rollback_initialized_exact self loaded ifindex generation = (self', Ok tt) →
  withdrawn (ay_world self') ifindex generation ∧
  (∀ key, key ∈ stats_keys ifindex generation → km_stats (kernel_maps (ay_world self)) !! key ≠ None) ∧
  ∃ active, ay_active self = Some active ∧ ao_loaded active = loaded ∧
    ao_initialized active = Some (ifindex, generation) ∧
    ay_active self' = Some (mkActiveAyaObject loaded None None) ∧
    (ao_published active = Some (ifindex, generation) → km_config (kernel_maps (ay_world self')) !! ifindex = None).
Proof.
  unfold aya_rollback_initialized_exact, with_active, verify_loaded. destruct (ay_poisoned self); [done|].
  destruct (ay_active self) as [active|] eqn:Hactive; [|done]. case_bool_decide as Hloaded; [|done].
  case_bool_decide as Hinit; [|done]. cbn [negb]. case_bool_decide as Hpub.
  - pose proof (withdraw_config_outcome self active ifindex generation Hactive) as Hconfig.
    destruct (withdraw_config self active ifindex generation) as [self1 [[]|error]]; [|done].
    destruct Hconfig as (Hkeep & Hnone & Hactive1).
    pose proof (withdraw_counters_outcome self1 ifindex generation) as Hcounters.
    destruct (withdraw_counters self1 ifindex generation) as [self2 [[]|error]]; [|done]. intros [= <-].
    destruct Hcounters as (Hc & _ & Hw & Hpresent & Hactive2). split; [done|].
    split; [intros key Hkey Hk; by apply (Hpresent key Hkey), Hkeep|].
    exists active. rewrite Hactive2, Hactive1. cbn. rewrite Hloaded. split_and!; auto.
  - destruct (is_some (ao_published active)) eqn:Hsome; [done|].
    pose proof (withdraw_counters_outcome self ifindex generation) as Hcounters.
    destruct (withdraw_counters self ifindex generation) as [self2 [[]|error]]; [|done]. intros [= <-].
    destruct Hcounters as (Hc & _ & Hw & Hpresent & Hactive2). split; [done|]. split; [done|].
    exists active. rewrite Hactive2, Hactive. cbn. rewrite Hloaded. split_and!; try done.
    by destruct (ao_published active).
Qed.

(** Once a counter of the generation is missing, no rollback succeeds any more: each
    leaves it missing and the object initialized, so that the object cannot be
    unloaded either. *)
Lemma missing_counter_wedges_rollback self loaded ifindex generation key :
  key ∈ stats_keys ifindex generation → km_stats (kernel_maps (ay_world self)) !! key = None →
  let '(self', r) := aya_rollback_initialized_exact self loaded ifindex generation in
  r ≠ Ok tt ∧ km_stats (kernel_maps (ay_world self')) !! key = None ∧
  option_map ao_initialized (ay_active self') = option_map ao_initialized (ay_active self).
Proof.
  intros Hkey Hnone. unfold aya_rollback_initialized_exact, with_active, verify_loaded.
  destruct (ay_poisoned self); [done|]. destruct (ay_active self) as [active|] eqn:Hactive; [|by split_and!; [..|rewrite Hactive]].
  case_bool_decide; [|by split_and!; [..|rewrite Hactive]].
  case_bool_decide as Hinit; [|by split_and!; [..|rewrite Hactive]]. cbn [negb].
  assert (∀ self1, km_stats (kernel_maps (ay_world self1)) !! key = None →
    option_map ao_initialized (ay_active self1) = Some (ao_initialized active) →
    let '(self', r) := withdraw_counters self1 ifindex generation in
    r ≠ Ok tt ∧ km_stats (kernel_maps (ay_world self')) !! key = None ∧
    option_map ao_initialized (ay_active self') = Some (ao_initialized active)) as Hcounters.
  { intros self1 Hnone1 Hinit1. pose proof (withdraw_counters_outcome self1 ifindex generation) as Hc.
    destruct (withdraw_counters self1 ifindex generation) as [self2 [[]|error]]; destruct Hc as (_ & Hs & Hr).
    - destruct Hr as (_ & Hpresent & _). by destruct (Hpresent key Hkey).
    - split; [done|]. split; [by apply Hs|]. by rewrite Hr. }
  cbn [option_map]. case_bool_decide.
  - pose proof (withdraw_config_outcome self active ifindex generation Hactive) as Hconfig.
    destruct (withdraw_config self active ifindex generation) as [self1 [[]|error]]; destruct Hconfig as (Hkeep & Hc).
    + apply Hcounters; [by apply Hkeep|]. by rewrite (proj2 Hc).
    + split; [done|]. split; [by apply Hkeep|]. by rewrite Hc, Hactive.
  - destruct (is_some (ao_published active)); [by split_and!; [..|rewrite Hactive]|]. apply Hcounters; [done|]. by rewrite Hactive.
Qed.
End rollback.

(** ** A machine with one CPU

    Before each call the next packets arrive, untagged or with a VLAN tag; the script
    says which calls fail. *)
Module MapsExample.
(** Sixty-four zero bytes at address 4096, of which the type field may say 802.1Q. *)
Definition mem (tagged : bool) (a : Z) : Z := if tagged && (a =? 4096 + 12) then 129 else 0.
Definition frame_run (tagged : bool) : nat * ProgramRun :=
  (0%nat, mkProgramRun (mem tagged) 100 (XdpIngress (mkXdpContext 4096 (4096 + 64) 7))).

Record machine : Type := mkMachine {
  mc_maps : KernelMaps;
  mc_seen : list bool;
  mc_pending : list (list bool);
  mc_script : list bool;
}.

Lemma frame_run_ok tagged : run_ok (frame_run tagged).2.
Proof. split; [intros a; cbn; unfold mem; destruct (_ && _); ulia|]. cbn. lia. Qed.

#[global] Instance kernel : KernelWorld machine.
Proof.
  refine {| lru_insert := λ m k v, <[k := v]> m; cpus := 1; kernel_maps := mc_maps;
            traffic := λ w, frame_run <$> mc_seen w |}.
  intros w. apply Forall_fmap, Forall_true. intros tagged. split; [cbn; lia|apply frame_run_ok].
Defined.

(** A call: the pending packets arrive, then it has its effect unless the script fails it. *)
Definition arrive (w : machine) : machine :=
  let packets := default [] (head (mc_pending w)) in
  mkMachine (after (mc_maps w) (frame_run <$> packets)) (mc_seen w ++ packets) (tail (mc_pending w))
    (tail (mc_script w)).

Definition call {A} (w : machine) (op : KernelMaps → KernelMaps * result MapError A) : machine * result MapError A :=
  let w' := arrive w in
  if default true (head (mc_script w)) then
    let '(km, answer) := op (mc_maps w') in
    (mkMachine km (mc_seen w') (mc_pending w') (mc_script w'), answer)
  else (w', Err (MapFailure "scripted failure")).

Definition insert_in {K A} `{Countable K} (m : gmap K A) (key : K) (value : A) : gmap K A * result MapError unit :=
  if decide (is_Some (m !! key)) then (m, Err (MapFailure "exists")) else (<[key := value]> m, Ok tt).
Definition remove_in {K A} `{Countable K} (m : gmap K A) (key : K) : gmap K A * result MapError unit :=
  if decide (is_Some (m !! key)) then (delete key m, Ok tt) else (m, Err KeyNotFound).
Definition get_in {K A} `{Countable K} (m : gmap K A) (key : K) : result MapError A :=
  match m !! key with Some value => Ok value | None => Err KeyNotFound end.

Definition on_stats {A} (op : gmap StatsKey (list CounterValue) → gmap StatsKey (list CounterValue) * A) (km : KernelMaps)
    : KernelMaps * A := let '(stats, a) := op (km_stats km) in (with_stats km stats, a).
Definition on_config {A} (op : gmap Z InterfaceConfig → gmap Z InterfaceConfig * A) (km : KernelMaps) : KernelMaps * A :=
  let '(config, a) := op (km_config km) in (with_config km config, a).

#[global] Instance maps : AyaMaps machine := {|
  nr_cpus w := (arrive w, Ok 1%nat);
  per_cpu_values _ values := Ok values;
  hook_stats_map _ := Some (Ok tt);
  iface_config_map _ := Some (Ok tt);
  stats_insert w key values _ := call w (on_stats (λ m, insert_in m key values));
  stats_remove w key := call w (on_stats (λ m, remove_in m key));
  stats_get w key := call w (λ km, (km, get_in (km_stats km) key));
  config_insert w ifindex config _ := call w (on_config (λ m, insert_in m ifindex config));
  config_remove w ifindex := call w (on_config (λ m, remove_in m ifindex));
  config_get w ifindex := call w (λ km, (km, get_in (km_config km) ifindex));
  debug_removals _ := ""; debug_removal _ := ""; debug_config _ := "";
|}.

Lemma with_stats_same km : with_stats km (km_stats km) = km.
Proof. by destruct km. Qed.

Lemma with_config_same km : with_config km (km_config km) = km.
Proof. by destruct km. Qed.

Lemma call_calls {A} w (op : KernelMaps → KernelMaps * result MapError A) (effect : KernelMaps → KernelMaps → Prop) :
  (default true (head (mc_script w)) = true → effect (mc_maps (arrive w)) (op (mc_maps (arrive w))).1) →
  (default true (head (mc_script w)) = false → effect (mc_maps (arrive w)) (mc_maps (arrive w))) →
  calls w (call w op).1 effect.
Proof.
  intros Hok Herr. exists (frame_run <$> default [] (head (mc_pending w))). unfold call.
  destruct (default true (head (mc_script w))); [|split; [cbn; by rewrite fmap_app|by apply Herr]].
  specialize (Hok eq_refl). destruct (op (mc_maps (arrive w))) as [km answer] eqn:Hop. cbn [fst] in Hok |- *.
  split; [cbn; by rewrite fmap_app|exact Hok].
Qed.

Lemma call_answer {A} w (op : KernelMaps → KernelMaps * result MapError A) :
  (call w op).2 = if default true (head (mc_script w)) then (op (mc_maps (arrive w))).2
                  else Err (MapFailure "scripted failure").
Proof. unfold call. destruct (default true _); [|done]. by destruct (op _). Qed.

#[global] Instance maps_spec : AyaMapsSpec machine.
Proof.
  split.
  - intros w. exists (frame_run <$> default [] (head (mc_pending w))). split; [cbn; by rewrite fmap_app|done].
  - by intros w n [= <-].
  - by intros w values values' [= <-].
  - intros w key values. apply call_calls; cbn; rewrite call_answer; intros ->; [|done].
    unfold on_stats, insert_in. destruct (decide _) as [|Hnot]; cbn; [by apply with_stats_same|].
    split; [by apply eq_None_not_Some|done].
  - intros w key. apply call_calls; cbn; rewrite call_answer; intros ->; [|done].
    unfold on_stats, remove_in. destruct (decide _); cbn; [done|by apply with_stats_same].
  - intros w key. apply call_calls; cbn; rewrite call_answer; intros ->; [|done].
    cbn. unfold get_in. by destruct (km_stats _ !! key).
  - intros w ifindex config. apply call_calls; cbn; rewrite call_answer; intros ->; [|done].
    unfold on_config, insert_in. destruct (decide _) as [|Hnot]; cbn; [by apply with_config_same|].
    split; [by apply eq_None_not_Some|done].
  - intros w ifindex. apply call_calls; cbn; rewrite call_answer; intros ->; [|done].
    unfold on_config, remove_in. destruct (decide _); cbn; [done|by apply with_config_same].
  - intros w ifindex. apply call_calls; cbn; rewrite call_answer; intros ->; [|done].
    cbn. unfold get_in. by destruct (km_config _ !! ifindex).
Qed.

Definition loaded : LoadedBpfObject :=
  mkLoadedBpfObject (mkLoadedXdp 3 30 (vreplicate 8 0)) (mkLoadedTc 4 40) [].
Definition fresh (pending : list (list bool)) (script : list bool) : AyaRuntime machine :=
  mkAyaRuntime (mkMachine (mkKernelMaps ∅ ∅ ∅) [] pending script) false (Some (mkActiveAyaObject loaded None None)).
Definition initialized (pending : list (list bool)) (script : list bool) : AyaRuntime machine :=
  (aya_initialize_dependent (fresh pending script) loaded 7 42).1.
End MapsExample.

(** A tagged frame that arrives between the publication of the configuration and its
    verification makes the program mark the interface, so that the verification fails
    and the publication is taken back. *)
Lemma tagged_frame_fails_publication :
  let arrivals := repeat [] 18 ++ [[true]] in
  let '(self, r) := aya_publish_iface_config (MapsExample.initialized arrivals []) MapsExample.loaded 7 42 in
  r = Err (adapter "IFACE_CONFIG verification failed: ; rollback: ") ∧
  km_config (kernel_maps (ay_world self)) !! 7 = None ∧ MapsExample.mc_seen (ay_world self) = [true].
Proof. vm_compute. done. Qed.

(** A removal that fails after another succeeded leaves the generation half withdrawn. *)
Lemma failed_removal_wedges :
  let script := repeat true 17 ++ [false] in
  let '(self, r) := aya_rollback_initialized_exact (MapsExample.initialized [] (repeat true 17 ++ script))
                      MapsExample.loaded 7 42 in
  is_ok r = false ∧
  is_ok (aya_rollback_initialized_exact self MapsExample.loaded 7 42).2 = false ∧
  option_map ao_initialized (ay_active (aya_rollback_initialized_exact self MapsExample.loaded 7 42).1)
    = Some (Some (7, 42)).
Proof. vm_compute. done. Qed.
