(* ===== verification/Service.v ===== *)
(** The agent service of [l2-loop-agent] ([service.rs]): the two hooks of one
    interface and its policy behind the resolver and hook manager of [ports.rs],
    driven through the interface lifecycle. *)
From S2P Require Import Prelude Domain Attach.

(** ** Ports *)
Record InterfaceIdentity : Type := mkInterfaceIdentity { id_name : InterfaceName; id_ifindex : Z }.

Record HookHandle : Type := mkHookHandle { hh_id : Z; hh_role : HookRole }.

#[export] Instance HookHandle_eq_dec : EqDecision HookHandle.
Proof. solve_decision. Defined.

Class InterfaceResolver (R : Type) : Type := resolve : R → InterfaceName → R * result PortError InterfaceIdentity.

Class HookManager (H : Type) : Type := {
  hook_attach : H → InterfaceIdentity → HookRole → H * result PortError HookHandle;
  hook_verify : H → HookHandle → H * result PortError unit;
  hook_detach : H → HookHandle → H * result PortError unit;
  publish_observe : H → InterfaceIdentity → Z → H * result PortError unit;
  publish_policy : H → PolicyRequest → H * result PortError unit;
  clear_policy : H → H * result PortError unit;
}.

Inductive ServiceError : Type :=
| ServiceDomain (error : DomainError) | ServicePort (error : PortError) | ServiceInvalidState (state : InterfaceState).

(** ** The service *)
Record AgentService (R H : Type) : Type := mkAgentService {
  ag_resolver : R;
  ag_hooks : H;
  ag_state : InterfaceState;
  ag_generation : Z;
}.
Arguments mkAgentService {R H} _ _ _ _.
Arguments ag_resolver {R H} _.
Arguments ag_hooks {R H} _.
Arguments ag_state {R H} _.
Arguments ag_generation {R H} _.

Section service.
Context {R H : Type} `{InterfaceResolver R} `{HookManager H}.
Local Notation service := (AgentService R H).
Implicit Types (self : service).

Definition AgentService_new (resolver : R) (hooks : H) : service := mkAgentService resolver hooks Detached 0.

Definition set_state self (state : InterfaceState) : service :=
  mkAgentService (ag_resolver self) (ag_hooks self) state (ag_generation self).
Definition set_hooks self (hooks : H) : service :=
  mkAgentService (ag_resolver self) hooks (ag_state self) (ag_generation self).
Definition set_resolver self (resolver : R) : service :=
  mkAgentService resolver (ag_hooks self) (ag_state self) (ag_generation self).
Definition set_generation self (generation : Z) : service :=
  mkAgentService (ag_resolver self) (ag_hooks self) (ag_state self) generation.

Definition service_fail self (error : PortError) : service * result ServiceError unit :=
  (set_state self IfaceError, Err (ServicePort error)).

(** [transition(..)?]. *)
Definition move_to self (target : InterfaceState) : service * result ServiceError unit :=
  match transition (ag_state self) target with
  | Ok state => (set_state self state, Ok tt)
  | Err error => (self, Err (ServiceDomain error))
  end.

Definition verify_both self (ingress egress : HookHandle) : service * result PortError unit :=
  match hook_verify (ag_hooks self) ingress with
  | (hooks, Err error) => (set_hooks self hooks, Err error)
  | (hooks, Ok _) => let '(hooks, res) := hook_verify hooks egress in (set_hooks self hooks, res)
  end.

Definition detach_both self (ingress egress : HookHandle) : service :=
  set_hooks self (hook_detach (hook_detach (ag_hooks self) egress).1 ingress).1.

(** After both hooks are attached. *)
Definition publish_both self (identity : InterfaceIdentity) (ingress egress : HookHandle) : service * result ServiceError unit :=
  match verify_both self ingress egress with
  | (self, Err error) => service_fail (detach_both self ingress egress) error
  | (self, Ok _) =>
      let generation := Z.max (saturating_add U64_MAX (ag_generation self) 1) 1 in
      match publish_observe (ag_hooks self) identity generation with
      | (hooks, Err error) => service_fail (detach_both (set_hooks self hooks) ingress egress) error
      | (hooks, Ok _) => move_to (set_generation (set_hooks self hooks) generation) Observing
      end
  end.

Definition attach_both self (identity : InterfaceIdentity) : service * result ServiceError unit :=
  match hook_attach (ag_hooks self) identity ExternalXdpIngress with
  | (hooks, Err error) => service_fail (set_hooks self hooks) error
  | (hooks, Ok ingress) =>
      match hook_attach hooks identity PhysicalTcEgress with
      | (hooks, Err error) => service_fail (set_hooks self (hook_detach hooks ingress).1) error
      | (hooks, Ok egress) => publish_both (set_hooks self hooks) identity ingress egress
      end
  end.

Definition service_observe self (interface : string) : service * result ServiceError unit :=
  if negb (bool_decide (ag_state self = Detached)) then (self, Err (ServiceInvalidState (ag_state self)))
  else
    match InterfaceName_new interface with
    | Err error => (self, Err (ServiceDomain error))
    | Ok interface =>
        match move_to self Attaching with
        | (self, Err error) => (self, Err error)
        | (self, Ok _) =>
            match resolve (ag_resolver self) interface with
            | (resolver, Err error) => service_fail (set_resolver self resolver) error
            | (resolver, Ok identity) => attach_both (set_resolver self resolver) identity
            end
        end
    end.

Definition service_apply_policy self (policy : PolicyRequest) : service * result ServiceError unit :=
  if negb (bool_decide (ag_state self = Observing)) then (self, Err (ServiceInvalidState (ag_state self)))
  else
    match publish_policy (ag_hooks self) policy with
    | (hooks, Err error) => (set_hooks self hooks, Err (ServicePort error))
    | (hooks, Ok _) => move_to (set_hooks self hooks) Policing
    end.

Definition service_expire_policy self : service * result ServiceError unit :=
  if negb (bool_decide (ag_state self = Policing)) then (self, Err (ServiceInvalidState (ag_state self)))
  else
    match clear_policy (ag_hooks self) with
    | (hooks, Err error) => (set_hooks self hooks, Err (ServicePort error))
    | (hooks, Ok _) => move_to (set_hooks self hooks) Observing
    end.

Inductive service_op : Type := ObserveService (interface : string) | ApplyPolicyService (policy : PolicyRequest) | ExpirePolicyService.

Definition agent_run self (op : service_op) : service * result ServiceError unit :=
  match op with
  | ObserveService interface => service_observe self interface
  | ApplyPolicyService policy => service_apply_policy self policy
  | ExpirePolicyService => service_expire_policy self
  end.
End service.

(** ** What holds of the hooks *)

(** What the manager promises: an attachment adds a hook of its role, a detachment
    that succeeds removes it, and a failure changes nothing that is attached or
    published. *)
Class HookManagerSpec (H : Type) `{HookManager H} : Type := {
  hooked : H → list HookHandle;
  generation_of : H → option Z;
  policy_of : H → option PolicyRequest;
  hook_attach_spec h identity role h' res : hook_attach h identity role = (h', res) →
    generation_of h' = generation_of h ∧ policy_of h' = policy_of h ∧
    match res with Ok handle => hh_role handle = role ∧ hooked h' = hooked h ++ [handle] | Err _ => hooked h' = hooked h end;
  hook_verify_spec h handle h' res : hook_verify h handle = (h', res) →
    hooked h' = hooked h ∧ generation_of h' = generation_of h ∧ policy_of h' = policy_of h;
  hook_detach_spec h handle h' res : hook_detach h handle = (h', res) →
    generation_of h' = generation_of h ∧ policy_of h' = policy_of h ∧
    if is_ok res then handle ∈ hooked h → hooked h ≡ₚ handle :: hooked h' else hooked h' = hooked h;
  publish_observe_spec h identity generation h' res : publish_observe h identity generation = (h', res) →
    hooked h' = hooked h ∧ policy_of h' = policy_of h ∧ generation_of h' = if is_ok res then Some generation else generation_of h;
  publish_policy_spec h policy h' res : publish_policy h policy = (h', res) →
    hooked h' = hooked h ∧ generation_of h' = generation_of h ∧ policy_of h' = if is_ok res then Some policy else policy_of h;
  clear_policy_spec h h' res : clear_policy h = (h', res) →
    hooked h' = hooked h ∧ generation_of h' = generation_of h ∧ policy_of h' = if is_ok res then None else policy_of h;
}.

Section facts.
Context {R H : Type} `{InterfaceResolver R} `{HookManagerSpec H}.
Implicit Types (self : AgentService R H).

(** Every hook that is attached can be detached. *)
Definition detaches_reliably : Prop := ∀ (h : H) handle, handle ∈ hooked h → is_ok (hook_detach h handle).2 = true.

(** What is attached and published is what the state says.  After a failure nothing
    of it is left, but for hooks whose detachment failed. *)
Definition service_ok self : Prop :=
  let h := ag_hooks self in
  match ag_state self with
  | Detached => hooked h = [] ∧ policy_of h = None
  | Observing | Policing =>
      (∃ ingress egress, hooked h ≡ₚ [ingress; egress] ∧ hh_role ingress = ExternalXdpIngress ∧ hh_role egress = PhysicalTcEgress) ∧
      0 < ag_generation self ∧ generation_of h = Some (ag_generation self) ∧
      is_some (policy_of h) = bool_decide (ag_state self = Policing)
  | IfaceError => policy_of h = None ∧ (length (hooked h) ≤ 2)%nat ∧ (detaches_reliably → hooked h = [])
  | Attaching => False
  end.

Lemma detached_one h handle h' res :
  hook_detach h handle = (h', res) → hooked h ≡ₚ [handle] →
  policy_of h' = policy_of h ∧ (length (hooked h') ≤ 1)%nat ∧ (detaches_reliably → hooked h' = []).
Proof.
  intros Hd Hp. pose proof (hook_detach_spec _ _ _ _ Hd) as (_ & Hpol & Hres). split; [done|].
  assert (handle ∈ hooked h) as Hin by (rewrite Hp; left).
  pose proof (Permutation_length Hp) as Hl. destruct res as [[]|error]; cbn [is_ok] in Hres.
  - specialize (Hres Hin). rewrite Hp in Hres. apply Permutation_length in Hres as Hl'. cbn in Hl'.
    assert (hooked h' = []) as -> by (apply length_zero_iff_nil; lia). by split; [cbn; lia|].
  - rewrite Hres. split; [cbn in Hl; lia|]. intros Hrel. specialize (Hrel _ _ Hin). by rewrite Hd in Hrel.
Qed.

Lemma detach_both_spec self ingress egress :
  hooked (ag_hooks self) ≡ₚ [ingress; egress] →
  let self' := detach_both self ingress egress in
  policy_of (ag_hooks self') = policy_of (ag_hooks self) ∧ (length (hooked (ag_hooks self')) ≤ 2)%nat ∧
  (detaches_reliably → hooked (ag_hooks self') = []).
Proof.
  intros Hp. unfold detach_both. cbn [ag_hooks set_hooks].
  destruct (hook_detach (ag_hooks self) egress) as [h1 res1] eqn:Hd1. cbn [fst].
  destruct (hook_detach h1 ingress) as [h2 res2] eqn:Hd2. cbn [fst].
  pose proof (hook_detach_spec _ _ _ _ Hd1) as (_ & Hpol1 & Hres1). pose proof (hook_detach_spec _ _ _ _ Hd2) as (_ & Hpol2 & Hres2).
  assert (egress ∈ hooked (ag_hooks self)) as Hin by (rewrite Hp; set_solver).
  pose proof (Permutation_length Hp) as Hl. destruct res1 as [[]|error]; cbn [is_ok] in Hres1.
  - specialize (Hres1 Hin). rewrite Hp in Hres1. rewrite (Permutation_swap egress ingress []) in Hres1. apply Permutation_cons_inv in Hres1.
    destruct (detached_one _ _ _ _ Hd2 (symmetry Hres1)) as (Hpol & Hlen & Hrel). split_and!; [congruence|lia|done].
  - rewrite Hres1 in Hres2. split; [congruence|]. split.
    + destruct res2 as [[]|]; cbn [is_ok] in Hres2; [|rewrite Hres2, Hl; cbn; lia].
      assert (ingress ∈ hooked (ag_hooks self)) as Hin2 by (rewrite Hp; left).
      apply Hres2, Permutation_length in Hin2. cbn in *. lia.
    + intros Hrel. specialize (Hrel _ _ Hin). by rewrite Hd1 in Hrel.
Qed.

Lemma publish_both_ok self identity ingress egress :
  ag_state self = Attaching → 0 ≤ ag_generation self → policy_of (ag_hooks self) = None →
  hooked (ag_hooks self) ≡ₚ [ingress; egress] → hh_role ingress = ExternalXdpIngress → hh_role egress = PhysicalTcEgress →
  service_ok (publish_both self identity ingress egress).1.
Proof.
  intros Hst Hgen Hpol Hp Hin Hout. unfold publish_both, verify_both.
  destruct (hook_verify (ag_hooks self) ingress) as [h1 res1] eqn:Hv1. apply hook_verify_spec in Hv1 as (Hh1 & Hg1 & Hp1).
  destruct res1 as [[]|error].
  2: { destruct (detach_both_spec (set_hooks self h1) ingress egress) as (Hpol' & Hl & Hrel); [cbn; by rewrite Hh1|].
       cbn in *. split_and!; [congruence|done..]. }
  destruct (hook_verify h1 egress) as [h2 res2] eqn:Hv2. apply hook_verify_spec in Hv2 as (Hh2 & Hg2 & Hp2).
  destruct res2 as [[]|error].
  2: { destruct (detach_both_spec (set_hooks self h2) ingress egress) as (Hpol' & Hl & Hrel); [cbn; by rewrite Hh2, Hh1|].
       cbn in *. split_and!; [congruence|done..]. }
  cbn [ag_hooks set_hooks ag_generation]. set (generation := Z.max _ 1).
  destruct (publish_observe h2 identity generation) as [h3 res3] eqn:Ho.
  apply publish_observe_spec in Ho as (Hh3 & Hp3 & Hg3). destruct res3 as [[]|error]; cbn [is_ok] in Hg3.
  - unfold move_to. cbn [set_generation set_hooks ag_state]. rewrite Hst.
    change (transition Attaching Observing) with (Ok (E := DomainError) Observing). unfold service_ok. cbn. split.
    + exists ingress, egress. by rewrite Hh3, Hh2, Hh1.
    + split_and!; [lia|done|]. by rewrite Hp3, Hp2, Hp1, Hpol.
  - destruct (detach_both_spec (set_hooks (set_hooks self h2) h3) ingress egress) as (Hpol' & Hl & Hrel);
      [cbn; by rewrite Hh3, Hh2, Hh1|]. cbn in *. split_and!; [congruence|done..].
Qed.

Lemma service_observe_ok self interface :
  service_ok self → 0 ≤ ag_generation self → service_ok (service_observe self interface).1.
Proof.
  intros Hok Hgen. unfold service_observe. destruct (decide (ag_state self = Detached)) as [Hst|Hst].
  2: { by rewrite bool_decide_eq_false_2. }
  assert (hooked (ag_hooks self) = [] ∧ policy_of (ag_hooks self) = None) as [Hh Hp].
  { unfold service_ok in Hok. by rewrite Hst in Hok. }
  rewrite bool_decide_eq_true_2 by done. cbn [negb]. destruct (InterfaceName_new interface) as [name|]; [|exact Hok].
  unfold move_to. rewrite Hst. cbn [transition]. change (transition Detached Attaching) with (Ok (E := DomainError) Attaching).
  cbn [set_state ag_resolver].
  destruct (resolve (ag_resolver self) name) as [resolver [identity|error]].
  2: { unfold service_ok. cbn. rewrite Hh, Hp. split_and!; [done|cbn; lia|done]. }
  unfold attach_both. cbn [set_resolver set_state ag_hooks].
  destruct (hook_attach (ag_hooks self) identity ExternalXdpIngress) as [h1 res1] eqn:Ha1.
  apply hook_attach_spec in Ha1 as (Hg1 & Hp1 & Hr1). destruct res1 as [ingress|error].
  2: { unfold service_ok. cbn. rewrite Hr1, Hh, Hp1. split_and!; [done|cbn; lia|done]. }
  destruct Hr1 as [Hrole1 Hh1]. rewrite Hh in Hh1.
  destruct (hook_attach h1 identity PhysicalTcEgress) as [h2 res2] eqn:Ha2.
  apply hook_attach_spec in Ha2 as (Hg2 & Hp2 & Hr2). destruct res2 as [egress|error].
  - destruct Hr2 as [Hrole2 Hh2]. rewrite Hh1 in Hh2. apply publish_both_ok; cbn; try done; [congruence|by rewrite Hh2].
  - destruct (hook_detach h2 ingress) as [h3 res3] eqn:Hd. cbn [fst].
    destruct (detached_one _ _ _ _ Hd) as (Hpol & Hl & Hrel); [by rewrite Hr2, Hh1|].
    unfold service_ok. cbn. split_and!; [congruence|lia|done].
Qed.

Lemma agent_run_ok self op :
  service_ok self → 0 ≤ ag_generation self → service_ok (agent_run self op).1.
Proof.
  intros Hok Hgen. destruct op as [interface|policy|]; [by apply service_observe_ok|..]; cbn [agent_run].
  - unfold service_apply_policy. destruct (decide (ag_state self = Observing)) as [Hst|Hst].
    2: { by rewrite bool_decide_eq_false_2. }
    rewrite bool_decide_eq_true_2 by done. cbn [negb]. unfold service_ok in Hok. rewrite Hst in Hok.
    destruct Hok as (Hhooks & Hpos & Hg & Hp).
    destruct (publish_policy _ policy) as [h res] eqn:Hpub. apply publish_policy_spec in Hpub as (Hh & Hg' & Hp').
    destruct res as [[]|error]; cbn [is_ok] in Hp'.
    + unfold move_to. cbn [set_hooks ag_state]. rewrite Hst.
      change (transition Observing Policing) with (Ok (E := DomainError) Policing). unfold service_ok. cbn.
      rewrite Hh, Hg', Hp'. done.
    + unfold service_ok. cbn. rewrite Hst, Hh, Hg', Hp'. done.
  - unfold service_expire_policy. destruct (decide (ag_state self = Policing)) as [Hst|Hst].
    2: { by rewrite bool_decide_eq_false_2. }
    rewrite bool_decide_eq_true_2 by done. cbn [negb]. unfold service_ok in Hok. rewrite Hst in Hok.
    destruct Hok as (Hhooks & Hpos & Hg & Hp).
    destruct (clear_policy _) as [h res] eqn:Hpub. apply clear_policy_spec in Hpub as (Hh & Hg' & Hp').
    destruct res as [[]|error]; cbn [is_ok] in Hp'.
    + unfold move_to. cbn [set_hooks ag_state]. rewrite Hst.
      change (transition Policing Observing) with (Ok (E := DomainError) Observing). unfold service_ok. cbn.
      rewrite Hh, Hg', Hp'. done.
    + unfold service_ok. cbn. rewrite Hst, Hh, Hg', Hp'. done.
Qed.

(** A generation is never negative, and an error is for good. *)
Lemma move_to_generation self target : ag_generation (move_to self target).1 = ag_generation self.
Proof. unfold move_to. by destruct (transition _ _). Qed.

Lemma service_run_generation self op : 0 ≤ ag_generation self → 0 ≤ ag_generation (agent_run self op).1.
Proof.
  intros Hg. destruct op as [interface|policy|]; cbn [agent_run].
  - unfold service_observe, attach_both, publish_both, verify_both.
    pose proof (move_to_generation self Attaching) as Hm. destruct (move_to self Attaching) as [self' res].
    repeat case_match; simplify_eq; rewrite ?move_to_generation; cbn in *; lia.
  - unfold service_apply_policy. repeat case_match; simplify_eq; rewrite ?move_to_generation; cbn; done.
  - unfold service_expire_policy. repeat case_match; simplify_eq; rewrite ?move_to_generation; cbn; done.
Qed.

Lemma service_error_final self op :
  ag_state self = IfaceError → agent_run self op = (self, Err (ServiceInvalidState IfaceError)).
Proof.
  intros Hst. destruct op as [interface|policy|]; cbn [agent_run].
  - unfold service_observe. by rewrite Hst.
  - unfold service_apply_policy. by rewrite Hst.
  - unfold service_expire_policy. by rewrite Hst.
Qed.

(** The hooks follow the lifecycle.  From a manager without hooks and policy on, after any
    sequence of requests, whatever fails: while the service observes or polices,
    exactly its ingress and its egress hook are attached, the generation it has is
    the one that is published, and a policy is published exactly while it polices;
    after an error nothing is left but hooks whose own detachment failed, and the
    error is for good. *)
Lemma service_hooks_follow_state (resolver : R) (hooks : H) ops :
  hooked hooks = [] → policy_of hooks = None →
  let self := foldl (λ self op, (agent_run self op).1) (AgentService_new resolver hooks) ops in
  service_ok self ∧ (ag_state self = IfaceError → ∀ op, (agent_run self op).1 = self).
Proof.
  intros Hh Hp. cbv zeta.
  assert (service_ok (AgentService_new resolver hooks) ∧ 0 ≤ ag_generation (AgentService_new resolver hooks)) as Hstart by done.
  revert Hstart. generalize (AgentService_new resolver hooks) as self. induction ops as [|op ops IH]; intros self [Hok Hg].
  - split; [done|]. intros Hst op. by rewrite service_error_final.
  - apply IH. split; [by apply agent_run_ok|by apply service_run_generation].
Qed.
End facts.

(** ** A manager in memory *)
Module ServiceExample.

(** What is attached and published; [mm_fails] are the calls, from now on, that fail. *)
Record Manager : Type := mkManager {
  mm_hooked : list HookHandle;
  mm_generation : option Z;
  mm_policy : option PolicyRequest;
  mm_fails : list bool;
}.

Definition call (h : Manager) : Manager * bool :=
  (mkManager (mm_hooked h) (mm_generation h) (mm_policy h) (tail (mm_fails h)), hd false (mm_fails h)).

(** A call with an effect, unless it fails. *)
Definition calling {T} (h : Manager) (effect : Manager → Manager) (value : T) : Manager * result PortError T :=
  let '(h, failed) := call h in if failed then (h, Err (Adapter "failed")) else (effect h, Ok value).

Fixpoint remove_handle (handle : HookHandle) (l : list HookHandle) : list HookHandle :=
  match l with [] => [] | x :: l => if decide (x = handle) then l else x :: remove_handle handle l end.

#[export] Instance resolver : InterfaceResolver unit := λ _ name, (tt, Ok (mkInterfaceIdentity name 7)).

#[export] Instance manager : HookManager Manager := {
  hook_attach h _ role :=
    let handle := mkHookHandle 1 role in
    calling h (λ h, mkManager (mm_hooked h ++ [handle]) (mm_generation h) (mm_policy h) (mm_fails h)) handle;
  hook_verify h _ := calling h id tt;
  hook_detach h handle :=
    calling h (λ h, mkManager (remove_handle handle (mm_hooked h)) (mm_generation h) (mm_policy h) (mm_fails h)) tt;
  publish_observe h _ generation :=
    calling h (λ h, mkManager (mm_hooked h) (Some generation) (mm_policy h) (mm_fails h)) tt;
  publish_policy h policy := calling h (λ h, mkManager (mm_hooked h) (mm_generation h) (Some policy) (mm_fails h)) tt;
  clear_policy h := calling h (λ h, mkManager (mm_hooked h) (mm_generation h) None (mm_fails h)) tt;
}.

Lemma remove_handle_Permutation handle l : handle ∈ l → l ≡ₚ handle :: remove_handle handle l.
Proof.
  induction l as [|x l IH]; [set_solver|]. intros Hin. cbn. case_decide as Heq; [by subst|].
  rewrite Permutation_swap. apply Permutation_skip, IH. set_solver.
Qed.

#[export] Instance manager_spec : HookManagerSpec Manager.
Proof.
  refine {| hooked := mm_hooked; generation_of := mm_generation; policy_of := mm_policy |}.
  all: intros h *; cbn; unfold calling; cbn; destruct (hd false (mm_fails h)); intros [= <- <-]; cbn; try done.
  split_and!; [done..|]. apply remove_handle_Permutation.
Defined.

(** The verification of the egress hook fails: both hooks are detached again. *)
Lemma failed_verification_detaches :
  let self := (service_observe (AgentService_new tt (mkManager [] None None [false; false; false; true])) "eth0").1 in
  ag_state self = IfaceError ∧ mm_hooked (ag_hooks self) = [].
Proof. by vm_compute. Qed.
End ServiceExample.
