(* ===== verification/FingerprintWindow.v ===== *)
(** Fingerprint windows of [l2-loop-core] ([fingerprint_window.rs]): the
    difference between two cumulative scans of the fingerprint map, taken ten
    to fifteen seconds apart, and the history that keeps the last scan. *)
From S2P Require Import Prelude Domain Packet FrameHash Rate Fingerprint.

Definition DETECTION_FINGERPRINT_WINDOW_MS : Z := 10000.
Definition DETECTION_FINGERPRINT_FRESHNESS_MS : Z := 15000.

Inductive FingerprintWindowState : Type :=
| WindowWarmingUp | WindowReady | WindowUnavailable.

#[export] Instance FingerprintWindowState_eq_dec : EqDecision FingerprintWindowState.
Proof. solve_decision. Defined.

Record FingerprintWindowReport : Type := mkFingerprintWindowReport {
  fw_state : FingerprintWindowState;
  fw_window_ms : Z;
  fw_coverage_ms : Z;
  fw_start_unix_ms : option Z;
  fw_end_unix_ms : option Z;
  fw_captured_entry_count : Z;
  fw_delta_relation_count : Z;
  fw_repeated_relation_count : Z;
  fw_egress_first_correlated_relation_count : Z;
  fw_ingress : FingerprintCounters;
  fw_egress : FingerprintCounters;
  fw_dominant_ingress_packet_ratio_milli : option Z;
  fw_maximum_ingress_to_egress_packet_ratio_milli : option Z;
  fw_last_error_code : option string;
}.

Definition FingerprintWindowReport_warming : FingerprintWindowReport :=
  mkFingerprintWindowReport WindowWarmingUp DETECTION_FINGERPRINT_WINDOW_MS 0 None None 0 0 0 0
    (mkFingerprintCounters 0 0) (mkFingerprintCounters 0 0) None None None.

Definition validate_error_code (code : string) : result DomainError unit :=
  if negb (error_code_ok code) then Err (InvalidObservation "detection error code is invalid")
  else Ok tt.

Definition FingerprintWindowReport_unavailable (code : string)
    : result DomainError FingerprintWindowReport :=
  _ ← validate_error_code code;
  let w := FingerprintWindowReport_warming in
  Ok (mkFingerprintWindowReport WindowUnavailable (fw_window_ms w) (fw_coverage_ms w)
    (fw_start_unix_ms w) (fw_end_unix_ms w) (fw_captured_entry_count w)
    (fw_delta_relation_count w) (fw_repeated_relation_count w)
    (fw_egress_first_correlated_relation_count w) (fw_ingress w) (fw_egress w)
    (fw_dominant_ingress_packet_ratio_milli w)
    (fw_maximum_ingress_to_egress_packet_ratio_milli w) (Some code)).

(** [a > b] on [Option<u64>], where [None] is below every [Some]. *)
Definition option_gt (a b : option Z) : bool :=
  match a, b with
  | Some a, Some b => b <? a
  | Some _, None => true
  | None, _ => false
  end.

Definition window_counters_are_empty (self : FingerprintWindowReport) : bool :=
  (fw_delta_relation_count self =? 0)
  && (fw_repeated_relation_count self =? 0)
  && (fw_egress_first_correlated_relation_count self =? 0)
  && bool_decide (fw_ingress self = FingerprintCounters_default)
  && bool_decide (fw_egress self = FingerprintCounters_default)
  && is_none (fw_dominant_ingress_packet_ratio_milli self)
  && is_none (fw_maximum_ingress_to_egress_packet_ratio_milli self).

Definition FingerprintWindowReport_validate (self : FingerprintWindowReport)
    : result DomainError unit :=
  if negb (fw_window_ms self =? DETECTION_FINGERPRINT_WINDOW_MS)
     || (FINGERPRINT_CAPACITY <? fw_captured_entry_count self)
     || (fw_delta_relation_count self <? fw_repeated_relation_count self)
     || (fw_delta_relation_count self <? fw_egress_first_correlated_relation_count self)
     || is_some_and (fw_dominant_ingress_packet_ratio_milli self) (λ ratio, 1000 <? ratio)
  then Err (InvalidObservation "fingerprint window fixed contract is invalid")
  else
    match fw_state self with
    | WindowWarmingUp =>
        if negb (fw_coverage_ms self =? 0)
           || is_some (fw_start_unix_ms self)
           || is_some (fw_end_unix_ms self)
           || negb (fw_captured_entry_count self =? 0)
           || negb (window_counters_are_empty self)
           || is_some (fw_last_error_code self)
        then Err (InvalidObservation "warming fingerprint window contains evidence")
        else Ok tt
    | WindowReady =>
        if negb ((DETECTION_FINGERPRINT_WINDOW_MS <=? fw_coverage_ms self)
                 && (fw_coverage_ms self <=? DETECTION_FINGERPRINT_FRESHNESS_MS))
           || is_none (fw_start_unix_ms self)
           || is_none (fw_end_unix_ms self)
           || option_gt (fw_start_unix_ms self) (fw_end_unix_ms self)
           || is_some (fw_last_error_code self)
           || ((fc_packets (fw_ingress self) =? 0)
               && is_some (fw_dominant_ingress_packet_ratio_milli self))
           || ((fc_packets (fw_egress self) =? 0)
               && is_some (fw_maximum_ingress_to_egress_packet_ratio_milli self))
        then Err (InvalidObservation "ready fingerprint window evidence is invalid")
        else Ok tt
    | WindowUnavailable =>
        if negb (fw_coverage_ms self =? 0)
           || is_some (fw_start_unix_ms self)
           || is_some (fw_end_unix_ms self)
           || negb (fw_captured_entry_count self =? 0)
           || negb (window_counters_are_empty self)
           || is_none (fw_last_error_code self)
        then Err (InvalidObservation "unavailable fingerprint window shape is invalid")
        else validate_error_code (default ""%string (fw_last_error_code self))
    end.

(** ** The history *)
Inductive FingerprintWindowError : Type :=
| InvalidEvidence | WindowClockRegression | WindowCounterRegression
| ImmutableValueChanged | WindowCalculationFailed.

#[export] Instance FingerprintWindowError_eq_dec : EqDecision FingerprintWindowError.
Proof. solve_decision. Defined.

Definition stable_code (self : FingerprintWindowError) : string :=
  match self with
  | InvalidEvidence => "DETECTION_FINGERPRINT_INVALID"
  | WindowClockRegression => "DETECTION_FINGERPRINT_CLOCK_REGRESSION"
  | WindowCounterRegression => "DETECTION_FINGERPRINT_COUNTER_REGRESSION"
  | ImmutableValueChanged => "DETECTION_FINGERPRINT_IMMUTABLE_CHANGED"
  | WindowCalculationFailed => "DETECTION_FINGERPRINT_CALCULATION_FAILED"
  end.

Record FingerprintEndpoint : Type := mkFingerprintEndpoint {
  ep_captured_at_monotonic_ns : Z;
  ep_captured_at_unix_ms : Z;
  ep_entries : gmap ExactKey FingerprintEvidence;
}.

Record FingerprintWindowHistory : Type := mkFingerprintWindowHistory {
  fh_identity : RateIdentity;
  fh_endpoint : option FingerprintEndpoint;
  fh_report : FingerprintWindowReport;
}.

Definition FingerprintWindowHistory_new (identity : RateIdentity) : FingerprintWindowHistory :=
  mkFingerprintWindowHistory identity None FingerprintWindowReport_warming.

Definition insert_entry (entries : gmap ExactKey FingerprintEvidence) (item : FingerprintEvidence)
    : result FingerprintWindowError (gmap ExactKey FingerprintEvidence) :=
  if is_some (entries !! ExactKey_from (fe_key item)) then Err InvalidEvidence
  else Ok (<[ExactKey_from (fe_key item) := item]> entries).

Definition validate_scan (identity : RateIdentity) (evidence : list FingerprintEvidence)
    : result FingerprintWindowError (gmap ExactKey FingerprintEvidence) :=
  _ ← map_err (λ _, InvalidEvidence)
        (FingerprintReport_build (ri_ifindex identity) (ri_generation identity) evidence);
  try_fold insert_entry ∅ evidence.

Record SideDelta : Type := mkSideDelta {
  de_first_seen_ns : Z;
  de_packets : Z;
  de_bytes : Z;
}.

Record RelationDelta : Type := mkRelationDelta {
  rd_ingress : option SideDelta;
  rd_egress : option SideDelta;
}.

Definition RelationDelta_default : RelationDelta := mkRelationDelta None None.

(** The growth of one record since the previous scan. *)
Definition entry_delta (previous : gmap ExactKey FingerprintEvidence) (key : ExactKey)
    (item : FingerprintEvidence) : result FingerprintWindowError (Z * Z) :=
  match previous !! key with
  | Some old =>
      let o := fe_value old in
      let v := fe_value item in
      if negb (fv_first_seen_ns o =? fv_first_seen_ns v)
         || negb (bool_decide (fv_source_mac o = fv_source_mac v))
         || negb (bool_decide (fv_destination_mac o = fv_destination_mac v))
      then Err ImmutableValueChanged
      else if (fv_last_seen_ns v <? fv_last_seen_ns o)
              || (fv_packets v <? fv_packets o)
              || (fv_bytes v <? fv_bytes o)
      then Err WindowCounterRegression
      else Ok (fv_packets v - fv_packets o, fv_bytes v - fv_bytes o)
  | None => Ok (fv_packets (fe_value item), fv_bytes (fe_value item))
  end.

(** One iteration of the first loop of [build_window]. *)
Definition collect_delta (previous : gmap ExactKey FingerprintEvidence)
    (relations : gmap RelationKey RelationDelta) (entry : ExactKey * FingerprintEvidence)
    : result FingerprintWindowError (gmap RelationKey RelationDelta) :=
  let key := entry.1 in
  let item := entry.2 in
  delta ← entry_delta previous key item;
  let packets := delta.1 in
  let bytes := delta.2 in
  if (packets =? 0) && (bytes =? 0) then Ok relations
  else
    let side := mkSideDelta (fv_first_seen_ns (fe_value item)) packets bytes in
    let relation_key := RelationKey_from (fe_key item) in
    let relation := default RelationDelta_default (relations !! relation_key) in
    if fk_direction (fe_key item) =? direction.INGRESS
    then Ok (<[relation_key := mkRelationDelta (Some side) (rd_egress relation)]> relations)
    else if fk_direction (fe_key item) =? direction.EGRESS
    then Ok (<[relation_key := mkRelationDelta (rd_ingress relation) (Some side)]> relations)
    else Err InvalidEvidence.

Definition add_side (counters : FingerprintCounters) (side : SideDelta)
    : result FingerprintWindowError FingerprintCounters :=
  packets ← ok_or (checked_add U64_MAX (fc_packets counters) (de_packets side))
    WindowCalculationFailed;
  bytes ← ok_or (checked_add U64_MAX (fc_bytes counters) (de_bytes side))
    WindowCalculationFailed;
  Ok (mkFingerprintCounters packets bytes).

Definition ratio_milli (numerator denominator : Z) : option Z :=
  if denominator =? 0 then None
  else Some (default U64_MAX (try_from_wide U64_MAX ((numerator * 1000) / denominator))).

Definition maximize_directional_ratio (maximum : option Z) (ingress egress : Z) : option Z :=
  let ratio := saturated_ratio_milli ingress egress in
  Some (Z.max (default 0 maximum) ratio).

(** The variables of the second loop of [build_window]. *)
Record WindowTotals : Type := mkWindowTotals {
  wt_ingress : FingerprintCounters;
  wt_egress : FingerprintCounters;
  wt_repeated : Z;
  wt_egress_first : Z;
  wt_maximum_ratio : option Z;
  wt_dominant_ingress_packets : Z;
}.

Definition WindowTotals_new : WindowTotals :=
  mkWindowTotals FingerprintCounters_default FingerprintCounters_default 0 0 None 0.

Definition window_increment (value : Z) : result FingerprintWindowError Z :=
  ok_or (checked_add U16_MAX value 1) WindowCalculationFailed.

Definition delta_repeats (side : option SideDelta) : bool :=
  is_some_and side (λ side, 1 <? de_packets side).

(** One iteration of the second loop of [build_window]. *)
Definition total_relation (t : WindowTotals) (relation : RelationDelta)
    : result FingerprintWindowError WindowTotals :=
  ingress_part ←
    match rd_ingress relation with
    | Some side =>
        ingress ← add_side (wt_ingress t) side;
        Ok (ingress, Z.max (wt_dominant_ingress_packets t) (de_packets side))
    | None => Ok (wt_ingress t, wt_dominant_ingress_packets t)
    end;
  egress ←
    match rd_egress relation with
    | Some side => add_side (wt_egress t) side
    | None => Ok (wt_egress t)
    end;
  repeated ←
    (if delta_repeats (rd_ingress relation) || delta_repeats (rd_egress relation)
     then window_increment (wt_repeated t) else Ok (wt_repeated t));
  correlated ←
    match rd_ingress relation, rd_egress relation with
    | Some ingress_side, Some egress_side =>
        egress_first ←
          (if de_first_seen_ns egress_side <? de_first_seen_ns ingress_side
           then window_increment (wt_egress_first t) else Ok (wt_egress_first t));
        Ok (egress_first, maximize_directional_ratio (wt_maximum_ratio t)
          (de_packets ingress_side) (de_packets egress_side))
    | _, _ => Ok (wt_egress_first t, wt_maximum_ratio t)
    end;
  Ok (mkWindowTotals ingress_part.1 egress repeated correlated.1 correlated.2 ingress_part.2).

Definition build_window (previous current : FingerprintEndpoint) (coverage_ms : Z)
    : result FingerprintWindowError FingerprintWindowReport :=
  relations ← try_fold (collect_delta (ep_entries previous)) ∅
    (btree_iter exact_fields (ep_entries current));
  t ← try_fold total_relation WindowTotals_new (btree_values relation_fields relations);
  delta_relation_count ← ok_or (try_from_wide U16_MAX (Z.of_nat (size relations)))
    WindowCalculationFailed;
  captured_entry_count ← ok_or (try_from_wide U16_MAX (Z.of_nat (size (ep_entries current))))
    WindowCalculationFailed;
  let dominant_ratio := ratio_milli (wt_dominant_ingress_packets t) (fc_packets (wt_ingress t)) in
  let report := mkFingerprintWindowReport WindowReady DETECTION_FINGERPRINT_WINDOW_MS coverage_ms
    (Some (ep_captured_at_unix_ms previous)) (Some (ep_captured_at_unix_ms current))
    captured_entry_count delta_relation_count (wt_repeated t) (wt_egress_first t)
    (wt_ingress t) (wt_egress t) dominant_ratio (wt_maximum_ratio t) None in
  _ ← map_err (λ _, WindowCalculationFailed) (FingerprintWindowReport_validate report);
  Ok report.

(** [fail]: [expect] cannot panic, since every stable code is valid
    ([stable_code_unavailable]). *)
Definition window_fail {A} (self : FingerprintWindowHistory) (error : FingerprintWindowError)
    : FingerprintWindowHistory * result FingerprintWindowError A :=
  match FingerprintWindowReport_unavailable (stable_code error) with
  | Ok report => (mkFingerprintWindowHistory (fh_identity self) None report, Err error)
  | Err _ => (self, Err error)
  end.

Definition with_report (self : FingerprintWindowHistory) (endpoint : option FingerprintEndpoint)
    (report : FingerprintWindowReport) : FingerprintWindowHistory :=
  mkFingerprintWindowHistory (fh_identity self) endpoint report.

Definition record_scan (self : FingerprintWindowHistory)
    (captured_at_monotonic_ns captured_at_unix_ms : Z) (evidence : list FingerprintEvidence)
    : FingerprintWindowHistory * result FingerprintWindowError FingerprintWindowReport :=
  let warming := FingerprintWindowReport_warming in
  match validate_scan (fh_identity self) evidence with
  | Err error => window_fail self error
  | Ok entries =>
      let current := mkFingerprintEndpoint captured_at_monotonic_ns captured_at_unix_ms entries in
      match fh_endpoint self with
      | None => (with_report self (Some current) warming, Ok warming)
      | Some previous =>
          match checked_sub captured_at_monotonic_ns (ep_captured_at_monotonic_ns previous) with
          | None => window_fail self WindowClockRegression
          | Some elapsed_ns =>
              if elapsed_ns =? 0 then window_fail self WindowClockRegression
              else if captured_at_unix_ms <? ep_captured_at_unix_ms previous
              then window_fail self WindowClockRegression
              else
                let coverage_ms := elapsed_ns / 1000000 in
                if coverage_ms <? DETECTION_FINGERPRINT_WINDOW_MS
                then (with_report self (fh_endpoint self) warming, Ok warming)
                else if DETECTION_FINGERPRINT_FRESHNESS_MS <? coverage_ms
                then (with_report self (Some current) warming, Ok warming)
                else
                  match build_window previous current coverage_ms with
                  | Err error => window_fail self error
                  | Ok report => (with_report self (Some current) report, Ok report)
                  end
          end
      end
  end.

Definition window_unavailable (self : FingerprintWindowHistory) (code : string)
    : FingerprintWindowHistory * result DomainError unit :=
  match FingerprintWindowReport_unavailable code with
  | Ok report => (with_report self None report, Ok tt)
  | Err e => (with_report self None (fh_report self), Err e)
  end.

Definition window_clear (self : FingerprintWindowHistory) : FingerprintWindowHistory :=
  with_report self None FingerprintWindowReport_warming.

(** ** Error codes *)
Lemma error_code_ok_validate code :
  error_code_ok code = true ↔ validate_error_code code = Ok tt.
Proof. unfold validate_error_code. by destruct (error_code_ok code). Qed.

Lemma stable_code_unavailable e :
  ∃ r, FingerprintWindowReport_unavailable (stable_code e) = Ok r ∧
    FingerprintWindowReport_validate r = Ok tt ∧ fw_state r = WindowUnavailable ∧
    fw_last_error_code r = Some (stable_code e).
Proof. destruct e; eexists; (split; [vm_compute; reflexivity|]); split_and!; reflexivity. Qed.

Lemma unavailable_validates code r :
  FingerprintWindowReport_unavailable code = Ok r → FingerprintWindowReport_validate r = Ok tt.
Proof.
  unfold FingerprintWindowReport_unavailable. intros H. inv_ok. destruct a.
  unfold FingerprintWindowReport_validate. cbn. done.
Qed.

(** ** Reachable histories *)
Inductive window_op : Type :=
| OpRecordScan (monotonic_ns unix_ms : Z) (evidence : list FingerprintEvidence)
| OpWindowUnavailable (code : string)
| OpWindowClear.

Definition window_step (h : FingerprintWindowHistory) (op : window_op) : FingerprintWindowHistory :=
  match op with
  | OpRecordScan mono unix ev => (record_scan h mono unix ev).1
  | OpWindowUnavailable code => (window_unavailable h code).1
  | OpWindowClear => window_clear h
  end.

(** The invariant: the report satisfies its contract; an unavailable report is
    never kept next to an endpoint; the kept scan is one that was validated. *)
Definition window_wf (h : FingerprintWindowHistory) : Prop :=
  FingerprintWindowReport_validate (fh_report h) = Ok tt ∧
  (fw_state (fh_report h) = WindowUnavailable → fh_endpoint h = None) ∧
  (∀ ep, fh_endpoint h = Some ep →
    ∃ ev, validate_scan (fh_identity h) ev = Ok (ep_entries ep)).

Lemma window_fail_wf {A} h e : window_wf (window_fail (A := A) h e).1.
Proof.
  destruct (stable_code_unavailable e) as (r & Hr & Hv & Hs & _). unfold window_fail.
  rewrite Hr. by split_and!.
Qed.

Lemma build_window_validates p c cov r :
  build_window p c cov = Ok r →
  FingerprintWindowReport_validate r = Ok tt ∧ fw_state r = WindowReady ∧ fw_coverage_ms r = cov.
Proof. unfold build_window. intros H. inv_ok. by destruct a3. Qed.

Lemma record_scan_wf h mono unix ev : window_wf h → window_wf (record_scan h mono unix ev).1.
Proof.
  intros (Hv & Hu & Hep). unfold record_scan.
  destruct (validate_scan (fh_identity h) ev) as [entries|e] eqn:Hs; [|apply window_fail_wf].
  destruct (fh_endpoint h) as [previous|] eqn:He.
  2:{ split_and!; [reflexivity|done|]. intros ep [= <-]. by exists ev. }
  destruct (checked_sub _ _) as [elapsed|]; [|apply window_fail_wf].
  destruct (elapsed =? 0); [apply window_fail_wf|].
  destruct (unix <? _); [apply window_fail_wf|].
  destruct (_ <? DETECTION_FINGERPRINT_WINDOW_MS).
  { split_and!; [reflexivity|done|]. intros ep Hq. apply Hep. exact Hq. }
  destruct (DETECTION_FINGERPRINT_FRESHNESS_MS <? _).
  { split_and!; [reflexivity|done|]. intros ep [= <-]. by exists ev. }
  destruct (build_window _ _ _) as [r|e] eqn:Hb; [|apply window_fail_wf].
  apply build_window_validates in Hb as (Hr & Hst & _).
  split_and!; cbn; [done|by rewrite Hst|]. intros ep [= <-]. by exists ev.
Qed.

Lemma window_step_wf h op : window_wf h → window_wf (window_step h op).
Proof.
  destruct op as [mono unix ev|code|]; cbn [window_step]; [apply record_scan_wf|..].
  - intros (Hv & Hu & Hep). unfold window_unavailable.
    destruct (FingerprintWindowReport_unavailable code) eqn:Hr; cbn.
    + split; [|by split]. cbn. by eapply unavailable_validates.
    + split; [done|by split].
  - intros _. split; [reflexivity|by split].
Qed.

(** Whatever sequence of scans (valid or not), unavailability reports and
    clears a fresh history goes through, the report it publishes satisfies the
    report contract, an unavailable report leaves no scan to compare with, and
    the kept scan is one that passed validation for the interface. *)
Lemma fingerprint_window_invariant identity ops :
  window_wf (foldl window_step (FingerprintWindowHistory_new identity) ops).
Proof.
  assert (window_wf (FingerprintWindowHistory_new identity)) as H by (by split_and!).
  revert H. generalize (FingerprintWindowHistory_new identity).
  induction ops as [|op ops IH]; [done|]. intros h Hh. by apply IH, window_step_wf.
Qed.

(** ** Specification: the growth between two scans *)
Definition growth (previous : gmap ExactKey FingerprintEvidence) (e : FingerprintEvidence)
    : Z * Z :=
  match previous !! exact_of e with
  | Some old => (fv_packets (fe_value e) - fv_packets (fe_value old),
                 fv_bytes (fe_value e) - fv_bytes (fe_value old))
  | None => (fv_packets (fe_value e), fv_bytes (fe_value e))
  end.

(** The record of [e] with its counters replaced by their growth. *)
Definition grown_by (previous : gmap ExactKey FingerprintEvidence) (e : FingerprintEvidence)
    : FingerprintEvidence :=
  let v := fe_value e in
  mkFingerprintEvidence (fe_key e)
    (mkFingerprintValue (fv_first_seen_ns v) (fv_last_seen_ns v) (growth previous e).1
      (growth previous e).2 (fv_source_mac v) (fv_destination_mac v) (fv_reserved v)).

Definition has_grown (previous : gmap ExactKey FingerprintEvidence) (e : FingerprintEvidence)
    : bool := negb (((growth previous e).1 =? 0) && ((growth previous e).2 =? 0)).

Definition grown (previous : gmap ExactKey FingerprintEvidence) (ev : list FingerprintEvidence)
    : list FingerprintEvidence :=
  grown_by previous <$> List.filter (has_grown previous) ev.

(** A record continues the one of the previous scan: same first sighting and
    addresses, no counter or timestamp went back, and bytes do not grow without
    packets. *)
Definition continues (previous : gmap ExactKey FingerprintEvidence) (e : FingerprintEvidence)
    : Prop :=
  ((growth previous e).1 = 0 → (growth previous e).2 = 0) ∧
  match previous !! exact_of e with
  | Some old =>
      let o := fe_value old in
      let v := fe_value e in
      fv_first_seen_ns o = fv_first_seen_ns v ∧ fv_source_mac o = fv_source_mac v ∧
      fv_destination_mac o = fv_destination_mac v ∧ fv_last_seen_ns o ≤ fv_last_seen_ns v ∧
      0 ≤ fv_packets o ≤ fv_packets v ∧ 0 ≤ fv_bytes o ≤ fv_bytes v
  | None => True
  end.

#[export] Instance continues_dec previous e : Decision (continues previous e).
Proof.
  unfold continues. destruct (previous !! exact_of e); apply _.
Defined.

Definition directional_ratio (r : Relation) : option Z :=
  match rl_ingress r, rl_egress r with
  | Some i, Some e =>
      Some (saturated_ratio_milli (fc_packets (sd_counters i)) (fc_packets (sd_counters e)))
  | _, _ => None
  end.

Definition ingress_packets (r : Relation) : Z :=
  match rl_ingress r with Some s => fc_packets (sd_counters s) | None => 0 end.

Definition window_spec (start_unix_ms end_unix_ms coverage_ms : Z)
    (previous : gmap ExactKey FingerprintEvidence) (ev : list FingerprintEvidence)
    : FingerprintWindowReport :=
  let changes := grown previous ev in
  let rs := relations_of changes in
  let ingress := traffic is_ingress changes in
  mkFingerprintWindowReport WindowReady DETECTION_FINGERPRINT_WINDOW_MS coverage_ms
    (Some start_unix_ms) (Some end_unix_ms) (Z.of_nat (length ev)) (Z.of_nat (length rs))
    (count_if repeats rs) (count_if (first_seen_is Gt) rs) ingress (traffic is_egress changes)
    (ratio_milli (foldr Z.max 0 (ingress_packets <$> rs)) (fc_packets ingress))
    (max_option (omap directional_ratio rs)) None.

(** ** The scan's map *)
Lemma insert_entries ev m :
  try_fold insert_entry ∅ ev = Ok m →
  NoDup (exact_of <$> ev) ∧ ∀ k e, m !! k = Some e ↔ e ∈ ev ∧ exact_of e = k.
Proof.
  apply (try_fold_ind insert_entry (λ don m, NoDup (exact_of <$> don) ∧
    ∀ k e, m !! k = Some e ↔ e ∈ don ∧ exact_of e = k)).
  - split; [constructor|]. intros k e. rewrite lookup_empty. split; [done|].
    intros [H _]. by apply not_elem_of_nil in H.
  - intros don x b b' _ [Hnd Hb] H. unfold insert_entry in H. inv_ok.
    change (ExactKey_from (fe_key x)) with (exact_of x) in *.
    destruct (b !! exact_of x) as [y|] eqn:Hx; [done|]. split.
    + rewrite fmap_app. apply NoDup_app. split_and!; [done| |apply NoDup_singleton].
      intros k (e & -> & He)%list_elem_of_fmap Hk%list_elem_of_singleton.
      assert (b !! exact_of x = Some e) by (by apply Hb). congruence.
    + intros k e. rewrite elem_of_app, list_elem_of_singleton.
      destruct (decide (k = exact_of x)) as [->|Hne].
      * rewrite lookup_insert_eq. split; [intros [= ->]; auto|].
        intros [[He| ->] Heq]; [|done]. assert (b !! exact_of x = Some e) by (by apply Hb).
        congruence.
      * rewrite lookup_insert_ne by done. rewrite Hb. naive_solver.
Qed.

Lemma entries_Permutation ev m :
  try_fold insert_entry ∅ ev = Ok m →
  map_to_list m ≡ₚ (λ e, (exact_of e, e)) <$> ev.
Proof.
  intros [Hnd Hm]%insert_entries. apply NoDup_Permutation.
  - apply NoDup_map_to_list.
  - eapply (NoDup_fmap_1 fst). by rewrite <-list_fmap_compose.
  - intros [k e]. rewrite elem_of_map_to_list, Hm, list_elem_of_fmap. naive_solver.
Qed.

Lemma validate_scan_Ok identity ev m :
  Forall evidence_u64 ev → validate_scan identity ev = Ok m →
  scan_ok (ri_ifindex identity) (ri_generation identity) ev ∧
  map_to_list m ≡ₚ (λ e, (exact_of e, e)) <$> ev.
Proof.
  intros Hu H. unfold validate_scan in H. inv_ok.
  apply fingerprint_build_iff in Ha as [Hok _]; [|done]. split; [done|].
  by apply entries_Permutation.
Qed.

(** ** The first loop collects the changes *)
Definition delta_side (s : Side) : SideDelta :=
  mkSideDelta (sd_first_seen_ns s) (fc_packets (sd_counters s)) (fc_bytes (sd_counters s)).
Definition delta_relation (r : Relation) : RelationDelta :=
  mkRelationDelta (delta_side <$> rl_ingress r) (delta_side <$> rl_egress r).

Lemma entry_delta_continues previous e :
  continues previous e → entry_delta previous (exact_of e) e = Ok (growth previous e).
Proof.
  unfold continues, entry_delta, growth. intros [_ H].
  destruct (previous !! exact_of e) as [old|]; [|done].
  destruct H as (-> & -> & -> & Hl & Hp & Hb). rewrite Z.eqb_refl, !bool_decide_eq_true_2 by done.
  cbn [negb orb]. rewrite !(proj2 (Z.ltb_ge _ _)) by lia. done.
Qed.

Lemma grown_exact previous l : exact_of <$> grown previous l = exact_of <$> List.filter (has_grown previous) l.
Proof. unfold grown. rewrite <-list_fmap_compose. done. Qed.

Lemma filter_exact_not_in (p : FingerprintEvidence → bool) l k :
  k ∉ exact_of <$> l → k ∉ exact_of <$> List.filter p l.
Proof.
  intros Hk (e & -> & He)%list_elem_of_fmap. apply Hk, list_elem_of_fmap. exists e.
  split; [done|]. rewrite list_elem_of_In, filter_In, <-list_elem_of_In in He. tauto.
Qed.

Lemma grown_snoc previous l x :
  grown previous (l ++ [x]) =
    grown previous l ++ (if has_grown previous x then [grown_by previous x] else []).
Proof.
  unfold grown. rewrite List.filter_app, fmap_app. cbn [List.filter].
  by destruct (has_grown previous x).
Qed.

Lemma collect_step previous don x g :
  grouped delta_relation (grown previous don) g →
  continues previous x → is_ingress x || is_egress x = true → exact_of x ∉ exact_of <$> don →
  ∃ g', collect_delta previous g (exact_of x, x) = Ok g' ∧
    grouped delta_relation (grown previous (don ++ [x])) g'.
Proof.
  intros Hg Hc Hdir Hx. unfold collect_delta. cbn [fst snd].
  rewrite entry_delta_continues by done. cbn [mbind result_bind]. rewrite grown_snoc.
  unfold has_grown. destruct (_ && _) eqn:Hz; cbn [negb].
  { exists g. by rewrite app_nil_r. }
  change (RelationKey_from (fe_key x)) with (relation_key_of (grown_by previous x)).
  rewrite (grouped_entry delta_relation _ (grown previous don)) by done.
  assert (exact_of (grown_by previous x) ∉ exact_of <$> grown previous don) as Hnew.
  { rewrite grown_exact. by apply filter_exact_not_in. }
  unfold is_ingress, is_egress in Hdir.
  destruct (fk_direction (fe_key x) =? direction.INGRESS) eqn:Hi.
  - eexists; split; [reflexivity|]. apply grouped_snoc; [done|].
    rewrite relation_of_snoc_ingress; [done..| |done].
    unfold is_egress, grown_by, direction.INGRESS, direction.EGRESS in *. cbn [fe_key]. lia.
  - cbn [orb] in Hdir. rewrite Hdir.
    eexists; split; [reflexivity|]. apply grouped_snoc; [done|].
    by rewrite relation_of_snoc_egress.
Qed.

Lemma prefix_elem_of {A} (don : list A) x l : don ++ [x] `prefix_of` l → x ∈ l.
Proof.
  intros [k ->]. apply elem_of_app. left. apply elem_of_app. right. apply list_elem_of_here.
Qed.

Lemma prefix_NoDup_not_in {A B} (f : A → B) (don : list A) x l :
  don ++ [x] `prefix_of` l → NoDup (f <$> l) → f x ∉ f <$> don.
Proof.
  intros [k ->] Hnd. rewrite !fmap_app in Hnd. apply NoDup_app in Hnd as (Hnd & _ & _).
  apply NoDup_app in Hnd as (_ & Hnd & _). intros Hin. eapply Hnd; [done|]. apply list_elem_of_here.
Qed.

Lemma collect_all previous es :
  Forall (λ p, p.1 = exact_of p.2 ∧ continues previous p.2 ∧
    is_ingress p.2 || is_egress p.2 = true) es →
  NoDup (exact_of <$> es.*2) →
  ∃ g, try_fold (collect_delta previous) ∅ es = Ok g ∧
    grouped delta_relation (grown previous es.*2) g.
Proof.
  intros Hes Hnd.
  apply (try_fold_total (collect_delta previous)
    (λ don g, grouped delta_relation (grown previous don.*2) g)); [apply grouped_empty|].
  intros don [k x] g Hp Hg. rewrite Forall_forall in Hes.
  destruct (Hes _ (prefix_elem_of _ _ _ Hp)) as (Hk & Hc & Hd). cbn [fst snd] in *. subst k.
  rewrite fmap_app. apply collect_step; try done.
  rewrite <-list_fmap_compose in Hnd |- *.
  apply (prefix_NoDup_not_in (exact_of ∘ snd) don (exact_of x, x) es Hp Hnd).
Qed.

(** ** The second loop totals them *)
Definition side_traffic (side : Relation → option Side) (rs : list Relation) : FingerprintCounters :=
  let sum field :=
    sum_of (λ r, match side r with Some s => field (sd_counters s) | None => 0 end) rs in
  mkFingerprintCounters (sum fc_packets) (sum fc_bytes).

Definition totals_of (rs : list Relation) : WindowTotals :=
  mkWindowTotals (side_traffic rl_ingress rs) (side_traffic rl_egress rs) (count_if repeats rs)
    (count_if (first_seen_is Gt) rs) (max_option (omap directional_ratio rs))
    (foldr Z.max 0 (ingress_packets <$> rs)).

Lemma side_traffic_snoc side rs r :
  side_traffic side (rs ++ [r]) =
  match side r with
  | Some s => mkFingerprintCounters
      (fc_packets (side_traffic side rs) + fc_packets (sd_counters s))
      (fc_bytes (side_traffic side rs) + fc_bytes (sd_counters s))
  | None => side_traffic side rs
  end.
Proof.
  unfold side_traffic. rewrite !sum_of_snoc. destruct (side r); [done|]. by rewrite !Z.add_0_r.
Qed.

Lemma add_side_fits c s :
  counters_fit (mkFingerprintCounters (fc_packets c + fc_packets (sd_counters s))
    (fc_bytes c + fc_bytes (sd_counters s))) →
  add_side c (delta_side s) =
    Ok (mkFingerprintCounters (fc_packets c + fc_packets (sd_counters s))
      (fc_bytes c + fc_bytes (sd_counters s))).
Proof.
  intros [H1 H2]. unfold add_side, delta_side. cbn [de_packets de_bytes fc_packets fc_bytes] in *.
  by rewrite !checked_add_ok by done.
Qed.

Lemma window_increment_ok n : n < 65535 → window_increment n = Ok (n + 1).
Proof. intros. unfold window_increment. by rewrite checked_add_ok by ulia. Qed.

Lemma first_seen_gt i e :
  bool_decide ((sd_first_seen_ns i ?= sd_first_seen_ns e) = Gt) =
  (sd_first_seen_ns e <? sd_first_seen_ns i).
Proof.
  destruct (Z.ltb_spec (sd_first_seen_ns e) (sd_first_seen_ns i)) as [H|H].
  - by apply bool_decide_eq_true_2, Z.compare_gt_iff.
  - apply bool_decide_eq_false_2. rewrite Z.compare_gt_iff. lia.
Qed.

Lemma delta_repeats_side s : delta_repeats (delta_side <$> s) = side_repeats s.
Proof. by destruct s. Qed.

Lemma total_step don r :
  Z.of_nat (length don) < 65535 →
  counters_fit (side_traffic rl_ingress (don ++ [r])) →
  counters_fit (side_traffic rl_egress (don ++ [r])) →
  total_relation (totals_of don) (delta_relation r) = Ok (totals_of (don ++ [r])).
Proof.
  intros Hlen Hi He.
  assert (∀ p : Relation → bool, count_if p don < 65535) as Hc.
  { intros p. pose proof (count_if_range p don). lia. }
  pose proof (foldr_max_nonneg (ingress_packets <$> don)) as Hmax.
  unfold totals_of at 2. rewrite !side_traffic_snoc in *. rewrite !count_if_snoc.
  rewrite fmap_app, omap_app. cbn [fmap list_fmap omap list_omap]. rewrite foldr_max_snoc.
  unfold total_relation, delta_relation. cbn [rd_ingress rd_egress].
  rewrite !delta_repeats_side. change (side_repeats (rl_ingress r) || side_repeats (rl_egress r))
    with (repeats r).
  unfold first_seen_is, directional_ratio, ingress_packets.
  cbn [totals_of wt_ingress wt_egress wt_repeated wt_egress_first wt_maximum_ratio
    wt_dominant_ingress_packets].
  destruct (rl_ingress r) as [i|], (rl_egress r) as [e|]; cbn [fmap option_fmap option_map];
    rewrite ?add_side_fits by done; cbn [mbind result_bind];
    destruct (repeats r); rewrite ?window_increment_ok by apply Hc; cbn [mbind result_bind];
    rewrite ?first_seen_gt, ?app_nil_r, ?max_option_snoc;
    cbn [delta_side de_first_seen_ns de_packets];
    try (destruct (sd_first_seen_ns e <? sd_first_seen_ns i));
    rewrite ?window_increment_ok by apply Hc; cbn [mbind result_bind fst snd];
    rewrite ?Z.add_0_r, ?(Z.max_l _ 0) by done; reflexivity.
Qed.

Lemma side_traffic_find dir d (side : Relation → option Side) ev :
  (∀ e, dir e = (fk_direction (fe_key e) =? d)) →
  (∀ k, side (relation_of ev k) = find_side dir ev k) →
  NoDup (exact_of <$> ev) → side_traffic side (relations_of ev) = traffic dir ev.
Proof.
  intros Hdir Hside Hnd. unfold side_traffic, traffic.
  assert (∀ field : FingerprintCounters → Z,
    sum_of (λ r, match side r with Some s => field (sd_counters s) | None => 0 end)
      (relations_of ev) =
    sum_of (λ e, if dir e then field (sd_counters (side_of e)) else 0) ev) as Hsum.
  { intros field. unfold relations_of. rewrite sum_of_fmap.
    transitivity (sum_of (λ s, field (sd_counters s)) (omap (find_side dir ev) (relation_keys ev))).
    - induction (relation_keys ev) as [|k ks IH]; [done|].
      rewrite sum_of_cons, IH, Hside. cbn [omap list_omap].
      by destruct (find_side dir ev k).
    - rewrite (sum_of_Permutation _ _ _ (sides_Permutation dir d ev Hdir Hnd)), sum_of_fmap.
      clear. induction ev as [|e ev IH]; [done|].
      rewrite sum_of_cons, <-IH. cbn [List.filter]. by destruct (dir e). }
  by rewrite (Hsum fc_packets), (Hsum fc_bytes).
Qed.

Lemma side_traffic_prefix side rs don :
  (∀ r s, r ∈ rs → side r = Some s → 0 ≤ fc_packets (sd_counters s) ∧ 0 ≤ fc_bytes (sd_counters s)) →
  don `prefix_of` rs → counters_fit (side_traffic side rs) → counters_fit (side_traffic side don).
Proof.
  intros Hs Hp [H1 H2]. split; cbn [side_traffic fc_packets fc_bytes] in *; etrans;
    try apply sum_of_prefix; try done; intros r Hr; destruct (side r) as [s|] eqn:Hs'; try done;
    by destruct (Hs r s Hr Hs').
Qed.

Lemma total_all rs :
  Z.of_nat (length rs) ≤ 65535 →
  (∀ r s, r ∈ rs → rl_ingress r = Some s ∨ rl_egress r = Some s →
    0 ≤ fc_packets (sd_counters s) ∧ 0 ≤ fc_bytes (sd_counters s)) →
  counters_fit (side_traffic rl_ingress rs) → counters_fit (side_traffic rl_egress rs) →
  try_fold total_relation WindowTotals_new (delta_relation <$> rs) = Ok (totals_of rs).
Proof.
  intros Hlen Hpos Hi He.
  assert (∀ don todo, don ++ todo = rs →
    try_fold total_relation (totals_of don) (delta_relation <$> todo) = Ok (totals_of rs)) as Hgen.
  { intros don todo; revert don. induction todo as [|r todo IH]; intros don Hd.
    - rewrite app_nil_r in Hd. by subst.
    - rewrite fmap_cons. cbn [try_fold].
      assert (don ++ [r] `prefix_of` rs) as Hp by (exists todo; by rewrite <-app_assoc).
      rewrite total_step; [cbn [mbind result_bind]; apply IH; by rewrite <-app_assoc|..].
      + subst rs. rewrite length_app in Hlen. cbn in Hlen. lia.
      + eapply side_traffic_prefix; [|done|done]. intros r' s Hr' Hs. eauto.
      + eapply side_traffic_prefix; [|done|done]. intros r' s Hr' Hs. eauto. }
  by apply (Hgen []).
Qed.

Lemma totals_of_Permutation rs rs' : Permutation rs rs' → totals_of rs = totals_of rs'.
Proof.
  intros Hp. unfold totals_of, side_traffic.
  rewrite !(count_if_Permutation _ _ _ Hp), !(sum_of_Permutation _ _ _ Hp).
  rewrite (max_option_Permutation _ (omap directional_ratio rs')) by (by rewrite Hp).
  f_equal. assert (∀ l l', Permutation l l' → foldr Z.max 0 l = foldr Z.max 0 l') as H.
  { induction 1; simpl; lia. }
  apply H. by rewrite Hp.
Qed.

Lemma sum_of_elem_le {A} (f : A → Z) l x :
  (∀ y, y ∈ l → 0 ≤ f y) → x ∈ l → f x ≤ sum_of f l.
Proof.
  intros Hf Hx. apply list_elem_of_split in Hx as (l1 & l2 & ->).
  rewrite sum_of_app, sum_of_cons.
  pose proof (sum_of_nonneg f l1 ltac:(intros; apply Hf, elem_of_app; by left)).
  pose proof (sum_of_nonneg f l2
    ltac:(intros; apply Hf, elem_of_app; right; by apply list_elem_of_further)). lia.
Qed.

Section growth.
Context (previous : gmap ExactKey FingerprintEvidence) (ev : list FingerprintEvidence).
Context (Hu : Forall evidence_u64 ev) (Hc : Forall (continues previous) ev).
Context (Hnd : NoDup (exact_of <$> ev)).

Lemma growth_range e :
  e ∈ ev → 0 ≤ (growth previous e).1 ≤ fv_packets (fe_value e) ∧
           0 ≤ (growth previous e).2 ≤ fv_bytes (fe_value e).
Proof.
  intros He. rewrite Forall_forall in Hu, Hc. destruct (Hu e He) as [? ?], (Hc e He) as [_ Hold].
  unfold growth. destruct (previous !! exact_of e); cbn [fst snd]; [|ulia].
  destruct Hold as (_ & _ & _ & _ & ? & ?). lia.
Qed.

Lemma elem_of_grown x :
  x ∈ grown previous ev → ∃ e, x = grown_by previous e ∧ e ∈ ev ∧ has_grown previous e = true.
Proof.
  unfold grown. intros (e & -> & He)%list_elem_of_fmap. exists e.
  rewrite list_elem_of_In, filter_In, <-list_elem_of_In in He. tauto.
Qed.

Lemma grown_nonneg x :
  x ∈ grown previous ev → 0 ≤ fv_packets (fe_value x) ∧ 0 ≤ fv_bytes (fe_value x).
Proof. intros (e & -> & He & _)%elem_of_grown. pose proof (growth_range e He). cbn. lia. Qed.

Lemma grown_NoDup : NoDup (exact_of <$> grown previous ev).
Proof.
  rewrite grown_exact. clear Hu Hc. induction ev as [|e l IH]; [constructor|].
  rewrite fmap_cons in Hnd. apply NoDup_cons in Hnd as [He Hl]. cbn [List.filter].
  destruct (has_grown previous e); [|by apply IH].
  rewrite fmap_cons. apply NoDup_cons. split; [by apply filter_exact_not_in|by apply IH].
Qed.

Lemma grown_length : (length (grown previous ev) ≤ length ev)%nat.
Proof. unfold grown. rewrite length_fmap. apply List.filter_length_le. Qed.

Lemma grown_traffic_le (dir : FingerprintEvidence → bool) :
  (∀ e, dir (grown_by previous e) = dir e) →
  fc_packets (traffic dir (grown previous ev)) ≤ fc_packets (traffic dir ev) ∧
  fc_bytes (traffic dir (grown previous ev)) ≤ fc_bytes (traffic dir ev).
Proof.
  intros Hdir. pose proof growth_range as Hg. clear Hu Hc Hnd.
  unfold traffic, grown. cbn [fc_packets fc_bytes]. rewrite !sum_of_fmap.
  cbn [grown_by fe_value fv_packets fv_bytes].
  induction ev as [|e l IH]; [done|].
  destruct IH as [IH1 IH2]; [intros; apply Hg; by apply list_elem_of_further|].
  pose proof (Hg e ltac:(apply list_elem_of_here)) as [[] []].
  cbn [List.filter]. rewrite !sum_of_cons.
  destruct (has_grown previous e); rewrite ?sum_of_cons; rewrite ?Hdir; destruct (dir e); lia.
Qed.

Lemma grown_side dir d k s :
  (∀ e, dir e = (fk_direction (fe_key e) =? d)) →
  find_side dir (grown previous ev) k = Some s →
  ∃ x, x ∈ grown previous ev ∧ dir x = true ∧ side_of x = s.
Proof.
  intros Hdir Hf. apply (find_side_Some dir d) in Hf; [|done|apply grown_NoDup].
  destruct Hf as (x & ? & ? & _ & ?). by exists x.
Qed.

Lemma grown_sides_nonneg r s :
  r ∈ relations_of (grown previous ev) → rl_ingress r = Some s ∨ rl_egress r = Some s →
  0 ≤ fc_packets (sd_counters s) ∧ 0 ≤ fc_bytes (sd_counters s).
Proof.
  intros (k & -> & _)%list_elem_of_fmap. cbn [relation_of rl_ingress rl_egress].
  intros [Hs|Hs].
  - destruct (grown_side is_ingress direction.INGRESS k s) as (x & Hx & _ & <-); [done..|].
    by apply grown_nonneg in Hx.
  - destruct (grown_side is_egress direction.EGRESS k s) as (x & Hx & _ & <-); [done..|].
    by apply grown_nonneg in Hx.
Qed.

(** A window without egress packets has no correlated relation. *)
Lemma no_egress_no_ratio :
  fc_packets (traffic is_egress (grown previous ev)) = 0 →
  omap directional_ratio (relations_of (grown previous ev)) = [].
Proof.
  intros Hz. destruct (omap directional_ratio _) as [|q qs] eqn:Hq; [done|]. exfalso.
  assert (q ∈ omap directional_ratio (relations_of (grown previous ev))) as Hin
    by (rewrite Hq; apply list_elem_of_here).
  apply list_elem_of_omap in Hin as (r & (k & -> & _)%list_elem_of_fmap & Hr).
  unfold directional_ratio in Hr. cbn [relation_of rl_ingress rl_egress] in Hr.
  destruct (find_side is_ingress _ k) as [si|]; [|done].
  destruct (find_side is_egress _ k) as [s|] eqn:Hs; [|done].
  destruct (grown_side is_egress direction.EGRESS k s) as (x & Hx & Hd & _); [done..|].
  assert (fv_packets (fe_value x) ≤ 0) as Hle.
  { pose proof (sum_of_elem_le (λ e, if is_egress e then fv_packets (fe_value e) else 0)
      (grown previous ev) x) as Hle. cbv beta in Hle. rewrite Hd in Hle.
    unfold traffic in Hz. cbn [fc_packets] in Hz. rewrite Hz in Hle. apply Hle; [|done].
    intros y Hy. destruct (is_egress y); [by apply grown_nonneg|done]. }
  apply elem_of_grown in Hx as (e & -> & He & Hg).
  pose proof (growth_range e He) as [Hr1 _].
  rewrite Forall_forall in Hc. destruct (Hc e He) as [Hpb _].
  cbn [grown_by fe_value fv_packets] in Hle. unfold has_grown in Hg.
  rewrite Hpb in Hg by lia. lia.
Qed.

Lemma dominant_le_total :
  foldr Z.max 0 (ingress_packets <$> relations_of (grown previous ev)) ≤
    fc_packets (traffic is_ingress (grown previous ev)).
Proof.
  rewrite <-(side_traffic_find is_ingress direction.INGRESS rl_ingress); [|done..|apply grown_NoDup].
  unfold side_traffic. cbn [fc_packets].
  assert (∀ r, r ∈ relations_of (grown previous ev) → 0 ≤ ingress_packets r) as Hpos.
  { intros r Hr. unfold ingress_packets. destruct (rl_ingress r) as [s|] eqn:Hs; [|done].
    eapply grown_sides_nonneg; eauto. }
  change (λ r, match rl_ingress r with Some s => fc_packets (sd_counters s) | None => 0 end)
    with ingress_packets.
  induction (relations_of (grown previous ev)) as [|r rs IH]; [done|].
  rewrite fmap_cons, sum_of_cons. cbn [foldr].
  pose proof (Hpos r ltac:(apply list_elem_of_here)).
  assert (∀ r, r ∈ rs → 0 ≤ ingress_packets r) as Hpos'
    by (intros; apply Hpos; by apply list_elem_of_further).
  pose proof (IH Hpos'). pose proof (sum_of_nonneg ingress_packets rs Hpos'). lia.
Qed.
End growth.

Lemma ratio_milli_le n d : 0 ≤ n ≤ d → is_some_and (ratio_milli n d) (λ ratio, 1000 <? ratio) = false.
Proof.
  intros Hn. unfold ratio_milli. destruct (Z.eqb_spec d 0); [done|].
  assert (n * 1000 / d ≤ 1000) as Hq by (apply Z.div_le_upper_bound; lia).
  rewrite try_from_wide_ok by ulia. cbn. lia.
Qed.

Lemma window_spec_validates start_ end_ cov previous ev :
  Forall evidence_u64 ev → Forall (continues previous) ev → NoDup (exact_of <$> ev) →
  Z.of_nat (length ev) ≤ FINGERPRINT_CAPACITY →
  DETECTION_FINGERPRINT_WINDOW_MS ≤ cov ≤ DETECTION_FINGERPRINT_FRESHNESS_MS → start_ ≤ end_ →
  FingerprintWindowReport_validate (window_spec start_ end_ cov previous ev) = Ok tt.
Proof.
  intros Hu Hc Hnd Hl Hcov Ht. pose proof (dominant_le_total previous ev Hu Hc Hnd) as Hdom.
  pose proof (no_egress_no_ratio previous ev Hu Hc Hnd) as Hno.
  pose proof (foldr_max_nonneg (ingress_packets <$> relations_of (grown previous ev))) as Hpos.
  unfold FingerprintWindowReport_validate, window_spec.
  cbn [fw_state fw_window_ms fw_coverage_ms fw_start_unix_ms fw_end_unix_ms fw_captured_entry_count
    fw_delta_relation_count fw_repeated_relation_count fw_egress_first_correlated_relation_count
    fw_ingress fw_egress fw_dominant_ingress_packet_ratio_milli
    fw_maximum_ingress_to_egress_packet_ratio_milli fw_last_error_code is_none is_some option_gt].
  rewrite ratio_milli_le by lia.
  pose proof (count_if_range repeats (relations_of (grown previous ev))).
  pose proof (count_if_range (first_seen_is Gt) (relations_of (grown previous ev))).
  rewrite Z.eqb_refl, !(proj2 (Z.ltb_ge _ _)) by lia.
  rewrite !(proj2 (Z.leb_le _ _)) by lia. cbn [negb andb orb].
  destruct (Z.eqb_spec (fc_packets (traffic is_ingress (grown previous ev))) 0) as [Hz|Hz];
    [unfold ratio_milli; rewrite Hz; cbn [Z.eqb is_some andb orb]|cbn [andb orb]];
    (destruct (Z.eqb_spec (fc_packets (traffic is_egress (grown previous ev))) 0) as [He|He];
      [rewrite (Hno He)|]; reflexivity).
Qed.

Lemma grown_Permutation previous l k : l ≡ₚ k → grown previous l ≡ₚ grown previous k.
Proof.
  intros H. unfold grown. apply Permutation_map. induction H; cbn [List.filter].
  - done.
  - destruct (has_grown previous x); [by constructor|done].
  - destruct (has_grown previous x), (has_grown previous y); (done || apply Permutation_swap).
  - by etrans.
Qed.

(** The two loops of [build_window] on the records of a continuing scan, in
    whatever order the map yields them. *)
Lemma collect_scan previous es ev ifindex generation :
  scan_ok ifindex generation ev → es ≡ₚ (λ e, (exact_of e, e)) <$> ev →
  Forall (continues previous) ev →
  ∃ g, try_fold (collect_delta previous) ∅ es = Ok g ∧
    btree_values relation_fields g ≡ₚ delta_relation <$> relations_of (grown previous ev).
Proof.
  intros (_ & _ & _ & Hv & Hnd & _) Hes Hc.
  assert (es.*2 ≡ₚ ev) as Hes2 by (rewrite Hes, <-list_fmap_compose; by rewrite list_fmap_id).
  destruct (collect_all previous es) as (g & Hg & Hgr).
  { rewrite Hes. apply Forall_fmap, Forall_forall. intros e He. cbn [compose fst snd].
    rewrite Forall_forall in Hc, Hv. split_and!; [done|by apply Hc|].
    by destruct (validate_evidence_direction e _ _ (Hv e He)) as [[-> ->]|[-> ->]]. }
  { by rewrite Hes2. }
  exists g. split; [done|]. rewrite (grouped_values delta_relation _ g Hgr).
  apply Permutation_map, relations_of_Permutation; [apply grown_NoDup; by rewrite Hes2|].
  by apply grown_Permutation.
Qed.

Lemma grown_relations_length previous ev :
  (length (relations_of (grown previous ev)) ≤ length ev)%nat.
Proof. pose proof (relations_of_length (grown previous ev)). pose proof (grown_length previous ev). lia. Qed.

Lemma grown_side_traffic previous ev ifindex generation :
  scan_ok ifindex generation ev →
  side_traffic rl_ingress (relations_of (grown previous ev)) = traffic is_ingress (grown previous ev) ∧
  side_traffic rl_egress (relations_of (grown previous ev)) = traffic is_egress (grown previous ev).
Proof.
  intros (_ & _ & _ & _ & Hnd & _). split.
  - apply (side_traffic_find is_ingress direction.INGRESS); [done..|by apply grown_NoDup].
  - apply (side_traffic_find is_egress direction.EGRESS); [done..|by apply grown_NoDup].
Qed.

Lemma total_scan previous rs ev ifindex generation :
  Forall evidence_u64 ev → scan_ok ifindex generation ev → Forall (continues previous) ev →
  rs ≡ₚ delta_relation <$> relations_of (grown previous ev) →
  try_fold total_relation WindowTotals_new rs = Ok (totals_of (relations_of (grown previous ev))).
Proof.
  intros Hu Hok Hc Hval. pose proof (grown_relations_length previous ev) as Hlen.
  destruct (grown_side_traffic previous ev _ _ Hok) as [Hti Hte].
  destruct Hok as (_ & _ & Hcap & _ & Hnd & Hfi & Hfe).
  apply Permutation_map_inv in Hval as (rs' & -> & Hrs).
  pose proof (grown_traffic_le previous ev Hu Hc is_ingress ltac:(done)) as Hli.
  pose proof (grown_traffic_le previous ev Hu Hc is_egress ltac:(done)) as Hle.
  rewrite (totals_of_Permutation _ _ Hrs).
  assert (∀ side, side_traffic side rs' = side_traffic side (relations_of (grown previous ev))) as Hst.
  { intros side. unfold side_traffic. by rewrite !(sum_of_Permutation _ _ _ Hrs). }
  apply total_all.
  - rewrite <-Hrs. unfold FINGERPRINT_CAPACITY in *. lia.
  - intros r d Hr. rewrite <-Hrs in Hr. by eapply grown_sides_nonneg.
  - rewrite Hst, Hti. unfold counters_fit in *. lia.
  - rewrite Hst, Hte. unfold counters_fit in *. lia.
Qed.

Lemma btree_values_length {K V} `{Countable K} (fields : K → list Z) (m : gmap K V) :
  length (btree_values fields m) = size m.
Proof. unfold btree_values. by rewrite length_fmap, btree_iter_Permutation, length_map_to_list. Qed.

Lemma build_window_ready previous current ev ifindex generation cov :
  Forall evidence_u64 ev → scan_ok ifindex generation ev →
  map_to_list (ep_entries current) ≡ₚ (λ e, (exact_of e, e)) <$> ev →
  Forall (continues (ep_entries previous)) ev →
  DETECTION_FINGERPRINT_WINDOW_MS ≤ cov ≤ DETECTION_FINGERPRINT_FRESHNESS_MS →
  ep_captured_at_unix_ms previous ≤ ep_captured_at_unix_ms current →
  build_window previous current cov =
    Ok (window_spec (ep_captured_at_unix_ms previous) (ep_captured_at_unix_ms current) cov
      (ep_entries previous) ev).
Proof.
  intros Hu Hok Hp Hc Hcov Ht. set (prev := ep_entries previous) in *.
  destruct (collect_scan prev (btree_iter exact_fields (ep_entries current)) ev _ _ Hok)
    as (g & Hg & Hval); [by rewrite btree_iter_Permutation|done|].
  pose proof (total_scan prev _ ev _ _ Hu Hok Hc Hval) as Htot.
  destruct (grown_side_traffic prev ev _ _ Hok) as [Hti Hte].
  pose proof (grown_relations_length prev ev) as Hlen.
  destruct Hok as (_ & _ & Hcap & _ & Hnd & _).
  assert (size g = length (relations_of (grown prev ev))) as Hsize
    by (by rewrite <-(btree_values_length relation_fields), Hval, length_fmap).
  assert (size (ep_entries current) = length ev) as Hcur
    by (by rewrite <-length_map_to_list, Hp, length_fmap).
  unfold build_window. fold prev. rewrite Hg. cbn [mbind result_bind]. rewrite Htot.
  cbn [mbind result_bind]. rewrite Hsize, Hcur. unfold FINGERPRINT_CAPACITY in *.
  rewrite !try_from_wide_ok by ulia. cbn [ok_or mbind result_bind].
  cbn [totals_of wt_ingress wt_egress wt_repeated wt_egress_first wt_maximum_ratio
    wt_dominant_ingress_packets]. rewrite Hti, Hte.
  pose proof (window_spec_validates (ep_captured_at_unix_ms previous)
    (ep_captured_at_unix_ms current) cov prev ev Hu Hc Hnd Hcap Hcov Ht) as Hok.
  unfold window_spec in Hok |- *. rewrite Hok. reflexivity.
Qed.

(** Two valid scans taken ten to fifteen seconds apart, in which no clock,
    counter or timestamp went back and no first sighting or address changed,
    always give a ready window, and the window is exactly the growth between
    the scans: the totals of each direction, the changed relations, those that
    repeat, those first seen on egress, and the two ratios.  The second scan
    becomes the endpoint of the next window. *)
Lemma record_scan_ready h previous ev entries mono unix :
  Forall evidence_u64 ev →
  fh_endpoint h = Some previous →
  validate_scan (fh_identity h) ev = Ok entries →
  Forall (continues (ep_entries previous)) ev →
  ep_captured_at_unix_ms previous ≤ unix →
  let elapsed := mono - ep_captured_at_monotonic_ns previous in
  10000 * 1000000 ≤ elapsed < 15001 * 1000000 →
  let report := window_spec (ep_captured_at_unix_ms previous) unix (elapsed / 1000000)
                  (ep_entries previous) ev in
  record_scan h mono unix ev =
    (mkFingerprintWindowHistory (fh_identity h) (Some (mkFingerprintEndpoint mono unix entries))
       report, Ok report).
Proof.
  intros Hu Hep Hscan Hc Hunix elapsed Hel report. unfold record_scan. rewrite Hscan, Hep.
  rewrite checked_sub_ok by lia. fold elapsed.
  destruct (Z.eqb_spec elapsed 0); [lia|]. rewrite (proj2 (Z.ltb_ge _ _)) by done.
  assert (10000 ≤ elapsed / 1000000 < 15001) as Hq.
  { split; [apply Z.div_le_lower_bound|apply Z.div_lt_upper_bound]; lia. }
  unfold DETECTION_FINGERPRINT_WINDOW_MS at 1, DETECTION_FINGERPRINT_FRESHNESS_MS.
  rewrite !(proj2 (Z.ltb_ge _ _)) by lia.
  destruct (validate_scan_Ok _ _ _ Hu Hscan) as [Hok Hp].
  rewrite (build_window_ready previous (mkFingerprintEndpoint mono unix entries) ev
    (ri_ifindex (fh_identity h)) (ri_generation (fh_identity h))); try done.
  unfold DETECTION_FINGERPRINT_WINDOW_MS, DETECTION_FINGERPRINT_FRESHNESS_MS. lia.
Qed.

(** A scan the history rejects (bad evidence, a clock that stands still or
    goes back, a changed first sighting, a counter that went back, an overflow)
    drops the kept scan and publishes the unavailable report with the code of
    that very error; the next accepted scan starts a new window. *)
Theorem record_scan_error h mono unix ev h' e :
  record_scan h mono unix ev = (h', Err e) →
  fh_endpoint h' = None ∧ fw_state (fh_report h') = WindowUnavailable ∧
  fw_last_error_code (fh_report h') = Some (stable_code e) ∧
  ∀ ev' entries mono' unix', validate_scan (fh_identity h) ev' = Ok entries →
    record_scan h' mono' unix' ev' =
      (mkFingerprintWindowHistory (fh_identity h)
         (Some (mkFingerprintEndpoint mono' unix' entries)) FingerprintWindowReport_warming,
       Ok FingerprintWindowReport_warming).
Proof.
  intros H. assert (∃ e', window_fail (A := FingerprintWindowReport) h e' = (h', Err e)) as [e' Hf].
  { unfold record_scan in H. repeat case_match; simplify_eq; eauto. }
  destruct (stable_code_unavailable e') as (r & Hr & _ & Hs & Hcode).
  unfold window_fail in Hf. rewrite Hr in Hf. injection Hf as <- ->.
  split_and!; [done..|]. intros ev' entries mono' unix' Hscan.
  unfold record_scan. cbn [fh_identity fh_endpoint]. by rewrite Hscan.
Qed.

(** Two scans eleven seconds apart for the witnesses. *)
Module WindowExample.
Definition identity : RateIdentity := mkRateIdentity 7 42.
Definition later : list FingerprintEvidence :=
  [FingerprintExample.item 16 direction.EGRESS 100 1900 14;
   FingerprintExample.item 16 direction.INGRESS 200 1950 1040;
   FingerprintExample.item 32 direction.INGRESS 300 300 1].
Definition history : FingerprintWindowHistory :=
  window_step (FingerprintWindowHistory_new identity)
    (OpRecordScan 1000000000 1000 FingerprintExample.scan).
End WindowExample.

Lemma record_scan_ready_witness :
  match fh_endpoint WindowExample.history, validate_scan WindowExample.identity WindowExample.later with
  | Some previous, Ok entries =>
      (record_scan WindowExample.history 12000000000 12000 WindowExample.later).2 =
        Ok (window_spec 1000 12000 11000 (ep_entries previous) WindowExample.later)
  | _, _ => False
  end.
Proof.
  assert (is_some (fh_endpoint WindowExample.history) = true) as H1 by (vm_compute; reflexivity).
  assert (is_ok (validate_scan WindowExample.identity WindowExample.later) = true) as H2
    by (vm_compute; reflexivity).
  assert (match fh_endpoint WindowExample.history with
    | Some previous => bool_decide (Forall (continues (ep_entries previous)) WindowExample.later)
        && (ep_captured_at_unix_ms previous =? 1000)
        && (ep_captured_at_monotonic_ns previous =? 1000000000)
    | None => false end = true) as H3 by (vm_compute; reflexivity).
  destruct (fh_endpoint WindowExample.history) as [previous|] eqn:He; [|discriminate H1].
  destruct (validate_scan WindowExample.identity WindowExample.later) as [entries|] eqn:Hv;
    [|discriminate H2].
  apply andb_true_iff in H3 as [H3 Hm%Z.eqb_eq]. apply andb_true_iff in H3 as [Hc Hu%Z.eqb_eq].
  apply bool_decide_eq_true in Hc.
  rewrite (record_scan_ready WindowExample.history previous WindowExample.later entries).
  - rewrite Hu, Hm. reflexivity.
  - repeat constructor; vm_compute; discriminate.
  - exact He.
  - exact Hv.
  - exact Hc.
  - rewrite Hu. discriminate.
  - rewrite Hm. split; [discriminate|reflexivity].
Defined.

Lemma record_scan_error_witness :
  fw_state (fh_report (record_scan WindowExample.history 900000000 12000
    WindowExample.later).1) = WindowUnavailable.
Proof.
  destruct (record_scan WindowExample.history 900000000 12000 WindowExample.later)
    as [h' [r|e]] eqn:H.
  - exfalso. apply (f_equal (λ p, is_ok p.2)) in H. vm_compute in H. discriminate H.
  - apply (record_scan_error _ _ _ _ h' e H).
Defined.
