(* ===== verification/DetectionSignals.v ===== *)
(** Detection signals of [l2-loop-core] (the first half of [detection.rs]):
    the per-hook broadcast / multicast evidence, the storm candidate and the
    loop-relationship signals derived from the rate windows, the baseline
    report and the fingerprint window. *)
From S2P Require Import Prelude Domain Observation Rate Baseline FrameHash Fingerprint FingerprintWindow.

Definition DETECTION_ADAPTIVE_PACKET_FLOOR_PPS : Z := 1000.
Definition DETECTION_ADAPTIVE_BYTE_FLOOR_BPS : Z := 1048576.
Definition DETECTION_ABSOLUTE_PACKET_THRESHOLD_PPS : Z := 100000.
Definition DETECTION_ABSOLUTE_BYTE_THRESHOLD_BPS : Z := 104857600.
Definition DETECTION_BUM_RATIO_MILLI : Z := 800.
Definition DETECTION_DOMINANT_RATIO_MILLI : Z := 800.
Definition DETECTION_MINIMUM_INGRESS_SAMPLES : Z := 16.
Definition DETECTION_AMPLIFICATION_RATIO_MILLI : Z := 4000.
Definition DETECTION_ASSERT_TICKS : Z := 3.
Definition DETECTION_CLEAR_TICKS : Z := 10.
Definition DETECTION_COOLDOWN_MS : Z := 30000.
Definition DETECTION_TRANSITION_CAPACITY : nat := 16.

Record DetectionConfig : Type := mkDetectionConfig {
  dc_fingerprint_window_ms : Z;
  dc_fingerprint_freshness_ms : Z;
  dc_adaptive_packet_floor_pps : Z;
  dc_adaptive_byte_floor_bps : Z;
  dc_absolute_packet_threshold_pps : Z;
  dc_absolute_byte_threshold_bps : Z;
  dc_bum_ratio_milli : Z;
  dc_dominant_ratio_milli : Z;
  dc_minimum_ingress_samples : Z;
  dc_amplification_ratio_milli : Z;
  dc_assert_ticks : Z;
  dc_clear_ticks : Z;
  dc_cooldown_ms : Z;
  dc_transition_capacity : Z;
}.

#[export] Instance DetectionConfig_eq_dec : EqDecision DetectionConfig.
Proof. solve_decision. Defined.

Definition DetectionConfig_fixed : DetectionConfig :=
  mkDetectionConfig DETECTION_FINGERPRINT_WINDOW_MS DETECTION_FINGERPRINT_FRESHNESS_MS
    DETECTION_ADAPTIVE_PACKET_FLOOR_PPS DETECTION_ADAPTIVE_BYTE_FLOOR_BPS
    DETECTION_ABSOLUTE_PACKET_THRESHOLD_PPS DETECTION_ABSOLUTE_BYTE_THRESHOLD_BPS
    DETECTION_BUM_RATIO_MILLI DETECTION_DOMINANT_RATIO_MILLI DETECTION_MINIMUM_INGRESS_SAMPLES
    DETECTION_AMPLIFICATION_RATIO_MILLI DETECTION_ASSERT_TICKS DETECTION_CLEAR_TICKS
    DETECTION_COOLDOWN_MS (as_u8 (Z.of_nat DETECTION_TRANSITION_CAPACITY)).

Inductive StormCandidate : Type :=
| CandidateNone | CandidateIngress | CandidateEgress | CandidateBidirectional.

#[export] Instance StormCandidate_eq_dec : EqDecision StormCandidate.
Proof. solve_decision. Defined.

Record HookDetectionSignals : Type := mkHookDetectionSignals {
  hd_bum_packets_per_second : option Z;
  hd_bum_bytes_per_second : option Z;
  hd_bum_ratio_milli : option Z;
  hd_baseline_elevated : option bool;
  hd_adaptive_candidate : option bool;
  hd_absolute_candidate : option bool;
}.

Definition HookDetectionSignals_warming : HookDetectionSignals :=
  mkHookDetectionSignals None None None None None None.

Record DetectionSignals : Type := mkDetectionSignals {
  ds_source_window_end_unix_ms : option Z;
  ds_ingress : HookDetectionSignals;
  ds_egress : HookDetectionSignals;
  ds_candidate : StormCandidate;
  ds_fingerprint_window : FingerprintWindowReport;
  ds_loop_suspected : option bool;
  ds_loop_high_confidence : option bool;
}.

Definition DetectionSignals_warming : DetectionSignals :=
  mkDetectionSignals None HookDetectionSignals_warming HookDetectionSignals_warming CandidateNone
    FingerprintWindowReport_warming None None.

Inductive DetectionError : Type :=
| InvalidRateEvidence | InvalidBaselineEvidence | InvalidFingerprintEvidence
| SourceEndpointMismatch | DetectionClockRegression | DetectionCalculationFailed.

#[export] Instance DetectionError_eq_dec : EqDecision DetectionError.
Proof. solve_decision. Defined.

Definition hook_signals_validate (hook : HookDetectionSignals) : result DomainError unit :=
  if is_some_and (hd_bum_ratio_milli hook) (λ ratio, 1000 <? ratio)
  then Err (InvalidObservation "detection BUM ratio exceeds one thousand milli")
  else Ok tt.

Definition DetectionSignals_validate (self : DetectionSignals) : result DomainError unit :=
  _ ← FingerprintWindowReport_validate (ds_fingerprint_window self);
  _ ← try_for_each hook_signals_validate [ds_ingress self; ds_egress self];
  if bool_decide (ds_loop_high_confidence self = Some true)
     && negb (bool_decide (ds_loop_suspected self = Some true))
  then Err (InvalidObservation "high-confidence detection requires suspected evidence")
  else Ok tt.

Definition fixed_window (windows : DetailedRateWindows) (window_ms : Z)
    : result DetectionError DetailedRateWindow :=
  ok_or (List.find (λ window, dw_window_ms window =? window_ms) (vec_to_list windows))
    InvalidRateEvidence.

(** The body of the loop over the ready windows. *)
Definition source_end_step (evaluated_at_unix_ms : Z) (source_end : option Z)
    (window : DetailedRateWindow) : result DetectionError (option Z) :=
  end_ ← ok_or (dw_end_unix_ms window) InvalidRateEvidence;
  if is_some_and source_end (λ existing, negb (existing =? end_))
  then Err SourceEndpointMismatch
  else if evaluated_at_unix_ms <? end_ then Err DetectionClockRegression
  else Ok (Some end_).

Definition validate_source_endpoints (rate_windows : DetailedRateWindows)
    (baseline : BaselineReport) (fingerprint_window : FingerprintWindowReport)
    (evaluated_at_unix_ms : Z) : result DetectionError (option Z) :=
  source_end ← try_fold (source_end_step evaluated_at_unix_ms) None
    (List.filter (λ window, bool_decide (dw_state window = RateReady)) (vec_to_list rate_windows));
  _ ← match br_source_end_unix_ms baseline with
      | Some baseline_end =>
          if negb (bool_decide (source_end = Some baseline_end)) then Err SourceEndpointMismatch
          else if evaluated_at_unix_ms <? baseline_end then Err DetectionClockRegression
          else Ok tt
      | None => Ok tt
      end;
  if is_some_and (fw_end_unix_ms fingerprint_window) (λ end_, evaluated_at_unix_ms <? end_)
  then Err DetectionClockRegression
  else Ok source_end.

Definition hook_rates (window : DetailedRateWindow) (role : HookRole)
    : result DetectionError (option HookRate) :=
  if negb (bool_decide (dw_state window = RateReady)) then Ok None
  else
    ok_or (Some <$> (hooks ← dw_hooks window;
                     List.find (λ hook, bool_decide (hr_role hook = role)) (vec_to_list hooks)))
      InvalidRateEvidence.

Definition bum_add (acc : Z * Z) (class : ClassRate) : result DetectionError (Z * Z) :=
  packets ← ok_or (checked_add U64_MAX acc.1 (rc_packets_per_second (cr_counters class)))
    DetectionCalculationFailed;
  bytes ← ok_or (checked_add U64_MAX acc.2 (rc_bytes_per_second (cr_counters class)))
    DetectionCalculationFailed;
  Ok (packets, bytes).

(** Broadcast and multicast: the first four classes. *)
Definition bum_rates (rates : HookRate) : result DetectionError (Z * Z) :=
  sums ← try_fold bum_add (0, 0) (take 4 (vec_to_list (hr_classes rates)));
  if (rc_packets_per_second (hr_total rates) <? sums.1)
     || (rc_bytes_per_second (hr_total rates) <? sums.2)
  then Err InvalidRateEvidence
  else Ok sums.

Definition detection_ratio_milli (numerator denominator : Z) : result DetectionError Z :=
  if denominator =? 0 then
    (if numerator =? 0 then Ok 0 else Err InvalidRateEvidence)
  else
    scaled ← ok_or (checked_mul U128_MAX numerator 1000) DetectionCalculationFailed;
    ok_or (try_from_wide U64_MAX (scaled / denominator)) DetectionCalculationFailed.

Definition BUM_CLASSES : list TrafficClass :=
  [L2Broadcast; Ipv4Multicast; Ipv6Multicast; OtherL2Multicast].

(** The [for] loop over [BUM_CLASSES], with its early [return Ok(None)]. *)
Fixpoint bum_elevated_loop (baseline : BaselineReport) (role : HookRole) (elevated : bool)
    (classes : list TrafficClass) : result DetectionError (option bool) :=
  match classes with
  | [] => Ok (Some elevated)
  | traffic_class :: classes =>
      subject ← ok_or
        (List.find (λ subject, bool_decide (bs_hook subject = role)
                      && bool_decide (bs_subject subject = SubjectTrafficClass traffic_class))
           (vec_to_list (br_subjects baseline))) InvalidBaselineEvidence;
      match bs_state subject with
      | BaselineLearning | BaselineUnavailable => Ok None
      | WithinBaseline | BaselineElevated =>
          bum_elevated_loop baseline role
            (elevated || (is_elevated (bs_packets subject) || is_elevated (bs_bytes subject)))
            classes
      end
  end.

Definition baseline_bum_elevated (baseline : BaselineReport) (role : HookRole)
    : result DetectionError (option bool) :=
  bum_elevated_loop baseline role false BUM_CLASSES.

Definition derive_hook (one_second ten_second : DetailedRateWindow) (baseline : BaselineReport)
    (role : HookRole) : result DetectionError HookDetectionSignals :=
  ten_second_rates ← hook_rates ten_second role;
  one_second_rates ← hook_rates one_second role;
  baseline_elevated ← baseline_bum_elevated baseline role;
  bum ← match ten_second_rates with
        | Some rates =>
            sums ← bum_rates rates;
            ratio ← detection_ratio_milli sums.1 (rc_packets_per_second (hr_total rates));
            Ok (Some sums.1, Some sums.2, Some ratio)
        | None => Ok (None, None, None)
        end;
  let adaptive_candidate :=
    match bum.1.1, bum.1.2, baseline_elevated with
    | Some packets, Some bytes, Some elevated =>
        Some (elevated && ((DETECTION_ADAPTIVE_PACKET_FLOOR_PPS <=? packets)
                           || (DETECTION_ADAPTIVE_BYTE_FLOOR_BPS <=? bytes)))
    | _, _, _ => None
    end in
  absolute_candidate ←
    match one_second_rates with
    | Some rates =>
        sums ← bum_rates rates;
        Ok (Some ((DETECTION_ABSOLUTE_PACKET_THRESHOLD_PPS <=? sums.1)
                  || (DETECTION_ABSOLUTE_BYTE_THRESHOLD_BPS <=? sums.2)))
    | None => Ok None
    end;
  Ok (mkHookDetectionSignals bum.1.1 bum.1.2 bum.2 baseline_elevated adaptive_candidate
    absolute_candidate).

Definition hook_is_candidate (signals : HookDetectionSignals) : bool :=
  bool_decide (hd_adaptive_candidate signals = Some true)
  || bool_decide (hd_absolute_candidate signals = Some true).

Definition ingress_or_bidirectional (candidate : StormCandidate) : bool :=
  match candidate with CandidateIngress | CandidateBidirectional => true | _ => false end.

Definition derive_relationship_signals (candidate : StormCandidate) (ingress : HookDetectionSignals)
    (fingerprint : FingerprintWindowReport) (evaluated_at_unix_ms : Z)
    : result DetectionError (option bool * option bool) :=
  if negb (bool_decide (fw_state fingerprint = WindowReady)) then Ok (None, None)
  else
    end_ ← ok_or (fw_end_unix_ms fingerprint) InvalidFingerprintEvidence;
    age ← ok_or (checked_sub evaluated_at_unix_ms end_) DetectionClockRegression;
    if DETECTION_FINGERPRINT_FRESHNESS_MS <? age then Ok (None, None)
    else
      let suspected :=
        ingress_or_bidirectional candidate
        && is_some_and (hd_bum_ratio_milli ingress) (λ ratio, DETECTION_BUM_RATIO_MILLI <=? ratio)
        && (DETECTION_MINIMUM_INGRESS_SAMPLES <=? fc_packets (fw_ingress fingerprint))
        && (0 <? fw_repeated_relation_count fingerprint)
        && is_some_and (fw_dominant_ingress_packet_ratio_milli fingerprint)
             (λ ratio, DETECTION_DOMINANT_RATIO_MILLI <=? ratio) in
      let high_confidence :=
        suspected
        && (0 <? fw_egress_first_correlated_relation_count fingerprint)
        && is_some_and (fw_maximum_ingress_to_egress_packet_ratio_milli fingerprint)
             (λ ratio, DETECTION_AMPLIFICATION_RATIO_MILLI <=? ratio) in
      Ok (Some suspected, Some high_confidence).

Definition DetectionSignals_derive (rate_windows : DetailedRateWindows) (baseline : BaselineReport)
    (fingerprint_window : FingerprintWindowReport) (evaluated_at_unix_ms : Z)
    : result DetectionError DetectionSignals :=
  _ ← map_err (λ _, InvalidRateEvidence) (validate_detailed_rate_windows rate_windows);
  _ ← map_err (λ _, InvalidBaselineEvidence) (BaselineReport_validate baseline);
  _ ← map_err (λ _, InvalidFingerprintEvidence) (FingerprintWindowReport_validate fingerprint_window);
  one_second ← fixed_window rate_windows 1000;
  ten_second ← fixed_window rate_windows 10000;
  source_window_end_unix_ms ← validate_source_endpoints rate_windows baseline fingerprint_window
    evaluated_at_unix_ms;
  ingress ← derive_hook one_second ten_second baseline ExternalXdpIngress;
  egress ← derive_hook one_second ten_second baseline PhysicalTcEgress;
  let candidate :=
    match hook_is_candidate ingress, hook_is_candidate egress with
    | false, false => CandidateNone
    | true, false => CandidateIngress
    | false, true => CandidateEgress
    | true, true => CandidateBidirectional
    end in
  loops ← derive_relationship_signals candidate ingress fingerprint_window evaluated_at_unix_ms;
  let signals := mkDetectionSignals source_window_end_unix_ms ingress egress candidate
    fingerprint_window loops.1 loops.2 in
  _ ← map_err (λ _, DetectionCalculationFailed) (DetectionSignals_validate signals);
  Ok signals.

(** ** Specification *)

(** The index of a role in a hook pair: XDP ingress first, TC egress second. *)
Definition hook_index (role : HookRole) : fin OBSERVED_HOOK_COUNT :=
  if bool_decide (role = ExternalXdpIngress) then 0%fin else 1%fin.

Definition observed_role (role : HookRole) : Prop :=
  role = ExternalXdpIngress ∨ role = PhysicalTcEgress.

(** Broadcast and multicast rates of one hook. *)
Definition bum_packets (h : HookRate) : Z :=
  sum_of (λ c, rc_packets_per_second (cr_counters c)) (take 4 (vec_to_list (hr_classes h))).
Definition bum_bytes (h : HookRate) : Z :=
  sum_of (λ c, rc_bytes_per_second (cr_counters c)) (take 4 (vec_to_list (hr_classes h))).

(** The rates of a role in a window, if the window is ready. *)
Definition ready_rates (w : DetailedRateWindow) (role : HookRole) (h : HookRate) : Prop :=
  dw_state w = RateReady ∧ ∃ hooks, dw_hooks w = Some hooks ∧ hooks !!! hook_index role = h.

(** The broadcast and multicast subjects of a role in a baseline report. *)
Definition bum_subject (b : BaselineReport) (role : HookRole) (s : BaselineSubjectReport) : Prop :=
  ∃ (i : subject_index) c, br_subjects b !!! i = s ∧ c ∈ BUM_CLASSES ∧
    bs_hook s = role ∧ bs_subject s = SubjectTrafficClass c.

Definition evaluated (s : BaselineSubjectReport) : Prop :=
  bs_state s = WithinBaseline ∨ bs_state s = BaselineElevated.

(** Over the baseline: every broadcast and multicast subject of the role has
    learned, and one of them is elevated in packets or bytes. *)
Definition over_baseline (b : BaselineReport) (role : HookRole) : Prop :=
  (∀ s, bum_subject b role s → evaluated s) ∧
  ∃ s, bum_subject b role s ∧ is_elevated (bs_packets s) || is_elevated (bs_bytes s) = true.

(** A hook storms: over the absolute thresholds in the last second, or over its
    baseline and the adaptive floors in the last ten seconds. *)
Definition storming (ws : DetailedRateWindows) (b : BaselineReport) (role : HookRole) : Prop :=
  (∃ h, ready_rates (ws !!! 0%fin) role h ∧
     (DETECTION_ABSOLUTE_PACKET_THRESHOLD_PPS ≤ bum_packets h ∨
      DETECTION_ABSOLUTE_BYTE_THRESHOLD_BPS ≤ bum_bytes h)) ∨
  (over_baseline b role ∧
   ∃ h, ready_rates (ws !!! 1%fin) role h ∧
     (DETECTION_ADAPTIVE_PACKET_FLOOR_PPS ≤ bum_packets h ∨
      DETECTION_ADAPTIVE_BYTE_FLOOR_BPS ≤ bum_bytes h)).

(** ** The parts of [derive] *)
Lemma bum_sums l s :
  try_fold bum_add (0, 0) l = Ok s →
  s.1 = sum_of (λ c, rc_packets_per_second (cr_counters c)) l ∧
  s.2 = sum_of (λ c, rc_bytes_per_second (cr_counters c)) l.
Proof.
  apply (try_fold_ind bum_add (λ don s,
    s.1 = sum_of (λ c, rc_packets_per_second (cr_counters c)) don ∧
    s.2 = sum_of (λ c, rc_bytes_per_second (cr_counters c)) don)); [done|].
  intros don x b b' _ [H1 H2] H. unfold bum_add in H. inv_ok. cbn [fst snd].
  rewrite !sum_of_snoc. by rewrite H1, H2.
Qed.

Lemma bum_rates_Ok h s :
  bum_rates h = Ok s →
  s = (bum_packets h, bum_bytes h) ∧ bum_packets h ≤ rc_packets_per_second (hr_total h) ∧
  bum_bytes h ≤ rc_bytes_per_second (hr_total h).
Proof.
  unfold bum_rates. intros H. inv_ok. apply bum_sums in Ha as [H1 H2].
  apply orb_false_iff in Hguard as [Hg1%Z.ltb_ge Hg2%Z.ltb_ge].
  destruct s as [p q]. cbn [fst snd] in *. unfold bum_packets, bum_bytes. subst. done.
Qed.

(** The classes of a hook carry [u64] rates that add up within its total. *)
Definition rates_consistent (h : HookRate) : Prop :=
  Forall (λ c, 0 ≤ rc_packets_per_second (cr_counters c) ∧
               0 ≤ rc_bytes_per_second (cr_counters c)) (hr_classes h) ∧
  bum_packets h ≤ rc_packets_per_second (hr_total h) ≤ U64_MAX ∧
  bum_bytes h ≤ rc_bytes_per_second (hr_total h) ≤ U64_MAX.

Lemma bum_nonneg h : rates_consistent h → 0 ≤ bum_packets h ∧ 0 ≤ bum_bytes h.
Proof.
  intros (Hc & _). rewrite Forall_forall in Hc.
  split; apply sum_of_nonneg; intros c Hin; apply Hc; by eapply subseteq_take.
Qed.

Lemma bum_rates_total h : rates_consistent h → bum_rates h = Ok (bum_packets h, bum_bytes h).
Proof.
  intros (Hc & Hp & Hb). unfold bum_rates.
  destruct (try_fold_total bum_add (λ don s,
    s.1 = sum_of (λ c, rc_packets_per_second (cr_counters c)) don ∧
    s.2 = sum_of (λ c, rc_bytes_per_second (cr_counters c)) don) (0, 0)
    (take 4 (vec_to_list (hr_classes h)))) as ([p q] & Hf & H1 & H2); [done| |].
  - intros don x s Hpre [H1 H2]. rewrite Forall_forall in Hc.
    assert (∀ c, c ∈ take 4 (vec_to_list (hr_classes h)) →
      0 ≤ rc_packets_per_second (cr_counters c) ∧ 0 ≤ rc_bytes_per_second (cr_counters c)) as Hn
      by (intros c Hin; apply Hc; by eapply subseteq_take).
    pose proof (sum_of_prefix (λ c, rc_packets_per_second (cr_counters c)) _ _
      ltac:(intros; by apply Hn) Hpre) as Hp'.
    pose proof (sum_of_prefix (λ c, rc_bytes_per_second (cr_counters c)) _ _
      ltac:(intros; by apply Hn) Hpre) as Hb'.
    rewrite sum_of_snoc in Hp', Hb'. unfold bum_packets, bum_bytes in *.
    unfold bum_add. rewrite H1, H2. rewrite !checked_add_ok by lia.
    eexists; split; [reflexivity|]. cbn [fst snd]. by rewrite !sum_of_snoc.
  - rewrite Hf. cbn [mbind result_bind fst snd] in *. subst p q.
    fold (bum_packets h) (bum_bytes h). by rewrite !(proj2 (Z.ltb_ge _ _)) by lia.
Qed.

Lemma detection_ratio_milli_ok n d :
  0 ≤ n ≤ d → d ≤ U64_MAX → ∃ r, detection_ratio_milli n d = Ok r ∧ r ≤ 1000 ∧
    (DETECTION_BUM_RATIO_MILLI ≤ r ↔ d ≠ 0 ∧ DETECTION_BUM_RATIO_MILLI * d ≤ n * 1000).
Proof.
  intros Hn Hd. unfold detection_ratio_milli, DETECTION_BUM_RATIO_MILLI.
  destruct (Z.eqb_spec d 0) as [->|Hne].
  { exists 0. assert (n = 0) as -> by lia. split; [done|]. lia. }
  assert (n * 1000 / d ≤ 1000) as Hq by (apply Z.div_le_upper_bound; lia).
  rewrite checked_mul_ok by ulia. cbn [ok_or mbind result_bind].
  rewrite try_from_wide_ok by ulia. exists (n * 1000 / d). split; [done|]. split; [done|].
  split.
  - intros H. split; [done|]. pose proof (Z.mul_div_le (n * 1000) d ltac:(lia)). nia.
  - intros [_ H]. apply Z.div_le_lower_bound; lia.
Qed.

Lemma validate_detailed_rate_windows_Ok ws :
  validate_detailed_rate_windows ws = Ok tt →
  (∀ i, dw_window_ms (ws !!! i) = RATE_WINDOW_MS !!! i) ∧
  (∀ i, DetailedRateWindow_validate (ws !!! i) = Ok tt).
Proof.
  unfold validate_detailed_rate_windows. inv_vec ws; intros w0 w1 w2.
  rewrite try_for_each_Ok. intros H.
  change (zip (vec_to_list [# w0; w1; w2]) (vec_to_list RATE_WINDOW_MS))
    with [(w0, 1000); (w1, 10000); (w2, 60000)] in H.
  rewrite !Forall_cons in H. destruct H as (H0 & H1 & H2 & _). cbn [fst snd] in *. inv_ok.
  apply negb_false_iff, Z.eqb_eq in Hguard, Hguard0, Hguard1.
  split; intros i; do 3 (inv_fin i; [done|intros i]); inv_fin i.
Qed.

Lemma fixed_window_1s ws :
  validate_detailed_rate_windows ws = Ok tt → fixed_window ws 1000 = Ok (ws !!! 0%fin).
Proof.
  intros [Hms _]%validate_detailed_rate_windows_Ok. unfold fixed_window.
  pose proof (Hms 0%fin) as H0. inv_vec ws; intros w0 w1 w2 Hms H0. cbn in *. by rewrite H0.
Qed.

Lemma fixed_window_10s ws :
  validate_detailed_rate_windows ws = Ok tt → fixed_window ws 10000 = Ok (ws !!! 1%fin).
Proof.
  intros [Hms _]%validate_detailed_rate_windows_Ok. unfold fixed_window.
  pose proof (Hms 0%fin) as H0. pose proof (Hms 1%fin) as H1.
  inv_vec ws; intros w0 w1 w2 Hms H0 H1. cbn in *. by rewrite H0, H1.
Qed.

Lemma find_hook (hooks : HookRates) role :
  observed_role role → hook_roles_ordered hr_role hooks = true →
  List.find (λ hook, bool_decide (hr_role hook = role)) (vec_to_list hooks) =
    Some (hooks !!! hook_index role).
Proof.
  intros Hrole Ho. unfold hook_roles_ordered in Ho. apply negb_true_iff in Ho.
  apply orb_false_iff in Ho as [H0 H1]. apply negb_false_iff, bool_decide_eq_true in H0, H1.
  revert H0 H1. inv_vec hooks; intros h0 h1. cbn. intros H0 H1.
  destruct Hrole as [-> | ->]; rewrite ?H0, ?H1; done.
Qed.

(** A valid ready window carries the rates of both hooks. *)
Lemma valid_window_hooks w :
  DetailedRateWindow_validate w = Ok tt → dw_state w = RateReady →
  ∃ hooks, dw_hooks w = Some hooks ∧ hook_roles_ordered hr_role hooks = true.
Proof.
  intros Hv Hst. unfold DetailedRateWindow_validate in Hv. inv_ok. destruct a.
  unfold validate_evidence_shape in Ha. inv_ok. rewrite Hst in Ha. inv_ok.
  apply negb_false_iff, andb_true_iff in Hguard0 as [_ Hs].
  destruct (dw_hooks w) as [hooks|]; [|done]. exists hooks. split; [done|].
  unfold validate_hook_rates in Hv. inv_ok. by apply negb_false_iff in Hguard0.
Qed.

Lemma hook_rates_total w role :
  observed_role role → DetailedRateWindow_validate w = Ok tt →
  ∃ o, hook_rates w role = Ok o ∧ ∀ h, o = Some h ↔ ready_rates w role h.
Proof.
  intros Hrole Hv. unfold hook_rates, ready_rates.
  case_bool_decide as Hst; cbn [negb]; [|eexists; split; [done|naive_solver]].
  destruct (valid_window_hooks w Hv Hst) as (hooks & Hh & Ho). rewrite Hh.
  cbn [mbind option_bind]. rewrite find_hook by done. cbn.
  eexists; split; [done|]. naive_solver.
Qed.

Lemma hook_rates_spec w role o :
  observed_role role → DetailedRateWindow_validate w = Ok tt → hook_rates w role = Ok o →
  ∀ h, o = Some h ↔ ready_rates w role h.
Proof.
  intros Hrole Hv Ho. destruct (hook_rates_total w role Hrole Hv) as (o' & Ho' & H).
  assert (o' = o) as -> by congruence. done.
Qed.

(** ** Baseline evidence *)
Lemma find_some_elem {A} (p : A → bool) l x : x ∈ l → p x = true → ∃ y, List.find p l = Some y.
Proof.
  intros Hx Hp. destruct (List.find p l) as [y|] eqn:Hf; [by exists y|].
  apply list_elem_of_In in Hx. eapply find_none in Hf; [|exact Hx]. congruence.
Qed.

(** Every observed role has each broadcast and multicast class at exactly one
    index. *)
Lemma bum_subject_unique (role : HookRole) c :
  observed_role role → c ∈ BUM_CLASSES →
  ∃ i : subject_index, hook_for_index i = role ∧ subject_for_index i = SubjectTrafficClass c ∧
  ∀ j : subject_index, hook_for_index j = role → subject_for_index j = SubjectTrafficClass c → j = i.
Proof.
  intros Hr Hc.
  assert (∀ i : subject_index, (i < 16)%nat) as Hlt by (intros i; apply (fin_to_nat_lt i)).
  assert (∀ k : nat, (k < 16)%nat → hook_for_index k = role →
    subject_for_index k = SubjectTrafficClass c →
    baseline_subject_index role (SubjectTrafficClass c) = Some k) as Hpos.
  { intros k Hk <- <-. pose proof baseline_subject_index_fixed as H. rewrite Forall_forall in H.
    apply H. apply elem_of_seq. lia. }
  assert (∃ k, (k < 16)%nat ∧ hook_for_index k = role ∧
    subject_for_index k = SubjectTrafficClass c) as (k & Hk & Hh & Hs).
  { unfold BUM_CLASSES in Hc. rewrite !elem_of_cons in Hc.
    destruct Hr as [-> | ->], Hc as [-> |[-> |[-> |[-> |Hn]]]];
      try (by apply not_elem_of_nil in Hn);
      [exists 1%nat|exists 2%nat|exists 3%nat|exists 4%nat
      |exists 9%nat|exists 10%nat|exists 11%nat|exists 12%nat]; split_and!; (lia || reflexivity). }
  exists (nat_to_fin Hk : subject_index). rewrite fin_to_nat_to_fin. split_and!; [done..|].
  intros j Hj Hj'. apply (inj fin_to_nat). rewrite fin_to_nat_to_fin.
  pose proof (Hpos j (Hlt j) Hj Hj'). pose proof (Hpos k Hk Hh Hs). congruence.
Qed.

(** The search of the loop finds the one subject of the role and class. *)
Lemma find_bum_subject b role c :
  observed_role role → c ∈ BUM_CLASSES → BaselineReport_validate b = Ok tt →
  ∃ s, List.find (λ subject, bool_decide (bs_hook subject = role)
          && bool_decide (bs_subject subject = SubjectTrafficClass c))
        (vec_to_list (br_subjects b)) = Some s ∧
    bum_subject b role s ∧ bs_subject s = SubjectTrafficClass c ∧
    ∀ s', bum_subject b role s' → bs_subject s' = SubjectTrafficClass c → s' = s.
Proof.
  intros Hr Hc Hv. destruct (report_validate_subjects b Hv) as [_ Hs].
  destruct (bum_subject_unique role c Hr Hc) as (i & Hh & Hsub & Huniq).
  assert (∀ j : subject_index, bs_hook (br_subjects b !!! j) = role →
    bs_subject (br_subjects b !!! j) = SubjectTrafficClass c → j = i) as Hu.
  { intros j H1 H2. destruct (Hs j) as (E1 & E2 & _). apply Huniq; congruence. }
  destruct (Hs i) as (Ei1 & Ei2 & _).
  destruct (find_some_elem (λ subject, bool_decide (bs_hook subject = role)
    && bool_decide (bs_subject subject = SubjectTrafficClass c))
    (vec_to_list (br_subjects b)) (br_subjects b !!! i)) as [s Hf].
  - apply elem_of_vlookup. by exists i.
  - rewrite !bool_decide_eq_true_2; [done|congruence..].
  - exists s. split; [done|]. apply find_some in Hf as [Hin Hp].
    apply andb_true_iff in Hp as [Hp1%bool_decide_eq_true Hp2%bool_decide_eq_true].
    apply list_elem_of_In, elem_of_vlookup in Hin as [j Hj]. split_and!; [|done|].
    + exists j, c. by rewrite Hj.
    + intros s' (j' & c' & <- & _ & H1 & _) H2. rewrite <-Hj.
      rewrite (Hu j' H1 H2). symmetry. rewrite (Hu j); [done|congruence..].
Qed.

Lemma bum_elevated_loop_spec b role el cs :
  observed_role role → BaselineReport_validate b = Ok tt → (∀ c, c ∈ cs → c ∈ BUM_CLASSES) →
  ∃ o, bum_elevated_loop b role el cs = Ok o ∧
    (is_some o = true ↔ ∀ s c, bum_subject b role s → c ∈ cs →
       bs_subject s = SubjectTrafficClass c → evaluated s) ∧
    (o = Some true → el = true ∨ ∃ s, bum_subject b role s ∧
       is_elevated (bs_packets s) || is_elevated (bs_bytes s) = true) ∧
    (o = Some false → el = false ∧ ∀ s c, bum_subject b role s → c ∈ cs →
       bs_subject s = SubjectTrafficClass c →
       is_elevated (bs_packets s) || is_elevated (bs_bytes s) = false).
Proof.
  intros Hr Hv. revert el. induction cs as [|c cs IH]; intros el Hcs.
  { exists (Some el). split; [done|]. split_and!.
    - split; [|done]. intros _ s c _ Hc. by apply not_elem_of_nil in Hc.
    - intros [= ->]. by left.
    - intros [= ->]. split; [done|]. intros s c _ Hc. by apply not_elem_of_nil in Hc. }
  destruct (find_bum_subject b role c) as (s & Hf & Hs & Hsc & Huniq);
    [done|apply Hcs, list_elem_of_here|done|].
  cbn [bum_elevated_loop]. rewrite Hf. cbn [ok_or mbind result_bind].
  destruct (decide (evaluated s)) as [He|He].
  2:{ exists None. split; [|split_and!; try done].
      - destruct (bs_state s) eqn:Hst; try done; destruct He; [by left|by right].
      - split; [done|]. intros H. destruct He. eapply H; [done|apply list_elem_of_here|done]. }
  destruct (IH (el || (is_elevated (bs_packets s) || is_elevated (bs_bytes s))))
    as (o & Ho & H1 & H2 & H3).
  { intros c' Hc'. apply Hcs. by apply list_elem_of_further. }
  exists o. split_and!.
  - by destruct He as [-> | ->].
  - rewrite H1. split; intros H s' c' Hs' Hc' Hsc'.
    + apply elem_of_cons in Hc' as [-> |Hc']; [by rewrite (Huniq s')|by eapply H].
    + eapply H; [done|by apply list_elem_of_further|done].
  - intros Heq. destruct (H2 Heq) as [Hor|Hex]; [|by right].
    apply orb_true_iff in Hor as [->|Hel]; [by left|right; by exists s].
  - intros Heq. destruct (H3 Heq) as [[-> Hel]%orb_false_iff Hall]. split; [done|].
    intros s' c' Hs' Hc' Hsc'. apply elem_of_cons in Hc' as [-> |Hc']; [by rewrite (Huniq s')|].
    by eapply Hall.
Qed.

Lemma baseline_bum_elevated_spec b role :
  observed_role role → BaselineReport_validate b = Ok tt →
  ∃ o, baseline_bum_elevated b role = Ok o ∧ (o = Some true ↔ over_baseline b role).
Proof.
  intros Hr Hv. unfold baseline_bum_elevated.
  destruct (bum_elevated_loop_spec b role false BUM_CLASSES Hr Hv ltac:(done))
    as (o & -> & H1 & H2 & H3).
  exists o. split; [done|]. unfold over_baseline. split.
  - intros ->. split; [|by destruct (H2 eq_refl)].
    intros s Hs. pose proof Hs as (i & c & _ & Hc & _ & Hsc). by apply (proj1 H1 eq_refl s c).
  - intros [Hall (s & Hs & Hel)]. pose proof Hs as (i & c & _ & Hc & _ & Hsc).
    assert (is_some o = true) as Ho by (apply H1; intros; by apply Hall).
    destruct o as [[]|]; [done| |done]. destruct (H3 eq_refl) as [_ Hf].
    by rewrite (Hf s c) in Hel.
Qed.

(** ** One hook *)

(** Type invariant of the rates: unsigned 64-bit values. *)
Definition hook_rate_u64 (h : HookRate) : Prop :=
  Forall (λ c, 0 ≤ rc_packets_per_second (cr_counters c) ∧
               0 ≤ rc_bytes_per_second (cr_counters c)) (hr_classes h) ∧
  rc_packets_per_second (hr_total h) ≤ U64_MAX ∧ rc_bytes_per_second (hr_total h) ≤ U64_MAX.

Definition windows_u64 (ws : DetailedRateWindows) : Prop :=
  ∀ i role h, ready_rates (ws !!! i) role h → hook_rate_u64 h.

(** At least eighty percent of the packets of the last ten seconds are
    broadcast or multicast. *)
Definition mostly_bum (ws : DetailedRateWindows) (role : HookRole) : Prop :=
  ∃ h, ready_rates (ws !!! 1%fin) role h ∧ rc_packets_per_second (hr_total h) ≠ 0 ∧
    DETECTION_BUM_RATIO_MILLI * rc_packets_per_second (hr_total h) ≤ bum_packets h * 1000.

Lemma either_leb a p b q : (a <=? p) || (b <=? q) = true ↔ a ≤ p ∨ b ≤ q.
Proof. by rewrite orb_true_iff, !Z.leb_le. Qed.

Section hook.
Context (ws : DetailedRateWindows) (b : BaselineReport) (role : HookRole).
Context (Hrole : observed_role role).
Context (Hws : validate_detailed_rate_windows ws = Ok tt) (Hb : BaselineReport_validate b = Ok tt).

Lemma window_valid i : DetailedRateWindow_validate (ws !!! i) = Ok tt.
Proof. by apply validate_detailed_rate_windows_Ok. Qed.

Lemma derive_hook_spec hk :
  windows_u64 ws → derive_hook (ws !!! 0%fin) (ws !!! 1%fin) b role = Ok hk →
  hook_signals_validate hk = Ok tt ∧
  (hook_is_candidate hk = true ↔ storming ws b role) ∧
  (is_some_and (hd_bum_ratio_milli hk) (λ ratio, DETECTION_BUM_RATIO_MILLI <=? ratio) = true ↔
    mostly_bum ws role).
Proof.
  intros Hu H. unfold derive_hook in H.
  destruct (hook_rates_total (ws !!! 1%fin) role Hrole (window_valid _)) as (o10 & E10 & H10).
  destruct (hook_rates_total (ws !!! 0%fin) role Hrole (window_valid _)) as (o1 & E1 & H1).
  destruct (baseline_bum_elevated_spec b role Hrole Hb) as (ob & Eb & Hob).
  rewrite E10, E1, Eb in H. cbn [mbind result_bind] in H.
  apply bind_Ok in H as (bum & Hbum & H). apply bind_Ok in H as (abs & Habs & H).
  injection H as <-. unfold hook_is_candidate, storming, mostly_bum, hook_signals_validate.
  cbn [hd_adaptive_candidate hd_absolute_candidate hd_bum_ratio_milli].
  assert (bool_decide (abs = Some true) = true ↔ ∃ h, ready_rates (ws !!! 0%fin) role h ∧
    (DETECTION_ABSOLUTE_PACKET_THRESHOLD_PPS ≤ bum_packets h ∨
     DETECTION_ABSOLUTE_BYTE_THRESHOLD_BPS ≤ bum_bytes h)) as Hab.
  { setoid_rewrite <-H1. rewrite bool_decide_eq_true. clear -Habs. destruct o1 as [h|].
    - apply bind_Ok in Habs as (s & [-> _]%bum_rates_Ok & Habs). injection Habs as <-.
      cbn [fst snd]. split.
      + intros [= Hc%either_leb]. by exists h.
      + intros (h' & [= <-] & Hc). f_equal. by apply either_leb.
    - injection Habs as <-. naive_solver. }
  destruct o10 as [h|].
  - apply bind_Ok in Hbum as (s & Hs & Hbum). apply bum_rates_Ok in Hs as (-> & Hp & Hbb).
    cbn [fst snd] in Hbum. apply bind_Ok in Hbum as (r & Hr & Hbum). injection Hbum as <-.
    cbn [fst snd]. assert (ready_rates (ws !!! 1%fin) role h) as Hrr by (by apply H10).
    destruct (Hu _ _ _ Hrr) as (Hc & Htp & Htb).
    assert (0 ≤ bum_packets h) as Hpos by (apply bum_nonneg; by split_and!).
    destruct (detection_ratio_milli_ok (bum_packets h) (rc_packets_per_second (hr_total h)))
      as (r' & Hr' & Hle & Hge); [lia|done|].
    assert (r' = r) as -> by congruence. split_and!.
    + cbn [is_some_and]. by rewrite (proj2 (Z.ltb_ge _ _)).
    + rewrite orb_true_iff, Hab, <-Hob. rewrite (or_comm _ (∃ h, _)). apply or_iff_compat_l.
      setoid_rewrite <-H10. rewrite bool_decide_eq_true.
      clear. destruct ob as [[]|]; cbn [andb]; split; try naive_solver.
      * intros [= Hx%either_leb]. split; [done|]. by exists h.
      * intros (_ & h' & [= <-] & Hx). f_equal. by apply either_leb.
    + cbn [is_some_and]. rewrite Z.leb_le, Hge. setoid_rewrite <-H10. naive_solver.
  - injection Hbum as <-. cbn [fst snd]. split_and!; [done| |].
    + rewrite orb_true_iff, Hab. setoid_rewrite <-H10. cbn. naive_solver.
    + cbn. setoid_rewrite <-H10. naive_solver.
Qed.

Lemma derive_hook_total :
  (∀ i h, ready_rates (ws !!! i) role h → rates_consistent h) →
  ∃ hk, derive_hook (ws !!! 0%fin) (ws !!! 1%fin) b role = Ok hk.
Proof.
  intros Hc. unfold derive_hook.
  destruct (hook_rates_total (ws !!! 1%fin) role Hrole (window_valid _)) as (o10 & -> & H10).
  destruct (hook_rates_total (ws !!! 0%fin) role Hrole (window_valid _)) as (o1 & -> & H1).
  destruct (baseline_bum_elevated_spec b role Hrole Hb) as (ob & -> & _).
  cbn [mbind result_bind]. destruct o10 as [h|].
  - assert (rates_consistent h) as Hh by (eapply Hc; by apply H10).
    rewrite bum_rates_total by done. cbn [mbind result_bind fst snd].
    destruct (bum_nonneg h Hh). destruct Hh as (_ & Hp & _).
    destruct (detection_ratio_milli_ok (bum_packets h) (rc_packets_per_second (hr_total h)))
      as (r & -> & _); [lia..|]. cbn [mbind result_bind].
    destruct o1 as [h1|]; [|by eexists]. rewrite bum_rates_total by (eapply Hc; by apply H1).
    by eexists.
  - destruct o1 as [h1|]; [|by eexists]. cbn [mbind result_bind].
    rewrite bum_rates_total by (eapply Hc; by apply H1). by eexists.
Qed.
End hook.

(** ** Source endpoints *)

(** All ready windows end at the same instant, the baseline (if it has a
    source) was computed from it, and nothing ends after the evaluation. *)
Definition endpoints_agree (ws : DetailedRateWindows) (b : BaselineReport)
    (f : FingerprintWindowReport) (now : Z) (source_end : option Z) : Prop :=
  (∀ i, dw_state (ws !!! i) = RateReady → dw_end_unix_ms (ws !!! i) = source_end) ∧
  (source_end ≠ None → ∃ i, dw_state (ws !!! i) = RateReady) ∧
  (∀ e, source_end = Some e → e ≤ now) ∧
  (∀ e, br_source_end_unix_ms b = Some e → source_end = Some e) ∧
  (∀ e, fw_end_unix_ms f = Some e → e ≤ now).

Lemma source_end_step_some now o w e :
  dw_end_unix_ms w = Some e →
  source_end_step now o w =
    if is_some_and o (λ existing, negb (existing =? e)) then Err SourceEndpointMismatch
    else if now <? e then Err DetectionClockRegression else Ok (Some e).
Proof. intros He. unfold source_end_step. by rewrite He. Qed.

Lemma source_end_fold now l o :
  Forall (λ w, dw_end_unix_ms w ≠ None) l →
  try_fold (source_end_step now) None l = Ok o ↔
  Forall (λ w, dw_end_unix_ms w = o) l ∧ (o ≠ None → l ≠ []) ∧ (∀ e, o = Some e → e ≤ now).
Proof.
  intros Hs.
  assert (∀ l e, Forall (λ w, dw_end_unix_ms w ≠ None) l → e ≤ now → ∀ o,
    try_fold (source_end_step now) (Some e) l = Ok o ↔
    Forall (λ w, dw_end_unix_ms w = Some e) l ∧ o = Some e) as Hgen.
  { clear. induction l as [|w l IH]; intros e Hs He o.
    - cbn. split; [intros [= <-]; by split|by intros [_ ->]].
    - apply Forall_cons in Hs as [Hw Hs]. cbn [try_fold].
      destruct (dw_end_unix_ms w) as [e'|] eqn:Hew; [|done].
      rewrite (source_end_step_some _ _ _ _ Hew). cbn [is_some_and].
      rewrite Forall_cons, Hew. destruct (Z.eqb_spec e e') as [<-|Hne]; cbn [negb].
      + rewrite (proj2 (Z.ltb_ge _ _)) by done. cbn [mbind result_bind]. rewrite IH by done.
        naive_solver.
      + split; [done|]. intros [[[= ?] _] _]. congruence. }
  destruct l as [|w l].
  { cbn. split.
    - intros [= <-]. by split_and!.
    - intros (_ & Ho & _). destruct o; [by destruct Ho|done]. }
  apply Forall_cons in Hs as [Hw Hs]. cbn [try_fold].
  destruct (dw_end_unix_ms w) as [e|] eqn:Hew; [|done].
  rewrite (source_end_step_some _ _ _ _ Hew). cbn [is_some_and].
  rewrite Forall_cons, Hew. destruct (Z.ltb_spec now e).
  - split; [done|]. intros ((<- & _) & _ & Hn). specialize (Hn e eq_refl). lia.
  - cbn [mbind result_bind]. rewrite Hgen by done. split.
    + intros [Hl ->]. split_and!; [done..|]. intros e' [= <-]. done.
    + by intros [[<- Hl] _].
Qed.

Lemma validate_source_endpoints_iff ws b f now o :
  validate_detailed_rate_windows ws = Ok tt →
  validate_source_endpoints ws b f now = Ok o ↔ endpoints_agree ws b f now o.
Proof.
  intros Hws. unfold validate_source_endpoints, endpoints_agree.
  set (l := List.filter _ _).
  assert (∀ P : DetailedRateWindow → Prop,
    Forall P l ↔ ∀ i, dw_state (ws !!! i) = RateReady → P (ws !!! i)) as Hl.
  { intros P. rewrite Forall_forall. split.
    - intros H i Hi. apply H, list_elem_of_In, filter_In. split.
      + apply list_elem_of_In, elem_of_vlookup. by exists i.
      + by apply bool_decide_eq_true.
    - intros H w Hw. apply list_elem_of_In, filter_In in Hw as [Hw Hst%bool_decide_eq_true].
      apply list_elem_of_In, elem_of_vlookup in Hw as [i <-]. by apply H. }
  assert (l ≠ [] ↔ ∃ i, dw_state (ws !!! i) = RateReady) as Hne.
  { split.
    - destruct l as [|w l'] eqn:Hw; [done|]. intros _.
      assert (w ∈ l) as Hin by (rewrite Hw; apply list_elem_of_here).
      apply list_elem_of_In, filter_In in Hin as [Hin Hst%bool_decide_eq_true].
      apply list_elem_of_In, elem_of_vlookup in Hin as [i <-]. by exists i.
    - intros [i Hi] Hnil. assert (Forall (λ _, False) l) as Hf by (rewrite Hnil; constructor).
      rewrite Hl in Hf. by apply (Hf i). }
  assert (Forall (λ w, dw_end_unix_ms w ≠ None) l) as Hends.
  { rewrite Hl. intros i Hi.
    pose proof (proj2 (validate_detailed_rate_windows_Ok ws Hws) i) as Hv.
    unfold DetailedRateWindow_validate in Hv. apply bind_Ok in Hv as ([] & Hv & _).
    unfold validate_evidence_shape in Hv. rewrite Hi in Hv. inv_ok.
    apply negb_false_iff, andb_true_iff in Hguard0 as [[_ He]%andb_true_iff _].
    intros Hnone. by rewrite Hnone in He. }
  rewrite bind_Ok. setoid_rewrite (source_end_fold now l _ Hends). setoid_rewrite Hl.
  setoid_rewrite Hne. split.
  - intros (o' & (H1 & H2 & H3) & H). apply bind_Ok in H as ([] & Hb & H).
    destruct (is_some_and _ _) eqn:Hf; [done|]. injection H as <-. split_and!; try done.
    + intros e He. rewrite He in Hb. case_bool_decide; [done|discriminate].
    + intros e He. rewrite He in Hf. cbn in Hf. by apply Z.ltb_ge in Hf.
  - intros (H1 & H2 & H3 & Hb & Hf). exists o. split; [done|].
    assert (is_some_and (fw_end_unix_ms f) (λ end_, now <? end_) = false) as ->.
    { destruct (fw_end_unix_ms f) as [e|]; [|done]. cbn. apply Z.ltb_ge. by apply Hf. }
    destruct (br_source_end_unix_ms b) as [e|]; [|done].
    rewrite bool_decide_eq_true_2 by (by apply Hb). cbn [negb].
    rewrite (proj2 (Z.ltb_ge _ _)); [done|]. by apply H3, Hb.
Qed.

(** ** The derivation *)

(** A loop is suspected: the ingress side storms, it is mostly broadcast and
    multicast, and a fresh fingerprint window shows at least sixteen sampled
    ingress frames, some of them repeated, one relation dominating. *)
Definition loop_evidence (ws : DetailedRateWindows) (b : BaselineReport)
    (f : FingerprintWindowReport) (now : Z) : Prop :=
  storming ws b ExternalXdpIngress ∧ mostly_bum ws ExternalXdpIngress ∧
  fw_state f = WindowReady ∧
  (∀ e, fw_end_unix_ms f = Some e → now - e ≤ DETECTION_FINGERPRINT_FRESHNESS_MS) ∧
  DETECTION_MINIMUM_INGRESS_SAMPLES ≤ fc_packets (fw_ingress f) ∧
  0 < fw_repeated_relation_count f ∧
  ∃ r, fw_dominant_ingress_packet_ratio_milli f = Some r ∧ DETECTION_DOMINANT_RATIO_MILLI ≤ r.

(** With high confidence: a frame seen first on egress comes back amplified. *)
Definition amplified_return (f : FingerprintWindowReport) : Prop :=
  0 < fw_egress_first_correlated_relation_count f ∧
  ∃ r, fw_maximum_ingress_to_egress_packet_ratio_milli f = Some r ∧
    DETECTION_AMPLIFICATION_RATIO_MILLI ≤ r.

Lemma is_some_and_leb o t : is_some_and o (λ r, t <=? r) = true ↔ ∃ r, o = Some r ∧ t ≤ r.
Proof. destruct o; cbn; [rewrite Z.leb_le|]; naive_solver. Qed.

Lemma derive_relationship_spec c ingress f now loops :
  FingerprintWindowReport_validate f = Ok tt →
  derive_relationship_signals c ingress f now = Ok loops →
  (loops.1 = Some true ↔
    ingress_or_bidirectional c = true ∧
    is_some_and (hd_bum_ratio_milli ingress) (λ ratio, DETECTION_BUM_RATIO_MILLI <=? ratio) = true ∧
    fw_state f = WindowReady ∧
    (∀ e, fw_end_unix_ms f = Some e → now - e ≤ DETECTION_FINGERPRINT_FRESHNESS_MS) ∧
    DETECTION_MINIMUM_INGRESS_SAMPLES ≤ fc_packets (fw_ingress f) ∧
    0 < fw_repeated_relation_count f ∧
    ∃ r, fw_dominant_ingress_packet_ratio_milli f = Some r ∧ DETECTION_DOMINANT_RATIO_MILLI ≤ r) ∧
  (loops.2 = Some true ↔ loops.1 = Some true ∧ amplified_return f).
Proof.
  intros Hv H. unfold derive_relationship_signals in H.
  case_bool_decide as Hst; cbn [negb] in H.
  2:{ injection H as <-. cbn. split; naive_solver. }
  apply bind_Ok in H as (e & He%ok_or_Ok & H). apply bind_Ok in H as (age & Hage & H).
  apply ok_or_Ok, checked_sub_Some in Hage as [-> Hle].
  destruct (Z.ltb_spec DETECTION_FINGERPRINT_FRESHNESS_MS (now - e)) as [Hold|Hfresh].
  { injection H as <-. cbn. split; [|naive_solver]. split; [done|].
    intros (_ & _ & _ & Hf & _). specialize (Hf e He). lia. }
  injection H as <-. cbn [fst snd]. unfold amplified_return.
  assert (∀ x y : bool, Some x = Some true ↔ x = true) as Hsome by (intros [] _; naive_solver).
  rewrite !(Hsome _ true), !andb_true_iff, !is_some_and_leb, !Z.leb_le, !Z.ltb_lt.
  split; [|tauto]. split.
  - intros ((((H1 & H2) & H3) & H4) & H5). split_and!; try done. intros e' He'. by simplify_eq.
  - tauto.
Qed.

(** C28: a derived signal names exactly the hooks that storm, and its loop
    signals are set exactly when the loop evidence holds; high confidence
    implies suspicion, all ready evidence shares one endpoint that is not in
    the future, and the signal satisfies its own contract. *)
Theorem derive_correct ws b f now s :
  windows_u64 ws → DetectionSignals_derive ws b f now = Ok s →
  (ingress_or_bidirectional (ds_candidate s) = true ↔ storming ws b ExternalXdpIngress) ∧
  (ds_candidate s = CandidateEgress ∨ ds_candidate s = CandidateBidirectional ↔
    storming ws b PhysicalTcEgress) ∧
  (ds_loop_suspected s = Some true ↔ loop_evidence ws b f now) ∧
  (ds_loop_high_confidence s = Some true ↔ loop_evidence ws b f now ∧ amplified_return f) ∧
  endpoints_agree ws b f now (ds_source_window_end_unix_ms s) ∧
  DetectionSignals_validate s = Ok tt.
Proof.
  intros Hu H. unfold DetectionSignals_derive in H. inv_ok.
  destruct a, a0, a1. rewrite fixed_window_1s in Ha2 by done. rewrite fixed_window_10s in Ha3 by done.
  injection Ha2 as <-. injection Ha3 as <-.
  apply validate_source_endpoints_iff in Ha4; [|done].
  destruct (derive_hook_spec ws b ExternalXdpIngress ltac:(by left) Ha Ha0 a5 Hu Ha5)
    as (_ & Hin & Hbum).
  destruct (derive_hook_spec ws b PhysicalTcEgress ltac:(by right) Ha Ha0 a6 Hu Ha6)
    as (_ & Heg & _).
  destruct (derive_relationship_spec _ _ _ _ _ Ha1 Ha7) as [Hsus Hhigh].
  rewrite Hbum in Hsus. destruct a8.
  cbn [ds_candidate ds_loop_suspected ds_loop_high_confidence ds_source_window_end_unix_ms].
  assert (ingress_or_bidirectional (match hook_is_candidate a5, hook_is_candidate a6 with
    | false, false => CandidateNone | true, false => CandidateIngress
    | false, true => CandidateEgress | true, true => CandidateBidirectional end) = true ↔
    storming ws b ExternalXdpIngress) as Hc.
  { rewrite <-Hin. by destruct (hook_is_candidate a5), (hook_is_candidate a6). }
  rewrite Hc in Hsus. split_and!; try done.
  - rewrite <-Heg. destruct (hook_is_candidate a5), (hook_is_candidate a6); naive_solver.
  - rewrite Hhigh, Hsus. done.
Qed.

(** The derivation never fails on consistent evidence: with valid windows,
    baseline and fingerprint window that agree on their endpoints, and rates
    whose broadcast and multicast classes stay within the totals, it succeeds. *)
Theorem derive_total ws b f now o :
  validate_detailed_rate_windows ws = Ok tt → BaselineReport_validate b = Ok tt →
  FingerprintWindowReport_validate f = Ok tt → endpoints_agree ws b f now o →
  (∀ i role h, ready_rates (ws !!! i) role h → rates_consistent h) →
  ∃ s, DetectionSignals_derive ws b f now = Ok s.
Proof.
  intros Hws Hb Hf Hend Hc.
  assert (windows_u64 ws) as Hu.
  { intros i role h Hr. destruct (Hc i role h Hr) as (H1 & [_ H2] & [_ H3]). by split_and!. }
  destruct (derive_hook_total ws b ExternalXdpIngress ltac:(by left) Hws Hb) as [hi Hi].
  { intros i h. apply Hc. }
  destruct (derive_hook_total ws b PhysicalTcEgress ltac:(by right) Hws Hb) as [he He].
  { intros i h. apply Hc. }
  destruct (derive_hook_spec ws b ExternalXdpIngress ltac:(by left) Hws Hb hi Hu Hi) as (Hvi & _).
  destruct (derive_hook_spec ws b PhysicalTcEgress ltac:(by right) Hws Hb he Hu He) as (Hve & _).
  apply validate_source_endpoints_iff in Hend as Hsrc; [|done].
  unfold DetectionSignals_derive. rewrite Hws, Hb, Hf. cbn [map_err mbind result_bind].
  rewrite fixed_window_1s, fixed_window_10s by done. cbn [mbind result_bind].
  rewrite Hsrc. cbn [mbind result_bind]. rewrite Hi, He. cbn [mbind result_bind].
  set (c := match hook_is_candidate hi, hook_is_candidate he with
    | false, false => CandidateNone | true, false => CandidateIngress
    | false, true => CandidateEgress | true, true => CandidateBidirectional end).
  assert (∃ loops, derive_relationship_signals c hi f now = Ok loops) as [loops Hl].
  { unfold derive_relationship_signals. case_bool_decide as Hst; cbn [negb]; [|by eexists].
    assert (∃ e, fw_end_unix_ms f = Some e) as [e Hend'].
    { unfold FingerprintWindowReport_validate in Hf. rewrite Hst in Hf. inv_ok. boolify.
      destruct (fw_end_unix_ms f) as [e|]; [by exists e|done]. }
    rewrite Hend'. cbn [ok_or mbind result_bind].
    rewrite checked_sub_ok by (by apply Hend). cbn [ok_or mbind result_bind].
    case_match; by eexists. }
  rewrite Hl. cbn [mbind result_bind].
  destruct (derive_relationship_spec _ _ _ _ _ Hf Hl) as [_ Hhigh].
  assert (DetectionSignals_validate (mkDetectionSignals o hi he c f loops.1 loops.2) = Ok tt) as ->.
  { unfold DetectionSignals_validate. cbn [ds_fingerprint_window ds_ingress ds_egress
      ds_loop_high_confidence ds_loop_suspected].
    rewrite Hf. cbn [mbind result_bind].
    unfold try_for_each; cbn [try_fold]. rewrite Hvi. cbn [mbind result_bind]. rewrite Hve.
    cbn [mbind result_bind]. case_bool_decide as Hh; [|done].
    apply Hhigh in Hh as [-> _]. by rewrite bool_decide_eq_true_2. }
  by eexists.
Qed.

(** A broadcast storm after sixty quiet windows, with a looped frame. *)
Module SignalsExample.
Definition one_second (i n : Z) : DetailedRateWindow :=
  mkDetailedRateWindow 1000 RateReady 10000 (Some 1000000000)
    (Some (i * 1000 - 1000)) (Some (i * 1000))
    (Some [# BaselineExample.hook ExternalXdpIngress n; BaselineExample.hook PhysicalTcEgress 100]).
Definition ten_second (i n : Z) : DetailedRateWindow :=
  mkDetailedRateWindow 10000 RateReady 10000 (Some 10000000000)
    (Some (i * 1000 - 10000)) (Some (i * 1000))
    (Some [# BaselineExample.hook ExternalXdpIngress n; BaselineExample.hook PhysicalTcEgress 100]).
Definition windows : DetailedRateWindows :=
  [# one_second 80 5000; ten_second 80 5000; warming_window 60000].
Definition baseline : BaselineReport :=
  bg_cached (baseline_step BaselineExample.trained (OpEvaluate (ten_second 80 5000) 80000)).
Definition fingerprint : FingerprintWindowReport :=
  mkFingerprintWindowReport WindowReady 10000 11000 (Some 69000) (Some 80000) 3 1 1 1
    (mkFingerprintCounters 1000 60000) (mkFingerprintCounters 10 600) (Some 1000) (Some 100000) None.

Lemma ready i role h :
  ready_rates (windows !!! i) role h → h ∈
    [BaselineExample.hook ExternalXdpIngress 5000; BaselineExample.hook PhysicalTcEgress 100].
Proof.
  intros [Hst (hooks & Hh & <-)]. revert Hst Hh. unfold hook_index.
  inv_fin i; [intros _ [= <-]; case_bool_decide; set_solver|intros i].
  inv_fin i; [intros _ [= <-]; case_bool_decide; set_solver|intros i].
  inv_fin i; [done|intros i]. inv_fin i.
Qed.

Lemma consistent i role h : ready_rates (windows !!! i) role h → rates_consistent h.
Proof.
  intros [-> |[-> |Hn]%elem_of_cons]%ready%elem_of_cons; [..|by apply not_elem_of_nil in Hn];
    (split_and!; [repeat constructor; vm_compute; discriminate|vm_compute; discriminate..]).
Qed.

Lemma typed : windows_u64 windows.
Proof.
  intros i role h Hr. destruct (consistent i role h Hr) as (H1 & [_ H2] & [_ H3]). by split_and!.
Qed.
End SignalsExample.

Lemma derive_total_witness :
  ∃ s, DetectionSignals_derive SignalsExample.windows SignalsExample.baseline
    SignalsExample.fingerprint 80000 = Ok s.
Proof.
  apply (derive_total SignalsExample.windows SignalsExample.baseline SignalsExample.fingerprint
    80000 (Some 80000)).
  - vm_compute. reflexivity.
  - vm_compute. reflexivity.
  - vm_compute. reflexivity.
  - apply validate_source_endpoints_iff; vm_compute; reflexivity.
  - apply SignalsExample.consistent.
Defined.

Lemma derive_correct_witness :
  storming SignalsExample.windows SignalsExample.baseline ExternalXdpIngress ∧
  ¬ storming SignalsExample.windows SignalsExample.baseline PhysicalTcEgress.
Proof.
  destruct (DetectionSignals_derive SignalsExample.windows SignalsExample.baseline
    SignalsExample.fingerprint 80000) as [s|e] eqn:Hd.
  - pose proof (derive_correct _ _ _ _ s SignalsExample.typed Hd) as (H1 & H2 & _).
    assert (ds_candidate s = CandidateIngress) as Hc.
    { assert (match DetectionSignals_derive SignalsExample.windows SignalsExample.baseline
        SignalsExample.fingerprint 80000 with Ok s => ds_candidate s | Err _ => CandidateNone end =
        CandidateIngress) as Hv by (vm_compute; reflexivity).
      by rewrite Hd in Hv. }
    rewrite Hc in H1, H2. split; [by apply H1|]. intros H. apply H2 in H as [|]; discriminate.
  - exfalso. apply (f_equal is_ok) in Hd. vm_compute in Hd. discriminate.
Defined.
