(* ===== verification/Detection.v ===== *)
(** The detection engine of [l2-loop-core] (the second half of
    [detection.rs]): the state machine that turns detection signals into
    confirmed storms, suspected loops, cooldown and recovery, with its bounded
    transition history. *)
From S2P Require Import Prelude Domain Observation Rate Baseline FrameHash Fingerprint FingerprintWindow DetectionSignals.

Inductive DetectionState : Type :=
| DetectionWarmingUp | DetectionNormal | IngressStormConfirmed | EgressStormConfirmed
| BidirectionalStormConfirmed | ExternalLoopSuspected | ExternalLoopHighConfidence
| DetectionCooldown | DetectionUnavailable.

#[export] Instance DetectionState_eq_dec : EqDecision DetectionState.
Proof. solve_decision. Defined.

Definition is_anomalous (self : DetectionState) : bool :=
  match self with
  | IngressStormConfirmed | EgressStormConfirmed | BidirectionalStormConfirmed
  | ExternalLoopSuspected | ExternalLoopHighConfidence => true
  | _ => false
  end.

Inductive DetectionTransitionReason : Type :=
| EvidenceReady | StormAsserted | RelationshipSuspected | RelationshipHighConfidence
| EvidenceCleared | CooldownCompleted | EvidenceUnavailable | EvidenceRecovered
| SamplerPaused | IntegrityFailure.

Inductive DetectionEngineError : Type :=
| EngineClockRegression | InvalidSignals | InvalidErrorCode | SequenceOverflow.

Record DetectionTransition : Type := mkDetectionTransition {
  dt_sequence : Z;
  dt_previous_state : DetectionState;
  dt_current_state : DetectionState;
  dt_reason : DetectionTransitionReason;
  dt_occurred_at_unix_ms : Z;
}.

Record DetectionReport : Type := mkDetectionReport {
  dr_state : DetectionState;
  dr_retained_anomalous_state : option DetectionState;
  dr_evaluated_at_unix_ms : Z;
  dr_state_since_unix_ms : Z;
  dr_last_trustworthy_at_unix_ms : option Z;
  dr_config : DetectionConfig;
  dr_signals : DetectionSignals;
  dr_candidate_streak : Z;
  dr_clear_streak : Z;
  dr_transition_sequence : Z;
  dr_transitions : list DetectionTransition;
  dr_last_error_code : option string;
}.

Definition DetectionReport_warming (identity : RateIdentity) (evaluated_at_unix_ms : Z)
    : DetectionReport :=
  mkDetectionReport DetectionWarmingUp None evaluated_at_unix_ms evaluated_at_unix_ms None
    DetectionConfig_fixed DetectionSignals_warming 0 0 0 [] None.

(** [signals.fingerprint_window = window]. *)
Definition with_fingerprint_window (s : DetectionSignals) (window : FingerprintWindowReport)
    : DetectionSignals :=
  mkDetectionSignals (ds_source_window_end_unix_ms s) (ds_ingress s) (ds_egress s)
    (ds_candidate s) window (ds_loop_suspected s) (ds_loop_high_confidence s).

Definition DetectionReport_unavailable (identity : RateIdentity) (evaluated_at_unix_ms : Z)
    (retained_anomalous_state : option DetectionState) (code : string)
    : result DomainError DetectionReport :=
  _ ← validate_error_code code;
  if is_some_and retained_anomalous_state (λ state, negb (is_anomalous state))
  then Err (InvalidObservation "detection retained state is not anomalous")
  else
    let report := DetectionReport_warming identity evaluated_at_unix_ms in
    window ← FingerprintWindowReport_unavailable code;
    Ok (mkDetectionReport DetectionUnavailable retained_anomalous_state
      (dr_evaluated_at_unix_ms report) (dr_state_since_unix_ms report)
      (dr_last_trustworthy_at_unix_ms report) (dr_config report)
      (with_fingerprint_window (dr_signals report) window) (dr_candidate_streak report)
      (dr_clear_streak report) (dr_transition_sequence report) (dr_transitions report) (Some code)).

Definition validate_retained_state (state : DetectionState) (retained : option DetectionState)
    : result DomainError unit :=
  if is_some_and retained (λ value, negb (is_anomalous value))
     || (is_some retained
         && negb (bool_decide (state = DetectionCooldown) || bool_decide (state = DetectionUnavailable)))
     || (bool_decide (state = DetectionCooldown) && is_none retained)
  then Err (InvalidObservation "detection retained state is invalid")
  else Ok tt.

(** The body of the loop over the transition history. *)
Definition transition_check (previous : option Z) (transition : DetectionTransition)
    : result DomainError (option Z) :=
  if (dt_sequence transition =? 0)
     || is_some_and previous (λ sequence,
          negb (bool_decide (checked_add U64_MAX sequence 1 = Some (dt_sequence transition))))
     || bool_decide (dt_previous_state transition = dt_current_state transition)
  then Err (InvalidObservation "detection transition history is invalid")
  else Ok (Some (dt_sequence transition)).

Definition DetectionReport_validate (self : DetectionReport) : result DomainError unit :=
  if negb (bool_decide (dr_config self = DetectionConfig_fixed))
     || (DETECTION_ASSERT_TICKS <? dr_candidate_streak self)
     || (DETECTION_CLEAR_TICKS <? dr_clear_streak self)
     || (DETECTION_TRANSITION_CAPACITY <? length (dr_transitions self))%nat
  then Err (InvalidObservation "detection report fixed bounds are invalid")
  else
    _ ← DetectionSignals_validate (dr_signals self);
    _ ← validate_retained_state (dr_state self) (dr_retained_anomalous_state self);
    _ ← match dr_state self, dr_last_error_code self with
        | DetectionUnavailable, Some code => validate_error_code code
        | DetectionUnavailable, None =>
            Err (InvalidObservation "unavailable detection requires an error code")
        | _, Some code =>
            _ ← validate_error_code code;
            if negb (bool_decide (fw_state (ds_fingerprint_window (dr_signals self)) =
                                  WindowUnavailable))
            then Err (InvalidObservation "available detection has an unrelated error code")
            else Ok tt
        | _, None => Ok tt
        end;
    match dr_transitions self with
    | [] =>
        if negb (dr_transition_sequence self =? 0)
        then Err (InvalidObservation "empty detection history has a non-zero sequence")
        else Ok tt
    | _ =>
        previous ← try_fold transition_check None (dr_transitions self);
        if negb (bool_decide (previous = Some (dr_transition_sequence self)))
        then Err (InvalidObservation "detection transition sequence is inconsistent")
        else Ok tt
    end.

(** ** The engine *)
Record DetectionEngine : Type := mkDetectionEngine {
  dn_identity : RateIdentity;
  dn_last_trustworthy_monotonic_ns : Z;
  dn_resume_state : DetectionState;
  dn_last_candidate : StormCandidate;
  dn_candidate_streak : Z;
  dn_clear_streak : Z;
  dn_cooldown_started_at_monotonic_ns : option Z;
  dn_last_anomalous_state : option DetectionState;
  dn_transition_sequence : Z;
  dn_transitions : list DetectionTransition;
  dn_report : DetectionReport;
}.

Definition DetectionEngine_new (identity : RateIdentity) (started_at_monotonic_ns
    started_at_unix_ms : Z) : DetectionEngine :=
  mkDetectionEngine identity started_at_monotonic_ns DetectionWarmingUp CandidateNone 0 0 None None
    0 [] (DetectionReport_warming identity started_at_unix_ms).

Definition evidence_ready (signals : DetectionSignals) : bool :=
  is_some (ds_source_window_end_unix_ms signals)
  && is_some (hd_bum_packets_per_second (ds_ingress signals))
  && is_some (hd_bum_packets_per_second (ds_egress signals))
  && is_some (hd_baseline_elevated (ds_ingress signals))
  && is_some (hd_baseline_elevated (ds_egress signals)).

Definition candidate_state (candidate : StormCandidate) : option DetectionState :=
  match candidate with
  | CandidateNone => None
  | CandidateIngress => Some IngressStormConfirmed
  | CandidateEgress => Some EgressStormConfirmed
  | CandidateBidirectional => Some BidirectionalStormConfirmed
  end.

Definition strongest_anomaly (candidate : option DetectionState) (signals : DetectionSignals)
    : option DetectionState :=
  let supports_relationship := ingress_or_bidirectional (ds_candidate signals) in
  if supports_relationship && bool_decide (ds_loop_high_confidence signals = Some true)
  then Some ExternalLoopHighConfidence
  else if supports_relationship && bool_decide (ds_loop_suspected signals = Some true)
  then Some ExternalLoopSuspected
  else candidate.

Definition is_relationship_state (state : DetectionState) : bool :=
  match state with ExternalLoopSuspected | ExternalLoopHighConfidence => true | _ => false end.

Definition state_supports_relationship (state : DetectionState) : bool :=
  match state with
  | IngressStormConfirmed | BidirectionalStormConfirmed | ExternalLoopSuspected
  | ExternalLoopHighConfidence => true
  | _ => false
  end.

Definition anomaly_rank (state : DetectionState) : Z :=
  match state with
  | EgressStormConfirmed => 1
  | IngressStormConfirmed => 2
  | BidirectionalStormConfirmed => 3
  | ExternalLoopSuspected => 4
  | ExternalLoopHighConfidence => 5
  | _ => 0
  end.

Definition reason_for_assertion (state : DetectionState) : DetectionTransitionReason :=
  match state with
  | ExternalLoopSuspected => RelationshipSuspected
  | ExternalLoopHighConfidence => RelationshipHighConfidence
  | _ => StormAsserted
  end.

(** [update_candidate_streak]: the new [last_candidate] and streak. *)
Definition update_candidate_streak (last_candidate : StormCandidate) (candidate_streak : Z)
    (candidate : StormCandidate) : StormCandidate * Z :=
  if bool_decide (candidate = CandidateNone) then (CandidateNone, 0)
  else if bool_decide (candidate = last_candidate)
  then (last_candidate, Z.min (saturating_add U8_MAX candidate_streak 1) DETECTION_ASSERT_TICKS)
  else (candidate, 1).

Definition cooldown_elapsed (cooldown_started_at : option Z) (evaluated_at_monotonic_ns : Z)
    : result DetectionEngineError bool :=
  started ← ok_or cooldown_started_at InvalidSignals;
  elapsed ← ok_or (checked_sub evaluated_at_monotonic_ns started) EngineClockRegression;
  Ok (saturating_mul U64_MAX DETECTION_COOLDOWN_MS 1000000 <=? elapsed).

(** What the decision part of [evaluate] computes. *)
Record Decided : Type := mkDecided {
  de_next_state : DetectionState;
  de_reason : option DetectionTransitionReason;
  de_clear_streak : Z;
  de_cooldown_started : option Z;
}.

(** The chain of conditions of [evaluate], on the updated candidate streak. *)
Definition decide_state (current_state : DetectionState) (candidate_streak clear_streak : Z)
    (cooldown_started : option Z) (evaluated_at_monotonic_ns : Z) (signals : DetectionSignals)
    : result DetectionEngineError Decided :=
  let desired_anomaly := strongest_anomaly (candidate_state (ds_candidate signals)) signals in
  let stay := mkDecided current_state None clear_streak cooldown_started in
  if is_anomalous current_state then
    if bool_decide (desired_anomaly = Some current_state)
    then Ok (mkDecided current_state None 0 cooldown_started)
    else if is_some_and desired_anomaly (λ desired,
              (anomaly_rank current_state <? anomaly_rank desired)
              && ((is_relationship_state desired && state_supports_relationship current_state)
                  || (DETECTION_ASSERT_TICKS <=? candidate_streak)))
    then
      let next_state := default current_state desired_anomaly in
      Ok (mkDecided next_state (Some (reason_for_assertion next_state)) 0 cooldown_started)
    else
      let clear_streak := Z.min (saturating_add U8_MAX clear_streak 1) DETECTION_CLEAR_TICKS in
      if DETECTION_CLEAR_TICKS <=? clear_streak then
        match desired_anomaly with
        | Some desired => Ok (mkDecided desired (Some EvidenceCleared) 0 cooldown_started)
        | None => Ok (mkDecided DetectionCooldown (Some EvidenceCleared) clear_streak
                        (Some evaluated_at_monotonic_ns))
        end
      else Ok (mkDecided current_state None clear_streak cooldown_started)
  else if bool_decide (current_state = DetectionCooldown) then
    if is_some desired_anomaly && (DETECTION_ASSERT_TICKS <=? candidate_streak) then
      let next_state := default DetectionCooldown desired_anomaly in
      Ok (mkDecided next_state (Some (reason_for_assertion next_state)) 0 None)
    else if is_none desired_anomaly then
      elapsed ← cooldown_elapsed cooldown_started evaluated_at_monotonic_ns;
      if (elapsed : bool) then Ok (mkDecided DetectionNormal (Some CooldownCompleted) 0 None)
      else Ok stay
    else Ok stay
  else if is_some desired_anomaly && (DETECTION_ASSERT_TICKS <=? candidate_streak) then
    let next_state := default current_state desired_anomaly in
    Ok (mkDecided next_state (Some (reason_for_assertion next_state)) 0 cooldown_started)
  else if bool_decide (current_state = DetectionWarmingUp)
          && bool_decide (ds_candidate signals = CandidateNone) && evidence_ready signals
  then Ok (mkDecided DetectionNormal (Some EvidenceReady) clear_streak cooldown_started)
  else Ok stay.

(** [record_transition]: on overflow nothing changes. *)
Definition record_transition (self : DetectionEngine) (previous_state current_state : DetectionState)
    (reason : DetectionTransitionReason) (occurred_at_unix_ms : Z)
    : DetectionEngine * result DetectionEngineError unit :=
  match checked_add U64_MAX (dn_transition_sequence self) 1 with
  | None => (self, Err SequenceOverflow)
  | Some sequence =>
      let r := dn_report self in
      let transitions := evict_then_push DETECTION_TRANSITION_CAPACITY (dn_transitions self)
        (mkDetectionTransition sequence previous_state current_state reason occurred_at_unix_ms) in
      (mkDetectionEngine (dn_identity self) (dn_last_trustworthy_monotonic_ns self)
         (dn_resume_state self) (dn_last_candidate self) (dn_candidate_streak self)
         (dn_clear_streak self) (dn_cooldown_started_at_monotonic_ns self)
         (dn_last_anomalous_state self) sequence transitions
         (mkDetectionReport current_state (dr_retained_anomalous_state r)
            (dr_evaluated_at_unix_ms r) occurred_at_unix_ms (dr_last_trustworthy_at_unix_ms r)
            (dr_config r) (dr_signals r) (dr_candidate_streak r) (dr_clear_streak r)
            (dr_transition_sequence r) (dr_transitions r) (dr_last_error_code r)), Ok tt)
  end.

Definition set_report (self : DetectionEngine) (report : DetectionReport) : DetectionEngine :=
  mkDetectionEngine (dn_identity self) (dn_last_trustworthy_monotonic_ns self)
    (dn_resume_state self) (dn_last_candidate self) (dn_candidate_streak self)
    (dn_clear_streak self) (dn_cooldown_started_at_monotonic_ns self)
    (dn_last_anomalous_state self) (dn_transition_sequence self) (dn_transitions self) report.

Definition set_report_state (self : DetectionEngine) (state : DetectionState) : DetectionEngine :=
  let r := dn_report self in
  set_report self (mkDetectionReport state (dr_retained_anomalous_state r)
    (dr_evaluated_at_unix_ms r) (dr_state_since_unix_ms r) (dr_last_trustworthy_at_unix_ms r)
    (dr_config r) (dr_signals r) (dr_candidate_streak r) (dr_clear_streak r)
    (dr_transition_sequence r) (dr_transitions r) (dr_last_error_code r)).

Definition sync_retained_state (self : DetectionEngine) : DetectionEngine :=
  let r := dn_report self in
  let retained :=
    match dr_state r with
    | DetectionCooldown => dn_last_anomalous_state self
    | DetectionUnavailable =>
        if is_anomalous (dn_resume_state self) then Some (dn_resume_state self)
        else if bool_decide (dn_resume_state self = DetectionCooldown)
        then dn_last_anomalous_state self
        else None
    | _ => None
    end in
  set_report self (mkDetectionReport (dr_state r) retained (dr_evaluated_at_unix_ms r)
    (dr_state_since_unix_ms r) (dr_last_trustworthy_at_unix_ms r) (dr_config r) (dr_signals r)
    (dr_candidate_streak r) (dr_clear_streak r) (dr_transition_sequence r) (dr_transitions r)
    (dr_last_error_code r)).

Definition sync_history (self : DetectionEngine) : DetectionEngine :=
  let r := dn_report self in
  set_report self (mkDetectionReport (dr_state r) (dr_retained_anomalous_state r)
    (dr_evaluated_at_unix_ms r) (dr_state_since_unix_ms r) (dr_last_trustworthy_at_unix_ms r)
    (dr_config r) (dr_signals r) (dr_candidate_streak r) (dr_clear_streak r)
    (dn_transition_sequence self) (dn_transitions self) (dr_last_error_code r)).

(** The common end of [evaluate] and [publish_unavailable]. *)
Definition publish (self : DetectionEngine)
    : DetectionEngine * result DetectionEngineError DetectionReport :=
  let self := sync_history (sync_retained_state self) in
  match DetectionReport_validate (dn_report self) with
  | Ok _ => (self, Ok (dn_report self))
  | Err _ => (self, Err InvalidSignals)
  end.

(** The state the engine reasons from: the published one, or, when that is
    unavailable, the one to resume. *)
Definition effective_state (self : DetectionEngine) : DetectionState :=
  let published_state := dr_state (dn_report self) in
  if bool_decide (published_state = DetectionUnavailable) then dn_resume_state self
  else published_state.

Definition with_streak (self : DetectionEngine) (streak : StormCandidate * Z) : DetectionEngine :=
  mkDetectionEngine (dn_identity self) (dn_last_trustworthy_monotonic_ns self)
    (dn_resume_state self) streak.1 streak.2 (dn_clear_streak self)
    (dn_cooldown_started_at_monotonic_ns self) (dn_last_anomalous_state self)
    (dn_transition_sequence self) (dn_transitions self) (dn_report self).

(** The assignments between the decision and the transition. *)
Definition apply_decision (self : DetectionEngine) (d : Decided)
    (evaluated_at_monotonic_ns evaluated_at_unix_ms : Z) (signals : DetectionSignals)
    : DetectionEngine :=
  let r := dn_report self in
  mkDetectionEngine (dn_identity self) evaluated_at_monotonic_ns (de_next_state d)
    (dn_last_candidate self) (dn_candidate_streak self) (de_clear_streak d)
    (de_cooldown_started d)
    (if is_anomalous (de_next_state d) then Some (de_next_state d)
     else dn_last_anomalous_state self)
    (dn_transition_sequence self) (dn_transitions self)
    (mkDetectionReport (dr_state r) (dr_retained_anomalous_state r) evaluated_at_unix_ms
       (dr_state_since_unix_ms r) (Some evaluated_at_unix_ms) (dr_config r) signals
       (dn_candidate_streak self) (de_clear_streak d) (dr_transition_sequence r)
       (dr_transitions r) None).

Definition evaluate (self : DetectionEngine) (evaluated_at_monotonic_ns evaluated_at_unix_ms : Z)
    (signals : DetectionSignals) : DetectionEngine * result DetectionEngineError DetectionReport :=
  match DetectionSignals_validate signals with
  | Err _ => (self, Err InvalidSignals)
  | Ok _ =>
      if (evaluated_at_monotonic_ns <=? dn_last_trustworthy_monotonic_ns self)
         || is_some_and (dr_last_trustworthy_at_unix_ms (dn_report self))
              (λ previous, evaluated_at_unix_ms <? previous)
      then (self, Err EngineClockRegression)
      else
        let published_state := dr_state (dn_report self) in
        let current_state := effective_state self in
        let self := with_streak self (update_candidate_streak (dn_last_candidate self)
                      (dn_candidate_streak self) (ds_candidate signals)) in
        match decide_state current_state (dn_candidate_streak self) (dn_clear_streak self)
                (dn_cooldown_started_at_monotonic_ns self) evaluated_at_monotonic_ns signals with
        | Err error => (self, Err error)
        | Ok d =>
            let next_state := de_next_state d in
            let self := apply_decision self d evaluated_at_monotonic_ns evaluated_at_unix_ms
                          signals in
            let reason :=
              if bool_decide (published_state = DetectionUnavailable)
                 && bool_decide (next_state = current_state)
              then Some EvidenceRecovered else de_reason d in
            if negb (bool_decide (published_state = next_state)) then
              match record_transition self published_state next_state
                      (default EvidenceRecovered reason) evaluated_at_unix_ms with
              | (self, Err error) => (self, Err error)
              | (self, Ok _) => publish self
              end
            else publish (set_report_state self next_state)
        end
  end.

Definition publish_unavailable (self : DetectionEngine) (evaluated_at_unix_ms : Z) (code : string)
    (reason : DetectionTransitionReason) (reset_signals : bool)
    : DetectionEngine * result DetectionEngineError DetectionReport :=
  match validate_error_code code with
  | Err _ => (self, Err InvalidErrorCode)
  | Ok _ =>
      let r := dn_report self in
      let previous := dr_state r in
      let resume :=
        if negb (bool_decide (previous = DetectionUnavailable)) && negb reset_signals
        then previous else dn_resume_state self in
      let signals := if reset_signals then DetectionSignals_warming else dr_signals r in
      let before window streak clear :=
        mkDetectionEngine (dn_identity self) (dn_last_trustworthy_monotonic_ns self) resume
          (dn_last_candidate self) (dn_candidate_streak self) (dn_clear_streak self)
          (dn_cooldown_started_at_monotonic_ns self) (dn_last_anomalous_state self)
          (dn_transition_sequence self) (dn_transitions self)
          (mkDetectionReport (dr_state r) (dr_retained_anomalous_state r) evaluated_at_unix_ms
             (dr_state_since_unix_ms r) (dr_last_trustworthy_at_unix_ms r) (dr_config r)
             (with_fingerprint_window signals window) streak clear (dr_transition_sequence r)
             (dr_transitions r) (Some code)) in
      match FingerprintWindowReport_unavailable code with
      | Err _ => (before (ds_fingerprint_window signals) (dr_candidate_streak r) (dr_clear_streak r),
                  Err InvalidErrorCode)
      | Ok window =>
          let self := before window (dn_candidate_streak self) (dn_clear_streak self) in
          if negb (bool_decide (previous = DetectionUnavailable)) then
            match record_transition self previous DetectionUnavailable reason evaluated_at_unix_ms with
            | (self, Err error) => (self, Err error)
            | (self, Ok _) => publish self
            end
          else publish self
      end
  end.

Definition detection_unavailable (self : DetectionEngine) (evaluated_at_unix_ms : Z) (code : string)
    : DetectionEngine * result DetectionEngineError DetectionReport :=
  publish_unavailable self evaluated_at_unix_ms code EvidenceUnavailable false.

Definition detection_pause (self : DetectionEngine) (evaluated_at_unix_ms : Z)
    : DetectionEngine * result DetectionEngineError DetectionReport :=
  publish_unavailable self evaluated_at_unix_ms "SAMPLER_PAUSED" SamplerPaused false.

Definition detection_clear (self : DetectionEngine) (identity : RateIdentity)
    (cleared_at_monotonic_ns cleared_at_unix_ms : Z) (code : string)
    : DetectionEngine * result DetectionEngineError DetectionReport :=
  match validate_error_code code with
  | Err _ => (self, Err InvalidErrorCode)
  | Ok _ =>
      if negb (bool_decide (identity = dn_identity self)) then
        let self := DetectionEngine_new identity cleared_at_monotonic_ns cleared_at_unix_ms in
        (self, Ok (dn_report self))
      else
        let r := dn_report self in
        let self := mkDetectionEngine (dn_identity self) cleared_at_monotonic_ns DetectionWarmingUp
          CandidateNone 0 0 None None (dn_transition_sequence self) (dn_transitions self)
          (mkDetectionReport (dr_state r) (dr_retained_anomalous_state r) (dr_evaluated_at_unix_ms r)
             (dr_state_since_unix_ms r) None (dr_config r) (dr_signals r) (dr_candidate_streak r)
             (dr_clear_streak r) (dr_transition_sequence r) (dr_transitions r)
             (dr_last_error_code r)) in
        publish_unavailable self cleared_at_unix_ms code IntegrityFailure true
  end.

(** ** The summary *)
Record DetectionSummary : Type := mkDetectionSummary {
  dy_state : DetectionState;
  dy_retained_anomalous_state : option DetectionState;
  dy_transition_sequence : Z;
  dy_state_since_unix_ms : Z;
  dy_last_trustworthy_at_unix_ms : option Z;
  dy_candidate : StormCandidate;
  dy_fingerprint_window_state : FingerprintWindowState;
  dy_last_error_code : option string;
}.

Definition DetectionSummary_validate (self : DetectionSummary) : result DomainError unit :=
  _ ← validate_retained_state (dy_state self) (dy_retained_anomalous_state self);
  _ ← match dy_last_error_code self with
      | Some code => validate_error_code code
      | None => Ok tt
      end;
  if bool_decide (dy_state self = DetectionUnavailable) && is_none (dy_last_error_code self)
  then Err (InvalidObservation "unavailable detection summary requires an error code")
  else Ok tt.

Definition DetectionSummary_from (report : DetectionReport) : DetectionSummary :=
  mkDetectionSummary (dr_state report) (dr_retained_anomalous_state report)
    (dr_transition_sequence report) (dr_state_since_unix_ms report)
    (dr_last_trustworthy_at_unix_ms report) (ds_candidate (dr_signals report))
    (fw_state (ds_fingerprint_window (dr_signals report))) (dr_last_error_code report).

(** ** The transition history *)

(** Consecutive transitions are numbered consecutively and chained. *)
Definition transition_next (a b : DetectionTransition) : Prop :=
  dt_sequence b = dt_sequence a + 1 ∧ dt_previous_state b = dt_current_state a.

Record history_wf (l : list DetectionTransition) (sequence : Z) (state : DetectionState) : Prop := {
  history_length : Z.of_nat (length l) = Z.min (Z.of_nat DETECTION_TRANSITION_CAPACITY) sequence;
  history_range : 0 ≤ sequence ≤ U64_MAX;
  history_start : l = [] → state = DetectionWarmingUp;
  history_last t : back l = Some t → dt_sequence t = sequence ∧ dt_current_state t = state;
  history_chain : Sorted transition_next l;
  history_each : Forall (λ t, 0 < dt_sequence t ∧ dt_previous_state t ≠ dt_current_state t) l;
}.

Lemma Sorted_snoc {A} (R : A → A → Prop) l x :
  Sorted R l → (∀ y, back l = Some y → R y x) → Sorted R (l ++ [x]).
Proof.
  induction 1 as [|a l Hs IH Hhd]; intros Hx; [repeat constructor|].
  cbn. constructor.
  - apply IH. intros y Hy. apply Hx. by destruct l.
  - destruct l as [|b l]; cbn; [constructor; by apply Hx|]. constructor. by inversion Hhd.
Qed.

Lemma Sorted_suffix {A} (R : A → A → Prop) l l' : l' `suffix_of` l → Sorted R l → Sorted R l'.
Proof.
  intros [k ->]. induction k as [|a k IH]; [done|]. cbn. inversion 1; auto.
Qed.

Lemma history_wf_new : history_wf [] 0 DetectionWarmingUp.
Proof. split; try done; try constructor; ulia. Qed.

Lemma history_wf_push l sequence state next reason at_ :
  history_wf l sequence state → sequence < U64_MAX → state ≠ next →
  history_wf (evict_then_push DETECTION_TRANSITION_CAPACITY l
    (mkDetectionTransition (sequence + 1) state next reason at_)) (sequence + 1) next.
Proof.
  intros [Hlen Hr Hst Hlast Hch Heach] Hlt Hne. unfold DETECTION_TRANSITION_CAPACITY in *.
  rewrite evict_then_push_keep_last by lia.
  set (t := mkDetectionTransition (sequence + 1) state next reason at_).
  destruct (keep_last_snoc 16 l t) as (l' & Heq & Hsuf); [lia|].
  assert (length (l' ++ [t]) = Nat.min 16 (length l + 1)) as Hl'.
  { rewrite <-Heq, keep_last_length, length_app. done. }
  rewrite Heq. split.
  - rewrite Hl'. unfold DETECTION_TRANSITION_CAPACITY. lia.
  - lia.
  - intros [_ ?]%app_nil. done.
  - intros t'. rewrite back_snoc. by intros [= <-].
  - rewrite <-Heq. eapply Sorted_suffix; [apply keep_last_suffix|]. apply Sorted_snoc; [done|].
    intros y Hy. destruct (Hlast y Hy) as [H1 H2]. split; cbn; [lia|done].
  - rewrite <-Heq. eapply suffix_Forall; [apply keep_last_suffix|]. apply Forall_app; split; [done|].
    repeat constructor; [cbn; lia|done].
Qed.

Lemma transition_check_all l sequence state :
  history_wf l sequence state → l ≠ [] →
  try_fold transition_check None l = Ok (Some sequence).
Proof.
  intros [_ Hr _ Hlast Hch Heach] Hne.
  assert (∀ l p, l ≠ [] → Sorted transition_next l →
    Forall (λ t, 0 < dt_sequence t ∧ dt_previous_state t ≠ dt_current_state t) l →
    (∀ t, back l = Some t → dt_sequence t = sequence) → dt_sequence <$> back l = Some sequence →
    Forall (λ t, dt_sequence t ≤ U64_MAX) l →
    (∀ t s, head l = Some t → p = Some s → dt_sequence t = s + 1) →
    try_fold transition_check p l = Ok (Some sequence)) as Hgen.
  { clear. induction l as [|t l IH]; intros p Hne Hch Hea Hlast Hb Hu Hp; [done|].
    apply Forall_cons in Hea as [[Ht1 Ht2] Hea]. apply Forall_cons in Hu as [Hut Hu].
    inversion Hch as [|? ? Hch' Hhd]; subst.
    cbn [try_fold].
    assert (transition_check p t = Ok (Some (dt_sequence t))) as ->.
    { unfold transition_check. rewrite (proj2 (Z.eqb_neq _ 0)) by lia.
      rewrite (bool_decide_eq_false_2 (dt_previous_state t = _)) by done.
      destruct p as [s|]; cbn [is_some_and orb]; [|done].
      specialize (Hp t s eq_refl eq_refl).
      rewrite checked_add_ok by lia. rewrite bool_decide_eq_true_2 by congruence. done. }
    cbn [mbind result_bind]. destruct l as [|t' l].
    - cbn. by rewrite (Hlast t).
    - apply IH; try done. intros t2 s [= <-] [= <-]. inversion Hhd as [|? ? [Hn _]]. done. }
  assert (Forall (λ t, dt_sequence t ≤ sequence) l) as Hle.
  { destruct (back l) as [t|] eqn:Hb; [|apply last_None in Hb; done].
    destruct (Hlast t eq_refl) as [Ht _]. clear -Hch Hb Ht. subst sequence.
    assert (StronglySorted (λ a b, dt_sequence a < dt_sequence b) l) as Hss.
    { apply Sorted_StronglySorted; [intros x y z; lia|].
      clear -Hch. induction Hch as [|a l Hs IH Hhd]; constructor; [done|].
      inversion Hhd as [|? ? [H _]]; constructor. lia. }
    apply Forall_forall. intros x Hx. apply list_elem_of_In in Hx.
    destruct (StronglySorted_back _ _ _ _ Hss Hb Hx) as [-> |Hxy]; lia. }
  apply Hgen; try done.
  - intros t Ht. by apply Hlast.
  - destruct (back l) as [t|] eqn:Hb; [|apply last_None in Hb; done].
    cbn. f_equal. by apply Hlast.
  - eapply Forall_impl; [exact Hle|]. cbn. lia.
Qed.

(** ** The engine invariant *)
Record engine_pre_wf (g : DetectionEngine) : Prop := {
  ew_resume : dn_resume_state g ≠ DetectionUnavailable;
  ew_published : dr_state (dn_report g) ≠ DetectionUnavailable →
    dr_state (dn_report g) = dn_resume_state g;
  ew_streak : 0 ≤ dn_candidate_streak g ≤ DETECTION_ASSERT_TICKS;
  ew_clear : 0 ≤ dn_clear_streak g ≤ DETECTION_CLEAR_TICKS;
  ew_cooldown : dn_resume_state g = DetectionCooldown →
    ∃ s, dn_cooldown_started_at_monotonic_ns g = Some s ∧ s ≤ dn_last_trustworthy_monotonic_ns g;
  ew_anomalous : is_anomalous (dn_resume_state g) = true ∨ dn_resume_state g = DetectionCooldown →
    is_some (dn_last_anomalous_state g) = true;
  ew_last_anomalous a : dn_last_anomalous_state g = Some a → is_anomalous a = true;
  ew_config : dr_config (dn_report g) = DetectionConfig_fixed;
  ew_signals : DetectionSignals_validate (dr_signals (dn_report g)) = Ok tt;
  ew_report_streaks : dr_candidate_streak (dn_report g) = dn_candidate_streak g ∧
    dr_clear_streak (dn_report g) = dn_clear_streak g;
  ew_history : history_wf (dn_transitions g) (dn_transition_sequence g) (dr_state (dn_report g));
  ew_error : match dr_last_error_code (dn_report g) with
    | Some code => dr_state (dn_report g) = DetectionUnavailable ∧ error_code_ok code = true
    | None => dr_state (dn_report g) ≠ DetectionUnavailable
    end;
}.

Definition detection_wf (g : DetectionEngine) : Prop :=
  engine_pre_wf g ∧ sync_history (sync_retained_state g) = g.

Lemma effective_resume g : engine_pre_wf g → effective_state g = dn_resume_state g.
Proof. intros Hw. unfold effective_state. case_bool_decide; [done|]. by apply Hw. Qed.

Lemma sync_pre_wf g : engine_pre_wf g → engine_pre_wf (sync_history (sync_retained_state g)).
Proof. by intros []; constructor. Qed.

Lemma sync_idempotent g :
  sync_history (sync_retained_state (sync_history (sync_retained_state g))) =
  sync_history (sync_retained_state g).
Proof. done. Qed.

Lemma synced_report_validates g :
  engine_pre_wf g →
  DetectionReport_validate (dn_report (sync_history (sync_retained_state g))) = Ok tt.
Proof.
  intros [Hres Hpub Hst Hcl Hcool Han Hla Hcfg Hsig [Hs1 Hs2] Hh Her].
  unfold DetectionReport_validate.
  cbn [sync_history sync_retained_state set_report dn_report dr_config dr_candidate_streak
    dr_clear_streak dr_transitions dr_signals dr_state dr_retained_anomalous_state
    dr_last_error_code dr_transition_sequence dn_transitions dn_transition_sequence
    dn_last_anomalous_state dn_resume_state].
  rewrite Hcfg, Hs1, Hs2, bool_decide_eq_true_2 by done. cbn [negb orb].
  rewrite !(proj2 (Z.ltb_ge _ _)) by lia. cbn [orb].
  pose proof (history_length _ _ _ Hh) as Hlen. pose proof (history_range _ _ _ Hh) as Hrange.
  destruct (Nat.ltb_spec DETECTION_TRANSITION_CAPACITY (length (dn_transitions g)));
    [unfold DETECTION_TRANSITION_CAPACITY in *; lia|].
  rewrite Hsig. cbn [mbind result_bind].
  match goal with |- context [validate_retained_state ?s ?r] =>
    assert (validate_retained_state s r = Ok tt) as -> end.
  { unfold validate_retained_state. destruct (dr_state (dn_report g)) eqn:Hrep; cbn; try done.
    - rewrite <-Hpub in Han by done.
      pose proof (Han ltac:(by right)) as Hsome.
      destruct (dn_last_anomalous_state g) as [a|]; [|done]. cbn. by rewrite (Hla a).
    - destruct (is_anomalous (dn_resume_state g)) eqn:Hra; [cbn; by rewrite Hra|].
      case_bool_decide as Hrc; [|done]. pose proof (Han ltac:(by right)) as Hsome.
      destruct (dn_last_anomalous_state g) as [a|]; [|done]. cbn. by rewrite (Hla a). }
  cbn [mbind result_bind].
  match goal with |- context [mbind _ ?m] => assert (m = Ok tt) as -> end.
  { destruct (dr_last_error_code (dn_report g)) as [code|].
    - destruct Her as [-> Hc]. by apply error_code_ok_validate.
    - by destruct (dr_state (dn_report g)). }
  cbn [mbind result_bind]. destruct (dn_transitions g) as [|t l] eqn:Hl.
  - cbn in Hlen. unfold DETECTION_TRANSITION_CAPACITY in *.
    rewrite (proj2 (Z.eqb_eq _ 0)) by lia. done.
  - rewrite (transition_check_all _ _ _ Hh) by done.
    cbn [mbind result_bind]. by rewrite bool_decide_eq_true_2.
Qed.

Lemma publish_ok g :
  engine_pre_wf g →
  publish g = (sync_history (sync_retained_state g),
               Ok (dn_report (sync_history (sync_retained_state g)))) ∧
  detection_wf (sync_history (sync_retained_state g)).
Proof.
  intros Hw. unfold publish. rewrite synced_report_validates by done.
  split; [done|]. split; [by apply sync_pre_wf|done].
Qed.

(** ** One evaluation *)
Definition desired (signals : DetectionSignals) : option DetectionState :=
  strongest_anomaly (candidate_state (ds_candidate signals)) signals.

Lemma desired_anomalous signals a : desired signals = Some a → is_anomalous a = true.
Proof.
  unfold desired, strongest_anomaly. repeat case_match; try (by intros [= <-]).
  unfold candidate_state. case_match; naive_solver.
Qed.

Lemma update_candidate_streak_range c0 n c :
  0 ≤ n ≤ DETECTION_ASSERT_TICKS →
  0 ≤ (update_candidate_streak c0 n c).2 ≤ DETECTION_ASSERT_TICKS.
Proof.
  unfold update_candidate_streak, DETECTION_ASSERT_TICKS. intros Hn.
  repeat case_bool_decide; cbn [snd]; ulia.
Qed.

(** What the decision guarantees, whichever branch it takes. *)
Record decided_ok (current : DetectionState) (mono : Z) (d : Decided) : Prop := {
  dk_available : de_next_state d ≠ DetectionUnavailable;
  dk_clear : 0 ≤ de_clear_streak d ≤ DETECTION_CLEAR_TICKS;
  dk_cooldown : de_next_state d = DetectionCooldown →
    (is_anomalous current = true ∨ current = DetectionCooldown) ∧
    ∃ s, de_cooldown_started d = Some s ∧ s ≤ mono;
}.

Lemma decide_state_ok current streak clear cool mono signals :
  current ≠ DetectionUnavailable → 0 ≤ clear ≤ DETECTION_CLEAR_TICKS →
  (current = DetectionCooldown → ∃ s, cool = Some s ∧ s ≤ mono) →
  ∃ d, decide_state current streak clear cool mono signals = Ok d ∧ decided_ok current mono d.
Proof.
  intros Hcur Hclear Hcool. unfold decide_state. fold (desired signals).
  assert (∀ a, desired signals = Some a → a ≠ DetectionUnavailable ∧ a ≠ DetectionCooldown) as Hdes.
  { intros a Ha%desired_anomalous. by destruct a. }
  assert (∀ r c k, 0 ≤ c ≤ DETECTION_CLEAR_TICKS → current ≠ DetectionCooldown →
    decided_ok current mono (mkDecided current r c k)) as Hstay by (by constructor).
  assert (∀ a r c k, desired signals = Some a → 0 ≤ c ≤ DETECTION_CLEAR_TICKS →
    decided_ok current mono (mkDecided a r c k)) as Hto.
  { intros a r c k Ha Hc. destruct (Hdes a Ha). by constructor. }
  assert (0 ≤ 0 ≤ DETECTION_CLEAR_TICKS) as H0 by done.
  destruct (is_anomalous current) eqn:Han.
  { assert (current ≠ DetectionCooldown) as Hnc by (by intros ->).
    case_bool_decide; [eexists; split; [done|by apply Hstay]|].
    destruct (is_some_and (desired signals) _) eqn:Hup.
    - destruct (desired signals) as [a|] eqn:Ha; [|done].
      eexists; split; [done|]. by apply Hto.
    - assert (0 ≤ Z.min (saturating_add U8_MAX clear 1) DETECTION_CLEAR_TICKS ≤ DETECTION_CLEAR_TICKS)
        as Hc by (unfold DETECTION_CLEAR_TICKS in *; ulia).
      case_match; [|eexists; split; [done|by apply Hstay]].
      destruct (desired signals) as [a|] eqn:Ha; eexists; (split; [done|]); [by apply Hto|].
      constructor; [done|done|]. intros _. split; [by left|]. exists mono. split; [done|lia]. }
  case_bool_decide as Hcd.
  - destruct (Hcool Hcd) as (s & Hs & Hle). subst current.
    assert (decided_ok DetectionCooldown mono (mkDecided DetectionCooldown None clear cool)) as Hst.
    { constructor; [done|done|]. intros _. split; [by right|]. by exists s. }
    destruct (is_some (desired signals) && _) eqn:Hre.
    { destruct (desired signals) as [a|] eqn:Ha; [|done]. eexists; split; [done|]. by apply Hto. }
    destruct (is_none (desired signals)) eqn:Hn; [|by eexists].
    rewrite Hs. unfold cooldown_elapsed. cbn [ok_or mbind result_bind].
    rewrite checked_sub_ok by done. cbn [ok_or mbind result_bind].
    case_match; eexists; (split; [done|]); [by constructor|]. by rewrite <-Hs.
  - destruct (is_some (desired signals) && _) eqn:Hre.
    { destruct (desired signals) as [a|] eqn:Ha; [|done]. eexists; split; [done|]. by apply Hto. }
    case_match; eexists; (split; [done|]); [by constructor|by apply Hstay].
Qed.

(** The evaluation is accepted. *)
Definition acceptable (g : DetectionEngine) (mono unix : Z) (signals : DetectionSignals) : Prop :=
  DetectionSignals_validate signals = Ok tt ∧ dn_last_trustworthy_monotonic_ns g < mono ∧
  (∀ t, dr_last_trustworthy_at_unix_ms (dn_report g) = Some t → t ≤ unix).

Definition streak_after (g : DetectionEngine) (signals : DetectionSignals) : StormCandidate * Z :=
  update_candidate_streak (dn_last_candidate g) (dn_candidate_streak g) (ds_candidate signals).

Definition decision (g : DetectionEngine) (mono : Z) (signals : DetectionSignals)
    : result DetectionEngineError Decided :=
  decide_state (effective_state g) (streak_after g signals).2 (dn_clear_streak g)
    (dn_cooldown_started_at_monotonic_ns g) mono signals.

(** The observable outcome of an accepted evaluation. *)
Record evaluated_to (g : DetectionEngine) (mono unix : Z) (signals : DetectionSignals) (d : Decided)
    (g' : DetectionEngine) : Prop := {
  ev_state : dr_state (dn_report g') = de_next_state d;
  ev_resume : dn_resume_state g' = de_next_state d;
  ev_identity : dn_identity g' = dn_identity g;
  ev_mono : dn_last_trustworthy_monotonic_ns g' = mono;
  ev_unix : dr_last_trustworthy_at_unix_ms (dn_report g') = Some unix;
  ev_streak : (dn_last_candidate g', dn_candidate_streak g') = streak_after g signals;
  ev_clear : dn_clear_streak g' = de_clear_streak d;
  ev_cooldown : dn_cooldown_started_at_monotonic_ns g' = de_cooldown_started d;
  ev_signals : dr_signals (dn_report g') = signals;
  ev_last_anomalous : dn_last_anomalous_state g' =
    if is_anomalous (de_next_state d) then Some (de_next_state d) else dn_last_anomalous_state g;
  ev_sequence : dn_transition_sequence g' = dn_transition_sequence g +
    if bool_decide (dr_state (dn_report g) = de_next_state d) then 0 else 1;
}.

(** The engine an accepted evaluation hands to [publish]. *)
Definition evaluated_engine (g : DetectionEngine) (mono unix : Z) (signals : DetectionSignals)
    (d : Decided) (sequence since : Z) (transitions : list DetectionTransition) : DetectionEngine :=
  let r := dn_report g in
  let streak := streak_after g signals in
  mkDetectionEngine (dn_identity g) mono (de_next_state d) streak.1 streak.2 (de_clear_streak d)
    (de_cooldown_started d)
    (if is_anomalous (de_next_state d) then Some (de_next_state d) else dn_last_anomalous_state g)
    sequence transitions
    (mkDetectionReport (de_next_state d) (dr_retained_anomalous_state r) unix since (Some unix)
       (dr_config r) signals streak.2 (de_clear_streak d) (dr_transition_sequence r)
       (dr_transitions r) None).

Lemma evaluated_engine_pre_wf g mono unix signals d sequence since transitions :
  engine_pre_wf g → decided_ok (dn_resume_state g) mono d →
  DetectionSignals_validate signals = Ok tt →
  history_wf transitions sequence (de_next_state d) →
  engine_pre_wf (evaluated_engine g mono unix signals d sequence since transitions).
Proof.
  intros Hw [Hk1 Hk2 Hk3] Hsig Hh.
  constructor; cbn [evaluated_engine dn_resume_state dn_report dn_candidate_streak dn_clear_streak
    dn_cooldown_started_at_monotonic_ns dn_last_trustworthy_monotonic_ns dn_last_anomalous_state
    dn_transitions dn_transition_sequence dr_state dr_config dr_signals dr_candidate_streak
    dr_clear_streak dr_last_error_code].
  - exact Hk1.
  - reflexivity.
  - apply update_candidate_streak_range, Hw.
  - exact Hk2.
  - intros Hc. by apply Hk3.
  - intros Hor. destruct (is_anomalous (de_next_state d)) eqn:Hna; [reflexivity|].
    destruct Hor as [?|Hc]; [discriminate|]. apply (ew_anomalous g Hw). by apply Hk3.
  - intros a. destruct (is_anomalous (de_next_state d)) eqn:Hna; [by intros [= <-]|].
    apply (ew_last_anomalous g Hw).
  - apply (ew_config g Hw).
  - exact Hsig.
  - by split.
  - exact Hh.
  - exact Hk1.
Qed.

Lemma evaluated_engine_outcome g mono unix signals d sequence since transitions :
  sequence = dn_transition_sequence g +
    (if bool_decide (dr_state (dn_report g) = de_next_state d) then 0 else 1) →
  evaluated_to g mono unix signals d
    (sync_history (sync_retained_state
      (evaluated_engine g mono unix signals d sequence since transitions))).
Proof.
  intros Hs. constructor; try reflexivity; [|exact Hs].
  cbn. by destruct (streak_after g signals).
Qed.

(** [evaluate] on an accepted evaluation, with its guards resolved. *)
Lemma evaluate_unfold g mono unix signals d :
  acceptable g mono unix signals → decision g mono signals = Ok d →
  dn_transition_sequence g < U64_MAX →
  ∃ reason,
  evaluate g mono unix signals =
    if bool_decide (dr_state (dn_report g) = de_next_state d)
    then publish (evaluated_engine g mono unix signals d (dn_transition_sequence g)
           (dr_state_since_unix_ms (dn_report g)) (dn_transitions g))
    else publish (evaluated_engine g mono unix signals d (dn_transition_sequence g + 1) unix
           (evict_then_push DETECTION_TRANSITION_CAPACITY (dn_transitions g)
              (mkDetectionTransition (dn_transition_sequence g + 1) (dr_state (dn_report g))
                 (de_next_state d) reason unix))).
Proof.
  intros (Hsig & Hmono & Hunix) Hd Hseq. unfold evaluate. rewrite Hsig.
  rewrite (proj2 (Z.leb_gt _ _)) by done. cbn [orb].
  assert (is_some_and (dr_last_trustworthy_at_unix_ms (dn_report g)) (λ previous, unix <? previous) =
    false) as ->.
  { destruct (dr_last_trustworthy_at_unix_ms (dn_report g)) as [t|]; [|done]. cbn.
    apply Z.ltb_ge. by apply Hunix. }
  unfold decision in Hd. cbn [with_streak dn_candidate_streak dn_clear_streak
    dn_cooldown_started_at_monotonic_ns]. fold (streak_after g signals). rewrite Hd.
  destruct (bool_decide (dr_state (dn_report g) = de_next_state d)); cbn [negb].
  - exists EvidenceReady. reflexivity.
  - unfold record_transition. cbn [apply_decision dn_transition_sequence with_streak].
    rewrite checked_add_ok by lia. eexists. reflexivity.
Qed.

Lemma evaluate_accepts g mono unix signals :
  detection_wf g → acceptable g mono unix signals → dn_transition_sequence g < U64_MAX →
  ∃ d g', decision g mono signals = Ok d ∧
    decided_ok (effective_state g) mono d ∧
    evaluate g mono unix signals = (g', Ok (dn_report g')) ∧
    evaluated_to g mono unix signals d g' ∧ detection_wf g'.
Proof.
  intros [Hw _] Hacc Hseq. pose proof Hacc as (Hsig & Hmono & _).
  pose proof (effective_resume g Hw) as Heff.
  destruct (decide_state_ok (effective_state g) (streak_after g signals).2 (dn_clear_streak g)
    (dn_cooldown_started_at_monotonic_ns g) mono signals) as (d & Hd & Hok).
  { rewrite Heff. apply (ew_resume g Hw). } { apply (ew_clear g Hw). }
  { rewrite Heff. intros Hc. destruct (ew_cooldown g Hw Hc) as (s & ? & ?). exists s. split; [done|lia]. }
  exists d. destruct (evaluate_unfold g mono unix signals d Hacc Hd Hseq) as (reason & ->).
  pose proof (ew_history g Hw) as Hhist.
  case_bool_decide as Hpn.
  - assert (engine_pre_wf (evaluated_engine g mono unix signals d (dn_transition_sequence g)
      (dr_state_since_unix_ms (dn_report g)) (dn_transitions g))) as Hw2.
    { apply evaluated_engine_pre_wf; [done|by rewrite <-Heff|done|by rewrite <-Hpn]. }
    destruct (publish_ok _ Hw2) as [-> Hwf]. eexists. split_and!; [done|done|reflexivity| |done].
    apply evaluated_engine_outcome. rewrite bool_decide_eq_true_2 by done. lia.
  - match goal with |- context [publish ?x] => assert (engine_pre_wf x) as Hw2 end.
    { apply evaluated_engine_pre_wf; [done|by rewrite <-Heff|done|]. by apply history_wf_push. }
    destruct (publish_ok _ Hw2) as [-> Hwf]. eexists. split_and!; [done|done|reflexivity| |done].
    apply evaluated_engine_outcome. by rewrite bool_decide_eq_false_2.
Qed.

(** A rejected evaluation changes nothing. *)
Lemma evaluate_rejects g mono unix signals :
  ¬ acceptable g mono unix signals → ∃ e, evaluate g mono unix signals = (g, Err e).
Proof.
  intros Hn. unfold evaluate. destruct (DetectionSignals_validate signals) as [[]|] eqn:Hsig;
    [|by eexists].
  destruct (_ || _) eqn:Hclock; [by eexists|]. exfalso. apply Hn.
  apply orb_false_iff in Hclock as [Hm%Z.leb_gt Hu]. split_and!; [done|done|].
  intros t Ht. rewrite Ht in Hu. cbn in Hu. by apply Z.ltb_ge in Hu.
Qed.

(** ** Unavailability *)

(** Everything the next evaluation depends on. *)
Definition reasoning (g : DetectionEngine) :=
  (dn_identity g, dn_last_trustworthy_monotonic_ns g, effective_state g,
   (dn_last_candidate g, dn_candidate_streak g), dn_clear_streak g,
   dn_cooldown_started_at_monotonic_ns g, dn_last_anomalous_state g,
   dr_last_trustworthy_at_unix_ms (dn_report g)).

Definition sequence_step (g : DetectionEngine) : Z :=
  if bool_decide (dr_state (dn_report g) = DetectionUnavailable) then 0 else 1.

Lemma unavailable_window code :
  error_code_ok code = true →
  ∃ w, FingerprintWindowReport_unavailable code = Ok w ∧
    FingerprintWindowReport_validate w = Ok tt ∧ validate_error_code code = Ok tt.
Proof.
  intros Hc. apply error_code_ok_validate in Hc as Hv.
  assert (∃ w, FingerprintWindowReport_unavailable code = Ok w) as [w Hw].
  { unfold FingerprintWindowReport_unavailable. rewrite Hv. by eexists. }
  exists w. split_and!; [done| |done]. by eapply unavailable_validates.
Qed.

Lemma with_window_validates s w :
  DetectionSignals_validate s = Ok tt → FingerprintWindowReport_validate w = Ok tt →
  DetectionSignals_validate (with_fingerprint_window s w) = Ok tt.
Proof.
  unfold DetectionSignals_validate. intros H Hw. inv_ok.
  cbn [with_fingerprint_window ds_fingerprint_window ds_ingress ds_egress ds_loop_high_confidence
    ds_loop_suspected]. rewrite Hw. cbn [mbind result_bind]. rewrite Ha0. cbn [mbind result_bind].
  by rewrite Hguard.
Qed.

(** The engine [publish_unavailable] hands to [publish]. *)
Definition unavailable_engine (g : DetectionEngine) (unix : Z) (code : string)
    (resume : DetectionState) (signals : DetectionSignals) (window : FingerprintWindowReport)
    (sequence since : Z) (transitions : list DetectionTransition) : DetectionEngine :=
  let r := dn_report g in
  mkDetectionEngine (dn_identity g) (dn_last_trustworthy_monotonic_ns g) resume
    (dn_last_candidate g) (dn_candidate_streak g) (dn_clear_streak g)
    (dn_cooldown_started_at_monotonic_ns g) (dn_last_anomalous_state g) sequence transitions
    (mkDetectionReport DetectionUnavailable (dr_retained_anomalous_state r) unix since
       (dr_last_trustworthy_at_unix_ms r) (dr_config r) (with_fingerprint_window signals window)
       (dn_candidate_streak g) (dn_clear_streak g) (dr_transition_sequence r) (dr_transitions r)
       (Some code)).

Lemma publish_unavailable_unfold g unix code reason (reset : bool) w :
  FingerprintWindowReport_unavailable code = Ok w → validate_error_code code = Ok tt →
  dn_transition_sequence g < U64_MAX →
  let resume := if reset then dn_resume_state g else effective_state g in
  let signals := if reset then DetectionSignals_warming else dr_signals (dn_report g) in
  publish_unavailable g unix code reason reset =
    if bool_decide (dr_state (dn_report g) = DetectionUnavailable)
    then publish (unavailable_engine g unix code resume signals w (dn_transition_sequence g)
           (dr_state_since_unix_ms (dn_report g)) (dn_transitions g))
    else publish (unavailable_engine g unix code resume signals w (dn_transition_sequence g + 1) unix
           (evict_then_push DETECTION_TRANSITION_CAPACITY (dn_transitions g)
              (mkDetectionTransition (dn_transition_sequence g + 1) (dr_state (dn_report g))
                 DetectionUnavailable reason unix))).
Proof.
  intros Hw Hv Hseq resume signals. unfold publish_unavailable. rewrite Hv, Hw.
  subst resume signals. unfold effective_state.
  case_bool_decide as Hp; cbn [negb].
  - cbn [andb]. unfold unavailable_engine. rewrite Hp. by destruct reset.
  - unfold record_transition. cbn [dn_transition_sequence]. rewrite checked_add_ok by lia.
    by destruct reset.
Qed.

Lemma unavailable_engine_pre_wf g unix code resume signals w sequence since transitions :
  (∀ state, resume = state → state ≠ DetectionUnavailable) →
  (resume = DetectionCooldown → ∃ s, dn_cooldown_started_at_monotonic_ns g = Some s ∧
     s ≤ dn_last_trustworthy_monotonic_ns g) →
  (is_anomalous resume = true ∨ resume = DetectionCooldown →
     is_some (dn_last_anomalous_state g) = true) →
  0 ≤ dn_candidate_streak g ≤ DETECTION_ASSERT_TICKS →
  0 ≤ dn_clear_streak g ≤ DETECTION_CLEAR_TICKS →
  (∀ a, dn_last_anomalous_state g = Some a → is_anomalous a = true) →
  dr_config (dn_report g) = DetectionConfig_fixed →
  DetectionSignals_validate signals = Ok tt → FingerprintWindowReport_validate w = Ok tt →
  error_code_ok code = true → history_wf transitions sequence DetectionUnavailable →
  engine_pre_wf (unavailable_engine g unix code resume signals w sequence since transitions).
Proof.
  intros Hr Hcd Han Hst Hcl Hla Hcfg Hsig Hw Hcode Hh.
  constructor; cbn [unavailable_engine dn_resume_state dn_report dn_candidate_streak dn_clear_streak
    dn_cooldown_started_at_monotonic_ns dn_last_trustworthy_monotonic_ns dn_last_anomalous_state
    dn_transitions dn_transition_sequence dr_state dr_config dr_signals dr_candidate_streak
    dr_clear_streak dr_last_error_code]; try assumption; try (by split).
  - by apply Hr.
  - intros []. reflexivity.
  - by apply with_window_validates.
Qed.

Lemma unavailable_accepts g unix code reason :
  detection_wf g → error_code_ok code = true → dn_transition_sequence g < U64_MAX →
  ∃ g', publish_unavailable g unix code reason false = (g', Ok (dn_report g')) ∧
    detection_wf g' ∧ reasoning g' = reasoning g ∧
    dr_state (dn_report g') = DetectionUnavailable ∧
    dr_last_error_code (dn_report g') = Some code ∧
    dn_transition_sequence g' = dn_transition_sequence g + sequence_step g.
Proof.
  intros [Hw _] Hc Hseq. destruct (unavailable_window code Hc) as (w & Hwin & Hwv & Hv).
  rewrite (publish_unavailable_unfold g unix code reason false w Hwin Hv Hseq). unfold sequence_step.
  pose proof (effective_resume g Hw) as Heff. pose proof (ew_history g Hw) as Hhist.
  assert (∀ sequence since transitions, history_wf transitions sequence DetectionUnavailable →
    engine_pre_wf (unavailable_engine g unix code (effective_state g) (dr_signals (dn_report g)) w
      sequence since transitions)) as Hpre.
  { intros sequence since transitions Hh. rewrite Heff. destruct Hw.
    apply unavailable_engine_pre_wf; try assumption. by intros ? <-. }
  case_bool_decide as Hp.
  - destruct (publish_ok _ (Hpre (dn_transition_sequence g) (dr_state_since_unix_ms (dn_report g))
      (dn_transitions g) ltac:(by rewrite <-Hp))) as [-> Hwf].
    eexists. split_and!; [reflexivity|done| |reflexivity|reflexivity|cbn; lia].
    unfold reasoning at 1, effective_state at 1. reflexivity.
  - destruct (publish_ok _ (Hpre (dn_transition_sequence g + 1) unix _
      (history_wf_push _ _ _ DetectionUnavailable reason unix Hhist Hseq Hp))) as [-> Hwf].
    eexists. split_and!; [reflexivity|done| |reflexivity|reflexivity|reflexivity].
    unfold reasoning at 1, effective_state at 1. reflexivity.
Qed.

(** ** Clearing *)
Lemma detection_wf_new identity mono unix : detection_wf (DetectionEngine_new identity mono unix).
Proof.
  split; [|reflexivity]. constructor; cbn; try apply history_wf_new; try done; try (by split).
  by intros [].
Qed.

Lemma clear_accepts g identity mono unix code :
  detection_wf g → error_code_ok code = true → dn_transition_sequence g < U64_MAX →
  ∃ g', detection_clear g identity mono unix code = (g', Ok (dn_report g')) ∧
    detection_wf g' ∧ dn_identity g' = identity ∧ effective_state g' = DetectionWarmingUp ∧
    dn_last_trustworthy_monotonic_ns g' = mono ∧ dn_candidate_streak g' = 0 ∧
    dn_last_candidate g' = CandidateNone ∧
    dn_clear_streak g' = 0 ∧ dn_last_anomalous_state g' = None ∧
    dr_last_trustworthy_at_unix_ms (dn_report g') = None ∧
    dr_signals (dn_report g') = (if bool_decide (identity = dn_identity g)
      then with_fingerprint_window DetectionSignals_warming
             (ds_fingerprint_window (dr_signals (dn_report g')))
      else DetectionSignals_warming) ∧
    dn_transition_sequence g' ≤ dn_transition_sequence g + 1.
Proof.
  intros [Hw _] Hc Hseq. destruct (unavailable_window code Hc) as (w & Hwin & Hwv & Hv).
  pose proof (history_range _ _ _ (ew_history g Hw)) as Hrange.
  unfold detection_clear. rewrite Hv. case_bool_decide as Hid; cbn [negb].
  2:{ eexists. split_and!; [reflexivity|apply detection_wf_new|..]; try done. cbn. lia. }
  match goal with |- context [publish_unavailable ?x] => set (g0 := x) end.
  rewrite (publish_unavailable_unfold g0 unix code IntegrityFailure true w Hwin Hv Hseq).
  pose proof (ew_history g Hw) as Hhist.
  assert (∀ sequence since transitions, history_wf transitions sequence DetectionUnavailable →
    engine_pre_wf (unavailable_engine g0 unix code (dn_resume_state g0) DetectionSignals_warming w
      sequence since transitions)) as Hpre.
  { intros sequence since transitions Hh.
    apply unavailable_engine_pre_wf; subst g0; cbn; try done; try (by intros ? <-).
    - by intros [].
    - apply (ew_config g Hw). }
  change (dr_state (dn_report g0)) with (dr_state (dn_report g)).
  change (dn_transition_sequence g0) with (dn_transition_sequence g).
  change (dn_transitions g0) with (dn_transitions g).
  case_bool_decide as Hp.
  - destruct (publish_ok _ (Hpre (dn_transition_sequence g) (dr_state_since_unix_ms (dn_report g0))
      (dn_transitions g) ltac:(by rewrite <-Hp))) as [-> Hwf].
    eexists. split_and!; [reflexivity|done|..]; try done. cbn. lia.
  - destruct (publish_ok _ (Hpre (dn_transition_sequence g + 1) unix _
      (history_wf_push _ _ _ DetectionUnavailable IntegrityFailure unix Hhist Hseq Hp))) as [-> Hwf].
    eexists. split_and!; [reflexivity|done|..]; try done.
Qed.

(** ** Reachable engines *)
Inductive detection_op : Type :=
| OpDetect (mono unix : Z) (signals : DetectionSignals)
| OpDetectionUnavailable (unix : Z) (code : string)
| OpDetectionPause (unix : Z)
| OpDetectionClear (identity : RateIdentity) (mono unix : Z) (code : string).

Definition detection_run_op (g : DetectionEngine) (op : detection_op) : DetectionEngine :=
  match op with
  | OpDetect mono unix signals => (evaluate g mono unix signals).1
  | OpDetectionUnavailable unix code => (detection_unavailable g unix code).1
  | OpDetectionPause unix => (detection_pause g unix).1
  | OpDetectionClear identity mono unix code => (detection_clear g identity mono unix code).1
  end.

Lemma bad_code_unchanged g unix code reason reset :
  error_code_ok code = false → (publish_unavailable g unix code reason reset).1 = g.
Proof. intros Hc. unfold publish_unavailable, validate_error_code. by rewrite Hc. Qed.

Lemma acceptable_dec g mono unix signals :
  acceptable g mono unix signals ∨ ¬ acceptable g mono unix signals.
Proof.
  unfold acceptable.
  destruct (decide (DetectionSignals_validate signals = Ok tt)); [|right; tauto].
  destruct (decide (dn_last_trustworthy_monotonic_ns g < mono)); [|right; tauto].
  destruct (dr_last_trustworthy_at_unix_ms (dn_report g)) as [t|].
  - destruct (decide (t ≤ unix)).
    + left. split_and!; try done. by intros t' [= <-].
    + right. intros (_ & _ & H). by specialize (H t eq_refl).
  - left. by split_and!.
Qed.

Lemma sequence_step_range g : 0 ≤ sequence_step g ≤ 1.
Proof. unfold sequence_step. case_bool_decide; lia. Qed.

Lemma detection_run_op_wf g op :
  detection_wf g → dn_transition_sequence g < U64_MAX →
  detection_wf (detection_run_op g op) ∧
  dn_transition_sequence (detection_run_op g op) ≤ dn_transition_sequence g + 1.
Proof.
  intros Hw Hseq. pose proof (sequence_step_range g).
  assert (∀ unix code reason, detection_wf (publish_unavailable g unix code reason false).1 ∧
    dn_transition_sequence (publish_unavailable g unix code reason false).1 ≤
      dn_transition_sequence g + 1) as Hun.
  { intros unix code reason. destruct (error_code_ok code) eqn:Hc.
    - destruct (unavailable_accepts g unix code reason Hw Hc Hseq) as (g' & -> & Hw' & _ & _ & _ & Hs).
      cbn [fst]. split; [done|lia].
    - rewrite bad_code_unchanged by done. split; [done|lia]. }
  destruct op as [mono unix signals|unix code|unix|identity mono unix code];
    cbn [detection_run_op]; [|apply Hun..|].
  - destruct (acceptable_dec g mono unix signals) as [Ha|Ha].
    + destruct (evaluate_accepts g mono unix signals Hw Ha Hseq) as (d & g' & _ & _ & -> & Hev & Hw').
      cbn [fst]. split; [done|]. rewrite (ev_sequence _ _ _ _ _ _ Hev). case_bool_decide; lia.
    + destruct (evaluate_rejects g mono unix signals Ha) as [e ->]. cbn [fst]. split; [done|lia].
  - destruct (error_code_ok code) eqn:Hc.
    + destruct (clear_accepts g identity mono unix code Hw Hc Hseq)
        as (g' & -> & Hw' & _ & _ & _ & _ & _ & _ & _ & _ & _ & Hs). done.
    + unfold detection_clear, validate_error_code. rewrite Hc. cbn [fst negb]. split; [done|lia].
Qed.

Lemma detection_reachable g ops :
  detection_wf g → dn_transition_sequence g + Z.of_nat (length ops) ≤ U64_MAX →
  detection_wf (foldl detection_run_op g ops) ∧
  dn_transition_sequence (foldl detection_run_op g ops) ≤
    dn_transition_sequence g + Z.of_nat (length ops).
Proof.
  revert g. induction ops as [|op ops IH]; intros g Hw Hlen; [cbn; split; [done|lia]|].
  cbn [foldl length] in *. destruct (detection_run_op_wf g op Hw) as [Hw' Hs]; [lia|].
  destruct (IH (detection_run_op g op) Hw') as [Hw2 Hs2]; [lia|]. split; [done|lia].
Qed.

(** What is remembered while evidence is missing: the state that was published last
    before it went missing, and the last anomaly that was published, both forgotten by
    an integrity clear. *)
Definition memory : Type := (DetectionState * option DetectionState)%type.

Definition remember (m : memory) (op : detection_op) (published : DetectionState) : memory :=
  match op with
  | OpDetectionClear _ _ _ code => if error_code_ok code then (DetectionWarmingUp, None) else m
  | _ =>
      if bool_decide (published = DetectionUnavailable) then m
      else (published, if is_anomalous published then Some published else m.2)
  end.

Definition remembering (st : DetectionEngine * memory) (op : detection_op) : DetectionEngine * memory :=
  let g := detection_run_op st.1 op in (g, remember st.2 op (dr_state (dn_report g))).

Definition remembered (identity : RateIdentity) (mono unix : Z) (ops : list detection_op) : memory :=
  (foldl remembering (DetectionEngine_new identity mono unix, (DetectionWarmingUp, None)) ops).2.

Definition retained_of (m : memory) (published : DetectionState) : option DetectionState :=
  match published with
  | DetectionCooldown => m.2
  | DetectionUnavailable =>
      if is_anomalous m.1 then Some m.1
      else if bool_decide (m.1 = DetectionCooldown) then m.2 else None
  | _ => None
  end.

(** The engine keeps that memory. *)
Definition keeps_memory (g : DetectionEngine) (m : memory) : Prop :=
  m = (dn_resume_state g, dn_last_anomalous_state g) ∧ (is_anomalous m.1 = true → m.2 = Some m.1).

Lemma remember_published g m op :
  detection_wf g → keeps_memory g m → dr_state (dn_report g) ≠ DetectionUnavailable →
  (∀ identity mono unix code, op ≠ OpDetectionClear identity mono unix code) →
  keeps_memory g (remember m op (dr_state (dn_report g))).
Proof.
  intros [Hw _] [Hm Ha] Hne Hop.
  assert (remember m op (dr_state (dn_report g)) = m) as ->; [|by split].
  assert (dr_state (dn_report g) = m.1) as Hstate by (rewrite Hm; by apply (ew_published g Hw)).
  destruct op; try (by destruct (Hop _ _ _ _ eq_refl)); cbn [remember];
    rewrite bool_decide_eq_false_2 by done; rewrite Hstate; destruct m as [state last]; cbn [fst snd] in *;
    (destruct (is_anomalous state); [by rewrite Ha|done]).
Qed.

Lemma remember_unchanged g m op :
  detection_wf g → keeps_memory g m →
  (∀ identity mono unix code, op ≠ OpDetectionClear identity mono unix code) →
  keeps_memory g (remember m op (dr_state (dn_report g))).
Proof.
  intros Hw Hm Hop. destruct (decide (dr_state (dn_report g) = DetectionUnavailable)) as [Hu|]; [|by apply remember_published].
  destruct op; try (by destruct (Hop _ _ _ _ eq_refl)); cbn [remember]; by rewrite bool_decide_eq_true_2.
Qed.

Lemma remember_unavailable g g' m op :
  detection_wf g → detection_wf g' → keeps_memory g m → reasoning g' = reasoning g →
  dr_state (dn_report g') = DetectionUnavailable →
  (∀ identity mono unix code, op ≠ OpDetectionClear identity mono unix code) →
  keeps_memory g' (remember m op (dr_state (dn_report g'))).
Proof.
  intros [Hw _] [Hw' _] [Hm Ha] Hr Hu Hop.
  assert (remember m op (dr_state (dn_report g')) = m) as ->.
  { destruct op; try (by destruct (Hop _ _ _ _ eq_refl)); cbn [remember]; by rewrite bool_decide_eq_true_2. }
  split; [|done]. unfold reasoning in Hr. rewrite !effective_resume in Hr by done. rewrite Hm. congruence.
Qed.

Lemma remembering_keeps g m op :
  detection_wf g → dn_transition_sequence g < U64_MAX → keeps_memory g m →
  keeps_memory (detection_run_op g op) (remember m op (dr_state (dn_report (detection_run_op g op)))).
Proof.
  intros Hw Hseq Hm.
  assert (∀ unix code reason op', (∀ identity mono unix code, op' ≠ OpDetectionClear identity mono unix code) →
    let g' := (publish_unavailable g unix code reason false).1 in
    keeps_memory g' (remember m op' (dr_state (dn_report g')))) as Hun.
  { intros unix code reason op' Hop. cbv zeta. destruct (error_code_ok code) eqn:Hc.
    - destruct (unavailable_accepts g unix code reason Hw Hc Hseq) as (g' & -> & Hw' & Hr & Hs & _).
      cbn [fst]. by apply (remember_unavailable g).
    - rewrite bad_code_unchanged by done. by apply remember_unchanged. }
  destruct op as [mono unix signals|unix code|unix|identity mono unix code]; cbn [detection_run_op]; [|by apply Hun..|].
  - destruct (acceptable_dec g mono unix signals) as [Ha|Ha].
    2: { destruct (evaluate_rejects g mono unix signals Ha) as [e ->]. by apply remember_unchanged. }
    destruct (evaluate_accepts g mono unix signals Hw Ha Hseq) as (d & g' & _ & Hd & -> & Hev & Hw'). cbn [fst].
    assert (dr_state (dn_report g') ≠ DetectionUnavailable) as Hne.
    { rewrite (ev_state _ _ _ _ _ _ Hev), <-(ev_resume _ _ _ _ _ _ Hev). apply (ew_resume g' (proj1 Hw')). }
    cbn [remember]. rewrite bool_decide_eq_false_2 by done. destruct Hm as [-> _].
    unfold keeps_memory. rewrite (ev_state _ _ _ _ _ _ Hev), (ev_resume _ _ _ _ _ _ Hev), (ev_last_anomalous _ _ _ _ _ _ Hev).
    cbn [fst snd]. split; [done|]. by intros ->.
  - cbn [remember]. destruct (error_code_ok code) eqn:Hc.
    + destruct (clear_accepts g identity mono unix code Hw Hc Hseq)
        as (g' & -> & Hw' & _ & Heff & _ & _ & _ & _ & Hlast & _). cbn [fst]. rewrite effective_resume in Heff by apply Hw'.
      split; [by rewrite Heff, Hlast|done].
    + unfold detection_clear, validate_error_code. by rewrite Hc.
Qed.

Lemma remembered_reachable st ops :
  detection_wf st.1 → keeps_memory st.1 st.2 → dn_transition_sequence st.1 + Z.of_nat (length ops) ≤ U64_MAX →
  keeps_memory (foldl detection_run_op st.1 ops) (foldl remembering st ops).2.
Proof.
  revert st. induction ops as [|op ops IH]; intros [g m] Hw Hm Hlen; [done|].
  cbn [foldl length fst snd remembering] in *. destruct (detection_run_op_wf g op Hw) as [Hw' Hs]; [lia|].
  apply (IH (remembering (g, m) op)); [done| |unfold remembering; cbn [fst]; lia]. apply (remembering_keeps g m op); [done| |done]. lia.
Qed.

(** C2: from a fresh engine, after any sequence of evaluations, unavailability
    reports, pauses and integrity clears (valid or rejected; shorter than the
    64-bit sequence counter), the published report satisfies its whole
    contract: the fixed configuration, streaks within their bounds, an error
    code exactly while unavailable, and at most sixteen transitions that are
    numbered consecutively up to the published sequence, each starting in the
    state where the one before ended and the last one ending in the published
    state.  The retained anomaly is the last one published since the last integrity
    clear when the report is in cooldown, and while it is unavailable the anomaly it
    interrupted, or the one of the cooldown it interrupted; otherwise there is none. *)
Theorem detection_engine_invariant identity mono unix ops :
  Z.of_nat (length ops) ≤ U64_MAX →
  let g := foldl detection_run_op (DetectionEngine_new identity mono unix) ops in
  DetectionReport_validate (dn_report g) = Ok tt ∧
  history_wf (dr_transitions (dn_report g)) (dr_transition_sequence (dn_report g))
    (dr_state (dn_report g)) ∧
  (is_some (dr_last_error_code (dn_report g)) = true ↔
    dr_state (dn_report g) = DetectionUnavailable) ∧
  (dr_state (dn_report g) ≠ DetectionUnavailable → dr_state (dn_report g) = dn_resume_state g) ∧
  0 ≤ dr_candidate_streak (dn_report g) ≤ DETECTION_ASSERT_TICKS ∧
  0 ≤ dr_clear_streak (dn_report g) ≤ DETECTION_CLEAR_TICKS ∧
  dr_retained_anomalous_state (dn_report g)
    = retained_of (remembered identity mono unix ops) (dr_state (dn_report g)) ∧
  (dr_state (dn_report g) = DetectionCooldown → is_some (dr_retained_anomalous_state (dn_report g)) = true).
Proof.
  intros Hlen g.
  destruct (detection_reachable (DetectionEngine_new identity mono unix) ops) as [[Hw Hs] _];
    [apply detection_wf_new|cbn; lia|]. fold g in Hw, Hs.
  pose proof (synced_report_validates g Hw) as Hv. rewrite Hs in Hv.
  destruct (ew_report_streaks g Hw) as [Hc1 Hc2]. pose proof (ew_history g Hw) as Hh.
  destruct (remembered_reachable (DetectionEngine_new identity mono unix, (DetectionWarmingUp, None)) ops)
    as [Hm _]; [apply detection_wf_new|by split|cbn; lia|].
  cbn [fst] in Hm. fold g in Hm. unfold remembered. rewrite Hm.
  assert (dr_retained_anomalous_state (dn_report g)
    = retained_of (dn_resume_state g, dn_last_anomalous_state g) (dr_state (dn_report g))) as Hret by (by rewrite <-Hs at 1).
  split_and!; try done.
  - rewrite <-Hs. cbn. done.
  - pose proof (ew_error g Hw) as He. destruct (dr_last_error_code (dn_report g)); cbn; naive_solver.
  - apply (ew_published g Hw).
  - rewrite Hc1. apply (ew_streak g Hw).
  - rewrite Hc1. apply (ew_streak g Hw).
  - rewrite Hc2. apply (ew_clear g Hw).
  - rewrite Hc2. apply (ew_clear g Hw).
  - intros Hcd. rewrite Hret, Hcd. cbn. apply (ew_anomalous g Hw). right.
    rewrite <-(ew_published g Hw); [done|by rewrite Hcd].
Qed.

(** ** The abstract state machine

    The trace of an engine lists its accepted evaluations since the last
    integrity clear, newest first, each with its monotonic time. *)
Definition trace : Type := list (Z * DetectionSignals).

Definition traced_op (st : DetectionEngine * trace) (op : detection_op) : DetectionEngine * trace :=
  let '(g, es) := st in
  match op with
  | OpDetect mono unix signals =>
      match evaluate g mono unix signals with
      | (g', Ok _) => (g', (mono, signals) :: es)
      | (g', Err _) => (g', es)
      end
  | OpDetectionClear next mono unix code =>
      match detection_clear g next mono unix code with
      | (g', Ok _) => (g', [])
      | (g', Err _) => (g', es)
      end
  | _ => (detection_run_op g op, es)
  end.

(** The last three evaluations carry one candidate. *)
Definition three_alike (es : trace) : Prop :=
  ∃ c, c ≠ CandidateNone ∧ take 3 ((λ e, ds_candidate e.2) <$> es) = [c; c; c].

(** None of the last ten evaluations supports [state]. *)
Definition ten_without (state : DetectionState) (es : trace) : Prop :=
  (10 ≤ length es)%nat ∧ Forall (λ e, desired e.2 ≠ Some state) (take 10 es).

Inductive detection_step (es : trace) (mono : Z) (signals : DetectionSignals)
    : DetectionState → DetectionState → Prop :=
| step_stay state : detection_step es mono signals state state
| step_ready :
    ds_candidate signals = CandidateNone → evidence_ready signals = true →
    detection_step es mono signals DetectionWarmingUp DetectionNormal
| step_assert current anomaly :
    is_anomalous current = false → desired signals = Some anomaly → three_alike es →
    detection_step es mono signals current anomaly
| step_escalate current anomaly :
    is_anomalous current = true → desired signals = Some anomaly →
    anomaly_rank current < anomaly_rank anomaly →
    (is_relationship_state anomaly = true ∧ state_supports_relationship current = true)
      ∨ three_alike es →
    detection_step es mono signals current anomaly
| step_downgrade current anomaly :
    is_anomalous current = true → desired signals = Some anomaly → ten_without current es →
    detection_step es mono signals current anomaly
| step_cool current :
    is_anomalous current = true → desired signals = None → ten_without current es →
    detection_step es mono signals current DetectionCooldown
| step_normal newer started quiet older :
    es = newer ++ (started, quiet) :: older → desired quiet = None → desired signals = None →
    30 * 1000000000 ≤ mono - started →
    detection_step es mono signals DetectionCooldown DetectionNormal.

(** *** The streaks count the trace *)
Fixpoint run_length (c : StormCandidate) (l : list StormCandidate) : nat :=
  match l with
  | x :: l => if bool_decide (x = c) then S (run_length c l) else 0
  | [] => 0
  end.

Definition trace_candidates (es : trace) : list StormCandidate := (λ e, ds_candidate e.2) <$> es.

Definition trace_streak (es : trace) : StormCandidate * Z :=
  match trace_candidates es with
  | c :: l => if bool_decide (c = CandidateNone) then (CandidateNone, 0)
              else (c, Z.min DETECTION_ASSERT_TICKS (Z.of_nat (S (run_length c l))))
  | [] => (CandidateNone, 0)
  end.

Lemma trace_streak_cons es mono signals :
  update_candidate_streak (trace_streak es).1 (trace_streak es).2 (ds_candidate signals) =
  trace_streak ((mono, signals) :: es).
Proof.
  unfold update_candidate_streak, trace_streak, trace_candidates. cbn [fmap list_fmap snd].
  case_bool_decide as Hc; [done|]. destruct ((λ e, ds_candidate e.2) <$> es) as [|c l].
  - cbn. by rewrite bool_decide_eq_false_2.
  - cbn [run_length]. destruct (decide (c = CandidateNone)) as [->|Hn].
    + rewrite (bool_decide_eq_true_2 (CandidateNone = CandidateNone)) by done. cbn [fst snd].
      rewrite !bool_decide_eq_false_2 by congruence. done.
    + rewrite (bool_decide_eq_false_2 (c = CandidateNone)) by done. cbn [fst snd].
      destruct (decide (ds_candidate signals = c)) as [<-|Hne].
      * rewrite !bool_decide_eq_true_2 by done. f_equal. unfold DETECTION_ASSERT_TICKS. ulia.
      * rewrite !bool_decide_eq_false_2 by congruence. done.
Qed.

Lemma trace_streak_three es :
  DETECTION_ASSERT_TICKS ≤ (trace_streak es).2 ↔ three_alike es.
Proof.
  unfold trace_streak, three_alike, trace_candidates, DETECTION_ASSERT_TICKS.
  destruct ((λ e, ds_candidate e.2) <$> es) as [|c l].
  { cbn. split; [lia|]. by intros (c & _ & H). }
  case_bool_decide as Hn; cbn [fst snd].
  { subst c. split; [lia|]. intros (c & Hc & H). destruct l as [|? [|? ?]]; cbn in H; congruence. }
  destruct l as [|c2 l]; cbn [run_length].
  { split; [lia|]. by intros (? & _ & ?). }
  case_bool_decide as H2.
  2:{ split; [lia|]. intros (? & _ & H). destruct l; cbn in H; congruence. }
  subst c2. destruct l as [|c3 l]; cbn [run_length].
  { split; [lia|]. by intros (? & _ & ?). }
  case_bool_decide as H3.
  - subst c3. split; [intros _|lia]. exists c. done.
  - split; [lia|]. intros (? & _ & H). cbn in H. congruence.
Qed.

(** *** The simulation invariant *)
Record trace_wf (st : DetectionEngine * trace) : Prop := {
  tw_engine : detection_wf st.1;
  tw_streak : (dn_last_candidate st.1, dn_candidate_streak st.1) = trace_streak st.2;
  tw_clear : is_anomalous (dn_resume_state st.1) = true →
    dn_clear_streak st.1 ≤ Z.of_nat (length st.2) ∧
    Forall (λ e, desired e.2 ≠ Some (dn_resume_state st.1))
      (take (Z.to_nat (dn_clear_streak st.1)) st.2);
  tw_cooldown : dn_resume_state st.1 = DetectionCooldown →
    ∃ newer started quiet older, st.2 = newer ++ (started, quiet) :: older ∧
      dn_cooldown_started_at_monotonic_ns st.1 = Some started ∧ desired quiet = None;
}.

(** One decision is one abstract step, and re-establishes the clear-streak and
    cooldown parts of the invariant. *)
Definition decided_trace (es : trace) (d : Decided) : Prop :=
  (is_anomalous (de_next_state d) = true →
    de_clear_streak d ≤ Z.of_nat (length es) ∧
    Forall (λ e, desired e.2 ≠ Some (de_next_state d)) (take (Z.to_nat (de_clear_streak d)) es)) ∧
  (de_next_state d = DetectionCooldown →
    ∃ newer started quiet older, es = newer ++ (started, quiet) :: older ∧
      de_cooldown_started d = Some started ∧ desired quiet = None).

Lemma decided_trace_zero es a r k :
  a ≠ DetectionCooldown → decided_trace es (mkDecided a r 0 k).
Proof. intros Ha. split; cbn; [intros _; split; [lia|constructor]|done]. Qed.

Lemma decided_trace_calm es current r c k :
  is_anomalous current = false → current ≠ DetectionCooldown →
  decided_trace es (mkDecided current r c k).
Proof. intros Ha Hc. split; cbn; [by rewrite Ha|done]. Qed.

Lemma desired_not_cooldown signals a : desired signals = Some a → a ≠ DetectionCooldown.
Proof. intros H%desired_anomalous ->. discriminate H. Qed.

Lemma decay_extends es mono signals current clear :
  0 ≤ clear ≤ Z.of_nat (length es) → desired signals ≠ Some current →
  Forall (λ e, desired e.2 ≠ Some current) (take (Z.to_nat clear) es) →
  let clear' := Z.min (saturating_add U8_MAX clear 1) DETECTION_CLEAR_TICKS in
  clear' ≤ Z.of_nat (length ((mono, signals) :: es)) ∧
  Forall (λ e, desired e.2 ≠ Some current) (take (Z.to_nat clear') ((mono, signals) :: es)) ∧
  (DETECTION_CLEAR_TICKS ≤ clear' → ten_without current ((mono, signals) :: es)).
Proof.
  intros Hc Hd Hf clear'.
  assert (clear' ≤ clear + 1) as Hle by (unfold clear', DETECTION_CLEAR_TICKS; ulia).
  assert (Forall (λ e, desired e.2 ≠ Some current) (take (Z.to_nat clear') ((mono, signals) :: es)))
    as Hall.
  { assert (Forall (λ e, desired e.2 ≠ Some current)
      (take (S (Z.to_nat clear)) ((mono, signals) :: es))) as H by (cbn; by constructor).
    replace (Z.to_nat clear') with (Nat.min (Z.to_nat clear') (S (Z.to_nat clear))) by lia.
    rewrite <-take_take. by apply Forall_take. }
  cbn [length]. split_and!; [lia|done|]. intros H10.
  assert (clear' = 10) as Heq by (unfold clear', DETECTION_CLEAR_TICKS in *; ulia).
  rewrite Heq in Hall. split; [cbn; lia|exact Hall].
Qed.

(** One decision is one abstract step, for each kind of effective state. *)
Section decide.
Context (es0 : trace) (mono : Z) (signals : DetectionSignals) (current : DetectionState).
Context (streak clear : Z) (cool : option Z) (d : Decided).
Context (Hthree : DETECTION_ASSERT_TICKS ≤ streak ↔ three_alike ((mono, signals) :: es0)).
Context (Hclear : 0 ≤ clear).
Context (Hdecay : is_anomalous current = true → clear ≤ Z.of_nat (length es0) ∧
  Forall (λ e, desired e.2 ≠ Some current) (take (Z.to_nat clear) es0)).
Context (Hcool : current = DetectionCooldown →
  ∃ newer started quiet older, es0 = newer ++ (started, quiet) :: older ∧
    cool = Some started ∧ desired quiet = None).
Context (H : decide_state current streak clear cool mono signals = Ok d).
Notation es := ((mono, signals) :: es0).
Notation simulated d :=
  (detection_step es mono signals current (de_next_state d) ∧ decided_trace es d).

Lemma assert_simulates x r k :
  is_anomalous current = false →
  is_some (desired signals) && (DETECTION_ASSERT_TICKS <=? streak) = true →
  simulated (mkDecided (default x (desired signals)) r 0 k).
Proof.
  intros Han [Hs H3%Z.leb_le]%andb_true_iff. destruct (desired signals) as [a|] eqn:Ha; [|done].
  split; [|by eapply decided_trace_zero, desired_not_cooldown].
  apply step_assert; [done..|]. by apply Hthree.
Qed.

Lemma anomalous_simulates : is_anomalous current = true → simulated d.
Proof.
  intros Han. pose proof H as Hd. unfold decide_state in Hd. fold (desired signals) in Hd.
  rewrite Han in Hd. assert (current ≠ DetectionCooldown) as Hnc by (by intros Hx; rewrite Hx in Han).
  case_bool_decide as Hsame.
  { injection Hd as <-. split; [constructor|by apply decided_trace_zero]. }
  destruct (is_some_and (desired signals) _) eqn:Hup.
  - destruct (desired signals) as [a|] eqn:Ha; [|done]. injection Hd as <-.
    cbn [from_option de_next_state is_some_and] in *. unfold id in *.
    apply andb_true_iff in Hup as [Hrank%Z.ltb_lt Hor].
    split; [|by eapply decided_trace_zero, desired_not_cooldown].
    apply step_escalate; [done..|]. apply orb_true_iff in Hor as [[? ?]%andb_true_iff|H3%Z.leb_le].
    + by left.
    + right. by apply Hthree.
  - destruct (Hdecay Han) as [Hlen Hall].
    destruct (decay_extends es0 mono signals current clear ltac:(lia) Hsame Hall)
      as (Hlen' & Hall' & Hten).
    destruct (Z.leb_spec DETECTION_CLEAR_TICKS
      (Z.min (saturating_add U8_MAX clear 1) DETECTION_CLEAR_TICKS)) as [H10|H10].
    + specialize (Hten H10). destruct (desired signals) as [a|] eqn:Ha; injection Hd as <-.
      { split; [by apply step_downgrade|by eapply decided_trace_zero, desired_not_cooldown]. }
      split; [by apply step_cool|]. split; [done|]. intros _. by exists [], mono, signals, es0.
    + injection Hd as <-. split; [constructor|]. split; [done|]. intros Hx. by destruct (Hnc Hx).
Qed.

Lemma cooldown_elapsed_true started :
  cooldown_elapsed (Some started) mono = Ok true → 30 * 1000000000 ≤ mono - started.
Proof.
  unfold cooldown_elapsed. cbn [ok_or mbind result_bind].
  intros (n & [-> Hle]%ok_or_Ok%checked_sub_Some & [= Hge%Z.leb_le])%bind_Ok.
  unfold DETECTION_COOLDOWN_MS in Hge. ulia.
Qed.

Lemma cooldown_simulates : current = DetectionCooldown → simulated d.
Proof.
  intros Hcd. pose proof H as Hd. unfold decide_state in Hd. fold (desired signals) in Hd.
  rewrite Hcd in Hd. cbn [is_anomalous] in Hd. rewrite bool_decide_eq_true_2 in Hd by done.
  destruct (Hcool Hcd) as (newer & started & quiet & older & Hes & Hk & Hq).
  assert (∀ r c, decided_trace es (mkDecided DetectionCooldown r c cool)) as Hstay.
  { intros r c. split; [done|]. intros _. exists ((mono, signals) :: newer), started, quiet, older.
    by rewrite Hes. }
  destruct (is_some (desired signals) && _) eqn:Hre.
  { injection Hd as <-. apply assert_simulates; [by rewrite Hcd|done]. }
  destruct (is_none (desired signals)) eqn:Hn.
  - apply bind_Ok in Hd as (el & Hel & Hd). destruct el; injection Hd as <-.
    + split; [|by apply decided_trace_calm]. rewrite Hcd. cbn [de_next_state].
      eapply (step_normal es mono signals ((mono, signals) :: newer) started quiet older).
      * by rewrite Hes.
      * done.
      * by destruct (desired signals).
      * apply cooldown_elapsed_true. by rewrite <-Hk.
    + rewrite Hcd. split; [constructor|by apply Hstay].
  - injection Hd as <-. rewrite Hcd. split; [constructor|by apply Hstay].
Qed.

Lemma calm_simulates :
  is_anomalous current = false → current ≠ DetectionCooldown → simulated d.
Proof.
  intros Han Hcd. pose proof H as Hd. unfold decide_state in Hd. fold (desired signals) in Hd.
  rewrite Han, bool_decide_eq_false_2 in Hd by done.
  destruct (is_some (desired signals) && _) eqn:Hre.
  { injection Hd as <-. by apply assert_simulates. }
  destruct (_ && evidence_ready signals) eqn:Hready; injection Hd as <-.
  - apply andb_true_iff in Hready as [[Hw%bool_decide_eq_true Hc%bool_decide_eq_true]%andb_true_iff He].
    rewrite Hw. split; [by apply step_ready|by apply decided_trace_calm].
  - split; [constructor|by apply decided_trace_calm].
Qed.

Lemma decide_simulates : simulated d.
Proof.
  destruct (decide (is_anomalous current = true)) as [Han|Han%not_true_is_false];
    [by apply anomalous_simulates|].
  destruct (decide (current = DetectionCooldown)); [by apply cooldown_simulates|].
  by apply calm_simulates.
Qed.
End decide.

Lemma trace_wf_new identity mono unix : trace_wf (DetectionEngine_new identity mono unix, []).
Proof. split; [apply detection_wf_new|done..]. Qed.

(** An accepted evaluation, seen from the trace. *)
Lemma traced_evaluate g es mono unix signals :
  trace_wf (g, es) → acceptable g mono unix signals → dn_transition_sequence g < U64_MAX →
  ∃ g', evaluate g mono unix signals = (g', Ok (dn_report g')) ∧
    detection_step ((mono, signals) :: es) mono signals (effective_state g) (dr_state (dn_report g')) ∧
    trace_wf (g', (mono, signals) :: es) ∧ evaluated_to g mono unix signals
      (default (mkDecided (effective_state g) None 0 None)
         (match decision g mono signals with Ok d => Some d | Err _ => None end)) g'.
Proof.
  intros [Hw Hst Hcl Hcd] Hacc Hseq. cbn [fst snd] in *.
  destruct (evaluate_accepts g mono unix signals Hw Hacc Hseq) as (d & g' & Hd & _ & He & Hev & Hw').
  exists g'. split; [done|]. rewrite Hd. cbn [from_option]. unfold id.
  assert (streak_after g signals = trace_streak ((mono, signals) :: es)) as Hstr.
  { rewrite <-trace_streak_cons, <-Hst. done. }
  pose proof (effective_resume g (proj1 Hw)) as Heff. unfold decision in Hd. rewrite Heff in *.
  destruct (decide_simulates es mono signals (dn_resume_state g) (streak_after g signals).2
    (dn_clear_streak g) (dn_cooldown_started_at_monotonic_ns g) d) as [Hstep [Hdt1 Hdt2]]; try done.
  { rewrite Hstr. apply trace_streak_three. }
  { apply (ew_clear g (proj1 Hw)). }
  split; [by rewrite (ev_state _ _ _ _ _ _ Hev)|]. split; [|done].
  constructor; cbn [fst snd]; [done|..].
  - by rewrite (ev_streak _ _ _ _ _ _ Hev).
  - rewrite (ev_resume _ _ _ _ _ _ Hev), (ev_clear _ _ _ _ _ _ Hev). exact Hdt1.
  - rewrite (ev_resume _ _ _ _ _ _ Hev), (ev_cooldown _ _ _ _ _ _ Hev). exact Hdt2.
Qed.

Lemma unavailable_trace_wf g es unix code reason :
  trace_wf (g, es) → dn_transition_sequence g < U64_MAX →
  trace_wf ((publish_unavailable g unix code reason false).1, es).
Proof.
  intros [Hw Hst Hcl Hcd] Hseq. cbn [fst snd] in *.
  destruct (error_code_ok code) eqn:Hc; [|by rewrite bad_code_unchanged].
  destruct (unavailable_accepts g unix code reason Hw Hc Hseq) as (g' & -> & Hw' & Hr & _).
  unfold reasoning in Hr. rewrite !effective_resume in Hr by (apply Hw' || apply Hw).
  injection Hr as _ _ Hres Hlc Hcs Hclr Hcds _ _. cbn [fst].
  constructor; cbn [fst snd]; [done|congruence|..]; rewrite Hres; [by rewrite Hclr|by rewrite Hcds].
Qed.

Lemma traced_op_wf st op :
  trace_wf st → dn_transition_sequence st.1 < U64_MAX →
  trace_wf (traced_op st op) ∧ (traced_op st op).1 = detection_run_op st.1 op.
Proof.
  destruct st as [g es]. intros Hw Hseq. cbn [fst] in Hseq.
  destruct op as [mono unix signals|unix code|unix|identity mono unix code]; cbn [traced_op fst];
    [| split; [by apply unavailable_trace_wf|done] | split; [by apply unavailable_trace_wf|done] |].
  - cbn [detection_run_op]. destruct (acceptable_dec g mono unix signals) as [Ha|Ha].
    + destruct (traced_evaluate g es mono unix signals Hw Ha Hseq) as (g' & -> & _ & Hw' & _). done.
    + by destruct (evaluate_rejects g mono unix signals Ha) as [e ->].
  - cbn [detection_run_op]. destruct (error_code_ok code) eqn:Hc.
    + destruct (clear_accepts g identity mono unix code (tw_engine _ Hw) Hc Hseq)
        as (g' & -> & Hw' & _ & Heff & _ & Hcs & Hlc & _). split; [|done].
      rewrite effective_resume in Heff by apply Hw'.
      constructor; cbn [fst snd]; [done|by rewrite Hlc, Hcs|..]; rewrite Heff; done.
    + unfold detection_clear, validate_error_code. rewrite Hc. done.
Qed.

Definition run (identity : RateIdentity) (mono unix : Z) (ops : list detection_op)
    : DetectionEngine * trace :=
  foldl traced_op (DetectionEngine_new identity mono unix, []) ops.

Lemma run_wf identity mono unix ops :
  Z.of_nat (length ops) < U64_MAX →
  trace_wf (run identity mono unix ops) ∧
  dn_transition_sequence (run identity mono unix ops).1 < U64_MAX.
Proof.
  intros Hlen. unfold run.
  assert (∀ st, trace_wf st → dn_transition_sequence st.1 + Z.of_nat (length ops) < U64_MAX →
    trace_wf (foldl traced_op st ops) ∧
    dn_transition_sequence (foldl traced_op st ops).1 < U64_MAX) as Hgen.
  { clear Hlen. induction ops as [|op ops IH]; intros st Hw Hlen; [cbn in *; split; [done|lia]|].
    cbn [foldl length] in *. destruct (traced_op_wf st op Hw) as [Hw' Heq]; [lia|].
    destruct (detection_run_op_wf st.1 op (tw_engine _ Hw)) as [_ Hs]; [lia|].
    apply IH; [done|]. rewrite Heq. lia. }
  apply Hgen; [apply trace_wf_new|cbn; lia].
Qed.

Lemma run_sequence identity mono unix ops :
  Z.of_nat (length ops) < U64_MAX →
  dn_transition_sequence (run identity mono unix ops).1 ≤ Z.of_nat (length ops).
Proof.
  intros Hlen.
  assert (∀ st, trace_wf st → dn_transition_sequence st.1 + Z.of_nat (length ops) < U64_MAX →
    dn_transition_sequence (foldl traced_op st ops).1 ≤
      dn_transition_sequence st.1 + Z.of_nat (length ops)) as Hgen.
  { clear Hlen. induction ops as [|op ops IH]; intros st Hw Hlen; [cbn in *; lia|].
    cbn [foldl length] in *. destruct (traced_op_wf st op Hw) as [Hw' Heq]; [lia|].
    destruct (detection_run_op_wf st.1 op (tw_engine _ Hw)) as [_ Hs]; [lia|].
    etrans; [apply IH; [done|]|]; rewrite Heq; lia. }
  unfold run. pose proof (Hgen (DetectionEngine_new identity mono unix, [])
    (trace_wf_new identity mono unix)) as H. cbn in H. apply H. lia.
Qed.

(** Engines that reason from the same facts evaluate alike. *)
Lemma reasoning_determines g1 g2 mono unix signals :
  detection_wf g1 → detection_wf g2 → reasoning g1 = reasoning g2 →
  dn_transition_sequence g1 < U64_MAX → dn_transition_sequence g2 < U64_MAX →
  acceptable g2 mono unix signals →
  reasoning (evaluate g1 mono unix signals).1 = reasoning (evaluate g2 mono unix signals).1.
Proof.
  intros Hw1 Hw2 Hr Hs1 Hs2 Hacc. unfold reasoning in Hr.
  injection Hr as Hid Hm Heff Hlc Hcs Hcl Hcd Hla Hun.
  assert (acceptable g1 mono unix signals) as Hacc1.
  { unfold acceptable in *. by rewrite Hm, Hun. }
  destruct (evaluate_accepts g1 mono unix signals Hw1 Hacc1 Hs1) as (d1 & g1' & Hd1 & _ & -> & Hev1 & Hw1').
  destruct (evaluate_accepts g2 mono unix signals Hw2 Hacc Hs2) as (d2 & g2' & Hd2 & _ & -> & Hev2 & Hw2').
  cbn [fst]. assert (streak_after g1 signals = streak_after g2 signals) as Hst.
  { unfold streak_after. by rewrite Hlc, Hcs. }
  assert (d1 = d2) as ->.
  { unfold decision in Hd1, Hd2. rewrite Heff, Hst, Hcl, Hcd, Hd2 in Hd1. by injection Hd1. }
  unfold reasoning. rewrite !effective_resume by (apply Hw1' || apply Hw2').
  destruct Hev1 as [_ -> -> -> -> -> -> -> _ -> _]. destruct Hev2 as [_ -> -> -> -> -> -> -> _ -> _].
  by rewrite Hst, Hid, Hla.
Qed.

(** C1: refinement.  In every engine reached from a fresh one, an evaluation
    with valid signals and advancing clocks is accepted, and the state it
    publishes follows from the effective state by one step of the abstract
    machine over the trace of accepted evaluations: storms are asserted only on
    three equal candidates in a row, raised only to a higher rank, lowered or
    cleared only after ten evaluations without support, and cooldown ends only
    thirty seconds after a quiet evaluation of the trace.  The thirty seconds are those
    of the clock, as the code counts them: time without evidence is part of them,
    against the documentation ([unavailable_time_completes_cooldown]). *)
Theorem detection_refines_machine identity mono0 unix0 ops mono unix signals :
  Z.of_nat (length ops) < U64_MAX →
  let st := run identity mono0 unix0 ops in
  acceptable st.1 mono unix signals →
  ∃ g', evaluate st.1 mono unix signals = (g', Ok (dn_report g')) ∧
    detection_step ((mono, signals) :: st.2) mono signals
      (effective_state st.1) (dr_state (dn_report g')).
Proof.
  intros Hlen st Hacc. destruct (run_wf identity mono0 unix0 ops Hlen) as [Hw Hseq].
  fold st in Hw, Hseq. destruct st as [g es].
  destruct (traced_evaluate g es mono unix signals Hw Hacc Hseq) as (g' & He & Hs & _).
  by exists g'.
Qed.

(** Detection latency.  From a reachable engine whose effective state is
    not an anomaly, an accepted evaluation publishes an anomaly exactly when it
    completes three equal candidates in a row, and the anomaly is the strongest
    one its signals support. *)
Lemma storm_confirmed_on_third_tick identity mono0 unix0 ops mono unix signals g' r :
  Z.of_nat (length ops) < U64_MAX →
  let st := run identity mono0 unix0 ops in
  acceptable st.1 mono unix signals →
  is_anomalous (effective_state st.1) = false →
  evaluate st.1 mono unix signals = (g', Ok r) →
  (is_anomalous (dr_state r) = true ↔ three_alike ((mono, signals) :: st.2)) ∧
  (is_anomalous (dr_state r) = true → desired signals = Some (dr_state r)).
Proof.
  intros Hlen st Hacc Hcalm He. destruct (run_wf identity mono0 unix0 ops Hlen) as [Hw Hseq].
  fold st in Hw, Hseq. destruct st as [g es]. cbn [fst snd] in *.
  destruct (evaluate_accepts g mono unix signals (tw_engine _ Hw) Hacc Hseq)
    as (d & g2 & Hd & _ & He2 & Hev & _).
  rewrite He in He2. injection He2 as -> ->. rewrite (ev_state _ _ _ _ _ _ Hev).
  assert (DETECTION_ASSERT_TICKS ≤ (streak_after g signals).2 ↔ three_alike ((mono, signals) :: es))
    as Hthree.
  { rewrite <-trace_streak_three, <-trace_streak_cons.
    pose proof (tw_streak _ Hw) as Hstr. cbn [fst snd] in Hstr. by rewrite <-Hstr. }
  assert (three_alike ((mono, signals) :: es) → is_some (desired signals) = true) as Hdes.
  { intros (c & Hc & Ht). cbn in Ht. injection Ht as Hcs _.
    unfold desired, strongest_anomaly. rewrite Hcs. repeat case_match; try done. by destruct c. }
  unfold decision, decide_state in Hd. rewrite Hcalm in Hd. fold (desired signals) in Hd.
  rewrite <-Hthree in *. clear Hev He.
  destruct (Z.leb_spec DETECTION_ASSERT_TICKS (streak_after g signals).2) as [H3|H3].
  - rewrite (Hdes H3) in Hd. cbn [andb] in Hd.
    destruct (desired signals) as [a|] eqn:Ha; [|specialize (Hdes H3); discriminate Hdes].
    pose proof (desired_anomalous _ _ Ha) as Han.
    case_bool_decide; injection Hd as <-; cbn; by rewrite Han.
  - rewrite !andb_false_r in Hd.
    assert (is_anomalous (de_next_state d) = false) as ->; [|split; [split; [done|lia]|done]].
    case_bool_decide as Hcd.
    + destruct (is_none (desired signals)); [|by injection Hd as <-].
      apply bind_Ok in Hd as ([] & _ & Hd); by injection Hd as <-.
    + case_match; by injection Hd as <-.
Qed.

(** An outage is transparent.  Reporting the evidence as unavailable, or
    the sampler as paused, on a reachable engine publishes the unavailable
    state with the given code, but changes nothing the engine reasons from;
    the next accepted evaluation reaches the same state, streaks, cooldown and
    retained anomaly as if the outage had not been reported. *)
Theorem outage_is_transparent identity mono0 unix0 ops unix1 code mono unix signals :
  Z.of_nat (length ops) + 1 < U64_MAX → error_code_ok code = true →
  let g := (run identity mono0 unix0 ops).1 in
  ∃ g1, detection_unavailable g unix1 code = (g1, Ok (dn_report g1)) ∧
    dr_state (dn_report g1) = DetectionUnavailable ∧
    dr_last_error_code (dn_report g1) = Some code ∧
    reasoning g1 = reasoning g ∧
    (acceptable g mono unix signals →
     reasoning (evaluate g1 mono unix signals).1 = reasoning (evaluate g mono unix signals).1).
Proof.
  intros Hlen Hc g. destruct (run_wf identity mono0 unix0 ops ltac:(lia)) as [Hw Hseq].
  fold g in Hseq. pose proof (tw_engine _ Hw) as Hg. fold g in Hg.
  assert (dn_transition_sequence g ≤ Z.of_nat (length ops)) as Hle.
  { apply run_sequence. lia. }
  destruct (unavailable_accepts g unix1 code EvidenceUnavailable Hg Hc Hseq)
    as (g1 & He1 & Hg1 & Hr & Hs & Hcode & Hs1).
  exists g1. split_and!; try done. intros Hacc.
  apply reasoning_determines; try done.
  - pose proof (sequence_step_range g). lia.
Qed.

(** An integrity clear forgets the evidence.  On a reachable engine it
    always succeeds for a valid code; the engine resumes from warming up with
    no streaks, no cooldown trace, no retained anomaly and no evaluation time,
    and its published signals are those of a fresh engine (but for the window's
    error).  A clear that changes the interface also restarts the transition
    history. *)
Theorem integrity_clear_forgets identity0 mono0 unix0 ops identity mono unix code :
  Z.of_nat (length ops) < U64_MAX → error_code_ok code = true →
  let st := run identity0 mono0 unix0 ops in
  ∃ g', detection_clear st.1 identity mono unix code = (g', Ok (dn_report g')) ∧
    traced_op st (OpDetectionClear identity mono unix code) = (g', []) ∧
    dn_identity g' = identity ∧ effective_state g' = DetectionWarmingUp ∧
    dn_candidate_streak g' = 0 ∧ dn_clear_streak g' = 0 ∧ dn_last_anomalous_state g' = None ∧
    dr_last_trustworthy_at_unix_ms (dn_report g') = None ∧
    ds_candidate (dr_signals (dn_report g')) = CandidateNone ∧
    (identity ≠ dn_identity st.1 → g' = DetectionEngine_new identity mono unix).
Proof.
  intros Hlen Hc st. destruct (run_wf identity0 mono0 unix0 ops Hlen) as [Hw Hseq].
  fold st in Hw, Hseq. destruct st as [g es]. cbn [fst] in *.
  destruct (clear_accepts g identity mono unix code (tw_engine _ Hw) Hc Hseq)
    as (g' & He & Hw' & Hid & Heff & Hm & Hcs & Hlc & Hcl & Hla & Hun & Hsig & _).
  exists g'. cbn [traced_op]. split; [done|]. rewrite He. split_and!; try done.
  - rewrite Hsig. by case_bool_decide.
  - intros Hne. unfold detection_clear in He. apply error_code_ok_validate in Hc. rewrite Hc in He.
    rewrite bool_decide_eq_false_2 in He by done. cbn [negb] in He. by injection He.
Qed.

(** Concrete runs for the witnesses. *)
Module DetectionExample.
Definition identity : RateIdentity := mkRateIdentity 7 42.
Definition hook : HookDetectionSignals :=
  mkHookDetectionSignals (Some 5000) (Some 320000) (Some 900) (Some true) (Some true) (Some false).
Definition signals (c : StormCandidate) : DetectionSignals :=
  mkDetectionSignals (Some 1000) hook hook c FingerprintWindowReport_warming None None.
Definition tick (i : Z) (c : StormCandidate) : detection_op :=
  OpDetect (i * 1000000000) (i * 1000) (signals c).
Definition two_ticks : list detection_op :=
  [tick 1 CandidateNone; tick 2 CandidateIngress; OpDetectionPause 2500; tick 3 CandidateIngress].

(** A storm, and ten quiet seconds: the cooldown starts at second 13. *)
Definition into_cooldown : list detection_op :=
  [tick 1 CandidateIngress; tick 2 CandidateIngress; tick 3 CandidateIngress]
  ++ ((λ i, tick i CandidateNone) <$> seqZ 4 10).
Definition state_after (ops : list detection_op) : DetectionState :=
  dr_state (dn_report (foldl detection_run_op (DetectionEngine_new identity 0 0) ops)).
End DetectionExample.

(** Missing evidence does advance the cooldown: it is measured from its start, so that
    twenty-nine seconds without any evidence, or a second with a candidate in its
    middle, complete it like thirty quiet ones. *)
Lemma unavailable_time_completes_cooldown :
  let unavailable := (λ i, OpDetectionUnavailable (i * 1000) "OBSERVATION_READ_FAILED") <$> seqZ 14 29 in
  DetectionExample.state_after DetectionExample.into_cooldown = DetectionCooldown ∧
  DetectionExample.state_after (DetectionExample.into_cooldown ++ unavailable) = DetectionUnavailable ∧
  DetectionExample.state_after (DetectionExample.into_cooldown ++ unavailable ++ [DetectionExample.tick 43 CandidateNone])
    = DetectionNormal ∧
  DetectionExample.state_after (DetectionExample.into_cooldown ++
    [DetectionExample.tick 42 CandidateIngress; DetectionExample.tick 43 CandidateNone]) = DetectionNormal.
Proof. vm_compute. done. Qed.

Lemma detection_engine_invariant_witness :
  DetectionReport_validate (dn_report (foldl detection_run_op
    (DetectionEngine_new DetectionExample.identity 0 0) DetectionExample.two_ticks)) = Ok tt.
Proof.
  apply (detection_engine_invariant DetectionExample.identity 0 0 DetectionExample.two_ticks).
  vm_compute. discriminate.
Defined.

Lemma two_ticks_acceptable c :
  acceptable (run DetectionExample.identity 0 0 DetectionExample.two_ticks).1 4000000000 4000
    (DetectionExample.signals c).
Proof.
  split_and!.
  - by destruct c.
  - vm_compute. reflexivity.
  - intros t Ht. vm_compute in Ht. injection Ht as <-. discriminate.
Qed.

Lemma detection_refines_machine_witness :
  ∃ g', evaluate (run DetectionExample.identity 0 0 DetectionExample.two_ticks).1 4000000000 4000
    (DetectionExample.signals CandidateIngress) = (g', Ok (dn_report g')).
Proof.
  destruct (detection_refines_machine DetectionExample.identity 0 0 DetectionExample.two_ticks
    4000000000 4000 (DetectionExample.signals CandidateIngress)) as (g' & He & _).
  - vm_compute. reflexivity.
  - apply two_ticks_acceptable.
  - exists g'. exact He.
Defined.

Lemma storm_confirmed_on_third_tick_witness :
  match evaluate (run DetectionExample.identity 0 0 DetectionExample.two_ticks).1 4000000000 4000
    (DetectionExample.signals CandidateIngress) with
  | (_, Ok r) => is_anomalous (dr_state r) = true
  | (_, Err _) => False
  end.
Proof.
  assert (is_ok (evaluate (run DetectionExample.identity 0 0 DetectionExample.two_ticks).1
    4000000000 4000 (DetectionExample.signals CandidateIngress)).2 = true) as Hok
    by (vm_compute; reflexivity).
  destruct (evaluate _ _ _ _) as [g' [r|e]] eqn:He; [|discriminate Hok].
  apply (storm_confirmed_on_third_tick DetectionExample.identity 0 0 DetectionExample.two_ticks
    4000000000 4000 (DetectionExample.signals CandidateIngress) g' r).
  - vm_compute. reflexivity.
  - apply two_ticks_acceptable.
  - vm_compute. reflexivity.
  - exact He.
  - exists CandidateIngress. split; [discriminate|vm_compute; reflexivity].
Defined.

Lemma outage_is_transparent_witness :
  ∃ g1, detection_unavailable (run DetectionExample.identity 0 0 DetectionExample.two_ticks).1 3500
      "OBSERVATION_READ_FAILED" = (g1, Ok (dn_report g1)) ∧
    reasoning (evaluate g1 4000000000 4000 (DetectionExample.signals CandidateIngress)).1 =
    reasoning (evaluate (run DetectionExample.identity 0 0 DetectionExample.two_ticks).1
      4000000000 4000 (DetectionExample.signals CandidateIngress)).1.
Proof.
  destruct (outage_is_transparent DetectionExample.identity 0 0 DetectionExample.two_ticks 3500
    "OBSERVATION_READ_FAILED" 4000000000 4000 (DetectionExample.signals CandidateIngress))
    as (g1 & He & _ & _ & _ & H).
  - vm_compute. reflexivity.
  - vm_compute. reflexivity.
  - exists g1. split; [exact He|]. apply H. apply two_ticks_acceptable.
Defined.

Lemma integrity_clear_forgets_witness :
  ∃ g', (detection_clear (run DetectionExample.identity 0 0 DetectionExample.two_ticks).1
      DetectionExample.identity 5000000000 5000 "INTERFACE_REPLACED").1 = g' ∧
    effective_state g' = DetectionWarmingUp.
Proof.
  destruct (integrity_clear_forgets DetectionExample.identity 0 0 DetectionExample.two_ticks
    DetectionExample.identity 5000000000 5000 "INTERFACE_REPLACED") as (g' & He & _ & _ & Heff & _).
  - vm_compute. reflexivity.
  - vm_compute. reflexivity.
  - exists g'. split; [by rewrite He|exact Heff].
Defined.
