(* ===== verification/Evidence.v ===== *)
(** The incident evidence contract of [l2-loop-core] ([evidence.rs]): event
    identifiers and list cursors with their textual forms, alert codes and
    severities, the incident revision and its manifest with their validation,
    and the list query. *)
From S2P Require Import Prelude Domain Text Observation FrameHash Rate Baseline FingerprintWindow Detection.

Definition EVIDENCE_SCHEMA_VERSION : Z := 1.
Definition EVIDENCE_MAX_REVISIONS_PER_EVENT : Z := 16.
Definition EVIDENCE_MAX_REVISION_BYTES : Z := 1048576.
Definition EVIDENCE_MAX_EVENT_BYTES : Z := 16777216.
Definition EVIDENCE_LIST_DEFAULT_LIMIT : Z := 50.
Definition EVIDENCE_LIST_MAX_LIMIT : Z := 200.
Definition INCIDENT_OUTPUT_QUEUE_CAPACITY : nat := 32.
Definition EVENT_ID_BYTES : nat := 16.
Definition EVENT_ID_TEXT_BYTES : nat := EVENT_ID_BYTES * 2.
Definition CURSOR_VERSION : string := "1".

Inductive EvidenceContractError : Type :=
| InvalidEventId | InvalidListLimit | InvalidCursor | InvalidModel.

(** ** Event identifiers *)
Record EventId : Type := mkEventId { event_bytes : vec Z EVENT_ID_BYTES }.

#[export] Instance EventId_eq_dec : EqDecision EventId.
Proof. solve_decision. Defined.

Definition nibble (byte : Ascii.ascii) : result EvidenceContractError Z :=
  if is_ascii_digit byte then Ok (ascii_code byte - 48)
  else if (97 <=? ascii_code byte) && (ascii_code byte <=? 102) then Ok (ascii_code byte - 97 + 10)
  else Err InvalidEventId.

(** The loop over [chunks_exact(2)], filling [n] bytes; the text has as many
    pairs as there are bytes. *)
Fixpoint parse_pairs (n : nat) (text : list Ascii.ascii) : result EvidenceContractError (vec Z n) :=
  match n, text with
  | O, _ => Ok [#]
  | S n, high :: low :: rest =>
      high ← nibble high;
      low ← nibble low;
      bytes ← parse_pairs n rest;
      Ok (Z.lor (Z.shiftl high 4) low ::: bytes)
  | S n, _ => Err InvalidEventId
  end.

Definition EventId_from_str (value : string) : result EvidenceContractError EventId :=
  if negb (String.length value =? EVENT_ID_TEXT_BYTES)%nat
     || negb (forallb is_lower_hex (string_bytes value))
  then Err InvalidEventId
  else
    bytes ← parse_pairs EVENT_ID_BYTES (string_bytes value);
    Ok (mkEventId bytes).

Definition byte_digits (byte : Z) : list Ascii.ascii :=
  [hex_digit (Z.shiftr byte 4); hex_digit (Z.land byte 15)].

Definition EventId_to_string (self : EventId) : string :=
  String.string_of_list_ascii (vec_to_list (event_bytes self) ≫= byte_digits).

(** ** Alerts *)
Inductive AlertSeverity : Type := AlertInformation | AlertNotice | AlertWarning.

Inductive AlertCode : Type :=
| StormConfirmed | AlertExternalLoopSuspected | AlertExternalLoopHighConfidence | IncidentCooldown
| IncidentClosed | GenerationEnded | OutputDegraded.

#[export] Instance AlertSeverity_eq_dec : EqDecision AlertSeverity.
Proof. solve_decision. Defined.
#[export] Instance AlertCode_eq_dec : EqDecision AlertCode.
Proof. solve_decision. Defined.

Definition for_state (state : DetectionState) : option AlertCode :=
  match state with
  | IngressStormConfirmed | EgressStormConfirmed | BidirectionalStormConfirmed => Some StormConfirmed
  | ExternalLoopSuspected => Some AlertExternalLoopSuspected
  | ExternalLoopHighConfidence => Some AlertExternalLoopHighConfidence
  | DetectionCooldown => Some IncidentCooldown
  | DetectionNormal => Some IncidentClosed
  | DetectionWarmingUp | DetectionUnavailable => None
  end.

Definition severity (self : AlertCode) : AlertSeverity :=
  match self with
  | StormConfirmed | AlertExternalLoopSuspected => AlertNotice
  | AlertExternalLoopHighConfidence | OutputDegraded => AlertWarning
  | IncidentCooldown | IncidentClosed | GenerationEnded => AlertInformation
  end.

Inductive EvidenceStatus : Type := Stored | EvidenceStatusUnavailable.

Inductive OutputHealthState : Type := OutputHealthy | OutputHealthDegraded.

Inductive AlertSinkMode : Type := Journald | StderrJson.

Record OutputHealth : Type := mkOutputHealth {
  oh_state : OutputHealthState;
  oh_store_available : bool;
  oh_corrupt_object_count : Z;
  oh_incomplete_object_count : Z;
  oh_unknown_object_count : Z;
  oh_alert_sink : AlertSinkMode;
  oh_last_error_code : option string;
  oh_dropped_job_count : Z;
}.

Definition OutputHealth_unavailable (code : string) : OutputHealth :=
  mkOutputHealth OutputHealthDegraded false 0 0 0 StderrJson (Some code) 0.

Record ActiveIncidentMetadata : Type := mkActiveIncidentMetadata {
  ai_event_id : EventId;
  ai_revision : Z;
}.

(** ** Incident revisions and manifests *)
Record IncidentRevisionV1 : Type := mkIncidentRevisionV1 {
  ir_schema_version : Z;
  ir_event_id : EventId;
  ir_revision : Z;
  ir_interface : InterfaceName;
  ir_interface_index : Z;
  ir_interface_generation : Z;
  ir_transition_sequence : Z;
  ir_previous_state : DetectionState;
  ir_current_state : DetectionState;
  ir_transition_reason : DetectionTransitionReason;
  ir_opened_at_unix_ms : Z;
  ir_occurred_at_unix_ms : Z;
  ir_closed_at_unix_ms : option Z;
  ir_alert_code : AlertCode;
  ir_severity : AlertSeverity;
  ir_evidence_status : EvidenceStatus;
  ir_xdp_ingress : ObservationCounters;
  ir_tc_egress : ObservationCounters;
  ir_rate_windows : StatusRateWindows;
  ir_baseline : BaselineSummary;
  ir_fingerprint_window : FingerprintWindowReport;
  ir_detection : DetectionReport;
  ir_observation_health : ObservationHealth;
  ir_vlan_visibility : VlanVisibility;
  ir_last_error_code : option string;
}.

Definition IncidentRevisionV1_validate (self : IncidentRevisionV1) : result EvidenceContractError unit :=
  if negb (ir_schema_version self =? EVIDENCE_SCHEMA_VERSION)
     || (ir_revision self =? 0)
     || (EVIDENCE_MAX_REVISIONS_PER_EVENT <? ir_revision self)
     || (ir_interface_index self =? 0)
     || (ir_interface_generation self =? 0)
     || (ir_transition_sequence self =? 0)
     || (ir_occurred_at_unix_ms self <? ir_opened_at_unix_ms self)
     || is_some_and (ir_closed_at_unix_ms self) (λ closed, closed <? ir_opened_at_unix_ms self)
     || negb (bool_decide (ir_severity self = severity (ir_alert_code self)))
  then Err InvalidModel
  else map_err (λ _, InvalidModel) (DetectionReport_validate (ir_detection self)).

Record EvidenceManifestV1 : Type := mkEvidenceManifestV1 {
  em_schema_version : Z;
  em_event_id : EventId;
  em_revision : Z;
  em_current_state : DetectionState;
  em_evidence_file : string;
  em_evidence_bytes : Z;
  em_evidence_sha256 : string;
  em_total_bytes : Z;
  em_package_version : string;
}.

Definition EvidenceManifestV1_validate (self : EvidenceManifestV1) : result EvidenceContractError unit :=
  if negb (em_schema_version self =? EVIDENCE_SCHEMA_VERSION)
     || (em_revision self =? 0)
     || (EVIDENCE_MAX_REVISIONS_PER_EVENT <? em_revision self)
     || negb (bool_decide (em_evidence_file self = "evidence.json"))
     || (em_evidence_bytes self =? 0)
     || (EVIDENCE_MAX_REVISION_BYTES <? em_evidence_bytes self)
     || (em_total_bytes self <? em_evidence_bytes self)
     || (EVIDENCE_MAX_EVENT_BYTES <? em_total_bytes self)
     || negb (String.length (em_evidence_sha256 self) =? 64)%nat
     || negb (forallb is_lower_hex (string_bytes (em_evidence_sha256 self)))
  then Err InvalidModel
  else Ok tt.

(** ** List cursors *)
Definition interface_filter_hash (interface : option InterfaceName) : Z :=
  let bytes := match interface with Some name => as_str name | None => "-" end in
  foldl (λ value byte, wrapping_mul_u64 (Z.lxor value (ascii_code byte)) 0x100000001b3)
    0xcbf29ce484222325 (string_bytes bytes).

Record EvidenceCursor : Type := mkEvidenceCursor {
  ec_filter_hash : Z;
  ec_last_transition_at_unix_ms : Z;
  ec_event_id : EventId;
}.

Definition EvidenceCursor_new (interface : option InterfaceName) (last_transition_at_unix_ms : Z)
    (event_id : EventId) : EvidenceCursor :=
  mkEvidenceCursor (interface_filter_hash interface) last_transition_at_unix_ms event_id.

Definition is_ascii (value : string) : bool :=
  forallb (λ byte, ascii_code byte <? 128) (string_bytes value).

Definition parse_fixed_hex_u64 (value : string) : result EvidenceContractError Z :=
  if negb (String.length value =? 16)%nat || negb (forallb is_lower_hex (string_bytes value))
  then Err InvalidCursor
  else Ok (from_hex (string_bytes value)).

(** The separator of the fields of a cursor. *)
Definition dash : Ascii.ascii := Ascii.ascii_of_nat 45.

Definition parse_for (value : string) (interface : option InterfaceName)
    : result EvidenceContractError EvidenceCursor :=
  if negb (is_ascii value) || (80 <? String.length value)%nat then Err InvalidCursor
  else
    match split_on dash value with
    | version :: timestamp :: event_id :: filter :: rest =>
        if negb (bool_decide (version = CURSOR_VERSION)) || negb (bool_decide (rest = []))
        then Err InvalidCursor
        else
          filter_hash ← parse_fixed_hex_u64 filter;
          last_transition_at_unix_ms ← parse_fixed_hex_u64 timestamp;
          event_id ← map_err (λ _, InvalidCursor) (EventId_from_str event_id);
          let parsed := mkEvidenceCursor filter_hash last_transition_at_unix_ms event_id in
          if negb (ec_filter_hash parsed =? interface_filter_hash interface) then Err InvalidCursor
          else Ok parsed
    | _ => Err InvalidCursor
    end.

Definition EvidenceCursor_to_string (self : EvidenceCursor) : string :=
  let hex v := String.string_of_list_ascii (hex_fixed 16 v) in
  intercalate dash [CURSOR_VERSION; hex (ec_last_transition_at_unix_ms self);
                    EventId_to_string (ec_event_id self); hex (ec_filter_hash self)].

(** ** List queries *)
Record EvidenceListQuery : Type := mkEvidenceListQuery {
  eq_interface : option InterfaceName;
  eq_limit : Z;
  eq_cursor : option EvidenceCursor;
}.

Definition EvidenceListQuery_new (interface : option InterfaceName) (limit : option Z)
    (cursor : option EvidenceCursor) : result EvidenceContractError EvidenceListQuery :=
  let limit := default EVIDENCE_LIST_DEFAULT_LIMIT limit in
  if negb ((1 <=? limit) && (limit <=? EVIDENCE_LIST_MAX_LIMIT)) then Err InvalidListLimit
  else if is_some_and cursor (λ value, negb (ec_filter_hash value =? interface_filter_hash interface))
  then Err InvalidCursor
  else Ok (mkEvidenceListQuery interface limit cursor).

(** ** Event identifiers: the textual form *)
Definition id_u8 (id : EventId) : Prop := Forall is_u8 (event_bytes id).

Lemma nibble_lower c : is_lower_hex c = true → nibble c = Ok (digit_value c).
Proof.
  unfold nibble, is_lower_hex, digit_value. intros H.
  destruct (is_ascii_digit c); [done|]. cbn [orb] in H. by rewrite H.
Qed.

Lemma byte_digits_spec b :
  is_u8 b →
  forallb is_lower_hex (byte_digits b) = true ∧
  Z.lor (Z.shiftl (digit_value (hex_digit (Z.shiftr b 4))) 4) (digit_value (hex_digit (Z.land b 15))) = b.
Proof.
  intros Hb. assert (b ∈ seqZ 0 256) as Hin by (apply elem_of_seqZ; ulia).
  assert (forallb (λ b, forallb is_lower_hex (byte_digits b)
    && (Z.lor (Z.shiftl (digit_value (hex_digit (Z.shiftr b 4))) 4)
          (digit_value (hex_digit (Z.land b 15))) =? b)) (seqZ 0 256) = true) as Hall
    by (vm_compute; reflexivity).
  rewrite forallb_forall in Hall. apply list_elem_of_In, Hall, andb_true_iff in Hin as [? ?%Z.eqb_eq]. done.
Qed.

Lemma byte_digits_pair high low :
  is_lower_hex high = true → is_lower_hex low = true →
  let b := Z.lor (Z.shiftl (digit_value high) 4) (digit_value low) in
  is_u8 b ∧ byte_digits b = [high; low].
Proof.
  intros Hh Hl b. destruct (digit_value_spec _ Hh) as [Hhr Hhd]. destruct (digit_value_spec _ Hl) as [Hlr Hld].
  unfold b. rewrite Z.lor_comm, lor_shiftl_add by lia. change (2 ^ 4) with 16. split; [ulia|].
  unfold byte_digits. change 15 with (Z.ones 4). rewrite Z.land_ones, Z.shiftr_div_pow2 by lia.
  change (2 ^ 4) with 16. rewrite Z.div_add, Z.div_small, Z.mod_add, Z.mod_small by lia.
  by rewrite Z.add_0_l, Hhd, Hld.
Qed.

Lemma parse_pairs_digits {n} (bytes : vec Z n) :
  Forall is_u8 bytes →
  parse_pairs n (vec_to_list bytes ≫= byte_digits) = Ok bytes ∧
  forallb is_lower_hex (vec_to_list bytes ≫= byte_digits) = true ∧
  length (vec_to_list bytes ≫= byte_digits) = (2 * n)%nat.
Proof.
  induction bytes as [|b n bytes IH]; intros Hb; [done|].
  apply Forall_cons in Hb as [Hb Hbs]. destruct (IH Hbs) as (Hp & Hl & Hn).
  destruct (byte_digits_spec b Hb) as [Hd Hv]. cbn [forallb byte_digits andb] in Hd.
  apply andb_true_iff in Hd as [Hd1 Hd2]. rewrite andb_true_r in Hd2.
  cbn. rewrite !nibble_lower by done. cbn. rewrite Hp. cbn. split_and!.
  - by rewrite Hv.
  - by rewrite Hd1, Hd2.
  - rewrite Hn. lia.
Qed.

Lemma parse_pairs_inv n text :
  length text = (2 * n)%nat → forallb is_lower_hex text = true →
  ∃ bytes : vec Z n, parse_pairs n text = Ok bytes ∧ Forall is_u8 bytes ∧
                     vec_to_list bytes ≫= byte_digits = text.
Proof.
  revert text; induction n as [|n IH]; intros text Hn Hl.
  - destruct text; [|done]. by exists [#].
  - destruct text as [|high [|low rest]]; [cbn in Hn; lia..|]. cbn [length] in Hn.
    cbn [forallb] in Hl. apply andb_true_iff in Hl as [Hh Hl]. apply andb_true_iff in Hl as [Hlo Hl].
    destruct (IH rest) as (bytes & Hp & Hb & Ht); [lia|done|].
    destruct (byte_digits_pair high low Hh Hlo) as [Hu Hd].
    eexists. cbn [parse_pairs]. rewrite !nibble_lower by done. cbn. rewrite Hp. cbn.
    split_and!; [done|by constructor|].
    change (byte_digits (Z.lor (Z.shiftl (digit_value high) 4) (digit_value low))
            ++ (vec_to_list bytes ≫= byte_digits) = high :: low :: rest).
    by rewrite Hd, Ht.
Qed.

Lemma event_id_from_to id : id_u8 id → EventId_from_str (EventId_to_string id) = Ok id.
Proof.
  intros Hid. destruct (parse_pairs_digits (event_bytes id) Hid) as (Hp & Hl & Hn).
  unfold EventId_from_str, EventId_to_string. rewrite <-string_bytes_length, !bytes_of_string, Hn, Hl.
  cbn [Nat.eqb negb orb EVENT_ID_TEXT_BYTES]. rewrite Hp. by destruct id.
Qed.

Lemma event_id_to_from s id : EventId_from_str s = Ok id → id_u8 id ∧ EventId_to_string id = s.
Proof.
  unfold EventId_from_str. rewrite <-string_bytes_length. intros H.
  destruct (_ || _) eqn:Hc; [done|]. apply orb_false_iff in Hc as [Hn Hl].
  apply negb_false_iff, Nat.eqb_eq in Hn. apply negb_false_iff in Hl.
  destruct (parse_pairs_inv EVENT_ID_BYTES (string_bytes s)) as (bytes & Hp & Hb & Ht);
    [by rewrite Hn|done|].
  rewrite Hp in H. cbn in H. injection H as <-. split; [done|].
  unfold EventId_to_string. cbn [event_bytes]. by rewrite Ht, string_of_bytes.
Qed.

(** ** Cursors: the textual form *)
Definition cursor_ok (c : EvidenceCursor) : Prop :=
  is_u64 (ec_filter_hash c) ∧ is_u64 (ec_last_transition_at_unix_ms c) ∧ id_u8 (ec_event_id c).

Lemma lower_hex_free l : forallb is_lower_hex l = true → free_of dash (String.string_of_list_ascii l).
Proof.
  unfold free_of. rewrite bytes_of_string. intros Hl Hin.
  rewrite forallb_forall in Hl. apply list_elem_of_In, Hl in Hin. done.
Qed.

Lemma lower_hex_ascii l : forallb is_lower_hex l = true → forallb (λ byte, ascii_code byte <? 128) l = true.
Proof.
  rewrite !forallb_forall. intros H x Hx. specialize (H x Hx).
  unfold is_lower_hex, is_ascii_digit in H. lia.
Qed.

Lemma parse_fixed_hex_to v :
  is_u64 v → parse_fixed_hex_u64 (String.string_of_list_ascii (hex_fixed 16 v)) = Ok v.
Proof.
  intros Hv. unfold parse_fixed_hex_u64.
  rewrite <-string_bytes_length, bytes_of_string, hex_fixed_length, hex_fixed_lower.
  cbn [Nat.eqb negb orb]. rewrite from_hex_fixed; [done|]. change (16 ^ Z.of_nat 16) with (U64_MAX + 1). ulia.
Qed.

Lemma parse_fixed_hex_inv s v :
  parse_fixed_hex_u64 s = Ok v → is_u64 v ∧ String.string_of_list_ascii (hex_fixed 16 v) = s.
Proof.
  unfold parse_fixed_hex_u64. rewrite <-string_bytes_length. intros H.
  destruct (_ || _) eqn:Hc; [done|]. apply orb_false_iff in Hc as [Hn Hl].
  apply negb_false_iff, Nat.eqb_eq in Hn. apply negb_false_iff in Hl. injection H as <-.
  pose proof (from_hex_range _ Hl) as Hr. rewrite Hn in Hr. change (16 ^ Z.of_nat 16) with (U64_MAX + 1) in Hr.
  split; [ulia|]. rewrite <-Hn at 1. by rewrite hex_fixed_from, string_of_bytes by done.
Qed.

Lemma event_id_text id :
  id_u8 id → ∃ l, EventId_to_string id = String.string_of_list_ascii l ∧
                  forallb is_lower_hex l = true ∧ length l = 32%nat.
Proof.
  intros Hid. destruct (parse_pairs_digits (event_bytes id) Hid) as (_ & Hl & Hn). eauto.
Qed.

Lemma cursor_from_to c interface :
  cursor_ok c → ec_filter_hash c = interface_filter_hash interface →
  parse_for (EvidenceCursor_to_string c) interface = Ok c.
Proof.
  intros (Hf & Ht & Hid) Hi. destruct (event_id_text _ Hid) as (l & Hl & Hll & Hn).
  unfold parse_for, EvidenceCursor_to_string, is_ascii. cbv zeta.
  rewrite length_intercalate, forallb_intercalate, split_intercalate; [|done|..|done|].
  - rewrite !parse_fixed_hex_to, event_id_from_to by done.
    cbn [fmap list_fmap length pred sum_list]. rewrite Hl, !length_of_string, Hn, !hex_fixed_length.
    cbn. rewrite Hi, Z.eqb_refl. destruct c; cbn in *. by subst.
  - rewrite Hl, !Forall_cons. split_and!; [|apply lower_hex_free, hex_fixed_lower|by apply lower_hex_free
      |apply lower_hex_free, hex_fixed_lower|constructor].
    intros Hin%list_elem_of_In. destruct Hin as [Hin|[]]. discriminate Hin.
  - rewrite Hl, !Forall_cons, !bytes_of_string. split_and!; [done|apply lower_hex_ascii, hex_fixed_lower
      |by apply lower_hex_ascii|apply lower_hex_ascii, hex_fixed_lower|constructor].
Qed.

Lemma cursor_to_from value interface c :
  parse_for value interface = Ok c →
  cursor_ok c ∧ ec_filter_hash c = interface_filter_hash interface ∧ EvidenceCursor_to_string c = value.
Proof.
  unfold parse_for. intros H. destruct (_ || _); [done|].
  destruct (split_on dash value) as [|version [|timestamp [|event_id [|filter rest]]]] eqn:Hs; try done.
  destruct (_ || _) eqn:Hc; [done|]. apply orb_false_iff in Hc as [Hv Hr].
  apply negb_false_iff, bool_decide_eq_true in Hv as ->, Hr as ->.
  apply bind_Ok in H as (f & Hf & H). apply bind_Ok in H as (t & Ht & H). apply bind_Ok in H as (id & Hid & H).
  apply map_err_Ok, event_id_to_from in Hid as [Hid Hi].
  apply parse_fixed_hex_inv in Hf as [Hf Hfs], Ht as [Ht Hts].
  cbn [ec_filter_hash] in H. destruct (Z.eqb_spec f (interface_filter_hash interface)) as [He|]; [|done].
  injection H as <-. split_and!; [by split_and!|done|].
  unfold EvidenceCursor_to_string. cbv zeta.
  cbn [ec_filter_hash ec_last_transition_at_unix_ms ec_event_id]. by rewrite Hfs, Hts, Hi, <-Hs, intercalate_split.
Qed.

(** ** Properties *)

Lemma filter_hash_range interface : is_u64 (interface_filter_hash interface).
Proof.
  unfold interface_filter_hash. set (bytes := string_bytes _). clearbody bytes.
  assert (is_u64 0xcbf29ce484222325) as H by (vm_compute; split; congruence).
  revert H. generalize 0xcbf29ce484222325. induction bytes as [|b bytes IH]; intros v Hv; [done|].
  cbn [foldl]. apply IH. unfold wrapping_mul_u64.
  pose proof (Z.mod_pos_bound (Z.lxor v (ascii_code b) * 0x100000001b3) (U64_MAX + 1)). ulia.
Qed.

(** Event identifiers and list cursors survive a round trip through their
    text in both directions: every identifier and every cursor is read back from
    what it prints as, and whatever the parsers accept is the canonical text of
    the value they return, so that no two texts denote the same identifier or
    cursor; a parsed cursor always belongs to the filter it was parsed for, and a
    list query for that filter accepts it. *)
Lemma cursor_roundtrip :
  (∀ id, id_u8 id → EventId_from_str (EventId_to_string id) = Ok id) ∧
  (∀ s id, EventId_from_str s = Ok id → id_u8 id ∧ EventId_to_string id = s) ∧
  (∀ interface at_ms id, is_u64 at_ms → id_u8 id →
     let c := EvidenceCursor_new interface at_ms id in
     parse_for (EvidenceCursor_to_string c) interface = Ok c) ∧
  (∀ value interface c, parse_for value interface = Ok c →
     EvidenceCursor_to_string c = value ∧ c = EvidenceCursor_new interface
       (ec_last_transition_at_unix_ms c) (ec_event_id c) ∧
     EvidenceListQuery_new interface None (Some c)
     = Ok (mkEvidenceListQuery interface EVIDENCE_LIST_DEFAULT_LIMIT (Some c))).
Proof.
  split_and!; [apply event_id_from_to|apply event_id_to_from|..].
  - intros interface at_ms id Ht Hid. apply cursor_from_to; [|done].
    split_and!; [apply filter_hash_range|done..].
  - intros value interface c (Hok & Hf & Hs)%cursor_to_from. split_and!; [done|..].
    + unfold EvidenceCursor_new. rewrite <-Hf. by destruct c.
    + unfold EvidenceListQuery_new. cbn. by rewrite Hf, Z.eqb_refl.
Qed.

Lemma cursor_roundtrip_witness :
  let id := mkEventId (vreplicate EVENT_ID_BYTES 171) in
  let interface := Some (mkInterfaceName "veth0") in
  EventId_to_string id = "abababababababababababababababab"%string ∧
  EventId_from_str (EventId_to_string id) = Ok id ∧
  parse_for (EvidenceCursor_to_string (EvidenceCursor_new interface 1755000000000 id)) interface
  = Ok (EvidenceCursor_new interface 1755000000000 id) ∧
  parse_for (EvidenceCursor_to_string (EvidenceCursor_new interface 1755000000000 id)) None
  = Err InvalidCursor.
Proof.
  assert (id_u8 (mkEventId (vreplicate EVENT_ID_BYTES 171))) as Hid
    by (unfold id_u8; cbn; repeat constructor; ulia).
  destruct cursor_roundtrip as (Hfrom & _ & Hcursor & _).
  split; [vm_compute; reflexivity|]. split; [by apply Hfrom|].
  split; [by apply (Hcursor (Some (mkInterfaceName "veth0"))); [ulia|]|vm_compute; reflexivity].
Defined.
