(* ===== verification/Snapshot.v ===== *)
(** Observation snapshots of [l2-loop-core] ([observation.rs], [command.rs]):
    the record that joins the cumulative counters, rate windows, baseline,
    fingerprints and detection of one interface generation, its checked
    constructor, and the status line derived from it. *)
From S2P Require Import Prelude Domain Packet Observation Rate Baseline FrameHash Fingerprint FingerprintWindow DetectionSignals Detection Evidence.

Record ObservationSnapshot : Type := mkObservationSnapshot {
  os_schema_version : Z;
  os_interface : InterfaceName;
  os_ifindex : Z;
  os_generation : Z;
  os_captured_at_unix_ms : Z;
  os_vlan_visibility : VlanVisibility;
  os_health : ObservationHealth;
  os_hooks : HookObservations;
  os_sampling : SamplingStatus;
  os_rate_windows : DetailedRateWindows;
  os_baseline : BaselineReport;
  os_fingerprints : FingerprintReport;
  os_detection : DetectionReport;
}.

Definition ObservationSnapshot_new (interface : InterfaceName) (ifindex generation : Z)
    (captured_at_unix_ms : Z) (vlan_visibility : VlanVisibility) (hooks : HookObservations)
    (sampling : SamplingStatus) (rate_windows : DetailedRateWindows)
    : result DomainError ObservationSnapshot :=
  if ifindex =? 0 then Err (InvalidObservation "ifindex must be non-zero")
  else if generation =? 0 then Err (InvalidObservation "interface generation must be non-zero")
  else if negb (hook_roles_ordered ho_role hooks) then
    Err (InvalidObservation "hook observations must be ordered XDP ingress then TC egress")
  else if existsb (λ hook, negb (classes_ordered co_traffic_class (ho_classes hook))) (vec_to_list hooks)
  then Err (InvalidObservation "class observations do not match the fixed class order")
  else
    _ ← validate_detailed_rate_windows rate_windows;
    identity ← RateIdentity_new ifindex generation;
    let baseline := BaselineReport_learning captured_at_unix_ms in
    let detection := DetectionReport_warming identity captured_at_unix_ms in
    Ok (mkObservationSnapshot OBSERVATION_SCHEMA_VERSION interface ifindex generation
          captured_at_unix_ms vlan_visibility Healthy hooks sampling rate_windows baseline
          FingerprintReport_empty detection).

(** Assignments to the fields of a snapshot. *)
Definition with_evidence (self : ObservationSnapshot) (health : ObservationHealth)
    (baseline : BaselineReport) (fingerprints : FingerprintReport) (detection : DetectionReport)
    : ObservationSnapshot :=
  mkObservationSnapshot (os_schema_version self) (os_interface self) (os_ifindex self)
    (os_generation self) (os_captured_at_unix_ms self) (os_vlan_visibility self) health
    (os_hooks self) (os_sampling self) (os_rate_windows self) baseline fingerprints detection.

Record InterfaceStatus : Type := mkInterfaceStatus {
  is_interface : InterfaceName;
  is_state : InterfaceState;
  is_generation : Z;
  is_captured_at_unix_ms : Z;
  is_health : ObservationHealth;
  is_vlan_visibility : VlanVisibility;
  is_xdp_ingress : ObservationCounters;
  is_tc_egress : ObservationCounters;
  is_sampling : SamplingStatus;
  is_rate_windows : StatusRateWindows;
  is_baseline : BaselineSummary;
  is_fingerprints : FingerprintSummary;
  is_detection : DetectionSummary;
  is_output_health : OutputHealth;
  is_active_incident : option ActiveIncidentMetadata;
}.

(** The fields a new snapshot is built from, and what a built snapshot claims. *)
Lemma ObservationSnapshot_new_ok interface ifindex generation at_ms vlan hooks sampling windows snapshot :
  ObservationSnapshot_new interface ifindex generation at_ms vlan hooks sampling windows = Ok snapshot →
  os_interface snapshot = interface ∧ os_ifindex snapshot = ifindex ∧ os_generation snapshot = generation ∧
  ifindex ≠ 0 ∧ generation ≠ 0 ∧ os_rate_windows snapshot = windows ∧ os_hooks snapshot = hooks ∧
  validate_detailed_rate_windows windows = Ok tt.
Proof.
  unfold ObservationSnapshot_new. intros H.
  destruct (Z.eqb_spec ifindex 0); [done|]. destruct (Z.eqb_spec generation 0); [done|].
  destruct (negb _); [done|]. destruct (existsb _ _); [done|].
  apply bind_Ok in H as ([] & Hw & H). apply bind_Ok in H as (id & _ & H). by injection H as <-.
Qed.
