(* ===== verification/Incident.v ===== *)
(** The incident recorder of [l2-loop-agent] ([incident.rs]): it consumes the
    detection transitions of one interface generation in sequence and turns them
    into the revisions of at most one open incident.  The source of event
    identifiers is a class of one operation. *)
From S2P Require Import Prelude Domain Text Packet Observation Rate Baseline FrameHash Fingerprint FingerprintWindow DetectionSignals Detection Evidence Snapshot.

Record IncidentIdentity : Type := mkIncidentIdentity {
  ii_interface : InterfaceName;
  ii_ifindex : Z;
  ii_generation : Z;
}.

Inductive IncidentRecorderError : Type :=
| InvalidIdentity | IdUnavailable | TransitionGap | RevisionLimit | ClockRegression | InvalidSnapshot.

Definition IncidentIdentity_new (interface : InterfaceName) (ifindex generation : Z)
    : result IncidentRecorderError IncidentIdentity :=
  if (ifindex =? 0) || (generation =? 0) then Err InvalidIdentity
  else Ok (mkIncidentIdentity interface ifindex generation).

Class EventIdSource (S : Type) : Type :=
  next_id : S → S * result IncidentRecorderError EventId.

Record IncidentWriteJob : Type := mkIncidentWriteJob { job_revision : IncidentRevisionV1 }.

Record ActiveIncident : Type := mkActiveIncident {
  ac_event_id : EventId;
  ac_revision : Z;
  ac_opened_at_unix_ms : Z;
  ac_last_state : DetectionState;
}.

Record IncidentRecorder (S : Type) : Type := mkIncidentRecorder {
  ic_identity : IncidentIdentity;
  ic_id_source : S;
  ic_active : option ActiveIncident;
  ic_last_transition_sequence : Z;
  ic_suppressed_duplicate_count : Z;
}.
Arguments mkIncidentRecorder {S} _ _ _ _ _.
Arguments ic_identity {S} _.
Arguments ic_id_source {S} _.
Arguments ic_active {S} _.
Arguments ic_last_transition_sequence {S} _.
Arguments ic_suppressed_duplicate_count {S} _.

Section recorder.
Context {S : Type} `{EventIdSource S}.
Implicit Types (self : IncidentRecorder S) (transition : DetectionTransition)
  (snapshot : ObservationSnapshot).

Definition IncidentRecorder_new (identity : IncidentIdentity) (id_source : S) : IncidentRecorder S :=
  mkIncidentRecorder identity id_source None 0 0.

Definition active_event self : option EventId := ac_event_id <$> ic_active self.

Definition active_metadata self : option ActiveIncidentMetadata :=
  (λ active, mkActiveIncidentMetadata (ac_event_id active) (ac_revision active)) <$> ic_active self.

Definition reset_identity self (identity : IncidentIdentity) : IncidentRecorder S :=
  mkIncidentRecorder identity (ic_id_source self) None 0 0.

(** Assignments to the fields of the recorder. *)
Definition suppress_duplicate self : IncidentRecorder S :=
  mkIncidentRecorder (ic_identity self) (ic_id_source self) (ic_active self)
    (ic_last_transition_sequence self)
    (saturating_add U64_MAX (ic_suppressed_duplicate_count self) 1).

Definition with_active self (active : option ActiveIncident) : IncidentRecorder S :=
  mkIncidentRecorder (ic_identity self) (ic_id_source self) active
    (ic_last_transition_sequence self) (ic_suppressed_duplicate_count self).

Definition with_id_source self (id_source : S) : IncidentRecorder S :=
  mkIncidentRecorder (ic_identity self) id_source (ic_active self)
    (ic_last_transition_sequence self) (ic_suppressed_duplicate_count self).

Definition consumed self (sequence : Z) : IncidentRecorder S :=
  mkIncidentRecorder (ic_identity self) (ic_id_source self) (ic_active self) sequence
    (ic_suppressed_duplicate_count self).

Definition with_last_state (active : ActiveIncident) (state : DetectionState) : ActiveIncident :=
  mkActiveIncident (ac_event_id active) (ac_revision active) (ac_opened_at_unix_ms active) state.

Definition acknowledge_without_output self transition
    : IncidentRecorder S * result IncidentRecorderError unit :=
  if dt_sequence transition <=? ic_last_transition_sequence self then
    (suppress_duplicate self, Ok tt)
  else if negb (dt_sequence transition
                =? saturating_add U64_MAX (ic_last_transition_sequence self) 1) then
    (self, Err TransitionGap)
  else
    let active := (λ active, with_last_state active (dt_current_state transition))
                  <$> ic_active self in
    (consumed (with_active self active) (dt_sequence transition), Ok tt).

Definition validate_snapshot self snapshot : result IncidentRecorderError unit :=
  if negb (bool_decide (os_interface snapshot = ii_interface (ic_identity self)))
     || negb (os_ifindex snapshot =? ii_ifindex (ic_identity self))
     || negb (os_generation snapshot =? ii_generation (ic_identity self))
  then Err InvalidSnapshot else Ok tt.

(** The status line of a rate window: the totals of the two hooks. *)
Definition status_window (window : DetailedRateWindow) : StatusRateWindow :=
  mkStatusRateWindow (dw_window_ms window) (dw_state window) (dw_coverage_ms window)
    (dw_elapsed_ns window) (dw_start_unix_ms window) (dw_end_unix_ms window)
    ((λ hooks, hr_total (hooks !!! 0%fin)) <$> dw_hooks window)
    ((λ hooks, hr_total (hooks !!! 1%fin)) <$> dw_hooks window).

(** [Option::or_else]. *)
Definition or_else {A} (o o' : option A) : option A := match o with Some a => Some a | None => o' end.

Definition revision_of self (active : ActiveIncident) transition (code : AlertCode)
    (closed_at_unix_ms : option Z) snapshot : IncidentRevisionV1 :=
  let identity := ic_identity self in
  let detection := os_detection snapshot in
  mkIncidentRevisionV1 EVIDENCE_SCHEMA_VERSION (ac_event_id active) (ac_revision active)
    (ii_interface identity) (ii_ifindex identity) (ii_generation identity)
    (dt_sequence transition) (dt_previous_state transition) (dt_current_state transition)
    (dt_reason transition) (ac_opened_at_unix_ms active) (dt_occurred_at_unix_ms transition)
    closed_at_unix_ms code (severity code) Stored
    (ho_total (os_hooks snapshot !!! 0%fin)) (ho_total (os_hooks snapshot !!! 1%fin))
    (vmap status_window (os_rate_windows snapshot))
    (BaselineSummary_from_report (os_baseline snapshot))
    (ds_fingerprint_window (dr_signals detection)) detection
    (os_health snapshot) (os_vlan_visibility snapshot)
    (or_else (dr_last_error_code detection)
       (or_else (br_last_error_code (os_baseline snapshot))
          (ss_last_error_code (os_sampling snapshot)))).

Definition job self (active : ActiveIncident) transition (code : AlertCode)
    (closed_at_unix_ms : option Z) snapshot : result IncidentRecorderError IncidentWriteJob :=
  let revision := revision_of self active transition code closed_at_unix_ms snapshot in
  _ ← map_err (λ _, InvalidSnapshot) (IncidentRevisionV1_validate revision);
  Ok (mkIncidentWriteJob revision).

(** The alert code of a transition while an incident is open. *)
Definition open_code (state : DetectionState) : option AlertCode :=
  if is_anomalous state then for_state state
  else match state with
       | DetectionUnavailable => Some OutputDegraded
       | DetectionCooldown => Some IncidentCooldown
       | DetectionNormal => Some IncidentClosed
       | _ => None
       end.

(** Opening an incident.  The [expect] on the alert code is [None]. *)
Definition open_incident self transition snapshot
    : option (IncidentRecorder S * result IncidentRecorderError (option IncidentWriteJob)) :=
  match next_id (ic_id_source self) with
  | (id_source, Err error) => Some (with_id_source self id_source, Err error)
  | (id_source, Ok event_id) =>
      let self := with_id_source self id_source in
      match for_state (dt_current_state transition) with
      | None => None
      | Some code =>
          let active := mkActiveIncident event_id 1 (dt_occurred_at_unix_ms transition)
                          (dt_current_state transition) in
          match job self active transition code None snapshot with
          | Err error => Some (self, Err error)
          | Ok job => Some (consumed (with_active self (Some active)) (dt_sequence transition), Ok (Some job))
          end
      end
  end.

(** A transition of the open incident [active]. *)
Definition continue_incident self (active : ActiveIncident) transition snapshot
    : IncidentRecorder S * result IncidentRecorderError (option IncidentWriteJob) :=
  match open_code (dt_current_state transition) with
  | Some code =>
      if EVIDENCE_MAX_REVISIONS_PER_EVENT <=? ac_revision active then (self, Err RevisionLimit)
      else
        let next := mkActiveIncident (ac_event_id active) (ac_revision active + 1)
                      (ac_opened_at_unix_ms active) (dt_current_state transition) in
        let closed_at := if bool_decide (code = IncidentClosed)
                         then Some (dt_occurred_at_unix_ms transition) else None in
        match job self next transition code closed_at snapshot with
        | Err error => (self, Err error)
        | Ok job =>
            (consumed (with_active self (if is_some closed_at then None else Some next))
               (dt_sequence transition), Ok (Some job))
        end
  | None =>
      (consumed (with_active self (Some (with_last_state active (dt_current_state transition))))
         (dt_sequence transition), Ok None)
  end.

Definition record self transition snapshot
    : option (IncidentRecorder S * result IncidentRecorderError (option IncidentWriteJob)) :=
  match validate_snapshot self snapshot with
  | Err error => Some (self, Err error)
  | Ok _ =>
      if dt_sequence transition <=? ic_last_transition_sequence self then
        Some (suppress_duplicate self, Ok None)
      else if negb (dt_sequence transition
                    =? saturating_add U64_MAX (ic_last_transition_sequence self) 1) then
        Some (self, Err TransitionGap)
      else
        match ic_active self with
        | None =>
            if is_anomalous (dt_current_state transition) then open_incident self transition snapshot
            else Some (consumed self (dt_sequence transition), Ok None)
        | Some active => Some (continue_incident self active transition snapshot)
        end
  end.

Definition generation_ended self (occurred_at_unix_ms : Z) snapshot
    : IncidentRecorder S * result IncidentRecorderError (option IncidentWriteJob) :=
  match validate_snapshot self snapshot with
  | Err error => (self, Err error)
  | Ok _ =>
      match ic_active self with
      | None => (self, Ok None)
      | Some active =>
          if EVIDENCE_MAX_REVISIONS_PER_EVENT <=? ac_revision active then (self, Err RevisionLimit)
          else if occurred_at_unix_ms <? ac_opened_at_unix_ms active then (self, Err ClockRegression)
          else
            let next := mkActiveIncident (ac_event_id active) (ac_revision active + 1)
                          (ac_opened_at_unix_ms active) (ac_last_state active) in
            let transition := mkDetectionTransition (ic_last_transition_sequence self)
                                (ac_last_state active) (ac_last_state active) SamplerPaused
                                occurred_at_unix_ms in
            match job self next transition GenerationEnded (Some occurred_at_unix_ms) snapshot with
            | Err error => (self, Err error)
            | Ok job => (with_active self None, Ok (Some job))
            end
      end
  end.
End recorder.

(** ** The log of revisions *)

(** A revision closes its incident exactly when its alert says so. *)
Definition closing (code : AlertCode) : bool :=
  match code with IncidentClosed | GenerationEnded => true | _ => false end.

Record revision_ok (identity : IncidentIdentity) (r : IncidentRevisionV1) : Prop := {
  rk_valid : IncidentRevisionV1_validate r = Ok tt;
  rk_interface : ir_interface r = ii_interface identity;
  rk_ifindex : ir_interface_index r = ii_ifindex identity;
  rk_generation : ir_interface_generation r = ii_generation identity;
  rk_closed : ir_closed_at_unix_ms r =
    if closing (ir_alert_code r) then Some (ir_occurred_at_unix_ms r) else None;
}.

Definition opening (r : IncidentRevisionV1) : Prop :=
  ir_revision r = 1 ∧ is_anomalous (ir_current_state r) = true ∧
  for_state (ir_current_state r) = Some (ir_alert_code r) ∧
  ir_opened_at_unix_ms r = ir_occurred_at_unix_ms r.

(** The next revision of the log: of the same incident while it is open, the
    first of a new one once it is closed. *)
Definition follows (r s : IncidentRevisionV1) : Prop :=
  ir_transition_sequence r ≤ ir_transition_sequence s ∧
  if closing (ir_alert_code r) then opening s
  else ir_event_id s = ir_event_id r ∧ ir_revision s = ir_revision r + 1 ∧
       ir_opened_at_unix_ms s = ir_opened_at_unix_ms r.

(** The open incident is the one of the last revision, unless that closed it. *)
Definition open_matches (active : option ActiveIncident) (latest : option IncidentRevisionV1) : Prop :=
  match active, latest with
  | None, None => True
  | None, Some r => closing (ir_alert_code r) = true
  | Some _, None => False
  | Some a, Some r =>
      closing (ir_alert_code r) = false ∧ ac_event_id a = ir_event_id r ∧
      ac_revision a = ir_revision r ∧ ac_opened_at_unix_ms a = ir_opened_at_unix_ms r
  end.

Record log_ok {S} (identity : IncidentIdentity) (self : IncidentRecorder S)
    (log : list IncidentRevisionV1) : Prop := {
  lk_identity : ic_identity self = identity;
  lk_revisions : Forall (revision_ok identity) log;
  lk_head r : head log = Some r → opening r;
  lk_follows : Sorted follows log;
  lk_open : open_matches (ic_active self) (last log);
  lk_sequence r : last log = Some r → ir_transition_sequence r ≤ ic_last_transition_sequence self;
}.

Section log.
Context {S : Type} `{EventIdSource S}.
Implicit Types (identity : IncidentIdentity) (self : IncidentRecorder S) (transition : DetectionTransition)
  (snapshot : ObservationSnapshot) (log : list IncidentRevisionV1).

Inductive incident_op : Type :=
| RecordOp (transition : DetectionTransition) (snapshot : ObservationSnapshot)
| AcknowledgeOp (transition : DetectionTransition)
| EndOp (occurred_at_unix_ms : Z) (snapshot : ObservationSnapshot).

Definition emitted (res : result IncidentRecorderError (option IncidentWriteJob))
    : list IncidentRevisionV1 :=
  match res with Ok (Some job) => [job_revision job] | _ => [] end.

(** One operation, its revision appended to the log; [None] is a panic. *)
Definition incident_step (st : IncidentRecorder S * list IncidentRevisionV1) (op : incident_op)
    : option (IncidentRecorder S * list IncidentRevisionV1) :=
  let '(self, log) := st in
  match op with
  | RecordOp transition snapshot =>
      '(self, res) ← record self transition snapshot; Some (self, log ++ emitted res)
  | AcknowledgeOp transition => Some ((acknowledge_without_output self transition).1, log)
  | EndOp at_ms snapshot =>
      let '(self, res) := generation_ended self at_ms snapshot in Some (self, log ++ emitted res)
  end.

Fixpoint incident_run (st : IncidentRecorder S * list IncidentRevisionV1) (ops : list incident_op)
    : option (IncidentRecorder S * list IncidentRevisionV1) :=
  match ops with
  | [] => Some st
  | op :: ops => st ← incident_step st op; incident_run st ops
  end.

Lemma anomalous_code state : is_anomalous state = true → ∃ code, for_state state = Some code ∧ closing code = false.
Proof. destruct state; cbn; try done; eauto. Qed.

Lemma open_code_closing state code :
  open_code state = Some code → closing code = bool_decide (code = IncidentClosed).
Proof. destruct state; cbn; intros [=]; by subst. Qed.

Lemma job_ok self active transition code closed snapshot j :
  job self active transition code closed snapshot = Ok j →
  job_revision j = revision_of self active transition code closed snapshot ∧
  IncidentRevisionV1_validate (job_revision j) = Ok tt.
Proof. intros ([] & Hv%map_err_Ok & [= <-])%bind_Ok. done. Qed.

(** Appending one revision to a good log. *)
Lemma log_ok_emit identity self self' log r :
  log_ok identity self log → revision_ok (ic_identity self) r → ic_identity self' = ic_identity self →
  match ic_active self with
  | None => opening r
  | Some a => ir_event_id r = ac_event_id a ∧ ir_revision r = ac_revision a + 1 ∧
              ir_opened_at_unix_ms r = ac_opened_at_unix_ms a
  end →
  open_matches (ic_active self') (Some r) →
  ic_last_transition_sequence self ≤ ir_transition_sequence r ≤ ic_last_transition_sequence self' →
  log_ok identity self' (log ++ [r]).
Proof.
  intros [Hi Hr Hh Hf Ho Hs] Hok Hid Hact Hopen Hseq. constructor.
  - congruence.
  - apply Forall_app. split; [done|]. constructor; [by rewrite <-Hi|done].
  - intros s Hhead. destruct log as [|s' log]; cbn in Hhead.
    + injection Hhead as <-. unfold open_matches in Ho. cbn in Ho. by destruct (ic_active self).
    + injection Hhead as <-. by apply Hh.
  - apply Sorted_snoc; [done|]. unfold back. intros s Hlast. specialize (Hs s Hlast). split; [lia|].
    unfold open_matches in Ho. rewrite Hlast in Ho. destruct (ic_active self) as [a|].
    + destruct Ho as (-> & He & Hrv & Hop). destruct Hact as (He' & Hr' & Ho').
      split_and!; congruence.
    + by rewrite Ho.
  - by rewrite last_snoc.
  - intros s. rewrite last_snoc. intros [= <-]. lia.
Qed.

(** Consuming a transition without a revision. *)
Lemma log_ok_skip identity self self' log :
  log_ok identity self log → ic_identity self' = ic_identity self →
  ic_last_transition_sequence self ≤ ic_last_transition_sequence self' →
  (ac_event_id <$> ic_active self') = (ac_event_id <$> ic_active self) →
  (ac_revision <$> ic_active self') = (ac_revision <$> ic_active self) →
  (ac_opened_at_unix_ms <$> ic_active self') = (ac_opened_at_unix_ms <$> ic_active self) →
  log_ok identity self' log.
Proof.
  intros [Hi Hr Hh Hf Ho Hs] Hid Hseq He Hrv Hop. constructor; [congruence|done|done|done| |].
  - unfold open_matches in *. destruct (ic_active self), (ic_active self'); simplify_eq/=; try done.
    destruct (last log); [|done]. intuition congruence.
  - intros r Hl. specialize (Hs r Hl). lia.
Qed.

Lemma revision_of_ok self active transition code closed snapshot j :
  job self active transition code closed snapshot = Ok j →
  closed = (if closing code then Some (dt_occurred_at_unix_ms transition) else None) →
  revision_ok (ic_identity self) (job_revision j).
Proof. intros [Hj Hv]%job_ok Hc. constructor; [done|..]; rewrite Hj; done. Qed.

Lemma log_ok_open identity self log transition snapshot :
  log_ok identity self log → ic_active self = None → is_anomalous (dt_current_state transition) = true →
  ic_last_transition_sequence self < dt_sequence transition →
  ∃ self' res, open_incident self transition snapshot = Some (self', res) ∧
               log_ok identity self' (log ++ emitted res).
Proof.
  intros Hlog Hact Ha Hseq. unfold open_incident.
  assert (∀ src, log_ok identity (with_id_source self src) log) as Hsrc by (intros; by apply (log_ok_skip _ self)).
  destruct (next_id _) as [src [id|e]]; [|eexists _, _; split; [done|]; rewrite app_nil_r; apply Hsrc].
  destruct (anomalous_code _ Ha) as (code & Hcode & Hcl). rewrite Hcode.
  destruct (job _ _ _ _ _ _) as [j|e] eqn:Hj;
    (eexists _, _; split; [done|]); [|rewrite app_nil_r; apply Hsrc].
  pose proof (revision_of_ok _ _ _ _ _ _ _ Hj) as Hok. rewrite Hcl in Hok.
  apply job_ok in Hj as [Hj _]. apply (log_ok_emit _ self); [done|by apply Hok|done|..].
  - rewrite Hact, Hj. by split_and!.
  - rewrite Hj. by split_and!.
  - rewrite Hj. cbn. lia.
Qed.

Lemma log_ok_continue identity self log active transition snapshot :
  log_ok identity self log → ic_active self = Some active →
  ic_last_transition_sequence self < dt_sequence transition →
  let out := continue_incident self active transition snapshot in
  log_ok identity out.1 (log ++ emitted out.2).
Proof.
  intros Hlog Hact Hseq. unfold continue_incident.
  destruct (open_code _) as [code|] eqn:Hcode.
  2: { cbn. rewrite app_nil_r. apply (log_ok_skip _ self); cbn; rewrite ?Hact; try done. lia. }
  destruct (Z.leb_spec EVIDENCE_MAX_REVISIONS_PER_EVENT (ac_revision active));
    [cbn; by rewrite app_nil_r|].
  destruct (job _ _ _ _ _ _) as [j|e] eqn:Hj; [|cbn; by rewrite app_nil_r].
  pose proof (revision_of_ok _ _ _ _ _ _ _ Hj) as Hok. apply open_code_closing in Hcode as Hcl.
  apply job_ok in Hj as [Hj _]. cbn [fst snd emitted].
  apply (log_ok_emit _ self); [done|apply Hok; by rewrite Hcl; case_bool_decide|done|..].
  - rewrite Hact, Hj. by split_and!.
  - rewrite Hj. clear - Hcl. destruct code; cbn in *; try done; by split_and!.
  - rewrite Hj. cbn. lia.
Qed.

Lemma log_ok_record identity self log transition snapshot :
  log_ok identity self log →
  ∃ self' res, record self transition snapshot = Some (self', res) ∧ log_ok identity self' (log ++ emitted res).
Proof.
  intros Hlog. unfold record.
  destruct (validate_snapshot _ _); [|eexists _, _; split; [done|]; by rewrite app_nil_r].
  destruct (Z.leb_spec (dt_sequence transition) (ic_last_transition_sequence self)).
  { eexists _, _. split; [done|]. rewrite app_nil_r. by apply (log_ok_skip _ self). }
  destruct (negb _); [eexists _, _; split; [done|]; by rewrite app_nil_r|].
  destruct (ic_active self) as [active|] eqn:Hact.
  - eexists _, _. split; [f_equal; apply surjective_pairing|]. by apply log_ok_continue.
  - destruct (is_anomalous _) eqn:Ha; [by apply log_ok_open|]. eexists _, _. split; [done|].
    rewrite app_nil_r. apply (log_ok_skip _ self); try done. cbn. lia.
Qed.

Lemma log_ok_acknowledge identity self log transition :
  log_ok identity self log → log_ok identity (acknowledge_without_output self transition).1 log.
Proof.
  intros Hlog. unfold acknowledge_without_output.
  destruct (Z.leb_spec (dt_sequence transition) (ic_last_transition_sequence self));
    [by apply (log_ok_skip _ self)|].
  destruct (negb _); [done|]. apply (log_ok_skip _ self); cbn; try done; [lia|..]; by destruct (ic_active self).
Qed.

Lemma log_ok_end identity self log at_ms snapshot :
  log_ok identity self log →
  let out := generation_ended self at_ms snapshot in log_ok identity out.1 (log ++ emitted out.2).
Proof.
  intros Hlog. unfold generation_ended. destruct (validate_snapshot _ _); [|cbn; by rewrite app_nil_r].
  destruct (ic_active self) as [active|] eqn:Hact; [|cbn; by rewrite app_nil_r].
  destruct (_ <=? _); [cbn; by rewrite app_nil_r|]. destruct (_ <? _); [cbn; by rewrite app_nil_r|].
  destruct (job _ _ _ _ _ _) as [j|e] eqn:Hj; [|cbn; by rewrite app_nil_r].
  pose proof (revision_of_ok _ _ _ _ _ _ _ Hj) as Hok. apply job_ok in Hj as [Hj _]. cbn [fst snd emitted].
  apply (log_ok_emit _ self); [done|by apply Hok|done|..].
  - rewrite Hact, Hj. by split_and!.
  - by rewrite Hj.
  - rewrite Hj. cbn. lia.
Qed.

Lemma log_ok_step identity self log op :
  log_ok identity self log → ∃ self' log', incident_step (self, log) op = Some (self', log') ∧ log_ok identity self' log'.
Proof.
  intros Hlog. destruct op as [t s|t|at_ms s]; cbn [incident_step].
  - destruct (log_ok_record identity self log t s Hlog) as (self' & res & -> & Hok). by eexists _, _.
  - eexists _, _. split; [done|]. by apply log_ok_acknowledge.
  - pose proof (log_ok_end identity self log at_ms s Hlog) as Hok. destruct (generation_ended _ _ _) as [self' res].
    by eexists _, _.
Qed.

Lemma log_ok_run identity ops : ∀ self log,
  log_ok identity self log → ∃ self' log', incident_run (self, log) ops = Some (self', log') ∧ log_ok identity self' log'.
Proof.
  induction ops as [|op ops IH]; intros self log Hlog; [by eexists _, _|].
  destruct (log_ok_step identity self log op Hlog) as (self' & log' & Hstep & Hlog').
  cbn [incident_run]. rewrite Hstep. by apply IH.
Qed.

(** Consuming a new transition: at most one revision, which is the transition's,
    or a failure after which it can be recorded again. *)
Definition consumes self transition self'
    (res : result IncidentRecorderError (option IncidentWriteJob)) : Prop :=
  match res with
  | Ok out =>
      ic_last_transition_sequence self' = dt_sequence transition ∧
      match out with
      | Some j =>
          ir_transition_sequence (job_revision j) = dt_sequence transition ∧
          ir_previous_state (job_revision j) = dt_previous_state transition ∧
          ir_current_state (job_revision j) = dt_current_state transition ∧
          ir_occurred_at_unix_ms (job_revision j) = dt_occurred_at_unix_ms transition
      | None => (ac_event_id <$> ic_active self') = (ac_event_id <$> ic_active self)
      end
  | Err _ =>
      ic_active self' = ic_active self ∧
      ic_last_transition_sequence self' = ic_last_transition_sequence self
  end.

Lemma continue_consumes self active transition snapshot :
  ic_active self = Some active →
  let out := continue_incident self active transition snapshot in
  consumes self transition out.1 out.2.
Proof.
  intros Hact. unfold continue_incident. destruct (open_code _) as [code|]; [|cbn; by rewrite Hact].
  destruct (_ <=? _); [done|]. destruct (job _ _ _ _ _ _) as [j|e] eqn:Hj; [|done].
  apply job_ok in Hj as [Hj _]. cbn. by rewrite Hj.
Qed.

Lemma open_consumes self transition snapshot :
  is_anomalous (dt_current_state transition) = true →
  ∃ self' res, open_incident self transition snapshot = Some (self', res) ∧
               consumes self transition self' res.
Proof.
  intros Ha. unfold open_incident. destruct (next_id _) as [src [id|e]]; [|by eexists _, _].
  destruct (anomalous_code _ Ha) as (code & -> & _).
  destruct (job _ _ _ _ _ _) as [j|e] eqn:Hj; [|by eexists _, _].
  apply job_ok in Hj as [Hj _]. eexists _, _. split; [done|]. cbn. by rewrite Hj.
Qed.

Lemma wedged_record self active transition snapshot :
  ic_active self = Some active → EVIDENCE_MAX_REVISIONS_PER_EVENT ≤ ac_revision active →
  ic_last_transition_sequence self < dt_sequence transition →
  (dt_sequence transition = ic_last_transition_sequence self + 1 →
   open_code (dt_current_state transition) ≠ None) →
  ic_last_transition_sequence self < U64_MAX →
  ∃ error, record self transition snapshot = Some (self, Err error).
Proof.
  intros Hact Hlim Hseq Hcode Hlast. unfold record. destruct (validate_snapshot _ _); [|by eexists].
  rewrite (proj2 (Z.leb_gt _ _)) by done. unfold saturating_add. rewrite Z.min_r by lia.
  destruct (Z.eqb_spec (dt_sequence transition) (ic_last_transition_sequence self + 1)) as [He|];
    [|by eexists].
  cbn [negb]. rewrite Hact. unfold continue_incident. destruct (open_code _); [|by destruct (Hcode He)].
  rewrite (proj2 (Z.leb_le _ _)) by done. by eexists.
Qed.

Lemma log_ok_new identity (source : S) : log_ok identity (IncidentRecorder_new identity source) [].
Proof. by constructor. Qed.

Lemma follows_positive l : ∀ r,
  1 ≤ ir_revision r → Sorted follows (r :: l) → Forall (λ r, 1 ≤ ir_revision r) (r :: l).
Proof.
  induction l as [|s l IH]; intros r Hr Hs; [by repeat constructor|]. constructor; [done|].
  inversion Hs as [|? ? Hs' Hd]; subst. inversion Hd as [|? ? [_ Hfollow]]; subst. apply IH; [|done].
  destruct (closing _); [by destruct Hfollow as (-> & _)|destruct Hfollow as (_ & -> & _); lia].
Qed.

Lemma log_revisions_range identity self log :
  log_ok identity self log → Forall (λ r, 1 ≤ ir_revision r ≤ EVIDENCE_MAX_REVISIONS_PER_EVENT) log.
Proof.
  intros [_ Hr Hh Hf _ _]. apply Forall_forall. intros r Hin. split.
  - destruct log as [|s log]; [by apply not_elem_of_nil in Hin|]. destruct (Hh s eq_refl) as [H1 _].
    assert (1 ≤ ir_revision s) as Hs by lia. pose proof (follows_positive _ _ Hs Hf) as Hall.
    rewrite Forall_forall in Hall. by apply Hall.
  - rewrite Forall_forall in Hr. destruct (Hr r Hin) as [Hv _ _ _ _]. unfold IncidentRevisionV1_validate in Hv.
    destruct (Z.ltb_spec EVIDENCE_MAX_REVISIONS_PER_EVENT (ir_revision r)); [|done].
    destruct (negb _), (_ =? _); done.
Qed.
End log.

(** A generation with a counting source of identifiers. *)
Module IncidentExample.
Definition Counter : Type := Z.
#[global] Instance counter_source : EventIdSource Counter :=
  λ n, (n + 1, Ok (mkEventId (vreplicate EVENT_ID_BYTES n))).

Definition name : InterfaceName := mkInterfaceName "veth0".
Definition identity : IncidentIdentity := mkIncidentIdentity name 7 42.
Definition recorder : IncidentRecorder Counter := IncidentRecorder_new identity 0.

Definition hooks : HookObservations :=
  [# RateExample.hook ExternalXdpIngress 1; RateExample.hook PhysicalTcEgress 1].
Definition snapshot : ObservationSnapshot :=
  mkObservationSnapshot OBSERVATION_SCHEMA_VERSION name 7 42 1000 VlanUnknown Healthy hooks
    (mkSamplingStatus None None 0 false) warming_detailed_rate_windows (BaselineReport_learning 1000)
    FingerprintReport_empty (DetectionReport_warming (mkRateIdentity 7 42) 1000).

(** The [n]-th transition of a storm that flaps between confirmed and cooldown. *)
Definition flap (n : nat) : DetectionTransition :=
  let '(previous, current) := if Nat.odd n then (DetectionCooldown, IngressStormConfirmed)
                              else (IngressStormConfirmed, DetectionCooldown) in
  mkDetectionTransition (Z.of_nat n) previous current StormAsserted (1000 + Z.of_nat n).

Definition flaps (n : nat) : list incident_op := (λ i, RecordOp (flap i) snapshot) <$> seq 1 n.

(** After sixteen transitions the incident has all its revisions. *)
Definition exhausted : IncidentRecorder Counter :=
  mkIncidentRecorder identity 1
    (Some (mkActiveIncident (mkEventId (vreplicate EVENT_ID_BYTES 0)) 16 1001 DetectionCooldown)) 16 0.
End IncidentExample.

(** ** Properties *)

(** C30: whatever is recorded, acknowledged or ended, in any order, the recorder
    never panics and its revisions form a log of well-separated incidents: every
    revision is valid and carries the recorder's interface generation; the first
    revision of an incident has number 1, an anomalous state and the alert code of
    that state, and opens at its own time; each later revision keeps the event
    identifier and opening time and adds one to the number, which never exceeds 16;
    an incident ends exactly with a revision whose code is [IncidentClosed] or
    [GenerationEnded], which carries the closing time, and only then can the next
    one open; transition sequences never decrease; and the incident the recorder
    holds open is the one of the last revision. *)
Theorem incident_log_invariant {S} `{EventIdSource S} (identity : IncidentIdentity) (source : S)
    (ops : list incident_op) :
  ∃ self log, incident_run (IncidentRecorder_new identity source, []) ops = Some (self, log) ∧
    log_ok identity self log ∧
    Forall (λ r, 1 ≤ ir_revision r ≤ EVIDENCE_MAX_REVISIONS_PER_EVENT) log.
Proof.
  destruct (log_ok_run identity ops (IncidentRecorder_new identity source) [] (log_ok_new _ _))
    as (self & log & Hrun & Hok).
  exists self, log. split_and!; [done|done|by eapply log_revisions_range].
Qed.

(** Five transitions of a flapping storm, a duplicate, the end of the generation. *)
Lemma incident_log_invariant_witness :
  let ops := IncidentExample.flaps 5 ++ [RecordOp (IncidentExample.flap 5) IncidentExample.snapshot;
                                         EndOp 2000 IncidentExample.snapshot] in
  (∃ self log, incident_run (IncidentExample.recorder, []) ops = Some (self, log) ∧
               length log = 6%nat ∧ ic_active self = None) ∧
  ∃ self log, incident_run (IncidentExample.recorder, []) ops = Some (self, log) ∧
    log_ok IncidentExample.identity self log ∧
    Forall (λ r, 1 ≤ ir_revision r ≤ EVIDENCE_MAX_REVISIONS_PER_EVENT) log.
Proof.
  split; [eexists _, _; split; [vm_compute; reflexivity|split; reflexivity]|].
  apply (incident_log_invariant IncidentExample.identity 0).
Defined.

(** Every transition is consumed exactly once and in order: on a snapshot of
    its generation, a transition already consumed is suppressed and only counted,
    a gap is refused without any change, and the next transition either is
    consumed, with at most one revision, which carries its sequence number and
    states, or fails and leaves the open incident and the sequence as they were,
    so that it can be recorded again. *)
Lemma record_exactly_once {S} `{EventIdSource S} (self : IncidentRecorder S)
    (transition : DetectionTransition) (snapshot : ObservationSnapshot)
    (Hsnapshot : validate_snapshot self snapshot = Ok tt)
    (Hlast : ic_last_transition_sequence self < U64_MAX) :
  ∃ self' res, record self transition snapshot = Some (self', res) ∧
    if decide (dt_sequence transition ≤ ic_last_transition_sequence self) then
      res = Ok None ∧ self' = suppress_duplicate self
    else if decide (dt_sequence transition = ic_last_transition_sequence self + 1) then
      consumes self transition self' res
    else res = Err TransitionGap ∧ self' = self.
Proof.
  unfold record. rewrite Hsnapshot. case_decide as Hdup.
  { rewrite (proj2 (Z.leb_le _ _) Hdup). by eexists _, _. }
  rewrite (proj2 (Z.leb_gt _ _)) by lia. unfold saturating_add. rewrite Z.min_r by lia.
  case_decide as Hnext.
  2: { rewrite (proj2 (Z.eqb_neq _ _)) by done. by eexists _, _. }
  rewrite (proj2 (Z.eqb_eq _ _)) by done. cbn [negb]. destruct (ic_active self) as [active|] eqn:Hact.
  - eexists _, _. split; [f_equal; apply surjective_pairing|].
    apply (continue_consumes self active transition snapshot Hact).
  - destruct (is_anomalous _) eqn:Ha; [by apply open_consumes|].
    eexists _, _. split; [done|]. split; [done|]. cbn. by rewrite Hact.
Qed.

Lemma record_exactly_once_witness :
  ∃ self' res,
    record IncidentExample.recorder (IncidentExample.flap 1) IncidentExample.snapshot = Some (self', res) ∧
    if decide (1 ≤ 0) then
      res = Ok None ∧ self' = suppress_duplicate IncidentExample.recorder
    else if decide (1 = 0 + 1) then
      consumes IncidentExample.recorder (IncidentExample.flap 1) self' res
    else res = Err TransitionGap ∧ self' = IncidentExample.recorder.
Proof.
  apply (record_exactly_once IncidentExample.recorder (IncidentExample.flap 1) IncidentExample.snapshot);
    [vm_compute; reflexivity|reflexivity].
Defined.

(** An incident that has reached its sixteenth revision wedges the recorder
    for the rest of its generation: when the next transition would need another
    revision, recording it fails, and so does every later transition; the incident
    can neither be updated nor closed, [generation_ended] fails as well, and no
    other incident of the generation is ever recorded. *)
Lemma revision_limit_wedges {S} `{EventIdSource S} (self : IncidentRecorder S) (active : ActiveIncident)
    (pending : list (DetectionTransition * ObservationSnapshot)) (log : list IncidentRevisionV1)
    (at_ms : Z) (snapshot : ObservationSnapshot)
    (Hactive : ic_active self = Some active)
    (Hlimit : EVIDENCE_MAX_REVISIONS_PER_EVENT ≤ ac_revision active)
    (Hunseen : Forall (λ p, ic_last_transition_sequence self < dt_sequence p.1) pending)
    (Hnext : Forall (λ p, dt_sequence p.1 = ic_last_transition_sequence self + 1 →
                          open_code (dt_current_state p.1) ≠ None) pending)
    (Hlast : ic_last_transition_sequence self < U64_MAX) :
  incident_run (self, log) ((λ p, RecordOp p.1 p.2) <$> pending) = Some (self, log) ∧
  ∃ error, generation_ended self at_ms snapshot = (self, Err error).
Proof.
  split.
  - induction pending as [|[t s] pending IH]; [done|]. apply Forall_cons in Hunseen as [Hu Hus], Hnext as [Hn Hns].
    assert (incident_step (self, log) (RecordOp t s) = Some (self, log)) as Hstep.
    { cbn [incident_step]. destruct (wedged_record self active t s) as [e ->]; [done..|]. cbn. by rewrite app_nil_r. }
    cbn [fmap list_fmap incident_run fst snd]. rewrite Hstep. by apply IH.
  - unfold generation_ended. destruct (validate_snapshot _ _); [|by eexists]. rewrite Hactive.
    rewrite (proj2 (Z.leb_le _ _)) by done. by eexists.
Qed.

(** The storm flaps on: the incident stays open, with its sixteen revisions, for ever. *)
Lemma revision_limit_wedges_witness :
  let pending := (λ i, (IncidentExample.flap i, IncidentExample.snapshot)) <$> seq 17 8 in
  (∃ log, incident_run (IncidentExample.recorder, []) (IncidentExample.flaps 16)
          = Some (IncidentExample.exhausted, log)) ∧
  incident_run (IncidentExample.exhausted, []) ((λ p, RecordOp p.1 p.2) <$> pending)
  = Some (IncidentExample.exhausted, []) ∧
  ∃ error, generation_ended IncidentExample.exhausted 5000 IncidentExample.snapshot
           = (IncidentExample.exhausted, Err error).
Proof.
  split; [eexists; vm_compute; reflexivity|].
  apply (revision_limit_wedges IncidentExample.exhausted
           (mkActiveIncident (mkEventId (vreplicate EVENT_ID_BYTES 0)) 16 1001 DetectionCooldown));
    [reflexivity|done|repeat constructor|by repeat constructor|reflexivity].
Defined.
