(* ===== verification/EvidenceStore.v ===== *)
(** The evidence store of [l2-loop-agent] ([evidence_store.rs]): incident revisions
    are committed to a directory tree by rename, an index of the newest revision of
    every event is rebuilt when the store is opened, and closed events are removed
    when the store or the file system is full.

    The file system, the file-system capacity and the sequence of temporary names
    are a class of operations on a world; JSON and SHA-256, which the store only
    calls, are a second class. *)
From stdpp Require Import pretty.
From S2P Require Import Prelude Domain Text Observation FrameHash Rate Baseline FingerprintWindow Detection Evidence.

Definition EVIDENCE_MAX_STORE_BYTES : Z := 1073741824.
Definition EVIDENCE_MAX_EVENTS : Z := 1000.
Definition EVIDENCE_MAX_CLOSED_AGE_MS : Z := 30 * 24 * 60 * 60 * 1000.
Definition EVIDENCE_MIN_FREE_RESERVE_BYTES : Z := 536870912.
Definition EVIDENCE_MIN_FREE_RESERVE_PERCENT : Z := 5.

(** ** Summaries *)
Inductive EvidenceIntegrity : Type := IntegrityValid | IntegrityCorrupt | IntegrityIncomplete.

Record EvidenceSummaryV1 : Type := mkEvidenceSummaryV1 {
  es_schema_version : Z;
  es_event_id : EventId;
  es_latest_revision : Z;
  es_interface : InterfaceName;
  es_ifindex : Z;
  es_interface_generation : Z;
  es_current_state : DetectionState;
  es_alert_code : AlertCode;
  es_severity : AlertSeverity;
  es_opened_at_unix_ms : Z;
  es_last_transition_at_unix_ms : Z;
  es_closed_at_unix_ms : option Z;
  es_bundle_bytes : Z;
  es_integrity : EvidenceIntegrity;
}.

Record EvidenceDetailV1 : Type := mkEvidenceDetailV1 {
  ed_summary : EvidenceSummaryV1;
  ed_latest : IncidentRevisionV1;
}.

Definition detail_from_revision (revision : IncidentRevisionV1) (bundle_bytes : Z) : EvidenceDetailV1 :=
  mkEvidenceDetailV1
    (mkEvidenceSummaryV1 EVIDENCE_SCHEMA_VERSION (ir_event_id revision) (ir_revision revision)
       (ir_interface revision) (ir_interface_index revision) (ir_interface_generation revision)
       (ir_current_state revision) (ir_alert_code revision) (ir_severity revision)
       (ir_opened_at_unix_ms revision) (ir_occurred_at_unix_ms revision) (ir_closed_at_unix_ms revision)
       bundle_bytes IntegrityValid)
    revision.

(** ** The file system *)
Inductive EvidenceFileType : Type := FileType | DirectoryType | SymlinkType | OtherType.

#[export] Instance EvidenceFileType_eq_dec : EqDecision EvidenceFileType.
Proof. solve_decision. Defined.

Record EvidenceMetadata : Type := mkEvidenceMetadata {
  mt_file_type : EvidenceFileType;
  mt_mode : Z;
  mt_uid : Z;
  mt_length : Z;
}.

Inductive EvidenceIoStep : Type :=
| CreateEvent | CreateTemporary | WriteEvidence | WriteManifest | SyncTemporary | Publish | SyncEvent.

(** The error kinds that the store tells apart. *)
Inductive IoErrorKind : Type := NotFoundKind | AlreadyExistsKind | OtherKind.

(** A path below the root of the store, which is the empty list. *)
Notation path := (list string).

Definition file_name (p : path) : string := default ""%string (last p).

Record FilesystemSpace : Type := mkFilesystemSpace {
  fs_total_bytes : Z;
  fs_available_bytes : Z;
}.

(** [EvidenceIo] and [FilesystemCapacity]; a name that is not UTF-8 is presented as
    the empty string.  [next_sequence] is the counter [TEMPORARY_SEQUENCE]. *)
Class EvidenceIo (W : Type) : Type := {
  checkpoint : W → EvidenceIoStep → W * result IoErrorKind unit;
  io_metadata : W → path → W * result IoErrorKind EvidenceMetadata;
  read_directory : W → path → W * result IoErrorKind (list path);
  read_file : W → path → W * result IoErrorKind (list Z);
  create_directory : W → path → Z → W * result IoErrorKind unit;
  write_file : W → path → list Z → Z → W * result IoErrorKind unit;
  sync_directory : W → path → W * result IoErrorKind unit;
  rename_noreplace : W → path → path → W * result IoErrorKind unit;
  remove_private_directory : W → path → W * result IoErrorKind unit;
  remove_event_directory : W → path → W * result IoErrorKind unit;
  capacity : W → W * result IoErrorKind FilesystemSpace;
  next_sequence : W → W * Z;
}.

(** [serde_json] and [sha2]. *)
Class EvidenceCodec : Type := {
  revision_to_json : IncidentRevisionV1 → option (list Z);
  revision_from_json : list Z → option IncidentRevisionV1;
  manifest_to_json : EvidenceManifestV1 → option (list Z);
  manifest_from_json : list Z → option EvidenceManifestV1;
  sha256 : list Z → list Z;
}.

(** ** The store *)
Inductive EvidenceStoreError : Type :=
| UnsafeRoot | InvalidRevision | RevisionTooLarge | RevisionConflict | RevisionSequence | EvidenceNotFound
| StoreIo | RetentionUnavailable.

Record EvidenceStoreHealth : Type := mkEvidenceStoreHealth {
  sh_available : bool;
  sh_corrupt_object_count : Z;
  sh_incomplete_object_count : Z;
  sh_unknown_object_count : Z;
  sh_event_count : Z;
  sh_total_bytes : Z;
}.

Definition EvidenceStoreHealth_default : EvidenceStoreHealth := mkEvidenceStoreHealth false 0 0 0 0 0.

Record StoreUsage : Type := mkStoreUsage {
  su_event_count : Z;
  su_total_bytes : Z;
  su_filesystem : FilesystemSpace;
  su_required_free_reserve : Z;
}.

Record RetentionOutcome : Type := mkRetentionOutcome {
  ro_deleted_event_ids : list EventId;
  ro_usage : StoreUsage;
}.

Record EvidencePage : Type := mkEvidencePage {
  ep_items : list EvidenceSummaryV1;
  ep_next_cursor : option EvidenceCursor;
}.

(** The vector of exactly [n] members, in a form that evaluates. *)
Fixpoint exact_vec {A} (n : nat) (l : list A) : option (vec A n) :=
  match n, l with
  | O, [] => Some [#]
  | S n, x :: l => vcons x <$> exact_vec n l
  | _, _ => None
  end.

Lemma exact_vec_to_list {A} n (v : vec A n) : exact_vec n (vec_to_list v) = Some v.
Proof. induction v as [|x n v IH]; [done|]. cbn. by rewrite IH. Qed.

#[export] Instance EventId_countable : Countable EventId.
Proof.
  apply (inj_countable (λ id, vec_to_list (event_bytes id)) (λ l, mkEventId <$> exact_vec EVENT_ID_BYTES l)).
  intros [bytes]. cbn [event_bytes]. by rewrite exact_vec_to_list.
Defined.

(** The derived order of [EventId]. *)
Definition event_id_cmp (x y : EventId) : comparison :=
  lex_cmp (vec_to_list (event_bytes x)) (vec_to_list (event_bytes y)).

Record LinuxEvidenceStore : Type := mkLinuxEvidenceStore {
  st_package_version : string;
  st_index : gmap EventId EvidenceDetailV1;
  st_health : EvidenceStoreHealth;
}.

(** Five percent of the total, without overflow. *)
Definition minimum_free_reserve (total_bytes : Z) : Z :=
  let percent := total_bytes / 100 * EVIDENCE_MIN_FREE_RESERVE_PERCENT
                 + total_bytes mod 100 * EVIDENCE_MIN_FREE_RESERVE_PERCENT / 100 in
  if EVIDENCE_MIN_FREE_RESERVE_BYTES <? percent then percent else EVIDENCE_MIN_FREE_RESERVE_BYTES.

Inductive RevisionReadError : Type := RevisionIncomplete | RevisionCorrupt.

Definition hex16 (v : Z) : string := String.string_of_list_ascii (hex_fixed 16 v).

Definition parse_revision_name (name : string) : option Z :=
  if negb (String.length name =? 16)%nat || negb (forallb is_lower_hex (string_bytes name)) then None
  else
    let revision := from_hex (string_bytes name) in
    if (0 <? revision) && (revision <=? EVIDENCE_MAX_REVISIONS_PER_EVENT) then Some revision else None.

(** [value.saturating_add(1)] on a u16 counter. *)
Definition increment (value : Z) : Z := saturating_add U16_MAX value 1.

Definition count_corrupt (h : EvidenceStoreHealth) : EvidenceStoreHealth :=
  mkEvidenceStoreHealth (sh_available h) (increment (sh_corrupt_object_count h)) (sh_incomplete_object_count h)
    (sh_unknown_object_count h) (sh_event_count h) (sh_total_bytes h).
Definition count_incomplete (h : EvidenceStoreHealth) : EvidenceStoreHealth :=
  mkEvidenceStoreHealth (sh_available h) (sh_corrupt_object_count h) (increment (sh_incomplete_object_count h))
    (sh_unknown_object_count h) (sh_event_count h) (sh_total_bytes h).
Definition count_unknown (h : EvidenceStoreHealth) : EvidenceStoreHealth :=
  mkEvidenceStoreHealth (sh_available h) (sh_corrupt_object_count h) (sh_incomplete_object_count h)
    (increment (sh_unknown_object_count h)) (sh_event_count h) (sh_total_bytes h).
Definition with_usage (h : EvidenceStoreHealth) (available : bool) (event_count total_bytes : Z)
    : EvidenceStoreHealth :=
  mkEvidenceStoreHealth available (sh_corrupt_object_count h) (sh_incomplete_object_count h)
    (sh_unknown_object_count h) event_count total_bytes.

Definition EVIDENCE_FILE : string := "evidence.json".
Definition MANIFEST_FILE : string := "manifest.json".

Section store.
Context {W : Type} `{EvidenceIo W} `{EvidenceCodec} (geteuid process_id : Z).
Implicit Types (w : W) (self : LinuxEvidenceStore) (p : path).

Definition sha256_hex (bytes : list Z) : string :=
  String.string_of_list_ascii (sha256 bytes ≫= byte_digits).

(** A directory of the effective user that nobody else can enter. *)
Definition is_private_directory (metadata : EvidenceMetadata) : bool :=
  bool_decide (mt_file_type metadata = DirectoryType) && (mt_mode metadata =? 448)
  && (mt_uid metadata =? geteuid).

Definition validate_root w : W * result EvidenceStoreError unit :=
  let* (w, metadata) := or_error (io_metadata w []) UnsafeRoot in
  if is_private_directory metadata then (w, Ok tt) else (w, Err UnsafeRoot).

Definition validate_private_directory w p : W * result EvidenceStoreError unit :=
  let* (w, metadata) := or_error (io_metadata w p) StoreIo in
  if is_private_directory metadata then (w, Ok tt) else (w, Err StoreIo).

Definition validate_private_file w p : W * result RevisionReadError unit :=
  let* (w, metadata) := or_error (io_metadata w p) RevisionIncomplete in
  if bool_decide (mt_file_type metadata = FileType) && (mt_mode metadata =? 384)
     && (mt_uid metadata =? geteuid) && negb (mt_length metadata =? 0)
     && (mt_length metadata <=? EVIDENCE_MAX_REVISION_BYTES)
  then (w, Ok tt) else (w, Err RevisionCorrupt).

Definition ensure_event_directory w (event_id : EventId) : W * result EvidenceStoreError path :=
  let p := [EventId_to_string event_id] in
  match io_metadata w p with
  | (w, Ok _) => let* (w, _) := validate_private_directory w p in (w, Ok p)
  | (w, Err NotFoundKind) =>
      let* (w, _) := or_error (checkpoint w CreateEvent) StoreIo in
      let* (w, _) := or_error (create_directory w p 448) StoreIo in
      let* (w, _) := or_error (sync_directory w []) StoreIo in
      (w, Ok p)
  | (w, Err _) => (w, Err StoreIo)
  end.

Definition temporary_name (revision sequence : Z) : string :=
  (".tmp-" +:+ hex16 revision +:+ "-" +:+ pretty process_id +:+ "-" +:+ hex16 sequence)%string.

(** The temporary directory and its two files. *)
Definition write_revision w (temporary : path) (evidence manifest : list Z) : W * result EvidenceStoreError unit :=
  let* (w, _) := or_error (checkpoint w CreateTemporary) StoreIo in
  let* (w, _) := or_error (create_directory w temporary 448) StoreIo in
  let* (w, _) := or_error (checkpoint w WriteEvidence) StoreIo in
  let* (w, _) := or_error (write_file w (temporary ++ [EVIDENCE_FILE]) evidence 384) StoreIo in
  let* (w, _) := or_error (checkpoint w WriteManifest) StoreIo in
  let* (w, _) := or_error (write_file w (temporary ++ [MANIFEST_FILE]) manifest 384) StoreIo in
  let* (w, _) := or_error (checkpoint w SyncTemporary) StoreIo in
  or_error (sync_directory w temporary) StoreIo.

(** The closure of [commit_revision]: everything up to the publication of the
    temporary directory. *)
Definition publish_revision w (event_dir temporary target : path) (evidence manifest : list Z)
    : W * result EvidenceStoreError unit :=
  let* (w, _) := write_revision w temporary evidence manifest in
  let* (w, _) := or_error (checkpoint w Publish) StoreIo in
  match rename_noreplace w temporary target with
  | (w, Err AlreadyExistsKind) => (w, Err RevisionConflict)
  | (w, Err _) => (w, Err StoreIo)
  | (w, Ok _) =>
      let* (w, _) := or_error (checkpoint w SyncEvent) StoreIo in
      or_error (sync_directory w event_dir) StoreIo
  end.

Definition commit_revision w (event_dir : path) (revision : Z) (evidence manifest : list Z)
    : W * result EvidenceStoreError unit :=
  let target := event_dir ++ [hex16 revision] in
  match io_metadata w target with
  | (w, Ok _) => (w, Err RevisionConflict)
  | (w, Err _) =>
      let (w, sequence) := next_sequence w in
      let temporary := event_dir ++ [temporary_name revision sequence] in
      match publish_revision w event_dir temporary target evidence manifest with
      | (w, Ok _) => (w, Ok tt)
      | (w, Err error) =>
          match io_metadata w temporary with
          | (w, Ok _) => ((remove_private_directory w temporary).1, Err error)
          | (w, Err _) => (w, Err error)
          end
      end
  end.

(** ** Recovery *)
Definition read_manifest w p (event_id : EventId) (revision_number : Z)
    : W * result RevisionReadError EvidenceManifestV1 :=
  let* (w, bytes) := or_error (read_file w (p ++ [MANIFEST_FILE])) RevisionCorrupt in
  match manifest_from_json bytes with
  | None => (w, Err RevisionCorrupt)
  | Some manifest =>
      if negb (is_ok (EvidenceManifestV1_validate manifest))
         || negb (bool_decide (em_event_id manifest = event_id))
         || negb (em_revision manifest =? revision_number)
      then (w, Err RevisionCorrupt) else (w, Ok manifest)
  end.

Definition read_evidence w p (event_id : EventId) (revision_number : Z) (manifest : EvidenceManifestV1)
    : W * result RevisionReadError IncidentRevisionV1 :=
  let* (w, bytes) := or_error (read_file w (p ++ [EVIDENCE_FILE])) RevisionCorrupt in
  if negb (Z.of_nat (length bytes) =? em_evidence_bytes manifest)
     || negb (bool_decide (sha256_hex bytes = em_evidence_sha256 manifest))
  then (w, Err RevisionCorrupt)
  else
    match revision_from_json bytes with
    | None => (w, Err RevisionCorrupt)
    | Some revision =>
        if negb (is_ok (IncidentRevisionV1_validate revision))
           || negb (bool_decide (ir_event_id revision = event_id))
           || negb (ir_revision revision =? revision_number)
           || negb (bool_decide (ir_current_state revision = em_current_state manifest))
           || negb (ir_schema_version revision =? em_schema_version manifest)
        then (w, Err RevisionCorrupt) else (w, Ok revision)
    end.

Definition read_revision w (event_id : EventId) (revision_number : Z) p
    : W * result RevisionReadError (IncidentRevisionV1 * EvidenceManifestV1) :=
  let* (w, _) := or_error (validate_private_directory w p) RevisionCorrupt in
  let* (w, entries) := or_error (read_directory w p) RevisionCorrupt in
  let evidence_path := p ++ [EVIDENCE_FILE] in
  let manifest_path := p ++ [MANIFEST_FILE] in
  if negb (bool_decide (evidence_path ∈ entries)) || negb (bool_decide (manifest_path ∈ entries))
  then (w, Err RevisionIncomplete)
  else if negb (length entries =? 2)%nat then (w, Err RevisionCorrupt)
  else
    let* (w, _) := validate_private_file w evidence_path in
    let* (w, _) := validate_private_file w manifest_path in
    let* (w, manifest) := read_manifest w p event_id revision_number in
    let* (w, revision) := read_evidence w p event_id revision_number manifest in
    (w, Ok (revision, manifest)).

(** The state of the loop of [recover_event]: the newest revision, the bytes and
    the counts. *)
Definition recovering : Type := option IncidentRevisionV1 * Z * EvidenceStoreHealth.

Definition adopt (acc : recovering) (revision : IncidentRevisionV1) (manifest : EvidenceManifestV1) : recovering :=
  let '(latest, event_bytes, health) := acc in
  let newer := match latest with None => true | Some current => ir_revision current <? ir_revision revision end in
  (if newer then Some revision else latest, saturating_add U64_MAX event_bytes (em_total_bytes manifest), health).

Definition recover_entry w (event_id : EventId) (acc : recovering) p : W * recovering :=
  let '(latest, event_bytes, health) := acc in
  if String.prefix ".tmp-" (file_name p) then (w, (latest, event_bytes, count_incomplete health))
  else
    match parse_revision_name (file_name p) with
    | None => (w, (latest, event_bytes, count_unknown health))
    | Some revision_number =>
        match read_revision w event_id revision_number p with
        | (w, Ok (revision, manifest)) => (w, adopt acc revision manifest)
        | (w, Err RevisionIncomplete) => (w, (latest, event_bytes, count_incomplete health))
        | (w, Err RevisionCorrupt) => (w, (latest, event_bytes, count_corrupt health))
        end
    end.

Fixpoint recover_entries w (event_id : EventId) (acc : recovering) (paths : list path) : W * recovering :=
  match paths with
  | [] => (w, acc)
  | p :: paths => let (w, acc) := recover_entry w event_id acc p in recover_entries w event_id acc paths
  end.

Definition recover_event w (event_id : EventId) p (health : EvidenceStoreHealth)
    : W * result EvidenceStoreError (option EvidenceDetailV1 * EvidenceStoreHealth) :=
  match validate_private_directory w p with
  | (w, Err _) => (w, Ok (None, count_corrupt health))
  | (w, Ok _) =>
      let* (w, paths) := or_error (read_directory w p) StoreIo in
      let '(w, (latest, event_bytes, health)) := recover_entries w event_id (None, 0, health) paths in
      (w, Ok ((λ revision, detail_from_revision revision event_bytes) <$> latest, health))
  end.

(** The state of the loop of [recover]: the index, the counts and the number of
    canonical event directories. *)
Definition scanning : Type := gmap EventId EvidenceDetailV1 * EvidenceStoreHealth * Z.

Definition scan_event w (acc : scanning) p : W * result EvidenceStoreError scanning :=
  let '(index, health, canonical_events) := acc in
  match EventId_from_str (file_name p) with
  | Err _ => (w, Ok (index, count_unknown health, canonical_events))
  | Ok event_id =>
      if negb (bool_decide (EventId_to_string event_id = file_name p)) || (EVIDENCE_MAX_EVENTS <=? canonical_events)
      then (w, Ok (index, count_unknown health, canonical_events))
      else
        let* (w, recovered) := recover_event w event_id p health in
        let '(detail, health) := recovered in
        match detail with
        | None => (w, Ok (index, health, canonical_events + 1))
        | Some detail =>
            let total := saturating_add U64_MAX (sh_total_bytes health) (es_bundle_bytes (ed_summary detail)) in
            (w, Ok (<[event_id := detail]> index,
                    with_usage health (sh_available health) (sh_event_count health) total, canonical_events + 1))
        end
  end.

Fixpoint scan_events w (acc : scanning) (paths : list path) : W * result EvidenceStoreError scanning :=
  match paths with
  | [] => (w, Ok acc)
  | p :: paths => let* (w, acc) := scan_event w acc p in scan_events w acc paths
  end.

(** [u16::try_from(self.index.len()).unwrap_or(u16::MAX)]. *)
Definition index_count (index : gmap EventId EvidenceDetailV1) : Z := Z.min U16_MAX (Z.of_nat (size index)).

Definition recover w self : W * LinuxEvidenceStore * result EvidenceStoreError unit :=
  let m :=
    let* (w, _) := validate_root w in
    let* (w, paths) := or_error (read_directory w []) UnsafeRoot in
    scan_events w (∅, with_usage EvidenceStoreHealth_default true 0 0, 0) paths in
  match m with
  | (w, Err error) => (w, self, Err error)
  | (w, Ok (index, health, _)) =>
      (w, mkLinuxEvidenceStore (st_package_version self) index
            (with_usage health (sh_available health) (index_count index) (sh_total_bytes health)), Ok tt)
  end.

(** The root of the store is fixed; its syntactic checks are left out. *)
Definition open w (package_version : string) : W * result EvidenceStoreError LinuxEvidenceStore :=
  if bool_decide (package_version = ""%string) || (64 <? String.length package_version)%nat
     || negb (is_ascii package_version)
  then (w, Err UnsafeRoot)
  else
    match recover w (mkLinuxEvidenceStore package_version ∅ EvidenceStoreHealth_default) with
    | (w, store, Ok _) => (w, Ok store)
    | (w, _, Err error) => (w, Err error)
    end.

(** ** Retention *)

(** A closed event: when it was closed, its identifier, its bytes. *)
Definition candidate : Type := Z * EventId * Z.

Definition candidate_cmp (x y : candidate) : comparison :=
  match x.1.1 ?= y.1.1 with Eq => event_id_cmp x.1.2 y.1.2 | order => order end.

Definition closed_candidate (entry : EventId * EvidenceDetailV1) : option candidate :=
  let '(event_id, detail) := entry in
  (λ closed_at, (closed_at, event_id, es_bundle_bytes (ed_summary detail)))
    <$> es_closed_at_unix_ms (ed_summary detail).

Definition retention_candidates self : list candidate :=
  sort_by candidate_cmp (omap closed_candidate (map_to_list (st_index self))).

Definition is_expired (now_unix_ms closed_at : Z) : bool :=
  is_some_and (checked_sub now_unix_ms closed_at) (λ age, EVIDENCE_MAX_CLOSED_AGE_MS <? age).

Definition store_fits (total_bytes incoming_bytes : Z) : bool :=
  is_some_and (checked_add U64_MAX total_bytes incoming_bytes) (λ bytes, bytes <=? EVIDENCE_MAX_STORE_BYTES).

(** With what deletions have freed so far, everything fits. *)
Definition loop_fits self (filesystem : FilesystemSpace) (reserve incoming_bytes reclaimed : Z) (deleted : nat) : bool :=
  store_fits (saturating_sub (sh_total_bytes (st_health self)) reclaimed) incoming_bytes
  && is_some_and (bytes ← checked_add U64_MAX (fs_available_bytes filesystem) reclaimed;
                  checked_sub bytes incoming_bytes) (λ bytes, reserve <=? bytes)
  && (saturating_sub (sh_event_count (st_health self)) (Z.of_nat deleted) <? EVIDENCE_MAX_EVENTS).

Definition delete_event w self (reclaimed : Z) (event_id : EventId) (bundle_bytes : Z)
    : W * LinuxEvidenceStore * result EvidenceStoreError Z :=
  let event_dir := [EventId_to_string event_id] in
  let m :=
    let* (w, _) := or_error (validate_private_directory w event_dir) RetentionUnavailable in
    if is_none_or (st_index self !! event_id)
         (λ detail, negb (es_bundle_bytes (ed_summary detail) =? bundle_bytes))
    then (w, Err RetentionUnavailable)
    else
      let* (w, _) := or_error (remove_event_directory w event_dir) RetentionUnavailable in
      or_error (sync_directory w []) RetentionUnavailable in
  match m with
  | (w, Err error) => (w, self, Err error)
  | (w, Ok _) =>
      let self := mkLinuxEvidenceStore (st_package_version self) (delete event_id (st_index self)) (st_health self) in
      (w, self, ok_or (checked_add U64_MAX reclaimed bundle_bytes) RetentionUnavailable)
  end.

Fixpoint retention_loop w self (now_unix_ms incoming_bytes reserve : Z) (filesystem : FilesystemSpace)
    (reclaimed : Z) (deleted : list EventId) (candidates : list candidate)
    : W * LinuxEvidenceStore * result EvidenceStoreError (Z * list EventId) :=
  match candidates with
  | [] => (w, self, Ok (reclaimed, deleted))
  | (closed_at, event_id, bundle_bytes) :: candidates =>
      if negb (is_expired now_unix_ms closed_at)
         && loop_fits self filesystem reserve incoming_bytes reclaimed (length deleted)
      then (w, self, Ok (reclaimed, deleted))
      else
        match delete_event w self reclaimed event_id bundle_bytes with
        | (w, self, Err error) => (w, self, Err error)
        | (w, self, Ok reclaimed) =>
            retention_loop w self now_unix_ms incoming_bytes reserve filesystem reclaimed
              (deleted ++ [event_id]) candidates
        end
  end.

Definition set_health self (health : EvidenceStoreHealth) : LinuxEvidenceStore :=
  mkLinuxEvidenceStore (st_package_version self) (st_index self) health.

(** What is checked again after the loop. *)
Definition finish_retention self (filesystem : FilesystemSpace) (reserve incoming_bytes reclaimed : Z)
    (deleted : list EventId) : LinuxEvidenceStore * result EvidenceStoreError RetentionOutcome :=
  let health := st_health self in
  let total_bytes := saturating_sub (sh_total_bytes health) reclaimed in
  let event_count := index_count (st_index self) in
  let available_after := saturating_add U64_MAX (fs_available_bytes filesystem) reclaimed in
  let space_fits := is_some_and (checked_sub available_after incoming_bytes) (λ bytes, reserve <=? bytes) in
  if negb (store_fits total_bytes incoming_bytes) || negb space_fits || (EVIDENCE_MAX_EVENTS <=? event_count)
  then (set_health self (with_usage health false event_count total_bytes), Err RetentionUnavailable)
  else
    (set_health self (with_usage health true event_count total_bytes),
     Ok (mkRetentionOutcome deleted
           (mkStoreUsage event_count total_bytes
              (mkFilesystemSpace (fs_total_bytes filesystem) available_after) reserve))).

Definition enforce_retention w self (now_unix_ms incoming_bytes : Z)
    : W * LinuxEvidenceStore * result EvidenceStoreError RetentionOutcome :=
  match validate_root w with
  | (w, Err error) => (w, self, Err error)
  | (w, Ok _) =>
      if EVIDENCE_MAX_EVENT_BYTES <? incoming_bytes then (w, self, Err RetentionUnavailable)
      else
        match capacity w with
        | (w, Err _) => (w, self, Err RetentionUnavailable)
        | (w, Ok filesystem) =>
            if fs_total_bytes filesystem <? fs_available_bytes filesystem then (w, self, Err RetentionUnavailable)
            else
              let reserve := minimum_free_reserve (fs_total_bytes filesystem) in
              match retention_loop w self now_unix_ms incoming_bytes reserve filesystem 0 []
                      (retention_candidates self) with
              | (w, self, Err error) => (w, self, Err error)
              | (w, self, Ok (reclaimed, deleted)) =>
                  let (self, outcome) := finish_retention self filesystem reserve incoming_bytes reclaimed deleted in
                  (w, self, outcome)
              end
        end
  end.

(** ** Commit *)
Definition set_total_bytes (manifest : EvidenceManifestV1) (total_bytes : Z) : EvidenceManifestV1 :=
  mkEvidenceManifestV1 (em_schema_version manifest) (em_event_id manifest) (em_revision manifest)
    (em_current_state manifest) (em_evidence_file manifest) (em_evidence_bytes manifest)
    (em_evidence_sha256 manifest) total_bytes (em_package_version manifest).

(** The manifest records its own length: the loop repeats until the length is
    stable.  The outer option is lack of fuel. *)
Fixpoint manifest_loop (fuel : nat) (manifest : EvidenceManifestV1)
    : option (result EvidenceStoreError (EvidenceManifestV1 * list Z)) :=
  match fuel with
  | O => None
  | S fuel =>
      match manifest_to_json manifest with
      | None => Some (Err StoreIo)
      | Some bytes =>
          match checked_add U64_MAX (em_evidence_bytes manifest) (Z.of_nat (length bytes)) with
          | None => Some (Err RevisionTooLarge)
          | Some total =>
              if em_total_bytes manifest =? total then Some (Ok (manifest, bytes))
              else manifest_loop fuel (set_total_bytes manifest total)
          end
      end
  end.

Definition MANIFEST_FUEL : nat := 32.

Definition first_manifest (revision : IncidentRevisionV1) (evidence : list Z) (package_version : string)
    : EvidenceManifestV1 :=
  let evidence_bytes := Z.of_nat (length evidence) in
  mkEvidenceManifestV1 EVIDENCE_SCHEMA_VERSION (ir_event_id revision) (ir_revision revision)
    (ir_current_state revision) EVIDENCE_FILE evidence_bytes (sha256_hex evidence) evidence_bytes package_version.

Definition build_manifest (revision : IncidentRevisionV1) (evidence : list Z) (package_version : string)
    : option (result EvidenceStoreError (EvidenceManifestV1 * list Z)) :=
  (λ built,
     manifest_bytes ← built;
     _ ← map_err (λ _, InvalidRevision) (EvidenceManifestV1_validate manifest_bytes.1);
     Ok manifest_bytes)
  <$> manifest_loop MANIFEST_FUEL (first_manifest revision evidence package_version).

Definition next_revision self (event_id : EventId) : Z :=
  match st_index self !! event_id with
  | Some detail => saturating_add U64_MAX (ir_revision (ed_latest detail)) 1
  | None => 1
  end.

(** A revision belongs to the incident that the index has under its identifier. *)
Definition same_incident (latest revision : IncidentRevisionV1) : bool :=
  bool_decide (ir_interface latest = ir_interface revision)
  && (ir_interface_index latest =? ir_interface_index revision)
  && (ir_interface_generation latest =? ir_interface_generation revision)
  && (ir_opened_at_unix_ms latest =? ir_opened_at_unix_ms revision).

Definition check_revision self (revision : IncidentRevisionV1) : result EvidenceStoreError unit :=
  _ ← map_err (λ _, InvalidRevision) (IncidentRevisionV1_validate revision);
  let expected := next_revision self (ir_event_id revision) in
  if negb (ir_revision revision =? expected)
  then Err (if ir_revision revision <? expected then RevisionConflict else RevisionSequence)
  else if is_some_and (st_index self !! ir_event_id revision)
            (λ previous, negb (same_incident (ed_latest previous) revision))
  then Err InvalidRevision else Ok tt.

Definition encode_revision (revision : IncidentRevisionV1) : result EvidenceStoreError (list Z) :=
  evidence ← ok_or (revision_to_json revision) InvalidRevision;
  if bool_decide (evidence = []) || (EVIDENCE_MAX_REVISION_BYTES <? Z.of_nat (length evidence))
  then Err RevisionTooLarge else Ok evidence.

(** The bytes of the event with the new revision, if they are within the bounds. *)
Definition check_bounds self (event_id : EventId) (manifest_bytes : Z) : result EvidenceStoreError Z :=
  let previous_event_bytes :=
    match st_index self !! event_id with Some detail => es_bundle_bytes (ed_summary detail) | None => 0 end in
  event_bytes ← ok_or (checked_add U64_MAX previous_event_bytes manifest_bytes) RevisionTooLarge;
  if (EVIDENCE_MAX_EVENT_BYTES <? event_bytes) || negb (store_fits (sh_total_bytes (st_health self)) manifest_bytes)
  then Err RevisionTooLarge
  else if is_none (st_index self !! event_id) && (EVIDENCE_MAX_EVENTS <=? Z.of_nat (size (st_index self)))
  then Err RevisionTooLarge
  else Ok event_bytes.

(** What [put] does before it writes; [None] is lack of fuel. *)
Definition prepare_put self (revision : IncidentRevisionV1)
    : option (result EvidenceStoreError (list Z * EvidenceManifestV1 * list Z * Z)) :=
  match (_ ← check_revision self revision; encode_revision revision) with
  | Err error => Some (Err error)
  | Ok evidence =>
      (λ built,
         manifest_bytes ← built;
         event_bytes ← check_bounds self (ir_event_id revision) (em_total_bytes manifest_bytes.1);
         Ok (evidence, manifest_bytes.1, manifest_bytes.2, event_bytes))
      <$> build_manifest revision evidence (st_package_version self)
  end.

(** The index and the counts after a commit. *)
Definition record_put self (revision : IncidentRevisionV1) (manifest_bytes event_bytes : Z) : LinuxEvidenceStore :=
  let health := st_health self in
  let event_count :=
    if is_none (st_index self !! ir_event_id revision)
    then saturating_add U16_MAX (sh_event_count health) 1 else sh_event_count health in
  mkLinuxEvidenceStore (st_package_version self)
    (<[ir_event_id revision := detail_from_revision revision event_bytes]> (st_index self))
    (with_usage health true event_count (saturating_add U64_MAX (sh_total_bytes health) manifest_bytes)).

Definition put w self (revision : IncidentRevisionV1)
    : option (W * LinuxEvidenceStore * result EvidenceStoreError EvidenceSummaryV1) :=
  match validate_root w with
  | (w, Err error) => Some (w, self, Err error)
  | (w, Ok _) =>
      (λ prepared,
         match prepared with
         | Err error => (w, self, Err error)
         | Ok (evidence, manifest, manifest_bytes, event_bytes) =>
             let m :=
               let* (w, event_dir) := ensure_event_directory w (ir_event_id revision) in
               commit_revision w event_dir (ir_revision revision) evidence manifest_bytes in
             match m with
             | (w, Err error) => (w, self, Err error)
             | (w, Ok _) =>
                 (w, record_put self revision (em_total_bytes manifest) event_bytes,
                  Ok (ed_summary (detail_from_revision revision event_bytes)))
             end
         end)
      <$> prepare_put self revision
  end.

(** ** Queries *)
Definition get self (event_id : EventId) : result EvidenceStoreError EvidenceDetailV1 :=
  ok_or (st_index self !! event_id) EvidenceNotFound.

(** Newest transition first. *)
Definition summary_cmp (left right : EvidenceSummaryV1) : comparison :=
  match es_last_transition_at_unix_ms right ?= es_last_transition_at_unix_ms left with
  | Eq => event_id_cmp (es_event_id left) (es_event_id right)
  | order => order
  end.

Definition matches_interface (query : EvidenceListQuery) (summary : EvidenceSummaryV1) : bool :=
  is_none_or (eq_interface query) (λ interface, bool_decide (es_interface summary = interface)).

Definition after_cursor (query : EvidenceListQuery) (summary : EvidenceSummaryV1) : bool :=
  is_none_or (eq_cursor query) (λ cursor,
    (es_last_transition_at_unix_ms summary <? ec_last_transition_at_unix_ms cursor)
    || ((es_last_transition_at_unix_ms summary =? ec_last_transition_at_unix_ms cursor)
        && bool_decide (event_id_cmp (es_event_id summary) (ec_event_id cursor) = Gt))).

Definition list_items self (query : EvidenceListQuery) : list EvidenceSummaryV1 :=
  sort_by summary_cmp
    (List.filter (after_cursor query)
       (List.filter (matches_interface query) ((λ entry, ed_summary entry.2) <$> map_to_list (st_index self)))).

(** [None] is the panic of [expect]. *)
Definition list_events self (query : EvidenceListQuery) : option EvidencePage :=
  let items := list_items self query in
  let limit := Z.to_nat (eq_limit query) in
  let page := take limit items in
  if (limit <? length items)%nat then
    final ← last page;
    Some (mkEvidencePage page (Some (EvidenceCursor_new (eq_interface query)
            (es_last_transition_at_unix_ms final) (es_event_id final))))
  else Some (mkEvidencePage page None).
End store.
