(* ===== verification/EvidenceTree.v ===== *)
(** A file system for the evidence store: a tree of directories and files whose
    calls take effect at once, and that can stop after a number of calls, as when
    the process dies.  It keeps the trees it has had since it was last synchronised:
    a loss of power may go back to any of them.  With it come a codec for the revisions of two small events,
    which the instances of the theorems use. *)
From S2P Require Import Prelude Domain Text Observation FrameHash Rate Baseline FingerprintWindow Detection Evidence Snapshot Incident EvidenceStore.

(** ** Trees *)
Inductive node : Type :=
| DirNode (mode uid : Z)
| FileNode (mode uid : Z) (bytes : list Z).

Definition node_metadata (n : node) (m : EvidenceMetadata) : Prop :=
  match n with
  | DirNode mode uid => mt_file_type m = DirectoryType ∧ mt_mode m = mode ∧ mt_uid m = uid
  | FileNode mode uid bytes =>
      mt_file_type m = FileType ∧ mt_mode m = mode ∧ mt_uid m = uid ∧ mt_length m = Z.of_nat (length bytes)
  end.

Notation tree := (gmap path node).

(** ** A disk *)
Module TreeDisk.
Record disk : Type := mkdisk {
  dk_nodes : list (path * node);
  dk_calls : option nat;
  dk_sequence : Z;
  dk_space : FilesystemSpace;
  dk_earlier : list (list (path * node));
}.

Definition with_nodes (w : disk) (l : list (path * node)) : disk :=
  mkdisk l (dk_calls w) (dk_sequence w) (dk_space w) (dk_nodes w :: dk_earlier w).

Definition synchronised (w : disk) : disk := mkdisk (dk_nodes w) (dk_calls w) (dk_sequence w) (dk_space w) [].

Definition nodes_tree (l : list (path * node)) : tree := list_to_map l.

(** A call on a disk that still answers. *)
Definition call {A} (w : disk) (f : disk → disk * result IoErrorKind A) : disk * result IoErrorKind A :=
  match dk_calls w with
  | None => f w
  | Some O => (w, Err OtherKind)
  | Some (S n) => f (mkdisk (dk_nodes w) (Some n) (dk_sequence w) (dk_space w) (dk_earlier w))
  end.

Definition below (p q : path) : bool := bool_decide (p `prefix_of` q).

Fixpoint find_node (l : list (path * node)) (p : path) : option node :=
  match l with [] => None | (q, n) :: l => if decide (q = p) then Some n else find_node l p end.

Definition free (l : list (path * node)) (p : path) : bool := forallb (λ entry, negb (below p entry.1)) l.

Definition is_child (p q : path) : bool := (length q =? S (length p))%nat && below p q.

Definition children (l : list (path * node)) (p : path) : list path := List.filter (is_child p) (remove_dups l.*1).

Definition prune (p : path) (l : list (path * node)) : list (path * node) :=
  List.filter (λ entry, negb (below p entry.1)) l.

Definition relocate (from target q : path) : path := if below from q then target ++ drop (length from) q else q.

Definition move (from target : path) (l : list (path * node)) : list (path * node) :=
  prod_map (relocate from target) id <$> l.

Definition metadata_of (n : node) : EvidenceMetadata :=
  match n with
  | DirNode mode uid => mkEvidenceMetadata DirectoryType mode uid 4096
  | FileNode mode uid bytes => mkEvidenceMetadata FileType mode uid (Z.of_nat (length bytes))
  end.

Definition uid : Z := 0.

Definition create (w : disk) (p : path) (n : node) : disk * result IoErrorKind unit :=
  if is_some (find_node (dk_nodes w) (removelast p)) then
    if free (dk_nodes w) p then (with_nodes w ((p, n) :: dk_nodes w), Ok tt) else (w, Err AlreadyExistsKind)
  else (w, Err NotFoundKind).

#[export] Instance disk_io : EvidenceIo disk := {
  checkpoint w _ := call w (λ w, (w, Ok tt));
  io_metadata w p := call w (λ w,
    match find_node (dk_nodes w) p with Some n => (w, Ok (metadata_of n)) | None => (w, Err NotFoundKind) end);
  read_directory w p := call w (λ w,
    match find_node (dk_nodes w) p with Some (DirNode _ _) => (w, Ok (children (dk_nodes w) p)) | _ => (w, Err NotFoundKind) end);
  read_file w p := call w (λ w,
    match find_node (dk_nodes w) p with Some (FileNode _ _ bytes) => (w, Ok bytes) | _ => (w, Err NotFoundKind) end);
  create_directory w p mode := call w (λ w, create w p (DirNode mode uid));
  write_file w p bytes mode := call w (λ w, create w p (FileNode mode uid bytes));
  sync_directory w p := call w (λ w, (synchronised w, Ok tt));
  rename_noreplace w from target := call w (λ w,
    if free (dk_nodes w) target then (with_nodes w (move from target (dk_nodes w)), Ok tt) else (w, Err AlreadyExistsKind));
  remove_private_directory w p := call w (λ w, (with_nodes w (prune p (dk_nodes w)), Ok tt));
  remove_event_directory w p := call w (λ w, (with_nodes w (prune p (dk_nodes w)), Ok tt));
  capacity w := call w (λ w, (w, Ok (dk_space w)));
  next_sequence w := (mkdisk (dk_nodes w) (dk_calls w) (dk_sequence w + 1) (dk_space w) (dk_earlier w), dk_sequence w);
}.

(** A disk with ten gigabytes, half of them free. *)
Definition empty : disk := mkdisk [([], DirNode 448 uid)] None 1 (mkFilesystemSpace 10000000000 5000000000) [].

Lemma lookup_nodes l p : nodes_tree l !! p = find_node l p.
Proof.
  unfold nodes_tree. induction l as [|[q n] l IH]; [done|]. cbn. destruct (decide (q = p)) as [->|].
  - by rewrite lookup_insert_eq.
  - by rewrite lookup_insert_ne.
Qed.

Lemma below_spec p q : below p q = true ↔ ∃ s, q = p ++ s.
Proof. unfold below. rewrite bool_decide_eq_true. done. Qed.

Lemma free_spec l p : free l p = true → ∀ s, find_node l (p ++ s) = None.
Proof.
  induction l as [|[q n] l IH]; [done|]. cbn. intros [Hq Hl]%andb_true_iff s. destruct (decide (q = p ++ s)) as [->|].
  - exfalso. apply negb_true_iff, not_true_iff_false in Hq. apply Hq, below_spec. eauto.
  - by apply IH.
Qed.

Lemma find_prune l p q : find_node (prune p l) q = if below p q then None else find_node l q.
Proof.
  induction l as [|[r n] l IH]; [by destruct (below p q)|]. cbn. fold (prune p l). destruct (below p r) eqn:Hr; cbn; rewrite IH.
  - destruct (decide (r = q)) as [->|]; [by rewrite Hr|done].
  - destruct (decide (r = q)) as [->|]; [by rewrite Hr|done].
Qed.

Lemma find_move l from target s :
  free l target = true → find_node (move from target l) (target ++ s) = find_node l (from ++ s).
Proof.
  induction l as [|[q n] l IH]; [done|]. cbn. intros [Hq Hl]%andb_true_iff.
  fold (move from target l). rewrite IH by done. unfold relocate.
  destruct (below from q) eqn:Hb.
  - apply below_spec in Hb as [k ->]. rewrite drop_app_length.
    destruct (decide (target ++ k = target ++ s)) as [->%app_inv_head|Hne]; [by rewrite decide_True|].
    rewrite decide_False; [done|]. intros ->%app_inv_head. done.
  - rewrite !decide_False; [done|..].
    + intros ->. apply not_true_iff_false in Hb. apply Hb, below_spec. eauto.
    + intros ->. apply negb_true_iff, not_true_iff_false in Hq. apply Hq, below_spec. eauto.
Qed.

Lemma find_move_other l from target q :
  below from q = false → below target q = false → find_node (move from target l) q = find_node l q.
Proof.
  intros Hf Ht. induction l as [|[r n] l IH]; [done|]. cbn. fold (move from target l).
  rewrite IH. unfold relocate. destruct (below from r) eqn:Hr; [|done].
  rewrite !decide_False; [done|..].
  - intros ->. congruence.
  - intros <-. apply not_true_iff_false in Ht. apply Ht, below_spec. eauto.
Qed.

Lemma find_move_gone l from target q :
  below from q = true → below target q = false → find_node (move from target l) q = None.
Proof.
  intros Hf Ht. induction l as [|[r n] l IH]; [done|]. cbn. fold (move from target l).
  rewrite decide_False; [exact IH|]. unfold relocate. destruct (below from r) eqn:Hr; [|congruence].
  intros <-. apply not_true_iff_false in Ht. apply Ht, below_spec. eauto.
Qed.

Lemma children_spec l p q : q ∈ children l p ↔ ∃ name, q = p ++ [name] ∧ is_Some (find_node l q).
Proof.
  assert (q ∈ l.*1 ↔ is_Some (find_node l q)) as Hin.
  { induction l as [|[r n] l IH]; cbn; [rewrite elem_of_nil; split; [done|by intros [? ?]]|]. rewrite elem_of_cons, IH.
    destruct (decide (r = q)) as [->|]; [split; eauto|naive_solver]. }
  unfold children. rewrite list_elem_of_In, filter_In, <-list_elem_of_In, elem_of_remove_dups, Hin.
  unfold is_child. rewrite andb_true_iff, Nat.eqb_eq, below_spec. split.
  - intros (Hs & Hl & s & ->). rewrite length_app in Hl. destruct s as [|name [|]]; cbn in Hl; [lia| |lia]. by exists name.
  - intros (name & -> & Hs). split_and!; [done|rewrite length_app; cbn; lia|by exists [name]].
Qed.

Lemma children_NoDup l p : NoDup (children l p).
Proof.
  unfold children. eapply sublist_NoDup; [exact (NoDup_remove_dups l.*1)|].
  generalize (remove_dups l.*1). intros k. induction k as [|q k IH]; [done|]. cbn. destruct (is_child p q); by constructor.
Qed.

Lemma children_names l p : NoDup (file_name <$> children l p).
Proof.
  apply NoDup_fmap_2_strong; [|apply children_NoDup]. intros q r Hq Hr.
  apply children_spec in Hq as (name & -> & _). apply children_spec in Hr as (name' & -> & _).
  unfold file_name. rewrite !last_snoc. cbn. by intros ->.
Qed.
End TreeDisk.

(** ** Two small events *)
Module EvidenceSample.
Definition event (n : Z) : EventId := mkEventId (vreplicate EVENT_ID_BYTES n).

Definition revision (n number : Z) (closed_at_unix_ms : option Z) : IncidentRevisionV1 :=
  revision_of IncidentExample.recorder (mkActiveIncident (event n) number 1001 DetectionCooldown)
    (IncidentExample.flap 1) IncidentClosed closed_at_unix_ms IncidentExample.snapshot.

Definition event_number (id : EventId) : Z := default 0 (vec_to_list (event_bytes id) !! 0%nat).

Definition VERSION : string := "0.1.0".

(** The fields that tell the sample revisions and their manifests apart. *)
#[export] Instance sample_codec : EvidenceCodec := {
  revision_to_json r :=
    Some [event_number (ir_event_id r); ir_revision r; default 0 (ir_closed_at_unix_ms r)];
  revision_from_json text :=
    match text with
    | [n; number; closed] => Some (revision n number (if closed =? 0 then None else Some closed))
    | _ => None
    end;
  manifest_to_json m :=
    Some ([event_number (em_event_id m); em_revision m; em_evidence_bytes m; em_total_bytes m]
          ++ replicate (decimal_length (em_total_bytes m)) 0);
  manifest_from_json text :=
    match text with
    | n :: number :: evidence_bytes :: total :: _ =>
        Some (mkEvidenceManifestV1 EVIDENCE_SCHEMA_VERSION (event n) number IngressStormConfirmed EVIDENCE_FILE
                evidence_bytes (String.string_of_list_ascii (replicate 32 0 ≫= byte_digits)) total VERSION)
    | _ => None
    end;
  sha256 _ := replicate 32 0;
}.

Import TreeDisk.

Definition store : LinuxEvidenceStore := mkLinuxEvidenceStore VERSION ∅ (with_usage EvidenceStoreHealth_default true 0 0).

Definition put_one (s : disk * LinuxEvidenceStore) (r : IncidentRevisionV1) : disk * LinuxEvidenceStore :=
  match put uid 1 s.1 s.2 r with Some (w, self, Ok _) => (w, self) | _ => s end.

(** A store with a closed event and one that is open. *)
Definition filled : disk * LinuxEvidenceStore :=
  put_one (put_one (put_one (empty, store) (revision 1 1 None)) (revision 1 2 (Some 2000))) (revision 2 1 None).
End EvidenceSample.
