(* ===== verification/EvidenceStoreFacts.v ===== *)
(** What the evidence store guarantees: its accounting, retention, the pages of a
    list and the length of a manifest. *)
From S2P Require Import Prelude Domain Text Observation FrameHash Rate Baseline FingerprintWindow Detection Evidence EvidenceStore EvidenceTree.

(** ** The reserve *)
Lemma minimum_free_reserve_spec total :
  minimum_free_reserve total = Z.max 536870912 (total * 5 / 100).
Proof.
  unfold minimum_free_reserve, EVIDENCE_MIN_FREE_RESERVE_PERCENT, EVIDENCE_MIN_FREE_RESERVE_BYTES.
  assert (total * 5 / 100 = total / 100 * 5 + total mod 100 * 5 / 100) as ->.
  { rewrite (Z.div_mod total 100) at 1 by lia.
    replace ((100 * (total / 100) + total mod 100) * 5) with (total / 100 * 5 * 100 + total mod 100 * 5) by lia.
    by rewrite Z.div_add_l by lia. }
  destruct (Z.ltb_spec 536870912 (total / 100 * 5 + total mod 100 * 5 / 100)); lia.
Qed.

(** ** Orders *)
Lemma event_id_cmp_antisym x y : event_id_cmp y x = CompOpp (event_id_cmp x y).
Proof. apply lex_cmp_antisym. Qed.

Lemma event_id_cmp_Eq x y : event_id_cmp x y = Eq → x = y.
Proof.
  destruct x as [x], y as [y]. unfold event_id_cmp. cbn. intros Heq%lex_cmp_Eq. f_equal.
  by apply vec_to_list_inj2.
Qed.

Lemma event_id_cmp_trans x y z : event_id_cmp x y = Lt → event_id_cmp y z = Lt → event_id_cmp x z = Lt.
Proof. apply lex_cmp_trans. Qed.

Lemma candidate_cmp_antisym x y : candidate_cmp y x = CompOpp (candidate_cmp x y).
Proof.
  unfold candidate_cmp. rewrite (Z.compare_antisym x.1.1). destruct (x.1.1 ?= y.1.1); [|done..].
  apply event_id_cmp_antisym.
Qed.

Lemma summary_cmp_antisym x y : summary_cmp y x = CompOpp (summary_cmp x y).
Proof.
  unfold summary_cmp. rewrite (Z.compare_antisym (es_last_transition_at_unix_ms y)).
  destruct (_ ?= _); [|done..]. apply event_id_cmp_antisym.
Qed.

#[export] Instance summary_lt_trans : Transitive (cmp_lt summary_cmp).
Proof.
  intros x y z. unfold cmp_lt, summary_cmp.
  destruct (Z.compare_spec (es_last_transition_at_unix_ms y) (es_last_transition_at_unix_ms x)),
    (Z.compare_spec (es_last_transition_at_unix_ms z) (es_last_transition_at_unix_ms y)),
    (Z.compare_spec (es_last_transition_at_unix_ms z) (es_last_transition_at_unix_ms x));
    try done; try lia. apply event_id_cmp_trans.
Qed.

#[export] Instance summary_lt_antisymm : AntiSymm (=) (cmp_lt summary_cmp).
Proof. intros x y Hxy Hyx. unfold cmp_lt in *. rewrite summary_cmp_antisym, Hxy in Hyx. done. Qed.

(** Distinct events make the order strict. *)
Lemma sort_summaries_strict l :
  NoDup (es_event_id <$> l) → StronglySorted (cmp_lt summary_cmp) (sort_by summary_cmp l).
Proof.
  intros Hnd. assert (NoDup (es_event_id <$> sort_by summary_cmp l)) as Hnd' by by rewrite sort_by_Permutation.
  pose proof (sort_by_sorted _ summary_cmp_antisym l) as Hs. clear Hnd. apply (Sorted_StronglySorted (cmp_lt summary_cmp)).
  induction Hs as [|x k Hs IH Hd]; [constructor|]. rewrite fmap_cons in Hnd'. apply NoDup_cons in Hnd' as [Hx Hnd'].
  constructor; [by apply IH|]. destruct Hd as [|y k Hxy]; constructor. unfold cmp_le, cmp_lt in *.
  destruct (summary_cmp x y) eqn:Hc; [|done|done]. exfalso. apply Hx. unfold summary_cmp in Hc.
  destruct (_ ?= _); try done. apply event_id_cmp_Eq in Hc as ->. left.
Qed.

Lemma filter_ids_NoDup f (l : list EvidenceSummaryV1) :
  NoDup (es_event_id <$> l) → NoDup (es_event_id <$> List.filter f l).
Proof.
  intros Hnd. eapply sublist_NoDup; [exact Hnd|]. apply fmap_sublist.
  clear. induction l as [|x l IH]; [done|]. cbn. destruct (f x); by constructor.
Qed.

Lemma filter_sort_summaries f l :
  NoDup (es_event_id <$> l) →
  sort_by summary_cmp (List.filter f l) = List.filter f (sort_by summary_cmp l).
Proof.
  intros Hnd. assert (∀ k, StronglySorted (cmp_lt summary_cmp) k → StronglySorted (cmp_lt summary_cmp) (List.filter f k)) as Hf.
  { induction 1 as [|x k Hk IH Hall]; [constructor|]. cbn. destruct (f x); [|done]. constructor; [done|].
    rewrite Forall_forall in *. intros y Hy. apply Hall. apply list_elem_of_In in Hy. apply list_elem_of_In.
    by apply filter_In in Hy as [? _]. }
  assert (∀ k k' : list EvidenceSummaryV1, k ≡ₚ k' → List.filter f k ≡ₚ List.filter f k') as Hp.
  { intros k k'. induction 1 as [|x k k' _ IH|x y k|]; cbn; [done|..].
    - destruct (f x); [by rewrite IH|done].
    - destruct (f x), (f y); try done. apply Permutation_swap.
    - by etrans. }
  apply (StronglySorted_unique (cmp_lt summary_cmp)).
  - by apply sort_summaries_strict, filter_ids_NoDup.
  - by apply Hf, sort_summaries_strict.
  - rewrite sort_by_Permutation. symmetry. apply Hp, sort_by_Permutation.
Qed.

(** In a strict order, what comes after a member is what is greater. *)
Lemma filter_after_member l1 x l2 :
  StronglySorted (cmp_lt summary_cmp) (l1 ++ x :: l2) →
  List.filter (λ s, bool_decide (summary_cmp x s = Lt)) (l1 ++ x :: l2) = l2.
Proof.
  intros Hs. apply StronglySorted_app in Hs as (Hlt & _ & Hs). apply StronglySorted_inv in Hs as [_ Hall].
  rewrite List.filter_app. cbn. rewrite bool_decide_eq_false_2.
  2: { intros Hxx. pose proof (summary_cmp_antisym x x) as Ha. rewrite Hxx in Ha. done. }
  assert (List.filter (λ s, bool_decide (summary_cmp x s = Lt)) l1 = []) as ->.
  { assert (Forall (λ y, cmp_lt summary_cmp y x) l1) as H1.
    { apply Forall_forall. intros y Hy. apply Hlt; [done|left]. }
    clear -H1. induction H1 as [|y l1 Hy _ IH]; [done|]. cbn. rewrite bool_decide_eq_false_2; [done|].
    unfold cmp_lt in Hy. rewrite summary_cmp_antisym, Hy. done. }
  cbn. clear Hlt. induction Hall as [|y l2 Hy _ IH]; [done|]. cbn. rewrite bool_decide_eq_true_2 by done. by f_equal.
Qed.

(** ** Pages *)
Definition index_ok (index : gmap EventId EvidenceDetailV1) : Prop :=
  ∀ id detail, index !! id = Some detail → es_event_id (ed_summary detail) = id.

Section pages.
Context (self : LinuxEvidenceStore) (Hindex : index_ok (st_index self)).
Implicit Types (query : EvidenceListQuery).

Definition with_cursor query (cursor : option EvidenceCursor) : EvidenceListQuery :=
  mkEvidenceListQuery (eq_interface query) (eq_limit query) cursor.

(** Every event of the index that the query asks for, newest transition first. *)
Definition all_items query : list EvidenceSummaryV1 := list_items self (with_cursor query None).

(** Following the cursors from the first page on. *)
Fixpoint follow_pages (fuel : nat) query : option (list EvidencePage) :=
  match fuel with
  | O => None
  | S fuel =>
      page ← list_events self query;
      match ep_next_cursor page with
      | None => Some [page]
      | Some cursor =>
          pages ← follow_pages fuel (with_cursor query (Some cursor));
          Some (page :: pages)
      end
  end.

Lemma index_ids_NoDup :
  NoDup (es_event_id <$> ((λ entry, ed_summary entry.2) <$> map_to_list (st_index self))).
Proof.
  rewrite <-list_fmap_compose.
  assert ((es_event_id ∘ (λ entry : EventId * EvidenceDetailV1, ed_summary entry.2)) <$> map_to_list (st_index self)
    = (map_to_list (st_index self)).*1) as ->; [|apply NoDup_fst_map_to_list].
  apply list_fmap_ext. intros i [id detail] Hi. cbn. apply Hindex. apply elem_of_map_to_list.
  by eapply list_elem_of_lookup_2.
Qed.

Lemma all_items_strict query : StronglySorted (cmp_lt summary_cmp) (all_items query).
Proof. apply sort_summaries_strict. repeat apply filter_ids_NoDup. apply index_ids_NoDup. Qed.

Lemma list_items_cursor query interface x :
  list_items self (with_cursor query
    (Some (EvidenceCursor_new interface (es_last_transition_at_unix_ms x) (es_event_id x))))
  = List.filter (λ s, bool_decide (summary_cmp x s = Lt)) (all_items query).
Proof.
  unfold all_items, list_items. rewrite <-filter_sort_summaries.
  2: { repeat apply filter_ids_NoDup. apply index_ids_NoDup. }
  f_equal. change (matches_interface (with_cursor query None)) with (matches_interface query).
  change (matches_interface (with_cursor query _)) with (matches_interface query).
  generalize (List.filter (matches_interface query) ((λ entry, ed_summary entry.2) <$> map_to_list (st_index self))) as l.
  intros l. assert (List.filter (after_cursor (with_cursor query None)) l = l) as ->.
  { induction l as [|y l IH]; [done|]. cbn. by f_equal. }
  apply filter_ext. intros y. unfold after_cursor, summary_cmp. cbn.
  rewrite (event_id_cmp_antisym (es_event_id x) (es_event_id y)).
  destruct (Z.compare_spec (es_last_transition_at_unix_ms y) (es_last_transition_at_unix_ms x)) as [Heq|Hlt|Hgt].
  - rewrite Heq, Z.ltb_irrefl, Z.eqb_refl. cbn. apply bool_decide_ext.
    by destruct (event_id_cmp (es_event_id x) (es_event_id y)).
  - rewrite (proj2 (Z.ltb_lt _ _)) by done. done.
  - rewrite (proj2 (Z.ltb_ge _ _)), (proj2 (Z.eqb_neq _ _)) by lia. done.
Qed.

Lemma follow_pages_suffix query don l fuel :
  1 ≤ eq_limit query → all_items query = don ++ l → list_items self query = l → (length l < fuel)%nat →
  ∃ pages, follow_pages fuel query = Some pages ∧ (pages ≫= ep_items) = l ∧
    Forall (λ page, (length (ep_items page) ≤ Z.to_nat (eq_limit query))%nat) pages.
Proof.
  intros Hlim. remember (all_items query) as all eqn:Hall.
  revert query don l Hlim Hall. induction fuel as [|fuel IH]; intros query don l Hlim Hall Heq Hl Hfuel; [lia|].
  cbn [follow_pages]. unfold list_events. rewrite Hl.
  destruct (Nat.ltb_spec (Z.to_nat (eq_limit query)) (length l)) as [Hmore|Hless].
  - set (limit := Z.to_nat (eq_limit query)) in *.
    assert (∃ page x, take limit l = page ++ [x]) as (page & x & Hpage).
    { assert (take limit l ≠ []) as Hne.
      { intros Hnil. apply (f_equal length) in Hnil. rewrite length_take in Hnil. cbn in Hnil. subst limit. lia. }
      destruct (exists_last Hne) as (page & x & ?). by exists page, x. }
    rewrite Hpage, last_snoc. cbn [mbind option_bind ep_next_cursor].
    pose proof (take_drop limit l) as Htd. rewrite Hpage in Htd.
    set (cursor := EvidenceCursor_new (eq_interface query) (es_last_transition_at_unix_ms x) (es_event_id x)).
    assert (list_items self (with_cursor query (Some cursor)) = drop limit l) as Hnext.
    { unfold cursor. rewrite list_items_cursor, <-Hall, Heq. pose proof (all_items_strict query) as Hs.
      rewrite <-Hall, Heq in Hs. rewrite <-app_assoc in Htd. cbn [app] in Htd.
      rewrite <-Htd in Hs at 1. rewrite <-Htd at 1. rewrite app_assoc in Hs |- *. by apply filter_after_member. }
    destruct (IH (with_cursor query (Some cursor)) (don ++ take limit l) (drop limit l)) as (pages & Hp & Hi & Hb); try done.
    + rewrite Heq, <-app_assoc. f_equal. by rewrite take_drop.
    + rewrite length_drop. subst limit. lia.
    + rewrite Hp. cbn [mbind option_bind]. eexists. split; [done|]. rewrite bind_cons. cbn [ep_items]. split.
      * rewrite Hi, <-Hpage. apply take_drop.
      * constructor; [|exact Hb]. cbn. rewrite <-Hpage, length_take. lia.
  - cbn [mbind option_bind ep_next_cursor]. eexists. split; [done|]. cbn. rewrite app_nil_r.
    rewrite firstn_all2 by lia. split; [done|]. constructor; [|constructor]. cbn. lia.
Qed.

(** A list of events is complete and without repetition: from the first page
    on, following the cursors ends, and the pages together are every event of the
    index for the interface exactly once, newest transition first; no page is
    longer than its limit, and no page panics. *)
Lemma pages_cover_index query :
  1 ≤ eq_limit query →
  ∃ pages, follow_pages (S (length (all_items query))) (with_cursor query None) = Some pages ∧
    let items := pages ≫= ep_items in
    Forall (λ page, (length (ep_items page) ≤ Z.to_nat (eq_limit query))%nat) pages ∧
    StronglySorted (cmp_lt summary_cmp) items ∧ NoDup (es_event_id <$> items) ∧
    ∀ summary, summary ∈ items ↔ matches_interface query summary = true ∧
      ∃ detail, st_index self !! es_event_id summary = Some detail ∧ ed_summary detail = summary.
Proof.
  intros Hlim. destruct (follow_pages_suffix (with_cursor query None) [] (all_items query) (S (length (all_items query))))
    as (pages & Hp & Hi & Hb); try done; [lia|].
  exists pages. split; [done|]. cbv zeta. rewrite Hi. split_and!; [done|apply all_items_strict| |].
  - unfold all_items, list_items. rewrite sort_by_Permutation. repeat apply filter_ids_NoDup. apply index_ids_NoDup.
  - intros summary. unfold all_items, list_items. rewrite sort_by_Permutation, !list_elem_of_In, !filter_In.
    rewrite <-list_elem_of_In, list_elem_of_fmap. split.
    + intros [[([id detail] & -> & Hin) Hm] _]. apply elem_of_map_to_list in Hin. split; [done|]. exists detail.
      cbn. by rewrite (Hindex _ _ Hin).
    + intros [Hm (detail & Hd & <-)]. split; [|done]. split; [|done].
      exists (es_event_id (ed_summary detail), detail). split; [done|]. by apply elem_of_map_to_list.
Qed.
End pages.

(** ** Accounting *)
Definition bundle (detail : EvidenceDetailV1) : Z := es_bundle_bytes (ed_summary detail).

Definition total_of (index : gmap EventId EvidenceDetailV1) : Z :=
  sum_of (λ entry, bundle entry.2) (map_to_list index).

(** Every entry of the index is the newest revision of the event it is under. *)
Definition index_valid (index : gmap EventId EvidenceDetailV1) : Prop :=
  ∀ id detail, index !! id = Some detail →
    detail = detail_from_revision (ed_latest detail) (bundle detail) ∧ ir_event_id (ed_latest detail) = id ∧
    0 ≤ bundle detail ∧ IncidentRevisionV1_validate (ed_latest detail) = Ok tt.

Lemma index_valid_ok index : index_valid index → index_ok index.
Proof. intros Hv id detail Hd. destruct (Hv _ _ Hd) as (-> & <- & _). done. Qed.

(** The counts are what the index holds, or more. *)
Definition conservative (self : LinuxEvidenceStore) : Prop :=
  index_valid (st_index self) ∧ total_of (st_index self) ≤ sh_total_bytes (st_health self) ≤ U64_MAX ∧
  Z.of_nat (size (st_index self)) ≤ sh_event_count (st_health self) ≤ U16_MAX.

Definition accounted (self : LinuxEvidenceStore) : Prop :=
  index_valid (st_index self) ∧ sh_total_bytes (st_health self) = total_of (st_index self) ∧
  total_of (st_index self) ≤ U64_MAX ∧ sh_event_count (st_health self) = Z.of_nat (size (st_index self)) ∧
  Z.of_nat (size (st_index self)) ≤ U16_MAX.

Lemma accounted_conservative self : accounted self → conservative self.
Proof. unfold accounted, conservative. intuition lia. Qed.

Lemma total_of_insert_new index id detail :
  index !! id = None → total_of (<[id := detail]> index) = bundle detail + total_of index.
Proof. intros Hn. unfold total_of. by rewrite (sum_of_Permutation _ _ _ (map_to_list_insert _ _ _ Hn)). Qed.

Lemma total_of_delete index id detail :
  index !! id = Some detail → total_of (delete id index) = total_of index - bundle detail.
Proof.
  intros Hs. unfold total_of. rewrite <-(sum_of_Permutation _ _ _ (map_to_list_delete _ _ _ Hs)), sum_of_cons. cbn. lia.
Qed.

Lemma total_of_nonneg index : index_valid index → 0 ≤ total_of index.
Proof.
  intros Hv. apply sum_of_nonneg. intros [id detail] Hin. apply elem_of_map_to_list in Hin. by apply (Hv id).
Qed.

Lemma index_valid_delete index id : index_valid index → index_valid (delete id index).
Proof. intros Hv i d Hd. apply lookup_delete_Some in Hd as [_ Hd]. by apply Hv. Qed.

(** ** Retention *)
Definition removed (index : gmap EventId EvidenceDetailV1) (ids : list EventId) : gmap EventId EvidenceDetailV1 :=
  foldl (λ index id, delete id index) index ids.

Lemma lookup_removed index ids id :
  removed index ids !! id = if decide (id ∈ ids) then None else index !! id.
Proof.
  revert index. induction ids as [|x ids IH]; intros index; [done|]. cbn. rewrite IH.
  destruct (decide (id ∈ ids)), (decide (id ∈ x :: ids)) as [Hin|Hin]; try done.
  - exfalso. apply Hin. by right.
  - apply elem_of_cons in Hin as [->|]; [by rewrite lookup_delete_eq|done].
  - rewrite lookup_delete_ne; [done|]. intros ->. apply Hin. left.
Qed.

Lemma index_valid_removed index ids : index_valid index → index_valid (removed index ids).
Proof.
  intros Hv id d. rewrite lookup_removed. case_decide; [done|]. apply Hv.
Qed.

(** The candidates are the closed events of an index. *)
Definition candidates_of (index : gmap EventId EvidenceDetailV1) (candidates : list candidate) : Prop :=
  NoDup (candidates.*1.*2) ∧
  ∀ closed_at id bytes, (closed_at, id, bytes) ∈ candidates →
    ∃ detail, index !! id = Some detail ∧ es_closed_at_unix_ms (ed_summary detail) = Some closed_at ∧
      bundle detail = bytes.

Lemma candidates_of_delete index closed_at id bytes candidates :
  candidates_of index ((closed_at, id, bytes) :: candidates) → candidates_of (delete id index) candidates.
Proof.
  intros [Hnd Hc]. cbn in Hnd. apply NoDup_cons in Hnd as [Hid Hnd]. split; [done|].
  intros c i b Hin. destruct (Hc c i b ltac:(by right)) as (d & Hd & ?). exists d. split; [|done].
  rewrite lookup_delete_ne; [done|]. intros ->. apply Hid. apply list_elem_of_fmap. exists (c, i). split; [done|].
  apply list_elem_of_fmap. by exists (c, i, b).
Qed.

Lemma retention_candidates_of self : candidates_of (st_index self) (retention_candidates self).
Proof.
  unfold candidates_of, retention_candidates. split.
  - rewrite sort_by_Permutation. pose proof (NoDup_fst_map_to_list (st_index self)) as Hnd.
    induction (map_to_list (st_index self)) as [|[id d] l IH]; [constructor|].
    cbn in Hnd |- *. apply NoDup_cons in Hnd as [Hid Hnd].
    destruct (es_closed_at_unix_ms (ed_summary d)); cbn; [|by apply IH]. constructor; [|by apply IH].
    intros Hin. apply Hid. apply list_elem_of_fmap in Hin as ([c i] & Hi & Hin). cbn in Hi. subst i.
    apply list_elem_of_fmap in Hin as ([[c' i] b] & Heq & Hin). cbn in Heq. injection Heq as <- <-.
    apply list_elem_of_omap in Hin as ([i' d'] & Hin & Hc). cbn in Hc.
    destruct (es_closed_at_unix_ms _); [|done]. cbn in Hc. injection Hc as _ -> _.
    apply list_elem_of_fmap. by exists (id, d').
  - intros c i b Hin. rewrite sort_by_Permutation in Hin. apply list_elem_of_omap in Hin as ([i' d] & Hin & Hc).
    apply elem_of_map_to_list in Hin. cbn in Hc. destruct (es_closed_at_unix_ms _) eqn:Hcl; [|done].
    injection Hc as -> -> <-. by exists d.
Qed.

Lemma retention_candidates_complete self id detail closed_at :
  st_index self !! id = Some detail → es_closed_at_unix_ms (ed_summary detail) = Some closed_at →
  (closed_at, id, bundle detail) ∈ retention_candidates self.
Proof.
  intros Hd Hc. unfold retention_candidates. rewrite sort_by_Permutation. apply list_elem_of_omap.
  exists (id, detail). split; [by apply elem_of_map_to_list|]. cbn. by rewrite Hc.
Qed.

(** The candidates come by the time they were closed. *)
Lemma retention_candidates_sorted self :
  StronglySorted (λ x y : candidate, x.1.1 ≤ y.1.1) (retention_candidates self).
Proof.
  assert (∀ x y : candidate, cmp_le candidate_cmp x y → x.1.1 ≤ y.1.1) as Hle.
  { intros x y. unfold cmp_le, candidate_cmp. destruct (Z.compare_spec x.1.1 y.1.1); intros; lia || done. }
  assert (Transitive (λ x y : candidate, x.1.1 ≤ y.1.1)) by (intros x y z; lia).
  apply (Sorted_StronglySorted (λ x y : candidate, x.1.1 ≤ y.1.1)).
  pose proof (sort_by_sorted _ candidate_cmp_antisym (omap closed_candidate (map_to_list (st_index self)))) as Hs.
  fold (retention_candidates self) in Hs. induction Hs as [|x l _ IH Hd]; constructor; [done|].
  destruct Hd; constructor; auto.
Qed.

Section retention.
Context {W : Type} `{EvidenceIo W} `{EvidenceCodec} (geteuid process_id : Z).
Implicit Types (w : W) (self : LinuxEvidenceStore).

Definition candidate_ids (candidates : list candidate) : list EventId := candidates.*1.*2.

Lemma delete_event_index w self reclaimed id bytes :
  match delete_event geteuid w self reclaimed id bytes with
  | (_, self', Ok reclaimed') =>
      st_index self' = delete id (st_index self) ∧ st_health self' = st_health self ∧
      st_package_version self' = st_package_version self ∧ reclaimed' = reclaimed + bytes ∧ reclaimed' ≤ U64_MAX
  | (_, self', Err _) =>
      (st_index self' = st_index self ∨ st_index self' = delete id (st_index self)) ∧
      st_health self' = st_health self ∧ st_package_version self' = st_package_version self
  end.
Proof.
  unfold delete_event. destruct (and_then _ _) as [w' [[]|error]]; [|by auto].
  unfold ok_or, checked_add. destruct (Z.leb_spec (reclaimed + bytes) U64_MAX); cbn; auto 6.
Qed.

(** What the loop did: it removed the first [k] candidates, each of which was
    expired or did not leave room enough, and stopped where it should. *)
Lemma retention_loop_spec w self now incoming reserve filesystem reclaimed deleted candidates :
  match retention_loop geteuid w self now incoming reserve filesystem reclaimed deleted candidates with
  | (_, self', res) =>
      st_health self' = st_health self ∧ st_package_version self' = st_package_version self ∧
      ∃ k, (k ≤ length candidates)%nat ∧
        st_index self' = removed (st_index self) (candidate_ids (take k candidates)) ∧
        match res with
        | Ok (reclaimed', deleted') =>
            deleted' = deleted ++ candidate_ids (take k candidates) ∧
            reclaimed' = reclaimed + sum_of snd (take k candidates) ∧ (k = 0%nat ∨ reclaimed' ≤ U64_MAX) ∧
            (∀ x, candidates !! k = Some x → is_expired now x.1.1 = false ∧
              loop_fits self filesystem reserve incoming reclaimed' (length deleted') = true) ∧
            (∀ j x, (j < k)%nat → candidates !! j = Some x → is_expired now x.1.1 = true ∨
              loop_fits self filesystem reserve incoming (reclaimed + sum_of snd (take j candidates))
                (length deleted + j) = false)
        | Err _ => True
        end
  end.
Proof.
  revert w self reclaimed deleted. induction candidates as [|[[closed_at id] bytes] candidates IH];
    intros w self reclaimed deleted; cbn [retention_loop].
  - split_and!; [done..|]. exists 0%nat. cbn. rewrite app_nil_r, Z.add_0_r. split_and!; try done; auto; intros; lia.
  - destruct (negb (is_expired now closed_at) && _) eqn:Hstop.
    + apply andb_true_iff in Hstop as [Hexp Hfit]. apply negb_true_iff in Hexp.
      split_and!; [done..|]. exists 0%nat. cbn. rewrite app_nil_r, Z.add_0_r. split_and!; try done; auto; try lia. intros x [= <-]. done.
    + pose proof (delete_event_index w self reclaimed id bytes) as Hdel.
      destruct (delete_event geteuid w self reclaimed id bytes) as [[w1 self1] [reclaimed1|error]].
      * destruct Hdel as (Hi & Hh & Hp & -> & Hu). specialize (IH w1 self1 (reclaimed + bytes) (deleted ++ [id])).
        destruct (retention_loop geteuid w1 self1 now incoming reserve filesystem (reclaimed + bytes) (deleted ++ [id]) candidates)
          as [[w2 self2] res]. destruct IH as (Hh2 & Hp2 & k & Hk & Hi2 & Hres).
        split_and!; [congruence..|]. exists (S k). split_and!; [cbn; lia|by rewrite Hi2, Hi|].
        destruct res as [[reclaimed' deleted']|]; [|done]. destruct Hres as (Hd & Hr & Hbound & Hstop2 & Hneed).
        assert (∀ r n, loop_fits self1 filesystem reserve incoming r n = loop_fits self filesystem reserve incoming r n) as Hlf.
        { intros r n. unfold loop_fits. by rewrite Hh. }
        split_and!.
        -- rewrite Hd, <-app_assoc. done.
        -- cbn [take]. rewrite Hr, sum_of_cons. cbn [snd]. lia.
        -- right. destruct Hbound as [->|]; [|done]. rewrite Hr, take_0. cbn [sum_of foldr]. lia.
        -- intros x Hx. cbn in Hx. rewrite <-Hlf. by apply Hstop2.
        -- intros [|j] x Hj Hx.
           ++ cbn in Hx. injection Hx as <-. cbn. rewrite Z.add_0_r, Nat.add_0_r.
              apply andb_false_iff in Hstop as [He|He]; [left; by apply negb_false_iff|by right].
           ++ cbn in Hx. destruct (Hneed j x ltac:(lia) Hx) as [?|Hf]; [by left|]. right. rewrite <-Hlf, <-Hf.
              cbn [take]. rewrite sum_of_cons, length_app. cbn. f_equal; lia.
      * destruct Hdel as ([Hi|Hi] & Hh & Hp); (split_and!; [done..|]).
        -- exists 0%nat. cbn. split_and!; [lia|done|done].
        -- exists 1%nat. cbn. split_and!; [lia|done|done].
Qed.

Lemma total_of_removed index candidates k :
  candidates_of index candidates →
  total_of (removed index (candidate_ids (take k candidates))) = total_of index - sum_of snd (take k candidates) ∧
  Z.of_nat (size (removed index (candidate_ids (take k candidates)))) = Z.of_nat (size index) - Z.of_nat (length (take k candidates)).
Proof.
  revert index k. induction candidates as [|[[c id] b] candidates IH]; intros index [|k] Hc;
    [cbn; lia..|].
  destruct (proj2 Hc c id b ltac:(left)) as (d & Hd & _ & Hb). pose proof (candidates_of_delete _ _ _ _ _ Hc) as Hc'.
  destruct (IH (delete id index) k Hc') as [Ht Hs].
  change (removed index (candidate_ids (take (S k) ((c, id, b) :: candidates))))
    with (removed (delete id index) (candidate_ids (take k candidates))).
  cbn [take]. rewrite Ht, Hs, (total_of_delete _ _ _ Hd), sum_of_cons, map_size_delete, Hd. cbn [snd length].
  assert (size index ≠ 0%nat). { intros Hz. apply map_size_empty_inv in Hz. subst. done. }
  split; [lia|]. lia.
Qed.
End retention.

(** A list split at [k]: the [k]th member is the first one kept. *)
Lemma lookup_take_before {A} (l : list A) j k x : l !! j = Some x → (j < k)%nat → x ∈ take k l.
Proof. intros Hx Hj. apply list_elem_of_lookup. exists j. by rewrite lookup_take_lt. Qed.

Lemma store_fits_true total incoming :
  0 ≤ incoming → store_fits total incoming = true ↔ total + incoming ≤ EVIDENCE_MAX_STORE_BYTES.
Proof.
  intros Hi. unfold store_fits, checked_add.
  assert (EVIDENCE_MAX_STORE_BYTES < U64_MAX) by done.
  destruct (Z.leb_spec (total + incoming) U64_MAX); cbn.
  - apply Z.leb_le.
  - split; [done|lia].
Qed.

Lemma is_expired_true now closed_at :
  is_expired now closed_at = true ↔ EVIDENCE_MAX_CLOSED_AGE_MS < now - closed_at.
Proof.
  unfold is_expired, checked_sub. assert (0 < EVIDENCE_MAX_CLOSED_AGE_MS) by done.
  destruct (Z.leb_spec closed_at now); cbn; [apply Z.ltb_lt|]. split; [done|lia].
Qed.

(** What has to hold of the store before a revision of [incoming] bytes. *)
Definition within_limits (index : gmap EventId EvidenceDetailV1) (filesystem : FilesystemSpace)
    (reserve incoming reclaimed : Z) : Prop :=
  total_of index + incoming ≤ EVIDENCE_MAX_STORE_BYTES ∧
  reserve ≤ fs_available_bytes filesystem + reclaimed - incoming ∧
  Z.of_nat (size index) < EVIDENCE_MAX_EVENTS.

Section retention_correct.
Context {W : Type} `{EvidenceIo W} `{EvidenceCodec} (geteuid : Z).
Implicit Types (w : W) (self : LinuxEvidenceStore).

(** The candidates removed so far are accounted for. *)
Lemma accounted_candidates self k :
  accounted self →
  let index := removed (st_index self) (candidate_ids (take k (retention_candidates self))) in
  let reclaimed := sum_of snd (take k (retention_candidates self)) in
  index_valid index ∧ 0 ≤ reclaimed ∧ total_of index = sh_total_bytes (st_health self) - reclaimed ∧ 0 ≤ total_of index ∧
  Z.of_nat (size index) = sh_event_count (st_health self) - Z.of_nat (length (take k (retention_candidates self))).
Proof.
  intros (Hv & Ht & Hmax & Hc & Hcmax). cbv zeta.
  destruct (total_of_removed _ _ k (retention_candidates_of self)) as [Htr Hsr].
  pose proof (index_valid_removed _ (candidate_ids (take k (retention_candidates self))) Hv) as Hvr.
  pose proof (total_of_nonneg _ Hvr). split_and!; try done; try lia.
  apply sum_of_nonneg. intros [[c id] b] Hin%elem_of_take. destruct Hin as (i & Hi & _).
  destruct (proj2 (retention_candidates_of self) c id b) as (d & Hd & _ & <-); [by eapply list_elem_of_lookup_2|].
  by apply (Hv id).
Qed.

Lemma loop_fits_spec self filesystem reserve incoming k :
  accounted self → 0 ≤ incoming → 0 < reserve →
  fs_available_bytes filesystem + total_of (st_index self) ≤ U64_MAX →
  let index := removed (st_index self) (candidate_ids (take k (retention_candidates self))) in
  let reclaimed := sum_of snd (take k (retention_candidates self)) in
  loop_fits self filesystem reserve incoming reclaimed (length (take k (retention_candidates self))) = true ↔
  within_limits index filesystem reserve incoming reclaimed.
Proof.
  intros Hacc Hin Hres Hav. cbv zeta. destruct (accounted_candidates self k Hacc) as (_ & Hr & Ht & Ht0 & Hs).
  destruct Hacc as (_ & Htot & _ & _ & _).
  unfold loop_fits, within_limits. rewrite !andb_true_iff, store_fits_true, Z.ltb_lt by done.
  unfold saturating_sub. rewrite !Z.max_r by lia. rewrite <-Ht, <-Hs.
  unfold checked_add, checked_sub. rewrite (proj2 (Z.leb_le _ U64_MAX)) by lia. cbn [mbind option_bind].
  destruct (Z.leb_spec incoming (fs_available_bytes filesystem + sum_of snd (take k (retention_candidates self)))); cbn [is_some_and].
  - rewrite Z.leb_le. tauto.
  - split; [naive_solver|lia].
Qed.

Lemma finish_retention_spec self index reserve filesystem incoming reclaimed deleted :
  accounted (mkLinuxEvidenceStore (st_package_version self) index
    (with_usage (st_health self) (sh_available (st_health self)) (Z.of_nat (size index)) (sh_total_bytes (st_health self) - reclaimed))) →
  0 ≤ incoming → 0 ≤ reclaimed → 0 < reserve → fs_available_bytes filesystem + reclaimed ≤ U64_MAX →
  st_index self = index →
  match finish_retention self filesystem reserve incoming reclaimed deleted with
  | (self', res) =>
      st_index self' = index ∧ accounted self' ∧
      match res with
      | Ok outcome =>
          within_limits index filesystem reserve incoming reclaimed ∧
          outcome = mkRetentionOutcome deleted
            (mkStoreUsage (Z.of_nat (size index)) (total_of index)
               (mkFilesystemSpace (fs_total_bytes filesystem) (fs_available_bytes filesystem + reclaimed)) reserve)
      | Err error => error = RetentionUnavailable ∧ ¬ within_limits index filesystem reserve incoming reclaimed
      end
  end.
Proof.
  intros (Hv & Ht & Hmax & _ & Hcmax) Hin Hrec Hres Hav Hix. cbn in Hv, Ht, Hmax, Hcmax. pose proof (total_of_nonneg _ Hv).
  unfold finish_retention. rewrite Hix. unfold index_count, saturating_sub, saturating_add.
  rewrite (Z.min_r U16_MAX), Z.max_r, (Z.min_r U64_MAX), Ht by lia.
  assert (negb (store_fits (total_of index) incoming)
    || negb (is_some_and (checked_sub (fs_available_bytes filesystem + reclaimed) incoming) (λ bytes, reserve <=? bytes))
    || (EVIDENCE_MAX_EVENTS <=? Z.of_nat (size index)) = false ↔ within_limits index filesystem reserve incoming reclaimed) as Hiff.
  { unfold within_limits. rewrite !orb_false_iff, !negb_false_iff, store_fits_true, Z.leb_gt by done.
    unfold checked_sub. destruct (Z.leb_spec incoming (fs_available_bytes filesystem + reclaimed)); cbn [is_some_and].
    - rewrite Z.leb_le. tauto.
    - split; [naive_solver|lia]. }
  assert (∀ available, accounted (set_health self (with_usage (st_health self) available (Z.of_nat (size index)) (total_of index)))) as Hacc.
  { intros available. unfold accounted. cbn. rewrite Hix. auto. }
  destruct (_ || _ || _).
  - split_and!; [done|apply Hacc|done|]. intros ?%Hiff. done.
  - split_and!; [done|apply Hacc|by apply Hiff|done].
Qed.

Lemma sorted_not_expired now k candidates :
  StronglySorted (λ x y : candidate, x.1.1 ≤ y.1.1) candidates →
  (∀ x, candidates !! k = Some x → is_expired now x.1.1 = false) →
  Forall (λ x : candidate, is_expired now x.1.1 = false) (drop k candidates).
Proof.
  intros Hs Hk. destruct (drop k candidates) as [|x l] eqn:Hd; [constructor|].
  assert (candidates !! k = Some x) as Hx.
  { rewrite <-(Nat.add_0_r k), <-lookup_drop, Hd. done. }
  specialize (Hk x Hx). constructor; [done|].
  rewrite <-(take_drop k candidates), Hd in Hs. apply StronglySorted_app_1_r, StronglySorted_inv in Hs as [_ Hs].
  eapply Forall_impl; [exact Hs|]. intros y Hxy. cbn in Hxy. apply not_true_iff_false. intros Hy%is_expired_true.
  apply not_true_iff_false in Hk. apply Hk, is_expired_true. lia.
Qed.

(** The events that are left over and the limits that hold, for the victims of a
    call that returned normally. *)
Definition retained self (now : Z) (filesystem : FilesystemSpace) (reserve incoming : Z) (k : nat) : Prop :=
  let candidates := retention_candidates self in
  let index j := removed (st_index self) (candidate_ids (take j candidates)) in
  let reclaimed j := sum_of snd (take j candidates) in
  within_limits (index k) filesystem reserve incoming (reclaimed k) ∧
  Forall (λ x : candidate, is_expired now x.1.1 = false) (drop k candidates) ∧
  ∀ j x, (j < k)%nat → candidates !! j = Some x →
    is_expired now x.1.1 = true ∨ ¬ within_limits (index j) filesystem reserve incoming (reclaimed j).

Lemma retention_loop_correct w self now filesystem reserve incoming :
  accounted self → 0 ≤ incoming → 0 < reserve →
  fs_available_bytes filesystem + total_of (st_index self) ≤ U64_MAX →
  match retention_loop geteuid w self now incoming reserve filesystem 0 [] (retention_candidates self) with
  | (_, self', res) =>
      st_health self' = st_health self ∧ st_package_version self' = st_package_version self ∧
      ∃ k, st_index self' = removed (st_index self) (candidate_ids (take k (retention_candidates self))) ∧
        match res with
        | Ok (reclaimed, deleted) =>
            deleted = candidate_ids (take k (retention_candidates self)) ∧
            reclaimed = sum_of snd (take k (retention_candidates self)) ∧
            (within_limits (st_index self') filesystem reserve incoming reclaimed → retained self now filesystem reserve incoming k)
        | Err _ => True
        end
  end.
Proof.
  intros Hacc Hin Hres Hav.
  pose proof (retention_loop_spec geteuid w self now incoming reserve filesystem 0 [] (retention_candidates self)) as Hspec.
  destruct (retention_loop _ _ _ _ _ _ _ _ _ _) as [[w' self'] res]. destruct Hspec as (Hh & Hp & k & Hk & Hi & Hout).
  split_and!; [done..|]. exists k. split; [done|]. destruct res as [[reclaimed deleted]|]; [|done].
  destruct Hout as (-> & Hr & _ & Hstop & Hneed). rewrite app_nil_l in *. rewrite Z.add_0_l in Hr.
  split_and!; [done..|]. intros Hlim. unfold retained. rewrite <-Hi, <-Hr. split_and!; [done| |].
  - apply sorted_not_expired; [apply retention_candidates_sorted|]. intros x Hx. by apply Hstop.
  - intros j x Hj Hx. destruct (Hneed j x Hj Hx) as [?|Hf]; [by left|]. right. intros Hwl.
    apply (loop_fits_spec self filesystem reserve incoming j Hacc Hin Hres Hav) in Hwl.
    rewrite length_take, Nat.min_l in Hwl by lia. rewrite Z.add_0_l in Hf. cbn in Hf, Hwl. congruence.
Qed.

Lemma conservative_removed self self' ids :
  accounted self → st_health self' = st_health self → st_index self' = removed (st_index self) ids →
  total_of (st_index self') ≤ total_of (st_index self) → (size (st_index self') ≤ size (st_index self))%nat →
  conservative self'.
Proof.
  intros (Hv & Ht & Hmax & Hc & Hcmax) Hh Hi Htot Hsz. unfold conservative. rewrite Hh. rewrite Hi at 1.
  split_and!; [by apply index_valid_removed|lia..].
Qed.
End retention_correct.

Section retention_theorem.
Context {W : Type} `{EvidenceIo W} `{EvidenceCodec} (geteuid : Z).
Implicit Types (w : W) (self : LinuxEvidenceStore).

(** The file system reports sizes that fit its own counters, together with what
    the store holds on it. *)
Definition capacity_ok w self : Prop :=
  ∀ w' filesystem, capacity (validate_root geteuid w).1 = (w', Ok filesystem) →
    fs_available_bytes filesystem + total_of (st_index self) ≤ U64_MAX.

Lemma minimum_free_reserve_pos total : 0 < minimum_free_reserve total.
Proof.
  unfold minimum_free_reserve. assert (0 < EVIDENCE_MIN_FREE_RESERVE_BYTES) by done.
  match goal with |- context [if ?a <? ?b then _ else _] => destruct (Z.ltb_spec a b) end; lia.
Qed.

(** C8: Retention on a store whose counts are exact.  It removes a prefix of the
    closed events by the time they were closed, and never an event that is still
    open.  When it succeeds, the index it leaves is exact, below the size and the
    event limit with the incoming bytes, and by what the file system reported when it
    was asked in this run, its reserve is kept: half a gigabyte or a twentieth of its
    total size, whichever is more.  No closed event of more than thirty days is left,
    and each event removed was that old or the limits did not hold without removing
    it.  The outcome says just this.  When it fails, the counts still cover what the
    index holds. *)
Theorem retention_correct w self now incoming :
  accounted self → 0 ≤ incoming → capacity_ok w self →
  match enforce_retention geteuid w self now incoming with
  | (_, self', res) =>
      ∃ k, let victims := candidate_ids (take k (retention_candidates self)) in
        st_index self' = removed (st_index self) victims ∧
        (∀ id detail, st_index self !! id = Some detail → es_closed_at_unix_ms (ed_summary detail) = None →
           st_index self' !! id = Some detail) ∧
        match res with
        | Ok outcome =>
            accounted self' ∧
            ∃ w1 filesystem, capacity (validate_root geteuid w).1 = (w1, Ok filesystem) ∧
              fs_available_bytes filesystem ≤ fs_total_bytes filesystem ∧
              let reserve := Z.max 536870912 (fs_total_bytes filesystem * 5 / 100) in
              retained self now filesystem reserve incoming k ∧
              outcome = mkRetentionOutcome victims
                (mkStoreUsage (Z.of_nat (size (st_index self'))) (total_of (st_index self'))
                   (mkFilesystemSpace (fs_total_bytes filesystem)
                      (fs_available_bytes filesystem + sum_of snd (take k (retention_candidates self)))) reserve)
        | Err _ => conservative self'
        end
  end.
Proof.
  intros Hacc Hin Hcap. unfold capacity_ok in Hcap. unfold enforce_retention.
  assert (∃ k, st_index self = removed (st_index self) (candidate_ids (take k (retention_candidates self))) ∧
    (∀ id detail, st_index self !! id = Some detail → es_closed_at_unix_ms (ed_summary detail) = None →
      st_index self !! id = Some detail) ∧ conservative self) as Hno.
  { exists 0%nat. split_and!; [done|done|by apply accounted_conservative]. }
  destruct (validate_root _ w) as [w1 [[]|error]]; [|exact Hno]. cbn [fst] in Hcap.
  destruct (EVIDENCE_MAX_EVENT_BYTES <? incoming); [exact Hno|].
  destruct (capacity w1) as [w2 [filesystem|error]] eqn:Hc; [|exact Hno].
  destruct (Z.ltb_spec (fs_total_bytes filesystem) (fs_available_bytes filesystem)) as [|Hfs]; [exact Hno|]. clear Hno.
  rewrite minimum_free_reserve_spec in *. set (reserve := Z.max 536870912 (fs_total_bytes filesystem * 5 / 100)) in *.
  pose proof (minimum_free_reserve_pos (fs_total_bytes filesystem)) as Hres. rewrite minimum_free_reserve_spec in Hres. fold reserve in Hres.
  pose proof (retention_loop_correct geteuid w2 self now filesystem reserve incoming Hacc Hin Hres (Hcap _ _ eq_refl)) as Hloop.
  destruct (retention_loop _ _ _ _ _ _ _ _ _ _) as [[w3 self3] res]. destruct Hloop as (Hh & Hp & k & Hi & Hout).
  assert (∀ id detail, st_index self !! id = Some detail → es_closed_at_unix_ms (ed_summary detail) = None →
    st_index self3 !! id = Some detail) as Hopen.
  { intros id detail Hd Hn. rewrite Hi, lookup_removed, decide_False; [done|]. intros Hin'.
    apply list_elem_of_fmap in Hin' as ([c i] & Hci & Hin'). cbn in Hci. subst i.
    apply list_elem_of_fmap in Hin' as ([[c' i] b] & [= <- <-] & Hin'%elem_of_take). destruct Hin' as (i & Hi' & _).
    destruct (proj2 (retention_candidates_of self) c id b) as (d & Hd' & Hcl & _); [by eapply list_elem_of_lookup_2|]. congruence. }
  destruct (accounted_candidates self k Hacc) as (Hv & Hr & Ht & Ht0 & Hs). cbv zeta in *. rewrite <-Hi in *.
  pose proof (Hcap _ _ eq_refl) as Hav. pose proof Hacc as (_ & Htot & Hmax & Hcnt & Hcmax).
  destruct res as [[reclaimed deleted]|error].
  2: { exists k. split_and!; [done|done|]. eapply conservative_removed; try done; lia. }
  destruct Hout as (-> & -> & Hret). set (reclaimed := sum_of snd (take k (retention_candidates self))) in *.
  assert (accounted (mkLinuxEvidenceStore (st_package_version self3) (st_index self3)
    (with_usage (st_health self3) (sh_available (st_health self3)) (Z.of_nat (size (st_index self3)))
       (sh_total_bytes (st_health self3) - reclaimed)))) as Hacc3.
  { unfold accounted. cbn. rewrite Hh. split_and!; [done|lia..]. }
  pose proof (finish_retention_spec self3 _ reserve filesystem incoming reclaimed
    (candidate_ids (take k (retention_candidates self))) Hacc3 Hin Hr Hres ltac:(lia) eq_refl) as Hfin.
  destruct (finish_retention _ _ _ _ _ _) as [self4 out]. destruct Hfin as (Hi4 & Hacc4 & Hfin).
  exists k. rewrite Hi4. split_and!; [done|done|]. destruct out as [outcome|error]; [|by apply accounted_conservative].
  destruct Hfin as [Hlim ->]. split; [done|]. exists w2, filesystem. split_and!; [done..|by apply Hret|done].
Qed.
End retention_theorem.

(** ** The manifest *)

(** What the store relies on of [serde_json]: a manifest has a text, and the one
    field that the loop changes is a number in decimal. *)
Class ManifestText `{EvidenceCodec} : Prop := manifest_text :
  ∀ manifest, ∃ base : nat, ∀ total, 0 ≤ total ≤ U64_MAX →
    ∃ bytes, manifest_to_json (set_total_bytes manifest total) = Some bytes ∧ length bytes = (base + decimal_length total)%nat.

Section manifest.
Context `{EvidenceCodec} `{!ManifestText}.

Lemma set_total_bytes_id manifest : set_total_bytes manifest (em_total_bytes manifest) = manifest.
Proof. by destruct manifest. Qed.

Lemma manifest_loop_total base manifest fuel total :
  (∀ total, 0 ≤ total ≤ U64_MAX →
    ∃ bytes, manifest_to_json (set_total_bytes manifest total) = Some bytes ∧ length bytes = (base + decimal_length total)%nat) →
  0 ≤ em_evidence_bytes manifest → 0 ≤ total ≤ U64_MAX →
  total ≤ em_evidence_bytes manifest + Z.of_nat base + Z.of_nat (decimal_length total) →
  (22 ≤ fuel + decimal_length total)%nat →
  manifest_loop fuel (set_total_bytes manifest total) ≠ None.
Proof.
  intros Htext He. revert total. induction fuel as [|fuel IH]; intros total Ht Hle Hfuel.
  { pose proof (decimal_length_bound total). lia. }
  cbn [manifest_loop]. destruct (Htext total Ht) as (bytes & -> & Hlen). cbn [em_evidence_bytes set_total_bytes em_total_bytes].
  unfold checked_add. destruct (Z.leb_spec (em_evidence_bytes manifest + Z.of_nat (length bytes)) U64_MAX); [|done].
  set (next := em_evidence_bytes manifest + Z.of_nat (length bytes)) in *.
  destruct (Z.eqb_spec total next) as [|Hne]; [done|].
  change (set_total_bytes (set_total_bytes manifest total) next) with (set_total_bytes manifest next).
  pose proof (decimal_length_mono total next ltac:(lia)). pose proof (decimal_length_bound total).
  destruct (decide (decimal_length next = decimal_length total)) as [Hd|Hd].
  - destruct fuel as [|fuel]; [lia|]. cbn [manifest_loop]. destruct (Htext next ltac:(lia)) as (bytes' & -> & Hlen').
    cbn [em_evidence_bytes set_total_bytes em_total_bytes].
    unfold checked_add. destruct (Z.leb_spec (em_evidence_bytes manifest + Z.of_nat (length bytes')) U64_MAX); [|done].
    by rewrite (proj2 (Z.eqb_eq _ _)) by lia.
  - apply IH; lia.
Qed.

(** The fuel is enough: the loop that makes a manifest record its own length ends. *)
Lemma build_manifest_total revision evidence package_version :
  Z.of_nat (length evidence) ≤ U64_MAX → build_manifest revision evidence package_version ≠ None.
Proof.
  intros He. unfold build_manifest.
  set (manifest := first_manifest revision evidence package_version).
  destruct (manifest_text manifest) as (base & Htext).
  pose proof (manifest_loop_total base manifest MANIFEST_FUEL (em_total_bytes manifest) Htext) as Hm.
  rewrite set_total_bytes_id in Hm. pose proof (decimal_length_bound (em_total_bytes manifest)).
  destruct (manifest_loop MANIFEST_FUEL manifest); [done|]. cbn in Hm |- *. exfalso. apply Hm; try done; unfold MANIFEST_FUEL; try lia.
Qed.
End manifest.

Section manifest_exact.
Context `{EvidenceCodec}.

(** A manifest that the loop returns records its own length and changes nothing else. *)
Lemma manifest_loop_exact fuel manifest built bytes :
  manifest_loop fuel manifest = Some (Ok (built, bytes)) →
  built = set_total_bytes manifest (em_evidence_bytes manifest + Z.of_nat (length bytes)) ∧ manifest_to_json built = Some bytes ∧
  em_evidence_bytes manifest + Z.of_nat (length bytes) ≤ U64_MAX.
Proof.
  revert manifest. induction fuel as [|fuel IH]; intros manifest; [done|]. cbn [manifest_loop].
  destruct (manifest_to_json manifest) as [text|] eqn:Ht; [|done].
  destruct (checked_add _ _ _) as [total|] eqn:Hc; [|done]. apply checked_add_Some in Hc as [-> Hmax].
  destruct (Z.eqb_spec (em_total_bytes manifest) (em_evidence_bytes manifest + Z.of_nat (length text))) as [Heq|].
  - intros [= <- <-]. split; [|done]. rewrite <-Heq. by rewrite set_total_bytes_id.
  - intros Hl. apply IH in Hl. exact Hl.
Qed.

Lemma build_manifest_exact revision evidence package_version manifest bytes :
  build_manifest revision evidence package_version = Some (Ok (manifest, bytes)) →
  EvidenceManifestV1_validate manifest = Ok tt ∧ manifest_to_json manifest = Some bytes ∧
  manifest = set_total_bytes (first_manifest revision evidence package_version) (Z.of_nat (length evidence + length bytes)).
Proof.
  unfold build_manifest. destruct (manifest_loop _ _) as [[[built text]|error]|] eqn:Hl; cbn; [|done|done].
  destruct (EvidenceManifestV1_validate built) as [[]|] eqn:Hv; cbn; [|done]. intros [= <- <-].
  apply manifest_loop_exact in Hl as (Hb & Hj & _). split_and!; [done|done|]. rewrite Hb at 1. cbn. f_equal. lia.
Qed.
End manifest_exact.

(** ** Commit *)

(** How far the bytes that the store counts are above what its index holds. *)
Definition drift (self : LinuxEvidenceStore) : Z := sh_total_bytes (st_health self) - total_of (st_index self).

Lemma total_of_insert index id detail :
  total_of (<[id := detail]> index) =
    total_of index + bundle detail - match index !! id with Some previous => bundle previous | None => 0 end.
Proof.
  destruct (index !! id) as [previous|] eqn:Hp.
  - rewrite <-insert_delete_eq, total_of_insert_new by apply lookup_delete_eq. rewrite (total_of_delete _ _ _ Hp). lia.
  - rewrite total_of_insert_new by done. lia.
Qed.

#[local] Opaque build_manifest.

Section put_facts.
Context {W : Type} `{EvidenceIo W} `{EvidenceCodec} (geteuid process_id : Z).
Implicit Types (w : W) (self : LinuxEvidenceStore).

Lemma check_revision_ok self revision :
  check_revision self revision = Ok tt →
  IncidentRevisionV1_validate revision = Ok tt ∧ ir_revision revision = next_revision self (ir_event_id revision) ∧
  ∀ previous, st_index self !! ir_event_id revision = Some previous → same_incident (ed_latest previous) revision = true.
Proof.
  unfold check_revision. destruct (IncidentRevisionV1_validate revision) as [[]|]; [|done]. cbn.
  destruct (Z.eqb_spec (ir_revision revision) (next_revision self (ir_event_id revision))); [|done]. cbn.
  intros Hs. split_and!; [done..|]. intros previous Hp. rewrite Hp in Hs. cbn in Hs.
  by destruct (same_incident (ed_latest previous) revision).
Qed.

Lemma check_bounds_ok self id manifest_bytes event_bytes :
  0 ≤ manifest_bytes → check_bounds self id manifest_bytes = Ok event_bytes →
  event_bytes = match st_index self !! id with Some detail => bundle detail | None => 0 end + manifest_bytes ∧
  event_bytes ≤ EVIDENCE_MAX_EVENT_BYTES ∧ sh_total_bytes (st_health self) + manifest_bytes ≤ EVIDENCE_MAX_STORE_BYTES ∧
  (st_index self !! id = None → Z.of_nat (size (st_index self)) < EVIDENCE_MAX_EVENTS).
Proof.
  intros Hm. unfold check_bounds. destruct (checked_add _ _ _) as [bytes|] eqn:Hc; [|done]. cbn.
  apply checked_add_Some in Hc as [-> _]. destruct (_ || _) eqn:Hb; [done|]. boolify.
  destruct (is_none _ && _) eqn:Hn; [done|]. intros [= <-].
  split_and!; [done|lia|by apply store_fits_true|]. intros Hnone. rewrite Hnone in Hn. cbn in Hn. lia.
Qed.

Lemma prepare_put_ok self revision evidence manifest bytes event_bytes :
  prepare_put self revision = Some (Ok (evidence, manifest, bytes, event_bytes)) →
  check_revision self revision = Ok tt ∧ revision_to_json revision = Some evidence ∧
  0 < Z.of_nat (length evidence) ≤ EVIDENCE_MAX_REVISION_BYTES ∧
  build_manifest revision evidence (st_package_version self) = Some (Ok (manifest, bytes)) ∧
  check_bounds self (ir_event_id revision) (em_total_bytes manifest) = Ok event_bytes.
Proof.
  unfold prepare_put. destruct (check_revision self revision) as [[]|] eqn:Hc; [|done]. cbn.
  unfold encode_revision. destruct (revision_to_json revision) as [text|] eqn:Hj; [|done]. cbn.
  destruct (_ || _) eqn:Hb; [done|]. boolify. cbn.
  remember (build_manifest revision text (st_package_version self)) as m eqn:Hm.
  destruct m as [[[built mb]|]|]; [|intros [=]..]. cbn.
  remember (check_bounds self (ir_event_id revision) (em_total_bytes built)) as b eqn:Hcb.
  destruct b as [eb|]; [|intros [=]]. cbn. intros [= <- <- <- <-].
  split_and!; [done|done| |lia|done|done]. destruct text; [done|]. cbn. lia.
Qed.

Lemma record_put_conservative self revision event_bytes manifest_bytes :
  conservative self → IncidentRevisionV1_validate revision = Ok tt → 0 ≤ manifest_bytes →
  check_bounds self (ir_event_id revision) manifest_bytes = Ok event_bytes →
  let self' := record_put self revision manifest_bytes event_bytes in
  total_of (st_index self') = total_of (st_index self) + manifest_bytes ∧
  total_of (st_index self') ≤ EVIDENCE_MAX_STORE_BYTES ∧
  (Z.of_nat (size (st_index self)) ≤ EVIDENCE_MAX_EVENTS → Z.of_nat (size (st_index self')) ≤ EVIDENCE_MAX_EVENTS) ∧
  conservative self' ∧ drift self' = drift self ∧ (accounted self → accounted self').
Proof.
  intros (Hv & Ht & Hc) Hrev Hm Hb. apply check_bounds_ok in Hb as (He & _ & Hstore & Hnew); [|done]. cbv zeta.
  assert (EVIDENCE_MAX_STORE_BYTES < U64_MAX) by done. assert (EVIDENCE_MAX_EVENTS < U16_MAX) by done.
  assert (total_of (st_index (record_put self revision manifest_bytes event_bytes)) = total_of (st_index self) + manifest_bytes) as Htot.
  { cbn. rewrite total_of_insert. cbn. rewrite He. destruct (st_index self !! ir_event_id revision); unfold bundle; lia. }
  assert (index_valid (st_index (record_put self revision manifest_bytes event_bytes))) as Hv'.
  { intros id detail. cbn. destruct (decide (id = ir_event_id revision)) as [->|Hne].
    - rewrite lookup_insert_eq. intros [= <-]. cbn. split_and!; [done|done| |done]. cbn. rewrite He.
      destruct (st_index self !! ir_event_id revision) eqn:Hd; [|lia]. destruct (Hv _ _ Hd) as (_ & _ & ? & _). lia.
    - rewrite lookup_insert_ne by done. apply Hv. }
  assert (sh_total_bytes (st_health (record_put self revision manifest_bytes event_bytes))
    = sh_total_bytes (st_health self) + manifest_bytes) as Hh.
  { cbn. unfold saturating_add. lia. }
  assert (Z.of_nat (size (st_index (record_put self revision manifest_bytes event_bytes))) =
    Z.of_nat (size (st_index self)) + if is_none (st_index self !! ir_event_id revision) then 1 else 0) as Hsz.
  { cbn. rewrite map_size_insert. destruct (st_index self !! ir_event_id revision); cbn; lia. }
  assert (sh_event_count (st_health (record_put self revision manifest_bytes event_bytes)) =
    if is_none (st_index self !! ir_event_id revision) then saturating_add U16_MAX (sh_event_count (st_health self)) 1
    else sh_event_count (st_health self)) as Hcnt by done.
  generalize dependent (record_put self revision manifest_bytes event_bytes). intros self' Htot Hv' Hh Hsz Hcnt.
  unfold conservative, drift, accounted, saturating_add in *. rewrite Htot, Hh, Hsz, Hcnt.
  destruct (st_index self !! ir_event_id revision); cbn [is_none is_some negb] in *.
  - split_and!; try done; try lia. intros (_ & ? & ? & ? & ?). split_and!; try done; lia.
  - specialize (Hnew eq_refl). split_and!; try done; try lia. intros (_ & ? & ? & ? & ?). split_and!; try done; lia.
Qed.

Lemma put_total `{!ManifestText} w self revision : put geteuid process_id w self revision ≠ None.
Proof.
  unfold put. destruct (validate_root geteuid w) as [w1 [[]|]]; [|done].
  assert (prepare_put self revision ≠ None) as Hp; [|by destruct (prepare_put self revision)].
  unfold prepare_put. destruct (check_revision self revision) as [[]|]; [|done]. cbn [mbind result_bind].
  unfold encode_revision. destruct (revision_to_json revision) as [text|]; [|done]. cbn [ok_or mbind result_bind].
  destruct (_ || _) eqn:Hb; [done|]. boolify. assert (EVIDENCE_MAX_REVISION_BYTES < U64_MAX) by done.
  assert (build_manifest revision text (st_package_version self) ≠ None) as Hm by (apply build_manifest_total; lia).
  by destruct (build_manifest revision text (st_package_version self)).
Qed.

(** C7: What a commit does to the store.  It returns: the loop that makes a
    manifest record its own length ends.  A refused or failed [put] leaves the index
    and the counts as they were.  A successful one has validated the revision, which
    is the successor of the event's last one and of the same incident; afterwards
    [get] returns it, the other events are untouched, the event has grown by exactly
    the bytes of the evidence and of its manifest, the limits of the event, of the
    store and of the number of events hold, and the distance between the counted and
    the indexed bytes is what it was. *)
Theorem put_correct `{!ManifestText} w self revision :
  conservative self →
  ∃ w' self' res, put geteuid process_id w self revision = Some (w', self', res) ∧
    match res with
    | Err _ => self' = self
    | Ok summary =>
        IncidentRevisionV1_validate revision = Ok tt ∧
        ir_revision revision = next_revision self (ir_event_id revision) ∧
        (∀ previous, get self (ir_event_id revision) = Ok previous → same_incident (ed_latest previous) revision = true) ∧
        (∃ detail, get self' (ir_event_id revision) = Ok detail ∧ ed_latest detail = revision ∧ ed_summary detail = summary) ∧
        (∀ id, id ≠ ir_event_id revision → get self' id = get self id) ∧
        (∃ evidence manifest manifest_bytes, revision_to_json revision = Some evidence ∧
          manifest_to_json manifest = Some manifest_bytes ∧
          em_total_bytes manifest = Z.of_nat (length evidence) + Z.of_nat (length manifest_bytes) ∧
          total_of (st_index self') = total_of (st_index self) + em_total_bytes manifest) ∧
        es_bundle_bytes summary ≤ EVIDENCE_MAX_EVENT_BYTES ∧ total_of (st_index self') ≤ EVIDENCE_MAX_STORE_BYTES ∧
        (Z.of_nat (size (st_index self)) ≤ EVIDENCE_MAX_EVENTS → Z.of_nat (size (st_index self')) ≤ EVIDENCE_MAX_EVENTS) ∧
        conservative self' ∧ drift self' = drift self ∧ (accounted self → accounted self')
    end.
Proof.
  intros Hcons. destruct (put geteuid process_id w self revision) as [[[w' self'] res]|] eqn:Hput; [|by apply put_total in Hput].
  exists w', self', res. split; [done|]. revert Hput. unfold put.
  destruct (validate_root geteuid w) as [w1 [[]|error]]; [|by intros [= <- <- <-]].
  destruct (prepare_put self revision) as [[[[[evidence manifest] bytes] event_bytes]|error]|] eqn:Hp;
    [|by intros [= <- <- <-]|done].
  cbn [fmap option_fmap option_map]. destruct (and_then _ _) as [w2 [[]|error]]; [|by intros [= <- <- <-]].
  intros [= <- <- <-]. apply prepare_put_ok in Hp as (Hc & Hj & _ & Hm & Hb).
  apply check_revision_ok in Hc as (Hrev & Hnext & Hsame). apply build_manifest_exact in Hm as (_ & Hmj & Hme).
  assert (em_total_bytes manifest = Z.of_nat (length evidence) + Z.of_nat (length bytes)) as Htotal.
  { rewrite Hme. cbn. lia. }
  destruct (record_put_conservative self revision event_bytes (em_total_bytes manifest) Hcons Hrev ltac:(lia) Hb)
    as (Htot & Hstore & Hcount & Hcons' & Hdrift & Hacc).
  apply check_bounds_ok in Hb as (_ & Hevent & _); [|lia].
  unfold get. cbn [record_put st_index]. rewrite lookup_insert_eq. split_and!; try done.
  - intros previous Hprev. apply ok_or_Ok in Hprev. by apply Hsame.
  - by eexists.
  - intros id Hne. by rewrite lookup_insert_ne.
  - by exists evidence, manifest, bytes.
Qed.
End put_facts.

#[local] Transparent build_manifest.

(** ** Runs of the store *)
Section runs.
Context {W : Type} `{EvidenceIo W} `{EvidenceCodec} (geteuid process_id : Z).
Implicit Types (w : W) (self : LinuxEvidenceStore).

Lemma enforce_retention_conservative w self now incoming :
  conservative self →
  match enforce_retention geteuid w self now incoming with
  | (_, self', res) =>
      conservative self' ∧ drift self ≤ drift self' ∧ (is_ok res = true → drift self' = drift self) ∧
      st_index self' ⊆ st_index self
  end.
Proof.
  intros Hcons. assert (conservative self ∧ drift self ≤ drift self ∧ (false = true → drift self = drift self) ∧
    st_index self ⊆ st_index self) as Hno by (split_and!; done || lia).
  unfold enforce_retention. destruct (validate_root _ w) as [w1 [[]|error]]; [|exact Hno].
  destruct (EVIDENCE_MAX_EVENT_BYTES <? incoming); [exact Hno|].
  destruct (capacity w1) as [w2 [filesystem|error]]; [|exact Hno].
  destruct (fs_total_bytes filesystem <? fs_available_bytes filesystem); [exact Hno|]. clear Hno.
  set (reserve := minimum_free_reserve (fs_total_bytes filesystem)).
  pose proof (retention_loop_spec geteuid w2 self now incoming reserve filesystem 0 [] (retention_candidates self)) as Hloop.
  destruct (retention_loop _ _ _ _ _ _ _ _ _ _) as [[w3 self3] res]. destruct Hloop as (Hh & _ & k & _ & Hi & Hout).
  destruct Hcons as (Hv & Ht & Hc).
  destruct (total_of_removed _ _ k (retention_candidates_of self)) as [Htot Hsz]. rewrite <-Hi in Htot, Hsz.
  assert (index_valid (st_index self3)) as Hv3 by (rewrite Hi; by apply index_valid_removed).
  pose proof (total_of_nonneg _ Hv3) as Hpos.
  assert (st_index self3 ⊆ st_index self) as Hsub.
  { rewrite Hi. apply map_subseteq_spec. intros id d. rewrite lookup_removed. by case_decide. }
  assert (0 ≤ sum_of snd (take k (retention_candidates self))) as Hrec.
  { apply sum_of_nonneg. intros [[c id] b] (i & Hi' & _)%elem_of_take.
    destruct (proj2 (retention_candidates_of self) c id b) as (d & Hd & _ & <-); [by eapply list_elem_of_lookup_2|].
    by apply (Hv id). }
  destruct res as [[reclaimed deleted]|error].
  2: { unfold conservative, drift. rewrite Hh. split_and!; try done; lia. }
  destruct Hout as (_ & -> & _). unfold finish_retention. rewrite Hh. unfold index_count, saturating_sub, conservative, drift.
  assert (EVIDENCE_MAX_EVENTS < U16_MAX) by done.
  destruct (_ || _ || _); cbn; (split_and!; try done; lia).
Qed.

(** The calls that change a store: commits and retention, in any order. *)
Inductive store_step : W * LinuxEvidenceStore → W * LinuxEvidenceStore → Prop :=
| step_put w self revision w' self' res :
    put geteuid process_id w self revision = Some (w', self', res) → store_step (w, self) (w', self')
| step_retention w self now incoming w' self' res :
    enforce_retention geteuid w self now incoming = (w', self', res) → store_step (w, self) (w', self').

Lemma put_conservative w self revision w' self' res :
  conservative self → put geteuid process_id w self revision = Some (w', self', res) →
  conservative self' ∧ drift self' = drift self ∧ (accounted self → accounted self').
Proof.
  intros Hcons. unfold put. destruct (validate_root geteuid w) as [w1 [[]|error]]; [|by intros [= <- <- <-]].
  destruct (prepare_put self revision) as [[[[[evidence manifest] bytes] event_bytes]|error]|] eqn:Hp;
    [|by intros [= <- <- <-]|done].
  cbn [fmap option_fmap option_map]. destruct (and_then _ _) as [w2 [[]|error]]; [|by intros [= <- <- <-]].
  intros [= <- <- <-]. apply prepare_put_ok in Hp as (Hc & _ & _ & Hm & Hb). apply check_revision_ok in Hc as (Hrev & _).
  apply build_manifest_exact in Hm as (_ & _ & Hme).
  apply record_put_conservative in Hb; [|done..|rewrite Hme; cbn; lia]. cbv zeta in Hb. tauto.
Qed.

Lemma put_commits w self revision w' self' summary :
  put geteuid process_id w self revision = Some (w', self', Ok summary) →
  IncidentRevisionV1_validate revision = Ok tt ∧
  ∃ detail, get self' (ir_event_id revision) = Ok detail ∧ ed_latest detail = revision.
Proof.
  unfold put. destruct (validate_root geteuid w) as [w1 [[]|error]]; [|done].
  destruct (prepare_put self revision) as [[[[[evidence manifest] bytes] event_bytes]|error]|] eqn:Hp; [|done..].
  cbn [fmap option_fmap option_map]. destruct (and_then _ _) as [w2 [[]|error]]; [|done].
  intros [= <- <- _]. apply prepare_put_ok in Hp as (Hc & _). apply check_revision_ok in Hc as (Hrev & _).
  split; [done|]. unfold get. cbn [record_put st_index]. rewrite lookup_insert_eq. by eexists.
Qed.

(** Over every run of commits and retentions, the bytes and the events that
    the store counts cover what its index holds, so that its limits are limits on
    what is indexed.  The excess never shrinks: what a deletion that fails leaves
    counted stays counted as long as the store is open. *)
Lemma store_accounting w self w' self' :
  rtc store_step (w, self) (w', self') → conservative self → conservative self' ∧ drift self ≤ drift self'.
Proof.
  intros Hrun. remember (w, self) as s eqn:Hs. remember (w', self') as s' eqn:Hs'. revert w self Hs.
  induction Hrun as [s|s m s' Hstep _ IH]; intros w0 self0 Hs Hcons.
  { rewrite Hs in Hs'. injection Hs' as -> ->. split; [done|lia]. }
  destruct m as [w1 self1]. specialize (IH Hs' w1 self1 eq_refl).
  assert (conservative self1 ∧ drift self0 ≤ drift self1) as [Hcons1 Hd].
  { subst s. inversion Hstep as [? ? ? ? ? ? Hput|? ? now incoming ? ? ? Hret]; subst.
    - destruct (put_conservative _ _ _ _ _ _ Hcons Hput) as (? & -> & _). split; [done|lia].
    - pose proof (enforce_retention_conservative w0 self0 now incoming Hcons) as Hc. rewrite Hret in Hc. tauto. }
  destruct (IH Hcons1). split; [done|lia].
Qed.
End runs.

(** ** Recovery *)
Lemma parse_revision_name_Some name revision :
  parse_revision_name name = Some revision → name = hex16 revision ∧ 1 ≤ revision ≤ EVIDENCE_MAX_REVISIONS_PER_EVENT.
Proof.
  unfold parse_revision_name. destruct (Nat.eqb_spec (String.length name) 16) as [Hl|]; [|done].
  destruct (forallb is_lower_hex (string_bytes name)) eqn:Hx; [|done]. cbn [negb orb].
  destruct (_ && _) eqn:Hr; [|done]. intros [= <-]. boolify. split; [|lia].
  unfold hex16. rewrite <-Hl, <-string_bytes_length, hex_fixed_from by done. unfold string_bytes.
  by rewrite String.string_of_list_ascii_of_string.
Qed.

Lemma parse_revision_names names :
  NoDup (List.filter (λ name, negb (bool_decide (name = ""%string))) names) →
  Z.of_nat (length (omap parse_revision_name names)) ≤ EVIDENCE_MAX_REVISIONS_PER_EVENT.
Proof.
  intros Hnd. assert (NoDup (omap parse_revision_name names)) as Hnd'.
  { induction names as [|name names IH]; [constructor|]. cbn in Hnd |- *.
    destruct (parse_revision_name name) as [r|] eqn:Hp.
    - destruct (bool_decide_reflect (name = ""%string)) as [->|Hne]; [done|]. cbn in Hnd.
      apply NoDup_cons in Hnd as [Hin Hnd]. constructor; [|by apply IH]. intros Hr.
      apply list_elem_of_omap in Hr as (name' & Hin' & Hp'). apply Hin, list_elem_of_In, filter_In.
      apply parse_revision_name_Some in Hp as [-> _]. pose proof Hp' as [-> _]%parse_revision_name_Some.
      split; [by apply list_elem_of_In|]. by rewrite bool_decide_eq_false_2.
    - apply IH. destruct (negb _); [by apply NoDup_cons in Hnd as [_ ?]|done]. }
  assert (omap parse_revision_name names ⊆+ seqZ 1 EVIDENCE_MAX_REVISIONS_PER_EVENT) as Hsub.
  { apply NoDup_submseteq; [done|]. intros r (name & _ & Hp)%list_elem_of_omap. apply parse_revision_name_Some in Hp as [_ Hp].
    apply elem_of_seqZ. lia. }
  apply submseteq_length in Hsub. rewrite length_seqZ in Hsub. unfold EVIDENCE_MAX_REVISIONS_PER_EVENT in *. lia.
Qed.

(** A directory lists each name once (names that are not UTF-8 read as empty). *)
Definition real_name (name : string) : bool := negb (bool_decide (name = ""%string)).

Class EvidenceListing (W : Type) `{EvidenceIo W} : Prop := read_directory_names :
  ∀ w p w' paths, read_directory w p = (w', Ok paths) → NoDup (List.filter real_name (file_name <$> paths)).

Section recovery.
Context {W : Type} `{EvidenceIo W} `{EvidenceCodec} (geteuid : Z).
Implicit Types (w : W) (self : LinuxEvidenceStore).

Lemma manifest_total_bounds manifest :
  EvidenceManifestV1_validate manifest = Ok tt →
  em_evidence_bytes manifest ≤ em_total_bytes manifest ≤ EVIDENCE_MAX_EVENT_BYTES.
Proof. unfold EvidenceManifestV1_validate. destruct (_ || _) eqn:Hb; [done|]. intros _. boolify. lia. Qed.

(** What recovery accepts. *)
Lemma read_revision_ok w id number p w' revision manifest :
  read_revision geteuid w id number p = (w', Ok (revision, manifest)) →
  IncidentRevisionV1_validate revision = Ok tt ∧ ir_event_id revision = id ∧ ir_revision revision = number ∧
  0 ≤ em_total_bytes manifest ≤ EVIDENCE_MAX_EVENT_BYTES.
Proof.
  unfold read_revision, and_then.
  destruct (or_error (validate_private_directory _ _ _) _) as [w1 [[]|]]; [|done].
  destruct (or_error (read_directory _ _) _) as [w2 [entries|]]; [|done].
  destruct (negb _ || negb _); [done|]. destruct (negb _); [done|].
  destruct (validate_private_file _ _ _) as [w3 [[]|]]; [|done].
  destruct (validate_private_file _ _ _) as [w4 [[]|]]; [|done].
  destruct (read_manifest _ _ _ _) as [w5 [man|]] eqn:Hm; [|done].
  destruct (read_evidence _ _ _ _ _) as [w6 [rev|]] eqn:He; [|done]. intros [= <- <- <-].
  unfold read_manifest, and_then in Hm. destruct (or_error _ _) as [w7 [bytes|]]; [|done].
  destruct (manifest_from_json bytes) as [man'|]; [|done]. destruct (negb (is_ok _) || _ || _) eqn:Hb; [done|].
  injection Hm as <- <-. boolify. unfold read_evidence, and_then in He.
  destruct (or_error _ _) as [w8 [text|]]; [|done]. destruct (negb _ || negb _) eqn:Hlen; [done|].
  destruct (revision_from_json text) as [rev'|]; [|done]. destruct (negb _ || _ || _ || _ || _) eqn:Hv; [done|].
  injection He as <- <-. boolify.
  destruct (EvidenceManifestV1_validate man') as [[]|] eqn:Hman; [|done].
  destruct (IncidentRevisionV1_validate rev') as [[]|] eqn:Hrev; [|done].
  apply manifest_total_bounds in Hman. split_and!; done || lia.
Qed.

(** The newest revision is validated and the bytes are those of [n] revisions at most. *)
Definition recovering_ok (id : EventId) (n : Z) (acc : recovering) : Prop :=
  let '(latest, bytes, _) := acc in
  0 ≤ bytes ≤ n * EVIDENCE_MAX_EVENT_BYTES ∧
  ∀ revision, latest = Some revision → IncidentRevisionV1_validate revision = Ok tt ∧ ir_event_id revision = id.

Definition counted (paths : list path) : Z := Z.of_nat (length (omap parse_revision_name (file_name <$> paths))).

Lemma recover_entry_ok w id n acc p :
  recovering_ok id n acc → 0 ≤ n → n + counted [p] ≤ EVIDENCE_MAX_REVISIONS_PER_EVENT →
  recovering_ok id (n + counted [p]) (recover_entry geteuid w id acc p).2 ∧
  sh_total_bytes (recover_entry geteuid w id acc p).2.2 = sh_total_bytes acc.2 ∧
  sh_available (recover_entry geteuid w id acc p).2.2 = sh_available acc.2.
Proof.
  destruct acc as [[latest bytes] health]. intros Hok Hn Hmax.
  assert (0 ≤ counted [p]) by (unfold counted; lia).
  assert (∀ h, recovering_ok id (n + counted [p]) (latest, bytes, h)) as Hkeep.
  { intros h. destruct Hok as [Hb Hl]. split; [|exact Hl]. unfold EVIDENCE_MAX_EVENT_BYTES in *. lia. }
  unfold recover_entry. destruct (String.prefix ".tmp-" (file_name p)); [split_and!; [apply Hkeep|done..]|].
  destruct (parse_revision_name (file_name p)) as [number|] eqn:Hp; [|split_and!; [apply Hkeep|done..]].
  destruct (read_revision geteuid w id number p) as [w1 [[revision manifest]|[]]] eqn:Hr; [|split_and!; [apply Hkeep|done..]..].
  apply read_revision_ok in Hr as (Hv & Hid & _ & Ht). split_and!; [|done..].
  assert (counted [p] = 1) as Hc by (unfold counted; cbn; by rewrite Hp). rewrite Hc in *.
  destruct Hok as [Hb Hl]. cbn [snd adopt]. split.
  - unfold saturating_add. assert (EVIDENCE_MAX_REVISIONS_PER_EVENT * EVIDENCE_MAX_EVENT_BYTES < U64_MAX) by done.
    unfold EVIDENCE_MAX_EVENT_BYTES, EVIDENCE_MAX_REVISIONS_PER_EVENT in *. lia.
  - intros r. destruct latest as [current|]; [destruct (ir_revision current <? ir_revision revision)|]; naive_solver.
Qed.

Lemma recover_entries_ok w id n acc paths :
  recovering_ok id n acc → 0 ≤ n → n + counted paths ≤ EVIDENCE_MAX_REVISIONS_PER_EVENT →
  recovering_ok id (n + counted paths) (recover_entries geteuid w id acc paths).2 ∧
  sh_total_bytes (recover_entries geteuid w id acc paths).2.2 = sh_total_bytes acc.2 ∧
  sh_available (recover_entries geteuid w id acc paths).2.2 = sh_available acc.2.
Proof.
  revert w n acc. induction paths as [|p paths IH]; intros w n acc Hok Hn Hmax.
  { cbn. unfold counted. cbn. by rewrite Z.add_0_r. }
  assert (counted (p :: paths) = counted [p] + counted paths) as Hc.
  { unfold counted. cbn. destruct (parse_revision_name (file_name p)); cbn; lia. }
  assert (0 ≤ counted [p] ∧ 0 ≤ counted paths) by (unfold counted; lia). rewrite Hc in *.
  cbn [recover_entries]. destruct (recover_entry_ok w id n acc p Hok Hn ltac:(lia)) as (Hok' & Ht & Ha).
  destruct (recover_entry geteuid w id acc p) as [w' acc']. cbn [snd] in *.
  destruct (IH w' _ acc' Hok' ltac:(lia) ltac:(lia)) as (Hok2 & Ht2 & Ha2).
  rewrite Z.add_assoc, <-Ht, <-Ha. by split.
Qed.

Lemma recover_event_ok `{!EvidenceListing W} w id p health w' detail health' :
  recover_event geteuid w id p health = (w', Ok (detail, health')) →
  sh_total_bytes health' = sh_total_bytes health ∧ sh_available health' = sh_available health ∧
  ∀ d, detail = Some d → d = detail_from_revision (ed_latest d) (bundle d) ∧ ir_event_id (ed_latest d) = id ∧
    0 ≤ bundle d ≤ EVIDENCE_MAX_REVISIONS_PER_EVENT * EVIDENCE_MAX_EVENT_BYTES ∧
    IncidentRevisionV1_validate (ed_latest d) = Ok tt.
Proof.
  unfold recover_event. destruct (validate_private_directory _ w p) as [w1 [[]|]]; [|by intros [= <- <- <-]].
  unfold and_then, or_error. destruct (read_directory w1 p) as [w2 [paths|]] eqn:Hd; [|done]. cbn.
  apply read_directory_names, parse_revision_names in Hd. fold (counted paths) in Hd.
  pose proof (recover_entries_ok w2 id 0 (None, 0, health) paths) as Hok.
  destruct (recover_entries geteuid w2 id (None, 0, health) paths) as [w3 [[latest bytes] h]]. intros [= <- <- <-].
  destruct Hok as ([Hb Hl] & Ht & Ha); [split; [cbn; lia|done]|done|done|]. split_and!; [exact Ht|exact Ha|].
  intros d Hsome. destruct latest as [revision|]; [|done]. injection Hsome as <-.
  destruct (Hl revision eq_refl). cbn. split_and!; try done; [apply Hb|].
  unfold EVIDENCE_MAX_EVENT_BYTES in *. cbn. lia.
Qed.

Definition EVENT_BOUND : Z := EVIDENCE_MAX_REVISIONS_PER_EVENT * EVIDENCE_MAX_EVENT_BYTES.

(** The index so far is exact and holds at most the events seen so far. *)
Definition scanning_ok (seen : list string) (acc : scanning) : Prop :=
  let '(index, health, events) := acc in
  index_valid index ∧ sh_available health = true ∧ sh_total_bytes health = total_of index ∧ total_of index ≤ events * EVENT_BOUND ∧
  Z.of_nat (size index) ≤ events ≤ EVIDENCE_MAX_EVENTS ∧
  ∀ id, is_Some (index !! id) → EventId_to_string id ∈ seen.

Lemma scan_event_ok `{!EvidenceListing W} w seen acc p w' acc' :
  scanning_ok seen acc → (real_name (file_name p) = true → file_name p ∉ seen) →
  scan_event geteuid w acc p = (w', Ok acc') → scanning_ok (file_name p :: seen) acc'.
Proof.
  destruct acc as [[index health] events]. intros (Hv & Ha & Ht & Hb & Hs & Hseen) Hnew.
  assert (∀ id, is_Some (index !! id) → EventId_to_string id ∈ file_name p :: seen) as Hseen' by (intros; right; auto).
  unfold scan_event. destruct (EventId_from_str (file_name p)) as [id|] eqn:Hid; [|by intros [= <- <-]].
  pose proof Hid as [_ Hname]%event_id_to_from.
  destruct (_ || _) eqn:Hc; [by intros [= <- <-]|]. boolify. unfold and_then.
  destruct (recover_event geteuid w id p health) as [w1 [[detail health']|]] eqn:Hr; [|done].
  apply recover_event_ok in Hr as (Hth & Hah & Hd). rewrite <-Hah in Ha. destruct detail as [d|]; intros [= <- <-].
  - destruct (Hd d eq_refl) as (Hform & Hidd & Hbound & Hrev).
    assert (index !! id = None) as Hnone.
    { apply eq_None_not_Some. intros Hin. apply Hseen in Hin. rewrite Hname in Hin. apply Hnew; [|done].
      unfold real_name. rewrite bool_decide_eq_false_2; [done|]. intros He. rewrite He in Hid. done. }
    pose proof (total_of_nonneg _ Hv).
    assert (EVIDENCE_MAX_EVENTS * EVENT_BOUND < U64_MAX) by done. unfold scanning_ok, EVENT_BOUND, EVIDENCE_MAX_EVENTS, EVIDENCE_MAX_REVISIONS_PER_EVENT, EVIDENCE_MAX_EVENT_BYTES in *.
    rewrite total_of_insert_new by done. cbn [with_usage sh_total_bytes].
    split_and!; [|done|unfold saturating_add; change (es_bundle_bytes (ed_summary d)) with (bundle d); lia|lia| |lia|].
    + intros i x. destruct (decide (i = id)) as [->|]; [|rewrite lookup_insert_ne by done; apply Hv].
      rewrite lookup_insert_eq. intros [= <-]. split_and!; done || lia.
    + rewrite map_size_insert_None by done. lia.
    + intros i. destruct (decide (i = id)) as [->|]; [rewrite Hname; left|]. rewrite lookup_insert_ne by done. apply Hseen'.
  - unfold scanning_ok, EVENT_BOUND, EVIDENCE_MAX_EVENTS, EVIDENCE_MAX_REVISIONS_PER_EVENT, EVIDENCE_MAX_EVENT_BYTES in *. pose proof (total_of_nonneg _ Hv). rewrite <-Hth in Ht.
    split_and!; try done; try lia.
Qed.

Lemma scan_events_ok `{!EvidenceListing W} w seen acc paths w' acc' :
  scanning_ok seen acc → NoDup (List.filter real_name (file_name <$> paths)) →
  (∀ p, p ∈ paths → real_name (file_name p) = true → file_name p ∉ seen) →
  scan_events geteuid w acc paths = (w', Ok acc') → ∃ seen, scanning_ok seen acc'.
Proof.
  revert w seen acc. induction paths as [|p paths IH]; intros w seen acc Hok Hnd Hnew.
  { intros [= <- <-]. by exists seen. }
  cbn [scan_events]. unfold and_then. destruct (scan_event geteuid w acc p) as [w1 [acc1|]] eqn:Hs; [|done].
  apply (scan_event_ok _ seen) in Hs; [|done|apply Hnew; left]. cbn in Hnd. apply IH with (seen := file_name p :: seen); [done|..].
  - destruct (real_name (file_name p)); [by apply NoDup_cons in Hnd as [_ ?]|done].
  - intros q Hq Hr [Heq|Hin]%elem_of_cons.
    + rewrite Heq in Hr. rewrite Hr in Hnd. apply NoDup_cons in Hnd as [Hni _]. apply Hni. apply list_elem_of_In, filter_In.
      split; [|done]. apply list_elem_of_In. rewrite <-Heq. by apply list_elem_of_fmap_2.
    + by apply (Hnew q); [right|..].
Qed.

(** Opening or recovering a store, whatever its directory holds, gives an
    index of validated revisions under their own events, counts that are exactly
    what the index holds, at most a thousand events, and no overflow of the bytes. *)
Lemma recover_accounts `{!EvidenceListing W} w self :
  match recover geteuid w self with
  | (_, self', Ok _) =>
      accounted self' ∧ sh_available (st_health self') = true ∧
      Z.of_nat (size (st_index self')) ≤ EVIDENCE_MAX_EVENTS ∧ st_package_version self' = st_package_version self
  | (_, self', Err _) => self' = self
  end.
Proof.
  unfold recover, and_then, or_error. destruct (validate_root geteuid w) as [w1 [[]|]]; [|done].
  destruct (read_directory w1 []) as [w2 [paths|]] eqn:Hd; [|done]. cbn [fst snd map_err].
  apply read_directory_names in Hd.
  destruct (scan_events _ _ _ _) as [w3 [[[index health] events]|]] eqn:Hs; [|done].
  assert (∃ seen, scanning_ok seen (index, health, events)) as (seen & Hv & Ha & Ht & Hb & Hsz & _).
  { eapply (scan_events_ok w2 [] _ paths); [|exact Hd| |exact Hs].
    - unfold scanning_ok. split_and!; try done. by intros id [? ?].
    - intros p _ _ Hin. by apply not_elem_of_nil in Hin. }
  assert (EVIDENCE_MAX_EVENTS * EVENT_BOUND < U64_MAX) by done. assert (EVIDENCE_MAX_EVENTS < U16_MAX) by done.
  unfold EVENT_BOUND, EVIDENCE_MAX_EVENTS, EVIDENCE_MAX_REVISIONS_PER_EVENT, EVIDENCE_MAX_EVENT_BYTES in *.
  unfold accounted. cbn. unfold index_count. rewrite Z.min_r by lia. split_and!; try done; lia.
Qed.
End recovery.

(** ** Instances *)
Module EvidenceFactsExample.
Import TreeDisk EvidenceSample.

#[export] Instance disk_listing : EvidenceListing disk.
Proof.
  intros w p w' paths Hr. assert (NoDup (file_name <$> paths)) as Hnd.
  { revert Hr. cbn [read_directory disk_io]. unfold call.
    destruct (dk_calls w) as [[|n]|]; [done|..]; cbn [dk_nodes]; (destruct (find_node _ _) as [[]|]; [|done..]);
      intros [= <- <-]; apply children_names. }
  eapply sublist_NoDup; [exact Hnd|]. generalize (file_name <$> paths). intros k. induction k as [|x k IH]; [done|].
  cbn. destruct (real_name x); by constructor.
Qed.

Lemma store_accounted : accounted store.
Proof. split_and!; [intros id d Hd; cbn in Hd; by rewrite lookup_empty in Hd|done..]. Qed.

Lemma put_one_accounted s r : accounted s.2 → accounted (put_one s r).2.
Proof.
  intros Ha. unfold put_one. destruct (put uid 1 s.1 s.2 r) as [[[w self] [summary|]]|] eqn:Hp; [|done..].
  apply put_conservative in Hp as (_ & _ & Hacc); [by apply Hacc|by apply accounted_conservative].
Qed.

Lemma filled_accounted : accounted filled.2.
Proof. unfold filled. do 3 apply put_one_accounted. apply store_accounted. Qed.

Lemma put_one_step s r : rtc (store_step uid 1) s (put_one s r).
Proof.
  unfold put_one. destruct (put uid 1 s.1 s.2 r) as [[[w self] [summary|]]|] eqn:Hp; [|done..].
  apply rtc_once. destruct s as [w0 self0]. by eapply step_put.
Qed.

#[export] Instance sample_manifest_text : ManifestText.
Proof.
  intros manifest. exists 4%nat. intros total _. eexists. split; [reflexivity|]. rewrite length_app, length_replicate. reflexivity.
Qed.

Lemma filled_run : rtc (store_step uid 1) (empty, store) filled.
Proof. unfold filled. do 3 (etrans; [|apply put_one_step]). done. Qed.

#[local] Opaque filled.

Lemma filled_index : index_ok (st_index filled.2).
Proof. apply index_valid_ok, filled_accounted. Qed.

Lemma filled_space : capacity (validate_root uid filled.1).1 = (filled.1, Ok (mkFilesystemSpace 10000000000 5000000000)).
Proof. vm_compute. reflexivity. Qed.

Lemma filled_total : total_of (st_index filled.2) = 24.
Proof. vm_compute. reflexivity. Qed.

Lemma filled_capacity : capacity_ok uid filled.1 filled.2.
Proof. intros w' filesystem Hc. rewrite filled_space in Hc. apply (f_equal snd) in Hc. cbn [snd] in Hc. injection Hc as <-.
  rewrite filled_total. done. Qed.

(** More than thirty days after the first event was closed. *)
Definition LATER : Z := 3000000000.

Definition revived (w : disk) (calls : option nat) : disk := mkdisk (dk_nodes w) calls (dk_sequence w) (dk_space w) (dk_earlier w).

(** The disk fails between the removal of the event and the synchronisation. *)
Definition half_deleted : disk * LinuxEvidenceStore * result EvidenceStoreError RetentionOutcome :=
  enforce_retention uid (revived filled.1 (Some 4%nat)) filled.2 LATER 100.

(** Two closed events on a disk that fails at its seventy-fourth call, between the
    two deletions. *)
Definition failing : disk := revived empty (Some 73%nat).

Definition closed_both : disk * LinuxEvidenceStore :=
  put_one (put_one (put_one (put_one (failing, store) (revision 1 1 None)) (revision 1 2 (Some 2000)))
    (revision 2 1 None)) (revision 2 2 (Some 2000)).

Definition overcounted : disk * LinuxEvidenceStore * result EvidenceStoreError RetentionOutcome :=
  enforce_retention uid closed_both.1 closed_both.2 LATER 100.

Lemma overcounted_run : rtc (store_step uid 1) (failing, store) overcounted.1.
Proof.
  eapply rtc_r with closed_both; [unfold closed_both; do 4 (etrans; [|apply put_one_step]); done|].
  rewrite (surjective_pairing closed_both), (surjective_pairing overcounted.1).
  apply (step_retention uid 1 _ _ LATER 100 _ _ overcounted.2). unfold overcounted. by rewrite <-!surjective_pairing.
Qed.

Lemma overcounted_drift : drift overcounted.1.2 = 16 ∧ is_ok overcounted.2 = false.
Proof. vm_compute. by split. Qed.
End EvidenceFactsExample.

(** ** Witnesses *)
Section witnesses.
Import TreeDisk EvidenceSample EvidenceFactsExample.

(** The closed event is removed, the open one kept. *)
Lemma expired_removed :
  ∃ w self outcome, enforce_retention uid filled.1 filled.2 LATER 100 = (w, self, Ok outcome) ∧
    ro_deleted_event_ids outcome = [event 1] ∧ size (st_index self) = 1%nat.
Proof. vm_compute. do 3 eexists. split_and!; reflexivity. Qed.

Lemma retention_correct_witness :
  ∃ w self outcome, enforce_retention uid filled.1 filled.2 LATER 100 = (w, self, Ok outcome) ∧
    ro_deleted_event_ids outcome = [event 1] ∧ accounted self ∧
    su_total_bytes (ro_usage outcome) = total_of (st_index self) ∧ su_required_free_reserve (ro_usage outcome) = 536870912.
Proof.
  destruct expired_removed as (w & self & outcome & Hr & Hd & _). exists w, self, outcome.
  pose proof (retention_correct uid filled.1 filled.2 LATER 100 filled_accounted ltac:(lia) filled_capacity) as Hc.
  rewrite Hr in Hc. destruct Hc as (k & _ & _ & Hacc & w1 & filesystem & Hspace & _ & _ & ->).
  rewrite filled_space in Hspace. apply (f_equal snd) in Hspace. cbn [snd] in Hspace. injection Hspace as <-. auto.
Defined.

Lemma second_committed :
  (λ s, is_ok s.2) <$> put uid 1 filled.1 filled.2 (revision 2 2 None) = Some true.
Proof. vm_compute. reflexivity. Qed.

Lemma put_correct_witness :
  ∃ w self summary, put uid 1 filled.1 filled.2 (revision 2 2 None) = Some (w, self, Ok summary) ∧
    accounted self ∧ drift self = drift filled.2 ∧ get self (event 1) = get filled.2 (event 1).
Proof.
  destruct (put_correct uid 1 filled.1 filled.2 (revision 2 2 None) (accounted_conservative _ filled_accounted))
    as (w & self & res & Hp & Hres).
  pose proof second_committed as Hok. rewrite Hp in Hok. destruct res as [summary|error]; [|discriminate Hok].
  exists w, self, summary. split; [exact Hp|]. destruct Hres as (_ & _ & _ & _ & Hother & _ & _ & _ & _ & _ & Hdrift & Hacc).
  split; [apply Hacc, filled_accounted|]. split; [exact Hdrift|]. by apply Hother.
Defined.

(** Of two deletions the second fails: the store counts sixteen bytes that it does
    not hold. *)
Lemma store_accounting_witness :
  (conservative overcounted.1.2 ∧ drift store ≤ drift overcounted.1.2) ∧ drift store = 0 ∧ drift overcounted.1.2 = 16.
Proof.
  split; [|split; [reflexivity|apply overcounted_drift]].
  apply (store_accounting uid 1 failing store overcounted.1.1 overcounted.1.2).
  - rewrite <-surjective_pairing. apply overcounted_run.
  - apply accounted_conservative, store_accounted.
Defined.

Lemma filled_recovers : is_ok (recover uid filled.1 store).2 = true ∧ size (st_index (recover uid filled.1 store).1.2) = 2%nat.
Proof. vm_compute. by split. Qed.

Lemma recover_accounts_witness :
  ∃ w self, recover uid filled.1 store = (w, self, Ok tt) ∧ accounted self ∧ size (st_index self) = 2%nat.
Proof.
  pose proof (recover_accounts uid filled.1 store) as Hr. pose proof filled_recovers as [Hok Hsize].
  destruct (recover uid filled.1 store) as [[w self] [[]|]]; [|discriminate Hok].
  exists w, self. split; [reflexivity|]. split; [apply Hr|exact Hsize].
Defined.
End witnesses.
