(* ===== verification/Output.v ===== *)
(** The incident output worker of [l2-loop-agent] ([incident_output.rs]): jobs are
    submitted without waiting into a bounded channel, and one task takes them out,
    persists each of them, raises its alert and records the health of the output.
    Submitters and the worker interleave: the worker is a step relation, whose
    steps are the points at which the other side can observe it.

    The backend is a class of operations; [None] is a panic inside one. *)
From S2P Require Import Prelude Domain Text Packet Observation Rate Baseline FrameHash Fingerprint FingerprintWindow DetectionSignals Detection Evidence Snapshot Incident EvidenceStore.

Definition OUTPUT_STORE_UNAVAILABLE : string := "OUTPUT_STORE_UNAVAILABLE".
Definition OUTPUT_QUEUE_FULL : string := "OUTPUT_QUEUE_FULL".
Definition OUTPUT_WORKER_FAILED : string := "OUTPUT_WORKER_FAILED".

Inductive IncidentOutputError : Type := StoreUnavailable.
Inductive IncidentOutputSubmitError : Type := QueueFull | QueueClosed.

#[export] Instance EvidenceStatus_eq_dec : EqDecision EvidenceStatus.
Proof. solve_decision. Defined.

(** ** Backends *)
Class IncidentOutputBackend (B : Type) : Type := {
  persist : B → IncidentWriteJob → B * option (result IncidentOutputError unit);
  raise_alert : B → IncidentWriteJob → EvidenceStatus → B * option AlertSinkMode;
}.

(** The backend of an output without a store. *)
Inductive UnavailableIncidentOutputBackend : Type := UnavailableBackend.

#[export] Instance unavailable_backend : IncidentOutputBackend UnavailableIncidentOutputBackend := {
  persist b _ := (b, Some (Err StoreUnavailable));
  raise_alert b _ _ := (b, Some StderrJson);
}.

(** ** The evidence store as a backend *)
Section evidence_store.
Context {W : Type} `{EvidenceIo W} `{EvidenceCodec} (geteuid process_id : Z).

(** Room is made for a whole revision before it is committed.  [now_unix_ms] is the
    system clock; [None] outside is lack of fuel. *)
Definition persist_revision (w : W) (self : LinuxEvidenceStore) (now_unix_ms : option Z) (revision : IncidentRevisionV1)
    : option (W * LinuxEvidenceStore * result IncidentOutputError unit) :=
  match now_unix_ms with
  | None => Some (w, self, Err StoreUnavailable)
  | Some now_unix_ms =>
      match enforce_retention geteuid w self now_unix_ms EVIDENCE_MAX_REVISION_BYTES with
      | (w, self, Err _) => Some (w, self, Err StoreUnavailable)
      | (w, self, Ok _) =>
          (λ '(w, self, res), (w, self, _ ← map_err (λ _, StoreUnavailable) res; Ok tt))
          <$> put geteuid process_id w self revision
      end
  end.
End evidence_store.

(** ** Health *)
Definition update_health (health : OutputHealth) (store_available : bool)
    (error_code : option string) (dropped : bool) : OutputHealth :=
  mkOutputHealth OutputHealthDegraded store_available (oh_corrupt_object_count health)
    (oh_incomplete_object_count health) (oh_unknown_object_count health) (oh_alert_sink health)
    error_code
    (if dropped then saturating_add U64_MAX (oh_dropped_job_count health) 1
     else oh_dropped_job_count health).

Definition with_alert_sink (health : OutputHealth) (alert_sink : AlertSinkMode) : OutputHealth :=
  mkOutputHealth (oh_state health) (oh_store_available health) (oh_corrupt_object_count health)
    (oh_incomplete_object_count health) (oh_unknown_object_count health) alert_sink
    (oh_last_error_code health) (oh_dropped_job_count health).

Definition initial_health : OutputHealth := mkOutputHealth OutputHealthy true 0 0 0 StderrJson None 0.

(** ** The worker *)

(** The task: in its loop, draining the closed channel, returned, or aborted. *)
Inductive WorkerPhase : Type := WorkerRunning | WorkerDraining | WorkerReturned | WorkerAborted.

#[export] Instance WorkerPhase_eq_dec : EqDecision WorkerPhase.
Proof. solve_decision. Defined.

Record OutputWorker (B : Type) : Type := mkOutputWorker {
  ow_backend : B;
  ow_poisoned : bool;
  ow_queue : list IncidentWriteJob;
  ow_in_flight : option IncidentWriteJob;
  ow_closed : bool;
  ow_shutdown : bool;
  ow_handles : bool;
  ow_phase : WorkerPhase;
  ow_health : OutputHealth;
}.
Arguments mkOutputWorker {B} _ _ _ _ _ _ _ _ _.
Arguments ow_backend {B} _.
Arguments ow_poisoned {B} _.
Arguments ow_queue {B} _.
Arguments ow_in_flight {B} _.
Arguments ow_closed {B} _.
Arguments ow_shutdown {B} _.
Arguments ow_handles {B} _.
Arguments ow_phase {B} _.
Arguments ow_health {B} _.

Section worker.
Context {B : Type} `{IncidentOutputBackend B}.
Implicit Types (self : OutputWorker B) (job : IncidentWriteJob).

Definition start_with_health (backend : B) (health : OutputHealth) : OutputWorker B :=
  mkOutputWorker backend false [] None false false true WorkerRunning health.

Definition OutputWorker_start (backend : B) : OutputWorker B := start_with_health backend initial_health.

(** Assignments to parts of the state. *)
Definition set_health self (health : OutputHealth) : OutputWorker B :=
  mkOutputWorker (ow_backend self) (ow_poisoned self) (ow_queue self) (ow_in_flight self)
    (ow_closed self) (ow_shutdown self) (ow_handles self) (ow_phase self) health.
Definition set_queue self (queue : list IncidentWriteJob) (in_flight : option IncidentWriteJob)
    : OutputWorker B :=
  mkOutputWorker (ow_backend self) (ow_poisoned self) queue in_flight
    (ow_closed self) (ow_shutdown self) (ow_handles self) (ow_phase self) (ow_health self).
Definition set_phase self (closed : bool) (phase : WorkerPhase) : OutputWorker B :=
  mkOutputWorker (ow_backend self) (ow_poisoned self) (ow_queue self) (ow_in_flight self)
    closed (ow_shutdown self) (ow_handles self) phase (ow_health self).
Definition set_backend self (backend : B) (poisoned : bool) : OutputWorker B :=
  mkOutputWorker backend poisoned (ow_queue self) (ow_in_flight self)
    (ow_closed self) (ow_shutdown self) (ow_handles self) (ow_phase self) (ow_health self).
Definition set_flags self (shutdown handles : bool) : OutputWorker B :=
  mkOutputWorker (ow_backend self) (ow_poisoned self) (ow_queue self) (ow_in_flight self)
    (ow_closed self) shutdown handles (ow_phase self) (ow_health self).

(** [IncidentOutputHandle::try_submit] on the bounded channel. *)
Definition try_submit self job : OutputWorker B * result IncidentOutputSubmitError unit :=
  if ow_closed self then
    (set_health self (update_health (ow_health self) false (Some OUTPUT_WORKER_FAILED) true),
     Err QueueClosed)
  else if (length (ow_queue self) <? INCIDENT_OUTPUT_QUEUE_CAPACITY)%nat then
    (set_queue self (push_back (ow_queue self) job) (ow_in_flight self), Ok tt)
  else
    (set_health self (update_health (ow_health self) false (Some OUTPUT_QUEUE_FULL) true), Err QueueFull).

(** The blocking closure of [process_job]: [None] when it panics, which poisons the
    lock of the backend. *)
Definition run_backend (backend : B) (poisoned : bool) job
    : B * bool * option (result IncidentOutputError unit * AlertSinkMode) :=
  if poisoned then (backend, true, Some (Err StoreUnavailable, StderrJson))
  else
    match persist backend job with
    | (backend, None) => (backend, true, None)
    | (backend, Some persisted) =>
        let status := if is_ok persisted then Stored else EvidenceStatusUnavailable in
        match raise_alert backend job status with
        | (backend, None) => (backend, true, None)
        | (backend, Some alert_sink) => (backend, false, Some (persisted, alert_sink))
        end
    end.

Definition process_job self job : OutputWorker B :=
  let '(backend, poisoned, res) := run_backend (ow_backend self) (ow_poisoned self) job in
  let self := set_backend self backend poisoned in
  match res with
  | Some (persisted, alert_sink) =>
      let self := set_health self (with_alert_sink (ow_health self) alert_sink) in
      if is_ok persisted then self
      else set_health self (update_health (ow_health self) false (Some OUTPUT_STORE_UNAVAILABLE) false)
  | None => set_health self (update_health (ow_health self) false (Some OUTPUT_STORE_UNAVAILABLE) false)
  end.

(** What becomes visible of a step. *)
Inductive output_event : Type :=
| Accepted (job : IncidentWriteJob)
| Dropped (job : IncidentWriteJob) (error : IncidentOutputSubmitError)
| Processed (job : IncidentWriteJob) (stored : bool)
| Abandoned (jobs : list IncidentWriteJob)
| Silent.

(** Whether the closure persisted the job. *)
Definition job_stored self job : bool :=
  match run_backend (ow_backend self) (ow_poisoned self) job with
  | (_, _, Some (Ok _, _)) => true
  | _ => false
  end.

Inductive output_step : OutputWorker B → output_event → OutputWorker B → Prop :=
| StepSubmit self job self' res :
    ow_handles self = true → try_submit self job = (self', res) →
    output_step self (match res with Ok _ => Accepted job | Err e => Dropped job e end) self'
| StepDropHandles self :
    output_step self Silent (set_flags self (ow_shutdown self) false)
| StepShutdown self :
    output_step self Silent (set_flags self true (ow_handles self))
| StepNotice self :
    ow_phase self = WorkerRunning → ow_in_flight self = None → ow_shutdown self = true →
    output_step self Silent (set_phase self true WorkerDraining)
| StepReceive self job queue :
    ow_phase self = WorkerDraining ∨ (ow_phase self = WorkerRunning ∧ ow_shutdown self = false) →
    ow_in_flight self = None → ow_queue self = job :: queue →
    output_step self Silent (set_queue self queue (Some job))
| StepComplete self job :
    ow_phase self = WorkerDraining ∨ ow_phase self = WorkerRunning → ow_in_flight self = Some job →
    output_step self (Processed job (job_stored self job))
      (set_queue (process_job self job) (ow_queue self) None)
| StepReturn self :
    ow_phase self = WorkerDraining ∨
      (ow_phase self = WorkerRunning ∧ ow_shutdown self = false ∧ ow_handles self = false) →
    ow_in_flight self = None → ow_queue self = [] →
    output_step self Silent (set_phase self true WorkerReturned)
| StepTimeout self :
    ow_phase self = WorkerDraining ∨ ow_phase self = WorkerRunning → ow_shutdown self = true →
    output_step self (Abandoned (option_list (ow_in_flight self) ++ ow_queue self))
      (set_health (set_queue (set_phase self true WorkerAborted) [] None)
         (update_health (ow_health self) false (Some OUTPUT_WORKER_FAILED) false)).

(** Runs, with the events so far. *)
Inductive output_run : OutputWorker B → list output_event → OutputWorker B → Prop :=
| RunNil self : output_run self [] self
| RunStep self events self' event self'' :
    output_run self events self' → output_step self' event self'' →
    output_run self (events ++ [event]) self''.
End worker.

(** ** What has happened in a run *)
Section accounting.
Context {B : Type} `{IncidentOutputBackend B}.
Implicit Types (self : OutputWorker B) (events : list output_event).

(** The parts [f] reads off the events, in order. *)
Definition collect {A} (f : output_event → list A) events : list A := concat (f <$> events).
Arguments collect : simpl never.

Definition accepted_jobs events : list IncidentWriteJob :=
  collect (λ e, match e with Accepted job => [job] | _ => [] end) events.
Definition dropped_jobs events : list IncidentWriteJob :=
  collect (λ e, match e with Dropped job _ => [job] | _ => [] end) events.
Definition processed_jobs events : list (IncidentWriteJob * bool) :=
  collect (λ e, match e with Processed job stored => [(job, stored)] | _ => [] end) events.
Definition abandoned_jobs events : list IncidentWriteJob :=
  collect (λ e, match e with Abandoned jobs => jobs | _ => [] end) events.

Lemma collect_snoc {A} (f : output_event → list A) events e :
  collect f (events ++ [e]) = collect f events ++ f e.
Proof. unfold collect. rewrite fmap_app, concat_app. cbn. by rewrite app_nil_r. Qed.

Lemma accepted_snoc events e :
  accepted_jobs (events ++ [e]) = accepted_jobs events ++ match e with Accepted job => [job] | _ => [] end.
Proof. apply collect_snoc. Qed.
Lemma dropped_snoc events e :
  dropped_jobs (events ++ [e]) = dropped_jobs events ++ match e with Dropped job _ => [job] | _ => [] end.
Proof. apply collect_snoc. Qed.
Lemma processed_snoc events e :
  processed_jobs (events ++ [e]) =
    processed_jobs events ++ match e with Processed job stored => [(job, stored)] | _ => [] end.
Proof. apply collect_snoc. Qed.
Lemma abandoned_snoc events e :
  abandoned_jobs (events ++ [e]) = abandoned_jobs events ++ match e with Abandoned jobs => jobs | _ => [] end.
Proof. apply collect_snoc. Qed.

(** Every accepted job is processed, in the order of submission, or still held by
    the worker, or given up by a shutdown that timed out; every other job was
    refused and counted. *)
Record output_ok (initial : Z) events self : Prop := {
  wk_order : accepted_jobs events =
    (processed_jobs events).*1 ++ option_list (ow_in_flight self) ++ ow_queue self ++ abandoned_jobs events;
  wk_bound : (length (ow_queue self) ≤ INCIDENT_OUTPUT_QUEUE_CAPACITY)%nat;
  wk_dropped : oh_dropped_job_count (ow_health self) =
    Z.min U64_MAX (initial + Z.of_nat (length (dropped_jobs events)));
  wk_closed : ow_closed self = negb (bool_decide (ow_phase self = WorkerRunning));
  wk_idle : ow_phase self = WorkerReturned ∨ ow_phase self = WorkerAborted →
    ow_queue self = [] ∧ ow_in_flight self = None;
  wk_abandoned : ow_phase self ≠ WorkerAborted → abandoned_jobs events = [];
}.

(** The output is healthy as long as nothing has failed. *)
Definition nothing_failed events self : Prop :=
  dropped_jobs events = [] ∧ Forall (λ p, p.2 = true) (processed_jobs events) ∧
  ow_phase self ≠ WorkerAborted.

Lemma output_ok_start (b : B) health :
  0 ≤ oh_dropped_job_count health ≤ U64_MAX →
  output_ok (oh_dropped_job_count health) [] (start_with_health b health).
Proof. intros Hh. constructor; try done; [cbn; lia|unfold dropped_jobs, collect; cbn; lia]. Qed.

Lemma process_job_frame self job :
  let self' := process_job self job in
  ow_queue self' = ow_queue self ∧ ow_in_flight self' = ow_in_flight self ∧
  ow_closed self' = ow_closed self ∧ ow_phase self' = ow_phase self ∧
  oh_dropped_job_count (ow_health self') = oh_dropped_job_count (ow_health self) ∧
  oh_state (ow_health self') = if job_stored self job then oh_state (ow_health self) else OutputHealthDegraded.
Proof.
  unfold process_job, job_stored. cbv zeta. destruct (run_backend _ _ _) as [[b p] [[[[]|e] m]|]]; by split_and!.
Qed.

Ltac snoc_events :=
  rewrite ?accepted_snoc, ?dropped_snoc, ?processed_snoc, ?abandoned_snoc, ?app_nil_r; cbn.

Lemma output_step_ok initial events self e self' :
  0 ≤ initial → output_ok initial events self → output_step self e self' →
  output_ok initial (events ++ [e]) self'.
Proof.
  intros Hi [Ho Hb Hd Hc Hidle Ha] Hstep.
  destruct Hstep as [self job self' res Hh Hsub|self|self|self Hp Hf Hs|self job queue Hp Hf Hq|self job Hp Hf
    |self Hp Hf Hq|self Hp Hs]; try (constructor; snoc_events; done).
  - unfold try_submit in Hsub. destruct (ow_closed self) eqn:Hcl.
    { injection Hsub as <- <-. constructor; snoc_events; try done.
      - rewrite length_app, Hd. unfold saturating_add. cbn. lia.
      - by rewrite Hcl. }
    destruct (Nat.ltb_spec (length (ow_queue self)) INCIDENT_OUTPUT_QUEUE_CAPACITY).
    + injection Hsub as <- <-. symmetry in Hc. rewrite negb_false_iff, bool_decide_eq_true in Hc.
      rewrite Ha in Ho by (by rewrite Hc).
      constructor; snoc_events; try done.
      * rewrite Ho, Ha by (by rewrite Hc). unfold push_back. by rewrite !app_nil_r, <-!app_assoc.
      * unfold push_back. rewrite length_app. cbn. lia.
      * by rewrite Hcl, Hc.
      * intros [Hx|Hx]; congruence.
    + injection Hsub as <- <-. constructor; snoc_events; try done.
      * rewrite length_app, Hd. unfold saturating_add. cbn. lia.
      * by rewrite Hcl.
  - rewrite Ha in Ho by congruence.
    constructor; snoc_events; try done.
    + by rewrite Ha by congruence; rewrite !app_nil_r in *.
    + by intros [|].
    + intros _. apply Ha. congruence.
  - assert (ow_phase self ≠ WorkerAborted) as Hna by (destruct Hp as [?|[? _]]; congruence).
    constructor; snoc_events; try done.
    + rewrite Ho, Hf, Hq. done.
    + rewrite Hq in Hb. cbn in Hb. lia.
    + destruct Hp as [?|[? _]]; intros [?|?]; congruence.
  - destruct (process_job_frame self job) as (Hfq & Hff & Hfc & Hfp & Hfd & _).
    constructor; snoc_events; rewrite ?Hfc, ?Hfp, ?Hfd; try done.
    + rewrite Ho, Hf, fmap_app, <-app_assoc. done.
    + destruct Hp; intros [?|?]; congruence.
  - assert (ow_phase self ≠ WorkerAborted) as Hna by (destruct Hp as [?|[? _]]; congruence).
    constructor; snoc_events; try done. intros _. by apply Ha.
  - assert (ow_phase self ≠ WorkerAborted) as Hna by (destruct Hp; congruence).
    rewrite Ha in Ho by done.
    constructor; snoc_events; try done; [|lia].
    rewrite Ho, Ha, app_nil_r by done. done.
Qed.

Lemma output_run_ok initial self events self' :
  0 ≤ initial → output_run self events self' → output_ok initial [] self → output_ok initial events self'.
Proof. intros Hi Hrun Hok. induction Hrun; [done|]. eapply output_step_ok; eauto. Qed.

Lemma healthy_step events self e self' initial :
  output_ok initial events self → output_step self e self' →
  (oh_state (ow_health self) = OutputHealthy ↔ nothing_failed events self) →
  (oh_state (ow_health self') = OutputHealthy ↔ nothing_failed (events ++ [e]) self').
Proof.
  intros Hok Hstep Hiff. unfold nothing_failed in *. rewrite dropped_snoc, processed_snoc.
  destruct Hstep as [self job self' res Hh Hsub|self|self|self Hp Hf Hs|self job queue Hp Hf Hq|self job Hp Hf
    |self Hp Hf Hq|self Hp Hs]; rewrite ?app_nil_r; try (rewrite Hiff; done).
  - unfold try_submit in Hsub. destruct (ow_closed self); [|destruct (_ <? _)%nat];
      injection Hsub as <- <-; rewrite ?app_nil_r; cbn; [|done|].
    all: split; [done|]; intros [Hnil _]; by destruct (dropped_jobs events).
  - rewrite Hiff. cbn. split; [|by intros (?&?&?); split_and!; [..|congruence]].
    intros (?&?&_). split_and!; [done..|congruence].
  - destruct (process_job_frame self job) as (_ & _ & _ & Hfp & _ & Hst).
    change (ow_health (set_queue ?x _ _)) with (ow_health x). rewrite Hst. cbn [ow_phase set_queue].
    rewrite Hfp, Forall_app, Forall_singleton. cbn [snd]. destruct (job_stored self job); [naive_solver|].
    split; [done|]. naive_solver.
  - rewrite Hiff. cbn. split; intros (?&?&?); split_and!; try done. destruct Hp as [?|(?&?&?)]; congruence.
  - cbn. split; [done|]. by intros (_ & _ & []).
Qed.

Lemma output_run_invariant initial self events self' :
  0 ≤ initial → output_run self events self' → output_ok initial [] self →
  (oh_state (ow_health self) = OutputHealthy ↔ nothing_failed [] self) →
  output_ok initial events self' ∧ (oh_state (ow_health self') = OutputHealthy ↔ nothing_failed events self').
Proof.
  intros Hi Hrun Hok Hh. induction Hrun as [|self events self1 e self2 Hrun IH Hstep]; [done|].
  destruct IH as [Hok1 Hh1]; [done..|]. split; [by eapply output_step_ok|by eapply healthy_step].
Qed.

(** ** Draining *)
Lemma output_run_trans a events b events' c :
  output_run a events b → output_run b events' c → output_run a (events ++ events') c.
Proof.
  intros Hab Hbc. induction Hbc as [|b events' c e d Hbc IH Hstep]; [by rewrite app_nil_r|].
  rewrite app_assoc. by econstructor; [apply IH|].
Qed.

Lemma output_run_one a e b : output_step a e b → output_run a [e] b.
Proof. intros Hs. apply (RunStep a [] a e b); [constructor|done]. Qed.

(** The events of a worker left to itself: processing and nothing else. *)
Definition drains self events self' (jobs : list IncidentWriteJob) : Prop :=
  output_run self events self' ∧ ow_phase self' = WorkerReturned ∧ accepted_jobs events = [] ∧
  dropped_jobs events = [] ∧ abandoned_jobs events = [] ∧ (processed_jobs events).*1 = jobs.

Lemma drains_after self e self1 events self' jobs :
  output_step self e self1 → drains self1 events self' jobs →
  match e with Silent => True | Processed _ _ => True | _ => False end →
  drains self (e :: events) self' (match e with Processed job _ => [job] | _ => [] end ++ jobs).
Proof.
  intros Hs (Hrun & Hp & Ha & Hd & Hb & Hj) He. split_and!; [|done|..].
  - apply (output_run_trans self [e] self1 events); [by apply output_run_one|done].
  - unfold accepted_jobs, collect in *. cbn. by destruct e.
  - unfold dropped_jobs, collect in *. cbn. by destruct e.
  - unfold abandoned_jobs, collect in *. cbn. by destruct e.
  - unfold processed_jobs, collect in *. cbn. destruct e; cbn; congruence.
Qed.

Lemma drain_queue queue : ∀ self,
  ow_phase self = WorkerDraining → ow_in_flight self = None → ow_queue self = queue →
  ∃ events self', drains self events self' queue ∧ (length events = 2 * length queue + 1)%nat.
Proof.
  induction queue as [|job queue IH]; intros self Hp Hf Hq.
  { exists [Silent], (set_phase self true WorkerReturned). split; [|done]. split_and!; try done.
    apply output_run_one. constructor; [by left|done..]. }
  set (self1 := set_queue self queue (Some job)). set (self2 := set_queue (process_job self1 job) queue None).
  assert (output_step self Silent self1) as Hr by (constructor; [by left|done..]).
  assert (output_step self1 (Processed job (job_stored self1 job)) self2) as Hc by (constructor; [by left|done]).
  destruct (IH self2) as (events & self' & Hd & Hl); [|done|done|].
  { destruct (process_job_frame self1 job) as (_ & _ & _ & Hfp & _). cbn. by rewrite Hfp. }
  exists (Silent :: Processed job (job_stored self1 job) :: events), self'. split.
  - apply (drains_after _ _ _ _ _ _ Hr (drains_after _ _ _ _ _ _ Hc Hd I) I).
  - cbn. lia.
Qed.

Lemma drain_draining self :
  ow_phase self = WorkerDraining →
  ∃ events self', drains self events self' (option_list (ow_in_flight self) ++ ow_queue self) ∧
    (length events ≤ 2 * length (ow_queue self) + 2)%nat.
Proof.
  intros Hp. destruct (ow_in_flight self) as [job|] eqn:Hf.
  2: { destruct (drain_queue (ow_queue self) self) as (events & self' & Hd & Hl); [done..|].
       exists events, self'. split; [done|lia]. }
  assert (output_step self (Processed job (job_stored self job)) (set_queue (process_job self job) (ow_queue self) None))
    as Hc by (constructor; [by left|done]).
  destruct (drain_queue (ow_queue self) (set_queue (process_job self job) (ow_queue self) None))
    as (events & self' & Hd & Hl); [|done|done|].
  { destruct (process_job_frame self job) as (_ & _ & _ & Hfp & _). cbn. by rewrite Hfp. }
  exists (Processed job (job_stored self job) :: events), self'. split; [|cbn; lia].
  by apply (drains_after _ _ _ _ _ _ Hc Hd).
Qed.

Lemma drain_worker self :
  ow_shutdown self = true → ow_phase self = WorkerRunning ∨ ow_phase self = WorkerDraining →
  ∃ events self', drains self events self' (option_list (ow_in_flight self) ++ ow_queue self) ∧
    (length events ≤ 2 * length (ow_queue self) + 3)%nat.
Proof.
  intros Hs [Hp|Hp].
  2: { destruct (drain_draining self Hp) as (events & self' & Hd & Hl). exists events, self'. split; [done|lia]. }
  assert (∀ s, ow_shutdown s = true → ow_phase s = WorkerRunning → ow_in_flight s = None →
    ∃ events s', drains s events s' (ow_queue s) ∧ (length events ≤ 2 * length (ow_queue s) + 2)%nat) as Hidle.
  { intros s Hss Hps Hfs. destruct (drain_queue (ow_queue s) (set_phase s true WorkerDraining))
      as (events & s' & Hd & Hl); [done..|].
    exists (Silent :: events), s'. split; [|cbn; lia].
    apply (drains_after s Silent _ _ _ _ (StepNotice s Hps Hfs Hss) Hd I). }
  destruct (ow_in_flight self) as [job|] eqn:Hf.
  - assert (output_step self (Processed job (job_stored self job)) (set_queue (process_job self job) (ow_queue self) None))
      as Hc by (constructor; [by right|done]).
    destruct (Hidle (set_queue (process_job self job) (ow_queue self) None)) as (events & self' & Hd & Hl).
    + unfold process_job. destruct (run_backend _ _ _) as [[b p] [[[[]|x] m]|]]; done.
    + destruct (process_job_frame self job) as (_ & _ & _ & Hfp & _). cbn. by rewrite Hfp.
    + done.
    + exists (Processed job (job_stored self job) :: events), self'. split; [|cbn in *; lia].
      by apply (drains_after _ _ _ _ _ _ Hc Hd).
  - destruct (Hidle self) as (events & self' & Hd & Hl); [done..|]. exists events, self'. split; [done|lia].
Qed.
End accounting.

(** ** What a backend does for real *)

(** A backend with a record of what it stored and of the alerts it raised. *)
Class IncidentOutputBackendSpec (B : Type) `{IncidentOutputBackend B} : Type := {
  stored : B → list IncidentRevisionV1;
  raised : B → list (IncidentRevisionV1 * EvidenceStatus);
  persist_ok b job b' : persist b job = (b', Some (Ok tt)) →
    stored b' = stored b ++ [job_revision job] ∧ raised b' = raised b;
  persist_fails b job b' res : persist b job = (b', res) → res ≠ Some (Ok tt) →
    stored b' = stored b ∧ raised b' = raised b;
  alert_ok b job status b' sink : raise_alert b job status = (b', Some sink) →
    stored b' = stored b ∧ raised b' = raised b ++ [(job_revision job, status)];
  alert_panics b job status b' : raise_alert b job status = (b', None) →
    stored b' = stored b ∧ raised b' = raised b;
}.

Section truthful.
Context {B : Type} `{IncidentOutputBackendSpec B}.
Implicit Types (self : OutputWorker B).

(** An alert that says its evidence is stored is about a stored revision, and
    alerts are raised for processed jobs only, in their order. *)
Record truthful events self : Prop := {
  tr_stored r : (r, Stored) ∈ raised (ow_backend self) → r ∈ stored (ow_backend self);
  tr_order : sublist (raised (ow_backend self)).*1 (job_revision <$> (processed_jobs events).*1);
  tr_kept job : (job, true) ∈ processed_jobs events → job_revision job ∈ stored (ow_backend self);
}.

Lemma truthful_same events e self self' :
  truthful events self → ow_backend self' = ow_backend self →
  match e with Processed _ _ => False | _ => True end → truthful (events ++ [e]) self'.
Proof.
  intros [Hs Ho Hk] Hb He. constructor; rewrite ?Hb, ?processed_snoc; [done|..];
    destruct e; try done; by rewrite app_nil_r.
Qed.

(** The closure ran: it stored at most the job and raised at most its alert. *)
Lemma truthful_push events self job b p health (flag : bool) :
  truthful events self →
  stored b = stored (ow_backend self) ∨ stored b = stored (ow_backend self) ++ [job_revision job] →
  (raised b = raised (ow_backend self) ∨
   ∃ s, raised b = raised (ow_backend self) ++ [(job_revision job, s)] ∧
        (s = Stored → stored b = stored (ow_backend self) ++ [job_revision job])) →
  (flag = true → stored b = stored (ow_backend self) ++ [job_revision job]) →
  truthful (events ++ [Processed job flag]) (set_queue (set_health (set_backend self b p) health) (ow_queue self) None).
Proof.
  intros [Hs Ho Hk] Hst Hra Hfl.
  assert (∀ r, r ∈ stored (ow_backend self) → r ∈ stored b) as Hmono.
  { intros r Hr. destruct Hst as [->| ->]; [done|]. rewrite elem_of_app. auto. }
  assert (stored b = stored (ow_backend self) ++ [job_revision job] → job_revision job ∈ stored b) as Hnew.
  { intros ->. rewrite elem_of_app, list_elem_of_singleton. by right. }
  constructor; cbn [ow_backend set_queue set_health set_backend].
  - intros r Hin. destruct Hra as [Hra|(s & Hra & Hss)]; rewrite Hra in Hin; [auto|].
    apply elem_of_app in Hin as [Hin|Hin]; [auto|].
    apply list_elem_of_singleton in Hin. injection Hin as -> <-. auto.
  - rewrite processed_snoc, !fmap_app. cbn. destruct Hra as [->|(s & -> & _)].
    + by apply sublist_inserts_r.
    + rewrite fmap_app. by apply sublist_app.
  - intros j. rewrite processed_snoc, elem_of_app, list_elem_of_singleton. intros [Hin|Heq]; [auto|].
    injection Heq as -> Hf. auto.
Qed.

Lemma truthful_complete events self job :
  truthful events self →
  truthful (events ++ [Processed job (job_stored self job)]) (set_queue (process_job self job) (ow_queue self) None).
Proof.
  intros Ht. unfold process_job, job_stored, run_backend.
  destruct (ow_poisoned self); [apply truthful_push; [done|by left|by left|done]|].
  destruct (persist (ow_backend self) job) as [b1 [persisted|]] eqn:Hp.
  2: { destruct (persist_fails _ _ _ _ Hp) as [Hst Hra]; [done|]. apply truthful_push; [done|by left|by left|done]. }
  destruct (raise_alert b1 job _) as [b2 [sink|]] eqn:Ha.
  - destruct (alert_ok _ _ _ _ _ Ha) as [Hst Hra]. destruct persisted as [[]|e]; cbn [is_ok] in *.
    + destruct (persist_ok _ _ _ Hp) as [Hst' Hra']. apply truthful_push; [done|right; congruence| |congruence].
      right. exists Stored. split; congruence.
    + destruct (persist_fails _ _ _ _ Hp) as [Hst' Hra']; [done|].
      apply truthful_push; [done|left; congruence| |done]. right. exists EvidenceStatusUnavailable. split; [congruence|done].
  - destruct (alert_panics _ _ _ _ Ha) as [Hst Hra].
    assert (stored b2 = stored (ow_backend self) ∨ stored b2 = stored (ow_backend self) ++ [job_revision job]) as Hst'.
    { destruct persisted as [[]|e]; [destruct (persist_ok _ _ _ Hp)|
        destruct (persist_fails _ _ _ _ Hp); [done|]]; rewrite Hst; auto. }
    assert (raised b2 = raised (ow_backend self)) as Hra'.
    { destruct persisted as [[]|e]; [destruct (persist_ok _ _ _ Hp)|
        destruct (persist_fails _ _ _ _ Hp); [done|]]; congruence. }
    apply truthful_push; [done|done|by left|done].
Qed.

Lemma truthful_run self events self' :
  truthful [] self → output_run self events self' → truthful events self'.
Proof.
  intros Ht Hrun. induction Hrun as [|self events self1 e self2 Hrun IH Hstep]; [done|].
  specialize (IH Ht).
  destruct Hstep as [self1 job self2 res Hh Hsub|self1|self1|self1 Hp Hf Hs|self1 job queue Hp Hf Hq|self1 job Hp Hf
    |self1 Hp Hf Hq|self1 Hp Hs]; try (by apply (truthful_same _ _ self1)).
  - apply (truthful_same _ _ self1); [done| |by destruct res]. unfold try_submit in Hsub. by repeat case_match; simplify_eq.
  - by apply truthful_complete.
Qed.
End truthful.

(** A backend in memory, with room for a number of revisions. *)
Module OutputExample.
Record Memory : Type := mkMemory {
  mem_room : nat;
  mem_stored : list IncidentRevisionV1;
  mem_raised : list (IncidentRevisionV1 * EvidenceStatus);
}.

#[global] Instance memory_backend : IncidentOutputBackend Memory := {
  persist b job :=
    match mem_room b with
    | O => (b, Some (Err StoreUnavailable))
    | S room => (mkMemory room (mem_stored b ++ [job_revision job]) (mem_raised b), Some (Ok tt))
    end;
  raise_alert b job status :=
    (mkMemory (mem_room b) (mem_stored b) (mem_raised b ++ [(job_revision job, status)]), Some Journald);
}.

#[global] Instance memory_spec : IncidentOutputBackendSpec Memory.
Proof.
  refine {| stored := mem_stored; raised := mem_raised |}.
  - intros b job b'. cbn. destruct (mem_room b); by intros [= <-].
  - intros b job b' res. cbn. destruct (mem_room b); intros [= <- <-]; done.
  - intros b job status b' sink. by intros [= <- _].
  - intros b job status b'. by intros [=].
Defined.

(** The job of the first transition of the flapping storm. *)
Definition job : IncidentWriteJob :=
  match record IncidentExample.recorder (IncidentExample.flap 1) IncidentExample.snapshot with
  | Some (_, Ok (Some job)) => job
  | _ => mkIncidentWriteJob (revision_of IncidentExample.recorder
           (mkActiveIncident (mkEventId (vreplicate EVENT_ID_BYTES 0)) 1 0 DetectionNormal)
           (IncidentExample.flap 1) IncidentClosed None IncidentExample.snapshot)
  end.

Definition worker : OutputWorker Memory := OutputWorker_start (mkMemory 1 [] []).

(** Two jobs are submitted, the first is being processed, shutdown is requested. *)
Definition busy : OutputWorker Memory :=
  set_flags (set_queue worker [job] (Some job)) true true.

Lemma busy_run : output_run worker [Accepted job; Silent; Accepted job; Silent] busy.
Proof.
  apply (RunStep worker [Accepted job; Silent; Accepted job] (set_queue worker [job] (Some job)) Silent busy);
    [|apply (StepShutdown (set_queue worker [job] (Some job)))].
  apply (RunStep worker [Accepted job; Silent] (set_queue worker [] (Some job)) (Accepted job));
    [|by apply (StepSubmit (set_queue worker [] (Some job)) job _ (Ok tt))].
  apply (RunStep worker [Accepted job] (set_queue worker [job] None) Silent);
    [|apply (StepReceive (set_queue worker [job] None) job []); [by right|done..]].
  apply (RunStep worker [] worker (Accepted job)); [constructor|by apply (StepSubmit worker job _ (Ok tt))].
Qed.
End OutputExample.

(** ** Properties *)

(** C32: whatever the interleaving of submitters and worker, and whatever the
    backend does (failures and panics included), every submitted job is accounted
    for: an accepted job has been processed, in the order of submission, or is the
    one in flight, or waits in the queue of at most 32, or was given up by a
    shutdown that timed out; every other job was refused at submission and counted
    in [dropped_job_count] (saturating); a worker that returned holds nothing; and
    the output claims to be healthy exactly when no job was refused, every
    processed job was stored and no shutdown timed out. *)
Theorem output_accounts_for_every_job {B} `{IncidentOutputBackend B} (backend : B)
    (events : list output_event) (self : OutputWorker B)
    (Hrun : output_run (OutputWorker_start backend) events self) :
  output_ok 0 events self ∧ (oh_state (ow_health self) = OutputHealthy ↔ nothing_failed events self).
Proof.
  apply (output_run_invariant 0 (OutputWorker_start backend)); [lia|done| |].
  - apply (output_ok_start backend initial_health). cbn. ulia.
  - split; [|done]. intros _. by split_and!.
Qed.

Lemma output_accounts_for_every_job_witness :
  output_ok 0 [Accepted OutputExample.job; Silent; Accepted OutputExample.job; Silent] OutputExample.busy ∧
  (oh_state (ow_health OutputExample.busy) = OutputHealthy ↔
   nothing_failed [Accepted OutputExample.job; Silent; Accepted OutputExample.job; Silent] OutputExample.busy).
Proof.
  apply (output_accounts_for_every_job (OutputExample.mkMemory 1 [] [])). exact OutputExample.busy_run.
Defined.

(** A shutdown that does not time out drains the output: from any reachable
    state in which shutdown was requested and the worker has not returned, the
    worker's own steps, at most 67 of them, process exactly the job in flight and
    the queue, in order, and return; with that, every job ever accepted has been
    processed once. *)
Lemma shutdown_drains_output {B} `{IncidentOutputBackend B} (backend : B)
    (events : list output_event) (self : OutputWorker B)
    (Hrun : output_run (OutputWorker_start backend) events self)
    (Hshutdown : ow_shutdown self = true)
    (Hphase : ow_phase self = WorkerRunning ∨ ow_phase self = WorkerDraining) :
  ∃ events' self', drains self events' self' (option_list (ow_in_flight self) ++ ow_queue self) ∧
    (length events' ≤ 67)%nat ∧ (processed_jobs (events ++ events')).*1 = accepted_jobs events.
Proof.
  destruct (drain_worker self Hshutdown Hphase) as (events' & self' & Hd & Hl).
  destruct (output_run_invariant 0 (OutputWorker_start backend) events self) as [[Ho Hb _ _ _ Ha] _];
    [lia|done|apply (output_ok_start backend initial_health); cbn; ulia|by split; [intros _; split_and!|]|].
  exists events', self'. split_and!; [done|unfold INCIDENT_OUTPUT_QUEUE_CAPACITY in Hb; lia|].
  destruct Hd as (_ & _ & _ & _ & _ & Hj). rewrite Ho, Ha by (destruct Hphase; congruence).
  unfold processed_jobs, collect in *. rewrite !fmap_app, concat_app, fmap_app, Hj, app_nil_r. done.
Qed.

Lemma shutdown_drains_output_witness :
  let events := [Accepted OutputExample.job; Silent; Accepted OutputExample.job; Silent] in
  ∃ events' self', drains OutputExample.busy events' self' [OutputExample.job; OutputExample.job] ∧
    (length events' ≤ 67)%nat ∧ (processed_jobs (events ++ events')).*1 = accepted_jobs events.
Proof.
  apply (shutdown_drains_output (OutputExample.mkMemory 1 [] []));
    [exact OutputExample.busy_run|reflexivity|left; reflexivity].
Defined.

(** Alerts tell the truth about their evidence: in every reachable state of
    the output, over any backend that keeps the contract of its two operations, an
    alert marked as stored is about a revision that was stored, at most one alert
    is raised for each processed job, in processing order, and a job reported as
    stored is in the store. *)
Lemma alerts_are_truthful {B} `{IncidentOutputBackendSpec B} (backend : B)
    (events : list output_event) (self : OutputWorker B)
    (Hempty : raised backend = []) (Hrun : output_run (OutputWorker_start backend) events self) :
  truthful events self.
Proof.
  apply (truthful_run (OutputWorker_start backend)); [|done].
  change (raised (ow_backend (OutputWorker_start backend)) = []) in Hempty.
  constructor; rewrite ?Hempty; [|apply sublist_nil_l|]; intros x Hx; by apply not_elem_of_nil in Hx.
Qed.

Lemma alerts_are_truthful_witness :
  truthful [Accepted OutputExample.job; Silent; Accepted OutputExample.job; Silent] OutputExample.busy.
Proof.
  apply (alerts_are_truthful (OutputExample.mkMemory 1 [] [])); [reflexivity|exact OutputExample.busy_run].
Defined.
