(* ===== verification/EvidenceDisk.v ===== *)
(** A commit of the evidence store on a disk: whichever call fails or is the last
    one of the process or of the machine, the published revisions are those before
    the commit or those after it, a commit that reported success is not lost, and a
    revision that was committed reads back as it was. *)
From S2P Require Import Prelude Domain Text Observation FrameHash Rate Baseline FingerprintWindow Detection Evidence Snapshot Incident EvidenceStore EvidenceTree EvidenceStoreFacts Output.

(** ** Changes of a tree *)
(** Only paths at or below [p] differ. *)
Definition changes_below (p : path) (t t' : tree) : Prop := ∀ q, ¬ p `prefix_of` q → t' !! q = t !! q.

(** Only [p] differs. *)
Definition changes_at (p : path) (t t' : tree) : Prop := ∀ q, q ≠ p → t' !! q = t !! q.

(** [from] and what is below it are now at [target]. *)
Definition moved (from target : path) (t t' : tree) : Prop :=
  (∀ s, t' !! (target ++ s) = t !! (from ++ s)) ∧
  (∀ q, ¬ from `prefix_of` q → ¬ target `prefix_of` q → t' !! q = t !! q) ∧
  ∀ q, from `prefix_of` q → ¬ target `prefix_of` q → t' !! q = None.

(** ** What the calls do to the tree *)
Section laws.
Context {W : Type} (disk_tree : W → tree).
Implicit Types (w : W).

Definition keeps {E A} w (m : W * result E A) : Prop := disk_tree m.1 = disk_tree w.

(** A node is created where nothing was, and nothing below it; when the call fails,
    a part of it may have been. *)
Definition creates {E A} w (p : path) (new : node) (m : W * result E A) : Prop :=
  match m with
  | (w', Ok _) => (∀ s, disk_tree w !! (p ++ s) = None) ∧ disk_tree w' = <[p := new]> (disk_tree w)
  | (w', Err _) => changes_at p (disk_tree w) (disk_tree w')
  end.

Definition moves {E A} w (from target : path) (m : W * result E A) : Prop :=
  match m with
  | (w', Ok _) => (∀ s, disk_tree w !! (target ++ s) = None) ∧ moved from target (disk_tree w) (disk_tree w')
  | (w', Err _) => disk_tree w' = disk_tree w
  end.
End laws.

(** What the calls do to the trees that a loss of power may leave. *)
Section power_laws.
Context {W : Type} (disk_tree : W → tree) (image : W → tree → Prop).
Implicit Types (w : W).

(** Nothing that could not be left before, changed as [R] says. *)
Definition leads (R : tree → tree → Prop) w w' : Prop :=
  ∀ t', image w' t' → ∃ t, image w t ∧ R t t'.

(** A new node is there whole, and only in a directory that is there, or it is not
    there yet. *)
Definition creates_image {E A} w (p : path) (new : node) (m : W * result E A) : Prop :=
  leads (λ t t', changes_at p t t' ∧
    (is_ok m.2 = true → t' !! p = t !! p ∨ is_Some (t !! removelast p) ∧ t' !! p = Some new)) w m.1.

(** A synchronised directory, if it is there itself, has the entries that it has for
    the processes. *)
Definition synchronises {E A} w (p : path) (m : W * result E A) : Prop :=
  leads (λ t t', t' = t ∧ (is_ok m.2 = true → is_Some (t !! p) →
    ∀ name, is_Some (disk_tree w !! (p ++ [name])) ↔ is_Some (t !! (p ++ [name])))) w m.1.

Definition moves_image {E A} w (from target : path) (m : W * result E A) : Prop :=
  leads (λ t t', t' = t ∨ is_ok m.2 = true ∧ moved from target t t') w m.1.
End power_laws.

(** The calls of [EvidenceIo] on a tree.  Any call may fail, and none of them has
    an effect after the process is gone; on a disk that is alive, the calls that
    read succeed and report what the tree holds.

    [disk_tree] is what processes see, and [image] the trees one of which is left when
    the machine loses power.  A file that was written has its bytes, because
    [write_file] synchronises it; the entries of a directory are certain only once
    the directory is synchronised. *)
Class EvidenceDisk (W : Type) `{EvidenceIo W} (geteuid : Z) : Type := {
  disk_tree : W → tree;
  image : W → tree → Prop;
  alive : W → Prop;
  image_now w : image w (disk_tree w);
  checkpoint_image w step : leads image eq w (checkpoint w step).1;
  metadata_image w p : leads image eq w (io_metadata w p).1;
  sequence_image w : leads image eq w (next_sequence w).1;
  create_image w p mode : creates_image image w p (DirNode mode geteuid) (create_directory w p mode);
  write_image w p bytes mode : creates_image image w p (FileNode mode geteuid bytes) (write_file w p bytes mode);
  sync_image w p : synchronises disk_tree image w p (sync_directory w p);
  rename_image w from target : moves_image image w from target (rename_noreplace w from target);
  remove_image w p : leads image (changes_below p) w (remove_private_directory w p).1;
  checkpoint_keeps w step : keeps disk_tree w (checkpoint w step);
  metadata_keeps w p : keeps disk_tree w (io_metadata w p);
  sync_keeps w p : keeps disk_tree w (sync_directory w p);
  capacity_keeps w : keeps disk_tree w (capacity w);
  metadata_sound w p m : (io_metadata w p).2 = Ok m → is_Some (disk_tree w !! p);
  sequence_keeps w : disk_tree (next_sequence w).1 = disk_tree w;
  create_creates w p mode : creates disk_tree w p (DirNode mode geteuid) (create_directory w p mode);
  write_creates w p bytes mode : creates disk_tree w p (FileNode mode geteuid bytes) (write_file w p bytes mode);
  rename_moves w from target : moves disk_tree w from target (rename_noreplace w from target);
  remove_changes_below w p : changes_below p (disk_tree w) (disk_tree (remove_private_directory w p).1);
  alive_metadata w p n : alive w → disk_tree w !! p = Some n →
    ∃ w' m, io_metadata w p = (w', Ok m) ∧ node_metadata n m ∧ alive w';
  alive_directory w p mode uid : alive w → disk_tree w !! p = Some (DirNode mode uid) →
    ∃ w' paths, read_directory w p = (w', Ok paths) ∧ disk_tree w' = disk_tree w ∧ alive w' ∧ NoDup paths ∧
      ∀ q, q ∈ paths ↔ ∃ name, q = p ++ [name] ∧ is_Some (disk_tree w !! q);
  alive_file w p mode uid bytes : alive w → disk_tree w !! p = Some (FileNode mode uid bytes) →
    Z.of_nat (length bytes) ≤ EVIDENCE_MAX_REVISION_BYTES →
    ∃ w', read_file w p = (w', Ok bytes) ∧ disk_tree w' = disk_tree w ∧ alive w';
}.

(** ** Published revisions *)

(** A path in the directory of a revision that is not a temporary one. *)
Definition published (p : path) : bool :=
  match p with _ :: name :: _ => negb (String.prefix ".tmp-" name) | _ => false end.

Definition same_published (t t' : tree) : Prop := ∀ p, published p = true → t' !! p = t !! p.

(** The directory [target] holds a revision: the two files and nothing else. *)
Definition holds_revision (geteuid : Z) (t : tree) (target : path) (evidence manifest : list Z) : Prop :=
  t !! target = Some (DirNode 448 geteuid) ∧
  t !! (target ++ [EVIDENCE_FILE]) = Some (FileNode 384 geteuid evidence) ∧
  t !! (target ++ [MANIFEST_FILE]) = Some (FileNode 384 geteuid manifest) ∧
  ∀ s, s ≠ [] → s ≠ [EVIDENCE_FILE] → s ≠ [MANIFEST_FILE] → t !! (target ++ s) = None.

(** [t'] is [t] with one more published revision. *)
Definition publishes (geteuid : Z) (t t' : tree) (target : path) (evidence manifest : list Z) : Prop :=
  t !! target = None ∧ holds_revision geteuid t' target evidence manifest ∧
  ∀ p, published p = true → ¬ target `prefix_of` p → t' !! p = t !! p.

Section commit.
Context {W : Type} `{EvidenceIo W} `{EvidenceCodec} (geteuid process_id : Z) `{!EvidenceDisk W geteuid}.
Implicit Types (w : W) (p : path).

Lemma changes_below_refl p t : changes_below p t t.
Proof. done. Qed.

Lemma changes_below_trans p t1 t2 t3 : changes_below p t1 t2 → changes_below p t2 t3 → changes_below p t1 t3.
Proof. intros H1 H2 q Hq. by rewrite H2, H1. Qed.

Lemma changes_below_child p q t t' : changes_below (p ++ q) t t' → changes_below p t t'.
Proof. intros Hc r Hr. apply Hc. intros Hp. apply Hr. etrans; [|exact Hp]. by apply prefix_app_r. Qed.

Lemma changes_at_below p t t' : changes_at p t t' → changes_below p t t'.
Proof. intros Hc q Hq. apply Hc. by intros ->. Qed.

Lemma changes_below_insert p q n t : changes_below p t (<[p ++ q := n]> t).
Proof. intros r Hr. rewrite lookup_insert_ne; [done|]. intros <-. apply Hr. by apply prefix_app_r. Qed.

(** A temporary directory is never published. *)
Lemma changes_below_temporary event temporary t t' :
  String.prefix ".tmp-" temporary = true → changes_below [event; temporary] t t' → same_published t t'.
Proof.
  intros Htmp Hc p Hp. apply Hc. intros [s ->]. cbn in Hp. by rewrite Htmp in Hp.
Qed.

Lemma files_differ : MANIFEST_FILE ≠ EVIDENCE_FILE.
Proof. vm_compute. discriminate. Qed.

(** What has been written before the rename. *)
Lemma written_revision t temporary evidence manifest :
  (∀ s, t !! (temporary ++ s) = None) →
  let t' := <[temporary ++ [MANIFEST_FILE] := FileNode 384 geteuid manifest]>
    (<[temporary ++ [EVIDENCE_FILE] := FileNode 384 geteuid evidence]> (<[temporary := DirNode 448 geteuid]> t)) in
  holds_revision geteuid t' temporary evidence manifest ∧ changes_below temporary t t'.
Proof.
  intros Hnone. cbv zeta.
  assert (∀ s s', temporary ++ s = temporary ++ s' → s = s') as Hinj by (intros s s'; apply app_inv_head).
  assert (∀ s, temporary ++ s = temporary → s = []) as Hnil by (intros s Hs; by apply Hinj; rewrite app_nil_r).
  split.
  - unfold holds_revision. split_and!.
    + rewrite 2!lookup_insert_ne by (intros [=]%Hnil). by rewrite lookup_insert_eq.
    + rewrite lookup_insert_ne by (intros [= Hs]%Hinj; by apply files_differ). by rewrite lookup_insert_eq.
    + by rewrite lookup_insert_eq.
    + intros s H1 H2 H3.
      rewrite !lookup_insert_ne; [apply Hnone|intros Hs; by rewrite (Hnil s) in H1|intros <-%Hinj; done..].
  - apply changes_below_trans with (<[temporary ++ [EVIDENCE_FILE] := FileNode 384 geteuid evidence]> (<[temporary := DirNode 448 geteuid]> t));
      [|apply changes_below_insert].
    apply changes_below_trans with (<[temporary := DirNode 448 geteuid]> t); [|apply changes_below_insert].
    pose proof (changes_below_insert temporary [] (DirNode 448 geteuid) t) as Hb. by rewrite app_nil_r in Hb.
Qed.

Lemma moved_publishes t t3 t' event temporary name evidence manifest :
  String.prefix ".tmp-" temporary = true → String.prefix ".tmp-" name = false →
  changes_below [event; temporary] t t3 → holds_revision geteuid t3 [event; temporary] evidence manifest →
  t3 !! [event; name] = None → moved [event; temporary] [event; name] t3 t' →
  publishes geteuid t t' [event; name] evidence manifest.
Proof.
  intros Htmp Hname Hbelow (Hd & He & Hm & Hrest) Hnone (Hmoved & Hother & _).
  assert (∀ s, ¬ [event; temporary] `prefix_of` [event; name] ++ s) as Hdiff.
  { intros s [k [= ->]]. congruence. }
  split_and!.
  - rewrite <-Hbelow; [done|]. apply (Hdiff []).
  - split_and!.
    + rewrite <-(app_nil_r [event; name]), Hmoved. exact Hd.
    + by rewrite Hmoved.
    + by rewrite Hmoved.
    + intros s H1 H2 H3. rewrite Hmoved. by apply Hrest.
  - intros p Hp Hnp. assert (¬ [event; temporary] `prefix_of` p) as Hntmp.
    { intros [s ->]. cbn in Hp. by rewrite Htmp in Hp. }
    rewrite Hother by done. by apply Hbelow.
Qed.

(** A call that ends in [Q], or fails in [X]. *)
Definition ends {E A} (m : W * result E A) (Q : W → A → Prop) (X : W → Prop) : Prop :=
  match m with (w', Ok a) => Q w' a | (w', Err _) => X w' end.

Lemma ends_and_then {E A B} (m : W * result E A) (f : W → A → W * result E B) Q X :
  ends m (λ w a, ends (f w a) Q X) X → ends (and_then m f) Q X.
Proof. by destruct m as [w [a|]]. Qed.

Lemma ends_or_error {E E' A} (m : W * result E A) (error : E') Q X : ends m Q X → ends (or_error m error) Q X.
Proof. by destruct m as [w [a|]]. Qed.

Lemma ends_keeps {E A} w (m : W * result E A) (Q : W → A → Prop) (X : W → Prop) :
  keeps disk_tree w m → (∀ w', disk_tree w' = disk_tree w → X w') →
  (∀ w' a, disk_tree w' = disk_tree w → Q w' a) → ends m Q X.
Proof. destruct m as [w' [a|]]; cbn; auto. Qed.

(** The tree once both files are written. *)
Definition written (t : tree) (temporary : path) (evidence manifest : list Z) : tree :=
  <[temporary ++ [MANIFEST_FILE] := FileNode 384 geteuid manifest]>
    (<[temporary ++ [EVIDENCE_FILE] := FileNode 384 geteuid evidence]> (<[temporary := DirNode 448 geteuid]> t)).

Lemma write_revision_tree w temporary evidence manifest :
  ends (write_revision w temporary evidence manifest)
    (λ w' _, (∀ s, disk_tree w !! (temporary ++ s) = None) ∧ disk_tree w' = written (disk_tree w) temporary evidence manifest)
    (λ w', changes_below temporary (disk_tree w) (disk_tree w')).
Proof.
  set (t := disk_tree w). set (X := λ w', changes_below temporary t (disk_tree w')).
  assert (∀ w t1, changes_below temporary t t1 → disk_tree w = t1 → X w) as HX by (by intros w' t1 Hb <-).
  unfold write_revision.
  apply ends_and_then, ends_or_error, (ends_keeps w); [apply checkpoint_keeps|intros w'; by apply HX|]. intros w1 _ H1.
  apply ends_and_then, ends_or_error. pose proof (create_creates w1 temporary 448) as Hc. unfold creates in Hc. rewrite H1 in Hc.
  destruct (create_directory w1 temporary 448) as [w2 [[]|]]; cbn [ends]; [|by apply changes_at_below]. destruct Hc as [Hfree H2]. fold t in Hfree, H2.
  unfold written. set (t1 := <[temporary := DirNode 448 geteuid]> t) in *.
  set (t2 := <[temporary ++ [EVIDENCE_FILE] := FileNode 384 geteuid evidence]> t1).
  set (t3 := <[temporary ++ [MANIFEST_FILE] := FileNode 384 geteuid manifest]> t2).
  assert (changes_below temporary t t1) as Hb1.
  { pose proof (changes_below_insert temporary [] (DirNode 448 geteuid) t) as Hb. by rewrite app_nil_r in Hb. }
  assert (changes_below temporary t t2) as Hb2 by (apply changes_below_trans with t1; [done|apply changes_below_insert]).
  assert (changes_below temporary t t3) as Hb3 by (apply changes_below_trans with t2; [done|apply changes_below_insert]).
  apply ends_and_then, ends_or_error, (ends_keeps w2); [apply checkpoint_keeps|rewrite H2; intros w'; by apply HX|].
  intros w3 _ H3. apply ends_and_then, ends_or_error. rewrite H2 in H3.
  pose proof (write_creates w3 (temporary ++ [EVIDENCE_FILE]) evidence 384) as Hc. unfold creates in Hc. rewrite H3 in Hc.
  destruct (write_file w3 _ _ _) as [w4 [[]|]]; cbn [ends].
  2: { apply changes_below_trans with t1; [done|]. by apply changes_at_below, changes_below_child in Hc. }
  destruct Hc as [_ H4]. fold t2 in H4.
  apply ends_and_then, ends_or_error, (ends_keeps w4); [apply checkpoint_keeps|rewrite H4; intros w'; by apply HX|].
  intros w5 _ H5. apply ends_and_then, ends_or_error. rewrite H4 in H5.
  pose proof (write_creates w5 (temporary ++ [MANIFEST_FILE]) manifest 384) as Hc. unfold creates in Hc. rewrite H5 in Hc.
  destruct (write_file w5 _ _ _) as [w6 [[]|]]; cbn [ends].
  2: { apply changes_below_trans with t2; [done|]. by apply changes_at_below, changes_below_child in Hc. }
  destruct Hc as [_ H6]. fold t3 in H6.
  apply ends_and_then, ends_or_error, (ends_keeps w6); [apply checkpoint_keeps|rewrite H6; intros w'; by apply HX|].
  intros w7 _ H7. apply ends_or_error, (ends_keeps w7); [apply sync_keeps|rewrite H7, H6; intros w'; by apply HX|].
  intros w8 _ H8. split; [done|]. by rewrite H8, H7, H6.
Qed.

Lemma publish_revision_atomic w event temporary name evidence manifest :
  String.prefix ".tmp-" temporary = true → String.prefix ".tmp-" name = false →
  ends (publish_revision w [event] [event; temporary] [event; name] evidence manifest)
    (λ w' _, publishes geteuid (disk_tree w) (disk_tree w') [event; name] evidence manifest)
    (λ w', changes_below [event; temporary] (disk_tree w) (disk_tree w') ∨
           publishes geteuid (disk_tree w) (disk_tree w') [event; name] evidence manifest).
Proof.
  intros Htmp Hname. unfold publish_revision. set (temp := [event; temporary]).
  pose proof (write_revision_tree w temp evidence manifest) as Hw. apply ends_and_then.
  destruct (write_revision w temp evidence manifest) as [w1 [[]|]]; cbn [ends] in Hw |- *; [|by left].
  destruct Hw as [Hfree H1]. destruct (written_revision _ _ evidence manifest Hfree) as [Hholds Hbelow].
  fold (written (disk_tree w) temp evidence manifest) in Hholds, Hbelow.
  apply ends_and_then, ends_or_error, (ends_keeps w1); [apply checkpoint_keeps|intros w' ->; left; by rewrite H1|].
  intros w2 _ H2. rewrite H1 in H2. pose proof (rename_moves w2 temp [event; name]) as Hr. unfold moves in Hr. rewrite H2 in Hr.
  destruct (rename_noreplace w2 temp [event; name]) as [w3 [[]|[]]]; cbn [ends]; [|left; by rewrite Hr..].
  destruct Hr as [Htarget Hmoved]. specialize (Htarget []). rewrite app_nil_r in Htarget.
  pose proof (moved_publishes _ _ _ event temporary name evidence manifest Htmp Hname Hbelow Hholds Htarget Hmoved) as Hpub.
  apply ends_and_then, ends_or_error, (ends_keeps w3); [apply checkpoint_keeps|intros w' ->; by right|]. intros w4 _ H4.
  apply ends_or_error, (ends_keeps w4); [apply sync_keeps|intros w' ->; rewrite H4; by right|]. intros w5 _ ->. by rewrite H4.
Qed.

Lemma temporary_name_prefix number sequence : String.prefix ".tmp-" (temporary_name process_id number sequence) = true.
Proof. reflexivity. Qed.

Lemma hex16_prefix number : String.prefix ".tmp-" (hex16 number) = false.
Proof.
  unfold hex16. pose proof (hex_fixed_lower 16 number) as Hl. pose proof (hex_fixed_length 16 number) as Hn.
  destruct (hex_fixed 16 number) as [|c l]; [done|]. cbn [forallb] in Hl. apply andb_true_iff in Hl as [Hc _].
  cbn [String.string_of_list_ascii String.prefix]. destruct (Ascii.ascii_dec _ c) as [<-|]; [vm_compute in Hc; done|done].
Qed.

Lemma publishes_below t t1 t2 event temporary name evidence manifest :
  String.prefix ".tmp-" temporary = true → String.prefix ".tmp-" name = false →
  publishes geteuid t t1 [event; name] evidence manifest → changes_below [event; temporary] t1 t2 →
  publishes geteuid t t2 [event; name] evidence manifest.
Proof.
  intros Htmp Hname (Hnone & (Hd & He & Hm & Hrest) & Hother) Hb.
  assert (∀ s, t2 !! ([event; name] ++ s) = t1 !! ([event; name] ++ s)) as Hsame.
  { intros s. apply Hb. intros [k [= ->]]. congruence. }
  split_and!; [done| |].
  - split_and!.
    + rewrite <-(app_nil_r [event; name]), Hsame. exact Hd.
    + by rewrite Hsame.
    + by rewrite Hsame.
    + intros s H1 H2 H3. rewrite Hsame. by apply Hrest.
  - intros p Hp Hnp. rewrite <-Hother by done. by apply (changes_below_temporary event temporary).
Qed.

Lemma commit_revision_atomic w event number evidence manifest :
  ends (commit_revision process_id w [event] number evidence manifest)
    (λ w' _, publishes geteuid (disk_tree w) (disk_tree w') [event; hex16 number] evidence manifest)
    (λ w', same_published (disk_tree w) (disk_tree w') ∨
           publishes geteuid (disk_tree w) (disk_tree w') [event; hex16 number] evidence manifest).
Proof.
  unfold commit_revision. cbn [app].
  pose proof (metadata_keeps w [event; hex16 number]) as H1. unfold keeps in H1.
  destruct (io_metadata w _) as [w1 [metadata|]]; cbn [fst ends] in *; [left; by rewrite H1|].
  pose proof (sequence_keeps w1) as H2. destruct (next_sequence w1) as [w2 sequence]. cbn [fst] in H2. rewrite H1 in H2.
  pose proof (temporary_name_prefix number sequence) as Htmp. pose proof (hex16_prefix number) as Hname.
  pose proof (publish_revision_atomic w2 event _ _ evidence manifest Htmp Hname) as Hp. rewrite H2 in Hp.
  set (temp := temporary_name process_id number sequence) in *.
  destruct (publish_revision w2 _ _ _ _ _) as [w3 [[]|]]; cbn [ends] in Hp |- *; [done|].
  pose proof (metadata_keeps w3 [event; temp]) as H4. unfold keeps in H4.
  assert (∀ w', changes_below [event; temp] (disk_tree w3) (disk_tree w') →
    same_published (disk_tree w) (disk_tree w') ∨
    publishes geteuid (disk_tree w) (disk_tree w') [event; hex16 number] evidence manifest) as Hclean.
  { intros w' Hb. destruct Hp as [Hp|Hp]; [left|right].
    - apply (changes_below_temporary event temp); [done|]. by eapply changes_below_trans.
    - by eapply publishes_below. }
  destruct (io_metadata w3 _) as [w4 [m|]]; cbn [fst ends] in *; apply Hclean; [|by rewrite H4].
  rewrite <-H4. apply remove_changes_below.
Qed.

(** The directory of an event is not a published path. *)
Lemma ensure_event_directory_keeps w id :
  ends (ensure_event_directory geteuid w id)
    (λ w' p, p = [EventId_to_string id] ∧ same_published (disk_tree w) (disk_tree w'))
    (λ w', same_published (disk_tree w) (disk_tree w')).
Proof.
  unfold ensure_event_directory. set (p := [EventId_to_string id]).
  pose proof (metadata_keeps w p) as H1. unfold keeps in H1.
  destruct (io_metadata w p) as [w1 [m|error]]; cbn [fst] in H1.
  - unfold validate_private_directory. do 2 apply ends_and_then. apply ends_or_error.
    apply (ends_keeps w1); [apply metadata_keeps|intros w' Hw q _; by rewrite Hw, H1|].
    intros w2 m2 H2. destruct (is_private_directory _ m2); cbn [ends]; [split; [done|]|]; intros q _; by rewrite H2, H1.
  - destruct error; cbn [ends]; [|intros q _; by rewrite H1..].
    apply ends_and_then, ends_or_error, (ends_keeps w1); [apply checkpoint_keeps|intros w' Hw q _; by rewrite Hw, H1|].
    intros w2 _ H2. apply ends_and_then, ends_or_error. pose proof (create_creates w2 p 448) as Hc. unfold creates in Hc.
    rewrite H2, H1 in Hc.
    assert (∀ t, changes_at p (disk_tree w) t → same_published (disk_tree w) t) as Hat.
    { intros t Hc' q Hq. apply Hc'. by intros ->. }
    destruct (create_directory w2 p 448) as [w3 [[]|]]; cbn [ends]; [|by apply Hat]. destruct Hc as [Hnone H3].
    assert (same_published (disk_tree w) (disk_tree w3)) as Hsame.
    { apply Hat. intros q Hq. rewrite H3. by rewrite lookup_insert_ne. }
    apply ends_and_then, ends_or_error, (ends_keeps w3); [apply sync_keeps|by intros w' ->|].
    intros w4 _ H4. cbn [ends]. by rewrite H4.
Qed.

Lemma same_published_trans t1 t2 t3 : same_published t1 t2 → same_published t2 t3 → same_published t1 t3.
Proof. intros H1 H2 p Hp. by rewrite H2, H1. Qed.

Lemma same_published_publishes t1 t2 t3 event name evidence manifest :
  String.prefix ".tmp-" name = false →
  same_published t1 t2 → publishes geteuid t2 t3 [event; name] evidence manifest →
  publishes geteuid t1 t3 [event; name] evidence manifest.
Proof.
  intros Hname Hsame (Hnone & Hholds & Hother). split_and!; [|done|].
  - rewrite <-Hsame; [done|]. cbn. by rewrite Hname.
  - intros p Hp Hnp. by rewrite Hother, Hsame.
Qed.

(** The disk has one more published revision: the text of [revision] and the text
    of the manifest that was built for it. *)
Definition commits (t t' : tree) (package_version : string) (revision : IncidentRevisionV1) : Prop :=
  IncidentRevisionV1_validate revision = Ok tt ∧
  ∃ evidence manifest bytes, revision_to_json revision = Some evidence ∧
    0 < Z.of_nat (length evidence) ≤ EVIDENCE_MAX_REVISION_BYTES ∧
    build_manifest revision evidence package_version = Some (Ok (manifest, bytes)) ∧
    publishes geteuid t t' [EventId_to_string (ir_event_id revision); hex16 (ir_revision revision)] evidence bytes.

(** *** What a loss of power leaves *)
Lemma leads_trans (R S T : tree → tree → Prop) w w1 w2 :
  leads image R w w1 → leads image S w1 w2 → (∀ t t1 t2, R t t1 → S t1 t2 → T t t2) → leads image T w w2.
Proof.
  intros HR HS HT t2 H2. destruct (HS t2 H2) as (t1 & H1 & Hs). destruct (HR t1 H1) as (t & Ht & Hr). eauto.
Qed.

Lemma leads_keep (R : tree → tree → Prop) w w1 w2 : leads image R w w1 → leads image eq w1 w2 → leads image R w w2.
Proof. intros HR HS. eapply leads_trans; [exact HR|exact HS|]. by intros t t1 t2 Hr <-. Qed.

Lemma leads_mono (R S : tree → tree → Prop) w w' : leads image R w w' → (∀ t t', R t t' → S t t') → leads image S w w'.
Proof. intros HR HS t' Ht. destruct (HR t' Ht) as (t & ? & ?). eauto. Qed.

Lemma leads_self (R : tree → tree → Prop) w : (∀ t, R t t) → leads image R w w.
Proof. intros HR t Ht. eauto. Qed.

(** Nothing that was done to the directory of an event or to what is below it can
    still be lost. *)
Definition settled w (event : string) : Prop :=
  ∀ t, image w t → is_Some (t !! []) ∧ ∀ s, t !! (event :: s) = disk_tree w !! (event :: s).

Lemma settled_keep w w' event :
  disk_tree w' = disk_tree w → leads image eq w w' → settled w event → settled w' event.
Proof. intros Hd Hl Hs t Ht. destruct (Hl t Ht) as (t0 & Ht0 & <-). rewrite Hd. by apply Hs. Qed.

(** An unfinished temporary directory. *)
Definition building (temp : path) (evidence manifest : list Z) (t : tree) : Prop :=
  (t !! temp = None ∨ t !! temp = Some (DirNode 448 geteuid)) ∧
  (t !! (temp ++ [EVIDENCE_FILE]) = None ∨
   is_Some (t !! temp) ∧ t !! (temp ++ [EVIDENCE_FILE]) = Some (FileNode 384 geteuid evidence)) ∧
  (t !! (temp ++ [MANIFEST_FILE]) = None ∨
   is_Some (t !! temp) ∧ t !! (temp ++ [MANIFEST_FILE]) = Some (FileNode 384 geteuid manifest)) ∧
  ∀ s, s ≠ [] → s ≠ [EVIDENCE_FILE] → s ≠ [MANIFEST_FILE] → t !! (temp ++ s) = None.

Section writing.
Context (event temporary : string) (evidence manifest : list Z).
Local Notation temp := [event; temporary].

(** What a run did so far that writes the temporary directory. *)
Definition progress w w' : Prop :=
  leads image (changes_below temp) w w' ∧
  ((∀ t, image w t → ∀ s, t !! (temp ++ s) = None) →
   leads image (λ t t', changes_below temp t t' ∧ building temp evidence manifest t') w w').

Lemma progress_self w : progress w w.
Proof.
  split; [by apply leads_self|]. intros Hfree t Ht. exists t. split_and!; [done..|].
  pose proof (Hfree t Ht) as Hn. unfold building. rewrite !Hn. pose proof (Hn []) as Hn0. cbn in Hn0. rewrite Hn0. auto.
Qed.

Lemma progress_keep w w1 w2 : progress w w1 → leads image eq w1 w2 → progress w w2.
Proof. intros [Hc Hb] Hl. split; [|intros Hf]; (eapply leads_keep; [|exact Hl]); auto. Qed.

Lemma progress_stopped {E A} w w1 s new (m : W * result E A) :
  progress w w1 → creates_image image w1 (temp ++ s) new m → leads image (changes_below temp) w m.1.
Proof.
  intros [Hc _] Hm. eapply leads_trans; [exact Hc|exact Hm|]. intros t t1 t2 Ht [Hat _].
  eapply changes_below_trans; [exact Ht|]. eapply changes_below_child. by apply changes_at_below.
Qed.

Lemma progress_create {E A} w w1 s new (m : W * result E A) :
  progress w w1 → creates_image image w1 (temp ++ s) new m → is_ok m.2 = true →
  (∀ t t', building temp evidence manifest t → changes_at (temp ++ s) t t' →
     t' !! (temp ++ s) = t !! (temp ++ s) ∨ is_Some (t !! removelast (temp ++ s)) ∧ t' !! (temp ++ s) = Some new →
     building temp evidence manifest t') →
  progress w m.1.
Proof.
  intros Hp Hm Hok Hnext. split; [by eapply progress_stopped|]. intros Hfree. destruct Hp as [_ Hb].
  eapply leads_trans; [exact (Hb Hfree)|exact Hm|]. intros t t1 t2 [Ht Hbuild] [Hat Hnew]. split; [|eauto].
  eapply changes_below_trans; [exact Ht|]. eapply changes_below_child. by apply changes_at_below.
Qed.

Lemma building_directory t t' :
  building temp evidence manifest t → changes_at temp t t' →
  t' !! temp = t !! temp ∨ t' !! temp = Some (DirNode 448 geteuid) → building temp evidence manifest t'.
Proof.
  intros (Hd & He & Hm & Hrest) Hat Hnew.
  assert (∀ s, s ≠ [] → t' !! (temp ++ s) = t !! (temp ++ s)) as Hsame.
  { intros s Hs. apply Hat. intros [=]. by destruct s. }
  assert (is_Some (t !! temp) → is_Some (t' !! temp)) as Hsome by (by destruct Hnew as [-> | ->]).
  unfold building. rewrite !Hsame by done. split_and!; [destruct Hnew as [-> | ->]; auto|naive_solver|naive_solver|].
  intros s H1 H2 H3. rewrite Hsame by done. by apply Hrest.
Qed.

Lemma building_file file bytes t t' :
  (file, bytes) ∈ [(EVIDENCE_FILE, evidence); (MANIFEST_FILE, manifest)] →
  building temp evidence manifest t → changes_at (temp ++ [file]) t t' →
  t' !! (temp ++ [file]) = t !! (temp ++ [file]) ∨
    is_Some (t !! temp) ∧ t' !! (temp ++ [file]) = Some (FileNode 384 geteuid bytes) →
  building temp evidence manifest t'.
Proof.
  intros Hin (Hd & He & Hm & Hrest) Hat Hnew. pose proof files_differ as Hne.
  assert (t' !! temp = t !! temp) as Htemp by (by apply Hat).
  assert (∀ s, s ≠ [file] → t' !! (temp ++ s) = t !! (temp ++ s)) as Hsame.
  { intros s Hs. apply Hat. by intros [= ->]. }
  assert (file ≠ EVIDENCE_FILE → t' !! (temp ++ [EVIDENCE_FILE]) = t !! (temp ++ [EVIDENCE_FILE])) as HsE
    by (intros Hf; apply Hsame; intros [= Heq]; by apply Hf).
  assert (file ≠ MANIFEST_FILE → t' !! (temp ++ [MANIFEST_FILE]) = t !! (temp ++ [MANIFEST_FILE])) as HsM
    by (intros Hf; apply Hsame; intros [= Heq]; by apply Hf).
  rewrite !elem_of_cons, elem_of_nil in Hin. unfold building. rewrite Htemp.
  destruct Hin as [[= -> ->]|[[= -> ->]|[]]].
  - rewrite HsM by (intros Heq; by apply Hne). split_and!; [done| |done|].
    + destruct Hnew as [-> | [? ?]]; auto.
    + intros s H1 H2 H3. rewrite Hsame by done. by apply Hrest.
  - rewrite HsE by done. split_and!; [done|done| |].
    + destruct Hnew as [-> | [? ?]]; auto.
    + intros s H1 H2 H3. rewrite Hsame by done. by apply Hrest.
Qed.

(** The synchronisation of a directory that is complete for the processes. *)
Lemma synchronised_temporary w w7 :
  progress w w7 →
  ends (sync_directory w7 temp)
    (λ w' _, (∀ t, image w t → ∀ s, t !! (temp ++ s) = None) → disk_tree w' = written (disk_tree w) temp evidence manifest →
       leads image (λ t t', changes_below temp t t' ∧
         ((∀ s, t' !! (temp ++ s) = None) ∨ holds_revision geteuid t' temp evidence manifest)) w w')
    (λ w', leads image (changes_below temp) w w').
Proof.
  intros [Hc Hb]. pose proof (sync_image w7 temp) as Hs. pose proof (sync_keeps w7 temp) as Hk.
  unfold synchronises, keeps in *. destruct (sync_directory w7 temp) as [w8 [u|e]]; cbn [ends fst snd is_ok] in *.
  2: { eapply leads_trans; [exact Hc|exact Hs|]. by intros t t1 t2 Ht [-> _]. }
  intros Hfree Hwritten. eapply leads_trans; [exact (Hb Hfree)|exact Hs|]. intros t t1 t2 [Ht (Hd & He & Hm & Hrest)] [-> Hsync].
  split; [done|]. specialize (Hsync eq_refl). rewrite <-Hk, Hwritten in Hsync. destruct Hd as [Hd|Hd].
  - left. intros s. destruct (decide (s = [])) as [->|]; [exact Hd|].
    destruct (decide (s = [EVIDENCE_FILE])) as [->|]; [destruct He as [?|[[? Hx] _]]; [done|congruence]|].
    destruct (decide (s = [MANIFEST_FILE])) as [->|]; [destruct Hm as [?|[[? Hx] _]]; [done|congruence]|]. by apply Hrest.
  - right. specialize (Hsync ltac:(by rewrite Hd)). unfold written in Hsync.
    pose proof (proj1 (Hsync EVIDENCE_FILE)) as HsE. pose proof (proj1 (Hsync MANIFEST_FILE)) as HsM.
    assert (temp ++ [MANIFEST_FILE] ≠ temp ++ [EVIDENCE_FILE]) as Hne by (intros [= Heq]; by apply files_differ).
    rewrite lookup_insert_ne, lookup_insert_eq in HsE by done. rewrite lookup_insert_eq in HsM.
    specialize (HsE ltac:(by eexists)). specialize (HsM ltac:(by eexists)).
    split_and!; [done| | |done]; [destruct He as [He|[_ ?]]|destruct Hm as [Hm|[_ ?]]]; try done;
      [rewrite He in HsE|rewrite Hm in HsM]; by destruct HsE || by destruct HsM.
Qed.

(** Both files are written and their directory is synchronised: in every tree that
    may be left, the directory is complete or not there. *)
Lemma write_revision_power w :
  ends (write_revision w temp evidence manifest)
    (λ w' _, (∀ t, image w t → ∀ s, t !! (temp ++ s) = None) → disk_tree w' = written (disk_tree w) temp evidence manifest →
       leads image (λ t t', changes_below temp t t' ∧
         ((∀ s, t' !! (temp ++ s) = None) ∨ holds_revision geteuid t' temp evidence manifest)) w w')
    (λ w', leads image (changes_below temp) w w').
Proof.
  unfold write_revision. pose proof (progress_self w) as Hp0.
  pose proof (checkpoint_image w CreateTemporary) as Hl. apply ends_and_then, ends_or_error.
  destruct (checkpoint w CreateTemporary) as [w1 [u|e]]; cbn [ends fst] in *; pose proof (progress_keep _ _ _ Hp0 Hl) as Hp1; [|apply Hp1].
  clear Hl. apply ends_and_then, ends_or_error. pose proof (create_image w1 temp 448) as Hc.
  pose proof (progress_stopped _ _ [] _ _ Hp1 Hc) as Hstop. pose proof (progress_create _ _ [] _ _ Hp1 Hc) as Hp2.
  destruct (create_directory w1 temp 448) as [w2 [u2|e2]]; cbn [ends fst snd is_ok] in *; [|exact Hstop].
  specialize (Hp2 eq_refl). assert (progress w w2) as Hp2'.
  { apply Hp2. intros t t' Hb Hat Hnew. eapply building_directory; [exact Hb|exact Hat|]. destruct Hnew as [?|[_ ?]]; auto. }
  clear Hp2 Hc Hstop. pose proof (checkpoint_image w2 WriteEvidence) as Hl. apply ends_and_then, ends_or_error.
  destruct (checkpoint w2 WriteEvidence) as [w3 [u3|e3]]; cbn [ends fst] in *; pose proof (progress_keep _ _ _ Hp2' Hl) as Hp3; [|apply Hp3].
  clear Hl. apply ends_and_then, ends_or_error. pose proof (write_image w3 (temp ++ [EVIDENCE_FILE]) evidence 384) as Hc.
  pose proof (progress_stopped _ _ [EVIDENCE_FILE] _ _ Hp3 Hc) as Hstop.
  pose proof (progress_create _ _ [EVIDENCE_FILE] _ _ Hp3 Hc) as Hp4.
  destruct (write_file w3 (temp ++ [EVIDENCE_FILE]) evidence 384) as [w4 [u4|e4]]; cbn [ends fst snd is_ok] in *; [|exact Hstop].
  specialize (Hp4 eq_refl). assert (progress w w4) as Hp4'.
  { apply Hp4. intros t t' Hb Hat Hnew. eapply (building_file EVIDENCE_FILE evidence); [left|exact Hb|exact Hat|exact Hnew]. }
  clear Hp4 Hc Hstop. pose proof (checkpoint_image w4 WriteManifest) as Hl. apply ends_and_then, ends_or_error.
  destruct (checkpoint w4 WriteManifest) as [w5 [u5|e5]]; cbn [ends fst] in *; pose proof (progress_keep _ _ _ Hp4' Hl) as Hp5; [|apply Hp5].
  clear Hl. apply ends_and_then, ends_or_error. pose proof (write_image w5 (temp ++ [MANIFEST_FILE]) manifest 384) as Hc.
  pose proof (progress_stopped _ _ [MANIFEST_FILE] _ _ Hp5 Hc) as Hstop.
  pose proof (progress_create _ _ [MANIFEST_FILE] _ _ Hp5 Hc) as Hp6.
  destruct (write_file w5 (temp ++ [MANIFEST_FILE]) manifest 384) as [w6 [u6|e6]]; cbn [ends fst snd is_ok] in *; [|exact Hstop].
  specialize (Hp6 eq_refl). assert (progress w w6) as Hp6'.
  { apply Hp6. intros t t' Hb Hat Hnew. eapply (building_file MANIFEST_FILE manifest); [right; left|exact Hb|exact Hat|exact Hnew]. }
  clear Hp6 Hc Hstop. pose proof (checkpoint_image w6 SyncTemporary) as Hl. apply ends_and_then, ends_or_error.
  destruct (checkpoint w6 SyncTemporary) as [w7 [u7|e7]]; cbn [ends fst] in *; pose proof (progress_keep _ _ _ Hp6' Hl) as Hp7; [|apply Hp7].
  apply ends_or_error. by apply synchronised_temporary.
Qed.
End writing.

Lemma put_tree w self revision :
  match put geteuid process_id w self revision with
  | None => True
  | Some (w', _, res) =>
      (is_ok res = false ∧ same_published (disk_tree w) (disk_tree w')) ∨
      commits (disk_tree w) (disk_tree w') (st_package_version self) revision
  end.
Proof.
  unfold put, validate_root, and_then. pose proof (metadata_keeps w []) as H1. unfold keeps in H1. unfold or_error.
  destruct (io_metadata w []) as [w1 [metadata|]]; cbn [fst snd map_err] in *; [|left; split; [done|intros p _; by rewrite H1]].
  destruct (is_private_directory geteuid metadata); [|left; split; [done|intros p _; by rewrite H1]].
  destruct (prepare_put self revision) as [[[[[evidence manifest] bytes] event_bytes]|error]|] eqn:Hp;
    cbn [fmap option_fmap option_map]; [|left; split; [done|intros p _; by rewrite H1]|done].
  apply prepare_put_ok in Hp as ((Hv & _)%check_revision_ok & Hj & Hlen & Hm & _).
  pose proof (ensure_event_directory_keeps w1 (ir_event_id revision)) as Hdir. rewrite H1 in Hdir.
  destruct (ensure_event_directory geteuid w1 _) as [w2 [p|]]; cbn [ends] in Hdir; [|by left]. destruct Hdir as [-> Hdir].
  pose proof (commit_revision_atomic w2 (EventId_to_string (ir_event_id revision)) (ir_revision revision) evidence bytes) as Hc.
  assert (∀ t, publishes geteuid (disk_tree w2) t [EventId_to_string (ir_event_id revision); hex16 (ir_revision revision)]
      evidence bytes → commits (disk_tree w) t (st_package_version self) revision) as Hpub.
  { intros t Hpub. split; [done|]. exists evidence, manifest, bytes. split_and!; [done|apply Hlen|apply Hlen|done|].
    by eapply same_published_publishes; [apply hex16_prefix|..]. }
  destruct (commit_revision process_id w2 _ _ _ _) as [w3 [[]|]]; cbn [ends fst] in *; [right; by apply Hpub|].
  destruct Hc as [Hc|Hc]; [left|right; by apply Hpub]. split; [done|by eapply same_published_trans].
Qed.

(** One more revision, and nothing else outside of its temporary directory, which
    is gone. *)
Definition renamed (temp target : path) (evidence manifest : list Z) (t t' : tree) : Prop :=
  t !! target = None ∧ holds_revision geteuid t' target evidence manifest ∧
  (∀ q, temp `prefix_of` q → t' !! q = None) ∧
  ∀ q, ¬ temp `prefix_of` q → ¬ target `prefix_of` q → t' !! q = t !! q.

Section publishing.
Context (event temporary name : string) (evidence manifest : list Z).
Hypotheses (Htmp : String.prefix ".tmp-" temporary = true) (Hname : String.prefix ".tmp-" name = false).
Local Notation temp := [event; temporary].
Local Notation target := [event; name].

Lemma target_apart s : ¬ temp `prefix_of` target ++ s.
Proof using Htmp Hname. intros [k [= ->]]. congruence. Qed.

Lemma temp_apart s : ¬ target `prefix_of` temp ++ s.
Proof using Htmp Hname. intros [k [= ->]]. congruence. Qed.

(** The rename of a temporary directory that is complete wherever it is there. *)
Lemma rename_power w w2 w3 :
  settled w event → changes_below temp (disk_tree w) (disk_tree w2) →
  leads image (λ t t', changes_below temp t t' ∧
    ((∀ s, t' !! (temp ++ s) = None) ∨ holds_revision geteuid t' temp evidence manifest)) w w2 →
  rename_noreplace w2 temp target = (w3, Ok tt) →
  leads image (λ t t', changes_below temp t t' ∨ renamed temp target evidence manifest t t') w w3.
Proof using Htmp Hname.
  intros Hs Hbelow Hl Hr. pose proof (rename_moves w2 temp target) as Hm. pose proof (rename_image w2 temp target) as Hi.
  rewrite Hr in Hm, Hi. unfold moves, moves_image in *. cbn [fst snd] in *. destruct Hm as [Hfree _].
  intros t3 Ht3. destruct (Hi t3 Ht3) as (t2 & Ht2 & Hmove). destruct (Hl t2 Ht2) as (t & Ht & Hb & Hcases).
  exists t. split; [done|]. destruct Hmove as [->|[_ (Hmoved & Hother & Hgone)]]; [by left|].
  assert (∀ s, t !! (target ++ s) = None) as Hnone.
  { intros s. destruct (Hs t Ht) as [_ Ht0]. rewrite (Ht0 (name :: s) : t !! (target ++ s) = disk_tree w !! (target ++ s)).
    rewrite <-(Hbelow (target ++ s)) by apply target_apart. apply Hfree. }
  destruct Hcases as [Hempty|(Hd & He & Hf & Hrest)].
  - left. intros q Hq. destruct (decide (target `prefix_of` q)) as [[s ->]|Hnt].
    + by rewrite Hmoved, Hempty, Hnone.
    + rewrite Hother by done. by apply Hb.
  - right. split_and!.
    + rewrite <-(app_nil_r target). apply Hnone.
    + split_and!; [rewrite <-(app_nil_r target), Hmoved; exact Hd|by rewrite Hmoved..|].
      intros s H1 H2 H3. rewrite Hmoved. by apply Hrest.
    + intros q [s ->]. apply Hgone; [by apply prefix_app_r|apply temp_apart].
    + intros q Hq Hnt. rewrite Hother by done. by apply Hb.
Qed.

Lemma publish_revision_power w :
  settled w event → is_Some (disk_tree w !! [event]) →
  ends (publish_revision w [event] temp target evidence manifest)
    (λ w' _, leads image (renamed temp target evidence manifest) w w')
    (λ w', leads image (λ t t', changes_below temp t t' ∨ renamed temp target evidence manifest t t') w w').
Proof using Htmp Hname.
  intros Hs Hevent. unfold publish_revision. apply ends_and_then.
  pose proof (write_revision_power event temporary evidence manifest w) as Hp.
  pose proof (write_revision_tree w temp evidence manifest) as Ht.
  destruct (write_revision w temp evidence manifest) as [w1 [u|e]]; cbn [ends] in *;
    [|eapply leads_mono; [exact Hp|by left]].
  destruct Ht as [Hfree H1]. pose proof (written_revision _ _ evidence manifest Hfree) as [Hholds Hbelow].
  fold (written (disk_tree w) temp evidence manifest) in Hholds, Hbelow. rewrite <-H1 in Hholds, Hbelow.
  assert (∀ t, image w t → ∀ s, t !! (temp ++ s) = None) as Hfresh.
  { intros t Hi s. destruct (Hs t Hi) as [_ Ht]. cbn. rewrite (Ht (temporary :: s)). apply Hfree. }
  specialize (Hp Hfresh H1). apply ends_and_then, ends_or_error.
  pose proof (checkpoint_image w1 Publish) as Hl. pose proof (checkpoint_keeps w1 Publish) as Hk. unfold keeps in Hk.
  destruct (checkpoint w1 Publish) as [w2 [u2|e2]]; cbn [ends fst] in *; pose proof (leads_keep _ _ _ _ Hp Hl) as Hp2;
    [|eapply leads_mono; [exact Hp2|]; intros t t' [? _]; by left].
  rewrite <-Hk in Hholds, Hbelow. pose proof (rename_moves w2 temp target) as Hm.
  pose proof (rename_image w2 temp target) as Hi. pose proof (rename_power w w2) as Hrename.
  assert (∀ w3 e, rename_noreplace w2 temp target = (w3, Err e) →
    leads image (λ t t', changes_below temp t t' ∨ renamed temp target evidence manifest t t') w w3) as Hfailed.
  { intros w3 e3 Hr. rewrite Hr in Hi. eapply leads_trans; [exact Hp2|exact Hi|].
    intros t t1 t2 [Hb _] [->|[? _]]; [by left|done]. }
  destruct (rename_noreplace w2 temp target) as [w3 [[]|[]]]; cbn [ends]; [|by eapply Hfailed..].
  specialize (Hrename w3 Hs Hbelow Hp2 eq_refl). clear Hfailed Hi. destruct Hm as [Hfreet (Hmoved & Hother & _)].
  assert (is_Some (disk_tree w3 !! target)) as Htarget.
  { rewrite <-(app_nil_r target), Hmoved, app_nil_r. destruct Hholds as [-> _]. eauto. }
  apply ends_and_then, ends_or_error. pose proof (checkpoint_image w3 SyncEvent) as Hl3.
  pose proof (checkpoint_keeps w3 SyncEvent) as Hk3. unfold keeps in Hk3.
  destruct (checkpoint w3 SyncEvent) as [w4 [u4|e4]]; cbn [ends fst] in *; pose proof (leads_keep _ _ _ _ Hrename Hl3) as Hp4; [|exact Hp4].
  rewrite <-Hk3 in Htarget. apply ends_or_error. pose proof (sync_image w4 [event]) as Hsync. unfold synchronises in Hsync.
  destruct (sync_directory w4 [event]) as [w5 [u5|e5]]; cbn [ends fst snd is_ok] in *.
  - intros t5 Ht5. destruct (Hsync t5 Ht5) as (t4 & Ht4 & -> & Hentries). destruct (Hp4 t4 Ht4) as (t & Ht & [Hb|Hdone]); [|by exists t].
    exfalso. specialize (Hentries eq_refl). destruct (Hs t Ht) as [_ Hsame].
    assert (t4 !! [event] = disk_tree w !! [event]) as Hev.
    { rewrite Hb, (Hsame []); [done|]. intros [k Hk']. by destruct k. }
    rewrite Hev in Hentries. pose proof (proj1 (Hentries Hevent name) Htarget) as [n Hn]. cbn in Hn.
    rewrite (Hb target), (Hsame [name]) in Hn by (rewrite <-(app_nil_r target); apply target_apart).
    rewrite <-(Hbelow target) in Hn by (rewrite <-(app_nil_r target); apply target_apart).
    specialize (Hfreet []). rewrite app_nil_r in Hfreet. congruence.
  - eapply leads_trans; [exact Hp4|exact Hsync|]. by intros t t1 t2 Ht [-> _].
Qed.

Lemma renamed_publishes t t' :
  renamed temp target evidence manifest t t' → publishes geteuid t t' target evidence manifest.
Proof using Htmp.
  intros (Hn & Hh & _ & Hother). split_and!; [done..|]. intros p Hp Hnt. apply Hother; [|done].
  intros [s ->]. cbn in Hp. by rewrite Htmp in Hp.
Qed.

(** Of two trees that come out of settled ones in this way, the directory of the
    event is the same. *)
Lemma renamed_settled w w' :
  settled w event → leads image (renamed temp target evidence manifest) w w' → settled w' event.
Proof using Htmp Hname.
  intros Hs Hl t' Ht'. destruct (Hl t' Ht') as (t & Ht & _ & (Hd & He & Hm & Hrest) & Hgone & Hother).
  destruct (Hl _ (image_now w')) as (u & Hu & _ & (Hd' & He' & Hm' & Hrest') & Hgone' & Hother').
  destruct (Hs t Ht) as [Hroot Hsame]. destruct (Hs u Hu) as [_ Hsame']. split.
  - rewrite Hother; [done|intros [k Hk]; by destruct k..].
  - intros s. destruct (decide (temp `prefix_of` event :: s)) as [Hp|Hp]; [by rewrite Hgone, Hgone'|].
    destruct (decide (target `prefix_of` event :: s)) as [[k Hk]|Hnt]; [|by rewrite Hother, Hother', Hsame, Hsame'].
    rewrite Hk. destruct (decide (k = [])) as [->|]; [by rewrite app_nil_r, Hd, Hd'|].
    destruct (decide (k = [EVIDENCE_FILE])) as [->|]; [by rewrite He, He'|].
    destruct (decide (k = [MANIFEST_FILE])) as [->|]; [by rewrite Hm, Hm'|]. by rewrite Hrest, Hrest'.
Qed.
End publishing.

Lemma commit_revision_power w event number evidence manifest :
  settled w event → is_Some (disk_tree w !! [event]) →
  ends (commit_revision process_id w [event] number evidence manifest)
    (λ w' _, settled w' event ∧
       leads image (λ t t', publishes geteuid t t' [event; hex16 number] evidence manifest) w w')
    (λ w', leads image (λ t t', same_published t t' ∨
       publishes geteuid t t' [event; hex16 number] evidence manifest) w w').
Proof.
  intros Hs Hevent. unfold commit_revision. cbn [app].
  pose proof (metadata_keeps w [event; hex16 number]) as K1. pose proof (metadata_image w [event; hex16 number]) as L1.
  unfold keeps in K1. destruct (io_metadata w _) as [w1 [metadata|]]; cbn [fst ends] in *.
  { eapply leads_mono; [exact L1|]. intros t t' <-. by left. }
  pose proof (sequence_keeps w1) as K2. pose proof (sequence_image w1) as L2.
  destruct (next_sequence w1) as [w2 sequence]. cbn [fst] in K2, L2. rewrite K1 in K2. pose proof (leads_keep _ _ _ _ L1 L2) as L.
  pose proof (temporary_name_prefix number sequence) as Htmp. pose proof (hex16_prefix number) as Hname.
  set (temporary := temporary_name process_id number sequence) in *.
  pose proof (settled_keep _ _ _ K2 L Hs) as Hs2. rewrite <-K2 in Hevent.
  pose proof (publish_revision_power event temporary _ evidence manifest Htmp Hname w2 Hs2 Hevent) as Hp.
  destruct (publish_revision w2 _ _ _ _ _) as [w3 [[]|e3]]; cbn [ends] in Hp |- *.
  { split; [by eapply renamed_settled|]. eapply leads_trans; [exact L|exact Hp|].
    intros t t1 t2 <-. by apply renamed_publishes. }
  assert (leads image (λ t t', same_published t t' ∨ publishes geteuid t t' [event; hex16 number] evidence manifest) w w3) as Hw3.
  { eapply leads_trans; [exact L|exact Hp|]. intros t t1 t2 <- [Hb|Hr]; [left|right].
    - by apply (changes_below_temporary event temporary).
    - by apply (renamed_publishes event temporary). }
  assert (∀ w', leads image (changes_below [event; temporary]) w3 w' →
    leads image (λ t t', same_published t t' ∨ publishes geteuid t t' [event; hex16 number] evidence manifest) w w') as Hclean.
  { intros w' Hl. eapply leads_trans; [exact Hw3|exact Hl|]. intros t t1 t2 [Hsame|Hpub] Hb; [left|right].
    - intros p Hpp. rewrite (changes_below_temporary event temporary _ _ Htmp Hb p Hpp). by apply Hsame.
    - by eapply publishes_below. }
  pose proof (metadata_image w3 [event; temporary]) as L4. destruct (io_metadata w3 _) as [w4 [m|]]; cbn [fst ends] in *; apply Hclean.
  - eapply leads_trans; [exact L4|apply remove_image|]. by intros t t1 t2 <-.
  - eapply leads_mono; [exact L4|]. by intros t t' <-.
Qed.

Lemma ensure_event_directory_power w id :
  settled w (EventId_to_string id) →
  ends (ensure_event_directory geteuid w id)
    (λ w' _, settled w' (EventId_to_string id) ∧ is_Some (disk_tree w' !! [EventId_to_string id]) ∧
       leads image (changes_at [EventId_to_string id]) w w')
    (λ w', leads image (changes_at [EventId_to_string id]) w w').
Proof.
  intros Hs. unfold ensure_event_directory. set (event := EventId_to_string id) in *. set (p := [event]).
  assert (∀ w', leads image eq w w' → leads image (changes_at p) w w') as Heq.
  { intros w' Hl. eapply leads_mono; [exact Hl|]. by intros t t' <-. }
  pose proof (metadata_keeps w p) as K1. pose proof (metadata_image w p) as L1. pose proof (metadata_sound w p) as Hsound.
  unfold keeps in K1. destruct (io_metadata w p) as [w1 [m|error]]; cbn [fst snd] in *.
  - specialize (Hsound m eq_refl). unfold validate_private_directory. do 2 apply ends_and_then. apply ends_or_error.
    pose proof (metadata_keeps w1 p) as K2. pose proof (metadata_image w1 p) as L2. unfold keeps in K2.
    destruct (io_metadata w1 p) as [w2 [m2|e2]]; cbn [ends fst] in *; pose proof (leads_keep _ _ _ _ L1 L2) as L; [|by apply Heq].
    destruct (is_private_directory _ m2); cbn [ends]; [|by apply Heq]. rewrite K1 in K2.
    split_and!; [by eapply settled_keep|by rewrite K2|by apply Heq].
  - destruct error; cbn [ends]; [|by apply Heq..]. apply ends_and_then, ends_or_error.
    pose proof (checkpoint_keeps w1 CreateEvent) as K2. pose proof (checkpoint_image w1 CreateEvent) as L2. unfold keeps in K2.
    destruct (checkpoint w1 CreateEvent) as [w2 [u2|e2]]; cbn [ends fst] in *; pose proof (leads_keep _ _ _ _ L1 L2) as L; [|by apply Heq].
    rewrite K1 in K2. apply ends_and_then, ends_or_error. pose proof (create_creates w2 p 448) as Hc.
    pose proof (create_image w2 p 448) as Hi. unfold creates, creates_image in *.
    destruct (create_directory w2 p 448) as [w3 [u3|e3]]; cbn [ends fst snd is_ok] in *.
    2: { eapply leads_trans; [exact L|exact Hi|]. by intros t t1 t2 <- [? _]. }
    destruct Hc as [Hnone K3]. apply ends_and_then, ends_or_error. pose proof (sync_keeps w3 []) as K4.
    pose proof (sync_image w3 []) as Hsync. unfold keeps, synchronises in *.
    assert (leads image (changes_at p) w w3) as L3.
    { eapply leads_trans; [exact L|exact Hi|]. by intros t t1 t2 <- [? _]. }
    destruct (sync_directory w3 []) as [w4 [u4|e4]]; cbn [ends fst snd is_ok] in *.
    2: { eapply leads_trans; [exact L3|exact Hsync|]. by intros t t1 t2 Hat [-> _]. }
    assert (disk_tree w4 !! p = Some (DirNode 448 geteuid)) as Hp by (by rewrite K4, K3, lookup_insert_eq).
    split_and!; [|rewrite Hp; eauto|eapply leads_trans; [exact L3|exact Hsync|]; by intros t t1 t2 Hat [-> _]].
    intros t4 Ht4. destruct (Hsync t4 Ht4) as (t3 & Ht3 & -> & Hentries). destruct (Hi t3 Ht3) as (t & Ht & Hat & Hnew).
    destruct (L t Ht) as (t0 & Ht0 & ->). destruct (Hs t Ht0) as [Hroot Hsame].
    assert (is_Some (t3 !! [])) as Hroot3 by (by rewrite Hat). split; [done|]. intros s. destruct s as [|name s].
    + change [event] with p. rewrite Hp. pose proof (proj1 (Hentries eq_refl Hroot3 event)) as Hev.
      change ([] ++ [event]) with p in Hev. rewrite <-K4, Hp in Hev.
      specialize (Hev ltac:(eauto)). destruct (Hnew eq_refl) as [Hold|[_ Hold]]; [|exact Hold].
      rewrite Hold, (Hsame [] : t !! p = disk_tree w !! p), <-K2 in Hev.
      specialize (Hnone []). rewrite app_nil_r in Hnone. rewrite Hnone in Hev. by destruct Hev.
    + rewrite Hat, Hsame, K4, K3, lookup_insert_ne by done. by rewrite K2.
Qed.

(** A loss of power after [put]. *)
Lemma put_power w self revision w' self' res :
  put geteuid process_id w self revision = Some (w', self', res) → settled w (EventId_to_string (ir_event_id revision)) →
  leads image (λ t t', (is_ok res = false ∧ same_published t t') ∨ commits t t' (st_package_version self) revision) w w' ∧
  (is_ok res = true → settled w' (EventId_to_string (ir_event_id revision))).
Proof.
  intros Hput Hs. unfold put, validate_root, and_then in Hput. pose proof (metadata_keeps w []) as K1.
  pose proof (metadata_image w []) as L1. unfold keeps in K1. unfold or_error in Hput.
  assert (∀ w1 error, leads image eq w w1 → Some (w1, self, Err error) = Some (w', self', res) →
    leads image (λ t t', (is_ok res = false ∧ same_published t t') ∨ commits t t' (st_package_version self) revision) w w' ∧
    (is_ok res = true → settled w' (EventId_to_string (ir_event_id revision)))) as Hrefused.
  { intros w1 error Hl [= <- <- <-]. split; [|done]. eapply leads_mono; [exact Hl|]. intros t t' <-. by left. }
  destruct (io_metadata w []) as [w1 [metadata|]]; cbn [fst snd map_err] in *; [|by eapply Hrefused].
  destruct (is_private_directory geteuid metadata); [|by eapply Hrefused].
  destruct (prepare_put self revision) as [[[[[evidence manifest] bytes] event_bytes]|error]|] eqn:Hp;
    cbn [fmap option_fmap option_map] in Hput; [|by eapply Hrefused|done].
  apply prepare_put_ok in Hp as ((Hv & _)%check_revision_ok & Hj & Hlen & Hm & _).
  pose proof (ensure_event_directory_power w1 (ir_event_id revision) (settled_keep _ _ _ K1 L1 Hs)) as Hdir.
  assert (∀ t t', changes_at [EventId_to_string (ir_event_id revision)] t t' → same_published t t') as Hat.
  { intros t t' Hc q Hq. apply Hc. by intros ->. }
  pose proof (ensure_event_directory_keeps w1 (ir_event_id revision)) as Hpath.
  destruct (ensure_event_directory geteuid w1 _) as [w2 [p|]]; cbn [ends] in Hdir, Hpath.
  2: { injection Hput as <- <- <-. split; [|done]. eapply leads_trans; [exact L1|exact Hdir|]. intros t t1 t2 <- Hc. left. split; [done|by apply Hat]. }
  destruct Hdir as (Hs2 & Hevent & L2). destruct Hpath as [-> _].
  pose proof (leads_trans _ _ (λ t t', same_published t t') _ _ _ L1 L2
    ltac:(by intros t t1 t2 <- Hc; apply Hat)) as L.
  pose proof (commit_revision_power w2 (EventId_to_string (ir_event_id revision)) (ir_revision revision) evidence bytes Hs2 Hevent) as Hc.
  assert (∀ t t1 t2, same_published t t1 →
    publishes geteuid t1 t2 [EventId_to_string (ir_event_id revision); hex16 (ir_revision revision)] evidence bytes →
    commits t t2 (st_package_version self) revision) as Hpub.
  { intros t t1 t2 Hsame Hpub. split; [done|]. exists evidence, manifest, bytes. split_and!; [done|apply Hlen|apply Hlen|done|].
    by eapply same_published_publishes; [apply hex16_prefix|..]. }
  destruct (commit_revision process_id w2 _ _ _ _) as [w3 [[]|]]; cbn [ends] in Hc; injection Hput as <- <- <-.
  - destruct Hc as [Hs3 L3]. split; [|done]. eapply leads_trans; [exact L|exact L3|]. intros t t1 t2 Hsame Hpb. right. by eapply Hpub.
  - split; [|done]. eapply leads_trans; [exact L|exact Hc|]. intros t t1 t2 Hsame [Hsame'|Hpb]; [left|right; by eapply Hpub].
    split; [done|]. intros q Hq. by rewrite Hsame', Hsame.
Qed.

(** ** Reading back *)
Lemma read_private_directory w p : alive w → disk_tree w !! p = Some (DirNode 448 geteuid) →
  ∃ w', validate_private_directory geteuid w p = (w', Ok tt) ∧ alive w' ∧ disk_tree w' = disk_tree w.
Proof.
  intros Ha Hp. destruct (alive_metadata w p _ Ha Hp) as (w' & m & Hm & (Ht & Hmode & Huid) & Ha').
  pose proof (metadata_keeps w p) as Hk. rewrite Hm in Hk. exists w'. split_and!; [|done|exact Hk].
  unfold validate_private_directory, is_private_directory, or_error, and_then. rewrite Hm. cbn.
  by rewrite Ht, Hmode, Huid, bool_decide_eq_true_2, !Z.eqb_refl.
Qed.

Lemma read_private_file w p bytes : alive w → disk_tree w !! p = Some (FileNode 384 geteuid bytes) →
  0 < Z.of_nat (length bytes) ≤ EVIDENCE_MAX_REVISION_BYTES →
  ∃ w', validate_private_file geteuid w p = (w', Ok tt) ∧ alive w' ∧ disk_tree w' = disk_tree w.
Proof.
  intros Ha Hp Hl. destruct (alive_metadata w p _ Ha Hp) as (w' & m & Hm & (Ht & Hmode & Huid & Hlen) & Ha').
  pose proof (metadata_keeps w p) as Hk. rewrite Hm in Hk. exists w'. split_and!; [|done|exact Hk].
  unfold validate_private_file, or_error, and_then. rewrite Hm. cbn.
  rewrite Ht, Hmode, Huid, Hlen, bool_decide_eq_true_2, !Z.eqb_refl by done. cbn [andb].
  by rewrite (proj2 (Z.eqb_neq _ _)), (proj2 (Z.leb_le _ _)) by lia.
Qed.

Lemma parse_hex16 number : 1 ≤ number ≤ EVIDENCE_MAX_REVISIONS_PER_EVENT → parse_revision_name (hex16 number) = Some number.
Proof.
  intros Hn. unfold parse_revision_name, hex16. rewrite <-string_bytes_length.
  unfold string_bytes. rewrite String.list_ascii_of_string_of_list_ascii, hex_fixed_length, hex_fixed_lower.
  assert (EVIDENCE_MAX_REVISIONS_PER_EVENT < 16 ^ Z.of_nat 16) by done.
  cbn [Nat.eqb negb orb]. rewrite from_hex_fixed by lia.
  by rewrite (proj2 (Z.ltb_lt _ _)), (proj2 (Z.leb_le _ _)) by lia.
Qed.

(** What the store relies on of its codec: what it wrote parses to what it was. *)
Definition reads_back (package_version : string) (revision : IncidentRevisionV1) : Prop :=
  (∀ text, revision_to_json revision = Some text → revision_from_json text = Some revision) ∧
  ∀ evidence manifest text, build_manifest revision evidence package_version = Some (Ok (manifest, text)) →
    manifest_from_json text = Some manifest ∧ 0 < Z.of_nat (length text) ≤ EVIDENCE_MAX_REVISION_BYTES.

Lemma revision_entries t target evidence bytes paths :
  holds_revision geteuid t target evidence bytes → NoDup paths →
  (∀ q, q ∈ paths ↔ ∃ name, q = target ++ [name] ∧ is_Some (t !! q)) →
  target ++ [EVIDENCE_FILE] ∈ paths ∧ target ++ [MANIFEST_FILE] ∈ paths ∧ length paths = 2%nat.
Proof.
  intros (_ & He & Hm & Hrest) Hnd Hin. split_and!; [apply Hin; rewrite He; eauto|apply Hin; rewrite Hm; eauto|].
  assert (paths ≡ₚ [target ++ [EVIDENCE_FILE]; target ++ [MANIFEST_FILE]]) as ->; [|done].
  apply NoDup_Permutation; [done| |].
  - constructor; [|apply NoDup_singleton]. rewrite list_elem_of_singleton. by intros [=]%app_inv_head.
  - intros q. rewrite Hin, !elem_of_cons, elem_of_nil. split.
    + intros (name & -> & Hs). destruct (decide (name = EVIDENCE_FILE)) as [->|]; [by left|].
      destruct (decide (name = MANIFEST_FILE)) as [->|]; [by right; left|].
      rewrite Hrest in Hs by (intros [=]; done). by destruct Hs.
    + intros [->|[->|[]]]; [exists EVIDENCE_FILE; by rewrite He|exists MANIFEST_FILE; by rewrite Hm].
Qed.

Lemma revision_schema revision : IncidentRevisionV1_validate revision = Ok tt → ir_schema_version revision = EVIDENCE_SCHEMA_VERSION.
Proof. unfold IncidentRevisionV1_validate. destruct (_ || _) eqn:Hb; [done|]. intros _. boolify. lia. Qed.

Lemma revision_number_range revision :
  IncidentRevisionV1_validate revision = Ok tt → 0 ≤ ir_revision revision →
  1 ≤ ir_revision revision ≤ EVIDENCE_MAX_REVISIONS_PER_EVENT.
Proof. unfold IncidentRevisionV1_validate. destruct (_ || _) eqn:Hb; [done|]. intros _. boolify. lia. Qed.

Lemma read_manifest_built w w' target revision evidence package_version manifest bytes :
  build_manifest revision evidence package_version = Some (Ok (manifest, bytes)) →
  manifest_from_json bytes = Some manifest → read_file w (target ++ [MANIFEST_FILE]) = (w', Ok bytes) →
  read_manifest w target (ir_event_id revision) (ir_revision revision) = (w', Ok manifest).
Proof.
  intros (Hv & _ & Hme)%build_manifest_exact Hp Hr. unfold read_manifest, or_error, and_then. rewrite Hr. cbn.
  rewrite Hp, Hv. assert (em_event_id manifest = ir_event_id revision ∧ em_revision manifest = ir_revision revision) as [-> ->]
    by (by rewrite Hme). by rewrite bool_decide_eq_true_2, Z.eqb_refl.
Qed.

Lemma read_evidence_built w w' target revision evidence package_version manifest bytes :
  build_manifest revision evidence package_version = Some (Ok (manifest, bytes)) →
  IncidentRevisionV1_validate revision = Ok tt → revision_from_json evidence = Some revision →
  read_file w (target ++ [EVIDENCE_FILE]) = (w', Ok evidence) →
  read_evidence w target (ir_event_id revision) (ir_revision revision) manifest = (w', Ok revision).
Proof.
  intros (_ & _ & Hme)%build_manifest_exact Hv Hp Hr. unfold read_evidence, or_error, and_then. rewrite Hr.
  cbn [fst snd map_err]. rewrite Hp, Hv, Hme, (revision_schema _ Hv). cbn.
  by rewrite !bool_decide_eq_true_2, !Z.eqb_refl.
Qed.

(** Recovery adopts a revision that the disk holds. *)
Lemma recover_committed t w package_version revision acc :
  commits t (disk_tree w) package_version revision → alive w → reads_back package_version revision →
  0 ≤ ir_revision revision →
  ∃ w' manifest,
    recover_entry geteuid w (ir_event_id revision) acc
      [EventId_to_string (ir_event_id revision); hex16 (ir_revision revision)] = (w', adopt acc revision manifest) ∧
    ∃ evidence manifest_bytes, revision_to_json revision = Some evidence ∧ manifest_to_json manifest = Some manifest_bytes ∧
      em_total_bytes manifest = Z.of_nat (length evidence) + Z.of_nat (length manifest_bytes).
Proof.
  intros (Hv & evidence & manifest & bytes & Hj & Hlen & Hm & _ & Hholds & _) Ha [Hrev Hman] H0n.
  pose proof (revision_number_range _ Hv H0n) as Hn.
  destruct (Hman _ _ _ Hm) as [Hparse Hmlen].
  pose proof Hm as (_ & Hmj & Hme)%build_manifest_exact.
  set (target := [EventId_to_string (ir_event_id revision); hex16 (ir_revision revision)]) in *.
  pose proof Hholds as (Hd & He & Hmf & _).
  destruct (read_private_directory w target Ha Hd) as (w1 & E1 & Ha1 & T1).
  rewrite <-T1 in Hd. destruct (alive_directory w1 target _ _ Ha1 Hd) as (w2 & paths & E2 & T2 & Ha2 & Hnd & Hin).
  rewrite T1 in T2, Hin. destruct (revision_entries _ _ _ _ _ Hholds Hnd Hin) as (Hine & Hinm & Hcount).
  rewrite <-T2 in He, Hmf.
  destruct (read_private_file w2 _ _ Ha2 He Hlen) as (w3 & E3 & Ha3 & T3). rewrite <-T3 in Hmf.
  destruct (read_private_file w3 _ _ Ha3 Hmf Hmlen) as (w4 & E4 & Ha4 & T4). rewrite <-T4 in Hmf.
  destruct (alive_file w4 _ _ _ _ Ha4 Hmf ltac:(lia)) as (w5 & E5 & T5 & Ha5). rewrite <-T3, <-T4, <-T5 in He.
  destruct (alive_file w5 _ _ _ _ Ha5 He ltac:(lia)) as (w6 & E6 & T6 & Ha6).
  exists w6, manifest. split; [|exists evidence, bytes; split_and!; [done|done|rewrite Hme; cbn; lia]].
  assert (read_revision geteuid w (ir_event_id revision) (ir_revision revision) target = (w6, Ok (revision, manifest))) as Hread.
  { unfold read_revision, or_error, and_then. rewrite E1. cbn [fst snd map_err]. rewrite E2. cbn [fst snd map_err].
    rewrite !bool_decide_eq_true_2, Hcount by done. cbn [negb orb Nat.eqb]. rewrite E3, E4.
    rewrite (read_manifest_built w4 w5 _ _ _ _ _ _ Hm Hparse E5).
    by rewrite (read_evidence_built w5 w6 _ _ _ _ _ _ Hm Hv (Hrev _ Hj) E6). }
  unfold recover_entry. destruct acc as [[latest event_bytes] health].
  change (file_name target) with (hex16 (ir_revision revision)). by rewrite hex16_prefix, (parse_hex16 _ Hn), Hread.
Qed.

(** C6: A commit is atomic and durable.  Whichever of its calls fail, and wherever
    the process dies, a disk that is alive afterwards holds the published revisions
    that were there, and then the commit did not report success, or those and the
    new revision with its complete evidence and manifest.  In the second case
    recovery finds the evidence and the manifest valid and of one another, and adopts
    the revision with the bytes of both files.  The same holds of what is left when
    the machine loses power, at any moment and with whatever was not synchronised
    lost, if nothing was pending for the directory of the event before: what is left
    is what a loss of power before the commit could have left, or that and the whole
    revision, and this for certain once the commit has reported success, after which
    again nothing is pending.  Besides published revisions a commit may leave a
    temporary directory and an empty directory of the event, also when it fails.
    (A directory of the event that an earlier, failed commit left is not synchronised
    again; until it is settled, success is no promise against a loss of power.) *)
Theorem commit_survives_crash w self revision w' self' res w2 acc :
  put geteuid process_id w self revision = Some (w', self', res) →
  alive w2 → 0 ≤ ir_revision revision → reads_back (st_package_version self) revision →
  let event := EventId_to_string (ir_event_id revision) in
  let left_from t :=
    (is_ok res = false ∧ same_published t (disk_tree w2)) ∨
    (commits t (disk_tree w2) (st_package_version self) revision ∧
     ∃ w3 manifest,
       recover_entry geteuid w2 (ir_event_id revision) acc [event; hex16 (ir_revision revision)]
         = (w3, adopt acc revision manifest) ∧
       ∃ evidence manifest_bytes, revision_to_json revision = Some evidence ∧ manifest_to_json manifest = Some manifest_bytes ∧
         em_total_bytes manifest = Z.of_nat (length evidence) + Z.of_nat (length manifest_bytes)) in
  (disk_tree w2 = disk_tree w' → left_from (disk_tree w)) ∧
  (settled w event →
    (image w' (disk_tree w2) → ∃ t, image w t ∧ left_from t) ∧ (is_ok res = true → settled w' event)).
Proof.
  intros Hput Ha Hn Hback event left_from.
  assert (∀ t, (is_ok res = false ∧ same_published t (disk_tree w2)) ∨
    commits t (disk_tree w2) (st_package_version self) revision → left_from t) as Hleft.
  { intros t [Hsame|Hc]; [by left|right]. split; [exact Hc|]. by eapply recover_committed. }
  split.
  - intros Ht. apply Hleft. pose proof (put_tree w self revision) as Htree. rewrite Hput in Htree. by rewrite Ht.
  - intros Hs. destruct (put_power _ _ _ _ _ _ Hput Hs) as [Hl Hok]. split; [|exact Hok].
    intros (t & Ht & Hcases)%Hl. exists t. split; [done|]. by apply Hleft.
Qed.

(** ** A deletion that is not recorded *)

(** The directory of an event is gone, and the store does not know. *)
Definition lost (w : W) (self : LinuxEvidenceStore) (now : Z) : Prop :=
  ∃ closed_at id bytes rest, retention_candidates self = (closed_at, id, bytes) :: rest ∧
    is_expired now closed_at = true ∧ disk_tree w !! [EventId_to_string id] = None.

Lemma lost_later w w' self now now' : lost w self now → disk_tree w' = disk_tree w → now ≤ now' → lost w' self now'.
Proof.
  intros (closed_at & id & bytes & rest & Hc & He & Hn) Ht Hle. exists closed_at, id, bytes, rest.
  rewrite Ht. split_and!; [done| |done]. apply is_expired_true in He. apply is_expired_true. lia.
Qed.

Lemma lost_delete w self reclaimed id bytes :
  disk_tree w !! [EventId_to_string id] = None →
  ∃ w', delete_event geteuid w self reclaimed id bytes = (w', self, Err RetentionUnavailable) ∧ disk_tree w' = disk_tree w.
Proof.
  intros Hn. unfold delete_event, validate_private_directory, or_error, and_then.
  pose proof (metadata_sound w [EventId_to_string id]) as Hs. pose proof (metadata_keeps w [EventId_to_string id]) as Hk.
  destruct (io_metadata w _) as [w' [m|error]]; cbn in *; [|eauto].
  destruct (Hs m eq_refl) as [n Hsome]. congruence.
Qed.

Lemma validate_root_keeps w : disk_tree (validate_root geteuid w).1 = disk_tree w.
Proof.
  unfold validate_root, or_error, and_then. pose proof (metadata_keeps w []) as Hk. unfold keeps in Hk.
  destruct (io_metadata w []) as [w' [m|]]; cbn in *; [|done]. by destruct (is_private_directory geteuid m).
Qed.

Lemma lost_retention w self now incoming :
  lost w self now →
  ∃ w' error, enforce_retention geteuid w self now incoming = (w', self, Err error) ∧ disk_tree w' = disk_tree w.
Proof.
  intros (closed_at & id & bytes & rest & Hc & He & Hn). unfold enforce_retention. pose proof (validate_root_keeps w) as K1.
  destruct (validate_root geteuid w) as [w1 [[]|]]; cbn in K1; [|eauto].
  destruct (_ <? incoming); [eauto|]. pose proof (capacity_keeps w1) as K2. unfold keeps in K2.
  destruct (capacity w1) as [w2 [filesystem|]]; cbn in K2; [|rewrite K1 in K2; eauto]. rewrite K1 in K2.
  destruct (_ <? _); [eauto|]. rewrite Hc. cbn [retention_loop]. rewrite He. cbn [negb andb].
  rewrite <-K2 in Hn. destruct (lost_delete w2 self 0 id bytes Hn) as (w3 & -> & K3). rewrite K2 in K3. eauto.
Qed.

(** Persisting revisions one after the other, each at its time. *)
Fixpoint persist_all (w : W) self (jobs : list (Z * IncidentRevisionV1))
    : option (W * LinuxEvidenceStore * list (result IncidentOutputError unit)) :=
  match jobs with
  | [] => Some (w, self, [])
  | (now, revision) :: jobs =>
      '(w, self, res) ← persist_revision geteuid process_id w self (Some now) revision;
      '(w, self, results) ← persist_all w self jobs;
      Some (w, self, res :: results)
  end.

(** A deletion that was done but not recorded, because the directory above the
    event could not be synchronised, ends the output of the store: once the event is
    the oldest closed one and expired, no revision of any incident can be persisted
    any more, however often it is tried and although nothing else is wrong, and the
    index keeps the event that is gone. *)
Lemma unrecorded_deletion_wedges_store w self now jobs :
  lost w self now → Forall (λ job, now ≤ job.1) jobs →
  ∃ w', persist_all w self jobs = Some (w', self, (λ _, Err StoreUnavailable) <$> jobs) ∧ disk_tree w' = disk_tree w.
Proof.
  intros Hlost Hjobs. revert w Hlost. induction Hjobs as [|[later revision] jobs Hle _ IH]; intros w Hlost; [by exists w|].
  pose proof (lost_later _ w _ _ later Hlost eq_refl Hle) as Hlater.
  destruct (lost_retention w self later EVIDENCE_MAX_REVISION_BYTES Hlater) as (w1 & error & Hr & K1).
  destruct (IH w1) as (w2 & Hall & K2); [by apply (lost_later w w1 self now now Hlost K1)|]. exists w2. rewrite K2, K1. split; [|done].
  cbn [persist_all]. unfold persist_revision. rewrite Hr. cbn. by rewrite Hall.
Qed.
End commit.

(** ** Instances *)
Module EvidenceDiskExample.
Import TreeDisk EvidenceSample EvidenceFactsExample.

Definition tree_of (w : disk) : tree := nodes_tree (dk_nodes w).

Lemma call_keeps {A} (w : disk) (f : disk → disk * result IoErrorKind A) :
  (∀ w', dk_nodes w' = dk_nodes w → dk_nodes (f w').1 = dk_nodes w) → keeps tree_of w (call w f).
Proof.
  intros Hf. unfold keeps, tree_of, call. destruct (dk_calls w) as [[|n]|]; [done|..]; by rewrite Hf.
Qed.

Lemma tree_insert l p n : nodes_tree ((p, n) :: l) = <[p := n]> (nodes_tree l).
Proof. done. Qed.

Lemma create_law w p n (f : disk → disk * result IoErrorKind unit) :
  (∀ w', f w' = create w' p n) → creates tree_of w p n (call w f).
Proof.
  intros Hf. assert (∀ w', dk_nodes w' = dk_nodes w → creates tree_of w p n (create w' p n)) as Hc.
  { intros w' Hn. unfold create. rewrite Hn.
    destruct (is_some _); [destruct (free (dk_nodes w) p) eqn:Hfree|]; cbn; [|intros q _; unfold tree_of; by rewrite Hn..].
    split; [intros s; unfold tree_of; rewrite lookup_nodes; by apply free_spec|]. unfold tree_of. by rewrite <-tree_insert. }
  unfold call. destruct (dk_calls w) as [[|k]|]; [by intros q _|rewrite Hf; by apply Hc..].
Qed.

Lemma move_moved l from target :
  free l target = true → moved from target (nodes_tree l) (nodes_tree (move from target l)).
Proof.
  intros Hfree. split_and!.
  - intros s. rewrite !lookup_nodes. by apply find_move.
  - intros q Hf Ht. rewrite !lookup_nodes. apply find_move_other; unfold below; by apply bool_decide_eq_false_2.
  - intros q Hf Ht. rewrite lookup_nodes. apply find_move_gone; unfold below;
      [by apply bool_decide_eq_true_2|by apply bool_decide_eq_false_2].
Qed.

Lemma move_law w from target :
  moves tree_of w from target (rename_noreplace w from target).
Proof.
  cbn [rename_noreplace disk_io]. assert (∀ w', dk_nodes w' = dk_nodes w → moves tree_of w from target
    (if free (dk_nodes w') target then (with_nodes w' (move from target (dk_nodes w')), Ok tt) else (w', Err AlreadyExistsKind))) as Hm.
  { intros w' Hn. rewrite Hn. destruct (free (dk_nodes w) target) eqn:Hfree; cbn; unfold tree_of; [|by rewrite Hn].
    cbn [dk_nodes with_nodes]. split; [intros s; rewrite lookup_nodes; by apply free_spec|by apply move_moved]. }
  unfold call. destruct (dk_calls w) as [[|k]|]; [done|by apply Hm..].
Qed.

Lemma prune_below p l : changes_below p (nodes_tree l) (nodes_tree (prune p l)).
Proof. intros q Hq. rewrite !lookup_nodes, find_prune. unfold below. by rewrite bool_decide_eq_false_2. Qed.

Lemma prune_law w p : changes_below p (tree_of w) (tree_of (remove_private_directory w p).1).
Proof.
  cbn [remove_private_directory disk_io]. unfold call, tree_of.
  destruct (dk_calls w) as [[|k]|]; [done|apply prune_below..].
Qed.

(** *** What a loss of power leaves: a tree since the last synchronisation *)
Definition tree_images (w : disk) (t : tree) : Prop := ∃ l, l ∈ dk_nodes w :: dk_earlier w ∧ t = nodes_tree l.

(** A call that the disk does not refuse. *)
Lemma call_leads {A : Type} (R : tree → tree → Prop) (w : disk) (f : disk → disk * result IoErrorKind A) :
  (∀ t, R t t) →
  (∀ w', dk_nodes w' = dk_nodes w → dk_earlier w' = dk_earlier w → leads tree_images R w (f w').1) →
  leads tree_images R w (call w f).1.
Proof.
  intros Hrefl Hf. unfold call. destruct (dk_calls w) as [[|n]|]; [|by apply Hf..]. intros t Ht. by exists t.
Qed.

Lemma leads_same {R : tree → tree → Prop} (w w' : disk) :
  (∀ t, R t t) → dk_nodes w' = dk_nodes w → dk_earlier w' = dk_earlier w → leads tree_images R w w'.
Proof. intros Hrefl Hn He t (l & Hl & ->). rewrite Hn, He in Hl. exists (nodes_tree l). split; [by exists l|done]. Qed.

(** The present tree is replaced by another. *)
Lemma leads_with_nodes {R : tree → tree → Prop} (w w' : disk) l :
  (∀ t, R t t) → dk_nodes w' = dk_nodes w → dk_earlier w' = dk_earlier w →
  R (nodes_tree (dk_nodes w)) (nodes_tree l) → leads tree_images R w (with_nodes w' l).
Proof.
  intros Hrefl Hn He HR t (k & Hk & ->). cbn [dk_nodes dk_earlier with_nodes] in Hk. rewrite Hn, He in Hk.
  apply elem_of_cons in Hk as [->|Hk].
  - exists (nodes_tree (dk_nodes w)). split; [|done]. exists (dk_nodes w). split; [left|done].
  - exists (nodes_tree k). split; [by exists k|done].
Qed.

Lemma call_retains {A : Type} (w : disk) (f : disk → disk * result IoErrorKind A) :
  (∀ w', (f w').1 = w') → leads tree_images eq w (call w f).1.
Proof. intros Hf. apply call_leads; [done|]. intros w' Hn He. rewrite Hf. by apply leads_same. Qed.

Lemma create_image_law w p n (f : disk → disk * result IoErrorKind unit) :
  (∀ w', f w' = create w' p n) → creates_image tree_images w p n (call w f).
Proof.
  intros Hf. unfold creates_image, call. destruct (dk_calls w) as [[|k]|]; cbn [fst snd].
  { by apply leads_same; [split|..]. }
  all: rewrite Hf; unfold create; cbn [dk_nodes]; destruct (find_node (dk_nodes w) (removelast p)) as [parent|] eqn:Hparent; cbn [is_some];
    [destruct (free (dk_nodes w) p)|]; cbn [fst snd]; try (apply leads_same; [by split; [done|left]|done..]);
    (apply leads_with_nodes; [by split; [done|left]|done|done|]).
  all: rewrite tree_insert; split; [intros q Hq; by rewrite lookup_insert_ne|];
    intros _; right; rewrite lookup_nodes, Hparent, lookup_insert_eq; by eauto.
Qed.

Lemma sync_image_law w p : synchronises tree_of tree_images w p (sync_directory w p).
Proof.
  unfold synchronises. cbn [sync_directory disk_io]. unfold call.
  destruct (dk_calls w) as [[|k]|]; cbn [fst snd]; [by apply leads_same; [split|..]|..].
  all: intros t (l & Hl & ->); cbn [dk_nodes dk_earlier synchronised] in Hl; apply list_elem_of_singleton in Hl as ->;
    exists (nodes_tree (dk_nodes w)); (split; [exists (dk_nodes w); split; [left|done]|by split]).
Qed.

Lemma move_image_law w from target : moves_image tree_images w from target (rename_noreplace w from target).
Proof.
  unfold moves_image. cbn [rename_noreplace disk_io]. unfold call.
  destruct (dk_calls w) as [[|k]|]; cbn [fst snd dk_nodes]; [by apply leads_same; [left|..]|..].
  all: destruct (free (dk_nodes w) target) eqn:Hfree; cbn [fst snd is_ok]; [|by apply leads_same; [left|..]];
    apply leads_with_nodes; [by left|done|done|]; right; split; [done|]; by apply move_moved.
Qed.

Lemma prune_image_law w p : leads tree_images (changes_below p) w (remove_private_directory w p).1.
Proof.
  cbn [remove_private_directory disk_io]. apply call_leads; [done|]. intros w' Hn He. cbn [fst].
  apply leads_with_nodes; [done..|]. rewrite Hn. apply prune_below.
Qed.

#[export] Instance disk_spec : EvidenceDisk disk uid.
Proof.
  refine {| disk_tree := tree_of; image := tree_images; alive w := dk_calls w = None |}.
  - intros w. exists (dk_nodes w). split; [left|done].
  - intros. by apply call_retains.
  - intros. apply call_retains. intros w'. by destruct (find_node _ _).
  - intros w. by apply leads_same.
  - intros. by apply create_image_law.
  - intros. by apply create_image_law.
  - apply sync_image_law.
  - apply move_image_law.
  - apply prune_image_law.
  - intros. by apply call_keeps.
  - intros. apply call_keeps. intros w' Hn. by destruct (find_node _ _).
  - intros. by apply call_keeps.
  - intros. by apply call_keeps.
  - intros w p m. cbn [io_metadata disk_io]. unfold call, tree_of. rewrite lookup_nodes.
    destruct (dk_calls w) as [[|k]|]; cbn [dk_nodes]; [done|destruct (find_node (dk_nodes w) p); [done|done]..].
  - done.
  - intros. by apply create_law.
  - intros. by apply create_law.
  - intros. by apply move_law.
  - intros. by apply prune_law.
  - intros w p n Ha Hn. unfold tree_of in Hn. rewrite lookup_nodes in Hn. exists w, (metadata_of n).
    cbn [io_metadata disk_io]. unfold call. rewrite Ha, Hn. by destruct n.
  - intros w p mode u Ha Hd. unfold tree_of in Hd. rewrite lookup_nodes in Hd. exists w, (children (dk_nodes w) p).
    cbn [read_directory disk_io]. unfold call. rewrite Ha, Hd. split_and!; [done..|apply children_NoDup|].
    intros q. rewrite children_spec. unfold tree_of. by rewrite lookup_nodes.
  - intros w p mode u bytes Ha Hf _. unfold tree_of in Hf. rewrite lookup_nodes in Hf. exists w.
    cbn [read_file disk_io]. unfold call. by rewrite Ha, Hf.
Defined.

Lemma revived_tree w calls : disk_tree (revived w calls) = nodes_tree (dk_nodes w).
Proof. done. Qed.
End EvidenceDiskExample.

(** ** Witnesses *)
Section witnesses.
Import TreeDisk EvidenceSample EvidenceFactsExample EvidenceDiskExample.

(** The disk stops before the last synchronisation of a commit. *)
Notation crashed := (put uid 1 (revived filled.1 (Some 15%nat)) filled.2 (revision 2 2 None)).

Definition second : path := [EventId_to_string (event 2); hex16 2; EVIDENCE_FILE].

Lemma crashed_is :
  (λ s, (is_ok s.2, is_some (find_node (dk_nodes s.1.1) second))) <$> crashed = Some (false, true) ∧
  find_node (dk_nodes filled.1) second = None ∧ published second = true.
Proof. vm_compute. by split_and!. Qed.

Lemma second_reads_back : reads_back (st_package_version filled.2) (revision 2 2 None).
Proof.
  assert (revision_to_json (revision 2 2 None) = Some [2; 2; 0]) as Hj by reflexivity.
  assert (st_package_version filled.2 = VERSION) as -> by (vm_compute; reflexivity). split.
  - intros text. rewrite Hj. intros [= <-]. reflexivity.
  - intros evidence manifest text Hm. pose proof Hm as (Hv & Ht & Hme)%build_manifest_exact.
    set (total := Z.of_nat (length evidence + length text)) in Hme. clearbody total.
    assert (manifest_to_json manifest = Some ([2; 2; Z.of_nat (length evidence); total] ++ replicate (decimal_length total) 0)) as Htext.
    { rewrite Hme. reflexivity. }
    rewrite Htext in Ht. apply (inj Some) in Ht as <-. split; [rewrite Hme; reflexivity|].
    pose proof (decimal_length_bound total). cbn [app length]. rewrite length_replicate. unfold EVIDENCE_MAX_REVISION_BYTES. lia.
Qed.

(** Nothing is pending on the disk with the two events. *)
Lemma filled_settled : settled uid filled.1 (EventId_to_string (event 2)).
Proof.
  assert (dk_earlier filled.1 = []) as He by (vm_compute; reflexivity).
  assert (is_some (find_node (dk_nodes filled.1) []) = true) as Hroot by (vm_compute; reflexivity).
  intros t (l & Hl & ->). rewrite He in Hl. apply list_elem_of_singleton in Hl as ->. split; [|done].
  rewrite lookup_nodes. destruct (find_node _ _); [eauto|discriminate Hroot].
Qed.

Lemma revived_settled w calls event : settled uid w event → settled uid (revived w calls) event.
Proof. intros Hs t Ht. exact (Hs t Ht). Qed.

(** The machine loses power, and the last change is lost. *)
Definition without_last (w : disk) : disk :=
  mkdisk (default [] (head (dk_earlier w))) None (dk_sequence w) (dk_space w) [].

Lemma crashed_loses :
  (λ s, (is_some (head (dk_earlier s.1.1)), is_some (find_node (dk_nodes (without_last s.1.1)) second))) <$> crashed
  = Some (true, false).
Proof. vm_compute. reflexivity. Qed.

Lemma without_last_image w : is_some (head (dk_earlier w)) = true → image w (disk_tree (without_last w)).
Proof.
  intros Hh. exists (default [] (head (dk_earlier w))). split; [|done]. destruct (dk_earlier w) as [|l rest]; [discriminate Hh|].
  right. left.
Qed.

(** The commit reports a failure; after the restart recovery adopts its revision.
    After a loss of power that takes its last change, nothing of it is published. *)
Lemma commit_survives_crash_witness :
  ∃ w' self' res, crashed = Some (w', self', res) ∧ is_ok res = false ∧
    (∃ w3 manifest, recover_entry uid (revived w' None) (event 2) (None, 0, EvidenceStoreHealth_default)
      [EventId_to_string (event 2); hex16 2]
      = (w3, adopt (None, 0, EvidenceStoreHealth_default) (revision 2 2 None) manifest)) ∧
    ∃ t, image (revived filled.1 (Some 15%nat)) t ∧ ((is_ok res = false ∧ same_published t (disk_tree (without_last w'))) ∨
      commits uid t (disk_tree (without_last w')) (st_package_version filled.2) (revision 2 2 None)).
Proof.
  pose proof crashed_is as (Hc & Hnone & Hpub). pose proof crashed_loses as Hlost.
  destruct crashed as [[[w' self'] res]|] eqn:Hput; [|discriminate Hc].
  apply (inj Some) in Hc, Hlost. cbn [fst snd] in Hc, Hlost. exists w', self', res. split; [reflexivity|].
  split; [exact (f_equal fst Hc)|]. split.
  - destruct (commit_survives_crash uid 1 (revived filled.1 (Some 15%nat)) filled.2 (revision 2 2 None) w' self' res
      (revived w' None) (None, 0, EvidenceStoreHealth_default) Hput) as [Hcrash _];
      [reflexivity|discriminate|apply second_reads_back|].
    destruct (Hcrash eq_refl) as [[_ Hsame]|[_ (w3 & manifest & Hr & _)]]; [exfalso|by exists w3, manifest].
    specialize (Hsame second Hpub). rewrite !revived_tree, !lookup_nodes, Hnone in Hsame.
    apply (f_equal snd) in Hc. cbn [snd] in Hc. rewrite Hsame in Hc. discriminate Hc.
  - destruct (commit_survives_crash uid 1 (revived filled.1 (Some 15%nat)) filled.2 (revision 2 2 None) w' self' res
      (without_last w') (None, 0, EvidenceStoreHealth_default) Hput) as [_ Hpower];
      [reflexivity|discriminate|apply second_reads_back|].
    destruct (Hpower (revived_settled _ _ _ filled_settled)) as [Himage _].
    destruct (Himage (without_last_image _ (f_equal fst Hlost))) as (t & Ht & Hleft).
    exists t. split; [exact Ht|]. destruct Hleft as [?|[? _]]; [by left|by right].
Defined.

Lemma half_deleted_is :
  retention_candidates half_deleted.1.2 = [(2000, event 1, 16)] ∧
  find_node (dk_nodes half_deleted.1.1) [EventId_to_string (event 1)] = None ∧ is_expired LATER 2000 = true.
Proof. vm_compute. by split_and!. Qed.

Lemma unrecorded_deletion_wedges_store_witness :
  ∃ w', persist_all uid 1 (revived half_deleted.1.1 None) half_deleted.1.2
      [(LATER, revision 2 2 None); (LATER + 1, revision 3 1 None)]
    = Some (w', half_deleted.1.2, [Err StoreUnavailable; Err StoreUnavailable]).
Proof.
  destruct (unrecorded_deletion_wedges_store uid 1 (revived half_deleted.1.1 None) half_deleted.1.2 LATER
    [(LATER, revision 2 2 None); (LATER + 1, revision 3 1 None)]) as (w' & Hp & _).
  - destruct half_deleted_is as (Hc & Hn & He). exists 2000, (event 1), 16, []. split; [exact Hc|]. split; [exact He|].
    rewrite revived_tree, lookup_nodes. exact Hn.
  - repeat constructor; cbn; lia.
  - exists w'. exact Hp.
Defined.
End witnesses.
