(* ===== verification/Shared.v ===== *)
(** Mutexes shared between threads: an operation of the blocking pool behind a lock,
    and [SharedEvidenceStore] of [evidence_store.rs], the evidence store that the
    output worker writes while the daemon reads it.  A panic poisons the mutex it
    holds. *)
From S2P Require Import Prelude Domain Text Observation Rate Baseline FingerprintWindow Detection Evidence EvidenceStore Incident Output.

(** ** Blocking operations behind a mutex *)
Record Lock (A : Type) : Type := mkLock { lk_value : A; lk_poisoned : bool }.
Arguments mkLock {A} _ _.
Arguments lk_value {A} _.
Arguments lk_poisoned {A} _.

Definition Lock_new {A} (value : A) : Lock A := mkLock value false.

(** What [spawn_blocking] gives when it is awaited. *)
Inductive joined (T : Type) : Type := Joined (value : T) | JoinFailed.
Arguments Joined {T} _.
Arguments JoinFailed {T}.

(** [lock] and then [operation]; [poisoned] is the answer when the mutex is. *)
Definition blocking {A T} (lock : Lock A) (poisoned : T) (operation : A → A * option T) : Lock A * joined T :=
  if lk_poisoned lock then (lock, Joined poisoned)
  else
    match operation (lk_value lock) with
    | (value, Some answer) => (mkLock value false, Joined answer)
    | (value, None) => (mkLock value true, JoinFailed)
    end.

(** ** The shared evidence store *)

(** [SharedEvidenceStore]: the store behind a mutex of its own. *)
Definition SharedEvidenceStore : Type := Lock LinuxEvidenceStore.

(** The page of the locked store; a panic below poisons its mutex. *)
Definition shared_list (self : SharedEvidenceStore) (query : EvidenceListQuery)
    : SharedEvidenceStore * option (result EvidenceStoreError EvidencePage) :=
  if lk_poisoned self then (self, Some (Err StoreIo))
  else
    match list_events (lk_value self) query with
    | None => (mkLock (lk_value self) true, None)
    | Some page => (self, Some (Ok page))
    end.

Definition shared_get (self : SharedEvidenceStore) (event_id : EventId) : result EvidenceStoreError EvidenceDetailV1 :=
  if lk_poisoned self then Err StoreIo else get (lk_value self) event_id.

Definition shared_health (self : SharedEvidenceStore) : EvidenceStoreHealth :=
  if lk_poisoned self then EvidenceStoreHealth_default else st_health (lk_value self).

Section shared.
Context {W : Type} `{EvidenceIo W} `{EvidenceCodec} (geteuid process_id : Z).

(** An operation on the locked store; [None] is its lack of fuel. *)
Definition with_locked {T} (w : W) (self : SharedEvidenceStore)
    (operation : W → LinuxEvidenceStore → option (W * LinuxEvidenceStore * T))
    : option (W * SharedEvidenceStore * result EvidenceStoreError T) :=
  if lk_poisoned self then Some (w, self, Err StoreIo)
  else '(w, store, value) ← operation w (lk_value self); Some (w, Lock_new store, Ok value).

(** [lock().map_err(Io)?] and an operation that can fail itself. *)
Definition or_poisoned {T} (m : option (W * SharedEvidenceStore * result EvidenceStoreError (result EvidenceStoreError T)))
    : option (W * SharedEvidenceStore * result EvidenceStoreError T) :=
  '(w, self, res) ← m; Some (w, self, match res with Ok value => value | Err error => Err error end).

Definition shared_put (w : W) (self : SharedEvidenceStore) (revision : IncidentRevisionV1)
    : option (W * SharedEvidenceStore * result EvidenceStoreError EvidenceSummaryV1) :=
  or_poisoned (with_locked w self (λ w store, put geteuid process_id w store revision)).

Definition shared_recover (w : W) (self : SharedEvidenceStore)
    : option (W * SharedEvidenceStore * result EvidenceStoreError unit) :=
  or_poisoned (with_locked w self (λ w store, Some (recover geteuid w store))).

(** The store as the output worker writes it, while the daemon reads it. *)
Definition shared_persist_revision (w : W) (self : SharedEvidenceStore) (now_unix_ms : option Z) (revision : IncidentRevisionV1)
    : option (W * SharedEvidenceStore * result IncidentOutputError unit) :=
  '(w, self, res) ← with_locked w self (λ w store, persist_revision geteuid process_id w store now_unix_ms revision);
  Some (w, self, match res with Ok value => value | Err _ => Err StoreUnavailable end).
End shared.
