(* ===== verification/Alert.v ===== *)
(** The alerts of an incident ([alert.rs] and the backends of [incident_output.rs]
    of [l2-loop-agent]): the sanitized alert of a revision, its journal payload, the
    sink that falls back from the journal to standard error, and the backend that
    stores a revision and raises its alert.  The journal socket and standard error
    are a class of operations, JSON is another. *)
From stdpp Require Import pretty.
From S2P Require Import Prelude Domain Text Observation Rate Baseline FingerprintWindow Detection Evidence EvidenceStore EvidenceTree EvidenceStoreFacts Incident Output Shared.

(** ** Alerts *)
Record SanitizedAlertV1 : Type := mkSanitizedAlertV1 {
  sa_event_id : EventId;
  sa_evidence_status : EvidenceStatus;
  sa_revision : Z;
  sa_transition_sequence : Z;
  sa_code : AlertCode;
  sa_severity : AlertSeverity;
  sa_previous_state : DetectionState;
  sa_current_state : DetectionState;
  sa_transition_reason : DetectionTransitionReason;
  sa_interface : InterfaceName;
  sa_ifindex : Z;
  sa_generation : Z;
  sa_message : string;
}.

Definition ALERT_SCHEMA_VERSION : Z := 1.

Definition NEWLINE : Ascii.ascii := Ascii.ascii_of_nat 10.
Definition EQUALS : Ascii.ascii := Ascii.ascii_of_nat 61.
Definition quote : Ascii.ascii := Ascii.ascii_of_nat 34.
Definition line_end : string := String NEWLINE EmptyString.
Definition quoted (text : string) : string := String quote (text ++ String quote EmptyString).

(** The enumerations that are written as text. *)
Inductive AlertVariant : Type :=
| VariantStatus (status : EvidenceStatus)
| VariantCode (code : AlertCode)
| VariantState (state : DetectionState)
| VariantReason (reason : DetectionTransitionReason).

(** [serde_json]: of an enumeration, of a text, and of an alert after its schema
    version and event identifier. *)
Class AlertText : Type := {
  variant_to_string : AlertVariant → option string;
  text_to_string : string → option string;
  alert_to_vec : Z → string → SanitizedAlertV1 → option string;
}.

(** A datagram to the journal, and a write to standard error with its flush. *)
Class AlertIo (I : Type) : Type := {
  send_journal : I → string → I * result unit unit;
  write_stderr : I → string → I * result unit unit;
}.

Inductive AlertPublishOutcome : Type := PublishedJournald | PublishedStderrJson.

Record LinuxAlertSink (I : Type) : Type := mkLinuxAlertSink {
  as_io : I;
  as_stderr_fallback : bool;
  as_published_health_codes : gset string;
}.
Arguments mkLinuxAlertSink {I} _ _ _.
Arguments as_io {I} _.
Arguments as_stderr_fallback {I} _.
Arguments as_published_health_codes {I} _.

Definition LinuxAlertSink_new {I} (io : I) : LinuxAlertSink I := mkLinuxAlertSink io false ∅.

Definition has_forbidden (message : string) : bool :=
  existsb (λ character, (ascii_code character =? 10) || (ascii_code character =? 13) || (ascii_code character =? 61))
    (string_bytes message).

(** [None] is the [InvalidInput] of the source. *)
Definition validate_alert (alert : SanitizedAlertV1) : option unit :=
  if (sa_revision alert =? 0)
     || (sa_transition_sequence alert =? 0)
     || (sa_ifindex alert =? 0)
     || (sa_generation alert =? 0)
     || negb (bool_decide (sa_severity alert = severity (sa_code alert)))
     || bool_decide (sa_message alert = ""%string)
     || (96 <? String.length (sa_message alert))%nat
     || negb (is_ascii (sa_message alert))
     || has_forbidden (sa_message alert)
  then None else Some tt.

Definition journal_priority (severity : AlertSeverity) : Z :=
  match severity with AlertWarning => 4 | AlertNotice => 5 | AlertInformation => 6 end.

Fixpoint trim_start_quotes (text : list Ascii.ascii) : list Ascii.ascii :=
  match text with
  | c :: rest => if decide (c = quote) then trim_start_quotes rest else text
  | [] => []
  end.

(** [trim_matches] of a quote. *)
Definition trim_quotes (text : string) : string :=
  String.string_of_list_ascii (reverse (trim_start_quotes (reverse (trim_start_quotes (string_bytes text))))).

Section text.
Context `{AlertText}.

Definition enum_json (value : AlertVariant) : string :=
  trim_quotes (default "unknown"%string (variant_to_string value)).

Definition journal_payload (alert : SanitizedAlertV1) : string :=
  ("MESSAGE=" ++ sa_message alert ++ line_end ++
  "PRIORITY=" ++ pretty (journal_priority (sa_severity alert)) ++ line_end ++
  "SYSLOG_IDENTIFIER=l2-loopd" ++ line_end ++
  "L2_LOOP_EVENT_ID=" ++ EventId_to_string (sa_event_id alert) ++ line_end ++
  "L2_LOOP_EVIDENCE_STATUS=" ++ enum_json (VariantStatus (sa_evidence_status alert)) ++ line_end ++
  "L2_LOOP_REVISION=" ++ pretty (sa_revision alert) ++ line_end ++
  "L2_LOOP_TRANSITION_SEQUENCE=" ++ pretty (sa_transition_sequence alert) ++ line_end ++
  "L2_LOOP_CODE=" ++ enum_json (VariantCode (sa_code alert)) ++ line_end ++
  "L2_LOOP_PREVIOUS_STATE=" ++ enum_json (VariantState (sa_previous_state alert)) ++ line_end ++
  "L2_LOOP_CURRENT_STATE=" ++ enum_json (VariantState (sa_current_state alert)) ++ line_end ++
  "L2_LOOP_REASON=" ++ enum_json (VariantReason (sa_transition_reason alert)) ++ line_end ++
  "L2_LOOP_INTERFACE=" ++ as_str (sa_interface alert) ++ line_end ++
  "L2_LOOP_IFINDEX=" ++ pretty (sa_ifindex alert) ++ line_end ++
  "L2_LOOP_GENERATION=" ++ pretty (sa_generation alert) ++ line_end)%string.
End text.

(** ** The sink *)
Section sink.
Context `{AlertText} {I : Type} `{AlertIo I}.
Implicit Types (self : LinuxAlertSink I) (alert : SanitizedAlertV1).

Definition set_io self (io : I) : LinuxAlertSink I :=
  mkLinuxAlertSink io (as_stderr_fallback self) (as_published_health_codes self).
Definition set_fallback self : LinuxAlertSink I :=
  mkLinuxAlertSink (as_io self) true (as_published_health_codes self).

Definition is_code_byte (byte : Ascii.ascii) : bool :=
  is_ascii_uppercase byte || is_ascii_digit byte || (ascii_code byte =? 95).

Definition publish_output_health self (code : string) : LinuxAlertSink I * bool :=
  if bool_decide (code = ""%string) || (64 <? String.length code)%nat
     || negb (forallb is_code_byte (string_bytes code))
     || bool_decide (code ∈ as_published_health_codes self)
  then (self, false)
  else
    let self := mkLinuxAlertSink (as_io self) true ({[code]} ∪ as_published_health_codes self) in
    let line :=
      ("{" ++ quoted "schema_version" ++ ":1," ++ quoted "kind" ++ ":" ++ quoted "output_health" ++ "," ++
       quoted "code" ++ ":" ++ default (quoted "OUTPUT_UNAVAILABLE") (text_to_string code) ++ "}" ++ line_end)%string in
    let '(io, res) := write_stderr (as_io self) line in
    (set_io self io, is_ok res).

Definition write_json self alert : LinuxAlertSink I * result unit AlertPublishOutcome :=
  match alert_to_vec ALERT_SCHEMA_VERSION (EventId_to_string (sa_event_id alert)) alert with
  | None => (self, Err tt)
  | Some bytes =>
      let '(io, res) := write_stderr (as_io self) (bytes ++ line_end)%string in
      (set_io self io, _ ← res; Ok PublishedStderrJson)
  end.

Definition publish_alert self alert : LinuxAlertSink I * result unit AlertPublishOutcome :=
  match validate_alert alert with
  | None => (self, Err tt)
  | Some _ =>
      if as_stderr_fallback self then write_json self alert
      else
        match send_journal (as_io self) (journal_payload alert) with
        | (io, Ok _) => (set_io self io, Ok PublishedJournald)
        | (io, Err _) => write_json (set_fallback (set_io self io)) alert
        end
  end.
End sink.

(** ** Backends *)
Definition alert_message (code : AlertCode) : string :=
  match code with
  | StormConfirmed => "passive L2 storm confirmed"
  | AlertExternalLoopSuspected => "passive L2 loop relationship suspected"
  | AlertExternalLoopHighConfidence => "passive L2 loop relationship high confidence"
  | IncidentCooldown => "passive L2 incident cooling down"
  | IncidentClosed => "passive L2 incident closed"
  | GenerationEnded => "passive L2 observation generation ended"
  | OutputDegraded => "passive L2 incident output degraded"
  end.

Definition alert_of (revision : IncidentRevisionV1) (status : EvidenceStatus) : SanitizedAlertV1 :=
  mkSanitizedAlertV1 (ir_event_id revision) status (ir_revision revision) (ir_transition_sequence revision)
    (ir_alert_code revision) (ir_severity revision) (ir_previous_state revision) (ir_current_state revision)
    (ir_transition_reason revision) (ir_interface revision) (ir_interface_index revision)
    (ir_interface_generation revision) (alert_message (ir_alert_code revision)).

Definition sink_mode (outcome : result unit AlertPublishOutcome) : AlertSinkMode :=
  match outcome with Ok PublishedJournald => Journald | Ok PublishedStderrJson | Err _ => StderrJson end.

(** The time of the system in milliseconds of Unix time, if it is one of 64 bits. *)
Class SystemClock (W : Type) : Type := unix_millis : W → W * option Z.

(** The store, the disk below it and the sink. *)
Record StoredIncidentOutputBackend (W I : Type) : Type := mkStoredIncidentOutputBackend {
  so_world : W;
  so_store : SharedEvidenceStore;
  so_alerts : LinuxAlertSink I;
}.
Arguments mkStoredIncidentOutputBackend {W I} _ _ _.
Arguments so_world {W I} _.
Arguments so_store {W I} _.
Arguments so_alerts {W I} _.

Section backends.
Context {W I : Type} `{EvidenceIo W} `{EvidenceCodec} `{SystemClock W} `{AlertText} `{AlertIo I} (geteuid process_id : Z).
Local Notation backend := (StoredIncidentOutputBackend W I).

(** [None] is lack of fuel. *)
Definition stored_persist (b : backend) (job : IncidentWriteJob) : backend * option (result IncidentOutputError unit) :=
  let '(w, now_unix_ms) := unix_millis (so_world b) in
  match shared_persist_revision geteuid process_id w (so_store b) now_unix_ms (job_revision job) with
  | None => (b, None)
  | Some (w, store, res) => (mkStoredIncidentOutputBackend w store (so_alerts b), Some res)
  end.

Definition stored_alert (b : backend) (job : IncidentWriteJob) (status : EvidenceStatus) : backend * AlertSinkMode :=
  let '(alerts, outcome) := publish_alert (so_alerts b) (alert_of (job_revision job) status) in
  (mkStoredIncidentOutputBackend (so_world b) (so_store b) alerts, sink_mode outcome).

#[export] Instance stored_backend : IncidentOutputBackend backend := {
  persist := stored_persist;
  raise_alert b job status := let '(b, mode) := stored_alert b job status in (b, Some mode);
}.

(** The sink of a daemon without a store. *)
Definition sink_alert (b : LinuxAlertSink I) (job : IncidentWriteJob) (status : EvidenceStatus) : LinuxAlertSink I * AlertSinkMode :=
  let '(b, outcome) := publish_alert b (alert_of (job_revision job) status) in (b, sink_mode outcome).

#[export] Instance sink_backend : IncidentOutputBackend (LinuxAlertSink I) := {
  persist b _ := (b, Some (Err StoreUnavailable));
  raise_alert b job status := let '(b, mode) := sink_alert b job status in (b, Some mode);
}.
End backends.

(** ** A journal entry keeps its fields apart *)

(** What a reader of the journal makes of an entry: a field on every line. *)
Definition parse_fields (text : string) : option (list (string * string)) :=
  let lines := split_on NEWLINE text in
  if bool_decide (last lines = Some ""%string) then
    mapM (λ line, match split_on EQUALS line with [key; value] => Some (key, value) | _ => None end) (removelast lines)
  else None.

Definition fields_text (fields : list (string * string)) : string :=
  foldr (λ '(key, value) rest, (key ++ String EQUALS (value ++ String NEWLINE rest))%string) ""%string fields.

Definition plain (text : string) : Prop := free_of NEWLINE text ∧ free_of EQUALS text.

Lemma string_append_assoc (a b c : string) : ((a ++ b) ++ c = a ++ (b ++ c))%string.
Proof. induction a as [|x a IH]; [done|]. exact (f_equal (String x) IH). Qed.

Lemma free_of_app sep a b : free_of sep a → free_of sep b → free_of sep (a ++ b)%string.
Proof. unfold free_of. rewrite string_bytes_app. set_solver. Qed.

Lemma free_of_cons sep c a : c ≠ sep → free_of sep a → free_of sep (String c a).
Proof. unfold free_of. cbn. set_solver. Qed.

Lemma fields_text_lines fields :
  Forall (λ field, plain field.1 ∧ plain field.2) fields →
  split_on NEWLINE (fields_text fields) = ((λ field, (field.1 ++ String EQUALS field.2)%string) <$> fields) ++ [""%string].
Proof.
  induction 1 as [|[key value] fields [[Hkn Hke] [Hvn Hve]] _ IH]; [done|]. cbn [fst snd fields_text foldr fmap list_fmap app] in *.
  assert (∀ rest, (key ++ String EQUALS (value ++ String NEWLINE rest))%string
    = ((key ++ String EQUALS value) ++ String NEWLINE rest)%string) as Hassoc by (intros rest; by rewrite string_append_assoc).
  rewrite Hassoc, split_on_field; [by f_equal|]. apply free_of_app; [done|]. by apply free_of_cons.
Qed.

Lemma parse_fields_text fields :
  Forall (λ field, plain field.1 ∧ plain field.2) fields → parse_fields (fields_text fields) = Some fields.
Proof.
  intros Hf. unfold parse_fields. rewrite fields_text_lines by done. rewrite last_snoc, bool_decide_eq_true_2, removelast_last by done.
  induction Hf as [|[key value] fields [[Hkn Hke] [Hvn Hve]] _ IH]; [done|]. cbn [fst snd fmap list_fmap] in *.
  cbn [mapM]. rewrite split_on_field, split_on_free by done. cbn [mbind option_bind]. by rewrite IH.
Qed.

(** ** What the fields are made of *)
Definition text_byte (byte : Ascii.ascii) : bool := negb (bool_decide (byte = NEWLINE)) && negb (bool_decide (byte = EQUALS)).

Lemma plain_bytes text : forallb text_byte (string_bytes text) = true → plain text.
Proof.
  rewrite forallb_forall. intros Hall. split; intros Hin%list_elem_of_In; apply Hall in Hin; vm_compute in Hin; done.
Qed.

Lemma pretty_N_go_bytes n rest :
  forallb text_byte (string_bytes rest) = true → forallb text_byte (string_bytes (pretty_N_go n rest)) = true.
Proof.
  revert rest. induction (N.lt_wf_0 n) as [n _ IH]. intros rest Hrest.
  destruct (decide (0 < n)%N) as [Hpos|Hzero].
  - rewrite pretty_N_go_step by done. apply IH; [by apply N.div_lt|]. cbn [string_bytes String.list_ascii_of_string forallb].
    apply andb_true_iff. split; [|done]. unfold pretty_N_char. by repeat case_match.
  - assert (n = 0)%N as -> by lia. by rewrite pretty_N_go_0.
Qed.

Lemma pretty_plain n : plain (pretty (n : Z)).
Proof.
  apply plain_bytes. assert (∀ m : N, forallb text_byte (string_bytes (pretty m)) = true) as Hn.
  { intros m. unfold pretty, pretty_N. case_decide; [done|]. by apply pretty_N_go_bytes. }
  destruct n; cbn; [done|apply Hn|apply Hn].
Qed.

Lemma event_id_plain id : plain (EventId_to_string id).
Proof.
  apply plain_bytes. unfold EventId_to_string. rewrite bytes_of_string. apply forallb_forall.
  intros c (b & Hc & _)%list_elem_of_In%list_elem_of_bind. unfold byte_digits in Hc.
  assert (∀ d, text_byte (hex_digit d) = true) as Hhex.
  { intros d. unfold hex_digit. destruct (HEX !! _) as [x|] eqn:Hx; [|vm_compute; reflexivity].
    apply list_elem_of_lookup_2 in Hx. unfold HEX in Hx. vm_compute in Hx. set_unfold in Hx.
    repeat destruct Hx as [->|Hx]; try done. }
  set_unfold in Hc. destruct Hc as [->|[->|[]]]; apply Hhex.
Qed.

(** The names of the variants, as [rename_all] of [serde] has them. *)
Definition variant_name (value : AlertVariant) : string :=
  match value with
  | VariantStatus Stored => "stored" | VariantStatus EvidenceStatusUnavailable => "unavailable"
  | VariantCode StormConfirmed => "storm_confirmed"
  | VariantCode AlertExternalLoopSuspected => "external_loop_suspected"
  | VariantCode AlertExternalLoopHighConfidence => "external_loop_high_confidence"
  | VariantCode IncidentCooldown => "incident_cooldown" | VariantCode IncidentClosed => "incident_closed"
  | VariantCode GenerationEnded => "generation_ended" | VariantCode OutputDegraded => "output_degraded"
  | VariantState DetectionWarmingUp => "warming_up" | VariantState DetectionNormal => "normal"
  | VariantState IngressStormConfirmed => "ingress_storm_confirmed"
  | VariantState EgressStormConfirmed => "egress_storm_confirmed"
  | VariantState BidirectionalStormConfirmed => "bidirectional_storm_confirmed"
  | VariantState ExternalLoopSuspected => "external_loop_suspected"
  | VariantState ExternalLoopHighConfidence => "external_loop_high_confidence"
  | VariantState DetectionCooldown => "cooldown" | VariantState DetectionUnavailable => "unavailable"
  | VariantReason EvidenceReady => "evidence_ready" | VariantReason StormAsserted => "storm_asserted"
  | VariantReason RelationshipSuspected => "relationship_suspected"
  | VariantReason RelationshipHighConfidence => "relationship_high_confidence"
  | VariantReason EvidenceCleared => "evidence_cleared" | VariantReason CooldownCompleted => "cooldown_completed"
  | VariantReason EvidenceUnavailable => "evidence_unavailable" | VariantReason EvidenceRecovered => "evidence_recovered"
  | VariantReason SamplerPaused => "sampler_paused" | VariantReason IntegrityFailure => "integrity_failure"
  end.

(** A variant without fields is written as its quoted name. *)
Class AlertTextSpec `{AlertText} : Prop :=
  variant_quoted : ∀ value, variant_to_string value = Some (quoted (variant_name value)).

Lemma enum_json_name `{AlertTextSpec} value : enum_json value = variant_name value.
Proof.
  unfold enum_json. rewrite variant_quoted. cbn [default].
  destruct value as [[]|[]|[]|[]]; vm_compute; reflexivity.
Qed.

Lemma variant_plain value : plain (variant_name value).
Proof. apply plain_bytes. destruct value as [[]|[]|[]|[]]; vm_compute; reflexivity. Qed.

Lemma interface_plain name interface : InterfaceName_new name = Ok interface → plain (as_str interface).
Proof.
  unfold InterfaceName_new. destruct (_ && _) eqn:Hv; [|done]. intros [= <-]. boolify.
  apply plain_bytes. cbn [as_str]. rewrite forallb_forall in *. intros c Hc.
  match goal with Hbytes : ∀ x, In x _ → _ |- _ => apply Hbytes in Hc end.
  unfold text_byte. apply andb_true_iff. rewrite !negb_true_iff, !bool_decide_eq_false.
  split; intros ->; vm_compute in Hc; done.
Qed.

Lemma validate_alert_message alert : validate_alert alert = Some tt → plain (sa_message alert).
Proof.
  unfold validate_alert. destruct (_ || _) eqn:Hv; [done|]. intros _. boolify.
  apply plain_bytes, forallb_forall. intros c Hc. unfold text_byte. apply andb_true_iff. rewrite !negb_true_iff, !bool_decide_eq_false.
  match goal with Hm : has_forbidden _ = false |- _ => unfold has_forbidden in Hm end.
  assert (∀ d, In d (string_bytes (sa_message alert)) → (ascii_code d =? 10) || (ascii_code d =? 13) || (ascii_code d =? 61) = false) as Hall.
  { intros d Hd. apply not_true_is_false. intros Ht.
    assert (existsb (λ character, (ascii_code character =? 10) || (ascii_code character =? 13) || (ascii_code character =? 61))
      (string_bytes (sa_message alert)) = true) by (apply existsb_exists; by exists d). congruence. }
  apply Hall in Hc. split; intros ->; vm_compute in Hc; done.
Qed.

(** The fields of an alert, in the order of its entry. *)
Definition journal_fields (alert : SanitizedAlertV1) : list (string * string) :=
  [("MESSAGE", sa_message alert); ("PRIORITY", pretty (journal_priority (sa_severity alert)));
   ("SYSLOG_IDENTIFIER", "l2-loopd"); ("L2_LOOP_EVENT_ID", EventId_to_string (sa_event_id alert));
   ("L2_LOOP_EVIDENCE_STATUS", variant_name (VariantStatus (sa_evidence_status alert)));
   ("L2_LOOP_REVISION", pretty (sa_revision alert)); ("L2_LOOP_TRANSITION_SEQUENCE", pretty (sa_transition_sequence alert));
   ("L2_LOOP_CODE", variant_name (VariantCode (sa_code alert)));
   ("L2_LOOP_PREVIOUS_STATE", variant_name (VariantState (sa_previous_state alert)));
   ("L2_LOOP_CURRENT_STATE", variant_name (VariantState (sa_current_state alert)));
   ("L2_LOOP_REASON", variant_name (VariantReason (sa_transition_reason alert)));
   ("L2_LOOP_INTERFACE", as_str (sa_interface alert)); ("L2_LOOP_IFINDEX", pretty (sa_ifindex alert));
   ("L2_LOOP_GENERATION", pretty (sa_generation alert))]%string.

(** A journal entry says what its alert says and nothing else.  Whatever the
    interface is called and whatever the message, an alert that is published is
    written as exactly its fourteen fields, in order, each on a line of its own:
    nothing in a value can end its field or begin another. *)
Lemma journal_entry_keeps_fields `{AlertTextSpec} alert name :
  validate_alert alert = Some tt → InterfaceName_new name = Ok (sa_interface alert) →
  parse_fields (journal_payload alert) = Some (journal_fields alert).
Proof.
  intros Hv Hi. assert (journal_payload alert = fields_text (journal_fields alert)) as ->.
  { unfold journal_payload. rewrite !enum_json_name. reflexivity. }
  apply parse_fields_text. unfold journal_fields.
  repeat constructor; cbn [fst snd];
    first [by apply plain_bytes; vm_compute|by apply validate_alert_message|apply pretty_plain|apply event_id_plain
          |apply variant_plain|by eapply interface_plain|idtac].
Qed.

(** ** What the sink does *)

(** What reached the journal and standard error whole; a failed write to standard
    error may leave anything there. *)
Class AlertIoSpec (I : Type) `{AlertIo I} : Type := {
  journal_log : I → list string;
  stderr_log : I → list string;
  send_spec io bytes io' res : send_journal io bytes = (io', res) →
    journal_log io' = journal_log io ++ (if is_ok res then [bytes] else []) ∧ stderr_log io' = stderr_log io;
  stderr_spec io bytes io' : write_stderr io bytes = (io', Ok tt) →
    stderr_log io' = stderr_log io ++ [bytes];
  stderr_journal io bytes io' res : write_stderr io bytes = (io', res) → journal_log io' = journal_log io;
}.

Section sink_facts.
Context `{AlertText} {I : Type} `{AlertIoSpec I}.
Implicit Types (self : LinuxAlertSink I) (alert : SanitizedAlertV1).

(** The line of an alert on standard error. *)
Definition json_line alert (line : string) : Prop :=
  ∃ bytes, alert_to_vec ALERT_SCHEMA_VERSION (EventId_to_string (sa_event_id alert)) alert = Some bytes ∧
    line = (bytes ++ line_end)%string.

Lemma write_json_spec self alert self' res :
  write_json self alert = (self', res) →
  as_stderr_fallback self' = as_stderr_fallback self ∧ as_published_health_codes self' = as_published_health_codes self ∧
  journal_log (as_io self') = journal_log (as_io self) ∧
  match res with
  | Ok PublishedStderrJson => ∃ line, json_line alert line ∧ stderr_log (as_io self') = stderr_log (as_io self) ++ [line]
  | Ok PublishedJournald => False
  | Err _ => True
  end.
Proof.
  unfold write_json, json_line. destruct (alert_to_vec _ _ _) as [bytes|]; [|by intros [= <- <-]].
  destruct (write_stderr _ _) as [io [[]|[]]] eqn:Hw; intros [= <- <-]; cbn.
  - split_and!; [done..|by eapply stderr_journal|]. eexists. split; [by eexists|]. by apply stderr_spec.
  - split_and!; [done..|by eapply stderr_journal|done].
Qed.

(** What a publication does.  An alert that is not sanitized reaches nothing.
    Otherwise the sink goes to the journal only while it has never failed there, and
    then the entry is exactly the payload and standard error is left alone; after
    the first failure, of this alert too, it writes one line to standard error and
    never goes back.  The answer says where the alert is; only after an error it is
    nowhere for certain, and not in the journal. *)
Lemma publication_is_what_it_says self alert self' res :
  publish_alert self alert = (self', res) →
  match validate_alert alert with
  | None => self' = self ∧ res = Err tt
  | Some _ =>
      as_published_health_codes self' = as_published_health_codes self ∧
      (as_stderr_fallback self = true → as_stderr_fallback self' = true) ∧
      match res with
      | Ok PublishedJournald =>
          as_stderr_fallback self = false ∧ as_stderr_fallback self' = false ∧
          journal_log (as_io self') = journal_log (as_io self) ++ [journal_payload alert] ∧
          stderr_log (as_io self') = stderr_log (as_io self)
      | Ok PublishedStderrJson =>
          as_stderr_fallback self' = true ∧ journal_log (as_io self') = journal_log (as_io self) ∧
          ∃ line, json_line alert line ∧ stderr_log (as_io self') = stderr_log (as_io self) ++ [line]
      | Err _ => as_stderr_fallback self' = true ∧ journal_log (as_io self') = journal_log (as_io self)
      end
  end.
Proof.
  unfold publish_alert. destruct (validate_alert alert) as [[]|]; [|by intros [= <- <-]].
  destruct (as_stderr_fallback self) eqn:Hf.
  - intros (Hf' & Hc & Hj & Hres)%write_json_spec. rewrite Hf in Hf'. split_and!; [done..|].
    destruct res as [[]|]; [done|done|done].
  - destruct (send_journal _ _) as [io [[]|error]] eqn:Hs.
    + intros [= <- <-]. apply send_spec in Hs as [Hj He]. cbn in *. by rewrite Hf.
    + intros (Hf' & Hc & Hj & Hres)%write_json_spec. apply send_spec in Hs as [Hj' He]. cbn in *.
      rewrite app_nil_r in Hj'. split_and!; [done..|].
      destruct res as [[]|]; [done| |by split; [|congruence]]. rewrite He in Hres. split_and!; [done|congruence|done].
Qed.

(** A health code is written once. *)
Lemma health_code_once self code self' written :
  publish_output_health self code = (self', written) →
  (code ∈ as_published_health_codes self → self' = self ∧ written = false) ∧
  (self' = self ∧ written = false ∨
   as_published_health_codes self' = {[code]} ∪ as_published_health_codes self ∧ as_stderr_fallback self' = true ∧
   journal_log (as_io self') = journal_log (as_io self)).
Proof.
  unfold publish_output_health. destruct (_ || _) eqn:Hc.
  - intros [= <- <-]. auto.
  - destruct (write_stderr _ _) as [io res] eqn:Hw. intros [= <- <-]. apply stderr_journal in Hw. cbn in *. boolify.
    split; [done|]. right. done.
Qed.
End sink_facts.

(** ** The backend of the daemon *)
Lemma alert_message_valid code :
  (alert_message code ≠ "")%string ∧ (String.length (alert_message code) ≤ 96)%nat ∧
  is_ascii (alert_message code) = true ∧ has_forbidden (alert_message code) = false.
Proof. destruct code; (split_and!; [done|vm_compute; lia|reflexivity|reflexivity]). Qed.

(** The alert of a valid revision is sanitized. *)
Lemma alert_of_valid revision status :
  IncidentRevisionV1_validate revision = Ok tt → validate_alert (alert_of revision status) = Some tt.
Proof.
  unfold IncidentRevisionV1_validate. destruct (_ || _) eqn:Hv; [done|]. intros _. boolify.
  unfold validate_alert, alert_of. cbn [sa_revision sa_transition_sequence sa_ifindex sa_generation sa_severity sa_code sa_message].
  destruct (alert_message_valid (ir_alert_code revision)) as (Hne & Hlen & Hascii & Hforb).
  rewrite Hascii, Hforb, (bool_decide_eq_false_2 _ Hne), (proj2 (Nat.ltb_ge 96 _) Hlen).
  repeat match goal with Heq : (_ =? 0) = false |- _ => rewrite Heq; clear Heq end. cbn.
  by rewrite bool_decide_eq_true_2.
Qed.

Section backend_facts.
Context {W I : Type} `{EvidenceIo W} `{EvidenceCodec} `{!ManifestText} `{SystemClock W} `{!AlertText} `{!AlertTextSpec}
  `{AlertIoSpec I} (geteuid process_id : Z).
Local Notation backend := (StoredIncidentOutputBackend W I).

Lemma persist_revision_spec (w : W) self now revision :
  conservative self →
  ∃ w' self' res, persist_revision geteuid process_id w self now revision = Some (w', self', res) ∧ conservative self' ∧
    (res = Ok tt → IncidentRevisionV1_validate revision = Ok tt ∧
      ∃ detail, get self' (ir_event_id revision) = Ok detail ∧ ed_latest detail = revision).
Proof.
  intros Hcons. unfold persist_revision. destruct now as [now|]; [|by eexists _, _, _].
  pose proof (enforce_retention_conservative geteuid w self now EVIDENCE_MAX_REVISION_BYTES Hcons) as Hret.
  destruct (enforce_retention _ _ _ _ _) as [[w1 self1] [outcome|error]]; destruct Hret as (Hcons1 & _); [|by eexists _, _, _].
  destruct (put geteuid process_id w1 self1 revision) as [[[w2 self2] res]|] eqn:Hput; [|by apply put_total in Hput].
  cbn [fmap option_fmap option_map]. eexists _, _, _. split; [done|].
  split; [by apply (put_conservative geteuid process_id _ _ _ _ _ _ Hcons1 Hput)|].
  destruct res as [summary|error]; [|done]. intros _. by eapply put_commits.
Qed.

Lemma stored_persist_spec (b : backend) job :
  lk_poisoned (so_store b) = false → conservative (lk_value (so_store b)) →
  ∃ b' res, stored_persist geteuid process_id b job = (b', Some res) ∧ so_alerts b' = so_alerts b ∧
    lk_poisoned (so_store b') = false ∧ conservative (lk_value (so_store b')) ∧
    (res = Ok tt → IncidentRevisionV1_validate (job_revision job) = Ok tt ∧
      ∃ detail, shared_get (so_store b') (ir_event_id (job_revision job)) = Ok detail ∧ ed_latest detail = job_revision job).
Proof.
  intros Hp Hcons. unfold stored_persist. destruct (unix_millis _) as [w now].
  destruct (persist_revision_spec w (lk_value (so_store b)) now (job_revision job) Hcons) as (w' & store & res & Hr & Hcons' & Hres).
  unfold shared_persist_revision, with_locked. rewrite Hp, Hr. cbn [mbind option_bind].
  eexists _, _. split; [done|]. cbn [so_alerts so_store Lock_new lk_poisoned lk_value]. split_and!; [done..|]. exact Hres.
Qed.

(** What an entry is to say of a revision, and of its evidence being stored. *)
Definition message_of (code : AlertCode) : string :=
  match code with
  | StormConfirmed => "passive L2 storm confirmed"
  | AlertExternalLoopSuspected => "passive L2 loop relationship suspected"
  | AlertExternalLoopHighConfidence => "passive L2 loop relationship high confidence"
  | IncidentCooldown => "passive L2 incident cooling down"
  | IncidentClosed => "passive L2 incident closed"
  | GenerationEnded => "passive L2 observation generation ended"
  | OutputDegraded => "passive L2 incident output degraded"
  end.

Definition revision_fields (revision : IncidentRevisionV1) (stored : bool) : list (string * string) :=
  [("MESSAGE", message_of (ir_alert_code revision));
   ("PRIORITY", match ir_severity revision with AlertWarning => "4" | AlertNotice => "5" | AlertInformation => "6" end);
   ("SYSLOG_IDENTIFIER", "l2-loopd"); ("L2_LOOP_EVENT_ID", EventId_to_string (ir_event_id revision));
   ("L2_LOOP_EVIDENCE_STATUS", if stored then "stored" else "unavailable");
   ("L2_LOOP_REVISION", pretty (ir_revision revision));
   ("L2_LOOP_TRANSITION_SEQUENCE", pretty (ir_transition_sequence revision));
   ("L2_LOOP_CODE", variant_name (VariantCode (ir_alert_code revision)));
   ("L2_LOOP_PREVIOUS_STATE", variant_name (VariantState (ir_previous_state revision)));
   ("L2_LOOP_CURRENT_STATE", variant_name (VariantState (ir_current_state revision)));
   ("L2_LOOP_REASON", variant_name (VariantReason (ir_transition_reason revision)));
   ("L2_LOOP_INTERFACE", as_str (ir_interface revision)); ("L2_LOOP_IFINDEX", pretty (ir_interface_index revision));
   ("L2_LOOP_GENERATION", pretty (ir_interface_generation revision))]%string.

Lemma journal_fields_of revision stored :
  journal_fields (alert_of revision (if stored : bool then Stored else EvidenceStatusUnavailable))
  = revision_fields revision stored.
Proof.
  unfold journal_fields, revision_fields, alert_of, message_of, alert_message. cbn.
  by destruct stored, (ir_severity revision), (ir_alert_code revision).
Qed.

(** C13: An alert that reaches the journal tells the truth.  Whatever the disk, the
    clock, the journal and standard error do, storing a revision and raising its
    alert does not panic.  The journal gets at most one entry, and none but the
    daemon says so; read back, the entry is the message of the alert code and the
    fields of the revision, each its own, and it says that the evidence is stored
    exactly when the store has taken it and gives it back from then on.  The alert of
    a stored revision is never refused: it is in the journal unless the journal
    failed, now or before. *)
Theorem journal_entry_is_truthful (b : backend) job name :
  lk_poisoned (so_store b) = false → conservative (lk_value (so_store b)) →
  InterfaceName_new name = Ok (ir_interface (job_revision job)) →
  ∃ b' persisted mode,
    run_backend (H := stored_backend geteuid process_id) b false job = (b', false, Some (persisted, mode)) ∧
    lk_poisoned (so_store b') = false ∧ conservative (lk_value (so_store b')) ∧
    (persisted = Ok tt →
      (∃ detail, shared_get (so_store b') (ir_event_id (job_revision job)) = Ok detail ∧ ed_latest detail = job_revision job) ∧
      (mode = Journald ∨ as_stderr_fallback (so_alerts b') = true)) ∧
    match mode with
    | Journald =>
        ∃ entry, journal_log (as_io (so_alerts b')) = journal_log (as_io (so_alerts b)) ++ [entry] ∧
          parse_fields entry = Some (revision_fields (job_revision job) (is_ok persisted))
    | StderrJson => journal_log (as_io (so_alerts b')) = journal_log (as_io (so_alerts b))
    end.
Proof.
  intros Hp Hcons Hname. destruct (stored_persist_spec b job Hp Hcons) as (b1 & res & Hr & Ha & Hp1 & Hcons1 & Hres).
  unfold run_backend. cbn [persist raise_alert stored_backend]. rewrite Hr. unfold stored_alert.
  set (status := if is_ok res then Stored else EvidenceStatusUnavailable).
  destruct (publish_alert (so_alerts b1) (alert_of (job_revision job) status)) as [alerts outcome] eqn:Hpub.
  exists (mkStoredIncidentOutputBackend (so_world b1) (so_store b1) alerts), res, (sink_mode outcome).
  apply publication_is_what_it_says in Hpub. cbn [so_alerts so_store].
  split_and!; [done..| |].
  { intros Hok. destruct (Hres Hok) as [Hvalid Hget]. split; [done|].
    apply (alert_of_valid _ status) in Hvalid. rewrite Hvalid in Hpub. destruct Hpub as (_ & _ & Hout).
    destruct outcome as [[]|]; [by left|right; by destruct Hout..]. }
  rewrite <-Ha.
  destruct (validate_alert (alert_of (job_revision job) status)) as [[]|] eqn:Hvalid; [|by destruct Hpub as [-> ->]].
  destruct Hpub as (_ & _ & Hout). destruct outcome as [[]|]; cbn [sink_mode].
  - destruct Hout as (_ & _ & Hj & _). eexists. split; [exact Hj|]. rewrite <-journal_fields_of.
    by eapply journal_entry_keeps_fields.
  - by destruct Hout as (_ & Hj & _).
  - by destruct Hout as [_ Hj].
Qed.
End backend_facts.

(** ** A journal and standard error in memory *)
Module AlertExample.

(** The journal takes a number of entries; standard error takes everything. *)
Record Console : Type := mkConsole { cn_room : nat; cn_journal : list string; cn_stderr : list string }.

#[export] Instance console_io : AlertIo Console := {
  send_journal io bytes :=
    match cn_room io with
    | O => (io, Err tt)
    | S room => (mkConsole room (cn_journal io ++ [bytes]) (cn_stderr io), Ok tt)
    end;
  write_stderr io bytes := (mkConsole (cn_room io) (cn_journal io) (cn_stderr io ++ [bytes]), Ok tt);
}.

#[export] Instance console_spec : AlertIoSpec Console.
Proof.
  refine {| journal_log := cn_journal; stderr_log := cn_stderr |}.
  - intros io bytes io' res. cbn. destruct (cn_room io); intros [= <- <-]; cbn; by rewrite ?app_nil_r.
  - intros io bytes io'. by intros [= <-].
  - intros io bytes io' res. by intros [= <- _].
Defined.

#[export] Instance names_only : AlertText := {
  variant_to_string value := Some (quoted (variant_name value));
  text_to_string text := Some (quoted text);
  alert_to_vec _ event_id _ := Some (quoted event_id);
}.

#[export] Instance names_spec : AlertTextSpec.
Proof. done. Qed.

#[export] Instance disk_clock : SystemClock TreeDisk.disk := λ w, (w, Some 1000).

Definition backend (room : nat) : StoredIncidentOutputBackend TreeDisk.disk Console :=
  mkStoredIncidentOutputBackend EvidenceSample.filled.1 (Lock_new EvidenceSample.filled.2)
    (LinuxAlertSink_new (mkConsole room [] [])).

Definition job : IncidentWriteJob := mkIncidentWriteJob (EvidenceSample.revision 2 2 None).
End AlertExample.

Section witness.
Import TreeDisk EvidenceSample EvidenceFactsExample AlertExample.

Lemma job_processed :
  (λ res, (res.1.2, is_ok <$> (fst <$> res.2), snd <$> res.2))
    (run_backend (H := stored_backend uid 1) (backend 1) false job) = (false, Some true, Some Journald).
Proof. vm_compute. reflexivity. Qed.

Lemma job_interface : InterfaceName_new (as_str (ir_interface (job_revision job))) = Ok (ir_interface (job_revision job)).
Proof. vm_compute. reflexivity. Qed.

Lemma journal_entry_is_truthful_witness :
  ∃ b entry, run_backend (H := stored_backend uid 1) (backend 1) false job = (b, false, Some (Ok tt, Journald)) ∧
    journal_log (as_io (so_alerts b)) = [entry] ∧ parse_fields entry = Some (revision_fields (job_revision job) true).
Proof.
  destruct (journal_entry_is_truthful uid 1 (backend 1) job (as_str (ir_interface (job_revision job))) eq_refl
    (accounted_conservative _ filled_accounted) job_interface) as (b & persisted & mode & Hrun & _ & _ & _ & Hlog).
  pose proof job_processed as Hjob. rewrite Hrun in Hjob. cbn [fst snd fmap option_fmap option_map] in Hjob.
  injection Hjob as Hok Hmode. subst mode. destruct persisted as [[]|]; [|done]. destruct Hlog as (entry & Hlog & Hparse).
  exists b, entry. split; [exact Hrun|]. split; [exact Hlog|exact Hparse].
Defined.
End witness.
