(* ===== verification/Sampling.v ===== *)
(** The sampling service of [l2-loop-agent] ([observation.rs]): one tick of the
    background sampler feeds a raw observation through the rate history, the
    baseline, the fingerprint window and the detection engine, and hands the
    resulting transitions to the incident recorder; requests read the same state.

    The observation reader and the clock are a class of operations on an abstract
    world; wall-clock time is in nanoseconds since the Unix epoch. *)
From S2P Require Import Prelude Domain Text Packet Observation Rate Baseline FrameHash Fingerprint FingerprintWindow DetectionSignals Detection Preflight Ownership Attach Evidence Snapshot Incident.

Definition OBS_SESSION_NOT_FOUND : string := "OBS_SESSION_NOT_FOUND".
Definition OBS_INTERFACE_MISMATCH : string := "OBS_INTERFACE_MISMATCH".
Definition OBS_OWNERSHIP_MISMATCH : string := "OBS_OWNERSHIP_MISMATCH".
Definition OBS_MAP_UNAVAILABLE : string := "OBS_MAP_UNAVAILABLE".
Definition OBS_SNAPSHOT_FAILED : string := "OBS_SNAPSHOT_FAILED".
Definition OBS_RATE_CLOCK_REGRESSION : string := "OBS_RATE_CLOCK_REGRESSION".
Definition OBS_RATE_COUNTER_REGRESSION : string := "OBS_RATE_COUNTER_REGRESSION".
Definition OBS_RATE_CALCULATION_FAILED : string := "OBS_RATE_CALCULATION_FAILED".
Definition OBS_RATE_SAMPLER_PAUSED : string := "OBS_RATE_SAMPLER_PAUSED".
Definition BASELINE_SOURCE_UNAVAILABLE : string := "BASELINE_SOURCE_UNAVAILABLE".
Definition BASELINE_IDENTITY_CHANGED : string := "BASELINE_IDENTITY_CHANGED".
Definition BASELINE_CLOCK_REGRESSION : string := "BASELINE_CLOCK_REGRESSION".
Definition BASELINE_COUNTER_REGRESSION : string := "BASELINE_COUNTER_REGRESSION".
Definition BASELINE_CALCULATION_FAILED : string := "BASELINE_CALCULATION_FAILED".
Definition BASELINE_SAMPLER_PAUSED : string := "BASELINE_SAMPLER_PAUSED".
Definition DETECTION_SOURCE_UNAVAILABLE : string := "DETECTION_SOURCE_UNAVAILABLE".
Definition DETECTION_IDENTITY_CHANGED : string := "DETECTION_IDENTITY_CHANGED".
Definition DETECTION_RATE_INVALID : string := "DETECTION_RATE_INVALID".
Definition DETECTION_FINGERPRINT_UNAVAILABLE : string := "DETECTION_FINGERPRINT_UNAVAILABLE".
Definition DETECTION_SAMPLER_PAUSED : string := "DETECTION_SAMPLER_PAUSED".
Definition OBS_MAP_IDENTITY_MISMATCH : string := "OBS_MAP_IDENTITY_MISMATCH".
Definition ANALYSIS_PERIOD_NS : Z := 10000000000.

(** ** The ports *)
Inductive RawFingerprints : Type :=
| NotRequested
| Available (evidence : list FingerprintEvidence)
| RawUnavailable (code : string).

Inductive ObservationReadPurpose : Type := Request | BackgroundSample | BackgroundAnalysis.

Record RawObservation : Type := mkRawObservation {
  ro_ifindex : Z;
  ro_generation : Z;
  ro_vlan_visibility : VlanVisibility;
  ro_hooks : HookObservations;
  ro_fingerprints : RawFingerprints;
}.

(** [ObservationReader] and [Clock]. *)
Class ObservationPorts (W : Type) : Type := {
  read_exact : W → OwnershipRecord → ObservationReadPurpose → W * result PortError RawObservation;
  monotonic_ns : W → W * Z;
  wall_time : W → W * Z;
}.

Definition wall_time_ms {W} `{ObservationPorts W} (w : W) : W * option Z :=
  let '(w, t) := wall_time w in
  (w, if t <? 0 then None else try_from_wide U64_MAX (t / 1000000)).

(** ** Errors *)
Record ObservationError : Type := mkObservationError { oe_code : string; oe_evidence : string }.

Definition session_error : ObservationError :=
  mkObservationError OBS_SESSION_NOT_FOUND "no active isolated session matches the request".
Definition ownership_error : ObservationError :=
  mkObservationError OBS_OWNERSHIP_MISMATCH "observation identity does not match the ownership journal".
Definition snapshot_error : ObservationError :=
  mkObservationError OBS_SNAPSHOT_FAILED "observation snapshot construction failed".
Definition interface_error : ObservationError :=
  mkObservationError OBS_INTERFACE_MISMATCH "requested interface does not match the active session".

Definition reader_error (error : PortError) : ObservationError :=
  mkObservationError (default OBS_MAP_UNAVAILABLE (port_stable_code error)) "observation reader failed".

Definition is_identity_code (code : string) : bool :=
  bool_decide (code = OBS_OWNERSHIP_MISMATCH) || bool_decide (code = OBS_MAP_IDENTITY_MISMATCH).

Definition rate_error_code (error : RateHistoryError) : string :=
  match error with
  | IdentityMismatch => OBS_OWNERSHIP_MISMATCH
  | RateClockRegression => OBS_RATE_CLOCK_REGRESSION
  | RateCounterRegression => OBS_RATE_COUNTER_REGRESSION
  | RateCalculationFailed => OBS_RATE_CALCULATION_FAILED
  end.

Definition rate_history_error (error : RateHistoryError) : ObservationError :=
  mkObservationError (rate_error_code error) "rate history validation failed".

Definition baseline_code_for_rate_error (error : RateHistoryError) : string :=
  match error with
  | IdentityMismatch => BASELINE_IDENTITY_CHANGED
  | RateClockRegression => BASELINE_CLOCK_REGRESSION
  | RateCounterRegression => BASELINE_COUNTER_REGRESSION
  | RateCalculationFailed => BASELINE_CALCULATION_FAILED
  end.

Definition record_history_failure (history : RateHistory) (now : Z) (error : RateHistoryError)
    : RateHistory :=
  let code := rate_error_code error in
  match error with
  | IdentityMismatch => record_identity_failure history now code
  | _ => record_rate_failure history now code
  end.

Definition rate_sample (raw : RawObservation) (captured_at_monotonic_ns captured_at_unix_ms : Z)
    : result DomainError RateSample :=
  identity ← RateIdentity_new (ro_ifindex raw) (ro_generation raw);
  RateSample_new identity captured_at_monotonic_ns captured_at_unix_ms (ro_vlan_visibility raw)
    (ro_hooks raw).

Definition observation_health (sampling : SamplingStatus) (windows : DetailedRateWindows)
    (baseline_state : BaselineState) (fingerprint_state : FingerprintState)
    (detection_state : DetectionState) : ObservationHealth :=
  if ss_sampling_paused sampling
     || is_some (ss_last_error_code sampling)
     || existsb (λ window, bool_decide (dw_state window = RateStale)) (vec_to_list windows)
     || bool_decide (baseline_state = BaselineUnavailable)
     || bool_decide (fingerprint_state = FingerprintUnavailable)
     || bool_decide (detection_state = DetectionUnavailable)
  then Degraded else Healthy.

Definition fingerprint_report (ifindex generation : Z) (raw : RawFingerprints)
    : result ObservationError FingerprintReport :=
  match raw with
  | NotRequested => Ok FingerprintReport_empty
  | Available evidence => map_err (λ _, snapshot_error) (FingerprintReport_build ifindex generation evidence)
  | RawUnavailable code => map_err (λ _, snapshot_error) (FingerprintReport_unavailable code)
  end.

Inductive SamplingTickOutcome : Type := Sampled | Rejected.

(** ** The service *)
Record SamplingService (W S : Type) : Type := mkSamplingService {
  sv_world : W;
  sv_history : option RateHistory;
  sv_baseline : option BaselineEngine;
  sv_fingerprint_window : option FingerprintWindowHistory;
  sv_detection : option DetectionEngine;
  sv_next_analysis_at_ns : option Z;
  sv_incident_recorder : option (IncidentRecorder S);
  sv_incident_jobs : list IncidentWriteJob;
  sv_latest_incident_snapshot : option ObservationSnapshot;
}.
Arguments mkSamplingService {W S} _ _ _ _ _ _ _ _ _.
Arguments sv_world {W S} _.
Arguments sv_history {W S} _.
Arguments sv_baseline {W S} _.
Arguments sv_fingerprint_window {W S} _.
Arguments sv_detection {W S} _.
Arguments sv_next_analysis_at_ns {W S} _.
Arguments sv_incident_recorder {W S} _.
Arguments sv_incident_jobs {W S} _.
Arguments sv_latest_incident_snapshot {W S} _.

Section service.
Context {W S : Type} `{ObservationPorts W} `{EventIdSource S}.
Local Notation service := (SamplingService W S).
Implicit Types (self : service) (ownership : OwnershipRecord).

(** Assignments to the fields. *)
Definition set_world self (w : W) : service :=
  mkSamplingService w (sv_history self) (sv_baseline self) (sv_fingerprint_window self)
    (sv_detection self) (sv_next_analysis_at_ns self) (sv_incident_recorder self)
    (sv_incident_jobs self) (sv_latest_incident_snapshot self).
Definition set_history self (history : option RateHistory) : service :=
  mkSamplingService (sv_world self) history (sv_baseline self) (sv_fingerprint_window self)
    (sv_detection self) (sv_next_analysis_at_ns self) (sv_incident_recorder self)
    (sv_incident_jobs self) (sv_latest_incident_snapshot self).
Definition set_baseline self (baseline : option BaselineEngine) : service :=
  mkSamplingService (sv_world self) (sv_history self) baseline (sv_fingerprint_window self)
    (sv_detection self) (sv_next_analysis_at_ns self) (sv_incident_recorder self)
    (sv_incident_jobs self) (sv_latest_incident_snapshot self).
Definition set_fingerprint_window self (window : option FingerprintWindowHistory) : service :=
  mkSamplingService (sv_world self) (sv_history self) (sv_baseline self) window
    (sv_detection self) (sv_next_analysis_at_ns self) (sv_incident_recorder self)
    (sv_incident_jobs self) (sv_latest_incident_snapshot self).
Definition set_detection self (detection : option DetectionEngine) : service :=
  mkSamplingService (sv_world self) (sv_history self) (sv_baseline self) (sv_fingerprint_window self)
    detection (sv_next_analysis_at_ns self) (sv_incident_recorder self)
    (sv_incident_jobs self) (sv_latest_incident_snapshot self).
Definition set_next_analysis self (next : option Z) : service :=
  mkSamplingService (sv_world self) (sv_history self) (sv_baseline self) (sv_fingerprint_window self)
    (sv_detection self) next (sv_incident_recorder self)
    (sv_incident_jobs self) (sv_latest_incident_snapshot self).
Definition set_incidents self (recorder : option (IncidentRecorder S)) (jobs : list IncidentWriteJob)
    (snapshot : option ObservationSnapshot) : service :=
  mkSamplingService (sv_world self) (sv_history self) (sv_baseline self) (sv_fingerprint_window self)
    (sv_detection self) (sv_next_analysis_at_ns self) recorder jobs snapshot.

Definition SamplingService_new (w : W) : service :=
  mkSamplingService w None None None None None None [] None.

Definition start self ownership : service * result ObservationError unit :=
  match RateIdentity_new (or_ifindex ownership) (or_generation ownership) with
  | Err _ => (self, Err ownership_error)
  | Ok identity =>
      let '(w, started_at_unix_ms) := wall_time_ms (sv_world self) in
      let self := set_world self w in
      match started_at_unix_ms with
      | None => (self, Err snapshot_error)
      | Some started_at_unix_ms =>
          let '(w, started_at_monotonic_ns) := monotonic_ns (sv_world self) in
          let self := set_world self w in
          match RateHistory_new identity started_at_monotonic_ns with
          | Err _ => (self, Err snapshot_error)
          | Ok history =>
              let self := set_history self (Some history) in
              let self := set_baseline self (Some (BaselineEngine_new identity started_at_unix_ms)) in
              let self := set_fingerprint_window self (Some (FingerprintWindowHistory_new identity)) in
              let self := set_detection self
                (Some (DetectionEngine_new identity started_at_monotonic_ns started_at_unix_ms)) in
              match checked_add U64_MAX started_at_monotonic_ns ANALYSIS_PERIOD_NS with
              | None => (self, Err snapshot_error)
              | Some next => (set_next_analysis self (Some next), Ok tt)
              end
          end
      end
  end.

Definition start_incident_generation_with_source self (interface : InterfaceName) ownership (source : S)
    : service * result ObservationError unit :=
  match IncidentIdentity_new interface (or_ifindex ownership) (or_generation ownership) with
  | Err _ => (self, Err ownership_error)
  | Ok identity => (set_incidents self (Some (IncidentRecorder_new identity source)) [] None, Ok tt)
  end.

Definition service_clear self : service :=
  mkSamplingService (sv_world self) None None None None None None [] None.

(** *** The detection engine and its evidence *)
Definition update_baseline self (f : BaselineEngine → BaselineEngine) : service :=
  set_baseline self (f <$> sv_baseline self).

Definition update_history self (f : RateHistory → RateHistory) : service :=
  set_history self (f <$> sv_history self).

Definition mark_detection_unavailable self (evaluated_at_unix_ms : Z) (code : string) : service :=
  set_detection self
    ((λ detection, (detection_unavailable detection evaluated_at_unix_ms code).1) <$> sv_detection self).

Definition clear_detection_integrity self ownership (cleared_at_monotonic_ns cleared_at_unix_ms : Z)
    (code : string) : service :=
  let self := set_fingerprint_window self (window_clear <$> sv_fingerprint_window self) in
  match RateIdentity_new (or_ifindex ownership) (or_generation ownership) with
  | Err _ => self
  | Ok identity =>
      set_detection self
        ((λ detection, (detection_clear detection identity cleared_at_monotonic_ns
                          cleared_at_unix_ms code).1) <$> sv_detection self)
  end.

Definition clear_baseline self (unix_ms : Z) (code : string) : service :=
  update_baseline self (λ baseline, (clear_integrity baseline (bg_identity baseline) unix_ms code).1).

Definition clear_request_integrity self ownership (cleared_at_monotonic_ns cleared_at_unix_ms : Z)
    (baseline_code detection_code : string) : service :=
  let self := clear_baseline self cleared_at_unix_ms baseline_code in
  clear_detection_integrity self ownership cleared_at_monotonic_ns cleared_at_unix_ms detection_code.

Definition advance_analysis_deadline self (now : Z) : service * result unit unit :=
  match (
    deadline ← sv_next_analysis_at_ns self;
    overdue ← checked_sub now deadline;
    periods ← checked_div overdue ANALYSIS_PERIOD_NS;
    periods ← checked_add U64_MAX periods 1;
    advance ← checked_mul U64_MAX periods ANALYSIS_PERIOD_NS;
    checked_add U64_MAX deadline advance)
  with
  | Some next => (set_next_analysis self (Some next), Ok tt)
  | None => (self, Err tt)
  end.

Definition record_analysis_fingerprints self (fingerprints : RawFingerprints)
    (captured_at_monotonic_ns captured_at_unix_ms : Z) : service * bool :=
  match sv_fingerprint_window self with
  | None => (self, false)
  | Some history =>
      match fingerprints with
      | Available evidence =>
          match record_scan history captured_at_monotonic_ns captured_at_unix_ms evidence with
          | (history, Err error) =>
              let self := set_fingerprint_window self (Some history) in
              (mark_detection_unavailable self captured_at_unix_ms (stable_code error), false)
          | (history, Ok _) => (set_fingerprint_window self (Some history), true)
          end
      | RawUnavailable code =>
          let self := set_fingerprint_window self (Some (window_unavailable history code).1) in
          (mark_detection_unavailable self captured_at_unix_ms code, false)
      | NotRequested =>
          let self := set_fingerprint_window self
            (Some (window_unavailable history DETECTION_FINGERPRINT_UNAVAILABLE).1) in
          (mark_detection_unavailable self captured_at_unix_ms DETECTION_FINGERPRINT_UNAVAILABLE, false)
      end
  end.

Definition evaluate_detection self ownership (windows : DetailedRateWindows)
    (evaluated_at_monotonic_ns evaluated_at_unix_ms : Z) : service :=
  match sv_baseline self, sv_fingerprint_window self with
  | Some baseline, Some fingerprint_window =>
      let clear self := clear_detection_integrity self ownership evaluated_at_monotonic_ns
                          evaluated_at_unix_ms DETECTION_RATE_INVALID in
      match DetectionSignals_derive windows (bg_cached baseline) (fh_report fingerprint_window)
              evaluated_at_unix_ms with
      | Err _ => clear self
      | Ok signals =>
          match sv_detection self with
          | None => self
          | Some detection =>
              if (evaluated_at_monotonic_ns =? 0)
                 && is_none (dr_last_trustworthy_at_unix_ms (dn_report detection))
              then self
              else
                match evaluate detection evaluated_at_monotonic_ns evaluated_at_unix_ms signals with
                | (detection, Err _) => clear (set_detection self (Some detection))
                | (detection, Ok _) => set_detection self (Some detection)
                end
          end
      end
  | _, _ => self
  end.

(** *** Incident capture *)
Definition cache_background_snapshot self (raw : RawObservation)
    (captured_at_monotonic_ns captured_at_unix_ms : Z) : service :=
  match ic_identity <$> sv_incident_recorder self, sv_history self with
  | Some identity, Some history =>
      match detailed_windows history captured_at_monotonic_ns, sv_baseline self, sv_detection self with
      | Ok rate_windows, Some baseline, Some detection =>
          match fingerprint_report (ro_ifindex raw) (ro_generation raw) (ro_fingerprints raw) with
          | Err _ => self
          | Ok fingerprints =>
              let sampling := sampling_status history in
              let health := observation_health sampling rate_windows (br_state (bg_cached baseline))
                              (fr_state fingerprints) (dr_state (dn_report detection)) in
              match ObservationSnapshot_new (ii_interface identity) (ro_ifindex raw)
                      (ro_generation raw) captured_at_unix_ms (ro_vlan_visibility raw) (ro_hooks raw)
                      sampling rate_windows with
              | Err _ => self
              | Ok snapshot =>
                  let snapshot := with_evidence snapshot health (bg_cached baseline) fingerprints
                                    (dn_report detection) in
                  set_incidents self (sv_incident_recorder self) (sv_incident_jobs self) (Some snapshot)
              end
          end
      | _, _, _ => self
      end
  | _, _ => self
  end.

Definition push_incident_job (jobs : list IncidentWriteJob) (job : IncidentWriteJob)
    : list IncidentWriteJob :=
  if (length jobs <? INCIDENT_OUTPUT_QUEUE_CAPACITY)%nat then push_back jobs job else jobs.

Definition unseen_transitions (report : DetectionReport) (recorder : IncidentRecorder S)
    : list DetectionTransition :=
  List.filter (λ transition, ic_last_transition_sequence recorder <? dt_sequence transition)
    (dr_transitions report).

(** The loop over the unseen transitions: the first error leaves it.  [None] is a
    panic of the recorder. *)
Fixpoint capture_loop (recorder : IncidentRecorder S) (snapshot : option ObservationSnapshot)
    (unseen : list DetectionTransition) (jobs : list IncidentWriteJob)
    : option (IncidentRecorder S * list IncidentWriteJob) :=
  match unseen with
  | [] => Some (recorder, jobs)
  | transition :: unseen =>
      match snapshot with
      | None => capture_loop (acknowledge_without_output recorder transition).1 snapshot unseen jobs
      | Some s =>
          '(recorder, res) ← record recorder transition s;
          match res with
          | Ok (Some job) => capture_loop recorder snapshot unseen (jobs ++ [job])
          | Ok None => capture_loop recorder snapshot unseen jobs
          | Err _ => Some (recorder, jobs)
          end
      end
  end.

(** The detection report and the health a cached snapshot takes over. *)
Definition refresh_snapshot (report : DetectionReport) (s : ObservationSnapshot) : ObservationSnapshot :=
  with_evidence s (if bool_decide (dr_state report = DetectionUnavailable) then Degraded else os_health s)
    (os_baseline s) (os_fingerprints s) report.

Definition capture_incident_transitions self : option service :=
  match dn_report <$> sv_detection self with
  | None => Some self
  | Some report =>
      let snapshot := refresh_snapshot report <$> sv_latest_incident_snapshot self in
      let self := set_incidents self (sv_incident_recorder self) (sv_incident_jobs self) snapshot in
      match sv_incident_recorder self with
      | None => Some self
      | Some recorder =>
          '(recorder, jobs) ← capture_loop recorder snapshot (unseen_transitions report recorder) [];
          Some (set_incidents self (Some recorder) (foldl push_incident_job (sv_incident_jobs self) jobs)
                  snapshot)
      end
  end.

Fixpoint acknowledge_loop (recorder : IncidentRecorder S) (unseen : list DetectionTransition)
    : IncidentRecorder S :=
  match unseen with
  | [] => recorder
  | transition :: unseen =>
      match acknowledge_without_output recorder transition with
      | (recorder, Err _) => recorder
      | (recorder, Ok _) => acknowledge_loop recorder unseen
      end
  end.

Definition acknowledge_request_transitions self : service :=
  match dn_report <$> sv_detection self, sv_incident_recorder self with
  | Some report, Some recorder =>
      set_incidents self (Some (acknowledge_loop recorder (unseen_transitions report recorder)))
        (sv_incident_jobs self) (sv_latest_incident_snapshot self)
  | _, _ => self
  end.

Definition service_generation_ended self : service :=
  match sv_latest_incident_snapshot self, sv_incident_recorder self with
  | Some snapshot, Some recorder =>
      let '(w, at_ms) := wall_time_ms (sv_world self) in
      let self := set_world self w in
      let '(recorder, res) :=
        generation_ended recorder (default (os_captured_at_unix_ms snapshot) at_ms) snapshot in
      let jobs := match res with
                  | Ok (Some job) => push_incident_job (sv_incident_jobs self) job
                  | _ => sv_incident_jobs self
                  end in
      set_incidents self (Some recorder) jobs (Some snapshot)
  | _, _ => self
  end.

Definition take_incident_jobs self : service * list IncidentWriteJob :=
  (set_incidents self (sv_incident_recorder self) [] (sv_latest_incident_snapshot self),
   sv_incident_jobs self).

Definition active_incident self : option ActiveIncidentMetadata :=
  recorder ← sv_incident_recorder self; active_metadata recorder.

(** The four engines of a pause. *)
Definition pause_engines self : service :=
  let self :=
    match sv_history self with
    | None => self
    | Some history =>
        let '(w, now) := monotonic_ns (sv_world self) in
        set_history (set_world self w) (Some (rate_pause history now OBS_RATE_SAMPLER_PAUSED))
    end in
  let self :=
    match sv_baseline self with
    | None => self
    | Some baseline =>
        let '(w, unix) := wall_time_ms (sv_world self) in
        set_baseline (set_world self w)
          (Some (baseline_unavailable baseline (default 0 unix) BASELINE_SAMPLER_PAUSED).1)
    end in
  let self := set_fingerprint_window self
    ((λ window, (window_unavailable window DETECTION_SAMPLER_PAUSED).1) <$> sv_fingerprint_window self) in
  match sv_detection self with
  | None => self
  | Some detection =>
      let '(w, unix) := wall_time_ms (sv_world self) in
      set_detection (set_world self w) (Some (detection_pause detection (default 0 unix)).1)
  end.

Definition service_pause self : option service := capture_incident_transitions (pause_engines self).

(** *** One tick of the sampler *)

(** An integrity failure: the failure is recorded in the history, which is
    emptied, and the learned evidence of the other engines is dropped. *)
Definition reject_integrity self ownership (failure : RateHistory → RateHistory)
    (baseline_code detection_code : string) (now unix : Z) : service * SamplingTickOutcome :=
  let self := update_history self failure in
  let self := clear_baseline self unix baseline_code in
  (clear_detection_integrity self ownership now unix detection_code, Rejected).

(** A transient failure: only the failure is recorded. *)
Definition reject_transient self (code : string) (unix : Z) : service * SamplingTickOutcome :=
  let self := update_history self (λ history, record_transient_failure history code) in
  let self := update_baseline self
    (λ baseline, (baseline_unavailable baseline unix BASELINE_SOURCE_UNAVAILABLE).1) in
  (mark_detection_unavailable self unix DETECTION_SOURCE_UNAVAILABLE, Rejected).

(** The end of a tick, after the sample entered the history. *)
Definition tick_evaluate self ownership (raw : RawObservation) (analysis_due : bool) (now unix : Z)
    (windows : DetailedRateWindows) : service * SamplingTickOutcome :=
  let '(self, baseline_failed) :=
    if bool_decide (dw_state (windows !!! 1%fin) = RateReady) then
      match sv_baseline self with
      | None => (self, true)
      | Some baseline =>
          let '(baseline, res) := evaluate_ready_window baseline (windows !!! 1%fin) unix in
          (set_baseline self (Some baseline), negb (is_ok res))
      end
    else (self, false) in
  if baseline_failed then
    (clear_detection_integrity self ownership now unix DETECTION_RATE_INVALID, Rejected)
  else
    let '(self, analysed) :=
      if analysis_due then record_analysis_fingerprints self (ro_fingerprints raw) now unix
      else (self, true) in
    if negb analysed then (self, Sampled)
    else
      let self := evaluate_detection self ownership windows now unix in
      (cache_background_snapshot self raw now unix, Sampled).

Definition tick_success self ownership (raw : RawObservation) (analysis_due : bool) (now unix : Z)
    (history : RateHistory) : service * SamplingTickOutcome :=
  let reject history error :=
    reject_integrity (set_history self (Some history)) ownership
      (λ history, record_history_failure history now error)
      (baseline_code_for_rate_error error) DETECTION_RATE_INVALID now unix in
  match rate_sample raw now unix with
  | Err _ =>
      reject_integrity self ownership
        (λ history, record_rate_failure history now OBS_RATE_CALCULATION_FAILED)
        BASELINE_CALCULATION_FAILED DETECTION_RATE_INVALID now unix
  | Ok sample =>
      match record_success history sample with
      | (history, Err error) => reject history error
      | (history, Ok _) =>
          match detailed_windows history now with
          | Err error => reject history error
          | Ok windows =>
              tick_evaluate (set_history self (Some history)) ownership raw analysis_due now unix windows
          end
      end
  end.

Definition tick_read self ownership (analysis_due : bool) (now : Z) : service * SamplingTickOutcome :=
  let purpose := if analysis_due then BackgroundAnalysis else BackgroundSample in
  let '(w, read_result) := read_exact (sv_world self) ownership purpose in
  let '(w, evaluated_at) := wall_time_ms w in
  let self := set_world self w in
  let evaluated_at := default 0 evaluated_at in
  match sv_history self with
  | None => (self, Rejected)
  | Some history =>
      match read_result with
      | Err error =>
          let code := default OBS_MAP_UNAVAILABLE (port_stable_code error) in
          if is_identity_code code then
            reject_integrity self ownership (λ history, record_identity_failure history now code)
              BASELINE_IDENTITY_CHANGED DETECTION_IDENTITY_CHANGED now evaluated_at
          else reject_transient self code evaluated_at
      | Ok raw =>
          if negb (ro_ifindex raw =? or_ifindex ownership)
             || negb (ro_generation raw =? or_generation ownership)
          then
            reject_integrity self ownership
              (λ history, record_identity_failure history now OBS_OWNERSHIP_MISMATCH)
              BASELINE_IDENTITY_CHANGED DETECTION_IDENTITY_CHANGED now evaluated_at
          else
            let '(w, captured_at) := wall_time_ms (sv_world self) in
            let self := set_world self w in
            match captured_at with
            | None =>
                reject_integrity self ownership
                  (λ history, record_rate_failure history now OBS_SNAPSHOT_FAILED)
                  BASELINE_CLOCK_REGRESSION DETECTION_RATE_INVALID now evaluated_at
            | Some captured_at =>
                tick_success self ownership raw analysis_due now captured_at history
            end
      end
  end.

Definition sample_tick_inner self ownership : service * SamplingTickOutcome :=
  if is_none (sv_history self) || is_none (sv_baseline self)
     || is_none (sv_fingerprint_window self) || is_none (sv_detection self)
  then (self, Rejected)
  else
    let '(w, now) := monotonic_ns (sv_world self) in
    let self := set_world self w in
    if is_some_and (sv_next_analysis_at_ns self) (λ deadline, deadline <=? now) then
      match advance_analysis_deadline self now with
      | (self, Err _) => (self, Rejected)
      | (self, Ok _) => tick_read self ownership true now
      end
    else tick_read self ownership false now.

Definition sample_tick self ownership : option (service * SamplingTickOutcome) :=
  let '(self, outcome) := sample_tick_inner self ownership in
  self ← capture_incident_transitions self; Some (self, outcome).

(** *** Requests *)

(** The failure of a validation during a request. *)
Definition request_rate_error {A} self ownership (error : RateHistoryError) (now unix : Z)
    : service * result ObservationError A :=
  let self := update_history self (λ history, record_history_failure history now error) in
  (clear_request_integrity self ownership now unix (baseline_code_for_rate_error error)
     DETECTION_RATE_INVALID, Err (rate_history_error error)).

(** The reading half of a request: the windows, reports and health. *)
Definition current_report self (requested : InterfaceName) (raw : RawObservation) (unix : Z)
    (history : RateHistory) (rate_windows : DetailedRateWindows) (status_rate_windows : StatusRateWindows)
    : result ObservationError (ObservationSnapshot * StatusRateWindows) :=
  let sampling := sampling_status history in
  baseline ← ok_or (bg_cached <$> sv_baseline self) session_error;
  detection ← ok_or (dn_report <$> sv_detection self) session_error;
  fingerprints ← fingerprint_report (ro_ifindex raw) (ro_generation raw) (ro_fingerprints raw);
  let health := observation_health sampling rate_windows (br_state baseline) (fr_state fingerprints)
                  (dr_state detection) in
  snapshot ← map_err (λ _, snapshot_error)
    (ObservationSnapshot_new requested (ro_ifindex raw) (ro_generation raw) unix
       (ro_vlan_visibility raw) (ro_hooks raw) sampling rate_windows);
  Ok (with_evidence snapshot health baseline fingerprints detection, status_rate_windows).

Definition current_windows self (requested : InterfaceName) ownership (raw : RawObservation)
    (now unix : Z) (history : RateHistory) (current : RateSample)
    : service * result ObservationError (ObservationSnapshot * StatusRateWindows) :=
  match validate_current history current with
  | (history, Err error) => request_rate_error (set_history self (Some history)) ownership error now unix
  | (history, Ok _) =>
      let self := set_history self (Some history) in
      match detailed_windows history now with
      | Err error => request_rate_error self ownership error now unix
      | Ok rate_windows =>
          match status_windows history now with
          | Err error => request_rate_error self ownership error now unix
          | Ok status_rate_windows =>
              (self, current_report self requested raw unix history rate_windows status_rate_windows)
          end
      end
  end.

Definition current_raw self (requested : InterfaceName) ownership (raw : RawObservation) (now : Z)
    (history : RateHistory) : service * result ObservationError (ObservationSnapshot * StatusRateWindows) :=
  if negb (ro_ifindex raw =? or_ifindex ownership) || negb (ro_generation raw =? or_generation ownership)
  then
    let self := update_history self
      (λ history, record_identity_failure history now OBS_OWNERSHIP_MISMATCH) in
    let '(w, unix) := wall_time_ms (sv_world self) in
    (clear_request_integrity (set_world self w) ownership now (default 0 unix)
       BASELINE_IDENTITY_CHANGED DETECTION_IDENTITY_CHANGED, Err ownership_error)
  else
    let '(w, captured_at) := wall_time_ms (sv_world self) in
    let self := set_world self w in
    match captured_at with
    | None =>
        let self := update_history self (λ history, record_rate_failure history now OBS_SNAPSHOT_FAILED) in
        (clear_request_integrity self ownership now 0 BASELINE_CLOCK_REGRESSION DETECTION_RATE_INVALID,
         Err snapshot_error)
    | Some unix =>
        match RateIdentity_new (ro_ifindex raw) (ro_generation raw) with
        | Err _ => (self, Err ownership_error)
        | Ok identity =>
            match RateSample_new identity now unix (ro_vlan_visibility raw) (ro_hooks raw) with
            | Err _ =>
                let self := update_history self
                  (λ history, record_rate_failure history now OBS_RATE_CALCULATION_FAILED) in
                (clear_request_integrity self ownership now unix BASELINE_CALCULATION_FAILED
                   DETECTION_RATE_INVALID, Err snapshot_error)
            | Ok current => current_windows self requested ownership raw now unix history current
            end
        end
    end.

Definition current_snapshot self (requested active_interface : InterfaceName) ownership
    : service * result ObservationError (ObservationSnapshot * StatusRateWindows) :=
  if negb (bool_decide (requested = active_interface)) then (self, Err interface_error)
  else
    match sv_history self with
    | None => (self, Err session_error)
    | Some history =>
        let '(w, now) := monotonic_ns (sv_world self) in
        let '(w, read_result) := read_exact w ownership Request in
        let self := set_world self w in
        match read_result with
        | Err error =>
            let code := default OBS_MAP_UNAVAILABLE (port_stable_code error) in
            if is_identity_code code then
              let self := update_history self (λ history, record_identity_failure history now code) in
              let '(w, unix) := wall_time_ms (sv_world self) in
              (clear_request_integrity (set_world self w) ownership now (default 0 unix)
                 BASELINE_IDENTITY_CHANGED DETECTION_IDENTITY_CHANGED, Err (reader_error error))
            else (self, Err (reader_error error))
        | Ok raw => current_raw self requested ownership raw now history
        end
    end.

Definition observe self (requested active_interface : InterfaceName) ownership
    : service * result ObservationError ObservationSnapshot :=
  let '(self, res) := current_snapshot self requested active_interface ownership in
  (acknowledge_request_transitions self, fst <$> res).

Definition status_of (snapshot : ObservationSnapshot) (rate_windows : StatusRateWindows) : InterfaceStatus :=
  mkInterfaceStatus (os_interface snapshot) Observing (os_generation snapshot)
    (os_captured_at_unix_ms snapshot) (os_health snapshot) (os_vlan_visibility snapshot)
    (ho_total (os_hooks snapshot !!! 0%fin)) (ho_total (os_hooks snapshot !!! 1%fin))
    (os_sampling snapshot) rate_windows (BaselineSummary_from_report (os_baseline snapshot))
    (FingerprintSummary_from (os_fingerprints snapshot)) (DetectionSummary_from (os_detection snapshot))
    (OutputHealth_unavailable "OUTPUT_NOT_CONFIGURED") None.

(** The arguments of a status request: which session it is about, if any. *)
Definition status_session (requested active_interface : option InterfaceName)
    (ownership : option OwnershipRecord)
    : result ObservationError (option (InterfaceName * InterfaceName * OwnershipRecord)) :=
  match active_interface, ownership with
  | None, None => if is_none requested then Ok None else Err session_error
  | Some active_interface, Some ownership =>
      let requested := default active_interface requested in
      if negb (bool_decide (requested = active_interface)) then Err session_error
      else Ok (Some (requested, active_interface, ownership))
  | _, _ => Err ownership_error
  end.

Definition status self (requested active_interface : option InterfaceName)
    (ownership : option OwnershipRecord) : service * result ObservationError (list InterfaceStatus) :=
  match status_session requested active_interface ownership with
  | Err error => (self, Err error)
  | Ok None => (self, Ok [])
  | Ok (Some (requested, active_interface, ownership)) =>
      let '(self, current) := current_snapshot self requested active_interface ownership in
      (acknowledge_request_transitions self,
       (λ '(snapshot, rate_windows), [status_of snapshot rate_windows]) <$> current)
  end.
End service.

(** ** The stateless service *)
Section observation_service.
Context {W : Type} `{ObservationPorts W}.

Definition observation_observe (w : W) (requested active_interface : InterfaceName)
    (ownership : OwnershipRecord) : W * result ObservationError ObservationSnapshot :=
  if negb (bool_decide (requested = active_interface)) then (w, Err interface_error)
  else
    match read_exact w ownership Request with
    | (w, Err error) => (w, Err (reader_error error))
    | (w, Ok raw) =>
        if negb (ro_ifindex raw =? or_ifindex ownership)
           || negb (ro_generation raw =? or_generation ownership)
        then (w, Err ownership_error)
        else
          let '(w, captured_at) := wall_time_ms w in
          (w,
           unix ← ok_or captured_at snapshot_error;
           snapshot ← map_err (λ _, snapshot_error)
             (ObservationSnapshot_new requested (ro_ifindex raw) (ro_generation raw) unix
                (ro_vlan_visibility raw) (ro_hooks raw) (mkSamplingStatus None None 0 false)
                warming_detailed_rate_windows);
           fingerprints ← fingerprint_report (ro_ifindex raw) (ro_generation raw) (ro_fingerprints raw);
           let health := if bool_decide (fr_state fingerprints = FingerprintUnavailable) then Degraded
                         else os_health snapshot in
           Ok (with_evidence snapshot health (os_baseline snapshot) fingerprints (os_detection snapshot)))
    end.

Definition observation_status (w : W) (requested active_interface : option InterfaceName)
    (ownership : option OwnershipRecord) : W * result ObservationError (list InterfaceStatus) :=
  match status_session requested active_interface ownership with
  | Err error => (w, Err error)
  | Ok None => (w, Ok [])
  | Ok (Some (requested, active_interface, ownership)) =>
      let '(w, current) := observation_observe w requested active_interface ownership in
      (w, (λ snapshot, [status_of snapshot warming_status_rate_windows]) <$> current)
  end.
End observation_service.
