(* ===== verification/SamplingFacts.v ===== *)
(** What the sampling service keeps true: every engine stays well formed and
    about the same interface generation, the incident recorder only sees
    snapshots of that generation, the output queue stays bounded, and nothing
    panics, across ticks, requests, pauses and generation ends. *)
From S2P Require Import Prelude Domain Text Packet Observation Rate Baseline FrameHash Fingerprint FingerprintWindow DetectionSignals Detection Preflight Ownership Attach Evidence Snapshot Incident Sampling.

(** ** Every operation keeps the identity of its engine *)
Lemma insert_sample_identity h s : rh_identity (insert_sample h s).1 = rh_identity h.
Proof. unfold insert_sample. by repeat case_match. Qed.

Lemma validate_current_identity h s : rh_identity (validate_current h s).1 = rh_identity h.
Proof. unfold validate_current. by repeat case_match. Qed.

Lemma history_failure_identity h now error :
  rh_identity (record_history_failure h now error) = rh_identity h.
Proof. by destruct error. Qed.

Lemma evaluate_ready_window_identity g w now :
  baseline_wf g → bg_identity (evaluate_ready_window g w now).1 = bg_identity g.
Proof.
  intros Hwf. destruct (evaluate_ready_window g w now) as [g' [r|e]] eqn:He; cbn [fst].
  - destruct (evaluate_ready_window_accepts _ _ _ _ _ He) as (hooks & e & Hl).
    destruct (evaluate_ready_window_learns g w now hooks e) as (g2 & r2 & Heq & Hid & _);
      [intros i; by apply baseline_wf_capacity|done|].
    rewrite He in Heq. by injection Heq as <- <-.
  - by apply evaluate_ready_window_rejects in He as [code ->].
Qed.

Lemma record_scan_identity h mono unix ev : fh_identity (record_scan h mono unix ev).1 = fh_identity h.
Proof. unfold record_scan, window_fail. repeat case_match; done. Qed.

Lemma window_unavailable_identity h code : fh_identity (window_unavailable h code).1 = fh_identity h.
Proof. unfold window_unavailable. by case_match. Qed.

Lemma sync_identity g : dn_identity (sync_history (sync_retained_state g)) = dn_identity g.
Proof. unfold sync_history, sync_retained_state, set_report. by repeat case_match. Qed.

Lemma record_transition_identity g a b r t : dn_identity (record_transition g a b r t).1 = dn_identity g.
Proof. unfold record_transition. by repeat case_match. Qed.

Lemma publish_identity g : dn_identity (publish g).1 = dn_identity g.
Proof. unfold publish. case_match; apply sync_identity. Qed.

Lemma publish_unavailable_identity g unix code reason reset :
  dn_identity (publish_unavailable g unix code reason reset).1 = dn_identity g.
Proof.
  unfold publish_unavailable. destruct (validate_error_code code); [|done].
  destruct (FingerprintWindowReport_unavailable code); [|done].
  case_match; [|by rewrite publish_identity].
  match goal with |- context [record_transition ?g ?a ?b ?r ?t] =>
    pose proof (record_transition_identity g a b r t) as Hid; destruct (record_transition g a b r t) as [? [?|?]] end;
  cbn [fst] in *; [by rewrite publish_identity|done].
Qed.

Lemma evaluate_identity g mono unix signals :
  detection_wf g → dn_transition_sequence g < U64_MAX →
  dn_identity (evaluate g mono unix signals).1 = dn_identity g.
Proof.
  intros Hw Hseq. destruct (acceptable_dec g mono unix signals) as [Ha|Ha].
  - destruct (evaluate_accepts g mono unix signals Hw Ha Hseq) as (d & g' & _ & _ & -> & Hev & _).
    apply (ev_identity _ _ _ _ _ _ Hev).
  - by destruct (evaluate_rejects g mono unix signals Ha) as [e ->].
Qed.

Lemma detection_clear_identity g identity mono unix code :
  dn_identity g = identity → dn_identity (detection_clear g identity mono unix code).1 = identity.
Proof.
  intros Hid. unfold detection_clear. destruct (validate_error_code code); [|done].
  rewrite bool_decide_eq_true_2 by done. cbn [negb]. by rewrite publish_unavailable_identity.
Qed.

(** ** The invariant of the service *)

(** What the types of the ports guarantee of their results. *)
Class ObservationPortsTyped (W : Type) `{ObservationPorts W} : Prop := {
  monotonic_ns_u64 w : is_u64 (monotonic_ns w).2;
  read_exact_typed w ownership purpose raw :
    (read_exact w ownership purpose).2 = Ok raw → ∀ i, hook_u64 (ro_hooks raw !!! i);
}.

Section invariant.
Context {W S : Type} `{ObservationPortsTyped W} `{EventIdSource S}.
Local Notation service := (SamplingService W S).
Implicit Types (self : service) (ownership : OwnershipRecord) (n : Z).

(** Every engine that runs is well formed and about [identity]; the detection
    engine has published at most [n] transitions. *)
Record engines_ok (identity : RateIdentity) n self : Prop := {
  eo_history : from_option (λ h, rate_wf h ∧ rh_identity h = identity) True (sv_history self);
  eo_baseline : from_option (λ g, baseline_wf g ∧ bg_identity g = identity) True (sv_baseline self);
  eo_window : from_option (λ h, window_wf h ∧ fh_identity h = identity) True (sv_fingerprint_window self);
  eo_detection : from_option (λ g, detection_wf g ∧ dn_identity g = identity ∧
                                   dn_transition_sequence g ≤ n) True (sv_detection self);
}.

Lemma engines_ok_mono identity n n' self : n ≤ n' → engines_ok identity n self → engines_ok identity n' self.
Proof.
  intros Hn [Hh Hb Hw Hd]. constructor; [done..|]. destruct (sv_detection self); [|done]. cbn in *.
  destruct_and!. split_and!; [done..|lia].
Qed.

Lemma engines_ok_world identity n self w : engines_ok identity n self → engines_ok identity n (set_world self w).
Proof. by intros []. Qed.

Lemma engines_ok_next identity n self next :
  engines_ok identity n self → engines_ok identity n (set_next_analysis self next).
Proof. by intros []. Qed.

Lemma engines_ok_incidents identity n self r j s :
  engines_ok identity n self → engines_ok identity n (set_incidents self r j s).
Proof. by intros []. Qed.

Lemma engines_ok_history identity n self h :
  engines_ok identity n self → rate_wf h → rh_identity h = identity →
  engines_ok identity n (set_history self (Some h)).
Proof. by intros []. Qed.

Lemma engines_ok_update_history identity n self f :
  engines_ok identity n self →
  (∀ h, rate_wf h → rate_wf (f h)) → (∀ h, rh_identity (f h) = rh_identity h) →
  engines_ok identity n (update_history self f).
Proof.
  intros [Hh Hb Hw Hd] Hf Hi. constructor; try done. cbn. destruct (sv_history self); [|done].
  cbn in *. rewrite Hi. split; [apply Hf|]; apply Hh.
Qed.

Lemma engines_ok_update_baseline identity n self f :
  engines_ok identity n self →
  (∀ g, baseline_wf g → baseline_wf (f g)) → (∀ g, bg_identity (f g) = bg_identity g) →
  engines_ok identity n (update_baseline self f).
Proof.
  intros [Hh Hb Hw Hd] Hf Hi. constructor; try done. cbn. destruct (sv_baseline self); [|done].
  cbn in *. rewrite Hi. split; [apply Hf|]; apply Hb.
Qed.

Lemma engines_ok_clear_baseline identity n self unix code :
  engines_ok identity n self → engines_ok identity n (clear_baseline self unix code).
Proof. intros Hok. apply engines_ok_update_baseline; [done|intros; apply baseline_wf_clear|done]. Qed.

Lemma engines_ok_update_window identity n self f :
  engines_ok identity n self →
  (∀ h, window_wf h → window_wf (f h)) → (∀ h, fh_identity (f h) = fh_identity h) →
  engines_ok identity n (set_fingerprint_window self (f <$> sv_fingerprint_window self)).
Proof.
  intros [Hh Hb Hw Hd] Hf Hi. constructor; try done. cbn. destruct (sv_fingerprint_window self); [|done].
  cbn in *. rewrite Hi. split; [apply Hf|]; apply Hw.
Qed.

(** One operation of the detection engine publishes at most one transition. *)
Lemma engines_ok_update_detection identity n self f op :
  engines_ok identity n self → n < U64_MAX →
  (∀ g, f g = detection_run_op g op) → (∀ g, dn_identity g = identity → detection_wf g →
     dn_transition_sequence g < U64_MAX → dn_identity (f g) = identity) →
  engines_ok identity (n + 1) (set_detection self (f <$> sv_detection self)).
Proof.
  intros [Hh Hb Hw Hd] Hn Hf Hi. constructor; try done. cbn. destruct (sv_detection self) as [g|]; [|done].
  cbn in *. destruct Hd as (Hwf & Hid & Hseq).
  destruct (detection_run_op_wf g op) as [Hwf' Hseq']; [done|lia|].
  rewrite Hi by (done || lia). rewrite Hf. split_and!; [done..|lia].
Qed.

Lemma engines_ok_mark identity n self unix code :
  engines_ok identity n self → n < U64_MAX →
  engines_ok identity (n + 1) (mark_detection_unavailable self unix code).
Proof.
  intros Hok Hn. eapply (engines_ok_update_detection _ _ _ _ (OpDetectionUnavailable unix code)); [done..|].
  intros g <- _ _. apply publish_unavailable_identity.
Qed.

Lemma engines_ok_clear identity n self ownership mono unix code :
  engines_ok identity n self → n < U64_MAX →
  RateIdentity_new (or_ifindex ownership) (or_generation ownership) = Ok identity →
  engines_ok identity (n + 1) (clear_detection_integrity self ownership mono unix code).
Proof.
  intros Hok Hn Hid. unfold clear_detection_integrity. rewrite Hid.
  set (self' := set_fingerprint_window _ _).
  assert (engines_ok identity n self') as Hok'.
  { apply engines_ok_update_window; [done| |done]. intros h Hw. apply (window_step_wf h OpWindowClear Hw). }
  eapply (engines_ok_update_detection _ _ _ _ (OpDetectionClear identity mono unix code)); [done..|].
  intros g Hg _ _. by apply detection_clear_identity.
Qed.

Lemma engines_ok_request_clear identity n self ownership mono unix bcode dcode :
  engines_ok identity n self → n < U64_MAX →
  RateIdentity_new (or_ifindex ownership) (or_generation ownership) = Ok identity →
  engines_ok identity (n + 1) (clear_request_integrity self ownership mono unix bcode dcode).
Proof. intros Hok Hn Hid. by apply engines_ok_clear; [apply engines_ok_clear_baseline|..]. Qed.


Lemma cleared_failure_wf h now code : is_u64 now → rate_wf (record_failure (clear_at h now) code).
Proof. intros. by apply rate_wf_record_failure, rate_wf_cleared. Qed.

Lemma history_failure_wf h now error : is_u64 now → rate_wf (record_history_failure h now error).
Proof. intros. by destruct error; apply cleared_failure_wf. Qed.

Lemma pause_wf h now code : is_u64 now → rate_wf h → rate_wf (rate_pause h now code).
Proof. intros Hn Hw. apply (rate_wf_step h (OpPause now code) Hw Hn). Qed.

Lemma wall_time_ms_range (w : W) unix : (wall_time_ms w).2 = Some unix → is_u64 unix.
Proof.
  unfold wall_time_ms. destruct (wall_time w) as [w' t]. cbn. destruct (Z.ltb_spec t 0); [done|].
  intros [-> Hm]%try_from_wide_Some. split; [apply Z.div_pos; lia|done].
Qed.

Lemma reject_integrity_ok identity n self ownership failure bcode dcode now unix :
  engines_ok identity n self → n < U64_MAX →
  RateIdentity_new (or_ifindex ownership) (or_generation ownership) = Ok identity →
  (∀ h, rate_wf (failure h)) → (∀ h, rh_identity (failure h) = rh_identity h) →
  engines_ok identity (n + 1) (reject_integrity self ownership failure bcode dcode now unix).1.
Proof.
  intros Hok Hn Hid Hf Hi. apply engines_ok_clear; [|done..].
  apply engines_ok_clear_baseline, engines_ok_update_history; auto.
Qed.

Lemma reject_transient_ok identity n self code unix :
  engines_ok identity n self → n < U64_MAX →
  engines_ok identity (n + 1) (reject_transient self code unix).1.
Proof.
  intros Hok Hn. apply engines_ok_mark; [|done]. apply engines_ok_update_baseline.
  - apply engines_ok_update_history; [done|intros; by apply rate_wf_record_failure|done].
  - intros g Hg. apply (baseline_step_wf g (OpUnavailable unix BASELINE_SOURCE_UNAVAILABLE) Hg).
  - done.
Qed.

Lemma record_analysis_ok identity n self fingerprints now unix :
  engines_ok identity n self → n < U64_MAX →
  engines_ok identity (n + 1) (record_analysis_fingerprints self fingerprints now unix).1.
Proof.
  intros Hok Hn. pose proof (eo_window _ _ _ Hok) as Hw. unfold record_analysis_fingerprints.
  destruct (sv_fingerprint_window self) as [h|] eqn:Hwin;
    [|cbn; eapply engines_ok_mono; [|done]; lia].
  assert (∀ f, window_wf (f h) → fh_identity (f h) = fh_identity h →
    engines_ok identity n (set_fingerprint_window self (Some (f h)))) as Hset.
  { intros f Hf Hi. destruct Hok as [Oh Ob Ow Od]. constructor; try done. cbn.
    split; [done|]. rewrite Hi. apply Hw. }
  destruct Hw as [Hwf _]. destruct fingerprints as [|ev|code]; cbn [fst].
  - apply engines_ok_mark; [|done]. apply (Hset (λ h, (window_unavailable h _).1));
      [apply (window_step_wf h (OpWindowUnavailable _) Hwf)|apply window_unavailable_identity].
  - pose proof (Hset (λ h, (record_scan h now unix ev).1)) as Hscan. cbn beta in Hscan.
    specialize (Hscan (record_scan_wf _ _ _ _ Hwf) (record_scan_identity _ _ _ _)).
    destruct (record_scan h now unix ev) as [h' [r|e]]; cbn [fst] in *; [|by apply engines_ok_mark].
    eapply engines_ok_mono; [|done]. lia.
  - apply engines_ok_mark; [|done]. apply (Hset (λ h, (window_unavailable h _).1));
      [apply (window_step_wf h (OpWindowUnavailable _) Hwf)|apply window_unavailable_identity].
Qed.

Lemma evaluate_detection_ok identity n self ownership windows now unix :
  engines_ok identity n self → n + 1 < U64_MAX →
  RateIdentity_new (or_ifindex ownership) (or_generation ownership) = Ok identity →
  engines_ok identity (n + 2) (evaluate_detection self ownership windows now unix).
Proof.
  intros Hok Hn Hid. unfold evaluate_detection. cbv zeta.
  assert (engines_ok identity (n + 2) self) as Hsame by (eapply engines_ok_mono; [|done]; lia).
  destruct (sv_baseline self) as [baseline|]; [|done].
  destruct (sv_fingerprint_window self) as [window|]; [|done].
  destruct (DetectionSignals_derive _ _ _ _) as [signals|].
  2: { apply (engines_ok_mono _ (n + 1)); [lia|]. by apply engines_ok_clear; [|lia|]. }
  destruct (sv_detection self) as [g|] eqn:Hg; [|done].
  destruct (_ && _); [done|].
  pose proof (engines_ok_update_detection identity n self (λ g, (evaluate g now unix signals).1)
    (OpDetect now unix signals) Hok) as Hev.
  rewrite Hg in Hev. cbn [fmap option_fmap option_map] in Hev. specialize (Hev ltac:(lia) ltac:(done)).
  assert (engines_ok identity (n + 1) (set_detection self (Some (evaluate g now unix signals).1))) as Hset.
  { apply Hev. intros g' <- Hw Hs. by apply evaluate_identity. }
  destruct (evaluate g now unix signals) as [g' [r|e]]; cbn [fst] in Hset.
  - eapply engines_ok_mono; [|done]. lia.
  - replace (n + 2) with (n + 1 + 1) by lia. apply engines_ok_clear; [done|lia|done].
Qed.

Lemma cache_snapshot_engines identity n self raw now unix :
  engines_ok identity n self → engines_ok identity n (cache_background_snapshot self raw now unix).
Proof. intros Hok. unfold cache_background_snapshot. repeat case_match; try done. by apply engines_ok_incidents. Qed.

Lemma tick_evaluate_ok identity n self ownership raw due now unix windows :
  engines_ok identity n self → n + 2 < U64_MAX →
  RateIdentity_new (or_ifindex ownership) (or_generation ownership) = Ok identity →
  engines_ok identity (n + 3) (tick_evaluate self ownership raw due now unix windows).1.
Proof.
  intros Hok Hn Hid. unfold tick_evaluate.
  match goal with |- context [if bool_decide (dw_state _ = RateReady) then ?a else ?b] =>
    set (st := if bool_decide (dw_state (windows !!! 1%fin) = RateReady) then a else b) end.
  assert (engines_ok identity n st.1) as Hst.
  { unfold st. case_bool_decide; [|done]. pose proof (eo_baseline _ _ _ Hok) as Hb.
    destruct (sv_baseline self) as [g|]; [|done]. destruct Hb as [Hwf Hbi].
    pose proof (baseline_step_wf g (OpEvaluate (windows !!! 1%fin) unix) Hwf) as Hstep.
    pose proof (evaluate_ready_window_identity g (windows !!! 1%fin) unix Hwf) as Hident.
    cbn [baseline_step] in Hstep. destruct (evaluate_ready_window g _ unix) as [g' res]. cbn [fst] in *.
    destruct Hok. constructor; try done. cbn. split; [done|congruence]. }
  destruct st as [self1 failed]. cbn [fst] in Hst. destruct failed.
  { apply (engines_ok_mono _ (n + 1)); [lia|]. by apply engines_ok_clear; [|lia|]. }
  assert (engines_ok identity (n + 1) (if due then record_analysis_fingerprints self1 (ro_fingerprints raw) now unix
    else (self1, true)).1) as Hrec.
  { destruct due; [apply record_analysis_ok; [done|lia]|]. eapply engines_ok_mono; [|done]. lia. }
  destruct (if due then _ else _) as [self2 analysed]. cbn [fst] in Hrec.
  destruct analysed; cbn [negb fst]; [|eapply engines_ok_mono; [|done]; lia].
  apply cache_snapshot_engines. replace (n + 3) with (n + 1 + 2) by lia.
  apply evaluate_detection_ok; [done|lia|done].
Qed.

Lemma RateSample_new_ok identity now unix vlan hooks s :
  RateSample_new identity now unix vlan hooks = Ok s → is_u64 now → (∀ i, hook_u64 (hooks !!! i)) → sample_ok s.
Proof.
  unfold RateSample_new. intros (? & _ & Hr)%bind_Ok Hn Hh. apply bind_Ok in Hr as ([] & Hv & [= <-]).
  by split_and!.
Qed.

Lemma tick_success_ok identity n self ownership raw due now unix h :
  engines_ok identity n self → n + 2 < U64_MAX → is_u64 now → (∀ i, hook_u64 (ro_hooks raw !!! i)) →
  RateIdentity_new (or_ifindex ownership) (or_generation ownership) = Ok identity →
  sv_history self = Some h →
  engines_ok identity (n + 3) (tick_success self ownership raw due now unix h).1.
Proof.
  intros Hok Hn Hnow Hh Hid Hs. unfold tick_success. cbv zeta.
  pose proof (eo_history _ _ _ Hok) as Hw. rewrite Hs in Hw. destruct Hw as [Hwf Hi].
  assert (∀ h error, rate_wf h → rh_identity h = identity → engines_ok identity (n + 3)
    (reject_integrity (set_history self (Some h)) ownership (λ history, record_history_failure history now error)
       (baseline_code_for_rate_error error) DETECTION_RATE_INVALID now unix).1) as Hreject.
  { intros h' error Hwf' Hi'. apply (engines_ok_mono _ (n + 1)); [lia|].
    apply reject_integrity_ok; [by apply engines_ok_history|lia|done|..]; intros.
    - by apply history_failure_wf.
    - apply history_failure_identity. }
  destruct (rate_sample raw now unix) as [sample|] eqn:Hsample.
  2: { apply (engines_ok_mono _ (n + 1)); [lia|]. apply reject_integrity_ok; [done|lia|done| |done].
       intros. by apply cleared_failure_wf. }
  assert (sample_ok sample) as Hsok.
  { unfold rate_sample in Hsample. apply bind_Ok in Hsample as (i & _ & Hnew). by eapply RateSample_new_ok. }
  pose proof (rate_wf_insert h sample Hwf Hsok) as Hins. pose proof (insert_sample_identity h sample) as Hii.
  unfold record_success. destruct (insert_sample h sample) as [h' [[]|e]]; cbn [fst] in *.
  2: { apply Hreject; [done|congruence]. }
  destruct (detailed_windows h' now) as [windows|e]; [|apply Hreject; [done|congruence]].
  apply tick_evaluate_ok; [|done..]. apply engines_ok_history; [done..|congruence].
Qed.

Lemma tick_read_ok identity n self ownership due now :
  engines_ok identity n self → n + 2 < U64_MAX → is_u64 now →
  RateIdentity_new (or_ifindex ownership) (or_generation ownership) = Ok identity →
  engines_ok identity (n + 3) (tick_read self ownership due now).1.
Proof.
  intros Hok Hn Hnow Hid. unfold tick_read. cbv zeta.
  pose proof (read_exact_typed (sv_world self) ownership
    (if due then BackgroundAnalysis else BackgroundSample)) as Htyped.
  destruct (read_exact _ _ _) as [w res]. destruct (wall_time_ms w) as [w' at_ms]. cbn [snd sv_history set_world] in *.
  assert (engines_ok identity (n + 3) (set_world self w')) as Hsame.
  { apply engines_ok_world, (engines_ok_mono _ n); [lia|done]. }
  destruct (sv_history self) as [h|] eqn:Hh; [|done].
  assert (∀ s code b d at_ms, engines_ok identity n s →
    engines_ok identity (n + 3) (reject_integrity s ownership (λ h, record_failure (clear_at h now) code) b d now at_ms).1)
    as Hreject.
  { intros s code b d u Hs. apply (engines_ok_mono _ (n + 1)); [lia|].
    apply reject_integrity_ok; [done|lia|done|intros; by apply cleared_failure_wf|done]. }
  destruct res as [raw|error].
  - destruct (_ || _); [by apply Hreject, engines_ok_world|]. destruct (wall_time_ms _) as [w'' [t|]].
    + apply tick_success_ok; [by do 2 apply engines_ok_world|done|done|by apply Htyped|done|done].
    + by apply Hreject; do 2 apply engines_ok_world.
  - destruct (is_identity_code _); [by apply Hreject, engines_ok_world|]. apply (engines_ok_mono _ (n + 1)); [lia|].
    apply reject_transient_ok; [by apply engines_ok_world|lia].
Qed.

Lemma advance_deadline_set self now :
  ∃ next, (advance_analysis_deadline self now).1 = set_next_analysis self next.
Proof.
  unfold advance_analysis_deadline. case_match; [by eexists|]. exists (sv_next_analysis_at_ns self). by destruct self.
Qed.

Lemma sample_tick_inner_ok identity n self ownership :
  engines_ok identity n self → n + 2 < U64_MAX →
  RateIdentity_new (or_ifindex ownership) (or_generation ownership) = Ok identity →
  engines_ok identity (n + 3) (sample_tick_inner self ownership).1.
Proof.
  intros Hok Hn Hid. unfold sample_tick_inner.
  assert (∀ s, engines_ok identity n s → engines_ok identity (n + 3) s) as Hmono.
  { intros s. apply engines_ok_mono. lia. }
  destruct (_ || _); [by apply Hmono|].
  pose proof (monotonic_ns_u64 (sv_world self)) as Hnow. destruct (monotonic_ns _) as [w now]. cbn [snd] in Hnow.
  destruct (is_some_and _ _); [|apply tick_read_ok; [by apply engines_ok_world|done..]].
  destruct (advance_deadline_set (set_world self w) now) as [next Hnext].
  assert (engines_ok identity n (set_next_analysis (set_world self w) next)) as Hadv.
  { by apply engines_ok_next, engines_ok_world. }
  destruct (advance_analysis_deadline _ _) as [self' [[]|e]]; cbn [fst] in *; subst self'.
  - by apply tick_read_ok.
  - by apply Hmono.
Qed.
End invariant.

(** ** The incident log of the service *)

Definition snapshot_of (iid : IncidentIdentity) (s : ObservationSnapshot) : Prop :=
  os_interface s = ii_interface iid ∧ os_ifindex s = ii_ifindex iid ∧ os_generation s = ii_generation iid.

Lemma push_incident_jobs new : ∀ jobs,
  (length jobs ≤ INCIDENT_OUTPUT_QUEUE_CAPACITY)%nat →
  foldl push_incident_job jobs new = jobs ++ take (INCIDENT_OUTPUT_QUEUE_CAPACITY - length jobs) new.
Proof.
  induction new as [|j new IH]; intros jobs Hl; [by rewrite take_nil, app_nil_r|].
  cbn [foldl]. unfold push_incident_job at 2, push_back.
  destruct (Nat.ltb_spec (length jobs) INCIDENT_OUTPUT_QUEUE_CAPACITY).
  - rewrite IH by (rewrite length_app; cbn; lia). rewrite <-app_assoc. f_equal.
    rewrite length_app. cbn [length app]. by replace (INCIDENT_OUTPUT_QUEUE_CAPACITY - length jobs)%nat
      with (Datatypes.S (INCIDENT_OUTPUT_QUEUE_CAPACITY - (length jobs + 1))) by lia.
  - rewrite IH by done. replace (INCIDENT_OUTPUT_QUEUE_CAPACITY - length jobs)%nat with 0%nat by lia. done.
Qed.

Lemma report_transitions_short g :
  detection_wf g → (length (dr_transitions (dn_report g)) ≤ DETECTION_TRANSITION_CAPACITY)%nat.
Proof.
  intros [Hpre <-]. cbn. destruct Hpre as [_ _ _ _ _ _ _ _ _ _ Hh _]. pose proof (history_length _ _ _ Hh). lia.
Qed.

Lemma capture_loop_ok {S} `{EventIdSource S} iid snapshot unseen : ∀ (r : IncidentRecorder S) log jobs,
  log_ok iid r log →
  ∃ r' new, capture_loop r snapshot unseen jobs = Some (r', jobs ++ new) ∧
            log_ok iid r' (log ++ (job_revision <$> new)) ∧ (length new ≤ length unseen)%nat.
Proof.
  induction unseen as [|t unseen IH]; intros r log jobs Hlog.
  { exists r, []. rewrite !app_nil_r. split_and!; [done..|cbn; lia]. }
  cbn [capture_loop length]. destruct snapshot as [s|].
  2: { destruct (IH (acknowledge_without_output r t).1 log jobs) as (r' & new & -> & Hok & Hl);
         [by apply log_ok_acknowledge|]. exists r', new. split_and!; [done..|lia]. }
  destruct (log_ok_record iid r log t s Hlog) as (r1 & res & -> & Hlog1). cbn [mbind option_bind].
  destruct res as [[j|]|e]; cbn [emitted] in Hlog1.
  - destruct (IH r1 _ (jobs ++ [j]) Hlog1) as (r' & new & -> & Hok & Hl). exists r', (j :: new).
    rewrite <-!app_assoc in *. split_and!; [done..|cbn; lia].
  - rewrite app_nil_r in Hlog1. destruct (IH r1 _ jobs Hlog1) as (r' & new & -> & Hok & Hl).
    exists r', new. split_and!; [done..|lia].
  - rewrite app_nil_r in Hlog1. exists r1, []. cbn. rewrite !app_nil_r. split_and!; [done..|lia].
Qed.

Lemma acknowledge_loop_ok {S} `{EventIdSource S} iid log unseen : ∀ r : IncidentRecorder S, log_ok iid r log → log_ok iid (acknowledge_loop r unseen) log.
Proof.
  induction unseen as [|t unseen IH]; intros r Hlog; [done|]. cbn.
  pose proof (log_ok_acknowledge iid r log t Hlog) as Hack.
  destruct (acknowledge_without_output r t) as [r' [[]|e]]; [by apply IH|done].
Qed.

Section incidents.
Context {W S : Type} `{ObservationPortsTyped W} `{EventIdSource S}.
Local Notation service := (SamplingService W S).
Implicit Types (self : service) (ownership : OwnershipRecord) (n : Z).

(** [log] is the log of every revision the recorder has made, and the cached
    snapshot is of the recorder's generation. *)
Record incidents_ok (iid : IncidentIdentity) (log : list IncidentRevisionV1) self : Prop := {
  io_jobs : (length (sv_incident_jobs self) ≤ INCIDENT_OUTPUT_QUEUE_CAPACITY)%nat;
  io_recorder : from_option (λ r, log_ok iid r log) True (sv_incident_recorder self);
  io_snapshot : from_option (snapshot_of iid) True (sv_latest_incident_snapshot self);
}.

Definition same_incidents self self' : Prop :=
  sv_incident_recorder self' = sv_incident_recorder self ∧
  sv_incident_jobs self' = sv_incident_jobs self ∧
  sv_latest_incident_snapshot self' = sv_latest_incident_snapshot self.

Lemma incidents_ok_same iid log self self' :
  same_incidents self self' → incidents_ok iid log self → incidents_ok iid log self'.
Proof. intros (Hr & Hj & Hs) []. by constructor; rewrite ?Hr, ?Hj, ?Hs. Qed.

(** The revisions an operation adds to the log, and what of them enters the queue. *)
Definition captured self log log' self' : Prop :=
  ∃ new, log' = log ++ (job_revision <$> new) ∧
    sv_incident_jobs self' =
      sv_incident_jobs self ++ take (INCIDENT_OUTPUT_QUEUE_CAPACITY - length (sv_incident_jobs self)) new ∧
    (length new ≤ DETECTION_TRANSITION_CAPACITY)%nat.

Lemma captured_none self log self' :
  sv_incident_jobs self' = sv_incident_jobs self → captured self log log self'.
Proof. intros Hj. exists []. rewrite take_nil, !app_nil_r. split_and!; [done..|cbn; lia]. Qed.

Lemma take_room (jobs new : list IncidentWriteJob) :
  (length jobs ≤ INCIDENT_OUTPUT_QUEUE_CAPACITY)%nat →
  (length (jobs ++ take (INCIDENT_OUTPUT_QUEUE_CAPACITY - length jobs) new) ≤ INCIDENT_OUTPUT_QUEUE_CAPACITY)%nat.
Proof. intros Hl. rewrite length_app, length_take. lia. Qed.

Lemma capture_ok iid log self identity n :
  incidents_ok iid log self → engines_ok identity n self →
  ∃ self' log', capture_incident_transitions self = Some self' ∧ incidents_ok iid log' self' ∧
    captured self log log' self' ∧ engines_ok identity n self' ∧ sv_world self' = sv_world self.
Proof.
  intros [Hj Hr Hs] He. unfold capture_incident_transitions. pose proof (eo_detection _ _ _ He) as Hd.
  destruct (sv_detection self) as [g|]; cbn [fmap option_fmap option_map].
  2: { eexists self, log. split_and!; [done|done|by apply captured_none|done|done]. }
  destruct Hd as [Hg _]. pose proof (report_transitions_short g Hg) as Hshort.
  assert (from_option (snapshot_of iid) True (refresh_snapshot (dn_report g) <$> sv_latest_incident_snapshot self))
    as Hs' by (by destruct (sv_latest_incident_snapshot self)).
  cbn [sv_incident_recorder set_incidents]. destruct (sv_incident_recorder self) as [r|].
  2: { eexists _, log. split_and!; [done|by constructor|by apply captured_none|by apply engines_ok_incidents|done]. }
  destruct (capture_loop_ok iid (refresh_snapshot (dn_report g) <$> sv_latest_incident_snapshot self)
    (unseen_transitions (dn_report g) r) r log [] Hr) as (r' & new & -> & Hlog & Hnew).
  cbn [mbind option_bind app sv_incident_jobs set_incidents]. rewrite push_incident_jobs by done.
  eexists _, (log ++ (job_revision <$> new)). split_and!; [done| | |by do 2 apply engines_ok_incidents|done].
  - constructor; [by apply take_room|done|done].
  - exists new. split_and!; [done|done|]. unfold unseen_transitions in Hnew.
    pose proof (List.filter_length_le (λ t, ic_last_transition_sequence r <? dt_sequence t)
      (dr_transitions (dn_report g))). lia.
Qed.

Lemma acknowledge_ok iid log self :
  incidents_ok iid log self → incidents_ok iid log (acknowledge_request_transitions self).
Proof.
  intros [Hj Hr Hs]. unfold acknowledge_request_transitions.
  destruct (dn_report <$> sv_detection self) as [report|]; [|by constructor].
  destruct (sv_incident_recorder self) as [r|] eqn:Hrec; [|by constructor; rewrite ?Hrec].
  constructor; [done| |done]. by apply acknowledge_loop_ok.
Qed.

Lemma same_incidents_refl self : same_incidents self self.
Proof. done. Qed.

Lemma same_incidents_trans a b c : same_incidents a b → same_incidents b c → same_incidents a c.
Proof. intros (?&?&?) (?&?&?). split_and!; congruence. Qed.

Lemma clear_detection_same self ownership mono unix code :
  same_incidents self (clear_detection_integrity self ownership mono unix code).
Proof. unfold clear_detection_integrity. by case_match. Qed.

Lemma record_analysis_same self fingerprints now unix :
  same_incidents self (record_analysis_fingerprints self fingerprints now unix).1.
Proof. unfold record_analysis_fingerprints. by repeat case_match. Qed.

Lemma evaluate_detection_same self ownership windows now unix :
  same_incidents self (evaluate_detection self ownership windows now unix).
Proof.
  unfold evaluate_detection. cbv zeta. repeat case_match; try done; try apply clear_detection_same.
  eapply same_incidents_trans; [|apply clear_detection_same]. done.
Qed.

(** A tick keeps the recorder and the queue, and a snapshot it caches is of the
    recorder's interface and the attached generation. *)
Definition incidents_kept ownership self self' : Prop :=
  sv_incident_recorder self' = sv_incident_recorder self ∧
  sv_incident_jobs self' = sv_incident_jobs self ∧
  (sv_latest_incident_snapshot self' = sv_latest_incident_snapshot self ∨
   ∃ r s, sv_incident_recorder self = Some r ∧ sv_latest_incident_snapshot self' = Some s ∧
     os_interface s = ii_interface (ic_identity r) ∧
     os_ifindex s = or_ifindex ownership ∧ os_generation s = or_generation ownership).

Lemma same_kept ownership self self' : same_incidents self self' → incidents_kept ownership self self'.
Proof. intros (?&?&?). split_and!; [done..|by left]. Qed.

Lemma kept_after_same ownership a b c :
  same_incidents a b → incidents_kept ownership b c → incidents_kept ownership a c.
Proof.
  intros (Hr&Hj&Hs) (Hr'&Hj'&Hs'). split_and!; [congruence..|]. destruct Hs' as [Hs'|Hs'].
  - left. congruence.
  - right. by rewrite <-Hr.
Qed.

Lemma incidents_ok_kept iid log ownership self self' :
  incidents_kept ownership self self' →
  ii_ifindex iid = or_ifindex ownership → ii_generation iid = or_generation ownership →
  incidents_ok iid log self → incidents_ok iid log self'.
Proof.
  intros (Hr & Hj & Hs) Hi Hg [Hjobs Hrec Hsnap]. constructor; rewrite ?Hr, ?Hj; [done..|].
  destruct Hs as [->|(r & s & Hrs & -> & Hos & Hoi & Hog)]; [done|]. rewrite Hrs in Hrec.
  cbn in Hrec. pose proof (lk_identity _ _ _ Hrec) as Hid. cbn. split_and!; congruence.
Qed.

Lemma cache_snapshot_kept ownership self raw now unix :
  ro_ifindex raw = or_ifindex ownership → ro_generation raw = or_generation ownership →
  incidents_kept ownership self (cache_background_snapshot self raw now unix).
Proof.
  intros Hi Hg. unfold cache_background_snapshot.
  destruct (sv_incident_recorder self) as [r|] eqn:Hr; cbn [fmap option_fmap option_map]; [|by apply same_kept].
  destruct (sv_history self); [|by apply same_kept]. destruct (detailed_windows _ _); [|by apply same_kept].
  destruct (sv_baseline self); [|by apply same_kept]. destruct (sv_detection self); [|by apply same_kept].
  destruct (fingerprint_report _ _ _); [|by apply same_kept].
  destruct (ObservationSnapshot_new _ _ _ _ _ _ _ _) as [s|] eqn:Hs; [|by apply same_kept].
  apply ObservationSnapshot_new_ok in Hs as (Hn1 & Hn2 & Hn3 & _). split_and!; [done..|]. right.
  eexists r, _. split_and!; [done|done|cbn; congruence..].
Qed.

Lemma tick_evaluate_kept self ownership raw due now unix windows :
  ro_ifindex raw = or_ifindex ownership → ro_generation raw = or_generation ownership →
  incidents_kept ownership self (tick_evaluate self ownership raw due now unix windows).1.
Proof.
  intros Hi Hg. unfold tick_evaluate.
  match goal with |- context [if bool_decide (dw_state _ = RateReady) then ?a else ?b] =>
    set (st := if bool_decide (dw_state (windows !!! 1%fin) = RateReady) then a else b) end.
  assert (same_incidents self st.1) as Hst by (unfold st; by repeat case_match).
  destruct st as [self1 failed]. cbn [fst] in Hst.
  destruct failed; [apply (kept_after_same _ _ _ _ Hst), same_kept, clear_detection_same|].
  assert (same_incidents self1 (if due then record_analysis_fingerprints self1 (ro_fingerprints raw) now unix
    else (self1, true)).1) as Hrec by (destruct due; [apply record_analysis_same|done]).
  destruct (if due then _ else _) as [self2 analysed]. cbn [fst] in Hrec.
  pose proof (same_incidents_trans _ _ _ Hst Hrec) as H12.
  destruct analysed; cbn [negb fst]; [|by apply same_kept].
  apply (kept_after_same _ _ _ _ H12). eapply kept_after_same; [apply evaluate_detection_same|].
  by apply cache_snapshot_kept.
Qed.

Lemma reject_integrity_same self ownership failure b d now unix :
  same_incidents self (reject_integrity self ownership failure b d now unix).1.
Proof. eapply same_incidents_trans; [|apply clear_detection_same]. done. Qed.

Lemma tick_success_kept self ownership raw due now unix h :
  ro_ifindex raw = or_ifindex ownership → ro_generation raw = or_generation ownership →
  incidents_kept ownership self (tick_success self ownership raw due now unix h).1.
Proof.
  intros Hi Hg. unfold tick_success. cbv zeta.
  assert (∀ s f b d, same_incidents self s →
    incidents_kept ownership self (reject_integrity s ownership f b d now unix).1) as Hreject.
  { intros s f b d Hs. eapply same_kept, same_incidents_trans, reject_integrity_same. done. }
  destruct (rate_sample _ _ _) as [sample|]; [|by apply Hreject].
  destruct (record_success h sample) as [h' [[]|e]]; [|by apply Hreject].
  destruct (detailed_windows h' now) as [windows|e]; [|by apply Hreject].
  eapply kept_after_same; [|by apply tick_evaluate_kept]. done.
Qed.

Lemma tick_read_kept self ownership due now :
  incidents_kept ownership self (tick_read self ownership due now).1.
Proof.
  unfold tick_read. cbv zeta. destruct (read_exact _ _ _) as [w res]. destruct (wall_time_ms w) as [w' at_ms].
  cbn [sv_history set_world].
  assert (∀ s f b d at_ms, same_incidents self s →
    incidents_kept ownership self (reject_integrity s ownership f b d now at_ms).1) as Hreject.
  { intros s f b d t Hs. eapply same_kept, same_incidents_trans, reject_integrity_same. done. }
  destruct (sv_history self) as [h|]; [|by apply same_kept]. destruct res as [raw|error].
  - destruct (Z.eqb_spec (ro_ifindex raw) (or_ifindex ownership)) as [Hi|]; [|by apply Hreject].
    destruct (Z.eqb_spec (ro_generation raw) (or_generation ownership)) as [Hg|]; [|by apply Hreject].
    cbn [negb orb]. destruct (wall_time_ms _) as [w'' [t|]]; [|by apply Hreject].
    eapply kept_after_same; [|by apply tick_success_kept]. done.
  - destruct (is_identity_code _); [by apply Hreject|]. by apply same_kept.
Qed.

Lemma sample_tick_inner_kept self ownership :
  incidents_kept ownership self (sample_tick_inner self ownership).1.
Proof.
  unfold sample_tick_inner. destruct (_ || _); [by apply same_kept|].
  destruct (monotonic_ns _) as [w now].
  destruct (is_some_and _ _); [|eapply kept_after_same; [|apply tick_read_kept]; done].
  destruct (advance_deadline_set (set_world self w) now) as [next Hnext].
  assert (same_incidents self (advance_analysis_deadline (set_world self w) now).1) as Hadv by (by rewrite Hnext).
  destruct (advance_analysis_deadline _ _) as [self' [[]|e]]; cbn [fst] in *; [|by apply same_kept].
  by eapply kept_after_same, tick_read_kept.
Qed.

(** *** Requests *)
Lemma request_clear_same self ownership mono unix b d :
  same_incidents self (clear_request_integrity self ownership mono unix b d).
Proof. eapply same_incidents_trans; [|apply clear_detection_same]. done. Qed.

(** What a request may do to the service: one integrity clear. *)
Definition request_ok identity n self self' : Prop :=
  same_incidents self self' ∧ (n < U64_MAX → engines_ok identity n self → engines_ok identity (n + 1) self').

Lemma request_ok_same identity n self self' :
  same_incidents self self' → (engines_ok identity n self → engines_ok identity n self') →
  request_ok identity n self self'.
Proof. intros Hs He. split; [done|]. intros ? Hok. apply (engines_ok_mono _ n); [lia|auto]. Qed.

Lemma request_ok_after identity n a b c :
  same_incidents a b → (engines_ok identity n a → engines_ok identity n b) →
  request_ok identity n b c → request_ok identity n a c.
Proof. intros Hs He [Hs' He']. split; [by eapply same_incidents_trans|auto]. Qed.

Lemma request_failure_ok identity n self s ownership f w now unix b d :
  RateIdentity_new (or_ifindex ownership) (or_generation ownership) = Ok identity →
  (∀ h, rate_wf (f h)) → (∀ h, rh_identity (f h) = rh_identity h) →
  same_incidents self s → (engines_ok identity n self → engines_ok identity n s) →
  request_ok identity n self
    (clear_request_integrity (set_world (update_history s f) w) ownership now unix b d).
Proof.
  intros Hid Hf Hi Hs He. split; [eapply same_incidents_trans, request_clear_same; done|]. intros Hn Hok.
  apply engines_ok_request_clear; [|done..]. apply engines_ok_world, engines_ok_update_history; auto.
Qed.

Lemma request_clear_ok identity n self s ownership now code at_ms w unix b d :
  RateIdentity_new (or_ifindex ownership) (or_generation ownership) = Ok identity → is_u64 at_ms →
  same_incidents self s → (engines_ok identity n self → engines_ok identity n s) →
  request_ok identity n self
    (clear_request_integrity (set_world (update_history s (λ h, record_failure (clear_at h at_ms) code)) w)
       ownership now unix b d).
Proof. intros. apply request_failure_ok; try done. intros. by apply cleared_failure_wf. Qed.

Lemma request_rate_error_ok {A} identity n self ownership error now unix :
  RateIdentity_new (or_ifindex ownership) (or_generation ownership) = Ok identity → is_u64 now →
  request_ok identity n self (request_rate_error (A := A) self ownership error now unix).1.
Proof.
  intros Hid Hnow. eapply (request_failure_ok _ _ self self _ _ (sv_world self)); try done; intros.
  - by apply history_failure_wf.
  - apply history_failure_identity.
Qed.

Lemma current_windows_ok identity n self requested ownership raw now unix h current :
  RateIdentity_new (or_ifindex ownership) (or_generation ownership) = Ok identity → is_u64 now →
  sample_ok current → sv_history self = Some h →
  request_ok identity n self (current_windows self requested ownership raw now unix h current).1.
Proof.
  intros Hid Hnow Hcur Hh. unfold current_windows.
  pose proof (validate_current_identity h current) as Hi.
  assert (∀ s, same_incidents self s → (engines_ok identity n self → engines_ok identity n s) →
    ∀ error, request_ok identity n self (request_rate_error (A := ObservationSnapshot * StatusRateWindows) s ownership error now unix).1) as Hf.
  { intros s Hs He error. eapply request_ok_after; [done..|]. by apply request_rate_error_ok. }
  assert (engines_ok identity n self →
    engines_ok identity n (set_history self (Some (validate_current h current).1))) as Hset.
  { intros Hok. pose proof (eo_history _ _ _ Hok) as Hw. rewrite Hh in Hw. destruct Hw as [Hwf Hid'].
    apply engines_ok_history; [done|by apply (rate_wf_step h (OpValidateCurrent current))|congruence]. }
  destruct (validate_current h current) as [h' [r|e]]; cbn [fst] in *; [|by apply Hf].
  destruct (detailed_windows h' now) as [dw|e]; [|by apply Hf].
  destruct (status_windows h' now) as [sw|e]; [|by apply Hf]. by apply request_ok_same.
Qed.

Lemma current_snapshot_ok identity n self requested active ownership :
  RateIdentity_new (or_ifindex ownership) (or_generation ownership) = Ok identity →
  request_ok identity n self (current_snapshot self requested active ownership).1.
Proof.
  intros Hid. unfold current_snapshot.
  assert (∀ w, request_ok identity n self (set_world self w)) as Hw.
  { intros w. by apply request_ok_same; [|intros; by apply engines_ok_world]. }
  assert (request_ok identity n self self) as Hself by (by apply request_ok_same).
  destruct (negb _); [done|]. destruct (sv_history self) as [h|] eqn:Hh; [|done].
  pose proof (monotonic_ns_u64 (sv_world self)) as Hnow. destruct (monotonic_ns _) as [w now]. cbn [snd] in Hnow.
  pose proof (read_exact_typed w ownership Request) as Htyped.
  destruct (read_exact w ownership Request) as [w1 [raw|error]]; cbn [snd] in Htyped.
  2: { destruct (is_identity_code _); [|apply Hw]. destruct (wall_time_ms _) as [w2 at_ms].
       apply request_clear_ok; [done..|apply engines_ok_world]. }
  unfold current_raw. destruct (_ || _).
  { destruct (wall_time_ms _) as [w2 at_ms]. apply request_clear_ok; [done..|apply engines_ok_world]. }
  destruct (wall_time_ms _) as [w2 [unix|]].
  2: { apply (request_clear_ok identity n self (set_world (set_world self w1) w2) _ _ _ _ w2); [done..|].
       intros. by do 2 apply engines_ok_world. }
  destruct (RateIdentity_new (ro_ifindex raw) _) as [id|]; [|apply (Hw w2)].
  destruct (RateSample_new _ _ _ _ _) as [current|] eqn:Hcur.
  - eapply request_ok_after; [| |apply current_windows_ok; [done|done| |done]].
    + done.
    + intros. by do 2 apply engines_ok_world.
    + by eapply RateSample_new_ok; [done|done|apply Htyped].
  - apply (request_clear_ok identity n self (set_world (set_world self w1) w2) _ _ _ _ w2); [done..|].
    intros. by do 2 apply engines_ok_world.
Qed.

(** *** Pausing and the end of the generation *)
Lemma pause_engines_same self : same_incidents self (pause_engines self).
Proof. unfold pause_engines. by repeat case_match. Qed.

Lemma pause_engines_ok identity n self :
  n < U64_MAX → engines_ok identity n self → engines_ok identity (n + 1) (pause_engines self).
Proof.
  intros Hn Hok. unfold pause_engines.
  set (s1 := match sv_history self with None => _ | Some _ => _ end).
  assert (engines_ok identity n s1) as H1'.
  { subst s1. destruct (sv_history self) as [h|] eqn:Hh; [|done].
    pose proof (monotonic_ns_u64 (sv_world self)) as Hnow. destruct (monotonic_ns _) as [w now].
    pose proof (eo_history _ _ _ Hok) as Hw. rewrite Hh in Hw. destruct Hw as [Hwf Hi].
    apply engines_ok_history; [by apply engines_ok_world|by apply pause_wf|done]. }
  clearbody s1. cbv zeta. set (s2 := match sv_baseline s1 with None => _ | Some _ => _ end).
  assert (engines_ok identity n s2) as H2'.
  { subst s2. destruct (sv_baseline s1) as [g|] eqn:Hg; [|done]. destruct (wall_time_ms _) as [w unix].
    pose proof (eo_baseline _ _ _ H1') as Hw. rewrite Hg in Hw. destruct Hw as [Hwf Hi].
    destruct H1' as [Eh Eb Ew Ed]. constructor; try done. split; [|done].
    apply (baseline_step_wf g (OpUnavailable _ _) Hwf). }
  clearbody s2. set (s3 := set_fingerprint_window s2 _).
  assert (engines_ok identity n s3) as H3'.
  { apply engines_ok_update_window; [done| |].
    - intros h Hwf. apply (window_step_wf h (OpWindowUnavailable _) Hwf).
    - intros h. apply window_unavailable_identity. }
  clearbody s3. destruct (sv_detection s3) as [g|] eqn:Hg; [|by apply (engines_ok_mono _ n); [lia|]].
  destruct (wall_time_ms _) as [w unix].
  pose proof (engines_ok_update_detection identity n (set_world s3 w)
    (λ g, (detection_pause g (default 0 unix)).1) (OpDetectionPause (default 0 unix))) as Hup.
  cbn [sv_detection set_world] in Hup. rewrite Hg in Hup. apply Hup; [by apply engines_ok_world|done|done|].
  intros g' <- _ _. apply publish_unavailable_identity.
Qed.

Lemma generation_ended_ok iid log self identity n :
  incidents_ok iid log self → engines_ok identity n self →
  let self' := service_generation_ended self in
  ∃ log', incidents_ok iid log' self' ∧ captured self log log' self' ∧ engines_ok identity n self'.
Proof.
  intros Hin He. cbv zeta. unfold service_generation_ended.
  assert (∃ log', incidents_ok iid log' self ∧ captured self log log' self ∧ engines_ok identity n self) as Hsame.
  { exists log. split_and!; [done|by apply captured_none|done]. }
  destruct (sv_latest_incident_snapshot self) as [s|] eqn:Hs; [|done].
  destruct (sv_incident_recorder self) as [r|] eqn:Hr; [|done].
  destruct (wall_time_ms _) as [w at_ms]. destruct Hin as [Hj Hrec Hsnap]. rewrite Hr in Hrec. rewrite Hs in Hsnap.
  pose proof (log_ok_end iid r log (default (os_captured_at_unix_ms s) at_ms) s Hrec) as Hend. cbv zeta in Hend.
  destruct (generation_ended _ _ _) as [r' res]. cbn [fst snd] in Hend.
  set (new := match res with Ok (Some j) => [j] | _ => [] end).
  assert (emitted res = job_revision <$> new) as Hnew by (by destruct res as [[]|]).
  assert (match res with Ok (Some j) => push_incident_job (sv_incident_jobs (set_world self w)) j
          | _ => sv_incident_jobs (set_world self w) end = foldl push_incident_job (sv_incident_jobs self) new) as ->
    by (by destruct res as [[]|]).
  rewrite push_incident_jobs by done. exists (log ++ emitted res).
  split_and!; [|exists new; split_and!; [by rewrite Hnew|done|]|by apply engines_ok_incidents, engines_ok_world].
  - constructor; [by apply take_room|done|done].
  - subst new. destruct res as [[]|]; cbn; unfold DETECTION_TRANSITION_CAPACITY; lia.
Qed.

(** *** A session *)

(** What the daemon does with the service of an attached session. *)
Inductive service_op : Type :=
| TickOp
| ObserveOp (requested active_interface : InterfaceName)
| StatusOp (requested : option InterfaceName) (active_interface : InterfaceName)
| PauseOp
| EndGenerationOp
| TakeOp.

(** One operation; [delivered] are the revisions taken so far, [None] is a panic. *)
Definition service_step ownership (st : service * list IncidentRevisionV1) (op : service_op)
    : option (service * list IncidentRevisionV1) :=
  let '(self, delivered) := st in
  match op with
  | TickOp => '(self, _) ← sample_tick self ownership; Some (self, delivered)
  | ObserveOp requested active => Some ((observe self requested active ownership).1, delivered)
  | StatusOp requested active => Some ((status self requested (Some active) (Some ownership)).1, delivered)
  | PauseOp => self ← service_pause self; Some (self, delivered)
  | EndGenerationOp => Some (service_generation_ended self, delivered)
  | TakeOp => let '(self, jobs) := take_incident_jobs self in Some (self, delivered ++ (job_revision <$> jobs))
  end.

Fixpoint service_run ownership (st : service * list IncidentRevisionV1) (ops : list service_op)
    : option (service * list IncidentRevisionV1) :=
  match ops with
  | [] => Some st
  | op :: ops => st ← service_step ownership st op; service_run ownership st ops
  end.

(** Everything known of a session between two operations. *)
Record session_ok (identity : RateIdentity) (iid : IncidentIdentity) n (log : list IncidentRevisionV1)
    (st : service * list IncidentRevisionV1) : Prop := {
  se_engines : engines_ok identity n st.1;
  se_incidents : incidents_ok iid log st.1;
  se_delivered : sublist (st.2 ++ (job_revision <$> sv_incident_jobs st.1)) log;
}.

(** Nothing has been lost so far. *)
Definition complete (log : list IncidentRevisionV1) (st : service * list IncidentRevisionV1) : Prop :=
  st.2 ++ (job_revision <$> sv_incident_jobs st.1) = log.

(** An operation takes a session from [log] to [log']; from an empty queue it
    loses no revision. *)
Definition session_moved (log log' : list IncidentRevisionV1)
    (st st' : service * list IncidentRevisionV1) : Prop :=
  complete log st → sv_incident_jobs st.1 = [] → complete log' st'.

(** Taking the queue delivers it. *)
Lemma session_take identity iid n log self delivered :
  session_ok identity iid n log (self, delivered) →
  session_ok identity iid n log
    ((take_incident_jobs self).1, delivered ++ (job_revision <$> sv_incident_jobs self)).
Proof.
  intros [He Hi Hd]. constructor; cbn [fst snd sv_incident_jobs set_incidents take_incident_jobs].
  - by apply engines_ok_incidents.
  - destruct Hi. constructor; [cbn; lia|done..].
  - by rewrite app_nil_r.
Qed.

Lemma session_ok_mono identity iid n n' log st :
  n ≤ n' → session_ok identity iid n log st → session_ok identity iid n' log st.
Proof. intros Hn [He Hi Hd]. constructor; [by eapply engines_ok_mono|done..]. Qed.

Lemma captured_session identity iid n log log' self self' delivered :
  session_ok identity iid n log (self, delivered) →
  captured self log log' self' → engines_ok identity (n + 3) self' → incidents_ok iid log' self' →
  session_ok identity iid (n + 3) log' (self', delivered) ∧
  session_moved log log' (self, delivered) (self', delivered).
Proof.
  intros [_ _ Hd] (new & -> & Hj & Hl) He Hi. split.
  - constructor; [done..|]. cbn in *. rewrite Hj, fmap_app, app_assoc. apply sublist_app; [done|].
    rewrite fmap_take. apply sublist_take.
  - unfold session_moved, complete. cbn. intros Hc Hnil. rewrite Hj, Hnil in *. cbn in *.
    rewrite app_nil_r in Hc. rewrite Hc, take_ge; [done|].
    unfold INCIDENT_OUTPUT_QUEUE_CAPACITY, DETECTION_TRANSITION_CAPACITY in *. lia.
Qed.

Lemma request_session identity iid n log self self' delivered :
  session_ok identity iid n log (self, delivered) → n + 3 ≤ U64_MAX →
  request_ok identity n self self' →
  session_ok identity iid (n + 3) log (acknowledge_request_transitions self', delivered) ∧
  session_moved log log (self, delivered) (acknowledge_request_transitions self', delivered).
Proof.
  intros Hok Hn [Hsame He]. apply (captured_session identity iid n log log self); [done|..].
  - apply captured_none. destruct Hsame as (_ & <- & _). unfold acknowledge_request_transitions.
    by repeat case_match.
  - assert (engines_ok identity (n + 3) self') as He'.
    { apply (engines_ok_mono _ (n + 1)); [lia|]. apply He; [lia|]. apply Hok. }
    unfold acknowledge_request_transitions. repeat case_match; try done. by apply engines_ok_incidents.
  - apply acknowledge_ok. eapply incidents_ok_same; [done|]. apply Hok.
Qed.

Lemma service_step_ok identity iid n log st op ownership :
  RateIdentity_new (or_ifindex ownership) (or_generation ownership) = Ok identity →
  ii_ifindex iid = or_ifindex ownership → ii_generation iid = or_generation ownership →
  n + 3 ≤ U64_MAX → session_ok identity iid n log st →
  ∃ st' log', service_step ownership st op = Some st' ∧ session_ok identity iid (n + 3) log' st' ∧
              session_moved log log' st st'.
Proof.
  intros Hid Hif Hgen Hn Hok. destruct st as [self delivered]. pose proof Hok as [He Hi Hd]. cbn [fst snd] in *.
  destruct op as [|req act|req act| | |]; cbn [service_step].
  - pose proof (sample_tick_inner_ok identity n self ownership He ltac:(lia) Hid) as Htick.
    pose proof (sample_tick_inner_kept self ownership) as Hkept.
    assert (sv_incident_jobs (sample_tick_inner self ownership).1 = sv_incident_jobs self) as Hjobs by apply Hkept.
    apply (incidents_ok_kept iid log) in Hkept; [|done..]. unfold sample_tick.
    destruct (sample_tick_inner self ownership) as [self1 outcome]. cbn [fst] in *.
    destruct (capture_ok iid log self1 identity (n + 3) Hkept Htick) as (self2 & log' & -> & Hi2 & Hcap & He2 & _).
    cbn [mbind option_bind]. eexists _, log'. split; [done|].
    apply (captured_session identity iid n log log' self); [done| |done..].
    destruct Hcap as (new & Hl & Hj & Hs). exists new. by rewrite <-Hjobs.
  - unfold observe. pose proof (current_snapshot_ok identity n self req act ownership Hid) as Hreq.
    destruct (current_snapshot self req act ownership) as [self1 res]. eexists _, log. split; [done|].
    by apply request_session.
  - unfold status. assert (request_ok identity n self self) as Hself by (by apply request_ok_same).
    cbn [status_session]. destruct (negb _).
    { eexists _, log. split; [done|]. cbn [fst]. apply (captured_session identity iid n log log self);
        [done|by apply captured_none|apply (engines_ok_mono _ n); [lia|done]|done]. }
    pose proof (current_snapshot_ok identity n self (default act req) act ownership Hid) as Hreq.
    destruct (current_snapshot self _ act ownership) as [self1 res]. eexists _, log. split; [done|].
    by apply request_session.
  - unfold service_pause. pose proof (pause_engines_ok identity n self ltac:(lia) He) as He1.
    pose proof (pause_engines_same self) as Hs1. pose proof (incidents_ok_same iid log _ _ Hs1 Hi) as Hi1.
    destruct (capture_ok iid log _ identity (n + 1) Hi1 He1) as (self2 & log' & -> & Hi2 & Hcap & He2 & _).
    cbn [mbind option_bind]. eexists _, log'. split; [done|].
    apply (captured_session identity iid n log log' self); [done| |by apply (engines_ok_mono _ (n + 1)); [lia|]|done].
    destruct Hs1 as (_ & Hjobs & _). destruct Hcap as (new & Hl & Hj & Hs). exists new. by rewrite <-Hjobs.
  - destruct (generation_ended_ok iid log self identity n Hi He) as (log' & Hi' & Hcap & He').
    eexists _, log'. split; [done|]. apply (captured_session identity iid n log log' self);
      [done|done|by apply (engines_ok_mono _ n); [lia|]|done].
  - eexists _, log. split; [done|]. split.
    + apply (session_ok_mono _ _ n); [lia|]. by apply session_take.
    + intros Hc _. unfold complete in *. cbn in *. by rewrite app_nil_r.
Qed.

Lemma service_run_ok identity iid ownership ops : ∀ n log st,
  RateIdentity_new (or_ifindex ownership) (or_generation ownership) = Ok identity →
  ii_ifindex iid = or_ifindex ownership → ii_generation iid = or_generation ownership →
  n + 3 * Z.of_nat (length ops) ≤ U64_MAX → session_ok identity iid n log st →
  ∃ st' log', service_run ownership st ops = Some st' ∧
              session_ok identity iid (n + 3 * Z.of_nat (length ops)) log' st'.
Proof.
  induction ops as [|op ops IH]; intros n log st Hid Hif Hgen Hn Hok; cbn [service_run length] in *.
  { exists st, log. split; [done|]. by replace (n + 3 * Z.of_nat 0) with n by lia. }
  destruct (service_step_ok identity iid n log st op ownership) as (st1 & log1 & -> & Hok1 & _); [done..|lia|done|].
  destruct (IH (n + 3) log1 st1) as (st' & log' & Hrun & Hok'); [done..|lia|done|].
  exists st', log'. split; [done|]. by replace (n + 3 * Z.of_nat (Datatypes.S (length ops)))
    with (n + 3 + 3 * Z.of_nat (length ops)) by lia.
Qed.

Lemma start_ok self ownership self' :
  start self ownership = (self', Ok tt) →
  RateIdentity_new (or_ifindex ownership) (or_generation ownership)
    = Ok (mkRateIdentity (or_ifindex ownership) (or_generation ownership)) ∧
  engines_ok (mkRateIdentity (or_ifindex ownership) (or_generation ownership)) 0 self'.
Proof.
  unfold start. destruct (RateIdentity_new _ _) as [identity|] eqn:Hid; [|done].
  assert (identity = mkRateIdentity (or_ifindex ownership) (or_generation ownership)) as ->.
  { unfold RateIdentity_new in Hid. repeat case_match; congruence. }
  intros Hs. split; [done|]. destruct (wall_time_ms _) as [w [unix|]]; [|done].
  pose proof (monotonic_ns_u64 (sv_world (set_world self w))) as Hnow.
  destruct (monotonic_ns _) as [w1 now]. cbn [snd] in Hnow.
  destruct (RateHistory_new _ now) as [h|] eqn:Hh; [|done]. cbv zeta in Hs.
  destruct (checked_add _ _ _); [|done]. injection Hs as <-. constructor; cbn.
  - split; [by eapply rate_wf_new|]. apply bind_Ok in Hh as (? & _ & [= <-]). done.
  - split; [apply baseline_wf_new|done].
  - by split_and!.
  - split_and!; [apply detection_wf_new|done|done].
Qed.

(** A session as the daemon opens it after a successful attachment. *)
Definition session_started (init : service) (interface : InterfaceName) ownership (source : S) self : Prop :=
  ∃ self0, start init ownership = (self0, Ok tt) ∧
           start_incident_generation_with_source self0 interface ownership source = (self, Ok tt).

Definition rate_identity_of ownership : RateIdentity :=
  mkRateIdentity (or_ifindex ownership) (or_generation ownership).
Definition incident_identity_of (interface : InterfaceName) ownership : IncidentIdentity :=
  mkIncidentIdentity interface (or_ifindex ownership) (or_generation ownership).

Lemma session_started_ok init interface ownership source self :
  session_started init interface ownership source self →
  RateIdentity_new (or_ifindex ownership) (or_generation ownership) = Ok (rate_identity_of ownership) ∧
  session_ok (rate_identity_of ownership) (incident_identity_of interface ownership) 0 [] (self, []) ∧
  sv_incident_jobs self = [].
Proof.
  intros (self0 & Hs & Hi). destruct (start_ok _ _ _ Hs) as [Hid He]. split; [done|].
  unfold start_incident_generation_with_source in Hi.
  destruct (IncidentIdentity_new _ _ _) as [iid|] eqn:Hiid; [|done]. injection Hi as <-.
  assert (iid = incident_identity_of interface ownership) as ->.
  { unfold IncidentIdentity_new in Hiid. case_match; [done|]. by injection Hiid. }
  split; [|done]. constructor; [by apply engines_ok_incidents| |done].
  constructor; [cbn; lia|apply log_ok_new|done].
Qed.

(** The operations, the queue taken after each of them. *)
Definition drained (ops : list service_op) : list service_op := concat ((λ op, [op; TakeOp]) <$> ops).

Lemma drained_run_ok identity iid ownership ops : ∀ n log st,
  RateIdentity_new (or_ifindex ownership) (or_generation ownership) = Ok identity →
  ii_ifindex iid = or_ifindex ownership → ii_generation iid = or_generation ownership →
  n + 6 * Z.of_nat (length ops) ≤ U64_MAX → session_ok identity iid n log st →
  sv_incident_jobs st.1 = [] → complete log st →
  ∃ st' log', service_run ownership st (drained ops) = Some st' ∧
    session_ok identity iid (n + 6 * Z.of_nat (length ops)) log' st' ∧ st'.2 = log' ∧
    sv_incident_jobs st'.1 = [].
Proof.
  induction ops as [|op ops IH]; intros n log st Hid Hif Hgen Hn Hok Hnil Hc; cbn [drained fmap list_fmap concat].
  { exists st, log. split_and!; [done| |unfold complete in Hc; by rewrite Hnil, app_nil_r in Hc|done].
    by replace (n + 6 * Z.of_nat (length (@nil service_op))) with n by (cbn; lia). }
  cbn [length] in Hn. change (concat _) with (drained ops). cbn [app service_run].
  destruct (service_step_ok identity iid n log st op ownership) as (st1 & log1 & -> & Hok1 & Hm1); [done..|lia|done|].
  cbn [mbind option_bind service_run].
  specialize (Hm1 Hc Hnil). destruct st1 as [self1 delivered1].
  pose proof (session_take _ _ _ _ _ _ (session_ok_mono _ _ (n + 3) (n + 6) _ _ ltac:(lia) Hok1)) as Hok3.
  destruct (IH (n + 6) log1 _ Hid Hif Hgen ltac:(lia) Hok3) as (st' & log' & Hrun & Hok' & Hdel & Hj');
    [done|unfold complete in *; cbn in *; by rewrite app_nil_r|].
  exists st', log'. split_and!; [done| |done|done].
  cbn [length]. by replace (n + 6 * Z.of_nat (Datatypes.S (length ops))) with (n + 6 + 6 * Z.of_nat (length ops)) by lia.
Qed.
End incidents.

(** ** Rejected ticks *)

Lemma publish_state g : dr_state (dn_report (publish g).1) = dr_state (dn_report g).
Proof. unfold publish. case_match; unfold sync_history, sync_retained_state; by repeat case_match. Qed.

Lemma publish_unavailable_state g unix code reason reset :
  error_code_ok code = true → dn_transition_sequence g < U64_MAX →
  dr_state (dn_report (publish_unavailable g unix code reason reset).1) = DetectionUnavailable.
Proof.
  intros Hc Hseq. destruct (unavailable_window code Hc) as (w & Hwin & _ & Hv).
  rewrite (publish_unavailable_unfold g unix code reason reset w Hwin Hv Hseq).
  case_bool_decide; by rewrite publish_state.
Qed.

Section rejected.
Context {W S : Type} `{ObservationPortsTyped W} `{EventIdSource S}.
Local Notation service := (SamplingService W S).
Implicit Types (self : service) (ownership : OwnershipRecord) (n : Z).

(** Detection publishes that it has no evidence. *)
Definition fails_closed self : Prop :=
  from_option (λ g, dr_state (dn_report g) = DetectionUnavailable) False (sv_detection self).

Lemma mark_fails_closed identity n self unix code :
  engines_ok identity n self → n < U64_MAX → error_code_ok code = true → is_some (sv_detection self) = true →
  fails_closed (mark_detection_unavailable self unix code).
Proof.
  intros Hok Hn Hc. pose proof (eo_detection _ _ _ Hok) as Hd. unfold fails_closed. cbn.
  destruct (sv_detection self) as [g|]; [|done]. intros _. destruct Hd as (_ & _ & Hseq).
  apply publish_unavailable_state; [done|lia].
Qed.

Lemma clear_fails_closed identity n self ownership mono unix code :
  engines_ok identity n self → n < U64_MAX → error_code_ok code = true → is_some (sv_detection self) = true →
  RateIdentity_new (or_ifindex ownership) (or_generation ownership) = Ok identity →
  fails_closed (clear_detection_integrity self ownership mono unix code).
Proof.
  intros Hok Hn Hc Hsome Hid. pose proof (eo_detection _ _ _ Hok) as Hd. unfold fails_closed, clear_detection_integrity.
  rewrite Hid. cbn. destruct (sv_detection self) as [g|]; [|done]. cbn in *. destruct Hd as (_ & Hgi & Hseq).
  destruct (unavailable_window code Hc) as (w & _ & _ & Hv). unfold detection_clear. rewrite Hv.
  rewrite bool_decide_eq_true_2 by done. cbn [negb].
  apply publish_unavailable_state; [done|cbn; lia].
Qed.

Lemma reject_fails_closed identity n self ownership f b d now unix :
  engines_ok identity n self → n < U64_MAX → error_code_ok d = true → is_some (sv_detection self) = true →
  RateIdentity_new (or_ifindex ownership) (or_generation ownership) = Ok identity →
  (∀ h, rate_wf (f h)) → (∀ h, rh_identity (f h) = rh_identity h) →
  fails_closed (reject_integrity self ownership f b d now unix).1.
Proof.
  intros Hok Hn Hd Hs Hid Hf Hi. apply (clear_fails_closed identity n); [|done..].
  apply engines_ok_clear_baseline, engines_ok_update_history; auto.
Qed.

Lemma tick_evaluate_rejects identity n self ownership raw due now unix windows self' :
  engines_ok identity n self → n < U64_MAX → is_some (sv_detection self) = true → is_some (sv_baseline self) = true →
  RateIdentity_new (or_ifindex ownership) (or_generation ownership) = Ok identity →
  tick_evaluate self ownership raw due now unix windows = (self', Rejected) → fails_closed self'.
Proof.
  intros Hok Hn Hs Hb Hid. unfold tick_evaluate.
  destruct (bool_decide (dw_state (windows !!! 1%fin) = RateReady)).
  2: { cbn [fst snd]. destruct (if due then _ else _) as [s [|]]; done. }
  destruct (sv_baseline self) as [g|] eqn:Hg; [|done]. pose proof (eo_baseline _ _ _ Hok) as Hw. rewrite Hg in Hw.
  destruct Hw as [Hwf Hbi].
  pose proof (baseline_step_wf g (OpEvaluate (windows !!! 1%fin) unix) Hwf) as Hstep.
  pose proof (evaluate_ready_window_identity g (windows !!! 1%fin) unix Hwf) as Hident.
  cbn [baseline_step] in Hstep. destruct (evaluate_ready_window g _ unix) as [g' res]. cbn [fst] in *.
  destruct (negb (is_ok res)).
  - intros [= <-]. apply (clear_fails_closed identity n); [|done..]. destruct Hok. constructor; try done.
    cbn. split; [done|congruence].
  - destruct (if due then _ else _) as [s [|]]; done.
Qed.

Lemma tick_success_rejects identity n self ownership raw due now unix h self' :
  engines_ok identity n self → n < U64_MAX → is_u64 now → (∀ i, hook_u64 (ro_hooks raw !!! i)) →
  is_some (sv_detection self) = true → is_some (sv_baseline self) = true → sv_history self = Some h →
  RateIdentity_new (or_ifindex ownership) (or_generation ownership) = Ok identity →
  tick_success self ownership raw due now unix h = (self', Rejected) → fails_closed self'.
Proof.
  intros Hok Hn Hnow Hh Hs Hb Hhist Hid. unfold tick_success. cbv zeta.
  pose proof (eo_history _ _ _ Hok) as Hw. rewrite Hhist in Hw. destruct Hw as [Hwf Hi].
  assert (∀ h error, rate_wf h → rh_identity h = identity → fails_closed
    (reject_integrity (set_history self (Some h)) ownership (λ history, record_history_failure history now error)
       (baseline_code_for_rate_error error) DETECTION_RATE_INVALID now unix).1) as Hreject.
  { intros h' error Hwf' Hi'. apply (reject_fails_closed identity n); try done; [by apply engines_ok_history|..]; intros.
    - by apply history_failure_wf.
    - apply history_failure_identity. }
  destruct (rate_sample raw now unix) as [sample|] eqn:Hsample.
  2: { intros [= <-]. apply (reject_fails_closed identity n self); try done. intros. by apply cleared_failure_wf. }
  assert (sample_ok sample) as Hsok.
  { unfold rate_sample in Hsample. apply bind_Ok in Hsample as (i & _ & Hnew). by eapply RateSample_new_ok. }
  pose proof (rate_wf_insert h sample Hwf Hsok) as Hins. pose proof (insert_sample_identity h sample) as Hii.
  unfold record_success. destruct (insert_sample h sample) as [h' [[]|e]]; cbn [fst] in *.
  2: { intros [= <-]. apply Hreject; [done|congruence]. }
  destruct (detailed_windows h' now) as [windows|e].
  2: { intros [= <-]. apply Hreject; [done|congruence]. }
  apply (tick_evaluate_rejects identity n); try done. apply engines_ok_history; [done..|congruence].
Qed.

Lemma tick_read_rejects identity n self ownership due now self' :
  engines_ok identity n self → n < U64_MAX → is_u64 now →
  is_some (sv_detection self) = true → is_some (sv_baseline self) = true → is_some (sv_history self) = true →
  RateIdentity_new (or_ifindex ownership) (or_generation ownership) = Ok identity →
  tick_read self ownership due now = (self', Rejected) → fails_closed self'.
Proof.
  intros Hok Hn Hnow Hs Hb Hhist Hid. unfold tick_read. cbv zeta.
  pose proof (read_exact_typed (sv_world self) ownership
    (if due then BackgroundAnalysis else BackgroundSample)) as Htyped.
  destruct (read_exact _ _ _) as [w res]. destruct (wall_time_ms w) as [w' at_ms]. cbn [snd sv_history set_world] in *.
  destruct (sv_history self) as [h|] eqn:Hh; [|done].
  assert (∀ s code b d at_ms, engines_ok identity n s → error_code_ok d = true → is_some (sv_detection s) = true →
    fails_closed (reject_integrity s ownership (λ h, record_failure (clear_at h now) code) b d now at_ms).1)
    as Hreject.
  { intros. apply (reject_fails_closed identity n); try done. intros. by apply cleared_failure_wf. }
  destruct res as [raw|error].
  - destruct (_ || _).
    { intros [= <-]. by apply Hreject; [apply engines_ok_world|..]. }
    destruct (wall_time_ms _) as [w'' [t|]].
    + apply (tick_success_rejects identity n); try done; [by do 2 apply engines_ok_world|by apply Htyped].
    + intros [= <-]. by apply Hreject; [do 2 apply engines_ok_world|..].
  - destruct (is_identity_code _); intros [= <-].
    { by apply Hreject; [apply engines_ok_world|..]. }
    apply (mark_fails_closed identity n); try done. apply engines_ok_update_baseline.
    + apply engines_ok_update_history; [by apply engines_ok_world|intros; by apply rate_wf_record_failure|done].
    + intros g Hg. apply (baseline_step_wf g (OpUnavailable _ BASELINE_SOURCE_UNAVAILABLE) Hg).
    + done.
Qed.

(** The next deadline: in the future, at most one period away, on the same grid. *)
Lemma advance_deadline_ok self now deadline :
  sv_next_analysis_at_ns self = Some deadline → 0 ≤ deadline ≤ now → now + ANALYSIS_PERIOD_NS ≤ U64_MAX →
  let next := deadline + ((now - deadline) / ANALYSIS_PERIOD_NS + 1) * ANALYSIS_PERIOD_NS in
  advance_analysis_deadline self now = (set_next_analysis self (Some next), Ok tt) ∧
  now < next ≤ now + ANALYSIS_PERIOD_NS ∧ (next - deadline) mod ANALYSIS_PERIOD_NS = 0.
Proof.
  intros Hd Hle Hmax. cbv zeta. set (q := (now - deadline) / ANALYSIS_PERIOD_NS).
  assert (0 < ANALYSIS_PERIOD_NS) as Hp by (unfold ANALYSIS_PERIOD_NS; lia).
  pose proof (Z.div_mod (now - deadline) ANALYSIS_PERIOD_NS ltac:(lia)) as Hdiv. fold q in Hdiv.
  pose proof (Z.mod_pos_bound (now - deadline) ANALYSIS_PERIOD_NS Hp) as Hm.
  assert (0 ≤ q) as Hq by (apply Z.div_pos; lia).
  assert (now < deadline + (q + 1) * ANALYSIS_PERIOD_NS ≤ now + ANALYSIS_PERIOD_NS) as Hnext by nia.
  split_and!; [|lia|lia|].
  2: { replace (deadline + (q + 1) * ANALYSIS_PERIOD_NS - deadline) with ((q + 1) * ANALYSIS_PERIOD_NS) by lia.
       apply Z.mod_mul. lia. }
  assert (q + 1 ≤ U64_MAX) as Hq1 by (unfold ANALYSIS_PERIOD_NS in *; lia).
  unfold advance_analysis_deadline. rewrite Hd. cbn [mbind option_bind].
  rewrite checked_sub_ok by lia. cbn [mbind option_bind]. rewrite checked_div_ok by lia. fold q.
  cbn [mbind option_bind]. rewrite checked_add_ok by lia. cbn [mbind option_bind].
  rewrite checked_mul_ok by nia. cbn [mbind option_bind]. by rewrite checked_add_ok by lia.
Qed.

Lemma capture_detection self self' :
  capture_incident_transitions self = Some self' → sv_detection self' = sv_detection self.
Proof.
  unfold capture_incident_transitions. destruct (dn_report <$> sv_detection self); [|by intros [= <-]].
  cbv zeta. destruct (sv_incident_recorder _); [|by intros [= <-]].
  destruct (capture_loop _ _ _ _) as [[r jobs]|]; [|done]. by intros [= <-].
Qed.

(** What a request leaves alone. *)
Definition same_engines self self' : Prop :=
  sv_history self' = sv_history self ∧ sv_baseline self' = sv_baseline self ∧
  sv_fingerprint_window self' = sv_fingerprint_window self ∧ sv_detection self' = sv_detection self ∧
  sv_next_analysis_at_ns self' = sv_next_analysis_at_ns self ∧ sv_incident_jobs self' = sv_incident_jobs self ∧
  sv_latest_incident_snapshot self' = sv_latest_incident_snapshot self.

Lemma acknowledge_same_engines self : same_engines self (acknowledge_request_transitions self).
Proof. unfold acknowledge_request_transitions. by repeat case_match. Qed.

(** The snapshot of a request is of the attached generation and carries the
    evidence the engines hold. *)
Definition reports_current self (requested : InterfaceName) ownership (s : ObservationSnapshot) : Prop :=
  os_interface s = requested ∧ os_ifindex s = or_ifindex ownership ∧
  os_generation s = or_generation ownership ∧
  Some (os_baseline s) = bg_cached <$> sv_baseline self ∧
  Some (os_detection s) = dn_report <$> sv_detection self ∧
  Some (os_sampling s) = sampling_status <$> sv_history self ∧
  validate_detailed_rate_windows (os_rate_windows s) = Ok tt.

Lemma current_report_ok self requested raw unix h dw sw s sw' :
  current_report self requested raw unix h dw sw = Ok (s, sw') →
  os_interface s = requested ∧ os_ifindex s = ro_ifindex raw ∧ os_generation s = ro_generation raw ∧
  Some (os_baseline s) = bg_cached <$> sv_baseline self ∧
  Some (os_detection s) = dn_report <$> sv_detection self ∧ os_sampling s = sampling_status h ∧
  validate_detailed_rate_windows (os_rate_windows s) = Ok tt.
Proof.
  unfold current_report. intros (b & Hb%ok_or_Ok & Hr)%bind_Ok.
  apply bind_Ok in Hr as (d & Hd%ok_or_Ok & Hr). apply bind_Ok in Hr as (f & _ & Hr). cbv zeta in Hr.
  apply bind_Ok in Hr as (s0 & Hs%map_err_Ok & [= <- <-]).
  assert (os_sampling s0 = sampling_status h) as Hsm.
  { unfold ObservationSnapshot_new in Hs. repeat (case_match; [done|]). by inv_ok. }
  apply ObservationSnapshot_new_ok in Hs as (Hi & Hx & Hg & _ & _ & Hw & _ & Hv). cbn. rewrite Hw. by split_and!.
Qed.

Lemma current_snapshot_reports self requested active ownership self' s sw :
  current_snapshot self requested active ownership = (self', Ok (s, sw)) →
  requested = active ∧ same_engines self self' ∧ reports_current self requested ownership s.
Proof.
  unfold current_snapshot. case_bool_decide as Hreq; [|done]. cbn [negb].
  destruct (sv_history self) as [h|] eqn:Hh; [|done]. destruct (monotonic_ns _) as [w now].
  destruct (read_exact w ownership Request) as [w1 [raw|e]].
  2: { destruct (is_identity_code _); [|done]. by destruct (wall_time_ms _). }
  unfold current_raw. destruct (Z.eqb_spec (ro_ifindex raw) (or_ifindex ownership)) as [Hi|].
  2: { cbn. by destruct (wall_time_ms _). }
  destruct (Z.eqb_spec (ro_generation raw) (or_generation ownership)) as [Hg|].
  2: { cbn. by destruct (wall_time_ms _). }
  cbn [negb orb]. destruct (wall_time_ms _) as [w2 [unix|]]; [|done].
  destruct (RateIdentity_new _ _); [|done]. destruct (RateSample_new _ _ _ _ _) as [current|]; [|done].
  unfold current_windows. destruct (validate_current h current) as [h' [[]|e]] eqn:Hval; [|done].
  assert (h' = h) as ->.
  { unfold validate_current in Hval. repeat (case_match; [done|]). by injection Hval. }
  destruct (detailed_windows h now) as [dw|]; [|done]. destruct (status_windows h now) as [sw0|]; [|done].
  intros [= <- Hrep]. apply current_report_ok in Hrep as (H1' & H2' & H3' & H4' & H5' & H6' & H7').
  split; [done|]. split; [by rewrite <-Hh|].
  split_and!; [done|congruence|congruence|done|done|rewrite Hh; cbn; congruence|done].
Qed.
End rejected.

(** A concrete reader and clock: one tick per second, a constant rate. *)
Module SamplingExample.
Definition World : Type := Z.
Definition tick (w : Z) : Z := Z.max 0 (Z.min 1000 w).
Definition raw (w : Z) : RawObservation :=
  mkRawObservation 7 42 VlanUnknown
    [# RateExample.hook ExternalXdpIngress (100 * tick w); RateExample.hook PhysicalTcEgress (10 * tick w)]
    (Available []).

#[global] Instance ports : ObservationPorts World := {
  read_exact w _ _ := (w, Ok (raw w));
  monotonic_ns w := (w + 1, tick w * 1000000000);
  wall_time w := (w, (1000 + w) * 1000000000);
}.

Lemma tick_range w : 0 ≤ tick w ≤ 1000.
Proof. unfold tick. lia. Qed.

#[global] Instance ports_typed : ObservationPortsTyped World.
Proof.
  split.
  - intros w. cbn. pose proof (tick_range w). ulia.
  - intros w ownership purpose r [= <-] i. pose proof (tick_range w).
    inv_fin i; [apply RateExample.hook_ok; lia|intros i].
    inv_fin i; [apply RateExample.hook_ok; lia|intros i]. inv_fin i.
Qed.

Definition ownership : OwnershipRecord := mkOwnershipRecord 1 1 42 7 None [] [] 0.
Definition name : InterfaceName := IncidentExample.name.

Definition started : SamplingService World IncidentExample.Counter :=
  (start_incident_generation_with_source (start (SamplingService_new (0 : World)) ownership).1
     name ownership (0 : IncidentExample.Counter)).1.
End SamplingExample.

(** ** Properties *)

(** C3: from the start of a session, whatever the sampler and the requests do, in
    any order, on any results of the reader and the clock, nothing panics; the
    rate history, baseline, fingerprint window and detection engine stay well
    formed and about the attached generation; the incident revisions recorded so
    far form a valid log of that generation; at most 32 of them wait in the output
    queue; and those delivered and waiting are, in order, a part of that log. *)
Theorem session_invariant {W S} `{ObservationPortsTyped W} `{EventIdSource S} (source : S)
    (interface : InterfaceName) (ownership : OwnershipRecord) (init self : SamplingService W S)
    (ops : list service_op)
    (Hstart : session_started init interface ownership source self)
    (Hlen : 3 * Z.of_nat (length ops) ≤ U64_MAX) :
  ∃ self' delivered log, service_run ownership (self, []) ops = Some (self', delivered) ∧
    session_ok (rate_identity_of ownership) (incident_identity_of interface ownership)
      (3 * Z.of_nat (length ops)) log (self', delivered).
Proof.
  destruct (session_started_ok _ _ _ _ _ Hstart) as (Hid & Hok & _).
  destruct (service_run_ok (rate_identity_of ownership) (incident_identity_of interface ownership) ownership
    ops 0 [] (self, [])) as ([self' delivered] & log & Hrun & Hok'); [done..|].
  by exists self', delivered, log.
Qed.

Lemma session_invariant_witness :
  let ops := [TickOp; TickOp; ObserveOp SamplingExample.name SamplingExample.name; TakeOp; PauseOp;
              EndGenerationOp; TakeOp] in
  ∃ self' delivered log, service_run SamplingExample.ownership (SamplingExample.started, []) ops
      = Some (self', delivered) ∧
    session_ok (rate_identity_of SamplingExample.ownership)
      (incident_identity_of SamplingExample.name SamplingExample.ownership)
      (3 * Z.of_nat (length ops)) log (self', delivered).
Proof.
  apply (session_invariant (0 : IncidentExample.Counter) SamplingExample.name SamplingExample.ownership
    (SamplingService_new (0 : SamplingExample.World)) SamplingExample.started); [|done].
  eexists. split; vm_compute; reflexivity.
Defined.

(** C31: when the output queue is taken after every operation, as the daemon does,
    no revision is ever lost: what has been delivered is the whole log, in order. *)
Theorem drained_session_delivers_all {W S} `{ObservationPortsTyped W} `{EventIdSource S} (source : S)
    (interface : InterfaceName) (ownership : OwnershipRecord) (init self : SamplingService W S)
    (ops : list service_op)
    (Hstart : session_started init interface ownership source self)
    (Hlen : 6 * Z.of_nat (length ops) ≤ U64_MAX) :
  ∃ self' log, service_run ownership (self, []) (drained ops) = Some (self', log) ∧
    incidents_ok (incident_identity_of interface ownership) log self' ∧ sv_incident_jobs self' = [].
Proof.
  destruct (session_started_ok _ _ _ _ _ Hstart) as (Hid & Hok & Hnil).
  destruct (drained_run_ok (rate_identity_of ownership) (incident_identity_of interface ownership) ownership
    ops 0 [] (self, [])) as ([self' delivered] & log & Hrun & [_ Hi _] & Heq & Hj); [done..| |].
  { unfold complete. cbn. by rewrite Hnil. }
  cbn in *. subst delivered. by exists self', log.
Qed.

Lemma drained_session_delivers_all_witness :
  let ops := [TickOp; TickOp; ObserveOp SamplingExample.name SamplingExample.name; PauseOp; EndGenerationOp] in
  ∃ self' log, service_run SamplingExample.ownership (SamplingExample.started, []) (drained ops)
      = Some (self', log) ∧
    incidents_ok (incident_identity_of SamplingExample.name SamplingExample.ownership) log self' ∧
    sv_incident_jobs self' = [].
Proof.
  apply (drained_session_delivers_all (0 : IncidentExample.Counter) SamplingExample.name SamplingExample.ownership
    (SamplingService_new (0 : SamplingExample.World)) SamplingExample.started); [|done].
  eexists. split; vm_compute; reflexivity.
Defined.

(** C29: a tick that is rejected, whatever the reason (a failed or mistyped read,
    another generation, a clock or counter regression, a failed sample or
    baseline), leaves detection unavailable: no anomaly, and no normal state, is
    ever published on rejected evidence. *)
Theorem rejected_tick_fails_closed {W S} `{ObservationPortsTyped W} `{EventIdSource S}
    (identity : RateIdentity) (n deadline : Z) (ownership : OwnershipRecord) (self self' : SamplingService W S)
    (Hok : engines_ok identity n self) (Hn : n < U64_MAX)
    (Hid : RateIdentity_new (or_ifindex ownership) (or_generation ownership) = Ok identity)
    (Hpresent : is_none (sv_history self) || is_none (sv_baseline self)
                || is_none (sv_fingerprint_window self) || is_none (sv_detection self) = false)
    (Hdeadline : sv_next_analysis_at_ns self = Some deadline) (Hpos : 0 ≤ deadline)
    (Hclock : (monotonic_ns (sv_world self)).2 + ANALYSIS_PERIOD_NS ≤ U64_MAX)
    (Htick : sample_tick self ownership = Some (self', Rejected)) :
  fails_closed self'.
Proof.
  unfold sample_tick in Htick. destruct (sample_tick_inner self ownership) as [self1 outcome] eqn:Hin.
  destruct (capture_incident_transitions self1) as [self2|] eqn:Hcap; [|done].
  injection Htick as -> ->. apply capture_detection in Hcap. unfold fails_closed. rewrite Hcap.
  revert Hin. unfold sample_tick_inner. rewrite Hpresent.
  destruct (sv_history self) as [h|] eqn:Hh; [|done]. destruct (sv_baseline self) as [b|] eqn:Hb; [|done].
  destruct (sv_fingerprint_window self); [|done]. destruct (sv_detection self) as [d|] eqn:Hd; [|done].
  pose proof (monotonic_ns_u64 (sv_world self)) as Hnow. destruct (monotonic_ns _) as [w now]. cbn [snd] in *.
  cbn [sv_next_analysis_at_ns set_world]. rewrite Hdeadline. cbn [is_some_and].
  destruct (Z.leb_spec deadline now) as [Hdue|_].
  - destruct (advance_deadline_ok (set_world self w) now deadline) as [-> _]; [done|lia|done|].
    apply (tick_read_rejects identity n); try done; [|by cbn; rewrite ?Hd, ?Hb, ?Hh..].
    by apply engines_ok_next, engines_ok_world.
  - apply (tick_read_rejects identity n); try done; [|by cbn; rewrite ?Hd, ?Hb, ?Hh..].
    by apply engines_ok_world.
Qed.

(** The wall clock reads a time before the epoch. *)
Lemma rejected_tick_fails_closed_witness :
  let self := set_world SamplingExample.started (-2000 : SamplingExample.World) in
  ∃ self', sample_tick self SamplingExample.ownership = Some (self', Rejected) ∧ fails_closed self'.
Proof.
  cbv zeta. eexists. split; [vm_compute; reflexivity|].
  apply (rejected_tick_fails_closed (rate_identity_of SamplingExample.ownership) 0 10000000000
    SamplingExample.ownership (set_world SamplingExample.started (-2000 : SamplingExample.World)));
    [|vm_compute; reflexivity..|vm_compute; discriminate|vm_compute; discriminate|vm_compute; reflexivity].
  apply engines_ok_world.
  destruct (session_started_ok (SamplingService_new (0 : SamplingExample.World)) SamplingExample.name SamplingExample.ownership
    (0 : IncidentExample.Counter) SamplingExample.started) as (_ & [He _ _] & _); [|exact He].
  eexists. split; vm_compute; reflexivity.
Defined.

(** The fingerprint analysis runs on a fixed ten-second grid: a tick asks for
    the analysis exactly when the deadline has been reached, and then the new
    deadline is in the future, at most one period away, and a whole number of
    periods after the old one, however many periods were missed. *)
Lemma analysis_deadline_advances {W S} `{ObservationPorts W} `{EventIdSource S}
    (deadline : Z) (ownership : OwnershipRecord) (self : SamplingService W S)
    (Hpresent : is_none (sv_history self) || is_none (sv_baseline self)
                || is_none (sv_fingerprint_window self) || is_none (sv_detection self) = false)
    (Hdeadline : sv_next_analysis_at_ns self = Some deadline) (Hpos : 0 ≤ deadline)
    (Hclock : (monotonic_ns (sv_world self)).2 + ANALYSIS_PERIOD_NS ≤ U64_MAX) :
  let now := (monotonic_ns (sv_world self)).2 in
  let ready := set_world self (monotonic_ns (sv_world self)).1 in
  if decide (deadline ≤ now) then
    ∃ next, sample_tick_inner self ownership = tick_read (set_next_analysis ready (Some next)) ownership true now ∧
      now < next ≤ now + ANALYSIS_PERIOD_NS ∧ (next - deadline) mod ANALYSIS_PERIOD_NS = 0
  else sample_tick_inner self ownership = tick_read ready ownership false now.
Proof.
  cbv zeta. unfold sample_tick_inner. rewrite Hpresent. destruct (monotonic_ns _) as [w now]. cbn [fst snd] in *.
  cbn [sv_next_analysis_at_ns set_world]. rewrite Hdeadline. cbn [is_some_and]. case_decide as Hdue.
  - rewrite (proj2 (Z.leb_le _ _) Hdue).
    destruct (advance_deadline_ok (set_world self w) now deadline) as (-> & Hnext & Hmod); [done|lia|done|].
    by eexists.
  - by rewrite (proj2 (Z.leb_gt _ _)) by lia.
Qed.

(** Twenty-five seconds after the first deadline of ten seconds. *)
Lemma analysis_deadline_advances_witness :
  let self := set_world SamplingExample.started (35 : SamplingExample.World) in
  ∃ next, sample_tick_inner self SamplingExample.ownership
      = tick_read (set_next_analysis (set_world self (36 : SamplingExample.World)) (Some next))
          SamplingExample.ownership true 35000000000 ∧
    35000000000 < next ≤ 35000000000 + ANALYSIS_PERIOD_NS ∧
    (next - 10000000000) mod ANALYSIS_PERIOD_NS = 0.
Proof.
  cbv zeta. pose proof (analysis_deadline_advances 10000000000 SamplingExample.ownership
    (set_world SamplingExample.started (35 : SamplingExample.World))
    ltac:(vm_compute; reflexivity) ltac:(vm_compute; reflexivity) ltac:(lia) ltac:(vm_compute; discriminate)) as Hd.
  cbv zeta in Hd. rewrite decide_True in Hd by (vm_compute; discriminate). exact Hd.
Defined.

(** A request for an observation that succeeds reports the attached
    generation and exactly the baseline, detection and sampling status that the
    engines hold, with valid rate windows, and changes none of them: the history,
    baseline, fingerprint window, detection, analysis deadline and pending
    incident output are as they were. *)
Theorem observe_reports_current {W S} `{ObservationPorts W} `{EventIdSource S}
    (requested active : InterfaceName) (ownership : OwnershipRecord) (self self' : SamplingService W S)
    (snapshot : ObservationSnapshot)
    (Hobserve : observe self requested active ownership = (self', Ok snapshot)) :
  requested = active ∧ reports_current self requested ownership snapshot ∧ same_engines self self'.
Proof.
  unfold observe in Hobserve.
  destruct (current_snapshot self requested active ownership) as [self1 [[s sw]|e]] eqn:Hcur; [|done].
  injection Hobserve as <- <-. apply current_snapshot_reports in Hcur as (Hreq & Hsame & Hrep).
  split_and!; [done..|]. destruct Hsame as (?&?&?&?&?&?&?).
  destruct (acknowledge_same_engines self1) as (?&?&?&?&?&?&?). split_and!; congruence.
Qed.

Lemma observe_reports_current_witness :
  let self := set_world SamplingExample.started (3 : SamplingExample.World) in
  ∃ snapshot self', observe self SamplingExample.name SamplingExample.name SamplingExample.ownership
      = (self', Ok snapshot) ∧
    (SamplingExample.name = SamplingExample.name ∧
     reports_current self SamplingExample.name SamplingExample.ownership snapshot ∧ same_engines self self').
Proof.
  eexists _, _. split; [vm_compute; reflexivity|].
  apply (observe_reports_current SamplingExample.name SamplingExample.name SamplingExample.ownership
    (set_world SamplingExample.started (3 : SamplingExample.World))).
  vm_compute; reflexivity.
Defined.
