(* ===== verification/Reader.v ===== *)
(** The observation reader of [l2-loop-agent] ([linux/observation.rs]): it reads the
    counters of a session out of the pinned eBPF maps, after it has checked that
    hooks, journal, maps and configuration are the session's own. *)
From S2P Require Import Prelude Domain Text Packet FrameHash Fingerprint Observation Ownership Attach Tc Xdp Ebpf Maps Sampling SamplingFacts.

Definition OBS_FINGERPRINT_UNAVAILABLE : string := "OBS_FINGERPRINT_UNAVAILABLE".
Definition IFACE_CONFIG : string := "IFACE_CONFIG".
Definition HOOK_STATS : string := "HOOK_STATS".
Definition FINGERPRINTS : string := "FINGERPRINTS".
Definition FINGERPRINT_CAPACITY : Z := 8192.

Definition coded (code evidence : string) : PortError := CodedAdapter code evidence.

(** ** The operations of a read *)
Class ObservationIo (W : Type) : Type := {
  verify_hooks : W → OwnershipRecord → W * result PortError unit;
  fresh_map_id : W → OwnedMapPin → W * result PortError Z;
  read_config : W → OwnedMapPin → Z → W * result PortError InterfaceConfig;
  read_counter : W → OwnedMapPin → StatsKey → W * result PortError (option (list CounterValue));
  current_keys : W → OwnedMapPin → W * result PortError (list StatsKey);
  read_fingerprints : W → OwnedMapPin → ObservationReadPurpose → W * result PortError (list FingerprintEvidence);
}.

(** ** Checks *)

(** [Path::parent], as components. *)
Definition parent_components (path : string) : option (list Component) :=
  match last (components path) with
  | Some (Normal _ | CurDir | ParentDir) => Some (removelast (components path))
  | _ => None
  end.

Definition validate_journal_identity (ownership : OwnershipRecord) : result PortError unit :=
  if negb (or_schema_version ownership =? OWNERSHIP_SCHEMA_VERSION)
     || negb (or_abi_version ownership =? ABI_VERSION)
     || (or_ifindex ownership =? 0)
     || (or_generation ownership =? 0)
  then Err (coded OBS_OWNERSHIP_MISMATCH "ownership journal identity is invalid")
  else
    _ ← map_err (λ _, coded OBS_MAP_IDENTITY_MISMATCH "owned map set does not match the journal contract")
          (validate_owned_maps ownership);
    let invalid_root := coded OBS_MAP_IDENTITY_MISMATCH "owned map root is invalid" in
    root ← ok_or (first ← head (or_map_pins ownership); parent_components (mp_path first)) invalid_root;
    run_id ← ok_or (match last root with
                    | Some (Normal name) => match RunId_parse name with Ok run_id => Some run_id | Err _ => None end
                    | _ => None
                    end) invalid_root;
    expected_root ← map_err (λ _, invalid_root) (TestPinRoot_new run_id);
    if negb (bool_decide (components (pin_root_path expected_root) = root))
       || existsb (λ pin, negb (bool_decide (components (mp_path pin) = root ++ [Normal (mp_name pin)])))
            (or_map_pins ownership)
    then Err (coded OBS_MAP_IDENTITY_MISMATCH "owned map paths do not match the isolated run")
    else Ok tt.

Definition select_pin (ownership : OwnershipRecord) (required_name : string) : result PortError OwnedMapPin :=
  match List.filter (λ pin, bool_decide (mp_name pin = required_name)) (or_map_pins ownership) with
  | [] => Err (coded OBS_MAP_IDENTITY_MISMATCH "required owned map identity is missing")
  | [selected] => Ok selected
  | _ :: _ :: _ => Err (coded OBS_MAP_IDENTITY_MISMATCH "required owned map identity is duplicated")
  end.

Definition required_pins (ownership : OwnershipRecord) : result PortError (OwnedMapPin * OwnedMapPin) :=
  config ← select_pin ownership IFACE_CONFIG;
  stats ← select_pin ownership HOOK_STATS;
  Ok (config, stats).

Definition validate_config (config : InterfaceConfig) (ownership : OwnershipRecord)
    : result PortError VlanVisibility :=
  if negb (ic_interface_generation config =? or_generation ownership)
     || negb (ic_logical_ifindex config =? or_ifindex ownership)
  then Err (coded OBS_OWNERSHIP_MISMATCH "interface configuration identity changed")
  else if negb (ic_mode config =? agent_mode.OBSERVE)
          || negb (ic_role config =? hook_role.EXTERNAL_XDP_INGRESS)
  then Err (coded OBS_MAP_UNAVAILABLE "interface configuration is not observable")
  else if ic_vlan_visibility config =? vlan_visibility.UNKNOWN then Ok VlanUnknown
  else if ic_vlan_visibility config =? vlan_visibility.VERIFIED_VISIBLE then Ok VerifiedVisible
  else Err (coded OBS_MAP_UNAVAILABLE "interface VLAN visibility is invalid").

Definition approved_keys (ownership : OwnershipRecord) : list StatsKey :=
  flat_map (λ role, vec_to_list (observation_keys (or_generation ownership) (or_ifindex ownership) role))
    [hook_role.EXTERNAL_XDP_INGRESS; hook_role.PHYSICAL_TC_EGRESS].

Definition validate_current_keys (current : list StatsKey) (ownership : OwnershipRecord) : result PortError unit :=
  if existsb (λ key, (sk_interface_generation key =? or_generation ownership)
                     && negb (bool_decide (key ∈ approved_keys ownership))) current
  then Err (coded OBS_MAP_UNAVAILABLE "statistics map contains an unsupported current-generation key")
  else Ok tt.

(** ** The reader *)
Section reader.
Context {W : Type} `{ObservationIo W}.
Implicit Types (w : W).

(** A check between the calls. *)
Definition checked {A} w (m : result PortError A) : W * result PortError A := (w, m).

Definition add_counter (total : ObservationCounters) (value : CounterValue) : result PortError ObservationCounters :=
  map_err (λ _, coded OBS_SNAPSHOT_FAILED "counter aggregation overflow")
    (ObservationCounters_checked_add total (mkObservationCounters (cv_packets value) (cv_bytes value))).

Definition read_aggregate w (stats_pin : OwnedMapPin) (key : StatsKey) : W * result PortError ObservationCounters :=
  let* (w, values) := read_counter w stats_pin key in
  (w, try_fold add_counter (mkObservationCounters 0 0) (default [] values)).

Definition read_class w (stats_pin : OwnedMapPin) (key : StatsKey) (traffic_class : TrafficClass)
    : W * result PortError ClassObservation :=
  let* (w, counters) := read_aggregate w stats_pin key in
  (w, Ok (mkClassObservation traffic_class counters)).

Definition read_hook w (stats_pin : OwnedMapPin) (ownership : OwnershipRecord) (raw_role : Z) (role : HookRole)
    : W * result PortError HookObservation :=
  let keys := observation_keys (or_generation ownership) (or_ifindex ownership) raw_role in
  let* (w, total) := read_aggregate w stats_pin (keys !!! 0%fin) in
  let* (w, c1) := read_class w stats_pin (keys !!! 1%fin) L2Broadcast in
  let* (w, c2) := read_class w stats_pin (keys !!! 2%fin) Ipv4Multicast in
  let* (w, c3) := read_class w stats_pin (keys !!! 3%fin) Ipv6Multicast in
  let* (w, c4) := read_class w stats_pin (keys !!! 4%fin) OtherL2Multicast in
  let* (w, c5) := read_class w stats_pin (keys !!! 5%fin) LinkLocalControl in
  let* (w, c6) := read_class w stats_pin (keys !!! 6%fin) UnicastOrUnclassified in
  let* (w, parse_errors) := read_aggregate w stats_pin (keys !!! 7%fin) in
  (w, Ok (mkHookObservation role total [# c1; c2; c3; c4; c5; c6] parse_errors)).

(** The fingerprint map is identified only for a read that is to return it. *)
Definition identify_fingerprints w (ownership : OwnershipRecord) (purpose : ObservationReadPurpose)
    : W * result PortError (option OwnedMapPin) :=
  match purpose with
  | BackgroundSample => (w, Ok None)
  | Request | BackgroundAnalysis =>
      let* (w, pin) := checked w (select_pin ownership FINGERPRINTS) in
      let* (w, map_id) := or_error (fresh_map_id w pin)
                            (coded OBS_MAP_IDENTITY_MISMATCH "owned fingerprint map identity is unavailable") in
      (w, if negb (map_id =? mp_map_id pin)
          then Err (coded OBS_MAP_IDENTITY_MISMATCH "owned fingerprint map identity changed") else Ok (Some pin))
  end.

Definition raw_fingerprints w (fingerprint_pin : option OwnedMapPin) (purpose : ObservationReadPurpose)
    : W * RawFingerprints :=
  match fingerprint_pin with
  | None => (w, NotRequested)
  | Some pin =>
      match read_fingerprints w pin purpose with
      | (w, Ok evidence) =>
          (w, if Z.of_nat (length evidence) <=? FINGERPRINT_CAPACITY then Available evidence
              else RawUnavailable OBS_FINGERPRINT_UNAVAILABLE)
      | (w, Err _) => (w, RawUnavailable OBS_FINGERPRINT_UNAVAILABLE)
      end
  end.

Definition reader_read_exact w (ownership : OwnershipRecord) (purpose : ObservationReadPurpose)
    : W * result PortError RawObservation :=
  let* (w, _) := verify_hooks w ownership in
  let* (w, _) := checked w (validate_journal_identity ownership) in
  let* (w, pins) := checked w (required_pins ownership) in
  let '(config_pin, stats_pin) := pins in
  let* (w, config_id) := fresh_map_id w config_pin in
  let* (w, stats_id) := fresh_map_id w stats_pin in
  let* (w, _) := checked w (if negb (config_id =? mp_map_id config_pin) || negb (stats_id =? mp_map_id stats_pin)
                            then Err (coded OBS_MAP_IDENTITY_MISMATCH "owned map identity changed") else Ok tt) in
  let* (w, fingerprint_pin) := identify_fingerprints w ownership purpose in
  let* (w, config) := read_config w config_pin (or_ifindex ownership) in
  let* (w, vlan) := checked w (validate_config config ownership) in
  let* (w, keys) := current_keys w stats_pin in
  let* (w, _) := checked w (validate_current_keys keys ownership) in
  let '(w, fingerprints) := raw_fingerprints w fingerprint_pin purpose in
  let* (w, ingress) := read_hook w stats_pin ownership hook_role.EXTERNAL_XDP_INGRESS ExternalXdpIngress in
  let* (w, egress) := read_hook w stats_pin ownership hook_role.PHYSICAL_TC_EGRESS PhysicalTcEgress in
  (w, Ok (mkRawObservation (or_ifindex ownership) (or_generation ownership) vlan [# ingress; egress] fingerprints)).
End reader.

(** ** The maps behind the pins

    The library opens a pinned map by its path, converts it to its type and reads it;
    iteration ends with the first error. *)
Class PinnedMaps (W : Type) : Type := {
  map_info_from_pin : W → string → W * result string Z;
  map_data_from_pin : W → string → W * result string unit;
  map_from_map_data : W → string → result string unit;
  as_config_map : W → string → result string unit;
  as_stats_map : W → string → result string unit;
  as_fingerprint_map : W → string → result string unit;
  pinned_config_get : W → string → Z → W * result MapError InterfaceConfig;
  pinned_stats_get : W → string → StatsKey → W * result MapError (list CounterValue);
  pinned_stats_keys : W → string → W * list (result MapError StatsKey);
  pinned_fingerprints : W → string → W * list (result MapError (FingerprintKey * FingerprintValue));
}.

(** [collect] into a [Result]. *)
Definition collect {A} (error : PortError) (items : list (result MapError A)) : result PortError (list A) :=
  try_fold (λ collected item, item ← map_err (λ _, error) item; Ok (collected ++ [item])) [] items.

Section aya.
Context {W : Type} `{TcIo W} `{XdpIo W} `{PinnedMaps W}.
Implicit Types (w : W).

Definition unavailable (evidence : string) : PortError := coded OBS_MAP_UNAVAILABLE evidence.
Definition mismatch (evidence : string) : PortError := coded OBS_OWNERSHIP_MISMATCH evidence.

Definition aya_verify_hooks w (ownership : OwnershipRecord) : W * result PortError unit :=
  let* (w, xdp) := checked w (ok_or (or_xdp ownership) (mismatch "owned XDP hook identity is missing")) in
  let* (w, tc) := checked w (match or_tc ownership with
                             | [tc] => Ok tc
                             | _ => Err (mismatch "owned TC hook identity is invalid")
                             end) in
  let* (w, _) := checked w (if negb (ox_ifindex xdp =? or_ifindex ownership)
                               || negb (ot_ifindex tc =? or_ifindex ownership)
                               || negb (bool_decide (ot_hook tc = TcEgressHook))
                            then Err (mismatch "owned hook identity does not match the journal") else Ok tt) in
  let* (w, xdp_inventory) := or_error (xdp_query w (or_ifindex ownership)) (mismatch "XDP hook identity is unavailable") in
  let* (w, _) := checked w (if negb (bool_decide (xdp_classify_inventory xdp_inventory (Some xdp) = XdpOwned))
                            then Err (mismatch "XDP hook identity changed") else Ok tt) in
  let* (w, tc_inventory) := or_error (tc_query w (or_ifindex ownership)) (mismatch "TC hook identity is unavailable") in
  (w, if negb (bool_decide (tc_classify_inventory tc_inventory TcEgressHook (Some tc) = TcOwned))
      then Err (mismatch "TC hook identity changed") else Ok tt).

Definition aya_fresh_map_id w (pin : OwnedMapPin) : W * result PortError Z :=
  or_error (map_info_from_pin w (mp_path pin)) (unavailable "owned map identity is unavailable").

Definition open_map w (pin : OwnedMapPin) : W * result PortError unit :=
  let* (w, _) := or_error (map_data_from_pin w (mp_path pin)) (unavailable "owned map is unavailable") in
  (w, map_err (λ _, unavailable "owned map type is invalid") (map_from_map_data w (mp_path pin))).

Definition aya_read_config w (pin : OwnedMapPin) (ifindex : Z) : W * result PortError InterfaceConfig :=
  let* (w, _) := open_map w pin in
  let* (w, _) := checked w (map_err (λ _, unavailable "interface configuration map is invalid")
                              (as_config_map w (mp_path pin))) in
  or_error (pinned_config_get w (mp_path pin) ifindex) (unavailable "interface configuration entry is unavailable").

Definition aya_read_counter w (pin : OwnedMapPin) (key : StatsKey) : W * result PortError (option (list CounterValue)) :=
  let* (w, _) := open_map w pin in
  let* (w, _) := checked w (map_err (λ _, unavailable "statistics map is invalid") (as_stats_map w (mp_path pin))) in
  match pinned_stats_get w (mp_path pin) key with
  | (w, Ok values) => (w, Ok (Some values))
  | (w, Err KeyNotFound) => (w, Ok None)
  | (w, Err (MapFailure _)) => (w, Err (unavailable "statistics counter is unavailable"))
  end.

Definition aya_current_keys w (pin : OwnedMapPin) : W * result PortError (list StatsKey) :=
  let* (w, _) := open_map w pin in
  let* (w, _) := checked w (map_err (λ _, unavailable "statistics map is invalid") (as_stats_map w (mp_path pin))) in
  let '(w, keys) := pinned_stats_keys w (mp_path pin) in
  (w, collect (unavailable "statistics keys are unavailable") keys).

Definition aya_read_fingerprints w (pin : OwnedMapPin) (_ : ObservationReadPurpose)
    : W * result PortError (list FingerprintEvidence) :=
  let* (w, _) := open_map w pin in
  let* (w, _) := checked w (map_err (λ _, coded OBS_FINGERPRINT_UNAVAILABLE "fingerprint map is invalid")
                              (as_fingerprint_map w (mp_path pin))) in
  let '(w, entries) := pinned_fingerprints w (mp_path pin) in
  (w, entries ← collect (coded OBS_FINGERPRINT_UNAVAILABLE "fingerprint evidence is unavailable")
                  (take (Z.to_nat FINGERPRINT_CAPACITY) entries);
      Ok (map (λ entry, mkFingerprintEvidence entry.1 entry.2) entries)).

Definition AyaObservationIo : ObservationIo W := {|
  verify_hooks := aya_verify_hooks;
  fresh_map_id := aya_fresh_map_id;
  read_config := aya_read_config;
  read_counter := aya_read_counter;
  current_keys := aya_current_keys;
  read_fingerprints := aya_read_fingerprints;
|}.
End aya.

(** ** What a reading shows *)

(** The invariants of the reader's arithmetic: sums of counters, each exact. *)
Lemma add_counters_sum values total total' :
  try_fold add_counter total values = Ok total' →
  oc_packets total' = oc_packets total + sum_of cv_packets values ∧
  oc_bytes total' = oc_bytes total + sum_of cv_bytes values.
Proof.
  revert total. induction values as [|value values IH]; intros total; cbn [try_fold].
  { intros [= <-]. rewrite !Z.add_0_r. done. }
  intros (next & Hnext%map_err_Ok & Hrest)%bind_Ok. apply IH in Hrest as [-> ->].
  apply counters_checked_add_exact in Hnext as (-> & _ & _). rewrite !sum_of_cons. cbn [oc_packets oc_bytes]. split; lia.
Qed.

Lemma add_counters_bound values total total' :
  counters_u64 total → Forall (λ c, 0 ≤ cv_packets c ∧ 0 ≤ cv_bytes c) values →
  try_fold add_counter total values = Ok total' → counters_u64 total'.
Proof.
  intros Ht Hpos. revert total Ht. induction Hpos as [|value values [Hp Hb] _ IH]; intros total Ht; cbn [try_fold].
  { by intros [= <-]. }
  intros (next & Hnext%map_err_Ok & Hrest)%bind_Ok. apply IH in Hrest; [done|].
  apply counters_checked_add_exact in Hnext as (-> & ? & ?). destruct Ht. split; cbn in *; ulia.
Qed.

(** Counters that do not fit are refused, never wrapped. *)
Lemma add_counters_total values total :
  Forall (λ c, 0 ≤ cv_packets c ∧ 0 ≤ cv_bytes c) values →
  oc_packets total + sum_of cv_packets values ≤ U64_MAX → oc_bytes total + sum_of cv_bytes values ≤ U64_MAX →
  is_ok (try_fold add_counter total values) = true.
Proof.
  intros Hpos. revert total. induction Hpos as [|value values [Hp Hb] Hpos IH]; intros total; cbn [try_fold]; [done|].
  rewrite !sum_of_cons. intros Hsp Hsb.
  assert (0 ≤ sum_of cv_packets values ∧ 0 ≤ sum_of cv_bytes values) as [Hnp Hnb].
  { split; apply sum_of_nonneg; intros c Hc; rewrite Forall_forall in Hpos; by apply Hpos. }
  assert (add_counter total value = Ok (mkObservationCounters (oc_packets total + cv_packets value)
                                          (oc_bytes total + cv_bytes value))) as ->.
  { unfold add_counter, ObservationCounters_checked_add. cbn [oc_packets oc_bytes].
    by rewrite !checked_add_ok by lia. }
  cbn [mbind result_bind]. apply IH; cbn; lia.
Qed.

(** ** A read under traffic *)

(** Time passes: packets arrive, the maps are changed by nothing else. *)
Definition passes {W} `{KernelWorld W} (w w' : W) : Prop := calls w w' (λ km km', km' = km).

(** A fingerprint that was in its map at some moment between [w] and [w']. *)
Definition fingerprint_shown {W} `{KernelWorld W} (w w' : W) (key : FingerprintKey) (value : FingerprintValue) : Prop :=
  ∃ wm, passes w wm ∧ passes wm w' ∧ km_fingerprints (kernel_maps wm) !! key = Some value.

(** The identifiers of the maps of the programs, and what the operations of a read
    see of them; [pinned_id] is the map at the path of a pin. *)
Class ObservationIoSpec (W : Type) `{ObservationIo W} `{KernelWorld W} : Type := {
  config_map_id : Z;
  stats_map_id : Z;
  fingerprint_map_id : Z;
  pinned_id : OwnedMapPin → Z;
  verify_hooks_calls w ownership : passes w (verify_hooks w ownership).1;
  fresh_map_id_calls w pin : passes w (fresh_map_id w pin).1;
  fresh_map_id_pinned w pin id : (fresh_map_id w pin).2 = Ok id → id = pinned_id pin;
  read_config_calls w pin ifindex :
    calls w (read_config w pin ifindex).1 (λ km km', km' = km ∧
      ∀ config, pinned_id pin = config_map_id → (read_config w pin ifindex).2 = Ok config →
        km_config km !! ifindex = Some config);
  read_counter_calls w pin key :
    calls w (read_counter w pin key).1 (λ km km', km' = km ∧
      ∀ values, pinned_id pin = stats_map_id → (read_counter w pin key).2 = Ok values → km_stats km !! key = values);
  current_keys_calls w pin :
    calls w (current_keys w pin).1 (λ km km', km' = km ∧
      ∀ keys, pinned_id pin = stats_map_id → (current_keys w pin).2 = Ok keys →
        ∀ key, key ∈ keys ↔ is_Some (km_stats km !! key));
  read_fingerprints_calls w pin purpose : passes w (read_fingerprints w pin purpose).1;
  read_fingerprints_shown w pin purpose evidence :
    pinned_id pin = fingerprint_map_id → (read_fingerprints w pin purpose).2 = Ok evidence →
    Forall (λ e, fingerprint_shown w (read_fingerprints w pin purpose).1 (fe_key e) (fe_value e)) evidence;
}.

Section passing.
Context {W : Type} `{KernelWorld W}.
Implicit Types (w : W).

Lemma passes_refl w : passes w w.
Proof. exists []. by rewrite app_nil_r. Qed.

Lemma calls_after_passes w w1 w2 (effect : KernelMaps → KernelMaps → Prop) :
  passes w w1 → calls w1 w2 effect → calls w w2 effect.
Proof.
  intros (runs1 & Ht1 & Hkm) (runs2 & Ht2 & Heffect). exists (runs1 ++ runs2).
  split; [by rewrite Ht2, Ht1, app_assoc|]. rewrite after_app. by rewrite Hkm in Heffect.
Qed.

Lemma passes_trans w w1 w2 : passes w w1 → passes w1 w2 → passes w w2.
Proof. apply calls_after_passes. Qed.

Lemma calls_weaken w w' (effect effect' : KernelMaps → KernelMaps → Prop) :
  (∀ km km', effect km km' → effect' km km') → calls w w' effect → calls w w' effect'.
Proof. intros Hw (runs & Ht & He). exists runs. split; [done|]. by apply Hw. Qed.
End passing.

Create HintDb passing discriminated.
#[export] Hint Resolve passes_refl passes_trans : passing.

Section reading.
Context {W : Type} `{ObservationIoSpec W}.
Implicit Types (w : W).

(** A counter that was read at some moment between [w] and [w']. *)
Definition observed w w' (key : StatsKey) (c : ObservationCounters) : Prop :=
  ∃ wm, passes w wm ∧ passes wm w' ∧
    let values := default [] (km_stats (kernel_maps wm) !! key) in
    oc_packets c = sum_of cv_packets values ∧ oc_bytes c = sum_of cv_bytes values.

Lemma current_keys_passes w pin : passes w (current_keys w pin).1.
Proof. eapply calls_weaken; [|apply current_keys_calls]. by intros km km' [-> _]. Qed.

Lemma fingerprint_shown_widen w w1 w2 w' key value :
  passes w w1 → passes w2 w' → fingerprint_shown w1 w2 key value → fingerprint_shown w w' key value.
Proof. intros H1' H2' (wm & Hw & Hw' & Hc). exists wm. split_and!; eauto with passing. Qed.

Lemma observed_widen w w1 w2 w' key c : passes w w1 → passes w2 w' → observed w1 w2 key c → observed w w' key c.
Proof. intros H1' H2' (wm & Hw & Hw' & Hc). exists wm. split_and!; eauto with passing. Qed.

Lemma read_aggregate_observed w pin key w' c :
  read_aggregate w pin key = (w', Ok c) → passes w w' ∧ (pinned_id pin = stats_map_id → observed w w' key c).
Proof.
  unfold read_aggregate. intros (w1 & values & Hread & Hsum)%and_then_Ok. injection Hsum as <- Hsum.
  pose proof (read_counter_calls w pin key) as Hcalls. rewrite Hread in Hcalls. cbn [fst snd] in Hcalls.
  assert (passes w w1) as Hpass by (eapply calls_weaken; [|exact Hcalls]; by intros km km' [-> _]).
  split; [done|]. intros Hpin. exists w1. split; [done|]. split; [apply passes_refl|].
  apply add_counters_sum in Hsum as [-> ->]. destruct Hcalls as (runs & _ & Hkm & Hvalues).
  rewrite Hkm. rewrite (Hvalues values Hpin eq_refl). cbn. by destruct values.
Qed.

Lemma read_class_observed w pin key class w' c :
  read_class w pin key class = (w', Ok c) →
  co_traffic_class c = class ∧ passes w w' ∧ (pinned_id pin = stats_map_id → observed w w' key (co_counters c)).
Proof.
  unfold read_class. intros (w1 & counters & Hread & Hc)%and_then_Ok. injection Hc as <- <-.
  by apply read_aggregate_observed in Hread.
Qed.

(** The counters of a hook, in the order of its keys. *)
Definition hook_counters (hook : HookObservation) : list ObservationCounters :=
  ho_total hook :: map co_counters (vec_to_list (ho_classes hook)) ++ [ho_parse_errors hook].

Definition hook_keys (ownership : OwnershipRecord) (raw_role : Z) : list StatsKey :=
  vec_to_list (observation_keys (or_generation ownership) (or_ifindex ownership) raw_role).

Lemma read_hook_observed w pin ownership raw_role role w' hook :
  read_hook w pin ownership raw_role role = (w', Ok hook) →
  ho_role hook = role ∧ classes_ordered co_traffic_class (ho_classes hook) = true ∧ passes w w' ∧
  (pinned_id pin = stats_map_id →
   Forall2 (observed w w') (hook_keys ownership raw_role) (hook_counters hook)).
Proof.
  unfold read_hook. intros (w0 & total & Ht & Hr)%and_then_Ok. apply read_aggregate_observed in Ht as [Hp0 Ht].
  apply and_then_Ok in Hr as (w1 & c1 & H1' & Hr). apply read_class_observed in H1' as (Hr1 & Hp1 & Hc1).
  apply and_then_Ok in Hr as (w2 & c2 & H2' & Hr). apply read_class_observed in H2' as (Hr2 & Hp2 & Hc2).
  apply and_then_Ok in Hr as (w3 & c3 & H3' & Hr). apply read_class_observed in H3' as (Hr3 & Hp3 & Hc3).
  apply and_then_Ok in Hr as (w4 & c4 & H4' & Hr). apply read_class_observed in H4' as (Hr4 & Hp4 & Hc4).
  apply and_then_Ok in Hr as (w5 & c5 & H5' & Hr). apply read_class_observed in H5' as (Hr5 & Hp5 & Hc5).
  apply and_then_Ok in Hr as (w6 & c6 & H6' & Hr). apply read_class_observed in H6' as (Hr6 & Hp6 & Hc6).
  apply and_then_Ok in Hr as (w7 & parse_errors & H7' & Hr). apply read_aggregate_observed in H7' as [Hp7 Hc7].
  injection Hr as <- <-. split; [done|]. split.
  { apply classes_ordered_true. cbn. by rewrite Hr1, Hr2, Hr3, Hr4, Hr5, Hr6. }
  assert (passes w6 w7) as Hq6 by done. assert (passes w5 w7) as Hq5 by eauto with passing.
  assert (passes w4 w7) as Hq4 by eauto with passing. assert (passes w3 w7) as Hq3 by eauto with passing.
  assert (passes w2 w7) as Hq2 by eauto with passing. assert (passes w1 w7) as Hq1 by eauto with passing.
  assert (passes w0 w7) as Hq0 by eauto with passing. split; [by eauto with passing|]. intros Hpin.
  assert (passes w w1) as Hs1 by eauto with passing. assert (passes w w2) as Hs2 by eauto with passing.
  assert (passes w w3) as Hs3 by eauto with passing. assert (passes w w4) as Hs4 by eauto with passing.
  assert (passes w w5) as Hs5 by eauto with passing. assert (passes w w6) as Hs6 by eauto with passing.
  cbn. repeat (apply Forall2_cons; split); [..|by apply Forall2_nil];
    (eapply observed_widen; [..|match goal with Hc : _ → observed _ _ ?k ?c |- observed _ _ ?k ?c => exact (Hc Hpin) end]);
    first [done|apply passes_refl].
Qed.
End reading.

(** ** What a successful read has checked *)
Section admitted.
Context {W : Type} `{ObservationIoSpec W}.
Implicit Types (w : W).

(** The pin of a name is the only one, and the map at its path is the one it records. *)
Definition pin_current (ownership : OwnershipRecord) (name : string) (pin : OwnedMapPin) : Prop :=
  select_pin ownership name = Ok pin ∧ pinned_id pin = mp_map_id pin.

Definition fingerprints_from w w' (pin : OwnedMapPin) (fingerprints : RawFingerprints) : Prop :=
  match fingerprints with
  | NotRequested => False
  | Available evidence =>
      Z.of_nat (length evidence) ≤ FINGERPRINT_CAPACITY ∧
      (pinned_id pin = fingerprint_map_id → Forall (λ e, fingerprint_shown w w' (fe_key e) (fe_value e)) evidence)
  | RawUnavailable code => code = OBS_FINGERPRINT_UNAVAILABLE
  end.

Definition fingerprints_admitted w w' (ownership : OwnershipRecord) (purpose : ObservationReadPurpose)
    (fingerprints : RawFingerprints) : Prop :=
  match purpose with
  | BackgroundSample => fingerprints = NotRequested
  | Request | BackgroundAnalysis =>
      ∃ pin, pin_current ownership FINGERPRINTS pin ∧ fingerprints_from w w' pin fingerprints
  end.

Record admitted w w' (ownership : OwnershipRecord) (purpose : ObservationReadPurpose) (raw : RawObservation) : Prop := {
  ad_hooks_verified : (verify_hooks w ownership).2 = Ok tt;
  ad_journal : validate_journal_identity ownership = Ok tt;
  ad_passes : passes w w';
  ad_identity : ro_ifindex raw = or_ifindex ownership ∧ ro_generation raw = or_generation ownership;
  ad_config : ∃ pin, pin_current ownership IFACE_CONFIG pin ∧
    (mp_map_id pin = config_map_id → ∃ wm config, passes w wm ∧ passes wm w' ∧
       km_config (kernel_maps wm) !! or_ifindex ownership = Some config ∧
       validate_config config ownership = Ok (ro_vlan_visibility raw));
  ad_keys : ∃ pin, pin_current ownership HOOK_STATS pin ∧
    (mp_map_id pin = stats_map_id → ∃ wm, passes w wm ∧ passes wm w' ∧
       ∀ key, is_Some (km_stats (kernel_maps wm) !! key) → sk_interface_generation key = or_generation ownership →
         key ∈ approved_keys ownership);
  ad_fingerprints : fingerprints_admitted w w' ownership purpose (ro_fingerprints raw);
  ad_order : hook_roles_ordered ho_role (ro_hooks raw) = true ∧
    ∀ i, classes_ordered co_traffic_class (ho_classes (ro_hooks raw !!! i)) = true;
  ad_counters : ∃ pin, pin_current ownership HOOK_STATS pin ∧
    (mp_map_id pin = stats_map_id →
     Forall2 (observed w w') (hook_keys ownership hook_role.EXTERNAL_XDP_INGRESS) (hook_counters (ro_hooks raw !!! 0%fin)) ∧
     Forall2 (observed w w') (hook_keys ownership hook_role.PHYSICAL_TC_EGRESS) (hook_counters (ro_hooks raw !!! 1%fin)));
}.

Lemma identify_fingerprints_Ok w ownership purpose w' pin :
  identify_fingerprints w ownership purpose = (w', Ok pin) →
  passes w w' ∧
  match purpose with
  | BackgroundSample => pin = None
  | Request | BackgroundAnalysis => ∃ p, pin = Some p ∧ pin_current ownership FINGERPRINTS p
  end.
Proof.
  assert (∀ purpose', match purpose' with BackgroundSample => False | _ => True end →
    identify_fingerprints w ownership purpose' = (w', Ok pin) →
    passes w w' ∧ ∃ p, pin = Some p ∧ pin_current ownership FINGERPRINTS p) as Hgeneral.
  { intros purpose' Hp. unfold identify_fingerprints.
    assert (
      (let* (w, pin) := checked w (select_pin ownership FINGERPRINTS) in
       let* (w, map_id) := or_error (fresh_map_id w pin)
         (coded OBS_MAP_IDENTITY_MISMATCH "owned fingerprint map identity is unavailable") in
       (w, if negb (map_id =? mp_map_id pin)
           then Err (coded OBS_MAP_IDENTITY_MISMATCH "owned fingerprint map identity changed") else Ok (Some pin)))
      = (w', Ok pin) → passes w w' ∧ ∃ p, pin = Some p ∧ pin_current ownership FINGERPRINTS p) as Hread.
    { intros (w1 & p & Hsel & Hr)%and_then_Ok. injection Hsel as <- Hsel.
      apply and_then_Ok in Hr as (w2 & id & Hid & Hr). unfold or_error in Hid. injection Hid as <- Hid.
      apply map_err_Ok in Hid. destruct (Z.eqb_spec id (mp_map_id p)) as [->|]; [|done]. injection Hr as <- <-.
      split; [apply fresh_map_id_calls|]. exists p. split; [done|]. split; [done|].
      symmetry. by eapply fresh_map_id_pinned. }
    destruct purpose'; [exact Hread|done|exact Hread]. }
  destruct purpose; [by apply Hgeneral| |by apply Hgeneral]. intros [= <- <-]. split; [apply passes_refl|done].
Qed.

Lemma raw_fingerprints_admitted w pin purpose :
  passes w (raw_fingerprints w pin purpose).1 ∧
  match pin with
  | None => (raw_fingerprints w pin purpose).2 = NotRequested
  | Some pin' => fingerprints_from w (raw_fingerprints w pin purpose).1 pin' (raw_fingerprints w pin purpose).2
  end.
Proof.
  destruct pin as [pin|]; cbn; [|split; [apply passes_refl|done]].
  pose proof (read_fingerprints_calls w pin purpose) as Hcalls.
  pose proof (read_fingerprints_shown w pin purpose) as Hshown.
  destruct (read_fingerprints w pin purpose) as [w1 [evidence|error]]; cbn [fst snd] in *; [|done].
  split; [done|]. destruct (Z.leb_spec (Z.of_nat (length evidence)) FINGERPRINT_CAPACITY); [|done].
  split; [lia|]. intros Hpin. by apply Hshown.
Qed.

Lemma fingerprints_from_widen w w1 w2 w' pin fingerprints :
  passes w w1 → passes w2 w' → fingerprints_from w1 w2 pin fingerprints → fingerprints_from w w' pin fingerprints.
Proof.
  intros Hw Hw'. destruct fingerprints; cbn; [done| |done]. intros [? Hall]. split; [done|]. intros Hpin.
  eapply Forall_impl; [by apply Hall|]. intros e He. by eapply fingerprint_shown_widen.
Qed.

Lemma validate_current_keys_Ok keys ownership :
  validate_current_keys keys ownership = Ok tt →
  ∀ key, key ∈ keys → sk_interface_generation key = or_generation ownership → key ∈ approved_keys ownership.
Proof.
  unfold validate_current_keys. destruct (existsb _ keys) eqn:Hx; [done|]. intros _ key Hkey Hg.
  apply existsb_false_Forall in Hx. rewrite Forall_forall in Hx. specialize (Hx key Hkey). cbn beta in Hx.
  rewrite Hg, Z.eqb_refl in Hx. cbn in Hx. by case_bool_decide.
Qed.

Lemma reader_admitted w ownership purpose w' raw :
  reader_read_exact w ownership purpose = (w', Ok raw) → admitted w w' ownership purpose raw.
Proof.
  unfold reader_read_exact. intros (w1 & [] & Hverify & Hr)%and_then_Ok.
  apply and_then_Ok in Hr as (w1' & [] & [= <- Hjournal] & Hr).
  apply and_then_Ok in Hr as (w1'' & [config_pin stats_pin] & [= <- Hpins] & Hr).
  unfold required_pins in Hpins. apply bind_Ok in Hpins as (p1 & Hp1 & Hpins). apply bind_Ok in Hpins as (p2 & Hp2 & [= -> ->]).
  apply and_then_Ok in Hr as (w2 & config_id & Hconfig_id & Hr).
  apply and_then_Ok in Hr as (w3 & stats_id & Hstats_id & Hr).
  apply and_then_Ok in Hr as (w3' & [] & [= <- Hids] & Hr).
  apply and_then_Ok in Hr as (w4 & fingerprint_pin & Hidentify & Hr).
  apply and_then_Ok in Hr as (w5 & config & Hconfig & Hr).
  apply and_then_Ok in Hr as (w5' & vlan & [= <- Hvlan] & Hr).
  apply and_then_Ok in Hr as (w6 & keys & Hkeys & Hr).
  apply and_then_Ok in Hr as (w6' & [] & [= <- Happroved] & Hr).
  pose proof (raw_fingerprints_admitted w6 fingerprint_pin purpose) as [Hp7 Hfingerprints].
  destruct (raw_fingerprints w6 fingerprint_pin purpose) as [w7 fingerprints]. cbn [fst snd] in *.
  apply and_then_Ok in Hr as (w8 & ingress & Hingress & Hr). apply and_then_Ok in Hr as (w9 & egress & Hegress & Hr).
  injection Hr as <- <-.
  destruct (_ || _) eqn:Hsame in Hids; [done|]. clear Hids.
  apply orb_false_iff in Hsame as [Hc%negb_false_iff%Z.eqb_eq Hs%negb_false_iff%Z.eqb_eq].
  pose proof (verify_hooks_calls w ownership) as Hq1. rewrite Hverify in Hq1. cbn [fst] in Hq1.
  pose proof (fresh_map_id_calls w1 config_pin) as Hq2. pose proof (fresh_map_id_pinned w1 config_pin config_id) as Hid.
  rewrite Hconfig_id in Hq2, Hid. cbn [fst snd] in Hq2, Hid. specialize (Hid eq_refl).
  pose proof (fresh_map_id_calls w2 stats_pin) as Hq3. pose proof (fresh_map_id_pinned w2 stats_pin stats_id) as Hid'.
  rewrite Hstats_id in Hq3, Hid'. cbn [fst snd] in Hq3, Hid'. specialize (Hid' eq_refl).
  apply identify_fingerprints_Ok in Hidentify as [Hq4 Hpin].
  pose proof (read_config_calls w4 config_pin (or_ifindex ownership)) as Hread. rewrite Hconfig in Hread. cbn [fst snd] in Hread.
  assert (passes w4 w5) as Hq5 by (eapply calls_weaken; [|exact Hread]; by intros km km' [-> _]).
  pose proof (current_keys_passes w5 stats_pin) as Hq6. rewrite Hkeys in Hq6. cbn [fst] in Hq6.
  pose proof (current_keys_calls w5 stats_pin) as Hshown. rewrite Hkeys in Hshown. cbn [fst snd] in Hshown.
  apply read_hook_observed in Hingress as (Hr8 & Ho8 & Hq8 & Hc8). apply read_hook_observed in Hegress as (Hr9 & Ho9 & Hq9 & Hc9).
  assert (passes w w4) as Hs4 by eauto 10 with passing. assert (passes w w5) as Hs5 by eauto with passing.
  assert (passes w w7) as Hs7 by eauto with passing. assert (passes w w8) as Hs8 by eauto with passing.
  assert (passes w8 w9) as Ht8 by done. assert (passes w5 w9) as Ht5 by eauto 10 with passing.
  assert (pin_current ownership IFACE_CONFIG config_pin) as Hcp by (split; congruence).
  assert (pin_current ownership HOOK_STATS stats_pin) as Hsp by (split; congruence).
  split; cbn [ro_ifindex ro_generation ro_vlan_visibility ro_hooks ro_fingerprints].
  - by rewrite Hverify.
  - done.
  - by eauto with passing.
  - done.
  - exists config_pin. split; [done|]. intros Hmap. exists w5, config.
    destruct Hread as (runs & _ & Hkm & Hfound). rewrite Hkm. split_and!; [done..| |done].
    apply Hfound; [|done]. destruct Hcp as [_ Hcp]. congruence.
  - exists stats_pin. split; [done|]. intros Hmap. exists w6. split_and!; [by eauto with passing..|]. intros key Hkey.
    apply (validate_current_keys_Ok _ _ Happroved). destruct Hshown as (runs & _ & Hkm & Hshown). rewrite Hkm in Hkey.
    apply (Hshown keys); [|done|done]. destruct Hsp as [_ Hsp]. congruence.
  - unfold fingerprints_admitted. destruct purpose; [destruct Hpin as (p & -> & ?)|by subst|destruct Hpin as (p & -> & ?)];
      (exists p; split; [done|]; eapply fingerprints_from_widen; [..|exact Hfingerprints]; by eauto with passing).
  - split; [unfold hook_roles_ordered; cbn; by rewrite Hr8, Hr9|].
    intros i. inv_fin i; [done|]. intros i. inv_fin i; [done|]. intros i. inv_fin i.
  - exists stats_pin. split; [done|]. intros Hmap. assert (pinned_id stats_pin = stats_map_id) as Hpinned.
    { destruct Hsp as [_ Hsp]. congruence. }
    specialize (Hc8 Hpinned). specialize (Hc9 Hpinned). split.
    + eapply Forall2_impl; [exact Hc8|]. intros key c Ho. eapply observed_widen; [exact Hs7|exact Hq9|exact Ho].
    + eapply Forall2_impl; [exact Hc9|]. intros key c Ho. eapply observed_widen; [exact Hs8|apply passes_refl|exact Ho].
Qed.
End admitted.

(** ** What the numbers of an observation are *)
Section counted.
Context {W : Type} `{ObservationIoSpec W} `{AyaMaps W}.
Context `{!AyaMapsSpec W}.
Implicit Types (w : W) (live more : list (nat * ProgramRun)).

(** A counter shows the packets of [live] and those of [more] up to some moment. *)
Definition shows (generation : Z) live more (key : StatsKey) (c : ObservationCounters) : Prop :=
  ∃ early late, more = early ++ late ∧
    oc_packets c = count_of (λ _, 1) generation (live ++ early) key ∧
    oc_bytes c = count_of run_bytes generation (live ++ early) key.

(** All counters of a hook do. *)
Definition hook_shows (ownership : OwnershipRecord) live more (raw_role : Z) (hook : HookObservation) : Prop :=
  Forall2 (shows (or_generation ownership) live more) (hook_keys ownership raw_role) (hook_counters hook).

Lemma counting_passes w w' ifindex generation live :
  counting w ifindex generation live → light (traffic w') → passes w w' →
  ∃ more, traffic w' = traffic w ++ more ∧ counting w' ifindex generation (live ++ more).
Proof. intros Hc Hlight Hp. by eapply counting_calls; [exact Hc|exact Hlight| |exact Hp]. Qed.

Lemma light_passes w w' : passes w w' → light (traffic w') → light (traffic w).
Proof.
  intros (more & Ht & _) Hl. pose proof (traffic_ok w') as Hok. rewrite Ht in Hok, Hl.
  by apply light_app in Hl as [Hl _].
Qed.

Lemma observed_shows w w' ifindex generation live more key c :
  counting w ifindex generation live → light (traffic w') → traffic w' = traffic w ++ more →
  key ∈ stats_keys ifindex generation → observed w w' key c → shows generation live more key c.
Proof.
  intros Hc Hlight Hmore Hkey (wm & Hpass & Hpass' & Hp & Hb).
  destruct (counting_passes _ _ _ _ _ Hc (light_passes _ _ Hpass' Hlight) Hpass) as (early & Hearly & [_ _ Hcounters]).
  destruct Hpass' as (late & Hlate & _). exists early, late.
  destruct (Hcounters key Hkey) as (values & Hvalues & _ & Hsp & Hsb). rewrite Hvalues in Hp, Hb.
  split; [|by rewrite Hp, Hb]. rewrite Hlate, Hearly, <-app_assoc in Hmore. by apply app_inv_head in Hmore.
Qed.

Lemma hook_keys_stats ownership raw_role key :
  raw_role = hook_role.EXTERNAL_XDP_INGRESS ∨ raw_role = hook_role.PHYSICAL_TC_EGRESS →
  key ∈ hook_keys ownership raw_role → key ∈ stats_keys (or_ifindex ownership) (or_generation ownership).
Proof. unfold stats_keys, hook_keys. rewrite elem_of_app. intros [->| ->]; auto. Qed.

Lemma observed_hook_shows w w' ownership live more raw_role hook :
  raw_role = hook_role.EXTERNAL_XDP_INGRESS ∨ raw_role = hook_role.PHYSICAL_TC_EGRESS →
  counting w (or_ifindex ownership) (or_generation ownership) live →
  light (traffic w') → traffic w' = traffic w ++ more →
  Forall2 (observed w w') (hook_keys ownership raw_role) (hook_counters hook) →
  hook_shows ownership live more raw_role hook.
Proof.
  intros Hrole Hc Hlight Hmore Hall.
  assert (∀ keys counters, Forall2 (observed w w') keys counters →
    (∀ key, key ∈ keys → key ∈ stats_keys (or_ifindex ownership) (or_generation ownership)) →
    Forall2 (shows (or_generation ownership) live more) keys counters) as Hgeneral.
  { intros keys counters. induction 1 as [|key c keys counters Ho _ IH]; intros Hin; [done|]. apply Forall2_cons. split.
    - eapply observed_shows; [exact Hc|exact Hlight|exact Hmore| |exact Ho]. apply Hin. left.
    - apply IH. intros key' Hk. apply Hin. by right. }
  apply Hgeneral; [exact Hall|]. intros key Hkey. by eapply hook_keys_stats.
Qed.

Lemma reading_counts w w' ownership purpose raw live :
  counting w (or_ifindex ownership) (or_generation ownership) live → light (traffic w') →
  (∀ pin, select_pin ownership HOOK_STATS = Ok pin → mp_map_id pin = stats_map_id) →
  admitted w w' ownership purpose raw →
  ∃ more, traffic w' = traffic w ++ more ∧
    hook_shows ownership live more hook_role.EXTERNAL_XDP_INGRESS (ro_hooks raw !!! 0%fin) ∧
    hook_shows ownership live more hook_role.PHYSICAL_TC_EGRESS (ro_hooks raw !!! 1%fin).
Proof.
  intros Hc Hlight Hpin Had. destruct (ad_passes _ _ _ _ _ Had) as (more & Hmore & _). exists more.
  destruct (ad_counters _ _ _ _ _ Had) as (pin & [Hsel _] & Hcounters).
  destruct (Hcounters (Hpin _ Hsel)) as [Hingress Hegress]. split; [done|].
  split; (eapply observed_hook_shows; [|done..]); auto.
Qed.
End counted.

(** ** From the maps to the reading *)
Section end_to_end.
Context {W : Type} `{ObservationIoSpec W} `{AyaMaps W}.
Context `{!AyaMapsSpec W}.
Implicit Types (self : AyaRuntime W) (w : W).

(** The packets a program saw in its direction of an interface, or their bytes. *)
Definition seen_at (amount : ProgramRun → Z) (ifindex raw_role : Z) (runs : list (nat * ProgramRun)) : Z :=
  sum_of (λ e, if (run_ifindex e.2 =? ifindex) && (run_role e.2 =? raw_role) then amount e.2 else 0) runs.

Lemma count_of_total amount generation ifindex raw_role runs :
  count_of amount generation runs (StatsKey_total generation ifindex raw_role)
  = seen_at amount ifindex raw_role runs.
Proof.
  unfold count_of, seen_at. induction runs as [|e runs IH]; [done|]. rewrite !sum_of_cons, IH. f_equal.
  assert (counts_as generation e.2 (StatsKey_total generation ifindex raw_role)
          = (run_ifindex e.2 =? ifindex) && (run_role e.2 =? raw_role)) as ->; [|done].
  apply eq_bool_prop_intro. rewrite !Is_true_true, andb_true_iff, !Z.eqb_eq. split.
  - by intros (_ & <- & <-)%counts_as_fields.
  - intros [<- <-]. unfold counts_as. by rewrite bool_decide_eq_true_2.
Qed.

(** The total of a hook shows every packet of its direction, up to some moment. *)
Definition total_shows (ifindex raw_role : Z) (live more : list (nat * ProgramRun)) (hook : HookObservation) : Prop :=
  ∃ early late, more = early ++ late ∧
    oc_packets (ho_total hook) = seen_at (λ _, 1) ifindex raw_role (live ++ early) ∧
    oc_bytes (ho_total hook) = seen_at run_bytes ifindex raw_role (live ++ early).

Lemma hook_shows_total ownership live more raw_role hook :
  hook_shows ownership live more raw_role hook → total_shows (or_ifindex ownership) raw_role live more hook.
Proof.
  intros [(early & late & Hmore & Hp & Hb) _]%Forall2_cons_1. exists early, late.
  by rewrite Hp, Hb, !count_of_total.
Qed.

(** C4: between the creation of the counters, the publication of the configuration
    and a reading, packets arrive at any time and on any CPU, and no other writer
    touches the maps; then the reading that succeeds shows in each counter of both
    hooks exactly the packets, and the bytes, that the programs counted under its key
    since the publication took effect, up to some moment of the reading: none is lost
    and none is counted twice.  The totals are all the packets of the direction. *)
Theorem observation_counts_all_traffic self loaded ifindex generation self1 w2 self3 w4 ownership purpose w5 raw :
  aya_initialize_dependent self loaded ifindex generation = (self1, Ok tt) →
  passes (ay_world self1) w2 →
  aya_publish_iface_config (Maps.set_world self1 w2) loaded ifindex generation = (self3, Ok tt) →
  passes (ay_world self3) w4 →
  or_ifindex ownership = ifindex → or_generation ownership = generation →
  (∀ pin, select_pin ownership HOOK_STATS = Ok pin → mp_map_id pin = stats_map_id) →
  reader_read_exact w4 ownership purpose = (w5, Ok raw) →
  light (traffic w5) →
  ∃ before since later more,
    traffic (ay_world self3) = traffic w2 ++ before ++ since ∧
    traffic w4 = traffic (ay_world self3) ++ later ∧
    traffic w5 = traffic w4 ++ more ∧
    (∀ i raw_role, (i, raw_role) ∈ [(0%fin, hook_role.EXTERNAL_XDP_INGRESS); (1%fin, hook_role.PHYSICAL_TC_EGRESS)] →
       hook_shows ownership (since ++ later) more raw_role (ro_hooks raw !!! i) ∧
       total_shows ifindex raw_role (since ++ later) more (ro_hooks raw !!! i)).
Proof.
  intros Hinit Hp12 Hpublish Hp34 Hi Hg Hpin Hread Hlight.
  apply reader_admitted in Hread as Had. pose proof (ad_passes _ _ _ _ _ Had) as Hp45.
  pose proof (light_passes _ _ Hp45 Hlight) as Hlight4. pose proof (light_passes _ _ Hp34 Hlight4) as Hlight3.
  destruct (initialize_zeroed _ _ _ _ _ Hinit) as (Hgen & Hzero & _).
  assert (generation_of (kernel_maps (ay_world self1)) ifindex ≠ Some generation →
    zeroed (ay_world (Maps.set_world self1 w2)) (stats_keys ifindex generation)) as Hz2.
  { intros Hne. rewrite Hgen in Hne. eapply zeroed_calls; [apply stats_keys_fields| |by apply Hzero| |exact Hp12].
    - by rewrite Hgen.
    - by intros km km' ->. }
  assert (generation_of (kernel_maps (ay_world self1)) ifindex = generation_of (kernel_maps w2) ifindex) as Hsame.
  { destruct Hp12 as (runs & Ht & ->). symmetry. apply generation_of_after. by eapply traffic_suffix_ok. }
  destruct (publish_counting _ _ _ _ _ Hpublish) as (before & since & Ht3 & Hcounting); [|exact Hlight3|].
  { apply Hz2. rewrite Hsame. by rewrite (publish_fresh _ _ _ _ _ Hpublish). }
  destruct (counting_passes _ _ _ _ _ Hcounting Hlight4 Hp34) as (later & Ht4 & Hcounting4).
  subst ifindex generation.
  destruct (reading_counts _ _ _ _ _ _ Hcounting4 Hlight Hpin Had) as (more & Ht5 & Hingress & Hegress).
  exists before, since, later, more. split_and!; [exact Ht3|exact Ht4|exact Ht5|].
  intros i raw_role. rewrite !elem_of_cons, elem_of_nil. intros [[= -> ->]|[[= -> ->]|[]]];
    (split; [|apply hook_shows_total]); done.
Qed.
End end_to_end.

(** ** The reader over the pinned maps

    What a path is pinned to stays the same.  The keys of the counters, which packets
    do not change, come whole; the fingerprints come one by one, each as it was in
    the map at some moment of the iteration. *)
Class PinnedMapsSpec (W : Type) `{TcIo W} `{XdpIo W} `{PinnedMaps W} `{KernelWorld W} : Type := {
  config_map_at : Z;
  stats_map_at : Z;
  fingerprint_map_at : Z;
  map_at : string → Z;
  tc_query_passes w ifindex : passes w (tc_query w ifindex).1;
  xdp_query_passes w ifindex : passes w (xdp_query w ifindex).1;
  map_info_passes w path : passes w (map_info_from_pin w path).1;
  map_info_at w path id : (map_info_from_pin w path).2 = Ok id → id = map_at path;
  map_data_passes w path : passes w (map_data_from_pin w path).1;
  pinned_config_get_calls w path ifindex :
    calls w (pinned_config_get w path ifindex).1 (λ km km', km' = km ∧
      (map_at path = config_map_at → looked_up (km_config km !! ifindex) (pinned_config_get w path ifindex).2));
  pinned_stats_get_calls w path key :
    calls w (pinned_stats_get w path key).1 (λ km km', km' = km ∧
      (map_at path = stats_map_at → looked_up (km_stats km !! key) (pinned_stats_get w path key).2));
  pinned_stats_keys_calls w path :
    calls w (pinned_stats_keys w path).1 (λ km km', km' = km ∧
      ∀ keys, map_at path = stats_map_at → (pinned_stats_keys w path).2 = map Ok keys →
        ∀ key, key ∈ keys ↔ is_Some (km_stats km !! key));
  pinned_fingerprints_passes w path : passes w (pinned_fingerprints w path).1;
  pinned_fingerprints_shown w path key value :
    map_at path = fingerprint_map_at → Ok (key, value) ∈ (pinned_fingerprints w path).2 →
    fingerprint_shown w (pinned_fingerprints w path).1 key value;
}.

Lemma collect_Ok {A} error (items : list (result MapError A)) collected :
  collect error items = Ok collected → items = map Ok collected.
Proof.
  unfold collect. assert (∀ start, try_fold (λ collected item, item ← map_err (λ _, error) item; Ok (collected ++ [item])) start items
    = Ok collected → ∃ rest, collected = start ++ rest ∧ items = map Ok rest) as Hfold; [|by intros (rest & -> & ->)%Hfold].
  induction items as [|item items IH]; intros start; cbn [try_fold].
  - intros [= ->]. exists []. by rewrite app_nil_r.
  - intros (next & Hnext & (rest & -> & ->)%IH)%bind_Ok. destruct item as [x|]; [|done]. cbn in Hnext. injection Hnext as <-.
    exists (x :: rest). by rewrite <-app_assoc.
Qed.

Section over_pins.
Context {W : Type} `{PinnedMapsSpec W}.
Implicit Types (w : W).

(** Sequences of calls, each of which lets time pass at most. *)
Lemma passes_checked {A B} w (m : result PortError A) (k : W → A → W * result PortError B) :
  (∀ a, passes w (k w a).1) → passes w (and_then (checked w m) k).1.
Proof. intros Hk. destruct m as [a|]; cbn; [apply Hk|apply passes_refl]. Qed.

Lemma passes_then {A B} w (m : W * result PortError A) (k : W → A → W * result PortError B) :
  passes w m.1 → (∀ w1 a, passes w w1 → passes w (k w1 a).1) → passes w (and_then m k).1.
Proof. intros Hm Hk. destruct m as [w1 [a|]]; cbn in *; [by apply Hk|done]. Qed.

Lemma aya_verify_hooks_passes w ownership : passes w (aya_verify_hooks w ownership).1.
Proof.
  unfold aya_verify_hooks. apply passes_checked. intros xdp. apply passes_checked. intros tc.
  apply passes_checked. intros _. apply passes_then; [apply xdp_query_passes|]. intros w1 inventory Hp.
  destruct (if negb _ then _ else _) as [u|e]; cbn [checked and_then]; [|exact Hp].
  apply passes_then; [|by intros w2 inventory'; cbn]. cbn. eapply passes_trans; [exact Hp|apply tc_query_passes].
Qed.

Lemma open_map_passes w pin : passes w (open_map w pin).1.
Proof. unfold open_map. apply passes_then; [apply map_data_passes|]. by intros w1 a; cbn. Qed.

(** The map at a pin is opened, and then read once. *)
Lemma opened_calls {A} w pin (convert : W → result PortError unit) (read : W → W * result PortError A)
    (effect : result PortError A → KernelMaps → KernelMaps → Prop) :
  (∀ error km, effect (Err error) km km) →
  (∀ w1, calls w1 (read w1).1 (effect (read w1).2)) →
  let m := and_then (open_map w pin) (λ w _, and_then (checked w (convert w)) (λ w _, read w)) in
  calls w m.1 (effect m.2).
Proof.
  intros Hsame Hread. pose proof (open_map_passes w pin) as Hopen.
  destruct (open_map w pin) as [w1 [u|e]]; cbn in *.
  - destruct (convert w1) as [u'|e]; cbn; [by eapply calls_after_passes|].
    eapply calls_weaken; [|exact Hopen]. intros km km' ->. apply Hsame.
  - eapply calls_weaken; [|exact Hopen]. intros km km' ->. apply Hsame.
Qed.

Definition unchanged {A} (_ : result PortError A) (km km' : KernelMaps) : Prop := km' = km.

(** The fingerprints of the map at a pin. *)
Lemma aya_read_fingerprints_shown w pin purpose evidence :
  map_at (mp_path pin) = fingerprint_map_at → (aya_read_fingerprints w pin purpose).2 = Ok evidence →
  Forall (λ e, fingerprint_shown w (aya_read_fingerprints w pin purpose).1 (fe_key e) (fe_value e)) evidence.
Proof.
  intros Hmap. unfold aya_read_fingerprints. pose proof (open_map_passes w pin) as Hopen.
  destruct (open_map w pin) as [w1 [u|e]]; cbn in Hopen |- *; [|done].
  destruct (as_fingerprint_map w1 (mp_path pin)) as [u'|e]; cbn; [|done].
  pose proof (pinned_fingerprints_shown w1 (mp_path pin)) as Hshown.
  destruct (pinned_fingerprints w1 (mp_path pin)) as [w2 entries]. cbn [fst snd] in *.
  intros (collected & Hc%collect_Ok & [= <-])%bind_Ok. apply Forall_fmap, Forall_forall. intros [key value] Hin.
  eapply fingerprint_shown_widen; [exact Hopen|apply passes_refl|]. apply Hshown; [done|].
  assert (Ok (key, value) ∈ take (Z.to_nat FINGERPRINT_CAPACITY) entries) as Htake by (rewrite Hc; by apply list_elem_of_fmap_2).
  apply elem_of_take in Htake as (i & Hi & _). by eapply list_elem_of_lookup_2.
Qed.

#[export] Instance AyaObservationIoSpec : @ObservationIoSpec W AyaObservationIo _.
Proof.
  refine {| config_map_id := config_map_at; stats_map_id := stats_map_at; fingerprint_map_id := fingerprint_map_at;
    pinned_id pin := map_at (mp_path pin) |}.
  - apply aya_verify_hooks_passes.
  - intros w pin. apply map_info_passes.
  - intros w pin id Hid%map_err_Ok. by eapply map_info_at.
  - intros w pin ifindex. cbn.
    refine (opened_calls w pin _ (λ w, or_error (pinned_config_get w (mp_path pin) ifindex) _)
      (λ r km km', km' = km ∧ ∀ config, map_at (mp_path pin) = config_map_at → r = Ok config →
                     km_config km !! ifindex = Some config) _ _); [done|].
    intros w1. eapply calls_weaken; [|apply pinned_config_get_calls]. intros km km' [-> Hlook]. split; [done|].
    intros config Hmap Hok%map_err_Ok. specialize (Hlook Hmap). by rewrite Hok in Hlook.
  - intros w pin key. cbn.
    refine (opened_calls w pin _ _
      (λ r km km', km' = km ∧ ∀ values, map_at (mp_path pin) = stats_map_at → r = Ok values →
                     km_stats km !! key = values) _ _); [done|].
    intros w1. pose proof (pinned_stats_get_calls w1 (mp_path pin) key) as Hget.
    destruct (pinned_stats_get w1 (mp_path pin) key) as [w2 [values|[|]]]; (eapply calls_weaken; [|exact Hget]);
      intros km km' [-> Hlook]; (split; [done|]); intros values' Hmap [= <-]; exact (Hlook Hmap).
  - intros w pin. cbn. refine (opened_calls w pin _ _
      (λ r km km', km' = km ∧ ∀ keys, map_at (mp_path pin) = stats_map_at → r = Ok keys →
                     ∀ key, key ∈ keys ↔ is_Some (km_stats km !! key)) _ _); [done|]. intros w1.
    pose proof (pinned_stats_keys_calls w1 (mp_path pin)) as Hkeys.
    destruct (pinned_stats_keys w1 (mp_path pin)) as [w2 items]. eapply calls_weaken; [|exact Hkeys].
    intros km km' [-> Hall]. split; [done|]. intros keys Hmap Hok%collect_Ok. by apply Hall.
  - intros w pin purpose. cbn. refine (opened_calls w pin _ _ unchanged _ _); [done|]. intros w1.
    pose proof (pinned_fingerprints_passes w1 (mp_path pin)) as Hp. by destruct (pinned_fingerprints w1 (mp_path pin)).
  - intros w pin purpose evidence Hmap. cbn. apply aya_read_fingerprints_shown, Hmap.
Defined.
End over_pins.

(** ** Whose session a reading is of *)
Section own_session.
Context {W : Type} `{PinnedMapsSpec W}.
Implicit Types (w : W).

(** The XDP slot of the interface that is not empty has the journal's program, and
    the filter in the reserved TC slot is the journal's. *)
Definition hooks_owned w (ownership : OwnershipRecord) : Prop :=
  ∃ xdp tc w1 xdp_inventory w2 tc_inventory mode,
    or_xdp ownership = Some xdp ∧ or_tc ownership = [tc] ∧
    ox_ifindex xdp = or_ifindex ownership ∧ ot_ifindex tc = or_ifindex ownership ∧
    xdp_query w (or_ifindex ownership) = (w1, Ok xdp_inventory) ∧
    xdp_slot xdp_inventory mode = XdpSlotAttached (xdp_identity xdp) ∧
    (∀ other, other ≠ mode → xdp_slot xdp_inventory other = XdpSlotEmpty) ∧
    tc_query w1 (or_ifindex ownership) = (w2, Ok tc_inventory) ∧
    List.filter (in_reserved TcEgressHook) (ti_filters tc_inventory) = [SlotBpf (tc_identity tc)].

Lemma aya_hooks_verified w ownership w' :
  aya_verify_hooks w ownership = (w', Ok tt) → hooks_owned w ownership.
Proof.
  unfold aya_verify_hooks. intros (w0 & xdp & [= <- Hxdp] & Hr)%and_then_Ok.
  apply and_then_Ok in Hr as (w0' & tc & [= <- Htc] & Hr). apply and_then_Ok in Hr as (w0'' & [] & [= <- Hids] & Hr).
  apply and_then_Ok in Hr as (w1 & xi & Hxi & Hr). apply and_then_Ok in Hr as (w1' & [] & [= <- Howned] & Hr).
  apply and_then_Ok in Hr as (w2 & ti & Hti & Hr). unfold or_error in Hxi, Hti.
  injection Hxi as Hw1 Hxi%map_err_Ok. injection Hti as Hw2 Hti%map_err_Ok. apply ok_or_Ok in Hxdp.
  destruct (or_tc ownership) as [|tc' [|]] eqn:Hlist; try done. injection Htc as ->.
  destruct (negb (ox_ifindex xdp =? _) || _ || _) eqn:Hx in Hids; [done|]. clear Hids.
  apply orb_false_iff in Hx as [[Hxi'%negb_false_iff%Z.eqb_eq Hti'%negb_false_iff%Z.eqb_eq]%orb_false_iff _].
  destruct (bool_decide_reflect (xdp_classify_inventory xi (Some xdp) = XdpOwned)) as [Hxowned|]; [|done].
  destruct (bool_decide_reflect (tc_classify_inventory ti TcEgressHook (Some tc) = TcOwned)) as [Htowned|]; [|done].
  pose proof (xdp_classify_spec xi (Some xdp)) as Hspec. rewrite Hxowned in Hspec.
  destruct Hspec as (record & mode & [= <-] & Hslot & Hother). apply classify_owned in Htowned as (_ & _ & Hfilter).
  exists xdp, tc, w1, xi, w2, ti, mode. split_and!; try done.
  - rewrite <-Hw1, <-Hxi. apply surjective_pairing.
  - rewrite <-Hw2, <-Hti. apply surjective_pairing.
Qed.

(** The maps of the journal lie in the directory of one run, each under its name. *)
Definition pins_of_run (ownership : OwnershipRecord) : Prop :=
  validate_owned_maps ownership = Ok tt ∧
  ∃ run_id root, TestPinRoot_new run_id = Ok root ∧
    ∀ pin, pin ∈ or_map_pins ownership →
      components (mp_path pin) = components (pin_root_path root) ++ [Normal (mp_name pin)].

Lemma journal_identity_Ok ownership :
  validate_journal_identity ownership = Ok tt →
  or_schema_version ownership = OWNERSHIP_SCHEMA_VERSION ∧ or_abi_version ownership = ABI_VERSION ∧
  or_ifindex ownership ≠ 0 ∧ or_generation ownership ≠ 0 ∧ pins_of_run ownership.
Proof.
  unfold validate_journal_identity. destruct (_ || _) eqn:Hid; [done|].
  apply orb_false_iff in Hid as [[[Hs%negb_false_iff%Z.eqb_eq Ha%negb_false_iff%Z.eqb_eq]%orb_false_iff
    Hi%Z.eqb_neq]%orb_false_iff Hg%Z.eqb_neq].
  intros ([] & Hmaps%map_err_Ok & Hr)%bind_Ok. apply bind_Ok in Hr as (root & Hroot & Hr).
  apply bind_Ok in Hr as (run_id & _ & Hr). apply bind_Ok in Hr as (expected & Hexpected%map_err_Ok & Hr).
  destruct (_ || _) eqn:Hpaths in Hr; [done|]. apply orb_false_iff in Hpaths as [Hsame%negb_false_iff%bool_decide_eq_true Hall].
  split_and!; [done..|]. split; [done|]. exists run_id, expected. split; [done|]. rewrite Hsame.
  apply existsb_false_Forall in Hall. rewrite Forall_forall in Hall. intros pin Hpin.
  specialize (Hall pin Hpin). cbn beta in Hall. by apply negb_false_iff, bool_decide_eq_true in Hall.
Qed.

Lemma validate_config_Ok config ownership vlan :
  validate_config config ownership = Ok vlan →
  ic_interface_generation config = or_generation ownership ∧ ic_logical_ifindex config = or_ifindex ownership ∧
  ic_mode config = agent_mode.OBSERVE.
Proof.
  unfold validate_config. destruct (_ || _) eqn:Hid; [done|].
  apply orb_false_iff in Hid as [Hg%negb_false_iff%Z.eqb_eq Hi%negb_false_iff%Z.eqb_eq].
  destruct (negb (ic_mode config =? _) || _) eqn:Hm; [done|].
  by apply orb_false_iff in Hm as [Hm%negb_false_iff%Z.eqb_eq _].
Qed.

(** C27: the reader of the pinned maps returns numbers only of its own session: the
    XDP slot and the reserved TC slot of the interface showed the journal's programs;
    the pins are the six of one run's directory; the maps behind the pins of the
    configuration and of the counters are the ones the journal recorded; the
    configuration that some moment of the reading showed is of the journal's
    generation and interface, in observation mode; at some moment of the reading the
    map of the counters held no counter of the generation but the sixteen, and each
    counter of the observation is what it held under its key; and fingerprints come
    only from a read that asked for them, at most 8192, each of them an entry that the
    recorded fingerprint map held at some moment of the reading. *)
Theorem reader_reads_own_session w ownership purpose w' raw :
  reader_read_exact (H := AyaObservationIo) w ownership purpose = (w', Ok raw) →
  hooks_owned w ownership ∧ pins_of_run ownership ∧
  (∃ pin, select_pin ownership IFACE_CONFIG = Ok pin ∧ map_at (mp_path pin) = mp_map_id pin ∧
     (mp_map_id pin = config_map_at → ∃ wm config, passes w wm ∧ passes wm w' ∧
        km_config (kernel_maps wm) !! or_ifindex ownership = Some config ∧
        ic_interface_generation config = or_generation ownership ∧
        ic_logical_ifindex config = or_ifindex ownership ∧ ic_mode config = agent_mode.OBSERVE)) ∧
  (∃ pin, select_pin ownership HOOK_STATS = Ok pin ∧ map_at (mp_path pin) = mp_map_id pin ∧
     (mp_map_id pin = stats_map_at →
      (∃ wm, passes w wm ∧ passes wm w' ∧
        ∀ key, is_Some (km_stats (kernel_maps wm) !! key) → sk_interface_generation key = or_generation ownership →
          key ∈ stats_keys (or_ifindex ownership) (or_generation ownership)) ∧
      Forall2 (observed w w') (hook_keys ownership hook_role.EXTERNAL_XDP_INGRESS) (hook_counters (ro_hooks raw !!! 0%fin)) ∧
      Forall2 (observed w w') (hook_keys ownership hook_role.PHYSICAL_TC_EGRESS) (hook_counters (ro_hooks raw !!! 1%fin)))) ∧
  match ro_fingerprints raw with
  | NotRequested => purpose = BackgroundSample
  | RawUnavailable code => purpose ≠ BackgroundSample ∧ code = OBS_FINGERPRINT_UNAVAILABLE
  | Available evidence => purpose ≠ BackgroundSample ∧ Z.of_nat (length evidence) ≤ FINGERPRINT_CAPACITY ∧
      ∃ pin, select_pin ownership FINGERPRINTS = Ok pin ∧ map_at (mp_path pin) = mp_map_id pin ∧
        (mp_map_id pin = fingerprint_map_at → ∀ e, e ∈ evidence → ∃ wm, passes w wm ∧ passes wm w' ∧
           km_fingerprints (kernel_maps wm) !! fe_key e = Some (fe_value e))
  end.
Proof.
  intros Hread. pose proof (reader_admitted _ _ _ _ _ Hread) as Had.
  split_and!.
  - pose proof (ad_hooks_verified _ _ _ _ _ Had) as Hv. cbn in Hv. eapply aya_hooks_verified.
    rewrite <-Hv. apply surjective_pairing.
  - by apply (ad_journal _ _ _ _ _) in Had as (_ & _ & _ & _ & ?)%journal_identity_Ok.
  - destruct (ad_config _ _ _ _ _ Had) as (pin & [Hsel Hid] & Hconfig). exists pin. split; [done|]. split; [exact Hid|].
    intros Hmap. destruct (Hconfig Hmap) as (wm & config & Hp & Hp' & Hfound & (? & ? & ?)%validate_config_Ok).
    by exists wm, config.
  - destruct (ad_keys _ _ _ _ _ Had) as (pin & [Hsel Hid] & Happroved). exists pin. split; [done|]. split; [exact Hid|].
    intros Hmap. destruct (Happroved Hmap) as (wm & Hp & Hp' & Hin). split.
    { exists wm. split_and!; [done..|]. intros key Hkey Hg. specialize (Hin key Hkey Hg).
      unfold approved_keys, stats_keys in *. cbn [flat_map] in Hin. by rewrite app_nil_r in Hin. }
    destruct (ad_counters _ _ _ _ _ Had) as (pin' & [Hsel' _] & Hcounters). rewrite Hsel in Hsel'. injection Hsel' as <-.
    exact (Hcounters Hmap).
  - pose proof (ad_fingerprints _ _ _ _ _ Had) as Hf. unfold fingerprints_admitted, fingerprints_from in Hf.
    assert (purpose = BackgroundSample ∧ ro_fingerprints raw = NotRequested ∨
      purpose ≠ BackgroundSample ∧ ∃ pin, pin_current ownership FINGERPRINTS pin ∧ fingerprints_from w w' pin (ro_fingerprints raw))
      as [[-> ->]|(Hp & pin & [Hsel Hid] & Hfrom)] by (destruct purpose; [by right|by left|by right]); [done|].
    unfold fingerprints_from in Hfrom. destruct (ro_fingerprints raw) as [|evidence|]; [done| |done].
    destruct Hfrom as [Hlen Hall]. split_and!; [done..|]. exists pin. split; [done|]. split; [exact Hid|].
    intros Hmap. rewrite <-Forall_forall. apply Hall. exact (eq_trans Hid Hmap).
Qed.
End own_session.

(** ** A session on the machine with one CPU *)
Module ReaderExample.
Import MapsExample.

Definition identity : XdpKernelIdentity := mkXdpKernelIdentity 7 XdpGeneric 30 (vreplicate 8 0) None.
Definition owned_xdp : OwnedXdp := mkOwnedXdp 7 XdpGeneric 30 (vreplicate 8 0) None.
Definition owned_tc : OwnedTc := mkOwnedTc 7 TcEgressHook TC_PRIORITY_FIRST TC_EGRESS_HANDLE 40 true.
Definition run_directory : string := "/sys/fs/bpf/l2-loop/test/0123456789abcdef0123456789abcdef".
Definition map_number (name : string) : Z :=
  11 + Z.of_nat (default 6%nat (fst <$> list_find (name =.) OWNED_MAP_NAMES)).
Definition pin_of (name : string) : OwnedMapPin := mkOwnedMapPin name (join run_directory name) (map_number name).
Definition ownership : OwnershipRecord :=
  mkOwnershipRecord OWNERSHIP_SCHEMA_VERSION ABI_VERSION 42 7 (Some owned_xdp) [owned_tc]
    (map pin_of OWNED_MAP_NAMES) 0.
Definition map_id_at (path : string) : Z := map_number (default EmptyString (file_name path)).

#[global] Instance tc : TcIo machine := {|
  tc_query w ifindex := (arrive w, Ok (mkTcInventory ClsactPresent [SlotBpf (tc_identity owned_tc)]));
  ensure_clsact_exclusive w ifindex := (w, Err TcExists);
  attach_exclusive w ifindex hook priority handle fd := (w, Err TcExists);
  detach_exact_filter w identity := (w, Err TcIdentityMismatch);
  remove_clsact_if_empty_exact w ifindex := (w, Err TcIdentityMismatch);
|}.

#[global] Instance xdp : XdpIo machine := {|
  xdp_query w ifindex := (arrive w, Ok (mkXdpInventory XdpSlotEmpty (XdpSlotAttached identity)));
  xdp_attach_no_replace w ifindex mode fd := (w, Err XdpExists);
  xdp_detach_if_matches w ifindex mode program_id := (w, Err XdpExists);
|}.

#[global] Instance pinned : PinnedMaps machine := {|
  map_info_from_pin w path := (arrive w, Ok (map_id_at path));
  map_data_from_pin w path := (arrive w, Ok tt);
  map_from_map_data _ _ := Ok tt;
  as_config_map _ _ := Ok tt;
  as_stats_map _ _ := Ok tt;
  as_fingerprint_map _ _ := Ok tt;
  pinned_config_get w path ifindex := call w (λ km, (km, get_in (km_config km) ifindex));
  pinned_stats_get w path key := call w (λ km, (km, get_in (km_stats km) key));
  pinned_stats_keys w path := let w := arrive w in (w, map Ok (map fst (map_to_list (km_stats (mc_maps w)))));
  pinned_fingerprints w path := let w := arrive w in (w, map Ok (map_to_list (km_fingerprints (mc_maps w))));
|}.

Lemma arrive_passes w : passes w (arrive w).
Proof. exists (frame_run <$> default [] (head (mc_pending w))). split; [cbn; by rewrite fmap_app|done]. Qed.

Lemma map_Ok_inj {E A} (xs ys : list A) : map (@Ok E A) xs = map Ok ys → xs = ys.
Proof.
  revert ys. induction xs as [|x xs IH]; intros [|y ys]; try done. cbn. intros [= -> Hrest]. f_equal. by apply IH.
Qed.

Lemma call_passes_now w : calls w (arrive w) (λ km km', km' = km ∧ km = mc_maps (arrive w)).
Proof. exists (frame_run <$> default [] (head (mc_pending w))). split; [cbn; by rewrite fmap_app|done]. Qed.

#[global] Instance pinned_spec : PinnedMapsSpec machine.
Proof.
  refine {| config_map_at := 11; stats_map_at := 12; fingerprint_map_at := map_number FINGERPRINTS; map_at := map_id_at |};
    try (intros; apply arrive_passes).
  - by intros w path id [= <-].
  - intros w path ifindex. apply call_calls; cbn; rewrite call_answer; intros ->; [|done].
    cbn. unfold get_in. by destruct (km_config _ !! ifindex).
  - intros w path key. apply call_calls; cbn; rewrite call_answer; intros ->; [|done].
    cbn. unfold get_in. by destruct (km_stats _ !! key).
  - intros w path. eapply calls_weaken; [|apply call_passes_now]. intros km km' [-> Hkm]. split; [done|].
    intros keys _ Hkeys key. cbn in Hkeys. apply map_Ok_inj in Hkeys. subst keys. rewrite Hkm, list_elem_of_fmap. split.
    + intros ([k v] & -> & Hin%elem_of_map_to_list). by exists v.
    + intros [v Hv]. exists (key, v). by rewrite elem_of_map_to_list.
  - intros w path key value _ Hin. exists (arrive w). split_and!; [apply arrive_passes|apply passes_refl|].
    cbn in Hin. apply list_elem_of_fmap in Hin as (? & [= <-] & Hin). by apply elem_of_map_to_list in Hin.
Defined.

(** Packets arrive before and after the publication takes effect, and while the
    counters are read. *)
Definition arrivals : list (list bool) :=
  repeat [] 17 ++ [[]; [false]; [false; false]; []; [true]] ++ repeat [] 9 ++ [[false]; []; [true]].
Definition created : AyaRuntime machine := initialized arrivals [].
Definition published : AyaRuntime machine :=
  (aya_publish_iface_config (Maps.set_world created (arrive (ay_world created))) loaded 7 42).1.

Lemma reading_Ok :
  ∃ w5 raw, reader_read_exact (H := AyaObservationIo) (arrive (ay_world published)) ownership Request = (w5, Ok raw) ∧
    oc_packets (ho_total (ro_hooks raw !!! 0%fin)) = 5 ∧ light (traffic w5).
Proof.
  eexists _, _. split; [vm_compute; reflexivity|]. split; [vm_compute; reflexivity|]. split; vm_compute; discriminate.
Qed.

Lemma created_Ok : aya_initialize_dependent (fresh arrivals []) loaded 7 42 = (created, Ok tt).
Proof. vm_compute. reflexivity. Qed.

Lemma published_Ok :
  aya_publish_iface_config (Maps.set_world created (arrive (ay_world created))) loaded 7 42 = (published, Ok tt).
Proof. vm_compute. reflexivity. Qed.

Lemma stats_pin_ok pin : select_pin ownership HOOK_STATS = Ok pin → mp_map_id pin = 12.
Proof.
  assert (select_pin ownership HOOK_STATS = Ok (pin_of HOOK_STATS)) as -> by (vm_compute; reflexivity). by intros [= <-].
Qed.
End ReaderExample.

(** Of six packets the first came before the publication took effect. *)
Lemma observation_counts_all_traffic_witness :
  ∃ w5 raw before since later more,
    traffic w5 = traffic (MapsExample.arrive (ay_world ReaderExample.created)) ++ before ++ since ++ later ++ more ∧
    total_shows 7 hook_role.EXTERNAL_XDP_INGRESS (since ++ later) more (ro_hooks raw !!! 0%fin) ∧
    oc_packets (ho_total (ro_hooks raw !!! 0%fin)) = 5.
Proof.
  destruct ReaderExample.reading_Ok as (w5 & raw & Hread & Hfive & Hlight).
  destruct (observation_counts_all_traffic (H := AyaObservationIo)
    (MapsExample.fresh ReaderExample.arrivals []) MapsExample.loaded 7 42 ReaderExample.created
    (MapsExample.arrive (ay_world ReaderExample.created)) ReaderExample.published
    (MapsExample.arrive (ay_world ReaderExample.published)) ReaderExample.ownership Request w5 raw)
    as (before & since & later & more & Ht3 & Ht4 & Ht5 & Hshows);
    [exact ReaderExample.created_Ok|apply ReaderExample.arrive_passes|exact ReaderExample.published_Ok
    |apply ReaderExample.arrive_passes|reflexivity|reflexivity|exact ReaderExample.stats_pin_ok
    |exact Hread|exact Hlight|].
  exists w5, raw, before, since, later, more. split; [by rewrite Ht5, Ht4, Ht3, <-!app_assoc|].
  split; [apply (Hshows 0%fin); left|done].
Defined.

Lemma reader_reads_own_session_witness :
  hooks_owned (MapsExample.arrive (ay_world ReaderExample.published)) ReaderExample.ownership ∧
  pins_of_run ReaderExample.ownership.
Proof.
  destruct ReaderExample.reading_Ok as (w5 & raw & Hread & _).
  destruct (reader_reads_own_session _ _ _ _ _ Hread) as (Hhooks & Hpins & _). by split.
Defined.
