(* ===== verification/Control.v ===== *)
(** The isolated control of [l2-loop-agent] ([daemon.rs]): the object behind the
    daemon's commands.  It attaches and detaches one session through the attachment
    driver, runs the sampling service on the committed ownership record of that
    session, and hands the incident jobs to the output worker.

    The driver, the ownership journal and the system clock are classes; the
    attachment transaction is one instance of the driver. *)
From S2P Require Import Prelude Domain Text Packet Observation Rate Baseline FrameHash Fingerprint FingerprintWindow DetectionSignals Detection Preflight Ownership Attach Evidence Snapshot Incident Output Sampling SamplingFacts.

Record IsolatedControlError : Type := mkIsolatedControlError { ice_code : string; ice_blocked : bool }.

Definition control_blocked (code : string) : IsolatedControlError := mkIsolatedControlError code true.
Definition control_internal (code : string) : IsolatedControlError := mkIsolatedControlError code false.

Inductive IsolatedSamplingOutcome : Type := IsolatedIdle | IsolatedSampled | IsolatedRejected.

Definition attachment_control_error (error : AttachmentError) : IsolatedControlError :=
  if String.prefix "PF_" (ae_code error) then control_blocked (ae_code error)
  else control_internal (ae_code error).

Definition observation_control_error (error : ObservationError) : IsolatedControlError :=
  control_internal (oe_code error).

(** ** Interfaces *)
Class IsolatedAttachmentDriver (D : Type) : Type := {
  driver_attach : D → InterfaceName → RunId → Z → D * result AttachmentError AttachmentSession;
  driver_detach_exact : D → AttachmentSession → D * result AttachmentError unit;
}.

#[export] Instance transaction_driver {W} `{AttachPorts W} : IsolatedAttachmentDriver (AttachmentTransaction W) := {
  driver_attach := execute;
  driver_detach_exact := detach_exact;
}.

(** [CanonicalOwnershipReader], and the system clock in nanoseconds since the
    epoch.  They read the same world that the driver changes. *)
Class ControlEnvironment (D : Type) : Type := {
  ownership_load : D → RunId → D * result PortError OwnershipRecord;
  system_time : D → D * Z;
}.

Record ActiveIsolatedSession : Type := mkActiveIsolatedSession {
  sn_run_id : RunId;
  sn_interface : InterfaceName;
  sn_attachment : AttachmentSession;
  sn_sampling_paused : bool;
}.

#[export] Instance RunId_eq_dec : EqDecision RunId.
Proof. solve_decision. Defined.

Definition sn_ownership (active : ActiveIsolatedSession) : OwnershipRecord :=
  as_ownership (sn_attachment active).

Definition with_sampling_paused (active : ActiveIsolatedSession) : ActiveIsolatedSession :=
  mkActiveIsolatedSession (sn_run_id active) (sn_interface active) (sn_attachment active) true.

Definition with_output (status : InterfaceStatus) (output_health : OutputHealth)
    (active_incident : option ActiveIncidentMetadata) : InterfaceStatus :=
  mkInterfaceStatus (is_interface status) (is_state status) (is_generation status)
    (is_captured_at_unix_ms status) (is_health status) (is_vlan_visibility status)
    (is_xdp_ingress status) (is_tc_egress status) (is_sampling status) (is_rate_windows status)
    (is_baseline status) (is_fingerprints status) (is_detection status) output_health active_incident.

Record TransactionIsolatedControl (D W S B : Type) : Type := mkTransactionIsolatedControl {
  ct_driver : D;
  ct_sampling : SamplingService W S;
  ct_incident_output : option (OutputWorker B);
  ct_active : option ActiveIsolatedSession;
}.
Arguments mkTransactionIsolatedControl {D W S B} _ _ _ _.
Arguments ct_driver {D W S B} _.
Arguments ct_sampling {D W S B} _.
Arguments ct_incident_output {D W S B} _.
Arguments ct_active {D W S B} _.

Section control.
Context {D W S B : Type} `{IsolatedAttachmentDriver D} `{ControlEnvironment D}
  `{ObservationPorts W} `{EventIdSource S} `{IncidentOutputBackend B}.
(** [LinuxEventIdSource]. *)
Variable linux_source : S.
Local Notation control := (TransactionIsolatedControl D W S B).
Implicit Types (self : control) (run_id : RunId).

(** Assignments to the fields. *)
Definition set_driver self (driver : D) : control :=
  mkTransactionIsolatedControl driver (ct_sampling self)
    (ct_incident_output self) (ct_active self).
Definition set_sampling self (sampling : SamplingService W S) : control :=
  mkTransactionIsolatedControl (ct_driver self) sampling
    (ct_incident_output self) (ct_active self).
Definition set_incident_output self (output : option (OutputWorker B)) : control :=
  mkTransactionIsolatedControl (ct_driver self) (ct_sampling self)
    output (ct_active self).
Definition set_active self (active : option ActiveIsolatedSession) : control :=
  mkTransactionIsolatedControl (ct_driver self) (ct_sampling self)
    (ct_incident_output self) active.

Definition TransactionIsolatedControl_new (driver : D) (ports : W) : control :=
  mkTransactionIsolatedControl driver (SamplingService_new ports) None None.

Definition with_incident_output self (output : OutputWorker B) : control :=
  set_incident_output self (Some output).

(** The loading of the record and its comparison with the active session's. *)
Definition canonical_ownership self (active : ActiveIsolatedSession)
    : control * result IsolatedControlError OwnershipRecord :=
  let '(driver, res) := ownership_load (ct_driver self) (sn_run_id active) in
  let self := set_driver self driver in
  match res with
  | Err _ => (self, Err (control_internal OBS_OWNERSHIP_MISMATCH))
  | Ok committed =>
      if negb (bool_decide (committed = sn_ownership active))
      then (self, Err (control_internal OBS_OWNERSHIP_MISMATCH))
      else (self, Ok committed)
  end.

Definition flush_incident_jobs self : control :=
  let '(sampling, jobs) := take_incident_jobs (ct_sampling self) in
  let self := set_sampling self sampling in
  match ct_incident_output self with
  | None => self
  | Some output =>
      set_incident_output self (Some (foldl (λ output job, (try_submit output job).1) output jobs))
  end.

Definition attach self (interface : InterfaceName) run_id
    : control * result IsolatedControlError unit :=
  if is_some (ct_active self) then (self, Err (control_blocked PF_OWNERSHIP_MISMATCH))
  else
    let '(driver, now) := system_time (ct_driver self) in
    let self := set_driver self driver in
    if now <? 0 then (self, Err (control_internal "SYSTEM_CLOCK_INVALID"))
    else
      let created_at_unix_seconds := now / 1000000000 in
      match driver_attach (ct_driver self) interface run_id created_at_unix_seconds with
      | (driver, Err error) => (set_driver self driver, Err (attachment_control_error error))
      | (driver, Ok session) =>
          let self := set_driver self driver in
          match start (ct_sampling self) (as_ownership session) with
          | (sampling, Err error) => (set_sampling self sampling, Err (observation_control_error error))
          | (sampling, Ok _) =>
              match start_incident_generation_with_source sampling interface (as_ownership session)
                      linux_source with
              | (sampling, Err error) => (set_sampling self sampling, Err (observation_control_error error))
              | (sampling, Ok _) =>
                  (set_active (set_sampling self sampling)
                     (Some (mkActiveIsolatedSession run_id interface session false)), Ok tt)
              end
          end
      end.

(** The detach of the validated session; [None] is a panic of the sampling service. *)
Definition detach_session self (active : ActiveIsolatedSession)
    : option (control * result IsolatedControlError unit) :=
  sampling ← service_pause (ct_sampling self);
  let self := flush_incident_jobs (set_sampling self sampling) in
  let self := set_active self (Some (with_sampling_paused active)) in
  match driver_detach_exact (ct_driver self) (sn_attachment active) with
  | (driver, Err error) => Some (set_driver self driver, Err (attachment_control_error error))
  | (driver, Ok _) =>
      let self := set_driver self driver in
      let self := set_sampling self (service_generation_ended (ct_sampling self)) in
      let self := flush_incident_jobs self in
      let self := set_sampling self (service_clear (ct_sampling self)) in
      Some (set_active self None, Ok tt)
  end.

Definition detach self run_id : option (control * result IsolatedControlError unit) :=
  match ct_active self with
  | None => Some (self, Err (control_blocked PF_OWNERSHIP_MISMATCH))
  | Some active =>
      if negb (bool_decide (sn_run_id active = run_id))
      then Some (self, Err (control_blocked PF_OWNERSHIP_MISMATCH))
      else
        let '(driver, res) := ownership_load (ct_driver self) run_id in
        let self := set_driver self driver in
        match res with
        | Err _ => Some (self, Err (control_blocked PF_OWNERSHIP_MISMATCH))
        | Ok committed =>
            if negb (bool_decide (committed = sn_ownership active))
            then Some (self, Err (control_blocked PF_OWNERSHIP_MISMATCH))
            else detach_session self active
        end
  end.

Definition control_sample_tick self
    : option (control * result IsolatedControlError IsolatedSamplingOutcome) :=
  match ct_active self with
  | None => Some (self, Ok IsolatedIdle)
  | Some active =>
      if sn_sampling_paused active then Some (self, Ok IsolatedRejected)
      else
        match canonical_ownership self active with
        | (self, Err error) => Some (self, Err error)
        | (self, Ok ownership) =>
            '(sampling, outcome) ← sample_tick (ct_sampling self) ownership;
            Some (flush_incident_jobs (set_sampling self sampling),
                  Ok (match outcome with Sampled => IsolatedSampled | Rejected => IsolatedRejected end))
        end
  end.

Definition control_observe self (interface : InterfaceName)
    : control * result IsolatedControlError ObservationSnapshot :=
  match ct_active self with
  | None => (self, Err (control_internal OBS_SESSION_NOT_FOUND))
  | Some active =>
      match canonical_ownership self active with
      | (self, Err error) => (self, Err error)
      | (self, Ok ownership) =>
          let '(sampling, res) := observe (ct_sampling self) interface (sn_interface active) ownership in
          (set_sampling self sampling, map_err observation_control_error res)
      end
  end.

Definition control_status self (interface : option InterfaceName)
    : control * result IsolatedControlError (list InterfaceStatus) :=
  match ct_active self with
  | None =>
      let '(sampling, res) := status (ct_sampling self) interface None None in
      (set_sampling self sampling, map_err observation_control_error res)
  | Some active =>
      if is_some_and interface (λ requested, negb (bool_decide (requested = sn_interface active)))
      then (self, Err (control_internal OBS_SESSION_NOT_FOUND))
      else
        match canonical_ownership self active with
        | (self, Err error) => (self, Err error)
        | (self, Ok ownership) =>
            let '(sampling, res) :=
              status (ct_sampling self) interface (Some (sn_interface active)) (Some ownership) in
            let self := set_sampling self sampling in
            let output_health :=
              from_option ow_health (OutputHealth_unavailable "OUTPUT_NOT_CONFIGURED")
                (ct_incident_output self) in
            let incident := active_incident (ct_sampling self) in
            (self, map_err observation_control_error
                     (map (λ s, with_output s output_health incident) <$> res))
        end
  end.

Definition control_shutdown self : option (control * result IsolatedControlError unit) :=
  match ct_active self with
  | None => Some (self, Ok tt)
  | Some active => detach self (sn_run_id active)
  end.
End control.

(** ** What a control run does *)

(** The jobs submitted to the output, accepted or refused, in order. *)
Definition submitted_jobs (events : list output_event) : list IncidentWriteJob :=
  collect (λ e, match e with Accepted job | Dropped job _ => [job] | _ => [] end) events.

Lemma submitted_app events events' :
  submitted_jobs (events ++ events') = submitted_jobs events ++ submitted_jobs events'.
Proof. unfold submitted_jobs, collect. by rewrite fmap_app, concat_app. Qed.

Section runs.
Context {D W S B : Type} `{IsolatedAttachmentDriver D} `{ControlEnvironment D}
  `{ObservationPortsTyped W} `{EventIdSource S} `{IncidentOutputBackend B}.
Variable (linux_source : S) (backend : B).
Local Notation control := (TransactionIsolatedControl D W S B).
Implicit Types (self : control) (run_id : RunId) (events : list output_event)
  (past log : list IncidentRevisionV1).

(** A command, or a step of the output worker between two commands. *)
Inductive control_op : Type :=
| AttachCommand (interface : InterfaceName) (run_id : RunId)
| DetachCommand (run_id : RunId)
| SampleCommand
| ObserveCommand (interface : InterfaceName)
| StatusCommand (interface : option InterfaceName)
| ShutdownCommand.

Definition control_step self (op : control_op) : option control :=
  match op with
  | AttachCommand interface run_id => Some (attach linux_source self interface run_id).1
  | DetachCommand run_id => fst <$> detach self run_id
  | SampleCommand => fst <$> control_sample_tick self
  | ObserveCommand interface => Some (control_observe self interface).1
  | StatusCommand interface => Some (control_status self interface).1
  | ShutdownCommand => fst <$> control_shutdown self
  end.

(** The output is reachable by [events], and the control still holds its handle. *)
Definition output_after events self : Prop :=
  ∃ output, ct_incident_output self = Some output ∧ ow_handles output = true ∧
    output_run (OutputWorker_start backend) events output.

Definition submission (e : output_event) : bool :=
  match e with Accepted _ | Dropped _ _ => true | _ => false end.

(** Commands with the worker's steps between them. *)
Inductive control_run : control → list control_op → control → Prop :=
| ControlNil self : control_run self [] self
| ControlCommand self ops self' op self'' :
    control_run self ops self' → control_step self' op = Some self'' →
    control_run self (ops ++ [op]) self''
| ControlWorker self ops self' output e output' :
    control_run self ops self' → ct_incident_output self' = Some output →
    output_step output e output' → submission e = false → ow_handles output' = true →
    control_run self ops (set_incident_output self' (Some output')).

(** The logs of finished sessions, one after the other. *)
Definition session_logs past : Prop :=
  ∃ logs, past = concat logs ∧
    Forall (λ log, ∃ iid (recorder : IncidentRecorder S), log_ok iid recorder log) logs.

(** The active session and the log of what it has submitted so far. *)
Definition active_ok n self log : Prop :=
  sv_incident_jobs (ct_sampling self) = [] ∧
  match ct_active self with
  | None => log = []
  | Some active =>
      let ownership := sn_ownership active in
      RateIdentity_new (or_ifindex ownership) (or_generation ownership) = Ok (rate_identity_of ownership) ∧
      session_ok (rate_identity_of ownership) (incident_identity_of (sn_interface active) ownership) n log
        (ct_sampling self, log) ∧
      is_some (sv_incident_recorder (ct_sampling self)) = true
  end.

Lemma submit_all jobs : ∀ output : OutputWorker B,
  ow_handles output = true →
  ∃ events, output_run output events (foldl (λ output job, (try_submit output job).1) output jobs) ∧
    submitted_jobs events = jobs ∧
    ow_handles (foldl (λ output job, (try_submit output job).1) output jobs) = true.
Proof.
  induction jobs as [|job jobs IH]; intros output Hh; [by exists []; split_and!; [constructor|..]|].
  cbn [foldl]. destruct (try_submit output job) as [output1 res] eqn:Hsub.
  pose proof (StepSubmit output job output1 res Hh Hsub) as Hstep.
  destruct (IH output1) as (events & Hrun & Hsubm & Hh').
  { unfold try_submit in Hsub. by repeat case_match; simplify_eq. }
  eexists ([_] ++ events). split_and!.
  - apply (output_run_trans output [_] output1 events); [apply output_run_one, Hstep|done].
  - rewrite submitted_app, Hsubm. by destruct res.
  - done.
Qed.

Lemma flush_ok events self :
  output_after events self →
  ∃ events', output_after (events ++ events') (flush_incident_jobs self) ∧
    submitted_jobs events' = sv_incident_jobs (ct_sampling self).
Proof.
  intros (output & Ho & Hh & Hrun). unfold flush_incident_jobs. cbn.
  rewrite Ho. destruct (submit_all (sv_incident_jobs (ct_sampling self)) output Hh) as (events' & Hr & Hs & Hh').
  exists events'. split; [|done]. eexists. split; [done|]. split; [done|].
  by apply (output_run_trans _ _ output).
Qed.

Lemma flush_sampling self :
  ct_sampling (flush_incident_jobs self) = (take_incident_jobs (ct_sampling self)).1 ∧
  ct_active (flush_incident_jobs self) = ct_active self.
Proof. unfold flush_incident_jobs. cbn. by destruct (ct_incident_output self). Qed.

(** *** The sampling service between two commands *)
Lemma capture_recorder (sampling sampling' : SamplingService W S) :
  capture_incident_transitions sampling = Some sampling' →
  is_some (sv_incident_recorder sampling) = true → is_some (sv_incident_recorder sampling') = true.
Proof.
  unfold capture_incident_transitions. destruct (dn_report <$> sv_detection sampling); [|by intros [= <-]].
  cbv zeta. cbn [sv_incident_recorder set_incidents]. destruct (sv_incident_recorder sampling); [|done].
  destruct (capture_loop _ _ _ _) as [[r jobs]|]; [|done]. by intros [= <-].
Qed.

Lemma acknowledge_recorder (sampling : SamplingService W S) :
  is_some (sv_incident_recorder sampling) = true →
  is_some (sv_incident_recorder (acknowledge_request_transitions sampling)) = true.
Proof. unfold acknowledge_request_transitions. by repeat case_match. Qed.

Lemma service_step_recorder identity ownership (sampling : SamplingService W S) delivered op st' :
  RateIdentity_new (or_ifindex ownership) (or_generation ownership) = Ok identity →
  service_step ownership (sampling, delivered) op = Some st' →
  is_some (sv_incident_recorder sampling) = true → is_some (sv_incident_recorder st'.1) = true.
Proof.
  intros Hid Hstep Hr.
  assert (∀ req act, is_some (sv_incident_recorder (acknowledge_request_transitions
    (current_snapshot sampling req act ownership).1)) = true) as Hreq.
  { intros req act. apply acknowledge_recorder.
    destruct (current_snapshot_ok identity 0 sampling req act ownership Hid) as [(-> & _) _]. done. }
  destruct op as [|req act|req act| | |]; cbn [service_step] in Hstep.
  - unfold sample_tick in Hstep. destruct (sample_tick_inner_kept sampling ownership) as (Hk & _).
    destruct (sample_tick_inner sampling ownership) as [s1 o]. cbn [fst] in Hk.
    destruct (capture_incident_transitions s1) as [s2|] eqn:Hc; [|done]. injection Hstep as <-. cbn [fst].
    apply (capture_recorder _ _ Hc). by rewrite Hk.
  - specialize (Hreq req act). unfold observe in Hstep. destruct (current_snapshot _ _ _ _). by injection Hstep as <-.
  - unfold status in Hstep. cbn [status_session] in Hstep. destruct (negb _); [by injection Hstep as <-|].
    specialize (Hreq (default act req) act). destruct (current_snapshot _ _ _ _). by injection Hstep as <-.
  - unfold service_pause in Hstep. destruct (capture_incident_transitions _) as [s2|] eqn:Hc; [|done].
    injection Hstep as <-. apply (capture_recorder _ _ Hc). by destruct (pause_engines_same sampling) as (-> & _).
  - injection Hstep as <-. cbn. unfold service_generation_ended. destruct (sv_latest_incident_snapshot sampling); [|done].
    destruct (sv_incident_recorder sampling) as [r|]; [|done]. destruct (wall_time_ms _).
    by destruct (generation_ended _ _ _).
  - by injection Hstep as <-.
Qed.

(** One operation of the service and the flush after it. *)
Lemma session_op_ok interface n log ownership (sampling : SamplingService W S) op :
  let identity := rate_identity_of ownership in
  let iid := incident_identity_of interface ownership in
  RateIdentity_new (or_ifindex ownership) (or_generation ownership) = Ok identity →
  n + 3 ≤ U64_MAX → session_ok identity iid n log (sampling, log) → sv_incident_jobs sampling = [] →
  is_some (sv_incident_recorder sampling) = true → op ≠ TakeOp →
  ∃ sampling', service_step ownership (sampling, log) op = Some (sampling', log) ∧
    is_some (sv_incident_recorder sampling') = true ∧
    let log' := log ++ (job_revision <$> sv_incident_jobs sampling') in
    session_ok identity iid (n + 3) log' ((take_incident_jobs sampling').1, log').
Proof.
  intros identity iid Hid Hn Hok Hj Hr Hop.
  destruct (service_step_ok identity iid n log (sampling, log) op ownership) as ([sampling' log1] & log' & Hstep & Hok' & Hm);
    [done..|].
  pose proof (service_step_recorder identity ownership sampling log op _ Hid Hstep Hr) as Hr'.
  assert (log1 = log) as ->.
  { clear - Hstep Hop. destruct op; cbn [service_step] in Hstep; try done.
    - destruct (sample_tick _ _) as [[]|]; [|done]. by injection Hstep.
    - by injection Hstep.
    - by injection Hstep.
    - destruct (service_pause _); [|done]. by injection Hstep.
    - by injection Hstep. }
  exists sampling'. split_and!; [done|done|]. cbv zeta.
  assert (log ++ (job_revision <$> sv_incident_jobs sampling') = log') as ->.
  { apply Hm; [|done]. unfold complete. cbn. by rewrite Hj, app_nil_r. }
  pose proof (session_take _ _ _ _ _ _ Hok') as Ht.
  replace log' with (log ++ (job_revision <$> sv_incident_jobs sampling')) at 2; [done|].
  apply Hm; [|done]. unfold complete. cbn. by rewrite Hj, app_nil_r.
Qed.

(** An operation that captures nothing. *)
Lemma session_request_ok interface n log ownership (sampling : SamplingService W S) op :
  let identity := rate_identity_of ownership in
  let iid := incident_identity_of interface ownership in
  RateIdentity_new (or_ifindex ownership) (or_generation ownership) = Ok identity →
  n + 3 ≤ U64_MAX → session_ok identity iid n log (sampling, log) → sv_incident_jobs sampling = [] →
  is_some (sv_incident_recorder sampling) = true →
  match op with ObserveOp _ _ | StatusOp _ _ => True | _ => False end →
  ∃ sampling', service_step ownership (sampling, log) op = Some (sampling', log) ∧
    is_some (sv_incident_recorder sampling') = true ∧ sv_incident_jobs sampling' = [] ∧
    session_ok identity iid (n + 3) log (sampling', log).
Proof.
  intros identity iid Hid Hn Hok Hj Hr Hop.
  destruct (service_step_ok identity iid n log (sampling, log) op ownership) as ([sampling' log1] & log' & Hstep & Hok' & Hm);
    [done..|].
  pose proof (service_step_recorder identity ownership sampling log op _ Hid Hstep Hr) as Hr'.
  assert (log1 = log ∧ sv_incident_jobs sampling' = []) as [-> Hj'].
  { assert (∀ req act, sv_incident_jobs (acknowledge_request_transitions
      (current_snapshot sampling req act ownership).1) = []) as Hreq.
    { intros req act. destruct (current_snapshot_ok identity 0 sampling req act ownership Hid) as [(_ & Hjs & _) _].
      destruct (acknowledge_same_engines (current_snapshot sampling req act ownership).1) as (_&_&_&_&_&->&_). congruence. }
    destruct op as [|req act|req act| | |]; try done; cbn [service_step] in Hstep.
    - specialize (Hreq req act). unfold observe in Hstep. destruct (current_snapshot _ _ _ _). by injection Hstep as <- <-.
    - unfold status in Hstep. cbn [status_session] in Hstep. destruct (negb _); [by injection Hstep as <- <-|].
      specialize (Hreq (default act req) act). destruct (current_snapshot _ _ _ _). by injection Hstep as <- <-. }
  exists sampling'. split_and!; [done..|].
  assert (log = log') as <-; [|done].
  assert (complete log' (sampling', log)) as Hc; [|unfold complete in Hc; cbn in Hc; by rewrite Hj', app_nil_r in Hc].
  apply Hm; [|done]. unfold complete. cbn. by rewrite Hj, app_nil_r.
Qed.

(** *** Commands *)

(** Everything known between two commands: the submitted jobs are the finished
    sessions' logs followed by the active session's. *)
Record control_ok events past log n self : Prop := {
  co_output : output_after events self;
  co_submitted : job_revision <$> submitted_jobs events = past ++ log;
  co_past : session_logs past;
  co_active : active_ok n self log;
}.

Lemma output_after_same events self self' :
  ct_incident_output self' = ct_incident_output self → output_after events self → output_after events self'.
Proof. intros Ho (output & Hs & ?). exists output. by rewrite Ho. Qed.

Lemma active_ok_same n n' self self' log :
  ct_sampling self' = ct_sampling self → option_map sn_ownership (ct_active self') = option_map sn_ownership (ct_active self) →
  option_map sn_interface (ct_active self') = option_map sn_interface (ct_active self) → n ≤ n' →
  active_ok n self log → active_ok n' self' log.
Proof.
  intros Hs Ho Hi Hn [Hj Ha]. unfold active_ok. rewrite Hs. split; [done|].
  destruct (ct_active self') as [a'|], (ct_active self) as [a|]; cbn in *; try done.
  injection Ho as ->. injection Hi as ->. destruct Ha as (? & ? & ?). split_and!; [done| |done].
  by eapply session_ok_mono.
Qed.

Lemma control_ok_same events past log n n' self self' :
  ct_incident_output self' = ct_incident_output self → ct_sampling self' = ct_sampling self →
  ct_active self' = ct_active self → n ≤ n' →
  control_ok events past log n self → control_ok events past log n' self'.
Proof.
  intros Ho Hs Ha Hn [H1' H2' H3' H4']. constructor; [by eapply output_after_same|done|done|].
  by apply (active_ok_same n n' self); rewrite ?Ha.
Qed.

(** The outcome of a command. *)
Definition command_ok events past log n self' : Prop :=
  ∃ events' past' log', control_ok (events ++ events') past' log' (n + 6) self'.

Lemma command_ok_same events past log n self self' :
  ct_incident_output self' = ct_incident_output self → ct_sampling self' = ct_sampling self →
  ct_active self' = ct_active self →
  control_ok events past log n self → command_ok events past log n self'.
Proof.
  intros Ho Hs Ha Hok. exists [], past, log. rewrite app_nil_r. apply (control_ok_same _ _ _ n _ self); [done..|lia|done].
Qed.

(** A flush after an operation of the active session. *)
Lemma flush_control events past log n self (sampling' : SamplingService W S) active :
  control_ok events past log n self → ct_active self = Some active →
  is_some (sv_incident_recorder sampling') = true →
  let ownership := sn_ownership active in
  let log' := log ++ (job_revision <$> sv_incident_jobs sampling') in
  session_ok (rate_identity_of ownership) (incident_identity_of (sn_interface active) ownership) (n + 3) log'
    ((take_incident_jobs sampling').1, log') →
  ∃ events', control_ok (events ++ events') past log' (n + 3) (flush_incident_jobs (set_sampling self sampling')).
Proof.
  intros [Ho Hs Hp Ha] Hact Hr. cbv zeta. intros Hok.
  destruct (flush_ok events (set_sampling self sampling')) as (events' & Ho' & Hsub).
  { by apply (output_after_same _ self). }
  exists events'. destruct (flush_sampling (set_sampling self sampling')) as [Hfs Hfa].
  constructor; [done|by rewrite submitted_app, fmap_app, Hs, Hsub, <-app_assoc|done|].
  split; [by rewrite Hfs|]. rewrite Hfa. cbn [ct_active set_sampling]. rewrite Hact.
  destruct Ha as [_ Ha]. rewrite Hact in Ha. cbv zeta in *. rewrite Hfs. split_and!; [apply Ha|done|done].
Qed.

Lemma canonical_ownership_ok self active self' res :
  canonical_ownership self active = (self', res) →
  ct_incident_output self' = ct_incident_output self ∧ ct_sampling self' = ct_sampling self ∧
  ct_active self' = ct_active self ∧ (∀ ownership, res = Ok ownership → ownership = sn_ownership active).
Proof.
  unfold canonical_ownership. destruct (ownership_load _ _) as [e [committed|]].
  - case_bool_decide; intros [= <- <-]; split_and!; try done. by intros ? [= <-].
  - intros [= <- <-]. by split_and!.
Qed.

Lemma attach_ok events past log n self interface run_id :
  control_ok events past log n self → 0 ≤ n →
  command_ok events past log n (attach linux_source self interface run_id).1.
Proof.
  intros Hok Hn. unfold attach. destruct (ct_active self) as [a|] eqn:Hact; [by eapply command_ok_same|].
  cbn [is_some]. destruct (system_time _) as [e now]. destruct (now <? 0); [by apply (command_ok_same _ _ _ _ self)|].
  destruct (driver_attach _ _ _ _) as [d [session|err]]; [|by apply (command_ok_same _ _ _ _ self)].
  assert (∀ s' : control, ct_incident_output s' = ct_incident_output self → sv_incident_jobs (ct_sampling s') = [] →
    ct_active s' = None → command_ok events past log n s') as Hidle.
  { intros s' Ho' Hj' Ha'. destruct Hok as [Ho Hs Hp [Hj Ha]]. rewrite Hact in Ha. subst log.
    exists [], past, []. rewrite app_nil_r. constructor; [by eapply output_after_same|done|done|].
    split; [done|]. by rewrite Ha'. }
  destruct (start _ _) as [s1 [[]|err]] eqn:Hstart.
  2: { cbn [fst]. apply Hidle; try done. cbn. pose proof (co_active _ _ _ _ _ Hok) as [Hj _].
       unfold start in Hstart. repeat case_match; simplify_eq; exact Hj. }
  destruct (start_incident_generation_with_source _ _ _ _) as [s2 [[]|err]] eqn:Hinc.
  2: { cbn [fst]. apply Hidle; try done. cbn. pose proof (co_active _ _ _ _ _ Hok) as [Hj _].
       unfold start_incident_generation_with_source in Hinc. case_match; [done|]. injection Hinc as <- <-.
       unfold start in Hstart. repeat case_match; simplify_eq; exact Hj. }
  cbn [fst]. destruct (session_started_ok (ct_sampling self) interface (as_ownership session) linux_source s2)
    as (Hid & Hses & Hj).
  { exists s1. split; [exact Hstart|done]. }
  destruct Hok as [Ho Hs Hp [_ Ha]]. rewrite Hact in Ha. subst log.
  exists [], past, []. rewrite app_nil_r. constructor; [by apply (output_after_same _ self)|done|done|].
  split; [done|]. cbn. split_and!; [done|by apply (session_ok_mono _ _ 0); [lia|]|].
  unfold start_incident_generation_with_source in Hinc. case_match; [|done]. by injection Hinc as <-.
Qed.

Lemma detach_session_ok events past log n self active :
  control_ok events past log n self → ct_active self = Some active → n + 6 ≤ U64_MAX →
  ∃ self' res, detach_session self active = Some (self', res) ∧ command_ok events past log n self'.
Proof.
  intros Hok Hact Hn. pose proof (co_active _ _ _ _ _ Hok) as [Hj Ha]. rewrite Hact in Ha.
  destruct Ha as (Hid & Hses & Hr). unfold detach_session.
  destruct (session_op_ok (sn_interface active) n log (sn_ownership active) (ct_sampling self) PauseOp Hid
    ltac:(lia) Hses Hj Hr) as (s1 & Hstep & Hr1 & Hs1); [done|].
  cbn [service_step] in Hstep. destruct (service_pause (ct_sampling self)) as [s|]; [|done].
  injection Hstep as ->. cbn [mbind option_bind].
  destruct (flush_control events past log n self s1 active Hok Hact Hr1 Hs1) as (events1 & Hok1).
  set (log1 := log ++ (job_revision <$> sv_incident_jobs s1)) in *.
  destruct (flush_sampling (set_sampling self s1)) as [Hfs Hfa].
  set (self1 := set_active (flush_incident_jobs (set_sampling self s1)) (Some (with_sampling_paused active))) in *.
  assert (control_ok (events ++ events1) past log1 (n + 3) self1) as Hok1'.
  { destruct Hok1 as [Ho1 Hsub1 Hp1 Ha1]. constructor; [by eapply output_after_same|done|done|].
    apply (active_ok_same (n + 3) _ (flush_incident_jobs (set_sampling self s1))); [done| | |lia|done];
      rewrite Hfa; cbn; by rewrite Hact. }
  cbv zeta. destruct (driver_detach_exact (ct_driver self1) (sn_attachment active)) as [d [[]|err]].
  2: { eexists _, _. split; [done|]. exists events1, past, log1.
       by apply (control_ok_same _ _ _ (n + 3) _ self1); [..|lia|]. }
  eexists _, _. split; [done|].
  pose proof (co_active _ _ _ _ _ Hok1') as [Hj1 Ha1]. cbn [ct_active self1 set_active] in Ha1.
  destruct Ha1 as (_ & Hses1 & Hr1').
  destruct (session_op_ok (sn_interface active) (n + 3) log1 (sn_ownership active) (ct_sampling self1) EndGenerationOp Hid
    ltac:(lia) Hses1 Hj1 Hr1') as (s2 & Hstep2 & Hr2 & Hs2); [done|].
  injection Hstep2 as Hstep2. rewrite <-Hstep2 in Hr2, Hs2.
  assert (control_ok (events ++ events1) past log1 (n + 3) (set_driver self1 d)) as Hokd by (by apply (control_ok_same _ _ _ (n + 3) _ self1)).
  destruct (flush_control (events ++ events1) past log1 (n + 3) (set_driver self1 d)
    (service_generation_ended (ct_sampling self1)) (with_sampling_paused active) Hokd eq_refl Hr2) as (events2 & Hok2).
  { exact Hs2. }
  set (log2 := log1 ++ _) in *. destruct Hok2 as [Ho2 Hsub2 (logs & -> & Hlogs) [_ Ha2]].
  set (self2 := flush_incident_jobs (set_sampling (set_driver self1 d) _)) in *.
  exists (events1 ++ events2), (concat logs ++ log2), []. rewrite app_assoc. constructor.
  - by eapply output_after_same.
  - by rewrite app_nil_r.
  - exists (logs ++ [log2]). split; [by rewrite concat_app; cbn; rewrite app_nil_r|].
    apply Forall_app. split; [done|]. constructor; [|done].
    destruct Hs2 as [_ [_ Hrec _] _]. cbn [fst take_incident_jobs sv_incident_recorder set_incidents] in Hrec.
    destruct (sv_incident_recorder (service_generation_ended _)) as [r|]; [|done]. by eexists _, r.
  - by split.
Qed.

Lemma detach_ok events past log n self run_id :
  control_ok events past log n self → n + 6 ≤ U64_MAX →
  ∃ self' res, detach self run_id = Some (self', res) ∧ command_ok events past log n self'.
Proof.
  intros Hok Hn. unfold detach. destruct (ct_active self) as [active|] eqn:Hact.
  2: { eexists _, _. split; [done|]. by apply (command_ok_same _ _ _ _ self). }
  destruct (negb _); [eexists _, _; split; [done|]; by apply (command_ok_same _ _ _ _ self)|].
  destruct (ownership_load _ _) as [e [committed|]];
    [|eexists _, _; split; [done|]; by apply (command_ok_same _ _ _ _ self)].
  destruct (negb _); [eexists _, _; split; [done|]; by apply (command_ok_same _ _ _ _ self)|].
  apply detach_session_ok; [by apply (control_ok_same _ _ _ n _ self)|done|done].
Qed.

(** A request of the active session. *)
Lemma request_control events past log n self active (sampling' : SamplingService W S) op :
  control_ok events past log n self → ct_active self = Some active → n + 3 ≤ U64_MAX →
  match op with ObserveOp _ _ | StatusOp _ _ => True | _ => False end →
  service_step (sn_ownership active) (ct_sampling self, log) op = Some (sampling', log) →
  command_ok events past log n (set_sampling self sampling').
Proof.
  intros [Ho Hs Hp [Hj Ha]] Hact Hn Hop Hstep. rewrite Hact in Ha. destruct Ha as (Hid & Hses & Hr).
  destruct (session_request_ok (sn_interface active) n log (sn_ownership active) (ct_sampling self) op Hid Hn Hses Hj Hr Hop)
    as (s & Hstep' & Hr' & Hj' & Hses').
  rewrite Hstep in Hstep'. injection Hstep' as <-. exists [], past, log. rewrite app_nil_r.
  constructor; [by apply (output_after_same _ self)|done|done|]. split; [done|]. cbn. rewrite Hact.
  split_and!; [done| |done]. by apply (session_ok_mono _ _ (n + 3)); [lia|].
Qed.

Lemma control_step_ok events past log n self op :
  control_ok events past log n self → 0 ≤ n → n + 6 ≤ U64_MAX →
  ∃ self', control_step self op = Some self' ∧ command_ok events past log n self'.
Proof.
  intros Hok Hn0 Hn. destruct op as [interface run_id|run_id| |interface|interface|]; cbn [control_step].
  - eexists. split; [done|]. by apply attach_ok.
  - destruct (detach_ok events past log n self run_id Hok Hn) as (self' & res & -> & Hc). by eexists.
  - unfold control_sample_tick. destruct (ct_active self) as [active|] eqn:Hact.
    2: { eexists. split; [done|]. by apply (command_ok_same _ _ _ _ self). }
    destruct (sn_sampling_paused active); [eexists; split; [done|]; by apply (command_ok_same _ _ _ _ self)|].
    destruct (canonical_ownership self active) as [self1 res] eqn:Hcan.
    destruct (canonical_ownership_ok _ _ _ _ Hcan) as (Ho1 & Hs1 & Ha1 & Hown).
    destruct res as [ownership|err]; [|eexists; split; [done|]; by apply (command_ok_same _ _ _ _ self)].
    specialize (Hown _ eq_refl) as ->. assert (control_ok events past log n self1) as Hok1 by (by apply (control_ok_same _ _ _ n _ self)).
    pose proof (co_active _ _ _ _ _ Hok1) as [Hj Ha]. rewrite Ha1, Hact in Ha. destruct Ha as (Hid & Hses & Hr).
    destruct (session_op_ok (sn_interface active) n log (sn_ownership active) (ct_sampling self1) TickOp Hid
      ltac:(lia) Hses Hj Hr) as (s1 & Hstep & Hr1 & Hses1); [done|].
    cbn [service_step] in Hstep. destruct (sample_tick (ct_sampling self1) _) as [[s outcome]|]; [|done].
    injection Hstep as ->. eexists. split; [done|]. cbn [fst].
    destruct (flush_control events past log n self1 s1 active Hok1 ltac:(congruence) Hr1 Hses1) as (events1 & Hok').
    eexists events1, past, _. by apply (control_ok_same _ _ _ (n + 3) _ _ _ eq_refl eq_refl eq_refl); [lia|].
  - eexists. split; [done|]. unfold control_observe. destruct (ct_active self) as [active|] eqn:Hact;
      [|by apply (command_ok_same _ _ _ _ self)].
    destruct (canonical_ownership self active) as [self1 res] eqn:Hcan.
    destruct (canonical_ownership_ok _ _ _ _ Hcan) as (Ho1 & Hs1 & Ha1 & Hown).
    destruct res as [ownership|err]; [|by apply (command_ok_same _ _ _ _ self)]. specialize (Hown _ eq_refl) as ->.
    assert (control_ok events past log n self1) as Hok1 by (by apply (control_ok_same _ _ _ n _ self)).
    destruct (observe _ _ _ _) as [s1 r] eqn:Hobs. cbn [fst].
    apply (request_control _ _ _ _ _ active _ (ObserveOp interface (sn_interface active)) Hok1);
      [congruence|lia|done|]. cbn [service_step]. by rewrite Hobs.
  - eexists. split; [done|]. unfold control_status. destruct (ct_active self) as [active|] eqn:Hact.
    2: { unfold status. cbn. by destruct interface; apply (command_ok_same _ _ _ _ self). }
    destruct (is_some_and _ _); [by apply (command_ok_same _ _ _ _ self)|].
    destruct (canonical_ownership self active) as [self1 res] eqn:Hcan.
    destruct (canonical_ownership_ok _ _ _ _ Hcan) as (Ho1 & Hs1 & Ha1 & Hown).
    destruct res as [ownership|err]; [|by apply (command_ok_same _ _ _ _ self)]. specialize (Hown _ eq_refl) as ->.
    assert (control_ok events past log n self1) as Hok1 by (by apply (control_ok_same _ _ _ n _ self)).
    destruct (status _ _ _ _) as [s1 r] eqn:Hobs. cbn [fst].
    apply (request_control _ _ _ _ _ active _ (StatusOp interface (sn_interface active)) Hok1);
      [congruence|lia|done|]. cbn [service_step]. by rewrite Hobs.
  - unfold control_shutdown. destruct (ct_active self) as [active|] eqn:Hact.
    2: { eexists. split; [done|]. by apply (command_ok_same _ _ _ _ self). }
    destruct (detach_ok events past log n self (sn_run_id active) Hok Hn) as (self' & res & -> & Hc). by eexists.
Qed.

Lemma control_run_ok self ops self' :
  control_run self ops self' → control_ok [] [] [] 0 self → 6 * Z.of_nat (length ops) ≤ U64_MAX →
  ∃ events past log, control_ok events past log (6 * Z.of_nat (length ops)) self'.
Proof.
  intros Hrun Hok. induction Hrun as [self|self ops self1 op self2 Hrun IH Hstep|self ops self1 output e output' Hrun IH Ho Hs Hsub Hh];
    intros Hlen; [by exists [], [], []|..].
  - rewrite length_app in *. cbn [length] in *. destruct IH as (events & past & log & Hok1); [done|lia|].
    destruct (control_step_ok events past log _ self1 op Hok1) as (s & Hs & events' & past' & log' & Hok2); [lia|lia|].
    rewrite Hstep in Hs. injection Hs as <-. exists (events ++ events'), past', log'.
    by replace (6 * Z.of_nat (length ops + 1)) with (6 * Z.of_nat (length ops) + 6) by lia.
  - destruct IH as (events & past & log & [(o & Ho1 & Hh1 & Hr1) Hsub1 Hp1 Ha1]); [done|lia|].
    rewrite Ho in Ho1. injection Ho1 as <-. exists (events ++ [e]), past, log. constructor; [|..|done|].
    + exists output'. split_and!; [done|done|]. by apply (RunStep _ _ output).
    + rewrite submitted_app. destruct e; try done; by rewrite <-Hsub1; unfold submitted_jobs, collect; cbn; rewrite app_nil_r.
    + by apply (active_ok_same (6 * Z.of_nat (length ops)) _ self1).
Qed.

Lemma control_ok_new (driver : D) (ports : W) :
  control_ok [] [] [] 0
    (with_incident_output (TransactionIsolatedControl_new driver ports) (OutputWorker_start backend)).
Proof.
  constructor; [|done|by exists []|done].
  exists (OutputWorker_start backend). split_and!; [done|done|constructor].
Qed.
End runs.

(** What holds of the ownership journal: only a record whose journal exists is
    loaded, and loading changes no resource. *)
Class ControlEnvironmentSpec (W : Type) `{AttachPortsSpec W}
    `{ControlEnvironment (AttachmentTransaction W)} : Prop := {
  load_journal d id d' record : ownership_load d id = (d', Ok record) → ResJournal record ∈ held (at_ports d);
  load_keeps d id : held (at_ports (ownership_load d id).1) ≡ₚ held (at_ports d);
}.

(** *** Detaching *)
Lemma detach_cases {D W S B} `{IsolatedAttachmentDriver D} `{ControlEnvironment D}
    `{ObservationPorts W} `{EventIdSource S} `{IncidentOutputBackend B}
    (self self' : TransactionIsolatedControl D W S B) run_id res :
  detach self run_id = Some (self', res) →
  match res with
  | Ok _ => ∃ active ready w, ct_active self = Some active ∧ sn_run_id active = run_id ∧
      ownership_load (ct_driver self) run_id = (ready, Ok (sn_ownership active)) ∧
      driver_detach_exact ready (sn_attachment active) = (ct_driver self', Ok tt) ∧
      ct_active self' = None ∧ ct_sampling self' = SamplingService_new w
  | Err error =>
      (error = control_blocked PF_OWNERSHIP_MISMATCH ∧ ct_active self' = ct_active self ∧
       (ct_driver self' = ct_driver self ∨ ct_driver self' = (ownership_load (ct_driver self) run_id).1) ∧
       ct_sampling self' = ct_sampling self ∧
       ct_incident_output self' = ct_incident_output self) ∨
      ∃ active ready failure, ct_active self = Some active ∧ sn_run_id active = run_id ∧
        ownership_load (ct_driver self) run_id = (ready, Ok (sn_ownership active)) ∧
        driver_detach_exact ready (sn_attachment active) = (ct_driver self', Err failure) ∧
        error = attachment_control_error failure ∧ ct_active self' = Some (with_sampling_paused active) ∧
        control_sample_tick self' = Some (self', Ok IsolatedRejected)
  end.
Proof.
  intros Hdetach. unfold detach in Hdetach. destruct (ct_active self) as [active|] eqn:Hact.
  2: { injection Hdetach as <- <-. left. split_and!; auto. }
  case_bool_decide as Hrid; cbn [negb] in Hdetach.
  2: { injection Hdetach as <- <-. left. split_and!; auto. }
  destruct (ownership_load _ _) as [ready [committed|err]] eqn:Hload.
  2: { injection Hdetach as <- <-. left. split_and!; auto. }
  case_bool_decide as Hc; cbn [negb] in Hdetach.
  2: { injection Hdetach as <- <-. left. split_and!; auto. }
  subst committed. unfold detach_session in Hdetach. cbn [ct_sampling set_driver] in Hdetach.
  destruct (service_pause (ct_sampling self)) as [s|]; [|done]. cbn [mbind option_bind] in Hdetach. cbv zeta in Hdetach.
  set (self1 := flush_incident_jobs _) in Hdetach.
  assert (ct_driver self1 = ready) as Hd.
  { unfold self1, flush_incident_jobs. cbn. by destruct (ct_incident_output self). }
  cbn [ct_driver set_active] in Hdetach. rewrite Hd in Hdetach.
  destruct (driver_detach_exact ready (sn_attachment active)) as [d [[]|failure]] eqn:Hdrv.
  - injection Hdetach as <- <-. eexists active, ready, _. split_and!; [done|done|done| |done|done].
    rewrite Hdrv. unfold flush_incident_jobs. cbn -[self1]. by destruct (ct_incident_output self1).
  - injection Hdetach as <- <-. right. by exists active, ready, failure.
Qed.

(** The real attachment transaction over scripted ports, with the sampling world and
    the output backend of the other examples.  The journal of a run is the one the
    transaction wrote. *)
Module ControlExample.
Definition Driver : Type := AttachmentTransaction Scripted.World.

Definition journal (resource : Resource) : option OwnershipRecord :=
  match resource with ResJournal record => Some record | _ => None end.

#[global] Instance environment : ControlEnvironment Driver := {
  ownership_load d _ :=
    (d, ok_or (head (omap journal (Scripted.sw_held (at_ports d)))) (Adapter "no journal"));
  system_time d := (d, 5000000000);
}.

#[global] Instance environment_spec : ControlEnvironmentSpec Scripted.World.
Proof.
  split; [|done]. intros d id d' record. cbn. intros [= _ Hl].
  destruct (omap journal _) as [|r l] eqn:Ho; [done|]. injection Hl as <-.
  assert (r ∈ omap journal (Scripted.sw_held (at_ports d))) as Hin by (rewrite Ho; left).
  apply list_elem_of_omap in Hin as ([] & Hin & [= <-]). done.
Qed.

Definition session : AttachmentSession :=
  match (execute (Scripted.transaction []) Scripted.name Scripted.run_id 5).2 with
  | Ok session => session
  | Err _ => mkAttachmentSession Observing 0 (mkOwnershipRecord 0 0 0 0 None [] [] 0) Scripted.object
  end.

Definition Control : Type :=
  TransactionIsolatedControl Driver SamplingExample.World IncidentExample.Counter OutputExample.Memory.

Definition control (script : list bool) (w : SamplingExample.World) : Control :=
  with_incident_output (TransactionIsolatedControl_new (Scripted.transaction script) w)
    (OutputWorker_start (OutputExample.mkMemory 8 [] [])).

Definition source : IncidentExample.Counter := 0.

Fixpoint run_commands (self : Control) (ops : list control_op) : option Control :=
  match ops with
  | [] => Some self
  | op :: ops => self ← control_step source self op; run_commands self ops
  end.

Lemma run_commands_run ops : ∀ self before self' self'',
  control_run source self before self' → run_commands self' ops = Some self'' →
  control_run source self (before ++ ops) self''.
Proof.
  induction ops as [|op ops IH]; intros self before self' self'' Hrun Hops; cbn in Hops.
  - injection Hops as <-. by rewrite app_nil_r.
  - destruct (control_step source self' op) as [s|] eqn:Hs; [|done].
    change (op :: ops) with ([op] ++ ops). rewrite app_assoc.
    apply (IH self _ s); [by apply (ControlCommand _ self before self')|done].
Qed.

Definition commands : list control_op :=
  [AttachCommand Scripted.name Scripted.run_id; SampleCommand; SampleCommand; ObserveCommand Scripted.name;
   StatusCommand None; DetachCommand Scripted.run_id; SampleCommand].

Definition final : Control := default (control [] 0) (run_commands (control [] 0) commands).
End ControlExample.

(** ** Properties *)

(** C5: end to end, whatever commands arrive in whatever order and however the
    output worker's steps fall between them, no command panics, and every incident
    revision ever recorded reaches the output: the jobs submitted to it are exactly
    the logs of the finished sessions followed by the log of the active one, each
    log well formed, and every one of them has been processed in order, is held by
    the worker, was given up by a timed-out shutdown, or was refused and counted;
    the active session's service is well formed and about exactly the interface
    generation of its ownership record. *)
Theorem control_loses_no_revision {D W S B} `{IsolatedAttachmentDriver D} `{ControlEnvironment D}
    `{ObservationPortsTyped W} `{EventIdSource S} `{IncidentOutputBackend B}
    (source : S) (backend : B) (driver : D) (ports : W) (ops : list control_op)
    (self : TransactionIsolatedControl D W S B)
    (Hrun : control_run source
      (with_incident_output (TransactionIsolatedControl_new driver ports) (OutputWorker_start backend))
      ops self)
    (Hlen : 6 * Z.of_nat (length ops) + 6 ≤ U64_MAX) :
  (∃ events past log output, ct_incident_output self = Some output ∧ output_ok 0 events output ∧
     job_revision <$> submitted_jobs events = past ++ log ∧ session_logs (S := S) past ∧
     active_ok (6 * Z.of_nat (length ops)) self log) ∧
  ∀ op, is_some (control_step source self op) = true.
Proof.
  destruct (control_run_ok source backend _ _ _ Hrun) as (events & past & log & Hok);
    [apply control_ok_new|lia|].
  split.
  - destruct Hok as [(output & Ho & _ & Hr) Hs Hp Ha]. exists events, past, log, output.
    split_and!; [done| |done..].
    apply (output_run_invariant 0 (OutputWorker_start backend)); [lia|done| |by split; [intros _; split_and!|]].
    apply (output_ok_start backend initial_health). cbn. ulia.
  - intros op. destruct (control_step_ok source backend events past log _ self op Hok) as (s & -> & _); [lia|lia|done].
Qed.

Lemma control_loses_no_revision_witness :
  (∃ events past log output, ct_incident_output ControlExample.final = Some output ∧ output_ok 0 events output ∧
     job_revision <$> submitted_jobs events = past ++ log ∧ session_logs (S := IncidentExample.Counter) past ∧
     active_ok (6 * Z.of_nat (length ControlExample.commands)) ControlExample.final log) ∧
  ∀ op, is_some (control_step ControlExample.source ControlExample.final op) = true.
Proof.
  apply (control_loses_no_revision ControlExample.source (OutputExample.mkMemory 8 [] [])
    (Scripted.transaction [] : ControlExample.Driver) (0 : SamplingExample.World) ControlExample.commands); [|vm_compute; discriminate].
  apply (ControlExample.run_commands_run ControlExample.commands _ [] (ControlExample.control [] 0));
    [constructor|vm_compute; reflexivity].
Defined.

(** An attachment whose sampling service cannot be started is orphaned: the
    command fails although the driver has attached the session and is not asked to
    detach it; no session is active, so every detach is refused and the shutdown
    does nothing, and the hooks stay attached. *)
Theorem failed_start_orphans_attachment {D W S B} `{IsolatedAttachmentDriver D} `{ControlEnvironment D}
    `{ObservationPorts W} `{EventIdSource S} `{IncidentOutputBackend B}
    (source : S) (self : TransactionIsolatedControl D W S B) (interface : InterfaceName) (run_id : RunId)
    (ready driver : D) (now : Z) (session : AttachmentSession)
    (sampling : SamplingService W S) (error : ObservationError)
    (Hidle : ct_active self = None) (Htime : system_time (ct_driver self) = (ready, now)) (Hnow : 0 ≤ now)
    (Hattach : driver_attach ready interface run_id (now / 1000000000) = (driver, Ok session))
    (Hstart : start (ct_sampling self) (as_ownership session) = (sampling, Err error)) :
  ∃ self', attach source self interface run_id = (self', Err (observation_control_error error)) ∧
    ct_driver self' = driver ∧ ct_active self' = None ∧
    (∀ id, detach self' id = Some (self', Err (control_blocked PF_OWNERSHIP_MISMATCH))) ∧
    control_shutdown self' = Some (self', Ok tt).
Proof.
  unfold attach. rewrite Hidle. cbn [is_some]. rewrite Htime. cbv zeta. rewrite (proj2 (Z.ltb_ge _ _)) by done.
  cbn [ct_driver set_driver]. rewrite Hattach. cbn [ct_sampling set_driver]. rewrite Hstart.
  eexists. split; [done|]. unfold detach, control_shutdown. cbn [ct_active ct_driver set_sampling set_driver].
  rewrite Hidle. by split_and!.
Qed.

(** The sampling clock reads a time before the epoch; the transaction holds its
    five resources. *)
Lemma failed_start_orphans_attachment_witness :
  ∃ self', attach ControlExample.source (ControlExample.control [] (-2000)) Scripted.name Scripted.run_id
      = (self', Err (observation_control_error snapshot_error)) ∧
    ct_driver self' = (execute (Scripted.transaction []) Scripted.name Scripted.run_id 5).1 ∧
    ct_active self' = None ∧
    (∀ id, detach self' id = Some (self', Err (control_blocked PF_OWNERSHIP_MISMATCH))) ∧
    control_shutdown self' = Some (self', Ok tt).
Proof.
  apply (failed_start_orphans_attachment ControlExample.source (ControlExample.control [] (-2000))
    Scripted.name Scripted.run_id (Scripted.transaction []) _ 5000000000 ControlExample.session
    (SamplingService_new (-2000 : SamplingExample.World)));
    [reflexivity|reflexivity|lia|vm_compute; reflexivity|vm_compute; reflexivity].
Defined.

(** Over the real attachment transaction, a detach that fails after it has
    removed the ownership journal can never be retried: resources of the session
    stay held and the session stays active, but the record that the control
    compares with is gone, so every later detach of it is refused without calling
    the driver, and so is the shutdown of the daemon. *)
Lemma failed_detach_cannot_be_retried {W W' S B} `{ControlEnvironmentSpec W}
    `{ObservationPorts W'} `{EventIdSource S} `{IncidentOutputBackend B}
    (self self' : TransactionIsolatedControl (AttachmentTransaction W) W' S B) (active : ActiveIsolatedSession)
    (error : IsolatedControlError) (base : list Resource)
    (Hactive : ct_active self = Some active)
    (Hheld : held (at_ports (ct_driver self)) ≡ₚ session_resources (sn_attachment active) ++ base)
    (Hbase : ResJournal (sn_ownership active) ∉ base)
    (Hjournal : (ownership_remove_exact (at_ports (ownership_load (ct_driver self) (sn_run_id active)).1)
                   (sn_ownership active)).2 = Ok tt)
    (Hdetach : detach self (sn_run_id active) = Some (self', Err error))
    (Hfailed : error ≠ control_blocked PF_OWNERSHIP_MISMATCH) :
  ct_active self' = Some (with_sampling_paused active) ∧
  (∃ leaked, leaked ≠ [] ∧ held (at_ports (ct_driver self')) ≡ₚ leaked ++ base) ∧
  ∃ self'', detach self' (sn_run_id active) = Some (self'', Err (control_blocked PF_OWNERSHIP_MISMATCH)) ∧
    control_shutdown self' = Some (self'', Err (control_blocked PF_OWNERSHIP_MISMATCH)) ∧
    ct_active self'' = ct_active self' ∧
    held (at_ports (ct_driver self'')) ≡ₚ held (at_ports (ct_driver self')).
Proof.
  destruct (detach_cases _ _ _ _ Hdetach) as [(He & _)|(a & ready & failure & Ha & _ & Hload & Hdrv & _ & Hpaused & _)];
    [done|].
  rewrite Hactive in Ha. injection Ha as <-.
  pose proof (load_keeps (ct_driver self) (sn_run_id active)) as Hkeep. rewrite Hload in *. cbn [fst] in *.
  rewrite Hheld in Hkeep. pose proof (detach_exact_outcome ready (sn_attachment active) base Hkeep) as Hout.
  pose proof (detach_drops_journal ready (sn_attachment active) base Hkeep Hbase Hjournal) as Hgone.
  cbn [driver_detach_exact transaction_driver] in Hdrv. rewrite Hdrv in Hout, Hgone. cbn [fst snd] in *.
  destruct Hout as (_ & _ & Hev & leaked & Hl & Hlen). split_and!; [done| |].
  { exists leaked. split; [|done]. intros ->. by destruct (ae_cleanup_evidence failure). }
  assert (detach self' (sn_run_id active) =
    Some (set_driver self' (ownership_load (ct_driver self') (sn_run_id active)).1,
          Err (control_blocked PF_OWNERSHIP_MISMATCH))) as Hagain.
  { unfold detach. rewrite Hpaused. cbn [sn_run_id with_sampling_paused]. rewrite bool_decide_eq_true_2 by done.
    cbn [negb]. destruct (ownership_load (ct_driver self') (sn_run_id active)) as [d res] eqn:Hl2.
    cbn [fst]. destruct res as [committed|e]; [|done].
    apply load_journal in Hl2. cbv beta iota zeta. rewrite bool_decide_eq_false_2; [done|]. by intros ->. }
  eexists. split_and!; [exact Hagain| |done|apply load_keeps].
  unfold control_shutdown. rewrite Hpaused. exact Hagain.
Qed.

(** The TC filter cannot be detached once; afterwards everything would succeed. *)
Lemma failed_detach_cannot_be_retried_witness :
  let script := [true; true; true; true; true; true; true; true; true; true; true; true; false] in
  let self := default (ControlExample.control [] 0)
    (ControlExample.run_commands (ControlExample.control script 0) [AttachCommand Scripted.name Scripted.run_id]) in
  ∃ self' active error, detach self Scripted.run_id = Some (self', Err error) ∧
    ct_active self' = Some (with_sampling_paused active) ∧
    (∃ leaked, leaked ≠ [] ∧ held (at_ports (ct_driver self')) ≡ₚ leaked ++ []) ∧
    ∃ self'', detach self' Scripted.run_id = Some (self'', Err (control_blocked PF_OWNERSHIP_MISMATCH)) ∧
      control_shutdown self' = Some (self'', Err (control_blocked PF_OWNERSHIP_MISMATCH)) ∧
      ct_active self'' = ct_active self' ∧
      held (at_ports (ct_driver self'')) ≡ₚ held (at_ports (ct_driver self')).
Proof.
  cbv zeta.
  match goal with |- context [detach ?s Scripted.run_id] => set (self := s) end.
  assert (∃ self', detach self Scripted.run_id = Some (self', Err (control_internal OWNED_CLEANUP_INCOMPLETE)))
    as [self' Hd] by (eexists; vm_compute; reflexivity).
  set (active := mkActiveIsolatedSession Scripted.run_id Scripted.name ControlExample.session false).
  assert (ct_active self = Some active) as Ha by (vm_compute; reflexivity).
  assert (held (at_ports (ct_driver self)) = session_resources (sn_attachment active) ++ []) as Hh
    by (vm_compute; reflexivity).
  assert ((ownership_remove_exact (at_ports (ownership_load (ct_driver self) (sn_run_id active)).1)
      (sn_ownership active)).2 = Ok tt) as Hj by (vm_compute; reflexivity).
  exists self', active, (control_internal OWNED_CLEANUP_INCOMPLETE). split; [exact Hd|].
  apply (failed_detach_cannot_be_retried self self' active (control_internal OWNED_CLEANUP_INCOMPLETE) []).
  - exact Ha.
  - apply (eq_ind_r (λ l, l ≡ₚ _) (reflexivity _) Hh).
  - apply not_elem_of_nil.
  - exact Hj.
  - exact Hd.
  - done.
Defined.
