(* ===== verification/Transport.v ===== *)
(** The control protocol of the agent: the commands and results of
    [l2-loop-core] ([command.rs]), the requests and responses and their frames
    ([protocol.rs]), and the reading of a frame from a connection that delivers its
    bytes in pieces ([transport.rs]).  JSON, which the source only calls, is a class
    of functions; the connection is a class of one operation. *)
From S2P Require Import Prelude Domain Text Observation FrameHash Rate Baseline Detection Preflight Evidence Snapshot EvidenceStore.

(** ** Commands *)
Inductive AgentCommand : Type :=
| CommandPreflight (interface : InterfaceName)
| CommandIsolatedAttach (interface : InterfaceName) (run_id : string)
| CommandIsolatedDetach (run_id : string)
| CommandObserve (interface : InterfaceName)
| CommandStatus (interface : option InterfaceName)
| CommandProbe (request : ProbeRequest)
| CommandApplyPolicy (request : PolicyRequest)
| CommandDisablePolicy (rule_id : string)
| CommandEvidenceList (interface : option InterfaceName) (limit : Z) (cursor : option string)
| CommandEvidenceShow (event_id : EventId).

Record EvidenceListPageV1 : Type := mkEvidenceListPageV1 {
  elp_items : list EvidenceSummaryV1;
  elp_next_cursor : option string;
}.

Inductive AgentResult : Type :=
| ResultPreflight (report : PreflightReport)
| ResultAccepted
| ResultObservation (snapshot : ObservationSnapshot)
| ResultStatus (interfaces : list InterfaceStatus)
| ResultProbe (returned_frames : Z)
| ResultPolicyApplied (rule_id : string)
| ResultPolicyDisabled
| ResultEvidenceList (page : EvidenceListPageV1)
| ResultEvidence (detail : EvidenceDetailV1).

(** ** Requests and responses *)
Definition PROTOCOL_VERSION : Z := 1.
Definition MAX_PAYLOAD_LEN : Z := 1024 * 1024.
Definition ERROR_COMMAND_NOT_IMPLEMENTED : string := "COMMAND_NOT_IMPLEMENTED".
Definition ERROR_EARLY_EOF : string := "EARLY_EOF".
Definition ERROR_INTERNAL : string := "INTERNAL_ERROR".
Definition ERROR_INVALID_REQUEST : string := "INVALID_REQUEST".
Definition ERROR_PAYLOAD_TOO_LARGE : string := "PAYLOAD_TOO_LARGE".
Definition ERROR_REQUEST_TIMEOUT : string := "REQUEST_TIMEOUT".
Definition ERROR_RESPONSE_TOO_LARGE : string := "RESPONSE_TOO_LARGE".
Definition ERROR_TRANSPORT : string := "TRANSPORT_ERROR".
Definition ERROR_UNSUPPORTED_PROTOCOL_VERSION : string := "UNSUPPORTED_PROTOCOL_VERSION".

Record ControlRequest : Type := mkControlRequest {
  cq_protocol_version : Z;
  cq_command : AgentCommand;
}.

Definition ControlRequest_new (command : AgentCommand) : ControlRequest := mkControlRequest PROTOCOL_VERSION command.

Inductive ResponseBody : Type :=
| BodySuccess (result : AgentResult)
| BodyError (code message : string).

Record ControlResponse : Type := mkControlResponse {
  cr_protocol_version : Z;
  cr_body : ResponseBody;
}.

Definition response_success (result : AgentResult) : ControlResponse :=
  mkControlResponse PROTOCOL_VERSION (BodySuccess result).
Definition response_error (code message : string) : ControlResponse :=
  mkControlResponse PROTOCOL_VERSION (BodyError code message).

(** ** Frames *)
Inductive ProtocolError : Type :=
| MissingLengthPrefix
| PayloadTooLarge (declared maximum : Z)
| LengthMismatch (declared actual : Z)
| InvalidJson
| UnsupportedVersion (version : Z).

(** [serde_json] on the two messages; [None] is a failure. *)
Class ControlCodec : Type := {
  request_to_vec : ControlRequest → option (list Z);
  request_from_slice : list Z → option ControlRequest;
  response_to_vec : ControlResponse → option (list Z);
  response_from_slice : list Z → option ControlResponse;
}.

(** [u32::to_be_bytes] and [u32::from_be_bytes]. *)
Definition to_be_bytes (v : Z) : list Z :=
  [(v / 16777216) `mod` 256; (v / 65536) `mod` 256; (v / 256) `mod` 256; v `mod` 256].
Definition from_be_bytes (b0 b1 b2 b3 : Z) : Z := ((b0 * 256 + b1) * 256 + b2) * 256 + b3.

Definition encode_frame {T} (to_vec : T → option (list Z)) (value : T) : result ProtocolError (list Z) :=
  payload ← ok_or (to_vec value) InvalidJson;
  let len := Z.of_nat (length payload) in
  if MAX_PAYLOAD_LEN <? len then Err (PayloadTooLarge len MAX_PAYLOAD_LEN)
  else Ok (to_be_bytes len ++ payload).

Definition decode_frame {T} (from_slice : list Z → option T) (frame : list Z) : result ProtocolError T :=
  match frame with
  | b0 :: b1 :: b2 :: b3 :: payload =>
      let declared := from_be_bytes b0 b1 b2 b3 in
      if MAX_PAYLOAD_LEN <? declared then Err (PayloadTooLarge declared MAX_PAYLOAD_LEN)
      else
        let actual := Z.of_nat (length payload) in
        if negb (actual =? declared) then Err (LengthMismatch declared actual)
        else ok_or (from_slice payload) InvalidJson
  | _ => Err MissingLengthPrefix
  end.

Definition ensure_version (version : Z) : result ProtocolError unit :=
  if version =? PROTOCOL_VERSION then Ok tt else Err (UnsupportedVersion version).

Section protocol.
Context `{ControlCodec}.

Definition encode_request (request : ControlRequest) : result ProtocolError (list Z) :=
  _ ← ensure_version (cq_protocol_version request);
  encode_frame request_to_vec request.

Definition decode_request (frame : list Z) : result ProtocolError ControlRequest :=
  request ← decode_frame request_from_slice frame;
  _ ← ensure_version (cq_protocol_version request);
  Ok request.

Definition encode_response (response : ControlResponse) : result ProtocolError (list Z) :=
  _ ← ensure_version (cr_protocol_version response);
  encode_frame response_to_vec response.

Definition decode_response (frame : list Z) : result ProtocolError ControlResponse :=
  response ← decode_frame response_from_slice frame;
  _ ← ensure_version (cr_protocol_version response);
  Ok response.
End protocol.

(** ** Reading a frame *)
Definition LENGTH_PREFIX_LEN : nat := 4.

Inductive TransportError : Type :=
| EarlyEof (declared received : Z)
| FrameTooLarge (declared maximum : Z)
| TransportIo.

(** [AsyncReadExt::read] into a buffer of the given length: the bytes that came. *)
Class AsyncRead (R : Type) : Type := read_some : R → nat → R * result unit (list Z).

Section reading.
Context {R : Type} `{AsyncRead R}.
Implicit Types (reader : R).

(** The loop of [read_bounded] on a buffer of [n] bytes, of which [received] are
    filled; [None] is lack of fuel. *)
Fixpoint read_loop (fuel : nat) reader (received : list Z) (n : nat) : option (R * result unit (list Z)) :=
  match fuel with
  | O => None
  | S fuel =>
      if (length received <? n)%nat then
        match read_some reader (n - length received) with
        | (reader, Err error) => Some (reader, Err error)
        | (reader, Ok []) => Some (reader, Ok received)
        | (reader, Ok bytes) => read_loop fuel reader (received ++ bytes) n
        end
      else Some (reader, Ok received)
  end.

(** Every round but the last fills a byte. *)
Definition read_bounded reader (n : nat) : option (R * result unit (list Z)) := read_loop (S n) reader [] n.

Definition read_payload reader (prefix : list Z) (declared : Z) : option (R * result TransportError (list Z)) :=
  '(reader, payload) ← read_bounded reader (Z.to_nat declared);
  Some (reader,
    payload ← map_err (λ _, TransportIo) payload;
    if negb (Z.of_nat (length payload) =? declared) then Err (EarlyEof declared (Z.of_nat (length payload)))
    else Ok (prefix ++ payload)).

Definition read_frame reader : option (R * result TransportError (list Z)) :=
  '(reader, prefix) ← read_bounded reader LENGTH_PREFIX_LEN;
  match prefix with
  | Err _ => Some (reader, Err TransportIo)
  | Ok [b0; b1; b2; b3] =>
      let declared := from_be_bytes b0 b1 b2 b3 in
      if MAX_PAYLOAD_LEN <? declared then Some (reader, Err (FrameTooLarge declared MAX_PAYLOAD_LEN))
      else read_payload reader [b0; b1; b2; b3] declared
  | Ok prefix => Some (reader, Err (EarlyEof (Z.of_nat LENGTH_PREFIX_LEN) (Z.of_nat (length prefix))))
  end.
End reading.

(** ** Facts *)
Lemma from_to_be_bytes v b0 b1 b2 b3 :
  0 ≤ v < 4294967296 → to_be_bytes v = [b0; b1; b2; b3] → from_be_bytes b0 b1 b2 b3 = v.
Proof.
  intros Hv. unfold to_be_bytes, from_be_bytes. intros [= <- <- <- <-].
  rewrite (Z.mod_small (v / 16777216)).
  2: { split; [apply Z.div_pos; lia|apply Z.div_lt_upper_bound; lia]. }
  replace (v / 16777216) with (v / 65536 / 256) by (rewrite Z.div_div by lia; done).
  replace (v / 65536) with (v / 256 / 256) by (rewrite Z.div_div by lia; done).
  pose proof (Z.div_mod (v / 256 / 256) 256). pose proof (Z.div_mod (v / 256) 256). pose proof (Z.div_mod v 256). lia.
Qed.

(** A stream of bytes, and what [tokio] promises of a read into a buffer that is not empty: it takes bytes
    from the front of the stream, at most as many as fit, and none only at its end;
    it fails only on a connection that is broken, [intact] being what is not. *)
Class AsyncReadSpec (R : Type) `{AsyncRead R} : Type := {
  pending : R → list Z;
  intact : R → Prop;
  pending_bytes reader : Forall (λ b, 0 ≤ b < 256) (pending reader);
  read_some_law reader n : (0 < n)%nat →
    match read_some reader n with
    | (reader', Ok bytes) =>
        pending reader = bytes ++ pending reader' ∧ (length bytes ≤ n)%nat ∧ (bytes = [] → pending reader = [])
    | (_, Err _) => ¬ intact reader
    end;
  intact_kept reader n : intact reader → intact (read_some reader n).1;
}.

Section facts.
Context {R : Type} `{AsyncReadSpec R}.
Implicit Types (reader : R).

Lemma read_loop_spec fuel reader received n :
  (n < fuel + length received)%nat → (length received ≤ n)%nat →
  ∃ reader' res, read_loop fuel reader received n = Some (reader', res) ∧ (intact reader → intact reader') ∧
    match res with
    | Ok bytes =>
        ∃ more, bytes = received ++ more ∧ pending reader = more ++ pending reader' ∧ (length bytes ≤ n)%nat ∧
          ((length bytes < n)%nat → pending reader' = [])
    | Err _ => ¬ intact reader
    end.
Proof.
  revert reader received. induction fuel as [|fuel IH]; intros reader received Hfuel Hle; [lia|]. cbn [read_loop].
  destruct (Nat.ltb_spec (length received) n).
  2: { exists reader, (Ok received). split_and!; [done..|]. exists []. rewrite app_nil_r. split_and!; [done..|lia]. }
  pose proof (read_some_law reader (n - length received) ltac:(lia)) as Hlaw.
  pose proof (intact_kept reader (n - length received)) as Hint.
  destruct (read_some reader (n - length received)) as [reader1 [[|b bytes]|[]]]; cbn [fst] in Hint.
  - destruct Hlaw as (Hp & _ & Hend). specialize (Hend eq_refl). exists reader1, (Ok received). split_and!; [done..|]. exists [].
    rewrite app_nil_r. split_and!; [done|done|lia|]. intros _. rewrite Hend in Hp. by destruct (pending reader1).
  - destruct Hlaw as (Hp & Hl & _).
    destruct (IH reader1 (received ++ b :: bytes)) as (reader2 & res & Hr & Hint2 & Hres); [rewrite length_app; cbn in *; lia..|].
    exists reader2, res. split_and!; [exact Hr|by auto|]. destruct res as [all|]; [|by auto]. destruct Hres as (more & -> & Hp1 & Hl1 & Hend).
    exists ((b :: bytes) ++ more). rewrite app_assoc. split_and!; [done|by rewrite Hp, Hp1, app_assoc|done|done].
  - eexists _, _. split_and!; done.
Qed.

Lemma read_bounded_spec reader n :
  ∃ reader' res, read_bounded reader n = Some (reader', res) ∧ (intact reader → intact reader') ∧
    match res with
    | Ok bytes => pending reader = bytes ++ pending reader' ∧ (length bytes ≤ n)%nat ∧
        ((length bytes < n)%nat → pending reader' = [])
    | Err _ => ¬ intact reader
    end.
Proof.
  destruct (read_loop_spec (S n) reader [] n) as (reader' & res & Hr & Hint & Hres); [cbn; lia..|].
  exists reader', res. split_and!; [exact Hr|exact Hint|]. destruct res as [bytes|]; [|done]. by destruct Hres as (more & -> & ?).
Qed.

(** What a connection held when a frame was read from it. *)
Definition frame_read reader reader' (res : result TransportError (list Z)) : Prop :=
  match res with
  | Ok frame =>
      pending reader = frame ++ pending reader' ∧
      ∃ b0 b1 b2 b3 payload, frame = b0 :: b1 :: b2 :: b3 :: payload ∧
        from_be_bytes b0 b1 b2 b3 = Z.of_nat (length payload) ∧ Z.of_nat (length payload) ≤ MAX_PAYLOAD_LEN
  | Err (FrameTooLarge declared maximum) =>
      maximum = MAX_PAYLOAD_LEN ∧ MAX_PAYLOAD_LEN < declared ∧
      ∃ b0 b1 b2 b3, from_be_bytes b0 b1 b2 b3 = declared ∧ pending reader = [b0; b1; b2; b3] ++ pending reader'
  | Err (EarlyEof declared received) =>
      pending reader' = [] ∧ received < declared ∧
      ((declared = Z.of_nat LENGTH_PREFIX_LEN ∧ received = Z.of_nat (length (pending reader))) ∨
       (∃ b0 b1 b2 b3 payload, pending reader = b0 :: b1 :: b2 :: b3 :: payload ∧
          declared = from_be_bytes b0 b1 b2 b3 ∧ declared ≤ MAX_PAYLOAD_LEN ∧ received = Z.of_nat (length payload)))
  | Err TransportIo => ¬ intact reader
  end.

Lemma from_be_bytes_nonneg b0 b1 b2 b3 rest :
  Forall (λ b, 0 ≤ b < 256) (b0 :: b1 :: b2 :: b3 :: rest) → 0 ≤ from_be_bytes b0 b1 b2 b3.
Proof. intros Hb. repeat (apply Forall_cons in Hb as [? Hb]). unfold from_be_bytes. lia. Qed.

Lemma read_payload_spec reader b0 b1 b2 b3 declared :
  declared = from_be_bytes b0 b1 b2 b3 → 0 ≤ declared ≤ MAX_PAYLOAD_LEN →
  ∃ reader' res, read_payload reader [b0; b1; b2; b3] declared = Some (reader', res) ∧
    match res with
    | Ok frame => ∃ payload, frame = [b0; b1; b2; b3] ++ payload ∧ pending reader = payload ++ pending reader' ∧
        Z.of_nat (length payload) = declared
    | Err error => error = TransportIo ∧ ¬ intact reader ∨ pending reader' = [] ∧ Z.of_nat (length (pending reader)) < declared ∧
        error = EarlyEof declared (Z.of_nat (length (pending reader)))
    end.
Proof.
  intros Hd Hr. unfold read_payload.
  destruct (read_bounded_spec reader (Z.to_nat declared)) as (reader' & res & -> & _ & Hres). cbn [mbind option_bind].
  eexists _, _. split; [done|]. destruct res as [payload|]; cbn; [|by left]. destruct Hres as (Hp & Hl & Hend).
  destruct (Z.eqb_spec (Z.of_nat (length payload)) declared); cbn; [by exists payload|]. right.
  rewrite Hend in * by lia. rewrite app_nil_r in Hp. rewrite Hp. split_and!; [done|lia|done].
Qed.

(** Reading a frame, however the connection cuts up its bytes.  It returns, and
    unless the connection fails it depends on the bytes alone: a frame is its four
    bytes of length and exactly the bytes they declare, at most a megabyte, and
    nothing after them is taken; a longer frame is refused before any of its payload
    is read; a connection that ends before is reported with what came. *)
Lemma read_frame_spec reader :
  ∃ reader' res, read_frame reader = Some (reader', res) ∧ frame_read reader reader' res.
Proof.
  unfold read_frame. destruct (read_bounded_spec reader LENGTH_PREFIX_LEN) as (reader1 & res & -> & Hint & Hres).
  cbn [mbind option_bind]. destruct res as [prefix|]; [|by eexists _, _]. destruct Hres as (Hp & Hl & Hend).
  assert (∀ k, prefix = k → (length k < LENGTH_PREFIX_LEN)%nat →
    frame_read reader reader1 (Err (EarlyEof (Z.of_nat LENGTH_PREFIX_LEN) (Z.of_nat (length k))))) as Hshort.
  { intros k -> Hk. rewrite Hend in Hp by done. rewrite app_nil_r in Hp. split_and!; [by apply Hend|lia|]. left. by rewrite Hp. }
  destruct prefix as [|b0 [|b1 [|b2 [|b3 [|]]]]]; [eexists _, _; split; [done|apply Hshort; [done|unfold LENGTH_PREFIX_LEN; cbn; lia]]..| |unfold LENGTH_PREFIX_LEN in Hl; cbn in Hl; lia].
  pose proof (pending_bytes reader) as Hb. rewrite Hp in Hb. apply from_be_bytes_nonneg in Hb.
  destruct (Z.ltb_spec MAX_PAYLOAD_LEN (from_be_bytes b0 b1 b2 b3)).
  { eexists _, _. split; [done|]. split_and!; [done..|]. by exists b0, b1, b2, b3. }
  destruct (read_payload_spec reader1 b0 b1 b2 b3 _ eq_refl ltac:(lia)) as (reader2 & res & -> & Hres).
  eexists _, _. split; [done|]. destruct res as [frame|error].
  - destruct Hres as (payload & -> & Hp1 & Hlen). split; [by rewrite Hp, Hp1, app_assoc|].
    exists b0, b1, b2, b3, payload. split_and!; [done|done|lia].
  - destruct Hres as [[-> Hbad]|(Hend1 & Hlt & ->)]; [cbn; tauto|]. split_and!; [done|lia|]. right.
    exists b0, b1, b2, b3, (pending reader1). rewrite Hp. split_and!; done.
Qed.

Lemma encode_frame_ok {T} (to_vec : T → option (list Z)) value frame :
  encode_frame to_vec value = Ok frame →
  ∃ b0 b1 b2 b3 payload, to_vec value = Some payload ∧ frame = b0 :: b1 :: b2 :: b3 :: payload ∧
    from_be_bytes b0 b1 b2 b3 = Z.of_nat (length payload) ∧ Z.of_nat (length payload) ≤ MAX_PAYLOAD_LEN.
Proof.
  unfold encode_frame. destruct (to_vec value) as [payload|]; [|done]. cbn [ok_or mbind result_bind].
  destruct (Z.ltb_spec MAX_PAYLOAD_LEN (Z.of_nat (length payload))); [done|]. intros [= <-].
  assert (MAX_PAYLOAD_LEN < 4294967296) by done.
  eexists _, _, _, _, payload. split_and!; [done|done| |done]. apply from_to_be_bytes; [lia|done].
Qed.

Lemma decode_encoded {T} (to_vec : T → option (list Z)) (from_slice : list Z → option T) value frame :
  encode_frame to_vec value = Ok frame → (∀ payload, to_vec value = Some payload → from_slice payload = Some value) →
  decode_frame from_slice frame = Ok value.
Proof.
  intros (b0 & b1 & b2 & b3 & payload & Hv & -> & Hd & Hl)%encode_frame_ok Hcodec. cbn [decode_frame].
  rewrite Hd, (proj2 (Z.ltb_ge _ _)) by done. rewrite Z.eqb_refl. cbn [negb]. by rewrite (Hcodec _ Hv).
Qed.

(** C39: A request arrives as it was sent.  Whatever follows its frame and however
    the connection cuts it up, reading either fails with the connection or returns
    exactly the frame, which decodes to the request, and leaves what follows. *)
Theorem request_arrives `{ControlCodec} request frame rest reader :
  encode_request request = Ok frame → pending reader = frame ++ rest →
  (∀ payload, request_to_vec request = Some payload → request_from_slice payload = Some request) →
  ∃ reader' res, read_frame reader = Some (reader', res) ∧
    (res = Err TransportIo ∨ res = Ok frame ∧ pending reader' = rest ∧ decode_request frame = Ok request).
Proof.
  intros Henc Hp Hcodec. unfold encode_request in Henc. destruct (ensure_version _) as [[]|] eqn:Hversion; [|done].
  cbn [mbind result_bind] in Henc. pose proof (decode_encoded _ _ _ _ Henc Hcodec) as Hdec.
  apply encode_frame_ok in Henc as (b0 & b1 & b2 & b3 & payload & _ & -> & Hd & Hl).
  destruct (read_frame_spec reader) as (reader' & res & Hr & Hread). exists reader', res. split; [exact Hr|].
  destruct res as [frame|[declared received|declared maximum|]]; [| | |by left]; cbn in Hread.
  - right. destruct Hread as (Hp' & c0 & c1 & c2 & c3 & payload' & -> & Hd' & _). rewrite Hp in Hp'.
    injection Hp' as -> -> -> -> Happ. assert (payload = payload') as <-.
    { apply (f_equal (take (length payload))) in Happ. rewrite take_app_length, take_app_le, firstn_all2 in Happ by lia. done. }
    apply app_inv_head in Happ as <-. split_and!; [done|done|]. unfold decode_request. rewrite Hdec. cbn.
    by rewrite Hversion.
  - exfalso. destruct Hread as (_ & Hlt & [[-> ->]|(c0 & c1 & c2 & c3 & all & Hp' & -> & _ & ->)]); rewrite Hp in *.
    + unfold LENGTH_PREFIX_LEN in Hlt. cbn [length app] in Hlt. lia.
    + injection Hp' as -> -> -> -> <-. rewrite length_app in Hlt. lia.
  - exfalso. destruct Hread as (-> & Hlt & c0 & c1 & c2 & c3 & <- & Hp'). rewrite Hp in Hp'. injection Hp' as -> -> -> -> _. lia.
Qed.
End facts.

(** ** A connection in pieces *)
Module TransportExample.

(** What is still to come, piece by piece. *)
Definition Pieces : Type := list (list Z).

Definition byte (b : Z) : Z := b `mod` 256.

Fixpoint read_pieces (l : Pieces) (n : nat) : Pieces * result unit (list Z) :=
  match l with
  | [] => ([], Ok [])
  | [] :: l => read_pieces l n
  | piece :: l => (drop n piece :: l, Ok (byte <$> take n piece))
  end.

#[export] Instance pieces_read : AsyncRead Pieces := read_pieces.

#[export] Instance pieces_spec : AsyncReadSpec Pieces.
Proof.
  refine {| pending l := byte <$> mjoin l; intact l := True |}.
  - intros l. apply Forall_fmap, Forall_forall. intros b _. unfold compose, byte. by apply Z.mod_pos_bound.
  - intros l n Hn. unfold read_some, pieces_read. induction l as [|[|b piece] l IH]; [cbn; split_and!; [done|lia|done]|exact IH|].
    cbn [read_pieces]. cbn [mjoin list_join]. rewrite <-(take_drop n (b :: piece)) at 1.
    rewrite <-app_assoc, fmap_app. split_and!; [done|rewrite length_fmap, length_take; lia|]. destruct n; [lia|]. done.
  - done.
Defined.

Definition request : ControlRequest := ControlRequest_new (CommandStatus None).

#[export] Instance one_request : ControlCodec := {
  request_to_vec q := match cq_command q with CommandStatus None => Some [123; 125] | _ => None end;
  request_from_slice text := if decide (text = [123; 125]) then Some request else None;
  response_to_vec r := match cr_body r with BodyError _ _ => Some [91; 93] | _ => None end;
  response_from_slice text :=
    if decide (text = [91; 93]) then Some (response_error ERROR_INTERNAL "response encoding failed") else None;
}.

(** The frame in three pieces, with two more bytes behind it. *)
Definition pieces : Pieces := [[0]; [0; 0]; []; [2; 123]; [125; 7; 7]].
End TransportExample.

Section witness.
Import TransportExample.

Lemma request_arrives_witness :
  ∃ reader, read_frame pieces = Some (reader, Ok [0; 0; 0; 2; 123; 125]) ∧
    pending reader = [7; 7] ∧ decode_request [0; 0; 0; 2; 123; 125] = Ok request.
Proof.
  destruct (request_arrives request [0; 0; 0; 2; 123; 125] [7; 7] pieces)
    as (reader & res & Hr & [->|(-> & Hp & Hd)]).
  - reflexivity.
  - reflexivity.
  - intros payload. cbn. intros [= <-]. reflexivity.
  - vm_compute in Hr. discriminate Hr.
  - exists reader. split; [exact Hr|]. split; [exact Hp|exact Hd].
Defined.
End witness.
