(* ===== verification/Daemon.v ===== *)
(** The daemon of [l2-loop-agent] ([daemon.rs], [preflight.rs]): the dispatcher that
    turns requests into responses, the connection around it, the bounded server, the
    sampling loop and the coordination of the three at the end.

    The control, the evidence and the inspector behind the dispatcher are classes of
    operations.  Each is behind a mutex and runs on the blocking pool: a panic ends
    the task and poisons the mutex.  [None] of an operation is a panic. *)
From S2P Require Import Prelude Domain Text Observation FrameHash Rate Baseline FingerprintWindow Detection Preflight Ownership Attach Evidence Snapshot EvidenceStore EvidenceTree EvidenceStoreFacts Incident Output Shared Sampling Control Transport.

(** ** Preflight *)
Class PlatformInspector (P : Type) : Type :=
  inspect_interface : P → InterfaceName → P * option (result PortError PreflightReport).

(** The characters that [str::trim] removes, in UTF-8. *)
Fixpoint is_blank_bytes (bytes : list Z) : bool :=
  match bytes with
  | [] => true
  | b :: bytes =>
      if ((9 <=? b) && (b <=? 13)) || (b =? 32) then is_blank_bytes bytes
      else
        match b, bytes with
        | 0xC2, c :: bytes => ((c =? 0x85) || (c =? 0xA0)) && is_blank_bytes bytes
        | 0xE1, 0x9A :: 0x80 :: bytes => is_blank_bytes bytes
        | 0xE2, 0x80 :: c :: bytes =>
            (((0x80 <=? c) && (c <=? 0x8A)) || (c =? 0xA8) || (c =? 0xA9) || (c =? 0xAF)) && is_blank_bytes bytes
        | 0xE2, 0x81 :: 0x9F :: bytes => is_blank_bytes bytes
        | 0xE3, 0x80 :: 0x80 :: bytes => is_blank_bytes bytes
        | _, _ => false
        end
  end.

(** [value.trim().is_empty()]. *)
Definition is_blank (value : string) : bool := is_blank_bytes (ascii_code <$> string_bytes value).

Definition validate_report (requested : InterfaceName) (report : PreflightReport) : result PortError unit :=
  if negb (bool_decide (ir_name (ii_requested (pr_interface report)) = requested))
  then Err (InvalidReport "requested interface does not match report")
  else if ii_isolated (pr_interface report) && ii_live_shared (pr_interface report)
  then Err (InvalidReport "interface cannot be both isolated and live/shared")
  else if bool_decide (ii_kind (pr_interface report) = Bond) && is_none (ii_bond (pr_interface report))
  then Err (InvalidReport "bond interface is missing bond details")
  else if existsb (λ finding, is_blank (pf_code finding)) (pr_findings report)
  then Err (InvalidReport "finding code must not be empty")
  else if existsb (λ finding, is_blank (pf_message finding)) (pr_findings report)
  then Err (InvalidReport "finding message must not be empty")
  else Ok tt.

(** [PreflightService::execute]: the decision of the report is derived anew. *)
Definition preflight_execute {P} `{PlatformInspector P} (inspector : P) (requested : InterfaceName)
    : P * option (result PortError AgentResult) :=
  match inspect_interface inspector requested with
  | (inspector, None) => (inspector, None)
  | (inspector, Some res) =>
      (inspector, Some (
         report ← res;
         _ ← validate_report requested report;
         Ok (ResultPreflight (PreflightReport_new (pr_interface report) (pr_kernel report) (pr_bpf report)
               (pr_findings report)))))
  end.

(** ** The controls *)
Class IsolatedControl (C : Type) : Type := {
  isolated_attach : C → InterfaceName → RunId → C * option (result IsolatedControlError unit);
  isolated_detach : C → RunId → C * option (result IsolatedControlError unit);
  isolated_sample_tick : C → C * option (result IsolatedControlError IsolatedSamplingOutcome);
  isolated_observe : C → InterfaceName → C * option (result IsolatedControlError ObservationSnapshot);
  isolated_status : C → option InterfaceName → C * option (result IsolatedControlError (list InterfaceStatus));
  isolated_shutdown : C → C * option (result IsolatedControlError unit);
}.

Inductive EvidenceControlError : Type := EvidenceInvalidRequest | EvidenceMissing | EvidenceUnavailable.

Class EvidenceControl (E : Type) : Type := {
  evidence_list : E → option InterfaceName → Z → option string → E * option (result EvidenceControlError EvidenceListPageV1);
  evidence_show : E → EventId → E * option (result EvidenceControlError EvidenceDetailV1);
}.

Definition map_evidence_error (error : EvidenceStoreError) : EvidenceControlError :=
  match error with EvidenceNotFound => EvidenceMissing | _ => EvidenceUnavailable end.

Definition list_query (interface : option InterfaceName) (limit : Z) (cursor : option string)
    : result EvidenceControlError EvidenceListQuery :=
  cursor ← map_err (λ _, EvidenceInvalidRequest)
    match cursor with None => Ok None | Some value => Some <$> parse_for value interface end;
  map_err (λ _, EvidenceInvalidRequest) (EvidenceListQuery_new interface (Some limit) cursor).

Definition list_page (page : EvidencePage) : EvidenceListPageV1 :=
  mkEvidenceListPageV1 (ep_items page) (EvidenceCursor_to_string <$> ep_next_cursor page).

#[export] Instance shared_evidence : EvidenceControl SharedEvidenceStore := {
  evidence_list self interface limit cursor :=
    match list_query interface limit cursor with
    | Err error => (self, Some (Err error))
    | Ok query =>
        match shared_list self query with
        | (self, None) => (self, None)
        | (self, Some page) => (self, Some (page ← map_err map_evidence_error page; Ok (list_page page)))
        end
    end;
  evidence_show self event_id := (self, Some (map_err map_evidence_error (shared_get self event_id)));
}.

(** ** Responses *)
Definition EVIDENCE_INVALID_REQUEST : string := "EVIDENCE_INVALID_REQUEST".
Definition EVIDENCE_NOT_FOUND : string := "EVIDENCE_NOT_FOUND".
Definition EVIDENCE_UNAVAILABLE : string := "EVIDENCE_UNAVAILABLE".

Inductive IsolatedDispatchFailure : Type := FailureLock | FailureControl (error : IsolatedControlError).

Definition isolated_response (controlled : joined (result IsolatedDispatchFailure unit)) : ControlResponse :=
  match controlled with
  | Joined (Ok _) => response_success ResultAccepted
  | Joined (Err (FailureControl error)) =>
      if ice_blocked error then response_error (ice_code error) "isolated attachment was blocked"
      else response_error (ice_code error) "isolated control failed"
  | Joined (Err FailureLock) | JoinFailed => response_error ERROR_INTERNAL "isolated control failed"
  end.

Definition observation_response {T} (controlled : joined (result IsolatedDispatchFailure T)) (success : T → AgentResult)
    : ControlResponse :=
  match controlled with
  | Joined (Ok value) => response_success (success value)
  | Joined (Err (FailureControl error)) => response_error (ice_code error) "observation failed"
  | Joined (Err FailureLock) | JoinFailed => response_error ERROR_INTERNAL "observation failed"
  end.

Definition evidence_response {T} (controlled : joined (result EvidenceControlError T)) (success : T → AgentResult)
    : ControlResponse :=
  match controlled with
  | Joined (Ok value) => response_success (success value)
  | Joined (Err EvidenceInvalidRequest) => response_error EVIDENCE_INVALID_REQUEST "invalid bounded evidence query"
  | Joined (Err EvidenceMissing) => response_error EVIDENCE_NOT_FOUND "evidence event was not found"
  | Joined (Err EvidenceUnavailable) | JoinFailed => response_error EVIDENCE_UNAVAILABLE "evidence is unavailable"
  end.

Definition preflight_response (inspected : joined (result unit AgentResult)) : ControlResponse :=
  match inspected with
  | Joined (Ok result) => response_success result
  | Joined (Err _) | JoinFailed => response_error ERROR_INTERNAL "preflight inspection failed"
  end.

Inductive DaemonError : Type :=
| InvalidParent | UnsafeParentOwner | UnsafeParentPermissions | SocketPathNotSocket | SocketInUse
| IsolatedCleanup | Sampler | InvalidAcceptanceFault | DaemonIo (operation : string).

(** ** The dispatcher *)
Record DaemonDispatcher (P C E : Type) : Type := mkDaemonDispatcher {
  dd_preflight : Lock P;
  dd_isolated : option (Lock C);
  dd_evidence : option (Lock E);
}.
Arguments mkDaemonDispatcher {P C E} _ _ _.
Arguments dd_preflight {P C E} _.
Arguments dd_isolated {P C E} _.
Arguments dd_evidence {P C E} _.

Section dispatcher.
Context {P C E : Type} `{PlatformInspector P} `{IsolatedControl C} `{EvidenceControl E}.
Local Notation dispatcher := (DaemonDispatcher P C E).
Implicit Types (self : dispatcher).

Definition DaemonDispatcher_new (preflight : P) : dispatcher := mkDaemonDispatcher (Lock_new preflight) None None.
Definition with_isolated_control (preflight : P) (isolated : C) : dispatcher :=
  mkDaemonDispatcher (Lock_new preflight) (Some (Lock_new isolated)) None.
Definition with_controls (preflight : P) (isolated : C) (evidence : E) : dispatcher :=
  mkDaemonDispatcher (Lock_new preflight) (Some (Lock_new isolated)) (Some (Lock_new evidence)).

Definition set_isolated self (isolated : Lock C) : dispatcher :=
  mkDaemonDispatcher (dd_preflight self) (Some isolated) (dd_evidence self).
Definition set_evidence self (evidence : Lock E) : dispatcher :=
  mkDaemonDispatcher (dd_preflight self) (dd_isolated self) (Some evidence).

(** One operation of the isolated control, if it is enabled. *)
Definition with_isolated {T} self (disabled : string) (operation : C → C * option (result IsolatedControlError T))
    (response : joined (result IsolatedDispatchFailure T) → ControlResponse) : dispatcher * ControlResponse :=
  match dd_isolated self with
  | None => (self, response_error ERROR_COMMAND_NOT_IMPLEMENTED disabled)
  | Some isolated =>
      let '(isolated, controlled) :=
        blocking isolated (Err FailureLock)
          (λ control, let '(control, res) := operation control in (control, map_err FailureControl <$> res)) in
      (set_isolated self isolated, response controlled)
  end.

Definition with_evidence_control {T} self (operation : E → E * option (result EvidenceControlError T))
    (response : joined (result EvidenceControlError T) → ControlResponse) : dispatcher * ControlResponse :=
  match dd_evidence self with
  | None => (self, response_error EVIDENCE_UNAVAILABLE "evidence is unavailable")
  | Some evidence =>
      let '(evidence, controlled) := blocking evidence (Err EvidenceUnavailable) operation in
      (set_evidence self evidence, response controlled)
  end.

Definition dispatch self (request : ControlRequest) : dispatcher * ControlResponse :=
  match cq_command request with
  | CommandPreflight interface =>
      let '(preflight, inspected) :=
        blocking (dd_preflight self) (Err tt)
          (λ service, let '(service, res) := preflight_execute service interface in (service, map_err (λ _, tt) <$> res)) in
      (mkDaemonDispatcher preflight (dd_isolated self) (dd_evidence self), preflight_response inspected)
  | CommandIsolatedAttach interface run_id =>
      match RunId_parse run_id with
      | Err _ => (self, response_error ERROR_INVALID_REQUEST "invalid isolated run ID")
      | Ok run_id =>
          with_isolated self "isolated control is not enabled"
            (λ control, isolated_attach control interface run_id) isolated_response
      end
  | CommandIsolatedDetach run_id =>
      match RunId_parse run_id with
      | Err _ => (self, response_error ERROR_INVALID_REQUEST "invalid isolated run ID")
      | Ok run_id =>
          with_isolated self "isolated control is not enabled"
            (λ control, isolated_detach control run_id) isolated_response
      end
  | CommandObserve interface =>
      with_isolated self "command is not implemented" (λ control, isolated_observe control interface)
        (λ controlled, observation_response controlled ResultObservation)
  | CommandStatus interface =>
      with_isolated self "command is not implemented" (λ control, isolated_status control interface)
        (λ controlled, observation_response controlled ResultStatus)
  | CommandEvidenceList interface limit cursor =>
      with_evidence_control self (λ evidence, evidence_list evidence interface limit cursor)
        (λ controlled, evidence_response controlled ResultEvidenceList)
  | CommandEvidenceShow event_id =>
      with_evidence_control self (λ evidence, evidence_show evidence event_id)
        (λ controlled, evidence_response controlled ResultEvidence)
  | CommandProbe _ | CommandApplyPolicy _ | CommandDisablePolicy _ =>
      (self, response_error ERROR_COMMAND_NOT_IMPLEMENTED "command is not implemented")
  end.

Definition shutdown_isolated self : dispatcher * result IsolatedControlError unit :=
  match dd_isolated self with
  | None => (self, Ok tt)
  | Some isolated =>
      let '(isolated, controlled) :=
        blocking isolated (Err (control_internal "ISOLATED_CONTROL_LOCK")) isolated_shutdown in
      (set_isolated self isolated,
       match controlled with Joined res => res | JoinFailed => Err (control_internal "ISOLATED_CONTROL_JOIN") end)
  end.

Definition sample_isolated self : dispatcher * result DaemonError IsolatedSamplingOutcome :=
  match dd_isolated self with
  | None => (self, Ok IsolatedIdle)
  | Some isolated =>
      let '(isolated, controlled) :=
        blocking isolated (Err Sampler)
          (λ control, let '(control, res) := isolated_sample_tick control in (control, map_err (λ _, Sampler) <$> res)) in
      (set_isolated self isolated, match controlled with Joined res => res | JoinFailed => Err Sampler end)
  end.
End dispatcher.

(** The isolated control of this program.  What a panic leaves of it cannot be seen:
    its mutex is poisoned. *)
#[export] Instance transaction_control {D W S B} `{IsolatedAttachmentDriver D} `{ControlEnvironment D}
    `{ObservationPorts W} `{EventIdSource S} `{IncidentOutputBackend B} {linux_source : S}
    : IsolatedControl (TransactionIsolatedControl D W S B) :=
  let ran {T} (control : TransactionIsolatedControl D W S B) (m : option (TransactionIsolatedControl D W S B * T)) :=
    match m with None => (control, None) | Some (control, res) => (control, Some res) end in
  {|
    isolated_attach control interface run_id := ran control (Some (attach linux_source control interface run_id));
    isolated_detach control run_id := ran control (detach control run_id);
    isolated_sample_tick control := ran control (control_sample_tick control);
    isolated_observe control interface := ran control (Some (control_observe control interface));
    isolated_status control interface := ran control (Some (control_status control interface));
    isolated_shutdown control := ran control (control_shutdown control);
  |}.

(** ** A connection *)
Definition transport_error_response (error : TransportError) : ControlResponse :=
  match error with
  | EarlyEof _ _ => response_error ERROR_EARLY_EOF "request frame ended early"
  | FrameTooLarge _ _ => response_error ERROR_PAYLOAD_TOO_LARGE "request payload is too large"
  | TransportIo => response_error ERROR_TRANSPORT "request transport failed"
  end.

Definition protocol_error_response (error : ProtocolError) : ControlResponse :=
  match error with
  | UnsupportedVersion _ => response_error ERROR_UNSUPPORTED_PROTOCOL_VERSION "unsupported protocol version"
  | PayloadTooLarge _ _ => response_error ERROR_PAYLOAD_TOO_LARGE "request payload is too large"
  | _ => response_error ERROR_INVALID_REQUEST "request is malformed"
  end.

(** When the timeout of a request strikes: before its handler runs, or while it does.
    The operation of the handler is on the blocking pool, so that it is completed
    then, but nobody waits for its answer. *)
Inductive Interruption : Type := InTime | WhileReading | WhileHandling.

#[export] Instance Interruption_eq_dec : EqDecision Interruption.
Proof. solve_decision. Defined.

Section connection.
Context `{ControlCodec} {R : Type} `{AsyncRead R} {S : Type} (handler : S → ControlRequest → S * ControlResponse).

(** [None] is the panic of [expect]. *)
Definition encode_bounded_response (response : ControlResponse) : option (list Z) :=
  match encode_response response with
  | Ok frame => Some frame
  | Err (PayloadTooLarge _ _) =>
      match encode_response (response_error ERROR_RESPONSE_TOO_LARGE "response payload is too large") with
      | Ok frame => Some frame | Err _ => None end
  | Err _ =>
      match encode_response (response_error ERROR_INTERNAL "response encoding failed") with
      | Ok frame => Some frame | Err _ => None end
  end.

(** [None] is lack of fuel. *)
Definition response_for (reader : R) (state : S) : option (R * S * ControlResponse) :=
  '(reader, frame) ← read_frame reader;
  match frame with
  | Err error => Some (reader, state, transport_error_response error)
  | Ok frame =>
      match decode_request frame with
      | Err error => Some (reader, state, protocol_error_response error)
      | Ok request => let '(state, response) := handler state request in Some (reader, state, response)
      end
  end.

Definition request_timeout : ControlResponse := response_error ERROR_REQUEST_TIMEOUT "request timed out".

(** The frame that is written, and what the handler left. *)
Definition serve_connection (reader : R) (state : S) (interruption : Interruption) : option (S * list Z) :=
  '(state, response) ←
    match interruption with
    | WhileReading => Some (state, request_timeout)
    | InTime => '(_, state, response) ← response_for reader state; Some (state, response)
    | WhileHandling => '(_, state, _) ← response_for reader state; Some (state, request_timeout)
    end;
  frame ← encode_bounded_response response;
  Some (state, frame).
End connection.

(** ** The bounded server *)
Definition MAX_ACTIVE_HANDLERS : nat := 16.

Inductive ServerPhase : Type :=
| AwaitingPermit | AwaitingConnection | DrainingTasks | ServerStopped (outcome : result DaemonError unit).

(** The tasks of connections, each of which holds a permit, and the loop of [serve],
    which holds one while it waits for a connection. *)
Record Server : Type := mkServer { sv_tasks : nat; sv_phase : ServerPhase }.

Definition permits_held (server : Server) : nat :=
  sv_tasks server + match sv_phase server with AwaitingConnection => 1 | _ => 0 end.

Inductive server_event : Type :=
| PermitAcquired | ConnectionAccepted | AcceptFailed | ConnectionFinished | ServerShutdown | TasksJoined.

(** A failed accept returns from [serve], which drops the set of tasks and aborts
    them. *)
Inductive server_step : Server → server_event → Server → Prop :=
| ServerAcquire tasks : (tasks < MAX_ACTIVE_HANDLERS)%nat →
    server_step (mkServer tasks AwaitingPermit) PermitAcquired (mkServer tasks AwaitingConnection)
| ServerAccept tasks :
    server_step (mkServer tasks AwaitingConnection) ConnectionAccepted (mkServer (S tasks) AwaitingPermit)
| ServerAcceptError tasks :
    server_step (mkServer tasks AwaitingConnection) AcceptFailed (mkServer 0 (ServerStopped (Err (DaemonIo "accept"))))
| ServerFinish tasks phase : (∀ outcome, phase ≠ ServerStopped outcome) →
    server_step (mkServer (S tasks) phase) ConnectionFinished (mkServer tasks phase)
| ServerStop tasks phase : phase = AwaitingPermit ∨ phase = AwaitingConnection →
    server_step (mkServer tasks phase) ServerShutdown (mkServer tasks DrainingTasks)
| ServerJoined :
    server_step (mkServer 0 DrainingTasks) TasksJoined (mkServer 0 (ServerStopped (Ok tt))).

Definition server_start : Server := mkServer 0 AwaitingPermit.

(** ** The sampling loop *)

(** [seen] is the value of the shutdown after the tick. *)
Inductive sampling_event : Type := IntervalTick (seen : bool) | ShutdownChanged (value : bool) | ShutdownSenderGone.

Section daemon.
Context {P C E : Type} `{PlatformInspector P} `{IsolatedControl C} `{EvidenceControl E}.
Local Notation dispatcher := (DaemonDispatcher P C E).
Implicit Types (self : dispatcher).

(** [shutdown] is the value that the loop sees at its head; [None] is a loop that is
    still waiting after the events. *)
Fixpoint sampling_loop self (shutdown : bool) (events : list sampling_event)
    : dispatcher * option (result DaemonError unit) :=
  if shutdown then (self, Some (Ok tt))
  else
    match events with
    | [] => (self, None)
    | ShutdownSenderGone :: _ => (self, Some (Ok tt))
    | ShutdownChanged value :: events => if value then (self, Some (Ok tt)) else sampling_loop self value events
    | IntervalTick seen :: events =>
        if seen then (self, Some (Ok tt))
        else
          match sample_isolated self with
          | (self, Err error) => (self, Some (Err error))
          | (self, Ok _) => sampling_loop self shutdown events
          end
    end.

(** [period] in nanoseconds. *)
Definition run_sampling_loop_with_period self (period : Z) (shutdown : bool) (events : list sampling_event)
    : dispatcher * option (result DaemonError unit) :=
  if period =? 0 then (self, Some (Err Sampler)) else sampling_loop self shutdown events.

Definition run_sampling_loop self (shutdown : bool) (events : list sampling_event)
    : dispatcher * option (result DaemonError unit) :=
  run_sampling_loop_with_period self (duration_from_secs 1) shutdown events.

(** ** The end of the daemon *)

(** The order in which the failures are reported. *)
Definition coordinate_result (sampler_exited_first : bool) (sampler : joined (result DaemonError unit))
    (server cleanup : result DaemonError unit) : result DaemonError unit :=
  match sampler with
  | Joined (Ok _) =>
      if sampler_exited_first then Err Sampler
      else _ ← server; cleanup
  | Joined (Err _) | JoinFailed => Err Sampler
  end.

(** The server and the sampler run until they exit; [co_first] is set by the first
    of the signal, the server and the sampler, with whether it was the sampler.  A
    request whose connection has ended before its operation began, by the timeout or
    because a failed accept aborts the tasks of the server, is still on the blocking
    pool: it is in [co_late], and [co_abandoned] counts all of them. *)
Record Coordinator : Type := mkCoordinator {
  co_dispatcher : dispatcher;
  co_server : option (result DaemonError unit);
  co_sampler : option (joined (result DaemonError unit));
  co_first : option bool;
  co_late : list ControlRequest;
  co_abandoned : nat;
  co_outcome : option (result DaemonError unit);
}.

Definition coordinator_start self : Coordinator := mkCoordinator self None None None [] 0 None.

Definition cleanup_isolated self : dispatcher * result DaemonError unit :=
  let '(self, res) := shutdown_isolated self in (self, map_err (λ _, IsolatedCleanup) res).

Inductive coordinator_step : Coordinator → Coordinator → Prop :=
| CoordinatorDispatch self sampler first late n request :
    coordinator_step (mkCoordinator self None sampler first late n None)
      (mkCoordinator (dispatch self request).1 None sampler first late n None)
| CoordinatorAbandon self sampler first late n request :
    coordinator_step (mkCoordinator self None sampler first late n None)
      (mkCoordinator self None sampler first (request :: late) (S n) None)
| CoordinatorLate self server sampler first late late' n request outcome :
    late ≡ₚ request :: late' →
    coordinator_step (mkCoordinator self server sampler first late n outcome)
      (mkCoordinator (dispatch self request).1 server sampler first late' n outcome)
| CoordinatorSample self server first late n :
    coordinator_step (mkCoordinator self server None first late n None)
      (mkCoordinator (sample_isolated self).1 server None first late n None)
| CoordinatorServerExit self sampler first late n outcome :
    coordinator_step (mkCoordinator self None sampler first late n None)
      (mkCoordinator self (Some outcome) sampler first late n None)
| CoordinatorSamplerExit self server first late n outcome :
    coordinator_step (mkCoordinator self server None first late n None)
      (mkCoordinator self server (Some outcome) first late n None)
| CoordinatorSignal self server sampler late n :
    coordinator_step (mkCoordinator self server sampler None late n None)
      (mkCoordinator self server sampler (Some false) late n None)
| CoordinatorServerFirst self outcome sampler late n :
    coordinator_step (mkCoordinator self (Some outcome) sampler None late n None)
      (mkCoordinator self (Some outcome) sampler (Some false) late n None)
| CoordinatorSamplerFirst self server outcome late n :
    coordinator_step (mkCoordinator self server (Some outcome) None late n None)
      (mkCoordinator self server (Some outcome) (Some true) late n None)
| CoordinatorCleanup self server sampler first late n self' cleanup :
    cleanup_isolated self = (self', cleanup) →
    coordinator_step (mkCoordinator self (Some server) (Some sampler) (Some first) late n None)
      (mkCoordinator self' (Some server) (Some sampler) (Some first) late n
         (Some (coordinate_result first sampler server cleanup))).

Definition dispatch_all self (requests : list ControlRequest) : dispatcher :=
  foldl (λ self request, (dispatch self request).1) self requests.

(** ** The dispatcher answers *)
Lemma dispatch_version self request : cr_protocol_version (dispatch self request).2 = PROTOCOL_VERSION.
Proof.
  assert (∀ T disabled (op : C → C * option (result IsolatedControlError T)) response,
    (∀ r, cr_protocol_version (response r) = PROTOCOL_VERSION) →
    cr_protocol_version (with_isolated self disabled op response).2 = PROTOCOL_VERSION) as Hiso.
  { intros T disabled op response Hr. unfold with_isolated. destruct (dd_isolated self); [|done].
    destruct (blocking _ _ _). apply Hr. }
  assert (∀ T (op : E → E * option (result EvidenceControlError T)) response,
    (∀ r, cr_protocol_version (response r) = PROTOCOL_VERSION) →
    cr_protocol_version (with_evidence_control self op response).2 = PROTOCOL_VERSION) as Hev.
  { intros T op response Hr. unfold with_evidence_control. destruct (dd_evidence self); [|done].
    destruct (blocking _ _ _). apply Hr. }
  unfold dispatch. destruct (cq_command request); try done; try destruct (RunId_parse _); try done.
  - by destruct (blocking _ _ _) as [? [[]|]].
  - apply Hiso. intros [[[]|[|error]]|]; try done. cbn. by destruct (ice_blocked error).
  - apply Hiso. intros [[[]|[|error]]|]; try done. cbn. by destruct (ice_blocked error).
  - apply Hiso. by intros [[|[]]|].
  - apply Hiso. by intros [[|[]]|].
  - apply Hev. by intros [[|[]]|].
  - apply Hev. by intros [[|[]]|].
Qed.

(** A panic of the isolated control poisons it for good. *)
Definition control_poisoned self : Prop := ∃ isolated, dd_isolated self = Some isolated ∧ lk_poisoned isolated = true.

Lemma with_isolated_poisoned {T} self isolated disabled (op : C → C * option (result IsolatedControlError T)) response :
  dd_isolated self = Some isolated → lk_poisoned isolated = true →
  with_isolated self disabled op response = (self, response (Joined (Err FailureLock))).
Proof.
  intros Hi Hp. unfold with_isolated, blocking. rewrite Hi, Hp. unfold set_isolated. destruct self; cbn in *. by subst.
Qed.

Lemma poisoned_dispatch self request :
  control_poisoned self → dd_isolated (dispatch self request).1 = dd_isolated self.
Proof.
  intros (isolated & Hi & Hp). unfold dispatch.
  destruct (cq_command request); try done; try destruct (RunId_parse _); try done;
    try (rewrite (with_isolated_poisoned _ _ _ _ _ Hi Hp); done).
  - by destruct (blocking _ _ _).
  - unfold with_evidence_control. destruct (dd_evidence self); [|done]. by destruct (blocking _ _ _).
  - unfold with_evidence_control. destruct (dd_evidence self); [|done]. by destruct (blocking _ _ _).
Qed.

(** ** The end of the daemon *)

(** What a control promises of its shutdown. *)
Class IsolatedControlSpec (C : Type) `{IsolatedControl C} : Type := {
  released : C → Prop;
  shutdown_releases control control' : isolated_shutdown control = (control', Some (Ok tt)) → released control';
}.

Lemma cleanup_releases `{!IsolatedControlSpec C} self self' :
  cleanup_isolated self = (self', Ok tt) →
  ∀ isolated, dd_isolated self' = Some isolated → released (lk_value isolated) ∧ lk_poisoned isolated = false.
Proof.
  unfold cleanup_isolated, shutdown_isolated. destruct (dd_isolated self) as [lock|] eqn:Hi.
  2: { intros [= <-] isolated Hs. congruence. }
  unfold blocking. destruct (lk_poisoned lock); [done|].
  destruct (isolated_shutdown (lk_value lock)) as [control' [[[]|]|]] eqn:Hs; cbn; [|done..].
  intros [= <-] isolated [= <-]. cbn. split; [|done]. by eapply shutdown_releases.
Qed.

(** Nothing but the cleanup gives the daemon its outcome, and nothing but late
    requests comes after it. *)
Definition coordinator_ok (s : Coordinator) : Prop :=
  (length (co_late s) ≤ co_abandoned s)%nat ∧
  ∀ outcome, co_outcome s = Some outcome →
    ∃ self cleaned server sampler first cleanup late, cleanup_isolated self = (cleaned, cleanup) ∧
      co_dispatcher s = dispatch_all cleaned late ∧ (length late + length (co_late s) ≤ co_abandoned s)%nat ∧
      co_server s = Some server ∧ co_sampler s = Some sampler ∧ co_first s = Some first ∧
      outcome = coordinate_result first sampler server cleanup.

Lemma coordinator_step_ok s s' : coordinator_step s s' → coordinator_ok s → coordinator_ok s'.
Proof.
  unfold coordinator_ok. destruct 1 as [| |self server sampler first late late' n request outcome Hl| | | | | | |
    self server sampler first late n self' cleanup Hc]; cbn; intros [Hn Hout]; (split; [try lia|try done]).
  - apply Permutation_length in Hl. cbn in Hl. lia.
  - intros res Hres. destruct (Hout res Hres) as (self0 & cleaned & server0 & sampler0 & first0 & cleanup & done &
      Hclean & -> & Hlen & Hrest). exists self0, cleaned, server0, sampler0, first0, cleanup, (done ++ [request]).
    apply Permutation_length in Hl. cbn in Hl. split; [exact Hclean|]. split.
    { unfold dispatch_all. by rewrite foldl_app. }
    split; [rewrite length_app; cbn; lia|exact Hrest].
  - intros res [= <-]. exists self, self', server, sampler, first, cleanup, []. by split_and!.
Qed.

Lemma coordinator_run_ok self s : rtc coordinator_step (coordinator_start self) s → coordinator_ok s.
Proof.
  intros Hrun. assert (coordinator_ok (coordinator_start self)) as Hstart by done. revert Hstart.
  induction Hrun as [|s s' s'' Hstep _ IH]; [done|]. intros Hok. by eapply IH, coordinator_step_ok.
Qed.

Lemma coordinate_result_ok first sampler server cleanup :
  coordinate_result first sampler server cleanup = Ok tt ↔
  first = false ∧ sampler = Joined (Ok tt) ∧ server = Ok tt ∧ cleanup = Ok tt.
Proof.
  unfold coordinate_result. split.
  - destruct sampler as [[[]|]|], first, server as [[]|], cleanup as [[]|]; cbn; done.
  - by intros (-> & -> & -> & ->).
Qed.

(** C11: The end of the daemon.  Whatever is requested and sampled, and whichever of
    the signal, the server and the sampler comes first, the outcome is given after
    both the server and the sampler have ended and the isolated control was cleaned
    up.  The daemon reports success exactly when the server and the sampler ended
    without an error, the sampler not on its own, and the cleanup succeeded; the
    cleanup then left no session.  What may follow it is only the operations of
    requests that were abandoned before, none when none was. *)
Theorem daemon_exit_releases_sessions `{!IsolatedControlSpec C} self s outcome :
  rtc coordinator_step (coordinator_start self) s → co_outcome s = Some outcome →
  ∃ before cleaned server sampler first cleanup late, cleanup_isolated before = (cleaned, cleanup) ∧
    co_dispatcher s = dispatch_all cleaned late ∧ (length late + length (co_late s) ≤ co_abandoned s)%nat ∧
    co_server s = Some server ∧ co_sampler s = Some sampler ∧ co_first s = Some first ∧
    (outcome = Ok tt ↔ first = false ∧ sampler = Joined (Ok tt) ∧ server = Ok tt ∧ cleanup = Ok tt) ∧
    (outcome = Ok tt → ∀ isolated, dd_isolated cleaned = Some isolated →
       released (lk_value isolated) ∧ lk_poisoned isolated = false) ∧
    ∀ s', coordinator_step s s' → co_outcome s' = Some outcome ∧
      ∃ request, co_late s ≡ₚ request :: co_late s' ∧ co_dispatcher s' = (dispatch (co_dispatcher s) request).1.
Proof.
  intros Hrun Hout. destruct (coordinator_run_ok _ _ Hrun) as [_ Hok].
  destruct (Hok _ Hout) as (before & cleaned & server & sampler & first & cleanup & late & Hclean & Hdisp & Hlen &
    Hserver & Hsampler & Hfirst & ->).
  exists before, cleaned, server, sampler, first, cleanup, late. split_and!; [done..|apply coordinate_result_ok| |].
  { intros (_ & _ & _ & ->)%coordinate_result_ok. by eapply cleanup_releases. }
  intros s' Hstep. destruct Hstep; try done. split; [done|]. by eexists.
Qed.

(** C12: An abandoned request can outlive the cleanup.  The timeout of a connection
    gives up its request but not the operation that waits on the blocking pool: the
    cleanup may come before it.  Then the daemon reports success, and the control is
    left as that request leaves it, a session attached if it was an attach. *)
Theorem abandoned_request_outlives_cleanup self request cleaned self' response :
  cleanup_isolated self = (cleaned, Ok tt) → dispatch cleaned request = (self', response) →
  ∃ s, rtc coordinator_step (coordinator_start self) s ∧ co_outcome s = Some (Ok tt) ∧ co_dispatcher s = self' ∧
    co_abandoned s = 1%nat ∧ ∀ s', ¬ coordinator_step s s'.
Proof.
  intros Hclean Hdisp.
  exists (mkCoordinator self' (Some (Ok tt)) (Some (Joined (Ok tt))) (Some false) [] 1 (Some (Ok tt))). split_and!; [|done..|].
  - eapply rtc_l; [apply (CoordinatorAbandon self None None [] 0 request)|]. eapply rtc_l; [apply CoordinatorSignal|].
    eapply rtc_l; [apply (CoordinatorServerExit _ _ _ _ _ (Ok tt))|].
    eapply rtc_l; [apply (CoordinatorSamplerExit _ _ _ _ _ (Joined (Ok tt)))|].
    eapply rtc_l; [by apply CoordinatorCleanup|]. eapply rtc_l; [|apply rtc_refl].
    assert (self' = (dispatch cleaned request).1) as -> by by rewrite Hdisp. by apply CoordinatorLate.
  - intros s' Hstep. inversion Hstep as [| |? ? ? ? ? ? ? ? ? Hl| | | | | | |]; subst.
    by apply Permutation_nil_cons in Hl.
Qed.
End daemon.

(** ** Connections are answered *)

(** What the daemon relies on of [serde_json]: a response reads back, and the small
    error responses of the daemon itself have a text that fits a frame. *)
Class ControlCodecSpec `{ControlCodec} : Prop := {
  response_reads_back response payload :
    response_to_vec response = Some payload → response_from_slice payload = Some response;
  error_fits code message : (String.length code + String.length message ≤ 100)%nat →
    ∃ payload, response_to_vec (response_error code message) = Some payload ∧
      Z.of_nat (length payload) ≤ MAX_PAYLOAD_LEN;
}.

Definition response_too_large : ControlResponse := response_error ERROR_RESPONSE_TOO_LARGE "response payload is too large".
Definition response_unencodable : ControlResponse := response_error ERROR_INTERNAL "response encoding failed".

Section connections.
Context `{ControlCodec} `{!ControlCodecSpec}.

Lemma encode_response_decodes response frame :
  encode_response response = Ok frame → decode_response frame = Ok response.
Proof.
  unfold encode_response, decode_response. destruct (ensure_version _) as [[]|] eqn:Hv; [|done]. cbn [mbind result_bind].
  intros Henc. rewrite (decode_encoded _ response_from_slice _ _ Henc (response_reads_back response)).
  cbn [mbind result_bind]. by rewrite Hv.
Qed.

Lemma encode_error_total code message :
  (String.length code + String.length message ≤ 100)%nat → ∃ frame, encode_response (response_error code message) = Ok frame.
Proof.
  intros Hl. destruct (error_fits code message Hl) as (payload & Hp & Hfit).
  unfold encode_response, encode_frame. cbn. rewrite Hp. cbn. rewrite (proj2 (Z.ltb_ge _ _)) by done. by eexists.
Qed.

(** The response that goes out for the response of the daemon: itself, unless its
    text does not fit a frame, or it has none. *)
Definition sent_for (response : ControlResponse) : ControlResponse :=
  if decide (cr_protocol_version response = PROTOCOL_VERSION) then
    match response_to_vec response with
    | Some payload => if decide (Z.of_nat (length payload) ≤ MAX_PAYLOAD_LEN) then response else response_too_large
    | None => response_unencodable
    end
  else response_unencodable.

Lemma encode_bounded_total response :
  ∃ frame, encode_bounded_response response = Some frame ∧ decode_response frame = Ok (sent_for response).
Proof.
  unfold encode_bounded_response, sent_for.
  destruct (encode_error_total ERROR_RESPONSE_TOO_LARGE "response payload is too large") as (large & Hlarge); [vm_compute; lia|].
  destruct (encode_error_total ERROR_INTERNAL "response encoding failed") as (failed & Hfailed); [vm_compute; lia|].
  rewrite Hlarge, Hfailed. destruct (encode_response response) as [frame|error] eqn:Henc.
  - pose proof Henc as Hd%encode_response_decodes. unfold encode_response, ensure_version, encode_frame in Henc.
    exists frame. split; [done|]. rewrite Hd. f_equal.
    destruct (Z.eqb_spec (cr_protocol_version response) PROTOCOL_VERSION); [|done]. rewrite decide_True by done.
    cbn [mbind result_bind] in Henc. destruct (response_to_vec response) as [payload|]; [|done].
    cbn in Henc. destruct (Z.ltb_spec MAX_PAYLOAD_LEN (Z.of_nat (length payload))); [done|]. by rewrite decide_True.
  - apply encode_response_decodes in Hlarge, Hfailed. unfold encode_response, ensure_version, encode_frame in Henc.
    destruct (Z.eqb_spec (cr_protocol_version response) PROTOCOL_VERSION).
    + rewrite decide_True by done. cbn [mbind result_bind] in Henc.
      destruct (response_to_vec response) as [payload|]; cbn in Henc; [|injection Henc as <-; by exists failed].
      destruct (Z.ltb_spec MAX_PAYLOAD_LEN (Z.of_nat (length payload))); [|done]. injection Henc as <-.
      rewrite decide_False by lia. by exists large.
    + rewrite decide_False by done. injection Henc as <-. by exists failed.
Qed.

Context {R : Type} `{AsyncReadSpec R} {S : Type} (handler : S → ControlRequest → S * ControlResponse).

(** The codes with which the daemon refuses what is not a request. *)
Definition transport_code (error : TransportError) : string :=
  match error with
  | EarlyEof _ _ => ERROR_EARLY_EOF | FrameTooLarge _ _ => ERROR_PAYLOAD_TOO_LARGE | TransportIo => ERROR_TRANSPORT
  end.

Definition protocol_code (error : ProtocolError) : string :=
  match error with
  | UnsupportedVersion _ => ERROR_UNSUPPORTED_PROTOCOL_VERSION
  | PayloadTooLarge _ _ => ERROR_PAYLOAD_TOO_LARGE
  | _ => ERROR_INVALID_REQUEST
  end.

Definition refused (code : string) (response : ControlResponse) : Prop :=
  ∃ message, response = response_error code message.

(** What is to come of a connection that is read to its end: a frame that holds a
    request is handled, and anything else refused by its kind. *)
Definition answered (reader : R) (state : S) (state' : S) (response : ControlResponse) : Prop :=
  ∃ reader' read, frame_read reader reader' read ∧
    match read with
    | Err error => state' = state ∧ refused (transport_code error) response
    | Ok frame =>
        match decode_request frame with
        | Err error => state' = state ∧ refused (protocol_code error) response
        | Ok request => (state', response) = handler state request
        end
    end.

(** The same, when the timeout may strike before. *)
Definition handled (reader : R) (state : S) (interruption : Interruption) (state' : S) (response : ControlResponse) : Prop :=
  match interruption with
  | InTime => answered reader state state' response
  | WhileReading => state' = state ∧ response = request_timeout
  | WhileHandling => response = request_timeout ∧ ∃ unsent, answered reader state state' unsent
  end.

Lemma response_for_handled reader state :
  ∃ reader' state' response, response_for handler reader state = Some (reader', state', response) ∧
    answered reader state state' response.
Proof.
  unfold response_for. destruct (read_frame_spec reader) as (reader' & res & -> & Hread). cbn [mbind option_bind].
  destruct res as [frame|error].
  - destruct (decode_request frame) as [request|error] eqn:Hdec.
    + destruct (handler state request) as [state' response] eqn:Hh. eexists _, _, _. split; [done|].
      exists reader', (Ok frame). by rewrite Hdec.
    + eexists _, _, _. split; [done|]. exists reader', (Ok frame). split; [done|]. rewrite Hdec. split; [done|].
      destruct error; by eexists.
  - eexists _, _, _. split; [done|]. exists reader', (Err error). split_and!; [done..|]. destruct error; by eexists.
Qed.

(** C9: Every connection is answered, and nothing but a request reaches the
    handler.  Whatever bytes come, in whatever pieces, and whenever the timeout
    strikes, a response frame is there to be written that decodes.  When the bytes
    begin with the frame of a well-formed request of this protocol, which is read in
    time, the handler is run on it once and its response is the answer; otherwise the
    state is what it was, and the answer is the daemon's refusal for what is wrong
    with the bytes.  The timeout replaces the answer.  The answer goes out as it is;
    only one that is too large for a frame, or has no text, is replaced by the fixed
    one for this case. *)
Theorem connection_always_answered reader state interruption :
  ∃ state' response frame,
    serve_connection handler reader state interruption = Some (state', frame) ∧
    decode_response frame = Ok (sent_for response) ∧
    handled reader state interruption state' response.
Proof.
  destruct (response_for_handled reader state) as (reader' & after & answer & Hr & Hans).
  unfold serve_connection. rewrite Hr. destruct interruption; cbn [mbind option_bind].
  - destruct (encode_bounded_total answer) as (frame & -> & Hd). by exists after, answer, frame.
  - destruct (encode_bounded_total request_timeout) as (frame & -> & Hd). by exists state, request_timeout, frame.
  - destruct (encode_bounded_total request_timeout) as (frame & -> & Hd). exists after, request_timeout, frame.
    split; [done|]. split; [done|]. split; [done|by exists answer].
Qed.
End connections.

(** ** Listing the evidence with commands *)
Section listing.
Context {P C : Type} `{PlatformInspector P} `{IsolatedControl C}.
Local Notation dispatcher := (DaemonDispatcher P C SharedEvidenceStore).
Implicit Types (self : dispatcher).

(** A client that asks for the first page and then follows the cursors it is given. *)
Fixpoint list_all (fuel : nat) self (interface : option InterfaceName) (limit : Z) (cursor : option string)
    : option (list (list EvidenceSummaryV1)) :=
  match fuel with
  | O => None
  | S fuel =>
      let '(self, response) := dispatch self (ControlRequest_new (CommandEvidenceList interface limit cursor)) in
      match cr_body response with
      | BodySuccess (ResultEvidenceList page) =>
          match elp_next_cursor page with
          | None => Some [elp_items page]
          | Some cursor => pages ← list_all fuel self interface limit (Some cursor); Some (elp_items page :: pages)
          end
      | _ => None
      end
  end.

(** What the index holds can be written in a cursor. *)
Definition index_printable (index : gmap EventId EvidenceDetailV1) : Prop :=
  ∀ id detail, index !! id = Some detail →
    es_event_id (ed_summary detail) = id ∧ id_u8 id ∧ is_u64 (es_last_transition_at_unix_ms (ed_summary detail)).

(** A cursor that a page of this store and filter can give. *)
Definition own_cursor (interface : option InterfaceName) (cursor : EvidenceCursor) : Prop :=
  cursor_ok cursor ∧ ec_filter_hash cursor = interface_filter_hash interface.

Lemma list_query_own interface limit cursor :
  1 ≤ limit ≤ EVIDENCE_LIST_MAX_LIMIT → (∀ c, cursor = Some c → own_cursor interface c) →
  list_query interface limit (option_map EvidenceCursor_to_string cursor) = Ok (mkEvidenceListQuery interface limit cursor).
Proof.
  intros Hl Hc. unfold list_query. assert (∀ c, own_cursor interface c →
    EvidenceListQuery_new interface (Some limit) (Some c) = Ok (mkEvidenceListQuery interface limit (Some c))) as Hnew.
  { intros c [_ Hf]. unfold EvidenceListQuery_new. cbn. rewrite Hf, Z.eqb_refl.
    by rewrite (proj2 (Z.leb_le 1 limit)), (proj2 (Z.leb_le limit _)) by lia. }
  destruct cursor as [c|]; cbn [option_map].
  - pose proof (Hc c eq_refl) as Hown. destruct Hown as [Hok Hf]. rewrite (cursor_from_to c interface Hok Hf). cbn.
    by rewrite Hnew.
  - cbn. unfold EvidenceListQuery_new. cbn. by rewrite (proj2 (Z.leb_le 1 limit)), (proj2 (Z.leb_le limit _)) by lia.
Qed.

Lemma list_events_cursor store query page cursor :
  index_printable (st_index store) → list_events store query = Some page → ep_next_cursor page = Some cursor →
  own_cursor (eq_interface query) cursor.
Proof.
  intros Hix. unfold list_events. destruct (_ <? _)%nat; [|by intros [= <-]].
  destruct (last _) as [final|] eqn:Hlast; [|done]. intros [= <-] [= <-].
  assert (final ∈ list_items store query) as Hin.
  { apply last_Some in Hlast as [l Hl]. assert (final ∈ take (Z.to_nat (eq_limit query)) (list_items store query)) as Ht
      by (rewrite Hl; set_solver).
    apply elem_of_take in Ht as (i & Hi & _). by eapply list_elem_of_lookup_2. }
  unfold list_items in Hin. rewrite sort_by_Permutation, !list_elem_of_In, !filter_In in Hin.
  destruct Hin as [[Hin _] _]. rewrite <-list_elem_of_In, list_elem_of_fmap in Hin.
  destruct Hin as ([id detail] & -> & Hin%elem_of_map_to_list). cbn [snd].
  destruct (Hix _ _ Hin) as (Hid & Hu8 & Hat).
  split; [|done]. split_and!; cbn; [apply filter_hash_range|done|by rewrite Hid].
Qed.

(** The dispatcher answers from this store. *)
Definition serves self (store : LinuxEvidenceStore) : Prop := dd_evidence self = Some (Lock_new (Lock_new store)).

Lemma dispatch_list self store interface limit cursor page :
  serves self store → list_query interface limit cursor = Ok page.1 → list_events store page.1 = Some page.2 →
  dispatch self (ControlRequest_new (CommandEvidenceList interface limit cursor))
  = (self, response_success (ResultEvidenceList (list_page page.2))).
Proof.
  intros Hs Hq Hp. unfold dispatch, with_evidence_control. rewrite Hs. cbn. rewrite Hq. cbn. rewrite Hp. cbn.
  f_equal. unfold set_evidence. rewrite <-Hs. by destruct self.
Qed.

Lemma dispatch_list_panic self store interface limit cursor query :
  serves self store → list_query interface limit cursor = Ok query → list_events store query = None →
  (dispatch self (ControlRequest_new (CommandEvidenceList interface limit cursor))).2
  = response_error EVIDENCE_UNAVAILABLE "evidence is unavailable".
Proof. intros Hs Hq Hp. unfold dispatch, with_evidence_control. rewrite Hs. cbn. rewrite Hq. cbn. by rewrite Hp. Qed.

(** The client sees the pages of the store. *)
Lemma list_all_pages self store interface limit fuel (cursor : option EvidenceCursor) :
  serves self store → index_printable (st_index store) → 1 ≤ limit ≤ EVIDENCE_LIST_MAX_LIMIT →
  (∀ c, cursor = Some c → own_cursor interface c) →
  list_all fuel self interface limit (option_map EvidenceCursor_to_string cursor)
  = option_map (fmap (M:=list) ep_items) (follow_pages store fuel (mkEvidenceListQuery interface limit cursor)).
Proof.
  intros Hs Hix Hl. revert cursor. induction fuel as [|fuel IH]; intros cursor Hc; [done|].
  pose proof (list_query_own _ _ _ Hl Hc) as Hq. cbn [list_all follow_pages].
  destruct (list_events store (mkEvidenceListQuery interface limit cursor)) as [page|] eqn:Hp.
  - rewrite (dispatch_list _ _ _ _ _ (_, page) Hs Hq Hp). cbn [cr_body response_success snd list_page elp_next_cursor elp_items].
    cbn [mbind option_bind]. destruct (ep_next_cursor page) as [next|] eqn:Hn; [|done].
    pose proof (list_events_cursor _ _ _ _ Hix Hp Hn) as Hown. pose proof (IH (Some next)) as IH'.
    cbn [fmap option_fmap option_map] in IH' |- *. rewrite IH' by by intros c [= <-]. cbn [mbind option_bind].
    unfold with_cursor. cbn [eq_interface eq_limit]. by destruct (follow_pages _ _ _).
  - pose proof (dispatch_list_panic _ _ _ _ _ _ Hs Hq Hp) as Hd. destruct (dispatch _ _) as [self' response]. cbn in Hd.
    by rewrite Hd.
Qed.

Lemma mjoin_fmap {A B} (f : A → list B) (l : list A) : mjoin (f <$> l) = l ≫= f.
Proof. induction l as [|x l IH]; [done|]. cbn. by f_equal. Qed.

(** C10: Listing the evidence with commands is complete and without repetition.  A
    client that asks the daemon for the events of an interface, and then again with
    the cursor of each answer, comes to an end; the answers together are every event
    of the index for the interface exactly once, newest transition first, none
    longer than the limit that was asked for, and nothing of it is an error. *)
Theorem evidence_commands_list_everything self store interface limit :
  serves self store → index_printable (st_index store) → 1 ≤ limit ≤ EVIDENCE_LIST_MAX_LIMIT →
  let query := mkEvidenceListQuery interface limit None in
  ∃ pages, list_all (S (length (all_items store query))) self interface limit None = Some pages ∧
    Forall (λ page, (length page ≤ Z.to_nat limit)%nat) pages ∧
    StronglySorted (cmp_lt summary_cmp) (mjoin pages) ∧ NoDup (es_event_id <$> mjoin pages) ∧
    ∀ summary, summary ∈ mjoin pages ↔ matches_interface query summary = true ∧
      ∃ detail, st_index store !! es_event_id summary = Some detail ∧ ed_summary detail = summary.
Proof.
  intros Hs Hix Hl query. assert (index_ok (st_index store)) as Hok by (intros id detail Hd; by apply Hix in Hd as [? _]).
  destruct (pages_cover_index store Hok query) as (pages & Hp & Hb & Hitems); [by apply Hl|].
  exists (ep_items <$> pages).
  pose proof (list_all_pages self store interface limit (S (length (all_items store query))) None Hs Hix Hl) as Heq.
  change (with_cursor query None) with query in Hp. fold query in Heq. rewrite Hp in Heq.
  split; [by apply Heq|]. split; [by apply Forall_fmap|]. rewrite mjoin_fmap. exact Hitems.
Qed.
End listing.

(** ** The bounded server *)

(** No more than the permits are ever held, and the server ends well only when no
    task is left. *)
Definition server_ok (server : Server) : Prop :=
  (permits_held server ≤ MAX_ACTIVE_HANDLERS)%nat ∧ (sv_phase server = ServerStopped (Ok tt) → sv_tasks server = 0%nat).

Lemma server_step_ok server event server' : server_step server event server' → server_ok server → server_ok server'.
Proof.
  unfold server_ok, permits_held. destruct 1 as [| | |tasks phase Hp|tasks phase Hp|]; cbn; intros [Hn Hs].
  - split; [lia|done].
  - split; [lia|done].
  - by split; [lia|].
  - split; [lia|]. intros ->. by destruct (Hp (Ok tt)).
  - split; [|done]. destruct Hp as [-> | ->]; lia.
  - by split; [lia|].
Qed.

Lemma server_start_ok : server_ok server_start.
Proof. split; [vm_compute; lia|done]. Qed.

(** ** The isolated control releases its session *)
Lemma detach_ok_inactive {D W S B} `{IsolatedAttachmentDriver D} `{ControlEnvironment D}
    `{ObservationPorts W} `{EventIdSource S} `{IncidentOutputBackend B}
    (self self' : TransactionIsolatedControl D W S B) run_id :
  detach self run_id = Some (self', Ok tt) → ct_active self' = None.
Proof.
  unfold detach. destruct (ct_active self) as [active|]; [|done]. destruct (negb _); [done|].
  destruct (ownership_load _ _) as [driver [committed|]]; [|done]. destruct (negb _); [done|].
  unfold detach_session. destruct (service_pause _) as [sampling|]; [|done]. cbn [mbind option_bind].
  destruct (driver_detach_exact _ _) as [driver' [[]|]]; [|done]. by intros [= <-].
Qed.

#[export] Instance transaction_control_spec {D W S B} `{IsolatedAttachmentDriver D} `{ControlEnvironment D}
    `{ObservationPorts W} `{EventIdSource S} `{IncidentOutputBackend B} {linux_source : S}
    : @IsolatedControlSpec (TransactionIsolatedControl D W S B) (transaction_control (linux_source := linux_source)).
Proof.
  refine {| released control := ct_active control = None |}.
  intros control control'. cbn. unfold control_shutdown. destruct (ct_active control) as [active|] eqn:Ha.
  - destruct (detach control (sn_run_id active)) as [[self' res]|] eqn:Hd; [|done]. intros [= <- ->].
    by eapply detach_ok_inactive.
  - by intros [= <-].
Defined.

Lemma pair_with_snd {A B} (p : A * B) b : p.2 = b → p = (p.1, b).
Proof. destruct p. by intros <-. Qed.

(** A run that ends in order. *)
Lemma orderly_end {P C E} `{PlatformInspector P} `{IsolatedControl C} `{EvidenceControl E}
    (self self1 self2 self3 : DaemonDispatcher P C E) request cleanup :
  (dispatch self request).1 = self1 → (sample_isolated self1).1 = self2 → cleanup_isolated self2 = (self3, cleanup) →
  rtc coordinator_step (coordinator_start self)
    (mkCoordinator self3 (Some (Ok tt)) (Some (Joined (Ok tt))) (Some false) [] 0
       (Some (coordinate_result false (Joined (Ok tt)) (Ok tt) cleanup))).
Proof.
  intros <- <- Hclean. eapply rtc_l; [apply (CoordinatorDispatch self None None [] 0 request)|].
  eapply rtc_l; [apply CoordinatorSample|]. eapply rtc_l; [apply CoordinatorSignal|].
  eapply rtc_l; [apply (CoordinatorServerExit _ None _ _ _ (Ok tt))|].
  eapply rtc_l; [apply (CoordinatorSamplerExit _ _ _ _ _ (Joined (Ok tt)))|].
  eapply rtc_l; [by apply CoordinatorCleanup|apply rtc_refl].
Qed.

(** ** A daemon in memory *)
Module DaemonExample.

(** An inspector that fails. *)
#[export] Instance no_inspector : PlatformInspector unit := λ _ _, (tt, Some (Err (InvalidReport "no inspector"))).

#[export] Instance control : IsolatedControl ControlExample.Control := transaction_control (linux_source := ControlExample.source).
#[export] Instance control_spec : IsolatedControlSpec ControlExample.Control := transaction_control_spec.

Definition daemon : DaemonDispatcher unit ControlExample.Control SharedEvidenceStore :=
  with_controls tt (ControlExample.control [] 0) (Lock_new EvidenceSample.filled.2).

Definition attach_request : ControlRequest :=
  ControlRequest_new (CommandIsolatedAttach Scripted.name "0123456789abcdef0123456789abcdef").

(** After an attach, a sample and the signal, both tasks end. *)
Definition attached := (dispatch daemon attach_request).1.
Definition sampled := (sample_isolated attached).1.
Notation cleaned := (cleanup_isolated sampled).

Definition ended : @Coordinator unit ControlExample.Control SharedEvidenceStore :=
  mkCoordinator cleaned.1 (Some (Ok tt)) (Some (Joined (Ok tt))) (Some false) [] 0 (Some (Ok tt)).

Lemma attached_runs : is_some (dd_isolated attached ≫= ct_active ∘ lk_value) = true.
Proof. vm_compute. reflexivity. Qed.

Lemma cleaned_ok : cleaned.2 = Ok tt.
Proof. vm_compute. reflexivity. Qed.

Notation late_attached := (dispatch (cleanup_isolated daemon).1 attach_request).

Lemma idle_cleaned : (cleanup_isolated daemon).2 = Ok tt.
Proof. vm_compute. reflexivity. Qed.

Lemma late_attached_runs : is_some (dd_isolated late_attached.1 ≫= ct_active ∘ lk_value) = true.
Proof. vm_compute. reflexivity. Qed.

Lemma ended_run : rtc coordinator_step (coordinator_start daemon) ended.
Proof.
  apply (orderly_end daemon attached sampled cleaned.1 attach_request (Ok tt)); [exact eq_refl|exact eq_refl|].
  exact (pair_with_snd _ _ cleaned_ok).
Qed.

Definition entry_printable (entry : EventId * EvidenceDetailV1) : bool :=
  bool_decide (es_event_id (ed_summary entry.2) = entry.1)
  && forallb (λ b, (0 <=? b) && (b <=? U8_MAX)) (vec_to_list (event_bytes entry.1))
  && (0 <=? es_last_transition_at_unix_ms (ed_summary entry.2)) && (es_last_transition_at_unix_ms (ed_summary entry.2) <=? U64_MAX).

Lemma filled_entries : forallb entry_printable (map_to_list (st_index EvidenceSample.filled.2)) = true.
Proof. vm_compute. reflexivity. Qed.

Lemma filled_printable : index_printable (st_index EvidenceSample.filled.2).
Proof.
  intros id detail Hd%elem_of_map_to_list. pose proof filled_entries as Hall. rewrite forallb_forall in Hall.
  apply list_elem_of_In, Hall in Hd. unfold entry_printable in Hd. cbn [fst snd] in Hd. boolify. split_and!; [done| |ulia].
  clear Hall. unfold id_u8. apply Forall_forall. intros b Hb%list_elem_of_In. rewrite forallb_forall in *.
  match goal with Hbytes : ∀ x, In x _ → _ |- _ => apply Hbytes in Hb end. ulia.
Qed.

(** The text of an error response: the length of its code, its code, its message. *)
Definition error_to_vec (response : ControlResponse) : option (list Z) :=
  match cr_body response with
  | BodyError code message =>
      if cr_protocol_version response =? PROTOCOL_VERSION then
        Some (Z.of_nat (String.length code) :: (ascii_code <$> string_bytes (code ++ message)%string))
      else None
  | BodySuccess _ => None
  end.

Definition text_of (bytes : list Z) : string :=
  String.string_of_list_ascii ((λ b, Ascii.ascii_of_N (Z.to_N b)) <$> bytes).

Definition error_from_slice (payload : list Z) : option ControlResponse :=
  match payload with
  | [] => None
  | n :: text => Some (response_error (text_of (take (Z.to_nat n) text)) (text_of (drop (Z.to_nat n) text)))
  end.

#[export] Instance errors_only : ControlCodec := {
  request_to_vec := @request_to_vec TransportExample.one_request;
  request_from_slice := @request_from_slice TransportExample.one_request;
  response_to_vec := error_to_vec;
  response_from_slice := error_from_slice;
}.

Lemma text_of_bytes s : text_of (ascii_code <$> string_bytes s) = s.
Proof.
  unfold text_of. rewrite <-list_fmap_compose. rewrite <-(string_of_bytes s) at 2. f_equal.
  induction (string_bytes s) as [|c l IH]; [done|]. cbn. rewrite IH. f_equal. unfold ascii_code.
  by rewrite N2Z.id, Ascii.ascii_N_embedding.
Qed.

#[export] Instance errors_only_spec : ControlCodecSpec.
Proof.
  split.
  - intros [version [|code message]] payload; cbn; [done|]. unfold error_to_vec. cbn.
    destruct (Z.eqb_spec version PROTOCOL_VERSION) as [->|]; [|done]. intros [= <-]. cbn. rewrite Nat2Z.id.
    rewrite string_bytes_app, fmap_app, <-(string_bytes_length code).
    rewrite take_app_length', drop_app_length' by by rewrite length_fmap. by rewrite !text_of_bytes.
  - intros code message Hl. eexists. split; [reflexivity|]. cbn. rewrite length_fmap, string_bytes_app, length_app.
    rewrite !string_bytes_length. unfold MAX_PAYLOAD_LEN. lia.
Qed.
End DaemonExample.

Section witnesses.
Import TransportExample DaemonExample.

(** The session that the client attached is released. *)
Lemma daemon_exit_releases_sessions_witness :
  is_some (dd_isolated attached ≫= ct_active ∘ lk_value) = true ∧ (∀ s', ¬ coordinator_step ended s') ∧
  ∀ isolated, dd_isolated (co_dispatcher ended) = Some isolated → released (lk_value isolated) ∧ lk_poisoned isolated = false.
Proof.
  split; [exact attached_runs|].
  destruct (daemon_exit_releases_sessions daemon ended (Ok tt) ended_run eq_refl)
    as (before & clean & server & sampler & first & cleanup & late & _ & Hd & Hlen & _ & _ & _ & _ & Hreleased & Hend).
  assert (late = []) as -> by (apply length_zero_iff_nil; cbn in Hlen; lia). split.
  - intros s' Hstep. destruct (Hend _ Hstep) as (_ & request & Hl & _). by apply Permutation_nil_cons in Hl.
  - rewrite Hd. exact (Hreleased eq_refl).
Defined.

(** The attach is abandoned, the daemon reports success, and the session is attached. *)
Lemma abandoned_request_outlives_cleanup_witness :
  ∃ s, rtc coordinator_step (coordinator_start daemon) s ∧ co_outcome s = Some (Ok tt) ∧
    co_dispatcher s = late_attached.1 ∧ is_some (dd_isolated (co_dispatcher s) ≫= ct_active ∘ lk_value) = true.
Proof.
  destruct (abandoned_request_outlives_cleanup daemon attach_request (cleanup_isolated daemon).1 late_attached.1
    late_attached.2 (pair_with_snd _ _ idle_cleaned) (surjective_pairing late_attached)) as (s & Hrun & Hout & Hd & _).
  exists s. rewrite Hd. split_and!; [exact Hrun|exact Hout|reflexivity|exact late_attached_runs].
Defined.

(** A request that is answered, one whose response has no text, and one that is
    never read. *)
Lemma connection_always_answered_witness :
  let handler := λ (n : nat) (_ : ControlRequest), (S n, response_error ERROR_COMMAND_NOT_IMPLEMENTED "command is not implemented") in
  (∃ response frame, serve_connection handler pieces 0%nat InTime = Some (1%nat, frame) ∧
    decode_response frame = Ok (sent_for response) ∧ handled handler pieces 0%nat InTime 1%nat response) ∧
  (∃ response frame, serve_connection handler [[0; 0]] 0%nat InTime = Some (0%nat, frame) ∧
    decode_response frame = Ok (sent_for response) ∧ handled handler [[0; 0]] 0%nat InTime 0%nat response).
Proof.
  cbv zeta. split.
  - destruct (connection_always_answered (λ (n : nat) (_ : ControlRequest),
      (S n, response_error ERROR_COMMAND_NOT_IMPLEMENTED "command is not implemented")) pieces 0%nat InTime)
      as (state & response & frame & Hs & Hd & Hh).
    assert (state = 1%nat) as ->; [|by exists response, frame].
    apply (f_equal (fmap (M:=option) fst)) in Hs. vm_compute in Hs. by injection Hs.
  - destruct (connection_always_answered (λ (n : nat) (_ : ControlRequest),
      (S n, response_error ERROR_COMMAND_NOT_IMPLEMENTED "command is not implemented")) [[0; 0]] 0%nat InTime)
      as (state & response & frame & Hs & Hd & Hh).
    assert (state = 0%nat) as ->; [|by exists response, frame].
    apply (f_equal (fmap (M:=option) fst)) in Hs. vm_compute in Hs. by injection Hs.
Defined.

(** Two events, one on each page. *)
Lemma evidence_commands_list_everything_witness :
  let store := EvidenceSample.filled.2 in let query := mkEvidenceListQuery None 1 None in
  ∃ pages, list_all (S (length (all_items store query))) daemon None 1 None = Some pages ∧
    Forall (λ page, (length page ≤ Z.to_nat 1)%nat) pages ∧
    StronglySorted (cmp_lt summary_cmp) (mjoin pages) ∧ NoDup (es_event_id <$> mjoin pages) ∧
    ∀ summary, summary ∈ mjoin pages ↔ matches_interface query summary = true ∧
      ∃ detail, st_index store !! es_event_id summary = Some detail ∧ ed_summary detail = summary.
Proof.
  apply (evidence_commands_list_everything daemon EvidenceSample.filled.2 None 1);
    [reflexivity|exact filled_printable|vm_compute; split; discriminate].
Defined.
End witnesses.
