(* ===== verification/Socket.v ===== *)
(** The control socket of the daemon ([BoundedUnixServer::bind], [OwnedSocketPath] of
    [daemon.rs]): the check of its directory, the removal of a stale socket, the
    binding and the removal at the end.  The file system is a class of operations;
    what it promises holds while nobody else changes the directory. *)
From S2P Require Import Prelude Domain Text Observation FrameHash Rate Baseline FingerprintWindow Detection Preflight Ownership Attach Evidence Snapshot EvidenceStore Incident Output Shared Sampling Control Transport Daemon.

(** ** The file system of the socket *)

(** The components of an absolute path. *)
Notation socket_path := (list string).

Definition DEFAULT_SOCKET_PATH : socket_path := ["run"; "l2-loop"; "agent.sock"]%string.

Inductive SocketFileKind : Type := KindSymlink | KindDirectory | KindSocket | KindOther.

#[export] Instance SocketFileKind_eq_dec : EqDecision SocketFileKind.
Proof. solve_decision. Defined.

Record SocketMetadata : Type := mkSocketMetadata {
  sm_kind : SocketFileKind;
  sm_mode : Z;
  sm_uid : Z;
  sm_dev : Z;
  sm_ino : Z;
}.

Inductive SocketIoError : Type := SocketNotFound | SocketRefused | SocketIoOther.

Class SocketFs (W : Type) : Type := {
  symlink_metadata : W → socket_path → W * result SocketIoError SocketMetadata;
  connect : W → socket_path → W * result SocketIoError unit;
  bind_listener : W → socket_path → W * result SocketIoError unit;
  set_permissions : W → socket_path → Z → W * result SocketIoError unit;
  remove_file : W → socket_path → W * result SocketIoError unit;
}.

(** [Path::parent]. *)
Definition parent (path : socket_path) : option socket_path :=
  match path with [] => None | _ => Some (removelast path) end.

Record OwnedSocketPath : Type := mkOwnedSocketPath { op_path : socket_path; op_device : Z; op_inode : Z }.

Section socket.
Context {W : Type} `{SocketFs W} (geteuid : Z).
Implicit Types (w : W) (path : socket_path).

Definition validate_parent w path : W * result DaemonError unit :=
  match parent path with
  | None => (w, Err InvalidParent)
  | Some parent =>
      match symlink_metadata w parent with
      | (w, Err _) => (w, Err InvalidParent)
      | (w, Ok metadata) =>
          (w,
           if negb (bool_decide (sm_kind metadata = KindDirectory)) then Err InvalidParent
           else if negb (Z.land (sm_mode metadata) 18 =? 0) then Err UnsafeParentPermissions
           else if negb (sm_uid metadata =? if bool_decide (path = DEFAULT_SOCKET_PATH) then 0 else geteuid)
           then Err UnsafeParentOwner
           else Ok tt)
      end
  end.

Definition remove_stale_socket_if_unchanged w path (expected_device expected_inode : Z) : W * result DaemonError unit :=
  match symlink_metadata w path with
  | (w, Err SocketNotFound) => (w, Ok tt)
  | (w, Err _) => (w, Err (DaemonIo "reinspect stale socket"))
  | (w, Ok metadata) =>
      if negb (bool_decide (sm_kind metadata = KindSocket)) || negb (sm_dev metadata =? expected_device)
         || negb (sm_ino metadata =? expected_inode)
      then (w, Err SocketInUse)
      else let '(w, res) := remove_file w path in (w, map_err (λ _, DaemonIo "remove stale socket") res)
  end.

Definition clear_stale_socket w path : W * result DaemonError unit :=
  match symlink_metadata w path with
  | (w, Err SocketNotFound) => (w, Ok tt)
  | (w, Err _) => (w, Err (DaemonIo "inspect existing socket path"))
  | (w, Ok metadata) =>
      if negb (bool_decide (sm_kind metadata = KindSocket)) then (w, Err SocketPathNotSocket)
      else
        match connect w path with
        | (w, Ok _) | (w, Err SocketIoOther) => (w, Err SocketInUse)
        | (w, Err _) => remove_stale_socket_if_unchanged w path (sm_dev metadata) (sm_ino metadata)
        end
  end.

Definition capture w path : W * result DaemonError OwnedSocketPath :=
  match symlink_metadata w path with
  | (w, Err _) => (w, Err (DaemonIo "record socket identity"))
  | (w, Ok metadata) => (w, Ok (mkOwnedSocketPath path (sm_dev metadata) (sm_ino metadata)))
  end.

(** The owned path of the server. *)
Definition bind w path : W * result DaemonError OwnedSocketPath :=
  match validate_parent w path with
  | (w, Err error) => (w, Err error)
  | (w, Ok _) =>
      match clear_stale_socket w path with
      | (w, Err error) => (w, Err error)
      | (w, Ok _) =>
          match bind_listener w path with
          | (w, Err _) => (w, Err (DaemonIo "bind"))
          | (w, Ok _) =>
              match set_permissions w path 384 with
              | (w, Err _) => ((remove_file w path).1, Err (DaemonIo "set permissions"))
              | (w, Ok _) =>
                  match capture w path with
                  | (w, Err error) => ((remove_file w path).1, Err error)
                  | (w, Ok owned_path) => (w, Ok owned_path)
                  end
              end
          end
      end
  end.

Definition drop_socket w (self : OwnedSocketPath) : W :=
  match symlink_metadata w (op_path self) with
  | (w, Err _) => w
  | (w, Ok metadata) =>
      if bool_decide (sm_kind metadata = KindSocket) && (sm_dev metadata =? op_device self) && (sm_ino metadata =? op_inode self)
      then (remove_file w (op_path self)).1
      else w
  end.
End socket.

(** ** What is never removed *)

(** What is at a path, and whether somebody listens there. *)
Class SocketFsSpec (W : Type) `{SocketFs W} : Type := {
  entry : W → socket_path → option SocketMetadata;
  listening : W → socket_path → bool;
  metadata_spec w path w' res : symlink_metadata w path = (w', res) →
    entry w' = entry w ∧ listening w' = listening w ∧
    match res with
    | Ok metadata => entry w path = Some metadata | Err SocketNotFound => entry w path = None | Err _ => True
    end;
  connect_spec w path w' res : connect w path = (w', res) →
    entry w' = entry w ∧ listening w' = listening w ∧
    match res with Ok _ => listening w path = true | Err SocketIoOther => True | Err _ => listening w path = false end;
  bind_spec w path w' res : bind_listener w path = (w', res) →
    match res with
    | Ok _ => entry w path = None ∧ (∃ metadata, entry w' path = Some metadata ∧ sm_kind metadata = KindSocket) ∧
        ∀ other, other ≠ path → entry w' other = entry w other
    | Err _ => entry w' = entry w
    end;
  permissions_spec w path mode w' res : set_permissions w path mode = (w', res) →
    (∀ other, other ≠ path → entry w' other = entry w other) ∧
    ∀ metadata, entry w path = Some metadata →
      ∃ metadata', entry w' path = Some metadata' ∧ sm_kind metadata' = sm_kind metadata ∧ sm_dev metadata' = sm_dev metadata ∧
        sm_ino metadata' = sm_ino metadata ∧ (is_ok res = true → sm_mode metadata' = mode);
  remove_spec w path w' res : remove_file w path = (w', res) →
    (∀ other, other ≠ path → entry w' other = entry w other) ∧
    (entry w' path = entry w path ∨ entry w' path = None);
}.

Section facts.
Context {W : Type} `{SocketFsSpec W} (geteuid : Z).
Implicit Types (w : W) (path : socket_path).

(** A socket that nobody listens on, or nothing. *)
Definition vacant w path : Prop :=
  entry w path = None ∨ ∃ metadata, entry w path = Some metadata ∧ sm_kind metadata = KindSocket ∧ listening w path = false.

Definition private_parent w path : Prop :=
  ∃ directory metadata, parent path = Some directory ∧ entry w directory = Some metadata ∧ sm_kind metadata = KindDirectory ∧
    Z.land (sm_mode metadata) 18 = 0 ∧ sm_uid metadata = if bool_decide (path = DEFAULT_SOCKET_PATH) then 0 else geteuid.

Lemma validate_parent_spec w path w' res :
  validate_parent geteuid w path = (w', res) →
  entry w' = entry w ∧ listening w' = listening w ∧ (res = Ok tt → private_parent w path).
Proof.
  unfold validate_parent. destruct (parent path) as [directory|] eqn:Hp; [|by intros [= <- <-]].
  destruct (symlink_metadata w directory) as [w1 [metadata|error]] eqn:Hm; apply metadata_spec in Hm as (He & Hl & Hm);
    intros [= <- <-]; [|done]. split_and!; [done..|].
  destruct (negb (bool_decide _)) eqn:Hk; [done|]. destruct (negb (_ =? 0)) eqn:Hmode; [done|].
  destruct (negb (sm_uid metadata =? _)) eqn:Huid; [done|]. intros _. boolify. exists directory, metadata.
  split_and!; [done..|by apply Z.eqb_eq|by apply Z.eqb_eq].
Qed.

Lemma remove_stale_spec w path device inode w' res :
  remove_stale_socket_if_unchanged w path device inode = (w', res) →
  (∀ other, other ≠ path → entry w' other = entry w other) ∧ (entry w' path = entry w path ∨ entry w' path = None).
Proof.
  unfold remove_stale_socket_if_unchanged.
  destruct (symlink_metadata w path) as [w1 [metadata|[]]] eqn:Hm; apply metadata_spec in Hm as (He & _ & _);
    try (intros [= <- <-]; rewrite He; by auto).
  destruct (_ || _); [intros [= <- <-]; rewrite He; by auto|].
  destruct (remove_file w1 path) as [w2 r] eqn:Hr. intros [= <- _]. rewrite <-He. by eapply remove_spec.
Qed.

Lemma clear_stale_spec w path w' res :
  clear_stale_socket w path = (w', res) →
  (∀ other, other ≠ path → entry w' other = entry w other) ∧
  (entry w' path = entry w path ∨ vacant w path) ∧ (res = Ok tt → vacant w path).
Proof.
  unfold clear_stale_socket.
  destruct (symlink_metadata w path) as [w1 [metadata|[]]] eqn:Hm; apply metadata_spec in Hm as (He & Hl & Hm);
    [|intros [= <- <-]; rewrite He; split_and!; [done|by left|by left]|intros [= <- <-]; rewrite He; (split_and!; [done|by left|done])..].
  destruct (negb _) eqn:Hk; [intros [= <- <-]; rewrite He; (split_and!; [done|by left|done])|]. boolify.
  destruct (connect w1 path) as [w2 res2] eqn:Hc. apply connect_spec in Hc as (He2 & Hl2 & Hc).
  assert ((w2, Err SocketInUse) = (w', res) →
    (∀ other, other ≠ path → entry w' other = entry w other) ∧ (entry w' path = entry w path ∨ vacant w path) ∧
    (res = Ok tt → vacant w path)) as Hused.
  { intros [= <- <-]. rewrite He2, He. split_and!; [done|by left|done]. }
  assert (listening w1 path = false → remove_stale_socket_if_unchanged w2 path (sm_dev metadata) (sm_ino metadata) = (w', res) →
    (∀ other, other ≠ path → entry w' other = entry w other) ∧ (entry w' path = entry w path ∨ vacant w path) ∧
    (res = Ok tt → vacant w path)) as Hstale.
  { intros Hdead [Ho _]%remove_stale_spec.
    assert (vacant w path) by (right; exists metadata; split_and!; [done..|congruence]).
    split_and!; [|by right|done]. intros other Hne. rewrite Ho by done. congruence. }
  destruct res2 as [[]|[]]; auto.
Qed.

(** C15: The daemon takes nobody's place.  Binding changes nothing but the path of
    the socket, and there only if nothing was there or a socket on which nobody
    listens.  It succeeds only below a directory of its own that others cannot
    write, and then a private socket is at the path, the one that is recorded.
    When the daemon ends, the path is given up only while that socket is there. *)
Theorem foreign_socket_survives w path w' res :
  bind geteuid w path = (w', res) →
  (∀ other, other ≠ path → entry w' other = entry w other) ∧
  (entry w' path = entry w path ∨ vacant w path) ∧
  (∀ owned, res = Ok owned →
     private_parent w path ∧ vacant w path ∧ op_path owned = path ∧
     ∃ metadata, entry w' path = Some metadata ∧ sm_kind metadata = KindSocket ∧ sm_mode metadata = 384 ∧
       sm_dev metadata = op_device owned ∧ sm_ino metadata = op_inode owned) ∧
  ∀ w1 owned,
    (∀ other, other ≠ op_path owned → entry (drop_socket w1 owned) other = entry w1 other) ∧
    (entry (drop_socket w1 owned) (op_path owned) = entry w1 (op_path owned) ∨
     ∃ metadata, entry w1 (op_path owned) = Some metadata ∧ sm_kind metadata = KindSocket ∧
       sm_dev metadata = op_device owned ∧ sm_ino metadata = op_inode owned).
Proof.
  intros Hbind. assert (∀ w1 owned,
    (∀ other, other ≠ op_path owned → entry (drop_socket w1 owned) other = entry w1 other) ∧
    (entry (drop_socket w1 owned) (op_path owned) = entry w1 (op_path owned) ∨
     ∃ metadata, entry w1 (op_path owned) = Some metadata ∧ sm_kind metadata = KindSocket ∧
       sm_dev metadata = op_device owned ∧ sm_ino metadata = op_inode owned)) as Hdrop.
  { intros w1 owned. unfold drop_socket.
    destruct (symlink_metadata w1 _) as [w2 [metadata|error]] eqn:Hm; apply metadata_spec in Hm as (He & _ & Hm);
      [|rewrite He; by auto]. destruct (_ && _) eqn:Hk; [|rewrite He; by auto]. boolify.
    destruct (remove_file w2 (op_path owned)) as [w3 r] eqn:Hr. cbn [fst]. apply remove_spec in Hr as [Ho _].
    split; [intros other Hne; rewrite Ho by done; congruence|]. right. exists metadata. split_and!; [done..|lia|lia]. }
  revert Hbind. unfold bind. destruct (validate_parent geteuid w path) as [w1 res1] eqn:Hv.
  apply validate_parent_spec in Hv as (He1 & Hl1 & Hparent).
  assert (vacant w1 path → vacant w path) as Hvac by (unfold vacant; by rewrite He1, Hl1).
  destruct res1 as [[]|error]; [|intros [= <- <-]; rewrite He1; (split_and!; [done|by left|done|done])].
  destruct (clear_stale_socket w1 path) as [w2 res2] eqn:Hc. apply clear_stale_spec in Hc as (Ho2 & Hp2 & Hok2).
  rewrite He1 in Ho2, Hp2.
  destruct res2 as [[]|error]; [|intros [= <- <-]; (split_and!; [done|destruct Hp2; [by left|right; by apply Hvac]|done|done])].
  specialize (Hvac (Hok2 eq_refl)). intros Hrest. cut ((∀ other, other ≠ path → entry w' other = entry w2 other) ∧
    ∀ owned, res = Ok owned → op_path owned = path ∧
      ∃ metadata, entry w' path = Some metadata ∧ sm_kind metadata = KindSocket ∧ sm_mode metadata = 384 ∧
        sm_dev metadata = op_device owned ∧ sm_ino metadata = op_inode owned).
  { intros [Ho Hok]. split_and!; [intros other Hne; rewrite Ho by done; by apply Ho2|by right| |done].
    intros owned Hres. destruct (Hok owned Hres) as [Hpath Hmeta]. split_and!; [|done..].
    by apply Hparent. }
  revert Hrest. destruct (bind_listener w2 path) as [w3 res3] eqn:Hb. apply bind_spec in Hb.
  destruct res3 as [[]|error]; [|intros [= <- <-]; rewrite Hb; by split].
  destruct Hb as (_ & (m3 & Hm3 & Hk3) & Ho3).
  destruct (set_permissions w3 path 384) as [w4 res4] eqn:Hs. apply permissions_spec in Hs as (Ho4 & Hp4).
  destruct (Hp4 _ Hm3) as (m4 & Hm4 & Hk4 & Hd4 & Hi4 & Hmode). destruct res4 as [[]|error].
  2: { destruct (remove_file w4 path) as [w5 r] eqn:Hr. apply remove_spec in Hr as [Ho5 _]. intros [= <- <-]. cbn [fst].
       split; [|done]. intros other Hne. by rewrite Ho5, Ho4, Ho3. }
  unfold capture. destruct (symlink_metadata w4 path) as [w5 [m5|error]] eqn:Hm; apply metadata_spec in Hm as (He5 & _ & Hm5).
  - intros [= <- <-]. split; [intros other Hne; by rewrite He5, Ho4, Ho3|]. intros owned [= <-]. cbn. split; [done|].
    rewrite He5. exists m4. rewrite Hm4 in Hm5. injection Hm5 as ->. split_and!; [done|congruence|by apply Hmode|done|done].
  - destruct (remove_file w5 path) as [w6 r] eqn:Hr. apply remove_spec in Hr as [Ho6 _]. intros [= <- <-]. cbn [fst].
    split; [|done]. intros other Hne. by rewrite Ho6, He5, Ho4, Ho3.
Qed.
End facts.

(** ** A directory in memory *)
Module SocketExample.
Record Dir : Type := mkDir { dr_entries : gmap socket_path SocketMetadata; dr_live : list socket_path; dr_next : Z }.

#[export] Instance dir_fs : SocketFs Dir := {
  symlink_metadata w path := (w, ok_or (dr_entries w !! path) SocketNotFound);
  connect w path := (w, if bool_decide (path ∈ dr_live w) then Ok tt else Err SocketRefused);
  bind_listener w path :=
    match dr_entries w !! path with
    | Some _ => (w, Err SocketIoOther)
    | None =>
        (mkDir (<[path := mkSocketMetadata KindSocket 493 0 1 (dr_next w)]> (dr_entries w)) (path :: dr_live w) (dr_next w + 1), Ok tt)
    end;
  set_permissions w path mode :=
    match dr_entries w !! path with
    | None => (w, Err SocketNotFound)
    | Some m =>
        (mkDir (<[path := mkSocketMetadata (sm_kind m) mode (sm_uid m) (sm_dev m) (sm_ino m)]> (dr_entries w)) (dr_live w) (dr_next w), Ok tt)
    end;
  remove_file w path := (mkDir (delete path (dr_entries w)) (dr_live w) (dr_next w), Ok tt);
}.

#[export] Instance dir_spec : SocketFsSpec Dir.
Proof.
  refine {| entry w path := dr_entries w !! path; listening w path := bool_decide (path ∈ dr_live w) |}.
  - intros w path w' res. cbn. destruct (dr_entries w !! path) eqn:He; by intros [= <- <-].
  - intros w path w' res. cbn. intros [= <- <-]. by destruct (bool_decide _).
  - intros w path w' res. cbn. destruct (dr_entries w !! path) eqn:He; intros [= <- <-]; [done|].
    cbn. split_and!; [done|rewrite lookup_insert_eq; by eexists|]. intros other Hne. by rewrite lookup_insert_ne.
  - intros w path mode w' res. cbn. destruct (dr_entries w !! path) as [m|] eqn:He; intros [= <- <-]; [|by split; [|intros m Hm]].
    cbn. split; [intros other Hne; by rewrite lookup_insert_ne|]. intros m' [= <-].
    rewrite lookup_insert_eq. by eexists.
  - intros w path w' res. cbn. intros [= <- <-]. cbn. split; [intros other Hne; by rewrite lookup_delete_ne|].
    right. apply lookup_delete_eq.
Defined.

(** The directory of the daemon with the socket of one that has died. *)
Definition stale : Dir :=
  mkDir (<[["run"; "l2-loop"]%string := mkSocketMetadata KindDirectory 448 0 1 1]>
    (<[DEFAULT_SOCKET_PATH := mkSocketMetadata KindSocket 384 0 1 2]> ∅)) [] 3.
End SocketExample.

Section witness.
Import SocketExample.

Lemma stale_bound : (bind 0 stale DEFAULT_SOCKET_PATH).2 = Ok (mkOwnedSocketPath DEFAULT_SOCKET_PATH 1 3).
Proof. vm_compute. reflexivity. Qed.

(** The stale socket is replaced, and what another daemon puts there is kept. *)
Lemma foreign_socket_survives_witness :
  ∃ metadata, entry (bind 0 stale DEFAULT_SOCKET_PATH).1 DEFAULT_SOCKET_PATH = Some metadata ∧
    sm_kind metadata = KindSocket ∧ sm_mode metadata = 384 ∧
    entry (drop_socket stale (mkOwnedSocketPath DEFAULT_SOCKET_PATH 1 3)) DEFAULT_SOCKET_PATH = entry stale DEFAULT_SOCKET_PATH.
Proof.
  destruct (foreign_socket_survives 0 stale DEFAULT_SOCKET_PATH _ _ (surjective_pairing (bind 0 stale DEFAULT_SOCKET_PATH)))
    as (_ & _ & Hok & Hdrop).
  destruct (Hok _ stale_bound) as (_ & _ & _ & metadata & Hm & Hk & Hmode & _). exists metadata.
  split; [exact Hm|]. split; [exact Hk|]. split; [exact Hmode|].
  destruct (Hdrop stale (mkOwnedSocketPath DEFAULT_SOCKET_PATH 1 3)) as [_ [Hkeep|(m & He & _ & _ & Hi)]]; [exact Hkeep|].
  vm_compute in He. injection He as <-. discriminate Hi.
Defined.
End witness.
