(* ===== verification/Deployment.v ===== *)
(** Deployment contracts of [l2-loop-core] ([deployment.rs]): artifact and host
    identities, the deployment authorization, the assessment of performance
    evidence, the canary plan, and the gate report with the decision derived from
    its gates and findings.

    The identifiers of the serialized forms are those of the records; the checks
    that deserialization adds are the ones the validations repeat. *)
From S2P Require Import Prelude Domain Text Preflight.

Definition DEPLOYMENT_SCHEMA_VERSION : Z := 1.
Definition AUTHORIZATION_MAX_LIFETIME_MS : Z := 24 * 60 * 60 * 1000.
Definition PERFORMANCE_EVIDENCE_MAX_LIFETIME_MS : Z := AUTHORIZATION_MAX_LIFETIME_MS.
Definition CANARY_MAX_OBSERVATION_MS : Z := 15 * 60 * 1000.
Definition PERFORMANCE_TRIALS_PER_MODE : nat := 5.
Definition PERFORMANCE_TOTAL_TRIALS : nat := PERFORMANCE_TRIALS_PER_MODE * 3.
Definition PERFORMANCE_FIXED_FRAME_SIZES : list Z := [64; 512; 1514].
Definition PERFORMANCE_FRAMES_PER_SIZE : Z := 65536.
Definition PERFORMANCE_PASS_THROUGH_MIN_PERMILLE : Z := 950.
Definition PERFORMANCE_OBSERVE_MIN_PERMILLE : Z := 900.
Definition PERFORMANCE_MAX_DAEMON_RSS_BYTES : Z := 256 * 1024 * 1024.
Definition PERFORMANCE_MAX_RSS_GROWTH_BYTES : Z := 16 * 1024 * 1024.
Definition PERFORMANCE_MAX_DAEMON_CPU_PERMILLE : Z := 1000.

Definition DG_ARTIFACT_INVENTORY : string := "DG_ARTIFACT_INVENTORY".
Definition DG_ARTIFACT_MANIFEST : string := "DG_ARTIFACT_MANIFEST".
Definition DG_ARTIFACT_CHECKSUM : string := "DG_ARTIFACT_CHECKSUM".
Definition DG_STAGING_ROOT : string := "DG_STAGING_ROOT".
Definition DG_LAYOUT_TYPE : string := "DG_LAYOUT_TYPE".
Definition DG_LAYOUT_MODE : string := "DG_LAYOUT_MODE".
Definition DG_LAYOUT_SYMLINK : string := "DG_LAYOUT_SYMLINK".
Definition DG_SYSTEMD_CONTRACT : string := "DG_SYSTEMD_CONTRACT".
Definition DG_AUTH_SCHEMA : string := "DG_AUTH_SCHEMA".
Definition DG_AUTH_EXPIRED : string := "DG_AUTH_EXPIRED".
Definition DG_AUTH_ARTIFACT : string := "DG_AUTH_ARTIFACT".
Definition DG_AUTH_IDENTITY : string := "DG_AUTH_IDENTITY".
Definition DG_INTERFACE_UNSUPPORTED : string := "DG_INTERFACE_UNSUPPORTED".
Definition DG_XDP_NOT_EMPTY : string := "DG_XDP_NOT_EMPTY".
Definition DG_TC_NOT_EMPTY : string := "DG_TC_NOT_EMPTY".
Definition DG_PLATFORM_BLOCKED : string := "DG_PLATFORM_BLOCKED".
Definition DG_EVIDENCE_ROOT : string := "DG_EVIDENCE_ROOT".
Definition DG_PERFORMANCE_UNAVAILABLE : string := "DG_PERFORMANCE_UNAVAILABLE".
Definition DG_PERFORMANCE_REGRESSION : string := "DG_PERFORMANCE_REGRESSION".
Definition DG_INTERNAL : string := "DG_INTERNAL".
Definition DG_REAL_JOURNALD_UNVERIFIED : string := "DG_REAL_JOURNALD_UNVERIFIED".
Definition DG_NATIVE_XDP_UNVERIFIED : string := "DG_NATIVE_XDP_UNVERIFIED".
Definition DG_WORKLOAD_PERFORMANCE_UNVERIFIED : string := "DG_WORKLOAD_PERFORMANCE_UNVERIFIED".

Definition BLOCKER_CODES : list string :=
  [DG_ARTIFACT_INVENTORY; DG_ARTIFACT_MANIFEST; DG_ARTIFACT_CHECKSUM; DG_STAGING_ROOT; DG_LAYOUT_TYPE;
   DG_LAYOUT_MODE; DG_LAYOUT_SYMLINK; DG_SYSTEMD_CONTRACT; DG_AUTH_SCHEMA; DG_AUTH_EXPIRED;
   DG_AUTH_ARTIFACT; DG_AUTH_IDENTITY; DG_INTERFACE_UNSUPPORTED; DG_XDP_NOT_EMPTY; DG_TC_NOT_EMPTY;
   DG_PLATFORM_BLOCKED; DG_EVIDENCE_ROOT; DG_PERFORMANCE_UNAVAILABLE; DG_PERFORMANCE_REGRESSION;
   DG_INTERNAL].

Definition WARNING_CODES : list string :=
  [DG_REAL_JOURNALD_UNVERIFIED; DG_NATIVE_XDP_UNVERIFIED; DG_WORKLOAD_PERFORMANCE_UNVERIFIED].

Inductive DeploymentContractError : Type :=
| InvalidArtifactIdentity | InvalidHostCompatibility | DeploymentInvalidAuthorization
| InvalidPerformanceEvidence | DeploymentInvalidFinding | InvalidGateSummary | InvalidCanaryPlan
| DeploymentInvalidReport.

Inductive DeploymentDecisionV1 : Type :=
| DeploymentDecisionBlocked | StagingReady | CanaryCandidate | DeploymentInstalledVerified
| PhysicalCanaryReady.
Inductive DeploymentCommandV1 : Type := CommandStaging | CommandInstalled | CommandInspect.
Inductive DeploymentAuthorizationModeV1 : Type := ReadOnlyCanaryCandidate.
Inductive DeploymentLinkStateV1 : Type := LinkUp.
Inductive DeploymentHookStateV1 : Type := HookEmpty.
Inductive PerformanceModeV1 : Type := PerfBaseline | PerfPassThrough | PerfObserve.
Inductive PerformanceXdpModeV1 : Type := XdpNative | XdpGeneric.
Inductive PerformanceResultV1 : Type := PerfPassed | PerfFailed | PerfUnavailable.
Inductive CanarySnapshotRequirementV1 : Type :=
| SnapshotNetwork | SnapshotXdp | SnapshotTc | SnapshotLoadedPrograms | SnapshotMaps | SnapshotPins
| SnapshotTrafficHealth.
Inductive CanaryStopConditionV1 : Type :=
| StopIdentityChange | StopObservationDegradation | StopTrafficHealthDegradation | StopOwnershipMismatch
| StopCleanupUncertainty | StopSignal | StopDeadline.
Inductive CanaryRollbackRequirementV1 : Type :=
| DetachOwnedTc | DetachOwnedXdp | UnpinOwnedMaps | UnloadOwnedPrograms | RemoveOwnedJournal
| RestoreNetworkIdentity.
Inductive DeploymentFindingSeverityV1 : Type :=
| DeploymentBlocker | DeploymentWarning | DeploymentInformation.
Inductive DeploymentGateStateV1 : Type := GatePassed | GateBlocked | GateUnavailable | GateNotApplicable.

#[export] Instance DeploymentDecisionV1_eq_dec : EqDecision DeploymentDecisionV1.
Proof. solve_decision. Defined.
#[export] Instance DeploymentCommandV1_eq_dec : EqDecision DeploymentCommandV1.
Proof. solve_decision. Defined.
#[export] Instance PerformanceModeV1_eq_dec : EqDecision PerformanceModeV1.
Proof. solve_decision. Defined.
#[export] Instance PerformanceXdpModeV1_eq_dec : EqDecision PerformanceXdpModeV1.
Proof. solve_decision. Defined.
#[export] Instance PerformanceResultV1_eq_dec : EqDecision PerformanceResultV1.
Proof. solve_decision. Defined.
#[export] Instance DeploymentLinkStateV1_eq_dec : EqDecision DeploymentLinkStateV1.
Proof. solve_decision. Defined.
#[export] Instance CanarySnapshotRequirementV1_eq_dec : EqDecision CanarySnapshotRequirementV1.
Proof. solve_decision. Defined.
#[export] Instance CanaryStopConditionV1_eq_dec : EqDecision CanaryStopConditionV1.
Proof. solve_decision. Defined.
#[export] Instance CanaryRollbackRequirementV1_eq_dec : EqDecision CanaryRollbackRequirementV1.
Proof. solve_decision. Defined.
#[export] Instance DeploymentFindingSeverityV1_eq_dec : EqDecision DeploymentFindingSeverityV1.
Proof. solve_decision. Defined.
#[export] Instance DeploymentGateStateV1_eq_dec : EqDecision DeploymentGateStateV1.
Proof. solve_decision. Defined.

Definition PERFORMANCE_TRIAL_MODE_ORDER : list PerformanceModeV1 :=
  [PerfBaseline; PerfPassThrough; PerfObserve; PerfPassThrough; PerfObserve; PerfBaseline; PerfObserve;
   PerfBaseline; PerfPassThrough; PerfBaseline; PerfObserve; PerfPassThrough; PerfPassThrough;
   PerfBaseline; PerfObserve].

(** ** Text checks *)
Definition is_lower_hex_text (value : string) (length : nat) : bool :=
  (String.length value =? length)%nat && forallb is_lower_hex (string_bytes value).

Definition is_ascii_graphic (byte : Ascii.ascii) : bool :=
  (33 <=? ascii_code byte) && (ascii_code byte <=? 126).

Definition is_safe_text (value : string) (maximum_length : nat) : bool :=
  negb (bool_decide (value = ""%string)) && (String.length value <=? maximum_length)%nat
  && forallb (λ byte, is_ascii_graphic byte
       && negb ((ascii_code byte =? 47) || (ascii_code byte =? 92))) (string_bytes value).

(** [codes.contains(&code)]. *)
Definition contains_code (codes : list string) (code : string) : bool :=
  existsb (λ c, bool_decide (c = code)) codes.

Fixpoint codes_are_sorted_unique (codes : list string) : bool :=
  match codes with
  | x :: (y :: _) as rest =>
      (match String.compare x y with Lt => true | _ => false end) && codes_are_sorted_unique rest
  | _ => true
  end.

(** ** Identities and the authorization *)
Record DeploymentArtifactIdentityV1 : Type := mkDeploymentArtifactIdentityV1 {
  da_commit_sha : string;
  da_package_version : string;
}.

#[export] Instance DeploymentArtifactIdentityV1_eq_dec : EqDecision DeploymentArtifactIdentityV1.
Proof. solve_decision. Defined.

Definition DeploymentArtifactIdentityV1_validate (self : DeploymentArtifactIdentityV1)
    : result DeploymentContractError unit :=
  if negb (is_lower_hex_text (da_commit_sha self) 40) || negb (is_safe_text (da_package_version self) 64)
  then Err InvalidArtifactIdentity else Ok tt.

Definition DeploymentArtifactIdentityV1_new (commit_sha package_version : string)
    : result DeploymentContractError DeploymentArtifactIdentityV1 :=
  let identity := mkDeploymentArtifactIdentityV1 commit_sha package_version in
  _ ← DeploymentArtifactIdentityV1_validate identity;
  Ok identity.

Record DeploymentHostCompatibilityV1 : Type := mkDeploymentHostCompatibilityV1 {
  dh_architecture : string;
  dh_kernel_release : string;
  dh_logical_cpu_count : Z;
}.

Definition DeploymentHostCompatibilityV1_validate (self : DeploymentHostCompatibilityV1)
    : result DeploymentContractError unit :=
  if negb (is_safe_text (dh_architecture self) 32) || negb (is_safe_text (dh_kernel_release self) 128)
     || (dh_logical_cpu_count self =? 0)
  then Err InvalidHostCompatibility else Ok tt.

Definition DeploymentHostCompatibilityV1_new (architecture kernel_release : string) (logical_cpu_count : Z)
    : result DeploymentContractError DeploymentHostCompatibilityV1 :=
  let identity := mkDeploymentHostCompatibilityV1 architecture kernel_release logical_cpu_count in
  _ ← DeploymentHostCompatibilityV1_validate identity;
  Ok identity.

Record DeploymentAuthorizedInterfaceV1 : Type := mkDeploymentAuthorizedInterfaceV1 {
  di_name : string;
  di_ifindex : Z;
  di_kind : InterfaceKind;
  di_administrative_state : DeploymentLinkStateV1;
  di_operational_state : DeploymentLinkStateV1;
  di_master_ifindex : option Z;
  di_mac_address_sha256 : string;
  di_driver : string;
  di_device_identity_sha256 : string;
  di_network_namespace_sha256 : string;
  di_xdp_native : DeploymentHookStateV1;
  di_xdp_generic : DeploymentHookStateV1;
  di_tc_clsact : bool;
  di_tc_ingress : list string;
  di_tc_egress : list string;
}.

Definition DeploymentAuthorizedInterfaceV1_validate (self : DeploymentAuthorizedInterfaceV1)
    : result DeploymentContractError unit :=
  if negb (is_ok (InterfaceName_new (di_name self)))
     || (di_ifindex self =? 0)
     || negb (bool_decide (di_kind self = Physical))
     || is_some (di_master_ifindex self)
     || negb (is_lower_hex_text (di_mac_address_sha256 self) 64)
     || negb (is_safe_text (di_driver self) 128)
     || negb (is_lower_hex_text (di_device_identity_sha256 self) 64)
     || negb (is_lower_hex_text (di_network_namespace_sha256 self) 64)
     || di_tc_clsact self
     || negb (bool_decide (di_tc_ingress self = []))
     || negb (bool_decide (di_tc_egress self = []))
  then Err DeploymentInvalidAuthorization else Ok tt.

Record DeploymentAuthorizationV1 : Type := mkDeploymentAuthorizationV1 {
  du_schema_version : Z;
  du_authorization_id : string;
  du_artifact_commit_sha : string;
  du_mode : DeploymentAuthorizationModeV1;
  du_interface : DeploymentAuthorizedInterfaceV1;
  du_issued_at_unix_ms : Z;
  du_expires_at_unix_ms : Z;
}.

Definition DeploymentAuthorizationV1_validate_structure (self : DeploymentAuthorizationV1)
    : result DeploymentContractError unit :=
  lifetime ← ok_or (checked_sub (du_expires_at_unix_ms self) (du_issued_at_unix_ms self))
               DeploymentInvalidAuthorization;
  if negb (du_schema_version self =? DEPLOYMENT_SCHEMA_VERSION)
     || negb (is_lower_hex_text (du_authorization_id self) 32)
     || negb (is_lower_hex_text (du_artifact_commit_sha self) 40)
     || (du_issued_at_unix_ms self =? 0)
     || (lifetime =? 0)
     || (AUTHORIZATION_MAX_LIFETIME_MS <? lifetime)
  then Err DeploymentInvalidAuthorization
  else DeploymentAuthorizedInterfaceV1_validate (du_interface self).

Definition DeploymentAuthorizationV1_validate_at (self : DeploymentAuthorizationV1)
    (captured_at_unix_ms : Z) : result DeploymentContractError unit :=
  _ ← DeploymentAuthorizationV1_validate_structure self;
  if negb ((du_issued_at_unix_ms self <=? captured_at_unix_ms)
           && (captured_at_unix_ms <=? du_expires_at_unix_ms self))
  then Err DeploymentInvalidAuthorization else Ok tt.

Definition DeploymentAuthorizationV1_validate_for (self : DeploymentAuthorizationV1)
    (captured_at_unix_ms : Z) (artifact : DeploymentArtifactIdentityV1)
    : result DeploymentContractError unit :=
  _ ← DeploymentAuthorizationV1_validate_at self captured_at_unix_ms;
  _ ← DeploymentArtifactIdentityV1_validate artifact;
  if negb (bool_decide (du_artifact_commit_sha self = da_commit_sha artifact))
  then Err DeploymentInvalidAuthorization else Ok tt.

(** ** Performance evidence *)
Record PerformanceTrialV1 : Type := mkPerformanceTrialV1 {
  pt_trial_number : Z;
  pt_mode : PerformanceModeV1;
  pt_frame_sizes : list Z;
  pt_frames_per_size : Z;
  pt_duration_ns : Z;
  pt_packets_per_second : Z;
  pt_bytes_per_second : Z;
  pt_daemon_cpu_time_ns : Z;
  pt_peak_resident_memory_bytes : Z;
  pt_packet_drop_delta : Z;
  pt_packet_error_delta : Z;
}.

Definition or_invalid {A} (o : option A) : result DeploymentContractError A :=
  ok_or o InvalidPerformanceEvidence.

Definition PerformanceTrialV1_validate (self : PerformanceTrialV1) : result DeploymentContractError unit :=
  if negb (bool_decide (pt_frame_sizes self = PERFORMANCE_FIXED_FRAME_SIZES))
     || negb (pt_frames_per_size self =? PERFORMANCE_FRAMES_PER_SIZE)
     || (pt_duration_ns self =? 0)
     || (pt_packets_per_second self =? 0)
     || (pt_bytes_per_second self =? 0)
  then Err InvalidPerformanceEvidence
  else
    sent_packets ← or_invalid (checked_mul U128_MAX (pt_frames_per_size self)
                                 (Z.of_nat (length (pt_frame_sizes self))));
    sent_bytes ← or_invalid (foldl (λ total size, total ≫= λ t, checked_add U128_MAX t size) (Some 0)
                               (pt_frame_sizes self));
    sent_bytes ← or_invalid (checked_mul U128_MAX sent_bytes (pt_frames_per_size self));
    scaled_packets ← or_invalid (checked_mul U128_MAX sent_packets 1000000000);
    let expected_packets_per_second := scaled_packets / pt_duration_ns self in
    scaled_bytes ← or_invalid (checked_mul U128_MAX sent_bytes 1000000000);
    let expected_bytes_per_second := scaled_bytes / pt_duration_ns self in
    if negb (pt_packets_per_second self =? expected_packets_per_second)
       || negb (pt_bytes_per_second self =? expected_bytes_per_second)
    then Err InvalidPerformanceEvidence else Ok tt.

Record PerformanceRateV1 : Type := mkPerformanceRateV1 {
  pr_packets_per_second : Z;
  pr_bytes_per_second : Z;
}.

#[export] Instance PerformanceRateV1_eq_dec : EqDecision PerformanceRateV1.
Proof. solve_decision. Defined.

Record PerformanceMediansV1 : Type := mkPerformanceMediansV1 {
  pm_baseline : PerformanceRateV1;
  pm_pass_through : PerformanceRateV1;
  pm_observe : PerformanceRateV1;
}.

Record PerformanceEvidenceV1 : Type := mkPerformanceEvidenceV1 {
  pe_schema_version : Z;
  pe_evidence_id : string;
  pe_artifact_commit_sha : string;
  pe_package_version : string;
  pe_architecture : string;
  pe_kernel_release : string;
  pe_logical_cpu_count : Z;
  pe_veth_xdp_mode : PerformanceXdpModeV1;
  pe_issued_at_unix_ms : Z;
  pe_expires_at_unix_ms : Z;
  pe_warm_up_complete : bool;
  pe_measurement_complete : bool;
  pe_measurement_noisy : bool;
  pe_host_identity_stable : bool;
  pe_trials : list PerformanceTrialV1;
  pe_medians : PerformanceMediansV1;
  pe_pass_through_baseline_ratio_permille : Z;
  pe_observe_baseline_ratio_permille : Z;
  pe_daemon_cpu_time_ns : Z;
  pe_daemon_cpu_permille : Z;
  pe_peak_resident_memory_bytes : Z;
  pe_rss_growth_bytes : Z;
  pe_packet_drop_delta : Z;
  pe_packet_error_delta : Z;
  pe_process_count_before : Z;
  pe_process_count_after : Z;
  pe_map_count_before : Z;
  pe_map_count_after : Z;
  pe_program_count_before : Z;
  pe_program_count_after : Z;
  pe_pin_count_before : Z;
  pe_pin_count_after : Z;
  pe_namespace_count_before : Z;
  pe_namespace_count_after : Z;
  pe_forwarding_intact : bool;
  pe_owned_cleanup_complete : bool;
  pe_network_identity_restored : bool;
  pe_ebpf_identity_restored : bool;
  pe_result : PerformanceResultV1;
  pe_findings : list string;
}.

Record PerformanceAssessmentV1 : Type := mkPerformanceAssessmentV1 {
  pa_medians : PerformanceMediansV1;
  pa_pass_through_baseline_ratio_permille : Z;
  pa_observe_baseline_ratio_permille : Z;
  pa_daemon_cpu_time_ns : Z;
  pa_daemon_cpu_permille : Z;
  pa_peak_resident_memory_bytes : Z;
  pa_rss_growth_bytes : Z;
  pa_result : PerformanceResultV1;
  pa_outstanding_warning_codes : list string;
}.

(** What the loop over the trials adds up. *)
Record TrialTotals : Type := mkTrialTotals {
  tt_cpu_time_ns : Z;
  tt_duration_ns : Z;
  tt_drop_delta : Z;
  tt_error_delta : Z;
  tt_peak_resident_memory_bytes : Z;
}.

(** One iteration; indexing the order of the modes is in range, because the number
    of trials was checked. *)
Definition total_trial (acc : TrialTotals) (p : nat * PerformanceTrialV1)
    : result DeploymentContractError TrialTotals :=
  let '(index, trial) := p in
  _ ← PerformanceTrialV1_validate trial;
  expected_trial_number ← or_invalid (try_from_wide U8_MAX (Z.of_nat (index / 3 + 1)));
  if negb (pt_trial_number trial =? expected_trial_number)
     || negb (bool_decide (PERFORMANCE_TRIAL_MODE_ORDER !! index = Some (pt_mode trial)))
  then Err InvalidPerformanceEvidence
  else
    cpu ← or_invalid (checked_add U64_MAX (tt_cpu_time_ns acc) (pt_daemon_cpu_time_ns trial));
    duration ← or_invalid (checked_add U128_MAX (tt_duration_ns acc) (pt_duration_ns trial));
    drop ← or_invalid (checked_add U64_MAX (tt_drop_delta acc) (pt_packet_drop_delta trial));
    error ← or_invalid (checked_add U64_MAX (tt_error_delta acc) (pt_packet_error_delta trial));
    Ok (mkTrialTotals cpu duration drop error
          (Z.max (tt_peak_resident_memory_bytes acc) (pt_peak_resident_memory_bytes trial))).

Definition TrialTotals_new : TrialTotals := mkTrialTotals 0 0 0 0 0.

(** One iteration of [median_for]; the arrays of rates are the lists of their
    filled parts. *)
Definition median_step (mode : PerformanceModeV1) (acc : list Z * list Z) (trial : PerformanceTrialV1)
    : result DeploymentContractError (list Z * list Z) :=
  if bool_decide (pt_mode trial = mode) then
    if (length acc.1 =? PERFORMANCE_TRIALS_PER_MODE)%nat then Err InvalidPerformanceEvidence
    else Ok (acc.1 ++ [pt_packets_per_second trial], acc.2 ++ [pt_bytes_per_second trial])
  else Ok acc.

Definition median_for (self : PerformanceEvidenceV1) (mode : PerformanceModeV1)
    : result DeploymentContractError PerformanceRateV1 :=
  rates ← try_fold (median_step mode) ([], []) (pe_trials self);
  if negb (length rates.1 =? PERFORMANCE_TRIALS_PER_MODE)%nat then Err InvalidPerformanceEvidence
  else Ok (mkPerformanceRateV1
             (merge_sort Z.le rates.1 !!! (PERFORMANCE_TRIALS_PER_MODE / 2)%nat)
             (merge_sort Z.le rates.2 !!! (PERFORMANCE_TRIALS_PER_MODE / 2)%nat)).

Definition observe_rss_for_trial (self : PerformanceEvidenceV1) (trial_number : Z)
    : result DeploymentContractError Z :=
  match List.filter (λ trial, (pt_trial_number trial =? trial_number)
                              && bool_decide (pt_mode trial = PerfObserve)) (pe_trials self) with
  | [trial] => Ok (pt_peak_resident_memory_bytes trial)
  | _ => Err InvalidPerformanceEvidence
  end.

Definition conservative_ratio_permille (measured baseline : PerformanceRateV1)
    : result DeploymentContractError Z :=
  if (pr_packets_per_second baseline =? 0) || (pr_bytes_per_second baseline =? 0)
  then Err InvalidPerformanceEvidence
  else
    packets ← or_invalid (checked_mul U128_MAX (pr_packets_per_second measured) 1000);
    let packet_ratio := packets / pr_packets_per_second baseline in
    bytes ← or_invalid (checked_mul U128_MAX (pr_bytes_per_second measured) 1000);
    let byte_ratio := bytes / pr_bytes_per_second baseline in
    or_invalid (try_from_wide U16_MAX (Z.min packet_ratio byte_ratio)).

(** The measurement did not yield a verdict. *)
Definition evidence_unavailable (self : PerformanceEvidenceV1) : bool :=
  negb (pe_warm_up_complete self) || negb (pe_measurement_complete self)
  || pe_measurement_noisy self || negb (pe_host_identity_stable self).

(** The measurement shows a regression. *)
Definition evidence_regression (self : PerformanceEvidenceV1) : bool :=
  (pe_pass_through_baseline_ratio_permille self <? PERFORMANCE_PASS_THROUGH_MIN_PERMILLE)
  || (pe_observe_baseline_ratio_permille self <? PERFORMANCE_OBSERVE_MIN_PERMILLE)
  || (PERFORMANCE_MAX_DAEMON_CPU_PERMILLE <? pe_daemon_cpu_permille self)
  || (PERFORMANCE_MAX_DAEMON_RSS_BYTES <? pe_peak_resident_memory_bytes self)
  || (PERFORMANCE_MAX_RSS_GROWTH_BYTES <? pe_rss_growth_bytes self)
  || negb (pe_packet_drop_delta self =? 0)
  || negb (pe_packet_error_delta self =? 0)
  || negb (pe_process_count_before self =? pe_process_count_after self)
  || negb (pe_map_count_before self =? pe_map_count_after self)
  || negb (pe_program_count_before self =? pe_program_count_after self)
  || negb (pe_pin_count_before self =? pe_pin_count_after self)
  || negb (pe_namespace_count_before self =? pe_namespace_count_after self)
  || negb (pe_forwarding_intact self)
  || negb (pe_owned_cleanup_complete self)
  || negb (pe_network_identity_restored self)
  || negb (pe_ebpf_identity_restored self).

Definition expected_findings (result : PerformanceResultV1) : list string :=
  match result with
  | PerfPassed => []
  | PerfFailed => [DG_PERFORMANCE_REGRESSION]
  | PerfUnavailable => [DG_PERFORMANCE_UNAVAILABLE]
  end.

(** The evidence's identity, window and number of trials. *)
Definition evidence_header_invalid (self : PerformanceEvidenceV1) (lifetime captured_at_unix_ms : Z) : bool :=
  negb (pe_schema_version self =? DEPLOYMENT_SCHEMA_VERSION)
  || negb (is_lower_hex_text (pe_evidence_id self) 32)
  || negb (is_lower_hex_text (pe_artifact_commit_sha self) 40)
  || negb (is_safe_text (pe_package_version self) 64)
  || negb (is_safe_text (pe_architecture self) 32)
  || negb (is_safe_text (pe_kernel_release self) 128)
  || (pe_logical_cpu_count self =? 0)
  || (pe_issued_at_unix_ms self =? 0)
  || (lifetime =? 0)
  || (PERFORMANCE_EVIDENCE_MAX_LIFETIME_MS <? lifetime)
  || negb ((pe_issued_at_unix_ms self <=? captured_at_unix_ms)
           && (captured_at_unix_ms <=? pe_expires_at_unix_ms self))
  || negb (length (pe_trials self) =? PERFORMANCE_TOTAL_TRIALS)%nat.

(** Whether the evidence claims other values than the computed ones. *)
Definition claims_differ (self : PerformanceEvidenceV1) (totals : TrialTotals)
    (baseline pass_through observe : PerformanceRateV1)
    (pass_through_ratio observe_ratio daemon_cpu_permille rss_growth_bytes : Z) : bool :=
  negb (bool_decide (pm_baseline (pe_medians self) = baseline))
  || negb (bool_decide (pm_pass_through (pe_medians self) = pass_through))
  || negb (bool_decide (pm_observe (pe_medians self) = observe))
  || negb (pe_pass_through_baseline_ratio_permille self =? pass_through_ratio)
  || negb (pe_observe_baseline_ratio_permille self =? observe_ratio)
  || negb (pe_daemon_cpu_time_ns self =? tt_cpu_time_ns totals)
  || negb (pe_daemon_cpu_permille self =? daemon_cpu_permille)
  || negb (pe_peak_resident_memory_bytes self =? tt_peak_resident_memory_bytes totals)
  || negb (pe_rss_growth_bytes self =? rss_growth_bytes)
  || negb (pe_packet_drop_delta self =? tt_drop_delta totals)
  || negb (pe_packet_error_delta self =? tt_error_delta totals)
  || negb (codes_are_sorted_unique (pe_findings self))
  || existsb (λ code, negb (contains_code [DG_PERFORMANCE_REGRESSION; DG_PERFORMANCE_UNAVAILABLE] code))
       (pe_findings self).

Definition sorted_warning_codes : list string := sort_by String.compare WARNING_CODES.

Definition assess_structure (self : PerformanceEvidenceV1) (captured_at_unix_ms : Z)
    : result DeploymentContractError PerformanceAssessmentV1 :=
  lifetime ← or_invalid (checked_sub (pe_expires_at_unix_ms self) (pe_issued_at_unix_ms self));
  if evidence_header_invalid self lifetime captured_at_unix_ms then Err InvalidPerformanceEvidence
  else
    totals ← try_fold total_trial TrialTotals_new
               (zip (seq 0 (length (pe_trials self))) (pe_trials self));
    baseline ← median_for self PerfBaseline;
    pass_through ← median_for self PerfPassThrough;
    observe ← median_for self PerfObserve;
    pass_through_ratio ← conservative_ratio_permille pass_through baseline;
    observe_ratio ← conservative_ratio_permille observe baseline;
    scaled_cpu ← or_invalid (checked_mul U128_MAX (tt_cpu_time_ns totals) 1000);
    daemon_cpu_permille ← or_invalid (try_from_wide U16_MAX (scaled_cpu / tt_duration_ns totals));
    first_observe_rss ← observe_rss_for_trial self 1;
    fifth_observe_rss ← observe_rss_for_trial self 5;
    let rss_growth_bytes := saturating_sub fifth_observe_rss first_observe_rss in
    if claims_differ self totals baseline pass_through observe pass_through_ratio observe_ratio
         daemon_cpu_permille rss_growth_bytes
    then Err InvalidPerformanceEvidence
    else
      let expected_result :=
        if evidence_unavailable self then PerfUnavailable
        else if evidence_regression self then PerfFailed else PerfPassed in
      if negb (bool_decide (pe_result self = expected_result))
         || negb (bool_decide (pe_findings self = expected_findings expected_result))
      then Err InvalidPerformanceEvidence
      else Ok (mkPerformanceAssessmentV1 (mkPerformanceMediansV1 baseline pass_through observe)
                 pass_through_ratio observe_ratio (tt_cpu_time_ns totals) daemon_cpu_permille
                 (tt_peak_resident_memory_bytes totals) rss_growth_bytes expected_result
                 sorted_warning_codes).

Definition assess_for (self : PerformanceEvidenceV1) (captured_at_unix_ms : Z)
    (artifact : DeploymentArtifactIdentityV1) (host : DeploymentHostCompatibilityV1)
    : result DeploymentContractError PerformanceAssessmentV1 :=
  _ ← DeploymentArtifactIdentityV1_validate artifact;
  _ ← DeploymentHostCompatibilityV1_validate host;
  assessment ← assess_structure self captured_at_unix_ms;
  if negb (bool_decide (pe_artifact_commit_sha self = da_commit_sha artifact))
     || negb (bool_decide (pe_package_version self = da_package_version artifact))
     || negb (bool_decide (pe_architecture self = dh_architecture host))
     || negb (bool_decide (pe_kernel_release self = dh_kernel_release host))
     || negb (pe_logical_cpu_count self =? dh_logical_cpu_count host)
  then Err InvalidPerformanceEvidence else Ok assessment.

Definition PerformanceEvidenceV1_validate_for (self : PerformanceEvidenceV1) (captured_at_unix_ms : Z)
    (artifact : DeploymentArtifactIdentityV1) (host : DeploymentHostCompatibilityV1)
    : result DeploymentContractError unit :=
  _ ← assess_for self captured_at_unix_ms artifact host;
  Ok tt.

(** ** The canary plan *)
Record DeploymentInterfaceSummaryV1 : Type := mkDeploymentInterfaceSummaryV1 {
  ds_name : string;
  ds_ifindex : Z;
  ds_kind : InterfaceKind;
  ds_administrative_state : DeploymentLinkStateV1;
  ds_operational_state : DeploymentLinkStateV1;
}.

#[export] Instance DeploymentInterfaceSummaryV1_eq_dec : EqDecision DeploymentInterfaceSummaryV1.
Proof. solve_decision. Defined.

Definition DeploymentInterfaceSummaryV1_validate (self : DeploymentInterfaceSummaryV1)
    : result DeploymentContractError unit :=
  if negb (is_ok (InterfaceName_new (ds_name self))) || (ds_ifindex self =? 0)
  then Err InvalidCanaryPlan else Ok tt.

Definition DeploymentInterfaceSummaryV1_new (name : string) (ifindex : Z) (kind : InterfaceKind)
    (administrative_up operational_up : bool)
    : result DeploymentContractError DeploymentInterfaceSummaryV1 :=
  let summary := mkDeploymentInterfaceSummaryV1 name ifindex kind LinkUp LinkUp in
  if negb administrative_up || negb operational_up then Err InvalidCanaryPlan
  else
    _ ← DeploymentInterfaceSummaryV1_validate summary;
    Ok summary.

Definition REQUIRED_SNAPSHOTS : list CanarySnapshotRequirementV1 :=
  [SnapshotNetwork; SnapshotXdp; SnapshotTc; SnapshotLoadedPrograms; SnapshotMaps; SnapshotPins;
   SnapshotTrafficHealth].

Definition STOP_CONDITIONS : list CanaryStopConditionV1 :=
  [StopIdentityChange; StopObservationDegradation; StopTrafficHealthDegradation; StopOwnershipMismatch;
   StopCleanupUncertainty; StopSignal; StopDeadline].

Definition ROLLBACK_REQUIREMENTS : list CanaryRollbackRequirementV1 :=
  [DetachOwnedTc; DetachOwnedXdp; UnpinOwnedMaps; UnloadOwnedPrograms; RemoveOwnedJournal;
   RestoreNetworkIdentity].

Record CanaryPlanV1 : Type := mkCanaryPlanV1 {
  cp_schema_version : Z;
  cp_executable : bool;
  cp_authorization_id : string;
  cp_artifact_commit_sha : string;
  cp_interface : DeploymentInterfaceSummaryV1;
  cp_xdp_ingress_mode : PerformanceXdpModeV1;
  cp_tc_egress_hook : bool;
  cp_no_replace : bool;
  cp_reject_foreign_or_unknown_state : bool;
  cp_required_snapshots : list CanarySnapshotRequirementV1;
  cp_maximum_observation_duration_ms : Z;
  cp_stop_conditions : list CanaryStopConditionV1;
  cp_rollback_requirements : list CanaryRollbackRequirementV1;
  cp_blocker_codes : list string;
  cp_warning_codes : list string;
}.

#[export] Instance CanaryPlanV1_eq_dec : EqDecision CanaryPlanV1.
Proof. solve_decision. Defined.

Definition CanaryPlanV1_validate (self : CanaryPlanV1) : result DeploymentContractError unit :=
  if negb (cp_schema_version self =? DEPLOYMENT_SCHEMA_VERSION)
     || cp_executable self
     || negb (is_lower_hex_text (cp_authorization_id self) 32)
     || negb (is_lower_hex_text (cp_artifact_commit_sha self) 40)
     || negb (bool_decide (ds_kind (cp_interface self) = Physical))
     || negb (is_ok (DeploymentInterfaceSummaryV1_validate (cp_interface self)))
     || negb (bool_decide (cp_xdp_ingress_mode self = XdpNative))
     || negb (cp_tc_egress_hook self)
     || negb (cp_no_replace self)
     || negb (cp_reject_foreign_or_unknown_state self)
     || negb (bool_decide (cp_required_snapshots self = REQUIRED_SNAPSHOTS))
     || negb (cp_maximum_observation_duration_ms self =? CANARY_MAX_OBSERVATION_MS)
     || negb (bool_decide (cp_stop_conditions self = STOP_CONDITIONS))
     || negb (bool_decide (cp_rollback_requirements self = ROLLBACK_REQUIREMENTS))
     || negb (bool_decide (cp_blocker_codes self = []))
     || negb (bool_decide (cp_warning_codes self = sorted_warning_codes))
  then Err InvalidCanaryPlan else Ok tt.

Definition CanaryPlanV1_new (authorization : DeploymentAuthorizationV1)
    (interface : DeploymentInterfaceSummaryV1) : result DeploymentContractError CanaryPlanV1 :=
  _ ← DeploymentAuthorizationV1_validate_structure authorization;
  _ ← DeploymentInterfaceSummaryV1_validate interface;
  if negb (bool_decide (ds_kind interface = Physical))
     || negb (bool_decide (di_name (du_interface authorization) = ds_name interface))
     || negb (di_ifindex (du_interface authorization) =? ds_ifindex interface)
     || negb (bool_decide (di_kind (du_interface authorization) = ds_kind interface))
  then Err InvalidCanaryPlan
  else
    let plan := mkCanaryPlanV1 DEPLOYMENT_SCHEMA_VERSION false (du_authorization_id authorization)
                  (du_artifact_commit_sha authorization) interface XdpNative true true true
                  REQUIRED_SNAPSHOTS CANARY_MAX_OBSERVATION_MS STOP_CONDITIONS ROLLBACK_REQUIREMENTS
                  [] sorted_warning_codes in
    _ ← CanaryPlanV1_validate plan;
    Ok plan.

(** ** Findings and gates *)
Record DeploymentFindingV1 : Type := mkDeploymentFindingV1 {
  df_code : string;
  df_severity : DeploymentFindingSeverityV1;
}.

#[export] Instance DeploymentFindingV1_eq_dec : EqDecision DeploymentFindingV1.
Proof. solve_decision. Defined.

Definition DeploymentFindingV1_blocker (code : string) : result DeploymentContractError DeploymentFindingV1 :=
  if negb (contains_code BLOCKER_CODES code) then Err DeploymentInvalidFinding
  else Ok (mkDeploymentFindingV1 code DeploymentBlocker).

Definition DeploymentFindingV1_warning (code : string) : result DeploymentContractError DeploymentFindingV1 :=
  if negb (contains_code WARNING_CODES code) then Err DeploymentInvalidFinding
  else Ok (mkDeploymentFindingV1 code DeploymentWarning).

Definition DeploymentFindingV1_validate (self : DeploymentFindingV1) : result DeploymentContractError unit :=
  let valid :=
    match df_severity self with
    | DeploymentBlocker => contains_code BLOCKER_CODES (df_code self)
    | DeploymentWarning => contains_code WARNING_CODES (df_code self)
    | DeploymentInformation => false
    end in
  if negb valid then Err DeploymentInvalidFinding else Ok tt.

Definition deployment_severity_index (s : DeploymentFindingSeverityV1) : Z :=
  match s with DeploymentBlocker => 0 | DeploymentWarning => 1 | DeploymentInformation => 2 end.

(** [left.severity.cmp(&right.severity).then_with(|| left.code.cmp(&right.code))]. *)
Definition deployment_finding_cmp (left right : DeploymentFindingV1) : comparison :=
  match deployment_severity_index (df_severity left) ?= deployment_severity_index (df_severity right) with
  | Eq => String.compare (df_code left) (df_code right)
  | order => order
  end.

Record DeploymentGateSummaryV1 : Type := mkDeploymentGateSummaryV1 {
  dg_state : DeploymentGateStateV1;
  dg_finding_codes : list string;
}.

#[export] Instance DeploymentGateSummaryV1_eq_dec : EqDecision DeploymentGateSummaryV1.
Proof. solve_decision. Defined.

Definition gate_passed : DeploymentGateSummaryV1 := mkDeploymentGateSummaryV1 GatePassed [].
Definition gate_not_applicable : DeploymentGateSummaryV1 := mkDeploymentGateSummaryV1 GateNotApplicable [].
Definition gate_blocked (code : string) : result DeploymentContractError DeploymentGateSummaryV1 :=
  if negb (contains_code BLOCKER_CODES code) then Err InvalidGateSummary
  else Ok (mkDeploymentGateSummaryV1 GateBlocked [code]).

Definition DeploymentGateSummaryV1_validate (self : DeploymentGateSummaryV1)
    : result DeploymentContractError unit :=
  let codes_valid := codes_are_sorted_unique (dg_finding_codes self)
                     && forallb (contains_code BLOCKER_CODES) (dg_finding_codes self) in
  let shape_valid :=
    match dg_state self with
    | GatePassed | GateNotApplicable => bool_decide (dg_finding_codes self = [])
    | GateBlocked | GateUnavailable => negb (bool_decide (dg_finding_codes self = []))
    end in
  if negb codes_valid || negb shape_valid then Err InvalidGateSummary else Ok tt.

Definition gate_prevents_positive_decision (self : DeploymentGateSummaryV1) : bool :=
  match dg_state self with GateBlocked | GateUnavailable => true | _ => false end.

Record DeploymentGateSummariesV1 : Type := mkDeploymentGateSummariesV1 {
  gs_bundle : DeploymentGateSummaryV1;
  gs_layout : DeploymentGateSummaryV1;
  gs_service : DeploymentGateSummaryV1;
  gs_authorization : DeploymentGateSummaryV1;
  gs_platform : DeploymentGateSummaryV1;
  gs_evidence : DeploymentGateSummaryV1;
  gs_performance : DeploymentGateSummaryV1;
}.

#[export] Instance DeploymentGateSummariesV1_eq_dec : EqDecision DeploymentGateSummariesV1.
Proof. solve_decision. Defined.

Definition staging_passed : DeploymentGateSummariesV1 :=
  mkDeploymentGateSummariesV1 gate_passed gate_passed gate_passed gate_passed gate_not_applicable
    gate_passed gate_passed.
Definition inspect_passed : DeploymentGateSummariesV1 :=
  mkDeploymentGateSummariesV1 gate_passed gate_passed gate_passed gate_passed gate_passed
    gate_passed gate_passed.
Definition installed_passed : DeploymentGateSummariesV1 := staging_passed.

Definition inspect_blocked (code : string) : result DeploymentContractError DeploymentGateSummariesV1 :=
  platform ← gate_blocked code;
  Ok (mkDeploymentGateSummariesV1 gate_passed gate_passed gate_passed gate_passed platform
        gate_passed gate_passed).

Definition gates_all (self : DeploymentGateSummariesV1) : list DeploymentGateSummaryV1 :=
  [gs_bundle self; gs_layout self; gs_service self; gs_authorization self; gs_platform self;
   gs_evidence self; gs_performance self].

Definition DeploymentGateSummariesV1_validate (self : DeploymentGateSummariesV1)
    : result DeploymentContractError unit :=
  try_for_each DeploymentGateSummaryV1_validate (gates_all self).

Definition prevents_positive_decision (self : DeploymentGateSummariesV1) : bool :=
  existsb gate_prevents_positive_decision (gates_all self).

Definition is_staging_positive (self : DeploymentGateSummariesV1) : bool :=
  bool_decide (dg_state (gs_bundle self) = GatePassed)
  && bool_decide (dg_state (gs_layout self) = GatePassed)
  && bool_decide (dg_state (gs_service self) = GatePassed)
  && bool_decide (dg_state (gs_authorization self) = GatePassed)
  && bool_decide (dg_state (gs_platform self) = GateNotApplicable)
  && bool_decide (dg_state (gs_evidence self) = GatePassed)
  && bool_decide (dg_state (gs_performance self) = GatePassed).

Definition is_inspect_positive (self : DeploymentGateSummariesV1) : bool :=
  forallb (λ gate, bool_decide (dg_state gate = GatePassed)) (gates_all self).

Definition is_installed_positive (self : DeploymentGateSummariesV1) : bool := is_staging_positive self.

(** ** The gate report *)
Record DeploymentGateReportV1 : Type := mkDeploymentGateReportV1 {
  dp_schema_version : Z;
  dp_decision : DeploymentDecisionV1;
  dp_artifact : DeploymentArtifactIdentityV1;
  dp_interface : option DeploymentInterfaceSummaryV1;
  dp_gates : DeploymentGateSummariesV1;
  dp_findings : list DeploymentFindingV1;
  dp_canary_plan : option CanaryPlanV1;
  dp_captured_at_unix_ms : Z;
  dp_mutations_performed : bool;
}.

#[export] Instance DeploymentGateReportV1_eq_dec : EqDecision DeploymentGateReportV1.
Proof. solve_decision. Defined.

(** The decision on a staged or an installed layout. *)
Definition layout_decision (interface : option DeploymentInterfaceSummaryV1)
    (canary_plan : option CanaryPlanV1) (has_blocker positive : bool) (ready : DeploymentDecisionV1)
    : result DeploymentContractError DeploymentDecisionV1 :=
  if is_some interface || is_some canary_plan then Err DeploymentInvalidReport
  else if has_blocker then Ok DeploymentDecisionBlocked
  else if positive then Ok ready
  else Err DeploymentInvalidReport.

Definition inspect_decision (artifact : DeploymentArtifactIdentityV1)
    (interface : option DeploymentInterfaceSummaryV1) (gates : DeploymentGateSummariesV1)
    (canary_plan : option CanaryPlanV1) (has_blocker : bool)
    : result DeploymentContractError DeploymentDecisionV1 :=
  if has_blocker then
    if is_some canary_plan then Err DeploymentInvalidReport else Ok DeploymentDecisionBlocked
  else
    interface ← ok_or interface DeploymentInvalidReport;
    _ ← DeploymentInterfaceSummaryV1_validate interface;
    plan ← ok_or canary_plan DeploymentInvalidReport;
    _ ← CanaryPlanV1_validate plan;
    if negb (is_inspect_positive gates)
       || negb (bool_decide (cp_artifact_commit_sha plan = da_commit_sha artifact))
       || negb (bool_decide (cp_interface plan = interface))
    then Err DeploymentInvalidReport else Ok PhysicalCanaryReady.

Definition DeploymentGateReportV1_derive (command : DeploymentCommandV1)
    (artifact : DeploymentArtifactIdentityV1) (interface : option DeploymentInterfaceSummaryV1)
    (gates : DeploymentGateSummariesV1) (findings : list DeploymentFindingV1)
    (canary_plan : option CanaryPlanV1) (captured_at_unix_ms : Z)
    : result DeploymentContractError DeploymentGateReportV1 :=
  _ ← DeploymentArtifactIdentityV1_validate artifact;
  _ ← DeploymentGateSummariesV1_validate gates;
  if captured_at_unix_ms =? 0 then Err DeploymentInvalidReport
  else
    _ ← try_for_each DeploymentFindingV1_validate findings;
    let findings := dedup (sort_by deployment_finding_cmp findings) in
    let has_blocker :=
      existsb (λ finding, bool_decide (df_severity finding = DeploymentBlocker)) findings
      || prevents_positive_decision gates in
    decision ←
      match command with
      | CommandStaging =>
          layout_decision interface canary_plan has_blocker (is_staging_positive gates) StagingReady
      | CommandInstalled =>
          layout_decision interface canary_plan has_blocker (is_installed_positive gates)
            DeploymentInstalledVerified
      | CommandInspect => inspect_decision artifact interface gates canary_plan has_blocker
      end;
    Ok (mkDeploymentGateReportV1 DEPLOYMENT_SCHEMA_VERSION decision artifact interface gates findings
          canary_plan captured_at_unix_ms false).

Definition DeploymentGateReportV1_validate (self : DeploymentGateReportV1) (command : DeploymentCommandV1)
    : result DeploymentContractError unit :=
  if negb (dp_schema_version self =? DEPLOYMENT_SCHEMA_VERSION) || dp_mutations_performed self
  then Err DeploymentInvalidReport
  else
    expected ← DeploymentGateReportV1_derive command (dp_artifact self) (dp_interface self) (dp_gates self)
                 (dp_findings self) (dp_canary_plan self) (dp_captured_at_unix_ms self);
    if negb (bool_decide (expected = self)) then Err DeploymentInvalidReport else Ok tt.

(** ** The gate report *)
Lemma deployment_finding_cmp_antisym x y : deployment_finding_cmp y x = CompOpp (deployment_finding_cmp x y).
Proof.
  unfold deployment_finding_cmp. rewrite (Z.compare_antisym (deployment_severity_index (df_severity x))).
  destruct (_ ?= _); cbn; [apply String.compare_antisym|done..].
Qed.

Lemma deployment_finding_cmp_Eq x y : deployment_finding_cmp x y = Eq → x = y.
Proof.
  destruct x as [c s], y as [c' s']. unfold deployment_finding_cmp. cbn.
  destruct (Z.compare_spec (deployment_severity_index s) (deployment_severity_index s')) as [Hs|?|?]; [|done..].
  intros Hc. apply String.compare_eq_iff in Hc as ->. by destruct s, s'.
Qed.

(** What blocks a positive decision. *)
Definition blocked_by (findings : list DeploymentFindingV1) (gates : DeploymentGateSummariesV1) : Prop :=
  (∃ f, f ∈ findings ∧ df_severity f = DeploymentBlocker) ∨
  (∃ g, g ∈ gates_all gates ∧ (dg_state g = GateBlocked ∨ dg_state g = GateUnavailable)).

(** What a positive decision stands for. *)
Definition ready_for (command : DeploymentCommandV1) (r : DeploymentGateReportV1) : Prop :=
  let gates := dp_gates r in
  match command with
  | CommandInspect =>
      dp_decision r = PhysicalCanaryReady ∧ Forall (λ g, g = gate_passed) (gates_all gates) ∧
      ∃ interface plan, dp_interface r = Some interface ∧ dp_canary_plan r = Some plan ∧
        cp_interface plan = interface ∧ ds_kind interface = Physical ∧ cp_executable plan = false ∧
        cp_artifact_commit_sha plan = da_commit_sha (dp_artifact r) ∧ CanaryPlanV1_validate plan = Ok tt
  | _ =>
      dp_decision r = (if decide (command = CommandStaging) then StagingReady else DeploymentInstalledVerified) ∧
      gates = staging_passed ∧ dp_interface r = None ∧ dp_canary_plan r = None
  end.

Lemma has_blocker_iff findings gates :
  existsb (λ f, bool_decide (df_severity f = DeploymentBlocker)) findings || prevents_positive_decision gates = true
  ↔ blocked_by findings gates.
Proof.
  unfold blocked_by, prevents_positive_decision. rewrite orb_true_iff, !existsb_exists.
  setoid_rewrite <-list_elem_of_In. setoid_rewrite bool_decide_eq_true.
  f_equiv. f_equiv. intros g. f_equiv. unfold gate_prevents_positive_decision.
  destruct (dg_state g); naive_solver.
Qed.

Lemma blocked_by_same findings findings' gates :
  (∀ f, f ∈ findings ↔ f ∈ findings') → blocked_by findings gates ↔ blocked_by findings' gates.
Proof. intros Hf. unfold blocked_by. by setoid_rewrite Hf. Qed.

(** A gate that passed its validation and has a state without codes. *)
Lemma gate_validate_passed g :
  DeploymentGateSummaryV1_validate g = Ok tt →
  (dg_state g = GatePassed → g = gate_passed) ∧ (dg_state g = GateNotApplicable → g = gate_not_applicable).
Proof.
  unfold DeploymentGateSummaryV1_validate. intros Hv. inv_ok. boolify.
  destruct g as [st codes]; cbn in *. split; intros ->; boolify; by subst.
Qed.

Lemma gates_validate_all gates :
  DeploymentGateSummariesV1_validate gates = Ok tt →
  Forall (λ g, DeploymentGateSummaryV1_validate g = Ok tt) (gates_all gates).
Proof. apply try_for_each_Ok. Qed.

Lemma staging_positive_gates gates :
  DeploymentGateSummariesV1_validate gates = Ok tt → is_staging_positive gates = true → gates = staging_passed.
Proof.
  intros Hv Hp. apply gates_validate_all in Hv. unfold gates_all in Hv.
  rewrite !Forall_cons in Hv. destruct Hv as (H1 & H2 & H3 & H4 & H5 & H6 & H7 & _).
  unfold is_staging_positive in Hp. boolify. destruct gates; cbn in *.
  unfold staging_passed. f_equal; by apply gate_validate_passed.
Qed.

Lemma inspect_positive_gates gates :
  DeploymentGateSummariesV1_validate gates = Ok tt → is_inspect_positive gates = true →
  Forall (λ g, g = gate_passed) (gates_all gates).
Proof.
  intros Hv Hp. apply gates_validate_all in Hv. unfold is_inspect_positive in Hp.
  rewrite Forall_forall in Hv |- *. intros g Hg. apply gate_validate_passed; [auto|].
  rewrite forallb_forall in Hp. apply list_elem_of_In, Hp in Hg. by boolify.
Qed.

Lemma layout_decision_Ok interface plan has_blocker positive ready d :
  layout_decision interface plan has_blocker positive ready = Ok d →
  interface = None ∧ plan = None ∧
  if has_blocker then d = DeploymentDecisionBlocked else positive = true ∧ d = ready.
Proof.
  unfold layout_decision. destruct interface, plan; try done. cbn.
  destruct has_blocker, positive; by intros [= <-].
Qed.

Lemma inspect_decision_Ok artifact interface gates plan has_blocker d :
  inspect_decision artifact interface gates plan has_blocker = Ok d →
  if has_blocker then d = DeploymentDecisionBlocked
  else d = PhysicalCanaryReady ∧ is_inspect_positive gates = true ∧
    ∃ i p, interface = Some i ∧ plan = Some p ∧ cp_interface p = i ∧ CanaryPlanV1_validate p = Ok tt ∧
      cp_artifact_commit_sha p = da_commit_sha artifact.
Proof.
  unfold inspect_decision. destruct has_blocker.
  - destruct (is_some plan); by intros [= <-].
  - intros Hd. inv_ok. boolify. destruct a0, a2. split_and!; eauto 10.
Qed.

(** A derived report in its parts. *)
Lemma derive_Ok command artifact interface gates findings plan at_ms r :
  DeploymentGateReportV1_derive command artifact interface gates findings plan at_ms = Ok r →
  let normal := dedup (sort_by deployment_finding_cmp findings) in
  r = mkDeploymentGateReportV1 DEPLOYMENT_SCHEMA_VERSION (dp_decision r) artifact interface gates normal plan
        at_ms false ∧
  DeploymentGateReportV1_derive command artifact interface gates normal plan at_ms = Ok r ∧
  ((blocked_by findings gates ∧ dp_decision r = DeploymentDecisionBlocked) ∨
   (¬ blocked_by findings gates ∧ ready_for command r)).
Proof.
  intros Hd normal. unfold DeploymentGateReportV1_derive in *. cbv zeta in Hd. fold normal in Hd.
  apply bind_Ok in Hd as ([] & Ha & Hd). apply bind_Ok in Hd as ([] & Hg & Hd).
  destruct (at_ms =? 0) eqn:Hat; [done|]. apply bind_Ok in Hd as ([] & Hf & Hd).
  apply bind_Ok in Hd as (decision & Hdec & [= <-]). split; [done|].
  assert (∀ f, f ∈ normal ↔ f ∈ findings) as Hin by (intros; apply elem_of_sort_dedup).
  assert (dedup (sort_by deployment_finding_cmp normal) = normal) as Hnormal.
  { apply sort_dedup_id; [apply deployment_finding_cmp_antisym|].
    apply sort_dedup_strict; [apply deployment_finding_cmp_antisym|apply deployment_finding_cmp_Eq]. }
  split.
  { rewrite Ha, Hg. cbn [mbind result_bind].
    replace (try_for_each DeploymentFindingV1_validate normal) with (Ok tt : result DeploymentContractError unit).
    2: { symmetry. apply try_for_each_Ok. apply try_for_each_Ok in Hf. rewrite Forall_forall in *.
         intros f ?%Hin. auto. }
    cbn [mbind result_bind]. cbv zeta. rewrite Hnormal, Hdec. done. }
  rewrite <-(blocked_by_same _ _ gates Hin), <-has_blocker_iff.
  destruct (existsb _ normal || prevents_positive_decision gates).
  - left. split; [done|]. destruct command; cbn [dp_decision].
    + by apply layout_decision_Ok in Hdec as (_ & _ & ?).
    + by apply layout_decision_Ok in Hdec as (_ & _ & ?).
    + by apply inspect_decision_Ok in Hdec.
  - right. split; [done|]. destruct command.
    + apply layout_decision_Ok in Hdec as (-> & -> & Hp & ->). split_and!; try done.
      by apply staging_positive_gates.
    + apply layout_decision_Ok in Hdec as (-> & -> & Hp & ->). split_and!; try done.
      by apply staging_positive_gates.
    + apply inspect_decision_Ok in Hdec as (-> & Hp & i & p & -> & -> & Hi & Hv & Hc). split; [done|].
      split; [by apply inspect_positive_gates|]. exists i, p. split_and!; try done.
      all: unfold CanaryPlanV1_validate in Hv; inv_ok; boolify; by subst.
Qed.

(** A gate report is positive only when nothing blocks it: deriving a report
    from gates and findings orders the findings strictly by severity and code
    without adding or losing one, performs no mutation, and decides "blocked"
    exactly when a finding is a blocker or a gate is blocked or unavailable;
    otherwise every gate has passed, and a report on an inspected interface
    carries a valid plan for exactly that physical interface and artifact which is
    not executable.  Validation accepts exactly the reports that derivation
    returns. *)
Lemma gate_report_correct (command : DeploymentCommandV1) (r : DeploymentGateReportV1) :
  (DeploymentGateReportV1_validate r command = Ok tt ↔
   ∃ findings, DeploymentGateReportV1_derive command (dp_artifact r) (dp_interface r) (dp_gates r) findings
     (dp_canary_plan r) (dp_captured_at_unix_ms r) = Ok r) ∧
  (∀ findings, DeploymentGateReportV1_derive command (dp_artifact r) (dp_interface r) (dp_gates r) findings
     (dp_canary_plan r) (dp_captured_at_unix_ms r) = Ok r →
   (∀ f, f ∈ dp_findings r ↔ f ∈ findings) ∧ Sorted (cmp_lt deployment_finding_cmp) (dp_findings r) ∧
   dp_mutations_performed r = false ∧
   ((blocked_by findings (dp_gates r) ∧ dp_decision r = DeploymentDecisionBlocked) ∨
    (¬ blocked_by findings (dp_gates r) ∧ ready_for command r))).
Proof.
  split.
  - unfold DeploymentGateReportV1_validate. split.
    + intros Hv. inv_ok. boolify. subst. eauto.
    + intros [findings Hd]. apply derive_Ok in Hd as (Hr & Hd & _).
      assert (dp_findings r = dedup (sort_by deployment_finding_cmp findings)) as Hn by by rewrite Hr.
      rewrite Hn, Hd. rewrite Hr. cbn. by rewrite bool_decide_eq_true_2.
  - intros findings Hd. apply derive_Ok in Hd as (Hr & _ & Hdec).
    assert (dp_findings r = dedup (sort_by deployment_finding_cmp findings)) as Hn by by rewrite Hr.
    rewrite Hn. split; [intros; apply elem_of_sort_dedup|].
    split; [apply sort_dedup_strict; [apply deployment_finding_cmp_antisym|apply deployment_finding_cmp_Eq]|].
    split; [by rewrite Hr|done].
Qed.

(** ** Performance evidence *)

(** What a trial must measure, and the plan of the trials. *)
Definition trial_measured (t : PerformanceTrialV1) : Prop :=
  0 < pt_duration_ns t ∧
  pt_packets_per_second t = 3 * 65536 * 1000000000 / pt_duration_ns t ∧
  pt_bytes_per_second t = (64 + 512 + 1514) * 65536 * 1000000000 / pt_duration_ns t ∧
  pt_packets_per_second t ≠ 0 ∧ pt_bytes_per_second t ≠ 0.

Definition planned (p : nat * PerformanceTrialV1) : Prop :=
  PERFORMANCE_TRIAL_MODE_ORDER !! p.1 = Some (pt_mode p.2) ∧
  pt_trial_number p.2 = Z.of_nat (p.1 / 3 + 1) ∧ trial_measured p.2.

Definition trial_u64 (t : PerformanceTrialV1) : Prop :=
  is_u64 (pt_duration_ns t) ∧ is_u64 (pt_daemon_cpu_time_ns t) ∧
  is_u64 (pt_peak_resident_memory_bytes t) ∧ is_u64 (pt_packet_drop_delta t) ∧
  is_u64 (pt_packet_error_delta t).

Definition mode_rates (rate : PerformanceTrialV1 → Z) (mode : PerformanceModeV1)
    (trials : list PerformanceTrialV1) : list Z :=
  rate <$> filter (λ t, pt_mode t = mode) trials.

Definition is_median (m : Z) (rates : list Z) : Prop :=
  length rates = 5%nat ∧ m ∈ rates ∧ (count_lt m rates ≤ 2 < count_le m rates)%nat.

Definition median_of (medians : PerformanceMediansV1) (mode : PerformanceModeV1) : PerformanceRateV1 :=
  match mode with
  | PerfBaseline => pm_baseline medians
  | PerfPassThrough => pm_pass_through medians
  | PerfObserve => pm_observe medians
  end.

Definition true_medians (medians : PerformanceMediansV1) (trials : list PerformanceTrialV1) : Prop :=
  ∀ mode,
    is_median (pr_packets_per_second (median_of medians mode)) (mode_rates pt_packets_per_second mode trials) ∧
    is_median (pr_bytes_per_second (median_of medians mode)) (mode_rates pt_bytes_per_second mode trials).

(** The rates of a mode keep at least so many thousandths of the baseline's. *)
Definition retains (permille : Z) (mode : PerformanceModeV1) (medians : PerformanceMediansV1) : Prop :=
  permille * pr_packets_per_second (pm_baseline medians)
    ≤ 1000 * pr_packets_per_second (median_of medians mode) ∧
  permille * pr_bytes_per_second (pm_baseline medians)
    ≤ 1000 * pr_bytes_per_second (median_of medians mode).

Definition observe_trial (number : Z) (t : PerformanceTrialV1) : Prop :=
  pt_trial_number t = number ∧ pt_mode t = PerfObserve.

Record within_limits (e : PerformanceEvidenceV1) (medians : PerformanceMediansV1) : Prop := {
  wl_pass_through : retains 950 PerfPassThrough medians;
  wl_observe : retains 900 PerfObserve medians;
  wl_cpu : 1000 * sum_of pt_daemon_cpu_time_ns (pe_trials e) < 1001 * sum_of pt_duration_ns (pe_trials e);
  wl_trials : Forall (λ t, pt_packet_drop_delta t = 0 ∧ pt_packet_error_delta t = 0 ∧
                 pt_peak_resident_memory_bytes t ≤ 268435456) (pe_trials e);
  wl_growth : ∀ t1 t5, t1 ∈ pe_trials e → t5 ∈ pe_trials e → observe_trial 1 t1 → observe_trial 5 t5 →
    pt_peak_resident_memory_bytes t5 ≤ pt_peak_resident_memory_bytes t1 + 16777216;
  wl_processes : pe_process_count_before e = pe_process_count_after e;
  wl_maps : pe_map_count_before e = pe_map_count_after e;
  wl_programs : pe_program_count_before e = pe_program_count_after e;
  wl_pins : pe_pin_count_before e = pe_pin_count_after e;
  wl_namespaces : pe_namespace_count_before e = pe_namespace_count_after e;
  wl_restored : pe_forwarding_intact e = true ∧ pe_owned_cleanup_complete e = true ∧
    pe_network_identity_restored e = true ∧ pe_ebpf_identity_restored e = true;
}.

Lemma trial_validate_measured t :
  is_u64 (pt_duration_ns t) → PerformanceTrialV1_validate t = Ok tt → trial_measured t.
Proof.
  unfold PerformanceTrialV1_validate, or_invalid. intros Hd Hv. inv_ok. boolify.
  destruct t as [n m sizes per d pps bps cpu rss dr er]; cbn in *. unfold trial_measured; cbn.
  subst sizes. cbn in *. inv_ok. assert (per = 65536) as -> by (unfold PERFORMANCE_FRAMES_PER_SIZE in *; lia).
  match goal with Hs : _ ≫= _ = Some ?a |- _ =>
    assert (a = 2090) as -> by (vm_compute in Hs; congruence) end.
  split_and!; try ulia; match goal with Hr : (?r =? _ / d) = true |- ?r = _ => by apply Z.eqb_eq in Hr end.
Qed.

(** The loop over the trials. *)
Lemma total_trial_Ok acc i t acc' :
  is_u64 (pt_duration_ns t) → total_trial acc (i, t) = Ok acc' →
  planned (i, t) ∧
  acc' = mkTrialTotals (tt_cpu_time_ns acc + pt_daemon_cpu_time_ns t) (tt_duration_ns acc + pt_duration_ns t)
           (tt_drop_delta acc + pt_packet_drop_delta t) (tt_error_delta acc + pt_packet_error_delta t)
           (Z.max (tt_peak_resident_memory_bytes acc) (pt_peak_resident_memory_bytes t)).
Proof.
  intros Hd Ht. unfold total_trial, or_invalid in Ht. inv_ok. boolify. split; [|done].
  split_and!; [done|cbn [fst snd]; lia|]. destruct a. by apply trial_validate_measured.
Qed.

Definition totals_of_trials (trials : list PerformanceTrialV1) : TrialTotals :=
  mkTrialTotals (sum_of pt_daemon_cpu_time_ns trials) (sum_of pt_duration_ns trials)
    (sum_of pt_packet_drop_delta trials) (sum_of pt_packet_error_delta trials)
    (foldr Z.max 0 (pt_peak_resident_memory_bytes <$> trials)).

Lemma total_trials_Ok (l : list (nat * PerformanceTrialV1)) acc :
  Forall (λ t, is_u64 (pt_duration_ns t)) l.*2 →
  try_fold total_trial TrialTotals_new l = Ok acc → Forall planned l ∧ acc = totals_of_trials l.*2.
Proof.
  intros Hu Hfold.
  refine (try_fold_ind total_trial (λ don acc, Forall planned don ∧ acc = totals_of_trials don.*2) _ _ _ _ _ Hfold);
    [done|].
  intros don [i t] b b' Hpre (Hall & ->) Ht.
  assert (is_u64 (pt_duration_ns t)) as Hd.
  { rewrite Forall_forall in Hu. apply Hu, (list_elem_of_fmap_2 snd _ (i, t)).
    eapply elem_of_prefix; [|done]. apply elem_of_app. right. left. }
  apply total_trial_Ok in Ht as [Hp ->]; [|done]. split; [by apply Forall_app_2; [|constructor]|].
  unfold totals_of_trials. rewrite !fmap_app. cbn [fmap list_fmap snd].
  rewrite !sum_of_snoc, foldr_max_snoc. done.
Qed.

(** ** Medians *)
Lemma median_rates (self : PerformanceEvidenceV1) mode rates :
  try_fold (median_step mode) ([], []) (pe_trials self) = Ok rates →
  rates = (mode_rates pt_packets_per_second mode (pe_trials self),
           mode_rates pt_bytes_per_second mode (pe_trials self)).
Proof.
  apply (try_fold_ind (median_step mode) (λ don rates, rates = (mode_rates pt_packets_per_second mode don,
    mode_rates pt_bytes_per_second mode don))); [done|].
  intros don t b b' _ -> Ht. unfold median_step in Ht. unfold mode_rates.
  rewrite !filter_app, !filter_cons, filter_nil, !fmap_app.
  case_bool_decide as Hm; [|rewrite !decide_False by done; injection Ht as <-; by rewrite !app_nil_r].
  rewrite !decide_True by done. inv_ok. done.
Qed.

Lemma median_is_median rates :
  length rates = 5%nat → is_median (merge_sort Z.le rates !!! (PERFORMANCE_TRIALS_PER_MODE / 2)%nat) rates.
Proof.
  intros Hlen. split; [done|]. apply merge_sort_rank.
  apply list_lookup_lookup_total_lt. rewrite merge_sort_Permutation, Hlen. cbn. lia.
Qed.

Lemma mode_rates_length rate rate' mode trials :
  length (mode_rates rate mode trials) = length (mode_rates rate' mode trials).
Proof. unfold mode_rates. by rewrite !length_fmap. Qed.

Lemma median_for_Ok self mode rate :
  median_for self mode = Ok rate →
  is_median (pr_packets_per_second rate) (mode_rates pt_packets_per_second mode (pe_trials self)) ∧
  is_median (pr_bytes_per_second rate) (mode_rates pt_bytes_per_second mode (pe_trials self)).
Proof.
  unfold median_for. intros Hm. inv_ok. apply median_rates in Ha as ->. cbn [fst snd] in *. boolify.
  apply Nat.eqb_eq in Hguard. cbn [pr_packets_per_second pr_bytes_per_second].
  split; apply median_is_median; [done|]. by rewrite (mode_rates_length _ pt_packets_per_second).
Qed.

(** ** The verdict *)
Lemma floor_at_least a b k : 0 < b → k ≤ a / b ↔ k * b ≤ a.
Proof.
  intros Hb. split; intros Hk.
  - pose proof (Z.mul_div_le a b Hb). nia.
  - apply Z.div_le_lower_bound; lia.
Qed.

Lemma ratio_retains measured baseline ratio k :
  conservative_ratio_permille measured baseline = Ok ratio →
  0 ≤ pr_packets_per_second baseline → 0 ≤ pr_bytes_per_second baseline →
  k ≤ ratio ↔ k * pr_packets_per_second baseline ≤ 1000 * pr_packets_per_second measured ∧
              k * pr_bytes_per_second baseline ≤ 1000 * pr_bytes_per_second measured.
Proof.
  unfold conservative_ratio_permille, or_invalid. intros Hr Hp Hb. inv_ok. boolify.
  rewrite <-!floor_at_least by lia. rewrite !(Z.mul_comm 1000). lia.
Qed.

Lemma observe_rss_Ok self n rss :
  observe_rss_for_trial self n = Ok rss →
  ∃ t, pt_peak_resident_memory_bytes t = rss ∧ ∀ t', t' ∈ pe_trials self ∧ observe_trial n t' ↔ t' = t.
Proof.
  unfold observe_rss_for_trial. intros Ho.
  destruct (List.filter _ (pe_trials self)) as [|t [|]] eqn:Hf; try done. injection Ho as Ho. exists t.
  split; [done|]. intros t'. transitivity (t' ∈ [t]); [|by rewrite list_elem_of_singleton].
  rewrite <-Hf, !list_elem_of_In, filter_In, andb_true_iff, bool_decide_eq_true. unfold observe_trial.
  rewrite Z.eqb_eq. done.
Qed.

Lemma zip_seq_snd {A} (l : list A) k : (zip (seq k (length l)) l).*2 = l.
Proof. revert k. induction l as [|x l IH]; intros k; [done|]. cbn. by rewrite IH. Qed.

Lemma sum_of_positive {A} (f : A → Z) l : l ≠ [] → Forall (λ x, 0 < f x) l → 0 < sum_of f l.
Proof.
  intros Hne Hf. destruct l as [|x l]; [done|]. apply Forall_cons in Hf as [Hx Hf]. rewrite sum_of_cons.
  enough (0 ≤ sum_of f l) by lia. apply sum_of_nonneg. intros y Hy. rewrite Forall_forall in Hf.
  specialize (Hf y Hy). lia.
Qed.

Lemma sum_of_zero {A} (f : A → Z) l : Forall (λ x, 0 ≤ f x) l → sum_of f l = 0 ↔ Forall (λ x, f x = 0) l.
Proof.
  induction 1 as [|x l Hx Hf IH]; [done|]. rewrite sum_of_cons, Forall_cons, <-IH.
  enough (0 ≤ sum_of f l) by lia. apply sum_of_nonneg. by rewrite Forall_forall in Hf.
Qed.

(** Everything the assessment of a structure establishes. *)
Record assessed (e : PerformanceEvidenceV1) (captured_at_unix_ms : Z) (a : PerformanceAssessmentV1) : Prop := {
  ae_window : pe_issued_at_unix_ms e ≤ captured_at_unix_ms ≤ pe_expires_at_unix_ms e;
  ae_lifetime : pe_expires_at_unix_ms e - pe_issued_at_unix_ms e ≤ 86400000;
  ae_count : length (pe_trials e) = 15%nat;
  ae_planned : Forall planned (zip (seq 0 (length (pe_trials e))) (pe_trials e));
  ae_medians : true_medians (pa_medians a) (pe_trials e);
  ae_unavailable : pa_result a = PerfUnavailable ↔
    ¬ (pe_warm_up_complete e = true ∧ pe_measurement_complete e = true ∧ pe_measurement_noisy e = false ∧
       pe_host_identity_stable e = true);
  ae_passed : pa_result a = PerfPassed ↔ pa_result a ≠ PerfUnavailable ∧ within_limits e (pa_medians a);
}.

Lemma evidence_available e :
  evidence_unavailable e = true ↔
  ¬ (pe_warm_up_complete e = true ∧ pe_measurement_complete e = true ∧ pe_measurement_noisy e = false ∧
     pe_host_identity_stable e = true).
Proof.
  unfold evidence_unavailable. destruct (pe_warm_up_complete e), (pe_measurement_complete e),
    (pe_measurement_noisy e), (pe_host_identity_stable e); cbn; naive_solver.
Qed.

Lemma trials_positive (trials : list PerformanceTrialV1) k :
  Forall planned (zip (seq k (length trials)) trials) →
  Forall (λ t, 0 < pt_duration_ns t ∧ 0 ≤ pt_packets_per_second t ∧ 0 ≤ pt_bytes_per_second t) trials.
Proof.
  intros Hp. enough (Forall (λ t, 0 < pt_duration_ns t ∧ 0 ≤ pt_packets_per_second t ∧ 0 ≤ pt_bytes_per_second t)
    (zip (seq k (length trials)) trials).*2) as H by by rewrite zip_seq_snd in H.
  apply Forall_fmap. eapply Forall_impl; [exact Hp|].
  intros [i t] (_ & _ & Hd & Hpps & Hbps & _). cbn in *. rewrite Hpps, Hbps.
  split_and!; [done|apply Z.div_pos; lia..].
Qed.

Lemma median_nonneg m rate mode trials :
  Forall (λ t, 0 ≤ rate t) trials → is_median m (mode_rates rate mode trials) → 0 ≤ m.
Proof.
  intros Hf (_ & Hm & _). apply list_elem_of_fmap in Hm as (t & -> & Ht).
  apply list_elem_of_filter in Ht as [_ Ht]. rewrite Forall_forall in Hf. auto.
Qed.

(** No regression, in terms of the trials themselves. *)
Lemma no_regression e a (totals : TrialTotals) rss1 rss5 :
  Forall trial_u64 (pe_trials e) → pe_trials e ≠ [] →
  Forall (λ t, 0 < pt_duration_ns t) (pe_trials e) →
  totals = totals_of_trials (pe_trials e) →
  (∀ k, k ≤ pe_pass_through_baseline_ratio_permille e ↔ retains k PerfPassThrough (pa_medians a)) →
  (∀ k, k ≤ pe_observe_baseline_ratio_permille e ↔ retains k PerfObserve (pa_medians a)) →
  pe_daemon_cpu_permille e = tt_cpu_time_ns totals * 1000 / tt_duration_ns totals →
  pe_peak_resident_memory_bytes e = tt_peak_resident_memory_bytes totals →
  pe_packet_drop_delta e = tt_drop_delta totals → pe_packet_error_delta e = tt_error_delta totals →
  observe_rss_for_trial e 1 = Ok rss1 → observe_rss_for_trial e 5 = Ok rss5 →
  pe_rss_growth_bytes e = saturating_sub rss5 rss1 →
  evidence_regression e = false ↔ within_limits e (pa_medians a).
Proof.
  intros Hu Hne Hdur -> Hpass Hobs Hcpu Hpeak Hdrop Herr H1 H5 Hgrowth.
  assert (0 < sum_of pt_duration_ns (pe_trials e)) as Hsum by by apply sum_of_positive.
  apply observe_rss_Ok in H1 as (t1 & Hr1 & Ht1). apply observe_rss_Ok in H5 as (t5 & Hr5 & Ht5).
  unfold evidence_regression. rewrite !orb_false_iff, !negb_false_iff, !Z.eqb_eq, !Z.ltb_ge.
  rewrite Hcpu, Hpeak, Hdrop, Herr, Hgrowth. cbn [tt_cpu_time_ns tt_duration_ns tt_drop_delta tt_error_delta
    tt_peak_resident_memory_bytes totals_of_trials].
  rewrite (sum_of_zero pt_packet_drop_delta), (sum_of_zero pt_packet_error_delta).
  2: { eapply Forall_impl; [exact Hu|]. intros t (_ & _ & _ & _ & ?). ulia. }
  2: { eapply Forall_impl; [exact Hu|]. intros t (_ & _ & _ & ? & _). ulia. }
  rewrite foldr_max_le by done. rewrite Forall_fmap.
  unfold PERFORMANCE_PASS_THROUGH_MIN_PERMILLE, PERFORMANCE_OBSERVE_MIN_PERMILLE,
    PERFORMANCE_MAX_DAEMON_CPU_PERMILLE. rewrite Hpass, Hobs.
  assert (sum_of pt_daemon_cpu_time_ns (pe_trials e) * 1000 / sum_of pt_duration_ns (pe_trials e) ≤ 1000 ↔
    1000 * sum_of pt_daemon_cpu_time_ns (pe_trials e) < 1001 * sum_of pt_duration_ns (pe_trials e)) as ->.
  { pose proof (floor_at_least (sum_of pt_daemon_cpu_time_ns (pe_trials e) * 1000) _ 1001 Hsum). lia. }
  split.
  - intros H. destruct H as (((((((((((((((Hp & Ho) & Hc) & Hm) & Hg) & Hd) & He) & Hpr) & Hma) & Hpg) & Hpi) & Hns)
      & Hfw) & Hoc) & Hni) & Heb).
    split; try done.
    + rewrite Forall_forall in *. intros t Ht. specialize (Hm t Ht). cbn in Hm. auto.
    + intros t t' Hin Hin' Hn Hn'. rewrite (proj1 (Ht1 t)), (proj1 (Ht5 t')), Hr1, Hr5 by done.
      unfold PERFORMANCE_MAX_RSS_GROWTH_BYTES, saturating_sub in Hg. lia.
  - intros [Hp Ho Hc Ht Hg Hpr Hma Hpg Hpi Hns (Hfw & Hoc & Hni & Heb)].
    assert (rss5 ≤ rss1 + 16777216) as Hle.
    { rewrite <-Hr1, <-Hr5. destruct (proj2 (Ht1 t1) eq_refl), (proj2 (Ht5 t5) eq_refl). by apply Hg. }
    split_and!; try done.
    + rewrite Forall_forall in *. intros t Hin. cbn. by apply Ht.
    + unfold PERFORMANCE_MAX_RSS_GROWTH_BYTES, saturating_sub. lia.
    + eapply Forall_impl; [exact Ht|]. by intros t (? & _).
    + eapply Forall_impl; [exact Ht|]. by intros t (_ & ? & _).
Qed.

Lemma assess_structure_Ok e at_ms a :
  Forall trial_u64 (pe_trials e) → assess_structure e at_ms = Ok a → assessed e at_ms a.
Proof.
  intros Hu Ha. unfold assess_structure, or_invalid in Ha. cbv zeta in Ha.
  apply bind_Ok in Ha as (lifetime & Hl & Ha). apply ok_or_Ok, checked_sub_Some in Hl as [-> Hl].
  destruct (evidence_header_invalid _ _ _) eqn:Hhead; [done|]. unfold evidence_header_invalid in Hhead. boolify.
  match goal with Hn : (length _ =? _)%nat = true |- _ => apply Nat.eqb_eq in Hn as Hlen end.
  apply bind_Ok in Ha as (totals & Ht & Ha).
  apply total_trials_Ok in Ht as [Hplan ->].
  2: { rewrite zip_seq_snd. eapply Forall_impl; [exact Hu|]. by intros t [? _]. }
  rewrite zip_seq_snd in Ha.
  apply bind_Ok in Ha as (b & Hb & Ha). apply bind_Ok in Ha as (p & Hp & Ha).
  apply bind_Ok in Ha as (o & Ho & Ha). apply bind_Ok in Ha as (pr & Hpr & Ha).
  apply bind_Ok in Ha as (obr & Hobr & Ha). apply bind_Ok in Ha as (cpu & Hcpu & Ha).
  apply bind_Ok in Ha as (permille & Hperm & Ha). apply bind_Ok in Ha as (rss1 & Hr1 & Ha).
  apply bind_Ok in Ha as (rss5 & Hr5 & Ha).
  apply ok_or_Ok, checked_mul_Some in Hcpu as [-> _]. apply ok_or_Ok, try_from_wide_Some in Hperm as [-> _].
  destruct (claims_differ _ _ _ _ _ _ _ _ _) eqn:Hc; [done|]. unfold claims_differ in Hc. boolify.
  destruct (negb (bool_decide (pe_result e = _)) || _) eqn:Hres; [done|]. injection Ha as <-. boolify.
  pose proof (trials_positive _ _ Hplan) as Hpos. rewrite Hlen in Hplan.
  apply median_for_Ok in Hb as Hmb. apply median_for_Ok in Hp as Hmp. apply median_for_Ok in Ho as Hmo.
  assert (0 ≤ pr_packets_per_second b ∧ 0 ≤ pr_bytes_per_second b) as [Hb1 Hb2].
  { split; [apply (median_nonneg _ pt_packets_per_second PerfBaseline (pe_trials e))
           |apply (median_nonneg _ pt_bytes_per_second PerfBaseline (pe_trials e))]; try apply Hmb;
      (eapply Forall_impl; [exact Hpos|]; naive_solver). }
  match goal with |- assessed e at_ms ?a' => set (a := a') end.
  assert (evidence_regression e = false ↔ within_limits e (pa_medians a)) as Hreg.
  { apply (no_regression e a (totals_of_trials (pe_trials e)) rss1 rss5);
      try match goal with Hc : (?x =? _) = true |- ?x = _ => by apply Z.eqb_eq in Hc end; try done.
    - intros Hnil. by rewrite Hnil in Hlen.
    - eapply Forall_impl; [exact Hpos|]. naive_solver.
    - intros k. unfold retains. cbn. rewrite <-(ratio_retains p b pr k) by done.
      match goal with Hc : (pe_pass_through_baseline_ratio_permille e =? _) = true |- _ => by apply Z.eqb_eq in Hc as -> end.
    - intros k. unfold retains. cbn. rewrite <-(ratio_retains o b obr k) by done.
      match goal with Hc : (pe_observe_baseline_ratio_permille e =? _) = true |- _ => by apply Z.eqb_eq in Hc as -> end. }
  split.
  - split; by apply Z.leb_le.
  - by apply Z.ltb_ge.
  - done.
  - by rewrite Hlen.
  - intros []; cbn; auto.
  - rewrite <-evidence_available. cbn. destruct (evidence_unavailable e), (evidence_regression e); done.
  - rewrite <-Hreg. cbn. destruct (evidence_unavailable e), (evidence_regression e); naive_solver.
Qed.

(** C22: the verdict on performance evidence follows from its trials: whatever
    evidence is accepted is for this artifact and host and inside its window of at
    most a day, has the fifteen trials in their fixed order, each with the rates
    that its duration implies, and its medians are the true medians of the five
    trials of each mode.  It is unavailable exactly when the measurement was
    incomplete or disturbed; otherwise it has passed exactly when pass-through
    keeps 95% and observation 90% of the baseline's packet and byte rates, the
    daemon used at most one processor, no trial dropped a packet, failed or used
    more than 256 MiB, memory grew by at most 16 MiB, and everything was restored. *)
Theorem performance_verdict_sound (e : PerformanceEvidenceV1) (at_ms : Z)
    (artifact : DeploymentArtifactIdentityV1) (host : DeploymentHostCompatibilityV1)
    (a : PerformanceAssessmentV1)
    (Htyped : Forall trial_u64 (pe_trials e)) (Haccepted : assess_for e at_ms artifact host = Ok a) :
  (pe_artifact_commit_sha e = da_commit_sha artifact ∧ pe_package_version e = da_package_version artifact ∧
   pe_architecture e = dh_architecture host ∧ pe_kernel_release e = dh_kernel_release host ∧
   pe_logical_cpu_count e = dh_logical_cpu_count host) ∧
  assessed e at_ms a.
Proof.
  unfold assess_for in Haccepted. inv_ok. boolify. split; [split_and!; try done; lia|].
  by apply assess_structure_Ok.
Qed.

(** ** A release that passes *)
Module DeploymentExample.
Fixpoint hexes (n : nat) : string := match n with O => "" | S n => String (Ascii.ascii_of_nat 97) (hexes n) end.

Definition artifact : DeploymentArtifactIdentityV1 := mkDeploymentArtifactIdentityV1 (hexes 40) "0.1.0".
Definition host : DeploymentHostCompatibilityV1 := mkDeploymentHostCompatibilityV1 "x86_64" "6.8.0" 8.

Definition duration (mode : PerformanceModeV1) : Z :=
  match mode with PerfBaseline => 1000000000 | PerfPassThrough => 1020000000 | PerfObserve => 1080000000 end.
Definition rates (mode : PerformanceModeV1) : PerformanceRateV1 :=
  mkPerformanceRateV1 (196608 * 1000000000 / duration mode) (136970240 * 1000000000 / duration mode).

Definition trial (p : nat * PerformanceModeV1) : PerformanceTrialV1 :=
  mkPerformanceTrialV1 (Z.of_nat (p.1 / 3 + 1)) p.2 PERFORMANCE_FIXED_FRAME_SIZES PERFORMANCE_FRAMES_PER_SIZE
    (duration p.2) (pr_packets_per_second (rates p.2)) (pr_bytes_per_second (rates p.2))
    (if decide (p.2 = PerfObserve) then 108000000 else 0) (20000000 + 1000 * Z.of_nat p.1) 0 0.
Definition trials : list PerformanceTrialV1 :=
  trial <$> zip (seq 0 PERFORMANCE_TOTAL_TRIALS) PERFORMANCE_TRIAL_MODE_ORDER.

Definition evidence : PerformanceEvidenceV1 :=
  mkPerformanceEvidenceV1 1 (hexes 32) (hexes 40) "0.1.0" "x86_64" "6.8.0" 8 XdpNative 1000 2000
    true true false true trials
    (mkPerformanceMediansV1 (rates PerfBaseline) (rates PerfPassThrough) (rates PerfObserve))
    980 925 540000000 34 20014000 12000 0 0 40 40 9 9 4 4 3 3 2 2 true true true true PerfPassed [].

Definition authorized : DeploymentAuthorizedInterfaceV1 :=
  mkDeploymentAuthorizedInterfaceV1 "eth0" 2 Physical LinkUp LinkUp None (hexes 64) "veth" (hexes 64)
    (hexes 64) HookEmpty HookEmpty false [] [].
Definition authorization : DeploymentAuthorizationV1 :=
  mkDeploymentAuthorizationV1 1 (hexes 32) (hexes 40) ReadOnlyCanaryCandidate authorized 1000 2000.
Definition summary : DeploymentInterfaceSummaryV1 :=
  mkDeploymentInterfaceSummaryV1 "eth0" 2 Physical LinkUp LinkUp.

Definition warning (code : string) : DeploymentFindingV1 := mkDeploymentFindingV1 code DeploymentWarning.
Definition findings : list DeploymentFindingV1 :=
  [warning DG_REAL_JOURNALD_UNVERIFIED; warning DG_NATIVE_XDP_UNVERIFIED; warning DG_REAL_JOURNALD_UNVERIFIED].

Lemma trials_typed : Forall trial_u64 trials.
Proof.
  apply Forall_fmap, Forall_forall. intros [i mode] Hin. apply elem_of_zip_l, elem_of_seq in Hin.
  unfold PERFORMANCE_TOTAL_TRIALS, PERFORMANCE_TRIALS_PER_MODE in Hin.
  destruct mode; unfold trial_u64; cbn -[Z.mul Z.add Z.of_nat]; case_decide; try done; ulia.
Qed.

(** The report on the interface, with the plan made from its authorization. *)
Definition report : result DeploymentContractError DeploymentGateReportV1 :=
  plan ← CanaryPlanV1_new authorization summary;
  DeploymentGateReportV1_derive CommandInspect artifact (Some summary) inspect_passed findings (Some plan) 1500.
End DeploymentExample.

Lemma performance_verdict_sound_witness :
  ∃ a, assess_for DeploymentExample.evidence 1500 DeploymentExample.artifact DeploymentExample.host = Ok a ∧
    pa_result a = PerfPassed ∧ within_limits DeploymentExample.evidence (pa_medians a).
Proof.
  destruct (assess_for DeploymentExample.evidence 1500 DeploymentExample.artifact DeploymentExample.host)
    as [a|] eqn:Ha; [|vm_compute in Ha; discriminate Ha].
  assert (pa_result a = PerfPassed) as Hp by (vm_compute in Ha; injection Ha as <-; reflexivity).
  exists a. split; [done|]. split; [done|].
  destruct (performance_verdict_sound DeploymentExample.evidence 1500 DeploymentExample.artifact
    DeploymentExample.host a) as [_ H]; [|done|by apply (ae_passed _ _ _ H)].
  exact DeploymentExample.trials_typed.
Defined.

Lemma gate_report_correct_witness :
  ∃ r, DeploymentExample.report = Ok r ∧ DeploymentGateReportV1_validate r CommandInspect = Ok tt ∧
    length (dp_findings r) = 2%nat ∧ ready_for CommandInspect r.
Proof.
  destruct DeploymentExample.report as [r|] eqn:Hr; [|vm_compute in Hr; discriminate Hr].
  exists r. split; [done|].
  assert (DeploymentGateReportV1_derive CommandInspect (dp_artifact r) (dp_interface r) (dp_gates r)
    DeploymentExample.findings (dp_canary_plan r) (dp_captured_at_unix_ms r) = Ok r) as Hd
    by (vm_compute in Hr; injection Hr as <-; vm_compute; reflexivity).
  assert (dp_decision r = PhysicalCanaryReady ∧ length (dp_findings r) = 2%nat) as [Hp Hl]
    by (vm_compute in Hr; injection Hr as <-; split; reflexivity).
  destruct (gate_report_correct CommandInspect r) as [Hv Hdec].
  split; [apply Hv; eauto|]. split; [exact Hl|].
  destruct (Hdec _ Hd) as (_ & _ & _ & [[_ Hb]|[_ Hready]]); [congruence|exact Hready].
Defined.
