(* ===== verification/Gate.v ===== *)
(** The deployment gate of [l2-loop-agent] ([deployment.rs], [deployment_cli.rs]):
    the checks of a staged, an installed and an inspected deployment over the
    file-system and platform ports of [ports.rs], and the command line that turns
    their reports into exit codes. *)
From stdpp Require Import pretty.
From S2P Require Import Prelude Domain Text Preflight Deployment.

(** ** Snapshots ([ports.rs]) *)
Inductive DeploymentIoError : Type := DeploymentUnavailable.

Record BundleFileIdentityV1 : Type := mkBundleFileIdentityV1 {
  bf_sha256 : string;
  bf_size : Z;
  bf_mode : Z;
  bf_uid : Z;
  bf_gid : Z;
  bf_device : Z;
  bf_inode : Z;
  bf_hard_links : Z;
}.

Record BundleSnapshotV1 : Type := mkBundleSnapshotV1 {
  bs_artifact : DeploymentArtifactIdentityV1;
  bs_files : list (string * BundleFileIdentityV1);
}.

Inductive DeploymentEntryKindV1 : Type :=
| EntryDirectory | EntryRegular | EntrySymlink | EntrySocket | EntryFifo | EntryDevice | EntryOther.

Record DeploymentEntrySnapshotV1 : Type := mkDeploymentEntrySnapshotV1 {
  de_relative_path : string;
  de_canonical_path : string;
  de_kind : DeploymentEntryKindV1;
  de_mode : Z;
  de_uid : Z;
  de_gid : Z;
  de_device : Z;
  de_inode : Z;
  de_hard_links : Z;
  de_size : Z;
}.

Record LayoutSnapshotV1 : Type := mkLayoutSnapshotV1 {
  ls_artifact : DeploymentArtifactIdentityV1;
  ls_files : list (string * DeploymentEntrySnapshotV1);
  ls_runtime_occupied : bool;
}.

Record ServiceUnitSnapshotV1 : Type := mkServiceUnitSnapshotV1 { su_contract_valid : bool }.

Record DeploymentPrerequisitesV1 : Type := mkDeploymentPrerequisitesV1 {
  dr_evidence_root_ready : bool;
  dr_runtime_contract_ready : bool;
}.

Definition prerequisites_ready (self : DeploymentPrerequisitesV1) : bool :=
  dr_evidence_root_ready self && dr_runtime_contract_ready self.

Record InstalledOwnershipSnapshotV1 : Type := mkInstalledOwnershipSnapshotV1 {
  io_transaction_id : string;
  io_authorization_id : string;
  io_artifact : DeploymentArtifactIdentityV1;
}.

Definition InstalledOwnershipSnapshotV1_new (transaction_id authorization_id : string)
    (artifact : DeploymentArtifactIdentityV1) : result DeploymentIoError InstalledOwnershipSnapshotV1 :=
  if negb (is_lower_hex_text transaction_id 32) || negb (is_lower_hex_text authorization_id 32)
     || negb (is_ok (DeploymentArtifactIdentityV1_validate artifact))
  then Err DeploymentUnavailable
  else Ok (mkInstalledOwnershipSnapshotV1 transaction_id authorization_id artifact).

Record DeploymentPlatformSnapshotV1 : Type := mkDeploymentPlatformSnapshotV1 {
  dl_preflight : PreflightReport;
  dl_interface_name : InterfaceName;
  dl_ifindex : Z;
  dl_kind : InterfaceKind;
  dl_administrative_up : bool;
  dl_operational_up : bool;
  dl_master_ifindex : option Z;
  dl_mac_address_sha256 : string;
  dl_driver : string;
  dl_device_identity_sha256 : string;
  dl_network_namespace_sha256 : string;
  dl_tc_clsact_present : bool;
  dl_address_present : bool;
  dl_route_present : bool;
  dl_neighbor_present : bool;
  dl_service_present : bool;
  dl_other_consumer_present : bool;
  dl_capabilities_sufficient : bool;
  dl_native_xdp_driver_ready : bool;
  dl_receive_queue_count : Z;
  dl_offload_state_known : bool;
  dl_host : DeploymentHostCompatibilityV1;
}.

(** [DeploymentFilesystem], [DeploymentPlatformInspector] and the wall clock of
    [Clock], in nanoseconds since the epoch. *)
Class DeploymentPorts (W : Type) : Type := {
  validate_staging_root : W → string → W * result DeploymentIoError unit;
  inspect_bundle : W → string → W * result DeploymentIoError BundleSnapshotV1;
  inspect_staged_layout : W → string → W * result DeploymentIoError LayoutSnapshotV1;
  inspect_staged_service : W → string → W * result DeploymentIoError ServiceUnitSnapshotV1;
  load_staged_authorization : W → string → W * result DeploymentIoError DeploymentAuthorizationV1;
  load_staged_performance : W → string → W * result DeploymentIoError PerformanceEvidenceV1;
  inspect_staged_prerequisites : W → string → W * result DeploymentIoError DeploymentPrerequisitesV1;
  inspect_installed_ownership : W → W * result DeploymentIoError InstalledOwnershipSnapshotV1;
  inspect_installed_layout : W → W * result DeploymentIoError LayoutSnapshotV1;
  inspect_installed_service : W → W * result DeploymentIoError ServiceUnitSnapshotV1;
  load_installed_authorization : W → W * result DeploymentIoError DeploymentAuthorizationV1;
  load_installed_performance : W → W * result DeploymentIoError PerformanceEvidenceV1;
  inspect_installed_prerequisites : W → W * result DeploymentIoError DeploymentPrerequisitesV1;
  inspect_authorized_interface :
    W → DeploymentAuthorizationV1 → W * result DeploymentIoError DeploymentPlatformSnapshotV1;
  gate_wall_time_ns : W → Z;
}.

Inductive DeploymentServiceError : Type := ServiceInvalidReport | ServiceInvalidClock.

Definition gate_error {A} (m : result DeploymentContractError A) : result DeploymentServiceError A :=
  map_err (λ _, ServiceInvalidReport) m.

(** ** Checks *)
Definition authorization_failure (authorization : DeploymentAuthorizationV1)
    (artifact : DeploymentArtifactIdentityV1) (captured_at_unix_ms : Z) : option string :=
  if negb (is_ok (DeploymentAuthorizationV1_validate_at authorization captured_at_unix_ms)) then
    if (captured_at_unix_ms <? du_issued_at_unix_ms authorization)
       || (du_expires_at_unix_ms authorization <? captured_at_unix_ms)
    then Some DG_AUTH_EXPIRED else Some DG_AUTH_SCHEMA
  else if negb (bool_decide (du_artifact_commit_sha authorization = da_commit_sha artifact))
  then Some DG_AUTH_ARTIFACT
  else if negb (is_ok (DeploymentAuthorizationV1_validate_for authorization captured_at_unix_ms artifact))
  then Some DG_AUTH_SCHEMA else None.

Definition performance_failure (performance : PerformanceEvidenceV1) (artifact : DeploymentArtifactIdentityV1)
    (host : DeploymentHostCompatibilityV1) (captured_at_unix_ms : Z) : option string :=
  let result_code := match pe_result performance with
                     | PerfPassed | PerfUnavailable => DG_PERFORMANCE_UNAVAILABLE
                     | PerfFailed => DG_PERFORMANCE_REGRESSION
                     end in
  match assess_for performance captured_at_unix_ms artifact host with
  | Err _ => Some result_code
  | Ok assessment =>
      match pa_result assessment with
      | PerfPassed => None
      | PerfFailed => Some DG_PERFORMANCE_REGRESSION
      | PerfUnavailable => Some DG_PERFORMANCE_UNAVAILABLE
      end
  end.

Definition staged_performance_failure (performance : PerformanceEvidenceV1)
    (artifact : DeploymentArtifactIdentityV1) (captured_at_unix_ms : Z) : option string :=
  match DeploymentHostCompatibilityV1_new (pe_architecture performance) (pe_kernel_release performance)
          (pe_logical_cpu_count performance) with
  | Ok host => performance_failure performance artifact host captured_at_unix_ms
  | Err _ => Some DG_PERFORMANCE_UNAVAILABLE
  end.

(** The snapshot is not of the authorized interface. *)
Definition identity_differs (platform : DeploymentPlatformSnapshotV1)
    (authorization : DeploymentAuthorizationV1) : bool :=
  let authorized := du_interface authorization in
  let interface := pr_interface (dl_preflight platform) in
  negb (bool_decide (as_str (dl_interface_name platform) = di_name authorized))
  || negb (dl_ifindex platform =? di_ifindex authorized)
  || negb (bool_decide (dl_mac_address_sha256 platform = di_mac_address_sha256 authorized))
  || negb (bool_decide (dl_driver platform = di_driver authorized))
  || negb (bool_decide (dl_device_identity_sha256 platform = di_device_identity_sha256 authorized))
  || negb (bool_decide (dl_network_namespace_sha256 platform = di_network_namespace_sha256 authorized))
  || negb (bool_decide (dl_administrative_up platform = ii_admin_up interface))
  || negb (bool_decide (dl_operational_up platform = ii_oper_up interface))
  || negb (bool_decide (dl_master_ifindex platform = option_map ir_ifindex (ii_master interface)))
  || negb (bool_decide (ir_name (ii_requested interface) = dl_interface_name platform))
  || negb (ir_ifindex (ii_requested interface) =? dl_ifindex platform).

Definition interface_unsupported (platform : DeploymentPlatformSnapshotV1)
    (authorization : DeploymentAuthorizationV1) : bool :=
  let interface := pr_interface (dl_preflight platform) in
  negb (bool_decide (dl_kind platform = Physical))
  || negb (bool_decide (dl_kind platform = di_kind (du_interface authorization)))
  || negb (bool_decide (ii_kind interface = Physical))
  || negb (dl_administrative_up platform)
  || negb (dl_operational_up platform)
  || is_some (dl_master_ifindex platform)
  || is_some (ii_bond interface).

Definition attachment_empty (state : AttachmentState) : bool :=
  match state with AttachmentEmpty => true | _ => false end.

Definition xdp_not_empty (bpf : BpfInspection) : bool :=
  negb (attachment_empty (bp_xdp_native bpf)) || negb (attachment_empty (bp_xdp_generic bpf)).

Definition is_nil {A} (xs : list A) : bool := match xs with [] => true | _ => false end.

Definition tc_not_empty (platform : DeploymentPlatformSnapshotV1) : bool :=
  dl_tc_clsact_present platform
  || negb (is_nil (bp_tc_ingress (pr_bpf (dl_preflight platform))))
  || negb (is_nil (bp_tc_egress (pr_bpf (dl_preflight platform)))).

Definition blocker_codes (findings : list PreflightFinding) : list string :=
  map pf_code (List.filter (λ finding, bool_decide (pf_severity finding = Blocker)) findings).

Definition memlock_insufficient (memlock : MemlockInspection) : bool :=
  (default 0 (mi_soft_bytes memlock) <? mi_required_bytes memlock) && negb (mi_can_raise memlock).

Definition platform_blocked (platform : DeploymentPlatformSnapshotV1) : bool :=
  let preflight := dl_preflight platform in
  let kernel := pr_kernel preflight in
  let bpf := pr_bpf preflight in
  let codes := blocker_codes (pr_findings preflight) in
  negb (length codes =? 1)%nat
  || negb (bool_decide (head codes = Some PF_LIVE_INTERFACE))
  || dl_address_present platform
  || dl_route_present platform
  || dl_neighbor_present platform
  || dl_service_present platform
  || dl_other_consumer_present platform
  || negb (dl_capabilities_sufficient platform)
  || negb (dl_native_xdp_driver_ready platform)
  || (dl_receive_queue_count platform =? 0)
  || negb (dl_offload_state_known platform)
  || negb (ki_bpf_syscall kernel)
  || negb (ki_bpf_jit kernel)
  || negb (ki_btf_readable kernel)
  || negb (ki_tc_clsact kernel)
  || negb (bp_bpffs_mounted bpf)
  || negb (bp_relevant_objects_enumerable bpf)
  || memlock_insufficient (bp_memlock bpf)
  || negb (bool_decide (ki_architecture kernel = dh_architecture (dl_host platform)))
  || negb (bool_decide (ki_release kernel = dh_kernel_release (dl_host platform))).

Definition platform_failure (platform : DeploymentPlatformSnapshotV1)
    (authorization : DeploymentAuthorizationV1) : option string :=
  if identity_differs platform authorization then Some DG_AUTH_IDENTITY
  else if interface_unsupported platform authorization then Some DG_INTERFACE_UNSUPPORTED
  else if xdp_not_empty (pr_bpf (dl_preflight platform)) then Some DG_XDP_NOT_EMPTY
  else if tc_not_empty platform then Some DG_TC_NOT_EMPTY
  else if platform_blocked platform then Some DG_PLATFORM_BLOCKED
  else None.

(** ** Blocked reports *)
Inductive GateSlot : Type :=
| SlotBundle | SlotLayout | SlotService | SlotAuthorization | SlotPlatform | SlotEvidence | SlotPerformance.

#[export] Instance GateSlot_eq_dec : EqDecision GateSlot.
Proof. solve_decision. Defined.

Definition UNVERIFIED_COMMIT_SHA : string := "0000000000000000000000000000000000000000".
Definition UNVERIFIED_PACKAGE_VERSION : string := "unverified".

Definition gate_summary (slot candidate : GateSlot) (code : string) : DeploymentGateSummaryV1 :=
  if bool_decide (slot = candidate) then mkDeploymentGateSummaryV1 GateBlocked [code]
  else mkDeploymentGateSummaryV1 GateNotApplicable [].

Definition blocked_gates (slot : GateSlot) (code : string) : DeploymentGateSummariesV1 :=
  mkDeploymentGateSummariesV1 (gate_summary slot SlotBundle code) (gate_summary slot SlotLayout code)
    (gate_summary slot SlotService code) (gate_summary slot SlotAuthorization code)
    (gate_summary slot SlotPlatform code) (gate_summary slot SlotEvidence code)
    (gate_summary slot SlotPerformance code).

Definition blocked_report (command : DeploymentCommandV1) (artifact : option DeploymentArtifactIdentityV1)
    (slot : GateSlot) (code : string) (captured_at_unix_ms : Z)
    : result DeploymentServiceError DeploymentGateReportV1 :=
  gate_error (
    artifact ← match artifact with
               | Some artifact => Ok artifact
               | None => DeploymentArtifactIdentityV1_new UNVERIFIED_COMMIT_SHA UNVERIFIED_PACKAGE_VERSION
               end;
    finding ← DeploymentFindingV1_blocker code;
    DeploymentGateReportV1_derive command artifact None (blocked_gates slot code) [finding] None
      captured_at_unix_ms).

(** ** The service *)
Definition gate_outcome : Type := result DeploymentServiceError DeploymentGateReportV1.

Section service.
Context {W : Type} `{DeploymentPorts W}.

Definition captured_at_unix_ms (w : W) : result DeploymentServiceError Z :=
  let elapsed := gate_wall_time_ns w in
  if elapsed <? 0 then Err ServiceInvalidClock
  else ok_or (try_from_wide U64_MAX (elapsed / 1000000)) ServiceInvalidClock.

(** An answer of a port, or the report that its failure leads to. *)
Definition or_blocked {A} (answer : W * result DeploymentIoError A) (blocked : gate_outcome)
    (k : W → A → W * gate_outcome) : W * gate_outcome :=
  match answer with
  | (w, Ok value) => k w value
  | (w, Err _) => (w, blocked)
  end.

(** A check that ends with a report when it has a code. *)
Definition unless_failed (w : W) (failure : option string) (blocked : string → gate_outcome)
    (k : W * gate_outcome) : W * gate_outcome :=
  match failure with Some code => (w, blocked code) | None => k end.

Definition staging (w : W) (bundle_path staging_root : string) : W * gate_outcome :=
  match captured_at_unix_ms w with
  | Err error => (w, Err error)
  | Ok at_ms =>
      let block artifact slot code := blocked_report CommandStaging artifact slot code at_ms in
      or_blocked (validate_staging_root w staging_root) (block None SlotLayout DG_STAGING_ROOT) (λ w _,
      or_blocked (inspect_bundle w bundle_path) (block None SlotBundle DG_ARTIFACT_INVENTORY) (λ w bundle,
      let artifact := bs_artifact bundle in
      if negb (is_ok (DeploymentArtifactIdentityV1_validate artifact))
      then (w, block None SlotBundle DG_ARTIFACT_MANIFEST)
      else
        or_blocked (inspect_staged_layout w staging_root) (block (Some artifact) SlotLayout DG_LAYOUT_TYPE) (λ w layout,
        if negb (bool_decide (ls_artifact layout = artifact))
        then (w, block (Some artifact) SlotLayout DG_ARTIFACT_MANIFEST)
        else
          or_blocked (inspect_staged_service w staging_root)
            (block (Some artifact) SlotService DG_SYSTEMD_CONTRACT) (λ w service,
          if negb (su_contract_valid service) then (w, block (Some artifact) SlotService DG_SYSTEMD_CONTRACT)
          else
            or_blocked (load_staged_authorization w staging_root)
              (block (Some artifact) SlotAuthorization DG_AUTH_SCHEMA) (λ w authorization,
            unless_failed w (authorization_failure authorization artifact at_ms)
              (block (Some artifact) SlotAuthorization)
              (or_blocked (load_staged_performance w staging_root)
                 (block (Some artifact) SlotPerformance DG_PERFORMANCE_UNAVAILABLE) (λ w performance,
               unless_failed w (staged_performance_failure performance artifact at_ms)
                 (block (Some artifact) SlotPerformance)
                 (or_blocked (inspect_staged_prerequisites w staging_root)
                    (block (Some artifact) SlotEvidence DG_EVIDENCE_ROOT) (λ w prerequisites,
                  if negb (prerequisites_ready prerequisites)
                  then (w, block (Some artifact) SlotEvidence DG_EVIDENCE_ROOT)
                  else (w, gate_error (DeploymentGateReportV1_derive CommandStaging artifact None
                                         staging_passed [] None at_ms)))))))))))
  end.

Definition installed (w : W) : W * gate_outcome :=
  match captured_at_unix_ms w with
  | Err error => (w, Err error)
  | Ok at_ms =>
      let block artifact slot code := blocked_report CommandInstalled artifact slot code at_ms in
      or_blocked (inspect_installed_ownership w) (block None SlotLayout DG_LAYOUT_TYPE) (λ w ownership,
      or_blocked (inspect_installed_layout w) (block (Some (io_artifact ownership)) SlotLayout DG_LAYOUT_TYPE) (λ w layout,
      let artifact := ls_artifact layout in
      if negb (is_ok (DeploymentArtifactIdentityV1_validate artifact))
         || negb (bool_decide (artifact = io_artifact ownership))
      then (w, block (Some artifact) SlotLayout DG_ARTIFACT_MANIFEST)
      else
        or_blocked (inspect_installed_service w) (block (Some artifact) SlotService DG_SYSTEMD_CONTRACT) (λ w service,
        if negb (su_contract_valid service) then (w, block (Some artifact) SlotService DG_SYSTEMD_CONTRACT)
        else
          or_blocked (load_installed_authorization w)
            (block (Some artifact) SlotAuthorization DG_AUTH_SCHEMA) (λ w authorization,
          if negb (bool_decide (du_authorization_id authorization = io_authorization_id ownership))
          then (w, block (Some artifact) SlotAuthorization DG_AUTH_IDENTITY)
          else
            unless_failed w (authorization_failure authorization artifact at_ms)
              (block (Some artifact) SlotAuthorization)
              (or_blocked (load_installed_performance w)
                 (block (Some artifact) SlotPerformance DG_PERFORMANCE_UNAVAILABLE) (λ w performance,
               unless_failed w (staged_performance_failure performance artifact at_ms)
                 (block (Some artifact) SlotPerformance)
                 (or_blocked (inspect_installed_prerequisites w)
                    (block (Some artifact) SlotEvidence DG_EVIDENCE_ROOT) (λ w prerequisites,
                  if negb (prerequisites_ready prerequisites)
                  then (w, block (Some artifact) SlotEvidence DG_EVIDENCE_ROOT)
                  else (w, gate_error (DeploymentGateReportV1_derive CommandInstalled artifact None
                                         installed_passed [] None at_ms))))))))))
  end.

(** The report on an interface that passed every check. *)
Definition canary_report (authorization : DeploymentAuthorizationV1) (platform : DeploymentPlatformSnapshotV1)
    (artifact : DeploymentArtifactIdentityV1) (at_ms : Z) : gate_outcome :=
  gate_error (
    interface ← DeploymentInterfaceSummaryV1_new (as_str (dl_interface_name platform)) (dl_ifindex platform)
                  (dl_kind platform) (dl_administrative_up platform) (dl_operational_up platform);
    canary_plan ← CanaryPlanV1_new authorization interface;
    journald ← DeploymentFindingV1_warning DG_REAL_JOURNALD_UNVERIFIED;
    native ← DeploymentFindingV1_warning DG_NATIVE_XDP_UNVERIFIED;
    workload ← DeploymentFindingV1_warning DG_WORKLOAD_PERFORMANCE_UNVERIFIED;
    DeploymentGateReportV1_derive CommandInspect artifact (Some interface) inspect_passed
      [journald; native; workload] (Some canary_plan) at_ms).

Definition gate_inspect (w : W) : W * gate_outcome :=
  match captured_at_unix_ms w with
  | Err error => (w, Err error)
  | Ok at_ms =>
      let block artifact slot code := blocked_report CommandInspect artifact slot code at_ms in
      or_blocked (inspect_installed_ownership w) (block None SlotLayout DG_LAYOUT_TYPE) (λ w ownership,
      or_blocked (inspect_installed_layout w) (block None SlotLayout DG_LAYOUT_TYPE) (λ w layout,
      let artifact := ls_artifact layout in
      if negb (is_ok (DeploymentArtifactIdentityV1_validate artifact))
         || negb (bool_decide (artifact = io_artifact ownership))
      then (w, block None SlotLayout DG_ARTIFACT_MANIFEST)
      else
        or_blocked (inspect_installed_service w) (block (Some artifact) SlotService DG_SYSTEMD_CONTRACT) (λ w service,
        if negb (su_contract_valid service) then (w, block (Some artifact) SlotService DG_SYSTEMD_CONTRACT)
        else
          or_blocked (load_installed_authorization w)
            (block (Some artifact) SlotAuthorization DG_AUTH_SCHEMA) (λ w authorization,
          if negb (bool_decide (du_authorization_id authorization = io_authorization_id ownership))
          then (w, block (Some artifact) SlotAuthorization DG_AUTH_IDENTITY)
          else
            unless_failed w (authorization_failure authorization artifact at_ms)
              (block (Some artifact) SlotAuthorization)
              (or_blocked (load_installed_performance w)
                 (block (Some artifact) SlotPerformance DG_PERFORMANCE_UNAVAILABLE) (λ w performance,
               or_blocked (inspect_authorized_interface w authorization)
                 (block (Some artifact) SlotPlatform DG_PLATFORM_BLOCKED) (λ w platform,
               unless_failed w (platform_failure platform authorization)
                 (block (Some artifact) SlotPlatform)
                 (unless_failed w (performance_failure performance artifact (dl_host platform) at_ms)
                    (block (Some artifact) SlotPerformance)
                    (or_blocked (inspect_installed_prerequisites w)
                       (block (Some artifact) SlotEvidence DG_EVIDENCE_ROOT) (λ w prerequisites,
                     if negb (prerequisites_ready prerequisites)
                     then (w, block (Some artifact) SlotEvidence DG_EVIDENCE_ROOT)
                     else (w, canary_report authorization platform artifact at_ms))))))))))) 
  end.
End service.

(** ** The command line ([deployment_cli.rs]) *)
Definition EXIT_DEPLOYMENT_SUCCESS : Z := 0.
Definition EXIT_DEPLOYMENT_INTERNAL : Z := 1.
Definition EXIT_DEPLOYMENT_BLOCKED : Z := 4.
Definition MAX_DEPLOYMENT_OUTPUT_BYTES : Z := 1024 * 1024.

Inductive DeploymentCliFormat : Type := CliText | CliJson.

Inductive DeploymentCliCommand : Type := CliStaging (bundle root : string) | CliInstalled | CliInspect.

Inductive DeploymentCliAction : Type :=
| CliRun (command : DeploymentCliCommand) (format : DeploymentCliFormat) | CliHelp.

Inductive DeploymentCliParseError : Type := DeploymentParseError.

Inductive DeploymentCliRenderError : Type := RenderSerialization | RenderOutputTooLarge.

Record RenderedDeploymentOutput : Type := mkRenderedDeploymentOutput {
  ro_stdout : string;
  ro_stderr : string;
  ro_exit_code : Z;
}.

Definition parse_staging (bundle root : string) (format : DeploymentCliFormat)
    : result DeploymentCliParseError DeploymentCliAction :=
  if bool_decide (bundle = "") || bool_decide (root = "") then Err DeploymentParseError
  else Ok (CliRun (CliStaging bundle root) format).

Definition parse_deployment_args (args : list string) : result DeploymentCliParseError DeploymentCliAction :=
  match args with
  | [command] =>
      if bool_decide (command = "--help") || bool_decide (command = "help") then Ok CliHelp
      else if bool_decide (command = "inspect") then Ok (CliRun CliInspect CliText)
      else Err DeploymentParseError
  | [command; json] =>
      if bool_decide (command = "installed") && bool_decide (json = "--json") then Ok (CliRun CliInstalled CliJson)
      else if bool_decide (command = "inspect") && bool_decide (json = "--json") then Ok (CliRun CliInspect CliJson)
      else Err DeploymentParseError
  | [command; bundle_flag; bundle; root_flag; root] =>
      if bool_decide (command = "staging") && bool_decide (bundle_flag = "--bundle") && bool_decide (root_flag = "--root")
      then parse_staging bundle root CliText else Err DeploymentParseError
  | [command; bundle_flag; bundle; root_flag; root; json] =>
      if bool_decide (command = "staging") && bool_decide (bundle_flag = "--bundle") && bool_decide (root_flag = "--root")
         && bool_decide (json = "--json")
      then parse_staging bundle root CliJson else Err DeploymentParseError
  | _ => Err DeploymentParseError
  end.

(** [serde_json::to_string] of a report and of its parts. *)
Class DeploymentJson : Type := {
  report_json : DeploymentGateReportV1 → option string;
  interface_json : DeploymentInterfaceSummaryV1 → option string;
  findings_json : list DeploymentFindingV1 → option string;
  plan_json : CanaryPlanV1 → option string;
}.

Definition decision_text (decision : DeploymentDecisionV1) : string :=
  match decision with
  | DeploymentDecisionBlocked => "blocked"
  | StagingReady => "staging_ready"
  | CanaryCandidate => "canary_candidate"
  | DeploymentInstalledVerified => "installed_verified"
  | PhysicalCanaryReady => "physical_canary_ready"
  end.

Definition gate_state_text (state : DeploymentGateStateV1) : string :=
  match state with
  | GatePassed => "passed"
  | GateBlocked => "blocked"
  | GateUnavailable => "unavailable"
  | GateNotApplicable => "not_applicable"
  end.

Definition append_gate (name : string) (gate : DeploymentGateSummaryV1) : list string :=
  [("gates." ++ name ++ ".state: " ++ gate_state_text (dg_state gate))%string;
   ("gates." ++ name ++ ".finding_codes: " ++ String.concat "," (dg_finding_codes gate))%string].

Definition bool_text (b : bool) : string := if b then "true" else "false".

Definition line_feed : string := String (Ascii.ascii_of_nat 10) "".

Section cli.
Context `{DeploymentJson}.

Definition or_serialization {A} (o : option A) : result DeploymentCliRenderError A := ok_or o RenderSerialization.

Definition render_text (report : DeploymentGateReportV1) : result DeploymentCliRenderError string :=
  let gates := dp_gates report in
  interface ← match dp_interface report with
              | Some interface => or_serialization (interface_json interface)
              | None => Ok "none"
              end;
  findings ← or_serialization (findings_json (dp_findings report));
  plan ← match dp_canary_plan report with
         | Some plan => or_serialization (plan_json plan)
         | None => Ok "none"
         end;
  Ok (String.concat line_feed (
    [("schema_version: " ++ pretty (dp_schema_version report))%string;
     ("decision: " ++ decision_text (dp_decision report))%string;
     ("artifact.commit_sha: " ++ da_commit_sha (dp_artifact report))%string;
     ("artifact.package_version: " ++ da_package_version (dp_artifact report))%string;
     ("interface: " ++ interface)%string]
    ++ append_gate "bundle" (gs_bundle gates) ++ append_gate "layout" (gs_layout gates)
    ++ append_gate "service" (gs_service gates) ++ append_gate "authorization" (gs_authorization gates)
    ++ append_gate "platform" (gs_platform gates) ++ append_gate "evidence" (gs_evidence gates)
    ++ append_gate "performance" (gs_performance gates)
    ++ [("findings: " ++ findings)%string;
        ("canary_plan: " ++ plan)%string;
        ("captured_at_unix_ms: " ++ pretty (dp_captured_at_unix_ms report))%string;
        ("mutations_performed: " ++ bool_text (dp_mutations_performed report))%string])).

Definition decision_exit_code (decision : DeploymentDecisionV1) : Z :=
  match decision with
  | StagingReady | CanaryCandidate | DeploymentInstalledVerified | PhysicalCanaryReady => EXIT_DEPLOYMENT_SUCCESS
  | DeploymentDecisionBlocked => EXIT_DEPLOYMENT_BLOCKED
  end.

Definition render_deployment_report (report : DeploymentGateReportV1) (format : DeploymentCliFormat)
    : result DeploymentCliRenderError RenderedDeploymentOutput :=
  stdout ← match format with
           | CliJson => or_serialization (report_json report)
           | CliText => render_text report
           end;
  if MAX_DEPLOYMENT_OUTPUT_BYTES <=? Z.of_nat (String.length stdout) then Err RenderOutputTooLarge
  else
    let stdout := (stdout ++ line_feed)%string in
    if MAX_DEPLOYMENT_OUTPUT_BYTES <? Z.of_nat (String.length stdout) then Err RenderOutputTooLarge
    else Ok (mkRenderedDeploymentOutput stdout "" (decision_exit_code (dp_decision report))).

Definition internal_failure : RenderedDeploymentOutput :=
  mkRenderedDeploymentOutput "" "deployment check unavailable" EXIT_DEPLOYMENT_INTERNAL.

Definition execute_deployment_command {W} `{DeploymentPorts W} (runner : W) (command : DeploymentCliCommand)
    (format : DeploymentCliFormat) : W * RenderedDeploymentOutput :=
  let '(w, outcome) := match command with
                       | CliStaging bundle root => staging runner bundle root
                       | CliInstalled => installed runner
                       | CliInspect => gate_inspect runner
                       end in
  (w, match outcome with
      | Ok report => match render_deployment_report report format with Ok output => output | Err _ => internal_failure end
      | Err _ => internal_failure
      end).
End cli.

(** ** What a positive report stands for *)
Definition answered {W A} (op : W → W * result DeploymentIoError A) (value : A) : Prop :=
  ∃ w w', op w = (w', Ok value).

(** The artifact, its authorization and its performance evidence hold together. *)
Record release_ok (artifact : DeploymentArtifactIdentityV1) (authorization : DeploymentAuthorizationV1)
    (performance : PerformanceEvidenceV1) (host : DeploymentHostCompatibilityV1) (at_ms : Z) : Prop := {
  ro_artifact : DeploymentArtifactIdentityV1_validate artifact = Ok tt;
  ro_authorization : DeploymentAuthorizationV1_validate_for authorization at_ms artifact = Ok tt;
  ro_performance : ∃ a, assess_for performance at_ms artifact host = Ok a ∧ pa_result a = PerfPassed;
}.

(** The physical interface of the authorization, idle and ready. *)
Record canary_platform (platform : DeploymentPlatformSnapshotV1) (authorization : DeploymentAuthorizationV1) : Prop := {
  cl_name : as_str (dl_interface_name platform) = di_name (du_interface authorization);
  cl_ifindex : dl_ifindex platform = di_ifindex (du_interface authorization);
  cl_mac : dl_mac_address_sha256 platform = di_mac_address_sha256 (du_interface authorization);
  cl_device : dl_device_identity_sha256 platform = di_device_identity_sha256 (du_interface authorization);
  cl_namespace : dl_network_namespace_sha256 platform = di_network_namespace_sha256 (du_interface authorization);
  cl_physical : dl_kind platform = Physical ∧ dl_administrative_up platform = true ∧
                dl_operational_up platform = true ∧ dl_master_ifindex platform = None ∧
                ii_bond (pr_interface (dl_preflight platform)) = None;
  cl_xdp : bp_xdp_native (pr_bpf (dl_preflight platform)) = AttachmentEmpty ∧
           bp_xdp_generic (pr_bpf (dl_preflight platform)) = AttachmentEmpty;
  cl_tc : dl_tc_clsact_present platform = false ∧ bp_tc_ingress (pr_bpf (dl_preflight platform)) = [] ∧
          bp_tc_egress (pr_bpf (dl_preflight platform)) = [];
  cl_blockers : blocker_codes (pr_findings (dl_preflight platform)) = [PF_LIVE_INTERFACE];
  cl_idle : dl_address_present platform = false ∧ dl_route_present platform = false ∧
            dl_neighbor_present platform = false ∧ dl_service_present platform = false ∧
            dl_other_consumer_present platform = false;
  cl_capable : dl_capabilities_sufficient platform = true ∧ dl_native_xdp_driver_ready platform = true ∧
               dl_receive_queue_count platform ≠ 0 ∧ dl_offload_state_known platform = true;
  cl_memlock : mi_required_bytes (bp_memlock (pr_bpf (dl_preflight platform)))
                 <= default 0 (mi_soft_bytes (bp_memlock (pr_bpf (dl_preflight platform)))) ∨
               mi_can_raise (bp_memlock (pr_bpf (dl_preflight platform))) = true;
  cl_host : ki_architecture (pr_kernel (dl_preflight platform)) = dh_architecture (dl_host platform) ∧
            ki_release (pr_kernel (dl_preflight platform)) = dh_kernel_release (dl_host platform);
}.

Lemma attachment_empty_true state : attachment_empty state = true ↔ state = AttachmentEmpty.
Proof. by destruct state. Qed.

Lemma is_nil_true {A} (xs : list A) : is_nil xs = true ↔ xs = [].
Proof. by destruct xs. Qed.

Lemma platform_failure_None platform authorization :
  platform_failure platform authorization = None → canary_platform platform authorization.
Proof.
  unfold platform_failure. destruct (identity_differs platform authorization) eqn:Hi; [done|].
  destruct (interface_unsupported platform authorization) eqn:Hu; [done|].
  destruct (xdp_not_empty _) eqn:Hx; [done|]. destruct (tc_not_empty platform) eqn:Ht; [done|].
  destruct (platform_blocked platform) eqn:Hb; [done|]. intros _.
  unfold identity_differs in Hi. unfold interface_unsupported in Hu. unfold xdp_not_empty in Hx.
  unfold tc_not_empty in Ht. unfold platform_blocked, memlock_insufficient in Hb.
  boolify.
  repeat match goal with
  | H : attachment_empty _ = true |- _ => apply attachment_empty_true in H
  | H : is_nil _ = true |- _ => apply is_nil_true in H
  | H : (length _ =? 1)%nat = true |- _ => apply Nat.eqb_eq in H
  | H : (_ =? _) = true |- _ => apply Z.eqb_eq in H
  | H : (_ =? _) = false |- _ => apply Z.eqb_neq in H
  | H : is_some ?o = false |- _ => assert (o = None) by (destruct o; [discriminate H|reflexivity]); clear H
  | H : _ && _ = false |- _ => apply andb_false_iff in H
  end.
  assert (blocker_codes (pr_findings (dl_preflight platform)) = [PF_LIVE_INTERFACE]) as Hcodes.
  { destruct (blocker_codes (pr_findings (dl_preflight platform))) as [|code [|]]; [discriminate| |discriminate].
    cbn in *. congruence. }
  split; split_and?; try assumption.
  match goal with H : _ ∨ _ |- _ => destruct H as [H|H] end; boolify; [left|by right].
  by apply Z.ltb_ge.
Qed.

(** ** Blocked reports block *)
Lemma gate_error_Ok {A} (m : result DeploymentContractError A) a : gate_error m = Ok a ↔ m = Ok a.
Proof. destruct m; cbn; split; congruence. Qed.

Lemma blocked_report_decision command artifact slot code at_ms r :
  blocked_report command artifact slot code at_ms = Ok r → dp_decision r = DeploymentDecisionBlocked.
Proof.
  unfold blocked_report. intros Hr%gate_error_Ok.
  apply bind_Ok in Hr as (a & _ & Hr). apply bind_Ok in Hr as (finding & Hf & Hr).
  apply derive_Ok in Hr as (_ & _ & [[_ Hd]|[Hnot _]]); [done|]. destruct Hnot. left.
  exists finding. split; [set_solver|]. unfold DeploymentFindingV1_blocker in Hf. destruct (negb _); [done|]. by injection Hf as <-.
Qed.

Lemma gate_summary_valid slot candidate code :
  contains_code BLOCKER_CODES code = true → DeploymentGateSummaryV1_validate (gate_summary slot candidate code) = Ok tt.
Proof.
  intros Hcode. unfold gate_summary, DeploymentGateSummaryV1_validate. case_bool_decide; cbn [dg_state dg_finding_codes]; [|done].
  cbn [codes_are_sorted_unique forallb]. by rewrite Hcode.
Qed.

(** Every blocked report of the service can be derived. *)
Lemma blocked_report_answers command artifact slot code at_ms :
  at_ms ≠ 0 → contains_code BLOCKER_CODES code = true →
  match artifact with Some a => DeploymentArtifactIdentityV1_validate a = Ok tt | None => True end →
  ∃ r, blocked_report command artifact slot code at_ms = Ok r.
Proof.
  intros Hat Hcode Hartifact. unfold blocked_report, DeploymentFindingV1_blocker. rewrite Hcode. cbn [negb].
  set (a := match artifact with Some artifact => artifact
            | None => mkDeploymentArtifactIdentityV1 UNVERIFIED_COMMIT_SHA UNVERIFIED_PACKAGE_VERSION end).
  assert (match artifact with Some artifact => Ok artifact
          | None => DeploymentArtifactIdentityV1_new UNVERIFIED_COMMIT_SHA UNVERIFIED_PACKAGE_VERSION end
          = (Ok a : result DeploymentContractError _)) as ->.
  { unfold a. destruct artifact; [done|]. vm_compute. reflexivity. }
  assert (DeploymentArtifactIdentityV1_validate a = Ok tt) as Ha.
  { unfold a. destruct artifact; [done|]. vm_compute. reflexivity. }
  cbn [mbind result_bind]. unfold DeploymentGateReportV1_derive. rewrite Ha. cbn [mbind result_bind].
  assert (DeploymentGateSummariesV1_validate (blocked_gates slot code) = Ok tt) as ->.
  { unfold DeploymentGateSummariesV1_validate. apply try_for_each_Ok. unfold gates_all, blocked_gates.
    cbn [gs_bundle gs_layout gs_service gs_authorization gs_platform gs_evidence gs_performance].
    rewrite !Forall_cons, Forall_nil. pose proof (gate_summary_valid slot). auto 10. }
  cbn [mbind result_bind]. destruct (Z.eqb_spec at_ms 0); [done|].
  assert (try_for_each DeploymentFindingV1_validate [mkDeploymentFindingV1 code DeploymentBlocker] = Ok tt) as ->.
  { apply try_for_each_Ok. apply Forall_singleton. unfold DeploymentFindingV1_validate.
    cbn [df_severity df_code]. cbv zeta. by rewrite Hcode. }
  cbn [mbind result_bind]. cbv zeta.
  change (dedup (sort_by deployment_finding_cmp [mkDeploymentFindingV1 code DeploymentBlocker]))
    with [mkDeploymentFindingV1 code DeploymentBlocker].
  cbn [existsb df_severity]. rewrite bool_decide_eq_true_2 by done. cbn [orb].
  destruct command; cbn; eauto.
Qed.

Section reports.
Context {W : Type} `{DeploymentPorts W}.
Implicit Types (w : W) (out : W * gate_outcome).

(** The command ends with a report that is not blocked. *)
Definition ready out (r : DeploymentGateReportV1) : Prop :=
  out.2 = Ok r ∧ dp_decision r ≠ DeploymentDecisionBlocked.

Lemma blocked_not_ready w command artifact slot code at_ms r :
  ¬ ready (w, blocked_report command artifact slot code at_ms) r.
Proof. intros [Hr Hd]. by apply blocked_report_decision in Hr. Qed.

Lemma or_blocked_ready {A} (answer : W * result DeploymentIoError A) command artifact slot code at_ms k r :
  ready (or_blocked answer (blocked_report command artifact slot code at_ms) k) r →
  ∃ w value, answer = (w, Ok value) ∧ ready (k w value) r.
Proof.
  destruct answer as [w [value|error]]; cbn; intros Hr; [by exists w, value|].
  by apply blocked_not_ready in Hr.
Qed.

Lemma unless_failed_ready w failure command artifact slot at_ms k r :
  ready (unless_failed w failure (λ code, blocked_report command artifact slot code at_ms) k) r →
  failure = None ∧ ready k r.
Proof. destruct failure; cbn; intros Hr; [by apply blocked_not_ready in Hr|done]. Qed.

Lemma check_ready w (b : bool) command artifact slot code at_ms k r :
  ready (if b then (w, blocked_report command artifact slot code at_ms) else k) r → b = false ∧ ready k r.
Proof. destruct b; intros Hr; [by apply blocked_not_ready in Hr|done]. Qed.

Lemma authorization_failure_None authorization artifact at_ms :
  authorization_failure authorization artifact at_ms = None →
  DeploymentAuthorizationV1_validate_for authorization at_ms artifact = Ok tt.
Proof.
  unfold authorization_failure. destruct (negb (is_ok (DeploymentAuthorizationV1_validate_at _ _))); [by destruct (_ || _)|].
  destruct (negb (bool_decide _)); [done|].
  destruct (DeploymentAuthorizationV1_validate_for _ _ _) as [[]|]; [done|]. done.
Qed.

Lemma performance_failure_None performance artifact host at_ms :
  performance_failure performance artifact host at_ms = None →
  ∃ a, assess_for performance at_ms artifact host = Ok a ∧ pa_result a = PerfPassed.
Proof.
  unfold performance_failure. destruct (assess_for _ _ _ _) as [a|error]; [|done].
  intros Hp. exists a. split; [done|]. by destruct (pa_result a).
Qed.

Lemma staged_performance_failure_None performance artifact at_ms :
  staged_performance_failure performance artifact at_ms = None →
  ∃ a, assess_for performance at_ms artifact
         (mkDeploymentHostCompatibilityV1 (pe_architecture performance) (pe_kernel_release performance)
            (pe_logical_cpu_count performance)) = Ok a ∧ pa_result a = PerfPassed.
Proof.
  unfold staged_performance_failure. destruct (DeploymentHostCompatibilityV1_new _ _ _) as [host|error] eqn:Hh; [|done].
  unfold DeploymentHostCompatibilityV1_new in Hh. apply bind_Ok in Hh as (? & _ & [= <-]).
  apply performance_failure_None.
Qed.

(** What every command checked of the answers of its ports. *)
Definition release_checked (service : ServiceUnitSnapshotV1) (prerequisites : DeploymentPrerequisitesV1)
    (artifact : DeploymentArtifactIdentityV1) (authorization : DeploymentAuthorizationV1)
    (performance : PerformanceEvidenceV1) (host : DeploymentHostCompatibilityV1) (at_ms : Z) : Prop :=
  su_contract_valid service = true ∧ prerequisites_ready prerequisites = true ∧
  release_ok artifact authorization performance host at_ms.

(** The ports answered one after the other, each in the world the one before left. *)
Definition staging_run w bundle_path staging_root bundle layout service authorization performance prerequisites : Prop :=
  ∃ w1 w2 w3 w4 w5 w6 w7,
    validate_staging_root w staging_root = (w1, Ok tt) ∧
    inspect_bundle w1 bundle_path = (w2, Ok bundle) ∧
    inspect_staged_layout w2 staging_root = (w3, Ok layout) ∧
    inspect_staged_service w3 staging_root = (w4, Ok service) ∧
    load_staged_authorization w4 staging_root = (w5, Ok authorization) ∧
    load_staged_performance w5 staging_root = (w6, Ok performance) ∧
    inspect_staged_prerequisites w6 staging_root = (w7, Ok prerequisites).

Definition installed_run w ownership layout service authorization performance prerequisites : Prop :=
  ∃ w1 w2 w3 w4 w5 w6,
    inspect_installed_ownership w = (w1, Ok ownership) ∧
    inspect_installed_layout w1 = (w2, Ok layout) ∧
    inspect_installed_service w2 = (w3, Ok service) ∧
    load_installed_authorization w3 = (w4, Ok authorization) ∧
    load_installed_performance w4 = (w5, Ok performance) ∧
    inspect_installed_prerequisites w5 = (w6, Ok prerequisites).

Definition inspect_run w ownership layout service authorization performance platform prerequisites : Prop :=
  ∃ w1 w2 w3 w4 w5 w6 w7,
    inspect_installed_ownership w = (w1, Ok ownership) ∧
    inspect_installed_layout w1 = (w2, Ok layout) ∧
    inspect_installed_service w2 = (w3, Ok service) ∧
    load_installed_authorization w3 = (w4, Ok authorization) ∧
    load_installed_performance w4 = (w5, Ok performance) ∧
    inspect_authorized_interface w5 authorization = (w6, Ok platform) ∧
    inspect_installed_prerequisites w6 = (w7, Ok prerequisites).
End reports.

Ltac earn H :=
  repeat match type of H with
  | ready (or_blocked _ _ _) _ =>
      let w := fresh "w" in let value := fresh "value" in let Ha := fresh "Hanswer" in
      apply or_blocked_ready in H as (w & value & Ha & H)
  | ready (unless_failed _ _ _ _) _ => let Hf := fresh "Hnone" in apply unless_failed_ready in H as [Hf H]
  | ready (if _ then _ else _) _ => let Hc := fresh "Hcheck" in apply check_ready in H as [Hc H]
  end.

Lemma is_ok_unit {E} (m : result E unit) : is_ok m = true → m = Ok tt.
Proof. by destruct m as [[]|]. Qed.

(** Closes what an answer, a check or a validation showed. *)
Ltac earned :=
  repeat match goal with
  | |- _ ∧ _ => split
  | |- staging_run _ _ _ _ _ _ _ _ _ => unfold staging_run; do 7 eexists; split_and!; eassumption
  | |- installed_run _ _ _ _ _ _ _ => unfold installed_run; do 6 eexists; split_and!; eassumption
  | |- inspect_run _ _ _ _ _ _ _ _ => unfold inspect_run; do 7 eexists; split_and!; eassumption
  | |- release_checked _ _ _ _ _ _ _ => unfold release_checked
  | |- release_ok _ _ _ _ _ => split
  | |- DeploymentArtifactIdentityV1_validate _ = Ok tt => by apply is_ok_unit
  end; try assumption; try reflexivity.

Section earned.
Context {W : Type} `{DeploymentPorts W}.
Implicit Types (w : W).

Lemma derived_ready w command artifact interface gates findings plan at_ms r :
  ready (w, gate_error (DeploymentGateReportV1_derive command artifact interface gates findings plan at_ms)) r →
  dp_captured_at_unix_ms r = at_ms ∧ dp_artifact r = artifact ∧ dp_mutations_performed r = false ∧
  dp_interface r = interface ∧ dp_canary_plan r = plan ∧ ready_for command r.
Proof.
  intros [Hr%gate_error_Ok Hd]. cbn in Hr. apply derive_Ok in Hr as (Hr & _ & [[_ ?]|[_ Hready]]); [done|].
  rewrite Hr. cbn. split_and!; try done. by rewrite <-Hr.
Qed.

Lemma staging_ready w bundle_path staging_root r :
  ready (staging w bundle_path staging_root) r →
  ∃ at_ms bundle layout service authorization performance prerequisites,
    captured_at_unix_ms w = Ok at_ms ∧ dp_decision r = StagingReady ∧ dp_captured_at_unix_ms r = at_ms ∧
    dp_artifact r = bs_artifact bundle ∧ ls_artifact layout = bs_artifact bundle ∧
    staging_run w bundle_path staging_root bundle layout service authorization performance prerequisites ∧
    release_checked service prerequisites (bs_artifact bundle) authorization performance
      (mkDeploymentHostCompatibilityV1 (pe_architecture performance) (pe_kernel_release performance)
         (pe_logical_cpu_count performance)) at_ms.
Proof.
  unfold staging. destruct (captured_at_unix_ms w) as [at_ms|error]; [|by intros [? _]]. intros Hr. earn Hr.
  apply derived_ready in Hr as (? & ? & _ & _ & _ & Hdecision & _).
  apply authorization_failure_None in Hnone. apply staged_performance_failure_None in Hnone0.
  rewrite decide_True in Hdecision by done. destruct value. boolify.
  exists at_ms, value0, value1, value2, value3, value4, value5. earned.
Qed.

Lemma installed_ready w r :
  ready (installed w) r →
  ∃ at_ms ownership layout service authorization performance prerequisites,
    captured_at_unix_ms w = Ok at_ms ∧ dp_decision r = DeploymentInstalledVerified ∧
    dp_captured_at_unix_ms r = at_ms ∧ dp_artifact r = ls_artifact layout ∧
    ls_artifact layout = io_artifact ownership ∧
    du_authorization_id authorization = io_authorization_id ownership ∧
    installed_run w ownership layout service authorization performance prerequisites ∧
    release_checked service prerequisites (ls_artifact layout) authorization performance
      (mkDeploymentHostCompatibilityV1 (pe_architecture performance) (pe_kernel_release performance)
         (pe_logical_cpu_count performance)) at_ms.
Proof.
  unfold installed. destruct (captured_at_unix_ms w) as [at_ms|error]; [|by intros [? _]]. intros Hr. earn Hr.
  apply derived_ready in Hr as (? & ? & _ & _ & _ & Hdecision & _).
  apply authorization_failure_None in Hnone. apply staged_performance_failure_None in Hnone0.
  rewrite decide_False in Hdecision by done. boolify. exists at_ms, value, value0, value1, value2, value3, value4. earned.
Qed.

(** A canary report is about the interface of the platform snapshot. *)
Lemma canary_report_ready w authorization platform artifact at_ms r :
  ready (w, canary_report authorization platform artifact at_ms) r →
  dp_decision r = PhysicalCanaryReady ∧ dp_captured_at_unix_ms r = at_ms ∧ dp_artifact r = artifact ∧
  dp_mutations_performed r = false ∧
  ∃ plan, dp_canary_plan r = Some plan ∧ cp_executable plan = false ∧
    cp_authorization_id plan = du_authorization_id authorization ∧
    ds_name (cp_interface plan) = as_str (dl_interface_name platform) ∧
    ds_ifindex (cp_interface plan) = dl_ifindex platform.
Proof.
  intros [Hr%gate_error_Ok Hd]. cbn in Hr.
  apply bind_Ok in Hr as (interface & Hi & Hr). apply bind_Ok in Hr as (plan & Hp & Hr).
  apply bind_Ok in Hr as (f1 & _ & Hr). apply bind_Ok in Hr as (f2 & _ & Hr). apply bind_Ok in Hr as (f3 & _ & Hr).
  assert (ready (w, gate_error (Ok r)) r) as Hready by done. rewrite <-Hr in Hready at 1.
  apply derived_ready in Hready as (? & ? & ? & _ & Hplan & (? & _ & _)). split_and!; try done.
  exists plan. unfold DeploymentInterfaceSummaryV1_new in Hi. destruct (_ || _); [done|].
  apply bind_Ok in Hi as (? & _ & [= <-]). unfold CanaryPlanV1_new in Hp.
  apply bind_Ok in Hp as (? & _ & Hp). apply bind_Ok in Hp as (? & _ & Hp).
  destruct (_ || _)%bool; [done|]. apply bind_Ok in Hp as (? & _ & [= <-]). done.
Qed.

Lemma inspect_ready w r :
  ready (gate_inspect w) r →
  ∃ at_ms ownership layout service authorization performance platform prerequisites plan,
    captured_at_unix_ms w = Ok at_ms ∧ dp_decision r = PhysicalCanaryReady ∧
    dp_captured_at_unix_ms r = at_ms ∧ dp_artifact r = ls_artifact layout ∧
    ls_artifact layout = io_artifact ownership ∧
    du_authorization_id authorization = io_authorization_id ownership ∧
    inspect_run w ownership layout service authorization performance platform prerequisites ∧
    release_checked service prerequisites (ls_artifact layout) authorization performance (dl_host platform) at_ms ∧
    canary_platform platform authorization ∧
    dp_canary_plan r = Some plan ∧ cp_executable plan = false ∧
    cp_authorization_id plan = du_authorization_id authorization ∧
    ds_name (cp_interface plan) = di_name (du_interface authorization) ∧
    ds_ifindex (cp_interface plan) = di_ifindex (du_interface authorization).
Proof.
  unfold gate_inspect. destruct (captured_at_unix_ms w) as [at_ms|error]; [|by intros [? _]]. intros Hr. earn Hr.
  apply canary_report_ready in Hr as (? & ? & ? & _ & plan & ? & ? & ? & Hname & Hindex).
  apply authorization_failure_None in Hnone. apply platform_failure_None in Hnone0.
  apply performance_failure_None in Hnone1. boolify.
  rewrite (cl_name _ _ Hnone0) in Hname. rewrite (cl_ifindex _ _ Hnone0) in Hindex.
  exists at_ms, value, value0, value1, value2, value3, value4, value5, plan. earned.
Qed.
End earned.

(** ** The service always answers *)
Definition blocker_or_none (failure : option string) : Prop :=
  ∀ code, failure = Some code → contains_code BLOCKER_CODES code = true.

Lemma authorization_failure_code authorization artifact at_ms :
  blocker_or_none (authorization_failure authorization artifact at_ms).
Proof. intros code. unfold authorization_failure. repeat case_match; by intros [= <-]. Qed.

Lemma performance_failure_code performance artifact host at_ms :
  blocker_or_none (performance_failure performance artifact host at_ms).
Proof. intros code. unfold performance_failure. repeat case_match; by intros [= <-]. Qed.

Lemma staged_performance_failure_code performance artifact at_ms :
  blocker_or_none (staged_performance_failure performance artifact at_ms).
Proof.
  intros code. unfold staged_performance_failure. destruct (DeploymentHostCompatibilityV1_new _ _ _);
    [apply performance_failure_code|by intros [= <-]].
Qed.

Lemma platform_failure_code platform authorization : blocker_or_none (platform_failure platform authorization).
Proof.
  intros code. unfold platform_failure.
  destruct (identity_differs _ _); [by intros [= <-]|]. destruct (interface_unsupported _ _); [by intros [= <-]|].
  destruct (xdp_not_empty _); [by intros [= <-]|]. destruct (tc_not_empty _); [by intros [= <-]|].
  destruct (platform_blocked _); by intros [= <-].
Qed.

Section answers.
Context {W : Type} `{DeploymentPorts W}.
Implicit Types (w : W) (out : W * gate_outcome).

Definition answers out : Prop := ∃ r, out.2 = Ok r.

Lemma or_blocked_answers {A} (answer : W * result DeploymentIoError A) blocked k :
  (∃ r, blocked = Ok r) → (∀ w value, answer = (w, Ok value) → answers (k w value)) → answers (or_blocked answer blocked k).
Proof. intros Hb Hk. destruct answer as [w [value|error]]; cbn; [by apply Hk|done]. Qed.

Lemma unless_failed_answers w failure blocked k :
  blocker_or_none failure → (∀ code, contains_code BLOCKER_CODES code = true → ∃ r, blocked code = Ok r) →
  (failure = None → answers k) → answers (unless_failed w failure blocked k).
Proof. intros Hf Hb Hk. destruct failure as [code|]; cbn; [by apply Hb, Hf|by apply Hk]. Qed.

Lemma check_answers (b : bool) out k : (b = true → answers out) → (b = false → answers k) → answers (if b then out else k).
Proof. destruct b; auto. Qed.

Lemma derive_passed_answers w command artifact gates at_ms :
  at_ms ≠ 0 → DeploymentArtifactIdentityV1_validate artifact = Ok tt →
  command ≠ CommandInspect → gates = staging_passed →
  answers (w, gate_error (DeploymentGateReportV1_derive command artifact None gates [] None at_ms)).
Proof.
  intros Hat Ha Hc ->. unfold DeploymentGateReportV1_derive. rewrite Ha. cbn [mbind result_bind].
  assert (DeploymentGateSummariesV1_validate staging_passed = Ok tt) as -> by reflexivity.
  cbn [mbind result_bind]. destruct (Z.eqb_spec at_ms 0); [done|]. destruct command; [| |done]; eexists; reflexivity.
Qed.

(** A plan can be made for an interface that passed every check. *)
Lemma canary_report_answers w authorization platform artifact at_ms :
  at_ms ≠ 0 → DeploymentArtifactIdentityV1_validate artifact = Ok tt →
  DeploymentAuthorizationV1_validate_for authorization at_ms artifact = Ok tt →
  canary_platform platform authorization → answers (w, canary_report authorization platform artifact at_ms).
Proof.
  intros Hat Ha Hauth Hp. destruct Hp as [Hname Hindex _ _ _ (Hkind & Hup & Hop & _) _ _ _ _ _ _ _].
  unfold DeploymentAuthorizationV1_validate_for in Hauth. apply bind_Ok in Hauth as ([] & Hat' & Hauth).
  apply bind_Ok in Hauth as ([] & _ & Hauth). destruct (bool_decide _) eqn:Hcommit; [|done]. clear Hauth.
  apply bool_decide_eq_true in Hcommit. unfold DeploymentAuthorizationV1_validate_at in Hat'.
  apply bind_Ok in Hat' as ([] & Hs & _). pose proof Hs as Hstructure.
  unfold DeploymentAuthorizationV1_validate_structure in Hs. apply bind_Ok in Hs as (lifetime & _ & Hs).
  destruct (_ || _)%bool eqn:Hids; [done|]. boolify. unfold DeploymentAuthorizedInterfaceV1_validate in Hs.
  destruct (_ || _)%bool eqn:Hi in Hs; [done|]. clear Hs. boolify.
  set (summary := mkDeploymentInterfaceSummaryV1 (as_str (dl_interface_name platform)) (dl_ifindex platform)
                    (dl_kind platform) LinkUp LinkUp).
  assert (DeploymentInterfaceSummaryV1_validate summary = Ok tt) as Hsummary.
  { unfold DeploymentInterfaceSummaryV1_validate. cbn. rewrite Hname, Hindex.
    repeat match goal with Hb : _ = true |- _ => rewrite Hb | Hb : _ = false |- _ => rewrite Hb end. done. }
  assert (DeploymentInterfaceSummaryV1_new (as_str (dl_interface_name platform)) (dl_ifindex platform)
            (dl_kind platform) (dl_administrative_up platform) (dl_operational_up platform) = Ok summary) as Hnew.
  { unfold DeploymentInterfaceSummaryV1_new. rewrite Hup, Hop. cbn [negb orb]. fold summary. by rewrite Hsummary. }
  set (plan := mkCanaryPlanV1 DEPLOYMENT_SCHEMA_VERSION false (du_authorization_id authorization)
                  (du_artifact_commit_sha authorization) summary XdpNative true true true
                  REQUIRED_SNAPSHOTS CANARY_MAX_OBSERVATION_MS STOP_CONDITIONS ROLLBACK_REQUIREMENTS
                  [] sorted_warning_codes).
  assert (CanaryPlanV1_validate plan = Ok tt) as Hplan.
  { unfold CanaryPlanV1_validate, plan. cbn [cp_schema_version cp_executable cp_authorization_id
      cp_artifact_commit_sha cp_interface cp_xdp_ingress_mode cp_tc_egress_hook cp_no_replace
      cp_reject_foreign_or_unknown_state cp_required_snapshots cp_maximum_observation_duration_ms
      cp_stop_conditions cp_rollback_requirements cp_blocker_codes cp_warning_codes].
    rewrite Hsummary. cbn [ds_kind summary]. rewrite Hkind. rewrite !bool_decide_eq_true_2 by done.
    repeat match goal with Hb : is_lower_hex_text _ _ = true |- _ => rewrite Hb end. done. }
  assert (CanaryPlanV1_new authorization summary = Ok plan) as Hmake.
  { unfold CanaryPlanV1_new. rewrite Hstructure, Hsummary. cbn [mbind result_bind ds_kind ds_name ds_ifindex summary].
    rewrite Hkind, Hname, Hindex, Z.eqb_refl.
    match goal with Hk : di_kind _ = Physical |- _ => rewrite Hk end.
    rewrite !bool_decide_eq_true_2 by done. cbn [negb orb]. fold plan.
    unfold plan in Hplan |- *. unfold summary in Hplan |- *. rewrite Hkind, Hname, Hindex in Hplan. 
    rewrite ?Hkind, ?Hname, ?Hindex. by rewrite Hplan. }
  unfold answers, canary_report. cbn [snd]. rewrite Hnew. cbn [mbind result_bind]. rewrite Hmake.
  cbn [mbind result_bind]. set (warned := map (λ code, mkDeploymentFindingV1 code DeploymentWarning)
    [DG_REAL_JOURNALD_UNVERIFIED; DG_NATIVE_XDP_UNVERIFIED; DG_WORKLOAD_PERFORMANCE_UNVERIFIED]).
  change (∃ r, gate_error (DeploymentGateReportV1_derive CommandInspect artifact (Some summary) inspect_passed
                             warned (Some plan) at_ms) = Ok r).
  unfold DeploymentGateReportV1_derive. rewrite Ha. cbn [mbind result_bind].
  assert (DeploymentGateSummariesV1_validate inspect_passed = Ok tt) as -> by reflexivity.
  assert (try_for_each DeploymentFindingV1_validate warned = Ok tt) as -> by (vm_compute; reflexivity).
  cbn [mbind result_bind]. destruct (Z.eqb_spec at_ms 0); [done|]. cbv zeta.
  assert (existsb (λ finding, bool_decide (df_severity finding = DeploymentBlocker))
            (dedup (sort_by deployment_finding_cmp warned)) || prevents_positive_decision inspect_passed = false)
    as -> by (vm_compute; reflexivity).
  unfold inspect_decision. cbn [ok_or mbind result_bind]. rewrite Hsummary. cbn [mbind result_bind].
  rewrite Hplan. cbn [mbind result_bind]. assert (is_inspect_positive inspect_passed = true) as -> by reflexivity.
  cbn [cp_artifact_commit_sha cp_interface plan]. rewrite !bool_decide_eq_true_2 by done. cbn. eauto.
Qed.

Ltac answer :=
  repeat match goal with
  | |- answers (or_blocked _ _ _) => apply or_blocked_answers; [apply blocked_report_answers; (done || auto)|intros]
  | |- answers (unless_failed _ _ _ _) =>
      apply unless_failed_answers; [|intros; apply blocked_report_answers; (done || auto)|intros]
  | |- answers (if _ then (_, blocked_report _ _ _ _ _) else _) =>
      apply check_answers; [intros; apply blocked_report_answers; (done || auto)|intros]
  | |- blocker_or_none (authorization_failure _ _ _) => apply authorization_failure_code
  | |- blocker_or_none (staged_performance_failure _ _ _) => apply staged_performance_failure_code
  | |- blocker_or_none (performance_failure _ _ _ _) => apply performance_failure_code
  | |- blocker_or_none (platform_failure _ _) => apply platform_failure_code
  end.

Ltac valid := boolify; by apply is_ok_unit.

Lemma staging_answers w bundle_path staging_root at_ms :
  captured_at_unix_ms w = Ok at_ms → at_ms ≠ 0 → answers (staging w bundle_path staging_root).
Proof.
  intros Hclock Hat. unfold staging. rewrite Hclock. answer; try valid. apply derive_passed_answers; done || valid.
Qed.

Lemma inspect_answers w at_ms :
  captured_at_unix_ms w = Ok at_ms → at_ms ≠ 0 → answers (gate_inspect w).
Proof.
  intros Hclock Hat. unfold gate_inspect. rewrite Hclock. answer; try valid.
  apply canary_report_answers; [done|valid|by apply authorization_failure_None|by apply platform_failure_None].
Qed.

(** The identities of the installed layout and of its journal are valid. *)
Definition installed_identities_valid : Prop :=
  (∀ ownership, answered inspect_installed_ownership ownership →
     DeploymentArtifactIdentityV1_validate (io_artifact ownership) = Ok tt) ∧
  (∀ layout, answered inspect_installed_layout layout →
     DeploymentArtifactIdentityV1_validate (ls_artifact layout) = Ok tt).

Lemma installed_answers w at_ms :
  captured_at_unix_ms w = Ok at_ms → at_ms ≠ 0 → installed_identities_valid → answers (installed w).
Proof.
  intros Hclock Hat [Hownership Hlayout]. unfold installed. rewrite Hclock. answer.
  all: try (eapply Hownership; eexists _, _; eassumption).
  all: try (eapply Hlayout; eexists _, _; eassumption).
  apply derive_passed_answers; [done| |done|done]. eapply Hlayout; eexists _, _; eassumption.
Qed.

(** A layout with an invalid identity ends the command without a report, unlike the
    inspection of the same layout. *)
Lemma installed_invalid_artifact w w1 w2 at_ms ownership layout :
  captured_at_unix_ms w = Ok at_ms → inspect_installed_ownership w = (w1, Ok ownership) →
  inspect_installed_layout w1 = (w2, Ok layout) →
  is_ok (DeploymentArtifactIdentityV1_validate (ls_artifact layout)) = false →
  installed w = (w2, Err ServiceInvalidReport) ∧ (at_ms ≠ 0 → answers (gate_inspect w)).
Proof.
  intros Hclock Ho Hl Hinvalid. split; [|intros; by eapply inspect_answers].
  unfold installed. rewrite Hclock, Ho. cbn [or_blocked]. rewrite Hl. cbn [or_blocked]. rewrite Hinvalid.
  cbn [negb orb]. f_equal. unfold blocked_report. cbn [mbind result_bind].
  assert (DeploymentFindingV1_blocker DG_ARTIFACT_MANIFEST = Ok (mkDeploymentFindingV1 DG_ARTIFACT_MANIFEST DeploymentBlocker))
    as -> by reflexivity.
  cbn [mbind result_bind]. unfold DeploymentGateReportV1_derive.
  by destruct (DeploymentArtifactIdentityV1_validate (ls_artifact layout)).
Qed.

(** *** Exit codes *)
Definition run_command w (command : DeploymentCliCommand) : W * gate_outcome :=
  match command with
  | CliStaging bundle root => staging w bundle root
  | CliInstalled => installed w
  | CliInspect => gate_inspect w
  end.

Lemma exit_success `{DeploymentJson} w command format :
  ro_exit_code (execute_deployment_command w command format).2 = EXIT_DEPLOYMENT_SUCCESS →
  ∃ r, ready (run_command w command) r.
Proof.
  unfold execute_deployment_command. fold (run_command w command).
  destruct (run_command w command) as [w' [report|error]]; [|done].
  cbn [snd]. unfold render_deployment_report, ready.
  destruct (match format with CliJson => _ | CliText => _ end) as [stdout|]; [|done]. cbn [mbind result_bind].
  destruct (_ <=? _); [done|]. destruct (_ <? _); [done|]. cbn. intros Hexit. exists report. split; [done|].
  intros Hblocked. by rewrite Hblocked in Hexit.
Qed.
End answers.

(** A report that was derived is accepted. *)
Lemma derived_valid command artifact interface gates findings plan at_ms r :
  DeploymentGateReportV1_derive command artifact interface gates findings plan at_ms = Ok r →
  DeploymentGateReportV1_validate r command = Ok tt.
Proof.
  intros Hd. apply gate_report_correct. exists findings. pose proof Hd as Hr.
  apply derive_Ok in Hr as (Hr & _ & _). rewrite Hr. cbn. rewrite Hd, <-Hr. done.
Qed.

Lemma blocked_valid command artifact slot code at_ms r :
  blocked_report command artifact slot code at_ms = Ok r → DeploymentGateReportV1_validate r command = Ok tt.
Proof.
  unfold blocked_report. intros Hr%gate_error_Ok.
  apply bind_Ok in Hr as (a & _ & Hr). apply bind_Ok in Hr as (finding & _ & Hr). by eapply derived_valid.
Qed.

Lemma canary_valid authorization platform artifact at_ms r :
  canary_report authorization platform artifact at_ms = Ok r → DeploymentGateReportV1_validate r CommandInspect = Ok tt.
Proof.
  unfold canary_report. intros Hr%gate_error_Ok. apply bind_Ok in Hr as (interface & _ & Hr).
  apply bind_Ok in Hr as (plan & _ & Hr). apply bind_Ok in Hr as (f1 & _ & Hr).
  apply bind_Ok in Hr as (f2 & _ & Hr). apply bind_Ok in Hr as (f3 & _ & Hr). by eapply derived_valid.
Qed.

Section valid.
Context {W : Type} `{DeploymentPorts W}.
Implicit Types (w : W) (out : W * gate_outcome).

(** Every report the command can end with is one its validation accepts. *)
Definition reports_valid (command : DeploymentCommandV1) out : Prop :=
  ∀ r, out.2 = Ok r → DeploymentGateReportV1_validate r command = Ok tt.

Lemma or_blocked_valid {A} command (answer : W * result DeploymentIoError A) artifact slot code at_ms k :
  (∀ w value, reports_valid command (k w value)) →
  reports_valid command (or_blocked answer (blocked_report command artifact slot code at_ms) k).
Proof. intros Hk. destruct answer as [w [value|error]]; cbn; [apply Hk|]. intros r. apply blocked_valid. Qed.

Lemma unless_failed_valid command w failure artifact slot at_ms k :
  reports_valid command k →
  reports_valid command (unless_failed w failure (λ code, blocked_report command artifact slot code at_ms) k).
Proof. intros Hk. destruct failure as [code|]; cbn; [|done]. intros r. apply blocked_valid. Qed.

Lemma check_valid command (b : bool) w artifact slot code at_ms k :
  reports_valid command k →
  reports_valid command (if b then (w, blocked_report command artifact slot code at_ms) else k).
Proof. intros Hk. destruct b; [|done]. intros r. apply blocked_valid. Qed.

Lemma derive_valid w command artifact interface gates findings plan at_ms :
  reports_valid command
    (w, gate_error (DeploymentGateReportV1_derive command artifact interface gates findings plan at_ms)).
Proof. intros r Hr%gate_error_Ok. by eapply derived_valid. Qed.

Lemma canary_report_valid w authorization platform artifact at_ms :
  reports_valid CommandInspect (w, canary_report authorization platform artifact at_ms).
Proof. intros r. apply canary_valid. Qed.

Lemma error_valid w command error : reports_valid command (w, Err error).
Proof. by intros r. Qed.

Create HintDb gate discriminated.
#[local] Hint Resolve or_blocked_valid unless_failed_valid check_valid derive_valid canary_report_valid error_valid : gate.

Lemma staging_valid w bundle root : reports_valid CommandStaging (staging w bundle root).
Proof. unfold staging. destruct (captured_at_unix_ms w); cbv zeta; auto 20 with gate. Qed.

Lemma installed_valid w : reports_valid CommandInstalled (installed w).
Proof. unfold installed. destruct (captured_at_unix_ms w); cbv zeta; auto 20 with gate. Qed.

Lemma inspect_valid w : reports_valid CommandInspect (gate_inspect w).
Proof. unfold gate_inspect. destruct (captured_at_unix_ms w); cbv zeta; auto 20 with gate. Qed.
End valid.

(** ** A deployment that is ready *)
Module GateExample.
Definition ifname : InterfaceName := mkInterfaceName "eth0".
Definition preflight : PreflightReport :=
  mkPreflightReport Blocked
    (mkInterfaceInspection (mkInterfaceRef ifname 2) Physical true true None None [] false true)
    (mkKernelInspection "x86_64" "6.8.0" true true true true)
    (mkBpfInspection true true PinRootAbsent AttachmentEmpty AttachmentEmpty [] [] (mkMemlockInspection None None 0 true))
    [mkPreflightFinding PF_LIVE_INTERFACE Blocker "live"].
Definition platform : DeploymentPlatformSnapshotV1 :=
  mkDeploymentPlatformSnapshotV1 preflight ifname 2 Physical true true None (DeploymentExample.hexes 64) "veth"
    (DeploymentExample.hexes 64) (DeploymentExample.hexes 64) false false false false false false true true 4 true
    DeploymentExample.host.
Definition layout (artifact : DeploymentArtifactIdentityV1) : LayoutSnapshotV1 := mkLayoutSnapshotV1 artifact [] false.

(** The world is the platform; it is 1.5 seconds past the epoch. *)
#[global] Instance ports : DeploymentPorts DeploymentPlatformSnapshotV1 := {|
  validate_staging_root w _ := (w, Ok tt);
  inspect_bundle w _ := (w, Ok (mkBundleSnapshotV1 DeploymentExample.artifact []));
  inspect_staged_layout w _ := (w, Ok (layout DeploymentExample.artifact));
  inspect_staged_service w _ := (w, Ok (mkServiceUnitSnapshotV1 true));
  load_staged_authorization w _ := (w, Ok DeploymentExample.authorization);
  load_staged_performance w _ := (w, Ok DeploymentExample.evidence);
  inspect_staged_prerequisites w _ := (w, Ok (mkDeploymentPrerequisitesV1 true true));
  inspect_installed_ownership w :=
    (w, Ok (mkInstalledOwnershipSnapshotV1 (DeploymentExample.hexes 32) (DeploymentExample.hexes 32) DeploymentExample.artifact));
  inspect_installed_layout w := (w, Ok (layout DeploymentExample.artifact));
  inspect_installed_service w := (w, Ok (mkServiceUnitSnapshotV1 true));
  load_installed_authorization w := (w, Ok DeploymentExample.authorization);
  load_installed_performance w := (w, Ok DeploymentExample.evidence);
  inspect_installed_prerequisites w := (w, Ok (mkDeploymentPrerequisitesV1 true true));
  inspect_authorized_interface w _ := (w, Ok w);
  gate_wall_time_ns _ := 1500000000;
|}.

#[global] Instance json : DeploymentJson := {|
  report_json _ := Some "{}"; interface_json _ := Some "{}"; findings_json _ := Some "[]"; plan_json _ := Some "{}";
|}.

Lemma identities_valid : installed_identities_valid (W := DeploymentPlatformSnapshotV1).
Proof. split; intros x (w & w' & [= <- <-]); reflexivity. Qed.
End GateExample.

(** ** Properties *)

(** C19: a canary is called ready only when it is: [l2-loop-deploycheck inspect]
    exits with success only if the ports answered with an installation whose journal,
    layout, artifact and authorization agree, a service unit and prerequisites that
    are in order, performance evidence of this artifact on this host that assesses
    as passed, and the very interface of the authorization, physical, up, idle and
    without any XDP program, clsact or TC filter; its report then carries a plan for
    exactly that interface which cannot be executed. *)
Theorem canary_ready_sound {W : Type} `{DeploymentPorts W} `{DeploymentJson} (w : W) (format : DeploymentCliFormat)
    (Hexit : ro_exit_code (execute_deployment_command w CliInspect format).2 = EXIT_DEPLOYMENT_SUCCESS) :
  ∃ r at_ms ownership layout service authorization performance platform prerequisites plan,
    (gate_inspect w).2 = Ok r ∧
    captured_at_unix_ms w = Ok at_ms ∧ dp_decision r = PhysicalCanaryReady ∧
    dp_captured_at_unix_ms r = at_ms ∧ dp_artifact r = ls_artifact layout ∧
    ls_artifact layout = io_artifact ownership ∧
    du_authorization_id authorization = io_authorization_id ownership ∧
    inspect_run w ownership layout service authorization performance platform prerequisites ∧
    release_checked service prerequisites (ls_artifact layout) authorization performance (dl_host platform) at_ms ∧
    canary_platform platform authorization ∧
    dp_canary_plan r = Some plan ∧ cp_executable plan = false ∧
    cp_authorization_id plan = du_authorization_id authorization ∧
    ds_name (cp_interface plan) = di_name (du_interface authorization) ∧
    ds_ifindex (cp_interface plan) = di_ifindex (du_interface authorization).
Proof.
  destruct (exit_success _ _ _ Hexit) as [r Hr]. exists r. pose proof (proj1 Hr) as Hok.
  apply inspect_ready in Hr as (at_ms & ownership & layout & service & authorization & performance & platform & prerequisites & plan & Hr).
  by exists at_ms, ownership, layout, service, authorization, performance, platform, prerequisites, plan.
Qed.

Lemma canary_ready_sound_witness :
  ∃ ownership layout service authorization performance platform prerequisites,
    canary_platform platform authorization ∧
    inspect_run GateExample.platform ownership layout service authorization performance platform prerequisites.
Proof.
  destruct (canary_ready_sound GateExample.platform CliText)
    as (r & at_ms & ownership & layout & service & authorization & performance & platform & prerequisites & plan & Hready);
    [vm_compute; reflexivity|].
  exists ownership, layout, service, authorization, performance, platform, prerequisites.
  destruct Hready as (_ & _ & _ & _ & _ & _ & _ & Hrun & _ & Hplatform & _). by split.
Defined.

(** Whatever the ports answer, a command with a usable clock ends with a
    report that its own validation accepts: one that blocks on the first failed
    check, or a positive one. *)
Lemma gate_always_answers {W : Type} `{DeploymentPorts W} (w : W) (at_ms : Z)
    (Hclock : captured_at_unix_ms w = Ok at_ms) (Hat : at_ms ≠ 0) (Hinstalled : installed_identities_valid (W := W)) :
  (∀ bundle root, ∃ r, (staging w bundle root).2 = Ok r ∧ DeploymentGateReportV1_validate r CommandStaging = Ok tt) ∧
  (∃ r, (installed w).2 = Ok r ∧ DeploymentGateReportV1_validate r CommandInstalled = Ok tt) ∧
  (∃ r, (gate_inspect w).2 = Ok r ∧ DeploymentGateReportV1_validate r CommandInspect = Ok tt).
Proof.
  split; [intros bundle root|split].
  - destruct (staging_answers w bundle root at_ms Hclock Hat) as [r Hr]. exists r. split; [done|]. by eapply staging_valid.
  - destruct (installed_answers w at_ms Hclock Hat Hinstalled) as [r Hr]. exists r. split; [done|]. by eapply installed_valid.
  - destruct (inspect_answers w at_ms Hclock Hat) as [r Hr]. exists r. split; [done|]. by eapply inspect_valid.
Qed.

Lemma gate_always_answers_witness :
  ∃ r, (installed GateExample.platform).2 = Ok r ∧ DeploymentGateReportV1_validate r CommandInstalled = Ok tt.
Proof.
  destruct (gate_always_answers GateExample.platform 1500) as (_ & Hinstalled & _);
    [vm_compute; reflexivity|discriminate|exact GateExample.identities_valid|exact Hinstalled].
Defined.
