(* ===== verification/Installation.v ===== *)
(** Installation contracts of [l2-loop-core] ([installation.rs]): the installation
    authorization, findings, and the report with the decision derived from its
    command and findings. *)
From S2P Require Import Prelude Domain Text Preflight Deployment.

Definition INSTALLATION_SCHEMA_VERSION : Z := 1.
Definition INSTALL_AUTHORIZATION_MAX_LIFETIME_MS : Z := 60 * 60 * 1000.

Definition GI_AUTH_SCHEMA : string := "GI_AUTH_SCHEMA".
Definition GI_AUTH_EXPIRED : string := "GI_AUTH_EXPIRED".
Definition GI_AUTH_HOST : string := "GI_AUTH_HOST".
Definition GI_AUTH_ARTIFACT : string := "GI_AUTH_ARTIFACT".
Definition GI_BUNDLE_INVALID : string := "GI_BUNDLE_INVALID".
Definition GI_DESTINATION_FOREIGN : string := "GI_DESTINATION_FOREIGN".
Definition GI_METADATA_UNSAFE : string := "GI_METADATA_UNSAFE".
Definition GI_TRANSACTION_CONFLICT : string := "GI_TRANSACTION_CONFLICT".
Definition GI_WRITE_FAILED : string := "GI_WRITE_FAILED".
Definition GI_ROLLBACK_IDENTITY : string := "GI_ROLLBACK_IDENTITY".
Definition GI_LAYOUT_VERIFY : string := "GI_LAYOUT_VERIFY".
Definition GI_SERVICE_STATE : string := "GI_SERVICE_STATE".
Definition GI_SERVICE_LIFECYCLE : string := "GI_SERVICE_LIFECYCLE".
Definition GI_PHYSICAL_BLOCKED : string := "GI_PHYSICAL_BLOCKED".
Definition GI_INTERNAL : string := "GI_INTERNAL".

Definition INSTALL_FINDING_CODES : list string :=
  [GI_AUTH_SCHEMA; GI_AUTH_EXPIRED; GI_AUTH_HOST; GI_AUTH_ARTIFACT; GI_BUNDLE_INVALID;
   GI_DESTINATION_FOREIGN; GI_METADATA_UNSAFE; GI_TRANSACTION_CONFLICT; GI_WRITE_FAILED;
   GI_ROLLBACK_IDENTITY; GI_LAYOUT_VERIFY; GI_SERVICE_STATE; GI_SERVICE_LIFECYCLE; GI_PHYSICAL_BLOCKED;
   GI_INTERNAL].

Inductive InstallContractError : Type :=
| InstallInvalidAuthorization | InstallInvalidFinding | InstallInvalidReport.

Inductive InstallOperationV1 : Type := OperationInstall | OperationUpgrade | OperationRollback.
Inductive InstallCommandV1 : Type := CommandPlan | CommandApply | CommandStatus | CommandRollback.
Inductive InstallDecisionV1 : Type :=
| InstallBlocked | InstallPlanReady | InstalledVerified | InstallRolledBack.
Inductive InstallFindingSeverityV1 : Type := InstallBlocker | InstallWarning.

#[export] Instance InstallOperationV1_eq_dec : EqDecision InstallOperationV1.
Proof. solve_decision. Defined.
#[export] Instance InstallDecisionV1_eq_dec : EqDecision InstallDecisionV1.
Proof. solve_decision. Defined.
#[export] Instance InstallFindingSeverityV1_eq_dec : EqDecision InstallFindingSeverityV1.
Proof. solve_decision. Defined.

(** ** The authorization *)
Record InstallAuthorizationV1 : Type := mkInstallAuthorizationV1 {
  iu_schema_version : Z;
  iu_authorization_id : string;
  iu_transaction_id : string;
  iu_operation : InstallOperationV1;
  iu_artifact_commit_sha : string;
  iu_bundle_manifest_sha256 : string;
  iu_host_identity_sha256 : string;
  iu_deployment_authorization_sha256 : string;
  iu_performance_evidence_sha256 : string;
  iu_issued_at_unix_ms : Z;
  iu_expires_at_unix_ms : Z;
  iu_service_enable : bool;
  iu_service_start : bool;
  iu_physical_attach : bool;
}.

Definition InstallAuthorizationV1_validate_structure (self : InstallAuthorizationV1)
    : result InstallContractError unit :=
  lifetime ← ok_or (checked_sub (iu_expires_at_unix_ms self) (iu_issued_at_unix_ms self))
               InstallInvalidAuthorization;
  if negb (iu_schema_version self =? INSTALLATION_SCHEMA_VERSION)
     || negb (is_lower_hex_text (iu_authorization_id self) 32)
     || negb (is_lower_hex_text (iu_transaction_id self) 32)
     || negb (is_lower_hex_text (iu_artifact_commit_sha self) 40)
     || negb (is_lower_hex_text (iu_bundle_manifest_sha256 self) 64)
     || negb (is_lower_hex_text (iu_host_identity_sha256 self) 64)
     || negb (is_lower_hex_text (iu_deployment_authorization_sha256 self) 64)
     || negb (is_lower_hex_text (iu_performance_evidence_sha256 self) 64)
     || (iu_issued_at_unix_ms self =? 0)
     || (lifetime =? 0)
     || (INSTALL_AUTHORIZATION_MAX_LIFETIME_MS <? lifetime)
     || iu_service_enable self
     || iu_service_start self
     || iu_physical_attach self
  then Err InstallInvalidAuthorization else Ok tt.

Definition InstallAuthorizationV1_validate_at (self : InstallAuthorizationV1) (captured_at_unix_ms : Z)
    : result InstallContractError unit :=
  _ ← InstallAuthorizationV1_validate_structure self;
  if negb ((iu_issued_at_unix_ms self <=? captured_at_unix_ms)
           && (captured_at_unix_ms <=? iu_expires_at_unix_ms self))
  then Err InstallInvalidAuthorization else Ok tt.

Definition InstallAuthorizationV1_validate_for (self : InstallAuthorizationV1) (captured_at_unix_ms : Z)
    (operation : InstallOperationV1) (artifact : DeploymentArtifactIdentityV1)
    (bundle_manifest_sha256 host_identity_sha256 deployment_authorization_sha256
     performance_evidence_sha256 : string) : result InstallContractError unit :=
  _ ← InstallAuthorizationV1_validate_at self captured_at_unix_ms;
  _ ← map_err (λ _, InstallInvalidAuthorization) (DeploymentArtifactIdentityV1_validate artifact);
  if negb (bool_decide (iu_operation self = operation))
     || negb (bool_decide (iu_artifact_commit_sha self = da_commit_sha artifact))
     || negb (bool_decide (iu_bundle_manifest_sha256 self = bundle_manifest_sha256))
     || negb (bool_decide (iu_host_identity_sha256 self = host_identity_sha256))
     || negb (bool_decide (iu_deployment_authorization_sha256 self = deployment_authorization_sha256))
     || negb (bool_decide (iu_performance_evidence_sha256 self = performance_evidence_sha256))
     || negb (is_lower_hex_text bundle_manifest_sha256 64)
     || negb (is_lower_hex_text host_identity_sha256 64)
     || negb (is_lower_hex_text deployment_authorization_sha256 64)
     || negb (is_lower_hex_text performance_evidence_sha256 64)
  then Err InstallInvalidAuthorization else Ok tt.

(** ** Findings *)
Record InstallFindingV1 : Type := mkInstallFindingV1 {
  if_code : string;
  if_severity : InstallFindingSeverityV1;
}.

#[export] Instance InstallFindingV1_eq_dec : EqDecision InstallFindingV1.
Proof. solve_decision. Defined.

Definition InstallFindingV1_validate (self : InstallFindingV1) : result InstallContractError unit :=
  if negb (contains_code INSTALL_FINDING_CODES (if_code self)) then Err InstallInvalidFinding else Ok tt.

Definition InstallFindingV1_new (code : string) (severity : InstallFindingSeverityV1)
    : result InstallContractError InstallFindingV1 :=
  let finding := mkInstallFindingV1 code severity in
  _ ← InstallFindingV1_validate finding;
  Ok finding.

Definition InstallFindingV1_blocker (code : string) : result InstallContractError InstallFindingV1 :=
  InstallFindingV1_new code InstallBlocker.
Definition InstallFindingV1_warning (code : string) : result InstallContractError InstallFindingV1 :=
  InstallFindingV1_new code InstallWarning.

Definition install_severity_index (s : InstallFindingSeverityV1) : Z :=
  match s with InstallBlocker => 0 | InstallWarning => 1 end.

Definition install_finding_cmp (left right : InstallFindingV1) : comparison :=
  match install_severity_index (if_severity left) ?= install_severity_index (if_severity right) with
  | Eq => String.compare (if_code left) (if_code right)
  | ordering => ordering
  end.

Definition sort_and_deduplicate (findings : list InstallFindingV1) : list InstallFindingV1 :=
  dedup (sort_by install_finding_cmp findings).

(** ** The report *)
Record InstallReportV1 : Type := mkInstallReportV1 {
  ip_schema_version : Z;
  ip_decision : InstallDecisionV1;
  ip_command : InstallCommandV1;
  ip_operation : InstallOperationV1;
  ip_authorization_id : string;
  ip_transaction_id : string;
  ip_artifact : DeploymentArtifactIdentityV1;
  ip_findings : list InstallFindingV1;
  ip_captured_at_unix_ms : Z;
  ip_mutations_performed : bool;
}.

Definition command_matches_operation (command : InstallCommandV1) (operation : InstallOperationV1) : bool :=
  match command with
  | CommandPlan | CommandApply | CommandStatus =>
      match operation with OperationInstall | OperationUpgrade => true | OperationRollback => false end
  | CommandRollback => bool_decide (operation = OperationRollback)
  end.

Definition positive_decision (command : InstallCommandV1) (mutations_performed : bool)
    : result InstallContractError InstallDecisionV1 :=
  match command, mutations_performed with
  | CommandPlan, false => Ok InstallPlanReady
  | CommandApply, true | CommandStatus, false => Ok InstalledVerified
  | CommandRollback, true => Ok InstallRolledBack
  | _, _ => Err InstallInvalidReport
  end.

Definition has_install_blocker (findings : list InstallFindingV1) : bool :=
  existsb (λ finding, bool_decide (if_severity finding = InstallBlocker)) findings.

Definition InstallReportV1_validate (self : InstallReportV1) : result InstallContractError unit :=
  if negb (ip_schema_version self =? INSTALLATION_SCHEMA_VERSION)
     || negb (is_lower_hex_text (ip_authorization_id self) 32)
     || negb (is_lower_hex_text (ip_transaction_id self) 32)
     || negb (is_ok (DeploymentArtifactIdentityV1_validate (ip_artifact self)))
     || (ip_captured_at_unix_ms self =? 0)
     || negb (command_matches_operation (ip_command self) (ip_operation self))
  then Err InstallInvalidReport
  else
    _ ← try_for_each InstallFindingV1_validate (ip_findings self);
    if negb (bool_decide (sort_and_deduplicate (ip_findings self) = ip_findings self))
    then Err InstallInvalidReport
    else if has_install_blocker (ip_findings self) then
      if negb (bool_decide (ip_decision self = InstallBlocked)) then Err InstallInvalidReport else Ok tt
    else
      positive ← positive_decision (ip_command self) (ip_mutations_performed self);
      if negb (bool_decide (ip_decision self = positive)) then Err InstallInvalidReport else Ok tt.

Definition InstallReportV1_derive (command : InstallCommandV1) (operation : InstallOperationV1)
    (authorization_id transaction_id : string) (artifact : DeploymentArtifactIdentityV1)
    (findings : list InstallFindingV1) (captured_at_unix_ms : Z) (mutations_performed : bool)
    : result InstallContractError InstallReportV1 :=
  if negb (command_matches_operation command operation) then Err InstallInvalidReport
  else
    _ ← try_for_each InstallFindingV1_validate findings;
    let findings := sort_and_deduplicate findings in
    decision ← (if has_install_blocker findings then Ok InstallBlocked
                else positive_decision command mutations_performed);
    let report := mkInstallReportV1 INSTALLATION_SCHEMA_VERSION decision command operation authorization_id
                    transaction_id artifact findings captured_at_unix_ms mutations_performed in
    _ ← InstallReportV1_validate report;
    Ok report.

(** ** Derivation and validation agree *)
Lemma install_finding_cmp_antisym x y : install_finding_cmp y x = CompOpp (install_finding_cmp x y).
Proof.
  unfold install_finding_cmp. rewrite (Z.compare_antisym (install_severity_index (if_severity x))).
  destruct (_ ?= _); cbn; [apply String.compare_antisym|done..].
Qed.

Lemma install_finding_cmp_Eq x y : install_finding_cmp x y = Eq → x = y.
Proof.
  destruct x as [c s], y as [c' s']. unfold install_finding_cmp. cbn.
  destruct (Z.compare_spec (install_severity_index s) (install_severity_index s')) as [Hs|?|?]; [|done..].
  intros Hc. apply String.compare_eq_iff in Hc as ->. by destruct s, s'.
Qed.

(** Validation accepts exactly the reports that derivation returns, although
    it checks them by other means; a derived report has exactly the given findings
    in strict order of severity and code, is blocked exactly when one of them is a
    blocker, and otherwise claims an installation only for a command that applied
    or inspected it, a rollback only for one that was performed, and a plan only
    when nothing was changed. *)
Theorem install_report_correct (r : InstallReportV1) :
  (InstallReportV1_validate r = Ok tt ↔
   ∃ findings, InstallReportV1_derive (ip_command r) (ip_operation r) (ip_authorization_id r)
     (ip_transaction_id r) (ip_artifact r) findings (ip_captured_at_unix_ms r) (ip_mutations_performed r) = Ok r) ∧
  (∀ findings, InstallReportV1_derive (ip_command r) (ip_operation r) (ip_authorization_id r)
     (ip_transaction_id r) (ip_artifact r) findings (ip_captured_at_unix_ms r) (ip_mutations_performed r) = Ok r →
   (∀ f, f ∈ ip_findings r ↔ f ∈ findings) ∧ Sorted (cmp_lt install_finding_cmp) (ip_findings r) ∧
   (ip_decision r = InstallBlocked ↔ ∃ f, f ∈ findings ∧ if_severity f = InstallBlocker) ∧
   match ip_decision r with
   | InstallBlocked => True
   | InstallPlanReady => ip_command r = CommandPlan ∧ ip_mutations_performed r = false
   | InstalledVerified => (ip_command r = CommandApply ∧ ip_mutations_performed r = true) ∨
                          (ip_command r = CommandStatus ∧ ip_mutations_performed r = false)
   | InstallRolledBack => ip_command r = CommandRollback ∧ ip_operation r = OperationRollback ∧
                          ip_mutations_performed r = true
   end).
Proof.
  split; [split|].
  - intros Hv. exists (ip_findings r). pose proof Hv as Hv'. unfold InstallReportV1_validate in Hv.
    inv_ok. boolify. destruct a. unfold InstallReportV1_derive.
    replace (command_matches_operation (ip_command r) (ip_operation r)) with true by done. cbn [negb].
    rewrite Ha. cbn [mbind result_bind]. cbv zeta.
    match goal with Hs : sort_and_deduplicate _ = _ |- _ => rewrite Hs end.
    assert ((if has_install_blocker (ip_findings r) then Ok InstallBlocked
             else positive_decision (ip_command r) (ip_mutations_performed r)) = Ok (ip_decision r)) as ->.
    { destruct (has_install_blocker (ip_findings r)); inv_ok; boolify; congruence. }
    cbn [mbind result_bind].
    replace (mkInstallReportV1 _ _ _ _ _ _ _ _ _ _) with r; [by rewrite Hv'|].
    destruct r; cbn in *. f_equal. lia.
  - intros [findings Hd]. unfold InstallReportV1_derive in Hd. inv_ok. rewrite Hd in Ha1. by destruct a1.
  - intros findings Hd. unfold InstallReportV1_derive in Hd. inv_ok. boolify. destruct a1.
    assert (ip_findings r = sort_and_deduplicate findings) as Hf by by rewrite <-Hd.
    rewrite Hf. split; [intros; apply elem_of_sort_dedup|].
    split; [apply sort_dedup_strict; [apply install_finding_cmp_antisym|apply install_finding_cmp_Eq]|].
    assert (has_install_blocker (sort_and_deduplicate findings) = true ↔
            ∃ f, f ∈ findings ∧ if_severity f = InstallBlocker) as Hb.
    { unfold has_install_blocker. rewrite existsb_exists. setoid_rewrite <-list_elem_of_In.
      setoid_rewrite bool_decide_eq_true. by setoid_rewrite elem_of_sort_dedup. }
    assert (ip_decision r = a0) as -> by by rewrite <-Hd.
    rewrite <-Hb. destruct (has_install_blocker _); inv_ok; [done|].
    unfold positive_decision in *. destruct (ip_command r), (ip_mutations_performed r); inv_ok; split; try done; auto.
    split_and!; try done. cbn in *. by boolify.
Qed.

Lemma install_report_correct_witness :
  ∃ r, InstallReportV1_derive CommandApply OperationInstall (DeploymentExample.hexes 32)
      (DeploymentExample.hexes 32) DeploymentExample.artifact [mkInstallFindingV1 GI_SERVICE_STATE InstallWarning]
      1500 true = Ok r ∧
    InstallReportV1_validate r = Ok tt ∧ ip_decision r = InstalledVerified.
Proof.
  destruct (InstallReportV1_derive CommandApply OperationInstall (DeploymentExample.hexes 32)
    (DeploymentExample.hexes 32) DeploymentExample.artifact [mkInstallFindingV1 GI_SERVICE_STATE InstallWarning]
    1500 true) as [r|] eqn:Hr; [|vm_compute in Hr; discriminate Hr].
  exists r. split; [done|]. destruct (install_report_correct r) as [Hv _].
  assert (ip_decision r = InstalledVerified) as Hd by (vm_compute in Hr; injection Hr as <-; reflexivity).
  split; [|exact Hd]. apply Hv. exists [mkInstallFindingV1 GI_SERVICE_STATE InstallWarning].
  vm_compute in Hr. injection Hr as <-. vm_compute. reflexivity.
Defined.
