(* ===== verification/InstallJournal.v ===== *)
(** The installation journal of [l2-loop-core] ([install_journal.rs]): the record
    that an installer writes durably before and after each of its actions, so that
    an interrupted installation can be continued or rolled back.  The journal says
    which action is next; the installer performs it and records it. *)
From S2P Require Import Prelude Domain Text Preflight Deployment Installation.

Definition INSTALL_JOURNAL_SCHEMA_VERSION : Z := 1.

Inductive InstallJournalError : Type := InvalidJournal | InvalidTransition.

Inductive InstallRoleV1 : Type :=
| EvidenceRoot | Daemon | Cli | UsrRoot | UsrBinRoot | UsrLibRoot | UsrLibexecRoot | ProductLibexecRoot
| UsrLibSystemdRoot | SystemdUnitRoot | UsrShareRoot | UsrShareDocRoot | ProductDocRoot | EtcRoot
| ConfigRoot | VarRoot | VarLibRoot | StateRoot | GatesRoot | EvidenceParent | InstallRoot
| TransactionsRoot | DeploymentChecker | Installer | HostChecker | EbpfObject | BundleManifest
| BundleChecksums | ServiceUnit | AuthorizationExample | DeploymentAuthorization | PerformanceEvidence.

#[export] Instance InstallRoleV1_eq_dec : EqDecision InstallRoleV1.
Proof. solve_decision. Defined.

Definition fixed_destination (self : InstallRoleV1) : string :=
  match self with
  | UsrRoot => "/usr"
  | UsrBinRoot => "/usr/bin"
  | UsrLibRoot => "/usr/lib"
  | UsrLibexecRoot => "/usr/libexec"
  | ProductLibexecRoot => "/usr/libexec/l2-loop"
  | UsrLibSystemdRoot => "/usr/lib/systemd"
  | SystemdUnitRoot => "/usr/lib/systemd/system"
  | UsrShareRoot => "/usr/share"
  | UsrShareDocRoot => "/usr/share/doc"
  | ProductDocRoot => "/usr/share/doc/l2-loop"
  | EtcRoot => "/etc"
  | ConfigRoot => "/etc/l2-loop"
  | VarRoot => "/var"
  | VarLibRoot => "/var/lib"
  | StateRoot => "/var/lib/l2-loop"
  | GatesRoot => "/var/lib/l2-loop/gates"
  | EvidenceParent => "/var/lib/l2-loop/evidence"
  | EvidenceRoot => "/var/lib/l2-loop/evidence/v1"
  | InstallRoot => "/var/lib/l2-loop/install"
  | TransactionsRoot => "/var/lib/l2-loop/install/transactions"
  | Cli => "/usr/bin/l2-loopctl"
  | Daemon => "/usr/libexec/l2-loop/l2-loopd"
  | DeploymentChecker => "/usr/libexec/l2-loop/l2-loop-deploycheck"
  | Installer => "/usr/libexec/l2-loop/l2-loop-install"
  | HostChecker => "/usr/libexec/l2-loop/l2-loop-hostcheck"
  | EbpfObject => "/usr/libexec/l2-loop/l2-loop-ebpf.o"
  | BundleManifest => "/usr/libexec/l2-loop/manifest.json"
  | BundleChecksums => "/usr/libexec/l2-loop/SHA256SUMS"
  | ServiceUnit => "/usr/lib/systemd/system/l2-loop.service"
  | AuthorizationExample => "/usr/share/doc/l2-loop/deployment-v1.example.json"
  | DeploymentAuthorization => "/etc/l2-loop/deployment-v1.json"
  | PerformanceEvidence => "/var/lib/l2-loop/gates/performance-v1.json"
  end.

(** In octal 0700, 0600, 0644, 0755. *)
Definition expected_mode (self : InstallRoleV1) : Z :=
  match self with
  | ConfigRoot | StateRoot | GatesRoot | EvidenceParent | EvidenceRoot | InstallRoot
  | TransactionsRoot => 448
  | DeploymentAuthorization | PerformanceEvidence => 384
  | EbpfObject | BundleManifest | BundleChecksums | ServiceUnit | AuthorizationExample => 420
  | _ => 493
  end.

Definition install_order (self : InstallRoleV1) : Z :=
  match self with
  | UsrRoot => 0 | UsrBinRoot => 1 | UsrLibRoot => 2 | UsrLibexecRoot => 3 | ProductLibexecRoot => 4
  | UsrLibSystemdRoot => 5 | SystemdUnitRoot => 6 | UsrShareRoot => 7 | UsrShareDocRoot => 8
  | ProductDocRoot => 9 | EtcRoot => 10 | ConfigRoot => 11 | VarRoot => 12 | VarLibRoot => 13
  | StateRoot => 14 | GatesRoot => 15 | EvidenceParent => 16 | EvidenceRoot => 17 | InstallRoot => 18
  | TransactionsRoot => 19 | Cli => 20 | Daemon => 21 | DeploymentChecker => 22 | Installer => 23
  | HostChecker => 24 | EbpfObject => 25 | BundleManifest => 26 | BundleChecksums => 27
  | ServiceUnit => 28 | AuthorizationExample => 29 | DeploymentAuthorization => 30
  | PerformanceEvidence => 31
  end.

Definition is_journal_retention_directory (self : InstallRoleV1) : bool :=
  match self with StateRoot | InstallRoot | TransactionsRoot => true | _ => false end.

Definition is_directory (self : InstallRoleV1) : bool := install_order self <? 20.

Inductive InstallObjectKindV1 : Type := KindDirectory | KindRegularFile.

#[export] Instance InstallObjectKindV1_eq_dec : EqDecision InstallObjectKindV1.
Proof. solve_decision. Defined.

(** ** Identities of installed objects *)
Record InstallIntendedIdentityV1 : Type := mkInstallIntendedIdentityV1 {
  ii_object_kind : InstallObjectKindV1;
  ii_sha256 : option string;
  ii_mode : Z;
  ii_uid : Z;
  ii_gid : Z;
}.

#[export] Instance InstallIntendedIdentityV1_eq_dec : EqDecision InstallIntendedIdentityV1.
Proof. solve_decision. Defined.

Definition InstallIntendedIdentityV1_validate (self : InstallIntendedIdentityV1)
    : result InstallJournalError unit :=
  let digest_valid :=
    match ii_object_kind self, ii_sha256 self with
    | KindRegularFile, Some digest => is_lower_hex_text digest 64
    | KindDirectory, None => true
    | _, _ => false
    end in
  if negb digest_valid || (4095 <? ii_mode self) then Err InvalidJournal else Ok tt.

Definition InstallIntendedIdentityV1_regular_file (sha256 : string) (mode uid gid : Z)
    : result InstallJournalError InstallIntendedIdentityV1 :=
  let identity := mkInstallIntendedIdentityV1 KindRegularFile (Some sha256) mode uid gid in
  _ ← InstallIntendedIdentityV1_validate identity;
  Ok identity.

Definition InstallIntendedIdentityV1_directory (mode uid gid : Z)
    : result InstallJournalError InstallIntendedIdentityV1 :=
  let identity := mkInstallIntendedIdentityV1 KindDirectory None mode uid gid in
  _ ← InstallIntendedIdentityV1_validate identity;
  Ok identity.

Record InstallObjectIdentityV1 : Type := mkInstallObjectIdentityV1 {
  io_kind : InstallObjectKindV1;
  io_device : Z;
  io_inode : Z;
  io_hard_links : Z;
  io_sha256 : option string;
  io_mode : Z;
  io_uid : Z;
  io_gid : Z;
}.

#[export] Instance InstallObjectIdentityV1_eq_dec : EqDecision InstallObjectIdentityV1.
Proof. solve_decision. Defined.

Definition InstallObjectIdentityV1_validate (self : InstallObjectIdentityV1)
    : result InstallJournalError unit :=
  let shape_valid :=
    match io_kind self, io_sha256 self with
    | KindRegularFile, Some digest => (io_hard_links self =? 1) && is_lower_hex_text digest 64
    | KindDirectory, None => 0 <? io_hard_links self
    | _, _ => false
    end in
  if (io_device self =? 0) || (io_inode self =? 0) || (4095 <? io_mode self) || negb shape_valid
  then Err InvalidJournal else Ok tt.

Definition InstallObjectIdentityV1_regular_file (device inode hard_links : Z) (sha256 : string)
    (mode uid gid : Z) : result InstallJournalError InstallObjectIdentityV1 :=
  let identity := mkInstallObjectIdentityV1 KindRegularFile device inode hard_links (Some sha256) mode uid gid in
  _ ← InstallObjectIdentityV1_validate identity;
  Ok identity.

Definition InstallObjectIdentityV1_directory (device inode hard_links mode uid gid : Z)
    : result InstallJournalError InstallObjectIdentityV1 :=
  let identity := mkInstallObjectIdentityV1 KindDirectory device inode hard_links None mode uid gid in
  _ ← InstallObjectIdentityV1_validate identity;
  Ok identity.

Definition matches_persistent_object (self observed : InstallObjectIdentityV1) : bool :=
  bool_decide (io_kind self = io_kind observed)
  && (io_device self =? io_device observed)
  && (io_inode self =? io_inode observed)
  && (io_mode self =? io_mode observed)
  && (io_uid self =? io_uid observed)
  && (io_gid self =? io_gid observed)
  && match io_kind self with
     | KindRegularFile => (io_hard_links self =? io_hard_links observed)
                          && bool_decide (io_sha256 self = io_sha256 observed)
     | KindDirectory => true
     end.

Definition matches_intended (self : InstallObjectIdentityV1) (intended : InstallIntendedIdentityV1) : bool :=
  bool_decide (io_kind self = ii_object_kind intended)
  && bool_decide (io_sha256 self = ii_sha256 intended)
  && (io_mode self =? ii_mode intended)
  && (io_uid self =? ii_uid intended)
  && (io_gid self =? ii_gid intended).

(** ** Entries *)
Inductive InstallPriorStateV1 : Type :=
| PriorAbsent
| PriorOwned (identity : InstallObjectIdentityV1) (backup_basename : string).

#[export] Instance InstallPriorStateV1_eq_dec : EqDecision InstallPriorStateV1.
Proof. solve_decision. Defined.

Inductive InstallJournalEntryPhaseV1 : Type := PhasePending | PhaseApplied | PhaseVerified | PhaseRolledBack.

#[export] Instance InstallJournalEntryPhaseV1_eq_dec : EqDecision InstallJournalEntryPhaseV1.
Proof. solve_decision. Defined.

Record InstallJournalEntryV1 : Type := mkInstallJournalEntryV1 {
  je_role : InstallRoleV1;
  je_fixed_path : string;
  je_intended : InstallIntendedIdentityV1;
  je_sibling_basename : option string;
  je_prior_state : InstallPriorStateV1;
  je_current_identity : option InstallObjectIdentityV1;
  je_created_parent_identity : option InstallObjectIdentityV1;
  je_phase : InstallJournalEntryPhaseV1;
}.

#[export] Instance InstallJournalEntryV1_eq_dec : EqDecision InstallJournalEntryV1.
Proof. solve_decision. Defined.

(** The bytes slash, backslash, asterisk, question mark, brackets and zero. *)
Definition safe_basename (value : string) : bool :=
  negb (bool_decide (value = ""%string)) && negb (bool_decide (value = "."%string))
  && negb (bool_decide (value = ".."%string)) && (String.length value <=? 255)%nat
  && negb (existsb (λ byte, (ascii_code byte =? 47) || (ascii_code byte =? 92) || (ascii_code byte =? 42)
        || (ascii_code byte =? 63) || (ascii_code byte =? 91) || (ascii_code byte =? 93)
        || (ascii_code byte =? 0)) (string_bytes value)).

(** A recorded parent is a valid directory of root. *)
Definition validate_parent (error : InstallJournalError) (parent : option InstallObjectIdentityV1)
    : result InstallJournalError unit :=
  match parent with
  | None => Ok tt
  | Some parent =>
      _ ← InstallObjectIdentityV1_validate parent;
      if negb (bool_decide (io_kind parent = KindDirectory)) || negb (io_uid parent =? 0)
         || negb (io_gid parent =? 0)
      then Err error else Ok tt
  end.

Definition validate_prior (self : InstallJournalEntryV1) : result InstallJournalError unit :=
  match je_prior_state self with
  | PriorAbsent => Ok tt
  | PriorOwned identity backup_basename =>
      _ ← InstallObjectIdentityV1_validate identity;
      if is_directory (je_role self)
         || negb (bool_decide (io_kind identity = KindRegularFile))
         || negb (io_mode identity =? expected_mode (je_role self))
         || negb (io_uid identity =? 0)
         || negb (io_gid identity =? 0)
         || negb (safe_basename backup_basename)
      then Err InvalidJournal else Ok tt
  end.

Definition validate_phase (self : InstallJournalEntryV1) : result InstallJournalError unit :=
  match je_phase self with
  | PhasePending =>
      if is_some (je_current_identity self) || is_some (je_created_parent_identity self)
      then Err InvalidJournal else Ok tt
  | _ =>
      current ← ok_or (je_current_identity self) InvalidJournal;
      _ ← InstallObjectIdentityV1_validate current;
      if negb (matches_intended current (je_intended self)) then Err InvalidJournal
      else validate_parent InvalidJournal (je_created_parent_identity self)
  end.

Definition InstallJournalEntryV1_validate (self : InstallJournalEntryV1) : result InstallJournalError unit :=
  _ ← InstallIntendedIdentityV1_validate (je_intended self);
  if negb (bool_decide (je_fixed_path self = fixed_destination (je_role self)))
     || negb (ii_mode (je_intended self) =? expected_mode (je_role self))
     || negb (ii_uid (je_intended self) =? 0)
     || negb (ii_gid (je_intended self) =? 0)
     || negb (bool_decide (is_directory (je_role self)
                           = bool_decide (ii_object_kind (je_intended self) = KindDirectory)))
  then Err InvalidJournal
  else if (if is_directory (je_role self)
           then is_some (je_sibling_basename self) || negb (bool_decide (je_prior_state self = PriorAbsent))
           else negb (is_some_and (je_sibling_basename self) safe_basename))
  then Err InvalidJournal
  else
    _ ← validate_prior self;
    validate_phase self.

Definition InstallJournalEntryV1_new (role : InstallRoleV1) (intended : InstallIntendedIdentityV1)
    (sibling_basename : option string) (prior_state : InstallPriorStateV1)
    : result InstallJournalError InstallJournalEntryV1 :=
  let entry := mkInstallJournalEntryV1 role (fixed_destination role) intended sibling_basename prior_state
                 None None PhasePending in
  _ ← InstallJournalEntryV1_validate entry;
  Ok entry.

Definition absent_directory (role : InstallRoleV1) (intended : InstallIntendedIdentityV1)
    : result InstallJournalError InstallJournalEntryV1 :=
  InstallJournalEntryV1_new role intended None PriorAbsent.
Definition absent_file (role : InstallRoleV1) (intended : InstallIntendedIdentityV1) (sibling_basename : string)
    : result InstallJournalError InstallJournalEntryV1 :=
  InstallJournalEntryV1_new role intended (Some sibling_basename) PriorAbsent.
Definition prior_owned_file (role : InstallRoleV1) (intended : InstallIntendedIdentityV1)
    (sibling_basename backup_basename : string) (prior_identity : InstallObjectIdentityV1)
    : result InstallJournalError InstallJournalEntryV1 :=
  InstallJournalEntryV1_new role intended (Some sibling_basename) (PriorOwned prior_identity backup_basename).

(** ** The journal *)
Record InstallJournalBindingsV1 : Type := mkInstallJournalBindingsV1 {
  jb_transaction_id : string;
  jb_authorization_id : string;
  jb_host_identity_sha256 : string;
  jb_artifact : DeploymentArtifactIdentityV1;
  jb_bundle_manifest_sha256 : string;
  jb_deployment_authorization_sha256 : string;
  jb_performance_evidence_sha256 : string;
}.

Definition InstallJournalBindingsV1_validate (self : InstallJournalBindingsV1)
    : result InstallJournalError unit :=
  if negb (is_lower_hex_text (jb_transaction_id self) 32)
     || negb (is_lower_hex_text (jb_authorization_id self) 32)
     || negb (is_lower_hex_text (jb_host_identity_sha256 self) 64)
     || negb (is_lower_hex_text (jb_bundle_manifest_sha256 self) 64)
     || negb (is_lower_hex_text (jb_deployment_authorization_sha256 self) 64)
     || negb (is_lower_hex_text (jb_performance_evidence_sha256 self) 64)
     || negb (is_ok (DeploymentArtifactIdentityV1_validate (jb_artifact self)))
  then Err InvalidJournal else Ok tt.

Definition InstallJournalBindingsV1_new (transaction_id authorization_id host_identity_sha256 : string)
    (artifact : DeploymentArtifactIdentityV1) (bundle_manifest_sha256 deployment_authorization_sha256
     performance_evidence_sha256 : string) : result InstallJournalError InstallJournalBindingsV1 :=
  let bindings := mkInstallJournalBindingsV1 transaction_id authorization_id host_identity_sha256 artifact
                    bundle_manifest_sha256 deployment_authorization_sha256 performance_evidence_sha256 in
  _ ← InstallJournalBindingsV1_validate bindings;
  Ok bindings.

Inductive InstallJournalStateV1 : Type :=
| JournalPlanned | JournalPrepared | JournalApplying | JournalInstalled | JournalFailed
| JournalRollingBack | JournalRolledBack.

#[export] Instance InstallJournalStateV1_eq_dec : EqDecision InstallJournalStateV1.
Proof. solve_decision. Defined.

Inductive InstallJournalForwardActionV1 : Type :=
| ForwardApply (durable_step : Z) (role : InstallRoleV1)
| ForwardVerify (durable_step : Z) (role : InstallRoleV1) (expected_identity : InstallObjectIdentityV1).

Inductive InstallJournalRollbackActionV1 : Type :=
| RemoveExact (durable_step : Z) (role : InstallRoleV1) (expected_current : InstallObjectIdentityV1)
    (created_parent_identity : option InstallObjectIdentityV1)
| RestoreExact (durable_step : Z) (role : InstallRoleV1) (expected_current : InstallObjectIdentityV1)
    (backup_basename : string) (expected_backup : InstallObjectIdentityV1)
    (created_parent_identity : option InstallObjectIdentityV1)
| RetainExact (durable_step : Z) (role : InstallRoleV1) (expected_current : InstallObjectIdentityV1).

#[export] Instance InstallJournalRollbackActionV1_eq_dec : EqDecision InstallJournalRollbackActionV1.
Proof. solve_decision. Defined.

(** The fields of the bindings are grouped in one. *)
Record InstallJournalV1 : Type := mkInstallJournalV1 {
  jn_schema_version : Z;
  jn_bindings : InstallJournalBindingsV1;
  jn_state : InstallJournalStateV1;
  jn_durable_step : Z;
  jn_entries : list InstallJournalEntryV1;
  jn_failure_code : option string;
  jn_rollback_possible : bool;
}.

Definition InstallJournalV1_new (bindings : InstallJournalBindingsV1) : InstallJournalV1 :=
  mkInstallJournalV1 INSTALL_JOURNAL_SCHEMA_VERSION bindings JournalPlanned 0 [] None true.

Section operations.
Implicit Types (self : InstallJournalV1) (role : InstallRoleV1).

Definition set_step self (durable_step : Z) : InstallJournalV1 :=
  mkInstallJournalV1 (jn_schema_version self) (jn_bindings self) (jn_state self) durable_step
    (jn_entries self) (jn_failure_code self) (jn_rollback_possible self).
Definition set_state self (state : InstallJournalStateV1) : InstallJournalV1 :=
  mkInstallJournalV1 (jn_schema_version self) (jn_bindings self) state (jn_durable_step self)
    (jn_entries self) (jn_failure_code self) (jn_rollback_possible self).
Definition set_entries self (entries : list InstallJournalEntryV1) : InstallJournalV1 :=
  mkInstallJournalV1 (jn_schema_version self) (jn_bindings self) (jn_state self) (jn_durable_step self)
    entries (jn_failure_code self) (jn_rollback_possible self).
Definition set_failure self (code : option string) (rollback_possible : bool) : InstallJournalV1 :=
  mkInstallJournalV1 (jn_schema_version self) (jn_bindings self) (jn_state self) (jn_durable_step self)
    (jn_entries self) code rollback_possible.
Definition set_phase (entry : InstallJournalEntryV1) (phase : InstallJournalEntryPhaseV1)
    : InstallJournalEntryV1 :=
  mkInstallJournalEntryV1 (je_role entry) (je_fixed_path entry) (je_intended entry)
    (je_sibling_basename entry) (je_prior_state entry) (je_current_identity entry)
    (je_created_parent_identity entry) phase.
Definition set_applied (entry : InstallJournalEntryV1) (current : InstallObjectIdentityV1)
    (parent : option InstallObjectIdentityV1) : InstallJournalEntryV1 :=
  mkInstallJournalEntryV1 (je_role entry) (je_fixed_path entry) (je_intended entry)
    (je_sibling_basename entry) (je_prior_state entry) (Some current) parent PhaseApplied.

Definition advance_step self : InstallJournalV1 * result InstallJournalError unit :=
  match checked_add U64_MAX (jn_durable_step self) 1 with
  | Some step => (set_step self step, Ok tt)
  | None => (self, Err InvalidTransition)
  end.

(** The order check of one entry. *)
Definition validate_next_entry (prior_order : option Z) (entry : InstallJournalEntryV1)
    : result InstallJournalError (option Z) :=
  _ ← InstallJournalEntryV1_validate entry;
  let order := install_order (je_role entry) in
  if is_some_and prior_order (λ prior, order <=? prior) then Err InvalidJournal else Ok (Some order).

Definition validate_entries (entries : list InstallJournalEntryV1) : result InstallJournalError unit :=
  match entries with
  | [] => Err InvalidJournal
  | _ => _ ← try_fold validate_next_entry None entries; Ok tt
  end.

Definition prepare self (entries : list InstallJournalEntryV1)
    : InstallJournalV1 * result InstallJournalError unit :=
  let entries := sort_by_key (λ entry, install_order (je_role entry)) entries in
  match validate_entries entries with
  | Err error => (self, Err error)
  | Ok _ =>
      match jn_state self with
      | JournalPlanned => advance_step (set_state (set_entries self entries) JournalPrepared)
      | JournalPrepared =>
          if bool_decide (jn_entries self = entries) then (self, Ok tt) else (self, Err InvalidTransition)
      | _ => (self, Err InvalidTransition)
      end
  end.

Definition start_applying self : InstallJournalV1 * result InstallJournalError unit :=
  if negb (bool_decide (jn_state self = JournalPrepared)) then (self, Err InvalidTransition)
  else advance_step (set_state self JournalApplying).

Definition next_forward_action self : option InstallJournalForwardActionV1 :=
  if negb (bool_decide (jn_state self = JournalApplying)) then None
  else
    entry ← List.find (λ entry, negb (bool_decide (je_phase entry = PhaseVerified))) (jn_entries self);
    durable_step ← checked_add U64_MAX (jn_durable_step self) 1;
    match je_phase entry with
    | PhasePending => Some (ForwardApply durable_step (je_role entry))
    | PhaseApplied =>
        identity ← je_current_identity entry;
        Some (ForwardVerify durable_step (je_role entry) identity)
    | PhaseVerified | PhaseRolledBack => None
    end.

Definition has_role role (entry : InstallJournalEntryV1) : bool := bool_decide (je_role entry = role).

Definition find_role self role : option InstallJournalEntryV1 :=
  List.find (has_role role) (jn_entries self).

(** [Iterator::position]. *)
Fixpoint position {A} (p : A → bool) (l : list A) : option nat :=
  match l with
  | [] => None
  | x :: l => if p x then Some 0%nat else S <$> position p l
  end.

Definition entry_index self role : result InstallJournalError nat :=
  ok_or (position (has_role role) (jn_entries self)) InvalidTransition.

Definition update_entry self (index : nat) (f : InstallJournalEntryV1 → InstallJournalEntryV1)
    : InstallJournalV1 := set_entries self (alter f index (jn_entries self)).

(** What [record_applied] checks before it changes the journal; the index it
    returns is in range. *)
Definition check_applied self role (current : InstallObjectIdentityV1)
    (parent : option InstallObjectIdentityV1) : result InstallJournalError nat :=
  match next_forward_action self with
  | Some (ForwardApply _ expected_role) =>
      if negb (bool_decide (role = expected_role)) then Err InvalidTransition
      else
        index ← entry_index self role;
        _ ← InstallObjectIdentityV1_validate current;
        entry ← ok_or (jn_entries self !! index) InvalidTransition;
        if negb (matches_intended current (je_intended entry)) then Err InvalidTransition
        else
          _ ← validate_parent InvalidTransition parent;
          Ok index
  | _ => Err InvalidTransition
  end.

Definition record_applied self role (current : InstallObjectIdentityV1)
    (parent : option InstallObjectIdentityV1) : InstallJournalV1 * result InstallJournalError unit :=
  match find_role self role with
  | Some (mkInstallJournalEntryV1 _ _ _ _ _ entry_current entry_parent PhaseApplied) =>
      if bool_decide (entry_current = Some current) && bool_decide (entry_parent = parent)
      then (self, Ok tt) else (self, Err InvalidTransition)
  | _ =>
      match check_applied self role current parent with
      | Err error => (self, Err error)
      | Ok index => advance_step (update_entry self index (λ entry, set_applied entry current parent))
      end
  end.

Definition check_verified self role (observed : InstallObjectIdentityV1) : result InstallJournalError nat :=
  match next_forward_action self with
  | Some (ForwardVerify _ expected_role expected_identity) =>
      if negb (bool_decide (role = expected_role)) || negb (bool_decide (observed = expected_identity))
      then Err InvalidTransition
      else entry_index self role
  | _ => Err InvalidTransition
  end.

Definition record_verified self role (observed : InstallObjectIdentityV1)
    : InstallJournalV1 * result InstallJournalError unit :=
  match find_role self role with
  | Some (mkInstallJournalEntryV1 _ _ _ _ _ entry_current _ PhaseVerified) =>
      if bool_decide (entry_current = Some observed) then (self, Ok tt) else (self, Err InvalidTransition)
  | _ =>
      match check_verified self role observed with
      | Err error => (self, Err error)
      | Ok index => advance_step (update_entry self index (λ entry, set_phase entry PhaseVerified))
      end
  end.

Definition mark_installed self : InstallJournalV1 * result InstallJournalError unit :=
  if negb (bool_decide (jn_state self = JournalApplying)) || is_some (next_forward_action self)
     || bool_decide (jn_entries self = [])
  then (self, Err InvalidTransition)
  else advance_step (set_state self JournalInstalled).

Definition record_failure self (code : string) (rollback_possible : bool)
    : InstallJournalV1 * result InstallJournalError unit :=
  if negb (is_ok (InstallFindingV1_blocker code)) then (self, Err InvalidJournal)
  else if bool_decide (jn_state self = JournalFailed) then
    if bool_decide (jn_failure_code self = Some code)
       && Bool.eqb (jn_rollback_possible self) rollback_possible
    then (self, Ok tt) else (self, Err InvalidTransition)
  else if negb (bool_decide (jn_state self = JournalApplying)) then (self, Err InvalidTransition)
  else advance_step (set_state (set_failure self (Some code) rollback_possible) JournalFailed).

Definition begin_rollback self : InstallJournalV1 * result InstallJournalError unit :=
  if negb (jn_rollback_possible self)
     || negb (match jn_state self with
              | JournalApplying | JournalInstalled | JournalFailed => true
              | _ => false
              end)
  then (self, Err InvalidTransition)
  else advance_step (set_state self JournalRollingBack).

Definition is_applied (entry : InstallJournalEntryV1) : bool :=
  match je_phase entry with PhaseApplied | PhaseVerified => true | _ => false end.

Definition rollback_action (durable_step : Z) (entry : InstallJournalEntryV1)
    (expected_current : InstallObjectIdentityV1) : InstallJournalRollbackActionV1 :=
  match je_prior_state entry with
  | PriorAbsent =>
      if is_journal_retention_directory (je_role entry)
      then RetainExact durable_step (je_role entry) expected_current
      else RemoveExact durable_step (je_role entry) expected_current (je_created_parent_identity entry)
  | PriorOwned identity backup_basename =>
      RestoreExact durable_step (je_role entry) expected_current backup_basename identity
        (je_created_parent_identity entry)
  end.

Definition next_rollback_action self : option InstallJournalRollbackActionV1 :=
  if negb (bool_decide (jn_state self = JournalRollingBack)) || negb (jn_rollback_possible self) then None
  else
    entry ← List.find is_applied (rev (jn_entries self));
    durable_step ← checked_add U64_MAX (jn_durable_step self) 1;
    expected_current ← je_current_identity entry;
    Some (rollback_action durable_step entry expected_current).

Definition action_role (action : InstallJournalRollbackActionV1) : InstallRoleV1 :=
  match action with
  | RemoveExact _ role _ _ | RestoreExact _ role _ _ _ _ | RetainExact _ role _ => role
  end.

Definition record_rollback_completed self (action : InstallJournalRollbackActionV1)
    : InstallJournalV1 * result InstallJournalError unit :=
  if negb (bool_decide (next_rollback_action self = Some action)) then (self, Err InvalidTransition)
  else
    match entry_index self (action_role action) with
    | Err error => (self, Err error)
    | Ok index => advance_step (update_entry self index (λ entry, set_phase entry PhaseRolledBack))
    end.

Definition mark_rolled_back self : InstallJournalV1 * result InstallJournalError unit :=
  if negb (bool_decide (jn_state self = JournalRollingBack)) || is_some (next_rollback_action self)
  then (self, Err InvalidTransition)
  else advance_step (set_state self JournalRolledBack).

(** ** Reading a journal back *)

(** The loop state: the progress, and whether an applied and a pending entry were seen. *)
Definition forward_step (acc : Z * bool * bool) (phase : InstallJournalEntryPhaseV1)
    : result InstallJournalError (Z * bool * bool) :=
  let '(progress, saw_applied, saw_pending) := acc in
  match phase with
  | PhaseVerified => if negb saw_applied && negb saw_pending then Ok (progress + 2, saw_applied, saw_pending)
                     else Err InvalidJournal
  | PhaseApplied => if negb saw_applied && negb saw_pending then Ok (progress + 1, true, saw_pending)
                    else Err InvalidJournal
  | PhasePending => Ok (progress, saw_applied, true)
  | PhaseRolledBack => Err InvalidJournal
  end.

Definition validate_forward_prefix (phases : list InstallJournalEntryPhaseV1)
    : result InstallJournalError Z :=
  acc ← try_fold forward_step (0, false, false) phases;
  Ok acc.1.1.

Definition rollback_shape_step (terminal : bool) (acc : bool * bool) (phase : InstallJournalEntryPhaseV1)
    : result InstallJournalError (bool * bool) :=
  let '(saw_rolled_back, saw_pending) := acc in
  match phase with
  | PhaseVerified | PhaseApplied =>
      if negb saw_rolled_back && negb saw_pending && negb terminal then Ok acc else Err InvalidJournal
  | PhaseRolledBack => if negb saw_pending then Ok (true, saw_pending) else Err InvalidJournal
  | PhasePending => Ok (saw_rolled_back, true)
  end.

Definition validate_rollback_shape (phases : list InstallJournalEntryPhaseV1) (terminal : bool)
    : result InstallJournalError unit :=
  _ ← try_fold (rollback_shape_step terminal) (false, false) phases;
  Ok tt.

Definition all_phases (phase : InstallJournalEntryPhaseV1) (phases : list InstallJournalEntryPhaseV1) : bool :=
  forallb (λ p, bool_decide (p = phase)) phases.

Definition reject_unless (b : bool) : result InstallJournalError unit :=
  if b then Ok tt else Err InvalidJournal.

Definition validate_state self (phases : list InstallJournalEntryPhaseV1) : result InstallJournalError unit :=
  match jn_state self with
  | JournalPlanned => Ok tt
  | JournalPrepared =>
      reject_unless ((jn_durable_step self =? 1) && all_phases PhasePending phases
                     && is_none (jn_failure_code self))
  | JournalApplying =>
      progress ← validate_forward_prefix phases;
      reject_unless ((jn_durable_step self =? 2 + progress) && is_none (jn_failure_code self))
  | JournalInstalled =>
      expected ← ok_or (checked_add U64_MAX 3 (saturating_mul U64_MAX 2 (Z.of_nat (length (jn_entries self)))))
                   InvalidJournal;
      reject_unless ((jn_durable_step self =? expected) && all_phases PhaseVerified phases
                     && is_none (jn_failure_code self))
  | JournalFailed =>
      progress ← validate_forward_prefix phases;
      reject_unless ((jn_durable_step self =? 3 + progress) && is_some (jn_failure_code self))
  | JournalRollingBack =>
      _ ← validate_rollback_shape phases false;
      reject_unless (3 <=? jn_durable_step self)
  | JournalRolledBack =>
      _ ← validate_rollback_shape phases true;
      reject_unless (4 <=? jn_durable_step self)
  end.

Definition validate_entries_for_state self : result InstallJournalError unit :=
  let failure_valid :=
    match jn_failure_code self with Some code => is_ok (InstallFindingV1_blocker code) | None => true end in
  if negb failure_valid || (negb (jn_rollback_possible self) && is_none (jn_failure_code self))
  then Err InvalidJournal
  else if bool_decide (jn_state self = JournalPlanned) then
    if negb (jn_durable_step self =? 0) || negb (bool_decide (jn_entries self = []))
       || is_some (jn_failure_code self) || negb (jn_rollback_possible self)
    then Err InvalidJournal else Ok tt
  else
    _ ← validate_entries (jn_entries self);
    validate_state self (je_phase <$> jn_entries self).

(** The validation of every journal that is read back. *)
Definition InstallJournalV1_validate self : result InstallJournalError unit :=
  _ ← InstallJournalBindingsV1_validate (jn_bindings self);
  if negb (jn_schema_version self =? INSTALL_JOURNAL_SCHEMA_VERSION) then Err InvalidJournal
  else validate_entries_for_state self.
End operations.

(** ** Shapes of the phases *)

(** Verified entries, then at most one applied, then pending ones. *)
Definition forward_shape (phases : list InstallJournalEntryPhaseV1) (v : nat) (applied : bool) (p : nat) : Prop :=
  phases = replicate v PhaseVerified ++ (if applied then [PhaseApplied] else []) ++ replicate p PhasePending.

Definition forward_progress (v : nat) (applied : bool) : Z := 2 * Z.of_nat v + (if applied then 1 else 0).

(** Entries still to roll back, then those rolled back, then pending ones. *)
Definition held_phase (phase : InstallJournalEntryPhaseV1) : bool :=
  match phase with PhaseApplied | PhaseVerified => true | _ => false end.

Definition rollback_shape (phases held : list InstallJournalEntryPhaseV1) (r p : nat) : Prop :=
  phases = held ++ replicate r PhaseRolledBack ++ replicate p PhasePending ∧
  Forall (λ phase, held_phase phase = true) held.

Lemma forward_verified v progress :
  try_fold forward_step (progress, false, false) (replicate v PhaseVerified)
  = Ok (progress + 2 * Z.of_nat v, false, false).
Proof.
  revert progress. induction v as [|v IH]; intros progress; cbn [replicate try_fold].
  - by rewrite Z.add_0_r.
  - cbn [forward_step negb andb mbind result_bind]. rewrite IH. do 3 f_equal. lia.
Qed.

Lemma forward_pending p progress a pending :
  try_fold forward_step (progress, a, pending) (replicate p PhasePending)
  = Ok (progress, a, bool_decide (p ≠ 0%nat) || pending).
Proof.
  revert pending. induction p as [|p IH]; intros pending; [done|]. cbn [replicate try_fold forward_step mbind result_bind].
  rewrite IH, orb_true_r. by rewrite bool_decide_eq_true_2.
Qed.

Lemma validate_forward_ok phases v applied p :
  forward_shape phases v applied p → validate_forward_prefix phases = Ok (forward_progress v applied).
Proof.
  intros ->. unfold validate_forward_prefix. rewrite try_fold_app, forward_verified. cbn [mbind result_bind].
  rewrite try_fold_app. destruct applied; cbn [try_fold forward_step negb andb mbind result_bind];
    rewrite forward_pending; cbn [mbind result_bind fst]; f_equal; unfold forward_progress; lia.
Qed.

Lemma rollback_held terminal held :
  terminal = false ∨ held = [] → Forall (λ phase, held_phase phase = true) held →
  try_fold (rollback_shape_step terminal) (false, false) held = Ok (false, false).
Proof.
  intros Ht. induction 1 as [|phase held Hp _ IH]; [done|]. destruct Ht as [->|]; [|done].
  destruct phase; try done; cbn [try_fold rollback_shape_step negb andb mbind result_bind]; auto.
Qed.

Lemma rollback_rolled_back terminal r seen :
  try_fold (rollback_shape_step terminal) (seen, false) (replicate r PhaseRolledBack)
  = Ok (bool_decide (r ≠ 0%nat) || seen, false).
Proof.
  revert seen. induction r as [|r IH]; intros seen; [done|].
  cbn [replicate try_fold rollback_shape_step negb mbind result_bind]. rewrite IH, orb_true_r.
  by rewrite bool_decide_eq_true_2.
Qed.

Lemma rollback_pending terminal p seen pending :
  ∃ acc, try_fold (rollback_shape_step terminal) (seen, pending) (replicate p PhasePending) = Ok acc.
Proof.
  revert pending. induction p as [|p IH]; intros pending; [by eexists|].
  cbn [replicate try_fold rollback_shape_step mbind result_bind]. apply IH.
Qed.

Lemma validate_rollback_ok phases held r p terminal :
  terminal = false ∨ held = [] → rollback_shape phases held r p →
  validate_rollback_shape phases terminal = Ok tt.
Proof.
  intros Ht [-> Hh]. unfold validate_rollback_shape. rewrite try_fold_app, rollback_held by done.
  cbn [mbind result_bind]. rewrite try_fold_app, rollback_rolled_back. cbn [mbind result_bind].
  destruct (rollback_pending terminal p (bool_decide (r ≠ 0%nat) || false) false) as [acc ->]. done.
Qed.

(** ** Entries in order *)
Definition entry_order (entry : InstallJournalEntryV1) : Z := install_order (je_role entry).

Record entries_ok (entries : list InstallJournalEntryV1) : Prop := {
  eo_valid : Forall (λ entry, InstallJournalEntryV1_validate entry = Ok tt) entries;
  eo_sorted : StronglySorted (λ x y, entry_order x < entry_order y) entries;
}.

Lemma validate_fold_Ok entries prior o :
  try_fold validate_next_entry prior entries = Ok o →
  Forall (λ e, is_some_and prior (λ p, entry_order e <=? p) = false) entries ∧ entries_ok entries.
Proof.
  revert prior. induction entries as [|e entries IH]; intros prior Hf; [by repeat constructor|].
  cbn [try_fold] in Hf. apply bind_Ok in Hf as (b & Hb & Hf). unfold validate_next_entry in Hb.
  apply bind_Ok in Hb as ([] & He & Hb). cbv zeta in Hb. fold (entry_order e) in Hb. inv_ok.
  apply IH in Hf as [Hall [Hv Hs]]. cbn [is_some_and] in Hall.
  split; [|split; constructor; try done; eapply Forall_impl; [exact Hall|]; intros x Hx; cbn in Hx; lia].
  constructor; [done|]. eapply Forall_impl; [exact Hall|]. intros x Hx. destruct prior; cbn in *; [lia|done].
Qed.

Lemma validate_fold_total entries prior :
  Forall (λ e, is_some_and prior (λ p, entry_order e <=? p) = false) entries → entries_ok entries →
  is_ok (try_fold validate_next_entry prior entries) = true.
Proof.
  revert prior. induction entries as [|e entries IH]; intros prior Hp [Hv Hs]; [done|].
  apply Forall_cons in Hp as [Hp _]. apply Forall_cons in Hv as [He Hv].
  apply StronglySorted_inv in Hs as [Hs Hall]. cbn [try_fold].
  assert (validate_next_entry prior e = Ok (Some (entry_order e))) as ->.
  { unfold validate_next_entry. rewrite He. cbn [mbind result_bind]. fold (entry_order e). by rewrite Hp. }
  cbn [mbind result_bind]. apply IH; [|done].
  eapply Forall_impl; [exact Hall|]. intros x Hx. cbn in *. lia.
Qed.

Lemma validate_entries_Ok entries :
  validate_entries entries = Ok tt ↔ entries ≠ [] ∧ entries_ok entries.
Proof.
  unfold validate_entries. destruct entries as [|e entries]; [naive_solver|]. split.
  - intros H. apply bind_Ok in H as (o & Ho & _). split; [done|]. by apply validate_fold_Ok in Ho as [_ ?].
  - intros [_ Hok]. apply (validate_fold_total _ None), is_ok_true in Hok as [o ->]; [done|].
    apply Forall_forall. done.
Qed.

Lemma install_order_inj r r' : install_order r = install_order r' → r = r'.
Proof. by destruct r, r'. Qed.

Lemma install_order_range r : 0 ≤ install_order r < 32.
Proof. destruct r; cbn; lia. Qed.

Lemma entries_ok_roles entries : entries_ok entries → NoDup (je_role <$> entries).
Proof.
  intros [_ Hs]. induction Hs as [|e entries Hs IH Hall]; [constructor|]. rewrite fmap_cons.
  constructor; [|done]. intros (e' & Heq & Hin)%list_elem_of_fmap. rewrite Forall_forall in Hall.
  specialize (Hall e' Hin). unfold entry_order in Hall. rewrite Heq in Hall. lia.
Qed.

(** There are 32 roles. *)
Lemma entries_ok_length entries : entries_ok entries → (length entries ≤ 32)%nat.
Proof.
  intros Hok. rewrite <-(length_fmap entry_order). change 32%nat with (length (seqZ 0 32)).
  apply submseteq_length, NoDup_submseteq.
  - destruct Hok as [_ Hs]. induction Hs as [|e entries Hs IH Hall]; [constructor|]. rewrite fmap_cons.
    constructor; [|done]. intros (e' & Heq & Hin)%list_elem_of_fmap. rewrite Forall_forall in Hall.
    specialize (Hall e' Hin). lia.
  - intros o (e & -> & _)%list_elem_of_fmap. apply elem_of_seqZ. pose proof (install_order_range (je_role e)).
    unfold entry_order. lia.
Qed.

(** Changing one entry without its role. *)
Lemma entries_ok_alter entries i f :
  (∀ e, entries !! i = Some e → InstallJournalEntryV1_validate e = Ok tt →
    InstallJournalEntryV1_validate (f e) = Ok tt ∧ je_role (f e) = je_role e) →
  entries_ok entries → entries_ok (alter f i entries).
Proof.
  intros Hf [Hv Hs]. split.
  - apply Forall_lookup. intros j x Hx. destruct (decide (i = j)) as [<-|Hne].
    + rewrite list_lookup_alter_eq in Hx. apply fmap_Some in Hx as (e & He & ->).
      rewrite Forall_lookup in Hv. by apply Hf; [|eapply Hv].
    + rewrite list_lookup_alter_ne in Hx by done. rewrite Forall_lookup in Hv. eauto.
  - assert (entry_order <$> alter f i entries = entry_order <$> entries) as Ho.
    { apply list_eq. intros j. rewrite !list_lookup_fmap. destruct (decide (i = j)) as [<-|Hne].
      - rewrite list_lookup_alter_eq. destruct (entries !! i) as [e|] eqn:He; [|done]. cbn. f_equal.
        unfold entry_order. rewrite Forall_lookup in Hv. by rewrite (proj2 (Hf e eq_refl (Hv _ _ He))).
      - by rewrite list_lookup_alter_ne. }
    assert (∀ l : list InstallJournalEntryV1, StronglySorted (λ x y, entry_order x < entry_order y) l ↔
      StronglySorted Z.lt (entry_order <$> l)) as Hss.
    { intros l. induction l as [|x l IH]; [split; constructor|]. rewrite fmap_cons. split; intros Hl;
        apply StronglySorted_inv in Hl as [Hl Hall]; constructor; try (by apply IH);
        [apply Forall_fmap; exact Hall|apply (Forall_fmap entry_order) in Hall; exact Hall]. }
    apply Hss. rewrite Ho. by apply Hss.
Qed.

(** ** The entry an action is about *)
Lemma position_middle (pre post : list InstallJournalEntryV1) e :
  NoDup (je_role <$> pre ++ e :: post) → position (has_role (je_role e)) (pre ++ e :: post) = Some (length pre).
Proof.
  induction pre as [|x pre IH]; cbn [app position]; intros Hnd.
  - unfold has_role. by rewrite bool_decide_eq_true_2.
  - rewrite fmap_cons in Hnd. apply NoDup_cons in Hnd as [Hx Hnd]. unfold has_role at 1.
    rewrite bool_decide_eq_false_2; [by rewrite IH|]. intros Heq. apply Hx. rewrite Heq, fmap_app, fmap_cons.
    apply elem_of_app. right. left.
Qed.

Lemma alter_middle {A} (f : A → A) (pre post : list A) e :
  alter f (length pre) (pre ++ e :: post) = pre ++ f e :: post.
Proof. induction pre as [|x pre IH]; [done|]. cbn. f_equal. exact IH. Qed.

Lemma phases_replicate (entries : list InstallJournalEntryV1) n phase :
  je_phase <$> entries = replicate n phase → Forall (λ e, je_phase e = phase) entries.
Proof.
  intros Hp. apply (Forall_fmap je_phase (λ q, q = phase) entries). rewrite Hp. by apply Forall_replicate.
Qed.

Definition not_verified (entry : InstallJournalEntryV1) : bool :=
  negb (bool_decide (je_phase entry = PhaseVerified)).

(** Where a forward shape continues. *)
Lemma forward_next entries v a p :
  forward_shape (je_phase <$> entries) v a p →
  match List.find not_verified entries with
  | None => a = false ∧ p = 0%nat
  | Some e => ∃ pre post, entries = pre ++ e :: post ∧ je_phase <$> pre = replicate v PhaseVerified ∧
      if a then je_phase e = PhaseApplied ∧ je_phase <$> post = replicate p PhasePending
      else ∃ p', p = S p' ∧ je_phase e = PhasePending ∧ je_phase <$> post = replicate p' PhasePending
  end.
Proof.
  intros Hs. apply fmap_app_inv in Hs as (pre & rest & Hpre & Hrest & ->).
  symmetry in Hpre, Hrest.
  rewrite find_app, find_none_forall.
  2: { apply phases_replicate in Hpre. eapply Forall_impl; [exact Hpre|]. intros e He. unfold not_verified.
       by rewrite He. }
  destruct a; cbn [app] in Hrest.
  - destruct rest as [|e post]; [done|]. rewrite fmap_cons in Hrest. injection Hrest as He Hpost.
    cbn [List.find]. unfold not_verified. rewrite He. cbn. exists pre, post. done.
  - destruct rest as [|e post]; [by destruct p|]. destruct p as [|p]; [done|]. rewrite fmap_cons in Hrest.
    injection Hrest as He Hpost. cbn [List.find]. unfold not_verified. rewrite He. cbn. exists pre, post.
    split_and!; eauto.
Qed.

(** An applied entry has the identity of what it installed. *)
Lemma applied_identity e :
  is_applied e = true → InstallJournalEntryV1_validate e = Ok tt →
  ∃ identity, je_current_identity e = Some identity ∧ matches_intended identity (je_intended e) = true.
Proof.
  intros He Hv. unfold InstallJournalEntryV1_validate, validate_phase in Hv. unfold is_applied in He.
  destruct (je_phase e); try done; inv_ok; boolify; eauto.
Qed.

(** Where a rollback continues. *)
Lemma rollback_next entries held r p :
  rollback_shape (je_phase <$> entries) held r p →
  match List.find is_applied (rev entries) with
  | None => held = []
  | Some e => ∃ pre post held', entries = pre ++ e :: post ∧ held = held' ++ [je_phase e] ∧
      je_phase <$> pre = held' ∧ je_phase <$> post = replicate r PhaseRolledBack ++ replicate p PhasePending
  end.
Proof.
  intros [Hs Hheld]. apply fmap_app_inv in Hs as (pre & rest & -> & Hrest & ->).
  symmetry in Hrest.
  rewrite rev_app_distr, find_app, find_none_forall.
  2: { apply Forall_rev. apply (Forall_fmap je_phase (λ q, held_phase q = false) rest). rewrite Hrest.
       apply Forall_app; split; by apply Forall_replicate. }
  destruct pre as [|e pre _] using rev_ind; [done|]. rewrite rev_app_distr. cbn [rev app List.find].
  rewrite fmap_app in Hheld. apply Forall_app in Hheld as [_ Hlast]. apply Forall_cons in Hlast as [He _].
  change (is_applied e) with (held_phase (je_phase e)). rewrite He.
  exists pre, rest, (je_phase <$> pre). rewrite <-app_assoc, fmap_app. done.
Qed.

Lemma shape_length entries v a p :
  forward_shape (je_phase <$> entries) v a p → length entries = (v + (if a then 1 else 0) + p)%nat.
Proof.
  intros Hs. apply (f_equal length) in Hs. rewrite length_fmap, !length_app, !length_replicate in Hs.
  destruct a; cbn in Hs; lia.
Qed.

(** ** The invariant of the journal *)
Definition state_ok (self : InstallJournalV1) : Prop :=
  let entries := jn_entries self in
  let phases := je_phase <$> entries in
  let step := jn_durable_step self in
  let n := Z.of_nat (length entries) in
  match jn_state self with
  | JournalPlanned => step = 0 ∧ entries = []
  | JournalPrepared => step = 1 ∧ forward_shape phases 0 false (length entries)
  | JournalApplying => ∃ v a p, forward_shape phases v a p ∧ step = 2 + forward_progress v a
  | JournalInstalled => step = 3 + 2 * n ∧ forward_shape phases (length entries) false 0
  | JournalFailed => ∃ v a p, forward_shape phases v a p ∧ step = 3 + forward_progress v a
  | JournalRollingBack => ∃ held r p, rollback_shape phases held r p ∧ 3 ≤ step ∧
      step + Z.of_nat (length held) ≤ 3 * n + 4
  | JournalRolledBack => ∃ r p, rollback_shape phases [] r p ∧ 4 ≤ step ≤ 3 * n + 5
  end.

Definition failure_ok (self : InstallJournalV1) : Prop :=
  match jn_failure_code self with
  | None => jn_rollback_possible self = true ∧ jn_state self ≠ JournalFailed
  | Some code => is_ok (InstallFindingV1_blocker code) = true ∧
      (jn_state self = JournalFailed ∨
       (jn_rollback_possible self = true ∧
        (jn_state self = JournalRollingBack ∨ jn_state self = JournalRolledBack)))
  end.

Record journal_ok (self : InstallJournalV1) : Prop := {
  jo_bindings : InstallJournalBindingsV1_validate (jn_bindings self) = Ok tt;
  jo_schema : jn_schema_version self = INSTALL_JOURNAL_SCHEMA_VERSION;
  jo_entries : entries_ok (jn_entries self);
  jo_nonempty : jn_state self ≠ JournalPlanned → jn_entries self ≠ [];
  jo_failure : failure_ok self;
  jo_state : state_ok self;
}.

(** At most 101 steps are ever recorded. *)
Lemma journal_step_bound self : journal_ok self → 0 ≤ jn_durable_step self ≤ 101.
Proof.
  intros [_ _ He _ _ Hs]. apply entries_ok_length in He. unfold state_ok in Hs. cbv zeta in Hs.
  destruct (jn_state self); try (destruct Hs as [-> _]; lia).
  - destruct Hs as (v & a & p & Hsh & ->). apply shape_length in Hsh. unfold forward_progress. destruct a; lia.
  - destruct Hs as (v & a & p & Hsh & ->). apply shape_length in Hsh. unfold forward_progress. destruct a; lia.
  - destruct Hs as (held & r & p & _ & ? & ?). lia.
  - destruct Hs as (r & p & _ & ?). lia.
Qed.

Lemma all_phases_replicate phase n : all_phases phase (replicate n phase) = true.
Proof. induction n as [|n IH]; [done|]. cbn. by rewrite bool_decide_eq_true_2. Qed.

(** A journal that satisfies the invariant is read back. *)
Lemma journal_ok_validates self : journal_ok self → InstallJournalV1_validate self = Ok tt.
Proof.
  intros Hok. pose proof (journal_step_bound self Hok) as Hb. destruct Hok as [Hbind Hschema Hent Hne Hfail Hstate].
  assert (validate_state self (je_phase <$> jn_entries self) = Ok tt) as Hv.
  { unfold validate_state, state_ok, failure_ok in *. cbv zeta in *.
    destruct (jn_state self); [done|..]; destruct (jn_failure_code self) as [code|]; try naive_solver.
    all: try (destruct Hstate as [Hstep Hsh]; rewrite Hsh, Hstep; cbn [app replicate]; rewrite ?app_nil_r).
    - by rewrite all_phases_replicate.
    - destruct Hstate as (v & a & p & Hsh & ->). rewrite (validate_forward_ok _ _ _ _ Hsh).
      cbn [mbind result_bind is_none]. by rewrite Z.eqb_refl.
    - apply entries_ok_length in Hent. unfold saturating_mul.
      rewrite Z.min_r, checked_add_ok by ulia. cbn [ok_or mbind result_bind is_none].
      by rewrite Z.eqb_refl, all_phases_replicate.
    - destruct Hstate as (v & a & p & Hsh & ->). rewrite (validate_forward_ok _ _ _ _ Hsh).
      cbn [mbind result_bind is_some]. by rewrite Z.eqb_refl.
    - destruct Hstate as (held & r & p & Hsh & ? & _). rewrite (validate_rollback_ok _ held r p false (or_introl eq_refl) Hsh).
      cbn [mbind result_bind]. by rewrite (proj2 (Z.leb_le _ _)) by done.
    - destruct Hstate as (held & r & p & Hsh & ? & _). rewrite (validate_rollback_ok _ held r p false (or_introl eq_refl) Hsh).
      cbn [mbind result_bind]. by rewrite (proj2 (Z.leb_le _ _)) by done.
    - destruct Hstate as (r & p & Hsh & ? & _). rewrite (validate_rollback_ok _ [] r p true (or_intror eq_refl) Hsh).
      cbn [mbind result_bind]. by rewrite (proj2 (Z.leb_le _ _)) by done.
    - destruct Hstate as (r & p & Hsh & ? & _). rewrite (validate_rollback_ok _ [] r p true (or_intror eq_refl) Hsh).
      cbn [mbind result_bind]. by rewrite (proj2 (Z.leb_le _ _)) by done. }
  unfold InstallJournalV1_validate. rewrite Hbind, Hschema. cbn [mbind result_bind].
  change (negb (INSTALL_JOURNAL_SCHEMA_VERSION =? _)) with false. cbv iota.
  unfold validate_entries_for_state.
  assert (negb (match jn_failure_code self with Some code => is_ok (InstallFindingV1_blocker code) | None => true end)
    || (negb (jn_rollback_possible self) && is_none (jn_failure_code self)) = false) as ->.
  { unfold failure_ok in Hfail. destruct (jn_failure_code self); destruct Hfail as [-> _]; cbn;
      by rewrite ?andb_false_r. }
  case_bool_decide as Hp.
  - unfold state_ok, failure_ok in *. rewrite Hp in *. destruct Hstate as [-> ->].
    destruct (jn_failure_code self); [naive_solver|]. by destruct Hfail as [-> _].
  - assert (validate_entries (jn_entries self) = Ok tt) as -> by (apply validate_entries_Ok; auto). exact Hv.
Qed.

(** ** What every operation does to the invariant *)

(** A refused or repeated operation changes nothing; one that changes the journal
    succeeds, keeps the invariant and takes one durable step. *)
Definition journal_moved (self self' : InstallJournalV1) (res : result InstallJournalError unit) : Prop :=
  self' = self ∨ (res = Ok tt ∧ journal_ok self' ∧ jn_durable_step self' = jn_durable_step self + 1 ∧
                  jn_bindings self' = jn_bindings self).

Lemma journal_unmoved self res : journal_moved self self res.
Proof. by left. Qed.

Lemma advance_moved self changed :
  0 ≤ jn_durable_step changed ≤ 101 → jn_durable_step changed = jn_durable_step self →
  jn_bindings changed = jn_bindings self →
  journal_ok (set_step changed (jn_durable_step changed + 1)) →
  journal_moved self (advance_step changed).1 (advance_step changed).2.
Proof.
  intros Hb Hs Hbind Hok. unfold advance_step. rewrite checked_add_ok by ulia. right. cbn. by rewrite <-Hs.
Qed.

Lemma sort_by_key_elem {A} (key : A → Z) (l : list A) x : x ∈ sort_by_key key l ↔ x ∈ l.
Proof. unfold sort_by_key. by rewrite sort_by_Permutation. Qed.

Lemma prepare_moved self entries :
  journal_ok self → Forall (λ e, je_phase e = PhasePending) entries →
  journal_moved self (prepare self entries).1 (prepare self entries).2.
Proof.
  intros Hok Hpend. pose proof (journal_step_bound self Hok) as Hb. unfold prepare. cbv zeta.
  set (sorted := sort_by_key _ entries).
  destruct (validate_entries sorted) as [[]|] eqn:Hv; [|apply journal_unmoved].
  apply validate_entries_Ok in Hv as [Hne Hent].
  destruct (jn_state self) eqn:Hst; try (apply journal_unmoved).
  2: { case_bool_decide; apply journal_unmoved. }
  apply advance_moved; try done. destruct Hok as [Hbind Hschema _ _ Hfail Hstate].
  unfold state_ok, failure_ok in *. rewrite Hst in Hstate, Hfail. destruct Hstate as [Hstep _].
  split; try done.
  - unfold failure_ok. cbn. destruct (jn_failure_code self); [naive_solver|]. by destruct Hfail.
  - unfold state_ok. cbn. split; [lia|]. unfold forward_shape. cbn.
    assert (Forall (λ e, je_phase e = PhasePending) sorted) as Hp.
    { rewrite Forall_forall in Hpend |- *. intros e He. apply Hpend. by apply sort_by_key_elem in He. }
    clear -Hp. induction Hp as [|e l He _ IH]; [done|]. rewrite fmap_cons, He, IH. done.
Qed.

Lemma start_moved self :
  journal_ok self → journal_moved self (start_applying self).1 (start_applying self).2.
Proof.
  intros Hok. pose proof (journal_step_bound self Hok) as Hb. unfold start_applying.
  case_bool_decide as Hst; cbn [negb]; [|apply journal_unmoved].
  apply advance_moved; try done. destruct Hok as [Hbind Hschema Hent Hne Hfail Hstate].
  unfold state_ok, failure_ok in *. rewrite Hst in Hstate, Hfail, Hne. destruct Hstate as [Hstep Hsh].
  split; try done.
  - cbn. intros _. by apply Hne.
  - unfold failure_ok. cbn. destruct (jn_failure_code self); [naive_solver|]. by destruct Hfail.
  - unfold state_ok. cbn. exists 0%nat, false, (length (jn_entries self)). split; [done|]. change (forward_progress 0 false) with 0. lia.
Qed.

(** In the applying state the next action is on the first entry that is not
    verified. *)
Lemma applying_next self :
  journal_ok self → jn_state self = JournalApplying →
  match next_forward_action self with
  | None => forward_shape (je_phase <$> jn_entries self) (length (jn_entries self)) false 0 ∧
      jn_durable_step self = 2 + 2 * Z.of_nat (length (jn_entries self))
  | Some action => ∃ pre e post, jn_entries self = pre ++ e :: post ∧
      je_phase <$> pre = replicate (length pre) PhaseVerified ∧
      je_phase <$> post = replicate (length post) PhasePending ∧
      match action with
      | ForwardApply step role => role = je_role e ∧ je_phase e = PhasePending ∧
          step = jn_durable_step self + 1 ∧ jn_durable_step self = 2 + 2 * Z.of_nat (length pre)
      | ForwardVerify step role identity => role = je_role e ∧ je_phase e = PhaseApplied ∧
          je_current_identity e = Some identity ∧
          step = jn_durable_step self + 1 ∧ jn_durable_step self = 3 + 2 * Z.of_nat (length pre)
      end
  end.
Proof.
  intros Hok Hst. pose proof (journal_step_bound self Hok) as Hb. destruct Hok as [_ _ [Hv _] _ _ Hstate].
  unfold state_ok in Hstate. rewrite Hst in Hstate. destruct Hstate as (v & a & p & Hsh & Hstep).
  unfold next_forward_action. rewrite Hst, bool_decide_eq_true_2 by done. cbn [negb].
  pose proof (forward_next _ _ _ _ Hsh) as Hnext. fold not_verified.
  change (λ entry, negb (bool_decide (je_phase entry = PhaseVerified))) with not_verified.
  pose proof (shape_length _ _ _ _ Hsh) as Hlen. unfold forward_progress in Hstep.
  destruct (List.find not_verified (jn_entries self)) as [e|].
  - destruct Hnext as (pre & post & Heq & Hpre & Hrest). cbn [mbind option_bind].
    rewrite checked_add_ok by ulia. cbn [mbind option_bind].
    assert (v = length pre) as -> by (apply (f_equal length) in Hpre; by rewrite length_fmap, length_replicate in Hpre).
    destruct a.
    + destruct Hrest as [He Hpost]. rewrite He.
      assert (p = length post) as -> by (apply (f_equal length) in Hpost; by rewrite length_fmap, length_replicate in Hpost).
      assert (is_some (je_current_identity e) = true) as Hcur.
      { rewrite Forall_forall in Hv. assert (InstallJournalEntryV1_validate e = Ok tt) as Hval.
        { apply Hv. rewrite Heq. apply elem_of_app. right. left. }
        unfold InstallJournalEntryV1_validate, validate_phase in Hval. rewrite He in Hval. inv_ok.
        by match goal with H : je_current_identity e = Some _ |- _ => rewrite H end. }
      destruct (je_current_identity e) as [identity|] eqn:Hid; [|done]. cbn [mbind option_bind].
      exists pre, e, post. split_and!; try done. lia.
    + destruct Hrest as (p' & -> & He & Hpost). rewrite He.
      assert (p' = length post) as -> by (apply (f_equal length) in Hpost; by rewrite length_fmap, length_replicate in Hpost).
      exists pre, e, post. split_and!; try done. lia.
  - destruct Hnext as [-> ->]. cbn. rewrite Hlen, !Nat.add_0_r. split; [done|lia].
Qed.

Lemma entry_index_middle self pre e post :
  entries_ok (jn_entries self) → jn_entries self = pre ++ e :: post →
  entry_index self (je_role e) = Ok (length pre).
Proof.
  intros Hent Heq. unfold entry_index. rewrite Heq, position_middle; [done|]. rewrite <-Heq.
  by apply entries_ok_roles.
Qed.

Lemma update_middle self pre e post f :
  jn_entries self = pre ++ e :: post →
  jn_entries (update_entry self (length pre) f) = pre ++ f e :: post.
Proof. intros Heq. cbn. by rewrite Heq, alter_middle. Qed.

Lemma update_entries_ok self pre e post f :
  entries_ok (jn_entries self) → jn_entries self = pre ++ e :: post →
  (InstallJournalEntryV1_validate e = Ok tt → InstallJournalEntryV1_validate (f e) = Ok tt) →
  je_role (f e) = je_role e → entries_ok (jn_entries (update_entry self (length pre) f)).
Proof.
  intros Hent Heq Hf Hr. apply entries_ok_alter; [|done]. intros e' He' Hv.
  rewrite Heq, list_lookup_middle in He' by done. injection He' as <-. auto.
Qed.

(** Entries stay valid when they are applied, verified or rolled back. *)
Lemma set_applied_valid e current parent error :
  je_phase e = PhasePending → InstallObjectIdentityV1_validate current = Ok tt →
  matches_intended current (je_intended e) = true → validate_parent error parent = Ok tt →
  InstallJournalEntryV1_validate e = Ok tt → InstallJournalEntryV1_validate (set_applied e current parent) = Ok tt.
Proof.
  intros Hp Hc Hm Hpar Hv. unfold InstallJournalEntryV1_validate in *. cbn.
  apply bind_Ok in Hv as ([] & Hi & Hv). rewrite Hi. cbn [mbind result_bind].
  destruct (_ || negb (bool_decide (is_directory _ = _))); [done|]. destruct (if is_directory _ then _ else _); [done|].
  apply bind_Ok in Hv as ([] & Hprior & Hv). unfold validate_prior in *. cbn. rewrite Hprior.
  cbn [mbind result_bind]. unfold validate_phase. cbn. rewrite Hc. cbn [mbind result_bind]. rewrite Hm. cbn [negb].
  destruct parent as [parent|]; [|done]. cbn in *. apply bind_Ok in Hpar as ([] & Hpv & Hpar). rewrite Hpv.
  cbn [mbind result_bind]. by destruct (_ || _).
Qed.

Lemma set_phase_valid e phase :
  is_applied e = true → phase ≠ PhasePending → InstallJournalEntryV1_validate e = Ok tt →
  InstallJournalEntryV1_validate (set_phase e phase) = Ok tt.
Proof.
  unfold is_applied, InstallJournalEntryV1_validate, validate_prior, validate_phase. cbn.
  destruct (je_phase e), phase; done.
Qed.

Lemma applied_shape (pre post : list InstallJournalEntryV1) e :
  je_phase <$> pre = replicate (length pre) PhaseVerified →
  je_phase <$> post = replicate (length post) PhasePending → je_phase e = PhaseApplied →
  forward_shape (je_phase <$> pre ++ e :: post) (length pre) true (length post).
Proof. intros Hpre Hpost He. unfold forward_shape. by rewrite fmap_app, fmap_cons, Hpre, Hpost, He. Qed.

Lemma verified_shape (pre post : list InstallJournalEntryV1) e :
  je_phase <$> pre = replicate (length pre) PhaseVerified →
  je_phase <$> post = replicate (length post) PhasePending → je_phase e = PhaseVerified →
  forward_shape (je_phase <$> pre ++ e :: post) (S (length pre)) false (length post).
Proof.
  intros Hpre Hpost He. unfold forward_shape. rewrite fmap_app, fmap_cons, Hpre, Hpost, He.
  rewrite replicate_S_end, <-app_assoc. done.
Qed.

(** An entry of the applying journal has moved on. *)
Lemma applying_moved self pre e post f v a p :
  journal_ok self → jn_state self = JournalApplying → jn_entries self = pre ++ e :: post →
  (InstallJournalEntryV1_validate e = Ok tt → InstallJournalEntryV1_validate (f e) = Ok tt) →
  je_role (f e) = je_role e →
  forward_shape (je_phase <$> pre ++ f e :: post) v a p →
  jn_durable_step self + 1 = 2 + forward_progress v a →
  let changed := update_entry self (length pre) f in
  journal_moved self (advance_step changed).1 (advance_step changed).2.
Proof.
  intros Hok Hst Heq Hf Hr Hsh Hstep changed. pose proof (journal_step_bound self Hok) as Hb.
  apply advance_moved; try done. destruct Hok as [Hbind Hschema Hent Hne Hfail Hstate].
  split; try done.
  - by eapply update_entries_ok.
  - intros _ Hnil. cbn in Hnil. rewrite Heq, alter_middle in Hnil. by destruct pre.
  - unfold state_ok. cbn. rewrite Hst, Heq, alter_middle. exists v, a, p. split; [done|lia].
Qed.

Lemma record_applied_moved self role current parent :
  journal_ok self →
  journal_moved self (record_applied self role current parent).1 (record_applied self role current parent).2.
Proof.
  intros Hok.
  assert (journal_moved self
    (match check_applied self role current parent with
     | Err error => (self, Err error)
     | Ok index => advance_step (update_entry self index (λ entry, set_applied entry current parent))
     end).1
    (match check_applied self role current parent with
     | Err error => (self, Err error)
     | Ok index => advance_step (update_entry self index (λ entry, set_applied entry current parent))
     end).2) as Hmove.
  { destruct (check_applied self role current parent) as [index|] eqn:Hc; [|apply journal_unmoved].
    unfold check_applied in Hc. destruct (decide (jn_state self = JournalApplying)) as [Hst|Hst].
    2: { unfold next_forward_action in Hc. by rewrite bool_decide_eq_false_2 in Hc. }
    pose proof (applying_next self Hok Hst) as Hnext.
    destruct (next_forward_action self) as [[step r|]|]; try done.
    destruct Hnext as (pre & e & post & Heq & Hpre & Hpost & -> & He & _ & Hstep).
    case_bool_decide as Hr; [|done]. subst role. cbn [negb] in Hc.
    rewrite (entry_index_middle self pre e post) in Hc; [|apply Hok|done]. cbn [mbind result_bind] in Hc.
    apply bind_Ok in Hc as ([] & Hcur & Hc). rewrite Heq, list_lookup_middle in Hc by done.
    cbn [ok_or mbind result_bind] in Hc. destruct (matches_intended current (je_intended e)) eqn:Hm; [|done].
    cbn [negb] in Hc. apply bind_Ok in Hc as ([] & Hpar & Hc). injection Hc as <-.
    apply (applying_moved self pre e post _ (length pre) true (length post)); try done.
    - by eapply set_applied_valid.
    - by apply applied_shape.
    - unfold forward_progress. lia. }
  unfold record_applied. destruct (find_role self role) as [[? ? ? ? ? ec ep []]|]; try exact Hmove.
  destruct (_ && _); apply journal_unmoved.
Qed.

Lemma record_verified_moved self role observed :
  journal_ok self →
  journal_moved self (record_verified self role observed).1 (record_verified self role observed).2.
Proof.
  intros Hok.
  assert (journal_moved self
    (match check_verified self role observed with
     | Err error => (self, Err error)
     | Ok index => advance_step (update_entry self index (λ entry, set_phase entry PhaseVerified))
     end).1
    (match check_verified self role observed with
     | Err error => (self, Err error)
     | Ok index => advance_step (update_entry self index (λ entry, set_phase entry PhaseVerified))
     end).2) as Hmove.
  { destruct (check_verified self role observed) as [index|] eqn:Hc; [|apply journal_unmoved].
    unfold check_verified in Hc. destruct (decide (jn_state self = JournalApplying)) as [Hst|Hst].
    2: { unfold next_forward_action in Hc. by rewrite bool_decide_eq_false_2 in Hc. }
    pose proof (applying_next self Hok Hst) as Hnext.
    destruct (next_forward_action self) as [[|step r identity]|]; try done.
    destruct Hnext as (pre & e & post & Heq & Hpre & Hpost & -> & He & _ & _ & Hstep).
    case_bool_decide as Hr; [|done]. subst role. cbn [negb orb] in Hc.
    case_bool_decide as Ho; [|done]. cbn [negb] in Hc.
    rewrite (entry_index_middle self pre e post) in Hc; [|apply Hok|done]. injection Hc as <-.
    apply (applying_moved self pre e post _ (S (length pre)) false (length post)); try done.
    - apply set_phase_valid; [|done]. unfold is_applied. by rewrite He.
    - by apply verified_shape.
    - unfold forward_progress. lia. }
  unfold record_verified. destruct (find_role self role) as [[? ? ? ? ? ec ep []]|]; try exact Hmove.
  case_bool_decide; apply journal_unmoved.
Qed.

Lemma installed_moved self :
  journal_ok self → journal_moved self (mark_installed self).1 (mark_installed self).2.
Proof.
  intros Hok. pose proof (journal_step_bound self Hok) as Hb. unfold mark_installed.
  case_bool_decide as Hst; cbn [negb orb]; [|apply journal_unmoved].
  pose proof (applying_next self Hok Hst) as Hnext.
  destruct (next_forward_action self) as [action|]; cbn [is_some orb]; [apply journal_unmoved|].
  case_bool_decide; [apply journal_unmoved|]. destruct Hnext as [Hsh Hstep].
  apply advance_moved; try done. destruct Hok as [Hbind Hschema Hent Hne Hfail Hstate].
  unfold failure_ok in Hfail. rewrite Hst in Hfail.
  split; try done.
  - unfold failure_ok. cbn. destruct (jn_failure_code self); [naive_solver|]. by destruct Hfail.
  - unfold state_ok. cbn. split; [lia|done].
Qed.

Lemma failure_moved self code rollback_possible :
  journal_ok self →
  journal_moved self (record_failure self code rollback_possible).1 (record_failure self code rollback_possible).2.
Proof.
  intros Hok. pose proof (journal_step_bound self Hok) as Hb. unfold record_failure.
  destruct (is_ok (InstallFindingV1_blocker code)) eqn:Hcode; cbn [negb]; [|apply journal_unmoved].
  case_bool_decide as Hf; [destruct (_ && _); apply journal_unmoved|].
  case_bool_decide as Hst; cbn [negb]; [|apply journal_unmoved].
  apply advance_moved; try done. destruct Hok as [Hbind Hschema Hent Hne Hfail Hstate].
  unfold state_ok in Hstate. rewrite Hst in Hstate, Hne. destruct Hstate as (v & a & p & Hsh & Hstep).
  split; try done.
  - cbn. intros _. by apply Hne.
  - unfold failure_ok. cbn. auto.
  - unfold state_ok. cbn. exists v, a, p. split; [done|lia].
Qed.

(** The entries of a forward shape that are to be rolled back. *)
Lemma forward_rollback phases v a p :
  forward_shape phases v a p →
  rollback_shape phases (replicate v PhaseVerified ++ (if a then [PhaseApplied] else [])) 0 p.
Proof.
  intros ->. split; [by rewrite <-app_assoc|]. apply Forall_app. split; [by apply Forall_replicate|].
  destruct a; by repeat constructor.
Qed.

Lemma begin_moved self :
  journal_ok self → journal_moved self (begin_rollback self).1 (begin_rollback self).2.
Proof.
  intros Hok. pose proof (journal_step_bound self Hok) as Hb. unfold begin_rollback.
  destruct (jn_rollback_possible self) eqn:Hrp; cbn [negb orb]; [|apply journal_unmoved].
  destruct (match jn_state self with JournalApplying | JournalInstalled | JournalFailed => true | _ => false end)
    eqn:Hst; cbn [negb]; [|apply journal_unmoved].
  apply advance_moved; try done. destruct Hok as [Hbind Hschema Hent Hne Hfail Hstate].
  assert (∃ v a p, forward_shape (je_phase <$> jn_entries self) v a p ∧
    2 ≤ jn_durable_step self ≤ 3 + 2 * Z.of_nat (length (jn_entries self))) as (v & a & p & Hsh & Hstep).
  { unfold state_ok in Hstate. destruct (jn_state self); try done.
    - destruct Hstate as (v & a & p & Hsh & ->). exists v, a, p. split; [done|].
      apply shape_length in Hsh. unfold forward_progress. destruct a; lia.
    - destruct Hstate as [-> Hsh]. exists (length (jn_entries self)), false, 0%nat. split; [done|lia].
    - destruct Hstate as (v & a & p & Hsh & ->). exists v, a, p. split; [done|].
      apply shape_length in Hsh. unfold forward_progress. destruct a; lia. }
  split; try done.
  - cbn. intros _. apply Hne. by destruct (jn_state self).
  - unfold failure_ok in *. cbn. rewrite Hrp in *. destruct (jn_failure_code self); [naive_solver|done].
  - unfold state_ok. cbn. eexists _, 0%nat, p. split; [by apply forward_rollback|].
    apply shape_length in Hsh. rewrite length_app, length_replicate. destruct a; cbn in *; lia.
Qed.

(** In the rolling-back state the next action is on the last entry that is applied. *)
Lemma rolling_next self held r p :
  journal_ok self → jn_state self = JournalRollingBack →
  rollback_shape (je_phase <$> jn_entries self) held r p →
  match next_rollback_action self with
  | None => held = []
  | Some action => ∃ pre e post held' current, jn_entries self = pre ++ e :: post ∧ held = held' ++ [je_phase e] ∧
      je_phase <$> pre = held' ∧ je_phase <$> post = replicate r PhaseRolledBack ++ replicate p PhasePending ∧
      is_applied e = true ∧ je_current_identity e = Some current ∧
      action = rollback_action (jn_durable_step self + 1) e current
  end.
Proof.
  intros Hok Hst Hsh. pose proof (journal_step_bound self Hok) as Hb. destruct Hok as [_ _ [Hv _] _ Hfail _].
  assert (jn_rollback_possible self = true) as Hrp.
  { unfold failure_ok in Hfail. rewrite Hst in Hfail. destruct (jn_failure_code self); [|by destruct Hfail].
    destruct Hfail as [_ [?|[? _]]]; done. }
  unfold next_rollback_action. rewrite Hst, bool_decide_eq_true_2, Hrp by done. cbn [negb orb].
  pose proof (rollback_next _ _ _ _ Hsh) as Hnext.
  destruct (List.find is_applied (rev (jn_entries self))) as [e|] eqn:Hfind; [|done].
  destruct Hnext as (pre & post & held' & Heq & Hheld & Hpre & Hpost). cbn [mbind option_bind].
  rewrite checked_add_ok by ulia. cbn [mbind option_bind].
  apply List.find_some in Hfind as [_ He].
  assert (is_some (je_current_identity e) = true) as Hcur.
  { rewrite Forall_forall in Hv. assert (InstallJournalEntryV1_validate e = Ok tt) as Hval.
    { apply Hv. rewrite Heq. apply elem_of_app. right. left. }
    unfold InstallJournalEntryV1_validate, validate_phase in Hval. unfold is_applied in He.
    destruct (je_phase e); try done; inv_ok;
      by match goal with H : je_current_identity e = Some _ |- _ => rewrite H end. }
  destruct (je_current_identity e) as [current|] eqn:Hid; [|done]. cbn [mbind option_bind].
  exists pre, e, post, held', current. done.
Qed.

Lemma action_role_of step e current : action_role (rollback_action step e current) = je_role e.
Proof. unfold rollback_action. destruct (je_prior_state e); [|done]. by destruct (is_journal_retention_directory _). Qed.

Lemma completed_moved self action :
  journal_ok self →
  journal_moved self (record_rollback_completed self action).1 (record_rollback_completed self action).2.
Proof.
  intros Hok. pose proof (journal_step_bound self Hok) as Hb. unfold record_rollback_completed.
  case_bool_decide as Hnext; cbn [negb]; [|apply journal_unmoved].
  destruct (decide (jn_state self = JournalRollingBack)) as [Hst|Hst].
  2: { unfold next_rollback_action in Hnext. by rewrite bool_decide_eq_false_2 in Hnext. }
  pose proof (jo_state self Hok) as Hstate. unfold state_ok in Hstate. rewrite Hst in Hstate.
  destruct Hstate as (held & r & p & Hsh & Hlow & Hhigh).
  pose proof (rolling_next self held r p Hok Hst Hsh) as H. rewrite Hnext in H.
  destruct H as (pre & e & post & held' & current & Heq & -> & Hpre & Hpost & He & Hid & ->).
  rewrite action_role_of, (entry_index_middle self pre e post); [|apply Hok|done].
  apply advance_moved; try done. destruct Hok as [Hbind Hschema Hent Hne Hfail _].
  split; try done.
  - eapply update_entries_ok; [done..| |done]. by apply set_phase_valid.
  - intros _ Hnil. cbn in Hnil. rewrite Heq, alter_middle in Hnil. by destruct pre.
  - unfold state_ok. cbn. rewrite Hst, Heq, alter_middle. exists held', (S r), p.
    rewrite Heq, length_app in Hhigh. rewrite !length_app in *. cbn [length] in *. split; [|lia].
    destruct Hsh as [_ Hheld]. apply Forall_app in Hheld as [Hheld _]. split; [|done].
    by rewrite fmap_app, fmap_cons, Hpre, Hpost.
Qed.

Lemma rolled_back_moved self :
  journal_ok self → journal_moved self (mark_rolled_back self).1 (mark_rolled_back self).2.
Proof.
  intros Hok. pose proof (journal_step_bound self Hok) as Hb. unfold mark_rolled_back.
  case_bool_decide as Hst; cbn [negb orb]; [|apply journal_unmoved].
  pose proof (jo_state self Hok) as Hstate. unfold state_ok in Hstate. rewrite Hst in Hstate.
  destruct Hstate as (held & r & p & Hsh & Hlow & Hhigh).
  pose proof (rolling_next self held r p Hok Hst Hsh) as Hnext.
  destruct (next_rollback_action self) as [action|]; cbn [is_some]; [apply journal_unmoved|]. subst held.
  apply advance_moved; try done. destruct Hok as [Hbind Hschema Hent Hne Hfail _].
  unfold failure_ok in Hfail. rewrite Hst in *.
  split; try done.
  - cbn. intros _. by apply Hne.
  - unfold failure_ok. cbn. destruct (jn_failure_code self); naive_solver.
  - unfold state_ok. cbn in *. exists r, p. split; [done|lia].
Qed.

Lemma pending_new role intended sibling prior entry :
  InstallJournalEntryV1_new role intended sibling prior = Ok entry → je_phase entry = PhasePending.
Proof. unfold InstallJournalEntryV1_new. intros. inv_ok. done. Qed.

Lemma journal_ok_new bindings :
  InstallJournalBindingsV1_validate bindings = Ok tt → journal_ok (InstallJournalV1_new bindings).
Proof. intros Hb. split; try done. repeat constructor. Qed.

(** ** Sequences of operations *)

(** An operation of the journal, as the installer may request it; the entries of a
    plan come from the entry constructor. *)
Inductive journal_op : Type :=
| OpPrepare (entries : list InstallJournalEntryV1)
| OpStartApplying
| OpRecordApplied (role : InstallRoleV1) (current : InstallObjectIdentityV1)
    (parent : option InstallObjectIdentityV1)
| OpRecordVerified (role : InstallRoleV1) (observed : InstallObjectIdentityV1)
| OpMarkInstalled
| OpRecordFailure (code : string) (rollback_possible : bool)
| OpBeginRollback
| OpRollbackCompleted (action : InstallJournalRollbackActionV1)
| OpMarkRolledBack.

Definition journal_apply (self : InstallJournalV1) (op : journal_op)
    : InstallJournalV1 * result InstallJournalError unit :=
  match op with
  | OpPrepare entries => prepare self entries
  | OpStartApplying => start_applying self
  | OpRecordApplied role current parent => record_applied self role current parent
  | OpRecordVerified role observed => record_verified self role observed
  | OpMarkInstalled => mark_installed self
  | OpRecordFailure code rollback_possible => record_failure self code rollback_possible
  | OpBeginRollback => begin_rollback self
  | OpRollbackCompleted action => record_rollback_completed self action
  | OpMarkRolledBack => mark_rolled_back self
  end.

Definition op_constructed (op : journal_op) : Prop :=
  match op with
  | OpPrepare entries => Forall (λ e, ∃ role intended sibling prior,
      InstallJournalEntryV1_new role intended sibling prior = Ok e) entries
  | _ => True
  end.

Lemma apply_moved self op :
  journal_ok self → op_constructed op →
  journal_moved self (journal_apply self op).1 (journal_apply self op).2.
Proof.
  intros Hok Hop. destruct op; cbn.
  - apply prepare_moved; [done|]. eapply Forall_impl; [exact Hop|].
    intros e (role & intended & sibling & prior & He). by eapply pending_new.
  - by apply start_moved.
  - by apply record_applied_moved.
  - by apply record_verified_moved.
  - by apply installed_moved.
  - by apply failure_moved.
  - by apply begin_moved.
  - by apply completed_moved.
  - by apply rolled_back_moved.
Qed.

Definition journal_run (self : InstallJournalV1) (ops : list journal_op) : InstallJournalV1 :=
  foldl (λ journal op, (journal_apply journal op).1) self ops.

Lemma run_ok self ops :
  journal_ok self → Forall op_constructed ops →
  journal_ok (journal_run self ops) ∧ jn_bindings (journal_run self ops) = jn_bindings self ∧
  jn_durable_step self ≤ jn_durable_step (journal_run self ops).
Proof.
  intros Hok Hops. revert self Hok. induction Hops as [|op ops Hop _ IH]; intros self Hok; [done|].
  change (journal_run self (op :: ops)) with (journal_run (journal_apply self op).1 ops).
  pose proof (apply_moved self op Hok Hop) as [->|(_ & Hok' & Hstep & Hb)]; [by apply IH|].
  apply IH in Hok' as (? & ? & ?). split_and!; [done|congruence|lia].
Qed.

(** C16: Whatever operations are requested of a journal and in whatever order, from
    its creation on, the journal can always be read back by a later process, keeps
    its bindings, and takes at most 101 durable steps.  A request that changes it
    succeeds and takes exactly one step; every refused request leaves it as it was.
    The installed state is reached only with every entry verified, and the
    rolled-back state only with none of them left applied. *)
Theorem journal_survives_crash bindings ops op :
  InstallJournalBindingsV1_validate bindings = Ok tt → Forall op_constructed (op :: ops) →
  let journal := journal_run (InstallJournalV1_new bindings) ops in
  InstallJournalV1_validate journal = Ok tt ∧ jn_bindings journal = bindings ∧
  0 ≤ jn_durable_step journal ≤ 101 ∧ NoDup (je_role <$> jn_entries journal) ∧
  (jn_state journal = JournalInstalled →
    Forall (λ e, je_phase e = PhaseVerified) (jn_entries journal)) ∧
  (jn_state journal = JournalRolledBack →
    Forall (λ e, je_phase e = PhaseRolledBack ∨ je_phase e = PhasePending) (jn_entries journal)) ∧
  match journal_apply journal op with
  | (journal', Ok tt) => journal' = journal ∨
      (jn_durable_step journal' = jn_durable_step journal + 1 ∧ InstallJournalV1_validate journal' = Ok tt)
  | (journal', Err _) => journal' = journal
  end.
Proof.
  intros Hb Hops journal. apply Forall_cons in Hops as [Hop Hops].
  pose proof (run_ok _ ops (journal_ok_new _ Hb) Hops) as (Hok & Hbind & _). fold journal in Hok, Hbind.
  pose proof (jo_state _ Hok) as Hst. unfold state_ok in Hst.
  split_and!; try done.
  - by apply journal_ok_validates.
  - by apply journal_step_bound.
  - by apply journal_step_bound.
  - apply entries_ok_roles, Hok.
  - intros Hs. rewrite Hs in Hst. destruct Hst as [_ Hsh]. unfold forward_shape in Hsh. cbn in Hsh.
    rewrite app_nil_r in Hsh. by apply phases_replicate in Hsh.
  - intros Hs. rewrite Hs in Hst. destruct Hst as (r & p & [Hsh _] & _).
    apply (Forall_fmap je_phase (λ q, q = PhaseRolledBack ∨ q = PhasePending)). rewrite Hsh. cbn [app].
    apply Forall_app. split; apply Forall_replicate; auto.
  - pose proof (apply_moved journal op Hok Hop) as Hm. unfold journal_moved in Hm.
    destruct (journal_apply journal op) as [journal' [[]|]]; cbn [fst snd] in Hm.
    + destruct Hm as [->|(_ & Hok' & Hstep & _)]; [by left|]. right. split; [done|]. by apply journal_ok_validates.
    + destruct Hm as [->|(? & _)]; done.
Qed.

(** A transaction of one directory and one file, interrupted and rolled back. *)
Module InstallJournalExample.
Definition hex (n : nat) : string := String.concat "" (replicate n "a"%string).
Definition artifact : DeploymentArtifactIdentityV1 :=
  mkDeploymentArtifactIdentityV1 (hex 40) "0.1.0".
Definition bindings : InstallJournalBindingsV1 :=
  mkInstallJournalBindingsV1 (hex 32) (hex 32) (hex 64) artifact (hex 64) (hex 64) (hex 64).
Definition directory_identity (inode : Z) : InstallObjectIdentityV1 :=
  mkInstallObjectIdentityV1 KindDirectory 1 inode 2 None 493 0 0.
Definition file_identity (inode : Z) : InstallObjectIdentityV1 :=
  mkInstallObjectIdentityV1 KindRegularFile 1 inode 1 (Some (hex 64)) 493 0 0.
Definition directory_entry : InstallJournalEntryV1 :=
  mkInstallJournalEntryV1 ProductLibexecRoot "/usr/libexec/l2-loop"
    (mkInstallIntendedIdentityV1 KindDirectory None 493 0 0) None PriorAbsent None None PhasePending.
Definition file_entry : InstallJournalEntryV1 :=
  mkInstallJournalEntryV1 Daemon "/usr/libexec/l2-loop/l2-loopd"
    (mkInstallIntendedIdentityV1 KindRegularFile (Some (hex 64)) 493 0 0) (Some "d.new"%string) PriorAbsent
    None None PhasePending.
Definition entries : list InstallJournalEntryV1 := [file_entry; directory_entry].

Lemma constructed : Forall (λ e, ∃ role intended sibling prior,
  InstallJournalEntryV1_new role intended sibling prior = Ok e) entries.
Proof.
  repeat constructor.
  - exists Daemon, (je_intended file_entry), (Some "d.new"%string), PriorAbsent. vm_compute. reflexivity.
  - exists ProductLibexecRoot, (je_intended directory_entry), None, PriorAbsent. vm_compute. reflexivity.
Defined.

Definition ops : list journal_op :=
  [OpPrepare entries; OpStartApplying; OpRecordApplied ProductLibexecRoot (directory_identity 5) None;
   OpRecordVerified ProductLibexecRoot (directory_identity 5); OpRecordApplied Daemon (file_identity 6) None;
   OpBeginRollback; OpRollbackCompleted (RemoveExact 7 Daemon (file_identity 6) None)].
Definition undo_directory : journal_op :=
  OpRollbackCompleted (RemoveExact 8 ProductLibexecRoot (directory_identity 5) None).

Lemma journal_survives_crash_witness :
  (let journal := journal_run (InstallJournalV1_new bindings) ops in
   (jn_state journal, jn_durable_step journal, je_phase <$> jn_entries journal)
   = (JournalRollingBack, 7, [PhaseVerified; PhaseRolledBack])) ∧
  InstallJournalV1_validate (journal_run (InstallJournalV1_new bindings) ops) = Ok tt.
Proof.
  split; [vm_compute; reflexivity|].
  refine (proj1 (journal_survives_crash bindings ops undo_directory _ _)); [vm_compute; reflexivity|].
  apply Forall_cons_2; [exact I|]. apply Forall_cons_2; [exact constructed|].
  do 6 (apply Forall_cons_2; [exact I|]). apply Forall_nil_2.
Defined.
End InstallJournalExample.
