(* ===== verification/InstallPlan.v ===== *)
(** The installation planner and service of [l2-loop-agent] ([installation.rs]) over
    the ports of [ports.rs]: which actions an authorized source and the state of its
    destinations lead to, and the order in which the service has them performed,
    recorded and rolled back. *)
From S2P Require Import Prelude Domain Text Deployment Installation InstallJournal.

#[export] Instance InstallCommandV1_eq_dec : EqDecision InstallCommandV1.
Proof. solve_decision. Defined.

(** ** Sources, destinations and actions *)
Inductive InstallDestinationStateV1 : Type :=
| AbsentDirectory | AbsentFile | PriorOwnedFile | ExistingPrerequisiteDirectory.

Record InstallDestinationSnapshotV1 : Type := mkInstallDestinationSnapshotV1 {
  dt_role : InstallRoleV1;
  dt_state : InstallDestinationStateV1;
}.

Inductive InstallPlanningError : Type := InvalidSource | InvalidDestination | PlanInvalidJournal | TransactionConflict.

Record InstallSourceSnapshotV1 : Type := mkInstallSourceSnapshotV1 {
  so_authorization : InstallAuthorizationV1;
  so_artifact : DeploymentArtifactIdentityV1;
  so_bundle_manifest_sha256 : string;
  so_deployment_authorization_sha256 : string;
  so_performance_evidence_sha256 : string;
}.

Definition InstallSourceSnapshotV1_new (authorization : InstallAuthorizationV1)
    (artifact : DeploymentArtifactIdentityV1)
    (bundle_manifest_sha256 deployment_authorization_sha256 performance_evidence_sha256 : string)
    : result InstallPlanningError InstallSourceSnapshotV1 :=
  if negb (is_ok (DeploymentArtifactIdentityV1_validate artifact))
     || negb (is_lower_hex_text bundle_manifest_sha256 64)
     || negb (is_lower_hex_text deployment_authorization_sha256 64)
     || negb (is_lower_hex_text performance_evidence_sha256 64)
  then Err InvalidSource
  else Ok (mkInstallSourceSnapshotV1 authorization artifact bundle_manifest_sha256
             deployment_authorization_sha256 performance_evidence_sha256).

Inductive InstallActionV1 : Type :=
| CreateDirectory (role : InstallRoleV1)
| InstallAbsentFile (role : InstallRoleV1)
| UpgradeOwnedFile (role : InstallRoleV1)
| VerifyInstalledObject (role : InstallRoleV1)
| RemoveOwnedEmptyDirectory (role : InstallRoleV1).

#[export] Instance InstallActionV1_eq_dec : EqDecision InstallActionV1.
Proof. solve_decision. Defined.

Definition action_role (self : InstallActionV1) : InstallRoleV1 :=
  match self with
  | CreateDirectory role | InstallAbsentFile role | UpgradeOwnedFile role
  | VerifyInstalledObject role | RemoveOwnedEmptyDirectory role => role
  end.

Record InstallJournalSnapshotV1 : Type := mkInstallJournalSnapshotV1 {
  js_transaction_id : string;
  js_completed_actions : list InstallActionV1;
}.

Definition InstallJournalSnapshotV1_new (transaction_id : string) (completed_actions : list InstallActionV1)
    : result InstallPlanningError InstallJournalSnapshotV1 :=
  if negb (is_lower_hex_text transaction_id 32) then Err PlanInvalidJournal
  else Ok (mkInstallJournalSnapshotV1 transaction_id completed_actions).

Record InstallPlanV1 : Type := mkInstallPlanV1 {
  pl_authorization_id : string;
  pl_transaction_id : string;
  pl_operation : InstallOperationV1;
  pl_artifact : DeploymentArtifactIdentityV1;
  pl_actions : list InstallActionV1;
}.

Record InstallPlanOutcomeV1 : Type := mkInstallPlanOutcomeV1 {
  po_report : InstallReportV1;
  po_plan : option InstallPlanV1;
}.

(** ** The planner *)

(** The derived order of [InstallRoleV1], that of its declaration. *)
Definition role_index (role : InstallRoleV1) : Z :=
  match role with
  | EvidenceRoot => 0 | Daemon => 1 | Cli => 2 | UsrRoot => 3 | UsrBinRoot => 4 | UsrLibRoot => 5
  | UsrLibexecRoot => 6 | ProductLibexecRoot => 7 | UsrLibSystemdRoot => 8 | SystemdUnitRoot => 9
  | UsrShareRoot => 10 | UsrShareDocRoot => 11 | ProductDocRoot => 12 | EtcRoot => 13 | ConfigRoot => 14
  | VarRoot => 15 | VarLibRoot => 16 | StateRoot => 17 | GatesRoot => 18 | EvidenceParent => 19
  | InstallRoot => 20 | TransactionsRoot => 21 | DeploymentChecker => 22 | Installer => 23
  | HostChecker => 24 | EbpfObject => 25 | BundleManifest => 26 | BundleChecksums => 27
  | ServiceUnit => 28 | AuthorizationExample => 29 | DeploymentAuthorization => 30 | PerformanceEvidence => 31
  end.

Fixpoint repeats_role (destinations : list InstallDestinationSnapshotV1) : bool :=
  match destinations with
  | first :: ((second :: _) as rest) => bool_decide (dt_role first = dt_role second) || repeats_role rest
  | _ => false
  end.

(** The action a destination leads to; none for a directory that is there. *)
Definition plan_action (operation : InstallOperationV1) (destination : InstallDestinationSnapshotV1)
    : result InstallPlanningError (option InstallActionV1) :=
  let role := dt_role destination in
  match dt_state destination with
  | AbsentDirectory => Ok (Some (CreateDirectory role))
  | AbsentFile => Ok (Some (InstallAbsentFile role))
  | PriorOwnedFile =>
      if bool_decide (operation = OperationUpgrade) then Ok (Some (UpgradeOwnedFile role)) else Err InvalidDestination
  | ExistingPrerequisiteDirectory => if install_order role <? 20 then Ok None else Err InvalidDestination
  end.

Definition add_action (operation : InstallOperationV1) (actions : list InstallActionV1)
    (destination : InstallDestinationSnapshotV1) : result InstallPlanningError (list InstallActionV1) :=
  action ← plan_action operation destination;
  Ok (match action with
      | Some action => actions ++ [action; VerifyInstalledObject (dt_role destination)]
      | None => actions
      end).

Definition planner_plan (source : InstallSourceSnapshotV1) (destinations : list InstallDestinationSnapshotV1)
    (prior_journal : option InstallJournalSnapshotV1) : result InstallPlanningError InstallPlanV1 :=
  let authorization := so_authorization source in
  if is_some prior_journal then Err TransactionConflict
  else if bool_decide (iu_operation authorization = OperationRollback) then Err InvalidSource
  else
    let destinations := sort_by_key (λ destination, role_index (dt_role destination)) destinations in
    if repeats_role destinations then Err InvalidDestination
    else
      actions ← try_fold (add_action (iu_operation authorization)) [] destinations;
      Ok (mkInstallPlanV1 (iu_authorization_id authorization) (iu_transaction_id authorization)
            (iu_operation authorization) (so_artifact source) actions).

(** ** The ports *)
Inductive InstallFaultPointV1 : Type :=
| FaultDirectoryCreate | FaultSiblingCreate | FaultPayloadWrite | FaultOwnership | FaultMode | FaultHash
| FaultFileSync | FaultBackupRename | FaultFinalRename | FaultDirectorySync | FaultJournalSync
| FaultJournalMove | FaultVerify | FaultRollback.

Inductive InstallIoError : Type :=
| InstallUnavailable | UnsafeObject | IdentityChanged | UnsupportedMetadata
| FaultInjected (point : InstallFaultPointV1).

Class InstallPorts (W : Type) : Type := {
  load_source : W → W * result InstallIoError InstallSourceSnapshotV1;
  host_identity_sha256 : W → W * result InstallIoError string;
  inspect_destinations : W → InstallSourceSnapshotV1 → W * result InstallIoError (list InstallDestinationSnapshotV1);
  inspect_prior_journal : W → string → W * result InstallIoError (option InstallJournalSnapshotV1);
  begin_transaction : W → InstallPlanV1 → W * result InstallIoError unit;
  apply_action : W → InstallActionV1 → W * result InstallIoError unit;
  record_completed : W → InstallActionV1 → W * result InstallIoError unit;
  complete_transaction : W → InstallPlanV1 → W * result InstallIoError unit;
  writer_begin_rollback : W → InstallJournalSnapshotV1 → W * result InstallIoError unit;
  rollback_action : W → InstallActionV1 → W * result InstallIoError unit;
  record_rolled_back : W → InstallActionV1 → W * result InstallIoError unit;
  complete_rollback : W → InstallJournalSnapshotV1 → W * result InstallIoError unit;
  install_wall_time_ns : W → Z;
}.

Inductive InstallServiceError : Type := InputUnavailable | InstallInvalidClock | InstallServiceInvalidReport.

(** ** Preparation *)
Record PreparedInstall : Type := mkPreparedInstall {
  pi_source : InstallSourceSnapshotV1;
  pi_destinations : list InstallDestinationSnapshotV1;
  pi_journal : option InstallJournalSnapshotV1;
  pi_captured_at_unix_ms : Z;
  pi_blocker : option string;
}.

Definition install_error {A} (m : result InstallContractError A) : result InstallServiceError A :=
  map_err (λ _, InstallServiceInvalidReport) m.

Definition prepared_report (self : PreparedInstall) (command : InstallCommandV1)
    (findings : list InstallFindingV1) (mutations_performed : bool) : result InstallServiceError InstallReportV1 :=
  let authorization := so_authorization (pi_source self) in
  install_error (InstallReportV1_derive command (iu_operation authorization) (iu_authorization_id authorization)
    (iu_transaction_id authorization) (so_artifact (pi_source self)) findings (pi_captured_at_unix_ms self)
    mutations_performed).

Definition prepared_blocked_report (self : PreparedInstall) (command : InstallCommandV1) (code : string)
    (mutations_performed : bool) : result InstallServiceError InstallReportV1 :=
  finding ← install_error (InstallFindingV1_blocker code);
  prepared_report self command [finding] mutations_performed.

Definition source_binding_failure (source : InstallSourceSnapshotV1) (captured_at_unix_ms : Z) : option string :=
  let authorization := so_authorization source in
  if negb (is_ok (InstallAuthorizationV1_validate_at authorization captured_at_unix_ms)) then Some GI_AUTH_EXPIRED
  else if negb (bool_decide (iu_artifact_commit_sha authorization = da_commit_sha (so_artifact source)))
          || negb (bool_decide (iu_bundle_manifest_sha256 authorization = so_bundle_manifest_sha256 source))
          || negb (bool_decide (iu_deployment_authorization_sha256 authorization
                                = so_deployment_authorization_sha256 source))
          || negb (bool_decide (iu_performance_evidence_sha256 authorization = so_performance_evidence_sha256 source))
  then Some GI_AUTH_ARTIFACT else None.

Definition planning_error_code (error : InstallPlanningError) : string :=
  match error with
  | TransactionConflict | PlanInvalidJournal => GI_TRANSACTION_CONFLICT
  | InvalidSource | InvalidDestination => GI_DESTINATION_FOREIGN
  end.

Section service.
Context {W : Type} `{InstallPorts W}.
Local Notation outcome := (result InstallServiceError InstallReportV1).

Definition install_captured_at_unix_ms (w : W) : result InstallServiceError Z :=
  let elapsed := install_wall_time_ns w in
  if elapsed <? 0 then Err InstallInvalidClock
  else ok_or (try_from_wide U64_MAX (elapsed / 1000000)) InstallInvalidClock.

(** The host's identity, asked for only when nothing blocks yet. *)
Definition read_host_identity (w : W) (blocker : option string) : W * (option string * string) :=
  match blocker with
  | Some _ => (w, (blocker, ""))
  | None =>
      match host_identity_sha256 w with
      | (w, Ok identity) => (w, (None, identity))
      | (w, Err _) => (w, (Some GI_AUTH_HOST, ""))
      end
  end.

Definition authorized_for (source : InstallSourceSnapshotV1) (at_ms : Z) (identity : string) : bool :=
  let authorization := so_authorization source in
  is_ok (InstallAuthorizationV1_validate_for authorization at_ms (iu_operation authorization) (so_artifact source)
           (so_bundle_manifest_sha256 source) identity (so_deployment_authorization_sha256 source)
           (so_performance_evidence_sha256 source)).

Definition read_destinations (w : W) (source : InstallSourceSnapshotV1) (blocker : option string)
    : W * (option string * list InstallDestinationSnapshotV1) :=
  match blocker with
  | Some _ => (w, (blocker, []))
  | None =>
      match inspect_destinations w source with
      | (w, Ok snapshot) => (w, (None, snapshot))
      | (w, Err _) => (w, (Some GI_DESTINATION_FOREIGN, []))
      end
  end.

Definition read_prior_journal (w : W) (source : InstallSourceSnapshotV1) (blocker : option string)
    : W * (option string * option InstallJournalSnapshotV1) :=
  match blocker with
  | Some _ => (w, (blocker, None))
  | None =>
      match inspect_prior_journal w (iu_transaction_id (so_authorization source)) with
      | (w, Ok snapshot) => (w, (None, snapshot))
      | (w, Err _) => (w, (Some GI_TRANSACTION_CONFLICT, None))
      end
  end.

Definition install_prepare (w : W) (command : InstallCommandV1) : W * result InstallServiceError PreparedInstall :=
  match install_captured_at_unix_ms w with
  | Err error => (w, Err error)
  | Ok at_ms =>
      match load_source w with
      | (w, Err _) => (w, Err InputUnavailable)
      | (w, Ok source) =>
          let '(w, (blocker, identity)) := read_host_identity w (source_binding_failure source at_ms) in
          let blocker := if negb (is_some blocker) && negb (authorized_for source at_ms identity)
                         then Some GI_AUTH_HOST else blocker in
          let '(w, (blocker, destinations)) := read_destinations w source blocker in
          let '(w, (blocker, journal)) := read_prior_journal w source blocker in
          let blocker := if bool_decide (command = CommandRollback)
                            && negb (bool_decide (iu_operation (so_authorization source) = OperationRollback))
                         then Some GI_TRANSACTION_CONFLICT else blocker in
          (w, Ok (mkPreparedInstall source destinations journal at_ms blocker))
      end
  end.

(** ** The commands *)
Definition install_plan (w : W) : W * result InstallServiceError InstallPlanOutcomeV1 :=
  match install_prepare w CommandPlan with
  | (w, Err error) => (w, Err error)
  | (w, Ok prepared) =>
      let blocked code := report ← prepared_blocked_report prepared CommandPlan code false;
                          Ok (mkInstallPlanOutcomeV1 report None) in
      match pi_blocker prepared with
      | Some code => (w, blocked code)
      | None =>
          match planner_plan (pi_source prepared) (pi_destinations prepared) (pi_journal prepared) with
          | Err error => (w, blocked (planning_error_code error))
          | Ok plan => (w, report ← prepared_report prepared CommandPlan [] false;
                           Ok (mkInstallPlanOutcomeV1 report (Some plan)))
          end
      end
  end.

(** One action after the other, each recorded before the next; [None] when all were
    performed. *)
Fixpoint perform_actions (w : W) (perform record : W → InstallActionV1 → W * result InstallIoError unit)
    (actions : list InstallActionV1) : W * bool :=
  match actions with
  | [] => (w, true)
  | action :: actions =>
      match perform w action with
      | (w, Err _) => (w, false)
      | (w, Ok _) =>
          match record w action with
          | (w, Err _) => (w, false)
          | (w, Ok _) => perform_actions w perform record actions
          end
      end
  end.

Definition install_apply (w : W) : W * outcome :=
  match install_prepare w CommandApply with
  | (w, Err error) => (w, Err error)
  | (w, Ok prepared) =>
      match pi_blocker prepared with
      | Some code => (w, prepared_blocked_report prepared CommandApply code false)
      | None =>
          match planner_plan (pi_source prepared) (pi_destinations prepared) (pi_journal prepared) with
          | Err error => (w, prepared_blocked_report prepared CommandApply (planning_error_code error) false)
          | Ok plan =>
              let failed := prepared_blocked_report prepared CommandApply GI_WRITE_FAILED true in
              match begin_transaction w plan with
              | (w, Err _) => (w, failed)
              | (w, Ok _) =>
                  match perform_actions w apply_action record_completed (pl_actions plan) with
                  | (w, false) => (w, failed)
                  | (w, true) =>
                      match complete_transaction w plan with
                      | (w, Err _) => (w, failed)
                      | (w, Ok _) => (w, prepared_report prepared CommandApply [] true)
                      end
                  end
              end
          end
      end
  end.

Definition install_status (w : W) : W * outcome :=
  match install_prepare w CommandStatus with
  | (w, Err error) => (w, Err error)
  | (w, Ok prepared) =>
      (w, match pi_blocker prepared with
          | Some code => prepared_blocked_report prepared CommandStatus code false
          | None => prepared_report prepared CommandStatus [] false
          end)
  end.

Definition install_rollback (w : W) : W * outcome :=
  match install_prepare w CommandRollback with
  | (w, Err error) => (w, Err error)
  | (w, Ok prepared) =>
      match pi_blocker prepared with
      | Some code => (w, prepared_blocked_report prepared CommandRollback code false)
      | None =>
          match pi_journal prepared with
          | None => (w, prepared_blocked_report prepared CommandRollback GI_TRANSACTION_CONFLICT false)
          | Some journal =>
              let failed := prepared_blocked_report prepared CommandRollback GI_ROLLBACK_IDENTITY true in
              match writer_begin_rollback w journal with
              | (w, Err _) => (w, failed)
              | (w, Ok _) =>
                  match perform_actions w rollback_action record_rolled_back (rev (js_completed_actions journal)) with
                  | (w, false) => (w, failed)
                  | (w, true) =>
                      match complete_rollback w journal with
                      | (w, Err _) => (w, failed)
                      | (w, Ok _) => (w, prepared_report prepared CommandRollback [] true)
                      end
                  end
              end
          end
      end
  end.
End service.

(** ** The planner's order *)
Lemma role_index_inj a b : role_index a = role_index b → a = b.
Proof. destruct a, b; cbn; intros; done || lia. Qed.

Lemma by_role_le x y :
  cmp_le (λ x y, role_index (dt_role x) ?= role_index (dt_role y)) x y ↔ role_index (dt_role x) ≤ role_index (dt_role y).
Proof. unfold cmp_le. by rewrite Z.compare_gt_iff, Z.nlt_ge. Qed.

Lemma repeats_role_cons first second rest :
  repeats_role (first :: second :: rest) = bool_decide (dt_role first = dt_role second) || repeats_role (second :: rest).
Proof. reflexivity. Qed.

Lemma repeats_role_NoDup destinations :
  Sorted (cmp_le (λ x y, role_index (dt_role x) ?= role_index (dt_role y))) destinations →
  repeats_role destinations = false ↔ NoDup (dt_role <$> destinations).
Proof.
  induction destinations as [|first rest IH]; intros Hs; [split; [constructor|done]|].
  assert (Sorted (cmp_le (λ x y, role_index (dt_role x) ?= role_index (dt_role y))) rest) as Hrest by by inversion Hs.
  destruct rest as [|second rest]; [split; [intros _; apply NoDup_singleton|done]|].
  rewrite repeats_role_cons, orb_false_iff, (IH Hrest), bool_decide_eq_false, (fmap_cons dt_role first), NoDup_cons.
  split; [|intros [Hnot ?]; split; [intros Heq; apply Hnot; rewrite Heq; cbn; constructor|done]].
  intros [Hne Hnd]. split; [|done]. intros Hin. apply list_elem_of_fmap in Hin as (d & Hrole & Hd).
  assert (role_index (dt_role first) ≤ role_index (dt_role second)) as H1.
  { inversion Hs as [|? ? ? Hh]; subst. inversion Hh as [|? ? Hle]; subst. by apply by_role_le. }
  apply Sorted_StronglySorted in Hrest; [|intros x y z; rewrite !by_role_le; lia].
  apply elem_of_cons in Hd as [->|Hd]; [done|].
  inversion Hrest as [|? ? ? Hall]; subst. rewrite Forall_forall in Hall. specialize (Hall d Hd). rewrite by_role_le in Hall.
  apply Hne, role_index_inj. rewrite Hrole in *. lia.
Qed.

(** *** What a plan consists of *)
Definition admissible (operation : InstallOperationV1) (destination : InstallDestinationSnapshotV1) : Prop :=
  match dt_state destination with
  | AbsentDirectory | AbsentFile => True
  | PriorOwnedFile => operation = OperationUpgrade
  | ExistingPrerequisiteDirectory => is_directory (dt_role destination) = true
  end.

Definition destination_actions (destination : InstallDestinationSnapshotV1) : list InstallActionV1 :=
  let role := dt_role destination in
  match dt_state destination with
  | AbsentDirectory => [CreateDirectory role; VerifyInstalledObject role]
  | AbsentFile => [InstallAbsentFile role; VerifyInstalledObject role]
  | PriorOwnedFile => [UpgradeOwnedFile role; VerifyInstalledObject role]
  | ExistingPrerequisiteDirectory => []
  end.

Lemma add_action_Ok operation actions destination actions' :
  add_action operation actions destination = Ok actions' ↔
  admissible operation destination ∧ actions' = actions ++ destination_actions destination.
Proof.
  unfold add_action, plan_action, admissible, destination_actions, is_directory. destruct destination as [role state].
  destruct state; cbn; repeat case_bool_decide; try (destruct (_ <? 20)); cbn; rewrite ?app_nil_r;
    split; naive_solver.
Qed.

Lemma add_actions_Ok operation destinations actions actions' :
  try_fold (add_action operation) actions destinations = Ok actions' ↔
  Forall (admissible operation) destinations ∧ actions' = actions ++ concat (destination_actions <$> destinations).
Proof.
  revert actions. induction destinations as [|d l IH]; intros actions; cbn.
  { rewrite app_nil_r, Forall_nil. naive_solver. }
  rewrite bind_Ok, Forall_cons. setoid_rewrite add_action_Ok. setoid_rewrite IH. rewrite app_assoc. naive_solver.
Qed.

Definition by_declaration (destinations : list InstallDestinationSnapshotV1) : list InstallDestinationSnapshotV1 :=
  sort_by_key (λ destination, role_index (dt_role destination)) destinations.

Lemma by_declaration_sorted destinations :
  Sorted (cmp_le (λ x y, role_index (dt_role x) ?= role_index (dt_role y))) (by_declaration destinations).
Proof. apply sort_by_sorted. intros x y. apply Z.compare_antisym. Qed.

Lemma by_declaration_Permutation destinations : by_declaration destinations ≡ₚ destinations.
Proof. apply sort_by_Permutation. Qed.

(** ** What the writer is asked to do *)
Inductive WriterCall : Type :=
| CallBegin (plan : InstallPlanV1) | CallApplied (action : InstallActionV1)
| CallRecorded (action : InstallActionV1) | CallCompleted (plan : InstallPlanV1)
| CallBeginRollback (journal : InstallJournalSnapshotV1) | CallRolledBack (action : InstallActionV1)
| CallUnrecorded (action : InstallActionV1) | CallRollbackCompleted (journal : InstallJournalSnapshotV1).

Definition succeeded (r : result InstallIoError unit) (call : WriterCall) : list WriterCall :=
  match r with Ok _ => [call] | Err _ => [] end.

(** The readers write nothing; [writer_log] has the calls of the writer that succeeded.
    The time of an authorization is a [u64]. *)
Class InstallPortsSpec (W : Type) `{InstallPorts W} : Type := {
  writer_log : W → list WriterCall;
  load_source_typed w w' source :
    load_source w = (w', Ok source) → is_u64 (iu_issued_at_unix_ms (so_authorization source));
  load_source_log w : writer_log (load_source w).1 = writer_log w;
  host_identity_log w : writer_log (host_identity_sha256 w).1 = writer_log w;
  inspect_destinations_log w source : writer_log (inspect_destinations w source).1 = writer_log w;
  inspect_prior_journal_log w id : writer_log (inspect_prior_journal w id).1 = writer_log w;
  begin_transaction_log w plan : writer_log (begin_transaction w plan).1
    = writer_log w ++ succeeded (begin_transaction w plan).2 (CallBegin plan);
  apply_action_log w action : writer_log (apply_action w action).1
    = writer_log w ++ succeeded (apply_action w action).2 (CallApplied action);
  record_completed_log w action : writer_log (record_completed w action).1
    = writer_log w ++ succeeded (record_completed w action).2 (CallRecorded action);
  complete_transaction_log w plan : writer_log (complete_transaction w plan).1
    = writer_log w ++ succeeded (complete_transaction w plan).2 (CallCompleted plan);
  begin_rollback_log w journal : writer_log (writer_begin_rollback w journal).1
    = writer_log w ++ succeeded (writer_begin_rollback w journal).2 (CallBeginRollback journal);
  rollback_action_log w action : writer_log (rollback_action w action).1
    = writer_log w ++ succeeded (rollback_action w action).2 (CallRolledBack action);
  record_rolled_back_log w action : writer_log (record_rolled_back w action).1
    = writer_log w ++ succeeded (record_rolled_back w action).2 (CallUnrecorded action);
  complete_rollback_log w journal : writer_log (complete_rollback w journal).1
    = writer_log w ++ succeeded (complete_rollback w journal).2 (CallRollbackCompleted journal);
}.

Definition pairs (f g : InstallActionV1 → WriterCall) (actions : list InstallActionV1) : list WriterCall :=
  concat ((λ action, [f action; g action]) <$> actions).

Definition applied_calls (plan : InstallPlanV1) : list WriterCall :=
  CallBegin plan :: pairs CallApplied CallRecorded (pl_actions plan) ++ [CallCompleted plan].

Definition rolled_back_calls (journal : InstallJournalSnapshotV1) : list WriterCall :=
  CallBeginRollback journal :: pairs CallRolledBack CallUnrecorded (rev (js_completed_actions journal))
    ++ [CallRollbackCompleted journal].

Section log.
Context {W : Type} `{InstallPortsSpec W}.
Implicit Types (w : W).

(** [w'] has the calls of [w] and some of [calls], all of them exactly if [full]. *)
Definition some_of w w' (calls : list WriterCall) (full : Prop) : Prop :=
  ∃ made left, writer_log w' = writer_log w ++ made ∧ calls = made ++ left ∧ (left = [] ↔ full).

Lemma perform_some_of perform record f g actions w w' b :
  (∀ w a, writer_log (perform w a).1 = writer_log w ++ succeeded (perform w a).2 (f a)) →
  (∀ w a, writer_log (record w a).1 = writer_log w ++ succeeded (record w a).2 (g a)) →
  perform_actions w perform record actions = (w', b) → some_of w w' (pairs f g actions) (b = true).
Proof.
  intros Hp Hr. revert w. induction actions as [|a actions IH]; intros w; cbn.
  { intros [= <- <-]. by exists [], []; rewrite app_nil_r. }
  pose proof (Hp w a) as Hpw. destruct (perform w a) as [w1 [[]|e]]; cbn in Hpw.
  2:{ intros [= <- <-]. by exists [], (f a :: g a :: pairs f g actions). }
  pose proof (Hr w1 a) as Hrw. destruct (record w1 a) as [w2 [[]|e]]; cbn in Hrw.
  2:{ intros [= <- <-]. exists [f a], (g a :: pairs f g actions). by rewrite Hrw, Hpw, app_nil_r. }
  intros (made & left & Hlog & Hall & Hfull)%IH. exists (f a :: g a :: made), left.
  rewrite Hlog, Hrw, Hpw, <-!app_assoc. unfold pairs in *. cbn. by rewrite Hall.
Qed.

Lemma install_prepare_log w command : writer_log (install_prepare w command).1 = writer_log w.
Proof.
  unfold install_prepare. destruct (install_captured_at_unix_ms w) as [at_ms|]; [|done].
  pose proof (load_source_log w) as Hs. destruct (load_source w) as [w1 [source|]]; cbn in *; [|done].
  unfold read_host_identity. destruct (source_binding_failure source at_ms) as [code|].
  - cbn. by rewrite <-Hs.
  - pose proof (host_identity_log w1) as Hh. destruct (host_identity_sha256 w1) as [w2 [identity|]]; cbn in *; [|congruence].
    destruct (negb _); cbn; [congruence|].
    pose proof (inspect_destinations_log w2 source) as Hd. unfold read_destinations, read_prior_journal.
    destruct (inspect_destinations w2 source) as [w3 [destinations|]]; cbn in *; [|congruence].
    pose proof (inspect_prior_journal_log w3 (iu_transaction_id (so_authorization source))) as Hj.
    destruct (inspect_prior_journal w3 _) as [w4 [journal|]]; cbn in *; congruence.
Qed.
End log.

(** ** Reports *)

(** The authorization was checked for the source at the time of the report, and is
    one for the command if that is a rollback. *)
Definition cleared (p : PreparedInstall) (command : InstallCommandV1) : Prop :=
  (∃ identity, authorized_for (pi_source p) (pi_captured_at_unix_ms p) identity = true) ∧
  is_u64 (iu_issued_at_unix_ms (so_authorization (pi_source p))) ∧
  (command = CommandRollback → iu_operation (so_authorization (pi_source p)) = OperationRollback).

Section prepare.
Context {W : Type} `{InstallPortsSpec W}.
Implicit Types (w : W).

Lemma install_prepare_cleared w command w' p :
  install_prepare w command = (w', Ok p) → pi_blocker p = None → cleared p command.
Proof.
  unfold install_prepare. destruct (install_captured_at_unix_ms w) as [at_ms|]; [|done].
  destruct (load_source w) as [w1 [source|]] eqn:Hsource; [|done]. apply load_source_typed in Hsource. unfold read_host_identity.
  destruct (source_binding_failure source at_ms) as [code|];
    [|destruct (host_identity_sha256 w1) as [w2 [identity|]]]; cbn.
  - repeat case_bool_decide; by intros [= _ <-].
  - destruct (authorized_for source at_ms identity) eqn:Hauth; cbn; [|repeat case_bool_decide; by intros [= _ <-]].
    destruct (inspect_destinations w2 source) as [w3 [ds|]]; cbn; [|repeat case_bool_decide; by intros [= _ <-]].
    destruct (inspect_prior_journal w3 _) as [w4 [j|]]; cbn; [|repeat case_bool_decide; by intros [= _ <-]].
    intros [= _ <-]. cbn. intros Hb. split; [by exists identity|]. split; [done|]. cbn. by repeat case_bool_decide.
  - repeat case_bool_decide; by intros [= _ <-].
Qed.
End prepare.

Lemma later_than_issue issued at_ms :
  is_u64 issued → (issued =? 0) = false → (issued <=? at_ms) = true → (at_ms =? 0) = false.
Proof. unfold is_u64. lia. Qed.

(** A cleared installation can be reported: the report says what the arguments say. *)
Lemma prepared_report_cleared p command command' findings decision mutations_performed :
  cleared p command' → command_matches_operation command (iu_operation (so_authorization (pi_source p))) = true →
  (findings = [] ∧ positive_decision command mutations_performed = Ok decision ∨
   (∃ code, findings = [mkInstallFindingV1 code InstallBlocker] ∧ contains_code INSTALL_FINDING_CODES code = true) ∧
   decision = InstallBlocked) →
  ∃ r, prepared_report p command findings mutations_performed = Ok r ∧ ip_decision r = decision ∧
    ip_command r = command ∧ ip_findings r = findings ∧ ip_mutations_performed r = mutations_performed.
Proof.
  intros ([identity Hauth] & Htyped & _) Hmatch Hcases. unfold authorized_for in Hauth.
  destruct (InstallAuthorizationV1_validate_for _ _ _ _ _ _ _ _) as [[]|] eqn:Hv; [|done]. clear Hauth.
  unfold InstallAuthorizationV1_validate_for in Hv. apply bind_Ok in Hv as ([] & Hat & Hv).
  apply bind_Ok in Hv as ([] & Hartifact%map_err_Ok & _).
  unfold InstallAuthorizationV1_validate_at in Hat. apply bind_Ok in Hat as ([] & Hs & Hat).
  destruct (_ && _) eqn:Hbetween in Hat; [|done]. clear Hat.
  unfold InstallAuthorizationV1_validate_structure in Hs. apply bind_Ok in Hs as (lifetime & _ & Hs).
  destruct (_ || _)%bool eqn:Hids in Hs; [done|]. clear Hs. boolify.
  assert ((pi_captured_at_unix_ms p =? 0) = false) as Hnow by (eapply later_than_issue; eassumption).
  unfold prepared_report, install_error, InstallReportV1_derive. rewrite Hmatch. cbn [negb].
  assert (try_for_each InstallFindingV1_validate findings = Ok tt ∧ sort_and_deduplicate findings = findings ∧
          (if has_install_blocker findings then Ok InstallBlocked else positive_decision command mutations_performed)
          = (Ok decision : result InstallContractError _) ∧
          (if has_install_blocker findings then decision = InstallBlocked
           else positive_decision command mutations_performed = Ok decision)) as (Hf & Hsort & Hd & Hdec).
  { destruct Hcases as [[-> Hpos]|[(code & -> & Hcode) ->]]; [done|].
    assert (InstallFindingV1_validate (mkInstallFindingV1 code InstallBlocker) = Ok tt) as Hone
      by (unfold InstallFindingV1_validate; cbn [if_code]; by rewrite Hcode).
    unfold try_for_each. cbn [try_fold]. by rewrite Hone. }
  rewrite Hf. cbn [mbind result_bind]. cbv zeta. rewrite Hsort, Hd. cbn [mbind result_bind].
  set (r := mkInstallReportV1 _ _ _ _ _ _ _ _ _ _).
  assert (InstallReportV1_validate r = Ok tt) as ->; [|by exists r].
  unfold InstallReportV1_validate, r. cbn [ip_schema_version ip_authorization_id ip_transaction_id ip_artifact
    ip_captured_at_unix_ms ip_command ip_operation ip_findings ip_decision ip_mutations_performed].
  rewrite Hmatch, Hf, Hsort, Hartifact.
  repeat match goal with Hb : is_lower_hex_text _ _ = true |- _ => rewrite Hb end.
  rewrite Hnow. cbn.
  rewrite bool_decide_eq_true_2 by done. cbn.
  destruct (has_install_blocker findings); [by rewrite Hdec|]. rewrite Hdec. cbn.
  by rewrite bool_decide_eq_true_2.
Qed.

(** ** The planner, characterised *)
Lemma add_actions_Err operation destinations actions error :
  try_fold (add_action operation) actions destinations = Err error → error = InvalidDestination.
Proof.
  revert actions. induction destinations as [|d l IH]; intros actions; [done|]. cbn.
  rewrite bind_Err. intros [He|(actions' & _ & He)]; [|by eapply IH].
  unfold add_action, plan_action in He. destruct (dt_state d); try destruct (_ : bool); cbn in He; by simplify_eq.
Qed.

Lemma planner_plan_Ok source destinations plan :
  planner_plan source destinations None = Ok plan ↔
  iu_operation (so_authorization source) ≠ OperationRollback ∧ NoDup (dt_role <$> destinations) ∧
  Forall (admissible (iu_operation (so_authorization source))) destinations ∧
  plan = mkInstallPlanV1 (iu_authorization_id (so_authorization source)) (iu_transaction_id (so_authorization source))
           (iu_operation (so_authorization source)) (so_artifact source)
           (concat (destination_actions <$> by_declaration destinations)).
Proof.
  unfold planner_plan. cbn [is_some]. fold (by_declaration destinations).
  assert (NoDup (dt_role <$> destinations) ↔ repeats_role (by_declaration destinations) = false) as ->.
  { rewrite (repeats_role_NoDup _ (by_declaration_sorted destinations)). by rewrite by_declaration_Permutation. }
  assert (Forall (admissible (iu_operation (so_authorization source))) destinations ↔
          Forall (admissible (iu_operation (so_authorization source))) (by_declaration destinations)) as ->
    by by rewrite by_declaration_Permutation.
  case_bool_decide as Hop; [split; [done|by intros [? _]]|].
  destruct (repeats_role _); [split; [done|by intros (_ & ? & _)]|].
  rewrite bind_Ok. setoid_rewrite add_actions_Ok. cbn [app]. naive_solver.
Qed.

Lemma planner_plan_Err source destinations error :
  planner_plan source destinations None = Err error →
  error = if bool_decide (iu_operation (so_authorization source) = OperationRollback)
          then InvalidSource else InvalidDestination.
Proof.
  unfold planner_plan. cbn [is_some]. case_bool_decide; [by intros [= <-]|].
  destruct (repeats_role _); [by intros [= <-]|]. rewrite bind_Err.
  intros [He|(actions & _ & [=])]. by eapply add_actions_Err.
Qed.

Lemma same_role destinations x y :
  NoDup (dt_role <$> destinations) → x ∈ destinations → y ∈ destinations → dt_role x = dt_role y → x = y.
Proof.
  induction destinations as [|d l IH]; cbn; [by intros _ ?%not_elem_of_nil|].
  rewrite NoDup_cons, !elem_of_cons. intros [Hnot Hnd] [->|Hx] [->|Hy] Hrole; auto.
  - destruct Hnot. rewrite Hrole. by apply list_elem_of_fmap_2.
  - destruct Hnot. rewrite <-Hrole. by apply list_elem_of_fmap_2.
Qed.

Lemma planner_plan_order source destinations destinations' plan :
  destinations' ≡ₚ destinations → planner_plan source destinations None = Ok plan →
  planner_plan source destinations' None = Ok plan.
Proof.
  intros Hperm. rewrite !planner_plan_Ok. intros (Hop & Hnd & Hall & ->).
  assert (by_declaration destinations' = by_declaration destinations) as ->; [|by rewrite Hperm].
  apply (StronglySorted_unique_strong (cmp_le (λ x y, role_index (dt_role x) ?= role_index (dt_role y)))).
  - intros x y Hx Hy Hxy Hyx. rewrite by_role_le in Hxy, Hyx.
    rewrite by_declaration_Permutation in Hx, Hy. rewrite Hperm in Hx.
    apply (same_role destinations x y); [done..|]. apply role_index_inj. lia.
  - apply Sorted_StronglySorted; [intros x y z; rewrite !by_role_le; lia|apply by_declaration_sorted].
  - apply Sorted_StronglySorted; [intros x y z; rewrite !by_role_le; lia|apply by_declaration_sorted].
  - by rewrite !by_declaration_Permutation.
Qed.

(** ** The commands that write *)

(** A report that blocks with a known code, whatever was done before. *)
Lemma prepared_blocked_cleared p command command' code mutations_performed :
  cleared p command' → command_matches_operation command (iu_operation (so_authorization (pi_source p))) = true →
  contains_code INSTALL_FINDING_CODES code = true →
  ∃ r, prepared_blocked_report p command code mutations_performed = Ok r ∧ ip_decision r = InstallBlocked ∧
    ip_command r = command ∧ ip_findings r = [mkInstallFindingV1 code InstallBlocker] ∧
    ip_mutations_performed r = mutations_performed.
Proof.
  intros Hclear Hmatch Hcode. unfold prepared_blocked_report, InstallFindingV1_blocker, InstallFindingV1_new.
  assert (InstallFindingV1_validate (mkInstallFindingV1 code InstallBlocker) = Ok tt) as ->
    by (unfold InstallFindingV1_validate; cbn [if_code]; by rewrite Hcode).
  cbn [mbind result_bind install_error map_err].
  eapply prepared_report_cleared; [done|done|]. right. split; [by exists code|done].
Qed.

Lemma prepared_blocked_decision p command code mutations_performed r :
  prepared_blocked_report p command code mutations_performed = Ok r →
  ip_decision r = InstallBlocked ∧ ip_mutations_performed r = mutations_performed.
Proof.
  unfold prepared_blocked_report. intros Hr. apply bind_Ok in Hr as (f & Hf & Hr).
  unfold install_error in Hf. apply map_err_Ok in Hf. unfold InstallFindingV1_blocker, InstallFindingV1_new in Hf.
  apply bind_Ok in Hf as (? & _ & [= <-]). unfold prepared_report, install_error in Hr.
  apply map_err_Ok in Hr. unfold InstallReportV1_derive in Hr.
  destruct (negb _); [done|]. apply bind_Ok in Hr as (? & _ & Hr). cbv zeta in Hr.
  change (sort_and_deduplicate [mkInstallFindingV1 code InstallBlocker])
    with [mkInstallFindingV1 code InstallBlocker] in Hr.
  apply bind_Ok in Hr as (d & [= <-] & Hr). apply bind_Ok in Hr as (? & _ & [= <-]). done.
Qed.

(** How a command that was allowed to write ended: with a report that says so, and
    that is positive exactly when the writer did everything it was to do. *)
Definition written_report (calls made : list WriterCall) (positive : InstallDecisionV1)
    (out : result InstallServiceError InstallReportV1) : Prop :=
  ∃ r left, out = Ok r ∧ ip_mutations_performed r = true ∧ calls = made ++ left ∧
    ip_decision r = (match left with [] => positive | _ => InstallBlocked end).

Section written.
Context {W : Type} `{InstallPortsSpec W}.
Implicit Types (w : W).

(** The three stages of a command that writes. *)
Definition write_stages w (open : W → W * result InstallIoError unit)
    (perform record : W → InstallActionV1 → W * result InstallIoError unit) (actions : list InstallActionV1)
    (close : W → W * result InstallIoError unit) (failed positive : result InstallServiceError InstallReportV1)
    : W * result InstallServiceError InstallReportV1 :=
  match open w with
  | (w, Err _) => (w, failed)
  | (w, Ok _) =>
      match perform_actions w perform record actions with
      | (w, false) => (w, failed)
      | (w, true) => match close w with (w, Err _) => (w, failed) | (w, Ok _) => (w, positive) end
      end
  end.

Lemma write_stages_written w open perform record actions close failed positive first f g final decision rf rp :
  (∀ w, writer_log (open w).1 = writer_log w ++ succeeded (open w).2 first) →
  (∀ w a, writer_log (perform w a).1 = writer_log w ++ succeeded (perform w a).2 (f a)) →
  (∀ w a, writer_log (record w a).1 = writer_log w ++ succeeded (record w a).2 (g a)) →
  (∀ w, writer_log (close w).1 = writer_log w ++ succeeded (close w).2 final) →
  failed = Ok rf → ip_decision rf = InstallBlocked → ip_mutations_performed rf = true →
  positive = Ok rp → ip_decision rp = decision → ip_mutations_performed rp = true →
  let '(w', out) := write_stages w open perform record actions close failed positive in
  ∃ made, writer_log w' = writer_log w ++ made ∧ written_report (first :: pairs f g actions ++ [final]) made decision out.
Proof.
  intros Hopen Hperform Hrecord Hclose -> Hf Hfm -> Hp Hpm. unfold write_stages.
  pose proof (Hopen w) as Ho. destruct (open w) as [w1 [[]|e]]; cbn in Ho.
  2:{ exists []. split; [done|]. exists rf, (first :: pairs f g actions ++ [final]). done. }
  destruct (perform_actions w1 perform record actions) as [w2 b] eqn:Hactions.
  eapply perform_some_of in Hactions as (made & left & Hlog & Hcalls & Hfull); [|done..].
  destruct b.
  2:{ exists (first :: made). split; [by rewrite Hlog, Ho, <-app_assoc|].
      exists rf, (left ++ [final]). split_and!; [done..|by rewrite Hcalls, <-app_assoc|]. by destruct left. }
  assert (left = []) as -> by by apply Hfull. rewrite app_nil_r in Hcalls. subst made.
  pose proof (Hclose w2) as Hc. destruct (close w2) as [w3 [[]|e]]; cbn in Hc.
  - exists (first :: pairs f g actions ++ [final]). split; [by rewrite Hc, Hlog, Ho, <-!app_assoc|].
    exists rp, []. by rewrite app_nil_r.
  - exists (first :: pairs f g actions). split; [by rewrite Hc, Hlog, Ho, app_nil_r, <-app_assoc|].
    by exists rf, [final].
Qed.
End written.

(** A source whose operation is another command's ends the command without a report:
    the blocked report that was meant for it cannot be derived. *)
Lemma mismatched_operation_unreported {W : Type} `{InstallPorts W} (w w' : W) (p : PreparedInstall) :
  (install_prepare w CommandRollback = (w', Ok p) →
   iu_operation (so_authorization (pi_source p)) ≠ OperationRollback →
   pi_blocker p = Some GI_TRANSACTION_CONFLICT ∧ install_rollback w = (w', Err InstallServiceInvalidReport)) ∧
  (install_prepare w CommandApply = (w', Ok p) →
   iu_operation (so_authorization (pi_source p)) = OperationRollback →
   install_apply w = (w', Err InstallServiceInvalidReport)).
Proof.
  assert (∀ command code, command_matches_operation command (iu_operation (so_authorization (pi_source p))) = false →
          prepared_blocked_report p command code false = Err InstallServiceInvalidReport) as Hblocked.
  { intros command code Hm. unfold prepared_blocked_report, prepared_report, install_error, InstallReportV1_derive.
    rewrite Hm. by destruct (InstallFindingV1_blocker code). }
  split; intros Hp Hop.
  - assert (pi_blocker p = Some GI_TRANSACTION_CONFLICT) as Hb.
    { unfold install_prepare in Hp. destruct (install_captured_at_unix_ms w); [|done].
      destruct (load_source w) as [w1 [source|]]; [|done]. destruct (read_host_identity _ _) as [w2 [b identity]].
      destruct (read_destinations _ _ _) as [w3 [b3 ds]]. destruct (read_prior_journal _ _ _) as [w4 [b4 j]].
      injection Hp as _ <-. cbn in *. by rewrite (bool_decide_eq_false_2 _ Hop). }
    split; [done|]. unfold install_rollback. rewrite Hp, Hb. rewrite Hblocked; [done|]. cbn. by rewrite bool_decide_eq_false_2.
  - assert (command_matches_operation CommandApply (iu_operation (so_authorization (pi_source p))) = false) as Hm
      by by rewrite Hop.
    unfold install_apply. rewrite Hp. destruct (pi_blocker p) as [code|]; [by rewrite Hblocked|].
    destruct (planner_plan _ _ _) as [plan|error] eqn:Hplan; [|by rewrite Hblocked].
    destruct (pi_journal p); [done|]. by apply planner_plan_Ok in Hplan as [? _].
Qed.

Section outcome.
Context {W : Type} `{InstallPortsSpec W}.
Implicit Types (w : W).

(** The command wrote nothing and says that it did not. *)
Definition wrote_nothing w w' (out : result InstallServiceError InstallReportV1) : Prop :=
  writer_log w' = writer_log w ∧
  match out with Ok r => ip_decision r = InstallBlocked ∧ ip_mutations_performed r = false | Err _ => True end.

Lemma blocked_wrote_nothing w w' p command code :
  writer_log w' = writer_log w → wrote_nothing w w' (prepared_blocked_report p command code false).
Proof.
  intros Hlog. split; [done|]. destruct (prepared_blocked_report _ _ _ _) as [r|] eqn:Hr; [|done].
  by apply prepared_blocked_decision in Hr.
Qed.

Lemma install_apply_cases w :
  let '(w', out) := install_apply w in
  wrote_nothing w w' out ∨
  ∃ w1 p plan made, install_prepare w CommandApply = (w1, Ok p) ∧ pi_blocker p = None ∧
    planner_plan (pi_source p) (pi_destinations p) (pi_journal p) = Ok plan ∧
    writer_log w' = writer_log w ++ made ∧ written_report (applied_calls plan) made InstalledVerified out.
Proof.
  unfold install_apply. pose proof (install_prepare_log w CommandApply) as Hlog.
  destruct (install_prepare w CommandApply) as [w1 [p|error]] eqn:Hp; cbn in Hlog; [|by left].
  destruct (pi_blocker p) as [code|] eqn:Hb; [left; by apply blocked_wrote_nothing|].
  destruct (planner_plan _ _ _) as [plan|error] eqn:Hplan; [|left; by apply blocked_wrote_nothing].
  pose proof (install_prepare_cleared _ _ _ _ Hp Hb) as Hclear.
  assert (command_matches_operation CommandApply (iu_operation (so_authorization (pi_source p))) = true) as Hm.
  { unfold planner_plan in Hplan. destruct (is_some _); [done|]. case_bool_decide as Hop; [done|].
    by destruct (iu_operation _). }
  destruct (prepared_blocked_cleared p CommandApply CommandApply GI_WRITE_FAILED true Hclear Hm eq_refl)
    as (rf & Hf & Hfd & _ & _ & Hfm).
  destruct (prepared_report_cleared p CommandApply CommandApply [] InstalledVerified true Hclear Hm ltac:(by left))
    as (rp & Hr & Hrd & _ & _ & Hrm).
  pose proof (write_stages_written w1 (λ w, begin_transaction w plan) apply_action record_completed (pl_actions plan)
    (λ w, complete_transaction w plan) _ _ (CallBegin plan) CallApplied CallRecorded (CallCompleted plan) _ _ _
    (λ w, begin_transaction_log w plan) apply_action_log record_completed_log (λ w, complete_transaction_log w plan)
    Hf Hfd Hfm Hr Hrd Hrm) as Hw.
  unfold write_stages in Hw.
  destruct (begin_transaction w1 plan) as [w2 [[]|]]; [destruct (perform_actions _ _ _ _) as [w3 []];
    [destruct (complete_transaction w3 plan) as [w4 [[]|]]|]|];
    destruct Hw as (made & Hmade & Hwritten); right; exists w1, p, plan, made; rewrite <-Hlog; done.
Qed.

Lemma install_rollback_cases w :
  let '(w', out) := install_rollback w in
  wrote_nothing w w' out ∨
  ∃ w1 p journal made, install_prepare w CommandRollback = (w1, Ok p) ∧ pi_blocker p = None ∧
    pi_journal p = Some journal ∧
    writer_log w' = writer_log w ++ made ∧ written_report (rolled_back_calls journal) made InstallRolledBack out.
Proof.
  unfold install_rollback. pose proof (install_prepare_log w CommandRollback) as Hlog.
  destruct (install_prepare w CommandRollback) as [w1 [p|error]] eqn:Hp; cbn in Hlog; [|by left].
  destruct (pi_blocker p) as [code|] eqn:Hb; [left; by apply blocked_wrote_nothing|].
  destruct (pi_journal p) as [journal|] eqn:Hj; [|left; by apply blocked_wrote_nothing].
  pose proof (install_prepare_cleared _ _ _ _ Hp Hb) as Hclear. pose proof Hclear as (_ & _ & Hop).
  assert (command_matches_operation CommandRollback (iu_operation (so_authorization (pi_source p))) = true) as Hm
    by by rewrite Hop.
  destruct (prepared_blocked_cleared p CommandRollback CommandRollback GI_ROLLBACK_IDENTITY true Hclear Hm eq_refl)
    as (rf & Hf & Hfd & _ & _ & Hfm).
  destruct (prepared_report_cleared p CommandRollback CommandRollback [] InstallRolledBack true Hclear Hm ltac:(by left))
    as (rp & Hr & Hrd & _ & _ & Hrm).
  pose proof (write_stages_written w1 (λ w, writer_begin_rollback w journal) rollback_action record_rolled_back
    (rev (js_completed_actions journal)) (λ w, complete_rollback w journal) _ _ (CallBeginRollback journal)
    CallRolledBack CallUnrecorded (CallRollbackCompleted journal) _ _ _
    (λ w, begin_rollback_log w journal) rollback_action_log record_rolled_back_log (λ w, complete_rollback_log w journal)
    Hf Hfd Hfm Hr Hrd Hrm) as Hw.
  unfold write_stages in Hw.
  destruct (writer_begin_rollback w1 journal) as [w2 [[]|]]; [destruct (perform_actions _ _ _ _) as [w3 []];
    [destruct (complete_rollback w3 journal) as [w4 [[]|]]|]|];
    destruct Hw as (made & Hmade & Hwritten); right; exists w1, p, journal, made; rewrite <-Hlog; done.
Qed.

Lemma install_plan_log w : writer_log (install_plan w).1 = writer_log w.
Proof.
  unfold install_plan. pose proof (install_prepare_log w CommandPlan) as Hlog.
  destruct (install_prepare w CommandPlan) as [w1 [p|error]]; cbn in Hlog; [|done].
  destruct (pi_blocker p); [done|]. by destruct (planner_plan _ _ _).
Qed.

Lemma install_status_log w : writer_log (install_status w).1 = writer_log w.
Proof.
  unfold install_status. pose proof (install_prepare_log w CommandStatus) as Hlog.
  by destruct (install_prepare w CommandStatus) as [w1 [p|error]].
Qed.
End outcome.

(** ** A host with an authorized bundle *)
Module InstallPlanExample.
Definition authorization (operation : InstallOperationV1) : InstallAuthorizationV1 :=
  mkInstallAuthorizationV1 INSTALLATION_SCHEMA_VERSION (DeploymentExample.hexes 32) (DeploymentExample.hexes 32) operation
    (da_commit_sha DeploymentExample.artifact) (DeploymentExample.hexes 64) (DeploymentExample.hexes 64)
    (DeploymentExample.hexes 64) (DeploymentExample.hexes 64) 1000 2000 false false false.
Definition source (operation : InstallOperationV1) : InstallSourceSnapshotV1 :=
  mkInstallSourceSnapshotV1 (authorization operation) DeploymentExample.artifact (DeploymentExample.hexes 64)
    (DeploymentExample.hexes 64) (DeploymentExample.hexes 64).

Definition destinations : list InstallDestinationSnapshotV1 :=
  [mkInstallDestinationSnapshotV1 UsrBinRoot AbsentDirectory; mkInstallDestinationSnapshotV1 Daemon AbsentFile;
   mkInstallDestinationSnapshotV1 UsrRoot ExistingPrerequisiteDirectory].
Definition journal : InstallJournalSnapshotV1 :=
  mkInstallJournalSnapshotV1 (DeploymentExample.hexes 32) [CreateDirectory UsrBinRoot; InstallAbsentFile Daemon].

(** The operation of the source, the calls that succeeded and how many more will. *)
Record host : Type := mkHost { operation : InstallOperationV1; log : list WriterCall; budget : nat }.

Definition call (w : host) (c : WriterCall) : host * result InstallIoError unit :=
  match budget w with
  | O => (w, Err InstallUnavailable)
  | S budget => (mkHost (operation w) (log w ++ [c]) budget, Ok tt)
  end.

Lemma call_log w c : log (call w c).1 = log w ++ succeeded (call w c).2 c.
Proof. unfold call. destruct (budget w); cbn; [by rewrite app_nil_r|done]. Qed.

#[global] Instance ports : InstallPorts host := {|
  load_source w := (w, Ok (source (operation w)));
  host_identity_sha256 w := (w, Ok (DeploymentExample.hexes 64));
  inspect_destinations w _ := (w, Ok destinations);
  inspect_prior_journal w _ := (w, Ok (if bool_decide (operation w = OperationRollback) then Some journal else None));
  begin_transaction w plan := call w (CallBegin plan);
  apply_action w action := call w (CallApplied action);
  record_completed w action := call w (CallRecorded action);
  complete_transaction w plan := call w (CallCompleted plan);
  writer_begin_rollback w journal := call w (CallBeginRollback journal);
  rollback_action w action := call w (CallRolledBack action);
  record_rolled_back w action := call w (CallUnrecorded action);
  complete_rollback w journal := call w (CallRollbackCompleted journal);
  install_wall_time_ns _ := 1500000000;
|}.

Definition reported (run : host * result InstallServiceError InstallReportV1) : option InstallReportV1 :=
  match run.2 with Ok report => Some report | Err _ => None end.

#[global] Instance ports_spec : InstallPortsSpec host.
Proof.
  refine {| writer_log := log |}; try done; try (intros; apply call_log).
  intros w w' s [= _ <-]. cbn. ulia.
Defined.
End InstallPlanExample.

(** ** Properties *)

(** C21: the planner accepts a source exactly when no journal is pending, it is not
    for a rollback, no two destinations have one role and every destination may be
    in the state it is in: an owned file only for an upgrade, a directory that is
    there only if its role is a directory's. The plan then has, in the order in
    which the roles are declared, the action of each destination followed by the
    verification of its result, and does not depend on the order in which the
    destinations were listed; every other source gets the error of the first of
    these conditions it fails. *)
Theorem install_planner_correct (source : InstallSourceSnapshotV1)
    (destinations : list InstallDestinationSnapshotV1) (journal : option InstallJournalSnapshotV1) :
  let operation := iu_operation (so_authorization source) in
  match planner_plan source destinations journal with
  | Ok plan =>
      journal = None ∧ operation ≠ OperationRollback ∧ NoDup (dt_role <$> destinations) ∧
      Forall (admissible operation) destinations ∧
      pl_actions plan = concat (destination_actions <$> by_declaration destinations) ∧
      pl_operation plan = operation ∧ pl_transaction_id plan = iu_transaction_id (so_authorization source) ∧
      ∀ destinations', destinations' ≡ₚ destinations → planner_plan source destinations' journal = Ok plan
  | Err TransactionConflict => journal ≠ None
  | Err InvalidSource => journal = None ∧ operation = OperationRollback
  | Err InvalidDestination =>
      journal = None ∧ operation ≠ OperationRollback ∧
      ¬ (NoDup (dt_role <$> destinations) ∧ Forall (admissible operation) destinations)
  | Err PlanInvalidJournal => False
  end.
Proof.
  cbv zeta. destruct journal as [journal|]; [by cbn|].
  destruct (planner_plan source destinations None) as [plan|error] eqn:Hplan.
  - pose proof Hplan as (? & ? & ? & ->)%planner_plan_Ok. split_and!; try done.
    intros destinations' Hperm. by eapply planner_plan_order.
  - pose proof Hplan as ->%planner_plan_Err. case_bool_decide as Hop; [done|]. split_and!; [done..|].
    intros [Hnd Hall]. assert (∃ plan, planner_plan source destinations None = Ok plan) as [plan Hok]
      by (eexists; apply planner_plan_Ok; done).
    congruence.
Qed.

(** C20: what the installation service has done. [plan] and [status] never call the
    writer. [apply] and [rollback] either leave it alone, in which case a report they
    end with is blocked and denies any mutation, or the input was cleared and a plan,
    or the journal, was at hand: then they always end with a report, which admits
    mutations; what succeeded is an initial part of: begin, then for each action (in
    the plan's order, or backwards for a rollback) its execution and its record, then
    completion; and the report is positive exactly if nothing of that is missing. *)
Theorem install_service_outcome {W : Type} `{InstallPortsSpec W} (w : W) :
  writer_log (install_plan w).1 = writer_log w ∧
  writer_log (install_status w).1 = writer_log w ∧
  (let '(w', out) := install_apply w in
   wrote_nothing w w' out ∨
   ∃ w1 p plan made, install_prepare w CommandApply = (w1, Ok p) ∧ pi_blocker p = None ∧
     planner_plan (pi_source p) (pi_destinations p) (pi_journal p) = Ok plan ∧
     writer_log w' = writer_log w ++ made ∧ written_report (applied_calls plan) made InstalledVerified out) ∧
  (let '(w', out) := install_rollback w in
   wrote_nothing w w' out ∨
   ∃ w1 p journal made, install_prepare w CommandRollback = (w1, Ok p) ∧ pi_blocker p = None ∧
     pi_journal p = Some journal ∧
     writer_log w' = writer_log w ++ made ∧ written_report (rolled_back_calls journal) made InstallRolledBack out).
Proof.
  split_and!; [apply install_plan_log|apply install_status_log|apply install_apply_cases|apply install_rollback_cases].
Qed.

(** On the example's host an installation runs to its end, one whose writer fails at
    the fourth call reports what it did, and a rollback undoes the journal backwards. *)
Lemma install_service_outcome_witness :
  let applied := install_apply (InstallPlanExample.mkHost OperationInstall [] 100) in
  let failed := install_apply (InstallPlanExample.mkHost OperationInstall [] 3) in
  let undone := install_rollback (InstallPlanExample.mkHost OperationRollback [] 100) in
  option_map ip_decision (InstallPlanExample.reported applied) = Some InstalledVerified ∧
  length (InstallPlanExample.log applied.1) = 10%nat ∧
  option_map ip_decision (InstallPlanExample.reported failed) = Some InstallBlocked ∧
  option_map ip_mutations_performed (InstallPlanExample.reported failed) = Some true ∧
  option_map ip_decision (InstallPlanExample.reported undone) = Some InstallRolledBack ∧
  InstallPlanExample.log undone.1 = rolled_back_calls InstallPlanExample.journal ∧
  writer_log (install_plan undone.1).1 = writer_log undone.1.
Proof.
  cbv zeta.
  destruct (install_service_outcome (install_rollback (InstallPlanExample.mkHost OperationRollback [] 100)).1) as [Hplan _].
  split_and!; [vm_compute; reflexivity..|exact Hplan].
Defined.
