(* ===== verification/Installer.v ===== *)
(** The installer of [l2-loop-agent] ([linux/installation_runtime.rs]): the loops
    that perform the actions of an installation journal on the file system and make
    every record durable before the next action.

    The file system is a class of operations on an abstract world; what the
    adapter ([linux/installation_fs.rs]) promises of them is a second class. *)
From S2P Require Import Prelude Domain Text Preflight Deployment Installation InstallJournal.

(** The payload of a role belongs to [apply_entry]; every failure of the adapter is
    the same to the loops. *)
Class InstallFilesystem (W : Type) : Type := {
  bootstrap_journal : W → InstallJournalV1 → W * result unit unit;
  publish_journal : W → InstallJournalV1 → W * result unit unit;
  persist_journal : W → InstallJournalV1 → W * result unit unit;
  inspect_optional_exact : W → InstallRoleV1 → W * result unit (option InstallObjectIdentityV1);
  inspect_exact : W → InstallRoleV1 → W * result unit InstallObjectIdentityV1;
  apply_entry : W → InstallJournalEntryV1 →
    W * result unit (InstallObjectIdentityV1 * option InstallObjectIdentityV1);
  verify_exact : W → InstallRoleV1 → InstallObjectIdentityV1 → W * result unit unit;
  rollback_remove_exact : W → InstallRoleV1 → InstallObjectIdentityV1 → W * result unit unit;
  rollback_restore_exact : W → InstallRoleV1 → InstallObjectIdentityV1 → string →
    InstallObjectIdentityV1 → W * result unit unit;
}.

Section installer.
Context {W : Type} `{InstallFilesystem W}.
Implicit Types (w : W) (journal : InstallJournalV1).

(** An operation of the journal, whose error ends the loop. *)
Definition recorded w (m : InstallJournalV1 * result InstallJournalError unit) : W * result unit InstallJournalV1 :=
  match m with (journal, Ok _) => (w, Ok journal) | (_, Err _) => (w, Err tt) end.

Definition persisted w journal : W * result unit InstallJournalV1 :=
  and_then (persist_journal w journal) (λ w _, (w, Ok journal)).

(** One iteration of the loop of [apply_plan]. *)
Definition apply_action (final_parent_exists : bool) w journal (action : InstallJournalForwardActionV1)
    : W * result unit InstallJournalV1 :=
  match action with
  | ForwardApply _ role =>
      match find_role journal role with
      | None => (w, Err tt)
      | Some entry =>
          and_then (apply_entry w entry) (λ w outcome,
          and_then (recorded w (record_applied journal role outcome.1 outcome.2)) persisted)
      end
  | ForwardVerify _ role expected_identity =>
      and_then (verify_exact w role expected_identity) (λ w _,
      and_then (recorded w (record_verified journal role expected_identity)) (λ w journal,
      and_then (persisted w journal) (λ w journal,
        if bool_decide (role = TransactionsRoot) && negb final_parent_exists
        then and_then (publish_journal w journal) (λ w _, (w, Ok journal))
        else (w, Ok journal))))
  end.

(** The loop itself; [None] is lack of fuel. *)
Fixpoint apply_loop (fuel : nat) (final_parent_exists : bool) w journal
    : option (W * result unit InstallJournalV1) :=
  match next_forward_action journal, fuel with
  | None, _ => Some (w, Ok journal)
  | Some _, O => None
  | Some action, S fuel =>
      match apply_action final_parent_exists w journal action with
      | (w, Err error) => Some (w, Err error)
      | (w, Ok journal) => apply_loop fuel final_parent_exists w journal
      end
  end.

Definition INSTALLER_FUEL : nat := 64.

(** What [apply_plan] does before its loop: the prepared journal is bootstrapped,
    and published if its directory exists. *)
Definition prepare_journal w (bindings : InstallJournalBindingsV1) (entries : list InstallJournalEntryV1)
    : W * result unit (InstallJournalV1 * bool) :=
  and_then (recorded w (prepare (InstallJournalV1_new bindings) entries)) (λ w journal,
  and_then (bootstrap_journal w journal) (λ w _,
  and_then (inspect_optional_exact w TransactionsRoot) (λ w root,
  and_then (if is_some root then publish_journal w journal else (w, Ok tt)) (λ w _,
  and_then (recorded w (start_applying journal)) (λ w journal,
  and_then (persisted w journal) (λ w journal, (w, Ok (journal, is_some root)))))))).

Definition apply_plan w (bindings : InstallJournalBindingsV1) (entries : list InstallJournalEntryV1)
    : option (W * result unit InstallJournalV1) :=
  match prepare_journal w bindings entries with
  | (w, Err error) => Some (w, Err error)
  | (w, Ok (journal, final_parent_exists)) =>
      match apply_loop INSTALLER_FUEL final_parent_exists w journal with
      | None => None
      | Some m => Some (and_then m (λ w journal, and_then (recorded w (mark_installed journal)) persisted))
      end
  end.

(** The file-system part of one rollback action. *)
Definition undo w (action : InstallJournalRollbackActionV1) : W * result unit unit :=
  match action with
  | RemoveExact _ role expected_current _ => rollback_remove_exact w role expected_current
  | RestoreExact _ role expected_current backup_basename expected_backup _ =>
      rollback_restore_exact w role expected_current backup_basename expected_backup
  | RetainExact _ role expected_current =>
      and_then (inspect_exact w role) (λ w observed,
        if matches_persistent_object expected_current observed then (w, Ok tt) else (w, Err tt))
  end.

Definition rollback_step w journal (action : InstallJournalRollbackActionV1) : W * result unit InstallJournalV1 :=
  and_then (undo w action) (λ w _,
  and_then (recorded w (record_rollback_completed journal action)) persisted).

Fixpoint rollback_loop (fuel : nat) w journal : option (W * result unit InstallJournalV1) :=
  match next_rollback_action journal, fuel with
  | None, _ => Some (w, Ok journal)
  | Some _, O => None
  | Some action, S fuel =>
      match rollback_step w journal action with
      | (w, Err error) => Some (w, Err error)
      | (w, Ok journal) => rollback_loop fuel w journal
      end
  end.

Definition enter_rollback w journal : W * result unit InstallJournalV1 :=
  if negb (bool_decide (jn_state journal = JournalRollingBack))
  then and_then (recorded w (begin_rollback journal)) persisted
  else (w, Ok journal).

Definition rollback_journal w journal : option (W * result unit InstallJournalV1) :=
  match enter_rollback w journal with
  | (w, Err error) => Some (w, Err error)
  | (w, Ok journal) =>
      match rollback_loop INSTALLER_FUEL w journal with
      | None => None
      | Some m => Some (and_then m (λ w journal, and_then (recorded w (mark_rolled_back journal)) persisted))
      end
  end.
End installer.

(** What a restart can recognise of an object: the link count of a directory changes
    with its children. *)
Definition persistent (identity : InstallObjectIdentityV1) : InstallObjectIdentityV1 :=
  match io_kind identity with
  | KindRegularFile => identity
  | KindDirectory =>
      mkInstallObjectIdentityV1 KindDirectory (io_device identity) (io_inode identity) 0 None
        (io_mode identity) (io_uid identity) (io_gid identity)
  end.

Lemma matches_persistent self observed :
  matches_persistent_object self observed = true ↔ persistent self = persistent observed.
Proof.
  destruct self as [k d i h s m u g], observed as [k' d' i' h' s' m' u' g'].
  unfold matches_persistent_object, persistent. cbn. rewrite !andb_true_iff, !bool_decide_eq_true, !Z.eqb_eq.
  destruct k, k'; cbn; rewrite ?andb_true_iff, ?bool_decide_eq_true, ?Z.eqb_eq;
    split; intros Heq; destruct_and?; subst; try done;
    try (injection Heq; intros; subst); split_and?; done.
Qed.

Definition prior_object (entry : InstallJournalEntryV1) : option InstallObjectIdentityV1 :=
  match je_prior_state entry with
  | PriorAbsent => None
  | PriorOwned identity _ => Some (persistent identity)
  end.

(** What the adapter promises: the object at each destination, as a restart
    recognises it, and the journal that a restart would read. *)
Section promises.
Context {W : Type} (object : W → InstallRoleV1 → option InstallObjectIdentityV1)
  (durable : W → option InstallJournalV1).

Definition leaves (w w' : W) : Prop := durable w' = durable w ∧ ∀ role, object w' role = object w role.

(** A journal is replaced as a whole or not at all. *)
Definition stores (w : W) (journal : InstallJournalV1) (m : W * result unit unit) : Prop :=
  (∀ role, object m.1 role = object w role) ∧
  (durable m.1 = Some journal ∨ (m.2 = Err tt ∧ durable m.1 = durable w)).

(** Only the object at one destination is changed, from one state to another on
    success and in any way on failure, which may be a crash. *)
Definition changes {A} (w : W) (role : InstallRoleV1) (m : W * result unit A)
    (old : option InstallObjectIdentityV1) (new : A → option InstallObjectIdentityV1) : Prop :=
  durable m.1 = durable w ∧ (∀ r, r ≠ role → object m.1 r = object w r) ∧
  (∀ a, m.2 = Ok a → object w role = old ∧ object m.1 role = new a).
End promises.

Class InstallFilesystemSpec (W : Type) `{InstallFilesystem W} : Type := {
  object : W → InstallRoleV1 → option InstallObjectIdentityV1;
  durable : W → option InstallJournalV1;
  bootstrap_stores w journal : stores object durable w journal (bootstrap_journal w journal);
  persist_stores w journal : stores object durable w journal (persist_journal w journal);
  publish_leaves w journal : leaves object durable w (publish_journal w journal).1;
  inspect_optional_leaves w role : leaves object durable w (inspect_optional_exact w role).1;
  inspect_leaves w role : leaves object durable w (inspect_exact w role).1;
  inspect_reads w role identity :
    (inspect_exact w role).2 = Ok identity → object w role = Some (persistent identity);
  verify_leaves w role identity : leaves object durable w (verify_exact w role identity).1;
  apply_changes w entry :
    changes object durable w (je_role entry) (apply_entry w entry) (prior_object entry)
      (λ outcome, Some (persistent outcome.1));
  remove_changes w role expected :
    changes object durable w role (rollback_remove_exact w role expected) (Some (persistent expected)) (λ _, None);
  remove_refuses w role expected :
    object w role ≠ Some (persistent expected) →
    leaves object durable w (rollback_remove_exact w role expected).1 ∧
    (rollback_remove_exact w role expected).2 = Err tt;
  restore_changes w role current basename backup :
    changes object durable w role (rollback_restore_exact w role current basename backup)
      (Some (persistent current)) (λ _, Some (persistent backup));
}.

(** ** The journal and the layout *)

(** The directories that hold the journals stay. *)
Definition retained (entry : InstallJournalEntryV1) : bool :=
  bool_decide (je_prior_state entry = PriorAbsent) && is_journal_retention_directory (je_role entry).

Definition current_object (entry : InstallJournalEntryV1) : option InstallObjectIdentityV1 :=
  persistent <$> je_current_identity entry.

(** What an undone entry leaves at its destination. *)
Definition undone_entry (entry : InstallJournalEntryV1) : option InstallObjectIdentityV1 :=
  if retained entry then current_object entry else prior_object entry.

(** The part of an entry that the plan fixes. *)
Definition planned_entry (entry : InstallJournalEntryV1) : InstallRoleV1 * InstallIntendedIdentityV1 :=
  (je_role entry, je_intended entry).

(** Where the installer is about to install an object. *)
Definition in_flight (journal : InstallJournalV1) : option InstallRoleV1 :=
  match next_forward_action journal with Some (ForwardApply _ role) => Some role | _ => None end.

Lemma find_role_middle journal pre e post :
  entries_ok (jn_entries journal) → jn_entries journal = pre ++ e :: post →
  find_role journal (je_role e) = Some e.
Proof.
  intros Hok Heq. unfold find_role. apply entries_ok_roles in Hok. rewrite Heq in *. clear Heq.
  induction pre as [|x pre IH]; cbn; unfold has_role at 1.
  - by rewrite bool_decide_eq_true_2.
  - cbn in Hok. apply NoDup_cons in Hok as [Hx Hok]. rewrite bool_decide_eq_false_2; [by apply IH|].
    intros Heq. apply Hx. rewrite Heq, fmap_app, fmap_cons. apply elem_of_app. right. left.
Qed.

Lemma find_role_update journal pre e post f role :
  jn_entries journal = pre ++ e :: post → je_role (f e) = je_role e → role ≠ je_role e →
  find_role (update_entry journal (length pre) f) role = find_role journal role.
Proof.
  intros Heq Hf Hr. unfold find_role. rewrite (update_middle _ _ _ _ f Heq), Heq, !find_app. cbn [List.find].
  assert (has_role role e = false ∧ has_role role (f e) = false) as [-> ->]; [|done].
  unfold has_role. rewrite Hf. split; by apply bool_decide_eq_false_2.
Qed.

Lemma find_role_In journal role e :
  find_role journal role = Some e → e ∈ jn_entries journal ∧ je_role e = role.
Proof.
  unfold find_role. intros [Hin Hr]%List.find_some. split; [by apply list_elem_of_In|].
  unfold has_role in Hr. by apply bool_decide_eq_true in Hr.
Qed.

(** ** What the recording operations write *)
Section recording.
Context (journal : InstallJournalV1) (Hok : journal_ok journal).

Definition written (index : nat) (f : InstallJournalEntryV1 → InstallJournalEntryV1) : InstallJournalV1 :=
  set_step (update_entry journal index f) (jn_durable_step journal + 1).

Lemma advance_update index f journal' :
  advance_step (update_entry journal index f) = (journal', Ok tt) → journal' = written index f.
Proof.
  pose proof (journal_step_bound _ Hok). unfold advance_step. cbn. rewrite checked_add_ok by ulia.
  by intros [= <-].
Qed.

Lemma record_applied_writes pre e post current parent journal' :
  jn_entries journal = pre ++ e :: post → je_phase e = PhasePending →
  record_applied journal (je_role e) current parent = (journal', Ok tt) →
  journal' = written (length pre) (λ e, set_applied e current parent).
Proof.
  intros Heq He. unfold record_applied.
  rewrite (find_role_middle journal pre e post) by (done || apply Hok).
  destruct e as [role path intended sib prior cur par ph]. cbn in He. subst ph. cbn [je_role].
  destruct (check_applied _ _ _ _) as [index|] eqn:Hc; [|done].
  assert (index = length pre) as ->.
  { unfold check_applied in Hc. destruct (next_forward_action journal) as [[]|]; try done.
    case_bool_decide; [|done]. cbn [negb] in Hc.
    rewrite (entry_index_middle journal pre _ post (jo_entries _ Hok) Heq : entry_index journal role = _) in Hc.
    inv_ok. done. }
  apply advance_update.
Qed.

Lemma record_verified_writes pre e post identity journal' :
  jn_entries journal = pre ++ e :: post → je_phase e = PhaseApplied →
  record_verified journal (je_role e) identity = (journal', Ok tt) →
  journal' = written (length pre) (λ e, set_phase e PhaseVerified).
Proof.
  intros Heq He. unfold record_verified.
  rewrite (find_role_middle journal pre e post) by (done || apply Hok).
  destruct e as [role path intended sib prior cur par ph]. cbn in He. subst ph. cbn [je_role].
  destruct (check_verified _ _ _) as [index|] eqn:Hc; [|done].
  assert (index = length pre) as ->.
  { unfold check_verified in Hc. destruct (next_forward_action journal) as [[]|]; try done.
    destruct (_ || _); [done|].
    rewrite (entry_index_middle journal pre _ post (jo_entries _ Hok) Heq : entry_index journal role = _) in Hc.
    by injection Hc. }
  apply advance_update.
Qed.

Lemma rollback_completed_writes pre e post action journal' :
  jn_entries journal = pre ++ e :: post → action_role action = je_role e →
  record_rollback_completed journal action = (journal', Ok tt) →
  journal' = written (length pre) (λ e, set_phase e PhaseRolledBack).
Proof.
  intros Heq Ha. unfold record_rollback_completed. destruct (negb _); [done|]. rewrite Ha.
  rewrite (entry_index_middle journal pre e post) by (done || apply Hok). apply advance_update.
Qed.
End recording.

(** ** The layout that a journal describes *)
Section described.
Context (L : InstallRoleV1 → option InstallObjectIdentityV1).

Definition entry_object (entry : InstallJournalEntryV1) : option InstallObjectIdentityV1 :=
  match je_phase entry with
  | PhasePending => L (je_role entry)
  | PhaseApplied | PhaseVerified => current_object entry
  | PhaseRolledBack => undone_entry entry
  end.

(** What is at a destination, when [L] was there before the journal. *)
Definition journal_object (journal : InstallJournalV1) (role : InstallRoleV1) : option InstallObjectIdentityV1 :=
  match find_role journal role with Some entry => entry_object entry | None => L role end.

Definition priors_recorded (journal : InstallJournalV1) : Prop :=
  Forall (λ e, je_phase e = PhasePending ∨ prior_object e = L (je_role e)) (jn_entries journal).

Lemma journal_object_written journal pre e post f role :
  entries_ok (jn_entries journal) → jn_entries journal = pre ++ e :: post → je_role (f e) = je_role e →
  journal_object (written journal (length pre) f) role
  = if decide (role = je_role e) then entry_object (f e) else journal_object journal role.
Proof.
  intros Hok Heq Hf. unfold journal_object.
  change (find_role (written journal (length pre) f) role) with (find_role (update_entry journal (length pre) f) role).
  destruct (decide (role = je_role e)) as [->|Hr].
  - assert (find_role (update_entry journal (length pre) f) (je_role e) = Some (f e)) as ->; [|done].
    unfold find_role. rewrite (update_middle _ _ _ _ f Heq), find_app, find_none_forall.
    + cbn. unfold has_role. by rewrite Hf, bool_decide_eq_true_2.
    + apply entries_ok_roles in Hok. rewrite Heq, fmap_app, fmap_cons in Hok.
      apply NoDup_app in Hok as (_ & Hd & _). apply Forall_forall. intros x Hx. unfold has_role.
      apply bool_decide_eq_false_2. intros Hr. apply (Hd (je_role x)); [by apply list_elem_of_fmap_2|].
      rewrite Hr. left.
  - by rewrite (find_role_update _ _ _ _ _ _ Heq Hf Hr).
Qed.

Lemma priors_written journal pre e post f :
  jn_entries journal = pre ++ e :: post →
  je_phase (f e) = PhasePending ∨ prior_object (f e) = L (je_role (f e)) →
  priors_recorded journal → priors_recorded (written journal (length pre) f).
Proof.
  intros Heq Hf Hp. unfold priors_recorded in *. cbn. rewrite Heq, alter_middle in *.
  apply Forall_app in Hp as [? Hp]. apply Forall_cons in Hp as [_ ?].
  apply Forall_app. split; [done|]. by apply Forall_cons.
Qed.
End described.

Section recovery.
Context {W : Type} `{InstallFilesystemSpec W}.
Context (L : InstallRoleV1 → option InstallObjectIdentityV1) (bindings : InstallJournalBindingsV1).
Implicit Types (w : W) (journal : InstallJournalV1).

(** Everything is as the journal says, but perhaps at one destination. *)
Definition described journal w (exception : option InstallRoleV1) : Prop :=
  priors_recorded L journal ∧
  ∀ role, exception ≠ Some role → object w role = journal_object L journal role.

Definition stored journal w (exception : option InstallRoleV1) : Prop :=
  durable w = Some journal ∧ journal_ok journal ∧ jn_bindings journal = bindings ∧
  described journal w exception.

(** A restart finds a journal that describes the layout, except for the object that
    was about to be installed. *)
Definition recovers w : Prop := ∃ journal, stored journal w (in_flight journal).

Lemma described_leaves journal w w' exception :
  leaves object durable w w' → described journal w exception → described journal w' exception.
Proof. intros [_ Ho] [Hp Hd]. split; [done|]. intros role Hr. rewrite Ho. auto. Qed.

Lemma described_weaken journal w exception : described journal w None → described journal w exception.
Proof. intros [Hp Hd]. split; [done|]. intros role _. by apply Hd. Qed.

Lemma stored_leaves journal w w' exception :
  leaves object durable w w' → stored journal w exception → stored journal w' exception.
Proof. intros Hl (Hd & ? & ? & ?). split_and!; try done; [by rewrite (proj1 Hl)|by eapply described_leaves]. Qed.

Lemma stored_recovers journal w : stored journal w None → recovers w.
Proof. intros (? & ? & ? & ?). exists journal. split_and!; try done. by apply described_weaken. Qed.

(** Making a journal durable that describes the layout. *)
Lemma persist_stored journal w :
  recovers w → journal_ok journal → jn_bindings journal = bindings → described journal w None →
  let m := persisted w journal in
  recovers m.1 ∧ ∀ journal', m.2 = Ok journal' → journal' = journal ∧ stored journal m.1 None.
Proof.
  intros (old & Hold) Hok Hb Hd. cbv zeta. unfold persisted. pose proof (persist_stores w journal) as [Ho Hs].
  destruct (persist_journal w journal) as [w' res]. cbn [fst snd and_then] in *.
  assert (durable w' = Some journal → stored journal w' None) as Hnew.
  { intros Hdur. split_and!; try done. destruct Hd as [Hp Hd]. split; [done|]. intros role Hr. rewrite Ho. auto. }
  destruct Hs as [Hs|[-> Hs]].
  - apply Hnew in Hs. destruct res; cbn; (split; [by eapply stored_recovers|]); by intros ? [= <-].
  - cbn. split; [|done]. exists old. eapply stored_leaves; [|done]. done.
Qed.

(** The same for the result of a recording operation. *)
Lemma record_stored w (m : InstallJournalV1 * result InstallJournalError unit) :
  recovers w →
  (∀ journal, m = (journal, Ok tt) →
    journal_ok journal ∧ jn_bindings journal = bindings ∧ described journal w None) →
  let r := and_then (recorded w m) persisted in
  recovers r.1 ∧ ∀ journal', r.2 = Ok journal' → m = (journal', Ok tt) ∧ stored journal' r.1 None.
Proof.
  intros Hw Hm. destruct m as [journal [[]|]]; cbn; [|by split].
  destruct (Hm journal eq_refl) as (Hok & Hb & Hd). destruct (persist_stored journal w Hw Hok Hb Hd) as [Hr Hs].
  split; [done|]. intros journal' [-> ?]%Hs. done.
Qed.

(** ** The loop of [apply_plan] *)
Lemma moved_written journal index f res :
  journal_ok journal → journal_moved journal (written journal index f) res →
  journal_ok (written journal index f) ∧ jn_bindings (written journal index f) = jn_bindings journal.
Proof. intros Hok [->|(_ & ? & _ & ?)]; done. Qed.

(** One more durable step of the same plan. *)
Definition next_of journal journal' : Prop :=
  jn_state journal' = JournalApplying ∧ jn_durable_step journal' = jn_durable_step journal + 1 ∧
  planned_entry <$> jn_entries journal' = planned_entry <$> jn_entries journal.

Lemma next_of_length journal journal' :
  next_of journal journal' → length (jn_entries journal') = length (jn_entries journal).
Proof. intros (_ & _ & Hp). by rewrite <-(length_fmap planned_entry), Hp, length_fmap. Qed.

Lemma written_next journal index f :
  jn_state journal = JournalApplying → (∀ e, planned_entry (f e) = planned_entry e) →
  next_of journal (written journal index f).
Proof.
  intros Hst Hf. split_and!; try done. cbn. generalize (jn_entries journal) as l. intros l. revert index.
  induction l as [|e l IH]; intros [|index]; cbn; [done..|by rewrite Hf|by f_equal].
Qed.

Lemma apply_recorded journal w pre e post outcome w' :
  stored journal w None → jn_entries journal = pre ++ e :: post → je_phase e = PhasePending →
  in_flight journal = Some (je_role e) → apply_entry w e = (w', Ok outcome) →
  let m := record_applied journal (je_role e) outcome.1 outcome.2 in
  recovers w' ∧ ∀ journal', m = (journal', Ok tt) →
    journal' = written journal (length pre) (λ e, set_applied e outcome.1 outcome.2) ∧
    journal_ok journal' ∧ jn_bindings journal' = bindings ∧ described journal' w' None.
Proof.
  intros (Hdur & Hok & Hb & [Hp Hd]) Heq He Hfl Happ. cbv zeta.
  pose proof (apply_changes w e) as (Hdur' & Hoth & Hnew). rewrite Happ in *. cbn [fst snd] in *.
  destruct (Hnew outcome eq_refl) as [Hold Hobj]. split.
  - exists journal. rewrite Hfl. split_and!; [congruence|done..|]. split; [done|]. intros role Hr. rewrite Hoth by congruence. by apply Hd.
  - intros journal' Hm. pose proof (record_applied_moved journal (je_role e) outcome.1 outcome.2 Hok) as Hmove.
    pose proof (record_applied_writes journal Hok pre e post _ _ _ Heq He Hm) as Hw. rewrite Hm in Hmove.
    cbn [fst snd] in Hmove. split; [done|]. subst journal'. apply moved_written in Hmove as [Hok' Hb']; [|done].
    split_and!; [done|congruence|].
    assert (object w (je_role e) = L (je_role e)) as HL.
    { rewrite Hd by done. unfold journal_object. rewrite (find_role_middle _ _ _ _ (jo_entries _ Hok) Heq).
      unfold entry_object. by rewrite He. }
    split.
    + eapply priors_written; [done| |done]. right. cbn. rewrite <-HL, Hold. done.
    + intros role _. erewrite journal_object_written; [|apply Hok|done|done].
      destruct (decide _) as [->|Hr]; [by rewrite Hobj|]. rewrite Hoth by done. by apply Hd.
Qed.

Lemma verify_recorded journal w w' pre e post identity :
  stored journal w None → jn_entries journal = pre ++ e :: post → je_phase e = PhaseApplied →
  leaves object durable w w' →
  let m := record_verified journal (je_role e) identity in
  ∀ journal', m = (journal', Ok tt) →
    journal' = written journal (length pre) (λ e, set_phase e PhaseVerified) ∧
    journal_ok journal' ∧ jn_bindings journal' = bindings ∧ described journal' w' None.
Proof.
  intros (Hdur & Hok & Hb & [Hp Hd]) Heq He Hl m journal' Hm.
  pose proof (record_verified_moved journal (je_role e) identity Hok) as Hmove.
  pose proof (record_verified_writes journal Hok pre e post _ _ Heq He Hm) as Hw. fold m in Hmove. rewrite Hm in Hmove.
  cbn [fst snd] in Hmove. split; [done|]. subst journal'. apply moved_written in Hmove as [Hok' Hb']; [|done].
  split_and!; [done|congruence|]. eapply described_leaves; [done|]. split.
  - eapply priors_written; [done| |done]. right. cbn. unfold priors_recorded in Hp. rewrite Heq in Hp.
    apply Forall_app in Hp as [_ Hp]. apply Forall_cons in Hp as [[Hp|Hp] _]; [congruence|done].
  - intros role _. erewrite journal_object_written; [|apply Hok|done|done].
    destruct (decide _) as [->|Hr]; [|by apply Hd]. rewrite Hd by done. unfold journal_object.
    rewrite (find_role_middle _ _ _ _ (jo_entries _ Hok) Heq). unfold entry_object. rewrite He. done.
Qed.

Lemma apply_action_stored fpe w journal action :
  stored journal w None → jn_state journal = JournalApplying → next_forward_action journal = Some action →
  let r := apply_action fpe w journal action in
  recovers r.1 ∧ ∀ journal', r.2 = Ok journal' → stored journal' r.1 None ∧ next_of journal journal'.
Proof.
  intros Hs Hst Hnext. cbv zeta. pose proof (applying_next journal (proj1 (proj2 Hs)) Hst) as H'.
  assert (in_flight journal = match action with ForwardApply _ role => Some role | _ => None end) as Hfl.
  { unfold in_flight. rewrite Hnext. by destruct action. }
  rewrite Hnext in H'. destruct H' as (pre & e & post & Heq & _ & _ & Hact). destruct action as [step role|step role identity].
  - destruct Hact as (-> & He & _). cbn [apply_action].
    rewrite (find_role_middle _ _ _ _ (jo_entries _ (proj1 (proj2 Hs))) Heq).
    destruct (apply_entry w e) as [w1 [outcome|]] eqn:Happ; cbn [and_then].
    + destruct (apply_recorded _ _ _ _ _ _ _ Hs Heq He Hfl Happ) as [Hrec Hj].
      destruct (record_stored w1 _ Hrec (λ j Hm, proj2 (Hj j Hm))) as [Hr Hok].
      split; [done|]. intros journal' [Hm ?]%Hok. split; [done|]. destruct (Hj _ Hm) as [-> _]. by (apply written_next).
    + cbn. split; [|done]. destruct Hs as (Hdur & Hok & Hb & [Hp Hd]).
      pose proof (apply_changes w e) as (Hdur' & Hoth & _). rewrite Happ in *. cbn [fst] in *.
      exists journal. rewrite Hfl. split_and!; [congruence|done..|]. split; [done|]. intros r Hr. rewrite Hoth by congruence. by apply Hd.
  - destruct Hact as (-> & He & _). cbn [apply_action].
    pose proof (verify_leaves w (je_role e) identity) as Hl.
    destruct (verify_exact w (je_role e) identity) as [w1 res]. cbn [fst] in Hl.
    assert (recovers w1) as Hrec by (eapply stored_recovers, stored_leaves; done).
    destruct res as [[]|]; cbn [and_then]; [|done].
    pose proof (verify_recorded _ _ _ _ _ _ identity Hs Heq He Hl) as Hj. cbv zeta in Hj.
    destruct (record_stored w1 _ Hrec (λ j Hm, proj2 (Hj j Hm))) as [Hr Hok].
    destruct (record_verified journal (je_role e) identity) as [j [[]|]]; cbn [recorded and_then] in *; [|done].
    destruct (persisted w1 j) as [w2 [j2|]]; cbn [and_then fst snd] in *; [|done].
    destruct (Hok j2 eq_refl) as [[= <-] Hst2]. destruct (Hj j eq_refl) as [-> _].
    set (j := written _ _ _) in *. assert (next_of journal j) by by (apply written_next).
    destruct (_ && _); cbn; [|split; [done|]; by intros ? [= <-]].
    pose proof (publish_leaves w2 j) as Hl2. destruct (publish_journal w2 j) as [w3 [[]|]]; cbn [and_then fst snd] in *.
    + split; [by eapply stored_recovers, stored_leaves|]. intros ? [= <-]. split; [by eapply stored_leaves|done].
    + split; [by eapply stored_recovers, stored_leaves|done].
Qed.

(** Two steps per entry are enough. *)
Lemma apply_loop_stored fuel fpe w journal :
  stored journal w None → jn_state journal = JournalApplying →
  2 * Z.of_nat (length (jn_entries journal)) + 2 - jn_durable_step journal ≤ Z.of_nat fuel →
  ∃ r, apply_loop fuel fpe w journal = Some r ∧ recovers r.1 ∧
    ∀ journal', r.2 = Ok journal' → stored journal' r.1 None ∧ jn_state journal' = JournalApplying ∧
      next_forward_action journal' = None ∧
      planned_entry <$> jn_entries journal' = planned_entry <$> jn_entries journal.
Proof.
  revert w journal. induction fuel as [|fuel IH]; intros w journal Hs Hst Hfuel; cbn [apply_loop];
    pose proof (applying_next journal (proj1 (proj2 Hs)) Hst) as Hn;
    destruct (next_forward_action journal) as [action|] eqn:Hnext.
  2, 4: (eexists; split; [done|]; cbn; split; [by eapply stored_recovers|]; by intros ? [= <-]).
  - exfalso. destruct Hn as (pre & e & post & Heq & _ & _ & Hact). rewrite Heq, length_app in Hfuel. cbn in Hfuel.
    destruct action; intuition lia.
  - destruct (apply_action_stored fpe w journal action Hs Hst Hnext) as [Hrec Hok].
    destruct (apply_action fpe w journal action) as [w1 [j|[]]]; cbn [fst snd] in *.
    + destruct (Hok j eq_refl) as [Hs' Hn']. pose proof (next_of_length _ _ Hn') as Hlen.
      destruct Hn' as (Hst' & Hstep & Hplan). rewrite <-Hplan. apply IH; try done. rewrite Hlen, Hstep. lia.
    + eexists. split; [done|]. done.
Qed.

(** ** The whole of [apply_plan] *)
Lemma advance_writes (changed journal' : InstallJournalV1) :
  advance_step changed = (journal', Ok tt) →
  jn_entries journal' = jn_entries changed ∧ jn_state journal' = jn_state changed ∧
  jn_durable_step journal' = jn_durable_step changed + 1.
Proof.
  unfold advance_step. destruct (checked_add _ _ _) as [step|] eqn:Hc; [|done]. intros [= <-].
  by apply checked_add_Some in Hc as [-> _].
Qed.

Lemma described_entries journal journal' w exception :
  jn_entries journal' = jn_entries journal → described journal w exception → described journal' w exception.
Proof. unfold described, priors_recorded, journal_object, find_role. by intros ->. Qed.

Lemma described_pending journal w :
  Forall (λ e, je_phase e = PhasePending) (jn_entries journal) → (∀ role, object w role = L role) →
  described journal w None.
Proof.
  intros Hp Ho. split; [eapply Forall_impl; [exact Hp|]; by left|]. intros role _. rewrite Ho.
  unfold journal_object. destruct (find_role journal role) as [e|] eqn:Hf; [|done].
  apply find_role_In in Hf as [Hin <-]. rewrite Forall_forall in Hp. unfold entry_object. by rewrite (Hp e Hin).
Qed.

Context (Hbindings : InstallJournalBindingsV1_validate bindings = Ok tt)
  (entries : list InstallJournalEntryV1) (Hpending : Forall (λ e, je_phase e = PhasePending) entries).

Lemma prepare_writes journal :
  prepare (InstallJournalV1_new bindings) entries = (journal, Ok tt) →
  journal_ok journal ∧ jn_bindings journal = bindings ∧ jn_state journal = JournalPrepared ∧
  jn_durable_step journal = 1 ∧ jn_entries journal ≡ₚ entries.
Proof.
  intros Hp. pose proof (prepare_moved _ entries (journal_ok_new _ Hbindings) Hpending) as Hm. rewrite Hp in Hm. cbn [fst snd] in Hm.
  unfold prepare in Hp. destruct (validate_entries _) as [[]|] eqn:Hv; [|done].
  apply advance_writes in Hp as (He & Hs & Hd). cbn in He, Hs, Hd.
  destruct Hm as [->|(_ & Hok & _ & Hb)]; [done|]. split_and!; try done. rewrite He.
  unfold sort_by_key. apply sort_by_Permutation.
Qed.

Lemma start_writes journal journal' :
  start_applying journal = (journal', Ok tt) → journal_ok journal →
  journal_ok journal' ∧ jn_bindings journal' = jn_bindings journal ∧ jn_entries journal' = jn_entries journal ∧
  jn_state journal' = JournalApplying ∧ jn_durable_step journal' = jn_durable_step journal + 1.
Proof.
  intros Hp Hok. pose proof (start_moved _ Hok) as Hm. rewrite Hp in Hm. cbn [fst snd] in Hm. unfold start_applying in Hp.
  case_bool_decide as Hst; [|done]. apply advance_writes in Hp as (He & Hs & Hd). cbn in He, Hs, Hd.
  destruct Hm as [->|(_ & ? & _ & ?)]; [congruence|done].
Qed.

Lemma installed_writes journal journal' :
  mark_installed journal = (journal', Ok tt) → journal_ok journal →
  journal_ok journal' ∧ jn_bindings journal' = jn_bindings journal ∧ jn_entries journal' = jn_entries journal ∧
  jn_state journal' = JournalInstalled.
Proof.
  intros Hp Hok. pose proof (installed_moved _ Hok) as Hm. rewrite Hp in Hm. cbn [fst snd] in Hm. unfold mark_installed in Hp.
  destruct (negb (bool_decide (jn_state journal = JournalApplying))) eqn:Hst; [done|]. cbn [orb] in Hp.
  destruct (_ || _); [done|]. apply advance_writes in Hp as (He & Hs & Hd).
  destruct Hm as [->|(_ & ? & _ & ?)]; [|done].
  cbn in Hs. by rewrite Hs in Hst.
Qed.

Lemma bootstrap_stored journal w :
  (∀ role, object w role = L role) → journal_ok journal → jn_bindings journal = bindings →
  Forall (λ e, je_phase e = PhasePending) (jn_entries journal) →
  let r := bootstrap_journal w journal in
  (leaves object durable w r.1 ∨ recovers r.1) ∧ (r.2 = Ok tt → stored journal r.1 None).
Proof.
  intros Ho Hok Hb Hp. cbv zeta. pose proof (bootstrap_stores w journal) as [Hobj Hs].
  assert (durable (bootstrap_journal w journal).1 = Some journal → stored journal (bootstrap_journal w journal).1 None) as Hnew.
  { intros Hd. split_and!; try done. apply described_pending; [done|]. intros role. by rewrite Hobj. }
  split.
  - destruct Hs as [Hs|[_ Hs]]; [right; eauto using stored_recovers|by left].
  - intros Hr. destruct Hs as [Hs|[Hs _]]; [eauto|congruence].
Qed.

(** The world after a failure, or the prepared transaction. *)
Lemma prepare_journal_stored w :
  (∀ role, object w role = L role) →
  let r := prepare_journal w bindings entries in
  (leaves object durable w r.1 ∨ recovers r.1) ∧
  ∀ a, r.2 = Ok a → stored a.1 r.1 None ∧ jn_state a.1 = JournalApplying ∧ jn_durable_step a.1 = 2 ∧
    jn_entries a.1 ≡ₚ entries.
Proof.
  intros Ho. cbv zeta. unfold prepare_journal.
  destruct (prepare _ entries) as [journal [[]|]] eqn:Hp; cbn [recorded and_then]; [|split; [left; by split|done]].
  apply prepare_writes in Hp as (Hok & Hb & Hst & Hstep & Hent).
  assert (Forall (λ e, je_phase e = PhasePending) (jn_entries journal)) as Hpend by by rewrite Hent.
  destruct (bootstrap_stored journal w Ho Hok Hb Hpend) as [Hany Hs].
  destruct (bootstrap_journal w journal) as [w1 [[]|]]; cbn [and_then fst snd] in *; [|done].
  specialize (Hs eq_refl). pose proof (inspect_optional_leaves w1 TransactionsRoot) as Hl.
  destruct (inspect_optional_exact w1 TransactionsRoot) as [w2 res]. cbn [fst] in Hl. eapply stored_leaves in Hs; [|done].
  clear Hl Hany. destruct res as [root|]; cbn [and_then]; [|split; [right; by eapply stored_recovers|done]].
  set (m := if is_some root then _ else _).
  assert (leaves object durable w2 m.1) as Hl by (subst m; destruct (is_some root); [apply publish_leaves|done]).
  destruct m as [w3 res]. cbn [fst] in Hl. eapply stored_leaves in Hs; [|done]. clear Hl.
  destruct res as [[]|]; cbn [and_then]; [|split; [right; by eapply stored_recovers|done]].
  destruct (record_stored w3 (start_applying journal)) as [Hr Hstart].
  - by eapply stored_recovers.
  - intros j (? & ? & He & _)%start_writes; [|done]. split_and!; [done|congruence|].
    eapply described_entries; [done|]. apply Hs.
  - destruct (start_applying journal) as [j [[]|]] eqn:Hj; cbn [recorded and_then] in *; [|split; [by right|done]].
    destruct (persisted w3 j) as [w4 [j'|]]; cbn [and_then fst snd] in *; [|split; [by right|done]].
    destruct (Hstart j' eq_refl) as [[= <-] Hs']. split; [by right|]. intros ? [= <-].
    apply start_writes in Hj as (_ & _ & He & ? & Hd); [|done]. cbn [fst]. split_and!; [done..|lia|by rewrite He].
Qed.

Lemma apply_plan_recovers w :
  (∀ role, object w role = L role) →
  ∃ r, apply_plan w bindings entries = Some r ∧ (leaves object durable w r.1 ∨ recovers r.1) ∧
    ∀ journal, r.2 = Ok journal → stored journal r.1 None ∧ jn_state journal = JournalInstalled ∧
      planned_entry <$> jn_entries journal ≡ₚ planned_entry <$> entries.
Proof.
  intros Ho. unfold apply_plan. pose proof (prepare_journal_stored w Ho) as [Hany Hok].
  destruct (prepare_journal w bindings entries) as [w1 [[journal fpe]|[]]]; cbn [fst snd] in *; [|by eexists].
  destruct (Hok _ eq_refl) as (Hs & Hst & Hstep & Hent). cbn [fst] in *.
  destruct (apply_loop_stored INSTALLER_FUEL fpe w1 journal Hs Hst) as (r & -> & Hrec & Hloop).
  { pose proof (entries_ok_length _ (jo_entries _ (proj1 (proj2 Hs)))). rewrite Hstep. unfold INSTALLER_FUEL. lia. }
  eexists. split; [done|]. destruct r as [w2 [j|[]]]; cbn [and_then fst snd] in *; [|by split; [right|]].
  destruct (Hloop j eq_refl) as (Hs2 & Hst2 & _ & Hplan).
  destruct (record_stored w2 (mark_installed j)) as [Hr Hfin]; [done| |].
  - intros j' (? & ? & He & _)%installed_writes; [|apply Hs2]. split_and!; [done| |].
    + destruct Hs2 as (_ & _ & ? & _). congruence.
    + eapply described_entries; [done|]. apply Hs2.
  - split; [by right|]. intros j' (Hm & Hs3)%Hfin. apply installed_writes in Hm as (_ & _ & He & ?); [|apply Hs2].
    split_and!; [done..|]. by rewrite He, Hplan, Hent.
Qed.
End recovery.

(** ** Rolling back *)
Section undoing.
Context {W : Type} `{InstallFilesystemSpec W}.
Implicit Types (w : W) (journal : InstallJournalV1).

(** What a rollback of [journal] leaves at a destination. *)
Definition undone_object w journal (role : InstallRoleV1) : option InstallObjectIdentityV1 :=
  match find_role journal role with
  | Some entry => if is_applied entry then undone_entry entry else object w role
  | None => object w role
  end.

(** The journal has nothing to undo at a destination. *)
Definition untouched journal (role : InstallRoleV1) : Prop :=
  ∀ entry, find_role journal role = Some entry → is_applied entry = false.

Definition applied_count journal : nat := length (List.filter is_applied (jn_entries journal)).

Lemma rolling_action journal action :
  journal_ok journal → next_rollback_action journal = Some action →
  jn_state journal = JournalRollingBack ∧
  ∃ pre e post current, jn_entries journal = pre ++ e :: post ∧ is_applied e = true ∧
    je_current_identity e = Some current ∧ action = rollback_action (jn_durable_step journal + 1) e current.
Proof.
  intros Hok Hn. assert (jn_state journal = JournalRollingBack) as Hst.
  { unfold next_rollback_action in Hn. by case_bool_decide. }
  split; [done|]. pose proof (jo_state _ Hok) as Hs. unfold state_ok in Hs. rewrite Hst in Hs.
  destruct Hs as (held & r & p & Hsh & _). pose proof (rolling_next _ _ _ _ Hok Hst Hsh) as Hr. rewrite Hn in Hr.
  destruct Hr as (pre & e & post & held' & current & Heq & _ & _ & _ & He & Hc & Ha). by exists pre, e, post, current.
Qed.

Lemma rolling_done journal :
  journal_ok journal → jn_state journal = JournalRollingBack → next_rollback_action journal = None →
  Forall (λ e, is_applied e = false) (jn_entries journal).
Proof.
  intros Hok Hst Hn. pose proof (jo_state _ Hok) as Hs. unfold state_ok in Hs. rewrite Hst in Hs.
  destruct Hs as (held & r & p & Hsh & _). pose proof (rolling_next _ _ _ _ Hok Hst Hsh) as Hr. rewrite Hn in Hr.
  subst held. destruct Hsh as [Hsh _]. apply (Forall_fmap je_phase (λ q, held_phase q = false)). rewrite Hsh. cbn [app].
  apply Forall_app. split; by apply Forall_replicate.
Qed.

Lemma undo_changes w step e current :
  je_current_identity e = Some current →
  let r := undo w (rollback_action step e current) in
  durable r.1 = durable w ∧ (∀ role, role ≠ je_role e → object r.1 role = object w role) ∧
  (r.2 = Ok tt → object r.1 (je_role e) = undone_entry e).
Proof.
  intros Hc. unfold rollback_action, undone_entry, retained, prior_object, current_object. rewrite Hc. cbn [fmap option_fmap option_map].
  destruct (je_prior_state e) as [|identity backup].
  - rewrite bool_decide_eq_true_2 by done. cbn [andb]. destruct (is_journal_retention_directory (je_role e)); cbn [undo].
    + pose proof (inspect_leaves w (je_role e)) as [Hd Ho]. pose proof (inspect_reads w (je_role e)) as Hr.
      destruct (inspect_exact w (je_role e)) as [w1 [observed|]]; cbn [and_then fst snd] in *; [|done].
      destruct (matches_persistent_object current observed) eqn:Hm; cbn; [|done]. split_and!; [done|auto|].
      intros _. rewrite Ho, (Hr _ eq_refl). by apply matches_persistent in Hm as ->.
    + pose proof (remove_changes w (je_role e) current) as (Hd & Ho & Hn). split_and!; [done..|].
      intros Hr. by apply (Hn tt).
  - rewrite bool_decide_eq_false_2 by done. cbn [andb undo].
    pose proof (restore_changes w (je_role e) current backup identity) as (Hd & Ho & Hn). split_and!; [done..|].
    intros Hr. by apply (Hn tt).
Qed.

(** A restart finds a valid journal of the same transaction. *)
Definition durable_of (bindings : InstallJournalBindingsV1) w : Prop :=
  ∃ journal, durable w = Some journal ∧ journal_ok journal ∧ jn_bindings journal = bindings.

Definition same_objects w w' : Prop := ∀ role, object w' role = object w role.

Lemma persist_durable bindings journal w :
  durable_of bindings w → journal_ok journal → jn_bindings journal = bindings →
  let r := persisted w journal in
  durable_of bindings r.1 ∧ same_objects w r.1 ∧
  ∀ journal', r.2 = Ok journal' → journal' = journal ∧ durable r.1 = Some journal.
Proof.
  intros Hw Hok Hb. cbv zeta. unfold persisted. pose proof (persist_stores w journal) as [Ho Hs].
  destruct (persist_journal w journal) as [w' res]. cbn [fst snd and_then] in *.
  assert (durable_of bindings w') as Hw'.
  { destruct Hs as [Hs|[_ Hs]]; [by exists journal|]. destruct Hw as (j & ? & ? & ?). exists j. split_and!; congruence. }
  destruct res as [[]|]; cbn; (split_and!; [done..|]); [|done]. intros ? [= <-].
  destruct Hs as [Hs|[Hs _]]; done.
Qed.

(** The same for the result of a recording operation. *)
Lemma record_durable journal w (m : InstallJournalV1 * result InstallJournalError unit) :
  durable w = Some journal → journal_ok journal → journal_moved journal m.1 m.2 →
  let r := and_then (recorded w m) persisted in
  durable_of (jn_bindings journal) r.1 ∧ same_objects w r.1 ∧
  ∀ journal', r.2 = Ok journal' → m = (journal', Ok tt) ∧ durable r.1 = Some journal' ∧ journal_ok journal' ∧
    jn_bindings journal' = jn_bindings journal.
Proof.
  intros Hd Hok Hm. assert (durable_of (jn_bindings journal) w) as Hw by (by exists journal).
  destruct m as [j [[]|]]; cbn [recorded and_then fst snd] in *; [|by split_and!].
  assert (journal_ok j ∧ jn_bindings j = jn_bindings journal) as [Hj Hb] by (destruct Hm as [->|(_ & ? & _ & ?)]; done).
  destruct (persist_durable _ j w Hw Hj Hb) as (? & ? & Hp). split_and!; [done..|].
  by intros journal' [-> ?]%Hp.
Qed.

Lemma rollback_step_undoes w journal action :
  durable w = Some journal → journal_ok journal → next_rollback_action journal = Some action →
  let r := rollback_step w journal action in
  durable_of (jn_bindings journal) r.1 ∧ (∀ role, untouched journal role → object r.1 role = object w role) ∧
  ∀ journal', r.2 = Ok journal' →
    durable r.1 = Some journal' ∧ journal_ok journal' ∧ jn_bindings journal' = jn_bindings journal ∧
    jn_state journal' = JournalRollingBack ∧ S (applied_count journal') = applied_count journal ∧
    (∀ role, untouched journal role → untouched journal' role) ∧
    ∀ role, undone_object r.1 journal' role = undone_object w journal role.
Proof.
  intros Hd Hok Hn. cbv zeta. pose proof (rolling_action _ _ Hok Hn) as (Hst & pre & e & post & current & Heq & He & Hc & Ha).
  pose proof (find_role_middle _ _ _ _ (jo_entries _ Hok) Heq) as Hfind.
  assert (∀ role, untouched journal role → role ≠ je_role e) as Hne.
  { intros role Hu ->. specialize (Hu e Hfind). congruence. }
  unfold rollback_step. pose proof (undo_changes w (jn_durable_step journal + 1) e current Hc) as Hundo.
  rewrite <-Ha in Hundo. destruct (undo w action) as [w1 res]. cbn [fst snd] in Hundo.
  destruct Hundo as (Hd1 & Hoth & Hself).
  destruct res as [[]|]; cbn [and_then].
  2: { cbn. split_and!; [exists journal; split_and!; congruence|auto|done]. }
  specialize (Hself eq_refl).
  destruct (record_durable journal w1 _ (eq_trans Hd1 Hd) Hok (completed_moved journal action Hok)) as (Hr & Hobj & Hrec).
  split_and!; [done| |].
  - intros role Hu. rewrite Hobj. auto.
  - intros journal' (Hm & Hd' & Hok' & Hb')%Hrec.
    assert (action_role action = je_role e) as Hrole by (rewrite Ha; apply action_role_of).
    pose proof (rollback_completed_writes journal Hok _ _ _ _ _ Heq Hrole Hm) as ->.
    assert (∀ role, role ≠ je_role e → find_role (written journal (length pre) (λ e, set_phase e PhaseRolledBack)) role
      = find_role journal role) as Hfo.
    { intros role Hr'. by apply (find_role_update _ _ e post (λ e, set_phase e PhaseRolledBack)). }
    assert (find_role (written journal (length pre) (λ e, set_phase e PhaseRolledBack)) (je_role e)
      = Some (set_phase e PhaseRolledBack)) as Hfs.
    { apply (find_role_middle _ pre (set_phase e PhaseRolledBack) post); [apply Hok'|]. cbn. rewrite Heq.
      apply (alter_middle (λ e, set_phase e PhaseRolledBack)). }
    split_and!; [done..| | |].
    + unfold applied_count. cbn. rewrite Heq, alter_middle, !List.filter_app, !length_app. cbn. rewrite He. cbn. lia.
    + intros role Hu. unfold untouched. rewrite Hfo by auto. exact Hu.
    + intros role. unfold undone_object. destruct (decide (role = je_role e)) as [->|Hr'].
      * rewrite Hfs, Hfind, He. cbn. by rewrite Hobj.
      * rewrite Hfo, Hobj, Hoth by done. done.
Qed.

Lemma no_action_count journal :
  journal_ok journal → next_rollback_action journal ≠ None → applied_count journal ≠ 0%nat.
Proof.
  intros Hok Hn. destruct (next_rollback_action journal) as [action|] eqn:Ha; [|done].
  apply rolling_action in Ha as (_ & pre & e & post & _ & Heq & He & _); [|done].
  unfold applied_count. rewrite Heq, List.filter_app, length_app. cbn. rewrite He. cbn. lia.
Qed.

Lemma rollback_loop_undoes fuel w journal :
  durable w = Some journal → journal_ok journal → jn_state journal = JournalRollingBack →
  (applied_count journal ≤ fuel)%nat →
  ∃ r, rollback_loop fuel w journal = Some r ∧ durable_of (jn_bindings journal) r.1 ∧
    (∀ role, untouched journal role → object r.1 role = object w role) ∧
    ∀ journal', r.2 = Ok journal' →
      durable r.1 = Some journal' ∧ journal_ok journal' ∧ jn_bindings journal' = jn_bindings journal ∧
      jn_state journal' = JournalRollingBack ∧ next_rollback_action journal' = None ∧
      ∀ role, object r.1 role = undone_object w journal role.
Proof.
  revert w journal. induction fuel as [|fuel IH]; intros w journal Hd Hok Hst Hfuel; cbn [rollback_loop];
    destruct (next_rollback_action journal) as [action|] eqn:Hn.
  2, 4: (eexists; split; [done|]; cbn; split_and!; [by exists journal|done|]; intros ? [= <-]; split_and!; try done;
    intros role; unfold undone_object; destruct (find_role journal role) as [e|] eqn:Hf; [|done];
    apply find_role_In in Hf as [Hin _]; pose proof (rolling_done _ Hok Hst Hn) as Hall;
    rewrite Forall_forall in Hall; by rewrite (Hall e Hin)).
  - assert (applied_count journal ≠ 0%nat) by (apply no_action_count; [done|congruence]). lia.
  - destruct (rollback_step_undoes w journal action Hd Hok Hn) as (Hdur & Hunt & Hstep).
    destruct (rollback_step w journal action) as [w1 [j|[]]]; cbn [fst snd] in *.
    2: { eexists. split; [done|]. done. }
    destruct (Hstep j eq_refl) as (Hd1 & Hok1 & Hb1 & Hst1 & Hcount & Hmono & Hundone).
    destruct (IH w1 j Hd1 Hok1 Hst1 ltac:(lia)) as (r & -> & Hdr & Hur & Hr). rewrite Hb1 in *.
    exists r. split_and!; try done.
    + intros role Hu. rewrite Hur by auto. auto.
    + intros j' Hj'. destruct (Hr j' Hj') as (? & ? & ? & ? & ? & Ho). split_and!; try done.
      intros role. by rewrite Ho, Hundone.
Qed.

Lemma begin_writes journal journal' :
  begin_rollback journal = (journal', Ok tt) →
  jn_entries journal' = jn_entries journal ∧ jn_state journal' = JournalRollingBack.
Proof.
  unfold begin_rollback. destruct (_ || _); [done|]. by intros (? & ? & _)%advance_writes.
Qed.

Lemma finish_writes journal journal' :
  mark_rolled_back journal = (journal', Ok tt) → jn_state journal' = JournalRolledBack.
Proof.
  unfold mark_rolled_back. destruct (_ || _); [done|]. by intros (_ & ? & _)%advance_writes.
Qed.

Lemma enter_rollback_durable w journal :
  durable w = Some journal → journal_ok journal →
  let r := enter_rollback w journal in
  durable_of (jn_bindings journal) r.1 ∧ same_objects w r.1 ∧
  ∀ journal', r.2 = Ok journal' → durable r.1 = Some journal' ∧ journal_ok journal' ∧
    jn_bindings journal' = jn_bindings journal ∧ jn_state journal' = JournalRollingBack ∧
    jn_entries journal' = jn_entries journal.
Proof.
  intros Hd Hok. cbv zeta. unfold enter_rollback. case_bool_decide as Hst; cbn [negb].
  - cbn. split_and!; [by exists journal|done|]. by intros ? [= <-].
  - destruct (record_durable journal w _ Hd Hok (begin_moved journal Hok)) as (? & ? & Hr).
    split_and!; [done..|]. intros j (Hm & ? & ? & ?)%Hr. apply begin_writes in Hm as [? ?]. done.
Qed.

Lemma rollback_journal_undoes w journal :
  durable w = Some journal → journal_ok journal →
  ∃ r, rollback_journal w journal = Some r ∧ durable_of (jn_bindings journal) r.1 ∧
    (∀ role, untouched journal role → object r.1 role = object w role) ∧
    ∀ journal', r.2 = Ok journal' → durable r.1 = Some journal' ∧ jn_state journal' = JournalRolledBack ∧
      ∀ role, object r.1 role = undone_object w journal role.
Proof.
  intros Hd Hok. unfold rollback_journal.
  destruct (enter_rollback_durable w journal Hd Hok) as (Hdur & Hobj & Henter).
  destruct (enter_rollback w journal) as [w1 [j|[]]]; cbn [fst snd] in *.
  2: { eexists. split; [done|]. cbn. split_and!; [done|intros role _; apply Hobj|done]. }
  destruct (Henter j eq_refl) as (Hd1 & Hok1 & Hb1 & Hst1 & Hent).
  assert (∀ role, find_role j role = find_role journal role) as Hfind by (intros role; unfold find_role; by rewrite Hent).
  destruct (rollback_loop_undoes INSTALLER_FUEL w1 j Hd1 Hok1 Hst1) as (r & -> & Hdr & Hunt & Hr).
  { pose proof (entries_ok_length _ (jo_entries _ Hok1)). unfold applied_count, INSTALLER_FUEL.
    pose proof (List.filter_length_le is_applied (jn_entries j)). lia. }
  eexists. split; [done|]. rewrite Hb1 in *. destruct r as [w2 [j2|[]]]; cbn [and_then fst snd] in *.
  2: { split_and!; [done| |done]. intros role Hu. rewrite Hunt, Hobj; [done|]. unfold untouched. by rewrite Hfind. }
  destruct (Hr j2 eq_refl) as (Hd2 & Hok2 & Hb2 & Hst2 & _ & Hund).
  destruct (record_durable j2 w2 _ Hd2 Hok2 (rolled_back_moved j2 Hok2)) as (Hdur3 & Hobj3 & Hfin). rewrite Hb2 in *.
  split_and!; [done| |].
  - intros role Hu. rewrite Hobj3, Hunt, Hobj; [done|]. unfold untouched. by rewrite Hfind.
  - intros j3 (Hm & ? & _ & _)%Hfin. apply finish_writes in Hm. split_and!; [done..|]. intros role.
    rewrite Hobj3, Hund. unfold undone_object. by rewrite Hfind, Hobj.
Qed.
End undoing.

(** ** The promises of the installer *)
Section theorems.
Context {W : Type} `{InstallFilesystemSpec W}.

(** C17: An installation ends after at most 64 iterations, whichever call fails and
    wherever the process dies (a crash is the failure of every later call).
    Either nothing happened, or a restart finds a journal of this transaction
    that can be read back and that says what is at every destination, with the
    object it replaced, except the one whose installation was under way.  On
    success every object of the plan is installed with its intended identity,
    the journal says so, and no other destination has changed. *)
Theorem interrupted_install_is_recoverable (w : W) bindings entries :
  InstallJournalBindingsV1_validate bindings = Ok tt →
  Forall (λ e, ∃ role intended sibling prior, InstallJournalEntryV1_new role intended sibling prior = Ok e) entries →
  ∃ w' r, apply_plan w bindings entries = Some (w', r) ∧
    (leaves object durable w w' ∨
     ∃ journal, durable w' = Some journal ∧ InstallJournalV1_validate journal = Ok tt ∧
       jn_bindings journal = bindings ∧ priors_recorded (object w) journal ∧
       ∀ role, in_flight journal ≠ Some role → object w' role = journal_object (object w) journal role) ∧
    ∀ journal, r = Ok journal →
      durable w' = Some journal ∧ jn_state journal = JournalInstalled ∧
      planned_entry <$> jn_entries journal ≡ₚ planned_entry <$> entries ∧
      (∀ e, e ∈ jn_entries journal → ∃ identity, object w' (je_role e) = Some (persistent identity) ∧
        matches_intended identity (je_intended e) = true) ∧
      ∀ role, find_role journal role = None → object w' role = object w role.
Proof.
  intros Hb Hent. assert (Forall (λ e, je_phase e = PhasePending) entries) as Hpend.
  { eapply Forall_impl; [exact Hent|]. intros e (role & intended & sibling & prior & He). by eapply pending_new. }
  destruct (apply_plan_recovers (object w) bindings Hb entries Hpend w ltac:(done)) as ([w' r] & -> & Hrec & Hok).
  exists w', r. split_and!; [done| |].
  - destruct Hrec as [?|(j & Hd & Hj & ? & Hp & Ho)]; [by left|]. right. exists j.
    split_and!; try done. by apply journal_ok_validates.
  - intros j Hr. destruct (Hok j Hr) as ((Hd & Hj & _ & Hp & Ho) & Hst & Hperm). cbn [fst] in *.
    split_and!; [done..| |].
    + intros e Hin. apply list_elem_of_split in Hin as (pre & post & Heq).
      pose proof (jo_state _ Hj) as Hs. unfold state_ok in Hs. rewrite Hst in Hs. destruct Hs as [_ Hsh].
      unfold forward_shape in Hsh. cbn in Hsh. rewrite app_nil_r in Hsh. apply phases_replicate in Hsh.
      pose proof (eo_valid _ (jo_entries _ Hj)) as Hv. rewrite Heq in Hsh, Hv.
      apply Forall_app in Hsh as [_ Hsh]. apply Forall_cons in Hsh as [Hph _].
      apply Forall_app in Hv as [_ Hv]. apply Forall_cons in Hv as [Hv _].
      rewrite Ho by done. unfold journal_object. rewrite (find_role_middle _ _ _ _ (jo_entries _ Hj) Heq).
      unfold entry_object. rewrite Hph. destruct (applied_identity e) as (identity & Hid & Hm); [unfold is_applied; by rewrite Hph|done|].
      exists identity. unfold current_object. by rewrite Hid.
    + intros role Hf. rewrite Ho by done. unfold journal_object. by rewrite Hf.
Qed.

(** A rollback ends after at most 64 iterations.  Whatever fails, a restart
    finds a valid journal of the same transaction, and no destination is touched
    that the journal did not record as installed.  On success the journal is
    rolled back and every recorded object is gone, or replaced by the one that was
    there before, or, for the directories that hold the journals, still there. *)
Lemma rollback_undoes_recorded (w : W) journal :
  durable w = Some journal → journal_ok journal →
  ∃ w' r, rollback_journal w journal = Some (w', r) ∧
    (∃ journal', durable w' = Some journal' ∧ InstallJournalV1_validate journal' = Ok tt ∧
       jn_bindings journal' = jn_bindings journal) ∧
    (∀ role, untouched journal role → object w' role = object w role) ∧
    ∀ journal', r = Ok journal' → durable w' = Some journal' ∧ jn_state journal' = JournalRolledBack ∧
      ∀ role e, find_role journal role = Some e → is_applied e = true →
        object w' role = if retained e then current_object e else prior_object e.
Proof.
  intros Hd Hok. destruct (rollback_journal_undoes w journal Hd Hok) as ([w' r] & -> & (j & ? & Hj & ?) & Hu & Hr).
  exists w', r. split_and!; [done| |done|].
  - exists j. split_and!; [done|by apply journal_ok_validates|done].
  - intros j' Hj'. destruct (Hr j' Hj') as (? & ? & Ho). split_and!; [done..|].
    intros role e Hf He. cbn [fst] in Ho. rewrite Ho. unfold undone_object. by rewrite Hf, He.
Qed.

(** C18: Installing and rolling back: when an installation on a clean host has been
    interrupted anywhere and the journal it left is rolled back with success,
    every destination is as it was before the installation, except a directory
    that holds the journals and the object whose installation was under way. *)
Theorem rollback_restores_layout (w w1 w2 : W) bindings entries r1 journal journal' :
  InstallJournalBindingsV1_validate bindings = Ok tt →
  Forall (λ e, ∃ role intended sibling prior, InstallJournalEntryV1_new role intended sibling prior = Ok e) entries →
  durable w = None → apply_plan w bindings entries = Some (w1, r1) → durable w1 = Some journal →
  rollback_journal w1 journal = Some (w2, Ok journal') →
  ∀ role, in_flight journal ≠ Some role →
    object w2 role = object w role ∨ (is_journal_retention_directory role = true ∧ object w role = None).
Proof.
  intros Hb Hent Hclean Happ Hd1 Hroll role Hfl. assert (Forall (λ e, je_phase e = PhasePending) entries) as Hpend.
  { eapply Forall_impl; [exact Hent|]. intros e (role' & intended & sibling & prior & He). by eapply pending_new. }
  destruct (apply_plan_recovers (object w) bindings Hb entries Hpend w ltac:(done)) as (r & Hr & Hrec & _).
  rewrite Happ in Hr. injection Hr as <-. cbn [fst] in Hrec.
  destruct Hrec as [[Hl _]|(j & Hd & Hok & _ & Hp & Ho)]; [congruence|].
  rewrite Hd1 in Hd. injection Hd as <-.
  destruct (rollback_journal_undoes w1 journal Hd1 Hok) as (r & Hr & _ & _ & Hund).
  rewrite Hroll in Hr. injection Hr as <-. cbn [fst snd] in Hund. destruct (Hund _ eq_refl) as (_ & _ & Hobj).
  rewrite Hobj. specialize (Ho role Hfl). unfold undone_object, journal_object in *.
  destruct (find_role journal role) as [e|] eqn:Hf; [|by left].
  apply find_role_In in Hf as [Hin <-]. unfold priors_recorded in Hp. rewrite Forall_forall in Hp.
  specialize (Hp e Hin). unfold entry_object in Ho. unfold is_applied. unfold undone_entry, retained, prior_object in *.
  destruct (je_phase e) eqn:Hph; [by left|..]; destruct Hp as [?|Hp]; try done; cbv iota; rewrite ?Ho;
    (case_bool_decide as Hpr; cbn [andb]; [|by left]); rewrite Hpr in Hp |- *;
    (destruct (is_journal_retention_directory _); [by right|by left]).
Qed.

(** A rollback that dies after it removed an object and before it recorded so
    can never be completed: the journal still names the removed object, and every
    later rollback fails on it and leaves everything as it is. *)
Lemma interrupted_rollback_wedges (w w1 w2 : W) journal step role current parent :
  durable w = Some journal → journal_ok journal →
  next_rollback_action journal = Some (RemoveExact step role current parent) →
  rollback_remove_exact w role current = (w1, Ok tt) → leaves object durable w1 w2 →
  ∃ w3, rollback_journal w2 journal = Some (w3, Err tt) ∧ leaves object durable w1 w3.
Proof.
  intros Hd Hok Hn Hrem [Hd2 Ho2]. pose proof (rolling_action _ _ Hok Hn) as [Hst _].
  pose proof (remove_changes w role current) as (Hd1 & _ & Hnew). rewrite Hrem in *. cbn [fst snd] in *.
  destruct (Hnew tt eq_refl) as [_ Hgone].
  assert (object w2 role ≠ Some (persistent current)) as Hne by (rewrite Ho2, Hgone; done).
  destruct (remove_refuses w2 role current Hne) as [[Hd3 Ho3] Herr].
  exists (rollback_remove_exact w2 role current).1. split.
  - unfold rollback_journal, enter_rollback. rewrite Hst, bool_decide_eq_true_2 by done. cbn [negb].
    unfold INSTALLER_FUEL. cbn [rollback_loop]. rewrite Hn. unfold rollback_step. cbn [undo].
    destruct (rollback_remove_exact w2 role current) as [w3 res]. cbn [fst snd] in *. by subst res.
  - split; [congruence|]. intros r. by rewrite Ho3, Ho2.
Qed.

(** An installer that dies after it installed an object and before it recorded
    so leaves the object for good: the rollback of the journal it left succeeds
    and does not remove it. *)
Theorem interrupted_apply_leaves_residue (w w1 w2 : W) journal journal' step role e outcome :
  durable w = Some journal → journal_ok journal →
  next_forward_action journal = Some (ForwardApply step role) → find_role journal role = Some e →
  apply_entry w e = (w1, Ok outcome) → rollback_journal w1 journal = Some (w2, Ok journal') →
  jn_state journal' = JournalRolledBack ∧ object w2 role = Some (persistent outcome.1).
Proof.
  intros Hd Hok Hn Hf Happ Hroll. pose proof (find_role_In _ _ _ Hf) as [_ Hrole].
  pose proof (apply_changes w e) as (Hd1 & _ & Hnew). rewrite Happ in *. cbn [fst snd] in *.
  destruct (Hnew outcome eq_refl) as [_ Hobj].
  destruct (rollback_journal_undoes w1 journal (eq_trans Hd1 Hd) Hok) as (r & Hr & _ & Hu & Hfin).
  rewrite Hroll in Hr. injection Hr as <-. destruct (Hfin _ eq_refl) as (_ & ? & _). split; [done|].
  rewrite <-Hobj, Hrole. apply Hu. intros e' He'. rewrite Hf in He'. injection He' as <-.
  assert (jn_state journal = JournalApplying) as Hst by (unfold next_forward_action in Hn; by case_bool_decide).
  pose proof (applying_next _ Hok Hst) as Hnext. rewrite Hn in Hnext.
  destruct Hnext as (pre & e' & post & Heq & _ & _ & Hr & Hph & _).
  pose proof (find_role_middle _ _ _ _ (jo_entries _ Hok) Heq) as Hf'. rewrite <-Hr, Hf in Hf'. injection Hf' as ->.
  unfold is_applied. by rewrite Hph.
Qed.

(** A journal that was made durable before its first action cannot be rolled back. *)
Lemma prepared_journal_cannot_be_rolled_back (w : W) journal :
  jn_state journal = JournalPrepared → rollback_journal w journal = Some (w, Err tt).
Proof.
  intros Hst. unfold rollback_journal, enter_rollback, begin_rollback. rewrite Hst. cbn.
  rewrite bool_decide_eq_false_2 by done. cbn. by rewrite orb_true_r.
Qed.
End theorems.

(** A file system that dies after a given number of calls. *)
Module InstallerExample.
Import InstallJournalExample.

Record disk : Type := mkdisk {
  d_objects : InstallRoleV1 → option InstallObjectIdentityV1;
  d_backups : string → option InstallObjectIdentityV1;
  d_journal : option InstallJournalV1;
  d_calls : nat;
}.

Definition set_object (w : disk) (role : InstallRoleV1) (new : option InstallObjectIdentityV1) : disk :=
  mkdisk (λ r, if decide (r = role) then new else d_objects w r) (d_backups w) (d_journal w) (d_calls w).
Definition set_journal (w : disk) (journal : InstallJournalV1) : disk :=
  mkdisk (d_objects w) (d_backups w) (Some journal) (d_calls w).
Definition with_calls (w : disk) (n : nat) : disk := mkdisk (d_objects w) (d_backups w) (d_journal w) n.

Definition call {A} (w : disk) (f : disk → disk * result unit A) : disk * result unit A :=
  match d_calls w with O => (w, Err tt) | S n => f (with_calls w n) end.

Definition created (entry : InstallJournalEntryV1) : InstallObjectIdentityV1 :=
  let intended := je_intended entry in
  mkInstallObjectIdentityV1 (ii_object_kind intended) 1 (100 + install_order (je_role entry))
    (match ii_object_kind intended with KindDirectory => 2 | KindRegularFile => 1 end)
    (ii_sha256 intended) (ii_mode intended) (ii_uid intended) (ii_gid intended).

Definition exactly (w : disk) (role : InstallRoleV1) (expected : option InstallObjectIdentityV1)
    (w' : disk) : disk * result unit unit :=
  if bool_decide (d_objects w role = expected) then (w', Ok tt) else (w, Err tt).

#[export] Instance disk_filesystem : InstallFilesystem disk := {
  bootstrap_journal w journal := call w (λ w, (set_journal w journal, Ok tt));
  publish_journal w journal := call w (λ w, (w, Ok tt));
  persist_journal w journal := call w (λ w, (set_journal w journal, Ok tt));
  inspect_optional_exact w role := call w (λ w, (w, Ok (d_objects w role)));
  inspect_exact w role := call w (λ w, (w, ok_or (d_objects w role) tt));
  apply_entry w entry := call w (λ w,
    let prior := match je_prior_state entry with PriorAbsent => None | PriorOwned identity _ => Some identity end in
    and_then (exactly w (je_role entry) prior (set_object w (je_role entry) (Some (created entry))))
      (λ w _, (w, Ok (created entry, None))));
  verify_exact w role expected := call w (λ w, exactly w role (Some expected) w);
  rollback_remove_exact w role expected := call w (λ w, exactly w role (Some expected) (set_object w role None));
  rollback_restore_exact w role current basename backup := call w (λ w,
    exactly w role (Some current) (set_object w role (Some backup)));
}.

Definition disk_object (w : disk) (role : InstallRoleV1) : option InstallObjectIdentityV1 :=
  persistent <$> d_objects w role.

Lemma call_leaves {A} (w : disk) (f : disk → disk * result unit A) :
  (∀ w, leaves disk_object d_journal w (f w).1) → leaves disk_object d_journal w (call w f).1.
Proof. intros Hf. unfold call. destruct (d_calls w) as [|n]; [done|]. apply (Hf (with_calls w n)). Qed.

Lemma call_stores w journal :
  stores disk_object d_journal w journal (call w (λ w, (set_journal w journal, Ok tt))).
Proof. unfold call. destruct (d_calls w); (split; [done|]); [by right|by left]. Qed.

Lemma exactly_changes {A} w role old new (a : A) :
  changes disk_object d_journal w role
    (and_then (exactly w role old (set_object w role new)) (λ w _, (w, Ok a)))
    (persistent <$> old) (λ _, persistent <$> new).
Proof.
  unfold exactly. case_bool_decide as Hold; cbn; (split_and!; [done| |]); try done.
  - intros r Hr. unfold disk_object. cbn. by rewrite decide_False.
  - intros _ _. unfold disk_object. rewrite Hold. cbn. by rewrite decide_True.
Qed.

Lemma call_changes {A} w role (f : disk → disk * result unit A) old new :
  (∀ w, changes disk_object d_journal w role (f w) old new) →
  changes disk_object d_journal w role (call w f) old new.
Proof. intros Hf. unfold call. destruct (d_calls w) as [|n]; [done|]. apply (Hf (with_calls w n)). Qed.

Lemma exactly_unit w role old w' :
  exactly w role old w' = and_then (exactly w role old w') (λ w _, (w, Ok tt)).
Proof. unfold exactly. by case_bool_decide. Qed.

#[export] Instance disk_spec : InstallFilesystemSpec disk.
Proof.
  refine {| object := disk_object; durable := d_journal |}; intros w; intros.
  - apply call_stores.
  - apply call_stores.
  - by apply call_leaves.
  - by apply call_leaves.
  - apply call_leaves. done.
  - cbn in *. unfold call in *. destruct (d_calls w); [done|]. cbn in *. unfold disk_object.
    destruct (d_objects w role); [|done]. by injection H as ->.
  - apply call_leaves. intros w'. unfold exactly. by case_bool_decide.
  - apply (call_changes w (je_role entry)). intros w'. unfold prior_object.
    pose proof (exactly_changes w' (je_role entry)
      (match je_prior_state entry with PriorAbsent => None | PriorOwned identity _ => Some identity end)
      (Some (created entry)) (created entry, @None InstallObjectIdentityV1)) as (? & ? & Hc).
    split_and!; [done..|]. intros a Ha. destruct (Hc a Ha) as [Hold Hnew]. split.
    + rewrite Hold. by destruct (je_prior_state entry).
    + cbn in *. unfold exactly in Ha. case_bool_decide; [|done]. cbn in Ha. injection Ha as <-. done.
  - apply (call_changes w role). intros w'. rewrite exactly_unit. apply (exactly_changes w' role (Some expected) None).
  - cbn. unfold call. destruct (d_calls w) as [|n]; [done|]. unfold exactly. case_bool_decide as Heq; [|done].
    exfalso. apply H. unfold disk_object. cbn in Heq. by rewrite Heq.
  - apply (call_changes w role). intros w'. rewrite exactly_unit.
    apply (exactly_changes w' role (Some current) (Some backup)).
Defined.

Definition empty_disk (calls : nat) : disk := mkdisk (λ _, None) (λ _, None) None calls.

(** The world in which the installer leaves when it dies after [n] calls. *)
Definition crashed_run (n : nat) : disk * result unit InstallJournalV1 :=
  default (empty_disk 0, Err tt) (apply_plan (empty_disk n) bindings entries).
Definition crashed (n : nat) : disk := (crashed_run n).1.

Definition journal_of (w : disk) : InstallJournalV1 := default (InstallJournalV1_new bindings) (d_journal w).
Definition undone (w : disk) (journal : InstallJournalV1) : disk * result unit InstallJournalV1 :=
  default (w, Err tt) (rollback_journal w journal).

Lemma bindings_valid : InstallJournalBindingsV1_validate bindings = Ok tt.
Proof. vm_compute. reflexivity. Defined.

Definition dir_id : InstallObjectIdentityV1 := created directory_entry.
Definition file_id : InstallObjectIdentityV1 := created file_entry.
Definition half_installed : list journal_op :=
  [OpPrepare entries; OpStartApplying; OpRecordApplied ProductLibexecRoot dir_id None;
   OpRecordVerified ProductLibexecRoot dir_id].
Definition rolling : list journal_op :=
  half_installed ++ [OpRecordApplied Daemon file_id None; OpRecordVerified Daemon file_id; OpMarkInstalled; OpBeginRollback].

Lemma ops_ok ops :
  Forall op_constructed ops → journal_ok (journal_run (InstallJournalV1_new bindings) ops).
Proof. intros Hops. by apply run_ok; [apply journal_ok_new, bindings_valid|]. Qed.

Definition rolling_journal : InstallJournalV1 := journal_run (InstallJournalV1_new bindings) rolling.
Definition half_journal : InstallJournalV1 := journal_run (InstallJournalV1_new bindings) half_installed.

Lemma rolling_ok : journal_ok rolling_journal.
Proof.
  apply ops_ok. apply Forall_cons_2; [exact constructed|]. do 7 (apply Forall_cons_2; [exact I|]). apply Forall_nil_2.
Qed.
Lemma half_ok : journal_ok half_journal.
Proof.
  apply ops_ok. apply Forall_cons_2; [exact constructed|]. do 3 (apply Forall_cons_2; [exact I|]). apply Forall_nil_2.
Qed.

(** Both objects are installed and the rollback has begun. *)
Definition rolling_disk : disk := with_calls (set_journal (crashed 100) rolling_journal) 9.
(** The directory is installed and the file is about to be. *)
Definition half_disk : disk := with_calls (set_journal (crashed 7) half_journal) 9.

Lemma undone_run w journal journal' :
  (undone w journal).2 = Ok journal' → rollback_journal w journal = Some ((undone w journal).1, Ok journal').
Proof. unfold undone. destruct (rollback_journal w journal) as [[w' r]|]; [|done]. cbn. by intros ->. Qed.

Lemma rolling_durable : durable rolling_disk = Some rolling_journal.
Proof. reflexivity. Qed.
Lemma empty_durable calls : durable (empty_disk calls) = None.
Proof. reflexivity. Qed.
Lemma half_durable : durable half_disk = Some half_journal.
Proof. reflexivity. Qed.

Lemma call_result {A} (m : disk * result unit A) a : m.2 = Ok a → m = (m.1, Ok a).
Proof. destruct m. by intros [= ->]. Qed.

Lemma interrupted_install_is_recoverable_witness :
  (jn_state (journal_of (crashed 100)), d_objects (crashed 100) Daemon, d_objects (crashed 8) Daemon,
   je_phase <$> jn_entries (journal_of (crashed 8)))
  = (JournalInstalled, Some file_id, Some file_id, [PhaseVerified; PhasePending]) ∧
  ∃ w' r, apply_plan (empty_disk 8) bindings entries = Some (w', r).
Proof.
  split; [vm_compute; reflexivity|].
  destruct (interrupted_install_is_recoverable (empty_disk 8) bindings entries bindings_valid constructed)
    as (w' & r & Happ & _). exists w', r. exact Happ.
Defined.

Lemma rollback_undoes_recorded_witness :
  (jn_state (journal_of (undone rolling_disk rolling_journal).1), d_objects (undone rolling_disk rolling_journal).1 Daemon)
  = (JournalRolledBack, None) ∧
  ∃ w' r, rollback_journal rolling_disk rolling_journal = Some (w', r).
Proof.
  split; [vm_compute; reflexivity|].
  destruct (rollback_undoes_recorded rolling_disk rolling_journal rolling_durable rolling_ok) as (w' & r & Hr & _).
  exists w', r. exact Hr.
Defined.

Lemma restored : (undone (crashed 100) (journal_of (crashed 100))).2 = Ok (journal_of (undone (crashed 100) (journal_of (crashed 100))).1).
Proof. vm_compute. reflexivity. Qed.

Lemma restored_run : rollback_journal (crashed 100) (journal_of (crashed 100))
  = Some ((undone (crashed 100) (journal_of (crashed 100))).1, Ok (journal_of (undone (crashed 100) (journal_of (crashed 100))).1)).
Proof. exact (undone_run _ _ _ restored). Qed.

Lemma installed_run :
  apply_plan (empty_disk 100) bindings entries = Some (crashed 100, (crashed_run 100).2).
Proof.
  unfold crashed, crashed_run. destruct (apply_plan (empty_disk 100) bindings entries) as [[w r]|] eqn:Hm; [done|].
  exfalso. assert (is_some (apply_plan (empty_disk 100) bindings entries) = true) as Hs by (vm_compute; reflexivity).
  rewrite Hm in Hs. discriminate Hs.
Qed.
Lemma installed_durable : durable (crashed 100) = Some (journal_of (crashed 100)).
Proof. vm_compute. reflexivity. Qed.

Lemma rollback_restores_layout_witness :
  d_objects (crashed 100) Daemon = Some file_id ∧
  ∀ role, in_flight (journal_of (crashed 100)) ≠ Some role →
    object (undone (crashed 100) (journal_of (crashed 100))).1 role = object (empty_disk 100) role ∨
    (is_journal_retention_directory role = true ∧ object (empty_disk 100) role = None).
Proof.
  split; [vm_compute; reflexivity|].
  apply (rollback_restores_layout (empty_disk 100) (crashed 100) (undone (crashed 100) (journal_of (crashed 100))).1 bindings entries
    (crashed_run 100).2 (journal_of (crashed 100)) (journal_of (undone (crashed 100) (journal_of (crashed 100))).1)
    bindings_valid constructed (empty_durable 100) installed_run installed_durable).
  exact restored_run.
Defined.

Lemma interrupted_rollback_wedges_witness :
  next_rollback_action rolling_journal = Some (RemoveExact 9 Daemon file_id None) ∧
  ∃ w3, rollback_journal (with_calls (rollback_remove_exact rolling_disk Daemon file_id).1 100) rolling_journal
    = Some (w3, Err tt).
Proof.
  split; [vm_compute; reflexivity|].
  destruct (interrupted_rollback_wedges rolling_disk (rollback_remove_exact rolling_disk Daemon file_id).1
    (with_calls (rollback_remove_exact rolling_disk Daemon file_id).1 100) rolling_journal 9 Daemon file_id None
    rolling_durable rolling_ok) as (w3 & Hr & _).
  - vm_compute. reflexivity.
  - apply call_result. vm_compute. reflexivity.
  - split; [reflexivity|]. intros role. reflexivity.
  - exists w3. exact Hr.
Defined.

Definition lost_disk : disk := (apply_entry half_disk file_entry).1.
Definition lost_undone : disk * result unit InstallJournalV1 := undone lost_disk half_journal.

Lemma lost_ok : lost_undone.2 = Ok (journal_of lost_undone.1).
Proof. vm_compute. reflexivity. Qed.

Lemma interrupted_apply_leaves_residue_witness :
  jn_state (journal_of lost_undone.1) = JournalRolledBack ∧ object lost_undone.1 Daemon = Some (persistent file_id).
Proof.
  apply (interrupted_apply_leaves_residue half_disk lost_disk lost_undone.1 half_journal (journal_of lost_undone.1)
    5 Daemon file_entry (file_id, None) half_durable half_ok).
  - vm_compute. reflexivity.
  - vm_compute. reflexivity.
  - apply call_result. vm_compute. reflexivity.
  - exact (undone_run _ _ _ lost_ok).
Defined.
End InstallerExample.
